(* ===== verification/_CoqProject ===== *)
-Q . S2P
Prelude.v
JsString.v
Regex.v
JsNumber.v
JsFloat.v
Json.v
JsArray.v
JsonRoundtrip.v
JsonIndent.v
JsRecord.v
BillingExpr.v
BillingRules.v
RuleRoundtrip.v
RuleTheorems.v
TierExpr.v
TierRoundtrip.v
TierTheorems.v
TierDisplay.v
TierRules.v
TierEditor.v
Pricing.v
PricingTheorems.v
EditorTheorems.v
PricingSettings.v
PricingSettingsTheorems.v
StatusCodes.v
ModelMapping.v
Messages.v
Chat.v
ChatRefinement.v
Storage.v
Channels.v
ChannelForm.v
ChannelFormTheorems.v
ParamOverride.v
ParamDialog.v
ParamRoundtrip.v
ParamTheorems.v
RatioSync.v
RatioSyncTheorems.v
RatioSyncPage.v
GroupRatios.v
GroupRatioTheorems.v
GroupDialogs.v
GroupRules.v
GroupRuleTheorems.v
RatioSettings.v
RatioSettingsTheorems.v
ToolPrices.v
NavConfig.v
NavModules.v
NavTheorems.v
SidebarTheorems.v
SettingsHook.v
SettingsHookTheorems.v
UpstreamUpdates.v
UpstreamUpdateTheorems.v
ChannelDrawer.v
ChannelDrawerTheorems.v
ChannelDrawerModels.v
SecureVerification.v
ChannelKey.v
ChannelKeyTheorems.v
Currency.v
ApiKeyForm.v
RedemptionForm.v
PlanForm.v
UserQuota.v
QuotaTheorems.v
Topup.v
Wallet.v
WalletTheorems.v
Dashboard.v
DashboardTheorems.v
TableUrl.v
TableUrlTheorems.v
UsageLogs.v
UsageLogTheorems.v
