(* ===== verification/Prelude.v ===== *)
(** * A verification of the frontend logic of new-api

    new-api is a gateway for language model services.  Its web frontend
    (src/web/default/src) carries logic of its own: the language of the billing
    expressions, the chat playground, and the administration of channels, prices,
    groups and navigation, the forms for keys, codes, plans and users, the wallet, the dashboard and
    the logs.  This development translates that logic from TypeScript
    into executable definitions and proves what makes it correct.

    ** Parts of the program and their files

    The language.  [JsString], [Regex], [JsNumber], [Json] and [JsArray] model what
    the code uses of JavaScript: strings are lists of 16-bit code units, numbers
    are IEEE doubles with their decimal conversions, regular expressions run on a
    backtracking matcher with the ECMAScript rules, an object is the list of its
    properties in insertion order, and [exn] is the outcome of code that may throw.
    [JsonRoundtrip] proves that [JSON.parse] reads back what [JSON.stringify] wrote,
    [JsonIndent] the same for texts indented by two spaces.  [JsRecord] holds objects
    that are used as maps.  [JsFloat] holds the rounding functions of [Math] and dates
    as numbers, with the theory the quotas need: products, quotients and rounding of
    doubles up to a relative error, and exactly on integers.

    Request rules, features/pricing/lib/billing-expr.ts.  [BillingExpr] holds the
    variable registry, the tier parser, the parser and the builder of request rules,
    and the separation of a base expression from its rules.  [BillingRules] holds
    the theory of balanced texts and separators, [RuleRoundtrip] and [RuleTheorems]
    prove that the parser reads back what the editor writes, and where it does not.

    Visual tiers, features/pricing/lib/tier-expr.ts.  [TierExpr] holds the tiers,
    their normalization, the expression written for them and the parser that reads
    it; [TierRoundtrip] and [TierTheorems] follow the regular expressions of the
    parser through a written text.  [TierDisplay] shows that the other parser, the
    one of the price page, finds the same tiers, and [TierRules] that the tiers and
    the rules of a saved expression come apart again.

    The tiered pricing editor,
    features/system-settings/models/tiered-pricing-editor.tsx.  [TierEditor] holds
    its number inputs, the edits of tiers and rules, the presets, and the component
    itself.  A render of the component is [commit]: the effects run in the order of
    the source on the values of that render, each only when one of its dependencies
    changed, their state updates are applied together, and the two callbacks change
    the properties the parent passes in the next render.  [EditorTheorems] is about
    sequences of edits and of renders.

    Prices, features/pricing/lib/price.ts, dynamic-price.ts, filters.ts and
    model-helpers.ts.  [Pricing] and [PricingTheorems]: the decimal texts of prices
    on doubles, group ratios, the prices of tiers, and the model list.

    Price settings, features/system-settings/models: model-pricing-sheet.tsx,
    model-ratio-visual-editor.tsx, pricing-format.ts, utils.ts and
    utils/json-parser.ts.  [PricingSettings] holds the sheet of one model as a
    record with one function per handler, and the table over the ten option texts;
    [PricingSettingsTheorems] is about the sheet, about saving and about opening
    what was saved.

    Upstream prices, features/system-settings/models: upstream-ratio-sync.tsx with
    its helpers, table and columns, and channel-selector-dialog.tsx.  [RatioSync]
    holds the differences fetched from other services, the page that chooses values
    among them, and the sync that writes the choice into the ten options, one answer
    of the server after the other; [RatioSyncTheorems] and [RatioSyncPage] are about
    the choice, the sync and the columns.

    Groups, features/system-settings/models: group-ratio-visual-editor.tsx,
    group-special-usable-editor.tsx, ratio-settings-card.tsx and
    tool-price-settings.tsx.  [GroupRatios] holds the table of groups and the other
    ratios as edits of option texts, [GroupDialogs] the state machine of the
    dialogs, [GroupRules] the special usable groups, [RatioSettings] the forms that
    save the options with hooks/use-update-option.ts, where the class [FormFields]
    states what a form tells the save, and [ToolPrices] the prices of tools.
    [GroupRatioTheorems], [GroupRuleTheorems] and [RatioSettingsTheorems] are about
    them.

    Navigation.  [NavConfig] holds the settings of the administrator
    (features/system-settings/maintenance: config.ts, header-navigation-section.tsx,
    sidebar-modules-section.tsx), [NavModules] the navigation that is shown
    (lib/nav-modules.ts, hooks/use-top-nav-links.ts, use-sidebar-config.ts,
    use-sidebar-view.ts and use-sidebar-data.ts) with the switches of the user
    (features/profile/components/sidebar-modules-card.tsx); [NavTheorems] and
    [SidebarTheorems] relate what is saved to what is shown.

    Settings forms, features/system-settings/hooks/use-settings-form.ts.
    [SettingsHook] holds the nesting and flattening of settings with dotted names and the
    hook, [SettingsHookTheorems] its properties, for the nested settings the pages give it.

    Status codes, lib/http-status-code-rules.ts and
    features/channels/lib/status-code-risk-guard.ts.  [StatusCodes.StatusRules] and
    [StatusCodes.RiskGuard]: the texts that name status codes, the canonical form of
    a set of ranges, and the guard on redirected codes.

    Model mappings, features/channels/lib/model-mapping-validation.ts.
    [ModelMapping].

    The playground, features/playground.  [Messages] holds the messages, the think
    blocks and the request payload (lib/message-utils.ts, lib/payload-builder.ts);
    [Chat] holds the session: the callbacks of hooks/use-stream-request.ts and
    hooks/use-chat-handler.ts and the handlers of index.tsx as one function per
    event, with a step relation for what the user interface allows, an edit submitted
    over an open stream included;
    [ChatRefinement] holds the abstract conversation that a session implements;
    [Storage] holds the state kept in local storage (lib/storage.ts,
    hooks/use-playground-state.ts), a finite map whose writes may exceed the quota.

    Channels, features/channels.  [Channels] holds the data of a channel, its
    tables and the utilities (lib/channel-utils.ts, multi-key-utils.ts,
    ollama-utils.ts, upstream-update-utils.ts); [ChannelForm] and
    [ChannelFormTheorems] hold the form (lib/channel-form.ts): a channel becomes
    form values, and form values become the payloads that create and update it.

    The channel drawer, features/channels/components/drawers/channel-mutate-drawer.tsx
    with hooks/use-channel-mutate-form.ts and the dialogs for missing models and risky
    status codes.  [ChannelDrawer] holds the checks of the form's schema, the effects
    that load and reset the form, the submission with its questions, the mutation and
    a step function over all events; [ChannelDrawerTheorems] and [ChannelDrawerModels]
    are about every run of it and about the warnings it shows.

    Secure verification, features/auth/secure-verification (hook, dialog, api.ts) and
    lib/secure-verification.ts.  [SecureVerification] holds the hook as a state machine
    with its calls in flight; the class [Protected] states what an operation that may
    need verification provides.  [ChannelKey] is its instance for the key of a channel
    in the drawer, [ChannelKeyTheorems] says when a key can appear.

    Currencies and quotas, lib/currency.ts, lib/format.ts,
    stores/system-config-store.ts and hooks/use-system-config.ts.  [Currency] holds the
    configuration, the units that are displayed, the conversions and the formats; the
    number format of the browser is a parameter.  The forms that show a quota in that
    unit are [ApiKeyForm] (features/keys/lib/api-key-form.ts), [RedemptionForm]
    (features/redemption-codes/lib/redemption-form.ts), [PlanForm]
    (features/subscriptions/lib/plan-form.ts) and [UserQuota]
    (features/users/lib/user-form.ts, components/user-quota-dialog.tsx);
    [QuotaTheorems] proves that what is shown is stored again unchanged.

    The wallet, features/wallet.  [Topup] holds the configuration of payments: the
    parsers of hooks/use-topup-info.ts, lib/payment.ts, lib/format.ts and
    constants.ts.  [Wallet] holds the page index.tsx with the hooks for payments, codes
    and transfers, the conditions of components/recharge-form-card.tsx and of the
    dialogs, and the requests that wait, as a step function over all events;
    [WalletTheorems] is about every run of it.

    The dashboard, features/dashboard/lib (charts.ts, stats.ts, filters.ts) and
    lib/time.ts.  [Dashboard] holds the aggregation of usage records, the values of the
    charts, the time ranges and the stored preferences; [DashboardTheorems] adds up what
    the charts show.

    Tables and logs.  [TableUrl] holds hooks/use-table-url-state.ts, the state that a
    table keeps in the address of its page, with the configurations of the seven tables
    that use it; [TableUrlTheorems] is about every run of it.  [UsageLogs] holds the
    requests of the table of logs and the explanation of a price
    (features/usage-logs/lib/utils.ts, format.ts), [UsageLogTheorems] their properties.

    Upstream model updates, features/channels: hooks/use-channel-upstream-updates.ts,
    components/dialogs/upstream-update-dialog.tsx and the tags, the menu entry and the
    buttons that call the hook.  [UpstreamUpdates] holds the hook, the dialog and the
    calls that wait for an answer as one page with a step function over all events;
    [UpstreamUpdateTheorems] is about every run of it.

    Parameter overrides,
    features/channels/components/dialogs/param-override-editor-dialog.tsx.
    [ParamOverride] holds the operations, their validation and the JSON texts that
    are written and read; [ParamDialog] the dialog: its state, one function per
    handler, the effects, and a step function over all events.  Code that draws
    identifiers is a state and error monad over the counter; the clock is a class
    argument.  [ParamRoundtrip] proves that saved operations are read back,
    [ParamTheorems] the properties of the dialog.

    ** How the components meet

    Rule groups, tier configurations and indented JSON texts are stored by one
    component and read by another.  The class [Codec] of this file states what the
    reader relies on: encoded values are read back in a normal form with the same
    text.  [RuleTheorems], [TierTheorems] and [JsonIndent] give the instances.  The
    theorems on the editor use them to relate the parent's texts to what is shown,
    and a theorem of [EditorTheorems] goes from the editor through the saved
    expression to the price page.  What a sync writes is followed into the price
    table, the edits of the table of groups through a save of the form that holds
    their texts, and the switches of the navigation from the form of the
    administrator to the links, the entries and the guards of the pages.  The drawer
    composes the channel form, the validation of model mappings and the guard on status
    codes; the reveal of a key runs through the interface of protected operations; the
    forms of quotas use the conversions of the currency, and the wallet the parsed
    configuration of payments; the logs are asked for with the filters of the address and
    explained with the tiers the price editor wrote.

    ** What the theorems show

    Each theorem carries its side conditions, and its comment names them: what the rule
    and tier parsers read back are groups and configurations of the form [wf_group] and
    [wf_config], values that the text cannot tell apart are excluded, and the theorems
    listed under the defects below show what happens outside.

    Round trips: rule groups, combined expressions, tier configurations and single
    conditions survive their text; a change between the modes of the editor its
    state; saved prices and parameter overrides being opened again; status rules
    and model lists their normal form; messages and playground settings a reload;
    channel settings being saved and opened again; groups, special rules and the
    switches of the navigation being saved and read; a quota its display in any
    currency, through four roundings of doubles, and with it keys, codes and plans an
    edit that changes nothing.

    Refinement: every run of a streaming session, in which no edit is submitted over an
    open stream, is a run of a conversation, in
    which a settled history is followed by at most one answer; the server changes
    only that answer, and every way of ending it leaves a settled history.

    Functional specifications: saving prices writes exactly the entries that are kept
    beside one another (a fixed price excludes the ratios) and keeps those of other
    models; a rule text of status codes covers the codes its pieces name, and merged ranges
    are the canonical form of a set of codes; the think block reader is the inverse of writing blocks; the aggregation
    by tag is the grouping; the text of a price denotes the nearest decimal; the
    settings of a channel are given property by property; dragging an operation
    moves only that one; a sync writes exactly the chosen values, and a form of
    settings sends exactly the options that were changed, and stores them when the server
    accepts them; a confirmation of upstream
    updates sends exactly the choice that is shown; the charts of the dashboard divide
    the usage completely, and a log shows exactly the tier that was matched; filters, guards, validators and payloads are characterized
    exactly.

    Invariants: no message of a streaming session is left pending once no stream is
    open, unless an edit was submitted over one; the identifiers of the override dialog are never shared; edits keep the
    tiers well-formed; renders of an opened configuration
    change nothing; the ratios of a price sheet follow its prices; the text of the shown answer
    does not depend on the chunks it arrived in; the stored state stays coherent
    with the shown one; chosen upstream values are offered and fit together; the
    dialogs of the group editor leave all options readable; the flags of upstream
    updates follow the calls that wait; the table and the text of tool prices say the
    same; no button of the wallet stays disabled, and the price it shows belongs to the
    amount it shows as long as the server answers in order; a table shows the filters the
    address means.

    Safety and equivalence: a sync that does not ask first removes no setting; what
    is stored for a user never adds a page or the chats to the sidebar; the two readers of the
    header's option agree; a channel is sent only after every check and question, and
    the warnings shown before agree with them where sources and targets are not blank; a key appears only after an answer of the
    server that follows a completed verification or needs none; a payment leaves by
    its confirmation, for the method and amount it shows, or, for the methods of Waffo,
    by the button of the method, and a redirect only to the web.

    Defects, stated as theorems on the code as it is: expressions and rules the
    visual editor cannot read are overwritten by opening them, a preset is applied
    by half, conditions of a last tier are not written, a model cannot be switched
    from a fixed price to token prices, a free group is shown at the full price,
    pruning rules cannot be edited, overrides change strings into numbers,
    conditions the rule editor writes and its parser cannot read, exceptions on
    malformed literals, overlapping requests and streams, lost error codes, a mask
    that hides nothing, ranges with ignored bounds, updates the server refused and
    the page reports as stored, endpoints that cannot be entered, changes lost by a
    save that fails halfway or by options fetched in between, removed prices that
    return, a page that stays open though its entry is hidden, models selected for
    one channel that are sent for another, values and keys of one channel that appear
    with another, limits that an edit switches on, adjustments of a quota that are sent
    twice, prices confirmed for another amount or method than the one that is paid, and
    usage that is counted and not drawn.

    ** Bounds and fuel

    The regular expression matcher, the JSON parser, the unwrapping of parentheses
    and the think block loop take fuel.  Each definition computes its own from the
    length of its input, and the theorems about its results prove it enough: reading
    back what [JSON.stringify] wrote for the JSON parser, no full outer parentheses
    left for the unwrapping, every text read as its blocks for the think blocks, and
    the round trips of rules and tiers for the matcher.  Renders of the editor are
    counted by an argument, and the theorems hold for any further number of them.
    Status codes and lengths are integers; the code keeps them far below 2^53, where
    doubles are exact.  Prices and other decimal quantities stay doubles.  Quotas are
    whole numbers below 2^48 in the theorems on their display, sums of usage stay below
    2^53, where they are exact, and dates lie in the range of JavaScript.

    ** What is not modelled

    Layout, menus and styles of the React components; HTTP requests (the components
    receive their answers as events); the form library (the fields it marks as changed
    are arguments); the local evaluation of an expression, which hands the text to the
    JavaScript engine; translation, calendars and the formatting of dates.  The number format and
    the URL parser of the browser, the order of strings by locale and lower case are
    parameters of the definitions that use them; whether a write fits into the storage
    is a parameter too.  In the wallet the data of the user, the subscription panel and
    the history of bills are left out.  The Go server, the classic frontend and the
    desktop shell are not part of the development.

    Still open are the payment settings of the administrator, the other system settings,
    the metadata of models and the credentials of Codex channels.

    This file holds what all others share: notations, automation, generic lemmas on
    booleans, lists and options, and the type [exn]. *)
From Stdlib Require Import NArith ZArith Strings.Byte.
From stdpp Require Export base list option.
From stdpp Require Import numbers.
From Stdlib Require Export Lia.

(** ** JavaScript strings

    A JavaScript string is a sequence of UTF-16 code units; [jsstr] is that
    sequence.  String literals of [js_scope] are written in UTF-8 in these files
    and decoded to code units by [lit_of_bytes]; inside a literal the escapes
    [\q] (the double quote), [\n] (line feed) and [\\] (backslash) are the only
    ones. *)

Abbreviation jsstr := (list N).

(** Alias that only serves as the target type of the literal notation. *)
Definition jsstr_lit : Type := list N.

Inductive lit : Type :=
| LNil
| LCons (c : N) (l : lit).

Definition lit_app_unit (c : N) (l : lit) : lit :=
  if (c <? 65536)%N then LCons c l
  else
    let v := (c - 65536)%N in
    LCons (55296 + N.shiftr v 10)%N (LCons (56320 + N.land v 1023)%N l).

Fixpoint lit_of_bytes (bs : list byte) : lit :=
  match bs with
  | [] => LNil
  | b0 :: t0 =>
      let n0 := Byte.to_N b0 in
      if (n0 =? 92)%N then
        match t0 with
        | b1 :: t1 =>
            let n1 := Byte.to_N b1 in
            if (n1 =? 113)%N then LCons 34 (lit_of_bytes t1)
            else if (n1 =? 110)%N then LCons 10 (lit_of_bytes t1)
            else LCons n1 (lit_of_bytes t1)
        | [] => LCons n0 LNil
        end
      else if (n0 <? 128)%N then LCons n0 (lit_of_bytes t0)
      else
        match t0 with
        | b1 :: t1 =>
            let n1 := N.land (Byte.to_N b1) 63 in
            if (n0 <? 224)%N then
              LCons (N.shiftl (N.land n0 31) 6 + n1)%N (lit_of_bytes t1)
            else
              match t1 with
              | b2 :: t2 =>
                  let n2 := N.land (Byte.to_N b2) 63 in
                  if (n0 <? 240)%N then
                    LCons (N.shiftl (N.land n0 15) 12 + N.shiftl n1 6 + n2)%N
                      (lit_of_bytes t2)
                  else
                    match t2 with
                    | b3 :: t3 =>
                        let n3 := N.land (Byte.to_N b3) 63 in
                        lit_app_unit
                          (N.shiftl (N.land n0 7) 18 + N.shiftl n1 12
                           + N.shiftl n2 6 + n3)%N
                          (lit_of_bytes t3)
                    | [] => LNil
                    end
              | [] => LNil
              end
        | [] => LNil
        end
  end.

(** Printing is limited to plain ASCII literals. *)
Fixpoint lit_to_bytes (l : lit) : option (list byte) :=
  match l with
  | LNil => Some []
  | LCons c l' =>
      if (c =? 34)%N || (c =? 92)%N || (127 <? c)%N then None
      else
        match Byte.of_N c, lit_to_bytes l' with
        | Some b, Some bs => Some (b :: bs)
        | _, _ => None
        end
  end.

Declare Scope js_scope.
Delimit Scope js_scope with js.
#[warnings="-via-type-remapping,-via-type-mismatch"]
String Notation jsstr_lit lit_of_bytes lit_to_bytes
  (via lit mapping [[nil] => LNil, [cons] => LCons]) : js_scope.
Open Scope js_scope.

(** ** Proof automation shared by the components *)

Create HintDb js discriminated.

(** Evaluate every comparison of code units of the goal that linear arithmetic
    settles. *)
Ltac unit_decide :=
  repeat match goal with
  | |- context [N.eqb ?a ?b] =>
      first [rewrite (proj2 (N.eqb_neq a b)) by lia | rewrite (proj2 (N.eqb_eq a b)) by lia]
  | |- context [N.leb ?a ?b] =>
      first [rewrite (proj2 (N.leb_gt a b)) by lia | rewrite (proj2 (N.leb_le a b)) by lia]
  end; try reflexivity.

(** Turn boolean conjunctions, disjunctions and negations into propositions. *)
Ltac bool_prop :=
  repeat match goal with
  | H : _ && _ = true |- _ => apply andb_prop in H; destruct H
  | H : _ || _ = false |- _ => apply orb_false_elim in H; destruct H
  | H : negb _ = true |- _ => apply negb_true_iff in H
  | H : negb _ = false |- _ => apply negb_false_iff in H
  | |- _ && _ = true => apply andb_true_intro; split
  | |- negb _ = true => apply negb_true_iff
  | |- negb _ = false => apply negb_false_iff
  end.

(** Break the goal and the hypotheses at the next [match] or [if] scrutinee. *)
Ltac split_match :=
  match goal with
  | H : context [match ?x with _ => _ end] |- _ => destruct x eqn:?
  | |- context [match ?x with _ => _ end] => destruct x eqn:?
  end.

(** Rewrite the goal with every boolean fact of the context. *)
Ltac use_bools :=
  repeat match goal with
  | H : ?b = true |- context [?b] => rewrite H
  | H : ?b = false |- context [?b] => rewrite H
  end.

(** ** Generic lemmas on lists *)

Lemma forallb_app_true {A} (f : A → bool) (l1 l2 : list A) :
  forallb f (l1 ++ l2) = true ↔ forallb f l1 = true ∧ forallb f l2 = true.
Proof. by rewrite forallb_app, andb_true_iff. Qed.

Lemma forallb_impl {A} (f g : A → bool) (l : list A) :
  (∀ x, f x = true → g x = true) → forallb f l = true → forallb g l = true.
Proof.
  intros Hfg. induction l as [|x l IH]; simpl; [done|].
  intros ?; bool_prop; auto.
Qed.

Lemma take_length_app_r {A} (l k : list A) n :
  n = length l → take n (l ++ k) = l.
Proof. intros ->. by rewrite take_app_length. Qed.

Lemma flat_map_nil_all {A B} (f : A → list B) (l : list A) :
  (∀ x, x ∈ l → f x = []) → flat_map f l = [].
Proof.
  induction l as [|x l IH]; simpl; [done|]. intros H.
  rewrite H by left. rewrite IH; [done|]. intros y Hy. apply H. by right.
Qed.

(** [Array.prototype.filter(Boolean)] on strings keeps the non-empty ones. *)
Definition nonempty {A} (s : list A) : bool :=
  match s with [] => false | _ => true end.

Lemma nonempty_true {A} (s : list A) : nonempty s = true ↔ s ≠ [].
Proof. by destruct s. Qed.

Lemma filterb_all {A} (f : A → bool) (l : list A) :
  forallb f l = true → List.filter f l = l.
Proof.
  induction l as [|x l IH]; simpl; [done|].
  intros ?; bool_prop. rewrite H. by rewrite IH.
Qed.

Lemma filterb_forallb {A} (f : A → bool) (l : list A) :
  forallb f (List.filter f l) = true.
Proof. induction l as [|x l IH]; simpl; [done|]. destruct (f x) eqn:E; simpl; [by rewrite E|done]. Qed.

(** [omap] depends on its function at the elements only. *)
Lemma omap_ext_in {A B} (f g : A → option B) (l : list A) :
  (∀ x, x ∈ l → f x = g x) → omap f l = omap g l.
Proof.
  induction l as [|x l IH]; intros H; [done|]. cbn [omap list_omap].
  rewrite H, IH; [done| |by left]. intros y Hy. apply H. by right.
Qed.

(** ** Calls that wait

    Components keep the requests that wait for an answer in a list; an answer removes or
    replaces one of them. *)

Lemma has_app {A} (p : A → bool) (l k : list A) :
  (∃ c, c ∈ l ∧ p c = true) → ∃ c, c ∈ l ++ k ∧ p c = true.
Proof. intros (c & ? & ?). exists c. rewrite elem_of_app. auto. Qed.

Lemma split_call {A} (l : list A) i c :
  l !! i = Some c → ∃ a b, l = a ++ c :: b ∧ list_delete i l = a ++ b ∧ ∀ x, <[i := x]> l = a ++ x :: b.
Proof.
  intros Hi. exists (take i l), (drop (S i) l). split_and!.
  - symmetry. by apply take_drop_middle.
  - apply delete_take_drop.
  - intros x. apply insert_take_drop. by eapply lookup_lt_Some.
Qed.

(** A call without the property can be removed or replaced. *)
Lemma has_delete {A} (p : A → bool) (l : list A) i c :
  l !! i = Some c → p c = false → (∃ x, x ∈ l ∧ p x = true) → ∃ x, x ∈ list_delete i l ∧ p x = true.
Proof.
  intros (a & b & -> & -> & _)%split_call Hc (x & Hx & Hp). exists x. split; [|done].
  rewrite elem_of_app in *. rewrite elem_of_cons in Hx. destruct Hx as [?|[->|?]]; auto. congruence.
Qed.

Lemma has_replace {A} (p : A → bool) (l : list A) i c y :
  l !! i = Some c → p c = false ∨ p y = true →
  (∃ x, x ∈ l ∧ p x = true) → ∃ x, x ∈ <[i := y]> l ∧ p x = true.
Proof.
  intros (a & b & -> & _ & E)%split_call Hc (x & Hx & Hp). rewrite E.
  rewrite elem_of_app, elem_of_cons in Hx. destruct Hx as [?|[->|?]].
  - exists x. rewrite elem_of_app. auto.
  - destruct Hc as [?|Hy]; [congruence|]. exists y. rewrite elem_of_app, elem_of_cons. auto.
  - exists x. rewrite elem_of_app, elem_of_cons. auto.
Qed.

Lemma has_insert {A} (p : A → bool) (l : list A) i c y :
  l !! i = Some c → p y = true → ∃ x, x ∈ <[i := y]> l ∧ p x = true.
Proof.
  intros (a & b & -> & _ & E)%split_call Hy. rewrite E. exists y. rewrite elem_of_app, elem_of_cons. auto.
Qed.

Lemma in_delete {A} (c : A) i (l : list A) : c ∈ list_delete i l → c ∈ l.
Proof.
  revert i; induction l as [|x l IH]; intros [|i]; cbn; rewrite ?elem_of_cons; auto.
  intros [->|?]; eauto.
Qed.

Lemma in_insert {A} (c y : A) i (l : list A) : c ∈ <[i := y]> l → c = y ∨ c ∈ l.
Proof.
  revert i; induction l as [|x l IH]; intros [|i]; cbn; rewrite ?elem_of_cons; auto.
  - intros [->|?]; auto.
  - intros [->|?%IH]; tauto.
Qed.

(** ** Exceptions

    [exn A] is the outcome of code that returns an [A] or throws. *)
Inductive exn (A : Type) : Type :=
| Ok (a : A)
| Throw.
Arguments Ok {A} _.
Arguments Throw {A}.

Lemma Ok_inj {A} (x y : A) : Ok x = Ok y → x = y.
Proof. by intros [= ->]. Qed.

#[export] Instance exn_ret : MRet exn := λ A a, Ok a.
#[export] Instance exn_bind : MBind exn := λ A B f m,
  match m with Ok a => f a | Throw => Throw end.

(** [if (!x) return null]: continue only with a value. *)
Definition or_null {A B} (x : option A) (k : A → exn (option B)) : exn (option B) :=
  match x with Some a => k a | None => Ok None end.

(** ** Texts that are read back

    What a component that writes texts promises to those that read them: a value in
    the form [readable] is read back as its normal form, and the normal form has the
    same text. *)
Class Codec (A : Type) : Type := {
  encode : A → jsstr;
  decode : jsstr → exn (option A);
  readable : A → bool;
  normal : A → A;
  decode_encode a : readable a = true → decode (encode a) = Ok (Some (normal a));
  encode_normal a : readable a = true → encode (normal a) = encode a
}.

Section codec.
Context {A : Type} `{Codec A}.

(** Texts tell normal forms apart. *)
Lemma encode_inj a b : readable a = true → readable b = true → encode a = encode b → normal a = normal b.
Proof.
  intros Ha Hb E. pose proof (decode_encode a Ha) as H1. rewrite E, decode_encode in H1 by done. congruence.
Qed.

(** Once written and read, a value does not change any more. *)
Lemma decode_normal a : readable a = true → decode (encode (normal a)) = Ok (Some (normal a)).
Proof. intros Ha. by rewrite encode_normal, decode_encode. Qed.
End codec.
