(* ===== verification/JsString.v ===== *)
(** * JavaScript string operations

    The [String.prototype] methods the sources use, on code-unit lists: [trim],
    [split] by one code unit, [join] ([Array.prototype.join]), [startsWith],
    [endsWith], [includes], [indexOf] and [substring].  The lemmas describe how
    they interact: trimmed strings are fixed points of [trim], [split] undoes
    [join]. *)
From Stdlib Require Import NArith.
From stdpp Require Import list numbers.
From S2P Require Import Prelude.

(** ** Equality *)

(** [===] on strings. *)
Fixpoint str_eqb (s t : jsstr) : bool :=
  match s, t with
  | [], [] => true
  | x :: s', y :: t' => N.eqb x y && str_eqb s' t'
  | _, _ => false
  end.

Lemma str_eqb_eq s t : str_eqb s t = true ↔ s = t.
Proof.
  revert t; induction s as [|x s IH]; intros [|y t]; simpl; try done.
  rewrite andb_true_iff, N.eqb_eq, IH.
  split; [by intros [-> ->]|by intros [= -> ->]].
Qed.

Lemma str_eqb_refl s : str_eqb s s = true.
Proof. by apply str_eqb_eq. Qed.

Lemma str_eqb_neq s t : str_eqb s t = false ↔ s ≠ t.
Proof. rewrite <- not_true_iff_false, str_eqb_eq. done. Qed.

Lemma str_eqb_spec s t : reflect (s = t) (str_eqb s t).
Proof. apply iff_reflect. symmetry. apply str_eqb_eq. Qed.

(** ** White space and [trim] *)

(** ECMAScript [WhiteSpace] and [LineTerminator]: what [trim] removes and what
    the regular-expression class [\s] matches. *)
Definition is_space (c : N) : bool :=
  ((9 <=? c) && (c <=? 13) || (c =? 32) || (c =? 160) || (c =? 5760)
   || (8192 <=? c) && (c <=? 8202) || (c =? 8232) || (c =? 8233)
   || (c =? 8239) || (c =? 8287) || (c =? 12288) || (c =? 65279))%N.

(** The visible part of ASCII has no white space. *)
Lemma is_space_visible c : (33 ≤ c ≤ 159)%N → is_space c = false.
Proof. intros H. unfold is_space. unit_decide. Qed.

Fixpoint trimStart (s : jsstr) : jsstr :=
  match s with
  | c :: t => if is_space c then trimStart t else s
  | [] => []
  end.

Definition trimEnd (s : jsstr) : jsstr := rev (trimStart (rev s)).

Definition trim (s : jsstr) : jsstr := trimEnd (trimStart s).

(** The string neither starts nor ends with white space. *)
Definition head_ok (s : jsstr) : bool :=
  match s with c :: _ => negb (is_space c) | [] => true end.

Definition trimmed (s : jsstr) : bool := head_ok s && head_ok (rev s).

Lemma trimStart_head_ok s : head_ok s = true → trimStart s = s.
Proof. destruct s as [|c s]; simpl; [done|]. intros ?; bool_prop. by rewrite H. Qed.

Lemma head_ok_trimStart s : head_ok (trimStart s) = true.
Proof.
  induction s as [|c s IH]; simpl; [done|].
  destruct (is_space c) eqn:E; simpl; [done|]. by rewrite E.
Qed.

Lemma trim_trimmed s : trimmed s = true → trim s = s.
Proof.
  unfold trimmed, trim, trimEnd. intros ?; bool_prop.
  rewrite (trimStart_head_ok s), (trimStart_head_ok (rev s)) by done.
  apply rev_involutive.
Qed.

Lemma trimStart_suffix s : ∃ w, s = w ++ trimStart s ∧ forallb is_space w = true.
Proof.
  induction s as [|c s [w [E1 E2]]]; [by exists []|].
  simpl. destruct (is_space c) eqn:E.
  - exists (c :: w). simpl. rewrite E. split; [by f_equal|done].
  - by exists [].
Qed.

Lemma trimEnd_prefix s : ∃ w, s = trimEnd s ++ w ∧ forallb is_space w = true.
Proof.
  unfold trimEnd. destruct (trimStart_suffix (rev s)) as (w & E & Hw).
  exists (rev w). split.
  - rewrite <- rev_app_distr, <- E. by rewrite rev_involutive.
  - apply forallb_forall. intros x Hx. apply in_rev in Hx.
    by eapply forallb_forall in Hw.
Qed.

(** [trim] cuts white space at both ends and nothing else. *)
Lemma trim_decompose s :
  ∃ a b, s = a ++ trim s ++ b ∧ forallb is_space a = true
         ∧ forallb is_space b = true.
Proof.
  destruct (trimStart_suffix s) as (a & Ea & Ha).
  destruct (trimEnd_prefix (trimStart s)) as (b & Eb & Hb).
  exists a, b. unfold trim. rewrite <- Eb. auto.
Qed.

Lemma head_ok_app s t : s ≠ [] → head_ok (s ++ t) = head_ok s.
Proof. by destruct s. Qed.

Lemma trimmed_trim s : trimmed (trim s) = true.
Proof.
  unfold trimmed. bool_prop.
  - destruct (trimEnd_prefix (trimStart s)) as (w & E & _).
    pose proof (head_ok_trimStart s) as H. unfold trim.
    rewrite E in H. destruct (trimEnd (trimStart s)); [done|].
    by rewrite head_ok_app in H.
  - unfold trim, trimEnd. rewrite rev_involutive. apply head_ok_trimStart.
Qed.

Lemma trim_idem s : trim (trim s) = trim s.
Proof. apply trim_trimmed, trimmed_trim. Qed.

(** A string delimited by two non-space units is trimmed. *)
Lemma trimmed_ends c s d :
  is_space c = false → is_space d = false → trimmed (c :: s ++ [d]) = true.
Proof.
  intros Hc Hd. unfold trimmed. rewrite app_comm_cons, rev_unit. simpl.
  by rewrite Hc, Hd.
Qed.

Lemma trimmed_app s t :
  s ≠ [] → t ≠ [] → trimmed s = true → trimmed t = true →
  trimmed (s ++ t) = true.
Proof.
  intros Hs Ht. unfold trimmed. intros ??; bool_prop.
  - by rewrite head_ok_app.
  - rewrite rev_app_distr, head_ok_app; [done|].
    intros E. apply Ht. by rewrite <- (rev_involutive t), E.
Qed.

Lemma trimmed_no_space s : forallb (λ c, negb (is_space c)) s = true → trimmed s = true.
Proof.
  intros H. unfold trimmed. bool_prop.
  - destruct s; [done|]. simpl in *. by bool_prop.
  - destruct (rev s) as [|c t] eqn:E; [done|]. simpl.
    eapply forallb_forall in H; [exact H|].
    apply in_rev. rewrite E. by left.
Qed.

#[export] Hint Resolve trim_trimmed trimmed_trim trim_idem : js.

(** ** Searching *)

(** [s.startsWith(p)]. *)
Fixpoint startsWith (p s : jsstr) : bool :=
  match p, s with
  | [], _ => true
  | x :: p', y :: s' => N.eqb x y && startsWith p' s'
  | _ :: _, [] => false
  end.

(** [s.endsWith(p)]. *)
Definition endsWith (p s : jsstr) : bool := startsWith (rev p) (rev s).

(** [s.indexOf(p)] of a non-empty pattern; [None] is [-1]. *)
Fixpoint indexOf (p s : jsstr) : option nat :=
  if startsWith p s then Some 0
  else match s with
       | [] => None
       | _ :: t => S <$> indexOf p t
       end.

(** [s.includes(p)]. *)
Definition includes (p s : jsstr) : bool :=
  match indexOf p s with Some _ => true | None => false end.

Lemma startsWith_spec p s : startsWith p s = true ↔ ∃ t, s = p ++ t.
Proof.
  revert s; induction p as [|x p IH]; intros s; simpl.
  - split; eauto.
  - destruct s as [|y s]; [split; [done|by intros [??]]|].
    rewrite andb_true_iff, N.eqb_eq, IH. split.
    + intros [-> [t ->]]. by exists t.
    + intros [t [= -> ->]]. eauto.
Qed.

Lemma startsWith_neq x p c s : x ≠ c → startsWith (x :: p) (c :: s) = false.
Proof. intros H. cbn [startsWith]. by rewrite (proj2 (N.eqb_neq x c)). Qed.

Lemma startsWith_long p u v :
  length p ≤ length u → startsWith p (u ++ v) = startsWith p u.
Proof.
  revert u; induction p as [|x p IH]; intros [|y u] Hl; simpl in *; try done; [lia|].
  by rewrite IH by lia.
Qed.

Lemma startsWith_app p t : startsWith p (p ++ t) = true.
Proof. apply startsWith_spec. eauto. Qed.

Lemma startsWith_app_same p q s : startsWith (p ++ q) (p ++ s) = startsWith q s.
Proof. induction p as [|x p IH]; simpl; [done|]. by rewrite N.eqb_refl. Qed.

(** [indexOf] finds the first occurrence. *)
Lemma indexOf_Some p s n :
  indexOf p s = Some n →
  ∃ a b, s = a ++ p ++ b ∧ length a = n
         ∧ ∀ k, k < n → startsWith p (drop k s) = false.
Proof.
  revert n; induction s as [|c s IH]; intros n; simpl;
    destruct (startsWith p _) eqn:E.
  1,3: intros [= <-]; apply startsWith_spec in E as [t Et];
       exists [], t; split_and!; [done..|lia].
  - done.
  - destruct (indexOf p s) as [m|] eqn:Em; [|done]. intros [= <-].
    destruct (IH m eq_refl) as (a & b & -> & Hl & Hk).
    exists (c :: a), b. split_and!; [done|by simpl; rewrite Hl|].
    intros [|k] Hlt; [done|]. simpl. apply Hk. lia.
Qed.

Lemma indexOf_None p s :
  indexOf p s = None → ∀ a b, s ≠ a ++ p ++ b.
Proof.
  induction s as [|c s IH]; simpl; destruct (startsWith p _) eqn:E; try done.
  - intros _ a b Eq. apply (f_equal (@length N)) in Eq as El.
    rewrite !length_app in El. simpl in El.
    destruct p; simpl in *; [done|lia].
  - destruct (indexOf p s); [done|]. intros _ a b Eq.
    destruct a as [|x a]; simpl in Eq.
    + rewrite Eq, startsWith_app in E. done.
    + injection Eq as -> Eq. by apply (IH eq_refl a b).
Qed.

(** No occurrence of [p]: its first unit does not appear. *)
Lemma indexOf_absent x p s : forallb (λ c, negb (N.eqb c x)) s = true → indexOf (x :: p) s = None.
Proof.
  induction s as [|c s IH]; simpl; [done|]. intros ?; bool_prop.
  rewrite N.eqb_sym, H. simpl. by rewrite IH.
Qed.

(** [s.substring(a, b)] with [a <= b]. *)
Definition substring (a b : nat) (s : jsstr) : jsstr := take (b - a) (drop a s).

(** ** [split] and [join] *)

(** [s.split(c)] for a separator of one code unit. *)
Fixpoint split_char (c : N) (s : jsstr) : list jsstr :=
  match s with
  | [] => [[]]
  | x :: t =>
      if N.eqb x c then [] :: split_char c t
      else match split_char c t with
           | w :: ws => (x :: w) :: ws
           | [] => [[x]]
           end
  end.

(** [parts.join(sep)]. *)
Fixpoint join (sep : jsstr) (parts : list jsstr) : jsstr :=
  match parts with
  | [] => []
  | [p] => p
  | p :: ps => p ++ sep ++ join sep ps
  end.

Lemma join_cons sep p ps : ps ≠ [] → join sep (p :: ps) = p ++ sep ++ join sep ps.
Proof. by destruct ps. Qed.

Lemma join_concat_map sep a l : join sep (a :: l) = a ++ concat (map (app sep) l).
Proof.
  revert a; induction l as [|b l IH]; intros a; [cbn; by rewrite app_nil_r|].
  rewrite join_cons by done. rewrite IH. cbn [map concat]. by rewrite !app_assoc.
Qed.

Lemma split_char_ne c s : split_char c s ≠ [].
Proof. destruct s as [|x s]; simpl; [done|]. by destruct (N.eqb x c), (split_char c s). Qed.

Lemma split_char_app c w s :
  forallb (λ x, negb (N.eqb x c)) w = true →
  split_char c (w ++ c :: s) = w :: split_char c s.
Proof.
  induction w as [|x w IH]; simpl.
  - by rewrite N.eqb_refl.
  - intros ?; bool_prop. rewrite H. by rewrite IH.
Qed.

Lemma split_char_none c w :
  forallb (λ x, negb (N.eqb x c)) w = true → split_char c w = [w].
Proof.
  induction w as [|x w IH]; simpl; [done|].
  intros ?; bool_prop. by rewrite H, IH.
Qed.

(** Splitting at a separator undoes joining with it. *)
Lemma split_join c ws :
  ws ≠ [] → Forall (λ w, forallb (λ x, negb (N.eqb x c)) w = true) ws →
  split_char c (join [c] ws) = ws.
Proof.
  intros Hne H. induction H as [|w ws Hw Hws IH]; [done|].
  destruct ws as [|w' ws]; [by apply split_char_none|].
  rewrite join_cons by done.
  change ([c] ++ ?r) with (c :: r). rewrite split_char_app by done.
  by rewrite IH.
Qed.

(** The parts of a split do not hold the separator, and joining gives the string
    back. *)
Lemma split_char_no_sep c s :
  Forall (λ w, forallb (λ x, negb (N.eqb x c)) w = true) (split_char c s).
Proof.
  induction s as [|x s IH]; simpl; [by repeat constructor|].
  destruct (N.eqb x c) eqn:E; [by constructor|].
  destruct (split_char c s) as [|w ws]; inversion IH; subst; constructor; simpl; auto.
  - by rewrite E.
  - by rewrite E.
Qed.

Lemma join_split c s : join [c] (split_char c s) = s.
Proof.
  induction s as [|x s IH]; simpl; [done|].
  pose proof (split_char_ne c s) as Hne.
  destruct (N.eqb_spec x c) as [->|E].
  - rewrite join_cons by done. by rewrite IH.
  - destruct (split_char c s) as [|w [|w' ws]]; [done| |]; simpl in *; by rewrite IH.
Qed.

Lemma includes_true p s : includes p s = true ↔ ∃ a b, s = a ++ p ++ b.
Proof.
  unfold includes. destruct (indexOf p s) as [n|] eqn:E; split; try done.
  - intros _. destruct (indexOf_Some _ _ _ E) as (a & b & -> & _). eauto.
  - intros (a & b & ->). by apply indexOf_None with (a := a) (b := b) in E.
Qed.

Lemma includes_false_suffix p a s : includes p (a ++ s) = false → includes p s = false.
Proof.
  rewrite <- !not_true_iff_false, !includes_true. intros H (x & y & ->).
  apply H. exists (a ++ x), y. by rewrite <- app_assoc.
Qed.

(** Joining trimmed, non-empty parts gives a trimmed text. *)
Lemma join_ne sep ps : ps ≠ [] → forallb nonempty ps = true → join sep ps ≠ [].
Proof. destruct ps as [|[|c p] [|q ps]]; done. Qed.

Lemma trimmed_join sep ps :
  forallb (λ p, nonempty p && trimmed p) ps = true → trimmed (join sep ps) = true.
Proof.
  induction ps as [|p ps IH]; [done|]. cbn [forallb]. intros ?; bool_prop.
  destruct ps as [|q ps]; [done|]. rewrite join_cons by done. specialize (IH H0).
  assert (Hne : join sep (q :: ps) ≠ []).
  { apply join_ne; [done|]. revert H0. apply forallb_impl. intros; by bool_prop. }
  apply nonempty_true in H.
  unfold trimmed in *. bool_prop.
  - by rewrite head_ok_app.
  - rewrite !rev_app_distr, <- app_assoc, head_ok_app; [done|].
    intros E. apply Hne. by rewrite <- (rev_involutive (join sep (q :: ps))), E.
Qed.

(** A pattern with a unit that the text does not hold. *)
Lemma includes_absent p c s :
  In c p → forallb (λ x, negb (x =? c)%N) s = true → includes p s = false.
Proof.
  intros Hc Hs. apply not_true_iff_false. intros (a & b & ->)%includes_true.
  apply forallb_app_true in Hs as [_ [Hs _]%forallb_app_true].
  eapply forallb_forall in Hs; [|exact Hc]. by rewrite N.eqb_refl in Hs.
Qed.

(** The first occurrence of a pattern whose first unit does not recur in it is
    found after any text without the pattern. *)
Lemma indexOf_first x p a b :
  forallb (λ c, negb (c =? x)%N) p = true → includes (x :: p) a = false →
  indexOf (x :: p) (a ++ (x :: p) ++ b) = Some (length a).
Proof.
  intros Hp. induction a as [|c a IH]; intros Ha.
  - cbn [app indexOf startsWith]. by rewrite N.eqb_refl, startsWith_app.
  - cbn [app indexOf].
    destruct (startsWith (x :: p) (c :: a ++ x :: p ++ b)) eqn:E.
    + exfalso. cbn [startsWith] in E. apply andb_true_iff in E as [->%N.eqb_eq E].
      destruct (Nat.le_gt_cases (length p) (length a)) as [Hl|Hl].
      * rewrite startsWith_long in E by done. apply startsWith_spec in E as [t ->].
        apply not_true_iff_false in Ha. apply Ha, includes_true. by exists [], t.
      * apply startsWith_spec in E as [t E].
        assert (Hx : p !! length a = Some c).
        { rewrite <- (lookup_app_l p t) by done. rewrite <- E.
          rewrite lookup_app_r by done. by rewrite Nat.sub_diag. }
        apply list_elem_of_lookup_2, list_elem_of_In in Hx. rewrite forallb_forall in Hp.
        specialize (Hp _ Hx). by rewrite N.eqb_refl in Hp.
    + change (indexOf (x :: p) (a ++ x :: p ++ b)) with (indexOf (x :: p) (a ++ (x :: p) ++ b)).
      rewrite IH; [done|]. by apply (includes_false_suffix _ [c]).
Qed.

(** What precedes the first occurrence does not hold the pattern. *)
Lemma indexOf_split p s n :
  p ≠ [] → indexOf p s = Some n →
  s = take n s ++ p ++ drop (n + length p) s ∧ includes p (take n s) = false.
Proof.
  intros Hne H. apply indexOf_Some in H as (a & b & -> & <- & Hk).
  rewrite take_app_length. split.
  - f_equal. f_equal. rewrite drop_app_ge by lia.
    replace (length a + length p - length a) with (length p) by lia. by rewrite drop_app_length.
  - apply not_true_iff_false. intros (u & v & ->)%includes_true.
    assert (Hl : length u < length (u ++ p ++ v)).
    { rewrite !length_app. destruct p; [done|]. simpl. lia. }
    specialize (Hk _ Hl). rewrite <- !app_assoc, drop_app_length, startsWith_app in Hk. done.
Qed.

Lemma includes_none p s : includes p s = false ↔ indexOf p s = None.
Proof. unfold includes. by destruct (indexOf p s). Qed.

Lemma join_concat ps : join [] ps = concat ps.
Proof.
  induction ps as [|p ps IH]; [done|]. destruct ps as [|q ps].
  - cbn [join concat]. by rewrite app_nil_r.
  - rewrite join_cons by done. cbn [app]. by rewrite IH.
Qed.
