(* ===== verification/Regex.v ===== *)
(** * ECMAScript regular expressions

    A backtracking matcher for the regular expressions the sources write as
    literals: classes, concatenation, alternation, greedy repetition, capture
    groups, back references and the assertions [^], [$] and [\b].  [rmatch] gives
    all the ways a pattern can match at a position, in the priority order of the
    ECMAScript [Matcher] (first alternative first, longest repetition first);
    the head of the list is the match the engine reports.

    The second half is the proof interface: [rejects] says that a pattern cannot
    start at a code unit of a class, and with it a greedy run of a class followed
    by such a pattern has exactly one way to match. *)
From Stdlib Require Import NArith.
From stdpp Require Import list numbers.
From S2P Require Import Prelude JsString.

(** ** Patterns *)

(** A character class: a union of ranges of code units. *)
Abbreviation cls := (list (N * N)).

Fixpoint in_ranges (c : cls) (x : N) : bool :=
  match c with
  | [] => false
  | (lo, hi) :: c' => (lo <=? x)%N && (x <=? hi)%N || in_ranges c' x
  end.

Inductive regex : Type :=
| REmpty
| RLit (w : jsstr)                   (* a run of literal characters *)
| RCls (neg : bool) (c : cls)        (* [...] and [^...] *)
| RSeq (r1 r2 : regex)
| RAlt (r1 r2 : regex)               (* r1|r2 *)
| RStar (r : regex)                  (* r*, greedy *)
| RGroup (i : nat) (r : regex)       (* capture group number i *)
| RBackref (i : nat)                 (* \i *)
| RStart                             (* ^ *)
| REnd                               (* $ *)
| RWordB.                            (* \b *)

Definition rplus (r : regex) : regex := RSeq r (RStar r).

(** [r?]; used on bodies that consume input. *)
Definition ropt (r : regex) : regex := RAlt r REmpty.

Fixpoint rseq (rs : list regex) : regex :=
  match rs with
  | [] => REmpty
  | [r] => r
  | r :: rs' => RSeq r (rseq rs')
  end.

Fixpoint ralt (rs : list regex) : regex :=
  match rs with
  | [] => RCls false []
  | [r] => r
  | r :: rs' => RAlt r (ralt rs')
  end.

Definition in_cls (neg : bool) (c : cls) (x : N) : bool := xorb neg (in_ranges c x).

Definition cls_digit : cls := [(48, 57)]%N.
Definition cls_space : cls :=
  [(9, 13); (32, 32); (160, 160); (5760, 5760); (8192, 8202); (8232, 8233);
   (8239, 8239); (8287, 8287); (12288, 12288); (65279, 65279)]%N.
Definition cls_word : cls := [(48, 57); (65, 90); (95, 95); (97, 122)]%N.
Definition cls_newline : cls := [(10, 10); (13, 13); (8232, 8233)]%N.
Definition cls_quote : cls := [(34, 34)]%N.

Definition rdigit : regex := RCls false cls_digit.       (* \d *)
Definition rspaces : regex := RStar (RCls false cls_space). (* \s* *)
Definition rdot : regex := RCls true cls_newline.        (* . *)
Definition rany : regex := RCls true [].                 (* [\s\S], and . with flag s *)
Definition rnotquote : regex := RCls true cls_quote.     (* any unit but the double quote *)

(** ** The matcher *)

(** [prev] is the code unit before the current position, [rest] the input from
    it on, [caps] the captures, the newest first. *)
Record mstate : Type := MS {
  prev : option N;
  rest : jsstr;
  caps : list (nat * jsstr)
}.

Definition is_word (o : option N) : bool :=
  match o with Some c => in_ranges cls_word c | None => false end.

Fixpoint cap_lookup (i : nat) (k : list (nat * jsstr)) : option jsstr :=
  match k with
  | [] => None
  | (j, w) :: k' => if Nat.eqb i j then Some w else cap_lookup i k'
  end.

(** The unit before the position after [w] has been consumed. *)
Fixpoint next_prev (p : option N) (w : jsstr) : option N :=
  match w with [] => p | c :: w' => next_prev (Some c) w' end.

(** Consume the literal [w]. *)
Definition eat (w : jsstr) (s : mstate) : list mstate :=
  if startsWith w (rest s)
  then [MS (next_prev (prev s) w) (drop (length w) (rest s)) (caps s)]
  else [].

(** The capture groups inside a pattern: a repetition clears them before each
    iteration. *)
Fixpoint groups_of (r : regex) : list nat :=
  match r with
  | RSeq r1 r2 | RAlt r1 r2 => groups_of r1 ++ groups_of r2
  | RStar r => groups_of r
  | RGroup i r => i :: groups_of r
  | _ => []
  end.

Definition clear_groups (gs : list nat) (s : mstate) : mstate :=
  match gs with
  | [] => s
  | _ => MS (prev s) (rest s)
           (List.filter (λ kv, negb (existsb (Nat.eqb kv.1) gs)) (caps s))
  end.

(** [RepeatMatcher] with min 0: an iteration that consumes nothing is refused,
    so [length (rest s)] iterations are enough. *)
Fixpoint star_iter (f : mstate → list mstate) (gs : list nat) (fuel : nat)
    (s : mstate) : list mstate :=
  match fuel with
  | 0 => [s]
  | S fuel' =>
      flat_map (star_iter f gs fuel')
        (List.filter (λ s', Nat.ltb (length (rest s')) (length (rest s)))
           (f (clear_groups gs s)))
      ++ [s]
  end.

Fixpoint rmatch (r : regex) (s : mstate) : list mstate :=
  match r with
  | REmpty => [s]
  | RLit w => eat w s
  | RCls neg c =>
      match rest s with
      | x :: t => if in_cls neg c x then [MS (Some x) t (caps s)] else []
      | [] => []
      end
  | RSeq r1 r2 => flat_map (rmatch r2) (rmatch r1 s)
  | RAlt r1 r2 => rmatch r1 s ++ rmatch r2 s
  | RStar r1 => star_iter (rmatch r1) (groups_of r1) (length (rest s)) s
  | RGroup i r1 =>
      map (λ s', MS (prev s') (rest s')
                   ((i, take (length (rest s) - length (rest s')) (rest s))
                    :: caps s'))
        (rmatch r1 s)
  | RBackref i =>
      match cap_lookup i (caps s) with
      | Some w => eat w s
      | None => [s]
      end
  | RStart => match prev s with None => [s] | Some _ => [] end
  | REnd => match rest s with [] => [s] | _ => [] end
  | RWordB =>
      if xorb (is_word (prev s)) (is_word (head (rest s))) then [s] else []
  end.

(** ** [exec], [match], [test], [replace] and [split] *)

Record match_result : Type := MR {
  m_index : nat;                 (* offset of the match in the searched text *)
  m_text : jsstr;                (* m[0] *)
  m_caps : list (nat * jsstr);
  m_prev : option N;             (* where the search goes on *)
  m_tail : jsstr
}.

(** [m[i]], [None] for [undefined]. *)
Definition grp_opt (m : match_result) (i : nat) : option jsstr := cap_lookup i (m_caps m).

(** [m[i]] of a group every match goes through. *)
Definition grp (m : match_result) (i : nat) : jsstr := default [] (grp_opt m i).

Fixpoint exec (r : regex) (p : option N) (s : jsstr) (idx : nat) : option match_result :=
  match rmatch r (MS p s []) with
  | st :: _ =>
      Some (MR idx (take (length s - length (rest st)) s) (caps st) (prev st) (rest st))
  | [] =>
      match s with
      | [] => None
      | c :: t => exec r (Some c) t (S idx)
      end
  end.

(** [s.match(r)] without the flag [g]. *)
Definition re_match (r : regex) (s : jsstr) : option match_result := exec r None s 0.

(** [r.test(s)] without the flag [g]. *)
Definition re_test (r : regex) (s : jsstr) : bool :=
  match re_match r s with Some _ => true | None => false end.

(** The [while ((m = re.exec(s)) !== null)] loop with the flag [g], for a
    pattern whose matches are not empty; every match consumes input. *)
Fixpoint exec_all (fuel : nat) (r : regex) (p : option N) (s : jsstr) : list match_result :=
  match fuel with
  | 0 => []
  | S fuel' =>
      match exec r p s 0 with
      | None => []
      | Some m => m :: exec_all fuel' r (m_prev m) (m_tail m)
      end
  end.

Definition re_matchAll (r : regex) (s : jsstr) : list match_result :=
  exec_all (S (length s)) r None s.

(** [s.replace(r, by)] with the flag [g], for non-empty matches. *)
Fixpoint replace_all (fuel : nat) (r : regex) (by_ : jsstr) (p : option N) (s : jsstr) : jsstr :=
  match fuel with
  | 0 => s
  | S fuel' =>
      match exec r p s 0 with
      | None => s
      | Some m => take (m_index m) s ++ by_ ++ replace_all fuel' r by_ (m_prev m) (m_tail m)
      end
  end.

Definition re_replaceAll (r : regex) (by_ s : jsstr) : jsstr :=
  replace_all (S (length s)) r by_ None s.

(** [s.split(r)] for non-empty matches and no capture groups. *)
Fixpoint split_all (fuel : nat) (r : regex) (p : option N) (s : jsstr) : list jsstr :=
  match fuel with
  | 0 => [s]
  | S fuel' =>
      match exec r p s 0 with
      | None => [s]
      | Some m => take (m_index m) s :: split_all fuel' r (m_prev m) (m_tail m)
      end
  end.

Definition re_split (r : regex) (s : jsstr) : list jsstr :=
  split_all (S (length s)) r None s.

(** ** Deterministic matching *)

(** [r] has no match that starts at a unit of the class [P]. *)
Definition rejects (P : N → bool) (r : regex) : Prop :=
  ∀ x p u k, P x = true → rmatch r (MS p (x :: u) k) = [].

(** [r] has no match at the end of the input. *)
Definition stuck_at_end (r : regex) : Prop :=
  ∀ p k, rmatch r (MS p [] k) = [].

Lemma rejects_lit P q w : P q = false → rejects P (RLit (q :: w)).
Proof.
  intros Hq x p u k Hx. simpl. unfold eat. simpl.
  destruct (N.eqb_spec q x); [congruence|done].
Qed.

Lemma rejects_cls (P : N → bool) neg c :
  (∀ x, P x = true → in_cls neg c x = false) → rejects P (RCls neg c).
Proof. intros H x p u k Hx. simpl. by rewrite H. Qed.

Lemma rejects_end P : rejects P REnd.
Proof. by intros x p u k _. Qed.

Lemma rejects_seq P r1 r2 : rejects P r1 → rejects P (RSeq r1 r2).
Proof. intros H x p u k Hx. simpl. by rewrite H. Qed.

Lemma rejects_alt P r1 r2 : rejects P r1 → rejects P r2 → rejects P (RAlt r1 r2).
Proof. intros H1 H2 x p u k Hx. simpl. by rewrite H1, H2. Qed.

Lemma rejects_group P i r : rejects P r → rejects P (RGroup i r).
Proof. intros H x p u k Hx. simpl. by rewrite H. Qed.

#[export] Hint Resolve rejects_lit rejects_cls rejects_end rejects_seq
  rejects_alt rejects_group : js.

Lemma rmatch_seq r1 r2 s : rmatch (RSeq r1 r2) s = flat_map (rmatch r2) (rmatch r1 s).
Proof. done. Qed.

Lemma rmatch_star r s :
  rmatch (RStar r) s = star_iter (rmatch r) (groups_of r) (length (rest s)) s.
Proof. done. Qed.

Lemma rmatch_group i r s :
  rmatch (RGroup i r) s
  = map (λ s', MS (prev s') (rest s')
            ((i, take (length (rest s) - length (rest s')) (rest s)) :: caps s'))
      (rmatch r s).
Proof. done. Qed.

Lemma flat_map_single {A B} (f : A → list B) (x : A) : flat_map f [x] = f x.
Proof. simpl. apply app_nil_r. Qed.

(** Concatenation is associative as far as the matches go. *)
Lemma rmatch_seq_assoc r1 r2 r3 s :
  rmatch (RSeq (RSeq r1 r2) r3) s = rmatch (RSeq r1 (RSeq r2 r3)) s.
Proof.
  simpl. generalize (rmatch r1 s) as l. induction l as [|x l IH]; simpl; [done|].
  by rewrite flat_map_app, IH.
Qed.

(** A literal against a text that starts with it, and against one that does
    not. *)
Lemma rmatch_lit w t p k :
  rmatch (RLit w) (MS p (w ++ t) k) = [MS (next_prev p w) t k].
Proof. simpl. unfold eat; simpl. by rewrite startsWith_app, drop_app_length. Qed.

Lemma rmatch_lit_seq w r t p k :
  rmatch (RSeq (RLit w) r) (MS p (w ++ t) k) = rmatch r (MS (next_prev p w) t k).
Proof. rewrite rmatch_seq, rmatch_lit. apply flat_map_single. Qed.

Lemma rmatch_lit_fail w t p k :
  startsWith w t = false → rmatch (RLit w) (MS p t k) = [].
Proof. intros H. simpl. unfold eat. simpl. by rewrite H. Qed.

Lemma rmatch_lit_seq_fail w r t p k :
  startsWith w t = false → rmatch (RSeq (RLit w) r) (MS p t k) = [].
Proof. intros H. by rewrite rmatch_seq, rmatch_lit_fail. Qed.

Lemma rmatch_end p k : rmatch REnd (MS p [] k) = [MS p [] k].
Proof. done. Qed.

(** A back reference to a capture behaves like the literal it holds. *)
Lemma rmatch_backref_seq i w r t p k :
  cap_lookup i k = Some w →
  rmatch (RSeq (RBackref i) r) (MS p (w ++ t) k) = rmatch r (MS (next_prev p w) t k).
Proof.
  intros H. rewrite rmatch_seq. simpl. rewrite H. unfold eat. simpl.
  rewrite startsWith_app, drop_app_length. apply flat_map_single.
Qed.

(** ** Greedy runs of a class *)

(** The states a greedy run over [w] leaves, longest first. *)
Fixpoint runs (p : option N) (w t : jsstr) (k : list (nat * jsstr)) : list mstate :=
  match w with
  | [] => [MS p t k]
  | x :: w' => runs (Some x) w' t k ++ [MS p (w ++ t) k]
  end.

(** Where a run of the class stops. *)
Definition stops (P : N → bool) (t : jsstr) : bool :=
  match t with [] => true | x :: _ => negb (P x) end.

Lemma star_iter_cls neg c n p w t k :
  length (w ++ t) ≤ n →
  forallb (in_cls neg c) w = true → stops (in_cls neg c) t = true →
  star_iter (rmatch (RCls neg c)) [] n (MS p (w ++ t) k) = runs p w t k.
Proof.
  revert p w. induction n as [|n IH]; intros p w Hn Hw Ht.
  - destruct w; simpl in *; [done|lia].
  - destruct w as [|x w].
    + simpl. destruct t as [|y t]; simpl; [done|].
      simpl in Ht. bool_prop. by rewrite Ht.
    + simpl in *. bool_prop. rewrite H. simpl.
      replace (length (w ++ t) <? S (length (w ++ t))) with true
        by (symmetry; apply Nat.ltb_lt; lia).
      simpl. rewrite app_nil_r. by rewrite IH by (done || lia).
Qed.

Lemma rmatch_star_cls neg c p w t k :
  forallb (in_cls neg c) w = true → stops (in_cls neg c) t = true →
  rmatch (RStar (RCls neg c)) (MS p (w ++ t) k) = runs p w t k.
Proof. intros. simpl rmatch. by apply star_iter_cls. Qed.

(** Only the longest run survives when what follows rejects the class. *)
Lemma runs_rejects P r p w t k :
  rejects P r → forallb P w = true →
  flat_map (rmatch r) (runs p w t k) = rmatch r (MS (next_prev p w) t k).
Proof.
  intros Hr. revert p. induction w as [|x w IH]; intros p Hw; simpl in *.
  - apply app_nil_r.
  - bool_prop. rewrite flat_map_app, IH by done. simpl.
    rewrite Hr by done. by rewrite !app_nil_r.
Qed.

Lemma rmatch_star_seq neg c r p w t k :
  rejects (in_cls neg c) r →
  forallb (in_cls neg c) w = true → stops (in_cls neg c) t = true →
  rmatch (RSeq (RStar (RCls neg c)) r) (MS p (w ++ t) k)
  = rmatch r (MS (next_prev p w) t k).
Proof.
  intros Hr Hw Ht. rewrite rmatch_seq, rmatch_star_cls by done.
  by eapply runs_rejects.
Qed.

Lemma rmatch_cls_seq neg c r x t p k :
  in_cls neg c x = true →
  rmatch (RSeq (RCls neg c) r) (MS p (x :: t) k) = rmatch r (MS (Some x) t k).
Proof. intros H. simpl. rewrite H. simpl. apply app_nil_r. Qed.

Lemma rmatch_plus_cls neg c x w t p k :
  forallb (in_cls neg c) (x :: w) = true → stops (in_cls neg c) t = true →
  rmatch (rplus (RCls neg c)) (MS p (x :: w ++ t) k) = runs (Some x) w t k.
Proof.
  intros H Ht. simpl in H. bool_prop. unfold rplus.
  rewrite rmatch_cls_seq by done. by apply rmatch_star_cls.
Qed.

Lemma next_prev_cons p x w : next_prev p (x :: w) = next_prev (Some x) w.
Proof. done. Qed.

(** A greedy, non-empty run of a class. *)
Lemma rmatch_plus_seq neg c r p w t k :
  rejects (in_cls neg c) r → w ≠ [] →
  forallb (in_cls neg c) w = true → stops (in_cls neg c) t = true →
  rmatch (RSeq (rplus (RCls neg c)) r) (MS p (w ++ t) k)
  = rmatch r (MS (next_prev p w) t k).
Proof.
  intros Hr Hne Hw Ht. destruct w as [|x w]; [done|].
  rewrite rmatch_seq. change ((x :: w) ++ t) with (x :: w ++ t).
  rewrite rmatch_plus_cls by done. simpl in Hw. bool_prop.
  by apply (runs_rejects (in_cls neg c) r (Some x)).
Qed.

(** The captured variants: a capture group around the repetition. *)
Lemma runs_captured P i r p w0 w t k :
  rejects P r → forallb P w = true →
  flat_map (rmatch r)
    (map (λ s', MS (prev s') (rest s')
            ((i, take (length (w0 ++ w ++ t) - length (rest s')) (w0 ++ w ++ t))
             :: caps s')) (runs p w t k))
  = rmatch r (MS (next_prev p w) t ((i, w0 ++ w) :: k)).
Proof.
  intros Hr. revert p w0. induction w as [|x w IH]; intros p w0 Hw; simpl in *.
  - rewrite app_nil_r, app_nil_r. do 4 f_equal. apply take_length_app_r.
    rewrite length_app. lia.
  - bool_prop. rewrite map_app, flat_map_app. simpl.
    rewrite Hr by done. rewrite !app_nil_r.
    specialize (IH (Some x) (w0 ++ [x]) H0).
    rewrite <- !app_assoc in IH. simpl in IH. exact IH.
Qed.

Lemma rmatch_group_plus_seq i neg c r p w t k :
  rejects (in_cls neg c) r → w ≠ [] →
  forallb (in_cls neg c) w = true → stops (in_cls neg c) t = true →
  rmatch (RSeq (RGroup i (rplus (RCls neg c))) r) (MS p (w ++ t) k)
  = rmatch r (MS (next_prev p w) t ((i, w) :: k)).
Proof.
  intros Hr Hne Hw Ht. destruct w as [|x w]; [done|].
  rewrite rmatch_seq. change ((x :: w) ++ t) with (x :: w ++ t).
  rewrite rmatch_group.
  rewrite rmatch_plus_cls by done. simpl in Hw. bool_prop.
  apply (runs_captured (in_cls neg c) i r (Some x) [x] w t k); auto.
Qed.

Lemma rmatch_group_star_seq i neg c r p w t k :
  rejects (in_cls neg c) r →
  forallb (in_cls neg c) w = true → stops (in_cls neg c) t = true →
  rmatch (RSeq (RGroup i (RStar (RCls neg c))) r) (MS p (w ++ t) k)
  = rmatch r (MS (next_prev p w) t ((i, w) :: k)).
Proof.
  intros Hr Hw Ht. rewrite rmatch_seq.
  rewrite rmatch_group.
  rewrite rmatch_star_cls by done.
  apply (runs_captured (in_cls neg c) i r p [] w t k); auto.
Qed.

(** A repetition that needs a unit of the class and does not find one. *)
Lemma rmatch_plus_fail neg c r p t k :
  stops (in_cls neg c) t = true → rmatch (RSeq (rplus (RCls neg c)) r) (MS p t k) = [].
Proof. destruct t as [|x t]; simpl; [done|]. intros ?; bool_prop. by rewrite H. Qed.

(** ** Anchored patterns *)

(** A pattern that starts with [^] only matches at offset 0. *)
Lemma exec_start_later r c s idx :
  exec (RSeq RStart r) (Some c) s idx = None.
Proof. revert c idx; induction s as [|x s IH]; intros c idx; simpl; [done|]. apply IH. Qed.

Lemma re_match_start r s :
  re_match (RSeq RStart r) s
  = match rmatch r (MS None s []) with
    | st :: _ =>
        Some (MR 0 (take (length s - length (rest st)) s) (caps st) (prev st) (rest st))
    | [] => None
    end.
Proof.
  unfold re_match. destruct s as [|c s]; cbn [exec]; rewrite rmatch_seq;
    change (rmatch RStart (MS None ?u [])) with [MS None u []];
    rewrite flat_map_single; destruct (rmatch r _) eqn:E; try done.
  apply exec_start_later.
Qed.

(** ** Further proof interface *)

(** A literal against a text given up to computation. *)
Lemma rmatch_lit_seq_eq w r s t p k :
  s = w ++ t → rmatch (RSeq (RLit w) r) (MS p s k) = rmatch r (MS (next_prev p w) t k).
Proof. intros ->. apply rmatch_lit_seq. Qed.

Lemma drop_startsWith w s : startsWith w s = true → s = w ++ drop (length w) s.
Proof. intros [t ->]%startsWith_spec. by rewrite drop_app_length. Qed.

Lemma rmatch_ralt_lits ws s :
  ws ≠ [] →
  rmatch (ralt (map RLit ws)) s
  = map (λ w, MS (next_prev (prev s) w) (drop (length w) (rest s)) (caps s))
      (List.filter (λ w, startsWith w (rest s)) ws).
Proof.
  assert (E : ∀ w, rmatch (RLit w) s
                   = map (λ w, MS (next_prev (prev s) w) (drop (length w) (rest s)) (caps s))
                       (if startsWith w (rest s) then [w] else [])).
  { intros w. simpl. unfold eat. by destruct (startsWith w (rest s)). }
  intros Hne. induction ws as [|w ws IH]; [done|].
  destruct ws as [|w' ws].
  - change (ralt (map RLit [w])) with (RLit w). rewrite E. simpl.
    by destruct (startsWith w (rest s)).
  - change (rmatch (ralt (map RLit (w :: w' :: ws))) s)
      with (rmatch (RLit w) s ++ rmatch (ralt (map RLit (w' :: ws))) s).
    rewrite E, IH by done. cbn [List.filter].
    by destruct (startsWith w (rest s)).
Qed.

(** A captured choice between literals. *)
Lemma rmatch_group_lits i ws r p s k :
  ws ≠ [] →
  rmatch (RSeq (RGroup i (ralt (map RLit ws))) r) (MS p s k)
  = flat_map (λ w, rmatch r (MS (next_prev p w) (drop (length w) s) ((i, w) :: k)))
      (List.filter (λ w, startsWith w s) ws).
Proof.
  intros Hne. rewrite rmatch_seq. cbn [rmatch].
  rewrite rmatch_ralt_lits by done. cbn [rest prev caps].
  rewrite !flat_map_concat_map, !map_map. cbn [rest prev caps].
  f_equal. apply map_ext_in. intros w [_ Hw]%filter_In.
  apply startsWith_spec in Hw as [t ->]. do 4 f_equal.
  apply take_length_app_r. rewrite drop_app_length, length_app. lia.
Qed.

(** *** What a pattern can consume *)

(** Every unit the pattern consumes satisfies [P]. *)
Fixpoint over (P : N → bool) (r : regex) : Prop :=
  match r with
  | RLit w => forallb P w = true
  | RCls neg c => ∀ x, in_cls neg c x = true → P x = true
  | RSeq r1 r2 | RAlt r1 r2 => over P r1 ∧ over P r2
  | RStar r1 | RGroup _ r1 => over P r1
  | RBackref _ => False
  | REmpty | RStart | REnd | RWordB => True
  end.

Definition consumed (P : N → bool) (s s' : mstate) : Prop :=
  ∃ w, rest s = w ++ rest s' ∧ forallb P w = true.

Lemma consumed_refl P s : consumed P s s.
Proof. by exists []. Qed.

Lemma consumed_trans P s1 s2 s3 : consumed P s1 s2 → consumed P s2 s3 → consumed P s1 s3.
Proof.
  intros (w & E & Hw) (v & E' & Hv). exists (w ++ v).
  rewrite E, E', app_assoc. split; [done|]. by apply forallb_app_true.
Qed.

Lemma star_iter_consumed P f gs n s s' :
  (∀ a b, In b (f a) → consumed P a b) →
  In s' (star_iter f gs n s) → consumed P s s'.
Proof.
  intros Hf. revert s. induction n as [|n IH]; intros s; cbn [star_iter].
  - intros [<-|[]]. apply consumed_refl.
  - rewrite in_app_iff, in_flat_map. intros [(a & [Ha _]%filter_In & Hs')|[<-|[]]].
    + apply Hf in Ha. apply IH in Hs'. eapply consumed_trans; [|done].
      destruct gs; [done|]. exact Ha.
    + apply consumed_refl.
Qed.

Lemma rmatch_consumed P r s s' :
  over P r → In s' (rmatch r s) → consumed P s s'.
Proof.
  revert s s'. induction r; intros s s' Ho; cbn [rmatch over] in *.
  - intros [<-|[]]. apply consumed_refl.
  - unfold eat. destruct (startsWith w (rest s)) eqn:E; [|done]. intros [<-|[]].
    exists w. split; [|done]. by apply drop_startsWith.
  - destruct (rest s) as [|x t] eqn:E; [done|].
    destruct (in_cls neg c x) eqn:Ec; [|done]. intros [<-|[]].
    exists [x]. rewrite E. split; [done|]. simpl. by rewrite Ho.
  - destruct Ho. rewrite in_flat_map. intros (a & Ha & Hs').
    eapply consumed_trans; eauto.
  - destruct Ho. rewrite in_app_iff. intros [?|?]; eauto.
  - apply star_iter_consumed. auto.
  - rewrite in_map_iff. intros (a & <- & Ha). destruct (IHr _ _ Ho Ha) as (w & ? & ?).
    by exists w.
  - done.
  - destruct (prev s); [done|]. intros [<-|[]]. apply consumed_refl.
  - destruct (rest s); [|done]. intros [<-|[]]. apply consumed_refl.
  - destruct (xorb _ _); [|done]. intros [<-|[]]. apply consumed_refl.
Qed.

(** A text that a pattern between [^] and [$] accepts only holds its units. *)
Lemma re_test_over P r s :
  over P r → re_test (RSeq RStart (RSeq r REnd)) s = true → forallb P s = true.
Proof.
  intros Ho. unfold re_test. rewrite re_match_start, rmatch_seq.
  destruct (flat_map _ _) as [|st l] eqn:E; [done|]. intros _.
  assert (Hin : In st (flat_map (rmatch REnd) (rmatch r (MS None s [])))) by (rewrite E; by left).
  apply in_flat_map in Hin as (a & Ha & Hst).
  apply (rmatch_consumed P) in Ha as (w & Ew & Hw); [|done].
  cbn [rmatch rest] in *. destruct (rest a); [|done].
  by rewrite Ew, app_nil_r.
Qed.

(** *** [.+] followed by a pattern with a unique last position *)

(** The states of a run that stops inside [w]. *)
Fixpoint shorter (p : option N) (w t : jsstr) (k : list (nat * jsstr)) : list mstate :=
  match w with
  | [] => []
  | x :: w' => shorter (Some x) w' t k ++ [MS p (w ++ t) k]
  end.

Lemma runs_app p w t u k :
  runs p (w ++ t) u k = runs (next_prev p w) t u k ++ shorter p w (t ++ u) k.
Proof.
  revert p. induction w as [|x w IH]; intros p; simpl; [by rewrite app_nil_r|].
  by rewrite IH, <- !app_assoc.
Qed.

(** The longest runs come first. *)
Lemma runs_front p t k :
  ∃ front, runs p t [] k = front ++ [MS p t k]
           ∧ ∀ s, In s front → ∃ a, a ≠ [] ∧ t = a ++ rest s.
Proof.
  revert p. induction t as [|x t IH]; intros p; simpl.
  - by exists [].
  - destruct (IH (Some x)) as (front & -> & Hf).
    exists (front ++ [MS (Some x) t k]). rewrite app_nil_r. split; [done|].
    intros s [Hs|[<-|[]]]%in_app_iff.
    + destruct (Hf s Hs) as (a & ? & ->). by exists (x :: a).
    + by exists [x].
Qed.

Lemma forallb_rany w : forallb (in_cls true []) w = true.
Proof. induction w; simpl; auto. Qed.

(** A greedy [.+] group with the flag [s]: when [r] fails on every proper suffix of [t] and
    matches at [t], the group captures exactly what precedes [t]. *)
Lemma rmatch_group_any_seq i r p w t k st :
  w ≠ [] →
  (∀ a b p' k', a ≠ [] → t = a ++ b → rmatch r (MS p' b k') = []) →
  head (rmatch r (MS (next_prev p w) t ((i, w) :: k))) = Some st →
  head (rmatch (RSeq (RGroup i (rplus rany)) r) (MS p (w ++ t) k)) = Some st.
Proof.
  intros Hne Hfail Hst. destruct w as [|x w]; [done|].
  rewrite rmatch_seq, rmatch_group. change ((x :: w) ++ t) with (x :: w ++ t).
  pose proof (rmatch_plus_cls true [] x (w ++ t) [] p k (forallb_rany _) eq_refl) as E0.
  rewrite app_nil_r in E0. unfold rany. rewrite E0. clear E0.
  rewrite runs_app, app_nil_r.
  destruct (runs_front (next_prev (Some x) w) t k) as (front & -> & Hf).
  rewrite !map_app, !flat_map_app. cbn [rest prev caps map].
  rewrite (flat_map_nil_all _ (map _ front)).
  - rewrite flat_map_single.
    assert (E : take (length (x :: w ++ t) - length t) (x :: w ++ t) = x :: w).
    { change (x :: w ++ t) with ((x :: w) ++ t). apply take_length_app_r.
      rewrite length_app. lia. }
    rewrite E. cbn [next_prev] in Hst.
    destruct (rmatch r _); [done|]. done.
  - intros s' Hs'. apply list_elem_of_In, in_map_iff in Hs' as (s & <- & Hs).
    destruct (Hf s Hs) as (a & Ha & Et). by apply (Hfail a (rest s)).
Qed.

(** *** Quoted strings with escapes *)

(** A body in which every quote and backslash is escaped. *)
Inductive quoted_body : jsstr → Prop :=
| qb_nil : quoted_body []
| qb_plain c b : c ≠ 34%N → c ≠ 92%N → quoted_body b → quoted_body (c :: b)
| qb_escape c b : in_cls true cls_newline c = true → quoted_body b →
    quoted_body (92%N :: c :: b).

Definition rquoted_unit : regex :=
  RAlt (RCls true [(34, 34); (92, 92)]%N) (RSeq (RLit "\\") rdot).

Lemma rquoted_unit_plain c t p k :
  c ≠ 34%N → c ≠ 92%N → rmatch rquoted_unit (MS p (c :: t) k) = [MS (Some c) t k].
Proof.
  intros H1 H2. assert (E : in_cls true [(34, 34); (92, 92)]%N c = true).
  { unfold in_cls, in_ranges. simpl xorb.
    destruct (N.leb_spec 34 c), (N.leb_spec c 34), (N.leb_spec 92 c), (N.leb_spec c 92);
      simpl; try done; lia. }
  change (rmatch rquoted_unit ?s) with
    (rmatch (RCls true [(34, 34); (92, 92)]%N) s ++ rmatch (RSeq (RLit "\\") rdot) s).
  rewrite rmatch_lit_seq_fail by (apply startsWith_neq; congruence).
  cbn -[in_cls]. by rewrite E.
Qed.

Lemma rquoted_unit_escape c t p k :
  in_cls true cls_newline c = true →
  rmatch rquoted_unit (MS p (92%N :: c :: t) k) = [MS (Some c) t k].
Proof. intros H. unfold rquoted_unit, rdot. cbn -[in_cls cls_newline]. rewrite H. done. Qed.

Lemma rquoted_unit_stop t p k : rmatch rquoted_unit (MS p (34%N :: t) k) = [].
Proof. done. Qed.

(** After any number of units of a quoted body, the closing quote is reached
    only at its end. *)
Lemma star_quoted_close b t n p k :
  quoted_body b → length (b ++ 34%N :: t) ≤ n →
  flat_map (rmatch (RLit "\q")) (star_iter (rmatch rquoted_unit) [] n (MS p (b ++ 34%N :: t) k))
  = [MS (Some 34%N) t k].
Proof.
  intros Hb. revert n p. induction Hb as [|c b H1 H2 Hb IH|c b Hc Hb IH];
    intros n p Hn; (destruct n as [|n]; [simpl in Hn; lia|]);
    cbn [star_iter app clear_groups].
  - rewrite rquoted_unit_stop. done.
  - rewrite rquoted_unit_plain by done. cbn [List.filter rest length].
    rewrite (proj2 (Nat.ltb_lt _ _)) by lia. rewrite flat_map_app, !flat_map_single.
    rewrite IH by (simpl in Hn; lia).
    rewrite (rmatch_lit_fail "\q"); [done|].
    apply startsWith_neq; congruence.
  - rewrite rquoted_unit_escape by done. cbn [List.filter rest length].
    rewrite (proj2 (Nat.ltb_lt _ _)) by lia. rewrite flat_map_app, !flat_map_single.
    rewrite IH by (simpl in Hn; lia). done.
Qed.

Definition rquoted_string : regex := rseq [RLit "\q"; RStar rquoted_unit; RLit "\q"].

(** A captured quoted string. *)
Lemma rmatch_group_quoted_seq i r b t p k :
  quoted_body b →
  rmatch (RSeq (RGroup i rquoted_string) r) (MS p (34%N :: b ++ 34%N :: t) k)
  = rmatch r (MS (Some 34%N) t ((i, 34%N :: b ++ [34%N]) :: k)).
Proof.
  intros Hb. rewrite rmatch_seq, rmatch_group. unfold rquoted_string. cbn [rseq].
  rewrite (rmatch_lit_seq_eq "\q" _ _ (b ++ 34%N :: t)) by done.
  rewrite rmatch_seq, rmatch_star. rewrite star_quoted_close by done. cbn [map rest prev caps].
  rewrite flat_map_single. do 4 f_equal.
  change (34%N :: b ++ 34%N :: t) with ((34%N :: b) ++ [34%N] ++ t).
  rewrite app_assoc. apply take_length_app_r.
  simpl. rewrite !length_app. simpl. lia.
Qed.

(** ** Evaluating a match on a partly symbolic text *)

Lemma rmatch_group_plus_seq_nil i neg c r p w k :
  rejects (in_cls neg c) r → w ≠ [] → forallb (in_cls neg c) w = true →
  rmatch (RSeq (RGroup i (rplus (RCls neg c))) r) (MS p w k)
  = rmatch r (MS (next_prev p w) [] ((i, w) :: k)).
Proof.
  intros Hr Hne Hw. rewrite <- (app_nil_r w) at 1. by apply rmatch_group_plus_seq.
Qed.

Lemma rmatch_group_lits_fail i ws r p s k :
  ws ≠ [] → List.filter (λ w, startsWith w s) ws = [] →
  rmatch (RSeq (RGroup i (ralt (map RLit ws))) r) (MS p s k) = [].
Proof. intros Hne E. by rewrite rmatch_group_lits, E. Qed.

Lemma rmatch_group_lits_one i ws w r p s k :
  ws ≠ [] → List.filter (λ w, startsWith w s) ws = [w] →
  rmatch (RSeq (RGroup i (ralt (map RLit ws))) r) (MS p s k)
  = rmatch r (MS (next_prev p w) (drop (length w) s) ((i, w) :: k)).
Proof. intros Hne E. by rewrite rmatch_group_lits, E, flat_map_single. Qed.

Lemma re_match_none r s : rmatch r (MS None s []) = [] → re_match (RSeq RStart r) s = None.
Proof. intros E. by rewrite re_match_start, E. Qed.

Lemma re_match_some r s st :
  head (rmatch r (MS None s [])) = Some st →
  re_match (RSeq RStart r) s
  = Some (MR 0 (take (length s - length (rest st)) s) (caps st) (prev st) (rest st)).
Proof. rewrite re_match_start. destruct (rmatch r _); [done|]. by intros [= ->]. Qed.

(** Re-associate a concatenation to the right, literals as cons cells. *)
Ltac text_norm := cbn [app]; rewrite <- ?app_assoc; cbn [app]; rewrite <- ?app_assoc; cbn [app].

(** One step of a match: a literal that is there, a literal that is not, the end
    of the text. *)
Ltac re_lit :=
  first [ erewrite rmatch_lit_seq_eq by reflexivity
        | rewrite rmatch_lit_seq_fail by reflexivity
        | rewrite rmatch_lit_fail by reflexivity ].

Ltac rejects_side := auto with js.

(** [re_match] finds a match with the captures [k]. *)
Definition matches (r : regex) (s : jsstr) (k : list (nat * jsstr)) : Prop :=
  ∃ m, re_match r s = Some m ∧ m_caps m = k.

Lemma matches_start r s q t k :
  head (rmatch r (MS None s [])) = Some (MS q t k) → matches (RSeq RStart r) s k.
Proof. intros E%re_match_some. unfold matches. rewrite E. eexists. by split. Qed.

Lemma in_rmatch_seq r1 r2 s st :
  In st (rmatch (RSeq r1 r2) s) → ∃ s1, In s1 (rmatch r1 s) ∧ In st (rmatch r2 s1).
Proof. by rewrite rmatch_seq, in_flat_map. Qed.

(** A pattern without back references leaves a suffix of the text. *)
Lemma rmatch_suffix r s st :
  over (λ _, true) r → In st (rmatch r s) → ∃ w, rest s = w ++ rest st.
Proof. intros Ho Hin. destruct (rmatch_consumed _ _ _ _ Ho Hin) as (w & ? & _). eauto. Qed.
