(* ===== verification/JsNumber.v ===== *)
(** * JavaScript numbers

    A [Number] is an IEEE-754 binary64 value, the [spec_float] of the standard
    library at precision 53 and exponent bound 1024; its arithmetic is exact
    rational arithmetic followed by one rounding to nearest even.  On top of it:
    [Number(text)] ([Number_of_string]), [String(number)]
    ([Number_toString], the shortest digits that read back as the number),
    [toFixed], the comparisons, and the decimal notation of natural numbers with
    its round trip. *)
From Stdlib Require Import NArith ZArith.
From Stdlib Require Import Floats.SpecFloat.
From stdpp Require Import list numbers.
From S2P Require Import Prelude JsString.

(** ** Decimal digits *)

Definition is_digit (c : N) : bool := ((48 <=? c) && (c <=? 57))%N.

(** The longest prefix of decimal digits, and what follows it. *)
Fixpoint span_digits (s : jsstr) : jsstr * jsstr :=
  match s with
  | c :: t => if is_digit c then let '(d, u) := span_digits t in (c :: d, u) else ([], s)
  | [] => ([], [])
  end.

(** The number a digit string denotes. *)
Definition dec_value (ds : jsstr) : N :=
  fold_left (λ acc c, (acc * 10 + (c - 48))%N) ds 0%N.

Fixpoint to_dec_aux (fuel : nat) (n : N) (acc : jsstr) : jsstr :=
  match fuel with
  | 0 => acc
  | S fuel' =>
      let acc' := (48 + n mod 10)%N :: acc in
      if (n <? 10)%N then acc' else to_dec_aux fuel' (n / 10)%N acc'
  end.

(** The decimal notation of a natural number; a number below [2^k] has at most
    [k + 1] digits. *)
Definition to_dec (n : N) : jsstr := to_dec_aux (S (N.to_nat (N.log2 n))) n [].

Lemma fold_dec_app ds ds' acc :
  fold_left (λ acc c, (acc * 10 + (c - 48))%N) (ds ++ ds') acc
  = fold_left (λ acc c, (acc * 10 + (c - 48))%N) ds'
      (fold_left (λ acc c, (acc * 10 + (c - 48))%N) ds acc).
Proof. apply fold_left_app. Qed.

Lemma digit_of_mod n : is_digit (48 + n mod 10)%N = true.
Proof.
  assert (Hm : (n mod 10 < 10)%N) by (apply N.mod_lt; lia).
  generalize dependent (n mod 10)%N. intros r Hr.
  unfold is_digit. bool_prop; apply N.leb_le; lia.
Qed.

(** [to_dec_aux] prepends digits of the right value when the fuel suffices. *)
Lemma to_dec_aux_spec fuel n acc :
  (n < 2 ^ N.of_nat fuel)%N → fuel ≠ 0 →
  ∃ ds, to_dec_aux fuel n acc = ds ++ acc ∧ ds ≠ []
        ∧ forallb is_digit ds = true ∧ dec_value ds = n.
Proof.
  revert n acc. induction fuel as [|fuel IH]; intros n acc Hn Hf; [done|].
  pose proof (digit_of_mod n) as Hd.
  cbn [to_dec_aux]. destruct (N.ltb_spec n 10) as [Hlt|Hge].
  - exists [(48 + n mod 10)%N]. split_and!; [done..| |].
    + cbn [forallb]. by rewrite Hd.
    + unfold dec_value. cbn [fold_left]. rewrite N.mod_small by done. lia.
  - assert (Hq : (n / 10 < 2 ^ N.of_nat fuel)%N).
    { apply N.Div0.div_lt_upper_bound. rewrite Nat2N.inj_succ, N.pow_succ_r' in Hn. lia. }
    destruct fuel as [|fuel].
    { change (2 ^ N.of_nat 1)%N with 2%N in Hn. lia. }
    destruct (IH (n / 10)%N ((48 + n mod 10)%N :: acc) Hq) as (ds & -> & Hne & Hds & Hv);
      [done|].
    exists (ds ++ [(48 + n mod 10)%N]). split_and!.
    + by rewrite <- app_assoc.
    + by destruct ds.
    + rewrite forallb_app, Hds. cbn [forallb]. by rewrite Hd.
    + unfold dec_value in *. rewrite fold_dec_app, Hv. cbn [fold_left].
      rewrite (N.add_comm 48), N.add_sub. pose proof (N.Div0.div_mod n 10). lia.
Qed.

Lemma to_dec_spec n :
  to_dec n ≠ [] ∧ forallb is_digit (to_dec n) = true ∧ dec_value (to_dec n) = n.
Proof.
  destruct (to_dec_aux_spec (S (N.to_nat (N.log2 n))) n []) as (ds & E & ? & ? & ?).
  - rewrite Nat2N.inj_succ, N2Nat.id.
    destruct (N.eq_dec n 0%N) as [->|]; [done|]. apply N.log2_spec. lia.
  - done.
  - unfold to_dec. rewrite E, app_nil_r. auto.
Qed.

Lemma dec_value_to_dec n : dec_value (to_dec n) = n.
Proof. apply to_dec_spec. Qed.

Lemma to_dec_inj n m : to_dec n = to_dec m → n = m.
Proof. intros E. by rewrite <- (dec_value_to_dec n), E, dec_value_to_dec. Qed.

Lemma is_digit_range c : is_digit c = true ↔ (48 ≤ c ≤ 57)%N.
Proof. unfold is_digit. by rewrite andb_true_iff, !N.leb_le. Qed.

Lemma digit_not_space c : is_digit c = true → is_space c = false.
Proof. intros H%is_digit_range. apply is_space_visible; lia. Qed.

(** ** Binary64 *)

Definition prec : Z := 53.
Definition emax : Z := 1024.

Abbreviation number := spec_float.

Definition NaN : number := S754_nan.
Definition Infinity : number := S754_infinity false.
Definition zero : number := S754_zero false.

Definition num_of_Z (z : Z) : number := binary_normalize prec emax z 0 false.

Definition num_add : number → number → number := SFadd prec emax.
Definition num_sub : number → number → number := SFsub prec emax.
Definition num_mul : number → number → number := SFmul prec emax.
Definition num_div : number → number → number := SFdiv prec emax.
(** [===] on numbers: false when one is [NaN], and [0 === -0]. *)
Definition num_eqb : number → number → bool := SFeqb.
Definition num_ltb : number → number → bool := SFltb.
Definition num_leb : number → number → bool := SFleb.
Definition num_abs : number → number := SFabs.

Definition is_nan (x : number) : bool := match x with S754_nan => true | _ => false end.
Definition isFinite (x : number) : bool :=
  match x with S754_nan | S754_infinity _ => false | _ => true end.

(** A number in a boolean context: [NaN] and the zeros are falsy. *)
Definition num_truthy (x : number) : bool :=
  match x with S754_nan | S754_zero _ => false | _ => true end.

(** [x || d] on numbers. *)
Definition num_or (x d : number) : number := if num_truthy x then x else d.

Lemma num_or_idem x : num_or (num_or x zero) zero = num_or x zero.
Proof. unfold num_or. destruct (num_truthy x) eqn:E; [by rewrite E|done]. Qed.

(** The integer a finite number equals, if it is one ([Number.isInteger]). *)
Definition num_to_Z (x : number) : option Z :=
  match x with
  | S754_zero _ => Some 0%Z
  | S754_finite s m e =>
      let v := if (0 <=? e)%Z then Some (Zpos m * 2 ^ e)%Z
               else if (Zpos m mod 2 ^ (- e) =? 0)%Z then Some (Zpos m / 2 ^ (- e))%Z
               else None in
      (λ z, if s then (- z)%Z else z) <$> v
  | _ => None
  end.

Definition isInteger (x : number) : bool :=
  match num_to_Z x with Some _ => true | None => false end.

(** ** Decimal text to number *)

(** The number nearest to [(-1)^neg * m * 10^e].  Beyond the clamps the value is
    out of the range of the format: [10^400] overflows, and a value below
    [10^-400] rounds to zero. *)
Definition num_of_decimal (neg : bool) (m : N) (e : Z) : number :=
  match m with
  | N0 => S754_zero neg
  | Npos p =>
      if (400 <? e)%Z then S754_infinity neg
      else if (Z.of_N (N.log2 m) + e * 3 <? -1400)%Z then S754_zero neg
      else if (0 <=? e)%Z then
        match binary_normalize prec emax (Zpos p * 10 ^ e) 0 false with
        | x => if neg then SFopp x else x
        end
      else
        let '(mz, ez, lz) := SFdiv_core_binary prec emax (Zpos p) 0 (10 ^ (- e)) 0 in
        binary_round_aux prec emax neg mz ez lz
  end.

Definition lit_Infinity : jsstr := "Infinity".

(** The digits of an exponent, at least one. *)
Definition exp_digits (neg : bool) (s : jsstr) : option (Z * jsstr) :=
  let '(ds, v) := span_digits s in
  match ds with
  | [] => None
  | _ => let z := Z.of_N (dec_value ds) in Some (if neg then (- z)%Z else z, v)
  end.

(** An exponent part [[eE][+-]?\d+] at the start of the text, or none. *)
Definition parse_exponent (s : jsstr) : option (Z * jsstr) :=
  match s with
  | c :: t =>
      if (c =? 101)%N || (c =? 69)%N then
        match t with
        | d :: u =>
            if (d =? 45)%N then exp_digits true u
            else if (d =? 43)%N then exp_digits false u else exp_digits false t
        | [] => None
        end
      else Some (0%Z, s)
  | [] => Some (0%Z, s)
  end.

(** [StrUnsignedDecimalLiteral] at the start of the text: digits, an optional
    fraction, an optional exponent. *)
Definition parse_unsigned (s : jsstr) : option (N * Z * jsstr) :=
  let '(ip, t) := span_digits s in
  let '(fp, u, dot) :=
    match t with
    | c :: t' => if (c =? 46)%N then let '(f, u) := span_digits t' in (f, u, true) else ([], t, false)
    | [] => ([], t, false)
    end in
  match ip ++ fp with
  | [] => None
  | ds =>
      match parse_exponent u with
      | Some (e, v) => Some (dec_value ds, (e - Z.of_nat (length fp))%Z, v)
      | None => None
      end
  end.

Definition digit_in_base (b : N) (c : N) : option N :=
  let v := if is_digit c then Some (c - 48)%N
           else if ((97 <=? c) && (c <=? 102))%N then Some (c - 87)%N
           else if ((65 <=? c) && (c <=? 70))%N then Some (c - 55)%N
           else None in
  match v with Some n => if (n <? b)%N then Some n else None | None => None end.

Fixpoint parse_base (b : N) (s : jsstr) (acc : N) : option N :=
  match s with
  | [] => Some acc
  | c :: t => match digit_in_base b c with Some d => parse_base b t (acc * b + d)%N | None => None end
  end.

Definition parse_nondecimal (b : N) (s : jsstr) : number :=
  match s with
  | [] => NaN
  | _ => match parse_base b s 0 with Some n => num_of_Z (Z.of_N n) | None => NaN end
  end.

(** [Number(text)]: the [StringToNumber] conversion. *)
Definition Number_of_string (s0 : jsstr) : number :=
  let s := trim s0 in
  match s with
  | [] => zero
  | c :: t =>
      let '(neg, signed, u) :=
        if (c =? 45)%N then (true, true, t)
        else if (c =? 43)%N then (false, true, t) else (false, false, s) in
      if str_eqb u lit_Infinity then S754_infinity neg
      else
        match u with
        | z :: b :: v =>
            if (z =? 48)%N && negb signed && ((b =? 120) || (b =? 88))%N then parse_nondecimal 16 v
            else if (z =? 48)%N && negb signed && ((b =? 111) || (b =? 79))%N then parse_nondecimal 8 v
            else if (z =? 48)%N && negb signed && ((b =? 98) || (b =? 66))%N then parse_nondecimal 2 v
            else match parse_unsigned u with
                 | Some (m, e, []) => num_of_decimal neg m e
                 | _ => NaN
                 end
        | _ => match parse_unsigned u with
               | Some (m, e, []) => num_of_decimal neg m e
               | _ => NaN
               end
        end
  end.

(** ** Number to decimal text *)

(** The number as a fraction, without its sign. *)
Definition num_ratio (m : positive) (e : Z) : Z * Z :=
  if (0 <=? e)%Z then (Zpos m * 2 ^ e, 1)%Z else (Zpos m, 2 ^ (- e))%Z.

(** The least [n] with [num/den < 10^n], searched upwards from an estimate that
    is at most two too low. *)
Fixpoint dec_exponent (fuel : nat) (num den n : Z) : Z :=
  match fuel with
  | 0 => n
  | S fuel' =>
      let below := if (0 <=? n)%Z then (num <? den * 10 ^ n)%Z
                   else (num * 10 ^ (- n) <? den)%Z in
      if below then n else dec_exponent fuel' num den (n + 1)%Z
  end.

Definition dec_estimate (num den : Z) : Z :=
  ((Z.log2 num - Z.log2 den - 1) * 30103 / 100000 - 1)%Z.

Definition scaled (num den k : Z) : Z * Z :=
  if (0 <=? k)%Z then (num * 10 ^ k, den)%Z else (num, den * 10 ^ (- k))%Z.

(** The digits [s], [10^(k-1) <= s < 10^k], nearest first, for each count [k]
    from the smallest, until one reads back as the number. *)
Fixpoint shortest (fuel : nat) (k : Z) (m : positive) (e num den n : Z) : Z * Z * Z :=
  let '(a, b) := scaled num den (k - n) in
  let s := (a / b)%Z in
  let near := if (2 * (a mod b) <=? b)%Z then [s; s + 1]%Z else [s + 1; s]%Z in
  let ok c := num_eqb (num_of_decimal false (Z.to_N c) (n - k)) (S754_finite false m e) in
  match List.filter ok near, fuel with
  | c :: _, _ => if (c =? 10 ^ k)%Z then (c / 10, k, n + 1)%Z else (c, k, n)
  | [], 0 => (s, k, n)
  | [], S fuel' => shortest fuel' (k + 1)%Z m e num den n
  end.

Definition to_dec_Z (z : Z) : jsstr :=
  if (z <? 0)%Z then 45%N :: to_dec (Z.to_N (- z)) else to_dec (Z.to_N z).

Definition zeros (n : Z) : jsstr := replicate (Z.to_nat n) 48%N.

(** [Number::toString] for a finite non-zero magnitude with [k] digits [s] and
    value [s * 10^(n-k)]. *)
Definition layout_digits (s k n : Z) : jsstr :=
  let ds := to_dec (Z.to_N s) in
  if (k <=? n)%Z && (n <=? 21)%Z then ds ++ zeros (n - k)
  else if (0 <? n)%Z && (n <=? 21)%Z then
    take (Z.to_nat n) ds ++ "." ++ drop (Z.to_nat n) ds
  else if (-6 <? n)%Z && (n <=? 0)%Z then "0." ++ zeros (- n) ++ ds
  else
    let ex := (n - 1)%Z in
    let sg := if (ex <? 0)%Z then "-" else "+" in
    let mant := match ds with
                | [d] => [d]
                | d :: ds' => d :: "." ++ ds'
                | [] => []
                end in
    mant ++ "e" ++ sg ++ to_dec (Z.to_N (Z.abs ex)).

(** [String(x)], [`${x}`]. *)
Definition Number_toString (x : number) : jsstr :=
  match x with
  | S754_nan => "NaN"
  | S754_zero _ => "0"
  | S754_infinity neg => if neg then "-Infinity" else lit_Infinity
  | S754_finite neg m e =>
      let '(num, den) := num_ratio m e in
      let n := dec_exponent 6 num den (dec_estimate num den) in
      let '(s, k, n') := shortest 16 1 m e num den n in
      (if neg then "-" else []) ++ layout_digits s k n'
  end.

(** [x.toFixed(d)] for [|x| < 10^21]: the integer nearest to [x * 10^d], the
    larger one of two. *)
Definition toFixed (x : number) (d : nat) : jsstr :=
  match x with
  | S754_nan => "NaN"
  | S754_infinity neg => if neg then "-Infinity" else lit_Infinity
  | _ =>
      let '(neg, num, den) :=
        match x with
        | S754_finite neg m e => let '(a, b) := num_ratio m e in (neg, a, b)
        | _ => (false, 0%Z, 1%Z)
        end in
      if (10 ^ 21 * den <=? num)%Z then Number_toString x
      else
        let p := (10 ^ Z.of_nat d)%Z in
        let n := ((2 * num * p + den) / (2 * den))%Z in
        let ds := to_dec (Z.to_N n) in
        let ds := if Nat.leb (length ds) d then zeros (Z.of_nat (S d - length ds)) ++ ds else ds in
        let cut := length ds - d in
        let body := match d with 0 => ds | _ => take cut ds ++ "." ++ drop cut ds end in
        (if neg then "-" else []) ++ body
  end.

Example number_texts :
  map (λ s, Number_toString (Number_of_string s))
    ["0.1"; "1e21"; "1e-7"; "123456.789"; " 5 "; ""; "0x1F"; "1.2.3"; "-0.5";
     "1e400"; "100"; "0.000001"; "5e-324"; "9007199254740993"; "-0"; "1.7976931348623157e308"]
  = ["0.1"; "1e+21"; "1e-7"; "123456.789"; "5"; "0"; "31"; "NaN"; "-0.5";
     "Infinity"; "100"; "0.000001"; "5e-324"; "9007199254740992"; "0"; "1.7976931348623157e+308"].
Proof. vm_compute. reflexivity. Qed.

Example toFixed_texts :
  map (λ s, toFixed (Number_of_string s) 2) ["1.005"; "0"; "-2.5"; "12.345"; "1e21"; "0.004"]
  = ["1.00"; "0.00"; "-2.50"; "12.35"; "1e+21"; "0.00"].
Proof. vm_compute. reflexivity. Qed.
