(* ===== verification/JsFloat.v ===== *)
(** * Rounding of JavaScript numbers

    Bounds and exactness of the operations of [JsNumber] on binary64 numbers: products and
    quotients of normal numbers are within a relative error of [2^-52] of the real product
    and quotient, and products and quotients of integers are exact when the result is an
    integer below [2^53].  [Math.floor] and [Math.round] are here too. *)
From Stdlib Require Import ZArith Reals Lra Lia SpecFloat.
From stdpp Require Import list numbers.
From S2P Require Import Prelude JsString JsNumber.

Local Open Scope Z_scope.

(** [Math.floor]; the sign of a zero is that of the argument. *)
Definition Math_floor (x : number) : number :=
  match x with
  | S754_finite s m e =>
      if 0 <=? e then x
      else
        let r := (if s then Z.neg m else Z.pos m) / 2 ^ (- e) in
        if r =? 0 then S754_zero s else num_of_Z r
  | _ => x
  end.

(** [Math.round]: the nearest integer, a half upwards; the sign of a zero is that
    of the argument. *)
Definition Math_round (x : number) : number :=
  match x with
  | S754_finite s m e =>
      if 0 <=? e then x
      else
        let d := 2 ^ (- e) in
        let v := if s then Z.neg m else Z.pos m in
        let r := (2 * v + d) / (2 * d) in
        if r =? 0 then S754_zero s else num_of_Z r
  | _ => x
  end.

(** [new Date(x).getTime()]: the time in whole milliseconds, and [NaN] for a time more than
    [8.64e15] milliseconds from the epoch. *)
Definition js_date (x : number) : number :=
  if negb (isFinite x) || num_ltb (num_of_Z 8640000000000000) (num_abs x) then NaN
  else match x with
       | S754_finite true m e =>
           SFopp (Math_floor (S754_finite false m e))
       | _ => Math_floor x
       end.

(** ** Digits and shifts *)

Lemma digits2_pos_spec p : 2 ^ (Zpos (digits2_pos p) - 1) <= Zpos p < 2 ^ Zpos (digits2_pos p).
Proof.
  induction p as [p IH|p IH|]; simpl digits2_pos; [| |simpl; lia];
    rewrite Pos2Z.inj_succ;
    replace (Z.succ (Zpos (digits2_pos p)) - 1) with (Z.succ (Zpos (digits2_pos p) - 1)) by lia;
    rewrite !Z.pow_succ_r by lia; rewrite ?(Pos2Z.inj_xI p), ?(Pos2Z.inj_xO p); lia.
Qed.

Lemma digits2_unique m d : 0 < d -> 2 ^ (d - 1) <= m < 2 ^ d -> Zdigits2 m = d.
Proof.
  intros Hd [H1 H2]. assert (0 < 2 ^ (d - 1)) by (apply Z.pow_pos_nonneg; lia).
  destruct m as [|p|p]; [lia| |lia]. simpl. pose proof (digits2_pos_spec p) as [H3 H4].
  assert (Zpos (digits2_pos p) - 1 < d) by (apply (Z.pow_lt_mono_r_iff 2); lia).
  assert (d - 1 < Zpos (digits2_pos p)) by (apply (Z.pow_lt_mono_r_iff 2); lia). lia.
Qed.

Lemma digits2_bounds m : 0 < m -> 0 < Zdigits2 m /\ 2 ^ (Zdigits2 m - 1) <= m < 2 ^ Zdigits2 m.
Proof. destruct m as [|p|p]; [lia| |lia]. intros _. split; [simpl; lia|apply digits2_pos_spec]. Qed.

Lemma digits2_ge m d : 0 <= d -> 2 ^ d <= m -> d < Zdigits2 m.
Proof.
  intros Hd H. assert (0 < 2 ^ d) by (apply Z.pow_pos_nonneg; lia).
  destruct (digits2_bounds m) as (? & _ & H2); [lia|]. apply (Z.pow_lt_mono_r_iff 2); lia.
Qed.

(** A shift to the right divides, and keeps no lost bits of a multiple. *)
Lemma shr_1_m r : 0 <= shr_m r -> shr_m (shr_1 r) = shr_m r / 2.
Proof. destruct r as [[|p|p] a b]; simpl; [done| |lia]. intros _. rewrite <- Z.div2_div. by destruct p. Qed.

Lemma iter_shr_m n r : 0 <= shr_m r -> shr_m (SpecFloat.iter_pos shr_1 n r) = shr_m r / 2 ^ Zpos n.
Proof.
  revert r. induction n as [n IH|n IH|]; intros r Hr; cbn [SpecFloat.iter_pos]; [| |by apply shr_1_m].
  - pose proof (shr_1_m r Hr) as H1. rewrite !IH, H1.
    + rewrite !Z.div_div by (try apply Z.pow_pos_nonneg; lia).
      rewrite (Pos2Z.inj_xI n). f_equal. rewrite Z.pow_add_r, Z.mul_comm by lia.
      replace (2 * Zpos n) with (Zpos n + Zpos n) by lia. rewrite Z.pow_add_r by lia. ring.
    + rewrite H1. apply Z.div_pos; lia.
    + rewrite IH, H1; rewrite ?H1; repeat (apply Z.div_pos || apply Z.pow_pos_nonneg); try lia.
  - rewrite !IH; [|done|].
    + rewrite Z.div_div by (try apply Z.pow_pos_nonneg; lia).
      rewrite (Pos2Z.inj_xO n). replace (2 * Zpos n) with (Zpos n + Zpos n) by lia.
      by rewrite Z.pow_add_r by lia.
    + rewrite IH by done. apply Z.div_pos; [done|apply Z.pow_pos_nonneg; lia].
Qed.

Lemma shr_1_exact k :
  0 <= k -> shr_1 {| shr_m := 2 * k; shr_r := false; shr_s := false |}
            = {| shr_m := k; shr_r := false; shr_s := false |}.
Proof. intros Hk. by destruct k as [|p|p]; [| |lia]. Qed.

Lemma iter_shr_exact n k :
  0 <= k -> SpecFloat.iter_pos shr_1 n {| shr_m := k * 2 ^ Zpos n; shr_r := false; shr_s := false |}
            = {| shr_m := k; shr_r := false; shr_s := false |}.
Proof.
  revert k. induction n as [n IH|n IH|]; intros k Hk; cbn [SpecFloat.iter_pos].
  - assert (E : k * 2 ^ Zpos n~1 = 2 * (k * 2 ^ Zpos n * 2 ^ Zpos n)).
    { rewrite (Pos2Z.inj_xI n), Z.pow_add_r by lia.
      replace (2 * Zpos n) with (Zpos n + Zpos n) by lia. rewrite Z.pow_add_r by lia. ring. }
    assert (0 < 2 ^ Zpos n) by (apply Z.pow_pos_nonneg; lia).
    rewrite E, shr_1_exact by nia. rewrite !IH by nia. done.
  - assert (E : k * 2 ^ Zpos n~0 = k * 2 ^ Zpos n * 2 ^ Zpos n).
    { rewrite (Pos2Z.inj_xO n). replace (2 * Zpos n) with (Zpos n + Zpos n) by lia.
      rewrite Z.pow_add_r by lia. ring. }
    assert (0 < 2 ^ Zpos n) by (apply Z.pow_pos_nonneg; lia).
    rewrite E, !IH by nia. done.
  - rewrite Z.mul_comm. change (2 ^ 1) with 2. by apply shr_1_exact.
Qed.

(** ** Rounding *)

Lemma fexp_normal d : -1021 <= d -> fexp prec emax d = d - 53.
Proof. unfold fexp, emin, prec, emax. lia. Qed.

(** Rounding of a number with at least 53 digits: the shift it takes. *)
Lemma shr_fexp_normal m e l :
  2 ^ 52 <= m -> -1021 <= Zdigits2 m + e ->
  shr_fexp prec emax m e l = shr (shr_record_of_loc m l) e (Zdigits2 m - 53).
Proof. intros Hm He. unfold shr_fexp. rewrite fexp_normal by done. f_equal. lia. Qed.

Lemma record_m m l : shr_m (shr_record_of_loc m l) = m.
Proof. by destruct l as [|[]]. Qed.

Lemma shr_shift r e n :
  0 <= n -> 0 <= shr_m r -> exists r', shr r e n = (r', e + n) /\ shr_m r' = shr_m r / 2 ^ n.
Proof.
  intros Hn Hr. destruct n as [|p|p]; [| |lia]; simpl.
  - exists r. rewrite Z.add_0_r, Z.div_1_r. done.
  - eexists. split; [done|]. by apply iter_shr_m.
Qed.

Lemma round_choice m l : round_nearest_even m l = m \/ round_nearest_even m l = m + 1.
Proof. destruct l as [|[]]; simpl; [tauto| |tauto|tauto]. destruct (Z.even m); tauto. Qed.

(** The second rounding changes the number only when it has become [2^53]. *)
Lemma shr_fexp_carry c e :
  2 ^ 52 <= c <= 2 ^ 53 -> -1074 <= e ->
  exists m' e', shr_fexp prec emax c e loc_Exact
                = ({| shr_m := Zpos m'; shr_r := false; shr_s := false |}, e')
    /\ 2 ^ 52 <= Zpos m' < 2 ^ 53 /\ (Zpos m' = c /\ e' = e \/ Zpos m' * 2 = c /\ e' = e + 1).
Proof.
  intros [H1 H2] He. destruct (Z.eq_dec c (2 ^ 53)) as [->|Hne].
  - exists (Z.to_pos (2 ^ 52)), (e + 1). unfold shr_fexp.
    change (Zdigits2 (2 ^ 53)) with 54. rewrite fexp_normal by lia.
    replace (54 + e - 53 - e) with 1 by lia. split; [done|]. split; [done|]. by right.
  - assert (Hd : Zdigits2 c = 53) by (apply digits2_unique; lia).
    destruct c as [|p|p]; [lia| |lia]. exists p, e. unfold shr_fexp.
    rewrite Hd, fexp_normal by lia. replace (53 + e - 53 - e) with 0 by lia.
    split; [done|]. split; [lia|]. by left.
Qed.

(** ** Values *)

Definition bpow (e : Z) : R := powerRZ 2 e.

Lemma bpow_pos e : (0 < bpow e)%R.
Proof. apply powerRZ_lt. lra. Qed.

Lemma bpow_add a b : bpow (a + b) = (bpow a * bpow b)%R.
Proof. apply powerRZ_add. lra. Qed.

Lemma bpow_Z n : 0 <= n -> bpow n = IZR (2 ^ n).
Proof. intros Hn. unfold bpow. rewrite <- (Z2Nat.id n) by done. by rewrite <- pow_powerRZ, pow_IZR. Qed.

(** The value of a positive number. *)
Definition num_value (x : number) : R :=
  match x with S754_finite false m e => (IZR (Zpos m) * bpow e)%R | _ => 0%R end.

(** A positive number with 53 digits and an exponent in the given range. *)
Definition normal (lo hi : Z) (x : number) : Prop :=
  exists m e, x = S754_finite false m e /\ 2 ^ 52 <= Zpos m < 2 ^ 53 /\ lo <= e <= hi.

(** The relative error of one operation. *)
Definition eps : R := bpow (-52).

Definition close (x : number) (v : R) : Prop := (v * (1 - eps) <= num_value x <= v * (1 + eps))%R.

(** A rounded number is the one below or above; one unit is the relative error. *)
Lemma round_aux_near m e l v :
  2 ^ 52 <= m -> -1074 <= Zdigits2 m + e - 53 <= 970 ->
  (IZR m * bpow e <= v < (IZR m + 1) * bpow e)%R ->
  let x := binary_round_aux prec emax false m e l in
  normal (Zdigits2 m + e - 53) (Zdigits2 m + e - 52) x /\ close x v.
Proof.
  intros Hm He Hv. destruct (digits2_bounds m) as (Hd0 & Hd1 & Hd2); [lia|].
  set (d := Zdigits2 m) in *. assert (Hd : 52 < d) by (apply digits2_ge; lia).
  unfold binary_round_aux. rewrite shr_fexp_normal by lia. fold d.
  destruct (shr_shift (shr_record_of_loc m l) e (d - 53)) as (r & -> & Hr);
    [lia|rewrite record_m; lia|]. rewrite record_m in Hr.
  set (n := d - 53) in *. assert (Hp : 0 < 2 ^ n) by (apply Z.pow_pos_nonneg; lia).
  assert (Hm1 : 2 ^ 52 <= m / 2 ^ n < 2 ^ 53).
  { split; [apply Z.div_le_lower_bound|apply Z.div_lt_upper_bound]; try lia.
    - rewrite <- Z.pow_add_r by lia. replace (n + 52) with (d - 1) by lia. done.
    - rewrite <- Z.pow_add_r by lia. replace (n + 53) with d by lia. done. }
  pose proof (Z.mul_div_le m (2 ^ n) Hp) as Hlo.
  assert (Hhi : m + 1 <= 2 ^ n * (m / 2 ^ n + 1)).
  { pose proof (Z.mul_succ_div_gt m (2 ^ n) Hp). lia. }
  rewrite Hr. set (k := m / 2 ^ n) in *.
  assert (Hk : (IZR k * bpow (e + n) <= v < (IZR k + 1) * bpow (e + n))%R).
  { rewrite bpow_add, (bpow_Z n) by lia. apply IZR_le in Hlo, Hhi.
    rewrite !mult_IZR, !plus_IZR in *. pose proof (bpow_pos e). nra. }
  destruct (shr_fexp_carry (round_nearest_even k (loc_of_shr_record r)) (e + n))
    as (m' & e' & -> & Hm' & Hc); [destruct (round_choice k (loc_of_shr_record r)); lia|lia|].
  cbn [shr_m]. rewrite (proj2 (Z.leb_le e' _)) by (unfold emax, prec; lia).
  split; [exists m', e'; repeat split; lia|].
  assert (Hval : num_value (S754_finite false m' e')
    = (IZR (round_nearest_even k (loc_of_shr_record r)) * bpow (e + n))%R).
  { simpl num_value. destruct Hc as [[<- ->]|[<- ->]]; [done|].
    rewrite (bpow_add (e + n) 1), mult_IZR. unfold bpow at 2. simpl. lra. }
  unfold close. rewrite Hval. pose proof (bpow_pos (e + n)) as Hb.
  assert (He1 : (bpow (e + n) <= v * eps)%R).
  { unfold eps. assert (H52 : (IZR (2 ^ 52) <= IZR k)%R) by (apply IZR_le; lia).
    rewrite <- (bpow_Z 52) in H52 by lia.
    assert (E : (bpow 52 * bpow (-52) = 1)%R) by (rewrite <- bpow_add; done).
    assert (Hle : (bpow 52 * bpow (e + n) <= v)%R) by nra.
    apply (Rmult_le_compat_r (bpow (-52))) in Hle; [|apply Rlt_le, bpow_pos].
    replace (bpow (e + n)) with (bpow 52 * bpow (e + n) * bpow (-52))%R at 1; [done|].
    rewrite Rmult_comm, <- Rmult_assoc, (Rmult_comm (bpow (-52))), E. lra. }
  destruct (round_choice k (loc_of_shr_record r)) as [-> | ->]; rewrite ?plus_IZR; nra.
Qed.

(** ** Products and quotients *)

Lemma normal_value lo hi x : normal lo hi x -> (0 < num_value x)%R.
Proof. intros (m & e & -> & _). apply Rmult_lt_0_compat; [by apply IZR_lt|apply bpow_pos]. Qed.

Lemma num_mul_near lx hx ly hy x y :
  normal lx hx x -> normal ly hy y -> -1126 <= lx + ly -> hx + hy <= 917 ->
  normal (lx + ly + 52) (hx + hy + 54) (num_mul x y)
  /\ close (num_mul x y) (num_value x * num_value y)%R.
Proof.
  intros (m1 & e1 & -> & Hm1 & He1) (m2 & e2 & -> & Hm2 & He2) Hlo Hhi.
  assert (Hp : 2 ^ 104 <= Zpos (m1 * m2) < 2 ^ 106).
  { rewrite Pos2Z.inj_mul. change (2 ^ 104) with (2 ^ 52 * 2 ^ 52).
    change (2 ^ 106) with (2 ^ 53 * 2 ^ 53). nia. }
  assert (Hd : 104 < Zdigits2 (Zpos (m1 * m2)) <= 106).
  { split; [apply digits2_ge; lia|]. destruct (digits2_bounds (Zpos (m1 * m2))) as (_ & H & _); [lia|].
    enough (Zdigits2 (Zpos (m1 * m2)) - 1 < 106) by lia. apply (Z.pow_lt_mono_r_iff 2); lia. }
  unfold num_mul, SFmul, xorb.
  destruct (round_aux_near (Zpos (m1 * m2)) (e1 + e2) loc_Exact
              (IZR (Zpos m1) * bpow e1 * (IZR (Zpos m2) * bpow e2))%R) as [(m & e & -> & Hm & He) Hc]; [lia|lia| |].
  - rewrite bpow_add, Pos2Z.inj_mul, mult_IZR. pose proof (bpow_pos e1). pose proof (bpow_pos e2).
    assert (0 < bpow e1 * bpow e2)%R by (by apply Rmult_lt_0_compat). nra.
  - split; [exists m, e; repeat split; lia|exact Hc].
Qed.

(** The quotient of two mantissas with 53 digits. *)
Lemma div_core_normal m1 e1 m2 e2 :
  2 ^ 52 <= Zpos m1 < 2 ^ 53 -> 2 ^ 52 <= Zpos m2 < 2 ^ 53 -> -1021 <= e1 - e2 ->
  SFdiv_core_binary prec emax (Zpos m1) e1 (Zpos m2) e2
  = (Zpos m1 * 2 ^ 53 / Zpos m2, e1 - e2 - 53, new_location (Zpos m2) (Zpos m1 * 2 ^ 53 mod Zpos m2)).
Proof.
  intros Hm1 Hm2 He. unfold SFdiv_core_binary.
  rewrite (digits2_unique (Zpos m1) 53), (digits2_unique (Zpos m2) 53) by lia.
  rewrite fexp_normal by lia.
  replace (Z.min (53 + e1 - (53 + e2) - 53) (e1 - e2)) with (e1 - e2 - 53) by lia.
  replace (e1 - e2 - (e1 - e2 - 53)) with 53 by lia. rewrite Z.shiftl_mul_pow2 by lia.
  unfold Z.div, Z.modulo. by destruct (Z.div_eucl (Zpos m1 * 2 ^ 53) (Zpos m2)).
Qed.

Lemma num_div_near lx hx ly hy x y :
  normal lx hx x -> normal ly hy y -> -1021 <= lx - hy -> hx - ly <= 1021 ->
  normal (lx - hy - 53) (hx - ly - 51) (num_div x y)
  /\ close (num_div x y) (num_value x / num_value y)%R.
Proof.
  intros (m1 & e1 & -> & Hm1 & He1) (m2 & e2 & -> & Hm2 & He2) Hlo Hhi.
  unfold num_div, SFdiv, xorb. rewrite div_core_normal by lia.
  set (q := Zpos m1 * 2 ^ 53 / Zpos m2).
  assert (Hq : 2 ^ 52 <= q < 2 ^ 54).
  { split; [apply Z.div_le_lower_bound|apply Z.div_lt_upper_bound]; lia. }
  assert (Hd : 52 < Zdigits2 q <= 54).
  { split; [apply digits2_ge; lia|]. destruct (digits2_bounds q) as (_ & H & _); [lia|].
    enough (Zdigits2 q - 1 < 54) by lia. apply (Z.pow_lt_mono_r_iff 2); lia. }
  destruct (round_aux_near q (e1 - e2 - 53) (new_location (Zpos m2) (Zpos m1 * 2 ^ 53 mod Zpos m2))
              (IZR (Zpos m1) * bpow e1 / (IZR (Zpos m2) * bpow e2))%R) as [(m & e & -> & Hm & He) Hc]; [lia|lia| |].
  - assert (Hm0 : (0 < IZR (Zpos m2))%R) by (by apply IZR_lt).
    assert (E : (IZR (Zpos m1) * bpow e1 / (IZR (Zpos m2) * bpow e2)
                 = IZR (Zpos m1 * 2 ^ 53) / IZR (Zpos m2) * bpow (e1 - e2 - 53))%R).
    { rewrite mult_IZR, <- bpow_Z by lia.
      replace (bpow e1) with (bpow (e1 - e2 - 53) * bpow e2 * bpow 53)%R
        by (rewrite <- !bpow_add; f_equal; lia).
      field. split; [lra|apply Rgt_not_eq, bpow_pos]. }
    rewrite E. pose proof (bpow_pos (e1 - e2 - 53)) as Hb.
    assert (Hlo' : Zpos m2 * q <= Zpos m1 * 2 ^ 53) by (apply Z.mul_div_le; lia).
    assert (Hhi' : Zpos m1 * 2 ^ 53 < Zpos m2 * (q + 1))
      by (pose proof (Z.mul_succ_div_gt (Zpos m1 * 2 ^ 53) (Zpos m2)); lia).
    apply IZR_le in Hlo'. apply IZR_lt in Hhi'. rewrite (mult_IZR (Zpos m2)) in Hlo', Hhi'. rewrite plus_IZR in Hhi'.
    set (a := IZR (Zpos m1 * 2 ^ 53)) in *. set (b := IZR (Zpos m2)) in *.
    assert (H1 : (IZR q <= a / b)%R) by (apply (Rmult_le_reg_l b); [done|]; field_simplify; lra).
    assert (H2 : (a / b < IZR q + 1)%R) by (apply (Rmult_lt_reg_l b); [done|]; field_simplify; lra).
    nra.
  - split; [exists m, e; repeat split; lia|exact Hc].
Qed.

(** ** Exact results *)

Lemma round_aux_exact k f m e :
  2 ^ 52 <= Zpos k < 2 ^ 53 -> e <= f -> m = Zpos k * 2 ^ (f - e) -> -1074 <= f <= 971 ->
  binary_round_aux prec emax false m e loc_Exact = S754_finite false k f.
Proof.
  intros Hk Hf Em Hr. assert (Hp : 0 < 2 ^ (f - e)) by (apply Z.pow_pos_nonneg; lia).
  assert (Hd : Zdigits2 m = 53 + (f - e)).
  { apply digits2_unique; [lia|]. subst m.
    replace (53 + (f - e) - 1) with (52 + (f - e)) by lia. rewrite !Z.pow_add_r by lia. nia. }
  unfold binary_round_aux. rewrite shr_fexp_normal by (rewrite ?Hd; nia).
  assert (Es : shr (shr_record_of_loc m loc_Exact) e (Zdigits2 m - 53)
    = ({| shr_m := Zpos k; shr_r := false; shr_s := false |}, f)).
  { rewrite Hd, Em. replace (53 + (f - e) - 53) with (f - e) by lia.
    destruct (f - e) as [|p|p] eqn:E; [| |lia]; simpl shr_record_of_loc; simpl shr.
    - f_equal; [|lia]. f_equal. lia.
    - f_equal; [|lia]. by apply iter_shr_exact. }
  rewrite Es. cbn [shr_m loc_of_shr_record round_nearest_even].
  destruct (shr_fexp_carry (Zpos k) f) as (m' & e' & -> & Hm' & Hc); [lia|lia|]. cbn [shr_m].
  assert (m' = k /\ e' = f) as [-> ->] by lia.
  by rewrite (proj2 (Z.leb_le f _)) by (unfold emax, prec; lia).
Qed.

Lemma iter_xO p n : Zpos (Pos.iter xO p n) = Zpos p * 2 ^ Zpos n.
Proof.
  induction n as [|n IH] using Pos.peano_ind; [simpl; lia|].
  rewrite Pos.iter_succ, Pos2Z.inj_xO, IH, Pos2Z.inj_succ, Z.pow_succ_r by lia. ring.
Qed.

(** The mantissa of an integer below [2^53]. *)
Definition int_mantissa (z : Z) : positive := Z.to_pos (z * 2 ^ (53 - Zdigits2 z)).

Lemma int_digits z : 0 < z < 2 ^ 53 -> 0 < Zdigits2 z <= 53.
Proof.
  intros Hz. destruct (digits2_bounds z) as (H0 & H1 & _); [lia|]. split; [done|].
  enough (Zdigits2 z - 1 < 53) by lia. apply (Z.pow_lt_mono_r_iff 2); lia.
Qed.

Lemma int_mantissa_spec z :
  0 < z < 2 ^ 53 ->
  Zpos (int_mantissa z) = z * 2 ^ (53 - Zdigits2 z) /\ 2 ^ 52 <= Zpos (int_mantissa z) < 2 ^ 53.
Proof.
  intros Hz. pose proof (int_digits z Hz). destruct (digits2_bounds z) as (_ & H1 & H2); [lia|].
  assert (0 < 2 ^ (53 - Zdigits2 z)) by (apply Z.pow_pos_nonneg; lia).
  unfold int_mantissa. rewrite Z2Pos.id by nia. split; [done|].
  assert (E1 : 2 ^ 52 = 2 ^ (Zdigits2 z - 1) * 2 ^ (53 - Zdigits2 z))
    by (rewrite <- Z.pow_add_r by lia; f_equal; lia).
  assert (E2 : 2 ^ 53 = 2 ^ Zdigits2 z * 2 ^ (53 - Zdigits2 z))
    by (rewrite <- Z.pow_add_r by lia; f_equal; lia).
  rewrite E1, E2. split; [apply Z.mul_le_mono_nonneg_r|apply Z.mul_lt_mono_pos_r]; lia.
Qed.

Lemma num_of_Z_int z :
  0 < z < 2 ^ 53 -> num_of_Z z = S754_finite false (int_mantissa z) (Zdigits2 z - 53).
Proof.
  intros Hz. pose proof (int_digits z Hz) as Hd. destruct (int_mantissa_spec z Hz) as [Em Hm].
  destruct z as [|p|p]; [lia| |lia]. unfold num_of_Z, binary_normalize, binary_round.
  change (Zpos (digits2_pos p)) with (Zdigits2 (Zpos p)). rewrite fexp_normal by lia.
  unfold shl_align. set (d := Zdigits2 (Zpos p)) in *. replace (d + 0 - 53 - 0) with (d - 53) by lia.
  destruct (d - 53) as [|n|n] eqn:E; [|lia|].
  - apply round_aux_exact; [done|lia| |lia].
    rewrite Em. replace (53 - d) with 0 by lia. simpl. lia.
  - apply round_aux_exact; [done|lia| |lia].
    rewrite iter_xO, Em. replace (53 - d) with (Zpos n) by lia.
    replace (Zneg n - (d + 0 - 53)) with 0 by lia. lia.
Qed.

Lemma num_of_Z_normal z : 0 < z < 2 ^ 53 -> normal (-52) 0 (num_of_Z z).
Proof.
  intros Hz. pose proof (int_digits z Hz). rewrite num_of_Z_int by done.
  destruct (int_mantissa_spec z Hz) as [_ Hm]. exists (int_mantissa z), (Zdigits2 z - 53).
  repeat split; lia.
Qed.

Lemma num_of_Z_value z : 0 < z < 2 ^ 53 -> num_value (num_of_Z z) = IZR z.
Proof.
  intros Hz. pose proof (int_digits z Hz). rewrite num_of_Z_int by done.
  destruct (int_mantissa_spec z Hz) as [Em _]. simpl num_value.
  rewrite Em, mult_IZR, <- bpow_Z by lia. rewrite Rmult_assoc, <- bpow_add.
  replace (53 - Zdigits2 z + (Zdigits2 z - 53)) with 0 by lia. unfold bpow. simpl. lra.
Qed.

(** The integer of a product. *)
Lemma digits2_mul a b :
  0 < a -> 0 < b -> Zdigits2 a + Zdigits2 b - 1 <= Zdigits2 (a * b) <= Zdigits2 a + Zdigits2 b.
Proof.
  intros Ha Hb. destruct (digits2_bounds a) as (Ha0 & Ha1 & Ha2); [done|].
  destruct (digits2_bounds b) as (Hb0 & Hb1 & Hb2); [done|].
  destruct (digits2_bounds (a * b)) as (H0 & H1 & H2); [nia|]. split.
  - enough (Zdigits2 a + Zdigits2 b - 2 < Zdigits2 (a * b)) by lia. apply digits2_ge; [lia|].
    replace (Zdigits2 a + Zdigits2 b - 2) with (Zdigits2 a - 1 + (Zdigits2 b - 1)) by lia.
    rewrite Z.pow_add_r by lia. apply Z.mul_le_mono_nonneg; try lia; apply Z.pow_nonneg; lia.
  - enough (Zdigits2 (a * b) - 1 < Zdigits2 a + Zdigits2 b) by lia.
    apply (Z.pow_lt_mono_r_iff 2); [lia|lia|]. rewrite Z.pow_add_r by lia.
    apply (Z.le_lt_trans _ (a * b)); [done|]. apply Z.mul_lt_mono_nonneg; lia.
Qed.

Lemma num_mul_int a b :
  0 < a -> 0 < b -> a * b < 2 ^ 53 -> num_mul (num_of_Z a) (num_of_Z b) = num_of_Z (a * b).
Proof.
  intros Ha Hb Hab. assert (Ha' : 0 < a < 2 ^ 53) by nia. assert (Hb' : 0 < b < 2 ^ 53) by nia.
  rewrite !num_of_Z_int by nia. destruct (int_mantissa_spec a Ha') as [Ea _].
  destruct (int_mantissa_spec b Hb') as [Eb _].
  destruct (int_mantissa_spec (a * b)) as [Eab Hm]; [nia|].
  pose proof (digits2_mul a b Ha Hb). pose proof (int_digits a Ha'). pose proof (int_digits b Hb').
  pose proof (int_digits (a * b) ltac:(nia)).
  unfold num_mul, SFmul, xorb. apply round_aux_exact; [done|lia| |lia].
  rewrite Pos2Z.inj_mul, Ea, Eb, Eab. set (da := Zdigits2 a) in *. set (db := Zdigits2 b) in *.
  set (dab := Zdigits2 (a * b)) in *.
  rewrite <- (Z.mul_assoc (a * b)), <- Z.pow_add_r by lia.
  replace (53 - dab + (dab - 53 - (da - 53 + (db - 53)))) with (53 - da + (53 - db)) by lia.
  rewrite Z.pow_add_r by lia. ring.
Qed.

Lemma new_location_exact n : new_location n 0 = loc_Exact.
Proof. unfold new_location. by destruct (Z.even n). Qed.

Lemma num_div_int a b :
  0 < a -> 0 < b -> a * b < 2 ^ 53 -> num_div (num_of_Z (a * b)) (num_of_Z b) = num_of_Z a.
Proof.
  intros Ha Hb Hab. assert (Ha' : 0 < a < 2 ^ 53) by nia. assert (Hb' : 0 < b < 2 ^ 53) by nia.
  rewrite !num_of_Z_int by nia. destruct (int_mantissa_spec a Ha') as [Ea Hma].
  destruct (int_mantissa_spec b Hb') as [Eb Hmb].
  destruct (int_mantissa_spec (a * b)) as [Eab Hm]; [nia|].
  pose proof (digits2_mul a b Ha Hb). pose proof (int_digits a Ha'). pose proof (int_digits b Hb').
  pose proof (int_digits (a * b) ltac:(nia)).
  unfold num_div, SFdiv, xorb. rewrite div_core_normal by lia.
  set (da := Zdigits2 a) in *. set (db := Zdigits2 b) in *. set (dab := Zdigits2 (a * b)) in *.
  assert (E : Zpos (int_mantissa (a * b)) * 2 ^ 53
    = (a * 2 ^ (53 - dab + db)) * Zpos (int_mantissa b)).
  { rewrite Eab, Eb. replace (a * b * 2 ^ (53 - dab) * 2 ^ 53) with (a * b * (2 ^ (53 - dab) * 2 ^ 53)) by ring.
    rewrite <- Z.pow_add_r by lia.
    replace (53 - dab + 53) with (53 - dab + db + (53 - db)) by lia. rewrite Z.pow_add_r by lia. ring. }
  rewrite E, Z.div_mul, Z.mod_mul by lia. rewrite new_location_exact.
  apply round_aux_exact; [done|lia| |lia]. rewrite Ea, <- Z.mul_assoc, <- Z.pow_add_r by lia. f_equal. f_equal. lia.
Qed.

(** Sums of integers. *)
Lemma normalize_scaled z n :
  0 < z < 2 ^ 53 -> 0 <= n <= 1000 ->
  binary_normalize prec emax (z * 2 ^ n) (- n) false = num_of_Z z.
Proof.
  intros Hz Hn. pose proof (int_digits z Hz) as Hd. destruct (int_mantissa_spec z Hz) as [Em Hm].
  destruct (digits2_bounds z) as (_ & H1 & H2); [lia|].
  rewrite num_of_Z_int by done. assert (Hp : 0 < 2 ^ n) by (apply Z.pow_pos_nonneg; lia).
  assert (Hdn : Zdigits2 (z * 2 ^ n) = Zdigits2 z + n).
  { apply digits2_unique; [lia|]. replace (Zdigits2 z + n - 1) with (Zdigits2 z - 1 + n) by lia.
    rewrite !Z.pow_add_r by lia. nia. }
  destruct (z * 2 ^ n) as [|p|p] eqn:Ez; [lia| |lia]. unfold binary_normalize, binary_round.
  change (Zpos (digits2_pos p)) with (Zdigits2 (Zpos p)). rewrite Hdn, fexp_normal by lia.
  unfold shl_align. set (d := Zdigits2 z) in *. replace (d + n + - n - 53 - - n) with (d - 53 + n) by lia.
  destruct (d - 53 + n) as [|q|q] eqn:E.
  - apply round_aux_exact; [done|lia| |lia]. rewrite <- Ez, Em. replace (53 - d) with n by lia.
    replace (d - 53 - - n) with 0 by lia. lia.
  - apply round_aux_exact; [done|lia| |lia]. rewrite <- Ez, Em, <- Z.mul_assoc, <- Z.pow_add_r by lia.
    do 2 f_equal. lia.
  - apply round_aux_exact; [done|lia| |lia].
    rewrite iter_xO, <- Ez, Em. replace (d - 53 - (d + n + - n - 53)) with 0 by lia.
    rewrite <- Z.mul_assoc, <- Z.pow_add_r by lia. rewrite Z.mul_1_r. do 2 f_equal. lia.
Qed.

Lemma align_int z n :
  0 < z < 2 ^ 53 -> 53 - Zdigits2 z <= n ->
  Zpos (fst (shl_align (int_mantissa z) (Zdigits2 z - 53) (- n))) = z * 2 ^ n.
Proof.
  intros Hz Hn. pose proof (int_digits z Hz). destruct (int_mantissa_spec z Hz) as [Em _].
  unfold shl_align. destruct (- n - (Zdigits2 z - 53)) as [|q|q] eqn:E; [|lia|]; cbn [fst].
  - rewrite Em. do 2 f_equal. lia.
  - rewrite iter_xO, Em, <- Z.mul_assoc, <- Z.pow_add_r by lia. do 2 f_equal. lia.
Qed.

Lemma num_add_int a b :
  0 <= a -> 0 <= b -> a + b < 2 ^ 53 -> num_add (num_of_Z a) (num_of_Z b) = num_of_Z (a + b).
Proof.
  intros Ha Hb Hab. destruct (decide (a = 0)) as [->|Hna].
  { destruct (decide (b = 0)) as [->|Hnb]; [done|]. rewrite Z.add_0_l, (num_of_Z_int b) by lia. done. }
  destruct (decide (b = 0)) as [->|Hnb]; [rewrite Z.add_0_r, (num_of_Z_int a) by lia; done|].
  pose proof (int_digits a ltac:(lia)). pose proof (int_digits b ltac:(lia)).
  rewrite (num_of_Z_int a), (num_of_Z_int b) by lia. unfold num_add, SFadd, cond_Zopp.
  set (n := - Z.min (Zdigits2 a - 53) (Zdigits2 b - 53)).
  replace (Z.min (Zdigits2 a - 53) (Zdigits2 b - 53)) with (- n) by lia.
  rewrite !align_int, <- Z.mul_add_distr_r by lia. apply normalize_scaled; lia.
Qed.

Lemma num_sub_int a b :
  0 <= b <= a -> a < 2 ^ 53 -> num_sub (num_of_Z a) (num_of_Z b) = num_of_Z (a - b).
Proof.
  intros Hab Ha. destruct (decide (b = 0)) as [->|Hnb].
  { rewrite Z.sub_0_r. destruct (decide (a = 0)) as [->|Hna]; [done|]. by rewrite num_of_Z_int by lia. }
  pose proof (int_digits a ltac:(lia)). pose proof (int_digits b ltac:(lia)).
  rewrite (num_of_Z_int a), (num_of_Z_int b) by lia. unfold num_sub, SFsub, cond_Zopp.
  set (n := - Z.min (Zdigits2 a - 53) (Zdigits2 b - 53)).
  replace (Z.min (Zdigits2 a - 53) (Zdigits2 b - 53)) with (- n) by lia.
  rewrite !align_int, <- Z.mul_sub_distr_r by lia. destruct (decide (a = b)) as [->|Hne].
  - by rewrite Z.sub_diag.
  - apply normalize_scaled; lia.
Qed.

(** ** Integers *)

Lemma num_of_Z_split z :
  0 < z < 2 ^ 53 -> exists m n, num_of_Z z = S754_finite false m (- n) /\ 0 <= n /\ Zpos m = z * 2 ^ n.
Proof.
  intros Hz. pose proof (int_digits z Hz). destruct (int_mantissa_spec z Hz) as [Em _].
  exists (int_mantissa z), (53 - Zdigits2 z). rewrite num_of_Z_int by done.
  repeat split; [f_equal; lia|lia|done].
Qed.

Lemma Math_floor_int z : 0 <= z < 2 ^ 53 -> Math_floor (num_of_Z z) = num_of_Z z.
Proof.
  intros Hz. destruct (decide (z = 0)) as [->|Hne]; [done|].
  destruct (num_of_Z_split z) as (m & n & E & Hn & Em); [lia|]. rewrite E at 1. simpl.
  assert (0 < 2 ^ n) by (apply Z.pow_pos_nonneg; lia).
  destruct (Z.leb_spec 0 (- n)); [done|].
  rewrite Em, Z.opp_involutive, Z.div_mul by lia. by rewrite (proj2 (Z.eqb_neq z 0)).
Qed.

(** A number nearer than one half to an integer is rounded to it. *)
Lemma Math_round_near lo hi x z :
  normal lo hi x -> 0 < z < 2 ^ 51 -> (IZR z - / 2 < num_value x < IZR z + / 2)%R ->
  Math_round x = num_of_Z z.
Proof.
  intros (m & e & -> & Hm & _) Hz Hv. simpl num_value in Hv. simpl Math_round.
  destruct (Z.leb_spec 0 e) as [He|He].
  - exfalso. rewrite bpow_Z in Hv by done. rewrite <- mult_IZR in Hv.
    assert (0 < 2 ^ e) by (apply Z.pow_pos_nonneg; lia).
    assert (Hge : 2 ^ 52 <= Zpos m * 2 ^ e) by nia. apply IZR_le in Hge.
    assert (Hlt : z + 1 <= 2 ^ 52) by lia. apply IZR_le in Hlt. rewrite plus_IZR in Hlt. lra.
  - set (d := 2 ^ (- e)). assert (Hd : 0 < d) by (apply Z.pow_pos_nonneg; lia).
    assert (Hb : (bpow e * IZR d = 1)%R).
    { unfold d. rewrite <- bpow_Z by lia. rewrite <- bpow_add. by replace (e + - e) with 0 by lia. }
    assert (HdR : (0 < IZR d)%R) by (by apply IZR_lt).
    destruct Hv as [Hv1 Hv2]. apply (Rmult_lt_compat_r (IZR d)) in Hv1, Hv2; [|done..].
    rewrite Rmult_assoc, Hb in Hv1, Hv2.
    assert (H1 : (2 * z - 1) * d < 2 * Zpos m).
    { apply lt_IZR. rewrite !mult_IZR, minus_IZR, mult_IZR. lra. }
    assert (H2 : 2 * Zpos m < (2 * z + 1) * d).
    { apply lt_IZR. rewrite !mult_IZR, plus_IZR, mult_IZR. lra. }
    replace ((2 * Zpos m + d) / (2 * d)) with z
      by (apply Z.div_unique with (r := 2 * Zpos m + d - 2 * d * z); lia).
    by rewrite (proj2 (Z.eqb_neq z 0)) by lia.
Qed.

Lemma Math_round_int z : 0 <= z < 2 ^ 51 -> Math_round (num_of_Z z) = num_of_Z z.
Proof.
  intros Hz. destruct (decide (z = 0)) as [->|Hne]; [done|].
  apply (Math_round_near (-52) 0); [apply num_of_Z_normal; lia|lia|].
  rewrite num_of_Z_value by lia. lra.
Qed.

(** ** Comparisons and dates *)

Lemma num_of_Z_zero : num_of_Z 0 = zero.
Proof. done. Qed.

Lemma num_ltb_zero_int z : 0 < z < 2 ^ 53 -> num_ltb zero (num_of_Z z) = true.
Proof. intros Hz. by rewrite num_of_Z_int. Qed.

(** Integers are compared as integers. *)
Lemma num_ltb_int a b :
  0 < a < 2 ^ 53 -> 0 < b < 2 ^ 53 -> num_ltb (num_of_Z a) (num_of_Z b) = (a <? b).
Proof.
  intros Ha Hb. rewrite !num_of_Z_int by done.
  destruct (int_mantissa_spec a Ha) as [Ea _], (int_mantissa_spec b Hb) as [Eb _].
  pose proof (int_digits a Ha). pose proof (int_digits b Hb).
  destruct (digits2_bounds a) as (_ & Ha1 & Ha2); [lia|].
  destruct (digits2_bounds b) as (_ & Hb1 & Hb2); [lia|].
  unfold num_ltb, SFltb, SFcompare.
  destruct (Z.compare_spec (Zdigits2 a - 53) (Zdigits2 b - 53)) as [E|E|E].
  - assert (Ed : Zdigits2 a = Zdigits2 b) by lia. rewrite Ed in Ea.
    assert (Hp : 0 < 2 ^ (53 - Zdigits2 b)) by (apply Z.pow_pos_nonneg; lia).
    change (Pos.compare_cont Eq ?x ?y) with (Pos.compare x y).
    destruct (Pos.compare_spec (int_mantissa a) (int_mantissa b)) as [Em|Em|Em].
    + rewrite Em in Ea. symmetry. apply Z.ltb_ge. nia.
    + symmetry. apply Z.ltb_lt. apply Pos2Z.pos_lt_pos in Em. nia.
    + symmetry. apply Z.ltb_ge. apply Pos2Z.pos_lt_pos in Em. nia.
  - symmetry. apply Z.ltb_lt. apply (Z.lt_le_trans _ (2 ^ Zdigits2 a)); [done|].
    apply (Z.le_trans _ (2 ^ (Zdigits2 b - 1))); [|done]. apply Z.pow_le_mono_r; lia.
  - symmetry. apply Z.ltb_ge. apply (Z.le_trans _ (2 ^ Zdigits2 b)); [lia|].
    apply (Z.le_trans _ (2 ^ (Zdigits2 a - 1))); [|done]. apply Z.pow_le_mono_r; lia.
Qed.

(** The seconds of a date made from seconds. *)
Lemma date_seconds t :
  0 < t <= 8640000000000 ->
  Math_floor (num_div (js_date (num_mul (num_of_Z t) (num_of_Z 1000))) (num_of_Z 1000)) = num_of_Z t.
Proof.
  intros Ht. rewrite num_mul_int by lia.
  assert (E : js_date (num_of_Z (t * 1000)) = num_of_Z (t * 1000)).
  { unfold js_date. rewrite num_of_Z_int by lia. cbn [isFinite num_abs SFabs negb orb].
    rewrite <- num_of_Z_int by lia.
    rewrite num_ltb_int by lia. rewrite (proj2 (Z.ltb_ge _ _)) by lia.
    rewrite num_of_Z_int by lia. rewrite <- num_of_Z_int by lia. apply Math_floor_int. lia. }
  rewrite E, num_div_int by lia. apply Math_floor_int. lia.
Qed.
