(* ===== verification/Json.v ===== *)
(** * JSON values, [JSON.stringify], [JSON.parse] and [String]

    [json] is the type of the values [JSON.parse] returns.  An object is its
    properties in insertion order ([obj_set] overwrites in place or appends);
    [entries] gives them in the order [Object.entries] enumerates them, array
    indices first.  The parser is exact for the JSON grammar (RFC 8259 as
    [JSON.parse] implements it); [json_fuel] bounds its recursion by the length
    of the text. *)
From Stdlib Require Import NArith ZArith.
From Stdlib Require Import Floats.SpecFloat.
From stdpp Require Import list numbers.
From S2P Require Import Prelude JsString JsNumber.

#[warnings="-register-all"]
Inductive json : Type :=
| JNull
| JBool (b : bool)
| JNum (n : number)
| JStr (s : jsstr)
| JArr (l : list json)
| JObj (kvs : list (jsstr * json)).

(** ** Strings *)

Definition is_high (c : N) : bool := ((55296 <=? c) && (c <=? 56319))%N.
Definition is_low (c : N) : bool := ((56320 <=? c) && (c <=? 57343))%N.

Definition hex_digit (d : N) : N := if (d <? 10)%N then (48 + d)%N else (87 + d)%N.

Definition hex4 (c : N) : jsstr :=
  [hex_digit (c / 4096); hex_digit (c / 256 mod 16); hex_digit (c / 16 mod 16);
   hex_digit (c mod 16)]%N.

Definition unicode_escape (c : N) : jsstr := 92%N :: 117%N :: hex4 c.

(** The escape of one unit that is not a surrogate ([QuoteJSONString]). *)
Definition escape_unit (c : N) : jsstr :=
  (if c =? 34 then [92; 34]
   else if c =? 92 then [92; 92]
   else if c =? 8 then [92; 98]
   else if c =? 9 then [92; 116]
   else if c =? 10 then [92; 110]
   else if c =? 12 then [92; 102]
   else if c =? 13 then [92; 114]
   else if c <? 32 then unicode_escape c
   else [c])%N.

Fixpoint quote_body (s : jsstr) : jsstr :=
  match s with
  | [] => []
  | c :: t =>
      if is_high c then
        match t with
        | d :: t' =>
            if is_low d then c :: d :: quote_body t'
            else unicode_escape c ++ quote_body t
        | [] => unicode_escape c
        end
      else if is_low c then unicode_escape c ++ quote_body t
      else escape_unit c ++ quote_body t
  end.

(** [JSON.stringify(s)] of a string. *)
Definition JSON_stringify_str (s : jsstr) : jsstr := 34%N :: quote_body s ++ [34%N].

Definition unescape (e : N) : option N :=
  (if e =? 34 then Some 34
   else if e =? 92 then Some 92
   else if e =? 47 then Some 47
   else if e =? 98 then Some 8
   else if e =? 102 then Some 12
   else if e =? 110 then Some 10
   else if e =? 114 then Some 13
   else if e =? 116 then Some 9
   else None)%N.

Definition hex_value4 (a b c d : N) : option N :=
  match digit_in_base 16 a, digit_in_base 16 b, digit_in_base 16 c, digit_in_base 16 d with
  | Some a', Some b', Some c', Some d' => Some (((a' * 16 + b') * 16 + c') * 16 + d')%N
  | _, _, _, _ => None
  end.

(** The rest of a string literal after its opening quote. *)
Fixpoint parse_str_body (s : jsstr) : option (jsstr * jsstr) :=
  match s with
  | [] => None
  | c :: t =>
      if (c =? 34)%N then Some ([], t)
      else if (c =? 92)%N then
        match t with
        | [] => None
        | e :: t1 =>
            if (e =? 117)%N then
              match t1 with
              | h1 :: h2 :: h3 :: h4 :: t2 =>
                  match hex_value4 h1 h2 h3 h4, parse_str_body t2 with
                  | Some x, Some (w, u) => Some (x :: w, u)
                  | _, _ => None
                  end
              | _ => None
              end
            else
              match unescape e, parse_str_body t1 with
              | Some x, Some (w, u) => Some (x :: w, u)
              | _, _ => None
              end
        end
      else if (c <? 32)%N then None
      else
        match parse_str_body t with
        | Some (w, u) => Some (c :: w, u)
        | None => None
        end
  end.

(** ** Objects *)

Fixpoint obj_get (k : jsstr) (kvs : list (jsstr * json)) : option json :=
  match kvs with
  | [] => None
  | (k', v) :: r => if str_eqb k k' then Some v else obj_get k r
  end.

(** [o[k] = v]. *)
Fixpoint obj_set (k : jsstr) (v : json) (kvs : list (jsstr * json)) : list (jsstr * json) :=
  match kvs with
  | [] => [(k, v)]
  | (k', v') :: r => if str_eqb k k' then (k', v) :: r else (k', v') :: obj_set k v r
  end.

(** [delete o[k]]. *)
Fixpoint obj_delete (k : jsstr) (kvs : list (jsstr * json)) : list (jsstr * json) :=
  match kvs with
  | [] => []
  | (k', v') :: r => if str_eqb k k' then obj_delete k r else (k', v') :: obj_delete k r
  end.

(** [k in o]. *)
Definition obj_has (k : jsstr) (kvs : list (jsstr * json)) : bool :=
  match obj_get k kvs with Some _ => true | None => false end.

(** The array index a property key denotes: canonical decimal, below 2^32 - 1. *)
Definition array_index (k : jsstr) : option N :=
  match k with
  | [] => None
  | _ =>
      if forallb is_digit k then
        let n := dec_value k in
        if str_eqb (to_dec n) k && (n <? 4294967295)%N then Some n else None
      else None
  end.

Fixpoint insert_indexed {A} (n : N) (kv : jsstr * A) (l : list (N * (jsstr * A)))
    : list (N * (jsstr * A)) :=
  match l with
  | [] => [(n, kv)]
  | (m, kv') :: r => if (n <=? m)%N then (n, kv) :: l else (m, kv') :: insert_indexed n kv r
  end.

(** [Object.entries(o)]: array indices in ascending order, then the other keys in
    insertion order. *)
Definition entries {A} (kvs : list (jsstr * A)) : list (jsstr * A) :=
  let idx := fold_right
    (λ kv acc, match array_index kv.1 with
               | Some n => insert_indexed n kv acc
               | None => acc
               end) [] kvs in
  map snd idx
  ++ List.filter (λ kv, match array_index kv.1 with Some _ => false | None => true end) kvs.

Definition object_keys (kvs : list (jsstr * json)) : list jsstr := map fst (entries kvs).
Definition object_values (kvs : list (jsstr * json)) : list json := map snd (entries kvs).

(** ** [JSON.parse] *)

Definition json_ws (c : N) : bool := ((c =? 9) || (c =? 10) || (c =? 13) || (c =? 32))%N.

Fixpoint skip_ws (s : jsstr) : jsstr :=
  match s with
  | c :: t => if json_ws c then skip_ws t else s
  | [] => []
  end.

(** The integer digits of a JSON number: no leading zeros. *)
Definition json_int_ok (ip : jsstr) : bool :=
  match ip with
  | [] => false
  | [_] => true
  | d :: _ => negb (d =? 48)%N
  end.

(** The fraction digits, at least one after a point. *)
Definition json_fraction (u : jsstr) : option (jsstr * jsstr) :=
  match u with
  | c :: u' =>
      if (c =? 46)%N then
        let '(fp, v) := span_digits u' in if nonempty fp then Some (fp, v) else None
      else Some ([], u)
  | [] => Some ([], [])
  end.

Definition parse_json_unsigned (neg : bool) (t : jsstr) : option (number * jsstr) :=
  let '(ip, u) := span_digits t in
  if json_int_ok ip then
    match json_fraction u with
    | Some (fp, v) =>
        match parse_exponent v with
        | Some (e, w) =>
            Some (num_of_decimal neg (dec_value (ip ++ fp)) (e - Z.of_nat (length fp)), w)
        | None => None
        end
    | None => None
    end
  else None.

(** A JSON number at the start of the text. *)
Definition parse_json_number (s : jsstr) : option (number * jsstr) :=
  match s with
  | c :: t => if (c =? 45)%N then parse_json_unsigned true t else parse_json_unsigned false s
  | [] => None
  end.

Definition lit_null : jsstr := "null".
Definition lit_true : jsstr := "true".
Definition lit_false : jsstr := "false".

Fixpoint parse_value (fuel : nat) (s : jsstr) : option (json * jsstr) :=
  match fuel with
  | 0 => None
  | S fuel' =>
      match skip_ws s with
      | [] => None
      | (c :: t) as u =>
          if (c =? 34)%N then
            match parse_str_body t with Some (w, v) => Some (JStr w, v) | None => None end
          else if (c =? 91)%N then
            match skip_ws t with
            | d :: t' => if (d =? 93)%N then Some (JArr [], t')
                         else match parse_elems fuel' t with
                              | Some (l, v) => Some (JArr l, v)
                              | None => None
                              end
            | [] => None
            end
          else if (c =? 123)%N then
            match skip_ws t with
            | d :: t' => if (d =? 125)%N then Some (JObj [], t')
                         else parse_members fuel' t []
            | [] => None
            end
          else if startsWith lit_true u then Some (JBool true, drop 4 u)
          else if startsWith lit_false u then Some (JBool false, drop 5 u)
          else if startsWith lit_null u then Some (JNull, drop 4 u)
          else match parse_json_number u with
               | Some (n, v) => Some (JNum n, v)
               | None => None
               end
      end
  end
with parse_elems (fuel : nat) (s : jsstr) : option (list json * jsstr) :=
  match fuel with
  | 0 => None
  | S fuel' =>
      match parse_value fuel' s with
      | Some (v, t) =>
          match skip_ws t with
          | d :: u =>
              if (d =? 93)%N then Some ([v], u)
              else if (d =? 44)%N then
                match parse_elems fuel' u with
                | Some (l, w) => Some (v :: l, w)
                | None => None
                end
              else None
          | [] => None
          end
      | None => None
      end
  end
with parse_members (fuel : nat) (s : jsstr) (acc : list (jsstr * json)) : option (json * jsstr) :=
  match fuel with
  | 0 => None
  | S fuel' =>
      match skip_ws s with
      | q :: t =>
          if (q =? 34)%N then
            match parse_str_body t with
            | Some (k, u) =>
                match skip_ws u with
                | col :: v =>
                    if (col =? 58)%N then
                      match parse_value fuel' v with
                      | Some (x, w) =>
                          match skip_ws w with
                          | d :: y =>
                              if (d =? 125)%N then Some (JObj (obj_set k x acc), y)
                              else if (d =? 44)%N then parse_members fuel' y (obj_set k x acc)
                              else None
                          | [] => None
                          end
                      | None => None
                      end
                    else None
                | [] => None
                end
            | None => None
            end
          else None
      | [] => None
      end
  end.

(** Each unit of text takes at most two levels of the parser's recursion. *)
Definition json_fuel (s : jsstr) : nat := 2 * length s + 2.

(** [JSON.parse(s)]; [None] is the [SyntaxError] it throws. *)
Definition JSON_parse (s : jsstr) : option json :=
  match parse_value (json_fuel s) s with
  | Some (j, t) => match skip_ws t with [] => Some j | _ => None end
  | None => None
  end.

(** ** [String(value)] *)

(** [ToString] of a value; an array joins its elements with commas, [null]
    elements as the empty string. *)
Fixpoint json_toString (j : json) : jsstr :=
  match j with
  | JNull => lit_null
  | JBool b => if b then lit_true else lit_false
  | JNum n => Number_toString n
  | JStr s => s
  | JArr l => join "," (map (λ x, match x with JNull => [] | _ => json_toString x end) l)
  | JObj _ => "[object Object]"
  end.

(** A value in a boolean context. *)
Definition json_truthy (j : json) : bool :=
  match j with
  | JNull => false
  | JBool b => b
  | JNum n => num_truthy n
  | JStr s => nonempty s
  | JArr _ | JObj _ => true
  end.

Example json_parse_ex :
  JSON_parse " {\qb\q: [1, 2.50, \qx\\u0041\\n\q], \q10\q: null, \qb\q: true, \q9\q:-0.5e1} "
  = Some (JObj [("b", JBool true); ("10", JNull); ("9", JNum (Number_of_string "-5"))]).
Proof. vm_compute. reflexivity. Qed.

Example json_parse_bad :
  map JSON_parse ["01"; "1."; "[1,]"; "{a:1}"; "\qab"; "tru"; "1 2"; ""]
  = replicate 8 None.
Proof. vm_compute. reflexivity. Qed.

(** ** Round trip of strings *)

Lemma hex_digit_value d : (d < 16)%N → digit_in_base 16 (hex_digit d) = Some d.
Proof.
  intros H.
  assert (E : In d (map N.of_nat (seq 0 16))).
  { apply in_map_iff. exists (N.to_nat d). split; [lia|]. apply in_seq. lia. }
  simpl in E. destruct_or!; subst; reflexivity || done.
Qed.

Lemma hex4_value c : (c < 65536)%N →
  match hex4 c with
  | [h1; h2; h3; h4] => hex_value4 h1 h2 h3 h4 = Some c
  | _ => False
  end.
Proof.
  intros H. unfold hex4, hex_value4.
  rewrite !hex_digit_value; [f_equal; zify; Z.to_euclidean_division_equations; lia| |..];
    try (apply N.mod_lt; done).
  apply N.Div0.div_lt_upper_bound. lia.
Qed.

Lemma parse_unicode_escape c t : (c < 65536)%N →
  parse_str_body (unicode_escape c ++ t)
  = match parse_str_body t with Some (w, u) => Some (c :: w, u) | None => None end.
Proof.
  intros H. pose proof (hex4_value c H) as E. unfold unicode_escape.
  destruct (hex4 c) as [|h1 [|h2 [|h3 [|h4 [|]]]]]; try done.
  cbn -[hex_value4]. by rewrite E.
Qed.

Lemma parse_plain c t :
  (32 ≤ c)%N → c ≠ 34%N → c ≠ 92%N →
  parse_str_body (c :: t)
  = match parse_str_body t with Some (w, u) => Some (c :: w, u) | None => None end.
Proof.
  intros H1 H2 H3. cbn [parse_str_body].
  apply N.eqb_neq in H2 as ->. apply N.eqb_neq in H3 as ->.
  by apply N.ltb_ge in H1 as ->.
Qed.

Lemma parse_escape_unit c t : (c < 65536)%N →
  parse_str_body (escape_unit c ++ t)
  = match parse_str_body t with Some (w, u) => Some (c :: w, u) | None => None end.
Proof.
  intros H. unfold escape_unit.
  repeat match goal with
  | |- context [(c =? ?n)%N] => destruct (N.eqb_spec c n) as [->|?]; [done|]
  end.
  destruct (N.ltb_spec c 32).
  - by apply parse_unicode_escape.
  - by apply parse_plain.
Qed.

(** The code units of a string are 16 bits wide. *)
Definition units_ok (s : jsstr) : bool := forallb (λ c, c <? 65536)%N s.

Lemma parse_quote_body s t :
  units_ok s = true → parse_str_body (quote_body s ++ 34%N :: t) = Some (s, t).
Proof.
  remember (length s) as n eqn:Hn. revert s Hn.
  induction (lt_wf n) as [n _ IH]. intros s -> Hs.
  destruct s as [|c s]; [done|].
  unfold units_ok in Hs. simpl in Hs. bool_prop. apply N.ltb_lt in H.
  assert (IHs : parse_str_body (quote_body s ++ 34%N :: t) = Some (s, t)).
  { eapply IH; [|reflexivity|done]. simpl. lia. }
  cbn [quote_body]. destruct (is_high c) eqn:Eh; [destruct s as [|d s]|destruct (is_low c) eqn:El].
  - rewrite parse_unicode_escape by done. done.
  - destruct (is_low d) eqn:Ed.
    + unfold is_high, is_low in *. bool_prop. rewrite !N.leb_le in *.
      cbn [app]. rewrite !parse_plain by lia.
      cbn [forallb] in *. bool_prop.
      erewrite IH; [done| |reflexivity|done]. simpl. lia.
    + rewrite <- app_assoc, parse_unicode_escape by done. by rewrite IHs.
  - rewrite <- app_assoc, parse_unicode_escape by done. by rewrite IHs.
  - rewrite <- app_assoc, parse_escape_unit by done. by rewrite IHs.
Qed.

(** [JSON.parse(JSON.stringify(s)) === s]. *)
Lemma JSON_parse_stringify_str s :
  units_ok s = true → JSON_parse (JSON_stringify_str s) = Some (JStr s).
Proof.
  intros Hs. unfold JSON_parse, JSON_stringify_str, json_fuel.
  cbn [length Nat.mul Nat.add parse_value skip_ws json_ws N.eqb Pos.eqb orb].
  by rewrite parse_quote_body.
Qed.

(** ** A parsed object

    [JSON.parse] followed by the test
    [!parsed || typeof parsed !== 'object' || Array.isArray(parsed)]: the
    properties of the object the text denotes, or nothing. *)
Definition parse_object (s : jsstr) : option (list (jsstr * json)) :=
  match JSON_parse s with Some (JObj kvs) => Some kvs | _ => None end.

Lemma insert_indexed_perm {A} n (kv : jsstr * A) l : Permutation (insert_indexed n kv l) ((n, kv) :: l).
Proof.
  induction l as [|[m kv'] l IH]; simpl; [done|]. destruct (n <=? m)%N; [done|].
  rewrite IH. apply perm_swap.
Qed.

(** [Object.entries] lists every property once. *)
Lemma entries_perm {A} (kvs : list (jsstr * A)) : Permutation (entries kvs) kvs.
Proof.
  unfold entries. set (idx := fold_right _ [] kvs).
  assert (H : Permutation (map snd idx)
                (List.filter (λ kv, match array_index kv.1 with Some _ => true | None => false end) kvs)).
  { unfold idx. clear idx. induction kvs as [|kv kvs IH]; simpl; [done|].
    destruct (array_index kv.1); [|done]. rewrite insert_indexed_perm. simpl. by rewrite IH. }
  rewrite H. clear H idx. induction kvs as [|kv kvs IH]; simpl; [done|].
  destruct (array_index kv.1); simpl; [by rewrite IH|].
  by rewrite <- Permutation_middle, IH.
Qed.

Lemma entries_elem {A} (kv : jsstr * A) kvs : kv ∈ entries kvs ↔ kv ∈ kvs.
Proof. by rewrite entries_perm. Qed.

(** ** [JSON.stringify] *)

(** The text of a value, without indentation; the properties of an object are
    written in the order of [Object.keys]. *)
Fixpoint JSON_stringify (j : json) : jsstr :=
  match j with
  | JNull => lit_null
  | JBool b => if b then lit_true else lit_false
  | JNum n => if isFinite n then Number_toString n else lit_null
  | JStr s => JSON_stringify_str s
  | JArr l => "[" ++ join "," (map JSON_stringify l) ++ "]"
  | JObj kvs =>
      "{" ++ join ","
               (map (λ '(k, t), JSON_stringify_str k ++ ":" ++ t)
                  (entries (map (λ '(k, v), (k, JSON_stringify v)) kvs))) ++ "}"
  end.

Example json_stringify_ex :
  JSON_stringify (JObj [("b", JArr [JNum (num_of_Z 1); JStr "x\q"]); ("2", JNull); ("a", JObj [])])
  = "{\q2\q:null,\qb\q:[1,\qx\\\q\q],\qa\q:{}}".
Proof. vm_compute. reflexivity. Qed.
