(* ===== verification/JsArray.v ===== *)
(** * Arrays and sets

    [Array.prototype.sort] with a comparison function, the default order of
    strings, and [Array.from(new Set(...))].  A [Set] of strings or numbers is the
    list of its elements in insertion order. *)
From Stdlib Require Import NArith ZArith Sorting.Sorted Sorting.Permutation.
From stdpp Require Import list numbers.
From S2P Require Import Prelude JsString.

(** ** Stable sorting

    The engine's sort is stable, so for a consistent comparison its result is the
    one list that is sorted, is a permutation of the argument and keeps the order
    of equal elements; insertion from the right computes it. *)
Section sort.
Context {A : Type} (le : A → A → bool).

Fixpoint sort_insert (x : A) (l : list A) : list A :=
  match l with
  | [] => [x]
  | y :: r => if le x y then x :: l else y :: sort_insert x r
  end.

Fixpoint js_sort (l : list A) : list A :=
  match l with [] => [] | x :: r => sort_insert x (js_sort r) end.

Lemma sort_insert_perm x l : Permutation (sort_insert x l) (x :: l).
Proof.
  induction l as [|y l IH]; simpl; [done|]. destruct (le x y); [done|].
  rewrite IH. apply perm_swap.
Qed.

Lemma js_sort_perm l : Permutation (js_sort l) l.
Proof. induction l as [|x l IH]; simpl; [done|]. by rewrite sort_insert_perm, IH. Qed.

Lemma js_sort_elem x l : x ∈ js_sort l ↔ x ∈ l.
Proof. by rewrite js_sort_perm. Qed.

Context (le_total : ∀ x y, le x y = true ∨ le y x = true).
Context (le_trans : ∀ x y z, le x y = true → le y z = true → le x z = true).

Lemma sort_insert_sorted x l :
  StronglySorted (λ a b, le a b = true) l →
  StronglySorted (λ a b, le a b = true) (sort_insert x l).
Proof.
  induction 1 as [|y l Hl IH Hy]; simpl; [by repeat constructor|].
  destruct (le x y) eqn:E.
  - repeat constructor; try done. eapply List.Forall_impl, Hy. intros; eauto.
  - constructor; [done|]. rewrite sort_insert_perm. constructor; [|done].
    destruct (le_total x y); congruence.
Qed.

Lemma js_sort_sorted l : StronglySorted (λ a b, le a b = true) (js_sort l).
Proof. induction l as [|x l IH]; simpl; [constructor|]. by apply sort_insert_sorted. Qed.

(** A sorted list is left as it is. *)
Lemma js_sort_id l : StronglySorted (λ a b, le a b = true) l → js_sort l = l.
Proof.
  induction 1 as [|x l Hl IH Hx]; simpl; [done|]. rewrite IH.
  destruct Hx as [|y l Hxy Hx]; simpl; [done|]. by rewrite Hxy.
Qed.
End sort.

(** ** Sets as lists *)
Section dedup.
Context {A : Type} (eqb : A → A → bool).

Definition mem (x : A) (l : list A) : bool := existsb (eqb x) l.

(** [Array.from(new Set(l))]: the first occurrence of every element; [seen] are
    the elements already in the set. *)
Fixpoint dedup_from (seen l : list A) : list A :=
  match l with
  | [] => []
  | x :: r => if mem x seen then dedup_from seen r else x :: dedup_from (x :: seen) r
  end.

Definition dedup (l : list A) : list A := dedup_from [] l.

Context (eqb_spec : ∀ x y, eqb x y = true ↔ x = y).

Lemma mem_true x l : mem x l = true ↔ x ∈ l.
Proof.
  unfold mem. rewrite existsb_exists, list_elem_of_In. split.
  - intros (y & Hy & ->%eqb_spec). done.
  - intros H. exists x. split; [done|]. by apply eqb_spec.
Qed.

Lemma mem_false x l : mem x l = false ↔ x ∉ l.
Proof. rewrite <- mem_true. by destruct (mem x l). Qed.

Lemma dedup_from_elem seen l x : x ∈ dedup_from seen l ↔ x ∈ l ∧ x ∉ seen.
Proof.
  revert seen; induction l as [|y l IH]; intros seen; simpl.
  - split; [intros H; inversion H|intros [H _]; inversion H].
  - destruct (mem y seen) eqn:E.
    + apply mem_true in E. rewrite IH, elem_of_cons. split; [tauto|].
      intros [[->|?] ?]; [done|auto].
    + apply mem_false in E. rewrite !elem_of_cons, IH, not_elem_of_cons.
      split; [intros [->|(? & ? & ?)]; auto|]. intros [[->|Hl] Hs]; [auto|].
      destruct (eqb x y) eqn:Exy; [left; by apply eqb_spec|].
      right. split_and!; [done| |done]. intros ->.
      by rewrite (proj2 (eqb_spec y y)) in Exy.
Qed.

Lemma dedup_elem l x : x ∈ dedup l ↔ x ∈ l.
Proof.
  unfold dedup. rewrite dedup_from_elem. split; [tauto|].
  intros H. split; [done|]. intros H'. inversion H'.
Qed.

Lemma dedup_from_nodup seen l : NoDup (dedup_from seen l).
Proof.
  revert seen; induction l as [|y l IH]; intros seen; simpl; [constructor|].
  destruct (mem y seen); [done|]. constructor; [|done].
  rewrite dedup_from_elem, not_elem_of_cons. tauto.
Qed.

Lemma dedup_nodup l : NoDup (dedup l).
Proof. apply dedup_from_nodup. Qed.

Lemma dedup_from_id seen l :
  NoDup l → (∀ x, x ∈ l → x ∉ seen) → dedup_from seen l = l.
Proof.
  intros H. revert seen. induction H as [|x l Hx Hl IH]; intros seen Hs; simpl; [done|].
  rewrite (proj2 (mem_false x seen)) by (apply Hs; left). f_equal. apply IH.
  intros y Hy. rewrite not_elem_of_cons. split; [by intros ->|]. apply Hs. by right.
Qed.

Lemma dedup_id l : NoDup l → dedup l = l.
Proof. intros H. apply dedup_from_id; [done|]. intros x _ Hx. inversion Hx. Qed.
End dedup.

(** ** The default order of strings: code unit by code unit *)

Fixpoint str_leb (s t : jsstr) : bool :=
  match s, t with
  | [], _ => true
  | _ :: _, [] => false
  | x :: s', y :: t' => if (x =? y)%N then str_leb s' t' else (x <? y)%N
  end.

Lemma str_leb_total s t : str_leb s t = true ∨ str_leb t s = true.
Proof.
  revert t; induction s as [|x s IH]; intros [|y t]; simpl; auto.
  rewrite (N.eqb_sym y x). destruct (N.eqb_spec x y); [auto|].
  rewrite !N.ltb_lt. lia.
Qed.

Lemma str_leb_trans s t u : str_leb s t = true → str_leb t u = true → str_leb s u = true.
Proof.
  revert t u; induction s as [|x s IH]; intros [|y t] [|z u]; simpl; auto; [done|].
  destruct (N.eqb_spec x y) as [->|]; destruct (N.eqb_spec y z) as [->|].
  - eauto.
  - done.
  - by destruct (N.eqb_spec x z).
  - rewrite !N.ltb_lt. destruct (N.eqb_spec x z); [subst|rewrite N.ltb_lt]; lia.
Qed.

Lemma str_leb_antisym s t : str_leb s t = true → str_leb t s = true → s = t.
Proof.
  revert t; induction s as [|x s IH]; intros [|y t]; simpl; try done.
  rewrite (N.eqb_sym y x). destruct (N.eqb_spec x y) as [->|].
  - intros; f_equal; auto.
  - rewrite !N.ltb_lt. lia.
Qed.

(** [new Set(xs)] and [.sort()] on strings. *)
Definition str_mem : jsstr → list jsstr → bool := mem str_eqb.
Definition str_dedup : list jsstr → list jsstr := dedup str_eqb.
Definition str_sort : list jsstr → list jsstr := js_sort str_leb.

Lemma str_mem_true x l : str_mem x l = true ↔ x ∈ l.
Proof. apply mem_true, str_eqb_eq. Qed.

Lemma str_mem_false x l : str_mem x l = false ↔ x ∉ l.
Proof. apply mem_false, str_eqb_eq. Qed.

Lemma str_mem_ext x l k : (x ∈ l ↔ x ∈ k) → str_mem x l = str_mem x k.
Proof. intros H. apply eq_true_iff_eq. by rewrite !str_mem_true. Qed.

Lemma str_dedup_elem l x : x ∈ str_dedup l ↔ x ∈ l.
Proof. apply dedup_elem, str_eqb_eq. Qed.

Lemma str_dedup_nodup l : NoDup (str_dedup l).
Proof. apply dedup_nodup, str_eqb_eq. Qed.

Lemma str_dedup_id l : NoDup l → str_dedup l = l.
Proof. apply dedup_id, str_eqb_eq. Qed.

Lemma str_sort_elem l x : x ∈ str_sort l ↔ x ∈ l.
Proof. apply js_sort_elem. Qed.

Lemma str_sort_sorted l : StronglySorted (λ a b, str_leb a b = true) (str_sort l).
Proof. apply js_sort_sorted; [apply str_leb_total|apply str_leb_trans]. Qed.

Lemma str_sort_nodup l : NoDup l → NoDup (str_sort l).
Proof. intros H. unfold str_sort. by rewrite js_sort_perm. Qed.

(** [xs.filter(p)] on lists, as membership. *)
Lemma elem_of_filterb {A} (p : A → bool) (l : list A) x :
  x ∈ List.filter p l ↔ x ∈ l ∧ p x = true.
Proof. by rewrite !list_elem_of_In, filter_In. Qed.

Lemma elem_of_mapb {A B} (f : A → B) (l : list A) y :
  y ∈ map f l ↔ ∃ x, y = f x ∧ x ∈ l.
Proof.
  rewrite list_elem_of_In, in_map_iff. split; intros (x & H1 & H2); exists x;
    by rewrite list_elem_of_In in *.
Qed.

Lemma NoDup_filterb {A} (p : A → bool) (l : list A) : NoDup l → NoDup (List.filter p l).
Proof.
  induction 1 as [|x l Hx Hl IH]; simpl; [constructor|]. destruct (p x); [|done].
  constructor; [|done]. rewrite elem_of_filterb. tauto.
Qed.

Lemma filterb_sublist {A} (p : A → bool) (l : list A) : sublist (List.filter p l) l.
Proof. induction l as [|x l IH]; simpl; [constructor|]. destruct (p x); by constructor. Qed.

Lemma map_sublist {A B} (f : A → B) (l k : list A) : sublist l k → sublist (map f l) (map f k).
Proof. by induction 1; simpl; constructor. Qed.

Create Rewrite HintDb js_set.
#[export] Hint Rewrite @elem_of_filterb @elem_of_mapb str_dedup_elem str_sort_elem
  str_mem_true str_mem_false : js_set.
