(* ===== verification/JsonRoundtrip.v ===== *)
(** * [JSON.parse] undoes [JSON.stringify]

    For values whose numbers print and read back, whose strings are made of 16-bit
    units and whose objects have distinct keys that are not array indices. *)
From Stdlib Require Import NArith ZArith.
From Stdlib Require Import Floats.SpecFloat.
From stdpp Require Import list numbers.
From S2P Require Import Prelude JsString JsNumber Json JsArray.

(** ** Induction over nested values *)
Section json_induction.
Context (P : json → Prop).
Context (Hnull : P JNull) (Hbool : ∀ b, P (JBool b)) (Hnum : ∀ n, P (JNum n))
  (Hstr : ∀ s, P (JStr s)) (Harr : ∀ l, (∀ x, In x l → P x) → P (JArr l))
  (Hobj : ∀ kvs, (∀ k v, In (k, v) kvs → P v) → P (JObj kvs)).

Fixpoint json_nested_ind (j : json) : P j.
Proof.
  destruct j as [|b|n|s|l|kvs]; [exact Hnull|apply Hbool|apply Hnum|apply Hstr| |].
  - apply Harr. induction l as [|x l IH]; [intros ? []|].
    intros y [<-|Hy]; [apply json_nested_ind|by apply IH].
  - apply Hobj. induction kvs as [|[k v] kvs IH]; [intros ? ? []|].
    intros k' v' [E|Hy]; [injection E as _ <-; apply json_nested_ind|by apply (IH k')].
Defined.
End json_induction.

(** ** Well-formed values *)

Definition sf_same (x y : number) : bool :=
  match x, y with
  | S754_nan, S754_nan => true
  | S754_zero a, S754_zero b => Bool.eqb a b
  | S754_infinity a, S754_infinity b => Bool.eqb a b
  | S754_finite a m e, S754_finite b m' e' => Bool.eqb a b && Pos.eqb m m' && Z.eqb e e'
  | _, _ => false
  end.

Lemma sf_same_eq x y : sf_same x y = true → x = y.
Proof.
  destruct x, y; cbn; try done; intros ?; bool_prop;
    repeat match goal with
    | H : Bool.eqb _ _ = true |- _ => apply eqb_prop in H
    | H : Pos.eqb _ _ = true |- _ => apply Pos.eqb_eq in H
    | H : Z.eqb _ _ = true |- _ => apply Z.eqb_eq in H
    end; by subst.
Qed.

(** The number's text is a JSON number that reads back as the number. *)
Definition num_ok (n : number) : bool :=
  isFinite n
  && match parse_json_number (Number_toString n) with
     | Some (m, []) => sf_same m n
     | _ => false
     end.

Definition no_index (k : jsstr) : bool :=
  match array_index k with Some _ => false | None => true end.

Fixpoint nodup_keys (ks : list jsstr) : bool :=
  match ks with [] => true | k :: r => negb (str_mem k r) && nodup_keys r end.

Fixpoint wf_json (j : json) : bool :=
  match j with
  | JNull | JBool _ => true
  | JNum n => num_ok n
  | JStr s => units_ok s
  | JArr l => forallb wf_json l
  | JObj kvs =>
      forallb (λ '(k, v), units_ok k && no_index k && wf_json v) kvs
      && nodup_keys (map fst kvs)
  end.

(** ** Numbers before a delimiter *)

Definition delim (t : jsstr) : bool :=
  match t with [] => true | c :: _ => ((c =? 44) || (c =? 93) || (c =? 125) || (c =? 10))%N end.

Lemma delim_cases t :
  delim t = true → t = [] ∨ ∃ c u, t = c :: u ∧ (c = 44 ∨ c = 93 ∨ c = 125 ∨ c = 10)%N.
Proof.
  destruct t as [|c u]; [by left|]. cbn. rewrite !orb_true_iff, !N.eqb_eq. right.
  exists c, u. tauto.
Qed.

Lemma span_digits_app s t d u :
  span_digits s = (d, u) → delim t = true → span_digits (s ++ t) = (d, u ++ t).
Proof.
  revert d u; induction s as [|c s IH]; intros d u; cbn [span_digits app].
  - intros [= <- <-] Ht. destruct (delim_cases _ Ht) as [->|(c & v & -> & Hc)]; [done|].
    cbn [span_digits app]. by destruct Hc as [->|[->|[->| ->]]].
  - destruct (is_digit c) eqn:E.
    + destruct (span_digits s) as [d' u'] eqn:Es. intros [= <- <-] Ht. by rewrite (IH d' u').
    + by intros [= <- <-] _.
Qed.

Lemma exp_digits_app neg w t e :
  exp_digits neg w = Some (e, []) → delim t = true → exp_digits neg (w ++ t) = Some (e, t).
Proof.
  unfold exp_digits. destruct (span_digits w) as [ds x] eqn:E. intros H Ht.
  rewrite (span_digits_app _ _ _ _ E Ht). destruct ds; [done|]. cbv zeta in *.
  injection H as <- ->. done.
Qed.

Lemma parse_exponent_app v t e :
  parse_exponent v = Some (e, []) → delim t = true → parse_exponent (v ++ t) = Some (e, t).
Proof.
  intros H Ht. destruct v as [|c v].
  - cbn in H. injection H as <-. cbn [app]. destruct (delim_cases _ Ht) as [->|(c & u & -> & Hc)]; [done|].
    by destruct Hc as [->|[->|[->| ->]]].
  - cbn [parse_exponent app] in *. destruct ((c =? 101)%N || (c =? 69)%N); [|done].
    destruct v as [|d v]; [done|]. cbn [app].
    destruct (d =? 45)%N; [by apply exp_digits_app|].
    destruct (d =? 43)%N; [by apply exp_digits_app|]. by apply (exp_digits_app false (d :: v)).
Qed.

Lemma json_fraction_app u t fp v :
  json_fraction u = Some (fp, v) → delim t = true → json_fraction (u ++ t) = Some (fp, v ++ t).
Proof.
  intros H Ht. destruct u as [|c u]; cbn [json_fraction app] in *.
  - injection H as <- <-. destruct (delim_cases _ Ht) as [->|(c & u & -> & Hc)]; [done|].
    by destruct Hc as [->|[->|[->| ->]]].
  - destruct (c =? 46)%N; [|by injection H as <- <-].
    destruct (span_digits u) as [fp' v'] eqn:E. rewrite (span_digits_app _ _ _ _ E Ht).
    destruct (nonempty fp'); [|done]. by injection H as <- <-.
Qed.

Lemma parse_json_unsigned_app neg s t n :
  parse_json_unsigned neg s = Some (n, []) → delim t = true →
  parse_json_unsigned neg (s ++ t) = Some (n, t).
Proof.
  unfold parse_json_unsigned. destruct (span_digits s) as [ip u] eqn:Es. intros H Ht.
  rewrite (span_digits_app _ _ _ _ Es Ht). destruct (json_int_ok ip); [|done].
  destruct (json_fraction u) as [[fp v]|] eqn:Ef; [|done].
  rewrite (json_fraction_app _ _ _ _ Ef Ht).
  destruct (parse_exponent v) as [[e w]|] eqn:Ee; [|done]. injection H as <- ->.
  by rewrite (parse_exponent_app v t e).
Qed.

Lemma parse_json_number_app s t n :
  parse_json_number s = Some (n, []) → delim t = true → parse_json_number (s ++ t) = Some (n, t).
Proof.
  intros H Ht. destruct s as [|c s]; [done|]. cbn [parse_json_number app] in *.
  destruct (c =? 45)%N; [by apply parse_json_unsigned_app|].
  by apply (parse_json_unsigned_app false (c :: s)).
Qed.

(** A JSON number starts with a minus sign or a digit. *)
Lemma json_number_head s n r :
  parse_json_number s = Some (n, r) → ∃ c u, s = c :: u ∧ (c = 45 ∨ is_digit c = true)%N.
Proof.
  destruct s as [|c u]; [done|]. cbn [parse_json_number]. intros H. exists c, u. split; [done|].
  destruct (N.eqb_spec c 45); [by left|right].
  unfold parse_json_unsigned in H. cbn [span_digits] in H. by destruct (is_digit c).
Qed.

(** ** Heads of texts *)

(** The first unit of a value: neither white space nor a closing bracket. *)
Definition value_head (s : jsstr) : bool :=
  match s with c :: _ => negb (json_ws c) && negb (c =? 93)%N && negb (c =? 125)%N | [] => false end.

Lemma number_head c :
  (c = 45%N ∨ is_digit c = true) →
  json_ws c = false ∧ (c =? 93)%N = false ∧ (c =? 125)%N = false ∧ (c =? 34)%N = false
  ∧ (c =? 91)%N = false ∧ (c =? 123)%N = false
  ∧ (116 =? c)%N = false ∧ (102 =? c)%N = false ∧ (110 =? c)%N = false.
Proof.
  intros H. assert (Hr : (45 ≤ c ≤ 57)%N) by (destruct H as [->|H%is_digit_range]; lia).
  unfold json_ws. split_and!; unit_decide.
Qed.

Lemma num_ok_spec n :
  num_ok n = true → isFinite n = true ∧ parse_json_number (Number_toString n) = Some (n, []).
Proof.
  unfold num_ok. intros ?; bool_prop. split; [done|].
  destruct (parse_json_number _) as [[m [|]]|]; try done. by apply sf_same_eq in H0 as ->.
Qed.

Lemma stringify_head j t : wf_json j = true → value_head (JSON_stringify j ++ t) = true.
Proof.
  destruct j as [|b|n|s|l|kvs]; cbn [wf_json JSON_stringify]; try done.
  - by destruct b.
  - intros [-> (c & u & -> & Hc)%json_number_head]%num_ok_spec. cbn [app value_head].
    destruct (number_head c Hc) as (-> & -> & -> & _). done.
Qed.

Lemma stringify_length j : wf_json j = true → 0 < length (JSON_stringify j).
Proof.
  intros H%(stringify_head j []). rewrite app_nil_r in H. destruct (JSON_stringify j); [done|]. cbn; lia.
Qed.

Lemma skip_ws_head s : value_head s = true → skip_ws s = s.
Proof. destruct s as [|c s]; [done|]. cbn [value_head skip_ws]. intros ?; bool_prop. by rewrite H. Qed.

(** ** Lists of texts *)

Lemma nodup_keys_spec ks : nodup_keys ks = true ↔ NoDup ks.
Proof.
  induction ks as [|k ks IH]; cbn [nodup_keys]; [by split; [constructor|]|].
  rewrite andb_true_iff, negb_true_iff, str_mem_false, IH.
  by rewrite list.NoDup_cons.
Qed.

Lemma obj_set_new k v kvs : k ∉ map fst kvs → obj_set k v kvs = kvs ++ [(k, v)].
Proof.
  induction kvs as [|[k' v'] kvs IH]; cbn [map obj_set fst]; [done|].
  rewrite not_elem_of_cons. intros [Hne Hn]. rewrite (proj2 (str_eqb_neq k k') Hne).
  by rewrite IH.
Qed.

Lemma entries_id {A} (kvs : list (jsstr * A)) :
  forallb no_index (map fst kvs) = true → entries kvs = kvs.
Proof.
  intros H. unfold entries.
  assert (E : fold_right (λ kv acc, match array_index kv.1 with
                                    | Some n => insert_indexed n kv acc
                                    | None => acc end) [] kvs = []).
  { induction kvs as [|[k v] kvs IH]; [done|]. cbn [map forallb fold_right fst] in *. bool_prop.
    unfold no_index in H. destruct (array_index k); [done|]. by apply IH. }
  rewrite E. cbn [map app]. apply filterb_all. clear E.
  induction kvs as [|[k v] kvs IH]; [done|]. cbn [map forallb fst] in *. bool_prop; [|by apply IH].
  unfold no_index in H. by destruct (array_index k).
Qed.

Definition member_text (kv : jsstr * json) : jsstr :=
  JSON_stringify_str kv.1 ++ ":" ++ JSON_stringify kv.2.

Lemma member_text_length k v : length (JSON_stringify v) < length (member_text (k, v)).
Proof. unfold member_text. cbn [fst snd]. rewrite !length_app. cbn [length]. lia. Qed.

Lemma stringify_obj kvs :
  forallb no_index (map fst kvs) = true →
  JSON_stringify (JObj kvs) = "{" ++ join "," (map member_text kvs) ++ "}".
Proof.
  intros H. cbn [JSON_stringify]. rewrite entries_id.
  - rewrite map_map. do 3 f_equal. apply map_ext. by intros [k v].
  - rewrite map_map. erewrite map_ext; [exact H|]. by intros [k v].
Qed.

(** ** The round trip *)

Definition reads_back (j : json) : Prop :=
  ∀ t fuel, delim t = true → 2 * length (JSON_stringify j) ≤ fuel →
  parse_value fuel (JSON_stringify j ++ t) = Some (j, t).

Lemma parse_elems_text l t fuel :
  l ≠ [] → forallb wf_json l = true → (∀ x, In x l → reads_back x) →
  2 * length (join "," (map JSON_stringify l)) + 1 ≤ fuel →
  parse_elems fuel (join "," (map JSON_stringify l) ++ 93%N :: t) = Some (l, t).
Proof.
  revert fuel. induction l as [|x l IH]; intros fuel Hne Hw Hr Hf; [done|].
  destruct fuel as [|fuel]; [lia|]. cbn [parse_elems].
  cbn [forallb] in Hw. bool_prop. destruct l as [|y l].
  - cbn [map join] in *. rewrite (Hr x) by (by left || done || lia). done.
  - cbn [map] in *. rewrite join_cons in Hf |- * by done.
    rewrite <- !app_assoc, (Hr x) by (by left || done || (rewrite !length_app in Hf; lia)).
    cbn [app skip_ws json_ws N.eqb Pos.eqb orb].
    change (JSON_stringify y :: map JSON_stringify l) with (map JSON_stringify (y :: l)) in *.
    rewrite IH; [done|done|done| |].
    + intros z Hz. apply Hr. by right.
    + rewrite !length_app in Hf. cbn [length] in Hf. lia.
Qed.

Lemma parse_members_text kvs t fuel acc :
  kvs ≠ [] →
  forallb (λ '(k, v), units_ok k && no_index k && wf_json v) kvs = true →
  (∀ k v, In (k, v) kvs → reads_back v) →
  NoDup (map fst (acc ++ kvs)) →
  2 * length (join "," (map member_text kvs)) + 1 ≤ fuel →
  parse_members fuel (join "," (map member_text kvs) ++ 125%N :: t) acc = Some (JObj (acc ++ kvs), t).
Proof.
  revert fuel acc. induction kvs as [|[k v] kvs IH]; intros fuel acc Hne Hw Hr Hd Hf; [done|].
  destruct fuel as [|fuel]; [lia|]. cbn [parse_members].
  cbn [forallb] in Hw. apply andb_true_iff in Hw as [Hw Hws]. bool_prop.
  assert (Hk : k ∉ map fst acc).
  { rewrite map_app in Hd. apply list.NoDup_app in Hd as (_ & Hd & _). intros Hin.
    apply (Hd k Hin). left. }
  assert (E : ∀ u, join "," (map member_text ((k, v) :: kvs)) ++ 125%N :: t = member_text (k, v) ++ u →
      length (member_text (k, v)) ≤ length (join "," (map member_text ((k, v) :: kvs))) →
      delim u = true →
      skip_ws (join "," (map member_text ((k, v) :: kvs)) ++ 125%N :: t)
      = 34%N :: quote_body k ++ 34%N :: 58%N :: JSON_stringify v ++ u
      ∧ parse_value fuel (JSON_stringify v ++ u) = Some (v, u)).
  { intros u Eu Hl Hu. split.
    - rewrite Eu. unfold member_text, JSON_stringify_str. cbn [fst snd app skip_ws json_ws N.eqb Pos.eqb orb].
      by rewrite <- !app_assoc.
    - apply (Hr k v); [by left|done|]. pose proof (member_text_length k v). lia. }
  destruct kvs as [|kv kvs].
  - destruct (E (125%N :: t)) as [-> Ev]; [done|done|done|].
    cbn [N.eqb Pos.eqb]. rewrite parse_quote_body by done. cbn [skip_ws json_ws N.eqb Pos.eqb orb].
    rewrite Ev. cbn [skip_ws json_ws N.eqb Pos.eqb orb]. by rewrite obj_set_new.
  - destruct (E (44%N :: join "," (map member_text (kv :: kvs)) ++ 125%N :: t)) as [-> Ev].
    { cbn [map]. rewrite join_cons by done. by rewrite <- !app_assoc. }
    { cbn [map]. rewrite join_cons by done. rewrite !length_app. lia. }
    { done. }
    cbn [N.eqb Pos.eqb]. rewrite parse_quote_body by done. cbn [skip_ws json_ws N.eqb Pos.eqb orb].
    rewrite Ev. cbn [skip_ws json_ws N.eqb Pos.eqb orb]. rewrite obj_set_new by done.
    rewrite IH; [by rewrite <- app_assoc|done|done| | |].
    + intros k' v' Hin. apply (Hr k'). by right.
    + by rewrite <- app_assoc.
    + cbn [map] in Hf. rewrite join_cons in Hf by done. rewrite !length_app in Hf. cbn [length map] in Hf |- *. lia.
Qed.

Lemma value_head_open s : value_head s = true → skip_ws s = s ∧ ∃ c u, s = c :: u ∧ (c =? 93)%N = false ∧ (c =? 125)%N = false.
Proof.
  intros H. split; [by apply skip_ws_head|]. destruct s as [|c u]; [done|]. cbn [value_head] in H.
  bool_prop. by exists c, u.
Qed.

Lemma reads_back_all j : wf_json j = true → reads_back j.
Proof.
  induction j as [|b|n|s|l IH|kvs IH] using json_nested_ind; intros Hw t fuel Ht Hf;
    pose proof (stringify_length _ Hw) as Hl; (destruct fuel as [|fuel]; [lia|]).
  - done.
  - by destruct b.
  - apply num_ok_spec in Hw as [Hn Hp]. cbn [JSON_stringify] in *. rewrite Hn in *.
    pose proof (parse_json_number_app _ t _ Hp Ht) as Hp'.
    apply json_number_head in Hp as (c & u & E & Hc). rewrite E in *. cbn [app] in *.
    destruct (number_head c Hc) as (H1 & H2 & H3 & H4 & H5 & H6 & H7 & H8 & H9).
    cbn [parse_value skip_ws]. rewrite H1, H4, H5, H6. unfold lit_true, lit_false, lit_null.
    cbn [startsWith]. rewrite H7, H8, H9. cbn [andb]. by rewrite Hp'.
  - cbn [JSON_stringify parse_value wf_json] in *. unfold JSON_stringify_str. cbn [app].
    rewrite <- app_assoc. cbn [app skip_ws json_ws N.eqb Pos.eqb orb]. by rewrite parse_quote_body.
  - cbn [JSON_stringify wf_json] in *. cbn [app parse_value skip_ws json_ws N.eqb Pos.eqb orb].
    rewrite <- app_assoc. destruct l as [|x l]; [done|].
    destruct (value_head_open (join "," (map JSON_stringify (x :: l)) ++ "]" ++ t)) as [-> (c & u & E & H1 & _)].
    { cbn [forallb] in Hw. bool_prop. destruct l as [|y l].
      - cbn [map join]. by apply stringify_head.
      - cbn [map]. rewrite join_cons by done. rewrite <- app_assoc. by apply stringify_head. }
    rewrite E, H1, <- E. change ("]" ++ t) with (93%N :: t).
    rewrite parse_elems_text; [done|done|done| |].
    + intros y Hy. apply IH; [done|]. rewrite forallb_forall in Hw. auto.
    + rewrite !length_app in Hf. cbn [length] in Hf. lia.
  - cbn [wf_json] in Hw. bool_prop.
    assert (Hi : forallb no_index (map fst kvs) = true).
    { rewrite forallb_forall in H |- *. intros k ([k' v] & <- & Hin)%in_map_iff.
      specialize (H _ Hin). cbn in H. by bool_prop. }
    rewrite stringify_obj in * by done.
    cbn [app parse_value skip_ws json_ws N.eqb Pos.eqb orb].
    rewrite <- app_assoc. destruct kvs as [|[k v] kvs]; [done|].
    destruct (value_head_open (join "," (map member_text ((k, v) :: kvs)) ++ "}" ++ t)) as [-> (c & u & E & _ & H1)].
    { cbn [map]. by destruct (map member_text kvs). }
    rewrite E, H1, <- E. change ("}" ++ t) with (125%N :: t).
    rewrite parse_members_text; [done|done|done| | |].
    + intros k' v' Hin. apply (IH k' v'); [done|]. rewrite forallb_forall in H.
      specialize (H _ Hin). cbn in H. by bool_prop.
    + cbn [app]. by apply nodup_keys_spec.
    + rewrite !length_app in Hf. cbn [length] in Hf. lia.
Qed.

(** [JSON.parse(JSON.stringify(j))] is [j]. *)
Lemma JSON_parse_stringify j : wf_json j = true → JSON_parse (JSON_stringify j) = Some j.
Proof.
  intros Hw. unfold JSON_parse, json_fuel. rewrite <- (app_nil_r (JSON_stringify j)) at 2.
  rewrite (reads_back_all j Hw) by (done || lia). done.
Qed.

(** ** Objects with distinct keys *)

Lemma obj_get_set k k' v kvs :
  obj_get k (obj_set k' v kvs) = if str_eqb k k' then Some v else obj_get k kvs.
Proof.
  induction kvs as [|[k0 v0] kvs IH]; cbn [obj_set obj_get].
  - by destruct (str_eqb k k').
  - destruct (str_eqb_spec k' k0) as [->|Hn]; cbn [obj_get].
    + by destruct (str_eqb k k0).
    + rewrite IH. destruct (str_eqb_spec k k0) as [->|?]; [|done].
      by rewrite (proj2 (str_eqb_neq k0 k')) by congruence.
Qed.

Lemma obj_set_keys k v kvs :
  map fst (obj_set k v kvs) = map fst kvs ++ (if str_mem k (map fst kvs) then [] else [k]).
Proof.
  induction kvs as [|[k0 v0] kvs IH]; cbn [obj_set map fst str_mem mem existsb]; [done|].
  unfold str_mem, mem. cbn [existsb]. destruct (str_eqb k k0); cbn [orb map fst].
  - by rewrite app_nil_r.
  - unfold str_mem, mem in IH. by rewrite IH.
Qed.

Definition wf_fields (kvs : list (jsstr * json)) : bool := wf_json (JObj kvs).

Lemma wf_fields_spec kvs :
  wf_fields kvs = true ↔
  forallb (λ '(k, v), units_ok k && no_index k && wf_json v) kvs = true ∧ NoDup (map fst kvs).
Proof. unfold wf_fields. cbn [wf_json]. by rewrite andb_true_iff, nodup_keys_spec. Qed.

Lemma wf_fields_set k v kvs :
  units_ok k = true → no_index k = true → wf_json v = true → wf_fields kvs = true →
  wf_fields (obj_set k v kvs) = true.
Proof.
  intros Hu Hi Hv [Hf Hd]%wf_fields_spec. apply wf_fields_spec. split.
  - clear Hd. induction kvs as [|[k0 v0] kvs IH]; cbn [obj_set forallb] in *.
    + by rewrite Hu, Hi, Hv.
    + bool_prop. destruct (str_eqb k k0); cbn [forallb]; use_bools; [done|]. cbn [andb]. by apply IH.
  - rewrite obj_set_keys. destruct (str_mem k (map fst kvs)) eqn:E; [by rewrite app_nil_r|].
    apply str_mem_false in E. apply list.NoDup_app. split_and!; [done| |by repeat constructor; inversion 1].
    intros x Hx [->|H]%elem_of_cons; [done|inversion H].
Qed.

Lemma obj_get_keys k kvs : is_Some (obj_get k kvs) ↔ k ∈ map fst kvs.
Proof.
  induction kvs as [|[k0 v0] kvs IH]; cbn [obj_get map fst].
  - split; [by intros [? ?]|intros H; inversion H].
  - rewrite elem_of_cons, <- IH. destruct (str_eqb_spec k k0) as [->|Hn]; split; eauto. tauto.
Qed.

Lemma wf_no_index kvs : wf_fields kvs = true → forallb no_index (map fst kvs) = true.
Proof.
  intros [H _]%wf_fields_spec. induction kvs as [|[k v] kvs IH]; [done|].
  cbn [forallb map fst] in *. bool_prop; [done|]. by apply IH.
Qed.

Lemma obj_get_delete k k' kvs :
  obj_get k (obj_delete k' kvs) = if str_eqb k k' then None else obj_get k kvs.
Proof.
  induction kvs as [|[k0 v0] kvs IH]; cbn [obj_delete obj_get]; [by destruct (str_eqb k k')|].
  destruct (str_eqb_spec k' k0) as [->|Hn].
  - rewrite IH. destruct (str_eqb k k0); done.
  - cbn [obj_get]. rewrite IH. destruct (str_eqb_spec k k0) as [->|?]; [|done].
    by rewrite (proj2 (str_eqb_neq k0 k')) by congruence.
Qed.

Lemma wf_fields_delete k kvs : wf_fields kvs = true → wf_fields (obj_delete k kvs) = true.
Proof.
  rewrite !wf_fields_spec. induction kvs as [|[k' v] kvs IH]; [done|].
  cbn [obj_delete forallb map fst]. rewrite andb_true_iff, list.NoDup_cons. intros [[Hv Hf] [Hk Hd]].
  destruct (str_eqb k k'); [by apply IH|]. destruct (IH (conj Hf Hd)) as [Hf' Hd'].
  cbn [forallb map fst]. rewrite andb_true_iff, list.NoDup_cons. split_and!; try assumption.
  rewrite <- obj_get_keys, obj_get_delete in *. destruct (str_eqb k' k); [by intros [? ?]|done].
Qed.

(** ** The fuel of the parser

    A value takes at least one unit of text, so [json_fuel] is enough: any larger
    fuel gives the same result, and [None] is a syntax error. *)

Lemma skip_ws_length s : length (skip_ws s) ≤ length s.
Proof. induction s as [|c s IH]; cbn [skip_ws]; [done|]. destruct (json_ws c); cbn [length]; lia. Qed.

Lemma skip_ws_cons s c t : skip_ws s = c :: t → length t < length s.
Proof. intros H. pose proof (skip_ws_length s). rewrite H in *. cbn [length] in *. lia. Qed.

Lemma parse_str_body_length n s w u :
  length s ≤ n → parse_str_body s = Some (w, u) → length u < length s.
Proof.
  revert s w u. induction n as [|n IH]; intros [|c t] w u Hn; try done; cbn [length] in Hn; [lia|].
  cbn [parse_str_body]. intros H. repeat case_match; simplify_eq; cbn [length] in *; try lia;
    match goal with H : parse_str_body _ = _ |- _ => apply IH in H; cbn [length] in *; lia end.
Qed.

Lemma span_digits_length s d u : span_digits s = (d, u) → length s = length d + length u.
Proof.
  revert d u; induction s as [|c s IH]; intros d u; cbn [span_digits]; [by intros [= <- <-]|].
  destruct (is_digit c); [|intros [= <- <-]; done].
  destruct (span_digits s) as [d' u'] eqn:E. intros [= <- <-]. cbn [length]. by rewrite (IH _ _ eq_refl).
Qed.

Lemma exp_digits_length neg s z v : exp_digits neg s = Some (z, v) → length v ≤ length s.
Proof.
  unfold exp_digits. destruct (span_digits s) as [ds u] eqn:E. apply span_digits_length in E.
  destruct ds; [done|]. intros [= _ <-]. lia.
Qed.

Lemma parse_exponent_length s z v : parse_exponent s = Some (z, v) → length v ≤ length s.
Proof.
  unfold parse_exponent. intros H. repeat case_match; simplify_eq; cbn [length]; try lia;
    apply exp_digits_length in H; cbn [length] in *; lia.
Qed.

Lemma json_fraction_length u fp v : json_fraction u = Some (fp, v) → length v ≤ length u.
Proof.
  unfold json_fraction. destruct u as [|c u]; [by intros [= _ <-]|].
  destruct (c =? 46)%N; [|by intros [= _ <-]]. destruct (span_digits u) as [d w] eqn:E.
  apply span_digits_length in E. destruct (nonempty d); [|done]. intros [= _ <-]. cbn [length]. lia.
Qed.

Lemma parse_json_number_length s n v : parse_json_number s = Some (n, v) → length v < length s.
Proof.
  assert (H : ∀ neg t n v, parse_json_unsigned neg t = Some (n, v) → length v < length t).
  { unfold parse_json_unsigned. intros neg t m w. destruct (span_digits t) as [ip u] eqn:E.
    apply span_digits_length in E. destruct ip as [|d ip]; [done|]. destruct (json_int_ok _); [|done].
    destruct (json_fraction u) as [[fp x]|] eqn:Ef; [|done]. apply json_fraction_length in Ef.
    destruct (parse_exponent x) as [[e y]|] eqn:Ex; [|done]. apply parse_exponent_length in Ex.
    intros [= _ <-]. cbn [length] in *. lia. }
  destruct s as [|c s]; [done|]. cbn [parse_json_number].
  destruct (c =? 45)%N; [intros E%H; cbn [length]; lia|apply H].
Qed.

(** What a parse leaves is shorter than the text. *)
Lemma parse_consumes fuel :
  (∀ s j t, parse_value fuel s = Some (j, t) → length t < length s)
  ∧ (∀ s l t, parse_elems fuel s = Some (l, t) → length t < length s)
  ∧ (∀ s acc j t, parse_members fuel s acc = Some (j, t) → length t < length s).
Proof.
  induction fuel as [|fuel (IHv & IHe & IHm)]; [done|]. split_and!; intros s.
  - intros j t. cbn [parse_value]. destruct (skip_ws s) as [|c u] eqn:Es; [done|].
    apply skip_ws_cons in Es. intros H.
    repeat case_match; simplify_eq; cbn [length] in *;
      repeat match goal with
      | H : skip_ws _ = _ :: _ |- _ => apply skip_ws_cons in H
      | H : parse_str_body _ = _ |- _ => apply (parse_str_body_length _ _ _ _ (le_n _)) in H
      | H : parse_elems _ _ = _ |- _ => apply IHe in H
      | H : parse_members _ _ _ = _ |- _ => apply IHm in H
      | H : parse_json_number _ = _ |- _ => apply parse_json_number_length in H; cbn [length] in H
      end; try rewrite length_drop; cbn [length]; lia.
  - intros l t. cbn [parse_elems]. intros H. repeat case_match; simplify_eq;
      repeat match goal with
      | H : skip_ws _ = _ :: _ |- _ => apply skip_ws_cons in H
      | H : parse_value _ _ = _ |- _ => apply IHv in H
      | H : parse_elems _ _ = _ |- _ => apply IHe in H
      end; lia.
  - intros acc j t. cbn [parse_members]. intros H. repeat case_match; simplify_eq;
      repeat match goal with
      | H : skip_ws _ = _ :: _ |- _ => apply skip_ws_cons in H
      | H : parse_str_body _ = _ |- _ => apply (parse_str_body_length _ _ _ _ (le_n _)) in H
      | H : parse_value _ _ = _ |- _ => apply IHv in H
      | H : parse_members _ _ _ = _ |- _ => apply IHm in H
      end; lia.
Qed.

(** Two large enough fuels give the same result. *)
Lemma parse_stable f g :
  (∀ s, 2 * length s + 1 ≤ f → 2 * length s + 1 ≤ g → parse_value f s = parse_value g s)
  ∧ (∀ s, 2 * length s + 2 ≤ f → 2 * length s + 2 ≤ g → parse_elems f s = parse_elems g s)
  ∧ (∀ s acc, 2 * length s + 2 ≤ f → 2 * length s + 2 ≤ g →
       parse_members f s acc = parse_members g s acc).
Proof.
  revert g. induction f as [|f IH]; intros g; [split_and!; intros; lia|].
  destruct g as [|g]; [split_and!; intros; lia|]. destruct (IH g) as (IHv & IHe & IHm).
  destruct (parse_consumes g) as (Cv & Ce & Cm).
  split_and!; intros s.
  - intros Hf Hg. cbn [parse_value]. destruct (skip_ws s) as [|c t] eqn:Es; [done|].
    apply skip_ws_cons in Es. by rewrite (IHe t), (IHm t) by lia.
  - intros Hf Hg. cbn [parse_elems]. rewrite (IHv s) by lia.
    destruct (parse_value g s) as [[v t]|] eqn:Ev; [|done]. apply Cv in Ev.
    destruct (skip_ws t) as [|d u] eqn:Et; [done|]. apply skip_ws_cons in Et.
    by rewrite (IHe u) by lia.
  - intros acc Hf Hg. cbn [parse_members]. destruct (skip_ws s) as [|q t] eqn:Es; [done|].
    apply skip_ws_cons in Es. destruct (q =? 34)%N; [|done].
    destruct (parse_str_body t) as [[k u]|] eqn:Ek; [|done].
    apply (parse_str_body_length _ _ _ _ (le_n _)) in Ek.
    destruct (skip_ws u) as [|col v] eqn:Eu; [done|]. apply skip_ws_cons in Eu.
    destruct (col =? 58)%N; [|done]. rewrite (IHv v) by lia.
    destruct (parse_value g v) as [[x w]|] eqn:Ev; [|done]. apply Cv in Ev.
    destruct (skip_ws w) as [|d y] eqn:Ew; [done|]. apply skip_ws_cons in Ew.
    by rewrite (IHm y) by lia.
Qed.

Lemma json_fuel_enough fuel s :
  json_fuel s ≤ fuel → parse_value fuel s = parse_value (json_fuel s) s.
Proof. unfold json_fuel. intros H. apply parse_stable; lia. Qed.

(** ** Texts without white space around them *)

(** The units of a JSON number. *)
Definition num_unit (c : N) : bool :=
  is_digit c || (c =? 43)%N || (c =? 45)%N || (c =? 46)%N || (c =? 69)%N || (c =? 101)%N.

(** What is read before the rest consists of such units. *)
Definition reads_num (s rest : jsstr) : Prop := ∃ w, s = w ++ rest ∧ forallb num_unit w = true.

Lemma reads_num_app a s rest : forallb num_unit a = true → reads_num s rest → reads_num (a ++ s) rest.
Proof. intros Ha (w & -> & Hw). exists (a ++ w). by rewrite app_assoc, forallb_app, Ha, Hw. Qed.

Lemma reads_num_refl s : reads_num s s.
Proof. by exists []. Qed.

Lemma reads_digits s d u : span_digits s = (d, u) → s = d ++ u ∧ forallb num_unit d = true.
Proof.
  revert d u. induction s as [|c s IH]; intros d u; cbn [span_digits]; [by intros [= <- <-]|].
  destruct (is_digit c) eqn:E; [|by intros [= <- <-]].
  destruct (span_digits s) as [d' u'] eqn:Es. intros [= <- <-]. destruct (IH d' u' eq_refl) as [-> H].
  split; [done|]. cbn [forallb]. unfold num_unit at 1. by rewrite E, H.
Qed.

Lemma reads_exp_digits neg s e v : exp_digits neg s = Some (e, v) → reads_num s v.
Proof.
  unfold exp_digits. destruct (span_digits s) as [ds u] eqn:E. destruct (reads_digits s ds u E) as [-> H].
  destruct ds; [done|]. intros [= _ <-]. eexists. eauto.
Qed.

Lemma reads_exponent s e v : parse_exponent s = Some (e, v) → reads_num s v.
Proof.
  unfold parse_exponent. destruct s as [|c t]; [intros [= _ <-]; apply reads_num_refl|].
  destruct (_ || _) eqn:E; [|intros [= _ <-]; apply reads_num_refl].
  assert (Hc : num_unit c = true).
  { apply orb_prop in E as [->%N.eqb_eq| ->%N.eqb_eq]; done. }
  destruct t as [|d u]; [done|].
  destruct (N.eqb_spec d 45) as [->|_]; [intros H%reads_exp_digits; apply (reads_num_app [c; 45%N]); [|done]; cbn; by rewrite Hc|].
  destruct (N.eqb_spec d 43) as [->|_]; [intros H%reads_exp_digits; apply (reads_num_app [c; 43%N]); [|done]; cbn; by rewrite Hc|].
  intros H%reads_exp_digits. apply (reads_num_app [c]); [|done]. cbn. by rewrite Hc.
Qed.

Lemma reads_fraction u fp v : json_fraction u = Some (fp, v) → reads_num u v.
Proof.
  unfold json_fraction. destruct u as [|c u]; [intros [= _ <-]; apply reads_num_refl|].
  destruct (N.eqb_spec c 46) as [->|_]; [|intros [= _ <-]; apply reads_num_refl].
  destruct (span_digits u) as [d w] eqn:E. destruct (reads_digits u d w E) as [-> H].
  destruct (nonempty d); [|done]. intros [= _ <-]. exists (46%N :: d). by rewrite <- app_comm_cons.
Qed.

Lemma reads_number s n v : parse_json_number s = Some (n, v) → reads_num s v.
Proof.
  assert (H : ∀ neg t, parse_json_unsigned neg t = Some (n, v) → reads_num t v).
  { intros neg t. unfold parse_json_unsigned. destruct (span_digits t) as [ip u] eqn:E.
    destruct (reads_digits t ip u E) as [-> Hd]. destruct (json_int_ok ip); [|done].
    destruct (json_fraction u) as [[fp w]|] eqn:Ef; [|done].
    destruct (parse_exponent w) as [[e x]|] eqn:Ee; [|done]. intros [= _ <-].
    apply reads_num_app; [done|]. apply reads_fraction in Ef as (a & -> & Ha).
    apply reads_num_app; [done|]. by eapply reads_exponent. }
  destruct s as [|c t]; [done|]. cbn [parse_json_number].
  destruct (N.eqb_spec c 45) as [->|_]; [|apply H]. intros Hp%H. by apply (reads_num_app [45%N]).
Qed.

(** The compact text of a value is trimmed. *)
Lemma json_text_trimmed j : wf_json j = true → trimmed (JSON_stringify j) = true.
Proof.
  destruct j as [|b|n|s|l|kvs]; cbn [wf_json JSON_stringify]; intros Hw; try done.
  - by destruct b.
  - apply num_ok_spec in Hw as [-> (w & -> & Hw)%reads_number]. rewrite app_nil_r.
    apply trimmed_no_space. rewrite forallb_forall in *. intros c Hc%Hw. apply negb_true_iff, is_space_visible.
    unfold num_unit in Hc. rewrite !orb_true_iff, !N.eqb_eq in Hc.
    destruct Hc as [[[[[Hc%is_digit_range|Hc]|Hc]|Hc]|Hc]|Hc]; lia.
  - unfold JSON_stringify_str. by apply trimmed_ends.
  - by apply (trimmed_ends 91%N _ 93%N).
  - by apply (trimmed_ends 123%N _ 125%N).
Qed.
