(* ===== verification/JsonIndent.v ===== *)
(** * [JSON.stringify] with indentation

    [JSON.stringify(value, null, 2)], which the settings pages use for the texts of
    their options, and the proof that [JSON.parse] reads it back. *)
From Stdlib Require Import NArith ZArith.
From stdpp Require Import list numbers.
From S2P Require Import Prelude JsString JsNumber Json JsArray JsonRoundtrip.

(** [ind] is the indentation of the line the value starts on. *)
Fixpoint stringify_indent (ind : jsstr) (j : json) : jsstr :=
  match j with
  | JArr ((_ :: _) as l) =>
      "[" ++ (10%N :: ind ++ "  ") ++ join ("," ++ 10%N :: ind ++ "  ") (map (stringify_indent (ind ++ "  ")) l)
      ++ (10%N :: ind) ++ "]"
  | JObj ((_ :: _) as kvs) =>
      "{" ++ (10%N :: ind ++ "  ")
      ++ join ("," ++ 10%N :: ind ++ "  ")
           (map (λ '(k, t), JSON_stringify_str k ++ ": " ++ t)
              (entries (map (λ '(k, v), (k, stringify_indent (ind ++ "  ") v)) kvs)))
      ++ (10%N :: ind) ++ "}"
  | _ => JSON_stringify j
  end.

Definition JSON_stringify_2 (j : json) : jsstr := stringify_indent [] j.

Example indent_ex :
  JSON_stringify_2 (JObj [("a", JNum (num_of_Z 1)); ("b", JArr [JNull; JObj []])])
  = "{\n  \qa\q: 1,\n  \qb\q: [\n    null,\n    {}\n  ]\n}".
Proof. vm_compute. reflexivity. Qed.

(** ** Reading it back *)

Definition blank (s : jsstr) : bool := forallb json_ws s.

Lemma skip_blank w s : blank w = true → skip_ws (w ++ s) = skip_ws s.
Proof.
  induction w as [|c w IH]; [done|]. cbn [blank forallb]. intros H. apply andb_prop in H as [Hc Hw].
  cbn [app skip_ws]. rewrite Hc. by apply IH.
Qed.

Lemma blank_app a b : blank (a ++ b) = blank a && blank b.
Proof. apply forallb_app. Qed.

Lemma indent_head ind j t : wf_json j = true → value_head (stringify_indent ind j ++ t) = true.
Proof. destruct j as [|b|n|s|[|x l]|[|[k v] kvs]]; intros H; try exact (stringify_head _ t H); done. Qed.

Lemma indent_length ind j : wf_json j = true → 0 < length (stringify_indent ind j).
Proof.
  intros H%(indent_head ind j []). rewrite app_nil_r in H. destruct (stringify_indent ind j); [done|]. cbn; lia.
Qed.

(** Blanks in front of a value are skipped. *)
Lemma parse_value_blank fuel w s : blank w = true → parse_value fuel (w ++ s) = parse_value fuel s.
Proof. intros H. destruct fuel as [|fuel]; [done|]. cbn [parse_value]. by rewrite skip_blank. Qed.

Lemma parse_elems_blank fuel w s : blank w = true → parse_elems fuel (w ++ s) = parse_elems fuel s.
Proof. intros H. destruct fuel as [|fuel]; [done|]. cbn [parse_elems]. by rewrite parse_value_blank. Qed.

Lemma parse_members_blank fuel w s acc :
  blank w = true → parse_members fuel (w ++ s) acc = parse_members fuel s acc.
Proof. intros H. destruct fuel as [|fuel]; [done|]. cbn [parse_members]. by rewrite skip_blank. Qed.

Definition reads_indented (j : json) : Prop :=
  ∀ ind t fuel, blank ind = true → delim t = true → 2 * length (stringify_indent ind j) ≤ fuel →
  parse_value fuel (stringify_indent ind j ++ t) = Some (j, t).

Definition indented_member (ind : jsstr) (kv : jsstr * json) : jsstr :=
  JSON_stringify_str kv.1 ++ ": " ++ stringify_indent ind kv.2.

Section lists.
Context (ind pre post : jsstr) (Hind : blank ind = true).
Context (Hpre : blank (10%N :: pre) = true) (Hpost : blank (10%N :: post) = true).

(** The separator: a comma, a new line and the indentation. *)
Let sep : jsstr := "," ++ 10%N :: pre.

Lemma indented_elems l t fuel :
  l ≠ [] → forallb wf_json l = true → (∀ x, In x l → reads_indented x) →
  2 * length (join sep (map (stringify_indent ind) l)) + 1 ≤ fuel →
  parse_elems fuel (join sep (map (stringify_indent ind) l) ++ (10%N :: post) ++ 93%N :: t) = Some (l, t).
Proof using Hind Hpre Hpost.
  revert fuel. induction l as [|x l IH]; intros fuel Hne Hw Hr Hf; [done|].
  destruct fuel as [|fuel]; [lia|]. cbn [parse_elems]. cbn [forallb] in Hw. apply andb_prop in Hw as [Hx Hw].
  destruct l as [|y l].
  - cbn [map join] in *. rewrite (Hr x) by (by left || done || lia). by rewrite skip_blank.
  - cbn [map] in *. rewrite join_cons in Hf |- * by done. rewrite !length_app in Hf.
    rewrite <- (app_assoc (stringify_indent ind x)).
    rewrite (Hr x) by (by left || done || lia). unfold sep at 1. rewrite <- !app_assoc.
    cbn [app skip_ws json_ws N.eqb Pos.eqb orb]. rewrite app_comm_cons, parse_elems_blank by done.
    change (stringify_indent ind y :: map (stringify_indent ind) l)
      with (map (stringify_indent ind) (y :: l)) in *.
    rewrite IH; [done|done|done| |].
    + intros z Hz. apply Hr. by right.
    + unfold sep in *. cbn [length app] in *. lia.
Qed.

Lemma indented_members kvs t fuel acc :
  kvs ≠ [] →
  forallb (λ '(k, v), units_ok k && no_index k && wf_json v) kvs = true →
  (∀ k v, In (k, v) kvs → reads_indented v) → NoDup (map fst (acc ++ kvs)) →
  2 * length (join sep (map (indented_member ind) kvs)) + 1 ≤ fuel →
  parse_members fuel (join sep (map (indented_member ind) kvs) ++ (10%N :: post) ++ 125%N :: t) acc
  = Some (JObj (acc ++ kvs), t).
Proof using Hind Hpre Hpost.
  revert fuel acc. induction kvs as [|[k v] kvs IH]; intros fuel acc Hne Hw Hr Hd Hf; [done|].
  destruct fuel as [|fuel]; [lia|]. cbn [parse_members].
  cbn [forallb] in Hw. apply andb_prop in Hw as [Hk Hw]. apply andb_prop in Hk as [Hk _].
  apply andb_prop in Hk as [Hk _].
  assert (Hka : k ∉ map fst acc).
  { rewrite map_app in Hd. apply list.NoDup_app in Hd as (_ & Hd & _). intros Hin. apply (Hd k Hin). left. }
  assert (Hv : ∀ u, delim u = true → length (indented_member ind (k, v)) ≤ length (join sep (map (indented_member ind) ((k, v) :: kvs))) →
      parse_value fuel (" " ++ stringify_indent ind v ++ u) = Some (v, u)).
  { intros u Hu Hl. rewrite parse_value_blank by done. apply (Hr k v); [by left|done|done|].
    assert (length (stringify_indent ind v) < length (indented_member ind (k, v))).
    { unfold indented_member. cbn [fst snd]. rewrite !length_app. cbn [length]. lia. }
    lia. }
  assert (Hm : ∀ u, skip_ws (indented_member ind (k, v) ++ u)
                    = 34%N :: quote_body k ++ 34%N :: 58%N :: (" " ++ stringify_indent ind v ++ u)).
  { intros u. unfold indented_member, JSON_stringify_str. cbn [fst snd app skip_ws json_ws N.eqb Pos.eqb orb].
    by rewrite <- !app_assoc. }
  destruct kvs as [|kv kvs].
  - cbn [map join] in *. rewrite Hm. cbn [N.eqb Pos.eqb]. rewrite parse_quote_body by done.
    cbn [skip_ws json_ws N.eqb Pos.eqb orb]. rewrite Hv by (done || lia).
    rewrite skip_blank by done. cbn [skip_ws json_ws N.eqb Pos.eqb orb]. by rewrite obj_set_new.
  - cbn [map] in *. rewrite join_cons in Hf, Hv |- * by done. rewrite !length_app in Hf.
    rewrite <- (app_assoc (indented_member ind (k, v))), Hm. cbn [N.eqb Pos.eqb]. rewrite parse_quote_body by done.
    cbn [skip_ws json_ws N.eqb Pos.eqb orb]. unfold sep at 1.
    rewrite Hv by (done || (rewrite !length_app; lia)). rewrite <- !app_assoc.
    cbn [app skip_ws json_ws N.eqb Pos.eqb orb]. rewrite app_comm_cons, parse_members_blank by done.
    rewrite obj_set_new by done.
    change (indented_member ind kv :: map (indented_member ind) kvs)
      with (map (indented_member ind) (kv :: kvs)) in *.
    rewrite IH; [by rewrite <- app_assoc|done|done| | |].
    + intros k' v' Hin. apply (Hr k'). by right.
    + by rewrite <- app_assoc.
    + unfold sep in *. cbn [length app] in *. lia.
Qed.
End lists.

Lemma indent_obj ind kv kvs :
  forallb no_index (map fst (kv :: kvs)) = true →
  stringify_indent ind (JObj (kv :: kvs))
  = "{" ++ (10%N :: ind ++ "  ")
    ++ join ("," ++ 10%N :: ind ++ "  ") (map (indented_member (ind ++ "  ")) (kv :: kvs))
    ++ (10%N :: ind) ++ "}".
Proof.
  intros H. cbn [stringify_indent]. rewrite entries_id.
  - rewrite map_map. do 3 f_equal. f_equal. apply map_ext. by intros [k v].
  - rewrite map_map. erewrite map_ext; [exact H|]. by intros [k v].
Qed.

(** An opening bracket, blanks and the contents. *)
Lemma open_array fuel w s l v :
  blank w = true → value_head s = true → parse_elems fuel s = Some (l, v) →
  parse_value (S fuel) ("[" ++ w ++ s) = Some (JArr l, v).
Proof.
  intros Hw Hs Hp. cbn [app parse_value skip_ws json_ws N.eqb Pos.eqb orb].
  rewrite skip_blank, parse_elems_blank, Hp by done.
  destruct (value_head_open s Hs) as [-> (c & u & -> & -> & _)]. done.
Qed.

Lemma open_object fuel w s r :
  blank w = true → value_head s = true → parse_members fuel s [] = Some r →
  parse_value (S fuel) ("{" ++ w ++ s) = Some r.
Proof.
  intros Hw Hs Hp. cbn [app parse_value skip_ws json_ws N.eqb Pos.eqb orb].
  rewrite skip_blank, parse_members_blank, Hp by done.
  destruct (value_head_open s Hs) as [-> (c & u & -> & _ & ->)]. done.
Qed.

Lemma reads_indented_all j : wf_json j = true → reads_indented j.
Proof.
  induction j as [|b|n|s|l IH|kvs IH] using json_nested_ind; intros Hw ind t fuel Hi Ht Hf;
    try exact (reads_back_all _ Hw t fuel Ht Hf).
  all: assert (Hb : blank (ind ++ "  ") = true) by (by rewrite blank_app, Hi).
  - destruct l as [|x l]; [exact (reads_back_all _ Hw t fuel Ht Hf)|].
    cbn [stringify_indent] in Hf |- *. rewrite !length_app in Hf. cbn [length] in Hf.
    destruct fuel as [|fuel]; [lia|]. rewrite <- !app_assoc. apply open_array; [exact Hb| |].
    + cbn [wf_json forallb] in Hw. apply andb_prop in Hw as [Hx _].
      cbn [map]. rewrite join_concat_map, <- app_assoc. by apply indent_head.
    + change ("]" ++ t) with (93%N :: t). apply indented_elems; [done|exact Hb|exact Hi|done|exact Hw| |lia].
      intros y Hy. apply IH; [done|]. cbn [wf_json] in Hw. rewrite forallb_forall in Hw. auto.
  - destruct kvs as [|kv kvs]; [exact (reads_back_all _ Hw t fuel Ht Hf)|].
    pose proof (wf_no_index (kv :: kvs) Hw) as Hx. apply wf_fields_spec in Hw as [Hw Hd].
    rewrite indent_obj in Hf |- * by done. rewrite !length_app in Hf. cbn [length] in Hf.
    destruct fuel as [|fuel]; [lia|]. rewrite <- !app_assoc. apply open_object; [exact Hb| |].
    + cbn [map]. rewrite join_concat_map, <- app_assoc. done.
    + change ("}" ++ t) with (125%N :: t).
      apply (indented_members (ind ++ "  ") (ind ++ "  ") ind Hb Hb Hi (kv :: kvs) t fuel []);
        [done|done| |done|lia].
      intros k v Hin. apply (IH k v); [done|]. rewrite forallb_forall in Hw. specialize (Hw _ Hin).
      cbn in Hw. by bool_prop.
Qed.

(** [JSON.parse(JSON.stringify(j, null, 2))] is [j]. *)
Lemma JSON_parse_stringify_2 j : wf_json j = true → JSON_parse (JSON_stringify_2 j) = Some j.
Proof.
  intros Hw. unfold JSON_parse, json_fuel, JSON_stringify_2. rewrite <- (app_nil_r (stringify_indent [] j)) at 2.
  rewrite (reads_indented_all j Hw) by (done || lia). done.
Qed.

(** The text of an object is trimmed. *)
Lemma indented_trimmed kvs : trim (JSON_stringify_2 (JObj kvs)) = JSON_stringify_2 (JObj kvs).
Proof.
  apply trim_trimmed. destruct kvs as [|kv kvs]; [reflexivity|]. unfold JSON_stringify_2. cbn [stringify_indent].
  match goal with |- trimmed ("{" ++ ?a ++ ?b ++ ?c ++ "}") = true =>
    change ("{" ++ a ++ b ++ c ++ "}") with (123%N :: (a ++ b ++ c ++ [125%N])) end.
  rewrite !app_assoc. by apply (trimmed_ends 123%N _ 125%N).
Qed.

(** Values as indented texts, for the pages that store options. *)
#[export] Instance json_codec : Codec json := {
  encode := JSON_stringify_2; decode := λ s, Ok (JSON_parse s); readable := wf_json; normal := λ j, j;
  decode_encode := λ j H, f_equal Ok (JSON_parse_stringify_2 j H); encode_normal := λ j _, eq_refl
}.
