(* ===== verification/JsRecord.v ===== *)
(** * Objects used as maps

    [Record<string, A>] for any [A]: the properties in insertion order, read, set and
    deleted as on the objects of [Json]; [Object.keys] and [Object.entries] come from
    [entries]. *)
From Stdlib Require Import NArith.
From stdpp Require Import list.
From S2P Require Import Prelude JsString JsNumber Json JsArray JsonRoundtrip.

Abbreviation record A := (list (jsstr * A)).

Section record.
Context {A : Type}.
Implicit Types (k : jsstr) (v : A) (r : record A).

Fixpoint rec_get (k : jsstr) (r : record A) : option A :=
  match r with
  | [] => None
  | (k', v) :: t => if str_eqb k k' then Some v else rec_get k t
  end.

Fixpoint rec_set (k : jsstr) (v : A) (r : record A) : record A :=
  match r with
  | [] => [(k, v)]
  | (k', v') :: t => if str_eqb k k' then (k', v) :: t else (k', v') :: rec_set k v t
  end.

Fixpoint rec_delete (k : jsstr) (r : record A) : record A :=
  match r with
  | [] => []
  | (k', v') :: t => if str_eqb k k' then rec_delete k t else (k', v') :: rec_delete k t
  end.

Definition rec_has (k : jsstr) (r : record A) : bool :=
  match rec_get k r with Some _ => true | None => false end.

Definition rec_keys (r : record A) : list jsstr := map fst (entries r).

(** No property occurs twice; every object the code builds is of this form. *)
Definition distinct (r : record A) : Prop := NoDup (map fst r).

Lemma rec_get_set k k' v r :
  rec_get k (rec_set k' v r) = if str_eqb k k' then Some v else rec_get k r.
Proof.
  induction r as [|[k0 v0] r IH]; cbn [rec_set rec_get]; [done|].
  destruct (str_eqb_spec k' k0) as [->|Hn]; cbn [rec_get].
  - by destruct (str_eqb k k0).
  - rewrite IH. destruct (str_eqb_spec k k0) as [->|?]; [|done].
    by rewrite (proj2 (str_eqb_neq k0 k')) by congruence.
Qed.

Lemma rec_get_delete k k' r :
  rec_get k (rec_delete k' r) = if str_eqb k k' then None else rec_get k r.
Proof.
  induction r as [|[k0 v0] r IH]; cbn [rec_delete rec_get]; [by destruct (str_eqb k k')|].
  destruct (str_eqb_spec k' k0) as [->|Hn].
  - rewrite IH. by destruct (str_eqb k k0).
  - cbn [rec_get]. rewrite IH. destruct (str_eqb_spec k k0) as [->|?]; [|done].
    by rewrite (proj2 (str_eqb_neq k0 k')) by congruence.
Qed.

Lemma rec_get_elem k v r : rec_get k r = Some v → (k, v) ∈ r.
Proof.
  induction r as [|[k0 v0] r IH]; cbn [rec_get]; [done|].
  destruct (str_eqb_spec k k0) as [->|?]; [intros [= ->]; by left|]. intros ?. right. by apply IH.
Qed.

Lemma rec_elem_get k v r : distinct r → (k, v) ∈ r → rec_get k r = Some v.
Proof.
  unfold distinct. induction r as [|[k0 v0] r IH]; cbn [rec_get map fst]; [intros _ H; inversion H|].
  intros [Hn Hd]%list.NoDup_cons [[= -> ->]|He]%elem_of_cons; [by rewrite str_eqb_refl|].
  destruct (str_eqb_spec k k0) as [->|?]; [|by apply IH].
  destruct Hn. apply list_elem_of_fmap. by exists (k0, v).
Qed.

Lemma rec_get_keys k r : is_Some (rec_get k r) ↔ k ∈ map fst r.
Proof.
  induction r as [|[k0 v0] r IH]; cbn [rec_get map fst].
  - split; [by intros [? ?]|intros H; inversion H].
  - rewrite elem_of_cons, <- IH. destruct (str_eqb_spec k k0) as [->|Hn]; split; eauto. tauto.
Qed.

Lemma rec_keys_elem k r : k ∈ rec_keys r ↔ is_Some (rec_get k r).
Proof.
  rewrite rec_get_keys. unfold rec_keys. by rewrite (Permutation_map fst (entries_perm r)).
Qed.

Lemma rec_has_true k r : rec_has k r = true ↔ is_Some (rec_get k r).
Proof. unfold rec_has. destruct (rec_get k r); split; intros H; [by eexists|done|done|by destruct H]. Qed.

Lemma rec_delete_keys k k' r : k' ∈ map fst (rec_delete k r) ↔ k' ∈ map fst r ∧ k' ≠ k.
Proof.
  rewrite <- !rec_get_keys, rec_get_delete.
  destruct (str_eqb_spec k' k) as [->|?]; [|tauto]. split; [by intros [? ?]|by intros [_ ?]].
Qed.

Lemma rec_set_keys k v r :
  map fst (rec_set k v r) = map fst r ++ (if str_mem k (map fst r) then [] else [k]).
Proof.
  unfold str_mem, mem. induction r as [|[k0 v0] r IH]; cbn [rec_set map fst existsb]; [done|].
  destruct (str_eqb k k0); cbn [orb map fst]; [by rewrite app_nil_r|]. by rewrite IH.
Qed.

Lemma distinct_set k v r : distinct r → distinct (rec_set k v r).
Proof.
  unfold distinct. rewrite rec_set_keys. intros Hd.
  destruct (str_mem k (map fst r)) eqn:E; [by rewrite app_nil_r|].
  apply str_mem_false in E. apply list.NoDup_app. split_and!; [done| |by repeat constructor; inversion 1].
  intros x Hx [->|H]%elem_of_cons; [done|inversion H].
Qed.

Lemma distinct_delete k r : distinct r → distinct (rec_delete k r).
Proof.
  unfold distinct. induction r as [|[k0 v0] r IH]; [done|].
  cbn [rec_delete map fst]. intros [Hn Hd]%list.NoDup_cons.
  destruct (str_eqb k k0); [by apply IH|]. cbn [map fst]. apply list.NoDup_cons.
  split; [|by apply IH]. by intros [? _]%rec_delete_keys.
Qed.

Lemma distinct_nil : distinct [].
Proof. constructor. Qed.

Lemma distinct_entries r : distinct r → distinct (entries r).
Proof. unfold distinct. intros H. by rewrite entries_perm. Qed.

Lemma rec_get_entries k r : distinct r → rec_get k (entries r) = rec_get k r.
Proof.
  intros Hd. destruct (rec_get k r) as [v|] eqn:E.
  - apply rec_elem_get; [by apply distinct_entries|]. by apply entries_elem, rec_get_elem.
  - destruct (rec_get k (entries r)) as [v|] eqn:E'; [|done].
    apply rec_get_elem, (proj1 (entries_elem _ _)) in E'. rewrite (rec_elem_get _ _ _ Hd E') in E. done.
Qed.

(** Keeping the properties whose name passes a test. *)
Lemma rec_get_filter (p : jsstr → bool) k r :
  rec_get k (List.filter (λ '(k', _), p k') r) = if p k then rec_get k r else None.
Proof.
  induction r as [|[k0 v0] r IH]; cbn [List.filter rec_get]; [by destruct (p k)|].
  destruct (p k0) eqn:E; cbn [rec_get]; rewrite IH;
    destruct (str_eqb_spec k k0) as [->|?]; rewrite ?E; done.
Qed.

Lemma distinct_filter (p : jsstr * A → bool) r : distinct r → distinct (List.filter p r).
Proof. intros Hd. eapply sublist_NoDup; [exact Hd|]. apply map_sublist, filterb_sublist. Qed.

Lemma rec_get_nonempty k v r : rec_get k r = Some v → nonempty r = true.
Proof. by destruct r. Qed.

Lemma rec_nonempty_get r : nonempty r = true → ∃ k v, rec_get k r = Some v.
Proof. destruct r as [|[k v] r]; [done|]. intros _. exists k, v. cbn. by rewrite str_eqb_refl. Qed.
End record.

(** The objects of [Json] are records of [json]. *)
Lemma obj_get_rec k kvs : obj_get k kvs = rec_get k kvs.
Proof. induction kvs as [|[k0 v0] kvs IH]; cbn; [done|]. by rewrite IH. Qed.

Lemma obj_set_rec k v kvs : obj_set k v kvs = rec_set k v kvs.
Proof. induction kvs as [|[k0 v0] kvs IH]; cbn; [done|]. by rewrite IH. Qed.

Lemma obj_delete_rec k kvs : obj_delete k kvs = rec_delete k kvs.
Proof. induction kvs as [|[k0 v0] kvs IH]; cbn; [done|]. by rewrite IH. Qed.

#[export] Hint Resolve distinct_set distinct_delete distinct_nil distinct_entries distinct_filter : js.
