(* ===== verification/BillingExpr.v ===== *)
(** * Billing expressions: [web/default/src/features/pricing/lib/billing-expr.ts]

    The variable registry, the tier parser, the request-rule parser, the split
    and combination of a billing expression and its rules, and the editor's
    builder of rule expressions.  Regular expressions are the source's, as values
    of [regex]; [JSON.parse] inside the rule parser can throw, which the parser
    results carry as [exn]. *)
From Stdlib Require Import NArith ZArith.
From stdpp Require Import list numbers.
From S2P Require Import Prelude JsString Regex JsNumber Json.

(** ** Variable registry *)

Inductive BillingSide : Type := SideInput | SideOutput | SideCondition.

Record BillingVar : Type := {
  bv_key : jsstr;
  bv_field : option jsstr;
  bv_tierField : option jsstr;
  bv_label : jsstr;
  bv_shortLabel : jsstr;
  bv_side : BillingSide;
  bv_isBase : bool;
  bv_isConditionOnly : bool;
  bv_group : option jsstr
}.

Definition billing_var (k f tf l sl : jsstr) (sd : BillingSide) (base : bool)
    (g : option jsstr) : BillingVar :=
  {| bv_key := k; bv_field := Some f; bv_tierField := Some tf; bv_label := l;
     bv_shortLabel := sl; bv_side := sd; bv_isBase := base;
     bv_isConditionOnly := false; bv_group := g |}.

Definition BILLING_VARS : list BillingVar := [
  billing_var "p" "inputPrice" "input_unit_cost" "Input price" "Input" SideInput true None;
  billing_var "c" "outputPrice" "output_unit_cost" "Completion price" "Output" SideOutput true None;
  {| bv_key := "len"; bv_field := None; bv_tierField := None; bv_label := "Input length";
     bv_shortLabel := "Length"; bv_side := SideCondition; bv_isBase := false;
     bv_isConditionOnly := true; bv_group := None |};
  billing_var "cr" "cacheReadPrice" "cache_read_unit_cost" "Cache read price" "Cache Read"
    SideInput false (Some "cache");
  billing_var "cc" "cacheCreatePrice" "cache_create_unit_cost" "Cache create price" "Cache Write"
    SideInput false (Some "cache");
  billing_var "cc1h" "cacheCreate1hPrice" "cache_create_1h_unit_cost" "Cache create (1h) price"
    "Cache Write (1h)" SideInput false (Some "cache");
  billing_var "img" "imagePrice" "image_unit_cost" "Image input price" "Image In"
    SideInput false (Some "media");
  billing_var "img_o" "imageOutputPrice" "image_output_unit_cost" "Image output price" "Image Out"
    SideOutput false (Some "media");
  billing_var "ai" "audioInputPrice" "audio_input_unit_cost" "Audio input price" "Audio In"
    SideInput false (Some "media");
  billing_var "ao" "audioOutputPrice" "audio_output_unit_cost" "Audio output price" "Audio Out"
    SideOutput false (Some "media")
].

Definition BILLING_PRICING_VARS : list BillingVar :=
  List.filter (λ v, negb (bv_isConditionOnly v)) BILLING_VARS.

Definition BILLING_CONDITION_VARS : list jsstr :=
  map bv_key (List.filter (λ v, bv_isBase v || bv_isConditionOnly v) BILLING_VARS).

(** [v.field as string]: the pricing variables all have one. *)
Definition BILLING_VAR_KEY_TO_FIELD : list (jsstr * jsstr) :=
  map (λ v, (bv_key v, default [] (bv_field v))) BILLING_PRICING_VARS.

Definition BILLING_EXTRA_VARS : list BillingVar :=
  List.filter (λ v, negb (bv_isBase v) && negb (bv_isConditionOnly v)) BILLING_VARS.

(** Pairs of [field] and [exprVar]. *)
Definition BILLING_CACHE_VAR_MAP : list (jsstr * jsstr) :=
  map (λ v, (default [] (bv_tierField v), bv_key v)) BILLING_EXTRA_VARS.

(** The class [[\d.eE+-]] and its variant without the minus sign. *)
Definition cls_num : cls := [(48, 57); (46, 46); (101, 101); (69, 69); (43, 43); (45, 45)]%N.
Definition cls_num_pos : cls := [(48, 57); (46, 46); (101, 101); (69, 69); (43, 43)]%N.
Definition rnum : regex := rplus (RCls false cls_num).
Definition rnum_pos : regex := rplus (RCls false cls_num_pos).

Definition BILLING_VAR_REGEX : regex :=
  rseq [RWordB;
        RGroup 1 (ralt (map (λ v, RLit (bv_key v)) BILLING_PRICING_VARS));
        rspaces; RLit "*"; rspaces; RGroup 2 rnum].

(** ** Request rule constants and types *)

Definition SOURCE_PARAM : jsstr := "param".
Definition SOURCE_HEADER : jsstr := "header".
Definition SOURCE_TIME : jsstr := "time".

Definition MATCH_EQ : jsstr := "eq".
Definition MATCH_CONTAINS : jsstr := "contains".
Definition MATCH_GT : jsstr := "gt".
Definition MATCH_GTE : jsstr := "gte".
Definition MATCH_LT : jsstr := "lt".
Definition MATCH_LTE : jsstr := "lte".
Definition MATCH_EXISTS : jsstr := "exists".
Definition MATCH_RANGE : jsstr := "range".

Inductive TimeFunc : Type := TF_hour | TF_minute | TF_weekday | TF_month | TF_day.

Definition TIME_FUNCS : list TimeFunc := [TF_hour; TF_minute; TF_weekday; TF_month; TF_day].

Definition timeFunc_str (f : TimeFunc) : jsstr :=
  match f with
  | TF_hour => "hour"
  | TF_minute => "minute"
  | TF_weekday => "weekday"
  | TF_month => "month"
  | TF_day => "day"
  end.

(** The time function a string names, if any ([isTimeFunc]). *)
Definition timeFunc_of_str (s : jsstr) : option TimeFunc :=
  List.find (λ f, str_eqb (timeFunc_str f) s) TIME_FUNCS.

(** [/^-?(?:\d+\.?\d*|\.\d+)(?:[eE][+-]?\d+)?$/] *)
Definition NUMERIC_LITERAL_REGEX : regex :=
  rseq [RStart; ropt (RLit "-");
        RAlt (rseq [rplus rdigit; ropt (RLit "."); RStar rdigit])
             (rseq [RLit "."; rplus rdigit]);
        ropt (rseq [RCls false [(101, 101); (69, 69)]%N;
                    ropt (RCls false [(43, 43); (45, 45)]%N); rplus rdigit]);
        REnd].

Inductive PHSource : Type := SParam | SHeader.

Definition phSource_str (s : PHSource) : jsstr :=
  match s with SParam => SOURCE_PARAM | SHeader => SOURCE_HEADER end.

Record ParamHeaderCondition : Type := {
  ph_source : PHSource;
  ph_path : jsstr;
  ph_mode : jsstr;
  ph_value : jsstr
}.

Record TimeCondition : Type := {
  tc_timeFunc : TimeFunc;
  tc_timezone : jsstr;
  tc_mode : jsstr;
  tc_value : jsstr;
  tc_rangeStart : jsstr;
  tc_rangeEnd : jsstr
}.

Inductive RequestCondition : Type :=
| CTime (c : TimeCondition)
| CPH (c : ParamHeaderCondition).

Record RequestRuleGroup : Type := {
  conditions : list RequestCondition;
  multiplier : jsstr
}.

Inductive TierVar : Type := TV_p | TV_c | TV_len.
Inductive TierOp : Type := OpLt | OpLe | OpGt | OpGe.

Record TierCondition : Type := {
  cond_var : TierVar;
  cond_op : TierOp;
  cond_value : number
}.

(** The index signature's fields are [pt_fields], in insertion order. *)
Record ParsedTier : Type := {
  pt_label : jsstr;
  pt_conditions : list TierCondition;
  pt_fields : list (jsstr * number)
}.

(** ** Tier parser *)

Definition version_regex : regex :=
  rseq [RStart; RLit "v"; RGroup 1 (rplus rdigit); RLit ":"; RGroup 2 (RStar rany); REnd].

Definition stripExprVersion (exprStr : jsstr) : number * jsstr :=
  if nonempty exprStr then
    match re_match version_regex exprStr with
    | Some m => (Number_of_string (grp m 1), grp m 2)
    | None => (num_of_Z 1, exprStr)
    end
  else (num_of_Z 1, []).

Fixpoint assoc_get {A} (k : jsstr) (l : list (jsstr * A)) : option A :=
  match l with
  | [] => None
  | (k', v) :: r => if str_eqb k k' then Some v else assoc_get k r
  end.

(** The [coeffs] loop: the first coefficient of a variable counts. *)
Definition tier_coeffs (bodyStr : jsstr) : list (jsstr * number) :=
  fold_left
    (λ coeffs m,
       match assoc_get (grp m 1) coeffs with
       | Some _ => coeffs
       | None => coeffs ++ [(grp m 1, Number_of_string (grp m 2))]
       end)
    (re_matchAll BILLING_VAR_REGEX bodyStr) [].

Definition parseTierBody (bodyStr : jsstr) : list (jsstr * number) :=
  let coeffs := tier_coeffs bodyStr in
  map (λ '(varName, field),
         (field, num_or (default NaN (assoc_get varName coeffs)) zero))
    BILLING_VAR_KEY_TO_FIELD.

Definition rcond_var : regex := ralt [RLit "p"; RLit "c"; RLit "len"].
Definition rcond_op : regex := ralt [RLit "<"; RLit "<="; RLit ">"; RLit ">="].

(** [(?:p|c|len)\s*(?:<|<=|>|>=)\s*[\d.eE+]+] *)
Definition rcond : regex := rseq [rcond_var; rspaces; rcond_op; rspaces; rnum_pos].

Definition condGroup : regex :=
  RGroup 1 (RSeq rcond (RStar (rseq [rspaces; RLit "&&"; rspaces; rcond]))).

Definition tierRe : regex :=
  rseq [ropt (rseq [condGroup; rspaces; RLit "?"; rspaces]);
        RLit "tier(\q"; RGroup 2 (RStar rnotquote); RLit "\q,"; rspaces;
        RGroup 3 (rplus (RCls true [(41, 41)]%N)); RLit ")"].

Definition and_split_regex : regex := rseq [rspaces; RLit "&&"; rspaces].

Definition cond_regex : regex :=
  rseq [RStart; RGroup 1 rcond_var; rspaces; RGroup 2 rcond_op; rspaces; RGroup 3 rnum_pos; REnd].

Definition tierVar_of_str (s : jsstr) : option TierVar :=
  if str_eqb s "p" then Some TV_p
  else if str_eqb s "c" then Some TV_c
  else if str_eqb s "len" then Some TV_len else None.

Definition tierOp_of_str (s : jsstr) : option TierOp :=
  if str_eqb s "<" then Some OpLt
  else if str_eqb s "<=" then Some OpLe
  else if str_eqb s ">" then Some OpGt
  else if str_eqb s ">=" then Some OpGe else None.

(** The conditions of a matched condition string; the casts [cm[1] as ...] are
    to the alternatives of the pattern. *)
Definition parseTierConditions (condStr : jsstr) : list TierCondition :=
  if nonempty condStr then
    omap
      (λ cp,
         match re_match cond_regex (trim cp) with
         | Some cm =>
             v ← tierVar_of_str (grp cm 1);
             o ← tierOp_of_str (grp cm 2);
             Some {| cond_var := v; cond_op := o;
                     cond_value := Number_of_string (grp cm 3) |}
         | None => None
         end)
      (re_split and_split_regex condStr)
  else [].

Definition parseTiersFromExpr (exprStr : jsstr) : list ParsedTier :=
  if nonempty exprStr then
    let '(_, body) := stripExprVersion exprStr in
    map (λ m,
           {| pt_label := grp m 2;
              pt_conditions := parseTierConditions (default [] (grp_opt m 1));
              pt_fields := parseTierBody (grp m 3) |})
      (re_matchAll tierRe body)
  else [].

(** The alternatives [<[=＝]?|≤|＜[=＝]?] and their mirror image. *)
Definition label_lt_regex : regex :=
  let eqs := ropt (RCls false [(61, 61); (65309, 65309)]%N) in
  ralt [RSeq (RLit "<") eqs; RLit "≤"; RSeq (RLit "＜") eqs].
Definition label_gt_regex : regex :=
  let eqs := ropt (RCls false [(61, 61); (65309, 65309)]%N) in
  ralt [RSeq (RLit ">") eqs; RLit "≥"; RSeq (RLit "＞") eqs].
Definition spaces_regex : regex := rplus (RCls false cls_space).

(** [toLowerCase] is the Unicode case mapping, a parameter. *)
Definition normalizeTierLabel (toLowerCase : jsstr → jsstr) (label : option jsstr) : jsstr :=
  let l := default [] label in
  if nonempty l then
    toLowerCase
      (re_replaceAll spaces_regex []
         (re_replaceAll label_gt_regex ">" (re_replaceAll label_lt_regex "<" l)))
  else [].

(** ** Request rule parser *)

(** The loop of [splitTopLevelMultiply] and [splitTopLevelAnd]: [depth] counts
    parentheses, [cur] is [expr.slice(start, index)] reversed, [skip] the units
    the index jumps over after a separator; the last part is pushed at the end. *)
Fixpoint splitTopLevel_loop (sep : jsstr) (skip : nat) (depth : Z) (cur s : jsstr)
    : list jsstr :=
  match s with
  | [] => [trim (rev cur)]
  | c :: t =>
      match skip with
      | S skip' => splitTopLevel_loop sep skip' depth cur t
      | 0 =>
          let depth := if (c =? 40)%N then (depth + 1)%Z else depth in
          let depth := if (c =? 41)%N then (depth - 1)%Z else depth in
          if (depth =? 0)%Z && startsWith sep s
          then trim (rev cur) :: splitTopLevel_loop sep (length sep - 1) depth [] t
          else splitTopLevel_loop sep 0 depth (c :: cur) t
      end
  end.

Definition splitTopLevel (sep expr : jsstr) : list jsstr :=
  List.filter nonempty (splitTopLevel_loop sep 0 0 [] expr).

Definition SEP_MUL : jsstr := " * ".
Definition SEP_AND : jsstr := " && ".

Definition splitTopLevelMultiply (expr : jsstr) : list jsstr := splitTopLevel SEP_MUL expr.
Definition splitTopLevelAnd (expr : jsstr) : list jsstr := splitTopLevel SEP_AND expr.

(** The result [null] is [JNull]; [JSON.parse] may return it too. *)
Definition parseExprLiteral (raw : jsstr) : json :=
  let text := trim raw in
  if str_eqb text lit_true || str_eqb text lit_false then JStr text
  else if re_test NUMERIC_LITERAL_REGEX text then JStr text
  else default JNull (JSON_parse text).

Definition rtime_func : regex := RGroup 1 (ralt (map (λ f, RLit (timeFunc_str f)) TIME_FUNCS)).

(** The core of the two range patterns: a lower bound on a time function or an
    upper bound on the same function ([\1]) of the same zone ([\2]). *)
Definition time_range_core (after : list regex) : regex :=
  rseq ([rtime_func; RLit "(\q"; RGroup 2 (rplus rnotquote); RLit "\q) >= "; RGroup 3 rnum;
         RLit " || "; RBackref 1; RLit "(\q"; RBackref 2; RLit "\q) < "; RGroup 4 rnum]
        ++ after).

Definition time_range_regex : regex := RSeq RStart (time_range_core [REnd]).
Definition time_range_paren_regex : regex :=
  RSeq RStart (RSeq (RLit "(") (time_range_core [RLit ")"; REnd])).
Definition time_cmp_regex : regex :=
  rseq [RStart; rtime_func; RLit "(\q"; RGroup 2 (rplus rnotquote); RLit "\q) ";
        RGroup 3 (ralt [RLit "=="; RLit ">="; RLit "<"]); RLit " "; RGroup 4 rnum; REnd].

Definition time_op_mode (op : jsstr) : jsstr :=
  if str_eqb op "==" then MATCH_EQ
  else if str_eqb op ">=" then MATCH_GTE
  else if str_eqb op "<" then MATCH_LT else MATCH_EQ.

Definition range_condition (m : match_result) : option RequestCondition :=
  f ← timeFunc_of_str (grp m 1);
  Some (CTime {| tc_timeFunc := f; tc_timezone := grp m 2; tc_mode := MATCH_RANGE;
                 tc_value := []; tc_rangeStart := grp m 3; tc_rangeEnd := grp m 4 |}).

Definition tryParseTimeCondition (expr : jsstr) : option RequestCondition :=
  match re_match time_range_regex expr with
  | Some m => range_condition m
  | None =>
      match re_match time_range_paren_regex expr with
      | Some m => range_condition m
      | None =>
          match re_match time_cmp_regex expr with
          | Some m =>
              f ← timeFunc_of_str (grp m 1);
              Some (CTime {| tc_timeFunc := f; tc_timezone := grp m 2;
                             tc_mode := time_op_mode (grp m 3); tc_value := grp m 4;
                             tc_rangeStart := []; tc_rangeEnd := [] |})
          | None => None
          end
      end
  end.

Definition header_exists_regex : regex :=
  rseq [RStart; RLit "header(\q"; RGroup 1 (rplus rnotquote); RLit "\q) != \q\q"; REnd].
Definition param_exists_regex : regex :=
  rseq [RStart; RLit "param(\q"; RGroup 1 (rplus rnotquote); RLit "\q) != nil"; REnd].
Definition header_contains_regex : regex :=
  rseq [RStart; RLit "has(header(\q"; RGroup 1 (rplus rnotquote); RLit "\q), ";
        RGroup 2 rquoted_string; RLit ")"; REnd].
Definition param_contains_regex : regex :=
  rseq [RStart; RLit "param(\q"; RGroup 1 (rplus rnotquote);
        RLit "\q) != nil && has(param(\q"; RGroup 2 (rplus rnotquote); RLit "\q), ";
        RGroup 3 rquoted_string; RLit ")"; REnd].
Definition param_cmp_regex : regex :=
  rseq [RStart; RLit "param(\q"; RGroup 1 (rplus rnotquote);
        RLit "\q) != nil && param(\q"; RGroup 2 (rplus rnotquote); RLit "\q) ";
        RGroup 3 (ralt [RLit ">"; RLit ">="; RLit "<"; RLit "<="]); RLit " ";
        RGroup 4 rnum; REnd].
Definition eq_regex : regex :=
  rseq [RStart; RGroup 1 (ralt [RLit "param"; RLit "header"]); RLit "(\q";
        RGroup 2 (rplus rnotquote); RLit "\q) == "; RGroup 3 (rplus rdot); REnd].

Definition cmp_op_mode (op : jsstr) : jsstr :=
  if str_eqb op ">" then MATCH_GT
  else if str_eqb op ">=" then MATCH_GTE
  else if str_eqb op "<" then MATCH_LT else MATCH_LTE.

Definition ph_cond (s : PHSource) (path mode value : jsstr) : RequestCondition :=
  CPH {| ph_source := s; ph_path := path; ph_mode := mode; ph_value := value |}.

(** [JSON.parse(m[i]) as string]; the text starts with a quote, so what it parses
    to is a string. *)
Definition contains_cond (s : PHSource) (path quoted : jsstr) : exn (option RequestCondition) :=
  match JSON_parse quoted with
  | Some j => Ok (Some (ph_cond s path MATCH_CONTAINS (json_toString j)))
  | None => Throw
  end.

Definition tryParse_eq (expr : jsstr) : exn (option RequestCondition) :=
  match re_match eq_regex expr with
  | Some m =>
      match parseExprLiteral (grp m 3) with
      | JNull => Ok None
      | j => Ok (Some (ph_cond (if str_eqb (grp m 1) SOURCE_HEADER then SHeader else SParam)
                         (grp m 2) MATCH_EQ (json_toString j)))
      end
  | None => Ok None
  end.

Definition tryParse_param_cmp (expr : jsstr) : exn (option RequestCondition) :=
  match re_match param_cmp_regex expr with
  | Some m =>
      if str_eqb (grp m 1) (grp m 2)
      then Ok (Some (ph_cond SParam (grp m 1) (cmp_op_mode (grp m 3)) (grp m 4)))
      else tryParse_eq expr
  | None => tryParse_eq expr
  end.

Definition tryParse_param_contains (expr : jsstr) : exn (option RequestCondition) :=
  match re_match param_contains_regex expr with
  | Some m =>
      if str_eqb (grp m 1) (grp m 2)
      then contains_cond SParam (grp m 1) (grp m 3)
      else tryParse_param_cmp expr
  | None => tryParse_param_cmp expr
  end.

Definition tryParseRequestCondition (expr : jsstr) : exn (option RequestCondition) :=
  match tryParseTimeCondition expr with
  | Some tc => Ok (Some tc)
  | None =>
      match re_match header_exists_regex expr with
      | Some m => Ok (Some (ph_cond SHeader (grp m 1) MATCH_EXISTS []))
      | None =>
          match re_match param_exists_regex expr with
          | Some m => Ok (Some (ph_cond SParam (grp m 1) MATCH_EXISTS []))
          | None =>
              match re_match header_contains_regex expr with
              | Some m => contains_cond SHeader (grp m 1) (grp m 2)
              | None => tryParse_param_contains expr
              end
          end
      end
  end.

(** [for (x of xs) { y = f(x); if (!y) return null; ys.push(y) }]. *)
Fixpoint collect {A B} (f : A → exn (option B)) (xs : list A) : exn (option (list B)) :=
  match xs with
  | [] => Ok (Some [])
  | x :: xs' =>
      y ← f x;
      or_null y (λ y, ys ← collect f xs'; or_null ys (λ ys, Ok (Some (y :: ys))))
  end.

Definition group_regex : regex :=
  rseq [RStart; RLit "("; RGroup 1 (rplus rany); RLit " ? "; RGroup 2 rnum; RLit " : 1)"; REnd].

Definition tryParseRuleGroupFactor (part : jsstr) : exn (option RequestRuleGroup) :=
  or_null (re_match group_regex part) (λ m,
    conds ← collect (λ ap, tryParseRequestCondition (trim ap)) (splitTopLevelAnd (grp m 1));
    or_null conds (λ conds,
      match conds with
      | [] => Ok None
      | _ => Ok (Some {| conditions := conds; multiplier := grp m 2 |})
      end)).

Definition tryParseRequestRuleExpr (expr : jsstr) : exn (option (list RequestRuleGroup)) :=
  let trimmed := trim expr in
  if nonempty trimmed then collect tryParseRuleGroupFactor (splitTopLevelMultiply trimmed)
  else Ok (Some []).

(** ** Combine and split *)

(** The loop of [hasFullOuterParens]: [false] as soon as the depth is zero before
    the last unit. *)
Fixpoint outer_loop (depth : Z) (s : jsstr) : bool :=
  match s with
  | [] => (depth =? 0)%Z
  | c :: t =>
      let depth := if (c =? 40)%N then (depth + 1)%Z else depth in
      let depth := if (c =? 41)%N then (depth - 1)%Z else depth in
      if (depth =? 0)%Z && nonempty t then false else outer_loop depth t
  end.

Definition hasFullOuterParens (expr : jsstr) : bool :=
  startsWith "(" expr && endsWith ")" expr && outer_loop 0 expr.

(** [current.slice(1, -1)]. *)
Definition slice_inner (s : jsstr) : jsstr := take (length s - 2) (drop 1 s).

(** The [while] loop of [unwrapOuterParens]; each turn removes two units, so the
    length of the text bounds the turns. *)
Fixpoint unwrap_loop (fuel : nat) (current : jsstr) : jsstr :=
  match fuel with
  | 0 => current
  | S fuel' =>
      if hasFullOuterParens current
      then unwrap_loop fuel' (trim (slice_inner current))
      else current
  end.

Definition unwrapOuterParens (expr : jsstr) : jsstr :=
  unwrap_loop (length (trim expr)) (trim expr).

Record SplitResult : Type := { billingExpr : jsstr; requestRuleExpr : jsstr }.

(** The [forEach] that sorts the parts into rule parts and base parts. *)
Fixpoint sort_parts (parts : list jsstr) : exn (list jsstr * list jsstr) :=
  match parts with
  | [] => Ok ([], [])
  | part :: rest =>
      parsed ← tryParseRequestRuleExpr part;
      res ← sort_parts rest;
      match parsed with
      | Some (_ :: _) => Ok (part :: res.1, res.2)
      | _ => Ok (res.1, part :: res.2)
      end
  end.

Definition splitBillingExprAndRequestRules (expr : jsstr) : exn SplitResult :=
  let trimmed := trim expr in
  if nonempty trimmed then
    let parts := splitTopLevelMultiply trimmed in
    if Nat.leb (length parts) 1 then Ok {| billingExpr := trimmed; requestRuleExpr := [] |}
    else
      res ← sort_parts parts;
      match res with
      | ((_ :: _) as ruleParts, [base]) =>
          Ok {| billingExpr := unwrapOuterParens base;
                requestRuleExpr := join SEP_MUL ruleParts |}
      | _ => Ok {| billingExpr := trimmed; requestRuleExpr := [] |}
      end
  else Ok {| billingExpr := []; requestRuleExpr := [] |}.

Definition combineBillingExpr (baseExpr requestRuleExpr : jsstr) : jsstr :=
  let base := trim baseExpr in
  let rules := trim requestRuleExpr in
  if nonempty base then
    if nonempty rules then "(" ++ base ++ ") * " ++ rules else base
  else [].

(** ** Editor: empty constructors *)

Definition createEmptyCondition : ParamHeaderCondition :=
  {| ph_source := SParam; ph_path := []; ph_mode := MATCH_EQ; ph_value := [] |}.

Definition createEmptyTimeCondition : TimeCondition :=
  {| tc_timeFunc := TF_hour; tc_timezone := "Asia/Shanghai"; tc_mode := MATCH_GTE;
     tc_value := []; tc_rangeStart := []; tc_rangeEnd := [] |}.

Definition createEmptyRuleGroup : RequestRuleGroup :=
  {| conditions := [CPH createEmptyCondition]; multiplier := [] |}.

Definition createEmptyTimeRuleGroup : RequestRuleGroup :=
  {| conditions := [CTime createEmptyTimeCondition]; multiplier := [] |}.

(** ** Editor: match options *)

Record MatchOption : Type := { mo_value : jsstr; mo_labelKey : jsstr }.

Definition getRequestRuleMatchOptions (source : jsstr) : list MatchOption :=
  if str_eqb source SOURCE_TIME then
    [ {| mo_value := MATCH_EQ; mo_labelKey := "Equals" |};
      {| mo_value := MATCH_GTE; mo_labelKey := "Greater than or equal" |};
      {| mo_value := MATCH_LT; mo_labelKey := "Less than" |};
      {| mo_value := MATCH_RANGE; mo_labelKey := "Overnight range" |} ]
  else
    let base :=
      [ {| mo_value := MATCH_EQ; mo_labelKey := "Equals" |};
        {| mo_value := MATCH_CONTAINS; mo_labelKey := "Contains" |};
        {| mo_value := MATCH_EXISTS; mo_labelKey := "Exists" |} ] in
    if str_eqb source SOURCE_HEADER then base
    else base ++
      [ {| mo_value := MATCH_GT; mo_labelKey := "Greater than" |};
        {| mo_value := MATCH_GTE; mo_labelKey := "Greater than or equal" |};
        {| mo_value := MATCH_LT; mo_labelKey := "Less than" |};
        {| mo_value := MATCH_LTE; mo_labelKey := "Less than or equal" |} ].

(** ** Editor: normalize a condition *)

(** [Partial<RequestCondition> | null | undefined]: every property may be
    missing; [null] and [undefined] are the condition with none. *)
Record PartialCondition : Type := {
  pc_source : option jsstr;
  pc_path : option jsstr;
  pc_mode : option jsstr;
  pc_value : option jsstr;
  pc_timeFunc : option jsstr;
  pc_timezone : option jsstr;
  pc_rangeStart : option jsstr;
  pc_rangeEnd : option jsstr
}.

Definition opt_eqb (o : option jsstr) (s : jsstr) : bool :=
  match o with Some t => str_eqb t s | None => false end.

(** [s || d] on an optional string. *)
Definition str_or (o : option jsstr) (d : jsstr) : jsstr :=
  match o with Some s => if nonempty s then s else d | None => d end.

(** [options.some((item) => item.value === mode) ? mode : d] *)
Definition mode_or (source : jsstr) (mode : option jsstr) (d : jsstr) : jsstr :=
  match mode with
  | Some m =>
      if existsb (λ item, str_eqb (mo_value item) m) (getRequestRuleMatchOptions source)
      then m else d
  | None => d
  end.

Definition normalizeCondition (cond : PartialCondition) : RequestCondition :=
  if opt_eqb (pc_source cond) SOURCE_TIME then
    CTime {| tc_timeFunc := default TF_hour (pc_timeFunc cond ≫= timeFunc_of_str);
             tc_timezone := str_or (pc_timezone cond) "Asia/Shanghai";
             tc_mode := mode_or SOURCE_TIME (pc_mode cond) MATCH_GTE;
             tc_value := default [] (pc_value cond);
             tc_rangeStart := default [] (pc_rangeStart cond);
             tc_rangeEnd := default [] (pc_rangeEnd cond) |}
  else
    let source := if opt_eqb (pc_source cond) SOURCE_HEADER then SHeader else SParam in
    CPH {| ph_source := source;
           ph_path := str_or (pc_path cond) [];
           ph_mode := mode_or (phSource_str source) (pc_mode cond) MATCH_EQ;
           ph_value := default [] (pc_value cond) |}.

(** A full condition seen as a partial one. *)
Definition partial_time (c : TimeCondition) : PartialCondition :=
  {| pc_source := Some SOURCE_TIME; pc_path := None; pc_mode := Some (tc_mode c);
     pc_value := Some (tc_value c); pc_timeFunc := Some (timeFunc_str (tc_timeFunc c));
     pc_timezone := Some (tc_timezone c); pc_rangeStart := Some (tc_rangeStart c);
     pc_rangeEnd := Some (tc_rangeEnd c) |}.

Definition partial_ph (c : ParamHeaderCondition) : PartialCondition :=
  {| pc_source := Some (phSource_str (ph_source c)); pc_path := Some (ph_path c);
     pc_mode := Some (ph_mode c); pc_value := Some (ph_value c); pc_timeFunc := None;
     pc_timezone := None; pc_rangeStart := None; pc_rangeEnd := None |}.

Definition partial_of (c : RequestCondition) : PartialCondition :=
  match c with CTime t => partial_time t | CPH p => partial_ph p end.

(** ** Editor: build expression strings *)

Definition buildExprLiteral (mode value : jsstr) : jsstr :=
  let text := trim value in
  if str_eqb mode MATCH_CONTAINS then JSON_stringify_str text
  else if str_eqb text lit_true || str_eqb text lit_false then text
  else if re_test NUMERIC_LITERAL_REGEX text then text
  else JSON_stringify_str text.

Definition time_mode_op (mode : jsstr) : jsstr :=
  if str_eqb mode MATCH_EQ then "=="
  else if str_eqb mode MATCH_GTE then ">="
  else if str_eqb mode MATCH_LT then "<" else "==".

(** On a normalized condition; [normalizeCondition] of a time condition is one. *)
Definition buildTimeConditionExpr (cond : TimeCondition) : jsstr :=
  match normalizeCondition (partial_time cond) with
  | CTime n =>
      let fn := timeFunc_str (tc_timeFunc n) ++ "(" ++ JSON_stringify_str (tc_timezone n) ++ ")" in
      if str_eqb (tc_mode n) MATCH_RANGE then
        let s := trim (tc_rangeStart n) in
        let e := trim (tc_rangeEnd n) in
        if negb (re_test NUMERIC_LITERAL_REGEX s) || negb (re_test NUMERIC_LITERAL_REGEX e)
        then []
        else fn ++ " >= " ++ s ++ " || " ++ fn ++ " < " ++ e
      else
        let v := trim (tc_value n) in
        if negb (re_test NUMERIC_LITERAL_REGEX v) then []
        else fn ++ " " ++ time_mode_op (tc_mode n) ++ " " ++ v
  | CPH _ => []
  end.

Definition mode_cmp_op (mode : jsstr) : jsstr :=
  if str_eqb mode MATCH_GT then ">"
  else if str_eqb mode MATCH_GTE then ">="
  else if str_eqb mode MATCH_LT then "<" else "<=".

Definition buildPHConditionExpr (n : ParamHeaderCondition) : jsstr :=
  let path := trim (ph_path n) in
  if nonempty path then
    let sourceExpr := phSource_str (ph_source n) ++ "(" ++ JSON_stringify_str path ++ ")" in
    if str_eqb (ph_mode n) MATCH_EXISTS then
      match ph_source n with
      | SHeader => sourceExpr ++ " != \q\q"
      | SParam => sourceExpr ++ " != nil"
      end
    else if str_eqb (ph_mode n) MATCH_CONTAINS then
      let has := "has(" ++ sourceExpr ++ ", " ++ buildExprLiteral (ph_mode n) (ph_value n) ++ ")" in
      match ph_source n with
      | SHeader => has
      | SParam => sourceExpr ++ " != nil && " ++ has
      end
    else if str_eqb (ph_mode n) MATCH_GT || str_eqb (ph_mode n) MATCH_GTE
            || str_eqb (ph_mode n) MATCH_LT || str_eqb (ph_mode n) MATCH_LTE then
      let numText := trim (ph_value n) in
      if negb (re_test NUMERIC_LITERAL_REGEX numText) then []
      else sourceExpr ++ " != nil && " ++ sourceExpr ++ " " ++ mode_cmp_op (ph_mode n)
           ++ " " ++ numText
    else sourceExpr ++ " == " ++ buildExprLiteral (ph_mode n) (ph_value n)
  else [].

Definition buildRequestConditionExpr (cond : RequestCondition) : jsstr :=
  match cond with
  | CTime c => buildTimeConditionExpr c
  | CPH c =>
      match normalizeCondition (partial_ph c) with
      | CPH n => buildPHConditionExpr n
      | CTime _ => []
      end
  end.

Definition wrap_or (e : jsstr) : jsstr := if includes " || " e then "(" ++ e ++ ")" else e.

Definition buildRuleGroupFactor (group : RequestRuleGroup) : jsstr :=
  let mult := trim (multiplier group) in
  if negb (re_test NUMERIC_LITERAL_REGEX mult) then []
  else
    match List.filter nonempty (map buildRequestConditionExpr (conditions group)) with
    | [] => []
    | condExprs =>
        let combined := match condExprs with
                        | [e] => e
                        | _ => join SEP_AND (map wrap_or condExprs)
                        end in
        "(" ++ combined ++ " ? " ++ mult ++ " : 1)"
    end.

Definition buildRequestRuleExpr (groups : list RequestRuleGroup) : jsstr :=
  join SEP_MUL (List.filter nonempty (map buildRuleGroupFactor groups)).

(** ** Executions *)

Definition ex_time : RequestCondition :=
  CTime {| tc_timeFunc := TF_hour; tc_timezone := "Asia/Shanghai"; tc_mode := MATCH_RANGE;
           tc_value := []; tc_rangeStart := "21"; tc_rangeEnd := "6" |}.
Definition ex_header : RequestCondition :=
  ph_cond SHeader "anthropic-beta" MATCH_CONTAINS "fast-mode".
Definition ex_param : RequestCondition := ph_cond SParam "service_tier" MATCH_EQ "fast".
Definition ex_groups : list RequestRuleGroup :=
  [ {| conditions := [ex_time; ex_header]; multiplier := "0.5" |};
    {| conditions := [ex_param]; multiplier := "2" |} ].

Example ex_build :
  buildRequestRuleExpr ex_groups
  = "((hour(\qAsia/Shanghai\q) >= 21 || hour(\qAsia/Shanghai\q) < 6) && has(header(\qanthropic-beta\q), \qfast-mode\q) ? 0.5 : 1) * (param(\qservice_tier\q) == \qfast\q ? 2 : 1)".
Proof. vm_compute. reflexivity. Qed.

Example ex_roundtrip :
  tryParseRequestRuleExpr (buildRequestRuleExpr ex_groups) = Ok (Some ex_groups).
Proof. vm_compute. reflexivity. Qed.

Example ex_split :
  splitBillingExprAndRequestRules
    (combineBillingExpr "tier(\qbase\q, p * 2.5 + c * 15)" (buildRequestRuleExpr ex_groups))
  = Ok {| billingExpr := "tier(\qbase\q, p * 2.5 + c * 15)";
          requestRuleExpr := buildRequestRuleExpr ex_groups |}.
Proof. vm_compute. reflexivity. Qed.

Example ex_param_gt :
  tryParseRequestRuleExpr (buildRequestRuleExpr
    [{| conditions := [ph_cond SParam "n" MATCH_GT "5"]; multiplier := "2" |}]) = Ok None.
Proof. vm_compute. reflexivity. Qed.

Example ex_tiers :
  parseTiersFromExpr "v1:p <= 1000 && c>2 ? tier(\qa\q, p * 1.5 + c*2) : tier(\qb\q, cr * 1e-3)"
  = [ {| pt_label := "a";
         pt_conditions := [ {| cond_var := TV_p; cond_op := OpLe; cond_value := num_of_Z 1000 |};
                            {| cond_var := TV_c; cond_op := OpGt; cond_value := num_of_Z 2 |} ];
         pt_fields := parseTierBody "p * 1.5 + c*2" |};
      {| pt_label := "b"; pt_conditions := []; pt_fields := parseTierBody "cr * 1e-3" |} ].
Proof. vm_compute. reflexivity. Qed.
