(* ===== verification/BillingRules.v ===== *)
(** * Properties of the request-rule language

    How the splitters see parentheses and separators ([balanced], [sep_free]), what
    they give for joined parts, and the texts of numeric literals. *)
From Stdlib Require Import NArith ZArith.
From stdpp Require Import list numbers.
From S2P Require Import Prelude JsString Regex JsNumber Json BillingExpr.

(** ** Parenthesis depth *)

Definition bump (d : Z) (c : N) : Z :=
  let d := if (c =? 40)%N then (d + 1)%Z else d in
  if (c =? 41)%N then (d - 1)%Z else d.

Fixpoint depth (d : Z) (s : jsstr) : Z :=
  match s with [] => d | c :: t => depth (bump d c) t end.

(** Every running depth is at least [m]. *)
Fixpoint depth_ge (m d : Z) (s : jsstr) : bool :=
  match s with
  | [] => true
  | c :: t => (m <=? bump d c)%Z && depth_ge m (bump d c) t
  end.

Definition not_paren (c : N) : bool := negb (c =? 40)%N && negb (c =? 41)%N.

(** Parentheses close what they open, and never more. *)
Definition balanced (s : jsstr) : bool := depth_ge 0 0 s && (depth 0 s =? 0)%Z.

(** At no unit of [s], read from depth [d] and followed by [k], does the
    separator start at depth zero. *)
Fixpoint sep_free (sep : jsstr) (d : Z) (s k : jsstr) : bool :=
  match s with
  | [] => true
  | c :: t =>
      negb ((bump d c =? 0)%Z && startsWith sep (s ++ k)) && sep_free sep (bump d c) t k
  end.

Lemma bump_not_paren d c : not_paren c = true → bump d c = d.
Proof. unfold not_paren, bump. intros ?; bool_prop. by rewrite H, H0. Qed.

Lemma bump_shift d e c : bump (d + e) c = (bump d c + e)%Z.
Proof. unfold bump. destruct (c =? 40)%N, (c =? 41)%N; lia. Qed.

Lemma depth_app d s t : depth d (s ++ t) = depth (depth d s) t.
Proof. revert d; induction s; intros d; simpl; auto. Qed.

Lemma depth_shift d e s : depth (d + e) s = (depth d s + e)%Z.
Proof. revert d; induction s as [|c s IH]; intros d; simpl; [done|]. by rewrite bump_shift, IH. Qed.

Lemma depth_ge_app m d s t :
  depth_ge m d (s ++ t) = depth_ge m d s && depth_ge m (depth d s) t.
Proof.
  revert d; induction s as [|c s IH]; intros d; simpl; [done|].
  by rewrite IH, andb_assoc.
Qed.

Lemma depth_ge_shift m d e s : depth_ge (m + e) (d + e) s = depth_ge m d s.
Proof.
  revert d; induction s as [|c s IH]; intros d; simpl; [done|].
  rewrite bump_shift, IH. f_equal.
  destruct (Z.leb_spec (m + e) (bump d c + e)), (Z.leb_spec m (bump d c)); lia || done.
Qed.

Lemma depth_flat d s : forallb not_paren s = true → depth d s = d.
Proof.
  revert d; induction s as [|c s IH]; intros d; simpl; [done|].
  intros ?; bool_prop. by rewrite bump_not_paren, IH.
Qed.

Lemma depth_ge_flat m d s : (m ≤ d)%Z → forallb not_paren s = true → depth_ge m d s = true.
Proof.
  intros Hm. induction s as [|c s IH]; simpl; [done|]. intros ?; bool_prop.
  - rewrite bump_not_paren by done. by apply Z.leb_le.
  - rewrite bump_not_paren by done. auto.
Qed.

(** ** Balanced texts *)

Lemma balanced_flat s : forallb not_paren s = true → balanced s = true.
Proof.
  intros H. unfold balanced. rewrite depth_flat by done.
  by rewrite depth_ge_flat by (done || lia).
Qed.

Lemma balanced_depth s d : balanced s = true → depth d s = d.
Proof.
  unfold balanced. intros ?; bool_prop. apply Z.eqb_eq in H0.
  replace d with (0 + d)%Z at 1 by lia. rewrite depth_shift, H0. lia.
Qed.

Lemma balanced_ge s d : balanced s = true → depth_ge d d s = true.
Proof.
  unfold balanced. intros ?; bool_prop.
  replace d with (0 + d)%Z by lia. by rewrite depth_ge_shift.
Qed.

Lemma balanced_app s t : balanced s = true → balanced t = true → balanced (s ++ t) = true.
Proof.
  intros Hs Ht. unfold balanced.
  rewrite depth_ge_app, depth_app, !balanced_depth, !balanced_ge by done. done.
Qed.

Lemma balanced_wrap s : balanced s = true → balanced ("(" ++ s ++ ")") = true.
Proof.
  intros Hs. unfold balanced. cbn [app]. cbn [depth_ge depth].
  change (bump 0 40) with 1%Z.
  rewrite depth_ge_app, depth_app, balanced_depth by done.
  cbn [depth depth_ge]. change (bump 1 41) with 0%Z.
  pose proof (balanced_ge s 1 Hs) as H1.
  assert (H0 : depth_ge 0 1 s = true); [|by rewrite H0].
  clear Hs. revert H1. generalize 1%Z at 2 3 as d.
  induction s as [|c s IH]; intros d; simpl; [done|].
  intros ?; bool_prop; [apply Z.leb_le in H; apply Z.leb_le; lia|auto].
Qed.

Lemma balanced_join sep ps :
  balanced sep = true → forallb balanced ps = true → balanced (join sep ps) = true.
Proof.
  intros Hs. induction ps as [|p ps IH]; [done|]. cbn [forallb]. intros ?; bool_prop.
  destruct ps; [done|]. rewrite join_cons by done. auto using balanced_app.
Qed.

#[export] Hint Resolve balanced_app balanced_wrap balanced_flat : js.

(** ** Where separators can be *)

Section Separators.
(** A separator starts with a space, like [" * "] and [" && "]. *)
Context (sep' : jsstr).
Let sep := 32%N :: sep'.

Lemma sep_free_app d s t k :
  sep_free sep d (s ++ t) k = sep_free sep d s (t ++ k) && sep_free sep (depth d s) t k.
Proof.
  revert d; induction s as [|c s IH]; intros d; [done|].
  cbn [app sep_free depth]. by rewrite IH, <- app_assoc, andb_assoc.
Qed.

(** Inside parentheses nothing separates. *)
Lemma sep_free_inside d s k : depth_ge 1 d s = true → sep_free sep d s k = true.
Proof.
  revert d; induction s as [|c s IH]; intros d; [done|].
  cbn [depth_ge sep_free]. intros ?; bool_prop; [|auto].
  apply Z.leb_le in H. by rewrite (proj2 (Z.eqb_neq (bump d c) 0)) by lia.
Qed.

Lemma sep_free_no_space d s k :
  forallb (λ c, negb (c =? 32)%N) s = true → sep_free sep d s k = true.
Proof.
  revert d; induction s as [|c s IH]; intros d; [done|].
  cbn [forallb sep_free]. intros ?; bool_prop; [|auto].
  rewrite andb_false_iff. right. apply startsWith_neq. by intros <-.
Qed.

Lemma sep_free_close s k :
  balanced s = true → sep_free sep 0 ("(" ++ s ++ ")") k = true.
Proof.
  intros Hs. rewrite sep_free_app. change (depth 0 "(") with 1%Z.
  rewrite sep_free_app, balanced_depth by done.
  rewrite (sep_free_no_space 0 "("), (sep_free_no_space 1 ")") by done.
  by rewrite sep_free_inside by by apply balanced_ge.
Qed.

(** A text that holds no separator and does not end with a unit of one. *)
Lemma sep_free_text d s k :
  includes sep s = false → (∀ a c, s = a ++ [c] → ¬ In c sep) → sep_free sep d s k = true.
Proof.
  revert d; induction s as [|c s IH]; intros d Hi Hl; [done|].
  cbn [sep_free]. bool_prop.
  - rewrite andb_false_iff. right. apply not_true_iff_false. intros Hs.
    destruct (le_lt_dec (length sep) (length (c :: s))) as [Hle|Hlt].
    + rewrite startsWith_long in Hs by done. unfold includes, indexOf in Hi.
      by rewrite Hs in Hi.
    + apply startsWith_spec in Hs as [t Ht].
      apply (f_equal (take (length (c :: s)))) in Ht.
      rewrite take_app_length, take_app_le in Ht by lia.
      destruct (exists_last (l := c :: s)) as (a & x & E); [done|].
      apply (Hl a x E). rewrite <- (take_drop (length (c :: s)) sep), <- Ht, E.
      rewrite !in_app_iff. left. right. by left.
  - apply IH; [by apply (includes_false_suffix _ [c])|].
    intros a x ->. by apply (Hl (c :: a)).
Qed.

Lemma loop_part d cur s k :
  sep_free sep d s k = true →
  splitTopLevel_loop sep 0 d cur (s ++ k)
  = splitTopLevel_loop sep 0 (depth d s) (rev s ++ cur) k.
Proof.
  revert d cur; induction s as [|c s IH]; intros d cur; [done|].
  cbn [sep_free]. intros ?; bool_prop.
  cbn [app splitTopLevel_loop depth]. fold (bump d c).
  change (c :: s ++ k) with ((c :: s) ++ k). rewrite H.
  rewrite IH by done. cbn [rev]. by rewrite <- app_assoc.
Qed.

Lemma loop_skip w d cur k :
  splitTopLevel_loop sep (length w) d cur (w ++ k) = splitTopLevel_loop sep 0 d cur k.
Proof. induction w as [|c w IH]; [done|]. simpl. apply IH. Qed.

Lemma loop_sep cur k :
  splitTopLevel_loop sep 0 0 cur (sep ++ k)
  = trim (rev cur) :: splitTopLevel_loop sep 0 0 [] k.
Proof.
  unfold sep at 2. cbn [app splitTopLevel_loop].
  change (32%N :: sep' ++ k) with (sep ++ k). rewrite startsWith_app.
  cbn [Z.eqb N.eqb Pos.eqb andb]. f_equal.
  replace (length sep - 1) with (length sep') by (unfold sep; simpl; lia).
  apply loop_skip.
Qed.

(** A part as the splitter returns it: trimmed, not empty, balanced, and with
    no separator outside parentheses, also none that would begin in it and end
    in the separator that follows. *)
Definition part_ok (s : jsstr) : bool :=
  nonempty s && trimmed s && balanced s && sep_free sep 0 s sep && sep_free sep 0 s [].

Lemma sep_free_prefix d s k : sep_free sep d s (sep ++ k) = sep_free sep d s sep.
Proof.
  revert d; induction s as [|c s IH]; intros d; [done|].
  cbn [sep_free]. rewrite IH, app_assoc, startsWith_long; [done|].
  rewrite length_app. lia.
Qed.

Lemma loop_join parts :
  parts ≠ [] → forallb part_ok parts = true →
  splitTopLevel_loop sep 0 0 [] (join sep parts) = parts.
Proof.
  intros Hne H. induction parts as [|s parts IH]; [done|].
  cbn [forallb] in H. unfold part_ok in H. bool_prop.
  destruct parts as [|s' parts].
  - cbn [join]. replace s with (s ++ []) at 1 by apply app_nil_r.
    rewrite loop_part by done. simpl. rewrite app_nil_r, rev_involutive.
    by rewrite trim_trimmed.
  - rewrite join_cons, loop_part by (done || by rewrite sep_free_prefix).
    rewrite balanced_depth, loop_sep, app_nil_r, rev_involutive by done.
    rewrite trim_trimmed by done. f_equal. by apply IH.
Qed.

(** Splitting at a separator outside parentheses undoes joining with it. *)
Lemma splitTopLevel_join parts :
  parts ≠ [] → forallb part_ok parts = true → splitTopLevel sep (join sep parts) = parts.
Proof.
  intros Hne H. unfold splitTopLevel. rewrite loop_join by done.
  apply filterb_all. revert H. apply forallb_impl. unfold part_ok.
  intros s Hs. by bool_prop.
Qed.

Lemma splitTopLevel_single s : part_ok s = true → splitTopLevel sep s = [s].
Proof.
  intros H. apply (splitTopLevel_join [s]); [done|]. cbn [forallb]. by rewrite H.
Qed.
End Separators.

(** ** Well-formed conditions *)

(** A text that reads the same inside a JSON string, without parentheses. *)
Definition plain (s : jsstr) : bool :=
  str_eqb (quote_body s) s && forallb not_paren s && forallb (in_cls true cls_quote) s.

Definition is_numeric (s : jsstr) : bool := re_test NUMERIC_LITERAL_REGEX s.

Definition is_empty (s : jsstr) : bool := negb (nonempty s).

(** A time condition the editor can write: a zone, a mode of the time source with
    its numbers, the unused fields empty. *)
Definition wf_time (c : TimeCondition) : bool :=
  nonempty (tc_timezone c) && plain (tc_timezone c) &&
  (if str_eqb (tc_mode c) MATCH_RANGE
   then is_numeric (tc_rangeStart c) && is_numeric (tc_rangeEnd c) && is_empty (tc_value c)
   else (str_eqb (tc_mode c) MATCH_EQ || str_eqb (tc_mode c) MATCH_GTE
         || str_eqb (tc_mode c) MATCH_LT)
        && is_numeric (tc_value c) && is_empty (tc_rangeStart c) && is_empty (tc_rangeEnd c)).

(** A value the editor can write: trimmed, 16-bit units, on one line. *)
Definition wf_value (mode v : jsstr) : bool :=
  trimmed v && units_ok v && forallb (in_cls true cls_newline) (buildExprLiteral mode v).

Definition is_cmp_mode (mode : jsstr) : bool :=
  str_eqb mode MATCH_GT || str_eqb mode MATCH_GTE || str_eqb mode MATCH_LT
  || str_eqb mode MATCH_LTE.

Definition wf_ph (c : ParamHeaderCondition) : bool :=
  nonempty (ph_path c) && trimmed (ph_path c) && plain (ph_path c) &&
  (if str_eqb (ph_mode c) MATCH_EXISTS then is_empty (ph_value c)
   else if str_eqb (ph_mode c) MATCH_CONTAINS then wf_value MATCH_CONTAINS (ph_value c)
   else if str_eqb (ph_mode c) MATCH_EQ then wf_value MATCH_EQ (ph_value c)
   else match ph_source c with
        | SParam => is_cmp_mode (ph_mode c) && is_numeric (ph_value c)
        | SHeader => false
        end).

Definition wf_cond (c : RequestCondition) : bool :=
  match c with CTime t => wf_time t | CPH p => wf_ph p end.

(** ** Number literals *)

Lemma over_cls_num_numeric :
  over (in_cls false cls_num)
    (rseq [ropt (RLit "-");
           RAlt (rseq [rplus rdigit; ropt (RLit "."); RStar rdigit])
                (rseq [RLit "."; rplus rdigit]);
           ropt (rseq [RCls false [(101, 101); (69, 69)]%N;
                       ropt (RCls false [(43, 43); (45, 45)]%N); rplus rdigit])]).
Proof.
  assert (Hd : ∀ x, in_cls false cls_digit x = true → in_cls false cls_num x = true).
  { intros x. unfold in_cls, cls_digit, cls_num. simpl. rewrite !orb_true_iff. tauto. }
  assert (He : ∀ x, in_cls false [(101, 101); (69, 69)]%N x = true → in_cls false cls_num x = true).
  { intros x. unfold in_cls, cls_num. simpl. rewrite !orb_true_iff. tauto. }
  assert (Hs : ∀ x, in_cls false [(43, 43); (45, 45)]%N x = true → in_cls false cls_num x = true).
  { intros x. unfold in_cls, cls_num. simpl. rewrite !orb_true_iff. tauto. }
  simpl. repeat split; auto.
Qed.

(** The literal pattern as a body between its anchors. *)
Lemma numeric_regex_body s :
  re_test NUMERIC_LITERAL_REGEX s = true → forallb (in_cls false cls_num) s = true.
Proof.
  intros H. eapply re_test_over; [apply over_cls_num_numeric|].
  rewrite <- H. unfold re_test, NUMERIC_LITERAL_REGEX.
  cbn [rseq]. rewrite !re_match_start, rmatch_seq_assoc.
  rewrite (rmatch_seq (ropt (RLit "-"))).
  by erewrite flat_map_ext by (intros; apply rmatch_seq_assoc).
Qed.

Lemma is_numeric_spec s :
  is_numeric s = true → s ≠ [] ∧ forallb (in_cls false cls_num) s = true.
Proof.
  intros H. split; [by intros ->|]. by apply numeric_regex_body.
Qed.

Lemma cls_num_range c : in_cls false cls_num c = true → (43 ≤ c ≤ 101)%N.
Proof.
  unfold in_cls, cls_num. simpl. rewrite !orb_true_iff, !andb_true_iff, !N.leb_le.
  intros H. destruct_or!; lia || done.
Qed.

Lemma numeric_trimmed s : is_numeric s = true → trimmed s = true.
Proof.
  intros [_ H]%is_numeric_spec. apply trimmed_no_space. revert H. apply forallb_impl.
  intros c Hc%cls_num_range. rewrite is_space_visible by lia. done.
Qed.
