(* ===== verification/RuleRoundtrip.v ===== *)
(** * Round trips between the rule builder and the rule parser

    [buildRequestConditionExpr] and [tryParseRequestCondition] on one condition,
    [buildRequestRuleExpr] and [tryParseRequestRuleExpr] on a list of groups, and
    [combineBillingExpr] and [splitBillingExprAndRequestRules] on the whole
    billing expression. *)
From Stdlib Require Import NArith ZArith.
From stdpp Require Import list numbers.
From S2P Require Import Prelude JsString Regex JsNumber Json BillingExpr BillingRules.

(** ** Steps of the patterns on built texts *)

Lemma plain_spec s :
  plain s = true →
  quote_body s = s ∧ forallb not_paren s = true ∧ forallb (in_cls true cls_quote) s = true.
Proof. unfold plain. intros ?; bool_prop. by apply str_eqb_eq in H. Qed.

Lemma stringify_plain s : plain s = true → JSON_stringify_str s = 34%N :: s ++ [34%N].
Proof. intros (E & _ & _)%plain_spec. unfold JSON_stringify_str. by rewrite E. Qed.

Lemma time_func_step f r p t k :
  rmatch (RSeq rtime_func r) (MS p (timeFunc_str f ++ t) k)
  = rmatch r (MS (next_prev p (timeFunc_str f)) t ((1, timeFunc_str f) :: k)).
Proof.
  unfold rtime_func. rewrite <- (map_map timeFunc_str RLit).
  rewrite (rmatch_group_lits_one 1 _ (timeFunc_str f)) by (done || by destruct f).
  by rewrite drop_app_length.
Qed.

Lemma time_func_fail r p s k :
  List.filter (λ w, startsWith w s) (map timeFunc_str TIME_FUNCS) = [] →
  rmatch (RSeq rtime_func r) (MS p s k) = [].
Proof.
  intros E. unfold rtime_func. rewrite <- (map_map timeFunc_str RLit).
  by apply rmatch_group_lits_fail.
Qed.

(** A run without quotes, up to the closing quote. *)
Lemma quoted_step i r p w t k :
  rejects (in_cls true cls_quote) r → w ≠ [] → forallb (in_cls true cls_quote) w = true →
  rmatch (RSeq (RGroup i (rplus rnotquote)) r) (MS p (w ++ 34%N :: t) k)
  = rmatch r (MS (next_prev p w) (34%N :: t) ((i, w) :: k)).
Proof. intros. by apply rmatch_group_plus_seq. Qed.

(** A number up to a space. *)
Lemma num_step i r p w t k :
  rejects (in_cls false cls_num) r → is_numeric w = true →
  rmatch (RSeq (RGroup i rnum) r) (MS p (w ++ 32%N :: t) k)
  = rmatch r (MS (next_prev p w) (32%N :: t) ((i, w) :: k)).
Proof. intros ? [??]%is_numeric_spec. by apply rmatch_group_plus_seq. Qed.

(** A number up to a closing parenthesis. *)
Lemma num_step_paren i r p w t k :
  rejects (in_cls false cls_num) r → is_numeric w = true →
  rmatch (RSeq (RGroup i rnum) r) (MS p (w ++ 41%N :: t) k)
  = rmatch r (MS (next_prev p w) (41%N :: t) ((i, w) :: k)).
Proof. intros ? [??]%is_numeric_spec. by apply rmatch_group_plus_seq. Qed.

(** A number up to the end of the text. *)
Lemma num_step_end i r p w k :
  rejects (in_cls false cls_num) r → is_numeric w = true →
  rmatch (RSeq (RGroup i rnum) r) (MS p w k)
  = rmatch r (MS (next_prev p w) [] ((i, w) :: k)).
Proof. intros ? [??]%is_numeric_spec. by apply rmatch_group_plus_seq_nil. Qed.

Ltac re_plain := rewrite quoted_step by (auto with js || done).
Ltac re_num :=
  first [ rewrite num_step by (auto with js || done)
        | rewrite num_step_paren by (auto with js || done)
        | rewrite num_step_end by (auto with js || done) ].

(** ** Time conditions *)

Definition fn_text (f : TimeFunc) (tz : jsstr) : jsstr := timeFunc_str f ++ "(\q" ++ tz ++ "\q)".

Section TimeTexts.
Context (f : TimeFunc) (tz : jsstr).
Hypothesis tz_ne : tz ≠ [].
Hypothesis tz_ok : forallb (in_cls true cls_quote) tz = true.

Definition range_text (a b rest : jsstr) : jsstr :=
  fn_text f tz ++ " >= " ++ a ++ " || " ++ fn_text f tz ++ " < " ++ b ++ rest.

(** The two range patterns on a range, bare and in parentheses. *)
Lemma range_matches a b :
  is_numeric a = true → is_numeric b = true →
  matches time_range_regex (range_text a b [])
    [(4, b); (3, a); (2, tz); (1, timeFunc_str f)].
Proof.
  intros Ha Hb. eapply matches_start. unfold range_text, fn_text, time_range_core.
  text_norm. rewrite (app_nil_r b). cbn [rseq].
  rewrite time_func_step. re_lit. re_plain. re_lit. re_num. re_lit.
  rewrite rmatch_backref_seq by done. re_lit.
  rewrite rmatch_backref_seq by done. re_lit. re_num. reflexivity.
Qed.

Lemma range_paren_matches a b :
  is_numeric a = true → is_numeric b = true →
  matches time_range_paren_regex ("(" ++ range_text a b ")")
    [(4, b); (3, a); (2, tz); (1, timeFunc_str f)].
Proof.
  intros Ha Hb. eapply matches_start. unfold range_text, fn_text, time_range_core.
  text_norm. cbn [rseq]. re_lit.
  rewrite time_func_step. re_lit. re_plain. re_lit. re_num. re_lit.
  rewrite rmatch_backref_seq by done. re_lit.
  rewrite rmatch_backref_seq by done. re_lit. re_num. re_lit. reflexivity.
Qed.

(** A comparison: the bare range pattern fails after the number or at the
    operator, the parenthesised one at once. *)
Definition cmp_text (op v : jsstr) : jsstr := fn_text f tz ++ " " ++ op ++ " " ++ v.

Definition time_ops : list jsstr := ["=="; ">="; "<"].

Lemma cmp_not_range op v :
  In op time_ops → is_numeric v = true →
  re_match time_range_regex (cmp_text op v) = None.
Proof.
  intros Hop Hv. apply re_match_none. unfold cmp_text, fn_text, time_range_core.
  text_norm. cbn [rseq]. rewrite time_func_step. re_lit. re_plain.
  destruct Hop as [<-|[<-|[<-|[]]]]; cbn [app]; re_lit; [done| |done].
  re_num. by re_lit.
Qed.

Lemma cmp_not_paren op v : re_match time_range_paren_regex (cmp_text op v) = None.
Proof.
  apply re_match_none. unfold cmp_text, fn_text. text_norm. apply rmatch_lit_seq_fail.
  by destruct f.
Qed.

Lemma cmp_matches op v :
  In op time_ops → is_numeric v = true →
  matches time_cmp_regex (cmp_text op v) [(4, v); (3, op); (2, tz); (1, timeFunc_str f)].
Proof.
  intros Hop Hv. eapply matches_start. unfold cmp_text, fn_text, time_cmp_regex.
  text_norm. cbn [rseq]. rewrite time_func_step. re_lit. re_plain. re_lit.
  rewrite (rmatch_group_lits_one 3 time_ops op);
    [|done|by destruct Hop as [<-|[<-|[<-|[]]]]].
  rewrite drop_app_length. re_lit. re_num. reflexivity.
Qed.
End TimeTexts.

(** What the time parser makes of the texts of the builder. *)
Lemma timeFunc_of_to f : timeFunc_of_str (timeFunc_str f) = Some f.
Proof. by destruct f. Qed.

Lemma normalize_time c :
  wf_time c = true → normalizeCondition (partial_time c) = CTime c.
Proof.
  unfold wf_time. intros ?; bool_prop.
  assert (Hm : mode_or SOURCE_TIME (Some (tc_mode c)) MATCH_GTE = tc_mode c).
  { destruct (str_eqb_spec (tc_mode c) MATCH_RANGE) as [->|]; [done|]. bool_prop.
    rewrite !orb_true_iff, !str_eqb_eq in H0. by destruct H0 as [[->| ->]| ->]. }
  unfold normalizeCondition. cbn [opt_eqb pc_source partial_time].
  rewrite str_eqb_refl. cbn [partial_time pc_timeFunc pc_timezone pc_mode pc_value
    pc_rangeStart pc_rangeEnd]. rewrite Hm. cbn [mbind option_bind default].
  rewrite timeFunc_of_to. unfold str_or. rewrite H. by destruct c.
Qed.

Lemma fn_text_eq f tz : plain tz = true →
  timeFunc_str f ++ "(" ++ JSON_stringify_str tz ++ ")" = fn_text f tz.
Proof. intros H. rewrite stringify_plain by done. unfold fn_text. by text_norm. Qed.

Lemma numeric_trim s : is_numeric s = true → trim s = s.
Proof. auto using numeric_trimmed with js. Qed.

Lemma is_empty_spec s : is_empty s = true → s = [].
Proof. by destruct s. Qed.

(** The text the builder writes for a time condition. *)
Definition time_text (c : TimeCondition) : jsstr :=
  if str_eqb (tc_mode c) MATCH_RANGE
  then range_text (tc_timeFunc c) (tc_timezone c) (tc_rangeStart c) (tc_rangeEnd c) []
  else cmp_text (tc_timeFunc c) (tc_timezone c) (time_mode_op (tc_mode c)) (tc_value c).

Lemma build_time c : wf_time c = true → buildTimeConditionExpr c = time_text c.
Proof.
  intros Hwf. unfold buildTimeConditionExpr, time_text. rewrite normalize_time by done.
  unfold wf_time in Hwf. bool_prop. rewrite fn_text_eq by done.
  destruct (str_eqb (tc_mode c) MATCH_RANGE); bool_prop.
  - rewrite !numeric_trim by done. unfold is_numeric in *. use_bools. cbn [negb orb].
    unfold range_text. by rewrite app_nil_r.
  - rewrite numeric_trim by done. unfold is_numeric in *. by use_bools.
Qed.

Lemma not_time s :
  List.filter (λ w, startsWith w s) (map timeFunc_str TIME_FUNCS) = [] →
  startsWith "(" s = false → tryParseTimeCondition s = None.
Proof.
  intros Hf Hp. unfold tryParseTimeCondition, time_range_regex, time_range_paren_regex,
    time_cmp_regex. cbn [rseq].
  rewrite !re_match_none; [done|..]; try by apply time_func_fail.
  by apply rmatch_lit_seq_fail.
Qed.

Lemma range_condition_caps m f tz a b :
  m_caps m = [(4, b); (3, a); (2, tz); (1, timeFunc_str f)] →
  range_condition m
  = Some (CTime {| tc_timeFunc := f; tc_timezone := tz; tc_mode := MATCH_RANGE; tc_value := [];
                   tc_rangeStart := a; tc_rangeEnd := b |}).
Proof.
  intros E. unfold range_condition, grp, grp_opt. rewrite E.
  cbn [cap_lookup Nat.eqb from_option id]. by rewrite timeFunc_of_to.
Qed.

(** Parsing the text of a time condition gives the condition back; in
    parentheses too when it is a range. *)
Lemma parse_time_text c :
  wf_time c = true → tryParseTimeCondition (time_text c) = Some (CTime c).
Proof.
  unfold wf_time, time_text. intros ?; bool_prop. apply plain_spec in H1 as (_ & _ & Hq).
  apply nonempty_true in H. destruct (str_eqb_spec (tc_mode c) MATCH_RANGE) as [Em|Em]; bool_prop.
  - unfold tryParseTimeCondition.
    destruct (range_matches (tc_timeFunc c) (tc_timezone c) H Hq (tc_rangeStart c) (tc_rangeEnd c))
      as (m & -> & Hm); [done..|].
    rewrite (range_condition_caps _ _ _ _ _ Hm). apply is_empty_spec in H1.
    destruct c; simpl in *. by subst.
  - unfold tryParseTimeCondition.
    rewrite !orb_true_iff, !str_eqb_eq in H0.
    assert (Hop : In (time_mode_op (tc_mode c)) time_ops).
    { destruct H0 as [[->| ->]| ->]; simpl; auto. }
    rewrite cmp_not_range, cmp_not_paren by done.
    destruct (cmp_matches (tc_timeFunc c) (tc_timezone c) H Hq _ (tc_value c) Hop) as (m & -> & Hm);
      [done|].
    unfold grp, grp_opt. rewrite Hm. cbn [cap_lookup Nat.eqb from_option id].
    rewrite timeFunc_of_to. cbn [mbind option_bind].
    apply is_empty_spec in H1, H2. destruct c; simpl in *. subst.
    by destruct H0 as [[->| ->]| ->].
Qed.

Lemma parse_time_text_paren c :
  wf_time c = true → tc_mode c = MATCH_RANGE →
  tryParseTimeCondition ("(" ++ time_text c ++ ")") = Some (CTime c).
Proof.
  unfold wf_time, time_text. intros ? Em; rewrite Em in *; bool_prop.
  apply plain_spec in H1 as (_ & _ & Hq). apply nonempty_true in H. simpl in H0; bool_prop.
  rewrite str_eqb_refl. unfold tryParseTimeCondition.
  rewrite (re_match_none (time_range_core [REnd]));
    [|by apply time_func_fail].
  destruct (range_paren_matches (tc_timeFunc c) (tc_timezone c) H Hq (tc_rangeStart c) (tc_rangeEnd c))
    as (m & Hre & Hm); [done..|].
  replace (range_text _ _ _ _ [] ++ ")")
    with (range_text (tc_timeFunc c) (tc_timezone c) (tc_rangeStart c) (tc_rangeEnd c) ")")
    by (unfold range_text; rewrite app_nil_r, <- !app_assoc; done).
  rewrite Hre, (range_condition_caps _ _ _ _ _ Hm). apply is_empty_spec in H1.
  destruct c; simpl in *. by subst.
Qed.

(** ** Literals *)

Lemma stringify_trimmed s : trimmed (JSON_stringify_str s) = true.
Proof. by apply trimmed_ends. Qed.

Lemma parse_literal v :
  trimmed v = true → units_ok v = true → parseExprLiteral (buildExprLiteral MATCH_EQ v) = JStr v.
Proof.
  intros Ht Hu. unfold buildExprLiteral. rewrite trim_trimmed by done.
  change (str_eqb MATCH_EQ MATCH_CONTAINS) with false. cbn iota.
  destruct (str_eqb v lit_true || str_eqb v lit_false) eqn:Eb;
    [|destruct (re_test NUMERIC_LITERAL_REGEX v) eqn:En].
  - unfold parseExprLiteral. by rewrite trim_trimmed, Eb.
  - unfold parseExprLiteral. by rewrite trim_trimmed, Eb, En.
  - unfold parseExprLiteral. rewrite trim_trimmed by apply stringify_trimmed.
    rewrite JSON_parse_stringify_str by done.
    destruct (re_test NUMERIC_LITERAL_REGEX (JSON_stringify_str v)) eqn:E; [|done].
    apply numeric_regex_body in E. done.
Qed.

Lemma quoted_body_app s t : quoted_body s → quoted_body t → quoted_body (s ++ t).
Proof. intros Hs Ht. induction Hs; cbn [app]; [done| |]; by constructor. Qed.

Lemma quoted_unicode_escape c : (c < 65536)%N → quoted_body (unicode_escape c).
Proof.
  intros Hc. unfold unicode_escape, hex4. apply qb_escape; [done|].
  assert (Hh : ∀ d, (d < 16)%N → hex_digit d ≠ 34%N ∧ hex_digit d ≠ 92%N).
  { intros d Hd. unfold hex_digit. destruct (N.ltb_spec d 10); lia. }
  assert (Hm : ∀ n, (n mod 16 < 16)%N) by (intros; apply N.mod_lt; lia).
  assert (H1 : (c / 4096 < 16)%N) by (apply N.Div0.div_lt_upper_bound; lia).
  repeat (apply qb_plain; [apply Hh; done..|]). constructor.
Qed.

Lemma quoted_escape_unit c : (c < 65536)%N → quoted_body (escape_unit c).
Proof.
  intros Hc. unfold escape_unit.
  repeat match goal with
  | |- context [(c =? ?n)%N] => destruct (N.eqb_spec c n); [by apply qb_escape; [|constructor]|]
  end.
  destruct (N.ltb_spec c 32); [by apply quoted_unicode_escape|].
  by repeat constructor.
Qed.

(** What [JSON.stringify] writes between the quotes is a quoted body. *)
Lemma quoted_quote_body s : units_ok s = true → quoted_body (quote_body s).
Proof.
  remember (length s) as n eqn:Hn. revert s Hn.
  induction (lt_wf n) as [n _ IH]. intros s -> Hs.
  destruct s as [|c s]; [constructor|].
  unfold units_ok in Hs. simpl in Hs. bool_prop. apply N.ltb_lt in H.
  assert (IHs : quoted_body (quote_body s)).
  { eapply IH; [|reflexivity|done]. simpl. lia. }
  cbn [quote_body]. destruct (is_high c) eqn:Eh; [destruct s as [|d s]|destruct (is_low c)].
  - by apply quoted_unicode_escape.
  - destruct (is_low d) eqn:Ed.
    + unfold is_high, is_low in *. bool_prop. rewrite !N.leb_le in *.
      cbn [forallb] in *. bool_prop.
      apply qb_plain; [lia..|]. apply qb_plain; [lia..|].
      eapply IH; [|reflexivity|done]. simpl. lia.
    + by apply quoted_body_app; [apply quoted_unicode_escape|].
  - by apply quoted_body_app; [apply quoted_unicode_escape|].
  - by apply quoted_body_app; [apply quoted_escape_unit|].
Qed.

(** ** Parameter and header conditions *)

Definition src_text (s : PHSource) (path : jsstr) : jsstr := phSource_str s ++ "(\q" ++ path ++ "\q)".

Definition cmp_ops : list jsstr := [">"; ">="; "<"; "<="].

Lemma cmp_op_step op r p t k :
  In op cmp_ops →
  rmatch (RSeq (RGroup 3 (ralt (map RLit cmp_ops))) (RSeq (RLit " ") r)) (MS p (op ++ 32%N :: t) k)
  = rmatch r (MS (Some 32%N) t ((3, op) :: k)).
Proof.
  intros Hop. rewrite rmatch_group_lits by done.
  destruct Hop as [<-|[<-|[<-|[<-|[]]]]]; cbn [List.filter startsWith app cmp_ops N.eqb Pos.eqb andb];
    cbn [flat_map]; rewrite ?app_nil_r.
  - by erewrite rmatch_lit_seq_eq by reflexivity.
  - rewrite rmatch_lit_seq_fail by reflexivity. by erewrite rmatch_lit_seq_eq by reflexivity.
  - by erewrite rmatch_lit_seq_eq by reflexivity.
  - rewrite rmatch_lit_seq_fail by reflexivity. by erewrite rmatch_lit_seq_eq by reflexivity.
Qed.

Section PathTexts.
Context (path : jsstr).
Hypothesis path_ne : path ≠ [].
Hypothesis path_ok : forallb (in_cls true cls_quote) path = true.

Ltac start := first [apply re_match_none | eapply matches_start]; cbn [rseq];
              unfold src_text; text_norm.

Definition exists_text (s : PHSource) : jsstr :=
  match s with
  | SHeader => src_text SHeader path ++ " != \q\q"
  | SParam => src_text SParam path ++ " != nil"
  end.

Lemma parse_exists s :
  tryParseRequestCondition (exists_text s) = Ok (Some (ph_cond s path MATCH_EXISTS [])).
Proof.
  unfold tryParseRequestCondition. rewrite not_time by by destruct s.
  destruct s; cbn [exists_text].
  - assert (F : re_match header_exists_regex (src_text SParam path ++ " != nil") = None)
      by (start; by re_lit).
    rewrite F.
    assert (M : matches param_exists_regex (src_text SParam path ++ " != nil") [(1, path)]).
    { start. re_lit. re_plain. re_lit. reflexivity. }
    destruct M as (m & -> & Hm). unfold grp, grp_opt. by rewrite Hm.
  - assert (M : matches header_exists_regex (src_text SHeader path ++ " != \q\q") [(1, path)]).
    { start. re_lit. re_plain. re_lit. reflexivity. }
    destruct M as (m & -> & Hm). unfold grp, grp_opt. by rewrite Hm.
Qed.

Definition has_text (s : PHSource) (v : jsstr) : jsstr :=
  "has(" ++ src_text s path ++ ", " ++ JSON_stringify_str v ++ ")".

(** The value of a [contains] condition is read back by [JSON.parse]. *)
Lemma contains_cond_spec s v :
  units_ok v = true →
  contains_cond s path (JSON_stringify_str v) = Ok (Some (ph_cond s path MATCH_CONTAINS v)).
Proof. intros Hv. unfold contains_cond. by rewrite JSON_parse_stringify_str. Qed.

Lemma parse_header_contains v :
  units_ok v = true →
  tryParseRequestCondition (has_text SHeader v)
  = Ok (Some (ph_cond SHeader path MATCH_CONTAINS v)).
Proof.
  intros Hv. unfold tryParseRequestCondition. rewrite not_time by done.
  assert (F : re_match header_exists_regex (has_text SHeader v) = None
              ∧ re_match param_exists_regex (has_text SHeader v) = None).
  { unfold has_text. split; start; by re_lit. }
  destruct F as [-> ->].
  assert (M : matches header_contains_regex (has_text SHeader v)
                [(2, JSON_stringify_str v); (1, path)]).
  { unfold has_text, JSON_stringify_str. start. re_lit. re_plain. re_lit.
    rewrite rmatch_group_quoted_seq by by apply quoted_quote_body. re_lit. reflexivity. }
  destruct M as (m & -> & Hm). unfold grp, grp_opt. rewrite Hm.
  cbn [cap_lookup Nat.eqb from_option id]. by apply contains_cond_spec.
Qed.

(** The parameter forms with a null check, on their own. *)
Definition param_contains_text (v : jsstr) : jsstr :=
  src_text SParam path ++ " != nil && " ++ has_text SParam v.

Definition param_cmp_text (op v : jsstr) : jsstr :=
  src_text SParam path ++ " != nil && " ++ src_text SParam path ++ " " ++ op ++ " " ++ v.

Lemma not_exists_param t :
  re_match header_exists_regex (src_text SParam path ++ " != nil && " ++ t) = None
  ∧ re_match param_exists_regex (src_text SParam path ++ " != nil && " ++ t) = None
  ∧ re_match header_contains_regex (src_text SParam path ++ " != nil && " ++ t) = None.
Proof.
  split_and!; start; [by re_lit| |by re_lit]. re_lit. re_plain. re_lit. reflexivity.
Qed.

Lemma parse_param_contains v :
  units_ok v = true →
  tryParseRequestCondition (param_contains_text v)
  = Ok (Some (ph_cond SParam path MATCH_CONTAINS v)).
Proof.
  intros Hv. unfold tryParseRequestCondition. rewrite not_time by done.
  unfold param_contains_text.
  destruct (not_exists_param (has_text SParam v)) as (-> & -> & ->).
  assert (M : matches param_contains_regex (param_contains_text v)
                [(3, JSON_stringify_str v); (2, path); (1, path)]).
  { unfold param_contains_text, has_text, JSON_stringify_str. start.
    re_lit. re_plain. re_lit. re_plain. re_lit.
    rewrite rmatch_group_quoted_seq by by apply quoted_quote_body. re_lit. reflexivity. }
  unfold tryParse_param_contains. destruct M as (m & Hre & Hm).
  unfold param_contains_text in Hre. rewrite Hre. unfold grp, grp_opt. rewrite Hm.
  cbn [cap_lookup Nat.eqb from_option id]. rewrite str_eqb_refl. by apply contains_cond_spec.
Qed.

Lemma parse_param_cmp op v :
  In op cmp_ops → is_numeric v = true →
  tryParseRequestCondition (param_cmp_text op v)
  = Ok (Some (ph_cond SParam path (cmp_op_mode op) v)).
Proof.
  intros Hop Hv. unfold tryParseRequestCondition. rewrite not_time by done.
  unfold param_cmp_text.
  destruct (not_exists_param (src_text SParam path ++ " " ++ op ++ " " ++ v)) as (-> & -> & ->).
  assert (F : re_match param_contains_regex (param_cmp_text op v) = None).
  { unfold param_cmp_text. start. re_lit. re_plain. by re_lit. }
  assert (M : matches param_cmp_regex (param_cmp_text op v)
                [(4, v); (3, op); (2, path); (1, path)]).
  { unfold param_cmp_text. start. re_lit. re_plain. re_lit. re_plain. re_lit.
    rewrite cmp_op_step by done. re_num. reflexivity. }
  unfold tryParse_param_contains, tryParse_param_cmp. destruct M as (m & Hre & Hm).
  unfold param_cmp_text in *. rewrite F, Hre. unfold grp, grp_opt. rewrite Hm.
  cbn [cap_lookup Nat.eqb from_option id]. by rewrite str_eqb_refl.
Qed.

Definition eq_text (s : PHSource) (v : jsstr) : jsstr :=
  src_text s path ++ " == " ++ buildExprLiteral MATCH_EQ v.

Lemma build_literal_ne v : buildExprLiteral MATCH_EQ v ≠ [].
Proof.
  unfold buildExprLiteral. change (str_eqb MATCH_EQ MATCH_CONTAINS) with false. cbn iota.
  destruct (str_eqb (trim v) lit_true || _) eqn:Eb; [by intros E; rewrite E in Eb|].
  destruct (re_test _ (trim v)) eqn:En; [|done]. intros E. by rewrite E in En.
Qed.

Lemma parse_eq s v :
  wf_value MATCH_EQ v = true →
  tryParseRequestCondition (eq_text s v) = Ok (Some (ph_cond s path MATCH_EQ v)).
Proof.
  unfold wf_value. intros ?; bool_prop.
  unfold tryParseRequestCondition. rewrite not_time by by destruct s.
  assert (F : re_match header_exists_regex (eq_text s v) = None
              ∧ re_match param_exists_regex (eq_text s v) = None
              ∧ re_match header_contains_regex (eq_text s v) = None
              ∧ re_match param_contains_regex (eq_text s v) = None
              ∧ re_match param_cmp_regex (eq_text s v) = None).
  { unfold eq_text. destruct s; split_and!; start; re_lit; try done; re_plain; by re_lit. }
  destruct F as (-> & -> & -> & F1 & F2).
  unfold tryParse_param_contains, tryParse_param_cmp, tryParse_eq. rewrite F1, F2.
  assert (M : matches eq_regex (eq_text s v)
                [(3, buildExprLiteral MATCH_EQ v); (2, path); (1, phSource_str s)]).
  { unfold eq_text. start.
    rewrite (rmatch_group_lits_one 1 ["param"; "header"] (phSource_str s)) by by destruct s.
    rewrite drop_app_length. re_lit. re_plain. re_lit. unfold rdot.
    rewrite rmatch_group_plus_seq_nil by (auto using build_literal_ne with js).
    reflexivity. }
  destruct M as (m & -> & Hm). unfold grp, grp_opt. rewrite Hm.
  cbn [cap_lookup Nat.eqb from_option id]. rewrite parse_literal by done.
  by destruct s.
Qed.
End PathTexts.

(** ** The texts of the builder *)

(** What [buildRequestConditionExpr] writes for a well-formed condition. *)
Definition ph_text (c : ParamHeaderCondition) : jsstr :=
  if str_eqb (ph_mode c) MATCH_EXISTS then exists_text (ph_path c) (ph_source c)
  else if str_eqb (ph_mode c) MATCH_CONTAINS then
    match ph_source c with
    | SHeader => has_text (ph_path c) SHeader (ph_value c)
    | SParam => param_contains_text (ph_path c) (ph_value c)
    end
  else if str_eqb (ph_mode c) MATCH_EQ then eq_text (ph_path c) (ph_source c) (ph_value c)
  else param_cmp_text (ph_path c) (mode_cmp_op (ph_mode c)) (ph_value c).

Definition cond_text (c : RequestCondition) : jsstr :=
  match c with CTime t => time_text t | CPH p => ph_text p end.

Lemma cmp_mode_spec m : is_cmp_mode m = true → m = MATCH_GT ∨ m = MATCH_GTE ∨ m = MATCH_LT ∨ m = MATCH_LTE.
Proof. unfold is_cmp_mode. rewrite !orb_true_iff, !str_eqb_eq. tauto. Qed.

Lemma normalize_ph c : wf_ph c = true → normalizeCondition (partial_ph c) = CPH c.
Proof.
  unfold wf_ph. intros ?; bool_prop.
  assert (Hm : mode_or (phSource_str (ph_source c)) (Some (ph_mode c)) MATCH_EQ = ph_mode c).
  { destruct (str_eqb_spec (ph_mode c) MATCH_EXISTS) as [->|]; [by destruct (ph_source c)|].
    destruct (str_eqb_spec (ph_mode c) MATCH_CONTAINS) as [->|]; [by destruct (ph_source c)|].
    destruct (str_eqb_spec (ph_mode c) MATCH_EQ) as [->|]; [by destruct (ph_source c)|].
    destruct (ph_source c); [|done]. bool_prop.
    by destruct (cmp_mode_spec _ H0) as [->|[->|[->| ->]]]. }
  unfold normalizeCondition.
  change (opt_eqb (pc_source (partial_ph c)) SOURCE_TIME)
    with (str_eqb (phSource_str (ph_source c)) SOURCE_TIME).
  change (opt_eqb (pc_source (partial_ph c)) SOURCE_HEADER)
    with (str_eqb (phSource_str (ph_source c)) SOURCE_HEADER).
  replace (str_eqb (phSource_str (ph_source c)) SOURCE_TIME) with false by by destruct (ph_source c).
  replace (if str_eqb (phSource_str (ph_source c)) SOURCE_HEADER then SHeader else SParam)
    with (ph_source c) by by destruct (ph_source c).
  cbn [partial_ph pc_path pc_mode pc_value]. rewrite Hm. unfold str_or. rewrite H.
  by destruct c.
Qed.

Lemma src_text_eq s path : plain path = true →
  phSource_str s ++ "(" ++ JSON_stringify_str path ++ ")" = src_text s path.
Proof. intros H. rewrite stringify_plain by done. unfold src_text. by text_norm. Qed.

Lemma build_ph c : wf_ph c = true → buildPHConditionExpr c = ph_text c.
Proof.
  unfold wf_ph, buildPHConditionExpr, ph_text. intros ?; bool_prop.
  rewrite (trim_trimmed (ph_path c)) by done. rewrite H, src_text_eq by done.
  destruct (str_eqb_spec (ph_mode c) MATCH_EXISTS) as [E1|E1]; [by destruct (ph_source c)|].
  destruct (str_eqb_spec (ph_mode c) MATCH_CONTAINS) as [E2|E2].
  { rewrite E2. unfold wf_value in H0. bool_prop.
    assert (E : buildExprLiteral MATCH_CONTAINS (ph_value c) = JSON_stringify_str (ph_value c)).
    { unfold buildExprLiteral. by rewrite trim_trimmed. }
    rewrite E. by destruct (ph_source c). }
  destruct (str_eqb_spec (ph_mode c) MATCH_EQ) as [E3|E3]; [by rewrite E3|].
  destruct (ph_source c); [|done]. bool_prop. fold (is_cmp_mode (ph_mode c)).
  rewrite H0, numeric_trim by done. unfold is_numeric in *. use_bools. done.
Qed.

Lemma build_cond c : wf_cond c = true → buildRequestConditionExpr c = cond_text c.
Proof.
  destruct c as [c|c]; cbn [wf_cond buildRequestConditionExpr cond_text].
  - apply build_time.
  - intros H. rewrite normalize_ph by done. by apply build_ph.
Qed.

Lemma parse_ph_text c :
  wf_ph c = true → tryParseRequestCondition (ph_text c) = Ok (Some (CPH c)).
Proof.
  unfold wf_ph, ph_text. intros ?; bool_prop. apply plain_spec in H1 as (_ & _ & Hq).
  apply nonempty_true in H.
  destruct (str_eqb_spec (ph_mode c) MATCH_EXISTS) as [E|E].
  { rewrite parse_exists by done. apply is_empty_spec in H0.
    destruct c; simpl in *; by subst. }
  destruct (str_eqb_spec (ph_mode c) MATCH_CONTAINS) as [E1|E1].
  { unfold wf_value in H0. bool_prop. destruct (ph_source c) eqn:Es.
    - rewrite parse_param_contains by done. destruct c; simpl in *; by subst.
    - rewrite parse_header_contains by done. destruct c; simpl in *; by subst. }
  destruct (str_eqb_spec (ph_mode c) MATCH_EQ) as [E2|E2].
  { rewrite parse_eq by done. destruct c; simpl in *; by subst. }
  destruct (ph_source c) eqn:Es; [|done]. bool_prop.
  pose proof (cmp_mode_spec _ H0) as Hc.
  rewrite parse_param_cmp;
    [|done|done|destruct Hc as [->|[->|[->| ->]]]; simpl; auto|done].
  destruct c; simpl in *; subst. by destruct Hc as [->|[->|[->| ->]]].
Qed.

Lemma parse_cond_text c :
  wf_cond c = true → tryParseRequestCondition (cond_text c) = Ok (Some c).
Proof.
  destruct c as [c|c]; cbn [wf_cond cond_text].
  - intros H. unfold tryParseRequestCondition. by rewrite parse_time_text.
  - apply parse_ph_text.
Qed.

(** ** Rule groups *)

Definition is_range (c : RequestCondition) : bool :=
  match c with CTime t => str_eqb (tc_mode t) MATCH_RANGE | CPH _ => false end.

(** The text of the condition is one part for the splitter: its parentheses are
    balanced and it holds no conjunction. *)
Definition one_part (c : RequestCondition) : bool :=
  balanced (buildRequestConditionExpr c) && negb (includes SEP_AND (buildRequestConditionExpr c)).

(** Only a range has a disjunction in its text. *)
Definition or_safe (c : RequestCondition) : bool :=
  is_range c || negb (includes " || " (buildRequestConditionExpr c)).

(** At least one condition, and disjunctions in ranges only when there are
    several. *)
Definition conj_safe (cs : list RequestCondition) : bool :=
  match cs with [] => false | [_] => true | _ => forallb or_safe cs end.

(** A group the editor's builder can write and the parser can read: a numeric
    multiplier and well-formed conditions of one part each; in a conjunction,
    disjunctions only in ranges. *)
Definition wf_group (g : RequestRuleGroup) : bool :=
  is_numeric (multiplier g) && forallb wf_cond (conditions g) && forallb one_part (conditions g)
  && conj_safe (conditions g).

(** The text ends with a unit that is neither white space nor an ampersand. *)
Definition end_ok (s : jsstr) : bool :=
  match rev s with c :: _ => negb (is_space c) && negb (c =? 38)%N | [] => false end.

Lemma end_ok_app a b : b ≠ [] → end_ok (a ++ b) = end_ok b.
Proof.
  intros Hb. unfold end_ok. rewrite rev_app_distr.
  destruct (rev b) as [|c t] eqn:E; [|done]. exfalso. apply Hb.
  by rewrite <- (rev_involutive b), E.
Qed.

Lemma end_ok_forallb P s :
  s ≠ [] → forallb P s = true → (∀ c, P c = true → is_space c = false ∧ c ≠ 38%N) →
  end_ok s = true.
Proof.
  intros Hne H HP. destruct (exists_last Hne) as (a & c & ->).
  apply forallb_app_true in H as [_ H]. cbn [forallb] in H. bool_prop.
  destruct (HP c H) as [Hs Hc]. rewrite end_ok_app by done. unfold end_ok. simpl.
  rewrite Hs. by apply N.eqb_neq in Hc as ->.
Qed.

Lemma end_ok_numeric s : is_numeric s = true → end_ok s = true.
Proof.
  intros [Hne H]%is_numeric_spec. eapply end_ok_forallb; [done|exact H|].
  intros c Hc%cls_num_range. split; [apply is_space_visible|]; lia.
Qed.

Lemma end_ok_literal v : end_ok (buildExprLiteral MATCH_EQ v) = true.
Proof.
  unfold buildExprLiteral. change (str_eqb MATCH_EQ MATCH_CONTAINS) with false. cbn iota.
  destruct (str_eqb_spec (trim v) lit_true) as [->|]; [done|].
  destruct (str_eqb_spec (trim v) lit_false) as [->|]; [done|]. cbn [orb].
  destruct (re_test _ (trim v)) eqn:En; [by apply end_ok_numeric|].
  unfold JSON_stringify_str. rewrite app_comm_cons. by rewrite end_ok_app.
Qed.

Lemma numeric_ne s : is_numeric s = true → s ≠ [].
Proof. by intros [??]%is_numeric_spec. Qed.

(** A condition text starts and ends with visible units. *)
Lemma cond_text_ends c :
  wf_cond c = true → head_ok (cond_text c) = true ∧ end_ok (cond_text c) = true
                     ∧ cond_text c ≠ [].
Proof.
  intros Hwf. destruct c as [c|c]; cbn [wf_cond cond_text] in *.
  - unfold wf_time in Hwf. bool_prop. unfold time_text.
    destruct (str_eqb (tc_mode c) MATCH_RANGE); bool_prop.
    + unfold range_text, fn_text. split_and!; [by destruct (tc_timeFunc c)| |by destruct (tc_timeFunc c)].
      rewrite app_nil_r. rewrite !end_ok_app; eauto using numeric_ne, end_ok_numeric.
      all: try (intros E; by destruct (tc_rangeStart c), (tc_timeFunc c)).
    + unfold cmp_text, fn_text. split_and!; [by destruct (tc_timeFunc c)| |by destruct (tc_timeFunc c)].
      rewrite !end_ok_app; eauto using numeric_ne, end_ok_numeric.
      all: by intros E; destruct (time_mode_op (tc_mode c)).
  - unfold wf_ph in Hwf. bool_prop. unfold ph_text.
    destruct (str_eqb (ph_mode c) MATCH_EXISTS); [|destruct (str_eqb (ph_mode c) MATCH_CONTAINS);
      [|destruct (str_eqb (ph_mode c) MATCH_EQ)]].
    + destruct (ph_source c); unfold exists_text, src_text; (split_and!; [done| |done]);
        by rewrite end_ok_app.
    + destruct (ph_source c); unfold param_contains_text, has_text, src_text;
        (split_and!; [done| |done]); rewrite !end_ok_app by (try done; by destruct (ph_path c)); done.
    + unfold eq_text, src_text. split_and!; [by destruct (ph_source c)| |by destruct (ph_source c)].
      rewrite !end_ok_app by (done || apply build_literal_ne). apply end_ok_literal.
    + destruct (ph_source c); [|done]. bool_prop. unfold param_cmp_text, src_text.
      split_and!; [done| |done].
      rewrite !end_ok_app; eauto using numeric_ne, end_ok_numeric.
      all: by intros E; destruct (mode_cmp_op (ph_mode c)).
Qed.

Lemma ends_trimmed s : head_ok s = true → end_ok s = true → trimmed s = true.
Proof.
  intros Hh He. unfold trimmed. rewrite Hh. unfold end_ok in He. simpl.
  destruct (rev s); [done|]. simpl. by bool_prop.
Qed.

Lemma and_sep_free s k :
  end_ok s = true → includes SEP_AND s = false → sep_free SEP_AND 0 s k = true.
Proof.
  intros He Hi. apply (sep_free_text "&& "); [done|].
  intros a c ->. rewrite end_ok_app in He by done. unfold end_ok in He. simpl in He. bool_prop.
  intros [<-|[<-|[<-|[<-|[]]]]]; done.
Qed.

(** The text of a condition is a part of a conjunction. *)
Lemma cond_part c :
  wf_cond c = true → one_part c = true → part_ok "&& " (cond_text c) = true.
Proof.
  intros Hwf Hp. destruct (cond_text_ends c Hwf) as (Hh & He & Hne).
  unfold one_part in Hp. rewrite build_cond in Hp by done. bool_prop.
  unfold part_ok. rewrite !and_sep_free by done. rewrite H, ends_trimmed by done.
  by apply nonempty_true in Hne as ->.
Qed.

Lemma trimmed_wrap s : trimmed ("(" ++ s ++ ")") = true.
Proof. by apply (trimmed_ends 40%N s 41%N). Qed.

Lemma wrap_part sep' s : balanced s = true → part_ok sep' ("(" ++ s ++ ")") = true.
Proof.
  intros Hb. unfold part_ok. rewrite !sep_free_close, balanced_wrap, trimmed_wrap by done.
  done.
Qed.

Lemma range_text_or f tz a b r : includes " || " (range_text f tz a b r) = true.
Proof.
  apply includes_true. unfold range_text.
  exists (fn_text f tz ++ " >= " ++ a), (fn_text f tz ++ " < " ++ b ++ r).
  by rewrite <- !app_assoc.
Qed.

(** The part a condition contributes to a conjunction: ranges in parentheses. *)
Lemma wrapped_part c :
  wf_cond c = true → one_part c = true → or_safe c = true →
  part_ok "&& " (wrap_or (cond_text c)) = true
  ∧ tryParseRequestCondition (wrap_or (cond_text c)) = Ok (Some c).
Proof.
  intros Hwf Hp Ho. unfold wrap_or. unfold or_safe in Ho.
  rewrite build_cond in Ho by done. destruct (is_range c) eqn:Er.
  - destruct c as [c|c]; [|done]. cbn [is_range cond_text wf_cond] in *.
    apply str_eqb_eq in Er as Em.
    assert (Ei : includes " || " (time_text c) = true).
    { unfold time_text. rewrite Er. apply range_text_or. }
    rewrite Ei. unfold one_part in Hp. rewrite build_cond in Hp by done. bool_prop.
    split; [by apply wrap_part|].
    unfold tryParseRequestCondition. by rewrite parse_time_text_paren.
  - cbn [orb] in Ho. bool_prop. rewrite Ho.
    split; [by apply cond_part|by apply parse_cond_text].
Qed.

Lemma collect_Forall2 {A B} (f : A → exn (option B)) xs ys :
  Forall2 (λ x y, f x = Ok (Some y)) xs ys → collect f xs = Ok (Some ys).
Proof.
  induction 1 as [|x y xs ys H _ IH]; [done|]. cbn [collect]. rewrite H. cbn. by rewrite IH.
Qed.

(** Parsing a conjunction of texts that parse to [cs]. *)
Lemma collect_parts cs ts :
  ts ≠ [] → forallb (part_ok "&& ") ts = true →
  Forall2 (λ t c, tryParseRequestCondition t = Ok (Some c)) ts cs →
  collect (λ ap, tryParseRequestCondition (trim ap)) (splitTopLevelAnd (join SEP_AND ts))
  = Ok (Some cs).
Proof.
  intros Hne Hp H. unfold splitTopLevelAnd.
  rewrite (splitTopLevel_join "&& ") by done. apply collect_Forall2. clear Hne.
  induction H as [|t c ts cs Ht _ IH]; cbn [forallb] in Hp; constructor; bool_prop.
  - unfold part_ok in H. bool_prop. by rewrite trim_trimmed.
  - by apply IH.
Qed.

(** *** The group pattern *)

Definition factor_text (combined mult : jsstr) : jsstr :=
  "(" ++ combined ++ " ? " ++ mult ++ " : 1)".

(** The last question mark of a factor is the one before its multiplier. *)
Lemma group_tail_fail mult a b r p k :
  is_numeric mult = true → a ≠ [] → " ? " ++ mult ++ " : 1)" = a ++ b →
  rmatch (RSeq (RLit " ? ") r) (MS p b k) = [].
Proof.
  intros [_ Hm]%is_numeric_spec Ha E. apply rmatch_lit_seq_fail.
  apply not_true_iff_false. intros [t ->]%startsWith_spec.
  destruct a as [|x a]; [done|]. cbn [app] in E. injection E as _ E.
  destruct a as [|x' a]; [done|]. cbn [app] in E. injection E as _ E.
  assert (Hin : In 63%N (32%N :: mult ++ " : 1)")).
  { rewrite E. apply in_app_iff. right. simpl. auto. }
  destruct Hin as [?|[Hin|Hin]%in_app_iff]; [done| |].
  - by eapply forallb_forall in Hin; [|exact Hm].
  - simpl in Hin. by intuition.
Qed.

Lemma group_matches combined mult :
  combined ≠ [] → is_numeric mult = true →
  matches group_regex (factor_text combined mult) [(2, mult); (1, combined)].
Proof.
  intros Hc Hm. eapply matches_start. unfold factor_text. cbn [rseq]. re_lit.
  eapply rmatch_group_any_seq; [done| |].
  - intros a b p' k' Ha E. by eapply group_tail_fail.
  - cbn [app]. re_lit. re_num. re_lit. reflexivity.
Qed.

(** The text a group's conditions combine to. *)
Definition combined_text (cs : list RequestCondition) : jsstr :=
  match cs with
  | [c] => cond_text c
  | _ => join SEP_AND (map (λ c, wrap_or (cond_text c)) cs)
  end.

Lemma wf_conds_texts cs :
  forallb wf_cond cs = true → map buildRequestConditionExpr cs = map cond_text cs.
Proof.
  intros H. apply map_ext_in. intros c Hc. apply build_cond.
  by eapply forallb_forall in H.
Qed.

Lemma conds_nonempty cs :
  forallb wf_cond cs = true → forallb nonempty (map cond_text cs) = true.
Proof.
  intros H. apply forallb_forall. intros t (c & <- & Hc)%in_map_iff.
  apply nonempty_true, cond_text_ends. by eapply forallb_forall in H.
Qed.

Lemma build_group g :
  wf_group g = true →
  buildRuleGroupFactor g = factor_text (combined_text (conditions g)) (multiplier g).
Proof.
  unfold wf_group. intros ?; bool_prop. unfold buildRuleGroupFactor.
  rewrite numeric_trim by done. unfold is_numeric in H. rewrite H. cbn [negb].
  rewrite wf_conds_texts, filterb_all by auto using conds_nonempty.
  unfold factor_text, combined_text.
  destruct (conditions g) as [|c [|c' cs]]; [done| |]; cbn [map]; [done|].
  by rewrite map_map.
Qed.

(** The parts of a conjunction and what they parse to. *)
Lemma wrapped_parts cs :
  forallb wf_cond cs = true → forallb one_part cs = true → forallb or_safe cs = true →
  forallb (part_ok "&& ") (map (λ c, wrap_or (cond_text c)) cs) = true
  ∧ Forall2 (λ t c, tryParseRequestCondition t = Ok (Some c))
      (map (λ c, wrap_or (cond_text c)) cs) cs.
Proof.
  induction cs as [|c cs IH]; [done|]. cbn [forallb map]. intros; bool_prop.
  destruct (wrapped_part c) as [H6 H7]; [done..|]. destruct IH as [H8 H9]; [done..|].
  rewrite H6, H8. split; [done|]. by constructor.
Qed.

Lemma parse_combined cs :
  forallb wf_cond cs = true → forallb one_part cs = true →
  conj_safe cs = true →
  combined_text cs ≠ [] ∧ balanced (combined_text cs) = true
  ∧ collect (λ ap, tryParseRequestCondition (trim ap)) (splitTopLevelAnd (combined_text cs))
    = Ok (Some cs).
Proof.
  intros Hwf Hp Hc. destruct cs as [|c [|c' cs]]; [done| |].
  - cbn [forallb combined_text] in *. bool_prop.
    pose proof (cond_part c H1 H) as Hpc. split_and!.
    + by apply cond_text_ends.
    + unfold part_ok in Hpc. by bool_prop.
    + apply (collect_parts [c] [cond_text c]); [done|by cbn [forallb]; rewrite Hpc|].
      repeat constructor. by apply parse_cond_text.
  - destruct (wrapped_parts (c :: c' :: cs)) as [Hok H2]; [done..|].
    unfold combined_text. split_and!.
    + apply join_ne; [done|]. revert Hok. apply forallb_impl. unfold part_ok.
      intros; by bool_prop.
    + apply balanced_join; [done|]. revert Hok. apply forallb_impl. unfold part_ok.
      intros; by bool_prop.
    + by apply collect_parts.
Qed.

Lemma parse_group g :
  wf_group g = true → tryParseRuleGroupFactor (buildRuleGroupFactor g) = Ok (Some g).
Proof.
  intros Hwf. rewrite build_group by done. unfold wf_group in Hwf. bool_prop.
  destruct (parse_combined (conditions g)) as (Hne & _ & Hcol); [done..|].
  unfold tryParseRuleGroupFactor.
  destruct (group_matches (combined_text (conditions g)) (multiplier g)) as (m & -> & Hm); [done..|].
  cbn [or_null]. unfold grp, grp_opt. rewrite Hm. cbn [cap_lookup Nat.eqb from_option id].
  rewrite Hcol. cbn [mbind exn_bind or_null]. destruct g as [[|c cs] mult]; done.
Qed.

(** *** Whole rule expressions *)

Lemma numeric_flat s : is_numeric s = true → forallb not_paren s = true.
Proof.
  intros [_ H]%is_numeric_spec. revert H. apply forallb_impl. intros c Hc%cls_num_range.
  unfold not_paren. unit_decide.
Qed.

Lemma group_part g :
  wf_group g = true → part_ok "* " (buildRuleGroupFactor g) = true.
Proof.
  intros Hwf. rewrite build_group by done. unfold wf_group in Hwf. bool_prop.
  destruct (parse_combined (conditions g)) as (_ & Hb & _); [done..|].
  unfold factor_text.
  replace (combined_text (conditions g) ++ " ? " ++ multiplier g ++ " : 1)")
    with ((combined_text (conditions g) ++ " ? " ++ multiplier g ++ " : 1") ++ ")")
    by (by rewrite <- (app_assoc _ _ ")"), <- (app_assoc " ? "), <- (app_assoc (multiplier g))).
  apply wrap_part. apply balanced_app; [done|]. apply balanced_flat.
  by rewrite !forallb_app, (numeric_flat (multiplier g)).
Qed.

Lemma groups_parts gs :
  forallb wf_group gs = true →
  forallb (part_ok "* ") (map buildRuleGroupFactor gs) = true.
Proof.
  intros H. apply forallb_forall. intros t (g & <- & Hg)%in_map_iff.
  apply group_part. by eapply forallb_forall in H.
Qed.

Lemma parts_facts sep' ts :
  forallb (part_ok sep') ts = true →
  forallb nonempty ts = true ∧ trimmed (join (32%N :: sep') ts) = true.
Proof.
  intros H. split; [|apply trimmed_join]; revert H; apply forallb_impl; unfold part_ok;
    intros; bool_prop; done.
Qed.

Lemma build_rules gs :
  forallb wf_group gs = true →
  buildRequestRuleExpr gs = join SEP_MUL (map buildRuleGroupFactor gs).
Proof.
  intros H. unfold buildRequestRuleExpr. rewrite filterb_all; [done|].
  by apply (parts_facts "* "), groups_parts.
Qed.

Lemma parse_rules gs :
  forallb wf_group gs = true →
  tryParseRequestRuleExpr (join SEP_MUL (map buildRuleGroupFactor gs)) = Ok (Some gs).
Proof.
  intros H. pose proof (groups_parts gs H) as Hp.
  destruct (parts_facts _ _ Hp) as [Hn Ht].
  unfold tryParseRequestRuleExpr. rewrite trim_trimmed by done.
  destruct gs as [|g gs]; [done|].
  rewrite (proj2 (nonempty_true _)) by (apply join_ne; done).
  unfold splitTopLevelMultiply. rewrite (splitTopLevel_join "* ") by done.
  apply collect_Forall2. clear -H. induction (g :: gs) as [|x l IH]; cbn [forallb map] in *; constructor.
  - apply parse_group. by bool_prop.
  - apply IH. by bool_prop.
Qed.
