(* ===== verification/RuleTheorems.v ===== *)
(** * The theorems about billing expressions *)
From Stdlib Require Import NArith ZArith.
From stdpp Require Import list numbers.
From S2P Require Import Prelude JsString Regex JsNumber Json BillingExpr BillingRules.
From S2P Require Import RuleRoundtrip.

(** ** Separators *)

Lemma splits_join :
  (∀ parts, parts ≠ [] → forallb (part_ok "* ") parts = true →
            splitTopLevelMultiply (join SEP_MUL parts) = parts)
  ∧ (∀ parts, parts ≠ [] → forallb (part_ok "&& ") parts = true →
              splitTopLevelAnd (join SEP_AND parts) = parts).
Proof. split; intros; by apply splitTopLevel_join. Qed.

(** ** Parameter conditions with a null check *)

Lemma src_balanced s path : plain path = true → balanced (src_text s path) = true.
Proof.
  intros (_ & Hp & _)%plain_spec. unfold src_text.
  change ("(\q" ++ path ++ "\q)") with ("(" ++ ("\q" ++ path ++ "\q)")).
  replace ("\q" ++ path ++ "\q)") with (("\q" ++ path ++ "\q") ++ ")")
    by by rewrite <- !app_assoc.
  apply balanced_app; [by destruct s|]. apply balanced_wrap, balanced_flat.
  by rewrite !forallb_app, Hp.
Qed.

Lemma src_sep_free sep' s path k :
  plain path = true → sep_free (32%N :: sep') 0 (src_text s path) k = true.
Proof.
  intros (_ & Hp & _)%plain_spec. unfold src_text. rewrite sep_free_app.
  rewrite sep_free_no_space by by destruct s.
  replace (depth 0 (phSource_str s)) with 0%Z by by destruct s.
  replace ("(\q" ++ path ++ "\q)") with ("(" ++ ("\q" ++ path ++ "\q") ++ ")")
    by by rewrite <- !app_assoc.
  apply sep_free_close, balanced_flat. by rewrite !forallb_app, Hp.
Qed.

(** A source text with a flat tail is a part. *)
Lemma src_tail_part s path tail :
  plain path = true → balanced tail = true → includes SEP_AND tail = false → end_ok tail = true →
  part_ok "&& " (src_text s path ++ tail) = true.
Proof.
  intros Hp Hb Hi He. unfold part_ok. rewrite !sep_free_app, balanced_depth by by apply src_balanced.
  rewrite !src_sep_free, !and_sep_free by done.
  rewrite balanced_app by (done || by apply src_balanced).
  rewrite ends_trimmed; [by destruct s|by destruct s|].
  rewrite end_ok_app; [done|]. by intros ->.
Qed.

(** The second half of a comparison, cut off from its null check, is no
    condition. *)
Lemma parse_cmp_half path op v :
  plain path = true → path ≠ [] → In op cmp_ops →
  tryParseRequestCondition (src_text SParam path ++ " " ++ op ++ " " ++ v) = Ok None.
Proof.
  intros (_ & _ & Hq)%plain_spec Hne Hop.
  set (t := src_text SParam path ++ " " ++ op ++ " " ++ v).
  assert (F : re_match header_exists_regex t = None ∧ re_match param_exists_regex t = None
              ∧ re_match header_contains_regex t = None ∧ re_match param_contains_regex t = None
              ∧ re_match param_cmp_regex t = None ∧ re_match eq_regex t = None).
  { unfold t, src_text. split_and!; apply re_match_none; cbn [rseq]; text_norm;
      try (by re_lit); try rewrite (rmatch_group_lits_one 1 ["param"; "header"] "param") by done;
      cbn [drop length]; re_lit; rewrite quoted_step by (auto with js || done);
      destruct Hop as [<-|[<-|[<-|[<-|[]]]]]; cbn [app]; by re_lit. }
  destruct F as (F1 & F2 & F3 & F4 & F5 & F6).
  unfold tryParseRequestCondition, tryParse_param_contains, tryParse_param_cmp, tryParse_eq.
  rewrite not_time by done. by rewrite F1, F2, F3, F4, F5, F6.
Qed.

Lemma parse_has_half path v :
  tryParseRequestCondition (has_text path SParam v) = Ok None.
Proof.
  set (t := has_text path SParam v).
  assert (F : re_match header_exists_regex t = None ∧ re_match param_exists_regex t = None
              ∧ re_match header_contains_regex t = None ∧ re_match param_contains_regex t = None
              ∧ re_match param_cmp_regex t = None ∧ re_match eq_regex t = None).
  { unfold t, has_text, src_text. split_and!; apply re_match_none; cbn [rseq]; text_norm;
      try (by re_lit). by apply (rmatch_group_lits_fail 1 ["param"; "header"]). }
  destruct F as (F1 & F2 & F3 & F4 & F5 & F6).
  unfold tryParseRequestCondition, tryParse_param_contains, tryParse_param_cmp, tryParse_eq.
  rewrite not_time by done. by rewrite F1, F2, F3, F4, F5, F6.
Qed.

(** The parameter conditions the builder writes with a null check. *)
Definition null_checked (c : ParamHeaderCondition) : bool :=
  match ph_source c with
  | SParam => str_eqb (ph_mode c) MATCH_CONTAINS || is_cmp_mode (ph_mode c)
  | SHeader => false
  end.

Definition second_half (c : ParamHeaderCondition) : jsstr :=
  if str_eqb (ph_mode c) MATCH_CONTAINS then has_text (ph_path c) SParam (ph_value c)
  else src_text SParam (ph_path c) ++ " " ++ mode_cmp_op (ph_mode c) ++ " " ++ ph_value c.

Lemma null_checked_text c :
  null_checked c = true →
  ph_text c = join SEP_AND [exists_text (ph_path c) SParam; second_half c].
Proof.
  unfold null_checked, ph_text, second_half. destruct (ph_source c); [|done]. intros H.
  destruct (str_eqb_spec (ph_mode c) MATCH_CONTAINS) as [E|E].
  - rewrite E. cbn [join exists_text]. unfold param_contains_text.
    by rewrite <- (app_assoc _ " != nil").
  - cbn [orb] in H.
    assert (E1 : str_eqb (ph_mode c) MATCH_EXISTS = false ∧ str_eqb (ph_mode c) MATCH_EQ = false).
    { by destruct (cmp_mode_spec _ H) as [->|[->|[->| ->]]]. }
    destruct E1 as [-> ->]. cbn [join exists_text]. unfold param_cmp_text.
    by rewrite <- (app_assoc _ " != nil").
Qed.

Lemma cmp_op_in m : In (mode_cmp_op m) cmp_ops.
Proof.
  unfold mode_cmp_op. destruct (str_eqb m MATCH_GT); [by left|].
  destruct (str_eqb m MATCH_GTE); [by right; left|].
  destruct (str_eqb m MATCH_LT); simpl; auto.
Qed.

Lemma numeric_no_amp s : is_numeric s = true → forallb (λ x, negb (x =? 38)%N) s = true.
Proof.
  intros [_ H]%is_numeric_spec. revert H. apply forallb_impl. intros c Hc%cls_num_range.
  unit_decide.
Qed.

Lemma second_half_part c :
  wf_ph c = true → null_checked c = true → balanced (JSON_stringify_str (ph_value c)) = true →
  part_ok "&& " (second_half c) = true
  ∧ tryParseRequestCondition (second_half c) = Ok None.
Proof.
  unfold wf_ph, null_checked, second_half. intros ? Hn Hb; bool_prop.
  destruct (ph_source c); [|done].
  destruct (str_eqb_spec (ph_mode c) MATCH_CONTAINS) as [E|E].
  - split; [|apply parse_has_half]. unfold has_text.
    set (inner := src_text SParam (ph_path c) ++ ", " ++ JSON_stringify_str (ph_value c)).
    replace ("has(" ++ _) with ("has" ++ "(" ++ inner ++ ")")
      by (unfold inner; by rewrite <- !app_assoc).
    assert (Hi : balanced inner = true) by (apply balanced_app; [by apply src_balanced|done]).
    unfold part_ok. rewrite ends_trimmed; [|done|by rewrite !end_ok_app].
    rewrite balanced_app by (done || by apply balanced_wrap).
    rewrite !(sep_free_app _ _ "has"). change (depth 0 "has") with 0%Z.
    by rewrite !(sep_free_no_space _ _ "has"), !sep_free_close.
  - cbn [orb] in Hn.
    assert (E1 : str_eqb (ph_mode c) MATCH_EXISTS = false ∧ str_eqb (ph_mode c) MATCH_EQ = false).
    { by destruct (cmp_mode_spec _ Hn) as [->|[->|[->| ->]]]. }
    destruct E1 as [E1 E2]. rewrite E1, E2 in H0. bool_prop.
    assert (Hop : forallb not_paren (mode_cmp_op (ph_mode c)) = true
                  ∧ forallb (λ x, negb (x =? 38)%N) (mode_cmp_op (ph_mode c)) = true).
    { by destruct (cmp_op_in (ph_mode c)) as [<-|[<-|[<-|[<-|[]]]]]. }
    destruct Hop as [Hop1 Hop2]. split.
    + apply src_tail_part; [done|..].
      * apply balanced_flat. by rewrite !forallb_app, Hop1, (numeric_flat (ph_value c)).
      * apply (includes_absent _ 38%N); [by right; left|].
        by rewrite !forallb_app, Hop2, (numeric_no_amp (ph_value c)).
      * rewrite !end_ok_app; auto using numeric_ne, end_ok_numeric.
        by destruct (mode_cmp_op (ph_mode c)).
    + apply parse_cmp_half; auto using cmp_op_in. by apply nonempty_true.
Qed.

Lemma build_single c mult :
  wf_cond c = true → is_numeric mult = true →
  buildRequestRuleExpr [{| conditions := [c]; multiplier := mult |}]
  = factor_text (cond_text c) mult.
Proof.
  intros Hc Hm. unfold buildRequestRuleExpr. cbn [map].
  assert (E : buildRuleGroupFactor {| conditions := [c]; multiplier := mult |}
              = factor_text (cond_text c) mult).
  { unfold buildRuleGroupFactor. cbn [conditions multiplier map].
    rewrite numeric_trim, build_cond by done. unfold is_numeric in Hm. rewrite Hm. cbn [negb].
    destruct (cond_text_ends c Hc) as (_ & _ & Hne%nonempty_true). cbn [List.filter].
    by rewrite Hne. }
  by rewrite E.
Qed.

(** A factor is one part of a product. *)
Lemma factor_part combined mult :
  is_numeric mult = true → balanced combined = true →
  part_ok "* " (factor_text combined mult) = true.
Proof.
  intros Hm Hb. unfold factor_text.
  replace (combined ++ " ? " ++ mult ++ " : 1)")
    with ((combined ++ " ? " ++ mult ++ " : 1") ++ ")")
    by (by rewrite <- (app_assoc _ _ ")"), <- (app_assoc " ? "), <- (app_assoc mult)).
  apply wrap_part, balanced_app; [done|]. apply balanced_flat.
  by rewrite !forallb_app, (numeric_flat mult).
Qed.

(** The rule expression of one factor is parsed as that factor. *)
Lemma parse_one_factor combined mult :
  is_numeric mult = true → balanced combined = true →
  tryParseRequestRuleExpr (factor_text combined mult)
  = (y ← tryParseRuleGroupFactor (factor_text combined mult);
     or_null y (λ y, Ok (Some [y]))).
Proof.
  intros Hm Hb. set (f := factor_text combined mult).
  assert (Hp : part_ok "* " f = true) by by apply factor_part.
  assert (Hs : splitTopLevelMultiply f = [f]) by by apply (splitTopLevel_single "* ").
  unfold tryParseRequestRuleExpr. unfold part_ok in Hp. bool_prop.
  rewrite trim_trimmed by done. rewrite H, Hs. cbn [collect].
  by destruct (tryParseRuleGroupFactor f) as [[g|]|].
Qed.

Lemma null_checked_unparsed c mult :
  wf_ph c = true → null_checked c = true → balanced (JSON_stringify_str (ph_value c)) = true →
  is_numeric mult = true →
  tryParseRequestRuleExpr
    (buildRequestRuleExpr [{| conditions := [CPH c]; multiplier := mult |}]) = Ok None.
Proof.
  intros Hwf Hn Hb Hm. rewrite build_single by done. cbn [cond_text].
  destruct (second_half_part c) as [Hp2 Hs2]; [done..|].
  pose proof Hwf as Hwf'. unfold wf_ph in Hwf'. bool_prop.
  assert (Hp1 : part_ok "&& " (exists_text (ph_path c) SParam) = true) by by apply src_tail_part.
  assert (Hps : forallb (part_ok "&& ") [exists_text (ph_path c) SParam; second_half c] = true)
    by (cbn [forallb]; by rewrite Hp1, Hp2).
  rewrite null_checked_text by done.
  rewrite parse_one_factor; [|done|].
  2:{ apply balanced_join; [done|]. revert Hps. apply forallb_impl. unfold part_ok.
      intros; by bool_prop. }
  unfold tryParseRuleGroupFactor.
  destruct (group_matches (join SEP_AND [exists_text (ph_path c) SParam; second_half c]) mult)
    as (m & -> & Hm'); [by destruct (ph_path c)|done|].
  cbn [or_null]. unfold grp, grp_opt. rewrite Hm'. cbn [cap_lookup Nat.eqb from_option id].
  unfold splitTopLevelAnd. rewrite (splitTopLevel_join "&& ") by done. cbn [collect].
  unfold part_ok in Hp1, Hp2. bool_prop. rewrite !trim_trimmed by done.
  rewrite parse_exists; [|by apply nonempty_true|by apply plain_spec].
  cbn [mbind exn_bind or_null]. by rewrite Hs2.
Qed.

(** ** A header test whose literal is not JSON *)

Definition raw_has_text (path body : jsstr) : jsstr :=
  "has(" ++ src_text SHeader path ++ ", \q" ++ body ++ "\q)".

Lemma raw_has_throws path body :
  plain path = true → path ≠ [] → quoted_body body →
  JSON_parse (34%N :: body ++ [34%N]) = None →
  tryParseRequestCondition (raw_has_text path body) = Throw.
Proof.
  intros (_ & _ & Hq)%plain_spec Hne Hb Hj. set (t := raw_has_text path body).
  assert (F : re_match header_exists_regex t = None ∧ re_match param_exists_regex t = None).
  { unfold t, raw_has_text, src_text. split; apply re_match_none; cbn [rseq]; text_norm; by re_lit. }
  destruct F as [F1 F2].
  assert (M : matches header_contains_regex t [(2, 34%N :: body ++ [34%N]); (1, path)]).
  { eapply matches_start. unfold t, raw_has_text, src_text. cbn [rseq]. text_norm.
    re_lit. rewrite quoted_step by (auto with js || done). re_lit.
    rewrite rmatch_group_quoted_seq by done. re_lit. reflexivity. }
  unfold tryParseRequestCondition. rewrite not_time by done. rewrite F1, F2.
  destruct M as (m & -> & Hm). unfold grp, grp_opt. rewrite Hm.
  cbn [cap_lookup Nat.eqb from_option id]. unfold contains_cond. by rewrite Hj.
Qed.

Lemma raw_has_part path body :
  plain path = true → balanced body = true → part_ok "&& " (raw_has_text path body) = true.
Proof.
  intros Hp Hb. unfold raw_has_text.
  set (inner := src_text SHeader path ++ ", \q" ++ body ++ "\q").
  replace ("has(" ++ _) with ("has" ++ "(" ++ inner ++ ")")
    by (unfold inner; by rewrite <- (app_assoc _ _ ")"), <- (app_assoc ", \q"), <- (app_assoc body)).
  assert (Hi : balanced inner = true).
  { apply balanced_app; [by apply src_balanced|]. apply balanced_app; [done|].
    by apply balanced_app. }
  unfold part_ok. rewrite ends_trimmed; [|done|by rewrite !end_ok_app].
  rewrite balanced_app by (done || by apply balanced_wrap).
  rewrite !(sep_free_app _ _ "has"). change (depth 0 "has") with 0%Z.
  by rewrite !(sep_free_no_space _ _ "has"), !sep_free_close.
Qed.

Lemma raw_has_rule_throws path body mult :
  plain path = true → path ≠ [] → quoted_body body → balanced body = true →
  is_numeric mult = true → JSON_parse (34%N :: body ++ [34%N]) = None →
  tryParseRequestRuleExpr (factor_text (raw_has_text path body) mult) = Throw.
Proof.
  intros Hp Hne Hq Hb Hm Hj. pose proof (raw_has_part path body Hp Hb) as Hpart.
  rewrite parse_one_factor; [|done|unfold part_ok in Hpart; by bool_prop].
  unfold tryParseRuleGroupFactor.
  destruct (group_matches (raw_has_text path body) mult) as (m & -> & Hm'); [done..|].
  cbn [or_null]. unfold grp, grp_opt. rewrite Hm'. cbn [cap_lookup Nat.eqb from_option id].
  unfold splitTopLevelAnd. rewrite (splitTopLevel_single "&& ") by done.
  cbn [collect]. unfold part_ok in Hpart. bool_prop. rewrite trim_trimmed by done.
  by rewrite raw_has_throws.
Qed.

(** ** Combining and splitting *)

(** A factor ends with the text of the group pattern. *)
Lemma group_match_end s m : re_match group_regex s = Some m → ∃ a, s = a ++ " : 1)".
Proof.
  unfold group_regex. cbn [rseq]. rewrite re_match_start.
  destruct (rmatch _ _) as [|st l] eqn:E; [done|]. intros _.
  assert (Hin : In st (st :: l)) by by left. rewrite <- E in Hin. clear E.
  assert (Ho : over (λ _, true) (RLit "(") ∧ over (λ _, true) (RGroup 1 (rplus rany))
               ∧ over (λ _, true) (RLit " ? ") ∧ over (λ _, true) (RGroup 2 rnum))
    by by simpl.
  destruct Ho as (O1 & O2 & O3 & O4).
  apply in_rmatch_seq in Hin as (s1 & [w1 E1]%(rmatch_suffix _ _ _ O1) & Hin).
  apply in_rmatch_seq in Hin as (s2 & [w2 E2]%(rmatch_suffix _ _ _ O2) & Hin).
  apply in_rmatch_seq in Hin as (s3 & [w3 E3]%(rmatch_suffix _ _ _ O3) & Hin).
  apply in_rmatch_seq in Hin as (s4 & [w4 E4]%(rmatch_suffix _ _ _ O4) & Hin).
  apply in_rmatch_seq in Hin as (s5 & H5 & H6). cbn [rmatch] in H5, H6.
  unfold eat in H5. destruct (startsWith " : 1)" (rest s4)) eqn:E5; [|done].
  apply startsWith_spec in E5 as [t E5]. destruct H5 as [<-|[]]. cbn [rest] in H6.
  rewrite E5 in H6. simpl in H6. destruct t; [|done].
  exists (w1 ++ w2 ++ w3 ++ w4). cbn [rest] in E1. rewrite E1, E2, E3, E4, E5.
  by rewrite app_nil_r, <- !app_assoc.
Qed.

Definition ends_like_rule (s : jsstr) : bool := endsWith " : 1" s.

Lemma endsWith_spec p s : endsWith p s = true ↔ ∃ a, s = a ++ p.
Proof.
  unfold endsWith. rewrite startsWith_spec. split; intros [t E].
  - exists (rev t). apply (f_equal (@rev N)) in E.
    by rewrite rev_app_distr, !rev_involutive in E.
  - exists (rev t). by rewrite E, rev_app_distr.
Qed.

Lemma base_not_rule base :
  balanced base = true → ends_like_rule base = false →
  tryParseRequestRuleExpr ("(" ++ base ++ ")") = Ok None.
Proof.
  intros Hb He. set (p := "(" ++ base ++ ")").
  assert (Hp : part_ok "* " p = true) by by apply wrap_part.
  unfold tryParseRequestRuleExpr. rewrite trim_trimmed by apply trimmed_wrap.
  unfold splitTopLevelMultiply. change (nonempty p) with true.
  rewrite (splitTopLevel_single "* ") by done.
  cbn [collect]. unfold tryParseRuleGroupFactor.
  destruct (re_match group_regex p) as [m|] eqn:E; [|done]. exfalso.
  apply group_match_end in E as [a E]. unfold p in E.
  change " : 1)" with (" : 1" ++ ")") in E. rewrite !app_assoc in E.
  apply app_inj_tail in E as [E _]. apply not_true_iff_false in He. apply He.
  apply endsWith_spec. destruct a as [|x a]; [by injection E|]. injection E as _ E. eauto.
Qed.

Lemma outer_loop_inside d s :
  depth_ge 1 d s = true → depth d s = 1%Z → outer_loop d (s ++ ")") = true.
Proof.
  revert d; induction s as [|c s IH]; intros d; cbn [depth_ge depth app outer_loop].
  - intros _ ->. done.
  - fold (bump d c). intros ??; bool_prop. apply Z.leb_le in H.
    rewrite (proj2 (Z.eqb_neq (bump d c) 0)) by lia. by apply IH.
Qed.

Lemma balanced_outer s : balanced s = true → hasFullOuterParens ("(" ++ s ++ ")") = true.
Proof.
  intros Hb. unfold hasFullOuterParens.
  assert (E1 : endsWith ")" ("(" ++ s ++ ")") = true) by (apply endsWith_spec; by exists ("(" ++ s)).
  rewrite E1. cbn [startsWith app N.eqb Pos.eqb andb outer_loop].
  change (nonempty (s ++ ")")) with (nonempty (s ++ [41%N])).
  cbn [Z.add Z.eqb andb]. apply outer_loop_inside; [by apply balanced_ge|by apply balanced_depth].
Qed.

Lemma slice_inner_wrap s : slice_inner ("(" ++ s ++ ")") = s.
Proof.
  unfold slice_inner. cbn [app drop]. apply take_length_app_r.
  cbn [length]. rewrite length_app. simpl. lia.
Qed.

Lemma unwrap_wrap base :
  balanced base = true → trimmed base = true → hasFullOuterParens base = false →
  unwrapOuterParens ("(" ++ base ++ ")") = base.
Proof.
  intros Hb Ht Ho. unfold unwrapOuterParens. rewrite trim_trimmed by apply trimmed_wrap.
  destruct (length ("(" ++ base ++ ")")) as [|n] eqn:E; [done|]. cbn [unwrap_loop].
  rewrite balanced_outer, slice_inner_wrap, trim_trimmed by done.
  destruct n; cbn [unwrap_loop]; [done|]. by rewrite Ho.
Qed.

Lemma sort_rule_parts gs :
  forallb wf_group gs = true →
  sort_parts (map buildRuleGroupFactor gs) = Ok (map buildRuleGroupFactor gs, []).
Proof.
  induction gs as [|g gs IH]; [done|]. cbn [forallb map sort_parts]. intros ?; bool_prop.
  assert (E : tryParseRequestRuleExpr (buildRuleGroupFactor g) = Ok (Some [g])).
  { apply (parse_rules [g]). cbn [forallb]. by rewrite H. }
  rewrite E. cbn [mbind exn_bind]. by rewrite IH.
Qed.

(** What a base expression must satisfy: its own parentheses balance, it is not
    wrapped as a whole, and it does not end like a rule factor. *)
Definition wf_base (base : jsstr) : bool :=
  nonempty base && trimmed base && balanced base && negb (hasFullOuterParens base)
  && negb (ends_like_rule base).

Lemma combine_text base gs :
  wf_base base = true → forallb wf_group gs = true → gs ≠ [] →
  combineBillingExpr base (buildRequestRuleExpr gs)
  = join SEP_MUL (("(" ++ base ++ ")") :: map buildRuleGroupFactor gs).
Proof.
  unfold wf_base. intros ? Hgs Hne; bool_prop. rewrite build_rules by done.
  destruct (parts_facts _ _ (groups_parts gs Hgs)) as [Hn Ht].
  assert (Hm : map buildRuleGroupFactor gs ≠ []) by by destruct gs.
  unfold combineBillingExpr. rewrite !trim_trimmed by done. rewrite H.
  rewrite (proj2 (nonempty_true _)) by by apply join_ne.
  rewrite join_cons by done. by rewrite <- !app_assoc.
Qed.

Lemma split_combine base gs :
  wf_base base = true → forallb wf_group gs = true → gs ≠ [] →
  splitBillingExprAndRequestRules (combineBillingExpr base (buildRequestRuleExpr gs))
  = Ok {| billingExpr := base; requestRuleExpr := buildRequestRuleExpr gs |}.
Proof.
  intros Hb Hgs Hne. rewrite combine_text by done. pose proof Hb as Hb'.
  unfold wf_base in Hb'. bool_prop.
  set (parts := ("(" ++ base ++ ")") :: map buildRuleGroupFactor gs).
  assert (Hp : forallb (part_ok "* ") parts = true).
  { unfold parts. cbn [forallb]. by rewrite wrap_part, groups_parts. }
  destruct (parts_facts _ _ Hp) as [Hn Ht].
  unfold splitBillingExprAndRequestRules. rewrite trim_trimmed by done.
  rewrite (proj2 (nonempty_true _)) by by apply join_ne.
  unfold splitTopLevelMultiply. rewrite (splitTopLevel_join "* ") by done.
  destruct gs as [|g gs]; [done|]. cbn [parts map length Nat.leb].
  change (map buildRuleGroupFactor (g :: gs))
    with (buildRuleGroupFactor g :: map buildRuleGroupFactor gs) in parts.
  unfold parts. cbn [sort_parts]. rewrite base_not_rule by done. cbn [mbind exn_bind].
  pose proof (sort_rule_parts (g :: gs) Hgs) as Hs. cbn [map sort_parts] in Hs.
  rewrite Hs. cbn [mbind exn_bind fst snd].
  rewrite unwrap_wrap, build_rules by done. done.
Qed.

(** A factor on which the parser throws makes the split of the combined
    expression throw. *)
Lemma split_base_throws base f :
  wf_base base = true → part_ok "* " f = true → tryParseRequestRuleExpr f = Throw →
  splitBillingExprAndRequestRules (combineBillingExpr base f) = Throw.
Proof.
  unfold wf_base. intros ? Hf Ht; bool_prop. pose proof Hf as Hf'. unfold part_ok in Hf'. bool_prop.
  set (parts := ["(" ++ base ++ ")"; f]).
  assert (Hp : forallb (part_ok "* ") parts = true).
  { unfold parts. cbn [forallb]. by rewrite wrap_part, Hf. }
  destruct (parts_facts _ _ Hp) as [Hn Htr].
  assert (E : combineBillingExpr base f = join SEP_MUL parts).
  { unfold combineBillingExpr. rewrite !trim_trimmed by done. use_bools.
    unfold parts. cbn [join]. by rewrite <- !app_assoc. }
  rewrite E. unfold splitBillingExprAndRequestRules. rewrite trim_trimmed by done.
  rewrite (proj2 (nonempty_true _)) by by apply join_ne.
  unfold splitTopLevelMultiply. rewrite (splitTopLevel_join "* ") by done.
  unfold parts. cbn [length Nat.leb sort_parts]. rewrite base_not_rule by done.
  cbn [mbind exn_bind]. by rewrite Ht.
Qed.

(** ** Unwrapping terminates *)

Lemma trimStart_length s : length (trimStart s) ≤ length s.
Proof. induction s as [|c s IH]; simpl; [done|]. destruct (is_space c); simpl; lia. Qed.

Lemma trim_length s : length (trim s) ≤ length s.
Proof.
  unfold trim, trimEnd. rewrite length_rev.
  pose proof (trimStart_length (rev (trimStart s))) as H. rewrite length_rev in H.
  pose proof (trimStart_length s). lia.
Qed.

Lemma hasFull_length s : hasFullOuterParens s = true → 2 ≤ length s.
Proof.
  unfold hasFullOuterParens. intros ?; bool_prop. apply startsWith_spec in H as [t ->].
  destruct t as [|c t]; [done|]. simpl. lia.
Qed.

Lemma unwrap_loop_done n s : length s ≤ n → hasFullOuterParens (unwrap_loop n s) = false.
Proof.
  revert s; induction n as [|n IH]; intros s Hl; cbn [unwrap_loop].
  - by destruct s; [|simpl in Hl; lia].
  - destruct (hasFullOuterParens s) eqn:E; [|done]. apply IH.
    pose proof (trim_length (slice_inner s)) as H1. apply hasFull_length in E.
    unfold slice_inner in *. rewrite length_take, length_drop in H1. lia.
Qed.

Lemma unwrap_loop_trimmed n s : trimmed s = true → trimmed (unwrap_loop n s) = true.
Proof.
  revert s; induction n as [|n IH]; intros s Hs; cbn [unwrap_loop]; [done|].
  destruct (hasFullOuterParens s); [|done]. apply IH, trimmed_trim.
Qed.

(** [wrapped s t]: [t] is what is left of [s] when pairs of outer parentheses
    around a balanced text are taken off one after the other, each with the
    white space inside it. *)
Inductive wrapped : jsstr → jsstr → Prop :=
  | wrapped_none s : wrapped s s
  | wrapped_pair inner t :
      balanced inner = true → wrapped (trim inner) t → wrapped ("(" ++ inner ++ ")") t.

(** The loop runs to the end from inside only when the depth first returns to
    zero at the last unit, a closing parenthesis. *)
Lemma outer_loop_closes d s :
  (1 ≤ d)%Z → outer_loop d s = true →
  ∃ inner, s = inner ++ ")" ∧ depth_ge 1 d inner = true ∧ depth d inner = 1%Z.
Proof.
  revert d; induction s as [|c s IH]; intros d Hd; cbn [outer_loop].
  { intros H%Z.eqb_eq. lia. }
  fold (bump d c). destruct (decide (bump d c = 0%Z)) as [E|E].
  - rewrite E. destruct s as [|c' s]; [|done]. intros _. exists [].
    unfold bump in E. destruct (N.eqb_spec c 41) as [->|]; [|destruct (c =? 40)%N; lia].
    change (d - 1 = 0)%Z in E. split_and!; [done|done|]. cbn [depth]. lia.
  - rewrite (proj2 (Z.eqb_neq _ _) E). intros H.
    assert (Hd' : (1 ≤ bump d c)%Z).
    { unfold bump in *. destruct (c =? 40)%N, (c =? 41)%N; lia. }
    destruct (IH _ Hd' H) as (inner & -> & H1 & H2). exists (c :: inner).
    cbn [depth_ge depth]. by rewrite (proj2 (Z.leb_le _ _) Hd'), H1.
Qed.

(** [hasFullOuterParens] is true exactly of a balanced text in parentheses. *)
Lemma hasFullOuterParens_spec s :
  hasFullOuterParens s = true ↔ ∃ inner, s = "(" ++ inner ++ ")" ∧ balanced inner = true.
Proof.
  split; [|intros (inner & -> & H); by apply balanced_outer].
  unfold hasFullOuterParens. intros ?; bool_prop. apply startsWith_spec in H as [t ->].
  change (outer_loop 0 (40%N :: t) = true) in H0. cbn [outer_loop] in H0.
  change ((if (1 =? 0)%Z && nonempty t then false else outer_loop 1 t) = true) in H0.
  cbn [Z.eqb andb] in H0. apply outer_loop_closes in H0 as (inner & -> & H1' & H2'); [|lia].
  exists inner. split; [done|]. unfold balanced.
  rewrite <- (depth_ge_shift 0 0 1). change (0 + 1)%Z with 1%Z. rewrite H1'.
  pose proof (depth_shift 0 1 inner) as E. change (0 + 1)%Z with 1%Z in E.
  rewrite H2' in E. apply Z.eqb_eq. lia.
Qed.

Lemma unwrap_loop_wrapped n s : wrapped s (unwrap_loop n s).
Proof.
  revert s; induction n as [|n IH]; intros s; cbn [unwrap_loop]; [constructor|].
  destruct (hasFullOuterParens s) eqn:E; [|constructor].
  apply hasFullOuterParens_spec in E as (inner & -> & Hb). rewrite slice_inner_wrap.
  by constructor.
Qed.

(** ** Normalization *)

Definition mode_valid (source mode : jsstr) : bool :=
  existsb (λ item, str_eqb (mo_value item) mode) (getRequestRuleMatchOptions source).

Definition cond_source (c : RequestCondition) : jsstr :=
  match c with CTime _ => SOURCE_TIME | CPH p => phSource_str (ph_source p) end.

Definition cond_mode (c : RequestCondition) : jsstr :=
  match c with CTime t => tc_mode t | CPH p => ph_mode p end.

Lemma mode_or_valid source mode d :
  mode_valid source d = true → mode_valid source (mode_or source mode d) = true.
Proof.
  intros Hd. unfold mode_or. destruct mode as [m|]; [|done].
  fold (mode_valid source m). by destruct (mode_valid source m) eqn:E.
Qed.

Lemma mode_or_id source m d : mode_valid source m = true → mode_or source (Some m) d = m.
Proof. unfold mode_or. fold (mode_valid source m). by intros ->. Qed.

Lemma normalize_mode_valid pc :
  mode_valid (cond_source (normalizeCondition pc)) (cond_mode (normalizeCondition pc)) = true.
Proof.
  unfold normalizeCondition. destruct (opt_eqb (pc_source pc) SOURCE_TIME); cbn [cond_source cond_mode].
  - by apply mode_or_valid.
  - by destruct (opt_eqb (pc_source pc) SOURCE_HEADER); apply mode_or_valid.
Qed.

(** The modes the editor offers for each source of a condition. *)
Definition offered_modes (source : jsstr) : list jsstr :=
  if str_eqb source "time" then ["eq"; "gte"; "lt"; "range"]
  else if str_eqb source "header" then ["eq"; "contains"; "exists"]
  else ["eq"; "contains"; "exists"; "gt"; "gte"; "lt"; "lte"].

Lemma mode_valid_spec source m : mode_valid source m = true ↔ m ∈ offered_modes source.
Proof.
  unfold mode_valid, offered_modes, getRequestRuleMatchOptions.
  change (str_eqb source SOURCE_TIME) with (str_eqb source "time").
  change (str_eqb source SOURCE_HEADER) with (str_eqb source "header").
  destruct (str_eqb source "time"), (str_eqb source "header");
    cbn [existsb app mo_value]; rewrite !orb_true_iff, !str_eqb_eq, !elem_of_cons, elem_of_nil;
    unfold MATCH_EQ, MATCH_GTE, MATCH_LT, MATCH_RANGE, MATCH_CONTAINS, MATCH_EXISTS, MATCH_GT,
      MATCH_LTE; intuition congruence.
Qed.

(** A complete condition: a mode offered for its source and, of a time, a zone. *)
Definition complete_condition (c : RequestCondition) : Prop :=
  cond_mode c ∈ offered_modes (cond_source c)
  ∧ match c with CTime t => tc_timezone t ≠ [] | CPH _ => True end.

(** [gives o d x]: [x] is the given text, or [d] when none is given. *)
Definition gives (o : option jsstr) (d x : jsstr) : Prop :=
  match o with Some v => x = v | None => x = d end.

(** What a normalized condition [c] takes from a partial one: an offered mode
    is kept and any other is the default; the texts are those given; a time has
    the given function when there is one of that name, and the given zone when it
    is not empty. *)
Definition normalizes (pc : PartialCondition) (c : RequestCondition) : Prop :=
  (∀ m, pc_mode pc = Some m → m ∈ offered_modes (cond_source c) → cond_mode c = m)
  ∧ match c with
    | CTime t =>
        pc_source pc = Some SOURCE_TIME
        ∧ ((∀ m, pc_mode pc = Some m → m ∉ offered_modes SOURCE_TIME) → tc_mode t = MATCH_GTE)
        ∧ gives (pc_value pc) [] (tc_value t)
        ∧ gives (pc_rangeStart pc) [] (tc_rangeStart t)
        ∧ gives (pc_rangeEnd pc) [] (tc_rangeEnd t)
        ∧ (∀ f, pc_timeFunc pc = Some (timeFunc_str f) → tc_timeFunc t = f)
        ∧ ((∀ f, pc_timeFunc pc ≠ Some (timeFunc_str f)) → tc_timeFunc t = TF_hour)
        ∧ (∀ z, pc_timezone pc = Some z → z ≠ [] → tc_timezone t = z)
    | CPH p =>
        pc_source pc ≠ Some SOURCE_TIME
        ∧ (ph_source p = SHeader ↔ pc_source pc = Some SOURCE_HEADER)
        ∧ ((∀ m, pc_mode pc = Some m → m ∉ offered_modes (cond_source c)) → ph_mode p = MATCH_EQ)
        ∧ gives (pc_path pc) [] (ph_path p)
        ∧ gives (pc_value pc) [] (ph_value p)
    end.

Lemma opt_eqb_spec o s : opt_eqb o s = true ↔ o = Some s.
Proof. destruct o; simpl; [rewrite str_eqb_eq|]; split; congruence. Qed.

Lemma mode_or_kept source o d m :
  o = Some m → m ∈ offered_modes source → mode_or source o d = m.
Proof. intros -> H%mode_valid_spec. by apply mode_or_id. Qed.

Lemma mode_or_default source o d :
  (∀ m, o = Some m → m ∉ offered_modes source) → mode_or source o d = d.
Proof.
  intros H. destruct o as [m|]; [|done]. unfold mode_or. fold (mode_valid source m).
  destruct (mode_valid source m) eqn:E; [|done]. by destruct (H m eq_refl (proj1 (mode_valid_spec _ _) E)).
Qed.

Lemma default_gives o : gives o [] (default [] o).
Proof. by destruct o. Qed.

Lemma str_or_gives o : gives o [] (str_or o []).
Proof. by destruct o as [[|]|]. Qed.

Lemma timeFunc_of_other o :
  (∀ f, o ≠ Some (timeFunc_str f)) → o ≫= timeFunc_of_str = None.
Proof.
  intros H. destruct o as [s|]; [|done]. change (timeFunc_of_str s = None).
  destruct (timeFunc_of_str s) as [f|] eqn:E; [|done]. apply find_some in E as [_ E%str_eqb_eq].
  by destruct (H f); rewrite E.
Qed.

Lemma normalize_complete c :
  complete_condition c → normalizeCondition (partial_of c) = c.
Proof.
  intros [Hm%mode_valid_spec Hz]. destruct c as [[f z m v rs re]|[src path m v]];
    cbn [partial_of cond_source cond_mode tc_mode ph_mode ph_source tc_timezone] in *.
  - unfold normalizeCondition. cbn [partial_time pc_source opt_eqb]. rewrite str_eqb_refl.
    cbn [pc_timeFunc pc_timezone pc_mode pc_value pc_rangeStart pc_rangeEnd tc_timeFunc tc_timezone
      tc_mode tc_value tc_rangeStart tc_rangeEnd partial_time].
    change (Some (timeFunc_str f) ≫= timeFunc_of_str) with (timeFunc_of_str (timeFunc_str f)).
    rewrite timeFunc_of_to, (mode_or_id SOURCE_TIME) by done. by destruct z.
  - unfold normalizeCondition. destruct src;
      cbn [partial_ph pc_source opt_eqb phSource_str pc_path pc_mode pc_value ph_path ph_mode
        ph_value ph_source partial_ph] in *;
      [change (str_eqb SOURCE_PARAM SOURCE_TIME) with false;
       change (str_eqb SOURCE_PARAM SOURCE_HEADER) with false
      |change (str_eqb SOURCE_HEADER SOURCE_TIME) with false;
       change (str_eqb SOURCE_HEADER SOURCE_HEADER) with true];
      cbn [phSource_str]; rewrite mode_or_id by done; by destruct path.
Qed.

Lemma normalize_is_complete pc : complete_condition (normalizeCondition pc).
Proof.
  split; [apply mode_valid_spec, normalize_mode_valid|]. unfold normalizeCondition.
  destruct (opt_eqb _ _); [|done]. by destruct (pc_timezone pc) as [[|]|].
Qed.

Lemma normalize_normalizes pc : normalizes pc (normalizeCondition pc).
Proof.
  unfold normalizes, normalizeCondition.
  destruct (opt_eqb (pc_source pc) SOURCE_TIME) eqn:Et; cbn [cond_source cond_mode].
  - apply opt_eqb_spec in Et.
    split_and!; cbn [tc_mode tc_value tc_rangeStart tc_rangeEnd tc_timeFunc tc_timezone];
      auto using mode_or_kept, mode_or_default, default_gives.
    + intros f ->. change (default TF_hour (timeFunc_of_str (timeFunc_str f)) = f).
      by rewrite timeFunc_of_to.
    + intros H. by rewrite timeFunc_of_other.
    + intros z -> Hz. by destruct z.
  - assert (Ht : pc_source pc ≠ Some SOURCE_TIME) by (intros E%opt_eqb_spec; congruence).
    cbn [ph_source ph_mode ph_path ph_value].
    split_and!; auto using mode_or_kept, mode_or_default, default_gives, str_or_gives.
    rewrite <- opt_eqb_spec. by destruct (opt_eqb (pc_source pc) SOURCE_HEADER).
Qed.

(** Rule groups as texts, for the components that store them. *)
#[export] Instance rules_codec : Codec (list RequestRuleGroup) := {
  encode := buildRequestRuleExpr; decode := tryParseRequestRuleExpr; readable := forallb wf_group;
  normal := λ gs, gs;
  decode_encode := λ gs H, eq_trans (f_equal _ (build_rules gs H)) (parse_rules gs H);
  encode_normal := λ gs _, eq_refl
}.

(** ** The properties *)



(** C2: saving and loading a billing expression: combining a base expression
    with the text of at least one rule group and splitting the result gives back
    the base expression and the rule text. The groups are those the parser reads
    back ([wf_group], as above: no null-checked condition of a parameter), and
    the base ([wf_base]) is not empty, is trimmed, has balanced parentheses, is not
    in parentheses as a whole and does not end with [ : 1] as a rule factor does. *)
Theorem combine_split_roundtrip base gs :
  wf_base base = true → forallb wf_group gs = true → gs ≠ [] →
  splitBillingExprAndRequestRules (combineBillingExpr base (buildRequestRuleExpr gs))
  = Ok {| billingExpr := base; requestRuleExpr := buildRequestRuleExpr gs |}.
Proof. exact (split_combine base gs). Qed.

Lemma combine_split_roundtrip_witness :
  splitBillingExprAndRequestRules
    (combineBillingExpr "tier(\qbase\q, p * 2.5 + c * 15)" (buildRequestRuleExpr ex_groups))
  = Ok {| billingExpr := "tier(\qbase\q, p * 2.5 + c * 15)";
          requestRuleExpr := buildRequestRuleExpr ex_groups |}.
Proof.
  apply combine_split_roundtrip; [vm_compute; reflexivity|vm_compute; reflexivity|discriminate].
Defined.

(** One condition survives the round trip through its expression text, on
    every source, mode and time function the builder accepts. *)
Theorem condition_roundtrip c :
  wf_cond c = true →
  tryParseRequestCondition (buildRequestConditionExpr c) = Ok (Some c).
Proof. intros H. rewrite build_cond by done. by apply parse_cond_text. Qed.

Lemma condition_roundtrip_witness :
  tryParseRequestCondition (buildRequestConditionExpr ex_time) = Ok (Some ex_time).
Proof. apply condition_roundtrip. vm_compute. reflexivity. Defined.

(** A parameter condition that the builder guards with a null check
    ([contains] and the four comparisons) is not read back when it is the
    condition of a rule group: the separator [ && ] of the guard is also the
    separator of conditions, so the parser cuts the condition in two and returns
    [null] for the whole rule expression. *)
Theorem null_checked_not_read_back c mult :
  wf_ph c = true → null_checked c = true → balanced (JSON_stringify_str (ph_value c)) = true →
  is_numeric mult = true →
  tryParseRequestRuleExpr
    (buildRequestRuleExpr [{| conditions := [CPH c]; multiplier := mult |}]) = Ok None.
Proof. exact (null_checked_unparsed c mult). Qed.

Lemma null_checked_not_read_back_witness :
  tryParseRequestRuleExpr
    (buildRequestRuleExpr
       [{| conditions := [ph_cond SParam "max_tokens" MATCH_GT "5"]; multiplier := "2" |}])
  = Ok None.
Proof.
  apply (null_checked_not_read_back
           {| ph_source := SParam; ph_path := "max_tokens"; ph_mode := MATCH_GT; ph_value := "5" |});
    vm_compute; reflexivity.
Defined.

(** A quoted text that is not a JSON string makes the parser throw instead
    of returning [null]: the exception of [JSON.parse] in a header test escapes
    [tryParseRequestRuleExpr] and, for a combined expression,
    [splitBillingExprAndRequestRules] too. *)
Theorem invalid_literal_throws base path body mult :
  wf_base base = true → plain path = true → path ≠ [] → quoted_body body →
  balanced body = true → is_numeric mult = true →
  JSON_parse (34%N :: body ++ [34%N]) = None →
  tryParseRequestRuleExpr (factor_text (raw_has_text path body) mult) = Throw
  ∧ splitBillingExprAndRequestRules
      (combineBillingExpr base (factor_text (raw_has_text path body) mult)) = Throw.
Proof.
  intros Hb Hp Hne Hq Hbal Hm Hj.
  assert (Ht : tryParseRequestRuleExpr (factor_text (raw_has_text path body) mult) = Throw)
    by by apply raw_has_rule_throws.
  split; [done|]. apply split_base_throws; [done| |done].
  apply factor_part; [done|]. pose proof (raw_has_part path body Hp Hbal) as Hpart.
  unfold part_ok in Hpart. by bool_prop.
Qed.

Lemma invalid_literal_throws_witness :
  splitBillingExprAndRequestRules
    (combineBillingExpr "tier(\qbase\q, p * 1)"
       (factor_text (raw_has_text "x-mode" "\\d") "2")) = Throw.
Proof.
  apply (invalid_literal_throws "tier(\qbase\q, p * 1)" "x-mode" "\\d" "2");
    try (vm_compute; reflexivity); [discriminate|].
  apply (qb_escape 100%N []); [reflexivity|constructor].
Defined.

(** C38: [unwrapOuterParens] terminates with exactly the outer parentheses taken
    off: its result is what is left of the trimmed text when pairs of
    parentheses around a balanced text (each opens before it closes, and all are
    closed) are taken off one after the other with the white space next to them,
    nothing else being lost; and the result is trimmed and is not itself a balanced
    text in parentheses. *)
Theorem unwrapOuterParens_done expr :
  wrapped (trim expr) (unwrapOuterParens expr)
  ∧ trimmed (unwrapOuterParens expr) = true
  ∧ ∀ inner, balanced inner = true → unwrapOuterParens expr ≠ "(" ++ inner ++ ")".
Proof.
  split_and!; [apply unwrap_loop_wrapped|apply unwrap_loop_trimmed, trimmed_trim|].
  intros inner Hb E.
  assert (H : hasFullOuterParens (unwrapOuterParens expr) = false) by by apply unwrap_loop_done.
  by rewrite E, balanced_outer in H.
Qed.

(** C39: [normalizeCondition] completes any partial condition and keeps what is
    usable of it: the result is complete (its mode is offered for its source,
    and a time has a zone); the source is the given one, or the parameters when it
    is none of the three; an offered mode, the path, the value, the range, the
    known time function and a zone that is not empty are kept, and only a
    missing or unusable one is replaced by its default; and a condition that is
    complete is not changed. *)
Theorem normalizeCondition_valid pc :
  complete_condition (normalizeCondition pc)
  ∧ normalizes pc (normalizeCondition pc)
  ∧ ∀ c, complete_condition c → normalizeCondition (partial_of c) = c.
Proof.
  split_and!; [apply normalize_is_complete|apply normalize_normalizes|apply normalize_complete].
Qed.

(** The two top-level splitters undo joining: parts whose parentheses
    balance, that are trimmed and have the separator only inside parentheses,
    come back unchanged from the text that joins them. *)
Theorem splitters_undo_join parts :
  parts ≠ [] →
  (forallb (part_ok "* ") parts = true → splitTopLevelMultiply (join SEP_MUL parts) = parts)
  ∧ (forallb (part_ok "&& ") parts = true → splitTopLevelAnd (join SEP_AND parts) = parts).
Proof. intros Hne. destruct splits_join as [H1 H2]. split; auto. Qed.

Lemma splitters_undo_join_witness :
  splitTopLevelMultiply (join SEP_MUL ["(a * b)"; "c"; "f(x)"]) = ["(a * b)"; "c"; "f(x)"]
  ∧ splitTopLevelAnd (join SEP_AND ["(a && b)"; "c"]) = ["(a && b)"; "c"].
Proof.
  split; [apply (splitters_undo_join ["(a * b)"; "c"; "f(x)"])|apply (splitters_undo_join ["(a && b)"; "c"])];
    try discriminate; vm_compute; reflexivity.
Defined.
