(* ===== verification/TierExpr.v ===== *)
(** * The visual tier editor: [web/default/src/features/pricing/lib/tier-expr.ts]

    A visual configuration is a list of price tiers; the editor writes it as a
    billing expression and reads such an expression back.  The local evaluation of
    an expression hands the text to the JavaScript engine and is not part of the
    model. *)
From Stdlib Require Import NArith ZArith.
From stdpp Require Import list numbers.
From S2P Require Import Prelude JsString Regex JsNumber Json BillingExpr.

(** ** Tiers *)

Inductive CacheMode : Type := CACHE_MODE_TIMED | CACHE_MODE_GENERIC.

(** [number | string]: a text while the field is being edited. *)
Inductive CondValue : Type :=
| CVNum (n : number)
| CVStr (s : jsstr).

Record TierConditionInput : Type := {
  tci_var : TierVar;
  tci_op : TierOp;
  tci_value : CondValue
}.

(** The optional unit costs are [vt_costs], by field name. *)
Record VisualTier : Type := {
  vt_label : jsstr;
  vt_conditions : list TierConditionInput;
  vt_input_unit_cost : number;
  vt_output_unit_cost : number;
  vt_cache_mode : CacheMode;
  vt_costs : list (jsstr * number)
}.

(** [Partial<VisualTier>]: a property that is missing is [None], or not in the
    list of the costs. *)
Record PartialTier : Type := {
  p_label : option jsstr;
  p_conditions : option (list TierConditionInput);
  p_input_unit_cost : option number;
  p_output_unit_cost : option number;
  p_cache_mode : option CacheMode;
  p_costs : list (jsstr * number)
}.

Abbreviation VisualConfig := (list VisualTier).

Definition CACHE_1H_FIELD : jsstr := "cache_create_1h_unit_cost".

(** [Number(tier[field])] of a number or a missing property. *)
Definition cost_of (field : jsstr) (costs : list (jsstr * number)) : number :=
  default NaN (assoc_get field costs).

Definition getTierCacheMode (tier : PartialTier) : CacheMode :=
  match p_cache_mode tier with
  | Some m => m
  | None => if num_ltb zero (cost_of CACHE_1H_FIELD (p_costs tier))
            then CACHE_MODE_TIMED else CACHE_MODE_GENERIC
  end.

(** The spread [...tier] puts the given label, costs of input and output, mode and
    conditions back as they are; the other costs are normalized after it. *)
Definition normalizeVisualTier (tier : PartialTier) : VisualTier :=
  {| vt_label := default [] (p_label tier);
     vt_conditions := default [] (p_conditions tier);
     vt_input_unit_cost := default zero (p_input_unit_cost tier);
     vt_output_unit_cost := default zero (p_output_unit_cost tier);
     vt_cache_mode := getTierCacheMode tier;
     vt_costs := map (λ '(field, _), (field, num_or (cost_of field (p_costs tier)) zero))
                   BILLING_CACHE_VAR_MAP |}.

Definition partial_of (tier : VisualTier) : PartialTier :=
  {| p_label := Some (vt_label tier); p_conditions := Some (vt_conditions tier);
     p_input_unit_cost := Some (vt_input_unit_cost tier);
     p_output_unit_cost := Some (vt_output_unit_cost tier);
     p_cache_mode := Some (vt_cache_mode tier); p_costs := vt_costs tier |}.

Definition createDefaultVisualConfig : VisualConfig :=
  [normalizeVisualTier
     {| p_label := Some "base"; p_conditions := Some []; p_input_unit_cost := Some zero;
        p_output_unit_cost := Some zero; p_cache_mode := Some CACHE_MODE_GENERIC;
        p_costs := [] |}].

Definition normalizeVisualConfig (config : option VisualConfig) : VisualConfig :=
  match config with
  | None | Some [] => createDefaultVisualConfig
  | Some tiers => map (λ tier, normalizeVisualTier (partial_of tier)) tiers
  end.

(** ** The text of a configuration *)

Definition tierVar_str (v : TierVar) : jsstr :=
  match v with TV_p => "p" | TV_c => "c" | TV_len => "len" end.

Definition tierOp_str (o : TierOp) : jsstr :=
  match o with OpLt => "<" | OpLe => "<=" | OpGt => ">" | OpGe => ">=" end.

Definition condValue_str (v : CondValue) : jsstr :=
  match v with CVNum n => Number_toString n | CVStr s => s end.

(** A variable and an operator are never empty. *)
Definition condition_given (c : TierConditionInput) : bool :=
  match tci_value c with CVStr s => nonempty s | CVNum _ => true end.

Definition condition_str (c : TierConditionInput) : jsstr :=
  tierVar_str (tci_var c) ++ " " ++ tierOp_str (tci_op c) ++ " " ++ condValue_str (tci_value c).

Definition buildConditionStr (conditions : list TierConditionInput) : jsstr :=
  join " && " (map condition_str (List.filter condition_given conditions)).

Definition coeff_str (var : jsstr) (v : number) : jsstr := var ++ " * " ++ Number_toString v.

Definition buildTierBodyExpr (tier : VisualTier) : jsstr :=
  let ic := num_or (vt_input_unit_cost tier) zero in
  let oc := num_or (vt_output_unit_cost tier) zero in
  join " + "
    (coeff_str "p" ic :: coeff_str "c" oc
     :: omap (λ '(field, exprVar),
                let v := num_or (cost_of field (vt_costs tier)) zero in
                if num_eqb v zero then None else Some (coeff_str exprVar v))
          BILLING_CACHE_VAR_MAP).

Definition tier_call (label : jsstr) (tier : VisualTier) : jsstr :=
  "tier(\q" ++ label ++ "\q, " ++ buildTierBodyExpr tier ++ ")".

Definition EMPTY_EXPR : jsstr := "p * 0 + c * 0".

Definition label_or (label d : jsstr) : jsstr := if nonempty label then label else d.

(** The loop over several tiers, from the tier with number [i]. *)
Fixpoint tier_parts (i : nat) (tiers : list VisualTier) : list jsstr :=
  match tiers with
  | [] => []
  | tier :: rest =>
      let label := label_or (vt_label tier) ("tier_" ++ to_dec (N.of_nat i)) in
      let body := tier_call label tier in
      let cond := buildConditionStr (vt_conditions tier) in
      (match rest with
       | _ :: _ => if nonempty cond then cond ++ " ? " ++ body else body
       | [] => body
       end) :: tier_parts (S i) rest
  end.

Definition generateExprFromVisualConfig (config : option VisualConfig) : jsstr :=
  match config with
  | None | Some [] => EMPTY_EXPR
  | Some [tier] =>
      let body := tier_call (label_or (vt_label tier) "default") tier in
      let cond := buildConditionStr (vt_conditions tier) in
      if nonempty cond then cond ++ " ? " ++ body ++ " : " ++ EMPTY_EXPR else body
  | Some tiers => join " : " (tier_parts 1 tiers)
  end.

(** ** Reading an expression *)

Definition visual_version_regex : regex :=
  rseq [RStart; RLit "v"; rplus rdigit; RLit ":"; RGroup 1 (RStar rany); REnd].

(** A variable, the sign of multiplication and a number in group [i]. *)
Definition rcoeff (v : jsstr) (i : nat) : list regex :=
  [RLit v; rspaces; RLit "*"; rspaces; RGroup i rnum].

Definition rplus_sign : list regex := [rspaces; RLit "+"; rspaces].

(** [optCacheStr], the groups numbered from [i]. *)
Fixpoint optCache (vars : list jsstr) (i : nat) : list regex :=
  match vars with
  | [] => []
  | v :: r => ropt (rseq (rplus_sign ++ rcoeff v i)) :: optCache r (S i)
  end.

Definition bodyPat (i : nat) : list regex :=
  rcoeff "p" i ++ rplus_sign ++ rcoeff "c" (S i)
  ++ optCache (map snd BILLING_CACHE_VAR_MAP) (S (S i)).

(** The call of [tier] with its label in group [i] and the body after it. *)
Definition tierPat (i : nat) : list regex :=
  [RLit "tier(\q"; RGroup i (RStar rnotquote); RLit "\q,"; rspaces] ++ bodyPat (S i) ++ [RLit ")"].

Definition singleRe : regex := RSeq RStart (rseq (tierPat 1 ++ [REnd])).

Definition visualTierRe : regex :=
  rseq (ropt (rseq [condGroup; rspaces; RLit "?"; rspaces]) :: tierPat 2).

(** The costs a match gives: the groups from number [i] on. *)
Fixpoint matched_costs (m : match_result) (vars : list (jsstr * jsstr)) (i : nat)
    : list (jsstr * number) :=
  match vars with
  | [] => []
  | (field, _) :: r =>
      match grp_opt m i with
      | Some val => (field, Number_of_string val) :: matched_costs m r (S i)
      | None => matched_costs m r (S i)
      end
  end.

(** The tier of a match whose label is group [i]. *)
Definition matched_tier (m : match_result) (i : nat) (conditions : list TierConditionInput)
    : VisualTier :=
  normalizeVisualTier
    {| p_label := Some (grp m i); p_conditions := Some conditions;
       p_input_unit_cost := Some (Number_of_string (grp m (S i)));
       p_output_unit_cost := Some (Number_of_string (grp m (S (S i))));
       p_cache_mode := None;
       p_costs := matched_costs m BILLING_CACHE_VAR_MAP (S (S (S i))) |}.

(** The conditions are read as in [parseTiersFromExpr]. *)
Definition condition_input (c : TierCondition) : TierConditionInput :=
  {| tci_var := cond_var c; tci_op := cond_op c; tci_value := CVNum (cond_value c) |}.

Definition matched_conditions (m : match_result) : list TierConditionInput :=
  map condition_input (parseTierConditions (default [] (grp_opt m 1))).

Definition without_spaces (s : jsstr) : jsstr := re_replaceAll spaces_regex [] s.

Definition tryParseVisualConfig (exprStr : jsstr) : option VisualConfig :=
  if nonempty exprStr then
    let body := match re_match visual_version_regex exprStr with
                | Some m => grp m 1
                | None => exprStr
                end in
    match re_match singleRe body with
    | Some m => Some (normalizeVisualConfig (Some [matched_tier m 1 []]))
    | None =>
        match map (λ m, matched_tier m 2 (matched_conditions m)) (re_matchAll visualTierRe body) with
        | [] => None
        | tiers =>
            let cfg := normalizeVisualConfig (Some tiers) in
            if str_eqb (without_spaces (generateExprFromVisualConfig (Some cfg)))
                 (without_spaces body)
            then Some cfg else None
        end
    end
  else None.

(** ** The estimator's variables *)

(** Pairs of [var] and [stateKey]. *)
Definition ESTIMATOR_VARS : list (jsstr * jsstr) :=
  [("cr", "cacheReadTokens"); ("cc", "cacheCreateTokens"); ("cc1h", "cacheCreate1hTokens");
   ("img", "imageTokens"); ("img_o", "imageOutputTokens"); ("ai", "audioInputTokens");
   ("ao", "audioOutputTokens")].

Definition exprUsesExtraVars (exprStr : jsstr) : bool :=
  nonempty exprStr
  && re_test (rseq [RWordB; RGroup 1 (ralt (map (λ '(v, _), RLit v) ESTIMATOR_VARS)); RWordB]) exprStr.

(** ** Samples *)

Definition sample_tier (label : jsstr) (conds : list TierConditionInput) (i o : jsstr)
    (costs : list (jsstr * jsstr)) : VisualTier :=
  normalizeVisualTier
    {| p_label := Some label; p_conditions := Some conds;
       p_input_unit_cost := Some (Number_of_string i);
       p_output_unit_cost := Some (Number_of_string o); p_cache_mode := None;
       p_costs := map (λ '(f, v), (f, Number_of_string v)) costs |}.

Definition sample_config : VisualConfig :=
  [sample_tier "short" [{| tci_var := TV_len; tci_op := OpLe; tci_value := CVNum (num_of_Z 200000) |};
                        {| tci_var := TV_c; tci_op := OpLt; tci_value := CVNum (num_of_Z 8000) |}]
     "2.5" "15" [("cache_read_unit_cost", "0.25"); ("audio_output_unit_cost", "1e-7")];
   sample_tier "long" [] "5" "22.5" [("cache_create_1h_unit_cost", "3")]].

Example sample_text :
  generateExprFromVisualConfig (Some sample_config)
  = "len <= 200000 && c < 8000 ? tier(\qshort\q, p * 2.5 + c * 15 + cr * 0.25 + ao * 1e-7) : tier(\qlong\q, p * 5 + c * 22.5 + cc1h * 3)".
Proof. vm_compute. reflexivity. Qed.

Example sample_read :
  tryParseVisualConfig (generateExprFromVisualConfig (Some sample_config)) = Some sample_config.
Proof. vm_compute. reflexivity. Qed.

Example sample_single :
  let cfg := [sample_tier "base" [] "1" "2" [("image_unit_cost", "0.5")]] in
  tryParseVisualConfig ("v1:" ++ generateExprFromVisualConfig (Some cfg)) = Some cfg.
Proof. vm_compute. reflexivity. Qed.

Example extra_vars : map exprUsesExtraVars ["p * 1 + cc1h * 2"; "p * 1 + cco * 2"; []] = [true; false; false].
Proof. vm_compute. reflexivity. Qed.
