(* ===== verification/TierRoundtrip.v ===== *)
(** * The visual tier editor reads back what it writes

    The patterns of the tier parser are ambiguous (a number may hold signs, a sign
    may follow a number), so the proofs follow the match the engine prefers:
    [prefers r s s'] says that the first match of [r] at [s] ends at [s']. *)
From Stdlib Require Import NArith ZArith.
From Stdlib Require Import Floats.SpecFloat.
From stdpp Require Import list numbers.
From S2P Require Import Prelude JsString Regex JsNumber Json JsArray JsonRoundtrip BillingExpr BillingRules.
From S2P Require Import TierExpr.

(** ** The preferred match *)

Definition prefers (r : regex) (s s' : mstate) : Prop := head (rmatch r s) = Some s'.

Lemma head_flat_map {A B} (f : A → list B) l x y :
  head l = Some x → head (f x) = Some y → head (flat_map f l) = Some y.
Proof.
  destruct l as [|z l]; [done|]. intros [= ->]. cbn [flat_map].
  destruct (f x); [done|]. by intros [= ->].
Qed.

Lemma prefers_seq r1 r2 s s1 s2 :
  prefers r1 s s1 → prefers r2 s1 s2 → prefers (RSeq r1 r2) s s2.
Proof. unfold prefers. cbn [rmatch]. apply head_flat_map. Qed.

Lemma prefers_lit w t p k : prefers (RLit w) (MS p (w ++ t) k) (MS (next_prev p w) t k).
Proof. unfold prefers. by rewrite rmatch_lit. Qed.

Lemma head_runs p w t k : head (runs p w t k) = Some (MS (next_prev p w) t k).
Proof.
  revert p; induction w as [|x w IH]; intros p; [done|]. cbn [runs next_prev].
  specialize (IH (Some x)). by destruct (runs (Some x) w t k).
Qed.

Lemma prefers_star neg c p w t k :
  forallb (in_cls neg c) w = true → stops (in_cls neg c) t = true →
  prefers (RStar (RCls neg c)) (MS p (w ++ t) k) (MS (next_prev p w) t k).
Proof. intros Hw Ht. unfold prefers. rewrite rmatch_star_cls by assumption. apply head_runs. Qed.

Lemma prefers_plus neg c p w t k :
  w ≠ [] → forallb (in_cls neg c) w = true → stops (in_cls neg c) t = true →
  prefers (rplus (RCls neg c)) (MS p (w ++ t) k) (MS (next_prev p w) t k).
Proof.
  intros Hne Hw Ht. destruct w as [|x w]; [done|]. unfold prefers. cbn [app].
  rewrite rmatch_plus_cls by assumption. apply (head_runs (Some x)).
Qed.

Lemma prefers_group i r p w t k p' k' :
  prefers r (MS p (w ++ t) k) (MS p' t k') →
  prefers (RGroup i r) (MS p (w ++ t) k) (MS p' t ((i, w) :: k')).
Proof.
  unfold prefers. rewrite rmatch_group. destruct (rmatch r _) as [|s l]; [done|].
  intros [= ->]. cbn [map head prev rest caps]. do 4 f_equal.
  rewrite length_app, Nat.add_sub. apply take_app_length.
Qed.

Lemma prefers_alt_l r1 r2 s s' : prefers r1 s s' → prefers (RAlt r1 r2) s s'.
Proof. unfold prefers. cbn [rmatch]. by destruct (rmatch r1 s). Qed.

Lemma prefers_alt_r r1 r2 s s' : rmatch r1 s = [] → prefers r2 s s' → prefers (RAlt r1 r2) s s'.
Proof. unfold prefers. cbn [rmatch]. by intros ->. Qed.

Lemma prefers_skip r s : rmatch r s = [] → prefers (ropt r) s s.
Proof. intros H. by apply prefers_alt_r. Qed.

(** A repetition does not depend on its fuel once that is enough. *)
Lemma star_iter_stable f gs n m s :
  length (rest s) ≤ n → length (rest s) ≤ m → star_iter f gs n s = star_iter f gs m s.
Proof.
  revert m s. induction n as [|n IH]; intros m s Hn Hm.
  - destruct m as [|m]; [done|]. cbn [star_iter].
    replace (List.filter _ _) with (@nil mstate); [done|].
    induction (f (clear_groups gs s)) as [|x l IHl]; [done|]. cbn [List.filter].
    destruct (Nat.ltb_spec (length (rest x)) (length (rest s))); [lia|exact IHl].
  - destruct m as [|m].
    + cbn [star_iter]. replace (List.filter _ _) with (@nil mstate); [done|].
      induction (f (clear_groups gs s)) as [|x l IHl]; [done|]. cbn [List.filter].
      destruct (Nat.ltb_spec (length (rest x)) (length (rest s))); [lia|exact IHl].
    + cbn [star_iter]. f_equal. induction (f (clear_groups gs s)) as [|x l IHl]; [done|].
      cbn [List.filter]. destruct (Nat.ltb_spec (length (rest x)) (length (rest s))) as [Hx|Hx];
        [|exact IHl]. cbn [flat_map]. rewrite IHl. f_equal. apply IH; lia.
Qed.

Lemma prefers_star_stop r s : rmatch r (clear_groups (groups_of r) s) = [] → prefers (RStar r) s s.
Proof.
  intros H. unfold prefers. rewrite rmatch_star. destruct (length (rest s)); [done|].
  cbn [star_iter]. by rewrite H.
Qed.

Lemma prefers_star_step r s s1 s' :
  prefers r (clear_groups (groups_of r) s) s1 → length (rest s1) < length (rest s) →
  prefers (RStar r) s1 s' → prefers (RStar r) s s'.
Proof.
  unfold prefers. rewrite !rmatch_star. intros H1 Hl H2.
  destruct (rmatch r _) as [|x l] eqn:E; [done|]. injection H1 as ->.
  destruct (length (rest s)) as [|n] eqn:En; [lia|]. cbn [star_iter]. rewrite E. cbn [List.filter].
  rewrite En, (proj2 (Nat.ltb_lt _ _) Hl). cbn [flat_map].
  rewrite (star_iter_stable _ _ n (length (rest s1))) by lia.
  destruct (star_iter _ _ _ s1); [done|]. by injection H2 as ->.
Qed.

(** ** Finding a match *)

Lemma exec_next r p c s idx :
  rmatch r (MS p (c :: s) []) = [] → exec r p (c :: s) idx = exec r (Some c) s (S idx).
Proof. intros H. cbn [exec]. by rewrite H. Qed.

(** ** The preferred match up to the unit before it *)

Definition goes (r : regex) (s : mstate) (t : jsstr) (k : list (nat * jsstr)) : Prop :=
  ∃ p, prefers r s (MS p t k).

Lemma goes_seq r1 r2 s t1 k1 t k :
  goes r1 s t1 k1 → (∀ p, goes r2 (MS p t1 k1) t k) → goes (RSeq r1 r2) s t k.
Proof. intros [p1 H1] H2. destruct (H2 p1) as [p2 H]. exists p2. by eapply prefers_seq. Qed.

Lemma goes_cons r l s t1 k1 t k :
  l ≠ [] → goes r s t1 k1 → (∀ p, goes (rseq l) (MS p t1 k1) t k) → goes (rseq (r :: l)) s t k.
Proof. intros Hl. destruct l as [|r' l]; [done|]. apply goes_seq. Qed.

Lemma rmatch_rseq_app l1 l2 s :
  l1 ≠ [] → l2 ≠ [] → rmatch (rseq (l1 ++ l2)) s = rmatch (RSeq (rseq l1) (rseq l2)) s.
Proof.
  revert s. induction l1 as [|r l1 IH]; intros s H1 H2; [done|].
  destruct l1 as [|r' l1]; [by destruct l2|].
  change (rseq ((r :: r' :: l1) ++ l2)) with (RSeq r (rseq ((r' :: l1) ++ l2))).
  change (rseq (r :: r' :: l1)) with (RSeq r (rseq (r' :: l1))).
  rewrite rmatch_seq_assoc, !rmatch_seq. apply flat_map_ext. intros s'. by apply IH.
Qed.

Lemma goes_app l1 l2 s t1 k1 t k :
  l1 ≠ [] → l2 ≠ [] → goes (rseq l1) s t1 k1 → (∀ p, goes (rseq l2) (MS p t1 k1) t k) →
  goes (rseq (l1 ++ l2)) s t k.
Proof.
  intros Hn1 Hn2 H1 H2. destruct (goes_seq _ _ _ _ _ _ _ H1 H2) as [p H]. exists p.
  unfold prefers in *. by rewrite rmatch_rseq_app.
Qed.

Lemma goes_lit w t p k : goes (RLit w) (MS p (w ++ t) k) t k.
Proof. eexists. apply prefers_lit. Qed.

Lemma goes_space t p k :
  stops (in_cls false cls_space) t = true → goes rspaces (MS p (32%N :: t) k) t k.
Proof. eexists. by apply (prefers_star false cls_space p [32%N]). Qed.

Lemma goes_no_space t p k :
  stops (in_cls false cls_space) t = true → goes rspaces (MS p t k) t k.
Proof. eexists. by apply (prefers_star false cls_space p []). Qed.

Lemma goes_group i r p w t k k' :
  goes r (MS p (w ++ t) k) t k' → goes (RGroup i r) (MS p (w ++ t) k) t ((i, w) :: k').
Proof. intros [p' H]. exists p'. by apply prefers_group. Qed.

Lemma goes_plus neg c p w t k :
  nonempty w = true → forallb (in_cls neg c) w = true → stops (in_cls neg c) t = true →
  goes (rplus (RCls neg c)) (MS p (w ++ t) k) t k.
Proof. intros. eexists. apply prefers_plus; try assumption. by destruct w. Qed.

Lemma goes_opt r s t k : goes r s t k → goes (ropt r) s t k.
Proof. intros [p H]. exists p. by apply prefers_alt_l. Qed.

Lemma goes_skip r p t k : rmatch r (MS p t k) = [] → goes (ropt r) (MS p t k) t k.
Proof. intros H. exists p. by apply prefers_skip. Qed.

Lemma exec_here r p s idx t k :
  goes r (MS p s []) t k →
  ∃ m, exec r p s idx = Some m ∧ m_caps m = k ∧ m_index m = idx ∧ m_tail m = t.
Proof.
  intros [p' H]. unfold prefers in H. destruct s; cbn [exec]; (destruct (rmatch r _); [done|]);
    injection H as ->; eauto.
Qed.

(** ** Searching a list of items

    A search that finds each item at its text and nothing between two items finds
    exactly the items of the text, whatever follows that holds none. *)
Section search.
Context {X B : Type} (R : regex) (text : X → jsstr) (ok : X → bool) (sep sfx : jsstr)
  (starts : option N → Prop) (read : match_result → B) (out : X → B).

(** What follows an item. *)
Definition follows (u : jsstr) : Prop := u = sfx ∨ ∃ s, u = sep ++ s.

Context (found : ∀ x p u i, ok x = true → starts p → follows u →
  ∃ m, exec R p (text x ++ u) i = Some m ∧ read m = out x ∧ m_tail m = u).
Context (between : ∀ p s i, exec R p (sep ++ s) i = exec R (Some 32%N) s (length sep + i)).
Context (starts_sep : starts (Some 32%N)) (stop : ∀ p, exec R p sfx 0 = None).

Lemma found_after x p pre u :
  ok x = true → follows u → pre = [] ∧ starts p ∨ pre = sep →
  ∃ m, exec R p (pre ++ text x ++ u) 0 = Some m ∧ read m = out x ∧ m_tail m = u.
Proof using found between starts_sep.
  intros Hx Hu [[-> Hp]| ->]; [by apply found|]. rewrite between. by apply found.
Qed.

Lemma search_all x l fuel p pre :
  forallb ok (x :: l) = true → length (x :: l) < fuel → pre = [] ∧ starts p ∨ pre = sep →
  map read (exec_all fuel R p (pre ++ join sep (map text (x :: l)) ++ sfx)) = map out (x :: l).
Proof using found between starts_sep stop.
  revert x fuel p pre. induction l as [|y l IH]; intros x [|fuel] p pre Hw Hf Hpre;
    cbn [length] in Hf; try lia; cbn [forallb] in Hw; apply andb_prop in Hw as [Hx Hw].
  - cbn [map join exec_all]. destruct (found_after x p pre sfx) as (m & -> & Hm & Ht); [done|by left|done|].
    cbn [map]. rewrite Ht, Hm. f_equal. destruct fuel as [|fuel]; [lia|]. cbn [exec_all]. by rewrite stop.
  - cbn [map]. rewrite join_cons, <- !app_assoc by done. cbn [exec_all].
    destruct (found_after x p pre (sep ++ join sep (map text (y :: l)) ++ sfx)) as (m & Em & Hm & Ht);
      [done|right; eauto|done|].
    cbn [map] in Em. rewrite Em. cbn [map]. rewrite Ht, Hm. f_equal.
    apply (IH y fuel (m_prev m) sep); [done|cbn [length]; lia|by right].
Qed.
End search.

(** ** Numbers and coefficients *)

(** The text of the number is made of units of the class and reads back. *)
Definition num_text_ok (c : cls) (n : number) : bool :=
  let t := Number_toString n in
  nonempty t && forallb (in_cls false c) t && sf_same (Number_of_string t) n.

Lemma num_text_back c n : num_text_ok c n = true → Number_of_string (Number_toString n) = n.
Proof. unfold num_text_ok. intros ?; bool_prop. by apply sf_same_eq. Qed.

(** A text made of units of the class. *)
Definition num_word (c : cls) (w : jsstr) : bool := nonempty w && forallb (in_cls false c) w.

Lemma num_text_word c n : num_text_ok c n = true → num_word c (Number_toString n) = true.
Proof. unfold num_text_ok, num_word. intros ?; bool_prop; done. Qed.

(** Text that a space cannot start. *)
Definition solid (s : jsstr) : bool :=
  match s with c :: _ => negb (in_cls false cls_space c) | [] => false end.

Lemma solid_stops s t : solid s = true → stops (in_cls false cls_space) (s ++ t) = true.
Proof. by destruct s. Qed.

(** The units of a number are not white space. *)
Lemma num_not_space c : in_cls false cls_num c = true → in_cls false cls_space c = false.
Proof.
  intros Hc%cls_num_range. unfold in_cls, cls_space. cbn [in_ranges].
  rewrite xorb_false_l. unit_decide.
Qed.

Lemma num_word_stops w t :
  num_word cls_num w = true → stops (in_cls false cls_space) (w ++ t) = true.
Proof.
  unfold num_word. intros ?; bool_prop. destruct w as [|c w]; [done|].
  cbn [forallb app stops] in *. bool_prop. by rewrite num_not_space.
Qed.

(** A coefficient is found in its own text. *)
Lemma goes_coeff_word v i w p k u :
  num_word cls_num w = true → stops (in_cls false cls_num) u = true →
  goes (rseq (rcoeff v i)) (MS p (v ++ " * " ++ w ++ u) k) u ((i, w) :: k).
Proof.
  intros Hw Hu. unfold rcoeff. cbn [app].
  eapply goes_cons; [done|apply goes_lit|]. intros p1.
  eapply goes_cons; [done|by apply goes_space|]. intros p2.
  eapply goes_cons; [done|by apply (goes_lit "*")|]. intros p3.
  eapply goes_cons; [done|apply goes_space; by apply num_word_stops|]. intros p4.
  unfold num_word in Hw. bool_prop. by apply goes_group, goes_plus.
Qed.

Lemma goes_coeff v i n p k u :
  num_text_ok cls_num n = true → stops (in_cls false cls_num) u = true →
  goes (rseq (rcoeff v i)) (MS p (coeff_str v n ++ u) k) u ((i, Number_toString n) :: k).
Proof.
  intros Hn Hu. unfold coeff_str. rewrite <- !app_assoc.
  by apply goes_coeff_word; [apply num_text_word|].
Qed.

(** The sign between two coefficients. *)
Lemma goes_sign p k u :
  stops (in_cls false cls_space) u = true →
  goes (rseq rplus_sign) (MS p (32%N :: 43%N :: 32%N :: u) k) u k.
Proof.
  intros Hu. unfold rplus_sign.
  eapply goes_cons; [done|by apply goes_space|]. intros p1.
  eapply goes_cons; [done|apply (goes_lit "+")|]. intros p2. by apply goes_space.
Qed.

Lemma coeff_stops v n u :
  solid v = true → stops (in_cls false cls_space) (coeff_str v n ++ u) = true.
Proof. intros H. unfold coeff_str. rewrite <- app_assoc. by apply solid_stops. Qed.

(** ** The optional coefficients *)

Definition present (n : number) : bool := negb (num_eqb n zero).

(** The text of the coefficients that are not 0, and the groups they set. *)
Fixpoint cost_text (l : list (jsstr * number)) : jsstr :=
  match l with
  | [] => []
  | (v, n) :: r => (if present n then " + " ++ coeff_str v n else []) ++ cost_text r
  end.

Fixpoint cost_caps (l : list (jsstr * number)) (i : nat) (k : list (nat * jsstr))
    : list (nat * jsstr) :=
  match l with
  | [] => k
  | (_, n) :: r => cost_caps r (S i) (if present n then (i, Number_toString n) :: k else k)
  end.

(** The coefficient of [v] is not found in the one of [w]. *)
Definition clash_free (v w : jsstr) : Prop :=
  ∀ r x p k,
    rmatch (RSeq (RLit v) (RSeq rspaces (RSeq (RLit "*") r))) (MS p (w ++ 32%N :: 42%N :: x) k) = [].

Lemma solid_rejects v r : solid v = true → rejects (in_cls false cls_space) (RSeq (RLit v) r).
Proof.
  destruct v as [|c v]; [done|]. cbn [solid]. intros H; bool_prop.
  by apply rejects_seq, rejects_lit.
Qed.

Lemma space_seq r p t k :
  rejects (in_cls false cls_space) r → stops (in_cls false cls_space) t = true →
  rmatch (RSeq rspaces r) (MS p (32%N :: t) k) = rmatch r (MS (Some 32%N) t k).
Proof. intros Hr Ht. by apply (rmatch_star_seq false cls_space r p [32%N]). Qed.

Lemma no_space_seq r p t k :
  rejects (in_cls false cls_space) r → stops (in_cls false cls_space) t = true →
  rmatch (RSeq rspaces r) (MS p t k) = rmatch r (MS p t k).
Proof. intros Hr Ht. by apply (rmatch_star_seq false cls_space r p []). Qed.

Lemma coeff_fail v w i p k x :
  solid v = true → solid w = true → clash_free v w →
  rmatch (rseq (rplus_sign ++ rcoeff v i)) (MS p (32%N :: 43%N :: 32%N :: w ++ 32%N :: 42%N :: x) k) = [].
Proof.
  intros Hv Hw Hc. unfold rplus_sign, rcoeff. cbn [app rseq].
  rewrite space_seq by (try reflexivity; apply solid_rejects; reflexivity).
  re_lit.
  rewrite space_seq by (by apply solid_rejects || by apply solid_stops). apply Hc.
Qed.

(** Nothing but a blank, a sign or the closing parenthesis follows a number. *)
Lemma cost_text_stops l u :
  stops (in_cls false cls_num) (cost_text l ++ 41%N :: u) = true.
Proof. induction l as [|[v n] l IH]; [done|]. cbn [cost_text]. by destruct (present n). Qed.

Lemma coeff_absent v i l u p k :
  solid v = true → Forall (λ w, solid w = true ∧ clash_free v w) (map fst l) →
  rmatch (rseq (rplus_sign ++ rcoeff v i)) (MS p (cost_text l ++ 41%N :: u) k) = [].
Proof.
  intros Hv Hl. induction l as [|[w n] l IH]; cbn [cost_text app] in *.
  - reflexivity.
  - inversion Hl as [|? ? [Hw Hc] Hr]; subst. destruct (present n); [|by apply IH].
    unfold coeff_str. text_norm. by apply coeff_fail.
Qed.

(** The names of a list of variables keep apart. *)
Fixpoint names_ok (l : list jsstr) : Prop :=
  match l with
  | [] => True
  | v :: r => solid v = true ∧ Forall (λ w, solid w = true ∧ clash_free v w) r ∧ names_ok r
  end.

Lemma goes_optCache l i p k u tail t' k' :
  names_ok (map fst l) → Forall (λ '(_, n), num_text_ok cls_num n = true) l → tail ≠ [] →
  (∀ p', goes (rseq tail) (MS p' (41%N :: u) (cost_caps l i k)) t' k') →
  goes (rseq (optCache (map fst l) i ++ tail)) (MS p (cost_text l ++ 41%N :: u) k) t' k'.
Proof.
  revert i p k. induction l as [|[v n] l IH]; intros i p k Hn Hw Hne Ht; [apply Ht|].
  cbn [map fst names_ok cost_text cost_caps optCache app] in *.
  destruct Hn as (Hv & Hc & Hn). inversion Hw as [|? ? Hw1 Hwr]; subst.
  assert (Hne' : optCache (map fst l) (S i) ++ tail ≠ []).
  { intros E%app_eq_nil. by destruct E. }
  destruct (present n); cbn [app].
  - rewrite <- app_assoc. cbn [app]. eapply goes_cons; [done| |].
    + apply goes_opt. eapply goes_app; [done|done|apply goes_sign; by apply coeff_stops|].
      intros p1. apply goes_coeff; [done|apply cost_text_stops].
    + intros p1. by apply IH.
  - eapply goes_cons; [done|apply goes_skip; by apply coeff_absent|]. intros p1. by apply IH.
Qed.

(** The names of the registry keep apart: a name that is the start of another is
    followed there by a letter or a digit. *)
Ltac clash :=
  intros r x p k; text_norm;
  first
    [ rewrite rmatch_lit_seq_fail by reflexivity; reflexivity
    | re_lit; rewrite no_space_seq by
        (try reflexivity; apply rejects_seq, rejects_lit; reflexivity);
      rewrite rmatch_lit_seq_fail by reflexivity; reflexivity ].

Lemma registry_names : names_ok (map snd BILLING_CACHE_VAR_MAP).
Proof.
  cbn [BILLING_CACHE_VAR_MAP BILLING_EXTRA_VARS].
  repeat (split; [reflexivity|split; [repeat constructor; clash|]]). exact I.
Qed.

(** ** One tier *)

Definition field_cost (tier : VisualTier) (field : jsstr) : number :=
  num_or (cost_of field (vt_costs tier)) zero.

Definition tier_costs (tier : VisualTier) : list (jsstr * number) :=
  map (λ '(field, var), (var, field_cost tier field)) BILLING_CACHE_VAR_MAP.

Lemma body_text tier :
  buildTierBodyExpr tier
  = coeff_str "p" (num_or (vt_input_unit_cost tier) zero)
    ++ " + " ++ coeff_str "c" (num_or (vt_output_unit_cost tier) zero)
    ++ cost_text (tier_costs tier).
Proof.
  unfold buildTierBodyExpr. rewrite join_concat_map. cbn [map concat]. rewrite <- !app_assoc.
  do 3 f_equal. unfold tier_costs, field_cost.
  induction BILLING_CACHE_VAR_MAP as [|[field var] l IH]; [done|].
  cbn [map cost_text omap list_omap]. unfold present. rewrite <- IH.
  destruct (num_eqb _ _); reflexivity.
Qed.

(** The label and the prices of a tier have texts that read back. *)
Definition wf_prices (tier : VisualTier) : bool :=
  forallb (in_cls true cls_quote) (vt_label tier) && nonempty (vt_label tier)
  && num_text_ok cls_num (num_or (vt_input_unit_cost tier) zero)
  && num_text_ok cls_num (num_or (vt_output_unit_cost tier) zero)
  && forallb (λ '(field, _), num_text_ok cls_num (field_cost tier field)) BILLING_CACHE_VAR_MAP.

Definition tier_caps (i : nat) (tier : VisualTier) (k : list (nat * jsstr)) : list (nat * jsstr) :=
  cost_caps (tier_costs tier) (S (S (S i)))
    ((S (S i), Number_toString (num_or (vt_output_unit_cost tier) zero))
     :: (S i, Number_toString (num_or (vt_input_unit_cost tier) zero))
     :: (i, vt_label tier) :: k).

Lemma tier_costs_ok tier :
  wf_prices tier = true → Forall (λ '(_, n), num_text_ok cls_num n = true) (tier_costs tier).
Proof.
  unfold wf_prices, tier_costs. intros ?; bool_prop. revert H0.
  induction BILLING_CACHE_VAR_MAP as [|[f v] l IH]; cbn [forallb map]; [constructor|].
  intros ?; bool_prop. constructor; auto.
Qed.

Lemma tier_costs_vars tier : map fst (tier_costs tier) = map snd BILLING_CACHE_VAR_MAP.
Proof. unfold tier_costs. rewrite map_map. by apply map_ext; intros [f v]. Qed.

(** A call of [tier] with any number words as its two prices. *)
Definition tier_text (label w1 w2 : jsstr) (l : list (jsstr * number)) : jsstr :=
  "tier(\q" ++ label ++ "\q, p * " ++ w1 ++ " + c * " ++ w2 ++ cost_text l ++ ")".

Lemma goes_tier_text i label w1 w2 l p k u :
  forallb (in_cls true cls_quote) label = true →
  num_word cls_num w1 = true → num_word cls_num w2 = true →
  map fst l = map snd BILLING_CACHE_VAR_MAP →
  Forall (λ '(_, n), num_text_ok cls_num n = true) l →
  goes (rseq (tierPat i)) (MS p (tier_text label w1 w2 l ++ u) k) u
    (cost_caps l (S (S (S i))) ((S (S i), w2) :: (S i, w1) :: (i, label) :: k)).
Proof.
  intros Hl H1 H2 Hv Hc. unfold tierPat, tier_text. text_norm.
  eapply goes_cons; [done|apply (goes_lit "tier(\q")|]. intros p1.
  eapply goes_cons; [done|apply goes_group; eexists; by apply prefers_star|]. intros p2.
  eapply goes_cons; [done|apply (goes_lit "\q,")|]. intros p3.
  eapply goes_cons; [done|by apply goes_space|]. intros p4.
  unfold bodyPat. rewrite <- !app_assoc.
  eapply goes_app; [done|done|by apply (goes_coeff_word "p")|]. intros p5.
  eapply goes_app; [done|done|by apply goes_sign|]. intros p6.
  eapply goes_app; [done|by destruct (optCache _ _)
                   |apply (goes_coeff_word "c"); [done|apply cost_text_stops]|].
  intros p7. rewrite <- Hv. apply goes_optCache; [rewrite Hv; apply registry_names|done|done|].
  intros p8. apply (goes_lit ")").
Qed.

Lemma goes_tier i tier p k u :
  wf_prices tier = true →
  goes (rseq (tierPat i)) (MS p (tier_call (vt_label tier) tier ++ u) k) u (tier_caps i tier k).
Proof.
  intros Hw. pose proof (tier_costs_ok tier Hw) as Hc. unfold wf_prices in Hw. bool_prop.
  unfold tier_call. rewrite body_text. unfold coeff_str. rewrite <- !app_assoc.
  pose proof (goes_tier_text i (vt_label tier)
    (Number_toString (num_or (vt_input_unit_cost tier) zero))
    (Number_toString (num_or (vt_output_unit_cost tier) zero)) (tier_costs tier) p k u) as G.
  unfold tier_text in G. rewrite <- !app_assoc in G.
  apply G; auto using num_text_word, tier_costs_vars.
Qed.

(** *** The tier of a match *)

Lemma cap_lookup_cost_caps l i j k : j < i → cap_lookup j (cost_caps l i k) = cap_lookup j k.
Proof.
  revert i k; induction l as [|[v n] l IH]; intros i k Hj; [done|]. cbn [cost_caps].
  rewrite IH by lia. destruct (present n); [|done]. cbn [cap_lookup].
  by rewrite (proj2 (Nat.eqb_neq j i)) by lia.
Qed.

Lemma matched_costs_eq (g : jsstr → number) m vars i k :
  m_caps m = cost_caps (map (λ '(field, var), (var, g field)) vars) i k →
  (∀ j, i ≤ j → cap_lookup j k = None) →
  matched_costs m vars i
  = omap (λ '(field, _), if present (g field)
                         then Some (field, Number_of_string (Number_toString (g field))) else None) vars.
Proof.
  revert i k; induction vars as [|[f v] vars IH]; intros i k Hm Hk; [done|].
  cbn [map cost_caps] in Hm. cbn [matched_costs omap list_omap]. unfold grp_opt.
  rewrite Hm at 1. rewrite cap_lookup_cost_caps by lia.
  rewrite (IH (S i) _ Hm).
  - destruct (present (g f)); cbn [cap_lookup]; [by rewrite Nat.eqb_refl|by rewrite Hk].
  - intros j Hj. destruct (present (g f)); cbn [cap_lookup]; [|apply Hk; lia].
    rewrite (proj2 (Nat.eqb_neq j i)) by lia. apply Hk. lia.
Qed.

(** The tier as the editor shows it after reading: prices as numbers, the cache
    mode from the price of the long cache. *)
Definition canonical_tier (conditions : list TierConditionInput) (tier : VisualTier) : VisualTier :=
  {| vt_label := vt_label tier; vt_conditions := conditions;
     vt_input_unit_cost := num_or (vt_input_unit_cost tier) zero;
     vt_output_unit_cost := num_or (vt_output_unit_cost tier) zero;
     vt_cache_mode := if num_ltb zero (field_cost tier CACHE_1H_FIELD)
                      then CACHE_MODE_TIMED else CACHE_MODE_GENERIC;
     vt_costs := map (λ '(field, _), (field, field_cost tier field)) BILLING_CACHE_VAR_MAP |}.

Lemma absent_zero x : present (num_or x zero) = false → num_or x zero = zero.
Proof.
  unfold present, num_or. intros H. destruct (num_truthy x) eqn:E; [|done].
  destruct x as [s|s| |s m e]; try destruct s; cbn in *; congruence.
Qed.

Lemma field_absent tier f : present (field_cost tier f) = false → field_cost tier f = zero.
Proof. apply absent_zero. Qed.

Lemma registry_fields : NoDup (map fst BILLING_CACHE_VAR_MAP).
Proof. apply nodup_keys_spec. reflexivity. Qed.

(** A field of the prices that were read. *)
Lemma cost_of_read (g : jsstr → number) (vars : list (jsstr * jsstr)) field :
  NoDup (map fst vars) → field ∈ map fst vars →
  cost_of field (omap (λ '(f, _), if present (g f) then Some (f, g f) else None) vars)
  = if present (g field) then g field else NaN.
Proof.
  unfold cost_of. induction vars as [|[f v] vars IH]; cbn [map fst]; [by intros _ ?%not_elem_of_nil|].
  rewrite list.NoDup_cons, elem_of_cons. intros [Hn Hd] Hin. cbn [omap list_omap].
  destruct (str_eqb_spec field f) as [->|Hne].
  - destruct (present (g f)); cbn [assoc_get]; [by rewrite str_eqb_refl|].
    clear IH Hd Hin. induction vars as [|[f' v'] vars IH]; [done|]. cbn [map fst] in Hn.
    apply not_elem_of_cons in Hn as [Hn1 Hn2]. cbn [omap list_omap].
    destruct (present (g f')); [|by apply IH]. cbn [assoc_get].
    rewrite (proj2 (str_eqb_neq f f') Hn1). by apply IH.
  - destruct Hin as [->|Hin]; [done|]. rewrite <- (IH Hd Hin). destruct (present (g f)); [|done].
    cbn [assoc_get]. by rewrite (proj2 (str_eqb_neq field f) Hne).
Qed.

(** What a match with the groups of a tier gives. *)
Lemma matched_tier_eq m i tier k conds :
  wf_prices tier = true → m_caps m = tier_caps i tier k → (∀ j, i ≤ j → cap_lookup j k = None) →
  matched_tier m i conds = canonical_tier conds tier.
Proof.
  intros Hw Hm Hk. unfold matched_tier.
  assert (Hg : ∀ j, j < S (S (S i)) → grp_opt m j
               = cap_lookup j ((S (S i), Number_toString (num_or (vt_output_unit_cost tier) zero))
                    :: (S i, Number_toString (num_or (vt_input_unit_cost tier) zero))
                    :: (i, vt_label tier) :: k)).
  { intros j Hj. unfold grp_opt. rewrite Hm. unfold tier_caps. by apply cap_lookup_cost_caps. }
  unfold grp. rewrite !Hg by lia. cbn [cap_lookup]. rewrite !Nat.eqb_refl.
  rewrite !(proj2 (Nat.eqb_neq _ _)) by lia. cbn [default from_option id].
  rewrite (matched_costs_eq (field_cost tier) _ _ _ _ Hm).
  2: { intros j Hj. cbn [cap_lookup]. rewrite !(proj2 (Nat.eqb_neq _ _)) by lia. apply Hk. lia. }
  unfold wf_prices in Hw. bool_prop.
  rewrite (omap_ext_in _ (λ '(f, _), if present (field_cost tier f) then Some (f, field_cost tier f) else None)).
  2: { intros [f v] Hin. destruct (present _); [|done]. rewrite (num_text_back cls_num); [done|].
       rewrite forallb_forall in H0. apply (H0 (f, v)). by apply list_elem_of_In. }
  rewrite !(num_text_back cls_num) by assumption.
  unfold normalizeVisualTier, canonical_tier, getTierCacheMode.
  cbn [p_label p_conditions p_input_unit_cost p_output_unit_cost p_cache_mode p_costs default from_option id].
  assert (Hread : ∀ f, f ∈ map fst BILLING_CACHE_VAR_MAP →
    cost_of f (omap (λ '(f, _), if present (field_cost tier f) then Some (f, field_cost tier f) else None)
                 BILLING_CACHE_VAR_MAP)
    = if present (field_cost tier f) then field_cost tier f else NaN)
    by (intros f Hf; by apply cost_of_read; [apply registry_fields|]).
  f_equal.
  - rewrite Hread by (apply str_mem_true; reflexivity).
    destruct (present (field_cost tier CACHE_1H_FIELD)) eqn:E; [done|].
    by rewrite (field_absent _ _ E).
  - apply map_ext_in. intros [f v] Hin. f_equal. rewrite Hread.
    + destruct (present (field_cost tier f)) eqn:E; [apply num_or_idem|]. symmetry. by apply field_absent.
    + apply list_elem_of_In, in_map_iff. by exists (f, v).
Qed.
