(* ===== verification/TierTheorems.v ===== *)
(** * Round trip of visual tier configurations

    The conditions of a tier, the search for all tiers of an expression, and the
    theorems on [tryParseVisualConfig]. *)
From Stdlib Require Import NArith ZArith.
From stdpp Require Import list numbers.
From S2P Require Import Prelude JsString Regex JsNumber Json JsArray JsonRoundtrip BillingExpr BillingRules.
From S2P Require Import TierExpr TierRoundtrip.

(** ** One condition *)

Definition cond_number (c : TierConditionInput) : number :=
  Number_of_string (condValue_str (tci_value c)).

(** The value is written the way its number prints, with the units of the pattern. *)
Definition wf_cond (c : TierConditionInput) : bool :=
  let t := condValue_str (tci_value c) in
  nonempty t && forallb (in_cls false cls_num_pos) t && str_eqb (Number_toString (cond_number c)) t.

Definition canonical_cond (c : TierConditionInput) : TierConditionInput :=
  {| tci_var := tci_var c; tci_op := tci_op c; tci_value := CVNum (cond_number c) |}.

Lemma canonical_cond_str c : wf_cond c = true → condition_str (canonical_cond c) = condition_str c.
Proof.
  unfold wf_cond, condition_str. intros ?; bool_prop. cbn. apply str_eqb_eq in H0. by rewrite H0.
Qed.

Lemma num_pos_range c : in_cls false cls_num_pos c = true → (43 ≤ c ≤ 101)%N.
Proof.
  unfold in_cls, cls_num_pos. simpl. rewrite !orb_true_iff, !andb_true_iff, !N.leb_le.
  intros H. destruct_or!; lia || done.
Qed.

Lemma num_pos_not_space c : in_cls false cls_num_pos c = true → in_cls false cls_space c = false.
Proof.
  intros Hc%num_pos_range. unfold in_cls, cls_space. cbn [in_ranges].
  rewrite xorb_false_l. unit_decide.
Qed.

Lemma num_pos_stops t u :
  nonempty t = true → forallb (in_cls false cls_num_pos) t = true →
  stops (in_cls false cls_space) (t ++ u) = true.
Proof.
  destruct t as [|c t]; [done|]. intros _. cbn [forallb app stops]. intros ?; bool_prop.
  by rewrite num_pos_not_space.
Qed.

Lemma prefers_second {A B} (f : A → list B) x y l z :
  f x = [] → head (f y) = Some z → head (flat_map f (x :: y :: l)) = Some z.
Proof. intros H1 H2. cbn [flat_map]. rewrite H1. cbn [app]. destruct (f y); [done|]. by injection H2 as ->. Qed.

(** After the operator comes a number, not the second sign of a longer operator. *)
Definition refuses_eq (r : regex) : Prop := ∀ p u k, rmatch r (MS p (61%N :: u) k) = [].

Lemma num_pos_rejects_space i r :
  rejects (in_cls false cls_space) rnum_pos
  ∧ rejects (in_cls false cls_space) (RSeq (RGroup i rnum_pos) r).
Proof.
  assert (H : rejects (in_cls false cls_space) rnum_pos).
  { apply rejects_seq, rejects_cls. intros x Hx. destruct (in_cls false cls_num_pos x) eqn:E; [|done].
    by rewrite (num_pos_not_space _ E) in Hx. }
  split; [done|]. by apply rejects_seq, rejects_group.
Qed.

Lemma refuses_eq_plain : refuses_eq (RSeq rspaces rnum_pos).
Proof. intros p u k. by rewrite no_space_seq by (done || apply (num_pos_rejects_space 0 REnd)). Qed.

Lemma refuses_eq_group i r : refuses_eq (RSeq rspaces (RSeq (RGroup i rnum_pos) r)).
Proof. intros p u k. by rewrite no_space_seq by (done || apply num_pos_rejects_space). Qed.

(** The operator a text gives, plain and captured. *)
Lemma goes_op o r p u k t' k' :
  refuses_eq r → (∀ p', goes r (MS p' (32%N :: u) k) t' k') →
  goes (RSeq rcond_op r) (MS p (tierOp_str o ++ 32%N :: u) k) t' k'.
Proof.
  intros Hr Hg. destruct o.
  1: destruct (Hg (Some 60%N)) as [q Hq].
  2: destruct (Hg (Some 61%N)) as [q Hq].
  3: destruct (Hg (Some 62%N)) as [q Hq].
  4: destruct (Hg (Some 61%N)) as [q Hq].
  all: exists q; unfold prefers in *; rewrite rmatch_seq.
  1, 3: by eapply head_flat_map; [reflexivity|exact Hq].
  all: by apply prefers_second; [apply Hr|].
Qed.

Lemma goes_op_group i o r p u k t' k' :
  refuses_eq r → (∀ p', goes r (MS p' (32%N :: u) ((i, tierOp_str o) :: k)) t' k') →
  goes (RSeq (RGroup i rcond_op) r) (MS p (tierOp_str o ++ 32%N :: u) k) t' k'.
Proof.
  intros Hr Hg.
  assert (Ht : ∀ w : jsstr, take (length (w ++ 32%N :: u) - length (32%N :: u)) (w ++ 32%N :: u) = w).
  { intros w. rewrite length_app, Nat.add_sub. apply take_app_length. }
  destruct o.
  1: destruct (Hg (Some 60%N)) as [q Hq].
  2: destruct (Hg (Some 61%N)) as [q Hq].
  3: destruct (Hg (Some 62%N)) as [q Hq].
  4: destruct (Hg (Some 61%N)) as [q Hq].
  all: exists q; unfold prefers in *; rewrite rmatch_seq, rmatch_group.
  all: rewrite <- (Ht (tierOp_str _)) in Hq.
  1, 3: by eapply head_flat_map; [reflexivity|exact Hq].
  all: by apply prefers_second; [apply Hr|exact Hq].
Qed.

Lemma goes_var v p u k : goes rcond_var (MS p (tierVar_str v ++ 32%N :: u) k) (32%N :: u) k.
Proof. destruct v; eexists; reflexivity. Qed.

(** A condition is found in its text. *)
Lemma goes_rcond c p u k :
  wf_cond c = true → stops (in_cls false cls_num_pos) u = true →
  goes rcond (MS p (condition_str c ++ u) k) u k.
Proof.
  unfold wf_cond. intros Hw Hu; bool_prop. unfold condition_str, rcond. cbn [rseq]. text_norm.
  eapply goes_seq; [apply goes_var|]. intros p1.
  eapply goes_seq; [apply goes_space; by destruct (tci_op c)|]. intros p2.
  apply goes_op; [apply refuses_eq_plain|]. intros p3.
  eapply goes_seq; [apply goes_space; by apply num_pos_stops|]. intros p4.
  by apply goes_plus.
Qed.

(** ** The conditions of a tier *)

Definition rand_cond : regex := rseq [rspaces; RLit "&&"; rspaces; rcond].

Lemma goes_star_step r s t1 k1 t k :
  groups_of r = [] → goes r s t1 k1 → length t1 < length (rest s) →
  (∀ p, goes (RStar r) (MS p t1 k1) t k) → goes (RStar r) s t k.
Proof.
  intros Hg [p1 H1] Hl H2. destruct (H2 p1) as [p2 H]. exists p2.
  eapply prefers_star_step; [by rewrite Hg|done|done].
Qed.

Definition and_text (cs : list TierConditionInput) : jsstr :=
  concat (map (app " && ") (map condition_str cs)).

Lemma and_text_stops cs x : stops (in_cls false cls_num_pos) (and_text cs ++ 32%N :: x) = true.
Proof. by destruct cs. Qed.

Lemma var_stops v u : stops (in_cls false cls_space) (tierVar_str v ++ u) = true.
Proof. by destruct v. Qed.

Lemma goes_and_conds cs p x k :
  forallb wf_cond cs = true →
  goes (RStar rand_cond) (MS p (and_text cs ++ 32%N :: 63%N :: x) k) (32%N :: 63%N :: x) k.
Proof.
  revert p. induction cs as [|c cs IH]; intros p; cbn [forallb].
  - intros _. exists p. apply prefers_star_stop.
    change (rmatch rand_cond (MS p (32%N :: 63%N :: x) k) = []).
    unfold rand_cond. cbn [rseq]. rewrite space_seq; [reflexivity|by apply solid_rejects|done].
  - intros ?; bool_prop. unfold and_text. cbn [map concat]. fold (and_text cs). text_norm.
    apply (goes_star_step _ _ (and_text cs ++ 32%N :: 63%N :: x) k); [done| | |by intros; apply IH].
    + unfold rand_cond. cbn [rseq].
      eapply goes_seq; [by apply goes_space|]. intros p1.
      eapply goes_seq; [apply (goes_lit "&&")|]. intros p2.
      eapply goes_seq; [apply goes_space; unfold condition_str; rewrite <- app_assoc; apply var_stops|].
      intros p3. apply goes_rcond; [done|apply and_text_stops].
    + cbn [rest]. rewrite !length_cons, (length_app (condition_str c)). lia.
Qed.

Lemma goes_condGroup c cs p x k :
  forallb wf_cond (c :: cs) = true →
  goes condGroup (MS p (join " && " (map condition_str (c :: cs)) ++ 32%N :: 63%N :: x) k)
    (32%N :: 63%N :: x) ((1, join " && " (map condition_str (c :: cs))) :: k).
Proof.
  cbn [forallb map]. intros ?; bool_prop. unfold condGroup. apply goes_group.
  rewrite join_concat_map. fold (and_text cs). rewrite <- app_assoc.
  eapply goes_seq; [apply goes_rcond; [done|apply and_text_stops]|]. intros p1.
  by apply goes_and_conds.
Qed.

(** *** Splitting them again *)

Lemma space_cls c : in_cls false cls_space c = is_space c.
Proof.
  unfold in_cls, cls_space, is_space. cbn [in_ranges]. rewrite xorb_false_l.
  apply eq_true_iff_eq. rewrite !orb_true_iff, !andb_true_iff, !N.leb_le, !N.eqb_eq. lia.
Qed.

(** No unit of the text is an ampersand, and it does not end in a space. *)
Definition one_part (s : jsstr) : bool := forallb (λ c, negb (c =? 38)%N) s && head_ok (rev s).

Lemma one_part_tail c s : one_part (c :: s) = true → one_part s = true.
Proof.
  unfold one_part. cbn [forallb rev]. intros ?; bool_prop; [done|].
  destruct (rev s); [done|exact H0].
Qed.

Lemma spaces_first s :
  s ≠ [] → head_ok (rev s) = true →
  ∃ w c u, s = w ++ c :: u ∧ forallb (in_cls false cls_space) w = true ∧ is_space c = false.
Proof.
  induction s as [|c s IH]; [done|]. intros _. cbn [rev]. destruct (is_space c) eqn:E.
  - destruct s as [|d s]; [by cbn; rewrite E|]. intros H.
    destruct IH as (w & e & u & Es & Hw & He); [done| |].
    { destruct (rev (d :: s)) eqn:Er; [|exact H]. apply (f_equal length) in Er.
      rewrite length_rev in Er. discriminate. }
    exists (c :: w), e, u. rewrite Es. cbn [forallb]. by rewrite space_cls, E.
  - intros _. by exists [], c, s.
Qed.

Lemma sep_fails s u p k :
  s ≠ [] → one_part s = true → rmatch and_split_regex (MS p (s ++ u) k) = [].
Proof.
  unfold one_part. intros Hs Ho; bool_prop.
  destruct (spaces_first s Hs H0) as (w & c & v & -> & Hw & Hc).
  unfold and_split_regex. cbn [rseq]. rewrite <- app_assoc. unfold rspaces at 1.
  rewrite rmatch_star_seq; [|by apply rejects_seq, rejects_lit|done|by cbn [stops app]; rewrite space_cls, Hc].
  rewrite forallb_app in H. cbn [forallb] in H. bool_prop. cbn [app].
  apply rmatch_lit_seq_fail. cbn [startsWith]. by rewrite N.eqb_sym, H1.
Qed.

Lemma exec_sep_skip s u p i :
  one_part s = true →
  exec and_split_regex p (s ++ u) i = exec and_split_regex (next_prev p s) u (i + length s).
Proof.
  revert p i. induction s as [|c s IH]; intros p i Ho; [by rewrite Nat.add_0_r|].
  cbn [app next_prev length]. rewrite exec_next by (by apply (sep_fails (c :: s))).
  rewrite IH by (by eapply one_part_tail). f_equal. lia.
Qed.

Lemma condition_parts c :
  wf_cond c = true → one_part (condition_str c) = true ∧ trimmed (condition_str c) = true.
Proof.
  unfold wf_cond. intros Hw; bool_prop.
  assert (Hn : ∀ x, in_cls false cls_num_pos x = true → is_space x = false ∧ (x =? 38)%N = false).
  { intros x Hx%num_pos_range. split; [apply is_space_visible; lia|]. apply N.eqb_neq. lia. }
  set (t := condValue_str (tci_value c)) in *.
  assert (Ht : trimmed t = true).
  { apply trimmed_no_space. revert H1. apply forallb_impl. intros x Hx. by rewrite (proj1 (Hn x Hx)). }
  assert (Htr : trimmed (condition_str c) = true).
  { change (condition_str c) with (join " " [tierVar_str (tci_var c); tierOp_str (tci_op c); t]).
    apply trimmed_join. cbn [forallb]. rewrite H, Ht. by destruct (tci_var c), (tci_op c). }
  split; [|done]. unfold one_part. apply andb_true_intro. split.
  - unfold condition_str. fold t. rewrite !forallb_app.
    assert (E : forallb (λ x, negb (x =? 38)%N) t = true).
    { revert H1. apply forallb_impl. intros x Hx. by rewrite (proj2 (Hn x Hx)). }
    rewrite E. by destruct (tci_var c), (tci_op c).
  - unfold trimmed in Htr. by bool_prop.
Qed.

Lemma split_conditions c cs fuel p :
  forallb wf_cond (c :: cs) = true → length (c :: cs) ≤ fuel →
  split_all fuel and_split_regex p (join " && " (map condition_str (c :: cs)))
  = map condition_str (c :: cs).
Proof.
  revert c fuel p. induction cs as [|d cs IH]; intros c [|fuel] p Hw Hf;
    cbn [length] in Hf; try lia; cbn [forallb] in Hw; bool_prop;
    destruct (condition_parts c) as [Ho _]; try assumption; cbn [map split_all].
  - cbn [join]. pose proof (exec_sep_skip (condition_str c) [] p 0 Ho) as E.
    rewrite app_nil_r in E. rewrite E. reflexivity.
  - rewrite join_cons by done. rewrite exec_sep_skip by done. cbn [Nat.add].
    change (condition_str d :: map condition_str cs) with (map condition_str (d :: cs)).
    set (others := join " && " (map condition_str (d :: cs))).
    destruct (exec_here and_split_regex (next_prev p (condition_str c)) (" && " ++ others)
                (length (condition_str c)) others []) as (m & -> & _ & -> & ->).
    + unfold and_split_regex. cbn [rseq].
      eapply goes_seq; [by apply goes_space|]. intros p1.
      eapply goes_seq; [apply (goes_lit "&&")|]. intros p2.
      apply goes_space. unfold others. cbn [map]. rewrite join_concat_map. unfold condition_str.
      rewrite <- !app_assoc. apply var_stops.
    + rewrite take_app_length. f_equal. apply IH; [by cbn [forallb]; bool_prop|]. cbn [length]. lia.
Qed.

(** A part gives its condition. *)
Lemma read_condition c :
  wf_cond c = true →
  ∃ m, re_match cond_regex (trim (condition_str c)) = Some m
       ∧ grp m 1 = tierVar_str (tci_var c) ∧ grp m 2 = tierOp_str (tci_op c)
       ∧ grp m 3 = condValue_str (tci_value c).
Proof.
  intros Hw. rewrite trim_trimmed by (by apply condition_parts). unfold wf_cond in Hw. bool_prop.
  set (t := condValue_str (tci_value c)) in *.
  assert (G : goes (rseq [RGroup 1 rcond_var; rspaces; RGroup 2 rcond_op; rspaces; RGroup 3 rnum_pos; REnd])
                (MS None (condition_str c) []) []
                [(3, t); (2, tierOp_str (tci_op c)); (1, tierVar_str (tci_var c))]).
  { unfold condition_str. fold t. rewrite <- (app_nil_r t) at 1. cbn [rseq]. text_norm.
    eapply goes_seq; [apply goes_group, goes_var|]. intros p1.
    eapply goes_seq; [apply goes_space; by destruct (tci_op c)|]. intros p2.
    apply goes_op_group; [apply refuses_eq_group|]. intros p3.
    eapply goes_seq; [apply goes_space; by apply num_pos_stops|]. intros p4.
    eapply goes_seq; [by apply goes_group, goes_plus|]. intros p5. by exists p5. }
  destruct G as [q G]. unfold cond_regex. eexists. split; [by apply re_match_some|]. done.
Qed.

Lemma length_join sep l : forallb nonempty l = true → length l ≤ length (join sep l).
Proof.
  induction l as [|a l IH]; cbn [forallb length]; [lia|]. intros ?; bool_prop. specialize (IH H0).
  destruct a as [|c a]; [done|]. destruct l as [|b l].
  - cbn [join length]. lia.
  - rewrite join_cons by done. rewrite !length_app. cbn [length] in *. lia.
Qed.

Lemma condition_nonempty c : nonempty (condition_str c) = true.
Proof. unfold condition_str. by destruct (tci_var c). Qed.

Lemma conditions_nonempty cs : forallb nonempty (map condition_str cs) = true.
Proof. induction cs as [|c cs IH]; [done|]. cbn [map forallb]. by rewrite condition_nonempty. Qed.

Definition conditions_str (cs : list TierConditionInput) : jsstr := join " && " (map condition_str cs).

(** The condition the parser shows for a condition of the editor. *)
Definition display_cond (c : TierConditionInput) : TierCondition :=
  {| cond_var := tci_var c; cond_op := tci_op c; cond_value := cond_number c |}.

Lemma parse_conditions cs :
  forallb wf_cond cs = true → parseTierConditions (conditions_str cs) = map display_cond cs.
Proof.
  intros Hw. destruct cs as [|c cs]; [done|]. unfold parseTierConditions, conditions_str.
  pose proof (conditions_nonempty (c :: cs)) as Hn. pose proof (length_join " && " _ Hn) as Hl.
  rewrite length_map in Hl.
  assert (E : nonempty (join " && " (map condition_str (c :: cs))) = true).
  { destruct (join _ _); [|done]. cbn [length] in Hl. lia. }
  rewrite E. unfold re_split. rewrite split_conditions by (done || lia). clear E Hn Hl.
  induction (c :: cs) as [|d l IH]; [done|]. cbn [forallb] in Hw. bool_prop.
  cbn [map omap list_omap]. destruct (read_condition d H) as (m & -> & G1 & G2 & G3).
  rewrite G1, G2, G3. destruct d as [v o x]; destruct v, o; cbn in *; by rewrite IH.
Qed.

Lemma parse_condition_inputs cs :
  forallb wf_cond cs = true →
  map condition_input (parseTierConditions (conditions_str cs)) = map canonical_cond cs.
Proof. intros Hw. rewrite parse_conditions by done. by rewrite map_map. Qed.

(** ** All tiers of an expression *)

Definition part_text (cs : list TierConditionInput) (tier : VisualTier) : jsstr :=
  (if nonempty cs then conditions_str cs ++ " ? " else []) ++ tier_call (vt_label tier) tier.

Definition part_caps (cs : list TierConditionInput) (tier : VisualTier) : list (nat * jsstr) :=
  tier_caps 2 tier (if nonempty cs then [(1, conditions_str cs)] else []).

(** The conditions in front of a tier, or none. *)
Lemma goes_cond_part cs p u :
  forallb wf_cond cs = true → (∃ t, u = "tier(" ++ t) →
  goes (ropt (rseq [condGroup; rspaces; RLit "?"; rspaces]))
    (MS p ((if nonempty cs then conditions_str cs ++ " ? " else []) ++ u) []) u
    (if nonempty cs then [(1, conditions_str cs)] else []).
Proof.
  intros Hc [t ->]. destruct cs as [|c cs]; cbn [nonempty].
  - apply goes_skip. reflexivity.
  - apply goes_opt. unfold conditions_str. cbn [rseq]. rewrite <- !app_assoc.
    eapply goes_seq; [by apply goes_condGroup|]. intros p1.
    eapply goes_seq; [by apply goes_space|]. intros p2.
    eapply goes_seq; [apply (goes_lit "?")|]. intros p3. by apply goes_space.
Qed.

Lemma tier_call_head label tier u : ∃ t, tier_call label tier ++ u = "tier(" ++ t.
Proof. eexists. reflexivity. Qed.

Lemma goes_part cs tier p u :
  forallb wf_cond cs = true → wf_prices tier = true →
  goes visualTierRe (MS p (part_text cs tier ++ u) []) u (part_caps cs tier).
Proof.
  intros Hc Hp. unfold part_text, part_caps, visualTierRe. rewrite <- app_assoc.
  eapply goes_cons; [done| |intros p1; by apply goes_tier].
  apply goes_cond_part; [done|apply tier_call_head].
Qed.

(** Between two tiers nothing is found. *)
Lemma exec_between p s idx :
  exec visualTierRe p (" : " ++ s) idx = exec visualTierRe (Some 32%N) s (S (S (S idx))).
Proof. cbn [app]. by rewrite !exec_next by reflexivity. Qed.

Definition read_part (m : match_result) : VisualTier := matched_tier m 2 (matched_conditions m).

Lemma read_part_eq m cs tier :
  forallb wf_cond cs = true → wf_prices tier = true → m_caps m = part_caps cs tier →
  read_part m = canonical_tier (map canonical_cond cs) tier.
Proof.
  intros Hc Hp Hm. unfold read_part. rewrite (matched_tier_eq _ _ tier _ _ Hp Hm).
  - f_equal. unfold matched_conditions, grp_opt. rewrite Hm. unfold part_caps, tier_caps.
    rewrite cap_lookup_cost_caps by lia. destruct cs as [|c cs]; [done|].
    exact (parse_condition_inputs (c :: cs) Hc).
  - intros j Hj. destruct cs; [done|]. cbn [nonempty cap_lookup].
    by rewrite (proj2 (Nat.eqb_neq j 1)) by lia.
Qed.

Definition part_ok (x : list TierConditionInput * VisualTier) : bool :=
  forallb wf_cond x.1 && wf_prices x.2.

Definition item_text (x : list TierConditionInput * VisualTier) : jsstr := part_text x.1 x.2.

Lemma found_part x p u i :
  part_ok x = true →
  ∃ m, exec visualTierRe p (item_text x ++ u) i = Some m
       ∧ read_part m = canonical_tier (map canonical_cond x.1) x.2 ∧ m_tail m = u.
Proof.
  destruct x as [cs tier]. unfold part_ok, item_text. cbn [fst snd]. intros Hw; bool_prop.
  destruct (exec_here _ p _ i _ _ (goes_part cs tier p u H H0)) as (m & Em & Hm & _ & Ht).
  exists m. split_and!; [done|by apply read_part_eq|done].
Qed.

Definition parts_text (l : list (list TierConditionInput * VisualTier)) : jsstr :=
  join " : " (map item_text l).

(** ** Configurations *)

Definition given (tier : VisualTier) : list TierConditionInput :=
  List.filter condition_given (vt_conditions tier).

Definition wf_tier (tier : VisualTier) : bool :=
  wf_prices tier && forallb wf_cond (given tier).

(** Of several tiers all but the last have conditions, and the last has none. *)
Fixpoint conditions_placed (tiers : list VisualTier) : bool :=
  match tiers with
  | [] => false
  | [tier] => negb (nonempty (given tier))
  | tier :: rest => nonempty (given tier) && conditions_placed rest
  end.

Definition wf_config (tiers : VisualConfig) : bool :=
  forallb wf_tier tiers
  && match tiers with [] => false | [_] => true | _ => conditions_placed tiers end.

Definition canonical (tier : VisualTier) : VisualTier :=
  canonical_tier (map canonical_cond (given tier)) tier.

Definition canonical_config (tiers : VisualConfig) : VisualConfig := map canonical tiers.

(** *** A canonical tier has the same text and normalizes to itself *)

Lemma cost_of_map (g : jsstr → number) (vars : list (jsstr * jsstr)) field :
  field ∈ map fst vars → cost_of field (map (λ '(f, _), (f, g f)) vars) = g field.
Proof.
  unfold cost_of. induction vars as [|[f v] vars IH]; cbn [map fst]; [by intros ?%not_elem_of_nil|].
  rewrite elem_of_cons. cbn [assoc_get]. destruct (str_eqb_spec field f) as [->|Hne]; [done|].
  intros [->|Hin]; [done|by apply IH].
Qed.

Lemma field_cost_canonical conds tier field :
  field ∈ map fst BILLING_CACHE_VAR_MAP →
  field_cost (canonical_tier conds tier) field = field_cost tier field.
Proof.
  intros Hf. unfold field_cost at 1. cbn [canonical_tier vt_costs].
  rewrite cost_of_map by done. apply num_or_idem.
Qed.

Lemma registry_field f v : In (f, v) BILLING_CACHE_VAR_MAP → f ∈ map fst BILLING_CACHE_VAR_MAP.
Proof. intros H. apply list_elem_of_In, in_map_iff. by exists (f, v). Qed.

Lemma canonical_costs conds tier : tier_costs (canonical_tier conds tier) = tier_costs tier.
Proof.
  apply map_ext_in. intros [f v] Hin. f_equal. apply field_cost_canonical. by eapply registry_field.
Qed.

Lemma canonical_call label conds tier :
  tier_call label (canonical_tier conds tier) = tier_call label tier.
Proof.
  unfold tier_call. rewrite !body_text, canonical_costs. cbn [canonical_tier vt_input_unit_cost vt_output_unit_cost].
  by rewrite !num_or_idem.
Qed.

Lemma canonical_conditions tier :
  forallb wf_cond (given tier) = true →
  buildConditionStr (vt_conditions (canonical tier)) = buildConditionStr (vt_conditions tier).
Proof.
  intros Hw. unfold buildConditionStr. fold (given tier). cbn [canonical canonical_tier vt_conditions].
  f_equal. induction (given tier) as [|c cs IH]; [done|]. cbn [forallb] in Hw. bool_prop.
  cbn [map List.filter condition_given canonical_cond tci_value]. rewrite IH by done.
  f_equal. by apply canonical_cond_str.
Qed.

Lemma normalize_canonical tier : normalizeVisualTier (partial_of (canonical tier)) = canonical tier.
Proof.
  unfold normalizeVisualTier, partial_of, canonical, canonical_tier.
  cbn -[num_or cost_of BILLING_CACHE_VAR_MAP map]. f_equal.
  apply map_ext_in. intros [f v] Hin. f_equal.
  rewrite cost_of_map by (by eapply registry_field). apply num_or_idem.
Qed.

(** *** The text of a configuration *)

Lemma build_given tier : buildConditionStr (vt_conditions tier) = conditions_str (given tier).
Proof. reflexivity. Qed.

Lemma nonempty_conditions cs : nonempty (conditions_str cs) = nonempty cs.
Proof.
  destruct cs as [|c cs]; [done|]. unfold conditions_str. cbn [map]. rewrite join_concat_map.
  pose proof (condition_nonempty c). by destruct (condition_str c).
Qed.

Lemma label_or_wf tier d : wf_tier tier = true → label_or (vt_label tier) d = vt_label tier.
Proof. unfold wf_tier, wf_prices, label_or. intros ?; bool_prop. by rewrite H4. Qed.

Definition parts (tiers : list VisualTier) : list (list TierConditionInput * VisualTier) :=
  map (λ tier, (given tier, tier)) tiers.

Lemma tier_parts_eq i tiers :
  forallb wf_tier tiers = true → conditions_placed tiers = true →
  join " : " (tier_parts i tiers) = parts_text (parts tiers).
Proof.
  unfold parts_text, parts. intros Hw Hp. f_equal. revert i Hw Hp.
  induction tiers as [|t tiers IH]; intros i Hw Hp; [done|].
  cbn [forallb] in Hw. apply andb_prop in Hw as [Ht Hw].
  cbn [tier_parts map]. rewrite label_or_wf, build_given, nonempty_conditions by done.
  destruct tiers as [|t' tiers].
  - cbn [conditions_placed] in Hp. bool_prop. unfold item_text, part_text. cbn [fst snd]. by rewrite Hp.
  - apply andb_prop in Hp as [Hg Hp]. rewrite <- (IH (S i) Hw Hp). unfold item_text, part_text. cbn [fst snd].
    by rewrite Hg, <- app_assoc.
Qed.

Lemma tier_parts_canonical i tiers :
  forallb wf_tier tiers = true → tier_parts i (canonical_config tiers) = tier_parts i tiers.
Proof.
  revert i; induction tiers as [|t tiers IH]; intros i Hw; [done|]. cbn [forallb] in Hw. bool_prop.
  cbn [canonical_config map tier_parts]. fold (canonical_config tiers). rewrite IH by done.
  unfold wf_tier in H. bool_prop. rewrite canonical_conditions by done.
  change (canonical t) with (canonical_tier (map canonical_cond (given t)) t).
  rewrite canonical_call. cbn [canonical_tier vt_label]. by destruct tiers.
Qed.

Lemma generate_canonical tiers :
  forallb wf_tier tiers = true →
  generateExprFromVisualConfig (Some (canonical_config tiers))
  = generateExprFromVisualConfig (Some tiers).
Proof.
  intros Hw. destruct tiers as [|t [|t' tiers]]; [done| |].
  - cbn [forallb] in Hw. unfold wf_tier in Hw. bool_prop.
    cbn [canonical_config map generateExprFromVisualConfig]. rewrite canonical_conditions by done.
    unfold canonical. by rewrite canonical_call.
  - change (generateExprFromVisualConfig (Some (canonical_config (t :: t' :: tiers))))
      with (join " : " (tier_parts 1 (canonical_config (t :: t' :: tiers)))).
    by rewrite tier_parts_canonical.
Qed.

(** *** Reading it *)

Definition after_version (expr : jsstr) : jsstr :=
  match re_match visual_version_regex expr with Some m => grp m 1 | None => expr end.

Lemma no_version s : startsWith "v" s = false → after_version s = s.
Proof.
  intros H. unfold after_version, visual_version_regex. cbn [rseq].
  by rewrite re_match_none by (by apply rmatch_lit_seq_fail).
Qed.

Lemma conditions_head cs u :
  nonempty cs = true →
  startsWith "v" (conditions_str cs ++ u) = false
  ∧ startsWith "tier(\q" (conditions_str cs ++ u) = false
  ∧ nonempty (conditions_str cs ++ u) = true.
Proof.
  destruct cs as [|c cs]; [done|]. intros _. unfold conditions_str. cbn [map].
  rewrite join_concat_map. unfold condition_str. by destruct (tci_var c).
Qed.

Lemma parts_ok tiers : forallb wf_tier tiers = true → forallb part_ok (parts tiers) = true.
Proof.
  induction tiers as [|t tiers IH]; [done|].
  change (parts (t :: tiers)) with ((given t, t) :: parts tiers). cbn [forallb]. intros ?; bool_prop; [|by apply IH].
  unfold wf_tier in H. unfold part_ok. cbn [fst snd]. by rewrite andb_comm.
Qed.

Lemma parts_length l : length l ≤ length (parts_text l).
Proof.
  unfold parts_text. rewrite <- (length_map item_text l) at 1.
  apply length_join. induction l as [|[cs t] l IH]; [done|]. cbn [map forallb]. rewrite IH, andb_true_r.
  unfold item_text, part_text, tier_call. cbn [fst snd]. by destruct (if nonempty cs then _ else _).
Qed.

Lemma normalize_canonical_config t l :
  normalizeVisualConfig (Some (canonical_config (t :: l))) = canonical_config (t :: l).
Proof.
  unfold normalizeVisualConfig, canonical_config. cbn [map]. rewrite normalize_canonical. f_equal.
  rewrite map_map. apply map_ext. intros t'. apply normalize_canonical.
Qed.

(** An expression whose tiers are found one by one. *)
Lemma read_tiers t l sfx :
  forallb wf_tier (t :: l) = true → (∀ p, exec visualTierRe p sfx 0 = None) →
  nonempty (given t) = true →
  generateExprFromVisualConfig (Some (t :: l)) = parts_text (parts (t :: l)) ++ sfx →
  tryParseVisualConfig (generateExprFromVisualConfig (Some (t :: l))) = Some (canonical_config (t :: l)).
Proof.
  intros Hw Hs Hg Ht.
  assert (Hh : ∃ u, generateExprFromVisualConfig (Some (t :: l)) = conditions_str (given t) ++ u).
  { rewrite Ht. unfold parts, parts_text. cbn [map]. rewrite join_concat_map. unfold item_text at 1, part_text at 1. cbn [fst snd].
    rewrite Hg, <- !app_assoc. eauto. }
  destruct Hh as [u Hu]. destruct (conditions_head (given t) u Hg) as (Hv & H1 & H2). rewrite <- Hu in *.
  assert (Hr : map read_part (re_matchAll visualTierRe (generateExprFromVisualConfig (Some (t :: l))))
               = canonical_config (t :: l)).
  { rewrite Ht. unfold re_matchAll.
    rewrite (search_all visualTierRe item_text part_ok " : " sfx (λ _, True) read_part
               (λ x, canonical_tier (map canonical_cond x.1) x.2)
               (λ x p u i Hx _ _, found_part x p u i Hx) exec_between I Hs
               (given t, t) (parts l) _ None []).
    - unfold canonical_config, parts. cbn [map]. by rewrite map_map.
    - by apply (parts_ok (t :: l)).
    - rewrite length_app. pose proof (parts_length (parts (t :: l))). unfold parts in *.
      cbn [map length] in *. lia.
    - by left. }
  unfold tryParseVisualConfig. rewrite H2.
  fold (after_version (generateExprFromVisualConfig (Some (t :: l)))). rewrite no_version by done.
  unfold singleRe. rewrite re_match_none by (by apply rmatch_lit_seq_fail).
  fold read_part. rewrite Hr. cbn [canonical_config map]. fold (canonical_config l).
  change (canonical t :: canonical_config l) with (canonical_config (t :: l)).
  rewrite normalize_canonical_config, generate_canonical by done. by rewrite str_eqb_refl.
Qed.

(** A single tier without conditions is read by the pattern for the whole text. *)
Lemma read_single t :
  wf_tier t = true → nonempty (given t) = false →
  tryParseVisualConfig (generateExprFromVisualConfig (Some [t])) = Some (canonical_config [t]).
Proof.
  intros Hw Hg. cbn [generateExprFromVisualConfig].
  rewrite build_given, nonempty_conditions, Hg, label_or_wf by done.
  unfold tryParseVisualConfig. fold (after_version (tier_call (vt_label t) t)).
  rewrite no_version by reflexivity. change (nonempty (tier_call (vt_label t) t)) with true. cbv iota.
  unfold wf_tier in Hw. apply andb_prop in Hw as [Hw _].
  assert (G : goes (rseq (tierPat 1 ++ [REnd])) (MS None (tier_call (vt_label t) t) []) []
                (tier_caps 1 t [])).
  { rewrite <- (app_nil_r (tier_call _ _)).
    eapply goes_app; [done|done|by apply goes_tier|]. intros p. by exists p. }
  destruct G as [q G]. unfold singleRe. rewrite (re_match_some _ _ _ G).
  erewrite matched_tier_eq; [|exact Hw|reflexivity|reflexivity].
  assert (E : canonical_tier [] t = canonical t) by (unfold canonical; by destruct (given t)).
  rewrite E. f_equal. apply (normalize_canonical_config t []).
Qed.

(** Every well-formed configuration is read back. *)
Lemma read_config tiers :
  wf_config tiers = true →
  tryParseVisualConfig (generateExprFromVisualConfig (Some tiers)) = Some (canonical_config tiers).
Proof.
  unfold wf_config. intros Hw. apply andb_prop in Hw as [Hw Hp].
  destruct tiers as [|t [|t' l]]; [done| |].
  - cbn [forallb] in Hw. rewrite andb_true_r in Hw. destruct (nonempty (given t)) eqn:Hg.
    + apply (read_tiers t [] (" : " ++ EMPTY_EXPR)); [cbn [forallb]; by rewrite Hw|reflexivity|done|].
      cbn [generateExprFromVisualConfig]. rewrite build_given, nonempty_conditions, Hg, label_or_wf by done.
      unfold parts, parts_text. cbn [map join]. unfold item_text, part_text. cbn [fst snd]. by rewrite Hg, <- !app_assoc.
    + by apply read_single.
  - apply (read_tiers t (t' :: l) []); [done|done| |].
    + cbn [conditions_placed] in Hp. by bool_prop.
    + rewrite app_nil_r. by apply tier_parts_eq.
Qed.

Lemma config_tiers tiers : wf_config tiers = true → forallb wf_tier tiers = true.
Proof. unfold wf_config. intros H. by apply andb_prop in H as [H _]. Qed.

(** Configurations as texts; an expression that is not a configuration is not read. *)
#[export] Instance config_codec : Codec VisualConfig := {
  encode := λ tiers, generateExprFromVisualConfig (Some tiers); decode := λ s, Ok (tryParseVisualConfig s);
  readable := wf_config; normal := canonical_config;
  decode_encode := λ tiers H, f_equal Ok (read_config tiers H);
  encode_normal := λ tiers H, generate_canonical tiers (config_tiers tiers H)
}.

(** C16: the visual editor reads back what it writes, for configurations ([wf_config]) of
    at least one tier in which every label is not empty and has no quotation mark,
    every price and every condition value has the text of its number, which is read back
    as that number, and, when there are several tiers, the last has no conditions and all
    others have some.  The expression generated opens as the same tiers, with prices and
    condition values as numbers and the cache mode the prices imply; and these generate
    the same expression again. *)
Theorem visual_config_roundtrip tiers :
  wf_config tiers = true →
  tryParseVisualConfig (generateExprFromVisualConfig (Some tiers)) = Some (canonical_config tiers)
  ∧ generateExprFromVisualConfig (Some (canonical_config tiers))
    = generateExprFromVisualConfig (Some tiers).
Proof.
  intros Hw. split; [by apply read_config|]. exact (encode_normal (A := VisualConfig) tiers Hw).
Qed.

Lemma visual_config_roundtrip_witness :
  tryParseVisualConfig (generateExprFromVisualConfig (Some sample_config)) = Some sample_config.
Proof.
  destruct (visual_config_roundtrip sample_config) as [H _]; [vm_compute; reflexivity|].
  rewrite H. vm_compute. reflexivity.
Defined.

(** ** Prices that are not numbers *)

Definition no_costs : list (jsstr * number) := map (λ '(_, v), (v, zero)) BILLING_CACHE_VAR_MAP.

(** A single tier is accepted without comparing the text it stands for.  When
    the input price is a word of digits, points, signs and exponents that is not a
    number, such as a difference, the expression opens in the visual editor and
    is written back with the input price 0. *)
Theorem single_tier_unchecked label w1 w2 :
  nonempty label = true → forallb (in_cls true cls_quote) label = true →
  num_word cls_num w1 = true → num_word cls_num w2 = true → Number_of_string w1 = NaN →
  ∃ cfg, tryParseVisualConfig ("tier(\q" ++ label ++ "\q, p * " ++ w1 ++ " + c * " ++ w2 ++ ")") = Some cfg
  ∧ generateExprFromVisualConfig (Some cfg)
    = "tier(\q" ++ label ++ "\q, p * 0 + c * " ++ Number_toString (num_or (Number_of_string w2) zero) ++ ")".
Proof.
  intros Hn Hl H1 H2 HN.
  set (text := "tier(\q" ++ label ++ "\q, p * " ++ w1 ++ " + c * " ++ w2 ++ ")").
  assert (G : goes (rseq (tierPat 1 ++ [REnd])) (MS None text []) [] [(3, w2); (2, w1); (1, label)]).
  { change text with (tier_text label w1 w2 no_costs). rewrite <- (app_nil_r (tier_text _ _ _ _)).
    eapply goes_app; [done|done|apply (goes_tier_text 1 label w1 w2 no_costs); try done|].
    - repeat constructor.
    - intros p. by exists p. }
  destruct G as [q G]. unfold tryParseVisualConfig. fold (after_version text).
  rewrite no_version by reflexivity. change (nonempty text) with true. cbv iota.
  unfold singleRe. rewrite (re_match_some _ _ _ G). eexists. split; [reflexivity|].
  cbn -[Number_of_string Number_toString num_or app nonempty]. unfold matched_tier, grp, grp_opt.
  cbn -[Number_of_string Number_toString num_or app nonempty]. rewrite HN. unfold label_or. rewrite Hn.
  reflexivity.
Qed.

Lemma single_tier_unchecked_witness :
  ∃ cfg, tryParseVisualConfig "tier(\qbase\q, p * 2-1 + c * 3)" = Some cfg
         ∧ generateExprFromVisualConfig (Some cfg) = "tier(\qbase\q, p * 0 + c * 3)".
Proof. apply (single_tier_unchecked "base" "2-1" "3"); vm_compute; reflexivity. Defined.
