(* ===== verification/TierDisplay.v ===== *)
(** * The price page shows the tiers the editor wrote

    The editor of [tier-expr.ts] and the parser of [billing-expr.ts] use different
    patterns for the same text.  This file proves that they agree: the tiers that
    [parseTiersFromExpr] finds in a generated expression are the tiers of the
    configuration, with their labels, conditions and prices; also when the
    expression carries request rules. *)
From Stdlib Require Import NArith ZArith.
From stdpp Require Import list numbers.
From S2P Require Import Prelude JsString Regex JsNumber Json JsArray JsonRoundtrip BillingExpr BillingRules.
From S2P Require Import TierExpr TierRoundtrip TierTheorems.

(** ** The coefficients of a body *)

Definition pricing_names : list jsstr := map bv_key BILLING_PRICING_VARS.

Lemma star_sign_stuck r p c u k :
  is_space c = false → c ≠ 42%N →
  rmatch (RSeq rspaces (RSeq (RLit "*") r)) (MS p (c :: u) k) = [].
Proof.
  intros Hs Hc. rewrite no_space_seq; [|by apply solid_rejects|cbn [stops]; by rewrite space_cls, Hs].
  apply rmatch_lit_seq_fail. cbn [startsWith]. by rewrite (proj2 (N.eqb_neq _ _)).
Qed.

(** At a boundary: the start of the text or after a space. *)
Definition at_boundary (p : option N) : Prop := p = None ∨ p = Some 32%N.

(** The head of a choice whose first candidates fail. *)
Lemma head_flat_map_skip {A B} (f : A → list B) x l y :
  f x = [] → head (flat_map f l) = Some y → head (flat_map f (x :: l)) = Some y.
Proof. intros H1 H2. cbn [flat_map]. by rewrite H1. Qed.

Lemma head_flat_map_first {A B} (f : A → list B) x l y :
  head (f x) = Some y → head (flat_map f (x :: l)) = Some y.
Proof. intros H. cbn [flat_map]. destruct (f x); [done|]. by injection H as ->. Qed.

Ltac choose_name :=
  first [ apply head_flat_map_first; eassumption
        | apply head_flat_map_skip; [apply star_sign_stuck; [reflexivity|discriminate]|choose_name] ].

Lemma goes_var_coeff v n p u :
  In v pricing_names → at_boundary p → num_text_ok cls_num n = true →
  stops (in_cls false cls_num) u = true →
  goes BILLING_VAR_REGEX (MS p (coeff_str v n ++ u) []) u [(2, Number_toString n); (1, v)].
Proof.
  intros Hv Hp Hn Hu.
  assert (G : ∀ q, goes (rseq [rspaces; RLit "*"; rspaces; RGroup 2 rnum])
                     (MS q (" * " ++ Number_toString n ++ u) [(1, v)]) u [(2, Number_toString n); (1, v)]).
  { intros q. cbn [app].
    eapply goes_cons; [done|by apply goes_space|]. intros p2.
    eapply goes_cons; [done|by apply (goes_lit "*")|]. intros p3.
    eapply goes_cons; [done|apply goes_space; apply num_word_stops; by eapply num_text_word|]. intros p4.
    pose proof (num_text_word _ _ Hn) as Hw. unfold num_word in Hw. bool_prop. by apply goes_group, goes_plus. }
  unfold BILLING_VAR_REGEX, coeff_str. rewrite <- !app_assoc. cbn [rseq].
  destruct (G (next_prev p v)) as [q Hq]. exists q. unfold prefers in *.
  rewrite rmatch_seq.
  replace (rmatch RWordB _) with [MS p (v ++ " * " ++ Number_toString n ++ u) []].
  2: { cbn [rmatch prev rest]. cbn in Hv. destruct Hp as [->| ->]; destruct_or! Hv; subst v; done. }
  rewrite flat_map_single.
  rewrite <- (map_map bv_key RLit).
  rewrite rmatch_group_lits by done. cbn in Hv. destruct_or! Hv; subst v; try done; cbn -[rmatch flat_map Number_toString] in *; choose_name.
Qed.

(** Where no name starts there is no coefficient. *)
Lemma var_fail p s :
  List.filter (λ w, startsWith w s) pricing_names = [] → rmatch BILLING_VAR_REGEX (MS p s []) = [].
Proof.
  intros Hs. unfold BILLING_VAR_REGEX. cbn [rseq]. rewrite rmatch_seq.
  assert (E : rmatch RWordB (MS p s []) = [MS p s []] ∨ rmatch RWordB (MS p s []) = []).
  { cbn [rmatch]. destruct (xorb _ _); auto. }
  destruct E as [-> | ->]; [|done]. rewrite flat_map_single.
  rewrite <- (map_map bv_key RLit). by apply rmatch_group_lits_fail.
Qed.

Lemma var_between p s i :
  exec BILLING_VAR_REGEX p (" + " ++ s) i = exec BILLING_VAR_REGEX (Some 32%N) s (length " + " + i).
Proof. cbn [app length Nat.add]. by rewrite !exec_next by (by apply var_fail). Qed.

Lemma var_stop p : exec BILLING_VAR_REGEX p [] 0 = None.
Proof. cbn [exec]. by rewrite var_fail. Qed.

Definition coeff_ok (x : jsstr * number) : bool :=
  str_mem x.1 pricing_names && num_text_ok cls_num x.2.

Definition coeff_text (x : jsstr * number) : jsstr := coeff_str x.1 x.2.

Lemma found_coeff x p u i :
  coeff_ok x = true → at_boundary p → follows " + " [] u →
  ∃ m, exec BILLING_VAR_REGEX p (coeff_text x ++ u) i = Some m
       ∧ (grp m 1, Number_of_string (grp m 2)) = x ∧ m_tail m = u.
Proof.
  destruct x as [v n]. unfold coeff_ok, coeff_text. cbn [fst snd]. intros Hx Hp Hu.
  apply andb_prop in Hx as [Hv Hn]. apply str_mem_true, list_elem_of_In in Hv.
  assert (Hs : stops (in_cls false cls_num) u = true) by (by destruct Hu as [->|[s ->]]).
  destruct (exec_here _ p _ i _ _ (goes_var_coeff v n p u Hv Hp Hn Hs)) as (m & Em & Hm & _ & Ht).
  exists m. split_and!; [done| |done]. unfold grp, grp_opt. rewrite Hm. cbn.
  by rewrite (num_text_back cls_num).
Qed.

Lemma coeff_text_length l : length l ≤ length (join " + " (map coeff_text l)).
Proof.
  rewrite <- (length_map coeff_text l) at 1. apply length_join.
  induction l as [|[v n] l IH]; [done|]. cbn [map forallb]. rewrite IH, andb_true_r.
  unfold coeff_text, coeff_str. by destruct v.
Qed.

Lemma read_coeffs x l :
  forallb coeff_ok (x :: l) = true →
  map (λ m, (grp m 1, Number_of_string (grp m 2)))
    (re_matchAll BILLING_VAR_REGEX (join " + " (map coeff_text (x :: l)))) = x :: l.
Proof.
  intros Hw. unfold re_matchAll.
  pose proof (search_all BILLING_VAR_REGEX coeff_text coeff_ok " + " [] at_boundary
    (λ m, (grp m 1, Number_of_string (grp m 2))) (λ x, x) found_coeff var_between (or_intror eq_refl)
    var_stop x l (S (length (join " + " (map coeff_text (x :: l))))) None [] Hw) as H.
  rewrite app_nil_r, map_id in H. apply H; [|by left; split; [|left]].
  pose proof (coeff_text_length (x :: l)). lia.
Qed.

(** The first coefficient of a variable counts; distinct ones are all kept. *)
Lemma coeffs_fold (ms : list match_result) acc :
  NoDup (map fst acc ++ map (λ m, grp m 1) ms) →
  fold_left
    (λ coeffs m,
       match assoc_get (grp m 1) coeffs with
       | Some _ => coeffs
       | None => coeffs ++ [(grp m 1, Number_of_string (grp m 2))]
       end) ms acc
  = acc ++ map (λ m, (grp m 1, Number_of_string (grp m 2))) ms.
Proof.
  revert acc. induction ms as [|m ms IH]; intros acc Hd; cbn [fold_left map]; [by rewrite app_nil_r|].
  assert (E : assoc_get (grp m 1) acc = None).
  { cbn [map] in Hd. apply list.NoDup_app in Hd as (_ & Hd & _). clear IH.
    induction acc as [|[k v] acc IH]; [done|]. cbn [assoc_get].
    destruct (str_eqb_spec (grp m 1) k) as [Ek|Hne].
    - exfalso. apply (Hd k); [left|]. rewrite <- Ek. left.
    - apply IH. intros y Hy. apply Hd. by right. }
  rewrite E, IH, <- app_assoc; [done|]. rewrite map_app, <- app_assoc. exact Hd.
Qed.

(** The coefficients of a tier, in the order they are written. *)
Definition written (tier : VisualTier) : list (jsstr * number) :=
  ("p", num_or (vt_input_unit_cost tier) zero) :: ("c", num_or (vt_output_unit_cost tier) zero)
  :: List.filter (λ x, present x.2) (tier_costs tier).

Lemma body_written tier : buildTierBodyExpr tier = join " + " (map coeff_text (written tier)).
Proof.
  unfold buildTierBodyExpr, written. cbn [map]. do 3 f_equal. unfold tier_costs.
  induction BILLING_CACHE_VAR_MAP as [|[f v] l IH]; [done|]. cbn [omap list_omap map List.filter snd].
  unfold present at 1. fold (field_cost tier f).
  destruct (num_eqb (field_cost tier f) zero); cbn [negb map]; by rewrite IH.
Qed.

Lemma written_sublist tier : sublist (map fst (written tier)) pricing_names.
Proof.
  change pricing_names with ("p" :: "c" :: map snd BILLING_CACHE_VAR_MAP). unfold written. cbn [map fst].
  do 2 constructor. rewrite <- (tier_costs_vars tier). apply map_sublist, filterb_sublist.
Qed.

Lemma written_ok tier : wf_prices tier = true → forallb coeff_ok (written tier) = true.
Proof.
  intros Hw. pose proof (tier_costs_ok tier Hw) as Hc. unfold wf_prices in Hw. bool_prop.
  apply forallb_forall. intros [v n] Hin.
  assert (Hv : str_mem v pricing_names = true).
  { apply str_mem_true. eapply elem_of_sublist; [|apply written_sublist].
    apply list_elem_of_In, in_map_iff. by exists (v, n). }
  unfold coeff_ok. cbn [fst snd]. rewrite Hv. cbn [andb].
  destruct Hin as [E|[E|Hin]]; [injection E as _ <-; done|injection E as _ <-; done|].
  apply filter_In in Hin as [Hin _]. rewrite List.Forall_forall in Hc. exact (Hc _ Hin).
Qed.

Lemma names_nodup : NoDup pricing_names.
Proof. apply nodup_keys_spec. reflexivity. Qed.

Lemma tier_coeffs_eq tier :
  wf_prices tier = true → tier_coeffs (buildTierBodyExpr tier) = written tier.
Proof.
  intros Hw. rewrite body_written. unfold tier_coeffs.
  pose proof (read_coeffs _ _ (written_ok tier Hw)) as E. fold (written tier) in E.
  rewrite coeffs_fold; [exact E|]. cbn [map app].
  assert (En : map (λ m, grp m 1) (re_matchAll BILLING_VAR_REGEX (join " + " (map coeff_text (written tier))))
               = map fst (written tier)).
  { rewrite <- E at 2. by rewrite map_map. }
  rewrite En. eapply sublist_NoDup; [apply names_nodup|apply written_sublist].
Qed.

(** *** The prices of a body *)

Definition all_prices (tier : VisualTier) : list (jsstr * number) :=
  ("p", num_or (vt_input_unit_cost tier) zero) :: ("c", num_or (vt_output_unit_cost tier) zero)
  :: tier_costs tier.

Definition price_of (tier : VisualTier) (var : jsstr) : number :=
  default zero (assoc_get var (all_prices tier)).

Lemma assoc_filter (l : list (jsstr * number)) v :
  NoDup (map fst l) → (∀ w n, In (w, n) l → present n = false → n = zero) →
  num_or (default NaN (assoc_get v (List.filter (λ x, present x.2) l))) zero
  = num_or (default NaN (assoc_get v l)) zero.
Proof.
  induction l as [|[w n] l IH]; [done|]. cbn [map fst]. rewrite list.NoDup_cons. intros [Hn Hd] Hz.
  cbn [List.filter snd assoc_get]. destruct (str_eqb_spec v w) as [->|Hne].
  - destruct (present n) eqn:Ep; cbn [assoc_get]; [by rewrite str_eqb_refl|].
    rewrite (Hz w n) by (done || by left).
    assert (E : assoc_get w (List.filter (λ x, present x.2) l) = None); [|by rewrite E].
    clear IH Hd Hz. induction l as [|[w' n'] l IH]; [done|]. cbn [map fst] in Hn.
    apply not_elem_of_cons in Hn as [H1 H2]. cbn [List.filter snd].
    destruct (present n'); [cbn [assoc_get]; rewrite (proj2 (str_eqb_neq w w') H1)|]; by apply IH.
  - destruct (present n); cbn [assoc_get]; [rewrite (proj2 (str_eqb_neq v w) Hne)|];
      apply IH; try done; intros w' n' Hin; apply (Hz w' n'); by right.
Qed.

Lemma parseTierBody_eq tier :
  wf_prices tier = true →
  parseTierBody (buildTierBodyExpr tier)
  = map (λ '(var, field), (field, price_of tier var)) BILLING_VAR_KEY_TO_FIELD.
Proof.
  intros Hw. unfold parseTierBody. rewrite tier_coeffs_eq by done.
  apply map_ext_in. intros [v f] Hin. f_equal. unfold price_of, written, all_prices. cbn [assoc_get].
  destruct (str_eqb v "p"); [apply num_or_idem|]. destruct (str_eqb v "c"); [apply num_or_idem|].
  rewrite assoc_filter.
  - unfold tier_costs. destruct (assoc_get v _) as [n|] eqn:E; [|done]. cbn [default from_option id].
    clear Hin. revert E. induction BILLING_CACHE_VAR_MAP as [|[f' v'] l IH]; [done|]. cbn [map assoc_get].
    destruct (str_eqb v v'); [intros [= <-]; apply num_or_idem|exact IH].
  - rewrite tier_costs_vars. eapply (sublist_NoDup _ _ names_nodup).
    change pricing_names with ("p" :: "c" :: map snd BILLING_CACHE_VAR_MAP). by do 2 constructor.
  - unfold tier_costs. intros w n Hn Hp. apply in_map_iff in Hn as ([f' v'] & [= <- <-] & _).
    by apply field_absent.
Qed.

(** ** The tiers of an expression *)

Definition display_tier (conds : list TierConditionInput) (tier : VisualTier) : ParsedTier :=
  {| pt_label := vt_label tier; pt_conditions := map display_cond conds;
     pt_fields := map (λ '(var, field), (field, price_of tier var)) BILLING_VAR_KEY_TO_FIELD |}.

Definition not_close : cls := [(41, 41)]%N.

Lemma num_not_close w : num_word cls_num w = true → forallb (in_cls true not_close) w = true.
Proof.
  unfold num_word. intros ?; bool_prop. revert H0. apply forallb_impl. intros c Hc%cls_num_range.
  unfold in_cls, not_close. cbn [in_ranges]. rewrite orb_false_r, xorb_true_l. unit_decide.
Qed.

Lemma body_not_close tier :
  wf_prices tier = true → forallb (in_cls true not_close) (buildTierBodyExpr tier) = true.
Proof.
  intros Hw%written_ok. rewrite body_written. unfold written in *.
  set (l := ("p", _) :: _) in *. clearbody l. rename Hw into Hl.
  assert (Hj : forallb (forallb (in_cls true not_close)) (map coeff_text l) = true).
  { induction l as [|[v n] l IH]; [done|]. cbn [forallb map] in *. apply andb_prop in Hl as [H1 H2].
    rewrite (IH H2), andb_true_r. unfold coeff_ok in H1. cbn [fst snd] in H1.
    apply andb_prop in H1 as [Hv Hn]. unfold coeff_text, coeff_str. cbn [fst snd].
    rewrite !forallb_app, (num_not_close _ (num_text_word _ _ Hn)).
    apply str_mem_true, list_elem_of_In in Hv. cbn in Hv. destruct_or! Hv; by subst v. }
  induction (map coeff_text l) as [|a [|b k] IH]; [done| |]; cbn [forallb] in Hj.
  - cbn [join]. by apply andb_prop in Hj as [-> _].
  - apply andb_prop in Hj as [Ha Hb]. rewrite join_cons by done. rewrite !forallb_app, Ha.
    rewrite IH by done. reflexivity.
Qed.

Definition read_display (m : match_result) : ParsedTier :=
  {| pt_label := grp m 2;
     pt_conditions := parseTierConditions (default [] (grp_opt m 1));
     pt_fields := parseTierBody (grp m 3) |}.

Lemma goes_display cs tier p u :
  forallb wf_cond cs = true → wf_prices tier = true →
  goes tierRe (MS p (part_text cs tier ++ u) []) u
    ([(3, buildTierBodyExpr tier); (2, vt_label tier)]
     ++ (if nonempty cs then [(1, conditions_str cs)] else [])).
Proof.
  intros Hc Hp. unfold part_text, tierRe. rewrite <- app_assoc.
  eapply goes_cons; [done|apply goes_cond_part; [done|apply tier_call_head]|]. intros p1.
  pose proof (body_not_close tier Hp) as Hb.
  assert (Hs : ∃ t, buildTierBodyExpr tier = 112%N :: t) by (rewrite body_text; eexists; reflexivity).
  destruct Hs as [t Hs]. unfold wf_prices in Hp. bool_prop. unfold tier_call. text_norm.
  eapply goes_cons; [done|apply (goes_lit "tier(\q")|]. intros p2.
  eapply goes_cons; [done|apply goes_group; eexists; by apply prefers_star|]. intros p3.
  eapply goes_cons; [done|apply (goes_lit "\q,")|]. intros p4.
  eapply goes_cons; [done|apply goes_space; by rewrite Hs|]. intros p5.
  eapply goes_cons; [done|apply goes_group, goes_plus; [by rewrite Hs|done|done]|]. intros p6.
  apply (goes_lit ")").
Qed.

Lemma display_between p s idx :
  exec tierRe p (" : " ++ s) idx = exec tierRe (Some 32%N) s (S (S (S idx))).
Proof. cbn [app]. by rewrite !exec_next by reflexivity. Qed.

Lemma found_display x p u i :
  part_ok x = true →
  ∃ m, exec tierRe p (item_text x ++ u) i = Some m
       ∧ read_display m = display_tier x.1 x.2 ∧ m_tail m = u.
Proof.
  destruct x as [cs tier]. unfold part_ok, item_text. cbn [fst snd]. intros Hw.
  apply andb_prop in Hw as [Hc Hp].
  destruct (exec_here _ p _ i _ _ (goes_display cs tier p u Hc Hp)) as (m & Em & Hm & _ & Ht).
  exists m. split_and!; [done| |done]. unfold read_display, display_tier, grp, grp_opt. rewrite Hm.
  f_equal.
  - destruct cs as [|c cs]; [done|]. exact (parse_conditions (c :: cs) Hc).
  - exact (parseTierBody_eq tier Hp).
Qed.

(** The text of a configuration: its parts, and what closes a single tier with
    conditions. *)
Definition config_tail (tiers : VisualConfig) : jsstr :=
  match tiers with
  | [tier] => if nonempty (given tier) then " : " ++ EMPTY_EXPR else []
  | _ => []
  end.

Lemma config_text tiers :
  wf_config tiers = true →
  generateExprFromVisualConfig (Some tiers) = parts_text (parts tiers) ++ config_tail tiers.
Proof.
  unfold wf_config. intros Hw. apply andb_prop in Hw as [Hw Hp].
  destruct tiers as [|t [|t' l]]; [done| |].
  - cbn [forallb] in Hw. rewrite andb_true_r in Hw. cbn [generateExprFromVisualConfig config_tail].
    rewrite build_given, nonempty_conditions, label_or_wf by done.
    unfold parts, parts_text, item_text, part_text. cbn [map join fst snd].
    destruct (nonempty (given t)); [by rewrite <- !app_assoc|by rewrite app_nil_r].
  - cbn [config_tail]. rewrite app_nil_r. by apply tier_parts_eq.
Qed.

Lemma config_head tiers :
  wf_config tiers = true →
  startsWith "v" (generateExprFromVisualConfig (Some tiers)) = false
  ∧ nonempty (generateExprFromVisualConfig (Some tiers)) = true.
Proof.
  intros Hw. rewrite config_text by done. destruct tiers as [|t l]; [done|].
  unfold parts, parts_text. cbn [map]. rewrite join_concat_map. unfold item_text at 1 3, part_text.
  cbn [fst snd]. rewrite <- !app_assoc. destruct (nonempty (given t)) eqn:Hg; [|by split].
  rewrite <- !app_assoc. split; by eapply conditions_head in Hg as (? & _ & ?).
Qed.

Lemma display_stop tiers p : exec tierRe p (config_tail tiers) 0 = None.
Proof. destruct tiers as [|t [|t' l]]; [done| |done]. cbn. by destruct (nonempty (given t)). Qed.

(** The tiers the price page shows for a configuration. *)
Definition shown_tiers (tiers : VisualConfig) : list ParsedTier :=
  map (λ tier, display_tier (given tier) tier) tiers.

Lemma parse_config tiers :
  wf_config tiers = true →
  parseTiersFromExpr (generateExprFromVisualConfig (Some tiers)) = shown_tiers tiers.
Proof.
  intros Hw. destruct (config_head tiers Hw) as [Hv Hn]. unfold parseTiersFromExpr, stripExprVersion.
  rewrite Hn. unfold version_regex. cbn [rseq].
  rewrite re_match_none by (by apply rmatch_lit_seq_fail).
  change (map read_display (re_matchAll tierRe (generateExprFromVisualConfig (Some tiers))) = shown_tiers tiers).
  rewrite config_text by done. unfold wf_config in Hw. apply andb_prop in Hw as [Hw _].
  destruct tiers as [|t l]; [done|]. unfold re_matchAll, parts_text.
  rewrite (search_all tierRe item_text part_ok " : " (config_tail (t :: l)) (λ _, True) read_display
             (λ x, display_tier x.1 x.2) (λ x p u i Hx _ _, found_display x p u i Hx) display_between I
             (display_stop (t :: l)) (given t, t) (parts l) _ None []).
  - unfold shown_tiers, parts. cbn [map]. by rewrite map_map.
  - by apply (parts_ok (t :: l)).
  - rewrite length_app. pose proof (parts_length (parts (t :: l))). unfold parts_text, parts in *.
    cbn [map length] in *. lia.
  - by left.
Qed.
