(* ===== verification/TierRules.v ===== *)
(** * Visual tiers together with request rules

    A billing expression stores the text of the tiers and the text of the request
    rules in one string.  This file proves that the text of a configuration is a
    base that [splitBillingExprAndRequestRules] gives back, so that the tier editor,
    the rule editor and the price page all read what was saved. *)
From Stdlib Require Import NArith ZArith.
From stdpp Require Import list numbers.
From S2P Require Import Prelude JsString Regex JsNumber Json JsArray JsonRoundtrip BillingExpr BillingRules.
From S2P Require Import RuleRoundtrip RuleTheorems TierExpr TierRoundtrip TierTheorems TierDisplay.

(** ** The text of a configuration is a base expression *)

(** Parentheses in labels count like all others: they have to be balanced. *)
Definition labels_balanced (tiers : VisualConfig) : bool :=
  forallb (λ tier, balanced (vt_label tier)) tiers.

Lemma coeff_flat x : coeff_ok x = true → forallb not_paren (coeff_text x) = true.
Proof.
  destruct x as [v n]. unfold coeff_ok, coeff_text, coeff_str. cbn [fst snd]. intros Hx.
  apply andb_prop in Hx as [Hv Hn]. apply str_mem_true, list_elem_of_In in Hv.
  assert (E : forallb not_paren (Number_toString n) = true).
  { apply num_text_word in Hn. unfold num_word in Hn. apply andb_prop in Hn as [_ Hn]. revert Hn.
    apply forallb_impl. intros c Hc%cls_num_range. unfold not_paren. unit_decide. }
  rewrite !forallb_app, E. cbn in Hv. destruct_or! Hv; by subst v.
Qed.

Lemma body_balanced tier : wf_prices tier = true → balanced (buildTierBodyExpr tier) = true.
Proof.
  intros Hw%written_ok. rewrite body_written. apply balanced_join; [done|].
  induction (written tier) as [|x l IH]; [done|]. cbn [map forallb] in *. apply andb_prop in Hw as [Hx Hl].
  by rewrite IH, balanced_flat by (done || by apply coeff_flat).
Qed.

Lemma call_balanced tier :
  wf_prices tier = true → balanced (vt_label tier) = true → balanced (tier_call (vt_label tier) tier) = true.
Proof.
  intros Hw Hl. unfold tier_call.
  replace ("tier(\q" ++ _) with ("tier" ++ "(" ++ ("\q" ++ vt_label tier ++ "\q, " ++ buildTierBodyExpr tier) ++ ")")
    by (by rewrite <- !app_assoc).
  apply balanced_app; [done|]. apply balanced_wrap, balanced_app; [done|]. apply balanced_app; [done|].
  apply balanced_app; [done|]. by apply body_balanced.
Qed.

Lemma conditions_balanced cs : forallb wf_cond cs = true → balanced (conditions_str cs) = true.
Proof.
  intros Hw. apply balanced_join; [done|]. induction cs as [|c cs IH]; [done|].
  cbn [map forallb] in *. apply andb_prop in Hw as [Hc Hw]. rewrite IH, andb_true_r by done.
  unfold wf_cond in Hc. apply andb_prop in Hc as [Hc _]. apply andb_prop in Hc as [_ Hc].
  assert (E : forallb not_paren (condValue_str (tci_value c)) = true).
  { revert Hc. apply forallb_impl. intros x Hx%num_pos_range. unfold not_paren. unit_decide. }
  apply balanced_flat. unfold condition_str. rewrite !forallb_app, E. by destruct (tci_var c), (tci_op c).
Qed.

Lemma item_balanced tier :
  wf_tier tier = true → balanced (vt_label tier) = true → balanced (item_text (given tier, tier)) = true.
Proof.
  unfold wf_tier. intros Hw Hl. apply andb_prop in Hw as [Hp Hc].
  unfold item_text, part_text. cbn [fst snd]. apply balanced_app; [|by apply call_balanced].
  destruct (nonempty (given tier)); [|done]. apply balanced_app; [by apply conditions_balanced|done].
Qed.

Lemma parts_balanced tiers :
  forallb wf_tier tiers = true → labels_balanced tiers = true → balanced (parts_text (parts tiers)) = true.
Proof.
  unfold labels_balanced. intros Hw Hl. apply balanced_join; [done|]. induction tiers as [|t l IH]; [done|].
  change (parts (t :: l)) with ((given t, t) :: parts l). cbn [map forallb] in *.
  apply andb_prop in Hw as [Ht Hw]. apply andb_prop in Hl as [Hb Hl]. by rewrite IH, item_balanced.
Qed.

Lemma config_balanced tiers :
  wf_config tiers = true → labels_balanced tiers = true →
  balanced (generateExprFromVisualConfig (Some tiers)) = true.
Proof.
  intros Hw Hl. rewrite config_text by done. apply balanced_app.
  - unfold wf_config in Hw. apply andb_prop in Hw as [Hw _]. by apply parts_balanced.
  - destruct tiers as [|t [|t' l]]; [done| |done]. cbn [config_tail]. by destruct (nonempty (given t)).
Qed.

(** It starts with a letter and ends with a parenthesis or a zero. *)
Lemma item_start x u :
  head_ok (item_text x ++ u) = true ∧ startsWith "(" (item_text x ++ u) = false
  ∧ startsWith "*" (item_text x ++ u) = false.
Proof.
  destruct x as [cs t]. unfold item_text, part_text, conditions_str. cbn [fst snd]. rewrite <- !app_assoc.
  destruct cs as [|c cs]; [done|]. cbn [nonempty map]. rewrite join_concat_map. unfold condition_str at 1 3 5.
  rewrite <- !app_assoc. by destruct (tci_var c).
Qed.

Lemma parts_start x l u :
  head_ok (parts_text (x :: l) ++ u) = true ∧ startsWith "(" (parts_text (x :: l) ++ u) = false
  ∧ startsWith "*" (parts_text (x :: l) ++ u) = false.
Proof. unfold parts_text. cbn [map]. rewrite join_concat_map, <- app_assoc. apply item_start. Qed.

Lemma config_starts tiers :
  wf_config tiers = true →
  head_ok (generateExprFromVisualConfig (Some tiers)) = true
  ∧ startsWith "(" (generateExprFromVisualConfig (Some tiers)) = false.
Proof.
  intros Hw. rewrite config_text by done. destruct tiers as [|t l]; [done|].
  by destruct (parts_start (given t, t) (parts l) (config_tail (t :: l))) as (? & ? & _).
Qed.

Lemma parts_end l : l ≠ [] → ∃ a, parts_text l = a ++ [41%N].
Proof.
  unfold parts_text. induction l as [|[cs t] l IH]; [done|]. intros _.
  assert (E : ∃ a, item_text (cs, t) = a ++ [41%N]).
  { unfold item_text, part_text, tier_call. rewrite !app_assoc. eexists. reflexivity. }
  destruct l as [|y l]; [by destruct E as [a E]; exists a|].
  destruct IH as [a Ha]; [done|]. cbn [map] in *. rewrite join_cons, Ha, !app_assoc by done. eauto.
Qed.

Lemma config_ends tiers :
  wf_config tiers = true →
  ∃ a c, generateExprFromVisualConfig (Some tiers) = a ++ [c] ∧ (c = 41 ∨ c = 48)%N.
Proof.
  intros Hw. rewrite config_text by done.
  destruct (parts_end (parts tiers)) as [a Ha]; [by destruct tiers|].
  destruct tiers as [|t [|t' l]]; [done| |]; cbn [config_tail].
  - destruct (nonempty (given t)).
    + exists (parts_text (parts [t]) ++ " : p * 0 + c * "), 48%N. split; [|by right].
      rewrite <- !app_assoc. reflexivity.
    + exists a, 41%N. rewrite app_nil_r. auto.
  - exists a, 41%N. rewrite app_nil_r. auto.
Qed.

Lemma config_base tiers :
  wf_config tiers = true → labels_balanced tiers = true →
  wf_base (generateExprFromVisualConfig (Some tiers)) = true.
Proof.
  intros Hw Hl. pose proof (config_balanced tiers Hw Hl) as Hb. destruct (config_head tiers Hw) as [_ Hn].
  destruct (config_starts tiers Hw) as [Hs Hp]. destruct (config_ends tiers Hw) as (a & c & E & Hc).
  unfold wf_base, hasFullOuterParens, trimmed, ends_like_rule, endsWith. rewrite Hb, Hn, Hs, Hp, E, rev_unit.
  by destruct Hc as [->| ->].
Qed.

(** ** Reading a saved expression *)

Definition saved_expr (tiers : VisualConfig) (gs : list RequestRuleGroup) : jsstr :=
  combineBillingExpr (generateExprFromVisualConfig (Some tiers)) (buildRequestRuleExpr gs).

Lemma split_saved tiers gs :
  wf_config tiers = true → labels_balanced tiers = true → forallb wf_group gs = true → gs ≠ [] →
  splitBillingExprAndRequestRules (saved_expr tiers gs)
  = Ok {| billingExpr := generateExprFromVisualConfig (Some tiers);
          requestRuleExpr := buildRequestRuleExpr gs |}.
Proof. intros Hw Hl Hg Hne. apply split_combine; [by apply config_base|done|done]. Qed.

(** *** An expression without rules *)

Lemma star_free d s k :
  forallb (λ c, negb (c =? 42)%N) s = true → startsWith "*" k = false → sep_free (32%N :: "* ") d s k = true.
Proof.
  revert d; induction s as [|c s IH]; intros d Hs Hk; [done|]. cbn [forallb] in Hs.
  apply andb_prop in Hs as [_ Hs]. cbn [sep_free]. rewrite IH, andb_true_r by done.
  apply negb_true_iff, andb_false_iff. right. cbn [app startsWith].
  apply andb_false_iff. right. destruct s as [|e s]; cbn [app].
  - destruct k as [|e k]; [done|]. cbn [startsWith] in *. apply andb_false_iff in Hk as [Hk|Hk]; [by rewrite Hk|done].
  - cbn [forallb] in Hs. apply andb_prop in Hs as [He _]. cbn [startsWith]. rewrite N.eqb_sym.
    apply negb_true_iff in He. by rewrite He.
Qed.

Lemma call_free tier k :
  wf_prices tier = true → balanced (vt_label tier) = true →
  sep_free (32%N :: "* ") 0 (tier_call (vt_label tier) tier) k = true.
Proof.
  intros Hw Hl. unfold tier_call.
  replace ("tier(\q" ++ _) with ("tier" ++ "(" ++ ("\q" ++ vt_label tier ++ "\q, " ++ buildTierBodyExpr tier) ++ ")")
    by (by rewrite <- !app_assoc).
  rewrite sep_free_app. rewrite (star_free 0 "tier") by done. cbn [andb].
  change (depth 0 "tier") with 0%Z. apply sep_free_close.
  apply balanced_app; [done|]. apply balanced_app; [done|]. apply balanced_app; [done|]. by apply body_balanced.
Qed.

Lemma conditions_no_star cs :
  forallb wf_cond cs = true → forallb (λ c, negb (c =? 42)%N) (conditions_str cs) = true.
Proof.
  intros Hw. unfold conditions_str. induction cs as [|c cs IH]; [done|]. cbn [forallb] in Hw.
  apply andb_prop in Hw as [Hc Hw]. assert (E : forallb (λ c, negb (c =? 42)%N) (condition_str c) = true).
  { unfold wf_cond in Hc. apply andb_prop in Hc as [Hc _]. apply andb_prop in Hc as [_ Hc].
    unfold condition_str. rewrite !forallb_app.
    assert (E : forallb (λ c, negb (c =? 42)%N) (condValue_str (tci_value c)) = true).
    { revert Hc. apply forallb_impl. intros x Hx%num_pos_range. unit_decide. }
    rewrite E. by destruct (tci_var c), (tci_op c). }
  cbn [map]. rewrite join_concat_map, forallb_app, E. cbn [andb].
  destruct cs as [|e cs]; [done|]. cbn [map concat] in *. rewrite <- app_assoc, forallb_app.
  cbn [andb]. rewrite join_concat_map in IH. by apply IH.
Qed.

Lemma item_free tier k :
  wf_tier tier = true → balanced (vt_label tier) = true →
  sep_free (32%N :: "* ") 0 (item_text (given tier, tier)) k = true.
Proof.
  unfold wf_tier. intros Hw Hl. apply andb_prop in Hw as [Hp Hc].
  unfold item_text, part_text. cbn [fst snd]. rewrite sep_free_app.
  destruct (nonempty (given tier)); [|by apply call_free].
  rewrite balanced_depth, call_free, andb_true_r by (done || by apply balanced_app; [apply conditions_balanced|]).
  apply star_free; [|done]. by rewrite forallb_app, conditions_no_star.
Qed.

Lemma parts_free tiers k :
  forallb wf_tier tiers = true → labels_balanced tiers = true →
  sep_free (32%N :: "* ") 0 (parts_text (parts tiers)) k = true.
Proof.
  unfold labels_balanced, parts_text. induction tiers as [|t l IH]; [done|]. cbn [forallb]. intros Hw Hl.
  apply andb_prop in Hw as [Ht Hw]. apply andb_prop in Hl as [Hb Hl].
  change (parts (t :: l)) with ((given t, t) :: parts l). destruct l as [|t' l].
  - cbn [map join]. by apply item_free.
  - change (parts (t' :: l)) with ((given t', t') :: parts l) in *. cbn [map] in *.
    rewrite join_cons by done. rewrite !sep_free_app, item_free, balanced_depth by (done || by apply item_balanced).
    rewrite (star_free 0 " : ") by (done || apply (parts_start (given t', t') (parts l))). cbn [andb].
    change (depth 0 " : ") with 0%Z. by apply IH.
Qed.

(** A part that does not start with a parenthesis is no rule. *)
Lemma plain_part s :
  BillingRules.part_ok "* " s = true → startsWith "(" s = false → tryParseRequestRuleExpr s = Ok None.
Proof.
  intros Hp Hs. pose proof Hp as Hq. unfold BillingRules.part_ok in Hq. bool_prop.
  unfold tryParseRequestRuleExpr. rewrite trim_trimmed, H by done.
  unfold splitTopLevelMultiply. rewrite (splitTopLevel_single "* ") by done. cbn [collect].
  unfold tryParseRuleGroupFactor, group_regex. cbn [rseq].
  by rewrite re_match_none by (by apply rmatch_lit_seq_fail).
Qed.

Lemma sort_plain ps :
  forallb (BillingRules.part_ok "* ") ps = true → forallb (λ s, negb (startsWith "(" s)) ps = true →
  sort_parts ps = Ok ([], ps).
Proof.
  induction ps as [|s ps IH]; [done|]. cbn [forallb]. intros Hp Hs.
  apply andb_prop in Hp as [H1 Hp]. apply andb_prop in Hs as [H2%negb_true_iff Hs].
  cbn [sort_parts]. rewrite plain_part, IH by done. reflexivity.
Qed.

(** An expression made of such parts is all base. *)
Lemma split_plain ps :
  ps ≠ [] → forallb (BillingRules.part_ok "* ") ps = true →
  forallb (λ s, negb (startsWith "(" s)) ps = true →
  splitBillingExprAndRequestRules (join SEP_MUL ps)
  = Ok {| billingExpr := join SEP_MUL ps; requestRuleExpr := [] |}.
Proof.
  intros Hne Hp Hs. destruct (parts_facts _ _ Hp) as [Hn Ht]. unfold splitBillingExprAndRequestRules.
  rewrite trim_trimmed by done. rewrite (proj2 (nonempty_true _)) by by apply join_ne.
  unfold splitTopLevelMultiply. rewrite (splitTopLevel_join "* ") by done.
  rewrite sort_plain by done. by destruct (Nat.leb (length ps) 1).
Qed.

(** The parts of a configuration, followed by a text without a separator. *)
Lemma parts_part t l u :
  forallb wf_tier (t :: l) = true → labels_balanced (t :: l) = true → balanced u = true →
  trimmed (parts_text (parts (t :: l)) ++ u) = true →
  sep_free (32%N :: "* ") 0 u (32%N :: "* ") = true → sep_free (32%N :: "* ") 0 u [] = true →
  BillingRules.part_ok "* " (parts_text (parts (t :: l)) ++ u) = true
  ∧ startsWith "(" (parts_text (parts (t :: l)) ++ u) = false.
Proof.
  intros Hw Hl Hu Ht Hk H0. destruct (parts_start (given t, t) (parts l) u) as (_ & Hs & _). split; [|done].
  pose proof (parts_length (parts (t :: l))) as Hn.
  unfold BillingRules.part_ok. rewrite Ht, balanced_app, !sep_free_app, !parts_free, balanced_depth, Hk, H0
    by (done || by apply parts_balanced).
  destruct (parts_text (parts (t :: l))); [cbn in Hn; lia|done].
Qed.

Lemma split_config tiers :
  wf_config tiers = true → labels_balanced tiers = true →
  splitBillingExprAndRequestRules (generateExprFromVisualConfig (Some tiers))
  = Ok {| billingExpr := generateExprFromVisualConfig (Some tiers); requestRuleExpr := [] |}.
Proof.
  intros Hw Hl. pose proof (config_base tiers Hw Hl) as Hb. unfold wf_base in Hb. bool_prop.
  rewrite config_text in * by done. unfold wf_config in Hw. apply andb_prop in Hw as [Hw _].
  destruct tiers as [|t l]; [done|].
  assert (Hc : config_tail (t :: l) = [] ∨ config_tail (t :: l) = " : p * 0 + c * 0").
  { destruct l; [|by left]. cbn [config_tail]. destruct (nonempty (given t)); auto. }
  destruct Hc as [Hc|Hc]; rewrite Hc in *.
  - destruct (parts_part t l [] Hw Hl) as [Hp Hs]; [done..|]. rewrite app_nil_r in *.
    apply (split_plain [parts_text (parts (t :: l))]); [done| |]; cbn [forallb]; [by rewrite Hp|by rewrite Hs].
  - destruct (parts_part t l " : p" Hw Hl) as [Hp Hs]; [done| |done|done|].
    { apply ends_trimmed; [apply (parts_start (given t, t) (parts l))|by rewrite end_ok_app]. }
    replace (parts_text (parts (t :: l)) ++ " : p * 0 + c * 0")
      with (join SEP_MUL [parts_text (parts (t :: l)) ++ " : p"; "0 + c"; "0"])
      by (cbn [join]; by rewrite <- !app_assoc).
    apply split_plain; [done| |]; cbn [forallb]; [by rewrite Hp|by rewrite Hs].
Qed.

(** With or without rules, what was saved is read back. *)
Lemma split_saved_all tiers gs :
  wf_config tiers = true → labels_balanced tiers = true → forallb wf_group gs = true →
  splitBillingExprAndRequestRules (saved_expr tiers gs)
  = Ok {| billingExpr := generateExprFromVisualConfig (Some tiers);
          requestRuleExpr := buildRequestRuleExpr gs |}.
Proof.
  intros Hw Hl Hg. destruct gs as [|g gs]; [|by apply split_saved].
  pose proof (config_base tiers Hw Hl) as Hb. unfold wf_base in Hb. bool_prop.
  unfold saved_expr, combineBillingExpr. change (buildRequestRuleExpr []) with (@nil N).
  cbn [trim]. rewrite trim_trimmed, H by done. by apply split_config.
Qed.
