(* ===== verification/TierEditor.v ===== *)
(** * The tiered pricing editor

    [features/system-settings/models/tiered-pricing-editor.tsx]: the number inputs,
    the operations of the visual editor on tiers and conditions, the cards of the
    request rules, the presets, and the editor that holds an expression either as a
    visual configuration or as text and keeps the two expressions of its parent up to
    date.

    A handler is a function from the state to the next one.  The editor's effects
    run after a render: an effect reads the values of the render and writes the
    state of the next one, the effects run in the order of the component, and an
    effect whose dependencies are unchanged does not run. *)
From Stdlib Require Import NArith ZArith.
From stdpp Require Import list numbers.
From S2P Require Import Prelude JsString Regex JsNumber Json BillingExpr TierExpr.

(** ** Number inputs *)

Definition unitCostToPrice (uc : number) : number := num_or uc zero.
Definition priceToUnitCost (price : number) : number := num_or price zero.

(** The value of an input is a number or a string, as for a condition. *)
Definition formatNumberDraft (value : CondValue) : jsstr :=
  match value with
  | CVStr s => s
  | CVNum n => if isFinite n then Number_toString n else "0"
  end.

Definition parseNumberDraft (value : jsstr) : number :=
  if nonempty (trim value) then
    let next := Number_of_string value in if isFinite next then next else zero
  else zero.

Definition isZeroDraft (value : jsstr) : bool :=
  nonempty (trim value) && num_eqb (parseNumberDraft value) zero.

(** [DraftNumberInput]: the text being edited, and whether it is. *)
Record DraftInput : Type := { di_draft : jsstr; di_focused : bool }.

Definition draft_mount (value : CondValue) : DraftInput :=
  {| di_draft := formatNumberDraft value; di_focused := false |}.

(** The effect on [focused] and [value]. *)
Definition draft_effect (value : CondValue) (di : DraftInput) : DraftInput :=
  if di_focused di then di
  else {| di_draft := formatNumberDraft value; di_focused := false |}.

(** The new state and the argument of [onValueChange]. *)
Definition draft_handleChange (text : jsstr) (di : DraftInput) : DraftInput * number :=
  ({| di_draft := text; di_focused := di_focused di |}, parseNumberDraft text).

Definition draft_handleFocus (di : DraftInput) : DraftInput :=
  {| di_draft := di_draft di; di_focused := true |}.

Definition draft_handleBlur (text : jsstr) (di : DraftInput) : DraftInput * number :=
  let normalized := parseNumberDraft text in
  ({| di_draft := Number_toString normalized; di_focused := false |}, normalized).

(** ** One tier *)

(** [l.filter((_, i) => i !== index)]. *)
Definition remove_at {A} (index : nat) (l : list A) : list A := take index l ++ drop (S index) l.

Definition set_conditions (conds : list TierConditionInput) (tier : VisualTier) : VisualTier :=
  {| vt_label := vt_label tier; vt_conditions := conds;
     vt_input_unit_cost := vt_input_unit_cost tier; vt_output_unit_cost := vt_output_unit_cost tier;
     vt_cache_mode := vt_cache_mode tier; vt_costs := vt_costs tier |}.

(** The index is that of a row shown, so it is in range. *)
Definition handleConditionChange (index : nat) (next : TierConditionInput) (tier : VisualTier)
    : VisualTier :=
  set_conditions (<[index := next]> (vt_conditions tier)) tier.

Definition handleConditionRemove (index : nat) (tier : VisualTier) : VisualTier :=
  set_conditions (remove_at index (vt_conditions tier)) tier.

Definition setLabel (label : jsstr) (tier : VisualTier) : VisualTier :=
  {| vt_label := label; vt_conditions := vt_conditions tier;
     vt_input_unit_cost := vt_input_unit_cost tier; vt_output_unit_cost := vt_output_unit_cost tier;
     vt_cache_mode := vt_cache_mode tier; vt_costs := vt_costs tier |}.

(** Assignment of an own property of the tier's costs. *)
Fixpoint set_cost (field : jsstr) (v : number) (costs : list (jsstr * number))
    : list (jsstr * number) :=
  match costs with
  | [] => [(field, v)]
  | (f, x) :: r => if str_eqb field f then (f, v) :: r else (f, x) :: set_cost field v r
  end.

(** The price fields of the card: the two base prices and the extra variables. *)
Inductive PriceKey : Type := KInput | KOutput | KCost (field : jsstr).

Definition handlePriceChange (key : PriceKey) (price : number) (tier : VisualTier) : VisualTier :=
  let v := priceToUnitCost price in
  {| vt_label := vt_label tier; vt_conditions := vt_conditions tier;
     vt_input_unit_cost := match key with KInput => v | _ => vt_input_unit_cost tier end;
     vt_output_unit_cost := match key with KOutput => v | _ => vt_output_unit_cost tier end;
     vt_cache_mode := vt_cache_mode tier;
     vt_costs := match key with KCost field => set_cost field v (vt_costs tier) | _ => vt_costs tier end |}.

Definition handleCacheModeChange (mode : CacheMode) (tier : VisualTier) : VisualTier :=
  {| vt_label := vt_label tier; vt_conditions := vt_conditions tier;
     vt_input_unit_cost := vt_input_unit_cost tier; vt_output_unit_cost := vt_output_unit_cost tier;
     vt_cache_mode := mode;
     vt_costs := set_cost CACHE_1H_FIELD
                   (match mode with
                    | CACHE_MODE_TIMED => default zero (assoc_get CACHE_1H_FIELD (vt_costs tier))
                    | CACHE_MODE_GENERIC => zero
                    end) (vt_costs tier) |}.

(** ** The list of tiers *)

Definition DEFAULT_BOUND : number := num_of_Z 200000.

Definition handleTierChange (config : VisualConfig) (index : nat) (next : VisualTier)
    : VisualConfig :=
  <[index := normalizeVisualTier (partial_of next)]> config.

Definition new_tier (number : nat) : VisualTier :=
  normalizeVisualTier
    {| p_label := Some ("tier_" ++ to_dec (N.of_nat number)); p_conditions := Some [];
       p_input_unit_cost := Some zero; p_output_unit_cost := Some zero; p_cache_mode := None;
       p_costs := [] |}.

(** A last tier without conditions gets a default bound. *)
Definition bound_last (tier : VisualTier) : VisualTier :=
  match vt_conditions tier with
  | [] => normalizeVisualTier (partial_of (set_conditions
            [{| tci_var := TV_len; tci_op := OpLt; tci_value := CVNum DEFAULT_BOUND |}] tier))
  | _ => tier
  end.

Definition handleAddTier (config : VisualConfig) : VisualConfig :=
  let tiers := match list.last config with
               | Some tier => <[pred (length config) := bound_last tier]> config
               | None => config
               end in
  tiers ++ [new_tier (S (length tiers))].

Definition handleRemoveTier (config : VisualConfig) (index : nat) : VisualConfig :=
  let tiers := remove_at index config in
  if nonempty tiers then tiers else config.

Definition tierVar_eqb (v w : TierVar) : bool := str_eqb (tierVar_str v) (tierVar_str w).

Definition handleAddCondition (config : VisualConfig) (index : nat) : VisualConfig :=
  match config !! index with
  | Some tier =>
      if Nat.leb 2 (length (vt_conditions tier)) then config
      else
        let nextVar := if existsb (λ c, tierVar_eqb (tci_var c) TV_len) (vt_conditions tier)
                       then TV_c else TV_len in
        <[index := set_conditions
                     (vt_conditions tier
                      ++ [{| tci_var := nextVar; tci_op := OpLt; tci_value := CVNum DEFAULT_BOUND |}])
                     tier]> config
  | None => config
  end.

(** What the user can do to the tiers: the handlers of a card go through
    [handleTierChange]. *)
Inductive CardEdit : Type :=
| EditLabel (label : jsstr)
| EditCondition (index : nat) (next : TierConditionInput)
| RemoveCondition (index : nat)
| EditPrice (key : PriceKey) (price : number)
| EditCacheMode (mode : CacheMode).

Definition card_edit (e : CardEdit) (tier : VisualTier) : VisualTier :=
  match e with
  | EditLabel label => setLabel label tier
  | EditCondition i next => handleConditionChange i next tier
  | RemoveCondition i => handleConditionRemove i tier
  | EditPrice key price => handlePriceChange key price tier
  | EditCacheMode mode => handleCacheModeChange mode tier
  end.

Inductive TierEdit : Type :=
| OnCard (index : nat) (e : CardEdit)
| AddTier
| RemoveTier (index : nat)
| AddCondition (index : nat).

(** [VisualEditor]: the handlers work on the normalized configuration. *)
Definition tier_edit (visualConfig : option VisualConfig) (e : TierEdit) : VisualConfig :=
  let config := normalizeVisualConfig visualConfig in
  match e with
  | OnCard i ce =>
      match config !! i with
      | Some tier => handleTierChange config i (card_edit ce tier)
      | None => config
      end
  | AddTier => handleAddTier config
  | RemoveTier i => handleRemoveTier config i
  | AddCondition i => handleAddCondition config i
  end.

(** ** Request rules *)

(** [RuleConditionRow]: the condition after the choice of another source. *)
Definition handleSourceChange (source : jsstr) (condition : RequestCondition) : RequestCondition :=
  if str_eqb source SOURCE_TIME then CTime createEmptyTimeCondition
  else if str_eqb source SOURCE_HEADER then
    CPH {| ph_source := SHeader; ph_path := []; ph_mode := MATCH_EQ; ph_value := [] |}
  else if str_eqb source SOURCE_PARAM then CPH createEmptyCondition
  else condition.

Definition rule_handleModeChange (mode : jsstr) (condition : RequestCondition) : RequestCondition :=
  match condition with
  | CTime c => CTime {| tc_timeFunc := tc_timeFunc c; tc_timezone := tc_timezone c; tc_mode := mode;
                        tc_value := tc_value c; tc_rangeStart := tc_rangeStart c;
                        tc_rangeEnd := tc_rangeEnd c |}
  | CPH c => CPH {| ph_source := ph_source c; ph_path := ph_path c; ph_mode := mode;
                    ph_value := ph_value c |}
  end.

(** [RuleGroupCard]. *)
Definition group_handleConditionChange (index : nat) (next : RequestCondition)
    (group : RequestRuleGroup) : RequestRuleGroup :=
  {| conditions := <[index := next]> (conditions group); multiplier := multiplier group |}.

Definition group_handleAddCondition (timeMode : bool) (group : RequestRuleGroup) : RequestRuleGroup :=
  {| conditions := conditions group
       ++ [if timeMode then CTime createEmptyTimeCondition else CPH createEmptyCondition];
     multiplier := multiplier group |}.

Definition group_removeCondition (index : nat) (group : RequestRuleGroup) : RequestRuleGroup :=
  {| conditions := remove_at index (conditions group); multiplier := multiplier group |}.

Definition group_setMultiplier (value : number) (group : RequestRuleGroup) : RequestRuleGroup :=
  {| conditions := conditions group; multiplier := Number_toString value |}.

(** ** Presets *)

Record Preset : Type := {
  preset_key : jsstr;
  preset_label : jsstr;
  preset_expr : jsstr;
  preset_requestRules : list RequestRuleGroup
}.

Definition simple_preset (key label expr : jsstr) : Preset :=
  {| preset_key := key; preset_label := label; preset_expr := expr; preset_requestRules := [] |}.

Definition rule_preset (key label expr : jsstr) (rules : list RequestRuleGroup) : Preset :=
  {| preset_key := key; preset_label := label; preset_expr := expr; preset_requestRules := rules |}.

Definition one_condition (c : RequestCondition) (mult : jsstr) : RequestRuleGroup :=
  {| conditions := [c]; multiplier := mult |}.

Definition opus_expr : jsstr := "tier(\qbase\q, p * 5 + c * 25 + cr * 0.5 + cc * 6.25 + cc1h * 10)".
Definition gpt_expr : jsstr :=
  "len <= 272000 ? tier(\qstandard\q, p * 2.5 + c * 15 + cr * 0.25) : tier(\qlong_context\q, p * 5 + c * 22.5 + cr * 0.5)".

Definition service_tier_is (value : jsstr) : RequestCondition :=
  CPH {| ph_source := SParam; ph_path := "service_tier"; ph_mode := MATCH_EQ; ph_value := value |}.

Definition weekday_is (value : jsstr) : RequestCondition :=
  CTime {| tc_timeFunc := TF_weekday; tc_timezone := "Asia/Shanghai"; tc_mode := MATCH_EQ;
           tc_value := value; tc_rangeStart := []; tc_rangeEnd := [] |}.

Definition fast_preset : Preset :=
  rule_preset "claude-opus-fast" "Claude Opus 4.6 Fast" opus_expr
    [one_condition (CPH {| ph_source := SHeader; ph_path := "anthropic-beta";
                           ph_mode := MATCH_CONTAINS; ph_value := "fast-mode-2026-02-01" |}) "6"].

Definition PRESET_GROUPS : list (jsstr * list Preset) :=
  [("Fixed price",
     [simple_preset "flat" "Flat" "tier(\qbase\q, p * 2 + c * 4)";
      simple_preset "claude-opus" "Claude Opus 4.6" opus_expr;
      simple_preset "gpt-5.4" "GPT-5.4" gpt_expr]);
   ("Tiered",
     [simple_preset "claude-sonnet" "Claude Sonnet 4.5"
        "len <= 200000 ? tier(\qstandard\q, p * 3 + c * 15 + cr * 0.3 + cc * 3.75 + cc1h * 6) : tier(\qlong_context\q, p * 6 + c * 22.5 + cr * 0.6 + cc * 7.5 + cc1h * 12)";
      simple_preset "qwen3-max" "Qwen3 Max"
        "len <= 32000 ? tier(\qshort\q, p * 1.2 + c * 6 + cr * 0.24 + cc * 1.5) : len <= 128000 ? tier(\qmid\q, p * 2.4 + c * 12 + cr * 0.48 + cc * 3) : tier(\qlong\q, p * 3 + c * 15 + cr * 0.6 + cc * 3.75)";
      simple_preset "glm-4.5-air" "GLM-4.5 Air"
        "len < 32000 && c < 200 ? tier(\qshort_output\q, p * 0.8 + c * 2 + cr * 0.16) : len < 32000 && c >= 200 ? tier(\qlong_output\q, p * 0.8 + c * 6 + cr * 0.16) : tier(\qmid_context\q, p * 1.2 + c * 8 + cr * 0.24)";
      simple_preset "doubao-seed-1.8" "Doubao Seed 1.8"
        "len <= 32000 && c <= 200 ? tier(\qdiscount\q, p * 0.8 + c * 2 + cr * 0.16 + cc * 0.17) : len <= 32000 ? tier(\qshort\q, p * 0.8 + c * 8 + cr * 0.16 + cc * 0.17) : len <= 128000 ? tier(\qmid\q, p * 1.2 + c * 16 + cr * 0.16 + cc * 0.17) : tier(\qlong\q, p * 2.4 + c * 24 + cr * 0.16 + cc * 0.17)"]);
   ("Multimodal",
     [simple_preset "gpt-image-1-mini" "GPT Image 1 Mini" "tier(\qbase\q, p * 2 + c * 8 + img * 2.5)";
      simple_preset "gemini-2.5-flash" "Gemini 2.5 Flash"
        "tier(\qbase\q, p * 0.3 + c * 2.5 + cr * 0.03 + ai * 1.0)";
      simple_preset "gemini-3-pro-image" "Gemini 3 Pro Image"
        "tier(\qbase\q, p * 2 + c * 12 + img_o * 120)";
      simple_preset "qwen3-omni-flash" "Qwen3 Omni Flash"
        "tier(\qbase\q, p * 0.43 + c * 3.06 + img * 0.78 + ai * 3.81 + ao * 15.11)"]);
   ("Request rule",
     [fast_preset;
      rule_preset "gpt-5.4-tiers" "GPT-5.4 Priority/Flex" gpt_expr
        [one_condition (service_tier_is "priority") "2"; one_condition (service_tier_is "flex") "0.5"]]);
   ("Time-based",
     [rule_preset "night-discount" "Night discount (50%)" "tier(\qbase\q, p * 3 + c * 15)"
        [one_condition
           (CTime {| tc_timeFunc := TF_hour; tc_timezone := "Asia/Shanghai"; tc_mode := MATCH_RANGE;
                     tc_value := []; tc_rangeStart := "21"; tc_rangeEnd := "6" |}) "0.5"];
      rule_preset "weekend-discount" "Weekend discount (80%)" "tier(\qbase\q, p * 3 + c * 15)"
        [one_condition (weekday_is "0") "0.8"; one_condition (weekday_is "6") "0.8"]])].

(** ** The editor *)

Inductive EditorMode : Type := ModeVisual | ModeRaw.

(** The properties [modelName], [billingExpr] and [requestRuleExpr] belong to the
    parent, whose setters are [onBillingExprChange] and [onRequestRuleExprChange]. *)
Record Editor : Type := {
  ed_modelName : jsstr;
  ed_currentExpr : jsstr;
  ed_currentRequestRuleExpr : jsstr;
  ed_editorMode : EditorMode;
  ed_visualConfig : option VisualConfig;
  ed_rawExpr : jsstr;
  ed_requestRuleGroups : list RequestRuleGroup;
  ed_initRef : bool
}.

Definition setBillingExpr (v : jsstr) (ed : Editor) : Editor :=
  {| ed_modelName := ed_modelName ed; ed_currentExpr := v;
     ed_currentRequestRuleExpr := ed_currentRequestRuleExpr ed; ed_editorMode := ed_editorMode ed;
     ed_visualConfig := ed_visualConfig ed; ed_rawExpr := ed_rawExpr ed;
     ed_requestRuleGroups := ed_requestRuleGroups ed; ed_initRef := ed_initRef ed |}.

Definition setRequestRuleExpr (v : jsstr) (ed : Editor) : Editor :=
  {| ed_modelName := ed_modelName ed; ed_currentExpr := ed_currentExpr ed;
     ed_currentRequestRuleExpr := v; ed_editorMode := ed_editorMode ed;
     ed_visualConfig := ed_visualConfig ed; ed_rawExpr := ed_rawExpr ed;
     ed_requestRuleGroups := ed_requestRuleGroups ed; ed_initRef := ed_initRef ed |}.

Definition setEditorMode (v : EditorMode) (ed : Editor) : Editor :=
  {| ed_modelName := ed_modelName ed; ed_currentExpr := ed_currentExpr ed;
     ed_currentRequestRuleExpr := ed_currentRequestRuleExpr ed; ed_editorMode := v;
     ed_visualConfig := ed_visualConfig ed; ed_rawExpr := ed_rawExpr ed;
     ed_requestRuleGroups := ed_requestRuleGroups ed; ed_initRef := ed_initRef ed |}.

Definition setVisualConfig (v : option VisualConfig) (ed : Editor) : Editor :=
  {| ed_modelName := ed_modelName ed; ed_currentExpr := ed_currentExpr ed;
     ed_currentRequestRuleExpr := ed_currentRequestRuleExpr ed; ed_editorMode := ed_editorMode ed;
     ed_visualConfig := v; ed_rawExpr := ed_rawExpr ed;
     ed_requestRuleGroups := ed_requestRuleGroups ed; ed_initRef := ed_initRef ed |}.

Definition setRawExpr (v : jsstr) (ed : Editor) : Editor :=
  {| ed_modelName := ed_modelName ed; ed_currentExpr := ed_currentExpr ed;
     ed_currentRequestRuleExpr := ed_currentRequestRuleExpr ed; ed_editorMode := ed_editorMode ed;
     ed_visualConfig := ed_visualConfig ed; ed_rawExpr := v;
     ed_requestRuleGroups := ed_requestRuleGroups ed; ed_initRef := ed_initRef ed |}.

Definition setRequestRuleGroups (v : list RequestRuleGroup) (ed : Editor) : Editor :=
  {| ed_modelName := ed_modelName ed; ed_currentExpr := ed_currentExpr ed;
     ed_currentRequestRuleExpr := ed_currentRequestRuleExpr ed; ed_editorMode := ed_editorMode ed;
     ed_visualConfig := ed_visualConfig ed; ed_rawExpr := ed_rawExpr ed;
     ed_requestRuleGroups := v; ed_initRef := ed_initRef ed |}.

Definition set_initRef (v : bool) (ed : Editor) : Editor :=
  {| ed_modelName := ed_modelName ed; ed_currentExpr := ed_currentExpr ed;
     ed_currentRequestRuleExpr := ed_currentRequestRuleExpr ed; ed_editorMode := ed_editorMode ed;
     ed_visualConfig := ed_visualConfig ed; ed_rawExpr := ed_rawExpr ed;
     ed_requestRuleGroups := ed_requestRuleGroups ed; ed_initRef := v |}.

(** [tryParseRequestRuleExpr(expr) || []]. *)
Definition rule_groups (expr : jsstr) : exn (list RequestRuleGroup) :=
  groups ← tryParseRequestRuleExpr expr;
  Ok (default [] groups).

(** The first render. *)
Definition editor_mount (modelName expr rule : jsstr) : exn Editor :=
  groups ← rule_groups rule;
  Ok {| ed_modelName := modelName; ed_currentExpr := expr; ed_currentRequestRuleExpr := rule;
        ed_editorMode := ModeVisual; ed_visualConfig := tryParseVisualConfig expr;
        ed_rawExpr := combineBillingExpr expr rule; ed_requestRuleGroups := groups;
        ed_initRef := false |}.

Definition canUseVisualRules (ed : Editor) : exn bool :=
  if nonempty (ed_currentRequestRuleExpr ed) then
    parsed ← tryParseRequestRuleExpr (ed_currentRequestRuleExpr ed);
    Ok (match parsed with Some _ => true | None => false end)
  else Ok true.

Definition effectiveExpr (ed : Editor) : exn jsstr :=
  match ed_editorMode ed with
  | ModeVisual => Ok (generateExprFromVisualConfig (ed_visualConfig ed))
  | ModeRaw => r ← splitBillingExprAndRequestRules (ed_rawExpr ed); Ok (billingExpr r)
  end.

(** *** Effects: [r] is the render, [p] the state so far. *)

Definition init_effect (r p : Editor) : exn Editor :=
  if ed_initRef p then Ok p
  else
    groups ← rule_groups (ed_currentRequestRuleExpr r);
    let p := set_initRef true p in
    let p := match tryParseVisualConfig (ed_currentExpr r) with
             | Some parsedConfig => setEditorMode ModeVisual (setVisualConfig (Some parsedConfig) p)
             | None =>
                 if nonempty (ed_currentExpr r) then setEditorMode ModeRaw (setVisualConfig None p)
                 else setVisualConfig (Some createDefaultVisualConfig) p
             end in
    let p := setRawExpr (combineBillingExpr (ed_currentExpr r) (ed_currentRequestRuleExpr r)) p in
    Ok (setRequestRuleGroups groups p).

Definition model_effect (p : Editor) : Editor := set_initRef false p.

Definition expr_effect (r p : Editor) : exn Editor :=
  e ← effectiveExpr r;
  Ok (if str_eqb e (ed_currentExpr r) then p else setBillingExpr e p).

Definition rule_effect (r p : Editor) : Editor :=
  match ed_editorMode r with
  | ModeRaw => p
  | ModeVisual =>
      let ruleExpr := buildRequestRuleExpr (ed_requestRuleGroups r) in
      if str_eqb ruleExpr (ed_currentRequestRuleExpr r) then p else setRequestRuleExpr ruleExpr p
  end.

(** One commit of the render [r]; [prev] is the render before it, if any.  The last
    two effects compare before they call, and calling brings the value they compare
    with up to date: with unchanged dependencies they do nothing. *)
Definition commit (prev : option Editor) (r : Editor) : exn Editor :=
  let exprs_changed :=
    match prev with
    | None => true
    | Some q => negb (str_eqb (ed_currentExpr q) (ed_currentExpr r)
                      && str_eqb (ed_currentRequestRuleExpr q) (ed_currentRequestRuleExpr r))
    end in
  let model_changed :=
    match prev with None => true | Some q => negb (str_eqb (ed_modelName q) (ed_modelName r)) end in
  p ← (if exprs_changed then init_effect r r else Ok r);
  let p := if model_changed then model_effect p else p in
  p ← expr_effect r p;
  Ok (rule_effect r p).

(** The renders and commits that follow a render. *)
Fixpoint commits (n : nat) (prev : option Editor) (r : Editor) : exn Editor :=
  match n with
  | 0 => Ok r
  | S n => next ← commit prev r; commits n (Some r) next
  end.

(** *** Handlers *)

Definition handleVisualChange (next : VisualConfig) (ed : Editor) : Editor :=
  setVisualConfig (Some next) ed.

Definition handleRawChange (value : jsstr) (ed : Editor) : exn Editor :=
  r ← splitBillingExprAndRequestRules value;
  Ok (setRequestRuleExpr (requestRuleExpr r) (setRawExpr value ed)).

Definition handleModeChange (next : EditorMode) (ed : Editor) : exn Editor :=
  match next with
  | ModeVisual =>
      r ← splitBillingExprAndRequestRules (ed_rawExpr ed);
      groups ← rule_groups (requestRuleExpr r);
      let ed := setVisualConfig
                  (Some (default createDefaultVisualConfig (tryParseVisualConfig (billingExpr r)))) ed in
      let ed := setRequestRuleExpr (requestRuleExpr r) (setRequestRuleGroups groups ed) in
      Ok (setEditorMode next ed)
  | ModeRaw =>
      let expr := generateExprFromVisualConfig (ed_visualConfig ed) in
      let ruleExpr := buildRequestRuleExpr (ed_requestRuleGroups ed) in
      Ok (setEditorMode next (setRawExpr (label_or (combineBillingExpr expr ruleExpr) expr) ed))
  end.

Definition applyPreset (preset : Preset) (ed : Editor) : Editor :=
  let ruleExpr := buildRequestRuleExpr (preset_requestRules preset) in
  let combined := label_or (combineBillingExpr (preset_expr preset) ruleExpr) (preset_expr preset) in
  let ed := setRawExpr combined ed in
  let ed := match tryParseVisualConfig (preset_expr preset) with
            | Some parsed => setEditorMode ModeVisual (setVisualConfig (Some parsed) ed)
            | None => setVisualConfig None (setEditorMode ModeRaw ed)
            end in
  setRequestRuleExpr ruleExpr (setRequestRuleGroups (preset_requestRules preset) ed).

Definition handleRuleGroupsChange (next : list RequestRuleGroup) (ed : Editor) : Editor :=
  setRequestRuleGroups next ed.
