(* ===== verification/Pricing.v ===== *)
(** * Prices of the model list: [features/pricing/lib]

    The prices shown for a model ([price.ts]), the tiers of a billing expression
    ([dynamic-price.ts]), the filters and the order of the list ([filters.ts]) and
    its helpers ([model-helpers.ts]).  Case mapping and the order by locale are
    parameters.  A record of ratios by group is a list of pairs; a group does not
    have the name of a property of [Object.prototype]. *)
From Stdlib Require Import NArith ZArith.
From Stdlib Require Import Floats.SpecFloat.
From stdpp Require Import list numbers.
From S2P Require Import Prelude JsString Regex JsNumber Json JsArray BillingExpr.

(** ** Models *)

(** The fields the library reads. *)
Record PricingModel : Type := {
  pm_model_name : jsstr;
  pm_description : option jsstr;
  pm_vendor_name : option jsstr;
  pm_quota_type : Z;
  pm_model_ratio : number;
  pm_completion_ratio : number;
  pm_model_price : option number;
  pm_cache_ratio : option number;
  pm_create_cache_ratio : option number;
  pm_image_ratio : option number;
  pm_audio_ratio : option number;
  pm_audio_completion_ratio : option number;
  pm_enable_groups : list jsstr;
  pm_tags : option jsstr;
  pm_supported_endpoint_types : option (list jsstr);
  pm_group_ratio : option (list (jsstr * number));
  pm_billing_mode : option jsstr;
  pm_billing_expr : option jsstr
}.

Inductive PriceType : Type :=
| PInput | POutput | PCache | PCreateCache | PImage | PAudioInput | PAudioOutput.

Inductive TokenUnit : Type := UnitM | UnitK.

Definition TOKEN_UNIT_DIVISORS (u : TokenUnit) : number :=
  match u with UnitM => num_of_Z 1 | UnitK => num_of_Z 1000 end.

Definition QUOTA_TOKEN : Z := 0.
Definition QUOTA_REQUEST : Z := 1.

(** ** Decimal texts *)

(** [/\.?0+$/] *)
Definition zeros_regex : regex :=
  rseq [ropt (RLit "."); rplus (RCls false [(48, 48)]%N); REnd].

(** [s.replace(r, by)] without the flag [g]. *)
Definition re_replace (r : regex) (by_ s : jsstr) : jsstr :=
  match re_match r s with
  | Some m => take (m_index m) s ++ by_ ++ m_tail m
  | None => s
  end.

(** The number a text starts with, as [parseFloat] reads it. *)
Definition parseFloat (s : jsstr) : number :=
  let t := trimStart s in
  let '(neg, u) := match t with
                   | c :: r => if (c =? 45)%N then (true, r)
                               else if (c =? 43)%N then (false, r) else (false, t)
                   | [] => (false, [])
                   end in
  if startsWith lit_Infinity u then S754_infinity neg
  else
    let '(ip, v) := span_digits u in
    let '(fp, w) := match v with
                    | c :: r => if (c =? 46)%N then span_digits r else ([], v)
                    | [] => ([], [])
                    end in
    if nonempty (ip ++ fp) then
      let ex := match parse_exponent w with Some (e, _) => e | None => 0%Z end in
      num_of_decimal neg (dec_value (ip ++ fp)) (ex - Z.of_nat (length fp))
    else NaN.

Definition cls_not_number : cls := [(48, 57); (45, 45)]%N.
Definition cls_grouped : cls := [(45, 45); (48, 57); (44, 44)]%N.

Definition amount_regex : regex :=
  rseq [RStart; RGroup 1 (RStar (RCls true cls_not_number));
        RGroup 2 (rseq [rplus (RCls false cls_grouped); ropt (RLit "."); RStar rdigit]);
        RGroup 3 (ropt (RLit "k")); REnd].

Definition stripTrailingZeros (formatted : jsstr) : jsstr :=
  match re_match amount_regex formatted with
  | None => formatted
  | Some m =>
      let cleanNumber := List.filter (λ c, negb (c =? 44)%N) (grp m 2) in
      let parsed := parseFloat cleanNumber in
      if is_nan parsed then formatted
      else
        let result := Number_toString parsed in
        let result := if includes "e" result then re_replace zeros_regex [] (toFixed parsed 20)
                      else result in
        grp m 1 ++ result ++ grp m 3
  end.

Definition one : number := num_of_Z 1.

(** [value.toFixed(digits).replace(...)]. *)
Definition plain_digits (value : number) (digits : nat) : jsstr :=
  re_replace zeros_regex [] (toFixed value digits).

Definition formatPlainNumber (value : number) (digitsLarge digitsSmall : nat) : jsstr :=
  if isFinite value then
    plain_digits value (if num_leb one (num_abs value) then digitsLarge else digitsSmall)
  else "-".

(** ** Ratios and prices *)

(** The loop over the enabled groups. *)
Definition min_step (groupRatio : list (jsstr * number)) (minRatio : number) (group : jsstr) : number :=
  match assoc_get group groupRatio with
  | Some ratio => if num_ltb ratio minRatio then ratio else minRatio
  | None => minRatio
  end.

Definition getMinGroupRatio (enableGroups : list jsstr) (groupRatio : list (jsstr * number)) : number :=
  if nonempty enableGroups then
    let minRatio := fold_left (min_step groupRatio) enableGroups Infinity in
    if num_eqb minRatio Infinity then one else minRatio
  else one.

Definition hasRatio (value : option number) : bool :=
  match value with Some n => isFinite n | None => false end.

(** [hasRatio(r) ? base * Number(r) : NaN]. *)
Definition times_ratio (base : number) (value : option number) : number :=
  match value with
  | Some r => if isFinite r then num_mul base r else NaN
  | None => NaN
  end.

Definition calculateTokenPrice (model : PricingModel) (type : PriceType) (ratio : number) : number :=
  let base := num_mul (num_mul (pm_model_ratio model) (num_of_Z 2)) ratio in
  match type with
  | PInput => base
  | POutput => num_mul base (pm_completion_ratio model)
  | PCache => times_ratio base (pm_cache_ratio model)
  | PCreateCache => times_ratio base (pm_create_cache_ratio model)
  | PImage => times_ratio base (pm_image_ratio model)
  | PAudioInput => times_ratio base (pm_audio_ratio model)
  | PAudioOutput =>
      if hasRatio (pm_audio_ratio model)
      then times_ratio (times_ratio base (pm_audio_ratio model)) (pm_audio_completion_ratio model)
      else NaN
  end.

Definition applyRechargeRate (price : number) (showWithRecharge : bool) (priceRate usdExchangeRate : number)
    : number :=
  if showWithRecharge then num_div (num_mul price priceRate) usdExchangeRate else price.

Definition group_ratio_of (model : PricingModel) : list (jsstr * number) :=
  default [] (pm_group_ratio model).

Definition token_price_text (model : PricingModel) (type : PriceType) (tokenUnit : TokenUnit)
    (show : bool) (priceRate usdExchangeRate ratio : number) : jsstr :=
  let priceInUSD := calculateTokenPrice model type ratio in
  let priceInUSD := applyRechargeRate priceInUSD show priceRate usdExchangeRate in
  formatPlainNumber (num_div priceInUSD (TOKEN_UNIT_DIVISORS tokenUnit)) 4 6.

Definition formatPrice (model : PricingModel) (type : PriceType) (tokenUnit : TokenUnit)
    (showWithRecharge : bool) (priceRate usdExchangeRate : number) : jsstr :=
  if (pm_quota_type model =? QUOTA_REQUEST)%Z then "-"
  else token_price_text model type tokenUnit showWithRecharge priceRate usdExchangeRate
         (getMinGroupRatio (pm_enable_groups model) (group_ratio_of model)).

(** [groupRatio[group] || 1]. *)
Definition ratio_or_one (group : jsstr) (groupRatio : list (jsstr * number)) : number :=
  num_or (default NaN (assoc_get group groupRatio)) one.

Definition formatGroupPrice (model : PricingModel) (group : jsstr) (type : PriceType)
    (tokenUnit : TokenUnit) (showWithRecharge : bool) (priceRate usdExchangeRate : number)
    (groupRatio : list (jsstr * number)) : jsstr :=
  if (pm_quota_type model =? QUOTA_REQUEST)%Z then "-"
  else token_price_text model type tokenUnit showWithRecharge priceRate usdExchangeRate
         (ratio_or_one group groupRatio).

Definition request_price_text (model : PricingModel) (show : bool)
    (priceRate usdExchangeRate ratio : number) : jsstr :=
  let price := num_mul (num_or (default NaN (pm_model_price model)) zero) ratio in
  formatPlainNumber (applyRechargeRate price show priceRate usdExchangeRate) 4 4.

Definition formatFixedPrice (model : PricingModel) (group : jsstr) (showWithRecharge : bool)
    (priceRate usdExchangeRate : number) (groupRatio : list (jsstr * number)) : jsstr :=
  if negb (pm_quota_type model =? QUOTA_REQUEST)%Z then "-"
  else request_price_text model showWithRecharge priceRate usdExchangeRate
         (ratio_or_one group groupRatio).

Definition formatRequestPrice (model : PricingModel) (showWithRecharge : bool)
    (priceRate usdExchangeRate : number) : jsstr :=
  if negb (pm_quota_type model =? QUOTA_REQUEST)%Z then "-"
  else request_price_text model showWithRecharge priceRate usdExchangeRate
         (getMinGroupRatio (pm_enable_groups model) (group_ratio_of model)).

(** ** Dynamic prices *)

Definition isDynamicPricingModel (model : PricingModel) : bool :=
  match pm_billing_mode model with Some m => str_eqb m "tiered_expr" | None => false end
  && nonempty (default [] (pm_billing_expr model)).

Definition getDynamicDisplayGroupRatio (model : PricingModel) : number :=
  getMinGroupRatio (pm_enable_groups model) (group_ratio_of model).

Record DynamicPriceOptions : Type := {
  tokenUnit : TokenUnit;
  showRechargePrice : option bool;
  priceRate : option number;
  usdExchangeRate : option number;
  groupRatioMultiplier : option number
}.

Definition formatDynamicUnitPrice (valuePerMillionTokens : number) (options : DynamicPriceOptions) : jsstr :=
  let groupRatio := default one (groupRatioMultiplier options) in
  let priceUSD := num_div (num_mul valuePerMillionTokens groupRatio)
                    (TOKEN_UNIT_DIVISORS (tokenUnit options)) in
  let displayPrice := applyRechargeRate priceUSD (default false (showRechargePrice options))
                        (default one (priceRate options)) (default one (usdExchangeRate options)) in
  plain_digits displayPrice (if num_leb one (num_abs displayPrice) then 4 else 6).

Definition getDynamicPricingTiers (model : PricingModel) : exn (list ParsedTier) :=
  if isDynamicPricingModel model then
    r ← splitBillingExprAndRequestRules (default [] (pm_billing_expr model));
    Ok (parseTiersFromExpr (billingExpr r))
  else Ok [].

Definition hasDynamicRequestRules (model : PricingModel) : exn bool :=
  if isDynamicPricingModel model then
    r ← splitBillingExprAndRequestRules (default [] (pm_billing_expr model));
    groups ← tryParseRequestRuleExpr (requestRuleExpr r);
    Ok (match groups with Some l => nonempty l | None => false end)
  else Ok false.

Record DynamicPriceEntry : Type := {
  de_value : number;
  de_formatted : jsstr;
  de_variable : BillingVar
}.

(** [entry.field]; the other copied properties are those of the variable. *)
Definition de_field (e : DynamicPriceEntry) : jsstr := default [] (bv_field (de_variable e)).

Definition PRIMARY_DYNAMIC_FIELDS : list jsstr := ["inputPrice"; "outputPrice"].

Definition is_primary (e : DynamicPriceEntry) : bool := str_mem (de_field e) PRIMARY_DYNAMIC_FIELDS.

(** The comparison gives at most 0. *)
Definition primary_leb (a b : DynamicPriceEntry) : bool :=
  if Bool.eqb (is_primary a) (is_primary b) then true else is_primary a.

Definition dynamic_entry (tier : ParsedTier) (options : DynamicPriceOptions) (variable : BillingVar)
    : option DynamicPriceEntry :=
  match bv_field variable with
  | Some field =>
      let value := default NaN (assoc_get field (pt_fields tier)) in
      if isFinite value && negb (num_leb value zero)
      then Some {| de_value := value; de_formatted := formatDynamicUnitPrice value options;
                   de_variable := variable |}
      else None
  | None => None
  end.

Definition getDynamicPriceEntries (tier : option ParsedTier) (options : DynamicPriceOptions)
    : list DynamicPriceEntry :=
  match tier with
  | None => []
  | Some tier => js_sort primary_leb (omap (dynamic_entry tier options) BILLING_PRICING_VARS)
  end.

Record DynamicPricingSummary : Type := {
  ds_tiers : list ParsedTier;
  ds_tier : option ParsedTier;
  ds_tierCount : nat;
  ds_hasRequestRules : bool;
  ds_isSpecialExpression : bool;
  ds_rawExpression : jsstr;
  ds_entries : list DynamicPriceEntry;
  ds_primaryEntries : list DynamicPriceEntry;
  ds_secondaryEntries : list DynamicPriceEntry
}.

Definition getDynamicPricingSummary (model : PricingModel) (options : DynamicPriceOptions)
    : exn (option DynamicPricingSummary) :=
  if isDynamicPricingModel model then
    tiers ← getDynamicPricingTiers model;
    let tier := head tiers in
    let entries := getDynamicPriceEntries tier options in
    let rawExpression := default [] (pm_billing_expr model) in
    rules ← hasDynamicRequestRules model;
    Ok (Some {| ds_tiers := tiers; ds_tier := tier; ds_tierCount := length tiers;
                ds_hasRequestRules := rules;
                ds_isSpecialExpression := nonempty (trim rawExpression) && negb (nonempty tiers);
                ds_rawExpression := rawExpression; ds_entries := entries;
                ds_primaryEntries := List.filter is_primary entries;
                ds_secondaryEntries := List.filter (λ e, negb (is_primary e)) entries |})
  else Ok None.

(** ** Filters and order of the list *)

Definition FILTER_ALL : jsstr := "all".

Section filters.
(** [s.toLowerCase()], and [a.localeCompare(b) <= 0]. *)
Context (toLowerCase : jsstr → jsstr) (locale_leb : jsstr → jsstr → bool).

Definition lower_includes (query : jsstr) (field : option jsstr) : bool :=
  match field with Some s => includes query (toLowerCase s) | None => false end.

Definition search_match (query : jsstr) (m : PricingModel) : bool :=
  let lowerQuery := toLowerCase query in
  lower_includes lowerQuery (Some (pm_model_name m)) || lower_includes lowerQuery (pm_description m)
  || lower_includes lowerQuery (pm_tags m) || lower_includes lowerQuery (pm_vendor_name m).

Definition filterBySearch (models : list PricingModel) (query : jsstr) : list PricingModel :=
  if nonempty query then List.filter (search_match query) models else models.

Definition vendor_match (vendor : jsstr) (m : PricingModel) : bool :=
  match pm_vendor_name m with Some v => str_eqb v vendor | None => false end.

Definition filterByVendor (models : list PricingModel) (vendor : jsstr) : list PricingModel :=
  if str_eqb vendor FILTER_ALL then models else List.filter (vendor_match vendor) models.

Definition filterByGroup (models : list PricingModel) (group : jsstr) : list PricingModel :=
  if str_eqb group FILTER_ALL then models
  else List.filter (λ m, str_mem group (pm_enable_groups m)) models.

Definition quota_match (quotaType : jsstr) (m : PricingModel) : bool :=
  (pm_quota_type m =? (if str_eqb quotaType "token" then QUOTA_TOKEN else QUOTA_REQUEST))%Z.

Definition filterByQuotaType (models : list PricingModel) (quotaType : jsstr) : list PricingModel :=
  if str_eqb quotaType FILTER_ALL then models else List.filter (quota_match quotaType) models.

Definition endpoint_match (endpointType : jsstr) (m : PricingModel) : bool :=
  str_mem endpointType (default [] (pm_supported_endpoint_types m)).

Definition filterByEndpointType (models : list PricingModel) (endpointType : jsstr) : list PricingModel :=
  if str_eqb endpointType FILTER_ALL then models
  else List.filter (endpoint_match endpointType) models.

Definition getModelPrice (model : PricingModel) : number :=
  if (pm_quota_type model =? 0)%Z then pm_model_ratio model
  else num_or (default NaN (pm_model_price model)) zero.

(** The comparison function returns [x - y]; [NaN] counts as 0. *)
Definition diff_leb (x y : number) : bool :=
  let d := num_sub x y in is_nan d || num_leb d zero.

Definition sortModels (models : list PricingModel) (sortBy : jsstr) : list PricingModel :=
  if str_eqb sortBy "name" then
    js_sort (λ a b, locale_leb (pm_model_name a) (pm_model_name b)) models
  else if str_eqb sortBy "price-low" then
    js_sort (λ a b, diff_leb (getModelPrice a) (getModelPrice b)) models
  else if str_eqb sortBy "price-high" then
    js_sort (λ a b, diff_leb (getModelPrice b) (getModelPrice a)) models
  else models.

(** The class [[,;|\s]]. *)
Definition tag_sep_regex : regex :=
  rplus (RCls false ([(44, 44); (59, 59); (124, 124)]%N ++ cls_space)).

Definition parseTags (tagsString : option jsstr) : list jsstr :=
  let s := default [] tagsString in
  if nonempty s then List.filter nonempty (map trim (re_split tag_sep_regex s)) else [].

Definition model_tags (m : PricingModel) : list jsstr := map toLowerCase (parseTags (pm_tags m)).

Definition extractAllTags (models : list PricingModel) : list jsstr :=
  js_sort locale_leb (str_dedup (concat (map model_tags models))).

Definition filterByTag (models : list PricingModel) (tag : jsstr) : list PricingModel :=
  if str_eqb tag FILTER_ALL then models
  else List.filter (λ m, str_mem (toLowerCase tag) (model_tags m)) models.

Record Filters : Type := {
  fl_search : jsstr; fl_vendor : jsstr; fl_group : jsstr; fl_quotaType : jsstr;
  fl_endpointType : jsstr; fl_tag : jsstr; fl_sortBy : jsstr
}.

Definition filterAndSortModels (models : list PricingModel) (filters : Filters) : list PricingModel :=
  let result := filterBySearch models (fl_search filters) in
  let result := filterByVendor result (fl_vendor filters) in
  let result := filterByGroup result (fl_group filters) in
  let result := filterByQuotaType result (fl_quotaType filters) in
  let result := filterByEndpointType result (fl_endpointType filters) in
  let result := filterByTag result (fl_tag filters) in
  sortModels result (fl_sortBy filters).
End filters.

(** ** Helpers *)

Definition EXCLUDED_GROUPS : list jsstr := [[]; "auto"].

Definition getAvailableGroups (model : PricingModel) (usableGroup : list (jsstr * json)) : list jsstr :=
  List.filter (λ g, str_mem g (pm_enable_groups model))
    (List.filter (λ g, negb (str_mem g EXCLUDED_GROUPS)) (object_keys usableGroup)).

(** [GetSubstitution] for a match without groups: [$$], [$&], [$`] and [$'] in the
    replacement text. *)
Fixpoint substitution (by_ matched before after : jsstr) : jsstr :=
  match by_ with
  | [] => []
  | c :: t =>
      if (c =? 36)%N then
        match t with
        | d :: u =>
            if (d =? 36)%N then d :: substitution u matched before after
            else if (d =? 38)%N then matched ++ substitution u matched before after
            else if (d =? 96)%N then before ++ substitution u matched before after
            else if (d =? 39)%N then after ++ substitution u matched before after
            else c :: substitution t matched before after
        | [] => [c]
        end
      else c :: substitution t matched before after
  end.

(** The occurrences of [w] from left to right; [before] is what precedes [s]. *)
Fixpoint replace_word (fuel : nat) (w by_ before s : jsstr) : jsstr :=
  match fuel with
  | 0 => s
  | S fuel' =>
      match indexOf w s with
      | None => s
      | Some i =>
          let after := drop (i + length w) s in
          take i s ++ substitution by_ w (before ++ take i s) after
          ++ replace_word fuel' w by_ (before ++ take (i + length w) s) after
      end
  end.

Definition replaceModelInPath (path modelName : jsstr) : jsstr :=
  replace_word (S (length path)) "{model}" modelName [] path.

Definition isTokenBasedModel (model : PricingModel) : bool := (pm_quota_type model =? QUOTA_TOKEN)%Z.

Example plain_texts :
  map (λ s, formatPlainNumber (Number_of_string s) 4 6)
    ["100"; "2.5"; "0"; "0.0000004"; "0.00012"; "1e400"; "-3.10"; "123.45678"]
  = ["100"; "2.5"; "0"; "0"; "0.00012"; "-"; "-3.1"; "123.4568"].
Proof. vm_compute. reflexivity. Qed.

Example strip_texts :
  map stripTrailingZeros ["$1,200.50"; "¥0.0000001"; "3.00k"; "n/a"]
  = ["$1200.5"; "¥0.0000001"; "3k"; "n/a"].
Proof. vm_compute. reflexivity. Qed.

Example tag_texts : parseTags (Some " a,b; c|d ,") = ["a"; "b"; "c"; "d"].
Proof. vm_compute. reflexivity. Qed.

Example path_texts :
  map (λ m, replaceModelInPath "/v1/{model}/x/{model}" m) ["gpt-4"; "a$&b"]
  = ["/v1/gpt-4/x/gpt-4"; "/v1/a{model}b/x/a{model}b"].
Proof. vm_compute. reflexivity. Qed.
