(* ===== verification/PricingTheorems.v ===== *)
(** * Theorems on prices and filters

    The order of numbers, the smallest ratio of the enabled groups, the decimal
    texts of prices, the price entries of a tier and the filters of the list. *)
From Stdlib Require Import NArith ZArith.
From Stdlib Require Import Floats.SpecFloat Sorting.Sorted.
From stdpp Require Import list numbers.
From S2P Require Import Prelude JsString Regex JsNumber Json JsArray BillingExpr Pricing.

(** ** The order of numbers

    A number that is not [NaN] has a rank, and numbers compare as their ranks do. *)

Definition rank (x : number) : option (Z * Z * Z) :=
  match x with
  | S754_nan => None
  | S754_infinity s => Some (if s then -2 else 2, 0, 0)%Z
  | S754_zero _ => Some (0, 0, 0)%Z
  | S754_finite s m e => Some (if s then (-1, - e, - Zpos m) else (1, e, Zpos m))%Z
  end.

Definition rank_lt (a b : Z * Z * Z) : Prop :=
  let '(a1, a2, a3) := a in
  let '(b1, b2, b3) := b in
  (a1 < b1 ∨ a1 = b1 ∧ (a2 < b2 ∨ a2 = b2 ∧ a3 < b3))%Z.

Lemma num_ltb_spec x y :
  num_ltb x y = true ↔ ∃ a b, rank x = Some a ∧ rank y = Some b ∧ rank_lt a b.
Proof.
  assert (Hc : ∀ m1 m2, Pos.compare_cont Eq m1 m2 = (Zpos m1 ?= Zpos m2)%Z) by done.
  unfold num_ltb, SFltb, SFcompare.
  destruct x as [s1|s1| |s1 m1 e1], y as [s2|s2| |s2 m2 e2]; cbn [rank];
    try destruct s1; try destruct s2; rewrite ?Hc;
    repeat match goal with
    | |- context [(?a ?= ?b)%Z] => destruct (Z.compare_spec a b)
    end; cbn [CompOpp];
    (split; [intros E; try discriminate E; do 2 eexists; (split; [reflexivity|]);
               (split; [reflexivity|]); unfold rank_lt; lia
            |intros (a & b & Ea & Eb & Hl); try discriminate Ea; try discriminate Eb;
             injection Ea as <-; injection Eb as <-; unfold rank_lt in Hl; (reflexivity || (exfalso; lia))]).
Qed.

Lemma rank_lt_trans a b c : rank_lt a b → rank_lt b c → rank_lt a c.
Proof. destruct a as [[??]?], b as [[??]?], c as [[??]?]. unfold rank_lt. lia. Qed.

Lemma num_ltb_irrefl x : num_ltb x x = false.
Proof.
  apply not_true_iff_false. rewrite num_ltb_spec. intros (a & b & Ha & Hb & H).
  rewrite Ha in Hb. injection Hb as <-. destruct a as [[??]?]. unfold rank_lt in H. lia.
Qed.

Lemma num_ltb_trans x y z : num_ltb x y = true → num_ltb y z = true → num_ltb x z = true.
Proof.
  rewrite !num_ltb_spec. intros (a & b & Ha & Hb & H1) (b' & c & Hb' & Hc & H2).
  rewrite Hb in Hb'. injection Hb' as <-. eauto 8 using rank_lt_trans.
Qed.

Lemma num_ltb_not_eqb x y : num_ltb x y = true → num_eqb x y = false.
Proof.
  unfold num_ltb, num_eqb, SFltb, SFeqb. destruct (SFcompare x y) as [[]|]; done.
Qed.

(** A smaller bound: what is not below [y] is not below [x] when [x] is below [y]. *)
Lemma num_ltb_mono x y z : num_ltb x y = true → num_ltb z y = false → num_ltb z x = false.
Proof.
  intros Hxy Hz. destruct (num_ltb z x) eqn:E; [|done]. by rewrite (num_ltb_trans z x y E Hxy) in Hz.
Qed.

(** ** The smallest ratio *)

Lemma min_step_below ratios acc g x :
  num_ltb x acc = false → num_ltb x (min_step ratios acc g) = false.
Proof.
  intros Hx. unfold min_step. destruct (assoc_get g ratios) as [r|]; [|done].
  destruct (num_ltb r acc) eqn:E; [|done]. by apply (num_ltb_mono r acc).
Qed.

Lemma min_step_spec ratios acc g :
  min_step ratios acc g = acc
  ∨ num_ltb (min_step ratios acc g) acc = true ∧ assoc_get g ratios = Some (min_step ratios acc g).
Proof.
  unfold min_step. destruct (assoc_get g ratios) as [r|]; [|by left].
  destruct (num_ltb r acc) eqn:E; [by right|by left].
Qed.

Lemma min_fold_below ratios gs acc x :
  num_ltb x acc = false → num_ltb x (fold_left (min_step ratios) gs acc) = false.
Proof.
  revert acc; induction gs as [|g gs IH]; intros acc Hx; [done|].
  cbn [fold_left]. by apply IH, min_step_below.
Qed.

Lemma min_fold_spec ratios gs acc :
  let m := fold_left (min_step ratios) gs acc in
  (∀ g r, g ∈ gs → assoc_get g ratios = Some r → num_ltb r m = false)
  ∧ (m = acc ∨ num_ltb m acc = true ∧ ∃ g, g ∈ gs ∧ assoc_get g ratios = Some m).
Proof.
  revert acc; induction gs as [|g gs IH]; intros acc; cbn [fold_left].
  - split; [by intros g r ?%not_elem_of_nil|by left].
  - destruct (IH (min_step ratios acc g)) as [Hlow Hin]. split.
    + intros g' r [->|Hg]%elem_of_cons Hr; [|by eapply Hlow].
      apply min_fold_below. unfold min_step. rewrite Hr.
      destruct (num_ltb r acc) eqn:E; [apply num_ltb_irrefl|done].
    + destruct (min_step_spec ratios acc g) as [Hs|[Hs Hg]].
      * rewrite Hs in *. destruct Hin as [->|[Hl (g' & Hg' & Hr')]]; [by left|right].
        split; [done|]. exists g'. rewrite elem_of_cons. auto.
      * right. destruct Hin as [->|[Hl (g' & Hg' & Hr')]].
        -- split; [done|]. exists g. split; [left|done].
        -- split; [by eapply num_ltb_trans|]. exists g'. rewrite elem_of_cons. auto.
Qed.

(** The ratio a price is shown with is the smallest one of the enabled groups:
    no enabled group has a smaller ratio, and it is the ratio of an enabled group
    as soon as one of them has a ratio below infinity; otherwise it is 1. *)
Theorem min_group_ratio groups ratios :
  let r := getMinGroupRatio groups ratios in
  (∀ g x, g ∈ groups → assoc_get g ratios = Some x → num_ltb x Infinity = true → num_ltb x r = false)
  ∧ (r = one ∨ ∃ g, g ∈ groups ∧ assoc_get g ratios = Some r)
  ∧ ((∃ g x, g ∈ groups ∧ assoc_get g ratios = Some x ∧ num_ltb x Infinity = true) →
     ∃ g, g ∈ groups ∧ assoc_get g ratios = Some r).
Proof.
  cbv zeta. unfold getMinGroupRatio. destruct groups as [|g0 gs]; cbn [nonempty].
  { split_and!; [by intros g x ?%not_elem_of_nil|by left|by intros (g & x & ?%not_elem_of_nil & _)]. }
  destruct (min_fold_spec ratios (g0 :: gs) Infinity) as [Hlow Hin].
  destruct Hin as [E|[Hl (g & Hg & Hr)]].
  - rewrite E in *. cbn [num_eqb].
    assert (Hno : ∀ g x, g ∈ g0 :: gs → assoc_get g ratios = Some x → num_ltb x Infinity ≠ true)
      by (intros g x Hg Hx; rewrite (Hlow g x Hg Hx); done).
    split_and!; [intros g x Hg Hx Hi; by destruct (Hno g x)|by left|].
    intros (g & x & Hg & Hx & Hi). by destruct (Hno g x).
  - set (m := fold_left _ _ _) in *.
    assert (He : num_eqb m Infinity = false) by (by apply num_ltb_not_eqb).
    rewrite He. split_and!; [by eauto|right; eauto|eauto].
Qed.

(** ** Decimal texts *)

Definition is_zero_char (c : N) : bool := (c =? 48)%N.

Lemma zero_cls c : in_cls false [(48, 48)]%N c = is_zero_char c.
Proof.
  unfold in_cls, is_zero_char. cbn [in_ranges]. rewrite xorb_false_l, orb_false_r.
  apply eq_true_iff_eq. rewrite andb_true_iff, !N.leb_le, N.eqb_eq. lia.
Qed.

(** A text ends in a zero; without its zeros it ends in another unit. *)
Definition ends_nonzero (s : jsstr) : bool :=
  match rev s with c :: _ => negb (is_zero_char c) | [] => true end.

Lemma ends_nonzero_tail c s : s ≠ [] → ends_nonzero (c :: s) = ends_nonzero s.
Proof.
  intros Hs. unfold ends_nonzero. cbn [rev]. destruct (rev s) as [|d r] eqn:E; [|done].
  destruct s as [|d s]; [done|]. cbn [rev] in E. by destruct (rev s).
Qed.

Lemma ends_nonzero_app s t : t ≠ [] → ends_nonzero (s ++ t) = ends_nonzero t.
Proof.
  intros Ht. induction s as [|c s IH]; [done|]. cbn [app]. rewrite ends_nonzero_tail; [done|].
  by destruct s.
Qed.

Lemma zeros_first s :
  s ≠ [] → ends_nonzero s = true →
  ∃ j c t, s = replicate j 48%N ++ c :: t ∧ is_zero_char c = false.
Proof.
  induction s as [|c s IH]; [done|]. intros _ He. destruct (is_zero_char c) eqn:E; [|by exists 0, c, s].
  destruct s as [|d s]; [unfold ends_nonzero in He; cbn [rev app] in He; by rewrite E in He|].
  rewrite ends_nonzero_tail in He by done. destruct IH as (j & e & t & -> & Hz); [done|done|].
  exists (S j), e, t. split; [|done]. cbn [replicate app]. unfold is_zero_char in E.
  by apply N.eqb_eq in E as ->.
Qed.

Lemma zeros_all n : forallb (in_cls false [(48, 48)]%N) (replicate n 48%N) = true.
Proof. induction n; done. Qed.

Definition rzeros : regex := RSeq (rplus (RCls false [(48, 48)]%N)) REnd.

(** No run of zeros up to the end starts inside a text that ends in another unit. *)
Lemma rzeros_fail s u p k :
  s ≠ [] → ends_nonzero s = true → rmatch rzeros (MS p (s ++ u) k) = [].
Proof.
  intros Hs He. destruct (zeros_first s Hs He) as ([|j] & c & t & -> & Hc); rewrite <- app_assoc.
  - cbn [replicate app]. apply rmatch_plus_fail. cbn [stops]. by rewrite zero_cls, Hc.
  - unfold rzeros. rewrite rmatch_plus_seq; [reflexivity|apply rejects_end|done|apply zeros_all|].
    cbn [app stops]. by rewrite zero_cls, Hc.
Qed.

Lemma zeros_fail s u p k :
  s ≠ [] → s ≠ "." → ends_nonzero s = true → rmatch zeros_regex (MS p (s ++ u) k) = [].
Proof.
  intros Hs Hd He. unfold zeros_regex. cbn [rseq]. change (RSeq (rplus _) REnd) with rzeros.
  rewrite rmatch_seq. cbn [rmatch ropt]. rewrite flat_map_app, flat_map_single, rzeros_fail, app_nil_r by done.
  unfold eat. cbn [rest prev caps]. destruct (startsWith "." (s ++ u)) eqn:E; [|done].
  destruct s as [|c s]; [done|]. cbn [app startsWith] in E. rewrite flat_map_single.
  destruct s as [|d s].
  - rewrite andb_true_r in E. apply N.eqb_eq in E as <-. done.
  - rewrite ends_nonzero_tail in He by done. by apply (rzeros_fail (d :: s)).
Qed.

(** The search passes over such a text. *)
Lemma exec_zeros_skip s u p i :
  (∀ a b, s = a ++ b → b ≠ [] → ∀ p, rmatch zeros_regex (MS p (b ++ u) []) = []) →
  exec zeros_regex p (s ++ u) i = exec zeros_regex (next_prev p s) u (i + length s).
Proof.
  revert p i. induction s as [|c s IH]; intros p i H; [by rewrite Nat.add_0_r|].
  cbn [app exec length next_prev].
  rewrite (H [] (c :: s) eq_refl) by done. rewrite IH; [f_equal; lia|].
  intros a b E Hb. apply (H (c :: a) b); [by rewrite E|done].
Qed.

Lemma suffix_ends s a b : s = a ++ b → b ≠ [] → ends_nonzero s = true → ends_nonzero b = true.
Proof. intros -> Hb. by rewrite ends_nonzero_app. Qed.

(** The run of zeros itself, with the point before it. *)
Lemma exec_zeros n p i dot :
  dot = [] ∨ dot = "." →
  exec zeros_regex p (dot ++ replicate (S n) 48%N) i = Some (MR i (dot ++ replicate (S n) 48%N) [] (Some 48%N) []).
Proof.
  intros Hd.
  assert (E : ∀ p, head (rmatch rzeros (MS p (replicate (S n) 48%N) [])) = Some (MS (Some 48%N) [] [])).
  { intros q. unfold rzeros. rewrite <- (app_nil_r (replicate (S n) 48%N)).
    rewrite rmatch_plus_seq; [|apply rejects_end|done|apply zeros_all|done]. cbn. do 3 f_equal.
    induction n; done. }
  assert (H : head (rmatch zeros_regex (MS p (dot ++ replicate (S n) 48%N) [])) = Some (MS (Some 48%N) [] [])).
  { unfold zeros_regex. cbn [rseq]. change (RSeq (rplus _) REnd) with rzeros. rewrite rmatch_seq.
    destruct Hd as [->| ->]; cbn [app].
    - change (rmatch (ropt (RLit ".")) _) with [MS p (replicate (S n) 48%N) []].
      rewrite flat_map_single. apply E.
    - change (rmatch (ropt (RLit ".")) _)
        with [MS (Some 46%N) (replicate (S n) 48%N) []; MS p (46%N :: replicate (S n) 48%N) []].
      cbn [flat_map]. specialize (E (Some 46%N)). by destruct (rmatch rzeros _). }
  destruct (dot ++ replicate (S n) 48%N) as [|c t] eqn:Ed; [by destruct Hd as [->| ->]|].
  cbn [exec]. destruct (rmatch zeros_regex _) as [|st l]; [done|]. injection H as ->.
  cbn [rest caps prev length]. rewrite Nat.sub_0_r. by rewrite take_ge.
Qed.

(** The fraction of a decimal text: nothing, or a point and its digits. *)
Definition fraction (fp : jsstr) : jsstr := if nonempty fp then "." ++ fp else [].

(** The pattern removes the zeros at the end of a fraction, and an empty fraction. *)
Lemma strip_fraction ip fp n :
  forallb is_digit fp = true → ends_nonzero fp = true → nonempty (fp ++ replicate n 48%N) = true →
  re_replace zeros_regex [] (ip ++ "." ++ fp ++ replicate n 48%N) = ip ++ fraction fp.
Proof.
  intros Hd He Hne. unfold re_replace, re_match, fraction. destruct fp as [|c fp]; cbn [nonempty].
  - destruct n as [|n]; [done|]. cbn [app]. rewrite exec_zeros_skip.
    + change (46%N :: replicate (S n) 48%N) with ("." ++ replicate (S n) 48%N).
      rewrite exec_zeros by auto. cbn [m_index m_tail]. cbn [Nat.add]. by rewrite take_app_length.
    + intros a b -> Hb q. change (46%N :: replicate (S n) 48%N) with ("." ++ replicate (S n) 48%N).
      rewrite app_assoc. apply zeros_fail; [by destruct b| |by rewrite ends_nonzero_app].
      destruct b as [|d b]; [done|]. by destruct b.
  - set (t := ip ++ "." ++ c :: fp).
    assert (Ht : ends_nonzero t = true) by (unfold t; by rewrite !ends_nonzero_app).
    assert (Hs : ∀ a b, t = a ++ b → b ≠ [] → ∀ p,
               rmatch zeros_regex (MS p (b ++ replicate n 48%N) []) = []).
    { intros a b E Hb q. apply zeros_fail; [done| |by eapply suffix_ends].
      intros ->. assert (El : list.last t = Some 46%N) by (rewrite E; apply last_snoc).
      unfold t in El. rewrite app_assoc, last_app_cons in El.
      apply last_Some_elem_of, list_elem_of_In in El.
      rewrite forallb_forall in Hd. by specialize (Hd _ El). }
    rewrite (app_assoc "."), app_assoc. fold t. rewrite exec_zeros_skip by done. destruct n as [|n].
    + cbn [replicate exec]. rewrite app_nil_r. by unfold t.
    + change (replicate (S n) 48%N) with ([] ++ replicate (S n) 48%N) at 1.
      rewrite exec_zeros by auto. cbn [m_index m_tail Nat.add]. rewrite take_app_length.
      by rewrite !app_nil_r.
Qed.

Lemma dec_value_zeros ds k : dec_value (ds ++ replicate k 48%N) = (dec_value ds * 10 ^ N.of_nat k)%N.
Proof.
  induction k as [|k IH]; [cbn [replicate N.of_nat]; rewrite app_nil_r; lia|].
  rewrite replicate_S_end, app_assoc. unfold dec_value in *. rewrite fold_dec_app, IH. cbn [fold_left].
  rewrite Nat2N.inj_succ, N.pow_succ_r'. lia.
Qed.

Lemma zeros_dec ds k : dec_value (replicate k 48%N ++ ds) = dec_value ds.
Proof.
  unfold dec_value. rewrite fold_dec_app. f_equal. induction k as [|k IH]; [done|]. exact IH.
Qed.

(** Every text is its zeros at the end after a text that ends otherwise. *)
Lemma split_zeros s : ∃ t k, s = t ++ replicate k 48%N ∧ ends_nonzero t = true.
Proof.
  induction s as [|c s IH] using rev_ind; [by exists [], 0|].
  destruct (is_zero_char c) eqn:E.
  - destruct IH as (t & k & -> & Ht). exists t, (S k). split; [|done].
    unfold is_zero_char in E. apply N.eqb_eq in E as ->. by rewrite replicate_S_end, app_assoc.
  - exists (s ++ [c]), 0. split; [by rewrite app_nil_r|]. unfold ends_nonzero.
    rewrite rev_app_distr. cbn [rev app]. by rewrite E.
Qed.

(** The magnitude of a finite number as a ratio. *)
Definition magnitude (x : number) : Z * Z :=
  match x with S754_finite _ m e => num_ratio m e | _ => (0, 1)%Z end.

Lemma magnitude_den x : (0 < (magnitude x).2)%Z ∧ (0 ≤ (magnitude x).1)%Z.
Proof.
  destruct x as [s|s| |s m e]; cbn [magnitude]; try (cbn; lia). unfold num_ratio.
  destruct (Z.leb_spec 0 e); cbn [fst snd]; split; try lia; apply Z.pow_pos_nonneg; lia.
Qed.

(** The integer [toFixed] writes, and its digits. *)
Definition fixed_units (x : number) (d : nat) : Z :=
  let '(num, den) := magnitude x in ((2 * num * 10 ^ Z.of_nat d + den) / (2 * den))%Z.

Lemma fixed_units_near x d :
  let '(num, den) := magnitude x in
  (2 * den * fixed_units x d - den ≤ 2 * num * 10 ^ Z.of_nat d < 2 * den * fixed_units x d + den)%Z.
Proof.
  pose proof (magnitude_den x) as [Hd _]. unfold fixed_units. destruct (magnitude x) as [num den].
  cbn [fst snd] in Hd. set (a := (2 * num * 10 ^ Z.of_nat d)%Z).
  pose proof (Z.div_mod (a + den) (2 * den)) as E. pose proof (Z.mod_pos_bound (a + den) (2 * den)). nia.
Qed.

Definition minus_sign (x : number) : jsstr := match x with S754_finite true _ _ => "-" | _ => [] end.

(** Below [10^21]. *)
Definition writable (x : number) : bool :=
  isFinite x && (let '(num, den) := magnitude x in num <? 10 ^ 21 * den)%Z.

Lemma toFixed_eq x d :
  writable x = true → d ≠ 0 →
  toFixed x d
  = minus_sign x
    ++ (let ds := to_dec (Z.to_N (fixed_units x d)) in
        let ds := if Nat.leb (length ds) d then zeros (Z.of_nat (S d - length ds)) ++ ds else ds in
        take (length ds - d) ds ++ "." ++ drop (length ds - d) ds).
Proof.
  unfold writable, toFixed, fixed_units. intros H Hd. apply andb_prop in H as [Hf Hm].
  destruct d as [|d]; [done|]. destruct x as [s|s| |s m e]; try done. cbn [magnitude] in *.
  destruct (num_ratio m e) as [num den]. apply Z.ltb_lt, Z.leb_gt in Hm. rewrite Hm. by destruct s.
Qed.

Lemma toFixed_text x d :
  writable x = true → d ≠ 0 →
  ∃ sign ip fp, sign = minus_sign x ∧ nonempty ip = true ∧ forallb is_digit (ip ++ fp) = true
    ∧ length fp = d ∧ toFixed x d = sign ++ ip ++ "." ++ fp
    ∧ Z.of_N (dec_value (ip ++ fp)) = fixed_units x d.
Proof.
  intros Hw Hd. rewrite (toFixed_eq x d Hw Hd). pose proof (magnitude_den x) as [Hden Hnum].
  set (n := fixed_units x d).
  assert (Hn : (0 ≤ n)%Z).
  { unfold n, fixed_units. destruct (magnitude x) as [num den]. cbn [fst snd] in *.
    apply Z.div_pos; [|lia]. pose proof (Z.pow_nonneg 10 (Z.of_nat d)). nia. }
  destruct (to_dec_spec (Z.to_N n)) as (Hne & Hdig & Hval).
  set (ds := to_dec (Z.to_N n)) in *.
  set (ds' := if Nat.leb (length ds) d then zeros (Z.of_nat (S d - length ds)) ++ ds else ds).
  assert (Hlen : d < length ds').
  { unfold ds'. destruct (Nat.leb_spec (length ds) d); [|done]. unfold zeros.
    rewrite length_app, length_replicate. lia. }
  assert (Hdig' : forallb is_digit ds' = true).
  { unfold ds'. destruct (Nat.leb (length ds) d); [|done]. unfold zeros. rewrite forallb_app, Hdig, andb_true_r.
    induction (Z.to_nat _); done. }
  assert (Hval' : Z.of_N (dec_value ds') = n).
  { unfold ds'. destruct (Nat.leb (length ds) d); [unfold zeros; rewrite zeros_dec|]; rewrite Hval; lia. }
  exists (minus_sign x), (take (length ds' - d) ds'), (drop (length ds' - d) ds').
  rewrite take_drop. split_and!; try done.
  - destruct ds' as [|c l]; [cbn in Hlen; lia|]. by destruct (length (c :: l) - d) eqn:El; [lia|].
  - rewrite length_drop. lia.
Qed.

Lemma minus_negative x : isFinite x = true → minus_sign x = if num_ltb x zero then "-" else [].
Proof. by destruct x as [[]|[]| |[] m e]. Qed.

(** C37: the text of a price.  For a finite number below [10^21] it is a minus exactly if
    the number is negative, the digits before the point, and the digits after it without zeros at
    the end, no point when none are left; and it denotes the decimal nearest to
    the number with the chosen count of places, at most half a unit of the last
    place away (the magnitude is the exact ratio of the absolute value). *)
Theorem plain_number_exact value digitsLarge digitsSmall :
  writable value = true → digitsLarge ≠ 0 → digitsSmall ≠ 0 →
  let digits := if num_leb one (num_abs value) then digitsLarge else digitsSmall in
  let '(num, den) := magnitude value in
  ∃ sign ip fp, formatPlainNumber value digitsLarge digitsSmall = sign ++ ip ++ fraction fp
    ∧ sign = (if num_ltb value zero then "-" else []) ∧ nonempty ip = true ∧ forallb is_digit (ip ++ fp) = true
    ∧ ends_nonzero fp = true ∧ length fp ≤ digits
    ∧ (let units := Z.of_N (dec_value (ip ++ fp)) * 10 ^ Z.of_nat (digits - length fp) in
       2 * den * units - den ≤ 2 * num * 10 ^ Z.of_nat digits < 2 * den * units + den)%Z.
Proof.
  intros Hw HL HS. cbv zeta. set (digits := if num_leb one (num_abs value) then digitsLarge else digitsSmall).
  assert (Hd : digits ≠ 0) by (unfold digits; by destruct (num_leb _ _)).
  pose proof (fixed_units_near value digits) as Hnear.
  destruct (toFixed_text value digits Hw Hd) as (sign & ip & fp0 & Hs & Hip & Hdig & Hl & Ht & Hu).
  destruct (split_zeros fp0) as (fp & k & -> & He). rewrite app_assoc, dec_value_zeros in Hu.
  rewrite app_assoc, forallb_app in Hdig. apply andb_prop in Hdig as [Hdig _].
  rewrite length_app, length_replicate in Hl.
  destruct (magnitude value) as [num den]. exists sign, ip, fp.
  assert (Hf : isFinite value = true) by (unfold writable in Hw; by apply andb_prop in Hw as [-> _]).
  rewrite (minus_negative value Hf) in Hs. split_and!; try done; [|lia| |].
  - unfold formatPlainNumber, plain_digits. fold digits.
    unfold writable in Hw. apply andb_prop in Hw as [-> _]. rewrite Ht, app_assoc, strip_fraction.
    + by rewrite app_assoc.
    + rewrite forallb_app in Hdig. by apply andb_prop in Hdig as [_ ->].
    + done.
    + destruct fp; [|done]. destruct k; [cbn in Hl; lia|done].
  - replace (digits - length fp) with k by lia. rewrite N2Z.inj_mul, N2Z.inj_pow, nat_N_Z in Hu. lia.
  - replace (digits - length fp) with k by lia. rewrite N2Z.inj_mul, N2Z.inj_pow, nat_N_Z in Hu. lia.
Qed.

Lemma plain_number_exact_witness :
  formatPlainNumber (Number_of_string "2.50") 4 6 = "2.5"
  ∧ ∃ sign ip fp, formatPlainNumber (Number_of_string "2.50") 4 6 = sign ++ ip ++ fraction fp
      ∧ ends_nonzero fp = true.
Proof.
  split; [vm_compute; reflexivity|].
  pose proof (plain_number_exact (Number_of_string "2.50") 4 6) as H.
  destruct (magnitude (Number_of_string "2.50")) as [num den].
  destruct H as (sign & ip & fp & H1 & _ & _ & _ & H2 & _); [vm_compute; reflexivity|done|done|].
  exists sign, ip, fp. split; assumption.
Defined.

(** A free group is shown at the full price.  A ratio of 0 is replaced by 1,
    so the price listed for a group that pays nothing is the price of a group with
    the ratio 1, while the summary of the same model uses the ratio 0. *)
Theorem free_group_full_price model group type unit_ show rate usd ratios :
  (pm_quota_type model =? QUOTA_REQUEST)%Z = false → assoc_get group ratios = Some zero →
  formatGroupPrice model group type unit_ show rate usd ratios
  = formatGroupPrice model group type unit_ show rate usd [(group, one)]
  ∧ (pm_enable_groups model = [group] → pm_group_ratio model = Some ratios →
     formatPrice model type unit_ show rate usd
     = token_price_text model type unit_ show rate usd zero).
Proof.
  intros Hq Hr. unfold formatGroupPrice, formatPrice, ratio_or_one, getMinGroupRatio, group_ratio_of.
  rewrite Hq, Hr. cbn [assoc_get]. rewrite str_eqb_refl. split; [reflexivity|].
  intros -> ->. cbn [default from_option id nonempty fold_left]. unfold min_step. rewrite Hr. reflexivity.
Qed.

Definition sample_model : PricingModel :=
  {| pm_model_name := "gpt"; pm_description := None; pm_vendor_name := Some "openai";
     pm_quota_type := 0; pm_model_ratio := num_of_Z 5; pm_completion_ratio := num_of_Z 3;
     pm_model_price := None; pm_cache_ratio := None; pm_create_cache_ratio := None;
     pm_image_ratio := None; pm_audio_ratio := None; pm_audio_completion_ratio := None;
     pm_enable_groups := ["free"]; pm_tags := Some "chat, fast"; pm_supported_endpoint_types := None;
     pm_group_ratio := Some [("free", zero)]; pm_billing_mode := None; pm_billing_expr := None |}.

Lemma free_group_full_price_witness :
  formatGroupPrice sample_model "free" PInput UnitM false one one [("free", zero)] = "10"
  ∧ formatPrice sample_model PInput UnitM false one one = "0".
Proof.
  destruct (free_group_full_price sample_model "free" PInput UnitM false one one [("free", zero)])
    as [H1 H2]; [reflexivity..|].
  rewrite H1, H2 by reflexivity. split; vm_compute; reflexivity.
Defined.

(** ** Price entries *)

Lemma omap_primary tier options vars :
  StronglySorted (λ v w, primary_leb {| de_value := zero; de_formatted := []; de_variable := v |}
                           {| de_value := zero; de_formatted := []; de_variable := w |} = true) vars →
  StronglySorted (λ a b, primary_leb a b = true) (omap (dynamic_entry tier options) vars).
Proof.
  induction 1 as [|v vars Hs IH Hv]; [constructor|]. cbn [omap list_omap].
  destruct (dynamic_entry tier options v) as [e|] eqn:E; [|done]. constructor; [done|].
  rewrite list.Forall_forall. rewrite list.Forall_forall in Hv. intros e' (w & Hw & He')%list_elem_of_omap.
  assert (Hvar : ∀ x y, dynamic_entry tier options x = Some y → de_variable y = x).
  { intros x y. unfold dynamic_entry. destruct (bv_field x); [|done]. destruct (_ && _); [|done].
    by intros [= <-]. }
  specialize (Hv w Hw). revert Hv. unfold primary_leb, is_primary, de_field. cbn [de_variable].
  by rewrite (Hvar _ _ E), (Hvar _ _ He').
Qed.

(** The registry has the primary prices first, so sorting the entries keeps them. *)
Lemma entries_sorted tier options :
  getDynamicPriceEntries (Some tier) options = omap (dynamic_entry tier options) BILLING_PRICING_VARS.
Proof. apply js_sort_id, omap_primary. repeat constructor. Qed.

Lemma primary_prefix l :
  StronglySorted (λ a b, primary_leb a b = true) l →
  l = List.filter is_primary l ++ List.filter (λ e, negb (is_primary e)) l.
Proof.
  induction 1 as [|e l Hs IH He]; [done|]. cbn [List.filter]. destruct (is_primary e) eqn:Ep; cbn [negb].
  - cbn [app]. by rewrite <- IH.
  - assert (Hno : ∀ x, In x l → is_primary x = false).
    { intros x Hx. rewrite List.Forall_forall in He. specialize (He x Hx). unfold primary_leb in He.
      rewrite Ep in He. by destruct (is_primary x). }
    assert (E : List.filter is_primary l = []).
    { clear -Hno. induction l as [|x l IH]; [done|]. cbn [List.filter]. rewrite (Hno x) by (by left).
      apply IH. intros y Hy. apply Hno. by right. }
    rewrite E in IH |- *. cbn [app] in *. by rewrite <- IH.
Qed.

(** The prices shown for a tier are exactly its positive finite prices, each
    once in the order of the registry, with the input and output prices before the
    others; the two lists of the summary are the two halves of this list. *)
Theorem dynamic_entries_exact tier options :
  let es := getDynamicPriceEntries (Some tier) options in
  sublist (map de_variable es) BILLING_PRICING_VARS
  ∧ es = List.filter is_primary es ++ List.filter (λ e, negb (is_primary e)) es
  ∧ (∀ e, e ∈ es ↔ ∃ v f, v ∈ BILLING_PRICING_VARS ∧ bv_field v = Some f
        ∧ e = {| de_value := default NaN (assoc_get f (pt_fields tier));
                 de_formatted := formatDynamicUnitPrice (default NaN (assoc_get f (pt_fields tier))) options;
                 de_variable := v |}
        ∧ isFinite (de_value e) = true ∧ num_leb (de_value e) zero = false).
Proof.
  cbv zeta. rewrite entries_sorted. split_and!.
  - induction BILLING_PRICING_VARS as [|v l IH]; [constructor|]. cbn [omap list_omap].
    unfold dynamic_entry at 1. destruct (bv_field v); [|by constructor].
    destruct (_ && _); [|by constructor]. cbn [map de_variable]. by constructor.
  - apply primary_prefix, omap_primary. repeat constructor.
  - intros e. rewrite list_elem_of_omap. split.
    + intros (v & Hv & E). unfold dynamic_entry in E. destruct (bv_field v) as [f|] eqn:Ef; [|done].
      destruct (isFinite _ && _) eqn:Ec; [|done]. injection E as <-. bool_prop. exists v, f. eauto.
    + intros (v & f & Hv & Hf & -> & H1 & H2). exists v. split; [done|]. unfold dynamic_entry.
      cbn [de_value] in *. by rewrite Hf, H1, H2.
Qed.

(** ** Filters *)

Section filter_theorems.
Context (toLowerCase : jsstr → jsstr) (locale_leb : jsstr → jsstr → bool).

(** A model passes all filters. *)
Definition accepts (f : Filters) (m : PricingModel) : bool :=
  (negb (nonempty (fl_search f)) || search_match toLowerCase (fl_search f) m)
  && (str_eqb (fl_vendor f) FILTER_ALL || vendor_match (fl_vendor f) m)
  && (str_eqb (fl_group f) FILTER_ALL || str_mem (fl_group f) (pm_enable_groups m))
  && (str_eqb (fl_quotaType f) FILTER_ALL || quota_match (fl_quotaType f) m)
  && (str_eqb (fl_endpointType f) FILTER_ALL || endpoint_match (fl_endpointType f) m)
  && (str_eqb (fl_tag f) FILTER_ALL || str_mem (toLowerCase (fl_tag f)) (model_tags toLowerCase m)).

Lemma filter_and {A} (p q : A → bool) l :
  List.filter q (List.filter p l) = List.filter (λ x, p x && q x) l.
Proof.
  induction l as [|x l IH]; [done|]. cbn [List.filter]. destruct (p x); cbn [List.filter andb]; [|done].
  by rewrite IH.
Qed.

Lemma filter_if {A} (c : bool) (p : A → bool) l :
  (if c then l else List.filter p l) = List.filter (λ x, c || p x) l.
Proof.
  destruct c; cbn [orb]; [|done]. induction l as [|x l IH]; [done|]. cbn [List.filter]. by rewrite <- IH.
Qed.

Lemma filters_eq models f :
  filterByTag toLowerCase
    (filterByEndpointType
       (filterByQuotaType
          (filterByGroup (filterByVendor (filterBySearch toLowerCase models (fl_search f)) (fl_vendor f))
             (fl_group f)) (fl_quotaType f)) (fl_endpointType f)) (fl_tag f)
  = List.filter (accepts f) models.
Proof.
  unfold filterByTag, filterByEndpointType, filterByQuotaType, filterByGroup, filterByVendor, filterBySearch.
  replace (if nonempty (fl_search f) then List.filter (search_match toLowerCase (fl_search f)) models else models)
    with (if negb (nonempty (fl_search f)) then models
          else List.filter (search_match toLowerCase (fl_search f)) models)
    by (by destruct (nonempty (fl_search f))).
  rewrite !filter_if, !filter_and. apply filter_ext. intros m. unfold accepts. by rewrite !andb_assoc.
Qed.

(** The list shown holds exactly the models that pass every filter, each as
    often as before; without a sort option they keep their order, and by name they
    are in the order of the locale. *)
Theorem filter_and_sort_exact models f :
  let shown := filterAndSortModels toLowerCase locale_leb models f in
  Permutation shown (List.filter (accepts f) models)
  ∧ (∀ m, m ∈ shown ↔ m ∈ models ∧ accepts f m = true)
  ∧ (str_mem (fl_sortBy f) ["name"; "price-low"; "price-high"] = false →
     shown = List.filter (accepts f) models)
  ∧ ((∀ a b, locale_leb a b = true ∨ locale_leb b a = true) →
     (∀ a b c, locale_leb a b = true → locale_leb b c = true → locale_leb a c = true) →
     fl_sortBy f = "name" →
     StronglySorted (λ a b, locale_leb (pm_model_name a) (pm_model_name b) = true) shown).
Proof.
  cbv zeta. unfold filterAndSortModels. rewrite filters_eq.
  assert (Hp : Permutation (sortModels locale_leb (List.filter (accepts f) models) (fl_sortBy f))
                 (List.filter (accepts f) models)).
  { unfold sortModels. destruct (str_eqb _ "name"); [apply js_sort_perm|].
    destruct (str_eqb _ "price-low"); [apply js_sort_perm|].
    destruct (str_eqb _ "price-high"); [apply js_sort_perm|done]. }
  split_and!; [done| | |].
  - intros m. rewrite Hp. apply elem_of_filterb.
  - unfold sortModels, str_mem, mem. cbn [existsb]. rewrite !orb_false_iff. by intros (-> & -> & -> & _).
  - intros Htot Htr E. unfold sortModels. rewrite E. apply js_sort_sorted; [|by eauto].
    intros x y. apply Htot.
Qed.
End filter_theorems.
