(* ===== verification/EditorTheorems.v ===== *)
(** * Theorems on the tiered pricing editor

    What the edits of the visual editor keep, what opening an expression in the
    editor does to it, and what switching between the two modes preserves. *)
From Stdlib Require Import NArith ZArith.
From stdpp Require Import list numbers.
From S2P Require Import Prelude JsString Regex JsNumber Json JsArray JsonRoundtrip BillingExpr BillingRules.
From S2P Require Import RuleRoundtrip RuleTheorems TierExpr TierRoundtrip TierTheorems TierDisplay TierRules.
From S2P Require Import TierEditor Pricing.

(** ** The shape of a configuration *)

Definition normal_tier (tier : VisualTier) : Prop := normalizeVisualTier (partial_of tier) = tier.

(** At least one tier; every tier is normalized and has at most two conditions. *)
Definition config_inv (tiers : VisualConfig) : Prop :=
  tiers ≠ [] ∧ Forall (λ t, normal_tier t ∧ length (vt_conditions t) ≤ 2) tiers.

Lemma normalized_tier p : normal_tier (normalizeVisualTier p).
Proof.
  unfold normal_tier, normalizeVisualTier, partial_of. cbn -[num_or cost_of BILLING_CACHE_VAR_MAP map].
  f_equal. apply map_ext_in. intros [f v] Hin. f_equal.
  rewrite cost_of_map by (by eapply registry_field). apply num_or_idem.
Qed.

Lemma normal_conditions conds t : normal_tier t → normal_tier (set_conditions conds t).
Proof.
  unfold normal_tier, normalizeVisualTier, partial_of, set_conditions.
  cbn -[num_or cost_of BILLING_CACHE_VAR_MAP map]. intros E. f_equal. exact (f_equal vt_costs E).
Qed.

Lemma normalize_inv tiers : config_inv tiers → normalizeVisualConfig (Some tiers) = tiers.
Proof.
  intros [Hne H]. destruct tiers as [|t l]; [done|]. unfold normalizeVisualConfig. clear Hne.
  induction H as [|x k [Hx _] _ IH]; [done|]. cbn [map]. by rewrite Hx, IH.
Qed.

Lemma remove_at_sublist {A} i (l : list A) : sublist (remove_at i l) l.
Proof.
  unfold remove_at. rewrite <- (take_drop i l) at 3. apply sublist_app; [done|].
  rewrite <- Nat.add_1_r, <- drop_drop. apply sublist_drop.
Qed.

Lemma card_edit_conditions e t :
  length (vt_conditions t) ≤ 2 → length (vt_conditions (card_edit e t)) ≤ 2.
Proof.
  intros H. destruct e as [l|i c|i|k x|m]; try done.
  - cbn. by rewrite length_insert.
  - cbn. etransitivity; [|exact H]. apply sublist_length, remove_at_sublist.
Qed.

Lemma inv_insert tiers i t :
  config_inv tiers → normal_tier t → length (vt_conditions t) ≤ 2 → config_inv (<[i := t]> tiers).
Proof.
  intros [Hne H] Hn Hc. split; [|by apply Forall_insert].
  intros E. apply Hne, length_zero_iff_nil. rewrite <- (length_insert tiers i t), E. done.
Qed.

Lemma inv_lookup tiers i t : config_inv tiers → tiers !! i = Some t →
  normal_tier t ∧ length (vt_conditions t) ≤ 2.
Proof. intros [_ H] Hi. exact (Forall_lookup_1 _ _ _ _ H Hi). Qed.

Lemma bound_last_inv t :
  normal_tier t → length (vt_conditions t) ≤ 2 →
  normal_tier (bound_last t) ∧ length (vt_conditions (bound_last t)) ≤ 2.
Proof.
  intros Hn Hc. unfold bound_last. destruct (vt_conditions t) eqn:E; [|by rewrite E].
  split; [apply normalized_tier|]. cbn. lia.
Qed.

Lemma add_tier_inv tiers : config_inv tiers → config_inv (handleAddTier tiers).
Proof.
  intros H. unfold handleAddTier.
  assert (Hl : config_inv (match list.last tiers with
                           | Some tier => <[pred (length tiers) := bound_last tier]> tiers
                           | None => tiers end)).
  { destruct (list.last tiers) as [t|] eqn:E; [|done]. rewrite last_lookup in E.
    destruct (inv_lookup _ _ _ H E) as [Hn Hc]. destruct (bound_last_inv t Hn Hc). by apply inv_insert. }
  destruct Hl as [_ Hl]. split; [by intros [_ E]%app_eq_nil|].
  apply Forall_app. split; [done|]. repeat constructor.
Qed.

Lemma tier_edit_inv tiers e : config_inv tiers → config_inv (tier_edit (Some tiers) e).
Proof.
  intros H. unfold tier_edit. rewrite normalize_inv by done. destruct e as [i ce| |i|i].
  - destruct (tiers !! i) as [t|] eqn:E; [|done]. destruct (inv_lookup _ _ _ H E) as [Hn Hc].
    apply inv_insert; [done|apply normalized_tier|]. by apply card_edit_conditions.
  - by apply add_tier_inv.
  - unfold handleRemoveTier. destruct (nonempty (remove_at i tiers)) eqn:E; [|done].
    split; [by destruct (remove_at i tiers)|]. destruct H as [_ H].
    rewrite list.Forall_forall in *. intros x Hx. apply H. eapply elem_of_sublist; [exact Hx|apply remove_at_sublist].
  - unfold handleAddCondition. destruct (tiers !! i) as [t|] eqn:E; [|done].
    destruct (inv_lookup _ _ _ H E) as [Hn Hc]. destruct (Nat.leb_spec 2 (length (vt_conditions t))); [done|].
    apply inv_insert; [done|by apply normal_conditions|]. cbn. rewrite length_app. cbn. lia.
Qed.

(** Editing from the configuration of a new model. *)
Definition edit_all (es : list TierEdit) (tiers : VisualConfig) : VisualConfig :=
  fold_left (λ tiers e, tier_edit (Some tiers) e) es tiers.

(** *** Adding a tier keeps the text readable *)

Lemma add_tier_snoc l t :
  handleAddTier (l ++ [t]) = l ++ [bound_last t; new_tier (S (S (length l)))].
Proof.
  unfold handleAddTier. rewrite last_snoc, length_app. cbn [length].
  replace (pred (length l + 1)) with (length l + 0) by lia. rewrite insert_app_r. cbn [list_insert insert].
  rewrite length_app, <- app_assoc. cbn [length app]. by rewrite Nat.add_1_r.
Qed.

Lemma new_tier_wf n : wf_tier (new_tier n) = true ∧ given (new_tier n) = [].
Proof.
  split; [|done]. unfold wf_tier. change (given (new_tier n)) with (@nil TierConditionInput).
  rewrite andb_true_r. unfold wf_prices.
  change (vt_label (new_tier n)) with ("tier_" ++ to_dec (N.of_nat n)).
  rewrite forallb_app. destruct (to_dec_spec (N.of_nat n)) as (_ & Hd & _).
  assert (E : forallb (in_cls true cls_quote) (to_dec (N.of_nat n)) = true).
  { revert Hd. apply forallb_impl. intros c Hc. unfold is_digit in Hc. apply andb_prop in Hc as [H1%N.leb_le H2%N.leb_le].
    unfold in_cls, cls_quote. cbn [in_ranges]. rewrite orb_false_r, xorb_true_l. unit_decide. }
  rewrite E. vm_compute. reflexivity.
Qed.

Lemma bound_wf t :
  normal_tier t → wf_tier t = true → forallb condition_given (vt_conditions t) = true →
  wf_tier (bound_last t) = true ∧ nonempty (given (bound_last t)) = true.
Proof.
  intros Hn Hw Hg. unfold bound_last. destruct (vt_conditions t) as [|c cs] eqn:E.
  - rewrite (normal_conditions _ t Hn). unfold wf_tier in *. apply andb_prop in Hw as [Hp _].
    split; [|done]. apply andb_true_intro. split; [exact Hp|]. vm_compute. reflexivity.
  - split; [done|]. unfold given. rewrite E. cbn [forallb List.filter] in *.
    by apply andb_prop in Hg as [-> _].
Qed.

(** All tiers but the last have conditions. *)
Lemma placed_snoc l t :
  forallb (λ x, nonempty (given x)) l = true → nonempty (given t) = false →
  conditions_placed (l ++ [t]) = true.
Proof.
  intros Hl Ht. induction l as [|x l IH]; [cbn; by rewrite Ht|]. cbn [forallb] in Hl.
  apply andb_prop in Hl as [Hx Hl]. cbn [app conditions_placed].
  destruct (l ++ [t]) eqn:E; [by destruct l|]. by rewrite Hx, IH.
Qed.

Lemma placed_init l t : conditions_placed (l ++ [t]) = true → forallb (λ x, nonempty (given x)) l = true.
Proof.
  induction l as [|x l IH]; [done|]. cbn [app conditions_placed forallb]. intros H.
  destruct (l ++ [t]) as [|y k] eqn:E; [by destruct l|]. apply andb_prop in H as [Hx H].
  by rewrite Hx, IH.
Qed.

Lemma add_tier_wf l t :
  wf_config (l ++ [t]) = true → normal_tier t → forallb condition_given (vt_conditions t) = true →
  wf_config (handleAddTier (l ++ [t])) = true.
Proof.
  unfold wf_config. intros Hw Hn Hg. apply andb_prop in Hw as [Hw Hp]. rewrite forallb_app in Hw.
  apply andb_prop in Hw as [Hl Ht]. cbn [forallb] in Ht. rewrite andb_true_r in Ht.
  destruct (bound_wf t Hn Ht Hg) as [Hb Hb']. destruct (new_tier_wf (S (S (length l)))) as [Hw' Hg'].
  rewrite add_tier_snoc, forallb_app, Hl. cbn [forallb]. rewrite Hb, Hw'.
  assert (Hi : forallb (λ x, nonempty (given x)) l = true).
  { destruct l as [|x l]; [done|]. apply (placed_init _ t). destruct l; [|done]. exact Hp. }
  assert (Hq : conditions_placed (l ++ [bound_last t; new_tier (S (S (length l)))]) = true).
  { change [bound_last t; new_tier (S (S (length l)))] with ([bound_last t] ++ [new_tier (S (S (length l)))]).
    rewrite app_assoc. apply placed_snoc; [|by rewrite Hg'].
    rewrite forallb_app, Hi. cbn [forallb]. by rewrite Hb'. }
  destruct l as [|x [|y l]]; exact Hq.
Qed.

(** ** Opening an expression *)

(** The editor shows the configuration and the rules of its two expressions. *)
Definition shows (tiers : VisualConfig) (gs : list RequestRuleGroup) (ed : Editor) : Prop :=
  ed_currentExpr ed = generateExprFromVisualConfig (Some tiers)
  ∧ ed_currentRequestRuleExpr ed = buildRequestRuleExpr gs
  ∧ ed_editorMode ed = ModeVisual ∧ ed_visualConfig ed = Some tiers
  ∧ ed_rawExpr ed = saved_expr tiers gs ∧ ed_requestRuleGroups ed = gs.

(** Both editors read the expressions back. *)
Definition reads (tiers : VisualConfig) (gs : list RequestRuleGroup) : Prop :=
  tryParseVisualConfig (generateExprFromVisualConfig (Some tiers)) = Some tiers
  ∧ tryParseRequestRuleExpr (buildRequestRuleExpr gs) = Ok (Some gs).

Lemma init_shows tiers gs ed p :
  reads tiers gs → shows tiers gs ed → shows tiers gs p →
  ∃ p', init_effect ed p = Ok p' ∧ shows tiers gs p'.
Proof.
  intros [Ht Hg] (E1 & E2 & _) Hp. unfold init_effect. destruct (ed_initRef p); [by exists p|].
  unfold rule_groups. rewrite E1, E2, Hg, Ht. eexists. split; [reflexivity|].
  destruct Hp as (? & ? & _). unfold shows. by split_and!.
Qed.

Lemma quiet_effects tiers gs ed p :
  shows tiers gs ed → expr_effect ed p = Ok p ∧ rule_effect ed p = p.
Proof.
  intros (E1 & E2 & E3 & E4 & E5 & E6). unfold expr_effect, rule_effect, effectiveExpr.
  rewrite E1, E2, E3, E4, E6. cbn [mbind exn_bind]. by rewrite !str_eqb_refl.
Qed.

Lemma commit_shows tiers gs prev ed :
  reads tiers gs → shows tiers gs ed → ∃ ed', commit prev ed = Ok ed' ∧ shows tiers gs ed'.
Proof.
  intros Hr Hs. unfold commit. cbv zeta. set (b := match prev with Some _ => _ | None => _ end).
  set (a := match prev with Some _ => _ | None => _ end). clearbody a b.
  assert (Hp : ∃ p, (if a then init_effect ed ed else Ok ed) = Ok p ∧ shows tiers gs p).
  { destruct a; [by apply init_shows|by exists ed]. }
  destruct Hp as (p & -> & Hp). cbn [mbind exn_bind].
  destruct (quiet_effects tiers gs ed (if b then model_effect p else p) Hs) as [-> E].
  cbn [mbind exn_bind]. rewrite E. eexists. split; [reflexivity|]. by destruct b.
Qed.

Lemma commits_shows tiers gs n prev ed :
  reads tiers gs → shows tiers gs ed → ∃ ed', commits n prev ed = Ok ed' ∧ shows tiers gs ed'.
Proof.
  intros Hr. revert prev ed. induction n as [|n IH]; intros prev ed Hs; [by exists ed|].
  destruct (commit_shows tiers gs prev ed Hr Hs) as (ed' & E & Hs'). cbn [commits]. rewrite E.
  by apply IH.
Qed.

Lemma mount_shows name tiers gs :
  reads tiers gs →
  ∃ ed, editor_mount name (generateExprFromVisualConfig (Some tiers)) (buildRequestRuleExpr gs) = Ok ed
        ∧ shows tiers gs ed.
Proof.
  intros [Ht Hg]. unfold editor_mount, rule_groups. rewrite Hg, Ht. eexists. split; [reflexivity|].
  unfold shows. by split_and!.
Qed.

Lemma reads_config tiers gs :
  wf_config tiers = true → forallb wf_group gs = true → reads (canonical_config tiers) gs.
Proof.
  intros Hw Hg. split; [|exact (decode_encode (A := list RequestRuleGroup) gs Hg)].
  apply Ok_inj. exact (decode_normal (A := VisualConfig) tiers Hw).
Qed.

(** *** Computing commits *)

Definition state (name expr rule : jsstr) (mode : EditorMode) (cfg : option VisualConfig) (raw : jsstr)
    (gs : list RequestRuleGroup) (init : bool) : Editor :=
  {| ed_modelName := name; ed_currentExpr := expr; ed_currentRequestRuleExpr := rule;
     ed_editorMode := mode; ed_visualConfig := cfg; ed_rawExpr := raw; ed_requestRuleGroups := gs;
     ed_initRef := init |}.

(** The text the mode stands for. *)
Definition effective (mode : EditorMode) (cfg : option VisualConfig) (raw expr : jsstr) : Prop :=
  match mode with
  | ModeVisual => generateExprFromVisualConfig cfg = expr
  | ModeRaw => ∃ rule, splitBillingExprAndRequestRules raw = Ok {| billingExpr := expr; requestRuleExpr := rule |}
  end.

Lemma effective_state name expr rule mode cfg raw gs init e :
  effective mode cfg raw e → effectiveExpr (state name expr rule mode cfg raw gs init) = Ok e.
Proof.
  unfold effectiveExpr. cbn [ed_editorMode ed_visualConfig ed_rawExpr state].
  destruct mode; cbn [effective]; [by intros ->|]. by intros [r ->].
Qed.

(** A commit in which the first effect does nothing. *)
Lemma commit_idle prev name expr rule mode cfg raw gs e :
  ed_modelName prev = name → effective mode cfg raw e → (mode = ModeVisual → buildRequestRuleExpr gs = rule) →
  commit (Some prev) (state name expr rule mode cfg raw gs true) = Ok (state name e rule mode cfg raw gs true).
Proof.
  intros Hn He Hr. unfold commit, expr_effect. rewrite (effective_state _ _ _ _ _ _ _ _ e He).
  unfold init_effect. cbn [ed_initRef ed_modelName ed_currentExpr ed_currentRequestRuleExpr state mbind exn_bind].
  rewrite Hn, str_eqb_refl. cbn [negb].
  destruct (negb _); cbn [mbind exn_bind]; unfold rule_effect;
    cbn [ed_editorMode ed_requestRuleGroups ed_currentRequestRuleExpr state];
    destruct (str_eqb_spec e expr) as [->|_]; destruct mode; try rewrite (Hr eq_refl), str_eqb_refl; reflexivity.
Qed.

(** A commit that initializes: on a mount, or when an expression changed. *)
Definition changed (prev : option Editor) (expr rule : jsstr) : bool :=
  match prev with
  | None => true
  | Some q => negb (str_eqb (ed_currentExpr q) expr && str_eqb (ed_currentRequestRuleExpr q) rule)
  end.

Definition model_changed (prev : option Editor) (name : jsstr) : bool :=
  match prev with None => true | Some q => negb (str_eqb (ed_modelName q) name) end.

Lemma commit_init prev name expr rule mode cfg raw gs e parsed :
  changed prev expr rule = true → tryParseRequestRuleExpr rule = Ok (Some parsed) → effective mode cfg raw e →
  (mode = ModeVisual → buildRequestRuleExpr gs = rule) → nonempty expr = true →
  commit prev (state name expr rule mode cfg raw gs false)
  = Ok (state name e rule (match tryParseVisualConfig expr with Some _ => ModeVisual | None => ModeRaw end) (tryParseVisualConfig expr)
          (combineBillingExpr expr rule) parsed (negb (model_changed prev name))).
Proof.
  intros Hc Hp He Hr Hn. unfold commit, expr_effect. rewrite (effective_state _ _ _ _ _ _ _ _ e He).
  cbn [ed_initRef ed_modelName ed_currentExpr ed_currentRequestRuleExpr state].
  change (match prev with Some q => negb (str_eqb (ed_currentExpr q) expr && _) | None => true end)
    with (changed prev expr rule).
  change (match prev with Some q => negb (str_eqb (ed_modelName q) name) | None => true end)
    with (model_changed prev name).
  rewrite Hc. unfold init_effect, rule_groups.
  cbn [ed_initRef ed_modelName ed_currentExpr ed_currentRequestRuleExpr state].
  rewrite Hp, Hn. cbn [mbind exn_bind default from_option id]. unfold rule_effect.
  cbn [ed_editorMode ed_requestRuleGroups ed_currentRequestRuleExpr state].
  destruct (str_eqb_spec e expr) as [->|_], (tryParseVisualConfig expr), (model_changed prev name), mode;
    try rewrite (Hr eq_refl), str_eqb_refl; reflexivity.
Qed.

(** The empty expression in text mode: nothing changes any more. *)
Definition emptied (name rule : jsstr) (ed : Editor) : Prop :=
  ed_modelName ed = name ∧ ed_currentExpr ed = EMPTY_EXPR ∧ ed_currentRequestRuleExpr ed = rule
  ∧ ed_editorMode ed = ModeRaw ∧ ed_rawExpr ed = combineBillingExpr EMPTY_EXPR rule
  ∧ ed_initRef ed = true.

Lemma emptied_commits n name rule prev ed :
  splitBillingExprAndRequestRules (combineBillingExpr EMPTY_EXPR rule)
  = Ok {| billingExpr := EMPTY_EXPR; requestRuleExpr := rule |} →
  ed_modelName prev = name → emptied name rule ed →
  ∃ ed', commits n (Some prev) ed = Ok ed' ∧ emptied name rule ed'.
Proof.
  intros Hs. revert prev ed. induction n as [|n IH]; intros prev ed Hp He; [by exists ed|].
  cbn [commits]. assert (E : commit (Some prev) ed = Ok ed).
  { destruct He as (E1 & E2 & E3 & E4 & E5 & E6). unfold commit, init_effect, expr_effect, rule_effect, effectiveExpr.
    rewrite E1, E2, E3, E4, E5, E6, Hs, Hp, !str_eqb_refl.
    by destruct (str_eqb (ed_currentExpr prev) _ && _). }
  rewrite E. cbn [mbind exn_bind]. apply IH; [by destruct He|done].
Qed.

Lemma empty_split gs :
  forallb wf_group gs = true →
  splitBillingExprAndRequestRules (combineBillingExpr EMPTY_EXPR (buildRequestRuleExpr gs))
  = Ok {| billingExpr := EMPTY_EXPR; requestRuleExpr := buildRequestRuleExpr gs |}.
Proof.
  intros Hg. destruct gs as [|g gs]; [vm_compute; reflexivity|]. by apply split_combine.
Qed.

(** The first three commits for a text [X] that is not a configuration; [e] is the
    expression of no configuration. *)
Lemma raw_commits name X e rule gs n :
  tryParseVisualConfig X = None → tryParseVisualConfig e = None → generateExprFromVisualConfig None = e →
  nonempty X = true → nonempty e = true → X ≠ e →
  buildRequestRuleExpr gs = rule → tryParseRequestRuleExpr rule = Ok (Some gs) →
  splitBillingExprAndRequestRules (combineBillingExpr X rule) = Ok {| billingExpr := X; requestRuleExpr := rule |} →
  splitBillingExprAndRequestRules (combineBillingExpr e rule) = Ok {| billingExpr := e; requestRuleExpr := rule |} →
  ∃ prev, commits (3 + n) None (state name X rule ModeVisual None (combineBillingExpr X rule) gs false)
          = commits n (Some prev) (state name e rule ModeRaw None (combineBillingExpr e rule) gs true)
          ∧ ed_modelName prev = name.
Proof.
  intros Hx He Hg Hn Hn' Hne Hb Hp Hs Hs'. change (3 + n) with (S (S (S n))). cbn [commits].
  rewrite (commit_init None name X rule ModeVisual None _ gs e gs); try done.
  rewrite Hx. cbn [mbind exn_bind model_changed negb].
  rewrite (commit_init _ name e rule ModeRaw None _ gs X gs); try done; [|
    cbn [changed ed_currentExpr state]; by rewrite (proj2 (str_eqb_neq X e)) |by exists rule].
  rewrite He. cbn [mbind exn_bind model_changed ed_modelName state]. rewrite str_eqb_refl. cbn [negb].
  rewrite (commit_idle _ name X rule ModeRaw None _ gs e); [|done|by exists rule|done].
  cbn [mbind exn_bind]. by eexists.
Qed.

Lemma open_raw_commits name X gs n ed :
  tryParseVisualConfig X = None → X ≠ [] → X ≠ EMPTY_EXPR → forallb wf_group gs = true →
  splitBillingExprAndRequestRules (combineBillingExpr X (buildRequestRuleExpr gs))
  = Ok {| billingExpr := X; requestRuleExpr := buildRequestRuleExpr gs |} →
  editor_mount name X (buildRequestRuleExpr gs) = Ok ed →
  ∃ ed', commits (3 + n) None ed = Ok ed' ∧ emptied name (buildRequestRuleExpr gs) ed'.
Proof.
  intros Hx Hne HE Hg Hs Hm. pose proof (empty_split gs Hg) as He.
  assert (Hp : tryParseRequestRuleExpr (buildRequestRuleExpr gs) = Ok (Some gs))
    by exact (decode_encode (A := list RequestRuleGroup) gs Hg).
  assert (Hv : tryParseVisualConfig EMPTY_EXPR = None) by (vm_compute; reflexivity).
  assert (Hn : nonempty X = true) by by destruct X.
  unfold editor_mount, rule_groups in Hm. rewrite Hp, Hx in Hm. injection Hm as <-.
  destruct (raw_commits name X EMPTY_EXPR _ gs n Hx Hv eq_refl Hn eq_refl HE eq_refl Hp Hs He)
    as (prev & E & Hname). unfold state in E. rewrite E. by apply emptied_commits.
Qed.

(** Applying a preset [pt] with other rules to a freshly opened configuration. *)
Lemma preset_commits name cfg pt old new gs rules rule rule' combined n :
  tryParseVisualConfig old = Some cfg → generateExprFromVisualConfig (Some cfg) = old →
  generateExprFromVisualConfig (Some pt) = new → new ≠ old →
  tryParseRequestRuleExpr rule = Ok (Some gs) → buildRequestRuleExpr gs = rule →
  tryParseRequestRuleExpr rule' = Ok (Some rules) → buildRequestRuleExpr rules = rule' → rule' ≠ rule →
  nonempty old = true →
  let opened := state name old rule ModeVisual (Some cfg) (combineBillingExpr old rule) gs false in
  commits 1 None opened = Ok opened
  ∧ ∃ prev, commits (2 + n) (Some opened) (state name old rule' ModeVisual (Some pt) combined rules false)
            = commits n (Some prev)
                (state name old rule' ModeVisual (Some cfg) (combineBillingExpr old rule') rules true).
Proof.
  intros Ht Ho Hw Hne Hr Hb Hr' Hb' Hner Hn opened. split.
  - cbn [commits]. unfold opened. by rewrite (commit_init None name old _ ModeVisual (Some cfg) _ gs old gs), Ht by done.
  - unfold opened. change (2 + n) with (S (S n)). cbn [commits].
    assert (Hc : changed (Some opened) old rule' = true).
    { cbn [changed opened ed_currentExpr ed_currentRequestRuleExpr state].
      rewrite str_eqb_refl. cbn [andb]. by rewrite (proj2 (str_eqb_neq _ _) (not_eq_sym Hner)). }
    rewrite (commit_init _ name old rule' ModeVisual (Some pt) _ rules new rules) by done.
    rewrite Ht. cbn [mbind exn_bind model_changed ed_modelName state]. rewrite str_eqb_refl. cbn [negb].
    rewrite (commit_idle _ name new rule' ModeVisual (Some cfg) _ rules old) by done.
    cbn [mbind exn_bind]. by eexists.
Qed.

(** Rules that are not read. *)
Lemma mount_unreadable name expr rule :
  tryParseRequestRuleExpr rule = Ok None →
  editor_mount name expr rule
  = Ok (state name expr rule ModeVisual (tryParseVisualConfig expr) (combineBillingExpr expr rule) [] false).
Proof. intros H. unfold editor_mount, rule_groups. by rewrite H. Qed.

Lemma drop_rules name expr rule cfg raw :
  tryParseRequestRuleExpr rule = Ok None → rule ≠ [] →
  let ed := state name expr rule ModeVisual cfg raw [] false in
  ∃ ed', commit None ed = Ok ed' ∧ ed_currentRequestRuleExpr ed' = [] ∧ canUseVisualRules ed = Ok false.
Proof.
  intros Hp Hne ed. unfold commit, expr_effect.
  unfold ed. rewrite (effective_state _ _ _ _ _ _ _ _ _ (eq_refl : effective ModeVisual cfg raw _)).
  unfold init_effect, rule_groups, rule_effect, canUseVisualRules.
  cbn [ed_initRef ed_modelName ed_currentExpr ed_currentRequestRuleExpr ed_editorMode ed_requestRuleGroups state].
  rewrite Hp. cbn [mbind exn_bind default from_option id]. change (buildRequestRuleExpr []) with (@nil N).
  rewrite (proj2 (str_eqb_neq [] rule) (not_eq_sym Hne)), (proj2 (nonempty_true rule) Hne).
  cbn [mbind exn_bind]. eexists. split; [reflexivity|]. by split.
Qed.

Lemma saved_nonempty tiers gs :
  wf_config tiers = true → labels_balanced tiers = true → forallb wf_group gs = true →
  nonempty (saved_expr tiers gs) = true.
Proof.
  intros Hw Hl Hg. destruct (nonempty (saved_expr tiers gs)) eqn:En; [done|].
  pose proof (split_saved_all tiers gs Hw Hl Hg) as Hs. destruct (saved_expr tiers gs); [|done].
  change (splitBillingExprAndRequestRules []) with (Ok {| billingExpr := []; requestRuleExpr := [] |}) in Hs.
  destruct (config_head tiers Hw) as [_ Hn]. assert (E0 : generateExprFromVisualConfig (Some tiers) = []) by congruence.
  by rewrite E0 in Hn.
Qed.

(** A model with tiered billing. *)
Definition tiered_model (expr : jsstr) : PricingModel :=
  {| pm_model_name := "m"; pm_description := None; pm_vendor_name := None; pm_quota_type := 0;
     pm_model_ratio := zero; pm_completion_ratio := zero; pm_model_price := None; pm_cache_ratio := None;
     pm_create_cache_ratio := None; pm_image_ratio := None; pm_audio_ratio := None;
     pm_audio_completion_ratio := None; pm_enable_groups := []; pm_tags := None;
     pm_supported_endpoint_types := None; pm_group_ratio := None;
     pm_billing_mode := Some "tiered_expr"; pm_billing_expr := Some expr |}.

(** ** The properties *)

(** Whatever the user does with the tiers of a new model, there is always at
    least one tier, every tier is normalized and has at most two conditions. *)
Theorem edits_keep_shape es : config_inv (edit_all es createDefaultVisualConfig).
Proof.
  unfold edit_all. assert (H : config_inv createDefaultVisualConfig).
  { split; [done|]. repeat constructor. }
  revert H. generalize createDefaultVisualConfig as cfg.
  induction es as [|e es IH]; intros cfg H; [done|]. cbn [fold_left]. by apply IH, tier_edit_inv.
Qed.

(** Adding a tier keeps a configuration readable: the former fallback gets a
    bound, a new fallback follows, and the text generated for the result opens as
    the result. *)
Theorem added_tier_reads l t :
  wf_config (l ++ [t]) = true → config_inv (l ++ [t]) → forallb condition_given (vt_conditions t) = true →
  tier_edit (Some (l ++ [t])) AddTier = l ++ [bound_last t; new_tier (S (S (length l)))]
  ∧ tryParseVisualConfig (generateExprFromVisualConfig (Some (tier_edit (Some (l ++ [t])) AddTier)))
    = Some (canonical_config (tier_edit (Some (l ++ [t])) AddTier)).
Proof.
  intros Hw Hi Hg. unfold tier_edit. rewrite normalize_inv by done. split; [apply add_tier_snoc|].
  apply read_config, add_tier_wf; [done| |done]. destruct Hi as [_ Hi]. apply Forall_app in Hi as [_ Hi].
  by apply Forall_inv in Hi as [Hi _].
Qed.

Lemma added_tier_reads_witness :
  tryParseVisualConfig (generateExprFromVisualConfig (Some (tier_edit (Some createDefaultVisualConfig) AddTier)))
  = Some (canonical_config (tier_edit (Some createDefaultVisualConfig) AddTier)).
Proof.
  refine (proj2 (added_tier_reads [] (normalizeVisualTier
     {| p_label := Some "base"; p_conditions := Some []; p_input_unit_cost := Some zero;
        p_output_unit_cost := Some zero; p_cache_mode := Some CACHE_MODE_GENERIC; p_costs := [] |}) _ _ _)).
  - vm_compute. reflexivity.
  - split; [done|]. repeat constructor.
  - reflexivity.
Defined.

(** Conditions on the last of several tiers are shown by the editor and are
    not in the expression: the text is the same without them. *)
Theorem last_conditions_dropped l t conds :
  l ≠ [] →
  generateExprFromVisualConfig (Some (l ++ [set_conditions conds t]))
  = generateExprFromVisualConfig (Some (l ++ [t])).
Proof.
  intros Hne. assert (H : ∀ i, tier_parts i (l ++ [set_conditions conds t]) = tier_parts i (l ++ [t])).
  { clear Hne. induction l as [|x l IH]; intros i; [done|]. cbn [app tier_parts]. rewrite IH.
    by destruct l. }
  destruct l as [|x [|y l]]; [done| |].
  - change (join " : " (tier_parts 1 ([x] ++ [set_conditions conds t])) = join " : " (tier_parts 1 ([x] ++ [t]))).
    by rewrite H.
  - change (join " : " (tier_parts 1 ((x :: y :: l) ++ [set_conditions conds t]))
            = join " : " (tier_parts 1 ((x :: y :: l) ++ [t]))). by rewrite H.
Qed.

Lemma last_conditions_dropped_witness :
  generateExprFromVisualConfig (Some (tier_edit (Some (sample_config ++ [new_tier 3])) (RemoveTier 2)))
  = generateExprFromVisualConfig (Some sample_config)
  ∧ generateExprFromVisualConfig
      (Some ([new_tier 1] ++ [set_conditions (vt_conditions (bound_last (new_tier 2))) (new_tier 2)]))
    = generateExprFromVisualConfig (Some ([new_tier 1] ++ [new_tier 2])).
Proof. split; [vm_compute; reflexivity|]. apply last_conditions_dropped. discriminate. Defined.

(** C29: opening a saved configuration with its rules changes nothing.  For tiers the visual
    editor reads back ([wf_config]: plain labels, prices and values written as their numbers,
    and of several tiers conditions on all but the last) and rule groups the rule parser
    reads back ([wf_group]: no null-checked condition of a parameter), the editor shows
    the tiers and the rule groups, and after any number of renders the two expressions of
    its parent are what they were. *)
Theorem open_saved_quiet name tiers gs n :
  wf_config tiers = true → forallb wf_group gs = true →
  ∃ ed ed', editor_mount name (generateExprFromVisualConfig (Some tiers)) (buildRequestRuleExpr gs) = Ok ed
  ∧ commits n None ed = Ok ed'
  ∧ ed_currentExpr ed' = generateExprFromVisualConfig (Some tiers)
  ∧ ed_currentRequestRuleExpr ed' = buildRequestRuleExpr gs
  ∧ ed_editorMode ed' = ModeVisual ∧ ed_visualConfig ed' = Some (canonical_config tiers)
  ∧ ed_requestRuleGroups ed' = gs.
Proof.
  intros Hw Hg. pose proof (reads_config tiers gs Hw Hg) as Hr.
  pose proof (config_tiers tiers Hw) as Hf.
  rewrite <- (generate_canonical tiers Hf).
  destruct (mount_shows name _ _ Hr) as (ed & Em & Hs). exists ed.
  destruct (commits_shows _ _ n None ed Hr Hs) as (ed' & Ec & H1 & H2 & H3 & H4 & _ & H6).
  exists ed'. by split_and!.
Qed.

Lemma open_saved_quiet_witness :
  ∃ ed ed', editor_mount "m" (generateExprFromVisualConfig (Some sample_config)) (buildRequestRuleExpr ex_groups) = Ok ed
  ∧ commits 5 None ed = Ok ed' ∧ ed_currentExpr ed' = generateExprFromVisualConfig (Some sample_config).
Proof.
  destruct (open_saved_quiet "m" sample_config ex_groups 5) as (ed & ed' & H1 & H2 & H3 & _);
    [vm_compute; reflexivity|vm_compute; reflexivity|].
  exists ed, ed'. exact (conj H1 (conj H2 H3)).
Defined.

(** An expression that is not a configuration does not survive being opened.
    For a stored expression with its rules that the visual editor cannot read, after
    three renders the parent's expression is the empty expression and the text of
    the editor is too, and it stays so. *)
Theorem open_text_lost name X gs n ed :
  tryParseVisualConfig X = None → X ≠ [] → X ≠ EMPTY_EXPR → forallb wf_group gs = true →
  splitBillingExprAndRequestRules (combineBillingExpr X (buildRequestRuleExpr gs))
  = Ok {| billingExpr := X; requestRuleExpr := buildRequestRuleExpr gs |} →
  editor_mount name X (buildRequestRuleExpr gs) = Ok ed →
  ∃ ed', commits (3 + n) None ed = Ok ed'
  ∧ ed_currentExpr ed' = EMPTY_EXPR ∧ ed_editorMode ed' = ModeRaw
  ∧ ed_rawExpr ed' = combineBillingExpr EMPTY_EXPR (buildRequestRuleExpr gs).
Proof.
  intros H1 H2 H3 H4 H5 H6. destruct (open_raw_commits name X gs n ed) as (ed' & Ec & He); [done..|].
  exists ed'. destruct He as (_ & ? & _ & ? & ? & _). by split_and!.
Qed.

Lemma open_text_lost_witness :
  ∃ ed ed', editor_mount "m" "max(p * 2, c * 3)" [] = Ok ed ∧ commits 3 None ed = Ok ed'
  ∧ ed_currentExpr ed' = EMPTY_EXPR.
Proof.
  destruct (editor_mount "m" "max(p * 2, c * 3)" []) as [ed|] eqn:E; [|vm_compute in E; discriminate].
  exists ed. destruct (open_text_lost "m" "max(p * 2, c * 3)" [] 0 ed) as (ed' & H1 & H2 & _).
  - vm_compute. reflexivity.
  - discriminate.
  - intros H. vm_compute in H. discriminate.
  - reflexivity.
  - vm_compute. reflexivity.
  - exact E.
  - exists ed'. exact (conj eq_refl (conj H1 H2)).
Defined.

(** Switching to the text and back loses nothing: the text holds the tiers and
    the rules, and going back shows the same tiers (with prices as numbers), the
    same rule groups and the same rule expression. *)
Theorem mode_switch_roundtrip ed tiers gs :
  wf_config tiers = true → labels_balanced tiers = true → forallb wf_group gs = true →
  ed_visualConfig ed = Some tiers → ed_requestRuleGroups ed = gs →
  (raw ← handleModeChange ModeRaw ed; handleModeChange ModeVisual raw)
  = Ok (state (ed_modelName ed) (ed_currentExpr ed) (buildRequestRuleExpr gs) ModeVisual
          (Some (canonical_config tiers)) (saved_expr tiers gs) gs (ed_initRef ed)).
Proof.
  intros Hw Hl Hg Hv Hr. unfold handleModeChange at 2. rewrite Hv, Hr. cbn [mbind exn_bind].
  assert (E : label_or (combineBillingExpr (generateExprFromVisualConfig (Some tiers)) (buildRequestRuleExpr gs))
                (generateExprFromVisualConfig (Some tiers)) = saved_expr tiers gs).
  { unfold label_or. fold (saved_expr tiers gs). by rewrite saved_nonempty. }
  rewrite E. unfold handleModeChange. cbn [ed_rawExpr setRawExpr setEditorMode].
  rewrite split_saved_all by done. cbn [mbind exn_bind billingExpr requestRuleExpr].
  unfold rule_groups. rewrite (proj2 (reads_config tiers gs Hw Hg)), read_config by done. reflexivity.
Qed.

Lemma mode_switch_roundtrip_witness :
  (raw ← handleModeChange ModeRaw
           (state "m" [] [] ModeVisual (Some sample_config) [] ex_groups true);
   handleModeChange ModeVisual raw)
  = Ok (state "m" [] (buildRequestRuleExpr ex_groups) ModeVisual (Some (canonical_config sample_config))
          (saved_expr sample_config ex_groups) ex_groups true).
Proof.
  exact (mode_switch_roundtrip (state "m" [] [] ModeVisual (Some sample_config) [] ex_groups true)
           sample_config ex_groups ltac:(vm_compute; reflexivity) ltac:(vm_compute; reflexivity)
           ltac:(vm_compute; reflexivity) eq_refl eq_refl).
Defined.

(** Request rules the rule editor cannot read are removed by opening them
    beside a readable configuration: after the first render the parent's rule
    expression is empty. *)
Theorem unreadable_rules_dropped name tiers rule ed :
  wf_config tiers = true → tryParseRequestRuleExpr rule = Ok None → rule ≠ [] →
  editor_mount name (generateExprFromVisualConfig (Some tiers)) rule = Ok ed →
  ∃ ed', commit None ed = Ok ed' ∧ ed_currentRequestRuleExpr ed' = [] ∧ canUseVisualRules ed = Ok false.
Proof.
  intros Hw Hp Hne Hm. rewrite (mount_unreadable _ _ _ Hp) in Hm. injection Hm as <-.
  by apply drop_rules.
Qed.

Lemma unreadable_rules_dropped_witness :
  ∃ ed ed', editor_mount "m" (generateExprFromVisualConfig (Some sample_config)) "max(2, 3)" = Ok ed
  ∧ commit None ed = Ok ed' ∧ ed_currentRequestRuleExpr ed' = [].
Proof.
  destruct (editor_mount "m" (generateExprFromVisualConfig (Some sample_config)) "max(2, 3)") as [ed|] eqn:E;
    [|vm_compute in E; discriminate].
  exists ed. destruct (unreadable_rules_dropped "m" sample_config "max(2, 3)" ed) as (ed' & H1 & H2 & _).
  - vm_compute. reflexivity.
  - vm_compute. reflexivity.
  - discriminate.
  - exact E.
  - exists ed'. exact (conj eq_refl (conj H1 H2)).
Defined.

(** A preset with other rules, applied as the first change after opening,
    loses its prices: the expression goes back to the one that was opened, while
    the rules of the preset stay. *)
Theorem first_preset_half_applied name tiers gs preset pt n :
  wf_config tiers = true → forallb wf_group gs = true → forallb wf_group (preset_requestRules preset) = true →
  tryParseVisualConfig (preset_expr preset) = Some pt →
  generateExprFromVisualConfig (Some pt) ≠ generateExprFromVisualConfig (Some tiers) →
  buildRequestRuleExpr (preset_requestRules preset) ≠ buildRequestRuleExpr gs →
  ∃ ed ed1 ed2, editor_mount name (generateExprFromVisualConfig (Some tiers)) (buildRequestRuleExpr gs) = Ok ed
  ∧ commits 1 None ed = Ok ed1 ∧ commits (2 + n) (Some ed1) (applyPreset preset ed1) = Ok ed2
  ∧ ed_currentExpr ed2 = generateExprFromVisualConfig (Some tiers)
  ∧ ed_currentRequestRuleExpr ed2 = buildRequestRuleExpr (preset_requestRules preset).
Proof.
  intros Hw Hg Hg' Hpt Hne Hner.
  pose proof (config_tiers tiers Hw) as Hf.
  pose proof (reads_config tiers gs Hw Hg) as Hr. pose proof (reads_config tiers _ Hw Hg') as Hr'.
  destruct (config_head tiers Hw) as [_ Hn]. rewrite <- (generate_canonical tiers Hf) in *.
  destruct (preset_commits name (canonical_config tiers) pt _ _ gs (preset_requestRules preset) _ _
              (label_or (combineBillingExpr (preset_expr preset) (buildRequestRuleExpr (preset_requestRules preset)))
                 (preset_expr preset)) n
              (proj1 Hr) eq_refl eq_refl Hne (proj2 Hr) eq_refl (proj2 Hr') eq_refl Hner Hn) as (E1 & prev & E2).
  destruct (commits_shows _ _ n (Some prev) (state name (generateExprFromVisualConfig (Some (canonical_config tiers)))
      (buildRequestRuleExpr (preset_requestRules preset)) ModeVisual (Some (canonical_config tiers))
      (saved_expr (canonical_config tiers) (preset_requestRules preset)) (preset_requestRules preset) true) Hr')
    as (ed2 & E3 & H1 & H2 & _); [unfold shows; by split_and!|].
  eexists _, _, ed2. split; [unfold editor_mount, rule_groups; rewrite (proj1 Hr), (proj2 Hr); reflexivity|].
  split; [exact E1|]. split; [|by split]. unfold applyPreset. rewrite Hpt. etransitivity; [exact E2|exact E3].
Qed.

Lemma first_preset_half_applied_witness :
  ∃ ed ed1 ed2, editor_mount "m" (generateExprFromVisualConfig (Some sample_config)) (buildRequestRuleExpr []) = Ok ed
  ∧ commits 1 None ed = Ok ed1 ∧ commits 2 (Some ed1) (applyPreset fast_preset ed1) = Ok ed2
  ∧ ed_currentExpr ed2 = generateExprFromVisualConfig (Some sample_config)
  ∧ ed_currentRequestRuleExpr ed2 = buildRequestRuleExpr (preset_requestRules fast_preset).
Proof.
  destruct (tryParseVisualConfig opus_expr) as [pt|] eqn:E; [|vm_compute in E; discriminate].
  apply (first_preset_half_applied "m" sample_config [] fast_preset pt 0).
  - vm_compute. reflexivity.
  - reflexivity.
  - vm_compute. reflexivity.
  - exact E.
  - vm_compute in E. injection E as <-. vm_compute. discriminate.
  - vm_compute. discriminate.
Defined.

(** Every preset of the editor opens in the visual editor, and both its prices
    and its rules are of the form that is read back. *)
Theorem presets_readable :
  forallb (λ '(_, presets),
    forallb (λ preset,
      match tryParseVisualConfig (preset_expr preset) with
      | Some tiers => wf_config tiers && labels_balanced tiers
      | None => false
      end && forallb wf_group (preset_requestRules preset)) presets) PRESET_GROUPS = true.
Proof. vm_compute. reflexivity. Qed.

(** C19: the price page shows what the editor saved.  For a model whose stored
    expression was written from tiers the visual editor reads back ([wf_config]), with
    balanced parentheses in their labels, and rule groups the rule parser reads back
    ([wf_group]: no null-checked condition of a parameter), the tiers of the price page
    are the tiers of the configuration, with their labels, conditions and prices,
    the page reports request rules exactly when there are some, and the editor
    reads tiers and rules back from the two parts. *)
Theorem saved_pricing_shown model tiers gs :
  wf_config tiers = true → labels_balanced tiers = true → forallb wf_group gs = true →
  pm_billing_mode model = Some "tiered_expr" → pm_billing_expr model = Some (saved_expr tiers gs) →
  getDynamicPricingTiers model = Ok (shown_tiers tiers)
  ∧ hasDynamicRequestRules model = Ok (nonempty gs)
  ∧ ∃ r, splitBillingExprAndRequestRules (saved_expr tiers gs) = Ok r
         ∧ tryParseVisualConfig (billingExpr r) = Some (canonical_config tiers)
         ∧ tryParseRequestRuleExpr (requestRuleExpr r) = Ok (Some gs).
Proof.
  intros Hw Hl Hg Hm He.
  assert (Hd : isDynamicPricingModel model = true).
  { unfold isDynamicPricingModel. rewrite Hm, He. cbn [default from_option id].
    by rewrite str_eqb_refl, saved_nonempty. }
  unfold getDynamicPricingTiers, hasDynamicRequestRules. rewrite Hd, He. cbn [default from_option id].
  rewrite split_saved_all by done. cbn [mbind exn_bind billingExpr requestRuleExpr].
  rewrite (proj2 (reads_config tiers gs Hw Hg)), parse_config by done. cbn [mbind exn_bind].
  split_and!; [done|done|]. eexists. split; [reflexivity|]. cbn [billingExpr requestRuleExpr].
  split; [by apply read_config|apply (reads_config tiers gs Hw Hg)].
Qed.

Lemma saved_pricing_shown_witness :
  getDynamicPricingTiers (tiered_model (saved_expr sample_config ex_groups)) = Ok (shown_tiers sample_config)
  ∧ hasDynamicRequestRules (tiered_model (saved_expr sample_config ex_groups)) = Ok true.
Proof.
  destruct (saved_pricing_shown (tiered_model (saved_expr sample_config ex_groups)) sample_config ex_groups)
    as (H1 & H2 & _); [vm_compute; reflexivity..|reflexivity|reflexivity|]. exact (conj H1 H2).
Defined.
