(* ===== verification/PricingSettings.v ===== *)
(** * The settings of model prices

    [features/system-settings]: the JSON texts of the options
    ([utils/json-parser.ts], [models/utils.ts]), the rounding of prices
    ([models/pricing-format.ts]), the sheet that edits the prices of one model
    ([models/model-pricing-sheet.tsx]) and the table that reads and writes the ten
    options ([models/model-ratio-visual-editor.tsx]). *)
From Stdlib Require Import NArith ZArith SpecFloat.
From stdpp Require Import list numbers.
From S2P Require Import Prelude JsString Regex JsNumber JsFloat Json JsArray JsonRoundtrip JsonIndent BillingExpr Pricing.

(** ** JSON texts *)

Definition safeJsonParse (value : jsstr) (fallback : json) : json :=
  if nonempty (trim value) then
    match JSON_parse (trim value) with Some j => j | None => fallback end
  else fallback.

(** [validator] is the caller's. *)
Definition safeJsonParseWithValidation (value : jsstr) (fallback : json) (validator : json → bool) : json :=
  let parsed := safeJsonParse value fallback in
  if validator parsed then parsed else fallback.

(** [None] is the result without success. *)
Definition tryJsonParse (value : jsstr) : option json :=
  if nonempty (trim value) then JSON_parse (trim value) else None.

Definition formatJsonForTextarea (value : jsstr) : jsstr :=
  if nonempty (trim value) then
    match JSON_parse value with Some parsed => JSON_stringify_2 parsed | None => value end
  else [].

Definition normalizeJsonString (value : jsstr) : jsstr :=
  let trimmed := trim value in
  if nonempty trimmed then
    match JSON_parse trimmed with Some parsed => JSON_stringify parsed | None => trimmed end
  else [].

(** ** Numbers *)

Definition Math_max (x y : number) : number :=
  if is_nan x || is_nan y then NaN else if num_ltb x y then y else x.

Definition DISPLAY_DECIMALS : nat := 12.
Definition SNAP_DECIMALS : nat := 8.
Definition SNAP_EPSILON : number := num_of_decimal false 1 (-12).
(** [Number.EPSILON], 2 to the power of -52. *)
Definition EPSILON : number := num_div (num_of_Z 1) (num_of_Z (2 ^ 52)).

Definition finite_number (s : jsstr) : option number :=
  let num := Number_of_string s in if isFinite num then Some num else None.

(** A text that is empty is no number. *)
Definition toNumberOrNull (value : jsstr) : option number :=
  if nonempty value then finite_number value else None.

Definition roundToDecimals (value : number) (decimals : nat) : number :=
  let factor := num_of_Z (10 ^ Z.of_nat decimals) in
  num_div (Math_round (num_mul value factor)) factor.

Definition snapFloatDrift (value : number) : number :=
  let tolerance := Math_max SNAP_EPSILON (num_mul (num_mul (num_abs value) EPSILON) (num_of_Z 8)) in
  let close := λ decimals, num_leb (num_abs (num_sub value (roundToDecimals value decimals))) tolerance in
  match List.find close (seq 0 (S SNAP_DECIMALS)) with
  | Some decimals => roundToDecimals value decimals
  | None => value
  end.

Definition formatPricingNumber (num : number) : jsstr :=
  if isFinite num then
    Number_toString (parseFloat (toFixed (snapFloatDrift num) DISPLAY_DECIMALS))
  else [].

Example format_ex :
  map formatPricingNumber
    [num_add (num_of_decimal false 1 (-1)) (num_of_decimal false 2 (-1)); num_of_decimal true 25 (-1);
     num_div (num_of_Z 1) (num_of_Z 3); NaN]
  = ["0.3"; "-2.5"; "0.333333333333"; []].
Proof. vm_compute. reflexivity. Qed.

(** ** The sheet of one model *)

Inductive PricingMode : Type := PerToken | PerRequest | TieredExpr.

Inductive LaneKey : Type := LCompletion | LCache | LCreateCache | LImage | LAudioInput | LAudioOutput.

(** The numeric fields of the form and of the stored data. *)
Inductive NumKey : Type :=
| FPrice | FRatio | FCache | FCreateCache | FCompletion | FImage | FAudio | FAudioCompletion.

#[export] Instance LaneKey_eq : EqDecision LaneKey.
Proof. solve_decision. Defined.
#[export] Instance NumKey_eq : EqDecision NumKey.
Proof. solve_decision. Defined.

Definition set_key {K A} `{EqDecision K} (k : K) (v : A) (f : K → A) : K → A :=
  λ k', if decide (k' = k) then v else f k'.

Definition laneConfigs : list LaneKey :=
  [LCompletion; LCache; LCreateCache; LImage; LAudioInput; LAudioOutput].

Definition ratioFieldByLane (lane : LaneKey) : NumKey :=
  match lane with
  | LCompletion => FCompletion | LCache => FCache | LCreateCache => FCreateCache
  | LImage => FImage | LAudioInput => FAudio | LAudioOutput => FAudioCompletion
  end.

(** A property that is missing is the empty text: the code treats both alike. *)
Record ModelRatioData : Type := {
  md_name : jsstr;
  md_value : NumKey → jsstr;
  md_billingMode : PricingMode;
  md_billingExpr : jsstr;
  md_requestRuleExpr : jsstr
}.

Definition hasValue (value : jsstr) : bool := nonempty value.

Definition ratioToBasePrice (ratio : jsstr) : jsstr :=
  match toNumberOrNull ratio with
  | Some num => formatPricingNumber (num_mul num (num_of_Z 2))
  | None => []
  end.

Definition deriveLanePrice (ratio denominator : jsstr) : jsstr :=
  match toNumberOrNull ratio, toNumberOrNull denominator with
  | Some r, Some d => formatPricingNumber (num_mul r d)
  | _, _ => []
  end.

Record Sheet : Type := {
  sh_pricingMode : PricingMode;
  sh_promptPrice : jsstr;
  sh_lanePrices : LaneKey → jsstr;
  sh_laneEnabled : LaneKey → bool;
  sh_billingExpr : jsstr;
  sh_requestRuleExpr : jsstr;
  sh_name : jsstr;
  sh_values : NumKey → jsstr
}.

(** [createInitialLaneState]. *)
Definition initial_lane_price (data : ModelRatioData) (lane : LaneKey) : jsstr :=
  let promptPrice := ratioToBasePrice (md_value data FRatio) in
  let audioInputPrice := deriveLanePrice (md_value data FAudio) promptPrice in
  match lane with
  | LAudioOutput => deriveLanePrice (md_value data FAudioCompletion) audioInputPrice
  | _ => deriveLanePrice (md_value data (ratioFieldByLane lane)) promptPrice
  end.

(** The effect on [editData]. *)
Definition open_sheet (editData : option ModelRatioData) : Sheet :=
  match editData with
  | None =>
      {| sh_pricingMode := PerToken; sh_promptPrice := []; sh_lanePrices := λ _, [];
         sh_laneEnabled := λ _, false; sh_billingExpr := []; sh_requestRuleExpr := [];
         sh_name := []; sh_values := λ _, [] |}
  | Some data =>
      {| sh_pricingMode :=
           match md_billingMode data with
           | TieredExpr => TieredExpr
           | _ => if nonempty (md_value data FPrice) then PerRequest else PerToken
           end;
         sh_promptPrice := ratioToBasePrice (md_value data FRatio);
         sh_lanePrices := initial_lane_price data;
         sh_laneEnabled := λ lane, hasValue (md_value data (ratioFieldByLane lane));
         sh_billingExpr := md_billingExpr data; sh_requestRuleExpr := md_requestRuleExpr data;
         sh_name := md_name data; sh_values := md_value data |}
  end.

Definition deriveLaneRatio (lane : LaneKey) (price promptPrice : jsstr) (lanePrices : LaneKey → jsstr) : jsstr :=
  match toNumberOrNull price with
  | None => []
  | Some priceNumber =>
      let base := match lane with
                  | LAudioOutput => toNumberOrNull (lanePrices LAudioInput)
                  | _ => toNumberOrNull promptPrice
                  end in
      match base with
      | Some b => if num_eqb b zero then [] else formatPricingNumber (num_div priceNumber b)
      | None => []
      end
  end.

Definition set_values (v : NumKey → jsstr) (sh : Sheet) : Sheet :=
  {| sh_pricingMode := sh_pricingMode sh; sh_promptPrice := sh_promptPrice sh;
     sh_lanePrices := sh_lanePrices sh; sh_laneEnabled := sh_laneEnabled sh;
     sh_billingExpr := sh_billingExpr sh; sh_requestRuleExpr := sh_requestRuleExpr sh;
     sh_name := sh_name sh; sh_values := v |}.

Definition set_lanes (prices : LaneKey → jsstr) (enabled : LaneKey → bool) (sh : Sheet) : Sheet :=
  {| sh_pricingMode := sh_pricingMode sh; sh_promptPrice := sh_promptPrice sh;
     sh_lanePrices := prices; sh_laneEnabled := enabled;
     sh_billingExpr := sh_billingExpr sh; sh_requestRuleExpr := sh_requestRuleExpr sh;
     sh_name := sh_name sh; sh_values := sh_values sh |}.

Definition setFormValue (field : NumKey) (value : jsstr) (sh : Sheet) : Sheet :=
  set_values (set_key field value (sh_values sh)) sh.

(** The loop over [laneConfigs] sets one field after the other. *)
Definition syncLaneRatios (promptPrice : jsstr) (prices : LaneKey → jsstr) (enabled : LaneKey → bool)
    (sh : Sheet) : Sheet :=
  let sh := setFormValue FRatio
              (match toNumberOrNull promptPrice with
               | Some inputPrice => formatPricingNumber (num_div inputPrice (num_of_Z 2))
               | None => []
               end) sh in
  fold_left
    (λ sh key, setFormValue (ratioFieldByLane key)
                 (if enabled key then deriveLaneRatio key (prices key) promptPrice prices else []) sh)
    laneConfigs sh.

(** Digits with an optional point and more digits, or a point and digits, or nothing. *)
Definition numericDraftRegex : regex :=
  rseq [RStart;
        ropt (RGroup 1 (ralt [RSeq (rplus rdigit) (ropt (RGroup 2 (RSeq (RLit ".") (RStar rdigit))));
                              RSeq (RLit ".") (RStar rdigit)]));
        REnd].

Definition handlePromptPriceChange (value : jsstr) (sh : Sheet) : Sheet :=
  if re_test numericDraftRegex value then
    syncLaneRatios value (sh_lanePrices sh) (sh_laneEnabled sh)
      {| sh_pricingMode := sh_pricingMode sh; sh_promptPrice := value;
         sh_lanePrices := sh_lanePrices sh; sh_laneEnabled := sh_laneEnabled sh;
         sh_billingExpr := sh_billingExpr sh; sh_requestRuleExpr := sh_requestRuleExpr sh;
         sh_name := sh_name sh; sh_values := sh_values sh |}
  else sh.

Definition is_audio_input (lane : LaneKey) : bool :=
  match lane with LAudioInput => true | _ => false end.

Definition handleLanePriceChange (lane : LaneKey) (value : jsstr) (sh : Sheet) : Sheet :=
  if re_test numericDraftRegex value then
    let nextLanePrices := set_key lane value (sh_lanePrices sh) in
    let sh := set_lanes nextLanePrices (sh_laneEnabled sh) sh in
    let sh := if sh_laneEnabled sh lane
              then setFormValue (ratioFieldByLane lane)
                     (deriveLaneRatio lane value (sh_promptPrice sh) nextLanePrices) sh
              else sh in
    if is_audio_input lane && sh_laneEnabled sh LAudioOutput
    then setFormValue FAudioCompletion
           (deriveLaneRatio LAudioOutput (nextLanePrices LAudioOutput) (sh_promptPrice sh) nextLanePrices) sh
    else sh
  else sh.

Definition handleLaneToggle (lane : LaneKey) (checked : bool) (sh : Sheet) : Sheet :=
  let nextEnabled := set_key lane checked (sh_laneEnabled sh) in
  if checked then
    let sh := set_lanes (sh_lanePrices sh) nextEnabled sh in
    setFormValue (ratioFieldByLane lane)
      (deriveLaneRatio lane (sh_lanePrices sh lane) (sh_promptPrice sh) (sh_lanePrices sh)) sh
  else
    let nextPrices := set_key lane [] (sh_lanePrices sh) in
    let sh := setFormValue (ratioFieldByLane lane) [] sh in
    if is_audio_input lane then
      set_lanes (set_key LAudioOutput [] nextPrices) (set_key LAudioOutput false nextEnabled)
        (setFormValue FAudioCompletion [] sh)
    else set_lanes nextPrices nextEnabled sh.

Definition DEFAULT_EXPR : jsstr := "tier(\qbase\q, p * 0 + c * 0)".

Definition handlePricingModeChange (nextMode : PricingMode) (sh : Sheet) : Sheet :=
  {| sh_pricingMode := nextMode; sh_promptPrice := sh_promptPrice sh;
     sh_lanePrices := sh_lanePrices sh; sh_laneEnabled := sh_laneEnabled sh;
     sh_billingExpr :=
       match nextMode with
       | TieredExpr => if nonempty (sh_billingExpr sh) then sh_billingExpr sh else DEFAULT_EXPR
       | _ => sh_billingExpr sh
       end;
     sh_requestRuleExpr := sh_requestRuleExpr sh; sh_name := sh_name sh; sh_values := sh_values sh |}.

(** The input of the fixed price. *)
Definition handlePriceInput (value : jsstr) (sh : Sheet) : Sheet :=
  if re_test numericDraftRegex value then setFormValue FPrice value sh else sh.

(** The two tests of [handleSubmit], in order; they are also the warnings. *)
Definition missing_input_price (sh : Sheet) : bool :=
  match sh_pricingMode sh with
  | PerToken =>
      match toNumberOrNull (sh_promptPrice sh) with
      | None => existsb (λ key, sh_laneEnabled sh key && hasValue (sh_lanePrices sh key)) laneConfigs
      | Some _ => false
      end
  | _ => false
  end.

Definition missing_audio_price (sh : Sheet) : bool :=
  match sh_pricingMode sh with
  | PerToken => sh_laneEnabled sh LAudioOutput && negb (hasValue (sh_lanePrices sh LAudioInput))
  | _ => false
  end.

(** The argument of [onSave], or [None] after [form.setError]. *)
Definition handleSubmit (sh : Sheet) : option ModelRatioData :=
  if missing_input_price sh then None
  else if missing_audio_price sh then None
  else
    Some {| md_name := trim (sh_name sh); md_value := sh_values sh;
            md_billingMode := sh_pricingMode sh;
            md_billingExpr := match sh_pricingMode sh with TieredExpr => sh_billingExpr sh | _ => [] end;
            md_requestRuleExpr :=
              match sh_pricingMode sh with TieredExpr => sh_requestRuleExpr sh | _ => [] end |}.

(** ** The options of all models

    Eight options map model names to numbers, one maps them to the billing mode and
    one to the billing expression; each is kept as a JSON text. *)

Inductive OptionKey : Type := OptNum (k : NumKey) | OptMode | OptExpr.

#[export] Instance OptionKey_eq : EqDecision OptionKey.
Proof. solve_decision. Defined.

Abbreviation Texts := (OptionKey → jsstr).
Abbreviation Maps := (OptionKey → list (jsstr * json)).

Definition NUM_KEYS : list NumKey :=
  [FPrice; FRatio; FCache; FCreateCache; FCompletion; FImage; FAudio; FAudioCompletion].
Definition OPTION_KEYS : list OptionKey := map OptNum NUM_KEYS ++ [OptMode; OptExpr].

(** The parsed options; an option that is not an object is not covered. *)
Definition parse_maps (texts : Texts) : option Maps :=
  let parsed := λ k, safeJsonParse (texts k) (JObj []) in
  if forallb (λ k, match parsed k with JObj _ => true | _ => false end) OPTION_KEYS
  then Some (λ k, match parsed k with JObj kvs => kvs | _ => [] end)
  else None.

Definition write_maps (maps : Maps) : Texts := λ k, JSON_stringify_2 (JObj (maps k)).

Definition delete_name (name : jsstr) (maps : Maps) : Maps := λ k, obj_delete name (maps k).

Definition handleDelete (name : jsstr) (texts : Texts) : option Texts :=
  maps ← parse_maps texts;
  Some (write_maps (delete_name name maps)).

Definition set_in (k : OptionKey) (name : jsstr) (v : json) (maps : Maps) : Maps :=
  set_key k (obj_set name v (maps k)) maps.

Definition setIfPresent (k : NumKey) (name value : jsstr) (maps : Maps) : Maps :=
  if nonempty value then
    let parsed := parseFloat value in
    if isFinite parsed then set_in (OptNum k) name (JNum parsed) maps else maps
  else maps.

Definition set_all (keys : list NumKey) (name : jsstr) (data : ModelRatioData) (maps : Maps) : Maps :=
  fold_left (λ maps k, setIfPresent k name (md_value data k) maps) keys maps.

Definition TIERED : jsstr := "tiered_expr".

Definition persist_name (data : ModelRatioData) (maps : Maps) (name : jsstr) : Maps :=
  let maps := delete_name name maps in
  match md_billingMode data with
  | TieredExpr =>
      let combined := combineBillingExpr (md_billingExpr data) (md_requestRuleExpr data) in
      let maps := if nonempty combined
                  then set_in OptExpr name (JStr combined) (set_in OptMode name (JStr TIERED) maps)
                  else maps in
      set_all NUM_KEYS name data maps
  | _ =>
      if nonempty (md_value data FPrice) then setIfPresent FPrice name (md_value data FPrice) maps
      else set_all [FRatio; FCache; FCreateCache; FCompletion; FImage; FAudio; FAudioCompletion] name data maps
  end.

Definition persistPricingData (data : ModelRatioData) (targetNames : list jsstr) (texts : Texts)
    : option Texts :=
  maps ← parse_maps texts;
  Some (write_maps (fold_left (persist_name data) targetNames maps)).

(** *** The rows of the table *)

Record ModelRow : Type := {
  mr_name : jsstr;
  mr_value : NumKey → jsstr;
  mr_billingMode : PricingMode;
  mr_billingExpr : jsstr;
  mr_requestRuleExpr : jsstr;
  mr_hasConflict : bool
}.

(** [map[name]?.toString() || '']. *)
Definition value_text (name : jsstr) (kvs : list (jsstr * json)) : jsstr :=
  match obj_get name kvs with
  | None | Some JNull => []
  | Some j => json_toString j
  end.

Definition is_tiered (v : option json) : bool :=
  match v with Some (JStr s) => str_eqb s TIERED | _ => false end.

(** [billingExprMap[name] || '']; the option holds texts. *)
Definition expr_text (v : option json) : jsstr :=
  match v with Some j => if json_truthy j then json_toString j else [] | None => [] end.

Definition model_row (maps : Maps) (name : jsstr) : exn ModelRow :=
  let value := λ k, value_text name (maps (OptNum k)) in
  if is_tiered (obj_get name (maps OptMode)) then
    r ← splitBillingExprAndRequestRules (expr_text (obj_get name (maps OptExpr)));
    Ok {| mr_name := name; mr_value := value; mr_billingMode := TieredExpr;
          mr_billingExpr := billingExpr r; mr_requestRuleExpr := requestRuleExpr r;
          mr_hasConflict := false |}
  else
    let price := value FPrice in
    Ok {| mr_name := name; mr_value := value;
          mr_billingMode := if nonempty price then PerRequest else PerToken;
          mr_billingExpr := []; mr_requestRuleExpr := [];
          mr_hasConflict :=
            nonempty price
            && existsb (λ k, nonempty (value k))
                 [FRatio; FCompletion; FCache; FCreateCache; FImage; FAudio; FAudioCompletion] |}.

(** The names of all options, each once; [Object.keys] of each in turn. *)
Definition model_names (maps : Maps) : list jsstr :=
  str_dedup (flat_map (λ k, object_keys (maps k)) OPTION_KEYS).

Fixpoint all_rows (maps : Maps) (names : list jsstr) : exn (list ModelRow) :=
  match names with
  | [] => Ok []
  | name :: rest => r ← model_row maps name; rs ← all_rows maps rest; Ok (r :: rs)
  end.

(** The order of strings by locale is [locale_leb]. *)
Definition models (locale_leb : jsstr → jsstr → bool) (maps : Maps) : exn (list ModelRow) :=
  rows ← all_rows maps (model_names maps);
  Ok (js_sort (λ a b, locale_leb (mr_name a) (mr_name b)) rows).

Definition handleEdit (row : ModelRow) : ModelRatioData :=
  {| md_name := mr_name row; md_value := mr_value row;
     md_billingMode := match mr_billingMode row with
                       | TieredExpr => TieredExpr
                       | _ => if nonempty (mr_value row FPrice) then PerRequest else PerToken
                       end;
     md_billingExpr := mr_billingExpr row; md_requestRuleExpr := mr_requestRuleExpr row |}.

(** [modeCounts], in the order per token, per request, expression. *)
Definition modeCounts (rows : list ModelRow) : nat * nat * nat :=
  fold_left
    (λ '(t, r, e) row, match mr_billingMode row with
                       | PerRequest => (t, S r, e)
                       | TieredExpr => (t, r, S e)
                       | PerToken => (S t, r, e)
                       end) rows (0, 0, 0).
