(* ===== verification/PricingSettingsTheorems.v ===== *)
(** * Theorems on the price settings

    The ratios of the sheet follow the prices that are shown; what is saved for a
    model is given exactly; and saved settings are read back from their texts. *)
From Stdlib Require Import NArith ZArith SpecFloat.
From stdpp Require Import list numbers.
From S2P Require Import Prelude JsString Regex JsNumber Json JsArray JsonRoundtrip JsonIndent BillingExpr Pricing.
From S2P Require Import PricingSettings.

(** ** Keys *)

Lemma set_key_eq {K A} `{EqDecision K} (k : K) (v : A) f : set_key k v f k = v.
Proof. unfold set_key. by rewrite decide_True. Qed.

Lemma set_key_ne {K A} `{EqDecision K} (k k' : K) (v : A) f : k' ≠ k → set_key k v f k' = f k'.
Proof. intros H. unfold set_key. by rewrite decide_False. Qed.

(** ** The sheet *)

(** The ratio the form has to hold for a lane. *)
Definition lane_ratio (sh : Sheet) (lane : LaneKey) : jsstr :=
  if sh_laneEnabled sh lane
  then deriveLaneRatio lane (sh_lanePrices sh lane) (sh_promptPrice sh) (sh_lanePrices sh)
  else [].

Definition base_ratio (promptPrice : jsstr) : jsstr :=
  match toNumberOrNull promptPrice with
  | Some inputPrice => formatPricingNumber (num_div inputPrice (num_of_Z 2))
  | None => []
  end.

(** The form holds the ratios of the prices shown. *)
Definition synced (sh : Sheet) : Prop :=
  sh_values sh FRatio = base_ratio (sh_promptPrice sh)
  ∧ ∀ lane, sh_values sh (ratioFieldByLane lane) = lane_ratio sh lane.

(** The events of the sheet. *)
Inductive SheetEvent : Type :=
| EvPrompt (value : jsstr)
| EvLanePrice (lane : LaneKey) (value : jsstr)
| EvLaneToggle (lane : LaneKey) (checked : bool)
| EvMode (mode : PricingMode)
| EvPrice (value : jsstr).

Definition sheet_event (sh : Sheet) (e : SheetEvent) : Sheet :=
  match e with
  | EvPrompt value => handlePromptPriceChange value sh
  | EvLanePrice lane value => handleLanePriceChange lane value sh
  | EvLaneToggle lane checked => handleLaneToggle lane checked sh
  | EvMode mode => handlePricingModeChange mode sh
  | EvPrice value => handlePriceInput value sh
  end.

Lemma lane_field_inj l l' : ratioFieldByLane l = ratioFieldByLane l' → l = l'.
Proof. by destruct l, l'. Qed.

Lemma lane_field_ratio l : ratioFieldByLane l ≠ FRatio ∧ ratioFieldByLane l ≠ FPrice.
Proof. by destruct l. Qed.

Lemma sync_synced prompt prices enabled sh :
  sh_promptPrice sh = prompt → sh_lanePrices sh = prices → sh_laneEnabled sh = enabled →
  synced (syncLaneRatios prompt prices enabled sh).
Proof.
  intros <- <- <-. unfold syncLaneRatios, laneConfigs. cbn [fold_left].
  split; [done|]. intros []; reflexivity.
Qed.

Lemma synced_prompt value sh : synced sh → synced (handlePromptPriceChange value sh).
Proof. intros H. unfold handlePromptPriceChange. destruct (re_test _ _); [|done]. by apply sync_synced. Qed.

(** Decide the switches of the lanes, then compare by computation. *)
Ltac lane_cases sh :=
  cbn -[deriveLaneRatio];
  repeat (match goal with
  | |- context [sh_laneEnabled sh ?l] => let E := fresh "E" in destruct (sh_laneEnabled sh l) eqn:E
  end; cbn -[deriveLaneRatio]).

(** A new price of a lane; that of the audio input also changes the ratio of the
    audio output. *)
Lemma synced_lane_price lane value sh : synced sh → synced (handleLanePriceChange lane value sh).
Proof.
  intros [Hr H]. unfold handleLanePriceChange. destruct (re_test _ _); [|done]. split.
  - destruct lane; lane_cases sh; exact Hr.
  - intros l. specialize (H l). unfold lane_ratio in *.
    destruct lane, l; cbn -[deriveLaneRatio] in H; lane_cases sh;
      first [reflexivity | exact H | congruence].
Qed.

(** Switching the audio input off also switches the audio output off. *)
Lemma synced_toggle lane checked sh : synced sh → synced (handleLaneToggle lane checked sh).
Proof.
  intros [Hr H]. unfold handleLaneToggle. split.
  - destruct checked, lane; exact Hr.
  - intros l. specialize (H l). unfold lane_ratio in *.
    destruct checked, lane, l; cbn -[deriveLaneRatio] in H; lane_cases sh;
      first [reflexivity | exact H | congruence].
Qed.

Lemma synced_event sh e : synced sh → synced (sheet_event sh e).
Proof.
  intros H. destruct e as [v|l v|l b|m|v]; cbn [sheet_event].
  - by apply synced_prompt.
  - by apply synced_lane_price.
  - by apply synced_toggle.
  - exact H.
  - unfold handlePriceInput. destruct (re_test _ _); [|done]. destruct H as [Hr Hl]. split; [exact Hr|].
    intros l. specialize (Hl l). by destruct l.
Qed.

Definition sheet_events (es : list SheetEvent) (sh : Sheet) : Sheet := fold_left sheet_event es sh.

Lemma synced_events es sh : synced sh → synced (sheet_events es sh).
Proof. revert sh; induction es as [|e es IH]; intros sh H; [done|]. by apply IH, synced_event. Qed.

Lemma derive_no_price lane prompt prices : deriveLaneRatio lane [] prompt prices = [].
Proof. done. Qed.

Lemma derive_no_base lane price prices :
  lane ≠ LAudioOutput → ∀ prompt, toNumberOrNull prompt = None → deriveLaneRatio lane price prompt prices = [].
Proof. intros Hl prompt Hp. unfold deriveLaneRatio. destruct (toNumberOrNull price); [|done]. destruct lane; by rewrite ?Hp. Qed.

(** The ratios saved for a model follow the prices that are shown.  In a sheet
    for a new model, whatever the user does, every lane's ratio is the one of its
    price and of the base price, or empty for a lane switched off; and a sheet
    without a base price is only saved without any ratio. *)
Theorem sheet_ratios_follow_prices es :
  let sh := sheet_events es (open_sheet None) in
  synced sh
  ∧ ∀ data, handleSubmit sh = Some data → sh_pricingMode sh = PerToken →
    toNumberOrNull (sh_promptPrice sh) = None → ∀ lane, md_value data (ratioFieldByLane lane) = [].
Proof.
  intros sh. assert (Hs : synced sh) by (apply synced_events; by split). split; [done|].
  intros data Hd Hm Hp lane. unfold handleSubmit in Hd.
  destruct (missing_input_price sh) eqn:Ei; [done|]. destruct (missing_audio_price sh) eqn:Ea; [done|].
  injection Hd as <-. cbn [md_value]. rewrite (proj2 Hs). unfold lane_ratio.
  destruct (sh_laneEnabled sh lane) eqn:El; [|done].
  unfold missing_input_price in Ei. rewrite Hm, Hp in Ei.
  assert (Hv : hasValue (sh_lanePrices sh lane) = false).
  { apply not_true_is_false. intros Hv. apply not_true_iff_false in Ei. apply Ei, existsb_exists.
    exists lane. split; [destruct lane; cbn; tauto|]. by rewrite El, Hv. }
  destruct (sh_lanePrices sh lane); [|done]. apply derive_no_price.
Qed.

(** In the sheet of any model the same holds from the first accepted change
    of the base price on. *)
Theorem sheet_synced_after_base_price sh value es :
  re_test numericDraftRegex value = true →
  synced (sheet_events es (handlePromptPriceChange value sh)).
Proof.
  intros Hv. apply synced_events. unfold handlePromptPriceChange. rewrite Hv. by apply sync_synced.
Qed.

(** ** The options *)

(** What is stored for a target of the saved data: the entry of each option. *)
Definition num_entry (value : jsstr) : option json :=
  if nonempty value && isFinite (parseFloat value) then Some (JNum (parseFloat value)) else None.

Definition combined_expr (data : ModelRatioData) : jsstr :=
  combineBillingExpr (md_billingExpr data) (md_requestRuleExpr data).

(** The fields that are kept: all of them beside an expression, else only the fixed
    price if there is one, else the ratios. *)
Definition kept (data : ModelRatioData) (k : NumKey) : bool :=
  match md_billingMode data with
  | TieredExpr => true
  | _ => if nonempty (md_value data FPrice) then bool_decide (k = FPrice) else bool_decide (k ≠ FPrice)
  end.

Definition has_expr (data : ModelRatioData) : bool :=
  match md_billingMode data with TieredExpr => nonempty (combined_expr data) | _ => false end.

Definition target (data : ModelRatioData) (k : OptionKey) : option json :=
  match k with
  | OptNum k => if kept data k then num_entry (md_value data k) else None
  | OptMode => if has_expr data then Some (JStr TIERED) else None
  | OptExpr => if has_expr data then Some (JStr (combined_expr data)) else None
  end.

Lemma get_set_in k k' n name v maps :
  obj_get n (set_in k name v maps k')
  = if decide (k' = k) then (if str_eqb n name then Some v else obj_get n (maps k)) else obj_get n (maps k').
Proof. unfold set_in, set_key. destruct (decide (k' = k)); [apply obj_get_set|done]. Qed.

Lemma get_present k k' n name value maps :
  obj_get n (setIfPresent k name value maps k')
  = if decide (k' = OptNum k)
    then (if str_eqb n name then match num_entry value with Some j => Some j | None => obj_get n (maps k') end
          else obj_get n (maps k'))
    else obj_get n (maps k').
Proof.
  unfold setIfPresent, num_entry. destruct (nonempty value), (isFinite (parseFloat value)); cbn [andb];
    rewrite ?get_set_in; destruct (decide (k' = OptNum k)) as [->|]; by destruct (str_eqb n name).
Qed.

Lemma get_all keys data k' n name maps :
  NoDup keys →
  obj_get n (set_all keys name data maps k')
  = match k' with
    | OptNum k => if bool_decide (k ∈ keys) && str_eqb n name
                  then match num_entry (md_value data k) with Some j => Some j | None => obj_get n (maps k') end
                  else obj_get n (maps k')
    | _ => obj_get n (maps k')
    end.
Proof.
  unfold set_all. revert maps. induction keys as [|k keys IH]; intros maps Hd; cbn [fold_left].
  - destruct k' as [k| |]; [|done|done]. by rewrite bool_decide_false by (by intros ?%not_elem_of_nil).
  - apply list.NoDup_cons in Hd as [Hk Hd]. rewrite IH by done. rewrite get_present.
    destruct k' as [q| |]; [|by rewrite decide_False..].
    destruct (decide (q = k)) as [->|Hne].
    + rewrite (bool_decide_false (k ∈ keys)) by done. rewrite bool_decide_true by left. cbn [andb].
      by rewrite decide_True.
    + rewrite (decide_False (P := OptNum q = OptNum k)) by congruence.
      rewrite (bool_decide_ext (q ∈ k :: keys) (q ∈ keys)); [done|]. rewrite elem_of_cons. tauto.
Qed.

Lemma get_delete k n name maps :
  obj_get n (delete_name name maps k) = if str_eqb n name then None else obj_get n (maps k).
Proof. apply obj_get_delete. Qed.

Definition RATIO_KEYS : list NumKey :=
  [FRatio; FCache; FCreateCache; FCompletion; FImage; FAudio; FAudioCompletion].

Lemma num_keys_nodup : NoDup NUM_KEYS ∧ NoDup RATIO_KEYS.
Proof. split; apply (bool_decide_unpack _); reflexivity. Qed.

Lemma num_keys_all k : k ∈ NUM_KEYS.
Proof. apply (bool_decide_unpack _). by destruct k. Qed.

Lemma ratio_keys_all k : k ∈ RATIO_KEYS ↔ k ≠ FPrice.
Proof.
  split; [|intros H; apply (bool_decide_unpack _); by destruct k].
  intros H ->. by apply (bool_decide_pack _) in H.
Qed.

(** Without an expression: the price if there is one, else the ratios. *)
Lemma get_plain data maps name n k :
  obj_get n ((if nonempty (md_value data FPrice)
              then setIfPresent FPrice name (md_value data FPrice) (delete_name name maps)
              else set_all RATIO_KEYS name data (delete_name name maps)) k)
  = if str_eqb n name then
      match k with
      | OptNum k => if (if nonempty (md_value data FPrice) then bool_decide (k = FPrice) else bool_decide (k ≠ FPrice))
                    then num_entry (md_value data k) else None
      | _ => None
      end
    else obj_get n (maps k).
Proof.
  destruct num_keys_nodup as [_ Hr]. destruct (nonempty (md_value data FPrice)).
  - rewrite get_present, get_delete. destruct (str_eqb n name); [|by destruct (decide _)].
    destruct k as [q| |]; [|by rewrite decide_False..]. destruct (decide (q = FPrice)) as [->|Hne].
    + rewrite decide_True, bool_decide_true by done. by destruct (num_entry _).
    + by rewrite decide_False, bool_decide_false by congruence.
  - rewrite get_all, get_delete by done. destruct k as [q| |]; [|done|done].
    rewrite (bool_decide_ext (q ∈ RATIO_KEYS) (q ≠ FPrice)) by apply ratio_keys_all.
    destruct (str_eqb n name); [|by rewrite andb_false_r]. rewrite andb_true_r.
    destruct (bool_decide (q ≠ FPrice)); [|done]. by destruct (num_entry _).
Qed.

Lemma get_tiered data maps name n k :
  md_billingMode data = TieredExpr →
  obj_get n (persist_name data maps name k) = if str_eqb n name then target data k else obj_get n (maps k).
Proof.
  intros Hm. destruct num_keys_nodup as [Hn _]. unfold persist_name, target, kept, has_expr.
  fold (combined_expr data). rewrite Hm, get_all by done.
  assert (E : obj_get n ((if nonempty (combined_expr data)
                          then set_in OptExpr name (JStr (combined_expr data))
                                 (set_in OptMode name (JStr TIERED) (delete_name name maps))
                          else delete_name name maps) k)
              = if str_eqb n name then match k with OptNum _ => None | _ => target data k end
                else obj_get n (maps k)).
  { unfold target, has_expr. rewrite Hm.
    destruct (nonempty (combined_expr data)); rewrite ?get_set_in, ?get_delete;
      destruct k as [q| |]; cbn [decide decide_rel]; destruct (str_eqb n name); reflexivity. }
  rewrite E. destruct k as [q| |].
  - rewrite bool_decide_true by apply num_keys_all. cbn [andb]. destruct (str_eqb n name); [|done].
    by destruct (num_entry _).
  - unfold target, has_expr. by rewrite Hm.
  - unfold target, has_expr. by rewrite Hm.
Qed.

(** One target. *)
Lemma get_persist data maps name n k :
  obj_get n (persist_name data maps name k) = if str_eqb n name then target data k else obj_get n (maps k).
Proof.
  destruct (md_billingMode data) eqn:Hm; [| |by apply get_tiered];
    unfold persist_name, target, kept, has_expr; rewrite Hm; rewrite get_plain; by destruct k.
Qed.

(** All targets. *)
Lemma get_persist_all data names maps n k :
  obj_get n (fold_left (persist_name data) names maps k)
  = if str_mem n names then target data k else obj_get n (maps k).
Proof.
  revert maps. induction names as [|x names IH]; intros maps; [done|]. cbn [fold_left].
  rewrite IH, get_persist. unfold str_mem, mem. cbn [existsb].
  destruct (existsb (str_eqb n) names); [by rewrite orb_true_r|]. rewrite orb_false_r. done.
Qed.

(** *** The texts of the options *)

Lemma safe_parse_indented kvs :
  wf_fields kvs = true → safeJsonParse (JSON_stringify_2 (JObj kvs)) (JObj []) = JObj kvs.
Proof.
  intros Hw. unfold safeJsonParse. rewrite indented_trimmed, JSON_parse_stringify_2 by done.
  assert (E : nonempty (JSON_stringify_2 (JObj kvs)) = true) by (by destruct kvs). by rewrite E.
Qed.

Lemma parse_write maps :
  (∀ k, wf_fields (maps k) = true) →
  ∃ maps', parse_maps (write_maps maps) = Some maps' ∧ ∀ k, maps' k = maps k.
Proof.
  intros Hw. unfold parse_maps, write_maps. rewrite (proj2 (forallb_forall _ _)).
  - eexists. split; [reflexivity|]. intros k. cbv beta. by rewrite safe_parse_indented.
  - intros k _. by rewrite safe_parse_indented.
Qed.

(** Names and values that a JSON text gives back. *)
Definition name_ok (name : jsstr) : bool := units_ok name && no_index name.

Definition data_ok (data : ModelRatioData) : bool :=
  forallb (λ k, match num_entry (md_value data k) with Some (JNum x) => num_ok x | _ => true end) NUM_KEYS
  && units_ok (combined_expr data).

Definition wf_maps (maps : Maps) : Prop := ∀ k, wf_fields (maps k) = true.

Lemma wf_set_in k name v maps :
  name_ok name = true → wf_json v = true → wf_maps maps → wf_maps (set_in k name v maps).
Proof.
  unfold name_ok. intros Hn Hv Hm k'. apply andb_prop in Hn as [Hu Hi]. unfold set_in, set_key.
  destruct (decide (k' = k)); [by apply wf_fields_set|apply Hm].
Qed.

Lemma wf_present data k name maps :
  data_ok data = true → name_ok name = true → wf_maps maps →
  wf_maps (setIfPresent k name (md_value data k) maps).
Proof.
  unfold data_ok. intros Hd Hn Hm. apply andb_prop in Hd as [Hd _]. rewrite forallb_forall in Hd.
  specialize (Hd k (proj1 (list_elem_of_In _ _) (num_keys_all k))). unfold setIfPresent.
  unfold num_entry in Hd. destruct (nonempty _); [|done]. destruct (isFinite _); [|done].
  by apply wf_set_in.
Qed.

Lemma wf_all keys data name maps :
  data_ok data = true → name_ok name = true → wf_maps maps → wf_maps (set_all keys name data maps).
Proof.
  intros Hd Hn. unfold set_all. revert maps. induction keys as [|k keys IH]; intros maps Hm; [done|].
  cbn [fold_left]. by apply IH, wf_present.
Qed.

Lemma wf_persist data name maps :
  data_ok data = true → name_ok name = true → wf_maps maps → wf_maps (persist_name data maps name).
Proof.
  intros Hd Hn Hm. assert (H0 : wf_maps (delete_name name maps)) by (intros k; by apply wf_fields_delete).
  unfold persist_name. fold (combined_expr data).
  assert (Hc : units_ok (combined_expr data) = true) by (unfold data_ok in Hd; by apply andb_prop in Hd as [_ Hd]).
  destruct (md_billingMode data).
  1, 2: destruct (nonempty (md_value data FPrice)); [by apply wf_present|by apply wf_all].
  apply wf_all; [done|done|]. destruct (nonempty (combined_expr data)); [|done].
  apply wf_set_in; [done|done|]. by apply wf_set_in.
Qed.

Lemma wf_persist_all data names maps :
  data_ok data = true → forallb name_ok names = true → wf_maps maps →
  wf_maps (fold_left (persist_name data) names maps).
Proof.
  intros Hd. revert maps. induction names as [|n names IH]; intros maps Hn Hm; [done|].
  cbn [forallb fold_left] in *. apply andb_prop in Hn as [H1 Hn]. apply IH; [done|]. by apply wf_persist.
Qed.

(** Saving, as texts. *)
Lemma persist_texts data names texts maps :
  parse_maps texts = Some maps → wf_maps maps → data_ok data = true → forallb name_ok names = true →
  ∃ texts' maps', persistPricingData data names texts = Some texts' ∧ parse_maps texts' = Some maps'
  ∧ ∀ n k, obj_get n (maps' k) = if str_mem n names then target data k else obj_get n (maps k).
Proof.
  intros Hp Hm Hd Hn. unfold persistPricingData. rewrite Hp. cbn [mbind option_bind].
  destruct (parse_write (fold_left (persist_name data) names maps)) as (maps' & Hw & He).
  { by apply wf_persist_all. }
  eexists _, maps'. split_and!; [reflexivity|done|]. intros n k. rewrite He. apply get_persist_all.
Qed.

(** *** Rows *)

(** The text is the one its number prints as. *)
Definition canonical_value (v : jsstr) : bool :=
  negb (nonempty v) || (isFinite (parseFloat v) && str_eqb (Number_toString (parseFloat v)) v).

(** Data as the table hands it to the sheet: only fields that are kept, an
    expression exactly in the expression mode, and the mode the price implies. *)
Definition consistent (data : ModelRatioData) : Prop :=
  (∀ k, canonical_value (md_value data k) = true) ∧ (∀ k, kept data k = false → md_value data k = [])
  ∧ match md_billingMode data with
    | TieredExpr =>
        nonempty (combined_expr data) = true
        ∧ splitBillingExprAndRequestRules (combined_expr data)
          = Ok {| billingExpr := md_billingExpr data; requestRuleExpr := md_requestRuleExpr data |}
    | mode => md_billingExpr data = [] ∧ md_requestRuleExpr data = []
              ∧ mode = if nonempty (md_value data FPrice) then PerRequest else PerToken
    end.

Definition same_data (d d' : ModelRatioData) : Prop :=
  md_name d = md_name d' ∧ (∀ k, md_value d k = md_value d' k) ∧ md_billingMode d = md_billingMode d'
  ∧ md_billingExpr d = md_billingExpr d' ∧ md_requestRuleExpr d = md_requestRuleExpr d'.

Lemma value_entry v name kvs :
  canonical_value v = true → obj_get name kvs = num_entry v → value_text name kvs = v.
Proof.
  unfold canonical_value, num_entry, value_text. intros Hc ->.
  destruct (nonempty v) eqn:En; cbn [negb orb andb] in *; [|by destruct v].
  apply andb_prop in Hc as [Hf Ht]. rewrite Hf. cbn [json_toString]. by apply str_eqb_eq in Ht.
Qed.

(** The values of a saved model are the values of the data. *)
Lemma saved_values data maps name :
  consistent data → (∀ k, obj_get name (maps k) = target data k) →
  ∀ k, value_text name (maps (OptNum k)) = md_value data k.
Proof.
  intros (Hc & Hk & _) Hg k. specialize (Hg (OptNum k)). cbn [target] in Hg.
  destruct (kept data k) eqn:E; [by apply value_entry|]. unfold value_text. by rewrite Hg, Hk.
Qed.

Lemma saved_row data maps :
  consistent data → (∀ k, obj_get (md_name data) (maps k) = target data k) →
  ∃ row, model_row maps (md_name data) = Ok row ∧ same_data (handleEdit row) data.
Proof.
  intros Hc Hg. pose proof (saved_values data maps _ Hc Hg) as Hv. destruct Hc as (_ & _ & Hm).
  unfold model_row. rewrite (Hg OptMode), (Hg OptExpr). cbn [target]. unfold has_expr.
  destruct (md_billingMode data) eqn:Em.
  1, 2: destruct Hm as (E1 & E2 & E3); cbn [is_tiered]; eexists; split; [reflexivity|];
    unfold same_data, handleEdit; cbn -[value_text]; split_and!; [done|exact Hv| |done|done];
    rewrite Hv; by destruct (nonempty (md_value data FPrice)).
  destruct Hm as [Hn Hs]. rewrite Hn. cbn [is_tiered expr_text json_truthy json_toString]. rewrite str_eqb_refl, Hn.
  rewrite Hs. cbn [mbind exn_bind]. eexists. split; [reflexivity|]. unfold same_data. cbn -[value_text].
  by split_and!.
Qed.

Lemma kept_row maps maps' name :
  (∀ k, obj_get name (maps' k) = obj_get name (maps k)) →
  ∀ row, model_row maps name = Ok row → ∃ row', model_row maps' name = Ok row' ∧ same_data (handleEdit row') (handleEdit row).
Proof.
  intros Hg row. assert (Hv : ∀ k, value_text name (maps' k) = value_text name (maps k))
    by (intros k; unfold value_text; by rewrite Hg).
  unfold model_row. rewrite !Hg. destruct (is_tiered _).
  - destruct (splitBillingExprAndRequestRules _) as [r|]; [|done]. cbn [mbind exn_bind]. intros [= <-].
    eexists. split; [reflexivity|]. unfold same_data. cbn -[value_text]. by split_and!.
  - intros [= <-]. eexists. split; [reflexivity|]. unfold same_data, handleEdit. cbn -[value_text].
    split_and!; try done. by rewrite !Hv.
Qed.

(** ** The properties *)

(** Settings with one model, and data for another. *)
Definition sample_texts : Texts :=
  λ k, match k with OptNum FPrice => "{\qimage-model\q: 0.5}" | OptExpr => [] | _ => "{}" end.

Definition sample_maps : Maps :=
  λ k, match k with OptNum FPrice => [("image-model", JNum (num_of_decimal false 5 (-1)))] | _ => [] end.

Definition sample_values (k : NumKey) : jsstr :=
  match k with FRatio => "1.5" | FCompletion => "4" | _ => [] end.

Definition sample_data : ModelRatioData :=
  {| md_name := "chat-model"; md_value := sample_values; md_billingMode := PerToken;
     md_billingExpr := []; md_requestRuleExpr := [] |}.

Definition fixed_data : ModelRatioData :=
  {| md_name := "image-model"; md_value := λ k, match k with FPrice => "0.5" | _ => [] end;
     md_billingMode := PerRequest; md_billingExpr := []; md_requestRuleExpr := [] |}.

Lemma sample_wf : wf_maps sample_maps.
Proof. intros [[]| |]; vm_compute; reflexivity. Qed.

Lemma sample_consistent : consistent sample_data.
Proof. split; [by intros []|]. split; [by intros []|done]. Qed.

Lemma sample_parsed : ∃ maps, parse_maps sample_texts = Some maps ∧ ∀ k, maps k = sample_maps k.
Proof.
  unfold parse_maps. rewrite (proj2 (forallb_forall _ _)) by (intros [[]| |] _; vm_compute; reflexivity).
  eexists. split; [reflexivity|]. intros [[]| |]; vm_compute; reflexivity.
Qed.

(** C24: saving writes exactly the entries of [target].  For every target model, in the
    tiered mode all numbers that are given are stored, with the mode and the expression
    unless that is empty; in the other modes a price text that is not empty is stored alone,
    if it is a number, and the ratios given beside it are dropped, and without one the
    given ratios are stored; whatever is not stored by this is removed.  All other models
    keep their entries, and the texts written are read back.  The stored options are
    objects, names are no array indices, and names, numbers and the expression are ones a
    JSON text gives back. *)
Theorem persist_exact data names texts maps :
  parse_maps texts = Some maps → wf_maps maps → data_ok data = true → forallb name_ok names = true →
  ∃ texts' maps', persistPricingData data names texts = Some texts' ∧ parse_maps texts' = Some maps'
  ∧ ∀ n k, obj_get n (maps' k) = if str_mem n names then target data k else obj_get n (maps k).
Proof. apply persist_texts. Qed.

Lemma persist_exact_witness :
  ∃ texts' maps', persistPricingData sample_data ["a"; "b"] sample_texts = Some texts'
  ∧ parse_maps texts' = Some maps'
  ∧ obj_get "b" (maps' (OptNum FCompletion)) = Some (JNum (num_of_Z 4))
  ∧ obj_get "image-model" (maps' (OptNum FPrice)) = Some (JNum (num_of_decimal false 5 (-1))).
Proof.
  destruct sample_parsed as (maps & Hp & He).
  destruct (persist_exact sample_data ["a"; "b"] sample_texts maps) as (texts' & maps' & H1 & H2 & Hg).
  - exact Hp.
  - intros k. rewrite He. apply sample_wf.
  - vm_compute. reflexivity.
  - vm_compute. reflexivity.
  - exists texts', maps'. rewrite !Hg, !He. split; [exact H1|]. split; [exact H2|]. split; vm_compute; reflexivity.
Defined.

(** A saved model opens as it was saved.  After saving consistent data, the row
    of the table gives the sheet the same data again, and the rows of the other
    models are what they were. *)
Theorem save_then_edit data texts maps :
  parse_maps texts = Some maps → wf_maps maps → data_ok data = true → name_ok (md_name data) = true →
  consistent data →
  ∃ texts' maps', persistPricingData data [md_name data] texts = Some texts' ∧ parse_maps texts' = Some maps'
  ∧ (∃ row, model_row maps' (md_name data) = Ok row ∧ same_data (handleEdit row) data)
  ∧ ∀ name row, name ≠ md_name data → model_row maps name = Ok row →
    ∃ row', model_row maps' name = Ok row' ∧ same_data (handleEdit row') (handleEdit row).
Proof.
  intros Hp Hm Hd Hn Hc.
  destruct (persist_texts data [md_name data] texts maps) as (texts' & maps' & H1 & H2 & Hg);
    [done|done|done|by cbn [forallb]; rewrite Hn|].
  exists texts', maps'. split_and!; [done|done| |].
  - apply saved_row; [done|]. intros k. rewrite Hg. unfold str_mem, mem. cbn [existsb]. by rewrite str_eqb_refl.
  - intros name row Hne. apply kept_row. intros k. rewrite Hg. unfold str_mem, mem. cbn [existsb].
    by rewrite (proj2 (str_eqb_neq _ _) Hne).
Qed.

Lemma save_then_edit_witness :
  ∃ texts' maps' row, persistPricingData sample_data ["chat-model"] sample_texts = Some texts'
  ∧ parse_maps texts' = Some maps' ∧ model_row maps' "chat-model" = Ok row
  ∧ same_data (handleEdit row) sample_data.
Proof.
  destruct sample_parsed as (maps & Hp & He).
  destruct (save_then_edit sample_data sample_texts maps) as (texts' & maps' & H1 & H2 & (row & H3 & H4) & _).
  - exact Hp.
  - intros k. rewrite He. apply sample_wf.
  - vm_compute. reflexivity.
  - vm_compute. reflexivity.
  - apply sample_consistent.
  - exists texts', maps', row. exact (conj H1 (conj H2 (conj H3 H4))).
Defined.

(** The data submitted after a switch to token prices still has the fixed price. *)
Lemma switched_data data value d :
  handleSubmit (sheet_events [EvMode PerToken; EvPrompt value] (open_sheet (Some data))) = Some d →
  md_billingMode d = PerToken ∧ md_value d FPrice = md_value data FPrice.
Proof.
  cbn [sheet_events fold_left sheet_event]. unfold handlePromptPriceChange, handleSubmit.
  set (sh := if re_test numericDraftRegex value then _ else _).
  assert (H : sh_pricingMode sh = PerToken ∧ sh_values sh FPrice = md_value data FPrice).
  { unfold sh. destruct (re_test _ _); by split. }
  destruct H as [H1 H2]. clearbody sh. destruct (missing_input_price sh); [done|].
  destruct (missing_audio_price sh); [done|]. intros [= <-]. rewrite H1. by split.
Qed.

(** A model with a fixed price stays one.  When the sheet of such a model is
    switched to token prices and a base price is entered, submitting and saving
    stores the fixed price again and none of the ratios. *)
Theorem switch_to_tokens_lost data value d texts maps :
  nonempty (md_value data FPrice) = true →
  handleSubmit (sheet_events [EvMode PerToken; EvPrompt value] (open_sheet (Some data))) = Some d →
  parse_maps texts = Some maps → wf_maps maps → data_ok d = true → name_ok (md_name d) = true →
  ∃ texts' maps', persistPricingData d [md_name d] texts = Some texts' ∧ parse_maps texts' = Some maps'
  ∧ obj_get (md_name d) (maps' (OptNum FPrice)) = num_entry (md_value data FPrice)
  ∧ ∀ k, k ≠ FPrice → obj_get (md_name d) (maps' (OptNum k)) = None.
Proof.
  intros Hn Hs Hp Hm Hd Hname. destruct (switched_data _ _ _ Hs) as [H1 H2].
  destruct (persist_texts d [md_name d] texts maps) as (texts' & maps' & E1 & E2 & Hg);
    [done|done|done|by cbn [forallb]; rewrite Hname|].
  assert (Ht : ∀ k, obj_get (md_name d) (maps' k) = target d k).
  { intros k. rewrite Hg. unfold str_mem, mem. cbn [existsb]. by rewrite str_eqb_refl. }
  exists texts', maps'. split_and!; [done|done| |].
  - rewrite Ht. unfold target, kept. by rewrite H1, H2, Hn.
  - intros k Hk. rewrite Ht. unfold target, kept. by rewrite H1, H2, Hn, bool_decide_false.
Qed.

Lemma switch_to_tokens_lost_witness :
  ∃ d texts' maps',
    handleSubmit (sheet_events [EvMode PerToken; EvPrompt "3"] (open_sheet (Some fixed_data))) = Some d
  ∧ md_value d FRatio = "1.5"
  ∧ persistPricingData d [md_name d] sample_texts = Some texts' ∧ parse_maps texts' = Some maps'
  ∧ obj_get (md_name d) (maps' (OptNum FRatio)) = None.
Proof.
  destruct sample_parsed as (maps & Hp & He).
  destruct (handleSubmit (sheet_events [EvMode PerToken; EvPrompt "3"] (open_sheet (Some fixed_data)))) as [d|] eqn:E;
    [|vm_compute in E; discriminate].
  destruct (switch_to_tokens_lost fixed_data "3" d sample_texts maps) as (texts' & maps' & H1 & H2 & _ & H4).
  - reflexivity.
  - exact E.
  - exact Hp.
  - intros k. rewrite He. apply sample_wf.
  - injection E as <-. vm_compute. reflexivity.
  - injection E as <-. vm_compute. reflexivity.
  - exists d, texts', maps'. split; [reflexivity|]. split; [injection E as <-; vm_compute; reflexivity|].
    refine (conj H1 (conj H2 (H4 FRatio _))). discriminate.
Defined.
