(* ===== verification/StatusCodes.v ===== *)
(** * HTTP status codes

    [lib/http-status-code-rules.ts], the parser of the automatic-retry and
    automatic-disable rules, and
    [features/channels/lib/status-code-risk-guard.ts], the checks on a channel's
    status-code mapping. *)
From Stdlib Require Import NArith ZArith Sorting.Sorted Sorting.Permutation.
From stdpp Require Import list numbers.
From S2P Require Import Prelude JsString JsNumber Json JsArray.

Module StatusRules.

(** Codes are integers between 100 and 599 wherever a range is built, exact as
    JavaScript numbers. *)
Record StatusCodeRange : Type := { start : Z; end_ : Z }.

Record ParsedHttpStatusCodeRules : Type := {
  ok : bool;
  ranges : list StatusCodeRange;
  tokens : list jsstr;
  normalized : jsstr;
  invalidTokens : list jsstr
}.

Definition isNumber (s : jsstr) : bool := nonempty s && forallb is_digit s.

(** [Number.parseInt(s, 10)] of a string of digits, as the exact integer.  The
    number it denotes is the nearest binary64 value (infinite for very long
    strings); rounding keeps the order, so the two tests of [isValidCode] below
    have the same outcome, and up to 599 the value is exact. *)
Definition parseInt_digits (s : jsstr) : Z := Z.of_N (dec_value s).

Definition isValidCode (code : Z) : bool := (100 <=? code)%Z && (code <=? 599)%Z.

Definition parseToken (token : jsstr) : option StatusCodeRange :=
  let cleaned := List.filter (λ c, negb (is_space c)) (trim token) in
  if negb (nonempty cleaned) then None
  else if includes "-" cleaned then
    match split_char 45 cleaned with
    | a :: b :: _ =>
        if negb (isNumber a) || negb (isNumber b) then None
        else
          let start := parseInt_digits a in
          let end_ := parseInt_digits b in
          if negb (isValidCode start) || negb (isValidCode end_) || (end_ <? start)%Z then None
          else Some {| start := start; end_ := end_ |}
    | _ => None
    end
  else if negb (isNumber cleaned) then None
  else
    let code := parseInt_digits cleaned in
    if negb (isValidCode code) then None else Some {| start := code; end_ := code |}.

(** The comparison function of the sort, as [cmp(a, b) <= 0]. *)
Definition range_leb (a b : StatusCodeRange) : bool :=
  if (start a =? start b)%Z then (end_ a <=? end_ b)%Z else (start a <=? start b)%Z.

(** One step of the [reduce]; the merged list is kept reversed, its head is
    [merged[merged.length - 1]]. *)
Definition merge_step (merged : list StatusCodeRange) (current : StatusCodeRange)
    : list StatusCodeRange :=
  match merged with
  | [] => [current]
  | last :: before =>
      if (end_ last + 1 <? start current)%Z then current :: merged
      else {| start := start last; end_ := Z.max (end_ last) (end_ current) |} :: before
  end.

Definition mergeRanges (ranges : list StatusCodeRange) : list StatusCodeRange :=
  if negb (nonempty ranges) then []
  else rev (fold_left merge_step (js_sort range_leb ranges) []).

Definition range_token (r : StatusCodeRange) : jsstr :=
  if (start r =? end_ r)%Z then to_dec_Z (start r)
  else to_dec_Z (start r) ++ "-" ++ to_dec_Z (end_ r).

(** The comma of full width is read as a comma. *)
Definition sanitize (raw : jsstr) : jsstr := map (λ c, if (c =? 65292)%N then 44%N else c) raw.

(** The [for] loop over the segments: parsed ranges and invalid tokens. *)
Fixpoint parse_segments (segments : list jsstr) : list StatusCodeRange * list jsstr :=
  match segments with
  | [] => ([], [])
  | s :: rest =>
      let '(ranges, invalid) := parse_segments rest in
      match parseToken s with
      | None => (ranges, s :: invalid)
      | Some r => (r :: ranges, invalid)
      end
  end.

Definition segments_of (raw : jsstr) : list jsstr :=
  List.filter nonempty (map trim (split_char 44 (sanitize raw))).

(** On the text of the input. *)
Definition parse_rules_text (text : jsstr) : ParsedHttpStatusCodeRules :=
  let raw := trim text in
  if negb (nonempty raw) then
    {| ok := true; ranges := []; tokens := []; normalized := []; invalidTokens := [] |}
  else
    let '(ranges, invalid) := parse_segments (segments_of raw) in
    if nonempty invalid then
      {| ok := false; ranges := []; tokens := []; normalized := raw; invalidTokens := invalid |}
    else
      let merged := mergeRanges ranges in
      let tokens := map range_token merged in
      {| ok := true; ranges := merged; tokens := tokens; normalized := join "," tokens;
         invalidTokens := [] |}.

(** [input] is of type [unknown]; [None] is [undefined]. *)
Definition parseHttpStatusCodeRules (input : option json) : ParsedHttpStatusCodeRules :=
  parse_rules_text (match input with
                    | None | Some JNull => []
                    | Some j => json_toString j
                    end).

Example ex_rules :
  normalized (parseHttpStatusCodeRules (Some (JStr " 500-503，401, 409 - 499,504, 402")))
  = "401-402,409-504".
Proof. vm_compute. reflexivity. Qed.

(** ** What a list of ranges covers *)

Definition wf_range (r : StatusCodeRange) : bool := (start r <=? end_ r)%Z.

Definition valid_range (r : StatusCodeRange) : bool :=
  isValidCode (start r) && isValidCode (end_ r) && wf_range r.

Definition covers (rs : list StatusCodeRange) (c : Z) : Prop :=
  ∃ r, r ∈ rs ∧ (start r ≤ c ≤ end_ r)%Z.

(** Every range is non-empty and at least one code lies between it and the next. *)
Inductive separated : list StatusCodeRange → Prop :=
| sep_nil : separated []
| sep_one r : wf_range r = true → separated [r]
| sep_cons r r' rs :
    wf_range r = true → (end_ r + 1 < start r')%Z → separated (r' :: rs) →
    separated (r :: r' :: rs).

Lemma covers_nil c : ¬ covers [] c.
Proof. intros (r & H & _). inversion H. Qed.

Lemma covers_cons r rs c : covers (r :: rs) c ↔ (start r ≤ c ≤ end_ r)%Z ∨ covers rs c.
Proof.
  unfold covers. split.
  - intros (x & [->|Hx]%elem_of_cons & Hc); eauto.
  - intros [Hc|(x & Hx & Hc)]; [exists r|exists x]; rewrite elem_of_cons; auto.
Qed.

Lemma covers_perm rs rs' c : Permutation rs rs' → covers rs c ↔ covers rs' c.
Proof. intros H. unfold covers. by setoid_rewrite H. Qed.

Lemma range_leb_total a b : range_leb a b = true ∨ range_leb b a = true.
Proof.
  unfold range_leb. rewrite (Z.eqb_sym (start b)).
  destruct (Z.eqb_spec (start a) (start b)); rewrite !Z.leb_le; lia.
Qed.

Lemma range_leb_trans a b c : range_leb a b = true → range_leb b c = true → range_leb a c = true.
Proof.
  unfold range_leb.
  destruct (Z.eqb_spec (start a) (start b)), (Z.eqb_spec (start b) (start c)),
    (Z.eqb_spec (start a) (start c)); rewrite !Z.leb_le; lia.
Qed.

Lemma range_leb_start a b : range_leb a b = true → (start a ≤ start b)%Z.
Proof. unfold range_leb. destruct (Z.eqb_spec (start a) (start b)); rewrite ?Z.leb_le; lia. Qed.

(** The same separation read from the end, as the fold keeps the list. *)
Inductive rseparated : list StatusCodeRange → Prop :=
| rsep_nil : rseparated []
| rsep_one r : wf_range r = true → rseparated [r]
| rsep_cons r r' rs :
    wf_range r = true → (end_ r' + 1 < start r)%Z → rseparated (r' :: rs) →
    rseparated (r :: r' :: rs).

Lemma separated_snoc rs r r' :
  separated (rs ++ [r']) → wf_range r = true → (end_ r' + 1 < start r)%Z →
  separated ((rs ++ [r']) ++ [r]).
Proof.
  revert r'. induction rs as [|x rs IH]; intros r' Hs Hr Hlt; cbn [app] in *.
  - inversion Hs; subst. by repeat constructor.
  - destruct rs as [|y rs]; cbn [app] in *; inversion Hs; subst;
      constructor; try done; by apply IH.
Qed.

Lemma rseparated_rev rs : rseparated rs → separated (rev rs).
Proof.
  induction 1 as [|r Hr|r r' rs Hr Hlt Hs IH]; simpl; [constructor|by constructor|].
  by apply separated_snoc.
Qed.

(** What one merge step keeps: the ranges stay separated, and cover what they
    covered and the new range. *)
Lemma merge_step_spec merged r :
  rseparated merged → wf_range r = true →
  (∀ l, head merged = Some l → (start l ≤ start r)%Z) →
  rseparated (merge_step merged r)
  ∧ (∀ c, covers (merge_step merged r) c ↔ covers merged c ∨ (start r ≤ c ≤ end_ r)%Z)
  ∧ (∀ l, head (merge_step merged r) = Some l → (start l ≤ start r)%Z).
Proof.
  intros Hs Hr Hh. unfold wf_range in *. apply Z.leb_le in Hr as Hr'.
  destruct merged as [|l b]; cbn [merge_step].
  - split_and!; [by constructor| |by intros ? [= <-]].
    intros c. rewrite covers_cons. pose proof (covers_nil c). tauto.
  - specialize (Hh l eq_refl). destruct (Z.ltb_spec (end_ l + 1) (start r)) as [Hl|Hl].
    + split_and!; [by constructor| |by intros ? [= <-]].
      intros c. rewrite (covers_cons r). tauto.
    + assert (Hw : (start l ≤ end_ l)%Z)
        by (inversion Hs; subst; unfold wf_range in *; by apply Z.leb_le).
      split_and!.
      * inversion Hs; subst; constructor; try done; unfold wf_range; apply Z.leb_le; cbn; lia.
      * intros c. rewrite !covers_cons. cbn [start end_]. split; [|intuition lia].
        intros [Hc|Hc]; [|tauto].
        destruct (decide (c ≤ end_ l)%Z); [left; left|right]; lia.
      * intros ? [= <-]. cbn [start]. lia.
Qed.

Lemma merge_fold_spec rs merged :
  StronglySorted (λ a b, range_leb a b = true) rs → forallb wf_range rs = true →
  rseparated merged →
  (∀ l r, head merged = Some l → r ∈ rs → (start l ≤ start r)%Z) →
  rseparated (fold_left merge_step rs merged)
  ∧ (∀ c, covers (fold_left merge_step rs merged) c ↔ covers merged c ∨ covers rs c).
Proof.
  intros Hs. revert merged. induction Hs as [|r rs Hs IH Hr]; intros merged Hw Hm Hh; cbn [fold_left].
  - split; [done|]. intros c. pose proof (covers_nil c). tauto.
  - cbn [forallb] in Hw. bool_prop.
    destruct (merge_step_spec merged r) as (S1 & S2 & S3); [done..| |].
    { intros l Hl. apply (Hh l r); [done|]. left. }
    destruct (IH (merge_step merged r)) as [F1 F2]; [done..| |].
    { intros l r' Hl Hr'. transitivity (start r); [by apply S3|]. apply range_leb_start.
      rewrite List.Forall_forall in Hr. by apply Hr, list_elem_of_In. }
    split; [done|]. intros c. rewrite F2, S2, covers_cons. tauto.
Qed.

Lemma forallb_perm {A} (p : A → bool) l l' :
  Permutation l l' → forallb p l = true → forallb p l' = true.
Proof. rewrite !forallb_forall. intros H Hp x Hx. apply Hp. by rewrite H. Qed.

Lemma mergeRanges_spec rs :
  forallb wf_range rs = true →
  separated (mergeRanges rs) ∧ (∀ c, covers (mergeRanges rs) c ↔ covers rs c).
Proof.
  intros Hw. unfold mergeRanges. destruct rs as [|r0 rs0]; cbn [nonempty negb].
  - split; [constructor|]. done.
  - set (rs := r0 :: rs0) in *.
    destruct (merge_fold_spec (js_sort range_leb rs) []) as [H1 H2].
    + apply js_sort_sorted; [apply range_leb_total|apply range_leb_trans].
    + eapply forallb_perm, Hw. symmetry. apply js_sort_perm.
    + constructor.
    + done.
    + split; [by apply rseparated_rev|]. intros c.
      rewrite (covers_perm _ _ c (Permutation_rev _)), rev_involutive, H2.
      rewrite (covers_perm _ _ c (js_sort_perm range_leb rs)).
      pose proof (covers_nil c). tauto.
Qed.

(** ** Separated lists are determined by what they cover *)

Lemma separated_tail r rs : separated (r :: rs) → separated rs ∧ wf_range r = true.
Proof. inversion 1; subst; split; try done; constructor. Qed.

Lemma separated_after r rs c : separated (r :: rs) → covers rs c → (end_ r + 1 < c)%Z.
Proof.
  revert r. induction rs as [|r' rs IH]; intros r Hs; [by intros ?%covers_nil|].
  inversion Hs; subst. intros [Hc|Hc]%covers_cons; [lia|].
  pose proof (IH r' H4 Hc). apply separated_tail in H4 as [_ Hw].
  unfold wf_range in Hw. apply Z.leb_le in Hw. lia.
Qed.

Lemma separated_unique rs rs' :
  separated rs → separated rs' → (∀ c, covers rs c ↔ covers rs' c) → rs = rs'.
Proof.
  revert rs'. induction rs as [|r rs IH]; intros [|r' rs'] H1 H2 Hc; [done|..].
  - exfalso. apply separated_tail in H2 as [_ Hw]. unfold wf_range in Hw. apply Z.leb_le in Hw.
    apply (covers_nil (start r')), Hc, covers_cons. lia.
  - exfalso. apply separated_tail in H1 as [_ Hw]. unfold wf_range in Hw. apply Z.leb_le in Hw.
    apply (covers_nil (start r)), Hc, covers_cons. lia.
  - pose proof (separated_tail _ _ H1) as [Ht1 Hw1]. pose proof (separated_tail _ _ H2) as [Ht2 Hw2].
    unfold wf_range in Hw1, Hw2. apply Z.leb_le in Hw1, Hw2.
    pose proof (λ c, separated_after _ _ c H1) as A1. pose proof (λ c, separated_after _ _ c H2) as A2.
    setoid_rewrite covers_cons in Hc.
    assert (Es : start r = start r').
    { assert (P1 := proj1 (Hc (start r)) ltac:(lia)). assert (P2 := proj2 (Hc (start r')) ltac:(lia)).
      destruct P1 as [P1|P1%A2], P2 as [P2|P2%A1]; lia. }
    assert (Ee : end_ r = end_ r').
    { assert (P1 := proj1 (Hc (end_ r)) ltac:(lia)). assert (P2 := proj2 (Hc (end_ r')) ltac:(lia)).
      destruct P1 as [P1|P1]; [destruct P2 as [P2|P2]; [lia|]|].
      - apply A1 in P2 as P2'. assert (Q := proj2 (Hc (end_ r + 1)%Z) ltac:(lia)).
        destruct Q as [Q|Q%A1]; lia.
      - apply A2 in P1 as P1'. assert (Q := proj1 (Hc (end_ r' + 1)%Z) ltac:(lia)).
        destruct Q as [Q|Q%A2]; lia. }
    assert (r = r') as <- by (destruct r, r'; cbn in *; by subst). f_equal.
    apply IH; [done..|]. intros c. specialize (Hc c). specialize (A1 c). specialize (A2 c). split.
    + intros P. apply A1 in P as P'. destruct (proj1 Hc (or_intror P)); [lia|done].
    + intros P. apply A2 in P as P'. destruct (proj2 Hc (or_intror P)); [lia|done].
Qed.

(** ** Tokens *)

Lemma to_dec_Z_nonneg z : (0 ≤ z)%Z → to_dec_Z z = to_dec (Z.to_N z).
Proof. intros H. unfold to_dec_Z. by rewrite (proj2 (Z.ltb_ge z 0)). Qed.

Lemma isNumber_to_dec n : isNumber (to_dec n) = true.
Proof.
  destruct (to_dec_spec n) as (Hn & Hd & _). unfold isNumber. rewrite Hd.
  by rewrite (proj2 (nonempty_true _)).
Qed.

Lemma parseInt_to_dec z : (0 ≤ z)%Z → parseInt_digits (to_dec (Z.to_N z)) = z.
Proof. intros H. unfold parseInt_digits. rewrite dec_value_to_dec. lia. Qed.

Definition token_char (c : N) : bool := is_digit c || (c =? 45)%N.

Lemma token_char_not_space c : token_char c = true → negb (is_space c) = true.
Proof.
  unfold token_char. intros [H|H]%orb_true_iff.
  - by rewrite digit_not_space.
  - apply N.eqb_eq in H as ->. done.
Qed.

Lemma digits_no_dash s : forallb is_digit s = true → forallb (λ x, negb (x =? 45)%N) s = true.
Proof. apply forallb_impl. intros c ?%is_digit_range. unit_decide. Qed.

Lemma cleaned_id s :
  forallb token_char s = true → List.filter (λ c, negb (is_space c)) (trim s) = s.
Proof.
  intros H. assert (H' : forallb (λ c, negb (is_space c)) s = true)
    by (revert H; apply forallb_impl, token_char_not_space).
  rewrite trim_trimmed by by apply trimmed_no_space. by apply filterb_all.
Qed.

Lemma digits_token s : forallb is_digit s = true → forallb token_char s = true.
Proof. apply forallb_impl. unfold token_char. by intros c ->. Qed.

Lemma valid_range_spec r :
  valid_range r = true ↔ (100 ≤ start r)%Z ∧ (start r ≤ end_ r)%Z ∧ (end_ r ≤ 599)%Z.
Proof.
  unfold valid_range, isValidCode, wf_range. rewrite !andb_true_iff, !Z.leb_le. lia.
Qed.

(** A dash followed by two numbers and anything: only the two numbers are read. *)
Lemma parseToken_dash a b rest :
  isNumber a = true → isNumber b = true →
  (rest = [] ∨ ∃ r, rest = 45%N :: r ∧ forallb token_char r = true) →
  parseToken (a ++ "-" ++ b ++ rest)
  = (let r := {| start := parseInt_digits a; end_ := parseInt_digits b |} in
     if valid_range r then Some r else None).
Proof.
  unfold isNumber. intros Ha Hb Hr. pose proof Ha as Ha'. pose proof Hb as Hb'. bool_prop.
  assert (Hc : forallb token_char (a ++ "-" ++ b ++ rest) = true).
  { rewrite !forallb_app, (digits_token a), (digits_token b) by done.
    destruct Hr as [->|(r & -> & Hr)]; [done|]. cbn [forallb]. by rewrite Hr. }
  unfold parseToken. rewrite cleaned_id by done. clear Hc.
  replace (nonempty (a ++ _)) with true by (by destruct a). cbn [negb].
  rewrite (proj2 (includes_true "-" _)) by by exists a, (b ++ rest).
  change (a ++ "-" ++ b ++ rest) with (a ++ 45%N :: (b ++ rest)).
  rewrite split_char_app by by apply digits_no_dash.
  assert (E : ∃ l, split_char 45 (b ++ rest) = b :: l).
  { destruct Hr as [->|(r & -> & Hr)].
    - rewrite app_nil_r, split_char_none by by apply digits_no_dash. eauto.
    - rewrite split_char_app by by apply digits_no_dash. eauto. }
  destruct E as [l ->]. unfold isNumber. use_bools. cbn [negb orb andb].
  unfold valid_range, wf_range. cbn [start end_].
  destruct (isValidCode (parseInt_digits a)), (isValidCode (parseInt_digits b)); cbn [negb orb andb];
    try done. rewrite Z.ltb_antisym. by destruct (_ <=? _)%Z.
Qed.

Lemma parseToken_range_token r : valid_range r = true → parseToken (range_token r) = Some r.
Proof.
  intros Hv. apply valid_range_spec in Hv as Hv'. unfold range_token.
  rewrite !to_dec_Z_nonneg by lia. destruct (Z.eqb_spec (start r) (end_ r)) as [E|E].
  - pose proof (isNumber_to_dec (Z.to_N (start r))) as Hn. unfold isNumber in Hn. bool_prop.
    unfold parseToken. rewrite cleaned_id by by apply digits_token.
    rewrite (includes_absent "-" 45%N) by (by left || by apply digits_no_dash).
    unfold isNumber. use_bools. cbn [negb andb]. rewrite parseInt_to_dec by lia.
    unfold valid_range in Hv. bool_prop. use_bools. cbn [negb]. destruct r; cbn in *; by subst.
  - rewrite <- (app_nil_r (to_dec (Z.to_N (end_ r)))).
    rewrite parseToken_dash by (apply isNumber_to_dec || by left).
    rewrite !parseInt_to_dec by lia. by destruct r; cbn; rewrite Hv.
Qed.

Lemma parseToken_valid t r : parseToken t = Some r → valid_range r = true.
Proof.
  unfold parseToken. set (cl := List.filter _ _).
  destruct (negb (nonempty cl)); [done|]. destruct (includes "-" cl).
  - destruct (split_char 45 cl) as [|a [|b l]]; [done..|].
    destruct (negb (isNumber a) || negb (isNumber b)); [done|].
    destruct (_ || (_ <? _)%Z) eqn:E; [done|]. intros [= <-]. bool_prop.
    apply Z.ltb_ge in H0. unfold valid_range, wf_range. cbn [start end_]. use_bools.
    by rewrite (proj2 (Z.leb_le _ _)).
  - destruct (negb (isNumber cl)); [done|].
    destruct (negb (isValidCode _)) eqn:E; [done|]. intros [= <-]. bool_prop.
    unfold valid_range, wf_range. cbn [start end_]. rewrite E. by rewrite Z.leb_refl.
Qed.

(** ** Whole rule texts *)

Lemma parse_segments_ranges ss : (parse_segments ss).1 = omap parseToken ss.
Proof.
  induction ss as [|s ss IH]; cbn [parse_segments omap list_omap]; [done|].
  destruct (parse_segments ss) as [rs inv]. cbn [fst] in IH.
  destruct (parseToken s); cbn [fst]; [by f_equal|done].
Qed.

Lemma parse_segments_invalid ss :
  (parse_segments ss).2 = List.filter (λ s, negb (bool_decide (is_Some (parseToken s)))) ss.
Proof.
  induction ss as [|s ss IH]; cbn [parse_segments List.filter]; [done|].
  destruct (parse_segments ss) as [rs inv]. cbn [snd] in IH.
  destruct (parseToken s) as [r|]; cbn [snd].
  - rewrite bool_decide_true by eauto. done.
  - rewrite bool_decide_false by by intros [? ?]. cbn [negb]. by f_equal.
Qed.

Lemma parsed_valid ss : forallb valid_range (omap parseToken ss) = true.
Proof.
  induction ss as [|s ss IH]; cbn [omap list_omap forallb]; [done|].
  destruct (parseToken s) as [r|] eqn:E; [|done]. cbn [forallb].
  by rewrite (parseToken_valid _ _ E).
Qed.

Lemma valid_wf rs : forallb valid_range rs = true → forallb wf_range rs = true.
Proof. apply forallb_impl. unfold valid_range. intros r ?. by bool_prop. Qed.

Lemma covers_bounds rs c : forallb valid_range rs = true → covers rs c → (100 ≤ c ≤ 599)%Z.
Proof.
  rewrite forallb_forall. intros Hv (r & Hr%list_elem_of_In & Hc).
  specialize (Hv r Hr). apply valid_range_spec in Hv. lia.
Qed.

Lemma separated_wf rs : separated rs → forallb wf_range rs = true.
Proof. induction 1; cbn [forallb] in *; bool_prop; try done; use_bools; done. Qed.

Lemma mergeRanges_valid rs :
  forallb valid_range rs = true → forallb valid_range (mergeRanges rs) = true.
Proof.
  intros Hv. destruct (mergeRanges_spec rs (valid_wf _ Hv)) as [Hs Hc].
  pose proof (separated_wf _ Hs) as Hw. rewrite forallb_forall in Hw |- *. intros r Hr.
  specialize (Hw r Hr). unfold wf_range in Hw. apply Z.leb_le in Hw. apply valid_range_spec.
  apply list_elem_of_In in Hr.
  assert (B1 : (100 ≤ start r ≤ 599)%Z).
  { apply (covers_bounds rs _ Hv), Hc. exists r. split; [done|lia]. }
  assert (B2 : (100 ≤ end_ r ≤ 599)%Z).
  { apply (covers_bounds rs _ Hv), Hc. exists r. split; [done|lia]. }
  lia.
Qed.

Lemma mergeRanges_separated rs : separated rs → mergeRanges rs = rs.
Proof.
  intros Hs. destruct (mergeRanges_spec rs (separated_wf _ Hs)) as [H1 H2].
  by apply separated_unique.
Qed.

Lemma range_token_chars r :
  valid_range r = true → range_token r ≠ [] ∧ forallb token_char (range_token r) = true.
Proof.
  intros Hv%valid_range_spec. unfold range_token. rewrite !to_dec_Z_nonneg by lia.
  destruct (to_dec_spec (Z.to_N (start r))) as (Hn1 & Hd1 & _).
  destruct (to_dec_spec (Z.to_N (end_ r))) as (Hn2 & Hd2 & _).
  destruct (start r =? end_ r)%Z.
  - split; [done|by apply digits_token].
  - split; [by destruct (to_dec (Z.to_N (start r)))|].
    by rewrite !forallb_app, (digits_token _ Hd1), (digits_token _ Hd2).
Qed.

Lemma parse_segments_tokens rs :
  forallb valid_range rs = true → parse_segments (map range_token rs) = (rs, []).
Proof.
  induction rs as [|r rs IH]; cbn [map parse_segments forallb]; [done|]. intros ?; bool_prop.
  rewrite IH by done. by rewrite parseToken_range_token.
Qed.

Lemma sanitize_id s : forallb (λ c, negb (c =? 65292)%N) s = true → sanitize s = s.
Proof.
  induction s as [|c s IH]; cbn [sanitize map forallb]; [done|]. intros ?; bool_prop.
  rewrite H. f_equal. by apply IH.
Qed.

Lemma join_forallb (p : N → bool) sep ts :
  forallb p sep = true → forallb (forallb p) ts = true → forallb p (join sep ts) = true.
Proof.
  intros Hs. induction ts as [|t ts IH]; [done|]. cbn [forallb]. intros ?; bool_prop.
  destruct ts as [|u ts]; [done|]. rewrite join_cons by done.
  rewrite !forallb_app, H, Hs. by rewrite IH.
Qed.

(** The segments of the normalized text are its tokens. *)
Lemma segments_of_tokens rs :
  forallb valid_range rs = true → rs ≠ [] →
  trim (join "," (map range_token rs)) = join "," (map range_token rs)
  ∧ segments_of (join "," (map range_token rs)) = map range_token rs.
Proof.
  intros Hv Hne. set (ts := map range_token rs).
  assert (Ht : ∀ t, t ∈ ts → t ≠ [] ∧ forallb token_char t = true).
  { intros t (r & -> & Hr)%elem_of_mapb. apply range_token_chars.
    rewrite forallb_forall in Hv. by apply Hv, list_elem_of_In. }
  assert (Hts : forallb (forallb token_char) ts = true).
  { apply forallb_forall. intros t Ht'%list_elem_of_In. by apply Ht. }
  assert (Hj : ∀ p, p 44%N = true → (∀ c, token_char c = true → p c = true) →
               forallb p (join "," ts) = true).
  { intros p Hp Hpc. apply join_forallb; [cbn; by rewrite Hp|].
    revert Hts. apply forallb_impl. intros t. by apply forallb_impl. }
  split.
  - apply trim_trimmed, trimmed_no_space, Hj; [done|apply token_char_not_space].
  - unfold segments_of. rewrite sanitize_id.
    2:{ apply Hj; [done|]. unfold token_char. intros c [H%is_digit_range|H%N.eqb_eq]%orb_true_iff;
        unit_decide. }
    rewrite split_join.
    + replace (map trim ts) with ts.
      * apply filterb_all, forallb_forall. intros t Ht'%list_elem_of_In.
        by apply nonempty_true, Ht.
      * symmetry. rewrite <- (map_id ts) at 2. apply map_ext_in. intros t Ht'%list_elem_of_In.
        apply trim_trimmed, trimmed_no_space. apply Ht in Ht' as [_ Ht'].
        revert Ht'. apply forallb_impl, token_char_not_space.
    + by destruct rs.
    + rewrite List.Forall_forall. intros t Ht'%list_elem_of_In. apply Ht in Ht' as [_ Ht'].
      revert Ht'. apply forallb_impl. unfold token_char.
      intros c [H%is_digit_range|H%N.eqb_eq]%orb_true_iff; unit_decide.
Qed.

Lemma segments_of_nil : segments_of [] = [].
Proof. reflexivity. Qed.

(** The meaning of a text without segments and of one with them. *)
Definition meaning (p : ParsedHttpStatusCodeRules) (ss : list jsstr) : Prop :=
  (ok p = true ↔ ∀ s, s ∈ ss → is_Some (parseToken s))
  ∧ (ok p = true → separated (ranges p) ∧ forallb valid_range (ranges p) = true
       ∧ ∀ c, covers (ranges p) c ↔ ∃ s r, s ∈ ss ∧ parseToken s = Some r ∧ (start r ≤ c ≤ end_ r)%Z)
  ∧ (∀ s, s ∈ invalidTokens p ↔ s ∈ ss ∧ parseToken s = None).

Lemma elem_of_invalid ss s :
  s ∈ List.filter (λ s, negb (bool_decide (is_Some (parseToken s)))) ss
  ↔ s ∈ ss ∧ parseToken s = None.
Proof. rewrite elem_of_filterb, negb_true_iff, bool_decide_eq_false. by rewrite eq_None_not_Some. Qed.

Lemma covers_omap ss c :
  covers (omap parseToken ss) c
  ↔ ∃ s r, s ∈ ss ∧ parseToken s = Some r ∧ (start r ≤ c ≤ end_ r)%Z.
Proof.
  unfold covers. setoid_rewrite list_elem_of_omap. split.
  - intros (r & (s & ? & ?) & ?). by exists s, r.
  - intros (s & r & ? & ? & ?). exists r. split; [by exists s|done].
Qed.

Lemma meaning_nil : meaning {| ok := true; ranges := []; tokens := []; normalized := [];
                               invalidTokens := [] |} [].
Proof.
  split_and!; [split; [intros _ s H; inversion H|done]| |].
  - intros _. split_and!; [constructor|done|]. intros c. apply (covers_omap []).
  - intros s. split; [intros H; inversion H|intros [H _]; inversion H].
Qed.

Definition parsed_of (raw : jsstr) (ss : list jsstr) : ParsedHttpStatusCodeRules :=
  let invalid := List.filter (λ s, negb (bool_decide (is_Some (parseToken s)))) ss in
  if nonempty invalid then
    {| ok := false; ranges := []; tokens := []; normalized := raw; invalidTokens := invalid |}
  else
    let merged := mergeRanges (omap parseToken ss) in
    {| ok := true; ranges := merged; tokens := map range_token merged;
       normalized := join "," (map range_token merged); invalidTokens := [] |}.

Lemma parse_rules_text_eq text :
  parse_rules_text text
  = if nonempty (trim text) then parsed_of (trim text) (segments_of (trim text))
    else {| ok := true; ranges := []; tokens := []; normalized := []; invalidTokens := [] |}.
Proof.
  unfold parse_rules_text, parsed_of. destruct (nonempty (trim text)); [|done]. cbn [negb].
  pose proof (parse_segments_ranges (segments_of (trim text))) as Hr.
  pose proof (parse_segments_invalid (segments_of (trim text))) as Hi.
  destruct (parse_segments _) as [rs inv]. cbn [fst snd] in *. by subst.
Qed.

Lemma parsed_of_meaning raw ss : meaning (parsed_of raw ss) ss.
Proof.
  unfold parsed_of, meaning. pose proof (elem_of_invalid ss) as Hi.
  destruct (List.filter _ ss) as [|x l]; cbn [nonempty ok ranges invalidTokens].
  - assert (Hok : ∀ s, s ∈ ss → is_Some (parseToken s)).
    { intros s Hs. destruct (parseToken s) eqn:E; [eauto|].
      assert (H : s ∈ @nil jsstr) by by apply Hi. inversion H. }
    pose proof (parsed_valid ss) as Hv. destruct (mergeRanges_spec _ (valid_wf _ Hv)) as [H1 H2].
    split_and!; [done| |done]. intros _. split_and!; [done|by apply mergeRanges_valid|].
    intros c. by rewrite H2, covers_omap.
  - assert (Hx : x ∈ ss ∧ parseToken x = None) by (apply Hi; left).
    split_and!; [|done|done]. split; [done|]. intros H. destruct Hx as [Hx E].
    apply H in Hx as [? ?]. congruence.
Qed.

(** An accepted text is the empty one or the text of some valid ranges. *)
Lemma ok_shape text :
  ok (parse_rules_text text) = true →
  ∃ rs, separated rs ∧ forallb valid_range rs = true
        ∧ parse_rules_text text
          = {| ok := true; ranges := rs; tokens := map range_token rs;
               normalized := join "," (map range_token rs); invalidTokens := [] |}.
Proof.
  rewrite parse_rules_text_eq. destruct (nonempty (trim text)).
  - unfold parsed_of. set (ss := segments_of _). destruct (nonempty _); [done|]. intros _.
    exists (mergeRanges (omap parseToken ss)). pose proof (parsed_valid ss) as Hv.
    split_and!; [by apply mergeRanges_spec, valid_wf|by apply mergeRanges_valid|done].
  - intros _. exists []. split_and!; [constructor|done..].
Qed.

Lemma parse_tokens_text rs :
  separated rs → forallb valid_range rs = true →
  parse_rules_text (join "," (map range_token rs))
  = {| ok := true; ranges := rs; tokens := map range_token rs;
       normalized := join "," (map range_token rs); invalidTokens := [] |}.
Proof.
  intros Hs Hv. destruct rs as [|r0 rs0]; [done|]. set (rs := r0 :: rs0) in *.
  destruct (segments_of_tokens rs Hv) as [Ht Hg]; [done|].
  unfold parse_rules_text. rewrite Ht, Hg, parse_segments_tokens by done.
  destruct (range_token_chars r0) as [Hn _].
  { unfold rs in Hv. cbn [forallb] in Hv. by bool_prop. }
  replace (nonempty (join "," (map range_token rs))) with true.
  2:{ unfold rs. cbn [map join]. by destruct (range_token r0), (map range_token rs0). }
  cbn [negb nonempty]. by rewrite mergeRanges_separated.
Qed.

(** ** What a rule text says *)

(** The pieces of a text between commas, of either width. *)
Definition is_comma (c : N) : Prop := c = 44%N ∨ c = 65292%N.

Definition piece (t s : jsstr) : Prop :=
  ∃ before after, t = before ++ s ++ after
    ∧ (∀ c, c ∈ s → ¬ is_comma c)
    ∧ (before = [] ∨ ∃ b c, before = b ++ [c] ∧ is_comma c)
    ∧ (after = [] ∨ ∃ c a, after = c :: a ∧ is_comma c).

(** Decimal numerals, leading zeros included. *)
Inductive numeral : jsstr → Z → Prop :=
| numeral_digit (d : N) : (d ≤ 9)%N → numeral [(48 + d)%N] (Z.of_N d)
| numeral_more t n (d : N) : numeral t n → (d ≤ 9)%N → numeral (t ++ [(48 + d)%N]) (10 * n + Z.of_N d).

(** The codes from [n] to [m] that a text without blanks names: a code, or two codes
    with a dash between them.  A further dash and all that follows it is ignored, which
    the parser of the server does not do. *)
Inductive names : jsstr → Z → Z → Prop :=
| names_code t n : numeral t n → (100 ≤ n ≤ 599)%Z → names t n n
| names_range a b n m :
    numeral a n → numeral b m → (100 ≤ n)%Z → (n ≤ m)%Z → (m ≤ 599)%Z → names (a ++ "-" ++ b) n m
| names_ignoring a b rest n m :
    numeral a n → numeral b m → (100 ≤ n)%Z → (n ≤ m)%Z → (m ≤ 599)%Z → names (a ++ "-" ++ b ++ "-" ++ rest) n m.

Definition without_blanks (s : jsstr) : jsstr := List.filter (λ c, negb (is_space c)) s.

(** A segment names codes once its blanks are left out, wherever they are. *)
Definition segment_names (s : jsstr) (n m : Z) : Prop := names (without_blanks s) n m.

Lemma without_blanks_trim s : List.filter (λ c, negb (is_space c)) (trim s) = without_blanks s.
Proof.
  unfold without_blanks. destruct (trim_decompose s) as (a & b & E & Ha & Hb). rewrite E at 2. rewrite !List.filter_app.
  assert (Hnil : ∀ w, forallb is_space w = true → List.filter (λ c, negb (is_space c)) w = []).
  { induction w as [|x w IH]; [done|]. cbn. intros [-> Hw]%andb_prop. by apply IH. }
  by rewrite (Hnil a Ha), (Hnil b Hb), app_nil_r.
Qed.

Lemma numeral_spec t n : numeral t n ↔ isNumber t = true ∧ parseInt_digits t = n.
Proof.
  unfold isNumber, parseInt_digits. split.
  - induction 1 as [d Hd|t n d Ht [IH1 IH2] Hd].
    + split; [cbn; rewrite andb_true_r; apply is_digit_range; lia|]. unfold dec_value. cbn [fold_left]. lia.
    + apply andb_prop in IH1 as [Hne Hf]. split.
      * rewrite forallb_app, Hf. cbn. rewrite (proj2 (is_digit_range _)) by lia. by destruct t.
      * unfold dec_value in *. rewrite fold_dec_app. cbn [fold_left]. lia.
  - revert n. induction t as [|c t IH] using rev_ind; intros n; [by intros []|].
    rewrite forallb_app. cbn [forallb]. intros [[_ [Ht [Hc _]%andb_prop]%andb_prop]%andb_prop E].
    apply is_digit_range in Hc. unfold dec_value in *. rewrite fold_dec_app in E. cbn [fold_left] in E.
    replace c with (48 + (c - 48))%N by lia. destruct t as [|c' t].
    + cbn [fold_left] in E. replace n with (Z.of_N (c - 48)) by lia. apply (numeral_digit (c - 48)). lia.
    + set (v := fold_left _ _ _) in E. replace n with (10 * Z.of_N v + Z.of_N (c - 48))%Z by lia.
      apply numeral_more; [|lia]. by apply IH.
Qed.

Lemma number_no_dash a : isNumber a = true → forallb (λ x, negb (x =? 45)%N) a = true.
Proof. unfold isNumber. intros [_ H]%andb_prop. by apply digits_no_dash. Qed.

(** Two numbers and a dash, whatever follows after another dash. *)
Lemma parse_two s a b more :
  without_blanks s = a ++ 45%N :: b ++ more → (more = [] ∨ ∃ rest, more = 45%N :: rest) →
  isNumber a = true → isNumber b = true → valid_range {| start := parseInt_digits a; end_ := parseInt_digits b |} = true →
  parseToken s = Some {| start := parseInt_digits a; end_ := parseInt_digits b |}.
Proof.
  intros E Hm Ha Hb Hv. pose proof (number_no_dash a Ha) as Ha'. pose proof (number_no_dash b Hb) as Hb'.
  unfold parseToken. rewrite without_blanks_trim, E.
  replace (nonempty (a ++ _)) with true by (by destruct a). cbn [negb].
  rewrite (proj2 (includes_true "-" _)) by (by exists a, (b ++ more)). rewrite split_char_app by done.
  assert (Hl : ∃ l, split_char 45 (b ++ more) = b :: l).
  { destruct Hm as [->|[rest ->]]; [rewrite app_nil_r, split_char_none by done|rewrite split_char_app by done]; eauto. }
  destruct Hl as [l ->]. rewrite Ha, Hb. cbn [negb orb]. apply valid_range_spec in Hv. cbn [start end_] in Hv.
  unfold isValidCode. rewrite !(proj2 (Z.leb_le _ _)), (proj2 (Z.ltb_ge _ _)) by lia. done.
Qed.

(** [parseToken] reads the range that a segment names, and nothing of another segment. *)
Lemma parseToken_names s r : parseToken s = Some r ↔ segment_names s (start r) (end_ r).
Proof.
  unfold segment_names. split.
  - intros Hp. pose proof (proj1 (valid_range_spec r) (parseToken_valid s r Hp)) as Hv. revert Hp.
    unfold parseToken. rewrite without_blanks_trim. destruct (nonempty (without_blanks s)); [|done]. cbn [negb].
    destruct (includes "-" (without_blanks s)).
    + destruct (split_char 45 (without_blanks s)) as [|a [|b l]] eqn:E; [done..|].
      destruct (isNumber a) eqn:Ha; [|done]. destruct (isNumber b) eqn:Hb; [|done]. cbn [negb orb].
      destruct (_ || _); [done|]. intros [= <-]. cbn [start end_] in *.
      rewrite <- (join_split 45 (without_blanks s)), E. rewrite join_cons by done. change [45%N] with ("-" : jsstr).
      destruct l as [|x l].
      * apply names_range; try apply numeral_spec; try done; lia.
      * rewrite join_cons by done. apply names_ignoring; try apply numeral_spec; try done; lia.
    + destruct (isNumber (without_blanks s)) eqn:Hn; [|done]. cbn [negb].
      destruct (negb _); [done|]. intros [= <-]. cbn [start end_] in *. apply names_code; [by apply numeral_spec|lia].
  - destruct r as [n m]. cbn [start end_]. intros H. inversion H as [t n' Ht Hr|a b n' m' Ha Hb H1 H2 H3|a b rest n' m' Ha Hb H1 H2 H3]; subst.
    + apply numeral_spec in Ht as [Hn <-]. unfold parseToken. rewrite without_blanks_trim.
      replace (nonempty (without_blanks s)) with true by (by destruct (without_blanks s)). cbn [negb].
      rewrite (includes_absent "-" 45%N) by (by left || by apply number_no_dash). rewrite Hn. cbn [negb].
      unfold isValidCode. by rewrite !(proj2 (Z.leb_le _ _)) by lia.
    + apply numeral_spec in Ha as [Ha <-], Hb as [Hb <-]. apply (parse_two s a b []); [by rewrite app_nil_r|by left|done|done|].
      apply valid_range_spec. cbn [start end_]. lia.
    + apply numeral_spec in Ha as [Ha <-], Hb as [Hb <-]. apply (parse_two s a b ("-" ++ rest)); [done|right; by exists rest|done|done|].
      apply valid_range_spec. cbn [start end_]. lia.
Qed.

Lemma parseToken_none s : parseToken s = None ↔ ∀ n m, ¬ segment_names s n m.
Proof.
  split.
  - intros E n m H. pose proof (proj2 (parseToken_names s {| start := n; end_ := m |}) H). congruence.
  - intros H. destruct (parseToken s) as [r|] eqn:E; [|done]. apply parseToken_names in E. by destruct (H _ _ E).
Qed.

Lemma split_char_cat c a b : split_char c (a ++ c :: b) = split_char c a ++ split_char c b.
Proof.
  induction a as [|x a IH]; cbn [app split_char]; [by rewrite N.eqb_refl|]. rewrite IH. destruct (N.eqb x c); [done|].
  pose proof (split_char_ne c a). by destruct (split_char c a).
Qed.

Lemma sanitize_comma c : is_comma c → (if (c =? 65292)%N then 44%N else c) = 44%N.
Proof. by intros [->| ->]. Qed.

Lemma sanitize_no_comma s : (∀ c, c ∈ s → ¬ is_comma c) → sanitize s = s ∧ forallb (λ x, negb (x =? 44)%N) s = true.
Proof.
  unfold sanitize. induction s as [|x s IH]; intros H; [done|]. cbn [map forallb].
  destruct IH as [-> ->]; [intros c Hc; apply H; by right|]. assert (Hx : ¬ is_comma x) by (apply H; left).
  destruct (N.eqb_spec x 65292) as [->|?]; [by destruct Hx; right|].
  destruct (N.eqb_spec x 44) as [->|?]; [by destruct Hx; left|done].
Qed.

(** The pieces that the source splits off: the first one, and the others. *)
Definition ends_piece (after : jsstr) : Prop := after = [] ∨ ∃ c a, after = c :: a ∧ is_comma c.

Lemma split_pieces t :
  ∃ w ws, split_char 44 (sanitize t) = w :: ws
    ∧ (∃ after, t = w ++ after ∧ (∀ c, c ∈ w → ¬ is_comma c) ∧ ends_piece after)
    ∧ (∀ s, s ∈ ws → ∃ b c after, t = b ++ [c] ++ s ++ after ∧ is_comma c ∧ (∀ c, c ∈ s → ¬ is_comma c) ∧ ends_piece after).
Proof.
  induction t as [|x t (w & ws & E & (after & Ht & Hw & Ha) & Hws)].
  { exists [], []. split_and!; [done| |intros s H; inversion H]. exists []. split_and!; [done|intros c H; inversion H|by left]. }
  assert (Hin : ∀ s, s ∈ ws → ∃ b c after, x :: t = b ++ [c] ++ s ++ after ∧ is_comma c ∧ (∀ c, c ∈ s → ¬ is_comma c) ∧ ends_piece after).
  { intros s (b & c & a & -> & H)%Hws. by exists (x :: b), c, a. }
  unfold sanitize in *. cbn [map split_char]. rewrite E.
  destruct (decide (x = 44%N ∨ x = 65292%N)) as [Hx|Hx].
  - rewrite (sanitize_comma x Hx). cbn [N.eqb Pos.eqb]. exists [], (w :: ws). split_and!; [done| |].
    + exists (x :: t). split_and!; [done|intros c H; inversion H|right; by exists x, t].
    + intros s [->|Hs]%elem_of_cons; [|by apply Hin]. exists [], x, after. by rewrite Ht.
  - destruct (N.eqb_spec x 65292) as [->|H1]; [by destruct Hx; right|]. destruct (N.eqb_spec x 44) as [->|H2]; [by destruct Hx; left|].
    exists (x :: w), ws. split_and!; [done| |done]. exists after. split_and!; [by rewrite Ht| |done].
    intros c [->|Hc]%elem_of_cons; [done|by apply Hw].
Qed.

Lemma split_piece t s : s ∈ split_char 44 (sanitize t) ↔ piece t s.
Proof.
  split.
  - destruct (split_pieces t) as (w & ws & -> & (after & Ht & Hw & Ha) & Hws).
    intros [->|(b & c & a & E & Hc & Hs & Hend)%Hws]%elem_of_cons.
    + exists [], after. split_and!; try done. by left.
    + exists (b ++ [c]), a. split_and!; [by rewrite <- app_assoc|done|right; by exists b, c|done].
  - intros (before & after & -> & Hs & Hb & Ha). destruct (sanitize_no_comma s Hs) as [Es Hn].
    assert (Hrest : s ∈ split_char 44 (sanitize (s ++ after))).
    { unfold sanitize in *. rewrite map_app, Es. destruct Ha as [->|(c & a & -> & Hc)].
      - rewrite app_nil_r, split_char_none by done. left.
      - cbn [map]. rewrite (sanitize_comma c Hc), split_char_app by done. left. }
    destruct Hb as [->|(b & c & -> & Hc)]; [done|]. rewrite <- app_assoc. unfold sanitize in *. rewrite map_app. cbn [app map].
    rewrite (sanitize_comma c Hc), split_char_cat. apply elem_of_app. by right.
Qed.

(** The segments: the pieces that are not blank, trimmed. *)
Lemma segments_piece t s : s ∈ segments_of t ↔ ∃ s0, piece t s0 ∧ s = trim s0 ∧ trim s0 ≠ [].
Proof.
  unfold segments_of. rewrite elem_of_filterb, elem_of_mapb. split.
  - intros [(s0 & -> & H%split_piece) Hn]. exists s0. split_and!; [done|done|]. by intros E; rewrite E in Hn.
  - intros (s0 & H%split_piece & -> & Hn). split; [by exists s0|by destruct (trim s0)].
Qed.

Lemma trim_names s n m : segment_names (trim s) n m ↔ segment_names s n m.
Proof. unfold segment_names. unfold without_blanks at 1. by rewrite without_blanks_trim. Qed.

Lemma names_not_blank s n m : segment_names s n m → trim s ≠ [].
Proof.
  intros Hm%trim_names E. rewrite E in Hm.
  pose proof (proj2 (parseToken_names [] {| start := n; end_ := m |}) Hm). done.
Qed.

(** The result against the segments. *)
Lemma rules_meaning text : meaning (parse_rules_text text) (segments_of (trim text)).
Proof.
  rewrite parse_rules_text_eq. destruct (trim text) as [|x t]; cbn [nonempty].
  - rewrite segments_of_nil. apply meaning_nil.
  - apply parsed_of_meaning.
Qed.

(** ** The properties *)

(** C32: [mergeRanges] computes the canonical form of a set of codes: its result
    covers exactly the codes of its argument, has every two neighbours apart by
    at least one code, and depends on nothing but the covered codes. *)
Theorem mergeRanges_canonical rs :
  forallb wf_range rs = true →
  separated (mergeRanges rs)
  ∧ (∀ c, covers (mergeRanges rs) c ↔ covers rs c)
  ∧ (∀ rs', forallb wf_range rs' = true → (∀ c, covers rs c ↔ covers rs' c) →
            mergeRanges rs' = mergeRanges rs).
Proof.
  intros Hw. destruct (mergeRanges_spec rs Hw) as [H1 H2]. split_and!; [done..|].
  intros rs' Hw' Hc. destruct (mergeRanges_spec rs' Hw') as [H1' H2'].
  apply separated_unique; [done..|]. intros c. by rewrite H2, H2', Hc.
Qed.

Definition ex_ranges : list StatusCodeRange :=
  [{| start := 500; end_ := 503 |}; {| start := 401; end_ := 401 |}; {| start := 504; end_ := 504 |};
   {| start := 400; end_ := 405 |}].

Lemma mergeRanges_canonical_witness :
  mergeRanges ex_ranges = [{| start := 400; end_ := 405 |}; {| start := 500; end_ := 504 |}]
  ∧ separated (mergeRanges ex_ranges).
Proof. split; [reflexivity|]. apply (mergeRanges_canonical ex_ranges). reflexivity. Defined.

(** C31: what a rule text means.  The text is accepted exactly when every piece between
    its commas that is not blank names a code or a range of codes between 100 and 599;
    then the ranges are separated, lie between 100 and 599, and cover exactly the codes
    some piece names; the invalid tokens are exactly the trimmed pieces that are not
    blank and name nothing.  A second dash and what follows it is ignored
    ([names_ignoring]). *)
Theorem parse_rules_meaning text :
  let p := parse_rules_text text in
  (ok p = true ↔ ∀ s, piece (trim text) s → trim s = [] ∨ ∃ n m, segment_names s n m)
  ∧ (ok p = true → separated (ranges p) ∧ forallb valid_range (ranges p) = true
       ∧ ∀ c, covers (ranges p) c ↔ ∃ s n m, piece (trim text) s ∧ segment_names s n m ∧ (n ≤ c ≤ m)%Z)
  ∧ (∀ tok, tok ∈ invalidTokens p ↔
       ∃ s, piece (trim text) s ∧ tok = trim s ∧ trim s ≠ [] ∧ ∀ n m, ¬ segment_names s n m).
Proof.
  cbv zeta. destruct (rules_meaning text) as (H1 & H2 & H3). split_and!.
  - rewrite H1. split.
    + intros H s Hs. destruct (decide (trim s = [])) as [?|Hn]; [by left|]. right.
      destruct (H (trim s)) as [r Hr]; [apply segments_piece; by exists s|].
      apply parseToken_names in Hr. rewrite trim_names in Hr. eauto.
    + intros H s (s0 & Hs & -> & Hn)%segments_piece. destruct (H s0 Hs) as [?|(n & m & Hm)]; [done|].
      exists {| start := n; end_ := m |}. by apply parseToken_names, trim_names.
  - intros Hok. destruct (H2 Hok) as (Hs & Hv & Hc). split_and!; [done|done|]. intros c. rewrite Hc. split.
    + intros (s & r & (s0 & Hp & -> & _)%segments_piece & Hr%parseToken_names & Hin). rewrite trim_names in Hr. eauto 6.
    + intros (s & n & m & Hp & Hm & Hin). exists (trim s), {| start := n; end_ := m |}. split; [|split; [by apply parseToken_names, trim_names|done]].
      apply segments_piece. exists s. split_and!; [done|done|]. by apply (names_not_blank s n m).
  - intros tok. rewrite H3, segments_piece. split.
    + intros [(s & Hp & -> & Hn) Hno]. exists s. split_and!; [done..|]. rewrite parseToken_none in Hno.
      intros n m. by rewrite <- trim_names.
    + intros (s & Hp & -> & Hn & Hno). split; [by exists s|]. apply parseToken_none. intros n m. by rewrite trim_names.
Qed.

Lemma parse_rules_meaning_witness :
  let p := parse_rules_text "500-503, 401" in
  separated (ranges p) ∧ forallb valid_range (ranges p) = true.
Proof.
  destruct (parse_rules_meaning "500-503, 401") as (_ & H & _). cbv zeta.
  destruct (H ltac:(vm_compute; reflexivity)) as (H1 & H2 & _). split; assumption.
Defined.

(** Normalizing is stable: the normalized text of an accepted rule text
    parses to the same ranges, tokens and normalized text. *)
Theorem normalized_fixpoint text :
  ok (parse_rules_text text) = true →
  parse_rules_text (normalized (parse_rules_text text)) = parse_rules_text text.
Proof.
  intros Hok. destruct (ok_shape text Hok) as (rs & Hs & Hv & E). rewrite E. cbn [normalized].
  by apply parse_tokens_text.
Qed.

Lemma normalized_fixpoint_witness :
  parse_rules_text (normalized (parse_rules_text "409 - 499,401，402"))
  = parse_rules_text "409 - 499,401，402".
Proof. apply normalized_fixpoint. vm_compute. reflexivity. Defined.

(** A token with more than two numbers is accepted: everything after the
    second number is dropped, whatever digits and dashes it holds. *)
Theorem extra_bounds_dropped a b rest :
  isNumber a = true → isNumber b = true → forallb token_char rest = true →
  parseToken (a ++ "-" ++ b ++ "-" ++ rest) = parseToken (a ++ "-" ++ b).
Proof.
  intros Ha Hb Hr. rewrite parseToken_dash by (done || right; eauto).
  rewrite <- (app_nil_r (a ++ "-" ++ b)), <- !app_assoc.
  by rewrite parseToken_dash by (done || by left).
Qed.

Lemma extra_bounds_dropped_witness :
  parseToken "400-499-100" = Some {| start := 400; end_ := 499 |}.
Proof.
  change "400-499-100" with ("400" ++ "-" ++ "499" ++ "-" ++ "100").
  rewrite extra_bounds_dropped; reflexivity.
Defined.

End StatusRules.

(** * The guard on status-code mappings *)
Module RiskGuard.

Definition NON_REDIRECTABLE_STATUS_CODES : list Z := [504; 524]%Z.

(** [/^[1-5]\d{2}$/] *)
Definition code_pattern (s : jsstr) : bool :=
  match s with
  | [a; b; c] => ((49 <=? a) && (a <=? 53))%N && is_digit b && is_digit c
  | _ => false
  end.

Definition parseInt_code (s : jsstr) : Z := Z.of_N (dec_value s).

Definition parseStatusCodeKey (rawKey : jsstr) : option Z :=
  let normalized := trim rawKey in
  if negb (code_pattern normalized) then None else Some (parseInt_code normalized).

(** A number that is not an integer, and every value that is neither a number nor
    a string, has no code. *)
Definition parseStatusCodeMappingTarget (rawValue : json) : option Z :=
  match rawValue with
  | JNum n =>
      match num_to_Z n with
      | Some z => if (100 <=? z)%Z && (z <=? 599)%Z then Some z else None
      | None => None
      end
  | JStr s =>
      let normalized := trim s in
      if negb (code_pattern normalized) then None
      else
        let code := parseInt_code normalized in
        if (100 <=? code)%Z && (code <=? 599)%Z then Some code else None
  | _ => None
  end.

Definition collectInvalidStatusCodeEntries (statusCodeMappingStr : jsstr) : list jsstr :=
  if negb (nonempty (trim statusCodeMappingStr)) then []
  else
    match parse_object statusCodeMappingStr with
    | None => []
    | Some parsed =>
        flat_map
          (λ '(rawKey, rawValue),
             match parseStatusCodeKey rawKey, parseStatusCodeMappingTarget rawValue with
             | Some _, Some _ => []
             | _, _ => [rawKey ++ " → " ++ json_toString rawValue]
             end)
          (entries parsed)
    end.

Definition risky_text (fromCode toCode : Z) : jsstr :=
  to_dec_Z fromCode ++ " -> " ++ to_dec_Z toCode.

Definition collectDisallowedStatusCodeRedirects (statusCodeMappingStr : jsstr) : list jsstr :=
  if negb (nonempty (trim statusCodeMappingStr)) then []
  else
    match parse_object statusCodeMappingStr with
    | None => []
    | Some parsed =>
        let riskyMappings :=
          flat_map
            (λ '(rawFrom, rawTo),
               match parseStatusCodeKey rawFrom, parseStatusCodeMappingTarget rawTo with
               | Some fromCode, Some toCode =>
                   if negb (existsb (Z.eqb fromCode) NON_REDIRECTABLE_STATUS_CODES) then []
                   else if (fromCode =? toCode)%Z then []
                   else [risky_text fromCode toCode]
               | _, _ => []
               end)
            (entries parsed) in
        str_sort (str_dedup riskyMappings)
    end.

Definition collectNewDisallowedStatusCodeRedirects (originalStr currentStr : jsstr) : list jsstr :=
  let currentRisky := collectDisallowedStatusCodeRedirects currentStr in
  if negb (nonempty currentRisky) then []
  else
    let originalRiskySet := collectDisallowedStatusCodeRedirects originalStr in
    List.filter (λ mapping, negb (str_mem mapping originalRiskySet)) currentRisky.

Example ex_risky :
  collectDisallowedStatusCodeRedirects "{\q524\q: 200, \q 504 \q: \q429\q, \q504\q: 504, \q500\q: 200}"
  = ["504 -> 429"; "524 -> 200"].
Proof. vm_compute. reflexivity. Qed.

Example ex_invalid :
  collectInvalidStatusCodeEntries "{\q52\q: 200, \q504\q: 2.5, \q500\q: 200}"
  = ["52 → 200"; "504 → 2.5"].
Proof. vm_compute. reflexivity. Qed.

(** ** Properties *)

(** A mapping entry that redirects a status code that must not be redirected. *)
Definition risky (str : jsstr) (from to : Z) : Prop :=
  ∃ kvs rawFrom rawTo,
    trim str ≠ [] ∧ parse_object str = Some kvs ∧ (rawFrom, rawTo) ∈ kvs
    ∧ parseStatusCodeKey rawFrom = Some from ∧ parseStatusCodeMappingTarget rawTo = Some to
    ∧ from ∈ NON_REDIRECTABLE_STATUS_CODES ∧ from ≠ to.

Lemma existsb_Zeqb z l : existsb (Z.eqb z) l = true ↔ z ∈ l.
Proof. apply (mem_true Z.eqb). apply Z.eqb_eq. Qed.

Lemma collect_elem str s :
  s ∈ collectDisallowedStatusCodeRedirects str
  ↔ ∃ from to, s = risky_text from to ∧ risky str from to.
Proof.
  unfold collectDisallowedStatusCodeRedirects, risky.
  destruct (trim str) as [|x t]; cbn [nonempty negb].
  { split; [intros H; inversion H|]. by intros (? & ? & _ & ? & ? & ? & Ht & _). }
  destruct (parse_object str) as [kvs|].
  2:{ split; [intros H; inversion H|]. by intros (? & ? & _ & ? & ? & ? & _ & Hp & _). }
  rewrite str_sort_elem, str_dedup_elem, list_elem_of_In, in_flat_map. split.
  - intros ([k v] & Hkv%list_elem_of_In & Hs). rewrite entries_elem in Hkv.
    destruct (parseStatusCodeKey k) as [from|] eqn:E1; [|done].
    destruct (parseStatusCodeMappingTarget v) as [to|] eqn:E2; [|done].
    destruct (existsb (Z.eqb from) _) eqn:E3; [|done].
    destruct (Z.eqb_spec from to); [done|]. destruct Hs as [<-|[]].
    apply existsb_Zeqb in E3. exists from, to. split; [done|]. exists kvs, k, v. by split_and!.
  - intros (from & to & -> & kvs' & k & v & _ & [= <-] & Hkv & E1 & E2 & E3 & Hne).
    exists (k, v). rewrite <- list_elem_of_In, entries_elem. split; [done|].
    rewrite E1, E2. apply existsb_Zeqb in E3. rewrite E3. cbn [negb].
    rewrite (proj2 (Z.eqb_neq _ _) Hne). by left.
Qed.

(** The guard reports exactly the entries that redirect 504 or 524 to
    another valid code, each once and in the order of strings. *)
Theorem disallowed_redirects_exact str :
  let risks := collectDisallowedStatusCodeRedirects str in
  (∀ s, s ∈ risks ↔ ∃ from to, s = risky_text from to ∧ risky str from to)
  ∧ NoDup risks ∧ StronglySorted (λ a b, str_leb a b = true) risks.
Proof.
  cbv zeta. split; [apply collect_elem|].
  unfold collectDisallowedStatusCodeRedirects.
  destruct (negb _); [by repeat constructor|].
  destruct (parse_object str) as [kvs|]; [|by repeat constructor].
  split; [apply str_sort_nodup, str_dedup_nodup|apply str_sort_sorted].
Qed.

(** An edit is asked to be confirmed exactly for the risky redirects it
    adds; leaving the mapping as it was asks for nothing. *)
Theorem new_redirects_exact original current :
  (∀ s, s ∈ collectNewDisallowedStatusCodeRedirects original current
        ↔ s ∈ collectDisallowedStatusCodeRedirects current
          ∧ s ∉ collectDisallowedStatusCodeRedirects original)
  ∧ collectNewDisallowedStatusCodeRedirects original original = [].
Proof.
  assert (H : ∀ o c s, s ∈ collectNewDisallowedStatusCodeRedirects o c
                       ↔ s ∈ collectDisallowedStatusCodeRedirects c
                         ∧ s ∉ collectDisallowedStatusCodeRedirects o).
  { intros o c s. unfold collectNewDisallowedStatusCodeRedirects.
    destruct (collectDisallowedStatusCodeRedirects c) as [|x l]; cbn [nonempty negb].
    - split; [intros H; inversion H|intros [H _]; inversion H].
    - by rewrite elem_of_filterb, negb_true_iff, str_mem_false. }
  split; [apply H|]. destruct (collectNewDisallowedStatusCodeRedirects original original) as [|s l] eqn:E; [done|].
  exfalso. destruct (proj1 (H original original s)); [rewrite E; left|done].
Qed.

End RiskGuard.
