(* ===== verification/ModelMapping.v ===== *)
(** * Model lists and model mappings of a channel

    [features/channels/lib/model-mapping-validation.ts]: the comma-separated list
    of models, and the checks on the JSON object that redirects model names. *)
From Stdlib Require Import NArith ZArith.
From stdpp Require Import list numbers.
From S2P Require Import Prelude JsString JsNumber Json JsArray.

Definition parseModelsString (modelsStr : jsstr) : list jsstr :=
  if nonempty modelsStr
  then List.filter nonempty (map trim (split_char 44 modelsStr))
  else [].

Definition formatModelsArray (models : list jsstr) : jsstr := join "," (str_dedup models).

Definition normalizeModelName (model : jsstr) : jsstr := trim model.

Definition extractMappingSourceModels (modelMapping : jsstr) : list jsstr :=
  let trimmed := trim modelMapping in
  if negb (nonempty trimmed) then []
  else
    match parse_object trimmed with
    | None => []
    | Some parsed => str_dedup (List.filter nonempty (map trim (object_keys parsed)))
    end.

(** [typeof value === 'string' ? value.trim() : undefined]. *)
Definition trimmed_string (value : json) : option jsstr :=
  match value with JStr s => Some (trim s) | _ => None end.

Definition extractRedirectModels (modelMapping : jsstr) : list jsstr :=
  let trimmed := trim modelMapping in
  if negb (nonempty trimmed) then []
  else
    match parse_object trimmed with
    | None => []
    | Some parsed =>
        str_dedup (List.filter nonempty (omap trimmed_string (object_values parsed)))
    end.

(** The loop that compares the two lists position by position. *)
Fixpoint models_differ (current initial : list jsstr) : bool :=
  match current, initial with
  | c :: current', i :: initial' => negb (str_eqb c i) || models_differ current' initial'
  | _, _ => false
  end.

Definition hasModelConfigChanged (currentModels : list jsstr) (currentModelMapping : jsstr)
    (initialModels : list jsstr) (initialModelMapping : jsstr) : bool :=
  if negb (nonempty initialModels) && negb (nonempty initialModelMapping) then true
  else if negb (length currentModels =? length initialModels)%nat then true
  else if models_differ currentModels initialModels then true
  else negb (str_eqb (trim currentModelMapping) (trim initialModelMapping)).

Definition findMissingModelsInMapping (modelMapping : jsstr) (currentModels : list jsstr)
    : list jsstr :=
  if negb (nonempty (trim modelMapping)) then []
  else
    match parse_object modelMapping with
    | None => []
    | Some parsedMapping =>
        let modelSet := str_dedup (map normalizeModelName currentModels) in
        str_dedup
          (List.filter (λ key, nonempty key && negb (str_mem key modelSet))
             (map normalizeModelName (object_keys parsedMapping)))
    end.

(** [{ valid, error? }]: no error is [None]. *)
Definition validateModelMappingJson (modelMapping : jsstr) : bool * option jsstr :=
  if negb (nonempty (trim modelMapping)) then (true, None)
  else
    match JSON_parse modelMapping with
    | None => (false, Some "Model mapping must be valid JSON format")
    | Some (JObj parsed) =>
        if existsb (λ v, match v with JStr _ => false | _ => true end) (object_values parsed)
        then (false, Some "Model mapping values must be strings")
        else (true, None)
    | Some _ => (false, Some "Model mapping must be a valid JSON object")
    end.

Definition findExposedTargetModels (modelMapping : jsstr) (currentModels : list jsstr)
    : list jsstr :=
  let redirectModels := extractRedirectModels modelMapping in
  if negb (nonempty redirectModels) then []
  else
    let modelSet := str_dedup (map normalizeModelName currentModels) in
    List.filter (λ model, str_mem (normalizeModelName model) modelSet) redirectModels.

Record ModelCategories : Type := {
  normalizedCurrentModels : list jsstr;
  normalizedRedirectModels : list jsstr;
  classificationSet : list jsstr;
  redirectOnlySet : list jsstr
}.

Definition categorizeModelsWithRedirect (currentModels redirectModels : list jsstr)
    : ModelCategories :=
  let current := str_dedup (List.filter nonempty (map normalizeModelName currentModels)) in
  let redirect := str_dedup (List.filter nonempty (map normalizeModelName redirectModels)) in
  {| normalizedCurrentModels := current;
     normalizedRedirectModels := redirect;
     classificationSet := str_dedup (current ++ redirect);
     redirectOnlySet := str_dedup (List.filter (λ m, negb (str_mem m current)) redirect) |}.

Definition ex_mapping : jsstr := "{\qgpt-4\q: \q gpt-4o\q, \q10\q: \qx\q, \q2\q: \qgpt-4o\q}".

Example ex_sources : extractMappingSourceModels ex_mapping = ["2"; "10"; "gpt-4"].
Proof. vm_compute. reflexivity. Qed.
Example ex_redirects : extractRedirectModels ex_mapping = ["gpt-4o"; "x"].
Proof. vm_compute. reflexivity. Qed.

(** ** Model lists *)

(** A name the list can hold: not empty, without outer spaces and without commas. *)
Definition list_name (m : jsstr) : bool :=
  nonempty m && trimmed m && forallb (λ c, negb (c =? 44)%N) m.

Lemma list_names_forall (p : jsstr → bool) ms :
  (∀ m, list_name m = true → p m = true) → forallb list_name ms = true → forallb p ms = true.
Proof. intros H. apply forallb_impl, H. Qed.

Lemma forallb_dedup (p : jsstr → bool) ms : forallb p ms = true → forallb p (str_dedup ms) = true.
Proof.
  rewrite !forallb_forall. intros H m Hm. apply H. rewrite <- list_elem_of_In in *.
  by apply str_dedup_elem.
Qed.

Lemma map_trim_id ms : forallb list_name ms = true → map trim ms = ms.
Proof.
  induction ms as [|m ms IH]; [done|]. cbn [forallb map]. unfold list_name at 1.
  intros ?; bool_prop. rewrite IH by done. by rewrite trim_trimmed.
Qed.

Lemma parse_join ms :
  forallb list_name ms = true → parseModelsString (join "," ms) = ms.
Proof.
  intros H. destruct ms as [|m ms']; [done|]. set (ms := m :: ms') in *.
  assert (Hn : forallb nonempty ms = true)
    by (revert H; apply forallb_impl; unfold list_name; intros ? ?; by bool_prop).
  unfold parseModelsString. rewrite (proj2 (nonempty_true _)) by by apply join_ne.
  rewrite split_join; [|done|].
  - rewrite map_trim_id by done. by apply filterb_all.
  - rewrite List.Forall_forall. rewrite forallb_forall in H. intros x Hx. specialize (H x Hx).
    unfold list_name in H. by bool_prop.
Qed.

(** Trimming removes units and adds none. *)
Lemma trim_forallb (p : N → bool) s : forallb p s = true → forallb p (trim s) = true.
Proof.
  destruct (trim_decompose s) as (a & b & E & _). intros H. rewrite E in H.
  by apply forallb_app_true in H as [_ [H _]%forallb_app_true].
Qed.

Lemma parse_names s : forallb list_name (parseModelsString s) = true.
Proof.
  unfold parseModelsString. destruct (nonempty s); [|done].
  apply forallb_forall. intros m [Hm Hn]%filter_In. apply in_map_iff in Hm as (w & <- & Hw).
  pose proof (split_char_no_sep 44 s) as Hf. rewrite List.Forall_forall in Hf.
  unfold list_name. rewrite Hn, trimmed_trim. cbn [andb]. by apply trim_forallb, Hf.
Qed.

(** ** Mappings *)

Definition mapping_key (mapping k : jsstr) : Prop :=
  ∃ kvs key v, trim mapping ≠ [] ∧ parse_object mapping = Some kvs ∧ (key, v) ∈ kvs
    ∧ k = trim key ∧ k ≠ [].

Definition mapping_target (mapping t : jsstr) : Prop :=
  ∃ kvs key v, trim mapping ≠ [] ∧ parse_object (trim mapping) = Some kvs ∧ (key, JStr v) ∈ kvs
    ∧ t = trim v ∧ t ≠ [].

Lemma object_keys_elem kvs k : k ∈ object_keys kvs ↔ ∃ v, (k, v) ∈ kvs.
Proof.
  unfold object_keys. rewrite elem_of_mapb. split.
  - intros ([k' v] & -> & H). rewrite entries_elem in H. eauto.
  - intros [v H]. exists (k, v). by rewrite entries_elem.
Qed.

Lemma object_values_elem kvs v : v ∈ object_values kvs ↔ ∃ k, (k, v) ∈ kvs.
Proof.
  unfold object_values. rewrite elem_of_mapb. split.
  - intros ([k v'] & -> & H). rewrite entries_elem in H. eauto.
  - intros [k H]. exists (k, v). by rewrite entries_elem.
Qed.

Lemma redirect_elem mapping t : t ∈ extractRedirectModels mapping ↔ mapping_target mapping t.
Proof.
  unfold extractRedirectModels, mapping_target. destruct (trim mapping) as [|x w] eqn:Et; cbn [nonempty negb].
  { split; [intros H; inversion H|]. by intros (? & ? & ? & ? & _). }
  destruct (parse_object _) as [kvs|].
  2:{ split; [intros H; inversion H|]. by intros (? & ? & ? & _ & ? & _). }
  rewrite str_dedup_elem, elem_of_filterb, list_elem_of_omap. setoid_rewrite object_values_elem.
  rewrite nonempty_true. split.
  - intros [(v & (k & Hk) & Hv) Hn]. destruct v as [| | |s| |]; try done. injection Hv as <-.
    by exists kvs, k, s.
  - intros (kvs' & k & v & _ & [= <-] & Hk & -> & Hn). split; [|done]. exists (JStr v). eauto.
Qed.

Lemma redirect_nodup mapping : NoDup (extractRedirectModels mapping).
Proof.
  unfold extractRedirectModels. destruct (negb _); [constructor|].
  destruct (parse_object _); [apply str_dedup_nodup|constructor].
Qed.

(** A target is already trimmed. *)
Lemma redirect_trimmed mapping t : t ∈ extractRedirectModels mapping → trim t = t.
Proof. intros (? & ? & v & _ & _ & _ & -> & _)%redirect_elem. apply trim_idem. Qed.

Lemma models_differ_false l l' : length l = length l' → models_differ l l' = false ↔ l = l'.
Proof.
  revert l'; induction l as [|x l IH]; intros [|y l'] Hl; try done.
  cbn [models_differ]. injection Hl as Hl. rewrite orb_false_iff, negb_false_iff, str_eqb_eq, IH by done.
  split; [by intros [-> ->]|by intros [= -> ->]].
Qed.

(** ** The properties *)

(** The list of models survives being written and read: reading the text of
    a list of names gives the names without repetitions, and the names read from
    any text are such names, so writing and reading them again changes nothing
    but repetitions. *)
Theorem models_list_roundtrip s ms :
  (forallb list_name ms = true → parseModelsString (formatModelsArray ms) = str_dedup ms)
  ∧ parseModelsString (formatModelsArray (parseModelsString s)) = str_dedup (parseModelsString s).
Proof.
  assert (H : ∀ ms, forallb list_name ms = true → parseModelsString (formatModelsArray ms) = str_dedup ms)
    by (intros; by apply parse_join, forallb_dedup).
  split; [apply H|]. apply H, parse_names.
Qed.

Lemma models_list_roundtrip_witness :
  parseModelsString (formatModelsArray ["gpt-4"; "o1 mini"; "gpt-4"]) = ["gpt-4"; "o1 mini"].
Proof. apply (models_list_roundtrip [] ["gpt-4"; "o1 mini"; "gpt-4"]). vm_compute. reflexivity. Defined.

(** The missing models reported for a mapping are exactly the trimmed,
    non-empty keys of the mapping object that the trimmed model list lacks, each
    once. *)
Theorem missing_models_exact mapping models :
  let missing := findMissingModelsInMapping mapping models in
  (∀ k, k ∈ missing ↔ mapping_key mapping k ∧ k ∉ map normalizeModelName models) ∧ NoDup missing.
Proof.
  cbv zeta. unfold findMissingModelsInMapping, mapping_key.
  destruct (trim mapping) as [|x w]; cbn [nonempty negb].
  { split; [|constructor]. intros k. split; [intros H; inversion H|].
    by intros [(? & ? & ? & ? & _) _]. }
  destruct (parse_object mapping) as [kvs|].
  2:{ split; [|constructor]. intros k. split; [intros H; inversion H|].
      by intros [(? & ? & ? & _ & ? & _) _]. }
  split; [|apply str_dedup_nodup]. intros k.
  rewrite str_dedup_elem, elem_of_filterb, elem_of_mapb, andb_true_iff, negb_true_iff,
    str_mem_false, str_dedup_elem, nonempty_true. setoid_rewrite object_keys_elem. split.
  - intros ((key & -> & v & Hk) & Hn & Hm). split; [|done]. by exists kvs, key, v.
  - intros ((kvs' & key & v & _ & [= <-] & Hk & -> & Hn) & Hm). split_and!; eauto.
Qed.

(** The exposed targets are exactly the targets of the mapping that are in
    the trimmed model list, each once; removing them from the list leaves no
    target exposed. *)
Theorem exposed_targets_exact mapping models :
  let exposed := findExposedTargetModels mapping models in
  (∀ t, t ∈ exposed ↔ mapping_target mapping t ∧ t ∈ map normalizeModelName models)
  ∧ NoDup exposed
  ∧ findExposedTargetModels mapping
      (List.filter (λ m, negb (str_mem (normalizeModelName m) exposed)) models) = [].
Proof.
  assert (H : ∀ ms t, t ∈ findExposedTargetModels mapping ms
                      ↔ mapping_target mapping t ∧ t ∈ map normalizeModelName ms).
  { intros ms t. rewrite <- redirect_elem. unfold findExposedTargetModels.
    pose proof (redirect_trimmed mapping t) as Ht.
    destruct (extractRedirectModels mapping) as [|x l]; cbn [nonempty negb].
    - split; [intros H; inversion H|intros [H _]; inversion H].
    - rewrite elem_of_filterb, str_mem_true, str_dedup_elem. unfold normalizeModelName at 1.
      split; intros [H1 H2]; split; try done; by rewrite Ht in *. }
  cbv zeta. split_and!; [apply H| |].
  - unfold findExposedTargetModels. destruct (negb _); [constructor|].
    apply NoDup_filterb, redirect_nodup.
  - set (ms' := List.filter _ models). destruct (findExposedTargetModels mapping ms') as [|t l] eqn:E; [done|].
    exfalso. destruct (proj1 (H ms' t)) as [Ht Hm]; [rewrite E; left|].
    apply elem_of_mapb in Hm as (m & -> & [Hm Hf]%elem_of_filterb).
    apply negb_true_iff, str_mem_false in Hf. apply Hf, H. split; [done|].
    apply elem_of_mapb. eauto.
Qed.

(** The categories shown for a channel: the classification is the union of
    the two normalized lists, and it is partitioned by the current models and the
    redirect-only models. *)
Theorem categories_partition current redirect :
  let c := categorizeModelsWithRedirect current redirect in
  (∀ m, m ∈ classificationSet c
        ↔ m ∈ normalizedCurrentModels c ∨ m ∈ normalizedRedirectModels c)
  ∧ (∀ m, m ∈ classificationSet c ↔ m ∈ normalizedCurrentModels c ∨ m ∈ redirectOnlySet c)
  ∧ (∀ m, m ∈ redirectOnlySet c → m ∉ normalizedCurrentModels c)
  ∧ NoDup (classificationSet c).
Proof.
  cbv zeta. cbn [categorizeModelsWithRedirect classificationSet normalizedCurrentModels
    normalizedRedirectModels redirectOnlySet].
  set (cs := str_dedup (List.filter nonempty (map normalizeModelName current))).
  set (rs := str_dedup (List.filter nonempty (map normalizeModelName redirect))).
  split_and!; [intros m; autorewrite with js_set..|apply str_dedup_nodup].
  - by rewrite elem_of_app.
  - rewrite elem_of_app, negb_true_iff, str_mem_false.
    destruct (str_mem m cs) eqn:E; [apply str_mem_true in E|apply str_mem_false in E]; tauto.
  - rewrite negb_true_iff, str_mem_false. tauto.
Qed.

(** Validation accepts a mapping exactly when it is blank or the text of a
    JSON object whose values are all strings. *)
Theorem validate_mapping_exact mapping :
  (validateModelMappingJson mapping).1 = true
  ↔ trim mapping = []
    ∨ ∃ kvs, JSON_parse mapping = Some (JObj kvs) ∧ ∀ k v, (k, v) ∈ kvs → ∃ s, v = JStr s.
Proof.
  unfold validateModelMappingJson. destruct (trim mapping) as [|x w]; cbn [nonempty negb].
  { split; [by left|done]. }
  destruct (JSON_parse mapping) as [[| | | | |kvs]|]; cbn [fst];
    try (split; [done|]; by intros [?|(? & ? & _)]).
  destruct (existsb _ (object_values kvs)) eqn:E; cbn [fst].
  - split; [done|]. intros [?|(kvs' & [= <-] & Hs)]; [done|]. exfalso.
    apply existsb_exists in E as (v & [k Hv]%list_elem_of_In%object_values_elem & Hb).
    destruct (Hs _ _ Hv) as [s ->]. by cbv beta in Hb.
  - split; [|done]. intros _. right. exists kvs. split; [done|]. intros k v Hkv.
    assert (Hv : v ∈ object_values kvs) by (apply object_values_elem; eauto).
    apply list_elem_of_In in Hv. apply not_true_iff_false in E.
    destruct v; eauto; exfalso; apply E, existsb_exists; eauto.
Qed.

(** An edit of an existing channel counts as unchanged exactly when the
    models are the same list and the mapping differs at most in outer spaces. *)
Theorem config_unchanged_exact models mapping models0 mapping0 :
  nonempty models0 || nonempty mapping0 = true →
  hasModelConfigChanged models mapping models0 mapping0 = false
  ↔ models = models0 ∧ trim mapping = trim mapping0.
Proof.
  intros He. unfold hasModelConfigChanged. rewrite <- negb_orb, He. cbn [negb].
  destruct (Nat.eqb_spec (length models) (length models0)) as [El|El]; cbn [negb].
  - destruct (models_differ models models0) eqn:Ed.
    + split; [done|]. intros [-> _]. by rewrite (proj2 (models_differ_false models0 _ eq_refl)) in Ed.
    + apply models_differ_false in Ed; [|done]. rewrite negb_false_iff, str_eqb_eq. tauto.
  - split; [done|]. by intros [-> _].
Qed.

Lemma config_unchanged_exact_witness :
  hasModelConfigChanged ["gpt-4"] " {} " ["gpt-4"] "{}" = false.
Proof. apply config_unchanged_exact; [reflexivity|]. split; reflexivity. Defined.
