(* ===== verification/Messages.v ===== *)
(** * Playground messages

    [features/playground/lib/message-utils.ts] and [lib/payload-builder.ts]: the
    messages of a chat, the separation of reasoning from visible text, streaming,
    finalization, recovery of interrupted messages and the request payload. *)
From Stdlib Require Import NArith ZArith.
From stdpp Require Import list numbers.
From S2P Require Import Prelude JsString JsNumber Json JsArray.

(** ** Types ([types.ts], [constants.ts]) *)

Inductive MessageRole : Type := RUser | RAssistant | RSystem.

Inductive MessageStatus : Type := StLoading | StStreaming | StComplete | StError.

#[export] Instance MessageRole_eq_dec : EqDecision MessageRole.
Proof. solve_decision. Defined.
#[export] Instance MessageStatus_eq_dec : EqDecision MessageStatus.
Proof. solve_decision. Defined.

Record MessageVersion : Type := { v_id : jsstr; v_content : jsstr }.

Record Reasoning : Type := { r_content : jsstr; r_duration : number }.

(** An optional property is [None] when it is absent or [undefined].
    [errorCode?: string | null] holds what the server sent: [Some JNull] is
    [null]. *)
Record Message : Type := {
  key : jsstr;
  from : MessageRole;
  versions : list MessageVersion;
  sources : option (list (jsstr * jsstr));
  reasoning : option Reasoning;
  isReasoningStreaming : option bool;
  isReasoningComplete : option bool;
  isContentComplete : option bool;
  status : option MessageStatus;
  errorCode : option json
}.

Definition API_REQUEST_ERROR : jsstr := "Request error occurred".
Definition PARSE_ERROR : jsstr := "Error parsing response data".
Definition STREAM_START_ERROR : jsstr := "Error establishing connection".
Definition CONNECTION_CLOSED : jsstr := "Connection closed".
Definition INTERRUPTED : jsstr := "Generation was interrupted".

(** ** Updates of single fields: [{ ...m, field: v }] *)

Definition set_versions (v : list MessageVersion) (m : Message) : Message :=
  {| key := key m; from := from m; versions := v; sources := sources m;
     reasoning := reasoning m; isReasoningStreaming := isReasoningStreaming m;
     isReasoningComplete := isReasoningComplete m; isContentComplete := isContentComplete m;
     status := status m; errorCode := errorCode m |}.

Definition set_reasoning (r : option Reasoning) (streaming : bool) (m : Message) : Message :=
  {| key := key m; from := from m; versions := versions m; sources := sources m;
     reasoning := r; isReasoningStreaming := Some streaming;
     isReasoningComplete := isReasoningComplete m; isContentComplete := isContentComplete m;
     status := status m; errorCode := errorCode m |}.

Definition set_status (s : MessageStatus) (m : Message) : Message :=
  {| key := key m; from := from m; versions := versions m; sources := sources m;
     reasoning := reasoning m; isReasoningStreaming := isReasoningStreaming m;
     isReasoningComplete := isReasoningComplete m; isContentComplete := isContentComplete m;
     status := Some s; errorCode := errorCode m |}.

Definition set_error (code : json) (m : Message) : Message :=
  {| key := key m; from := from m; versions := versions m; sources := sources m;
     reasoning := reasoning m; isReasoningStreaming := Some false;
     isReasoningComplete := isReasoningComplete m; isContentComplete := isContentComplete m;
     status := Some StError; errorCode := Some code |}.

(** ** Construction

    [nanoid()] gives fresh identifiers; they are arguments. *)

Definition createMessageVersion (id content : jsstr) : MessageVersion :=
  {| v_id := id; v_content := content |}.

Definition getCurrentVersion (message : Message) : MessageVersion :=
  match versions message with
  | v :: _ => v
  | [] => {| v_id := "default"; v_content := [] |}
  end.

Definition updateCurrentVersionContent (message : Message) (content : jsstr) : Message :=
  set_versions [{| v_id := v_id (getCurrentVersion message); v_content := content |}] message.

Definition createUserMessage (id vid content : jsstr) : Message :=
  {| key := id; from := RUser; versions := [createMessageVersion vid content]; sources := None;
     reasoning := None; isReasoningStreaming := None; isReasoningComplete := None;
     isContentComplete := None; status := None; errorCode := None |}.

Definition createLoadingAssistantMessage (id vid : jsstr) : Message :=
  {| key := id; from := RAssistant; versions := [createMessageVersion vid []]; sources := None;
     reasoning := None; isReasoningStreaming := Some false; isReasoningComplete := Some false;
     isContentComplete := Some false; status := Some StLoading; errorCode := None |}.

(** ** Content with images *)

Inductive ContentPart : Type :=
| PText (text : jsstr)
| PImage (url : jsstr).

Inductive Content : Type :=
| CText (s : jsstr)
| CParts (ps : list ContentPart).

Definition buildMessageContent (text : jsstr) (imageUrls : list jsstr) : Content :=
  let validImages := List.filter (λ url, nonempty (trim url)) imageUrls in
  match validImages with
  | [] => CText text
  | _ => CParts (PText text :: map (λ url, PImage (trim url)) validImages)
  end.

Fixpoint first_text (ps : list ContentPart) : jsstr :=
  match ps with
  | [] => []
  | PText t :: _ => t
  | PImage _ :: r => first_text r
  end.

Definition getTextContent (content : Content) : jsstr :=
  match content with CText s => s | CParts ps => first_text ps end.

Record ChatCompletionMessage : Type := { cm_role : MessageRole; cm_content : jsstr }.

Definition formatMessageForAPI (message : Message) : ChatCompletionMessage :=
  {| cm_role := from message; cm_content := v_content (getCurrentVersion message) |}.

Definition isValidMessage (message : Message) : bool :=
  match versions message with
  | [] => false
  | v :: _ =>
      if bool_decide (from message = RAssistant) && negb (nonempty (trim (v_content v)))
      then false else true
  end.

(** ** Think tags *)

Definition TAG_OPEN : jsstr := "<think>".
Definition TAG_CLOSE : jsstr := "</think>".

(** The [while] loop, on the text from [currentPos] on: the visible parts, the
    reasoning parts and whether a tag is left open.  Every turn consumes both
    tags of a block, so the length of the text bounds the turns. *)
Fixpoint think_loop (fuel : nat) (rest : jsstr) : list jsstr * list jsstr * bool :=
  match fuel with
  | 0 => ([], [], false)
  | S fuel' =>
      match indexOf TAG_OPEN rest with
      | None => (if nonempty rest then [rest] else [], [], false)
      | Some openPos =>
          let visible := if (0 <? openPos)%nat then [take openPos rest] else [] in
          let after := drop (openPos + 7) rest in
          match indexOf TAG_CLOSE after with
          | None => (visible, [after], true)
          | Some closePos =>
              let '(vs, rs, unclosed) := think_loop fuel' (drop (closePos + 8) after) in
              (visible ++ vs, take closePos after :: rs, unclosed)
          end
      end
  end.

Record ThinkResult : Type := {
  visibleContent : jsstr;
  think_reasoning : jsstr;
  hasUnclosedTag : bool
}.

Definition parseThinkTags (content : jsstr) : ThinkResult :=
  if negb (includes TAG_OPEN content) then
    {| visibleContent := content; think_reasoning := []; hasUnclosedTag := false |}
  else
    let '(vs, rs, unclosed) := think_loop (S (length content)) content in
    {| visibleContent := trim (join [] vs); think_reasoning := trim (join "\n\n" rs);
       hasUnclosedTag := unclosed |}.

(** ** Updates of the last message *)

Fixpoint updateLastAssistantMessage (messages : list Message) (updater : Message → Message)
    : list Message :=
  match messages with
  | [] => []
  | [last] => if bool_decide (from last = RAssistant) then [updater last] else [last]
  | m :: rest => m :: updateLastAssistantMessage rest updater
  end.

Definition updateAssistantMessageWithError (messages : list Message) (errorMessage : jsstr)
    (errorCode : option json) : list Message :=
  updateLastAssistantMessage messages (λ message,
    set_error
      (match errorCode with Some c => if json_truthy c then c else JNull | None => JNull end)
      (updateCurrentVersionContent message (API_REQUEST_ERROR ++ ": " ++ errorMessage))).

Definition processStreamingContent (message : Message) (contentChunk : jsstr) : Message :=
  let fullContent := v_content (getCurrentVersion message) ++ contentChunk in
  let t := parseThinkTags fullContent in
  let finalReasoning :=
    if nonempty (think_reasoning t)
    then Some {| r_content := think_reasoning t; r_duration := zero |}
    else reasoning message in
  set_reasoning finalReasoning (hasUnclosedTag t)
    (updateCurrentVersionContent message fullContent).

(** [a || b] on strings. *)
Definition or_str (a b : jsstr) : jsstr := if nonempty a then a else b.

Definition reasoning_text (m : Message) : jsstr :=
  match reasoning m with Some r => r_content r | None => [] end.

Definition reasoning_duration (m : Message) : number :=
  match reasoning m with Some r => num_or (r_duration r) zero | None => zero end.

(** [apiReasoningContent] is the empty string when it is absent. *)
Definition finalizeMessage (message : Message) (apiReasoningContent : jsstr) : Message :=
  let t := parseThinkTags (v_content (getCurrentVersion message)) in
  let finalReasoning :=
    or_str apiReasoningContent (or_str (reasoning_text message) (think_reasoning t)) in
  set_reasoning
    (if nonempty finalReasoning
     then Some {| r_content := finalReasoning; r_duration := reasoning_duration message |}
     else None)
    false
    (updateCurrentVersionContent message (visibleContent t)).

(** ** Recovery of interrupted messages *)

Definition pending (m : Message) : bool :=
  bool_decide (status m = Some StLoading) || bool_decide (status m = Some StStreaming).

Definition stuck (m : Message) : bool := bool_decide (from m = RAssistant) && pending m.

Definition sanitize_message (m : Message) : Message :=
  let finalized := finalizeMessage m [] in
  let hasContent := nonempty (trim (v_content (getCurrentVersion finalized))) in
  let hasReasoning := nonempty (trim (reasoning_text finalized)) in
  if hasContent || hasReasoning
  then set_reasoning (reasoning finalized) false (set_status StComplete finalized)
  else set_reasoning (reasoning finalized) false
         (set_status StError
            (updateCurrentVersionContent finalized (API_REQUEST_ERROR ++ ": " ++ INTERRUPTED))).

(** The loop from the end: [None] is [targetIndex === -1], and the argument is
    then returned as it is. *)
Fixpoint sanitize_last (messages : list Message) : option (list Message) :=
  match messages with
  | [] => None
  | m :: rest =>
      match sanitize_last rest with
      | Some rest' => Some (m :: rest')
      | None => if stuck m then Some (sanitize_message m :: rest) else None
      end
  end.

Definition sanitizeMessagesOnLoad (messages : list Message) : list Message :=
  default messages (sanitize_last messages).

(** ** Request payload *)

Record PlaygroundConfig : Type := {
  cfg_model : jsstr;
  cfg_group : jsstr;
  cfg_temperature : number;
  cfg_top_p : number;
  cfg_max_tokens : number;
  cfg_frequency_penalty : number;
  cfg_presence_penalty : number;
  cfg_seed : option number;
  cfg_stream : bool
}.

Record ParameterEnabled : Type := {
  en_temperature : bool;
  en_top_p : bool;
  en_max_tokens : bool;
  en_frequency_penalty : bool;
  en_presence_penalty : bool;
  en_seed : bool
}.

Inductive Param : Type :=
| PTemperature | PTopP | PMaxTokens | PFrequencyPenalty | PPresencePenalty | PSeed.

#[export] Instance Param_eq_dec : EqDecision Param.
Proof. solve_decision. Defined.

Definition parameterKeys : list Param :=
  [PTemperature; PTopP; PMaxTokens; PFrequencyPenalty; PPresencePenalty; PSeed].

Definition param_enabled (e : ParameterEnabled) (k : Param) : bool :=
  match k with
  | PTemperature => en_temperature e
  | PTopP => en_top_p e
  | PMaxTokens => en_max_tokens e
  | PFrequencyPenalty => en_frequency_penalty e
  | PPresencePenalty => en_presence_penalty e
  | PSeed => en_seed e
  end.

(** [config[key]]; [None] is [null]. *)
Definition config_param (c : PlaygroundConfig) (k : Param) : option number :=
  match k with
  | PTemperature => Some (cfg_temperature c)
  | PTopP => Some (cfg_top_p c)
  | PMaxTokens => Some (cfg_max_tokens c)
  | PFrequencyPenalty => Some (cfg_frequency_penalty c)
  | PPresencePenalty => Some (cfg_presence_penalty c)
  | PSeed => cfg_seed c
  end.

Record ChatCompletionRequest : Type := {
  rq_model : jsstr;
  rq_group : jsstr;
  rq_messages : list ChatCompletionMessage;
  rq_stream : bool;
  rq_params : list (Param * number)
}.

Definition buildChatCompletionPayload (messages : list Message) (config : PlaygroundConfig)
    (parameterEnabled : ParameterEnabled) : ChatCompletionRequest :=
  {| rq_model := cfg_model config;
     rq_group := cfg_group config;
     rq_messages := map formatMessageForAPI (List.filter isValidMessage messages);
     rq_stream := cfg_stream config;
     rq_params :=
       flat_map
         (λ k, if param_enabled parameterEnabled k
               then match config_param config k with Some v => [(k, v)] | None => [] end
               else [])
         parameterKeys |}.

Definition DEFAULT_CONFIG : PlaygroundConfig :=
  {| cfg_model := "gpt-4o"; cfg_group := "default"; cfg_temperature := Number_of_string "0.7";
     cfg_top_p := num_of_Z 1; cfg_max_tokens := num_of_Z 4096; cfg_frequency_penalty := zero;
     cfg_presence_penalty := zero; cfg_seed := None; cfg_stream := true |}.

Definition DEFAULT_PARAMETER_ENABLED : ParameterEnabled :=
  {| en_temperature := true; en_top_p := true; en_max_tokens := false;
     en_frequency_penalty := true; en_presence_penalty := true; en_seed := false |}.

Example ex_think :
  parseThinkTags "a<think>x</think> b <think>y" =
  {| visibleContent := "a b"; think_reasoning := "x\n\ny"; hasUnclosedTag := true |}.
Proof. vm_compute. reflexivity. Qed.

(** ** What [parseThinkTags] computes

    A text is a sequence of blocks, each some visible text followed by a closed
    reasoning block, and a tail that may leave a block open. *)

Inductive Tail : Type :=
| TClosed (visible : jsstr)
| TOpen (visible reason : jsstr).

Definition block_text (b : jsstr * jsstr) : jsstr := b.1 ++ TAG_OPEN ++ b.2 ++ TAG_CLOSE.

Definition tail_text (t : Tail) : jsstr :=
  match t with TClosed v => v | TOpen v r => v ++ TAG_OPEN ++ r end.

Definition render (bs : list (jsstr * jsstr)) (t : Tail) : jsstr :=
  concat (map block_text bs) ++ tail_text t.

(** Visible text holds no opening tag and reasoning no closing tag. *)
Definition wf_pair (v r : jsstr) : bool :=
  negb (includes TAG_OPEN v) && negb (includes TAG_CLOSE r).

Definition wf_blocks (bs : list (jsstr * jsstr)) (t : Tail) : bool :=
  forallb (λ b, wf_pair b.1 b.2) bs
  && match t with TClosed v => negb (includes TAG_OPEN v) | TOpen v r => wf_pair v r end.

Definition tail_visible (t : Tail) : jsstr := match t with TClosed v | TOpen v _ => v end.

Definition block_reasons (bs : list (jsstr * jsstr)) (t : Tail) : list jsstr :=
  map snd bs ++ match t with TClosed _ => [] | TOpen _ r => [r] end.

Definition block_visible (bs : list (jsstr * jsstr)) (t : Tail) : jsstr :=
  concat (map fst bs) ++ tail_visible t.

Definition tail_open (t : Tail) : bool := match t with TClosed _ => false | TOpen _ _ => true end.

Lemma find_open v s :
  includes TAG_OPEN v = false → indexOf TAG_OPEN (v ++ TAG_OPEN ++ s) = Some (length v).
Proof. by apply indexOf_first. Qed.

Lemma find_close r s :
  includes TAG_CLOSE r = false → indexOf TAG_CLOSE (r ++ TAG_CLOSE ++ s) = Some (length r).
Proof. by apply indexOf_first. Qed.

Lemma drop_tag n (a p s : jsstr) : n = length a + length p → drop n (a ++ p ++ s) = s.
Proof.
  intros ->. rewrite drop_app_ge by lia.
  replace (length a + length p - length a) with (length p) by lia. apply drop_app_length.
Qed.

Lemma concat_nonempty (v : jsstr) vs :
  concat ((if nonempty v then [v] else []) ++ vs) = v ++ concat vs.
Proof. by destruct v. Qed.

Lemma pushed_nonempty (v : jsstr) (s : jsstr) :
  (if (0 <? length v)%nat then [take (length v) (v ++ s)] else [])
  = (if nonempty v then [v] else []).
Proof. destruct v; [done|]. by rewrite take_app_length. Qed.

Lemma think_loop_render bs t fuel :
  wf_blocks bs t = true → length (render bs t) < fuel →
  ∃ vs, think_loop fuel (render bs t) = (vs, block_reasons bs t, tail_open t)
        ∧ concat vs = block_visible bs t.
Proof.
  unfold wf_blocks. revert fuel. induction bs as [|[v r] bs IH]; intros fuel Hw Hf;
    (destruct fuel as [|fuel]; [lia|]); cbn [think_loop].
  - unfold render, block_reasons, block_visible in *. cbn [map concat app].
    destruct t as [v|v r]; cbn [tail_text tail_visible tail_open forallb andb] in *.
    + apply negb_true_iff, includes_none in Hw. rewrite Hw. exists (if nonempty v then [v] else []).
      split; [done|]. by destruct v; cbn; rewrite ?app_nil_r.
    + unfold wf_pair in Hw. bool_prop.
      rewrite find_open, drop_tag by done. apply includes_none in H0. rewrite H0.
      rewrite pushed_nonempty. exists (if nonempty v then [v] else []). split; [done|].
      by destruct v; cbn; rewrite ?app_nil_r.
  - cbn [forallb fst snd] in Hw. unfold wf_pair in Hw at 1. bool_prop.
    assert (E : render ((v, r) :: bs) t = v ++ TAG_OPEN ++ (r ++ TAG_CLOSE ++ render bs t)).
    { unfold render, block_text. cbn [map concat fst snd]. by rewrite <- !app_assoc. }
    rewrite E in *. rewrite find_open, drop_tag, find_close, drop_tag, pushed_nonempty by done.
    destruct (IH fuel) as (vs & Hl & Hc).
    { by bool_prop. }
    { rewrite !length_app in Hf. cbn in Hf. lia. }
    rewrite Hl, take_app_length. exists ((if nonempty v then [v] else []) ++ vs). split; [done|].
    rewrite concat_nonempty, Hc. unfold block_visible. cbn [map concat fst].
    by rewrite <- app_assoc.
Qed.

(** Every text is the rendering of such blocks. *)
Lemma render_total s n :
  length s ≤ n → ∃ bs t, wf_blocks bs t = true ∧ s = render bs t.
Proof.
  revert s; induction n as [|n IH]; intros s Hl.
  { destruct s; [|simpl in Hl; lia]. by exists [], (TClosed []). }
  destruct (indexOf TAG_OPEN s) as [i|] eqn:Ei.
  2:{ exists [], (TClosed s). unfold wf_blocks. cbn [forallb andb].
      by rewrite (proj2 (includes_none _ _) Ei). }
  apply indexOf_split in Ei as [Es Hv]; [|done]. set (v := take i s) in *.
  set (a := drop (i + length TAG_OPEN) s) in *.
  destruct (indexOf TAG_CLOSE a) as [j|] eqn:Ej.
  - apply indexOf_split in Ej as [Ea Hr]; [|done]. set (r := take j a) in *.
    set (u := drop (j + length TAG_CLOSE) a) in *. destruct (IH u) as (bs & t & Hw & Hu).
    { rewrite Es, Ea, !length_app in Hl. cbn in Hl. lia. }
    assert (Hp : wf_pair v r = true) by (unfold wf_pair; by rewrite Hv, Hr).
    exists ((v, r) :: bs), t. split; [unfold wf_blocks in *; cbn [forallb fst snd]; by rewrite Hp|].
    rewrite Es, Ea, Hu. unfold render, block_text. cbn [map concat fst snd].
    by rewrite <- !app_assoc.
  - exists [], (TOpen v a). unfold wf_blocks, wf_pair. cbn [forallb andb].
    by rewrite Hv, (proj2 (includes_none _ _) Ej).
Qed.

(** The result on a rendering. *)
Definition think_spec (bs : list (jsstr * jsstr)) (t : Tail) : ThinkResult :=
  match bs, t with
  | [], TClosed v => {| visibleContent := v; think_reasoning := []; hasUnclosedTag := false |}
  | _, _ => {| visibleContent := trim (block_visible bs t);
               think_reasoning := trim (join "\n\n" (block_reasons bs t));
               hasUnclosedTag := tail_open t |}
  end.

Lemma render_tagged bs t :
  (bs ≠ [] ∨ tail_open t = true) → includes TAG_OPEN (render bs t) = true.
Proof.
  intros H. apply includes_true. destruct bs as [|[v r] bs].
  - destruct t as [v|v r]; [by destruct H|]. by exists v, r.
  - exists v, (r ++ TAG_CLOSE ++ render bs t). unfold render, block_text.
    cbn [map concat fst snd]. by rewrite <- !app_assoc.
Qed.

Lemma parse_render bs t : wf_blocks bs t = true → parseThinkTags (render bs t) = think_spec bs t.
Proof.
  intros Hw. destruct (think_loop_render bs t (S (length (render bs t))) Hw) as (vs & Hl & Hc); [lia|].
  unfold parseThinkTags. rewrite Hl, join_concat, Hc.
  destruct bs as [|b bs].
  - destruct t as [v|v r].
    + unfold wf_blocks in Hw. cbn [forallb andb] in Hw. unfold render. cbn [map concat app tail_text].
      by rewrite Hw.
    + by rewrite render_tagged by by right.
  - by rewrite render_tagged by by left.
Qed.

(** ** Recovery *)

Definition stuck_count (ms : list Message) : nat := length (List.filter stuck ms).

Lemma stuck_count_cons m ms : stuck_count (m :: ms) = (if stuck m then 1 else 0) + stuck_count ms.
Proof. unfold stuck_count. cbn [List.filter]. by destruct (stuck m). Qed.

Lemma sanitize_settles m : stuck (sanitize_message m) = false.
Proof.
  unfold sanitize_message. destruct (_ || _); unfold stuck, pending; cbn; by rewrite andb_false_r.
Qed.

Lemma sanitize_last_None ms : sanitize_last ms = None ↔ stuck_count ms = 0.
Proof.
  induction ms as [|m ms IH]; [done|]. rewrite stuck_count_cons. cbn [sanitize_last].
  destruct (sanitize_last ms).
  - assert (stuck_count ms ≠ 0) by (intros H; by apply IH in H). split; [done|].
    destruct (stuck m); lia.
  - rewrite (proj1 IH) by done. by destruct (stuck m).
Qed.

(** The message that recovery changes: the last stuck one. *)
Lemma sanitize_last_Some ms ms' :
  sanitize_last ms = Some ms' →
  ∃ a m b, ms = a ++ m :: b ∧ ms' = a ++ sanitize_message m :: b ∧ stuck m = true
           ∧ stuck_count b = 0.
Proof.
  revert ms'; induction ms as [|m ms IH]; intros ms'; cbn [sanitize_last]; [done|].
  destruct (sanitize_last ms) as [r|] eqn:E.
  - intros [= <-]. destruct (IH r eq_refl) as (a & x & b & -> & -> & Hx & Hb).
    by exists (m :: a), x, b.
  - destruct (stuck m) eqn:Em; [|done]. intros [= <-]. exists [], m, ms.
    split_and!; try done. by apply sanitize_last_None.
Qed.

Lemma stuck_count_app a b : stuck_count (a ++ b) = stuck_count a + stuck_count b.
Proof. unfold stuck_count. by rewrite List.filter_app, length_app. Qed.

Lemma stuck_count_0 ms : stuck_count ms = 0 ↔ ∀ m, m ∈ ms → stuck m = false.
Proof.
  unfold stuck_count. split.
  - intros H m Hm. destruct (stuck m) eqn:E; [|done]. exfalso.
    assert (Hi : m ∈ List.filter stuck ms) by by apply elem_of_filterb.
    destruct (List.filter stuck ms); [inversion Hi|done].
  - intros H. destruct (List.filter stuck ms) as [|m l] eqn:E; [done|]. exfalso.
    assert (Hi : m ∈ List.filter stuck ms) by (rewrite E; left).
    apply elem_of_filterb in Hi as [Hm Hs]. by rewrite H in Hs.
Qed.

(** ** The properties *)

(** C36: [parseThinkTags] is the reader of think blocks: every text is visible
    text interleaved with closed blocks and possibly one block left open, and on
    such a text the result is the visible text, the reasoning of the blocks
    joined by blank lines, and whether a block is open. *)
Theorem parseThinkTags_blocks :
  (∀ content, ∃ bs t, wf_blocks bs t = true ∧ content = render bs t)
  ∧ (∀ bs t, wf_blocks bs t = true → parseThinkTags (render bs t) = think_spec bs t).
Proof. split; [intros s; by apply (render_total s (length s))|apply parse_render]. Qed.

(** Recovery on load repairs the last interrupted message and nothing else:
    the number of interrupted messages drops by one, the other messages and the
    length are unchanged, and a list with at most one interrupted message comes
    out with none. *)
Theorem sanitize_repairs_last ms :
  let ms' := sanitizeMessagesOnLoad ms in
  length ms' = length ms
  ∧ stuck_count ms' = stuck_count ms - 1
  ∧ (stuck_count ms = 0 → ms' = ms)
  ∧ (stuck_count ms ≠ 0 → ∃ a m b, ms = a ++ m :: b ∧ ms' = a ++ sanitize_message m :: b
       ∧ stuck m = true ∧ stuck_count b = 0)
  ∧ (stuck_count ms ≤ 1 → ∀ m, m ∈ ms' → stuck m = false).
Proof.
  cbv zeta. unfold sanitizeMessagesOnLoad. destruct (sanitize_last ms) as [r|] eqn:E; cbn [from_option id].
  - destruct (sanitize_last_Some _ _ E) as (a & m & b & -> & -> & Hm & Hb).
    rewrite !length_app, !stuck_count_app, !stuck_count_cons, Hm, Hb, sanitize_settles. cbn [length].
    split_and!; [lia|lia|lia|intros _; by exists a, m, b|]. intros Hc.
    apply stuck_count_0. rewrite stuck_count_app, stuck_count_cons, sanitize_settles, Hb. lia.
  - apply sanitize_last_None in E. rewrite E. split_and!; try done.
    intros _. by apply stuck_count_0.
Qed.

(** The payload keeps the conversation: its messages are messages of the
    chat in their order, every message with a version that is not a blank
    assistant message is among them and no blank assistant message is; and a
    parameter is sent, once, exactly when it is enabled and has a value. *)
Theorem payload_exact ms config en :
  let p := buildChatCompletionPayload ms config en in
  sublist (rq_messages p) (map formatMessageForAPI ms)
  ∧ (∀ m, m ∈ ms → versions m ≠ [] → from m ≠ RAssistant ∨ trim (v_content (getCurrentVersion m)) ≠ [] →
          formatMessageForAPI m ∈ rq_messages p)
  ∧ (∀ c, c ∈ rq_messages p → cm_role c = RAssistant → trim (cm_content c) ≠ [])
  ∧ (∀ k v, (k, v) ∈ rq_params p ↔ param_enabled en k = true ∧ config_param config k = Some v)
  ∧ NoDup (map fst (rq_params p)).
Proof.
  cbv zeta. cbn [buildChatCompletionPayload rq_messages rq_params]. split_and!.
  - apply map_sublist, filterb_sublist.
  - intros m Hm Hv Hc. apply elem_of_mapb. exists m. split; [done|]. apply elem_of_filterb.
    split; [done|]. unfold isValidMessage, getCurrentVersion in *.
    destruct (versions m) as [|v vs]; [done|]. destruct Hc as [Hc|Hc].
    + by rewrite bool_decide_false.
    + apply nonempty_true in Hc. by rewrite Hc, andb_false_r.
  - intros c (m & -> & [_ Hv]%elem_of_filterb)%elem_of_mapb. cbn [formatMessageForAPI cm_role cm_content].
    unfold isValidMessage, getCurrentVersion in *. intros Ha.
    destruct (versions m) as [|v vs]; [done|]. rewrite bool_decide_true in Hv by done.
    intros Hc. by rewrite Hc in Hv.
  - intros k v. rewrite list_elem_of_In, in_flat_map. split.
    + intros (k' & _ & H). destruct (param_enabled en k') eqn:E1; [|done].
      destruct (config_param config k') eqn:E2; [|done]. destruct H as [[= -> ->]|[]]. done.
    + intros [E1 E2]. exists k. rewrite E1, E2. split; [|by left]. destruct k; cbn; auto 8.
  - cbn [parameterKeys flat_map config_param]. rewrite !map_app.
    destruct (cfg_seed config), en as [[] [] [] [] [] []]; cbn;
      apply (bool_decide_unpack _); vm_compute; exact I.
Qed.
