(* ===== verification/Chat.v ===== *)
(** * The playground chat session

    [hooks/use-stream-request.ts], [hooks/use-chat-handler.ts] and the handlers of
    [features/playground/index.tsx]: a session holds the messages and the two refs
    of the stream hook; the user's actions and the events of the server connection
    are its steps.  The SSE client is a library: its sources are numbered, the
    session records which of them were closed, and the events it emits are inputs. *)
From Stdlib Require Import NArith ZArith.
From stdpp Require Import list numbers.
From S2P Require Import Prelude JsString JsNumber Json JsArray Messages.

(** ** Reading a server message *)

(** [v.k] for the property names used below: [null] throws, other values than
    objects do not have them. *)
Definition get_prop (k : jsstr) (v : json) : exn (option json) :=
  match v with
  | JNull => Throw
  | JObj kvs => Ok (obj_get k kvs)
  | _ => Ok None
  end.

(** [v?.k] and [v?.[0]]; [None] is [undefined]. *)
Definition opt_prop (k : jsstr) (v : option json) : option json :=
  match v with Some (JObj kvs) => obj_get k kvs | _ => None end.

Definition opt_index0 (v : option json) : option json :=
  match v with
  | Some (JArr (x :: _)) => Some x
  | Some (JStr (c :: _)) => Some (JStr [c])
  | Some (JObj kvs) => obj_get "0" kvs
  | _ => None
  end.

(** A truthy value, as the text it is appended as. *)
Definition truthy_text (v : option json) : option jsstr :=
  match v with
  | Some j => if json_truthy j then Some (json_toString j) else None
  | None => None
  end.

Inductive UpdateKind : Type := KReasoning | KContent.

(** The calls of [onUpdate] for one event, in order; [Throw] is the exception
    that the [catch] turns into a parse error. *)
Definition chunk_updates (data : jsstr) : exn (list (UpdateKind * jsstr)) :=
  match JSON_parse data with
  | None => Throw
  | Some chunk =>
      choices ← get_prop "choices" chunk;
      let delta := opt_prop "delta" (opt_index0 choices) in
      match delta with
      | Some d =>
          if json_truthy d then
            let reason := truthy_text (opt_prop "reasoning_content" delta) in
            let content := truthy_text (opt_prop "content" delta) in
            Ok (match reason with Some r => [(KReasoning, r)] | None => [] end
                ++ match content with Some c => [(KContent, c)] | None => [] end)
          else Ok []
      | None => Ok []
      end
  end.

(** The message and the code of an error event; [data] is empty when absent. *)
Definition error_details (data : jsstr) : jsstr * option json :=
  let fallback := or_str data API_REQUEST_ERROR in
  if nonempty data then
    match opt_prop "error" (JSON_parse data) with
    | Some e =>
        if json_truthy e then
          (default fallback (truthy_text (opt_prop "message" (Some e))),
           match opt_prop "code" (Some e) with
           | Some c => if json_truthy c then Some c else None
           | None => None
           end)
        else (fallback, None)
    | None => (fallback, None)
    end
  else (fallback, None).

(** ** Message updates of the chat handler *)

Definition stream_update (kind : UpdateKind) (chunk : jsstr) (message : Message) : Message :=
  if bool_decide (status message = Some StError) then message
  else
    match kind with
    | KReasoning =>
        set_status StStreaming
          (set_reasoning (Some {| r_content := reasoning_text message ++ chunk; r_duration := zero |})
             true message)
    | KContent => set_status StStreaming (processStreamingContent message chunk)
    end.

Definition handleStreamUpdate (kind : UpdateKind) (chunk : jsstr) (prev : list Message)
    : list Message := updateLastAssistantMessage prev (stream_update kind chunk).

Definition complete_message (message : Message) : Message :=
  if bool_decide (status message = Some StComplete) || bool_decide (status message = Some StError)
  then message
  else set_status StComplete (finalizeMessage message []).

Definition handleStreamComplete (prev : list Message) : list Message :=
  updateLastAssistantMessage prev complete_message.

Definition handleStreamError (error : jsstr) (code : option json) (prev : list Message)
    : list Message := updateAssistantMessageWithError prev error code.

Definition stop_message (message : Message) : Message :=
  if pending message then set_status StComplete (finalizeMessage message []) else message.

(** The response of a non-streaming request: content and reasoning of the first
    choice (empty when absent); no choice is [None]. *)
Definition response_message (content reason : jsstr) (message : Message) : Message :=
  set_status StComplete
    (finalizeMessage
       (set_versions
          [{| v_id := match versions message with v :: _ => v_id v | [] => [] end;
              v_content := content |}] message)
       reason).

Definition handleResponse (choice : option (jsstr * jsstr)) (prev : list Message)
    : list Message :=
  match choice with
  | None => prev
  | Some (content, reason) => updateLastAssistantMessage prev (response_message content reason)
  end.

(** ** The session *)

(** [nextSource] numbers the sources that are opened, and [closed] lists those that
    deliver no more data: they were closed, or never started. *)
Record Session : Type := {
  messages : list Message;
  sseSourceRef : option nat;
  isStreamCompleteRef : bool;
  nextSource : nat;
  closed : list nat;
  requests : list ChatCompletionRequest
}.

Definition with_messages (f : list Message → list Message) (s : Session) : Session :=
  {| messages := f (messages s); sseSourceRef := sseSourceRef s;
     isStreamCompleteRef := isStreamCompleteRef s; nextSource := nextSource s;
     closed := closed s; requests := requests s |}.

Definition closeSource (source : nat) (s : Session) : Session :=
  {| messages := messages s; sseSourceRef := None; isStreamCompleteRef := isStreamCompleteRef s;
     nextSource := nextSource s; closed := source :: closed s; requests := requests s |}.

Definition set_complete (s : Session) : Session :=
  {| messages := messages s; sseSourceRef := sseSourceRef s; isStreamCompleteRef := true;
     nextSource := nextSource s; closed := closed s; requests := requests s |}.

Definition handleError (source : nat) (errorMessage : jsstr) (code : option json) (s : Session)
    : Session :=
  if isStreamCompleteRef s then s
  else closeSource source (with_messages (handleStreamError errorMessage code) s).

Definition DONE : jsstr := "[DONE]".

Definition on_message (source : nat) (data : jsstr) (s : Session) : Session :=
  if str_eqb data DONE then
    with_messages handleStreamComplete (closeSource source (set_complete s))
  else
    match chunk_updates data with
    | Ok updates =>
        fold_left (λ s '(kind, chunk), with_messages (handleStreamUpdate kind chunk) s) updates s
    | Throw => handleError source PARSE_ERROR None s
    end.

(** [readyState] is that of the source; [data] is empty when absent. *)
Definition on_error (source : nat) (readyState : Z) (data : jsstr) (s : Session) : Session :=
  if (readyState =? 2)%Z then s
  else let '(msg, code) := error_details data in handleError source msg code s.

Definition on_readystatechange (source : nat) (readyState status : option Z) (s : Session)
    : Session :=
  match readyState, status with
  | Some r, Some st =>
      if (2 <=? r)%Z && negb (st =? 200)%Z
      then handleError source ("HTTP " ++ to_dec_Z st ++ ": " ++ CONNECTION_CLOSED) None s
      else s
  | _, _ => s
  end.

Section chat.
Context (config : PlaygroundConfig) (parameterEnabled : ParameterEnabled).

(** [stream_throws]: whether [source.stream()] throws; the source then never starts, and is
    counted among the closed ones. *)
Definition sendStreamRequest (payload : ChatCompletionRequest) (stream_throws : bool) (s : Session)
    : Session :=
  let opened :=
    {| messages := messages s; sseSourceRef := Some (nextSource s); isStreamCompleteRef := false;
       nextSource := S (nextSource s); closed := closed s; requests := requests s ++ [payload] |} in
  if stream_throws then
    let failed := with_messages (handleStreamError STREAM_START_ERROR None) opened in
    {| messages := messages failed; sseSourceRef := None;
       isStreamCompleteRef := isStreamCompleteRef failed; nextSource := nextSource failed;
       closed := nextSource s :: closed failed; requests := requests failed |}
  else opened.

(** The request is sent; its response is a later event. *)
Definition sendNonStreamingChat (payload : ChatCompletionRequest) (s : Session) : Session :=
  {| messages := messages s; sseSourceRef := sseSourceRef s;
     isStreamCompleteRef := isStreamCompleteRef s; nextSource := nextSource s;
     closed := closed s; requests := requests s ++ [payload] |}.

Definition sendChat (ms : list Message) (stream_throws : bool) (s : Session) : Session :=
  let payload := buildChatCompletionPayload ms config parameterEnabled in
  if cfg_stream config then sendStreamRequest payload stream_throws s
  else sendNonStreamingChat payload s.

Definition stopStream (s : Session) : Session :=
  match sseSourceRef s with Some source => closeSource source s | None => s end.

Definition stopGeneration (s : Session) : Session :=
  with_messages (λ prev, updateLastAssistantMessage prev stop_message) (stopStream s).

Definition isGenerating (s : Session) : bool :=
  match sseSourceRef s with Some _ => true | None => false end.

(** The fresh identifiers of one submission. *)
Record Ids : Type := { id_user : jsstr; id_uv : jsstr; id_assistant : jsstr; id_av : jsstr }.

Definition handleSendMessage (text : jsstr) (ids : Ids) (stream_throws : bool) (s : Session)
    : Session :=
  let newMessages :=
    messages s ++ [createUserMessage (id_user ids) (id_uv ids) text;
                   createLoadingAssistantMessage (id_assistant ids) (id_av ids)] in
  sendChat newMessages stream_throws (with_messages (λ _, newMessages) s).

Fixpoint findIndex (k : jsstr) (ms : list Message) : option nat :=
  match ms with
  | [] => None
  | m :: r => if str_eqb (key m) k then Some 0 else S <$> findIndex k r
  end.

Definition handleRegenerateMessage (k : jsstr) (ids : Ids) (stream_throws : bool) (s : Session)
    : Session :=
  match findIndex k (messages s) with
  | None => s
  | Some messageIndex =>
      let newMessages :=
        take messageIndex (messages s)
        ++ [createLoadingAssistantMessage (id_assistant ids) (id_av ids)] in
      sendChat newMessages stream_throws (with_messages (λ _, newMessages) s)
  end.

(** [editingMessageKey] is the key being edited. *)
Definition applyEdit (k newContent : jsstr) (submit : bool) (ids : Ids) (stream_throws : bool)
    (s : Session) : Session :=
  match findIndex k (messages s) with
  | None => s
  | Some index =>
      let updated :=
        map (λ m, if str_eqb (key m) k
                  then set_versions
                         [{| v_id := match versions m with v :: _ => v_id v | [] => [] end;
                             v_content := newContent |}] m
                  else m) (messages s) in
      let is_user := match updated !! index with
                     | Some m => bool_decide (from m = RUser)
                     | None => false
                     end in
      if negb submit || negb is_user then with_messages (λ _, updated) s
      else
        let toSubmit :=
          take (index + 1) updated
          ++ [createLoadingAssistantMessage (id_assistant ids) (id_av ids)] in
        sendChat toSubmit stream_throws (with_messages (λ _, toSubmit) s)
  end.

Definition handleDeleteMessage (k : jsstr) (s : Session) : Session :=
  with_messages (List.filter (λ m, negb (str_eqb (key m) k))) s.

(** ** Steps *)

Inductive event : Type :=
| EvSend (text : jsstr) (ids : Ids) (stream_throws : bool)
| EvRegenerate (k : jsstr) (ids : Ids) (stream_throws : bool)
| EvEdit (k newContent : jsstr) (submit : bool) (ids : Ids) (stream_throws : bool)
| EvDelete (k : jsstr)
| EvStop
| EvMessage (source : nat) (data : jsstr)
| EvError (source : nat) (readyState : Z) (data : jsstr)
| EvReady (source : nat) (readyState status : option Z)
| EvResponse (choice : option (jsstr * jsstr))
| EvFailure (error : jsstr) (code : option json).

Definition apply_event (s : Session) (e : event) : Session :=
  match e with
  | EvSend text ids t => handleSendMessage text ids t s
  | EvRegenerate k ids t => handleRegenerateMessage k ids t s
  | EvEdit k c submit ids t => applyEdit k c submit ids t s
  | EvDelete k => handleDeleteMessage k s
  | EvStop => stopGeneration s
  | EvMessage source data => on_message source data s
  | EvError source r data => on_error source r data s
  | EvReady source r st => on_readystatechange source r st s
  | EvResponse choice => with_messages (handleResponse choice) s
  | EvFailure error code => with_messages (handleStreamError error code) s
  end.

Definition run (s : Session) (es : list event) : Session := fold_left apply_event es s.

(** A source that was started and is not closed. *)
Definition live (s : Session) (source : nat) : bool :=
  (source <? nextSource s) && bool_decide (source ∉ closed s).

(** The edit form of the message [k], with [newContent] as its text: the message is there,
    both buttons are disabled for a blank or unchanged text, and the one that also submits
    is only shown for a message of the user. *)
Definition edit_enabled (k newContent : jsstr) (submit : bool) (s : Session) : bool :=
  match List.find (λ m, str_eqb (key m) k) (messages s) with
  | None => false
  | Some m =>
      nonempty (trim newContent)
      && negb (str_eqb newContent (match versions m with v :: _ => v_content v | [] => [] end))
      && (negb submit || bool_decide (from m = RUser))
  end.

(** What the page lets happen.  While a stream is open the input and the message actions
    ([useMessageActionGuard]) are disabled, but not the buttons of an edit form that was
    opened before.  Data arrives on sources that are not closed; a source reports its
    errors and its state while it is not closed or, of the last one opened, when it is. *)
Definition allowed (s : Session) (e : event) : bool :=
  match e with
  | EvSend _ _ _ | EvRegenerate _ _ _ | EvDelete _ => negb (isGenerating s)
  | EvEdit k newContent submit _ _ => edit_enabled k newContent submit s
  | EvStop => true
  | EvMessage source _ => live s source
  | EvError source _ _ | EvReady source _ _ => live s source || (S source =? nextSource s)
  | EvResponse _ | EvFailure _ _ => negb (cfg_stream config)
  end.

Inductive step : Session → Session → Prop :=
| step_event s e : allowed s e = true → step s (apply_event s e).

Inductive reachable (s0 : Session) : Session → Prop :=
| reach_refl : reachable s0 s0
| reach_step s s' : reachable s0 s → step s s' → reachable s0 s'.

(** An edit is submitted while a stream is open, which the page does not prevent: it opens
    a second stream beside the first. *)
Definition submits_over (s : Session) (e : event) : bool :=
  match e with EvEdit _ _ true _ _ => isGenerating s | _ => false end.

(** The states reached without that. *)
Inductive reachable_in_turn (s0 : Session) : Session → Prop :=
| turn_refl : reachable_in_turn s0 s0
| turn_step s e :
    reachable_in_turn s0 s → allowed s e = true → submits_over s e = false →
    reachable_in_turn s0 (apply_event s e).

End chat.

(** ** Updates of the last message *)

Lemma updateLast_snoc ms m f :
  updateLastAssistantMessage (ms ++ [m]) f
  = ms ++ [if bool_decide (from m = RAssistant) then f m else m].
Proof.
  induction ms as [|x ms IH]; cbn [app].
  - cbn [updateLastAssistantMessage]. by destruct (bool_decide _).
  - destruct ms as [|y ms]; cbn [app updateLastAssistantMessage] in *; by rewrite IH.
Qed.

(** The status of a message is final. *)
Definition settled (m : Message) : bool := negb (pending m).

Lemma updateLast_settled f ms :
  (∀ m, settled m = true → settled (f m) = true) →
  forallb settled ms = true → forallb settled (updateLastAssistantMessage ms f) = true.
Proof.
  intros Hf. induction ms as [|m ms _] using rev_ind; [done|].
  rewrite updateLast_snoc, !forallb_app. cbn [forallb]. intros ?; bool_prop; [done| |done].
  destruct (bool_decide _); auto.
Qed.

Lemma updateLast_settles f ms m :
  (∀ m, settled (f m) = true) → from m = RAssistant → forallb settled ms = true →
  forallb settled (updateLastAssistantMessage (ms ++ [m]) f) = true.
Proof.
  intros Hf Ha Hs. rewrite updateLast_snoc, bool_decide_true, forallb_app, Hs by done.
  cbn [forallb]. by rewrite Hf.
Qed.

Lemma settled_error c m : settled (set_error c m) = true.
Proof. done. Qed.

Lemma settled_complete m : settled (complete_message m) = true.
Proof.
  unfold complete_message. destruct (_ || _) eqn:E; [|done].
  unfold settled, pending. apply orb_true_iff in E as [E%bool_decide_eq_true|E%bool_decide_eq_true];
    by rewrite E.
Qed.

Lemma settled_stop m : settled (stop_message m) = true.
Proof. unfold stop_message, settled. destruct (pending m) eqn:E; [done|]. by rewrite E. Qed.

Lemma from_update kind chunk m : from (stream_update kind chunk m) = from m.
Proof. unfold stream_update. destruct (bool_decide _); [done|]. by destruct kind. Qed.

#[export] Hint Resolve settled_error settled_complete settled_stop : js.

(** ** The invariant of streaming sessions *)

Definition all_settled (s : Session) : Prop := forallb settled (messages s) = true.

Definition last_assistant (s : Session) : Prop :=
  ∃ ms m, messages s = ms ++ [m] ∧ from m = RAssistant ∧ forallb settled ms = true.

(** The current source is the only one that is not closed, and the last that was opened. *)
Definition sole_source (s : Session) : Prop :=
  (∀ n, live s n = true → sseSourceRef s = Some n)
  ∧ (∀ n, sseSourceRef s = Some n → live s n = true ∧ nextSource s = S n)
  ∧ ∀ n, n ∈ closed s → n < nextSource s.

(** No stream is open. *)
Definition no_source (s : Session) : Prop :=
  sseSourceRef s = None ∧ (∀ n, live s n = false) ∧ ∀ n, n ∈ closed s → n < nextSource s.

Lemma no_source_sole s : no_source s → sole_source s.
Proof. intros (Hr & Hn & Hc). split_and!; [intros n; by rewrite Hn|intros n; by rewrite Hr|done]. Qed.

Lemma idle_no_source s : sole_source s → sseSourceRef s = None → no_source s.
Proof.
  intros (H1 & _ & Hc) Hr. split_and!; [done| |done]. intros n.
  destruct (live s n) eqn:E; [|done]. apply H1 in E. congruence.
Qed.

Lemma sole_frame s s' :
  sseSourceRef s' = sseSourceRef s → nextSource s' = nextSource s → closed s' = closed s →
  sole_source s → sole_source s'.
Proof. intros E1 E2 E3. unfold sole_source, live. by rewrite E1, E2, E3. Qed.

(** The source an error or a state comes from. *)
Definition reports (s : Session) (src : nat) : Prop := live s src || (S src =? nextSource s) = true.

Lemma reports_current s src n :
  sole_source s → sseSourceRef s = Some n → reports s src → src = n.
Proof.
  intros (H1 & H2 & _) Hn [H|H%Nat.eqb_eq]%orb_true_iff.
  - apply H1 in H. congruence.
  - apply H2 in Hn as [_ Hn]. lia.
Qed.

Lemma reports_opened s src : reports s src → src < nextSource s.
Proof.
  unfold reports, live. intros [[H%Nat.ltb_lt _]%andb_prop|H%Nat.eqb_eq]%orb_true_iff; lia.
Qed.

Lemma live_close src s n : live (closeSource src s) n = bool_decide (n ≠ src) && live s n.
Proof.
  unfold live. cbn [closeSource nextSource closed].
  destruct (n <? nextSource s); [|by rewrite andb_false_r]. cbn [andb].
  rewrite <- bool_decide_and. apply bool_decide_ext. by rewrite not_elem_of_cons.
Qed.

Lemma close_no_source src s : sole_source s → reports s src → no_source (closeSource src s).
Proof.
  intros Hs Hr. split_and!; [done| |].
  - intros n. rewrite live_close. destruct (live s n) eqn:E; [|apply andb_false_r].
    rewrite (reports_current s src n Hs (proj1 Hs n E) Hr). by rewrite bool_decide_false by auto.
  - cbn [closeSource closed nextSource]. intros n [->|Hn]%elem_of_cons; [by apply reports_opened|].
    by apply Hs.
Qed.

Definition inv (s : Session) : Prop :=
  sole_source s ∧ match sseSourceRef s with None => all_settled s | Some _ => last_assistant s end.

Lemma error_settles s msg code :
  inv s → forallb settled (handleStreamError msg code (messages s)) = true.
Proof.
  unfold inv, handleStreamError, updateAssistantMessageWithError.
  destruct (sseSourceRef s); intros [_ H].
  - destruct H as (ms & m & -> & Ha & Hs). apply updateLast_settles; auto with js.
  - apply updateLast_settled; auto with js.
Qed.

Lemma handleError_inv src msg code s : reports s src → inv s → inv (handleError src msg code s).
Proof.
  intros Hr Hi. unfold handleError. destruct (isStreamCompleteRef s); [done|]. split.
  - apply no_source_sole, close_no_source; [|done]. by apply (sole_frame s), Hi.
  - exact (error_settles s msg code Hi).
Qed.

Lemma update_inv kind chunk s src :
  sseSourceRef s = Some src → inv s →
  sseSourceRef (with_messages (handleStreamUpdate kind chunk) s) = Some src
  ∧ inv (with_messages (handleStreamUpdate kind chunk) s).
Proof.
  intros E [Hsole Hi]. split; [done|]. split; [by apply (sole_frame s)|]. revert Hi.
  cbn [with_messages sseSourceRef]. rewrite E.
  intros (ms & m & Em & Ha & Hs). unfold last_assistant.
  cbn [with_messages messages]. rewrite Em. unfold handleStreamUpdate. rewrite updateLast_snoc, bool_decide_true by done.
  exists ms, (stream_update kind chunk m). by rewrite from_update.
Qed.

Lemma live_reports s src : live s src = true → reports s src.
Proof. unfold reports. by intros ->. Qed.

Lemma message_inv src data s : live s src = true → inv s → inv (on_message src data s).
Proof.
  intros Hl Hi. pose proof (proj1 (proj1 Hi) src Hl) as E. unfold on_message. destruct (str_eqb data DONE).
  - destruct Hi as [Hsole Hi]. rewrite E in Hi. destruct Hi as (ms & m & Em & Ha & Hs). split.
    + apply (sole_frame (closeSource src (set_complete s))); [done..|]. apply no_source_sole, close_no_source.
      * by apply (sole_frame s).
      * by apply live_reports.
    + cbn [with_messages closeSource set_complete sseSourceRef]. unfold all_settled.
      cbn [with_messages closeSource set_complete messages].
      rewrite Em. apply updateLast_settles; auto with js.
  - destruct (chunk_updates data) as [us|]; [|by apply handleError_inv; [apply live_reports|]].
    clear Hl. revert s E Hi. induction us as [|[kind chunk] us IH]; intros s E Hi; cbn [fold_left]; [done|].
    destruct (update_inv kind chunk s src E Hi). by apply IH.
Qed.

(** A new stream when none is open. *)
Lemma open_sole payload throws s : no_source s → sole_source (sendStreamRequest payload throws s).
Proof.
  intros (Hr & Hn & Hc). unfold sendStreamRequest.
  assert (Hold : ∀ n, n < nextSource s → n ∈ closed s).
  { intros n Hlt. specialize (Hn n). unfold live in Hn. rewrite (proj2 (Nat.ltb_lt _ _) Hlt) in Hn.
    cbn [andb] in Hn. apply bool_decide_eq_false in Hn. by apply dec_stable. }
  destruct throws.
  - apply no_source_sole. split_and!; [done| |]; cbn [with_messages nextSource closed].
    + intros n. unfold live. cbn [nextSource closed].
      destruct (Nat.ltb_spec n (S (nextSource s))); [|done]. cbn [andb]. apply bool_decide_eq_false.
      intros Hnot. apply Hnot. apply elem_of_cons. destruct (decide (n = nextSource s)); [by left|].
      right. apply Hold. lia.
    + intros n [->|Hin%Hc]%elem_of_cons; lia.
  - split_and!; cbn [sseSourceRef nextSource closed].
    + intros n. unfold live. cbn [nextSource closed]. intros [H1%Nat.ltb_lt H2%bool_decide_eq_true]%andb_prop.
      destruct (decide (n = nextSource s)) as [->|]; [done|]. destruct H2. apply Hold. lia.
    + intros n [= <-]. split; [|done]. unfold live. cbn [nextSource closed].
      rewrite (proj2 (Nat.ltb_lt _ _)) by lia. apply bool_decide_eq_true. intros Hin%Hc. lia.
    + intros n Hin%Hc. lia.
Qed.

Section streaming.
Context (config : PlaygroundConfig) (en : ParameterEnabled) (Hstream : cfg_stream config = true).

(** Sending from settled messages with a placeholder at the end. *)
Lemma send_inv ms id vid throws s :
  no_source s → forallb settled ms = true →
  let new := ms ++ [createLoadingAssistantMessage id vid] in
  inv (sendChat config en new throws (with_messages (λ _, new) s)).
Proof.
  intros Hn Hs new. unfold sendChat. rewrite Hstream. split; [by apply open_sole|].
  unfold sendStreamRequest, all_settled.
  destruct throws; cbn [with_messages sseSourceRef messages].
  - unfold handleStreamError, updateAssistantMessageWithError.
    apply updateLast_settles; auto with js.
  - by exists ms, (createLoadingAssistantMessage id vid).
Qed.

Lemma idle_settled s :
  isGenerating s = false → inv s → no_source s ∧ forallb settled (messages s) = true.
Proof.
  unfold isGenerating, inv. intros Hg [Hs Hi]. destruct (sseSourceRef s) eqn:E; [done|].
  split; [by apply idle_no_source|done].
Qed.

Lemma forallb_take (p : Message → bool) n ms : forallb p ms = true → forallb p (take n ms) = true.
Proof.
  intros H. rewrite <- (take_drop n ms) in H. by apply forallb_app_true in H as [H _].
Qed.

Lemma edit_settled k c ms :
  forallb settled ms = true →
  forallb settled
    (map (λ m, if str_eqb (key m) k
               then set_versions
                      [{| v_id := match versions m with v :: _ => v_id v | [] => [] end;
                          v_content := c |}] m
               else m) ms) = true.
Proof.
  induction ms as [|m ms IH]; cbn [map forallb]; [done|]. intros ?; bool_prop; [|auto].
  by destruct (str_eqb (key m) k).
Qed.

Lemma edit_inv k c submit ids throws s :
  negb (submit && isGenerating s) = true → inv s → inv (applyEdit config en k c submit ids throws s).
Proof.
  intros Hg Hi. unfold applyEdit. destruct (findIndex k (messages s)) as [i|]; [|done].
  set (f := λ m : Message, if str_eqb (key m) k then _ else m).
  destruct (negb submit || _) eqn:E.
  - clear E Hg. destruct Hi as [Hsole Hi]. split; [by apply (sole_frame s)|].
    cbn [with_messages sseSourceRef]. unfold all_settled, last_assistant in *.
    cbn [with_messages messages]. destruct (sseSourceRef s); [|by apply edit_settled].
    destruct Hi as (ms & m & -> & Ha & Hs). exists (map f ms), (f m).
    split; [by rewrite map_app|]. split; [|by apply edit_settled].
    unfold f. by destruct (str_eqb (key m) k).
  - bool_prop. subst submit. cbn [andb] in Hg. destruct (idle_settled s Hg Hi) as [Hn Hs].
    by apply send_inv, forallb_take, edit_settled.
Qed.

Lemma step_inv s e :
  allowed config s e = true → submits_over s e = false → inv s → inv (apply_event config en s e).
Proof.
  intros Ha Ho Hi. destruct e; cbn [apply_event allowed submits_over] in *.
  - apply negb_true_iff in Ha. destruct (idle_settled s Ha Hi) as [Hn Hs]. unfold handleSendMessage.
    set (u := createUserMessage _ _ _). set (a := createLoadingAssistantMessage _ _).
    replace (messages s ++ [u; a]) with ((messages s ++ [u]) ++ [a]) by by rewrite <- app_assoc.
    apply send_inv; [done|]. by rewrite forallb_app, Hs.
  - apply negb_true_iff in Ha. destruct (idle_settled s Ha Hi) as [Hn Hs]. unfold handleRegenerateMessage.
    destruct (findIndex k (messages s)); [|done]. by apply send_inv, forallb_take.
  - apply edit_inv; [|done]. destruct submit; [by rewrite Ho|done].
  - apply negb_true_iff in Ha. destruct (idle_settled s Ha Hi) as [Hn Hs]. unfold handleDeleteMessage.
    split; [by apply (sole_frame s), Hi|]. cbn [with_messages sseSourceRef]. destruct Hn as [-> _].
    unfold all_settled. cbn [with_messages messages]. rewrite forallb_forall in *.
    intros m [Hm _]%filter_In. auto.
  - unfold stopGeneration, stopStream. destruct Hi as [Hsole Hi]. destruct (sseSourceRef s) as [src|] eqn:E.
    + split.
      * apply (sole_frame (closeSource src s)); [done..|]. apply no_source_sole, close_no_source; [done|].
        apply live_reports, Hsole, E.
      * destruct Hi as (ms & m & Em & Hf & Hs). cbn. unfold all_settled. cbn. rewrite Em.
        apply updateLast_settles; auto with js.
    + split; [by apply (sole_frame s)|]. cbn. rewrite E. unfold all_settled. cbn.
      apply updateLast_settled; auto with js.
  - by apply message_inv.
  - unfold on_error. destruct (_ =? 2)%Z; [done|]. destruct (error_details data).
    by apply handleError_inv.
  - unfold on_readystatechange. repeat case_match; try done. by apply handleError_inv.
  - by rewrite Hstream in Ha.
  - by rewrite Hstream in Ha.
Qed.

Lemma reachable_inv s0 s : inv s0 → reachable_in_turn config en s0 s → inv s.
Proof. intros H0. induction 1; [done|]. by apply step_inv. Qed.
End streaming.

(** ** Streaming a content in chunks *)

(** Deliver content chunks to a message, as [onUpdate('content', chunk)] does. *)
Definition stream_content (chunks : list jsstr) (m : Message) : Message :=
  fold_left (λ m chunk, stream_update KContent chunk m) chunks m.

Lemma stream_step chunk m :
  status m ≠ Some StError →
  let m' := stream_update KContent chunk m in
  status m' = Some StStreaming
  ∧ v_content (getCurrentVersion m') = v_content (getCurrentVersion m) ++ chunk
  ∧ v_id (getCurrentVersion m') = v_id (getCurrentVersion m)
  ∧ key m' = key m ∧ from m' = from m
  ∧ reasoning m'
    = (let r := think_reasoning (parseThinkTags (v_content (getCurrentVersion m) ++ chunk)) in
       if nonempty r then Some {| r_content := r; r_duration := zero |} else reasoning m).
Proof. intros H. unfold stream_update. rewrite bool_decide_false by done. done. Qed.

Lemma stream_content_spec chunks m :
  status m ≠ Some StError → chunks ≠ [] →
  let m' := stream_content chunks m in
  status m' = Some StStreaming
  ∧ v_content (getCurrentVersion m') = v_content (getCurrentVersion m) ++ concat chunks
  ∧ v_id (getCurrentVersion m') = v_id (getCurrentVersion m) ∧ key m' = key m ∧ from m' = from m
  ∧ (let r := think_reasoning (parseThinkTags (v_content (getCurrentVersion m) ++ concat chunks)) in
     r ≠ [] → reasoning m' = Some {| r_content := r; r_duration := zero |}).
Proof.
  revert m. induction chunks as [|c cs IH]; intros m Hs Hne; [done|]. cbv zeta.
  cbn [stream_content fold_left]. fold (stream_content cs (stream_update KContent c m)).
  destruct (stream_step c m Hs) as (S1 & S2 & S3 & S4 & S5 & S6).
  destruct cs as [|c' cs].
  - cbn [stream_content fold_left concat]. rewrite app_nil_r.
    split_and!; try done. intros Hr. rewrite S6. cbv zeta. by rewrite (proj2 (nonempty_true _) Hr).
  - set (m1 := stream_update KContent c m) in *. destruct (IH m1) as (I1 & I2 & I3 & I4 & I5 & I6);
      [by rewrite S1|done|]. rewrite S2 in I2, I6.
    cbn [concat] in *. rewrite <- !app_assoc in I2, I6.
    split_and!; [done|done|by rewrite I3|by rewrite I4|by rewrite I5|done].
Qed.

(** The reasoning of a message that completes while streaming. *)
Lemma complete_reasoning m :
  status m = Some StStreaming →
  reasoning (complete_message m)
  = (let r := or_str (reasoning_text m)
                (think_reasoning (parseThinkTags (v_content (getCurrentVersion m)))) in
     if nonempty r then Some {| r_content := r; r_duration := reasoning_duration m |} else None).
Proof. intros H. unfold complete_message. by rewrite H. Qed.

(** ** The properties *)

(** C13: in a streaming session no message is left loading or streaming once no
    stream is open.  From a state without an open stream where this holds, it holds in
    every reachable state, whatever the user does and whatever the connection delivers,
    as long as no edit is submitted while an answer streams ([reachable_in_turn]); the
    page does not prevent that, see [submit_over_stream] for what happens then. *)
Theorem no_stuck_message config en s0 s :
  cfg_stream config = true → no_source s0 → forallb settled (messages s0) = true →
  reachable_in_turn config en s0 s → isGenerating s = false →
  ∀ m, m ∈ messages s → pending m = false.
Proof.
  intros Hc H0 Hs Hr Hg m Hm.
  assert (Hi : inv s).
  { apply (reachable_inv config en Hc s0); [|done]. split; [by apply no_source_sole|].
    by rewrite (proj1 H0). }
  destruct (idle_settled s Hg Hi) as [_ Ha]. rewrite forallb_forall in Ha.
  apply negb_true_iff, Ha. by apply list_elem_of_In.
Qed.

Definition ex_empty : Session :=
  {| messages := []; sseSourceRef := None; isStreamCompleteRef := false; nextSource := 0;
     closed := []; requests := [] |}.
Definition ex_ids : Ids := {| id_user := "u"; id_uv := "uv"; id_assistant := "a"; id_av := "av" |}.
Definition ex_events : list event :=
  [EvSend "hi" ex_ids false;
   EvMessage 0 "{\qchoices\q:[{\qdelta\q:{\qcontent\q:\q<think>x</think>yes\q}}]}";
   EvMessage 0 "[DONE]"].

Lemma no_stuck_message_witness :
  Forall (λ m, pending m = false)
    (messages (run DEFAULT_CONFIG DEFAULT_PARAMETER_ENABLED ex_empty ex_events)).
Proof.
  apply list.Forall_forall. apply (no_stuck_message DEFAULT_CONFIG DEFAULT_PARAMETER_ENABLED ex_empty);
    try (vm_compute; reflexivity).
  - split_and!; [reflexivity..|]. intros n Hn. by apply not_elem_of_nil in Hn.
  - unfold run, ex_events. cbn [fold_left].
    repeat (apply turn_step; [|vm_compute; reflexivity|vm_compute; reflexivity]). apply turn_refl.
Defined.

(** C34: the answer shown does not depend on how the server cuts it: streaming any content
    chunks into a placeholder and completing it shows the visible part of the whole
    text, keeps the message's identity, and shows the text's reasoning whenever the whole
    text has some.  Only content chunks are covered, and when the whole text has no
    reasoning the completed message may keep a piece of a cut tag as its reasoning
    ([empty_think_depends_on_chunks]). *)
Theorem streaming_chunking chunks id vid :
  chunks ≠ [] →
  let whole := parseThinkTags (concat chunks) in
  let final := complete_message (stream_content chunks (createLoadingAssistantMessage id vid)) in
  status final = Some StComplete ∧ key final = id
  ∧ getCurrentVersion final = {| v_id := vid; v_content := visibleContent whole |}
  ∧ (think_reasoning whole ≠ [] →
     reasoning final = Some {| r_content := think_reasoning whole; r_duration := zero |}).
Proof.
  intros Hne. cbv zeta. set (m0 := createLoadingAssistantMessage id vid).
  destruct (stream_content_spec chunks m0) as (S1 & S2 & S3 & S4 & S5 & S6); [done..|].
  cbn [getCurrentVersion m0 versions createLoadingAssistantMessage createMessageVersion v_content
    v_id key app] in S2, S3, S4, S6.
  unfold complete_message. rewrite S1. cbn [bool_decide orb].
  rewrite !bool_decide_false by done. cbn [orb].
  split_and!; [done|done| |].
  - unfold set_status, finalizeMessage, set_reasoning, updateCurrentVersionContent, set_versions.
    cbn [getCurrentVersion versions]. rewrite S2. by rewrite S3.
  - intros Hr. specialize (S6 Hr). unfold set_status, finalizeMessage, set_reasoning. cbn [reasoning].
    unfold reasoning_text, reasoning_duration. rewrite S2, S6. cbn [r_content r_duration or_str nonempty].
    unfold or_str. cbn [nonempty].
    apply nonempty_true in Hr. by rewrite !Hr.
Qed.

Lemma streaming_chunking_witness :
  getCurrentVersion
    (complete_message
       (stream_content ["<thi"; "nk>why</th"; "ink> yes"] (createLoadingAssistantMessage "k" "v")))
  = {| v_id := "v"; v_content := "yes" |}.
Proof.
  destruct (streaming_chunking ["<thi"; "nk>why</th"; "ink> yes"] "k" "v") as (_ & _ & H & _);
    [discriminate|]. rewrite H. vm_compute. reflexivity.
Defined.

(** The reasoning does depend on the cuts when the text's own reasoning is
    empty: a chunk that ends inside the closing tag of an empty block leaves the
    piece of the tag as the reasoning of the completed message, while the same
    text in one chunk has none. *)
Theorem empty_think_depends_on_chunks id vid answer :
  includes TAG_OPEN answer = false → trim answer = answer →
  let start := createLoadingAssistantMessage id vid in
  reasoning (complete_message (stream_content ["<think></thin"; "k>" ++ answer] start))
  = Some {| r_content := "</thin"; r_duration := zero |}
  ∧ reasoning (complete_message (stream_content ["<think></think>" ++ answer] start)) = None.
Proof.
  intros Hi Ht. cbv zeta. set (m0 := createLoadingAssistantMessage id vid).
  assert (Hp : parseThinkTags ("<think></think>" ++ answer)
               = {| visibleContent := answer; think_reasoning := []; hasUnclosedTag := false |}).
  { change ("<think></think>" ++ answer) with (render [([], [])] (TClosed answer)).
    rewrite parse_render by (unfold wf_blocks; cbn [forallb]; by rewrite Hi). unfold think_spec, block_visible.
    cbn [map concat fst app tail_visible]. rewrite Ht. done. }
  split.
  - destruct (stream_step "<think></thin" m0) as (S1 & S2 & S3 & S4 & S5 & S6); [done|].
    set (m1 := stream_update KContent "<think></thin" m0) in *.
    destruct (stream_step ("k>" ++ answer) m1) as (T1 & T2 & T3 & T4 & T5 & T6); [by rewrite S1|].
    cbn [stream_content fold_left]. fold m1. rewrite complete_reasoning by done.
    change (v_content (getCurrentVersion m1) = "<think></thin") in S2. rewrite S2 in T2, T6.
    change ("<think></thin" ++ "k>" ++ answer) with ("<think></think>" ++ answer) in T2, T6.
    rewrite Hp in T6. cbn [think_reasoning nonempty] in T6.
    change (reasoning m1 = Some {| r_content := "</thin"; r_duration := zero |}) in S6.
    unfold reasoning_text, reasoning_duration. by rewrite T6, S6.
  - destruct (stream_step ("<think></think>" ++ answer) m0) as (S1 & S2 & S3 & S4 & S5 & S6); [done|].
    cbn [stream_content fold_left]. rewrite complete_reasoning by done.
    change (v_content (getCurrentVersion m0)) with (@nil N) in *. rewrite app_nil_l in S2, S6.
    rewrite Hp in S6. cbn [think_reasoning nonempty] in S6.
    unfold reasoning_text, reasoning_duration. by rewrite S6, S2, Hp.
Qed.

Lemma empty_think_depends_on_chunks_witness :
  reasoning (complete_message
    (stream_content ["<think></thin"; "k>ok"] (createLoadingAssistantMessage "k" "v")))
  = Some {| r_content := "</thin"; r_duration := zero |}.
Proof. apply (empty_think_depends_on_chunks "k" "v" "ok"); vm_compute; reflexivity. Defined.

(** Two requests without streaming may overlap, because nothing marks the
    session as generating: when a second message is sent before the first answer
    arrives, both answers are written into the second placeholder and the first
    one stays loading. *)
Theorem overlapping_requests config en s t1 t2 ids1 ids2 b1 b2 c1 r1 c2 r2 :
  cfg_stream config = false → isGenerating s = false →
  let first := EvSend t1 ids1 b1 in
  let second := EvSend t2 ids2 b2 in
  let s1 := apply_event config en s first in
  let final := run config en s
                 [first; second; EvResponse (Some (c1, r1)); EvResponse (Some (c2, r2))] in
  allowed config s1 second = true
  ∧ messages final
    = messages s
      ++ [createUserMessage (id_user ids1) (id_uv ids1) t1;
          createLoadingAssistantMessage (id_assistant ids1) (id_av ids1);
          createUserMessage (id_user ids2) (id_uv ids2) t2;
          response_message c2 r2
            (response_message c1 r1
               (createLoadingAssistantMessage (id_assistant ids2) (id_av ids2)))].
Proof.
  intros Hc Hg. cbv zeta. split.
  - cbn [allowed apply_event]. unfold handleSendMessage, sendChat. rewrite Hc.
    unfold isGenerating in *. by cbn [sendNonStreamingChat with_messages sseSourceRef] in *; rewrite Hg.
  - unfold run. cbn [fold_left apply_event]. unfold handleSendMessage, sendChat. rewrite Hc.
    cbn [sendNonStreamingChat with_messages messages handleResponse].
    set (u1 := createUserMessage _ _ t1). set (a1 := createLoadingAssistantMessage (id_assistant ids1) _).
    set (u2 := createUserMessage _ _ t2). set (a2 := createLoadingAssistantMessage (id_assistant ids2) _).
    replace ((messages s ++ [u1; a1]) ++ [u2; a2]) with ((messages s ++ [u1; a1; u2]) ++ [a2])
      by by rewrite <- !app_assoc.
    rewrite !updateLast_snoc. rewrite (bool_decide_true (from a2 = RAssistant)) by done.
    rewrite bool_decide_true by done. by rewrite <- app_assoc.
Qed.

Definition nonstream_config : PlaygroundConfig :=
  {| cfg_model := "gpt-4o"; cfg_group := "default"; cfg_temperature := num_of_Z 1;
     cfg_top_p := num_of_Z 1; cfg_max_tokens := num_of_Z 4096; cfg_frequency_penalty := zero;
     cfg_presence_penalty := zero; cfg_seed := None; cfg_stream := false |}.

Lemma overlapping_requests_witness :
  map status
    (messages (run nonstream_config DEFAULT_PARAMETER_ENABLED ex_empty
       [EvSend "a" ex_ids false; EvSend "b" ex_ids false; EvResponse (Some ("A", []));
        EvResponse (Some ("B", []))]))
  = [None; Some StLoading; None; Some StComplete].
Proof.
  rewrite (proj2 (overlapping_requests nonstream_config DEFAULT_PARAMETER_ENABLED ex_empty "a" "b"
                    ex_ids ex_ids false false "A" [] "B" [] eq_refl eq_refl)).
  vm_compute. reflexivity.
Defined.

(** After the end marker the session ignores the connection's errors: no
    error event and no state change of any source alters it. *)
Theorem done_ignores_errors source s :
  let s' := on_message source DONE s in
  isGenerating s' = false
  ∧ ∀ src r data rs st, on_error src r data s' = s' ∧ on_readystatechange src rs st s' = s'.
Proof.
  cbv zeta. unfold on_message. rewrite str_eqb_refl. split; [done|]. intros src r data rs st.
  assert (H : ∀ msg code, handleError src msg code
                (with_messages handleStreamComplete (closeSource source (set_complete s)))
              = with_messages handleStreamComplete (closeSource source (set_complete s))) by done.
  split.
  - unfold on_error. destruct (r =? 2)%Z; [done|]. by destruct (error_details data).
  - unfold on_readystatechange. by repeat case_match.
Qed.

(** An error does not end the stream for the handlers: when the source then
    reports that it is closed with a failing status, the answer's error text and
    error code are overwritten, and the code the server sent is lost. *)
Theorem error_code_overwritten config en s ms m source r data st :
  messages s = ms ++ [m] → from m = RAssistant → isStreamCompleteRef s = false →
  r ≠ 2%Z → st ≠ 200%Z →
  let s' := run config en s [EvError source r data; EvReady source (Some 2%Z) (Some st)] in
  ∃ m', messages s' = ms ++ [m'] ∧ status m' = Some StError ∧ errorCode m' = Some JNull
        ∧ v_content (getCurrentVersion m')
          = API_REQUEST_ERROR ++ ": " ++ "HTTP " ++ to_dec_Z st ++ ": " ++ CONNECTION_CLOSED.
Proof.
  intros Em Ha Hc Hr Hs. cbv zeta. unfold run. cbn [fold_left apply_event].
  unfold on_error. rewrite (proj2 (Z.eqb_neq r 2) Hr). destruct (error_details data) as [msg code].
  unfold handleError at 1. rewrite Hc.
  unfold on_readystatechange. rewrite (proj2 (Z.eqb_neq st 200) Hs).
  cbn [Z.leb Z.compare Pos.compare Pos.compare_cont andb negb].
  unfold handleError. cbn [closeSource with_messages isStreamCompleteRef messages]. rewrite Hc.
  cbn [closeSource with_messages messages]. rewrite Em.
  unfold handleStreamError, updateAssistantMessageWithError. rewrite !updateLast_snoc.
  rewrite (bool_decide_true (from m = RAssistant)) by done. rewrite bool_decide_true by done.
  eexists. split; [done|]. done.
Qed.

Definition ex_streaming : Session :=
  run DEFAULT_CONFIG DEFAULT_PARAMETER_ENABLED ex_empty [EvSend "hi" ex_ids false].

Lemma error_code_overwritten_witness :
  ∃ m', messages (run DEFAULT_CONFIG DEFAULT_PARAMETER_ENABLED ex_streaming
          [EvError 0 1 "{\qerror\q:{\qmessage\q:\qno quota\q,\qcode\q:\qinsufficient_quota\q}}";
           EvReady 0 (Some 2%Z) (Some 403%Z)])
        = [createUserMessage "u" "uv" "hi"] ++ [m'] ∧ errorCode m' = Some JNull.
Proof.
  destruct (error_code_overwritten DEFAULT_CONFIG DEFAULT_PARAMETER_ENABLED ex_streaming
    [createUserMessage "u" "uv" "hi"] (createLoadingAssistantMessage "a" "av") 0 1
    "{\qerror\q:{\qmessage\q:\qno quota\q,\qcode\q:\qinsufficient_quota\q}}" 403)
    as (m' & H1 & _ & H2 & _); try reflexivity; try discriminate.
  exists m'. split; assumption.
Defined.

(** Two streams share one pair of refs.  When a second stream is opened
    while the first is running, the end marker of the first one marks the session
    as idle and complete although the second source is still open: stopping no
    longer closes it, and its errors are dropped. *)
Theorem overlapping_streams config en s ms1 ms2 :
  cfg_stream config = true → (S (nextSource s)) ∉ closed s →
  let n := nextSource s in
  let two := sendChat config en ms2 false (sendChat config en ms1 false s) in
  let s' := on_message n DONE two in
  sseSourceRef two = Some (S n)
  ∧ isGenerating s' = false
  ∧ (S n ∉ closed (stopGeneration s'))
  ∧ ∀ r data, on_error (S n) r data s' = s'.
Proof.
  intros Hc Hn. cbv zeta. unfold sendChat. rewrite Hc. unfold on_message. rewrite str_eqb_refl.
  split_and!; [done|done| |].
  - cbn. rewrite not_elem_of_cons. split; [lia|done].
  - intros r data. unfold on_error. destruct (r =? 2)%Z; [done|]. by destruct (error_details data).
Qed.

(** The situation arises when an edit form that was opened earlier is submitted
    while a stream is open: the button is not disabled then. *)
Definition submitted_over : list event :=
  [EvSend "hi" ex_ids false; EvEdit "u" "hello" true ex_ids false].

Definition unguarded_submit : Session :=
  run DEFAULT_CONFIG DEFAULT_PARAMETER_ENABLED ex_empty submitted_over.

Lemma overlapping_streams_witness :
  let s' := on_message 0 DONE unguarded_submit in
  sseSourceRef unguarded_submit = Some 1 ∧ isGenerating s' = false ∧ 1 ∉ closed (stopGeneration s').
Proof.
  destruct (overlapping_streams DEFAULT_CONFIG DEFAULT_PARAMETER_ENABLED
    (with_messages (λ _, messages unguarded_submit) ex_empty)
    [createUserMessage "u" "uv" "hi"; createLoadingAssistantMessage "a" "av"]
    [createUserMessage "u" "uv" "hello"; createLoadingAssistantMessage "a" "av"] eq_refl)
    as (H1 & H2 & H3 & _).
  - apply not_elem_of_nil.
  - split_and!; [exact H1|exact H2|exact H3].
Defined.

(** So a session the page allows can show a message that is streaming although no stream
    counts as open: an edit is submitted while an answer streams, the first stream ends,
    and the second goes on. *)
Theorem submit_over_stream :
  ∃ s, reachable DEFAULT_CONFIG DEFAULT_PARAMETER_ENABLED ex_empty s
  ∧ isGenerating s = false ∧ ∃ m, m ∈ messages s ∧ status m = Some StStreaming.
Proof.
  exists (run DEFAULT_CONFIG DEFAULT_PARAMETER_ENABLED ex_empty
            (submitted_over ++ [EvMessage 0 DONE;
               EvMessage 1 "{\qchoices\q:[{\qdelta\q:{\qcontent\q:\qyes\q}}]}"])).
  split; [|split].
  - unfold run, submitted_over. cbn [app fold_left].
    repeat (eapply reach_step; [|apply step_event; vm_compute; reflexivity]). apply reach_refl.
  - vm_compute. reflexivity.
  - match goal with |- ∃ m, m ∈ ?ms ∧ _ => exists (List.nth 1 ms (createLoadingAssistantMessage [] [])) end.
    split; [apply (list_elem_of_lookup_2 _ 1)|]; vm_compute; reflexivity.
Qed.
