(* ===== verification/ChatRefinement.v ===== *)
(** * The chat session refines a conversation

    What the page promises of a streaming session, without its callbacks and refs: a
    conversation is a history of finished messages, followed by at most one answer
    that is being written.  The server only extends that answer, finishes it, or
    reports a late error on the last answer; everything else is the user's.  The
    session of [Chat] simulates this conversation step by step. *)
From Stdlib Require Import NArith ZArith.
From stdpp Require Import list numbers.
From S2P Require Import Prelude JsString JsNumber Json JsArray Messages Chat.

(** ** The conversation *)

Inductive Conversation : Type :=
| Idle (history : list Message)
| Answering (history : list Message) (answer : Message).

Inductive Actor : Type := User | Server.

(** The same message: its key and role. *)
Definition same_message (m m' : Message) : Prop := key m' = key m ∧ from m' = from m.

Definition finished (ms : list Message) : Prop := forallb settled ms = true.

Inductive converse : Actor → Conversation → Conversation → Prop :=
| c_ask h h' id vid :
    finished h' → converse User (Idle h) (Answering h' (createLoadingAssistantMessage id vid))
| c_ask_failed h h' m :
    finished (h' ++ [m]) → status m = Some StError → converse User (Idle h) (Idle (h' ++ [m]))
| c_revise h h' : finished h' → converse User (Idle h) (Idle h')
| c_revise_during h h' m m' :
    finished h' → Forall2 same_message h h' → same_message m m' →
    converse User (Answering h m) (Answering h' m')
| c_extend h m m' : same_message m m' → converse Server (Answering h m) (Answering h m')
| c_finish a h m m' :
    same_message m m' → settled m' = true → converse a (Answering h m) (Idle (h ++ [m']))
| c_late_error h m m' :
    same_message m m' → status m' = Some StError → converse Server (Idle (h ++ [m])) (Idle (h ++ [m']))
| c_nothing a c : converse a c c.

(** Who causes an event. *)
Definition actor (e : event) : Actor :=
  match e with
  | EvSend _ _ _ | EvRegenerate _ _ _ | EvEdit _ _ _ _ _ | EvDelete _ | EvStop => User
  | _ => Server
  end.

(** ** The simulation *)

(** The conversation a session stands for: an answer is written exactly while a stream is
    open, and then it is the only one. *)
Definition stands_for (s : Session) (c : Conversation) : Prop :=
  match c with
  | Idle h => no_source s ∧ messages s = h ∧ finished h
  | Answering h m =>
      (sole_source s ∧ sseSourceRef s ≠ None) ∧ messages s = h ++ [m] ∧ from m = RAssistant ∧ finished h
      ∧ isStreamCompleteRef s = false
  end.

Lemma stands_sole s c : stands_for s c → sole_source s.
Proof. destruct c; [intros (? & _); by apply no_source_sole|by intros ([? _] & _)]. Qed.

(** Only the messages, the requests and the mark of a complete stream change. *)
Lemma no_source_frame s s' :
  sseSourceRef s' = sseSourceRef s → nextSource s' = nextSource s → closed s' = closed s →
  no_source s → no_source s'.
Proof. intros E1 E2 E3. unfold no_source, live. by rewrite E1, E2, E3. Qed.

Lemma finished_app h m : finished (h ++ [m]) ↔ finished h ∧ settled m = true.
Proof. unfold finished. rewrite forallb_app, andb_true_iff. cbn [forallb]. by rewrite andb_true_r. Qed.

Lemma same_refl m : same_message m m.
Proof. done. Qed.

Lemma same_trans m1 m2 m3 : same_message m1 m2 → same_message m2 m3 → same_message m1 m3.
Proof. unfold same_message. intros [? ?] [? ?]. split; congruence. Qed.

Lemma same_finalize m r : same_message m (finalizeMessage m r).
Proof. unfold finalizeMessage. repeat case_match; done. Qed.

Lemma same_version m c : same_message m (updateCurrentVersionContent m c).
Proof. unfold updateCurrentVersionContent. repeat case_match; done. Qed.

Lemma same_update kind chunk m : same_message m (stream_update kind chunk m).
Proof.
  unfold stream_update. destruct (bool_decide _); [done|]. destruct kind; [done|].
  unfold processStreamingContent. repeat case_match; done.
Qed.

Lemma same_complete m : same_message m (complete_message m).
Proof.
  unfold complete_message. destruct (_ || _); [done|].
  eapply same_trans; [apply (same_finalize m [])|done].
Qed.

Lemma same_stop m : same_message m (stop_message m).
Proof.
  unfold stop_message. destruct (pending m); [|done].
  eapply same_trans; [apply (same_finalize m [])|done].
Qed.

(** The message with the error. *)
Definition failed (msg : jsstr) (code : option json) (m : Message) : Message :=
  set_error (match code with Some c => if json_truthy c then c else JNull | None => JNull end)
    (updateCurrentVersionContent m (API_REQUEST_ERROR ++ ": " ++ msg)).

Lemma same_failed msg code m : same_message m (failed msg code m).
Proof. exact (same_trans _ _ _ (same_version m _) (conj eq_refl eq_refl)). Qed.

#[local] Hint Resolve same_refl same_update same_complete same_stop same_failed : core.

Lemma error_last msg code h m :
  handleStreamError msg code (h ++ [m])
  = h ++ [if bool_decide (from m = RAssistant) then failed msg code m else m].
Proof. apply updateLast_snoc. Qed.

(** ** Each event *)

Lemma error_sim src msg code s c :
  reports s src → stands_for s c →
  ∃ c', converse Server c c' ∧ stands_for (handleError src msg code s) c'.
Proof.
  unfold handleError. intros Hsrc H.
  assert (Hn : no_source (closeSource src (with_messages (handleStreamError msg code) s))).
  { apply close_no_source; [|exact Hsrc]. by apply (sole_frame s), (stands_sole s c). }
  destruct c as [h|h m].
  - destruct H as (Hs & Hm & Hf). destruct (isStreamCompleteRef s); [by exists (Idle h); split; [apply c_nothing|]|].
    destruct h as [|m h _] using rev_ind.
    + exists (Idle []). split; [apply c_nothing|]. split_and!; [exact Hn|cbn; by rewrite Hm|done].
    + apply finished_app in Hf as [Hf Hsm].
      exists (Idle (h ++ [if bool_decide (from m = RAssistant) then failed msg code m else m])). split.
      * destruct (bool_decide _); [by apply c_late_error|apply c_nothing].
      * split_and!; [exact Hn|cbn; by rewrite Hm, error_last|]. apply finished_app. split; [done|].
        by destruct (bool_decide _).
  - destruct H as (Hs & Hm & Ha & Hf & Hc). rewrite Hc. exists (Idle (h ++ [failed msg code m])).
    split; [by apply c_finish|]. split_and!; [exact Hn| |by apply finished_app].
    cbn. by rewrite Hm, error_last, bool_decide_true by done.
Qed.

Lemma updates_sim us s h m :
  stands_for s (Answering h m) →
  ∃ m', same_message m m'
  ∧ stands_for (fold_left (λ s '(kind, chunk), with_messages (handleStreamUpdate kind chunk) s) us s) (Answering h m').
Proof.
  revert s m. induction us as [|[kind chunk] us IH]; intros s m H; [by exists m|]. cbn [fold_left].
  destruct H as ([Hs Hr] & Hm & Ha & Hf & Hc).
  destruct (IH (with_messages (handleStreamUpdate kind chunk) s) (stream_update kind chunk m)) as (m' & H1 & H2).
  { split_and!; [|done| |by rewrite from_update|done|done].
    - by apply (sole_frame s).
    - cbn. rewrite Hm. unfold handleStreamUpdate. by rewrite updateLast_snoc, bool_decide_true by done. }
  exists m'. split; [|done]. exact (same_trans _ _ _ (same_update kind chunk m) H1).
Qed.

Lemma message_sim src data s c :
  live s src = true → stands_for s c →
  ∃ c', converse Server c c' ∧ stands_for (on_message src data s) c'.
Proof.
  intros E H. destruct c as [h|h m]; [by destruct H as ((_ & Hn & _) & _); rewrite Hn in E|].
  unfold on_message. destruct (str_eqb data DONE).
  - destruct H as (Hs & Hm & Ha & Hf & Hc). exists (Idle (h ++ [complete_message m])).
    split; [apply c_finish; auto using settled_complete|]. split_and!.
    + apply (no_source_frame (closeSource src (set_complete s))); [done..|].
      apply close_no_source; [by apply (sole_frame s), Hs|by apply live_reports].
    + cbn. rewrite Hm. unfold handleStreamComplete. by rewrite updateLast_snoc, bool_decide_true by done.
    + apply finished_app. auto using settled_complete.
  - destruct (chunk_updates data) as [us|]; [|by apply error_sim; [apply live_reports|]].
    destruct (updates_sim us s h m H) as (m' & H1 & H2). exists (Answering h m'). split; [by apply c_extend|done].
Qed.

Section streaming.
Context (config : PlaygroundConfig) (en : ParameterEnabled) (Hstream : cfg_stream config = true).

(** Sending a list of finished messages and a placeholder. *)
Lemma send_sim h ms id vid throws s :
  finished ms → stands_for s (Idle h) →
  let new := ms ++ [createLoadingAssistantMessage id vid] in
  ∃ c', converse User (Idle h) c'
        ∧ stands_for (sendChat config en new throws (with_messages (λ _, new) s)) c'.
Proof using Hstream.
  intros Hf (Hn & _) new. unfold sendChat. rewrite Hstream.
  assert (Hsole : sole_source (sendStreamRequest (buildChatCompletionPayload new config en) throws
                                 (with_messages (λ _, new) s))).
  { apply open_sole. by apply (no_source_frame s). }
  destruct throws.
  - exists (Idle (ms ++ [failed STREAM_START_ERROR None (createLoadingAssistantMessage id vid)])).
    split; [apply c_ask_failed; [by apply finished_app|done]|].
    split_and!; [by apply idle_no_source| |by apply finished_app]. unfold sendStreamRequest, new. cbn [with_messages messages]. by rewrite error_last.
  - exists (Answering ms (createLoadingAssistantMessage id vid)). split; [by apply c_ask|]. by split_and!.
Qed.

Lemma idle_inv s c : isGenerating s = false → stands_for s c → ∃ h, c = Idle h ∧ messages s = h ∧ finished h.
Proof.
  unfold isGenerating. intros Hg H. destruct c as [h|h m]; [by exists h; destruct H as (_ & ? & ?)|].
  destruct H as [[_ Hs] _]. by destruct (sseSourceRef s).
Qed.

Lemma finished_take n h : finished h → finished (take n h).
Proof. apply forallb_take. Qed.

Lemma edit_sim k content submit ids throws s c :
  negb (submit && isGenerating s) = true → stands_for s c →
  ∃ c', converse User c c' ∧ stands_for (applyEdit config en k content submit ids throws s) c'.
Proof using Hstream.
  intros Hg H. unfold applyEdit. destruct (findIndex k (messages s)) as [i|]; [|by exists c; split; [apply c_nothing|]].
  set (f := λ m : Message, if str_eqb (key m) k then _ else m).
  assert (Hf : ∀ m, same_message m (f m)) by (intros m; unfold f; by destruct (str_eqb _ _)).
  destruct (negb submit || _) eqn:E.
  - clear E Hg. destruct c as [h|h m].
    + destruct H as (Hs & Hm & Hh). exists (Idle (map f h)).
      assert (Hh' : finished (map f h)) by (by apply edit_settled).
      split; [by apply c_revise|]. split_and!; [by apply (no_source_frame s)|cbn; by rewrite Hm|done].
    + destruct H as ([Hs Hr] & Hm & Ha & Hh & Hc). exists (Answering (map f h) (f m)).
      assert (Hh' : finished (map f h)) by (by apply edit_settled). split.
      * apply c_revise_during; [done| |done]. clear -Hf. induction h; constructor; auto.
      * split_and!; [by apply (sole_frame s)|done|cbn; by rewrite Hm, map_app| |done|done].
        by rewrite (proj2 (Hf m)).
  - apply orb_false_iff in E as [E _]. apply negb_false_iff in E as ->. cbn [andb] in Hg. apply negb_true_iff in Hg.
    destruct (idle_inv s c Hg H) as (h & -> & Hm & Hh). apply send_sim; [|done].
    apply finished_take, edit_settled. by rewrite Hm.
Qed.

Lemma stop_sim s c :
  stands_for s c → ∃ c', converse User c c' ∧ stands_for (stopGeneration s) c'.
Proof.
  intros H. unfold stopGeneration, stopStream. destruct c as [h|h m].
  - destruct H as (Hs & Hm & Hf). rewrite (proj1 Hs).
    exists (Idle (updateLastAssistantMessage h stop_message)).
    assert (Hf' : finished (updateLastAssistantMessage h stop_message))
      by (apply updateLast_settled; auto using settled_stop).
    split; [by apply c_revise|]. split_and!; [by apply (no_source_frame s)|cbn; by rewrite Hm|done].
  - destruct H as ([Hs Hr] & Hm & Ha & Hf & Hc). destruct (sseSourceRef s) as [src|] eqn:E; [|done].
    exists (Idle (h ++ [stop_message m])). split; [apply c_finish; auto using settled_stop|]. split_and!.
    + apply (no_source_frame (closeSource src s)); [done..|]. apply close_no_source; [done|].
      apply live_reports. by apply Hs.
    + cbn. by rewrite Hm, updateLast_snoc, bool_decide_true by done.
    + apply finished_app. auto using settled_stop.
Qed.

Lemma event_sim s e c :
  allowed config s e = true → submits_over s e = false → stands_for s c →
  ∃ c', converse (actor e) c c' ∧ stands_for (apply_event config en s e) c'.
Proof using Hstream.
  intros Ha Ho H. destruct e; cbn [apply_event allowed submits_over actor] in *.
  - apply negb_true_iff in Ha. destruct (idle_inv s c Ha H) as (h & -> & Hm & Hf). unfold handleSendMessage.
    set (u := createUserMessage _ _ _). set (a := createLoadingAssistantMessage _ _).
    replace (messages s ++ [u; a]) with ((messages s ++ [u]) ++ [a]) by by rewrite <- app_assoc.
    apply send_sim; [|done]. rewrite Hm. by apply finished_app.
  - apply negb_true_iff in Ha. destruct (idle_inv s c Ha H) as (h & -> & Hm & Hf). unfold handleRegenerateMessage.
    destruct (findIndex k (messages s)); [|by exists (Idle h); split; [apply c_nothing|]].
    apply send_sim; [|done]. rewrite Hm. by apply finished_take.
  - apply edit_sim; [|done]. destruct submit; [by rewrite Ho|done].
  - apply negb_true_iff in Ha. destruct (idle_inv s c Ha H) as (h & -> & Hm & Hf). unfold handleDeleteMessage.
    assert (Hf' : finished (List.filter (λ m, negb (str_eqb (key m) k)) h)).
    { unfold finished in *. rewrite forallb_forall in *. intros m [Hin _]%filter_In. auto. }
    exists (Idle (List.filter (λ m, negb (str_eqb (key m) k)) h)). split; [by apply c_revise|].
    destruct H as (Hs & _). split_and!; [by apply (no_source_frame s)|cbn; by rewrite Hm|done].
  - by apply stop_sim.
  - by apply message_sim.
  - unfold on_error. destruct (_ =? 2)%Z; [by exists c; split; [apply c_nothing|]|].
    destruct (error_details data). by apply error_sim.
  - unfold on_readystatechange. destruct readyState as [r|], status as [st|];
      try (by exists c; split; [apply c_nothing|]). destruct (_ && _); [by apply error_sim|by exists c; split; [apply c_nothing|]].
  - by rewrite Hstream in Ha.
  - by rewrite Hstream in Ha.
Qed.

(** A run of allowed events in which no edit is submitted while an answer streams. *)
Inductive runs : Session → list event → Session → Prop :=
| runs_nil s : runs s [] s
| runs_cons s e es s' :
    allowed config s e = true → submits_over s e = false →
    runs (apply_event config en s e) es s' → runs s (e :: es) s'.

Inductive conversation : Conversation → list Actor → Conversation → Prop :=
| conv_nil c : conversation c [] c
| conv_cons a c c1 l c2 : converse a c c1 → conversation c1 l c2 → conversation c (a :: l) c2.

Lemma runs_sim s es s' c :
  runs s es s' → stands_for s c → ∃ c', conversation c (map actor es) c' ∧ stands_for s' c'.
Proof using Hstream.
  intros Hr. revert c. induction Hr as [s|s e es s' Ha Ho Hr IH]; intros c H.
  - exists c. split; [constructor|done].
  - destruct (event_sim s e c Ha Ho H) as (c1 & H1 & H2). destruct (IH c1 H2) as (c2 & H3 & H4).
    exists c2. split; [by econstructor|done].
Qed.
End streaming.

(** ** What follows for the session *)

(** While an answer is written, the server's steps keep the history. *)
Lemma server_steps c l c2 :
  conversation c l c2 → Forall (eq Server) l → ∀ h m,
  c = Answering h m ∨ c = Idle (h ++ [m]) →
  ∃ m', same_message m m' ∧ (c2 = Answering h m' ∨ c2 = Idle (h ++ [m'])).
Proof.
  induction 1 as [c|a c c1 l c2 Hs _ IH]; intros Hl h m Hc; [by exists m|].
  apply list.Forall_cons in Hl as [<- Hl].
  assert (H : ∃ m1, same_message m m1 ∧ (c1 = Answering h m1 ∨ c1 = Idle (h ++ [m1]))).
  { inversion Hs; subst; destruct Hc as [E|E]; simplify_eq; eauto 10.
    apply app_inj_tail in E as [-> ->]. eauto. }
  destruct H as (m1 & Hm & Hc1). destruct (IH Hl h m1 Hc1) as (m' & Hm' & H').
  exists m'. split; [exact (same_trans _ _ _ Hm Hm')|done].
Qed.

(** The events after which no stream is open. *)
Definition ends (s : Session) (e : event) : bool :=
  match e with
  | EvStop => true
  | EvMessage _ data => str_eqb data DONE || match chunk_updates data with Throw => true | Ok _ => false end
  | EvError _ readyState _ => negb (readyState =? 2)%Z
  | EvReady _ (Some r) (Some st) => (2 <=? r)%Z && negb (st =? 200)%Z
  | _ => false
  end.

Lemma end_idle config en s e h m :
  stands_for s (Answering h m) → ends s e = true →
  sseSourceRef (apply_event config en s e) = None.
Proof.
  intros ([_ Hs] & _ & _ & _ & Hc) He. assert (H : ∀ src msg code, sseSourceRef (handleError src msg code s) = None)
    by (intros; unfold handleError; by rewrite Hc).
  destruct e; cbn [ends apply_event] in *; try done.
  - unfold stopGeneration, stopStream. by destruct (sseSourceRef s).
  - unfold on_message. destruct (str_eqb data DONE); [done|]. cbn [orb] in He.
    destruct (chunk_updates data); [done|apply H].
  - unfold on_error. apply negb_true_iff in He. rewrite He. destruct (error_details data). apply H.
  - unfold on_readystatechange. destruct readyState, status; try done. rewrite He. apply H.
Qed.

(** ** The properties *)

(** C17: a streaming session refines a conversation.  Every run of events the page allows,
    in which no edit is submitted while an answer streams ([submits_over]; the page does not
    prevent it), is a sequence of steps of the conversation, each by the user or by the
    server as the event is, and the session stands for the conversation throughout. *)
Theorem session_refines_conversation config en s es s' c :
  cfg_stream config = true → stands_for s c → runs config en s es s' →
  ∃ c', conversation c (map actor es) c' ∧ stands_for s' c'.
Proof. intros Hc Hs Hr. by apply (runs_sim config en Hc s). Qed.

Lemma ex_empty_no_source : no_source ex_empty.
Proof. unfold no_source. split_and!; try done. intros n Hn. by apply not_elem_of_nil in Hn. Qed.

Lemma ex_empty_stands : stands_for ex_empty (Idle []).
Proof. split_and!; [exact ex_empty_no_source|done|done]. Qed.

Lemma ex_streaming_stands :
  stands_for ex_streaming (Answering [createUserMessage "u" "uv" "hi"] (createLoadingAssistantMessage "a" "av")).
Proof.
  split_and!; try done. unfold ex_streaming, run. cbn [fold_left apply_event]. unfold handleSendMessage, sendChat.
  apply open_sole, (no_source_frame ex_empty); [done..|exact ex_empty_no_source].
Qed.

Lemma session_refines_conversation_witness :
  ∃ c', conversation (Idle []) [User; Server; Server] c'
  ∧ stands_for (run DEFAULT_CONFIG DEFAULT_PARAMETER_ENABLED ex_empty ex_events) c'.
Proof.
  apply (session_refines_conversation DEFAULT_CONFIG DEFAULT_PARAMETER_ENABLED ex_empty ex_events).
  - reflexivity.
  - exact ex_empty_stands.
  - unfold run, ex_events. cbn [fold_left].
    repeat (apply runs_cons; [vm_compute; reflexivity|vm_compute; reflexivity|]). apply runs_nil.
Defined.

(** The server cannot touch the history.  While an answer is written, whatever
    the connection delivers, the messages stay the same except for the last one,
    which keeps its key and role. *)
Theorem server_changes_only_answer config en s es s' h m :
  cfg_stream config = true → stands_for s (Answering h m) → runs config en s es s' →
  Forall (λ e, actor e = Server) es →
  ∃ m', messages s' = h ++ [m'] ∧ key m' = key m ∧ from m' = from m.
Proof.
  intros Hc Hs Hr Hl. destruct (runs_sim config en Hc s es s' _ Hr Hs) as (c' & Hcv & Hs').
  destruct (server_steps _ _ _ Hcv) with (h := h) (m := m) as (m' & [Hk Hf] & H'); [|by left|].
  - clear -Hl. induction Hl as [|e es He _ IH]; [constructor|]. cbn [map]. by constructor.
  - exists m'. by destruct H' as [->| ->]; destruct Hs' as (_ & ? & _).
Qed.

Lemma server_changes_only_answer_witness :
  ∃ m', messages (run DEFAULT_CONFIG DEFAULT_PARAMETER_ENABLED ex_streaming
                    [EvMessage 0 "{\qchoices\q:[{\qdelta\q:{\qcontent\q:\qyes\q}}]}"; EvMessage 0 "[DONE]"])
        = [createUserMessage "u" "uv" "hi"] ++ [m'] ∧ key m' = "a" ∧ from m' = RAssistant.
Proof.
  apply (server_changes_only_answer DEFAULT_CONFIG DEFAULT_PARAMETER_ENABLED ex_streaming
           [EvMessage 0 "{\qchoices\q:[{\qdelta\q:{\qcontent\q:\qyes\q}}]}"; EvMessage 0 "[DONE]"] _
           [createUserMessage "u" "uv" "hi"] (createLoadingAssistantMessage "a" "av")).
  - reflexivity.
  - exact ex_streaming_stands.
  - unfold run. cbn [fold_left]. repeat (apply runs_cons; [vm_compute; reflexivity|vm_compute; reflexivity|]). apply runs_nil.
  - by repeat constructor.
Defined.

(** C35: each of these events ends an answer.  In a session that stands for a conversation,
    whether or not an answer streams, the stop by the user, the end mark, data that does not
    parse, an error that the source reports in another state than 2 (closed), and a
    change to the state 2 or above with a status other than 200 all leave the session without a
    stream and with all messages finished, so that the next message can be sent.  A
    connection that closes with the status 200 and without the end mark is not among them. *)
Theorem ending_events_finish config en s c e :
  cfg_stream config = true → stands_for s c → allowed config s e = true → ends s e = true →
  isGenerating (apply_event config en s e) = false
  ∧ forallb settled (messages (apply_event config en s e)) = true
  ∧ ∀ text ids throws, allowed config (apply_event config en s e) (EvSend text ids throws) = true.
Proof.
  intros Hc Hs Ha He. assert (Ho : submits_over s e = false) by (by destruct e).
  destruct (event_sim config en Hc s e c Ha Ho Hs) as (c' & _ & Hs').
  assert (Hn : sseSourceRef (apply_event config en s e) = None).
  { destruct c as [h|h m]; [|by eapply end_idle]. destruct Hs as ((Hs & Hl & _) & _).
    assert (H : ∀ src msg code, sseSourceRef (handleError src msg code s) = None)
      by (intros; unfold handleError; by destruct (isStreamCompleteRef s)).
    destruct e; cbn [ends apply_event allowed] in *; try done.
    - unfold stopGeneration, stopStream. by rewrite Hs.
    - by rewrite Hl in Ha.
    - unfold on_error. destruct (_ =? 2)%Z; [done|]. destruct (error_details data). apply H.
    - unfold on_readystatechange. destruct readyState, status; try done. rewrite He. apply H. }
  assert (Hg : isGenerating (apply_event config en s e) = false) by (unfold isGenerating; by rewrite Hn).
  destruct c' as [h|h m]; [|by destruct Hs' as [[_ ?] _]]. destruct Hs' as (_ & Hm & Hf).
  split_and!; [done|by rewrite Hm|]. intros. cbn [allowed]. by rewrite Hg.
Qed.

Lemma ending_events_finish_witness :
  isGenerating (apply_event DEFAULT_CONFIG DEFAULT_PARAMETER_ENABLED ex_streaming (EvMessage 0 "{")) = false.
Proof.
  apply (ending_events_finish DEFAULT_CONFIG DEFAULT_PARAMETER_ENABLED ex_streaming
           (Answering [createUserMessage "u" "uv" "hi"] (createLoadingAssistantMessage "a" "av"))).
  - reflexivity.
  - exact ex_streaming_stands.
  - vm_compute. reflexivity.
  - vm_compute. reflexivity.
Defined.
