(* ===== verification/Storage.v ===== *)
(** * Persistence of the playground

    [features/playground/lib/storage.ts] and [hooks/use-playground-state.ts]: the
    three entries of [localStorage], and the state of the playground that is saved
    on every change and loaded on start. *)
From Stdlib Require Import NArith ZArith.
From stdpp Require Import list numbers gmap.
From S2P Require Import Prelude JsString JsNumber Json JsArray JsonRoundtrip Messages.

(** ** [localStorage] *)

Abbreviation Storage := (gmap (list N) (list N)).

Definition CONFIG : jsstr := "playground_config".
Definition MESSAGES : jsstr := "playground_messages".
Definition PARAMETER_ENABLED : jsstr := "playground_parameter_enabled".

(** ** Messages as JSON

    The properties of a message in the order of its interface; a property that is
    [undefined] is not written. *)

Definition role_str (r : MessageRole) : jsstr :=
  match r with RUser => "user" | RAssistant => "assistant" | RSystem => "system" end.

Definition role_of_str (s : jsstr) : option MessageRole :=
  if str_eqb s "user" then Some RUser
  else if str_eqb s "assistant" then Some RAssistant
  else if str_eqb s "system" then Some RSystem else None.

Definition status_str (st : MessageStatus) : jsstr :=
  match st with
  | StLoading => "loading" | StStreaming => "streaming"
  | StComplete => "complete" | StError => "error"
  end.

Definition status_of_str (s : jsstr) : option MessageStatus :=
  if str_eqb s "loading" then Some StLoading
  else if str_eqb s "streaming" then Some StStreaming
  else if str_eqb s "complete" then Some StComplete
  else if str_eqb s "error" then Some StError else None.

Definition opt_field (k : jsstr) (v : option json) : list (jsstr * json) :=
  match v with Some j => [(k, j)] | None => [] end.

Definition version_json (v : MessageVersion) : json :=
  JObj [("id", JStr (v_id v)); ("content", JStr (v_content v))].

Definition source_json (s : jsstr * jsstr) : json :=
  JObj [("href", JStr s.1); ("title", JStr s.2)].

Definition reasoning_json (r : Reasoning) : json :=
  JObj [("content", JStr (r_content r)); ("duration", JNum (r_duration r))].

Definition message_json (m : Message) : json :=
  JObj ([("key", JStr (key m)); ("from", JStr (role_str (from m)));
         ("versions", JArr (map version_json (versions m)))]
        ++ opt_field "sources" ((λ l, JArr (map source_json l)) <$> sources m)
        ++ opt_field "reasoning" (reasoning_json <$> reasoning m)
        ++ opt_field "isReasoningStreaming" (JBool <$> isReasoningStreaming m)
        ++ opt_field "isReasoningComplete" (JBool <$> isReasoningComplete m)
        ++ opt_field "isContentComplete" (JBool <$> isContentComplete m)
        ++ opt_field "status" ((λ s, JStr (status_str s)) <$> status m)
        ++ opt_field "errorCode" (errorCode m)).

(** *** Reading a message back

    The source casts the parsed value to [Message[]]; a value that has not this
    shape is not described by the model ([None]). *)

Definition as_str (j : json) : option jsstr := match j with JStr s => Some s | _ => None end.
Definition as_num (j : json) : option number := match j with JNum n => Some n | _ => None end.
Definition as_bool (j : json) : option bool := match j with JBool b => Some b | _ => None end.
Definition as_arr (j : json) : option (list json) := match j with JArr l => Some l | _ => None end.
Definition as_obj (j : json) : option (list (jsstr * json)) :=
  match j with JObj kvs => Some kvs | _ => None end.

(** An optional property: absent, or of the type that [f] reads. *)
Definition opt_read {A} (f : json → option A) (k : jsstr) (kvs : list (jsstr * json))
    : option (option A) :=
  match obj_get k kvs with
  | None => Some None
  | Some j => Some <$> f j
  end.

(** Every element of an array. *)
Fixpoint read_all {A} (f : json → option A) (l : list json) : option (list A) :=
  match l with
  | [] => Some []
  | x :: r => y ← f x; ys ← read_all f r; Some (y :: ys)
  end.

Definition version_of_json (j : json) : option MessageVersion :=
  kvs ← as_obj j;
  id ← obj_get "id" kvs ≫= as_str;
  c ← obj_get "content" kvs ≫= as_str;
  Some {| v_id := id; v_content := c |}.

Definition source_of_json (j : json) : option (jsstr * jsstr) :=
  kvs ← as_obj j;
  h ← obj_get "href" kvs ≫= as_str;
  t ← obj_get "title" kvs ≫= as_str;
  Some (h, t).

Definition reasoning_of_json (j : json) : option Reasoning :=
  kvs ← as_obj j;
  c ← obj_get "content" kvs ≫= as_str;
  d ← obj_get "duration" kvs ≫= as_num;
  Some {| r_content := c; r_duration := d |}.

Definition message_of_fields (kvs : list (jsstr * json)) : option Message :=
  match obj_get "key" kvs ≫= as_str, (obj_get "from" kvs ≫= as_str) ≫= role_of_str,
        (obj_get "versions" kvs ≫= as_arr) ≫= read_all version_of_json,
        opt_read (λ j, as_arr j ≫= read_all source_of_json) "sources" kvs,
        opt_read reasoning_of_json "reasoning" kvs,
        opt_read as_bool "isReasoningStreaming" kvs,
        opt_read as_bool "isReasoningComplete" kvs,
        opt_read as_bool "isContentComplete" kvs,
        opt_read (λ j, as_str j ≫= status_of_str) "status" kvs
  with
  | Some k, Some f, Some vs, Some so, Some re, Some rs, Some rc, Some cc, Some st =>
      Some {| key := k; from := f; versions := vs; sources := so; reasoning := re;
              isReasoningStreaming := rs; isReasoningComplete := rc; isContentComplete := cc;
              status := st; errorCode := obj_get "errorCode" kvs |}
  | _, _, _, _, _, _, _, _, _ => None
  end.

Definition message_of_json (j : json) : option Message := as_obj j ≫= message_of_fields.

(** ** The storage functions

    [setItem] may throw when the quota is exceeded; [fits] tells when it does not.
    The exceptions are caught and logged. *)
Section storage.
Context (fits : Storage → jsstr → jsstr → bool).

Definition setItem (k v : jsstr) (st : Storage) : option Storage :=
  if fits st k v then Some (<[k := v]> st) else None.

Definition save (k : jsstr) (j : json) (st : Storage) : Storage :=
  default st (setItem k (JSON_stringify j) st).

(** [saved] empty or absent, and a text that is not JSON, give [{}]. *)
Definition load (k : jsstr) (st : Storage) : json :=
  match st !! k with
  | Some saved =>
      if nonempty saved then default (JObj []) (JSON_parse saved) else JObj []
  | None => JObj []
  end.

Definition loadConfig (st : Storage) : json := load CONFIG st.
Definition saveConfig (config : list (jsstr * json)) (st : Storage) : Storage :=
  save CONFIG (JObj config) st.
Definition loadParameterEnabled (st : Storage) : json := load PARAMETER_ENABLED st.
Definition saveParameterEnabled (en : list (jsstr * json)) (st : Storage) : Storage :=
  save PARAMETER_ENABLED (JObj en) st.
Definition saveMessages (ms : list Message) (st : Storage) : Storage :=
  save MESSAGES (JArr (map message_json ms)) st.

Inductive LoadResult : Type :=
| LoadNull
| LoadMessages (ms : list Message)
| LoadUntyped.

(** The sanitized messages are saved when sanitizing changed them. *)
Definition loadMessages (st : Storage) : LoadResult * Storage :=
  match st !! MESSAGES with
  | Some saved =>
      if nonempty saved then
        match JSON_parse saved with
        | Some (JArr l) =>
            match read_all message_of_json l with
            | Some ms =>
                match sanitize_last ms with
                | Some sanitized => (LoadMessages sanitized, saveMessages sanitized st)
                | None => (LoadMessages ms, st)
                end
            | None => (LoadUntyped, st)
            end
        | _ => (LoadNull, st)
        end
      else (LoadNull, st)
  | None => (LoadNull, st)
  end.

Definition clearPlaygroundData (st : Storage) : Storage :=
  delete MESSAGES (delete PARAMETER_ENABLED (delete CONFIG st)).

(** ** The state hook

    Configurations are objects: what was saved may hold any properties, and is
    spread over the defaults. *)

Definition config_obj (c : PlaygroundConfig) : list (jsstr * json) :=
  [("model", JStr (cfg_model c)); ("group", JStr (cfg_group c));
   ("temperature", JNum (cfg_temperature c)); ("top_p", JNum (cfg_top_p c));
   ("max_tokens", JNum (cfg_max_tokens c));
   ("frequency_penalty", JNum (cfg_frequency_penalty c));
   ("presence_penalty", JNum (cfg_presence_penalty c));
   ("seed", match cfg_seed c with Some n => JNum n | None => JNull end);
   ("stream", JBool (cfg_stream c))].

Definition enabled_obj (e : ParameterEnabled) : list (jsstr * json) :=
  [("temperature", JBool (en_temperature e)); ("top_p", JBool (en_top_p e));
   ("max_tokens", JBool (en_max_tokens e));
   ("frequency_penalty", JBool (en_frequency_penalty e));
   ("presence_penalty", JBool (en_presence_penalty e)); ("seed", JBool (en_seed e))].

(** The own properties of a value, as [...v] copies them. *)
Definition own_props (v : json) : list (jsstr * json) :=
  match v with
  | JObj kvs => entries kvs
  | JArr l => imap (λ i x, (to_dec (N.of_nat i), x)) l
  | JStr s => imap (λ i c, (to_dec (N.of_nat i), JStr [c])) s
  | _ => []
  end.

(** [{ ...base, ...v }]. *)
Definition spread (base : list (jsstr * json)) (v : json) : list (jsstr * json) :=
  fold_left (λ o '(k, x), obj_set k x o) (own_props v) base.

Record PlaygroundState : Type := {
  ps_config : list (jsstr * json);
  ps_enabled : list (jsstr * json);
  ps_messages : list Message;
  ps_storage : Storage
}.

(** The three [useState] initializers; messages of another shape are not
    described. *)
Definition usePlaygroundState (st : Storage) : option PlaygroundState :=
  let mk ms st' :=
    Some {| ps_config := spread (config_obj DEFAULT_CONFIG) (loadConfig st);
            ps_enabled := spread (enabled_obj DEFAULT_PARAMETER_ENABLED) (loadParameterEnabled st);
            ps_messages := ms; ps_storage := st' |} in
  match loadMessages st with
  | (LoadNull, st') => mk [] st'
  | (LoadMessages ms, st') => mk ms st'
  | (LoadUntyped, _) => None
  end.

Definition updateConfig (k : jsstr) (v : json) (s : PlaygroundState) : PlaygroundState :=
  let updated := obj_set k v (ps_config s) in
  {| ps_config := updated; ps_enabled := ps_enabled s; ps_messages := ps_messages s;
     ps_storage := saveConfig updated (ps_storage s) |}.

Definition updateParameterEnabled (k : jsstr) (v : bool) (s : PlaygroundState) : PlaygroundState :=
  let updated := obj_set k (JBool v) (ps_enabled s) in
  {| ps_config := ps_config s; ps_enabled := updated; ps_messages := ps_messages s;
     ps_storage := saveParameterEnabled updated (ps_storage s) |}.

Definition updateMessages (updater : list Message → list Message) (s : PlaygroundState)
    : PlaygroundState :=
  let newMessages := updater (ps_messages s) in
  {| ps_config := ps_config s; ps_enabled := ps_enabled s; ps_messages := newMessages;
     ps_storage := saveMessages newMessages (ps_storage s) |}.

Definition clearMessages (s : PlaygroundState) : PlaygroundState := updateMessages (λ _, []) s.

Definition resetConfig (s : PlaygroundState) : PlaygroundState :=
  {| ps_config := config_obj DEFAULT_CONFIG; ps_enabled := enabled_obj DEFAULT_PARAMETER_ENABLED;
     ps_messages := ps_messages s;
     ps_storage := saveParameterEnabled (enabled_obj DEFAULT_PARAMETER_ENABLED)
                     (saveConfig (config_obj DEFAULT_CONFIG) (ps_storage s)) |}.
End storage.

(** ** Round trip of messages *)

Lemma read_all_map {A} (f : json → option A) (g : A → json) l :
  (∀ x, f (g x) = Some x) → read_all f (map g l) = Some l.
Proof.
  intros H. induction l as [|x l IH]; cbn [map read_all]; [done|]. rewrite H. cbn. by rewrite IH.
Qed.

Lemma version_roundtrip v : version_of_json (version_json v) = Some v.
Proof. by destruct v. Qed.

Lemma source_roundtrip s : source_of_json (source_json s) = Some s.
Proof. by destruct s. Qed.

Lemma reasoning_roundtrip r : reasoning_of_json (reasoning_json r) = Some r.
Proof. by destruct r. Qed.

Lemma obj_get_opt k k' v r :
  obj_get k (opt_field k' v ++ r)
  = if str_eqb k k' then match v with Some j => Some j | None => obj_get k r end else obj_get k r.
Proof. destruct v as [j|]; cbn [opt_field app obj_get]; by destruct (str_eqb k k'). Qed.

Lemma opt_read_fmap {A} (f : json → option A) (g : A → json) k kvs o :
  (∀ x, f (g x) = Some x) → obj_get k kvs = g <$> o → opt_read f k kvs = Some o.
Proof. intros H E. unfold opt_read. rewrite E. destruct o as [x|]; cbn; [by rewrite H|done]. Qed.

Lemma sources_roundtrip l : (as_arr (JArr (map source_json l)) ≫= read_all source_of_json) = Some l.
Proof. apply read_all_map, source_roundtrip. Qed.

Lemma status_roundtrip x : (as_str (JStr (status_str x)) ≫= status_of_str) = Some x.
Proof. by destruct x. Qed.

(** Look a property up in the list of a message's properties. *)
Ltac find_field fld m :=
  cbn [app obj_get]; rewrite !obj_get_opt; cbn; by destruct (fld m), (errorCode m).

Lemma message_roundtrip m : message_of_json (message_json m) = Some m.
Proof.
  unfold message_json, message_of_json. cbn [as_obj mbind option_bind]. unfold message_of_fields.
  rewrite (opt_read_fmap (λ j, as_arr j ≫= read_all source_of_json)
             (λ l, JArr (map source_json l)) "sources" _ (sources m))
    by (apply sources_roundtrip || find_field sources m).
  rewrite (opt_read_fmap reasoning_of_json reasoning_json "reasoning" _ (reasoning m))
    by (apply reasoning_roundtrip || find_field reasoning m).
  rewrite (opt_read_fmap as_bool JBool "isReasoningStreaming" _ (isReasoningStreaming m))
    by (reflexivity || find_field isReasoningStreaming m).
  rewrite (opt_read_fmap as_bool JBool "isReasoningComplete" _ (isReasoningComplete m))
    by (reflexivity || find_field isReasoningComplete m).
  rewrite (opt_read_fmap as_bool JBool "isContentComplete" _ (isContentComplete m))
    by (reflexivity || find_field isContentComplete m).
  rewrite (opt_read_fmap (λ j, as_str j ≫= status_of_str) (λ s, JStr (status_str s))
             "status" _ (status m))
    by (apply status_roundtrip || find_field status m).
  match goal with |- context [obj_get "errorCode" ?kvs] =>
    replace (obj_get "errorCode" kvs) with (errorCode m) by find_field errorCode m end.
  cbn. rewrite (read_all_map _ _ _ version_roundtrip). by destruct m as [? []].
Qed.

(** ** Spreading an object *)

Lemma spread_get base kvs k :
  forallb no_index (map fst kvs) = true → NoDup (map fst kvs) →
  obj_get k (spread base (JObj kvs))
  = match obj_get k kvs with Some v => Some v | None => obj_get k base end.
Proof.
  intros Hi. unfold spread. cbn [own_props]. rewrite entries_id by done. clear Hi.
  revert base. induction kvs as [|[k0 v0] kvs IH]; intros base Hd; cbn [fold_left obj_get]; [done|].
  cbn [map fst] in Hd. apply list.NoDup_cons in Hd as [Hk Hd]. rewrite IH by done.
  rewrite obj_get_set. destruct (str_eqb_spec k k0) as [->|Hn]; [|done].
  destruct (obj_get k0 kvs) eqn:E; [|done]. exfalso. apply Hk, obj_get_keys. eauto.
Qed.

(** ** What a reload finds *)

Section reload.
Context (fits : Storage → jsstr → jsstr → bool) (Hfits : ∀ st k v, fits st k v = true).

Lemma save_insert k j st : save fits k j st = <[k := JSON_stringify j]> st.
Proof. unfold save, setItem. by rewrite Hfits. Qed.

(** An entry holds an object, or is absent and the object is the default. *)
Definition entry_holds (k : jsstr) (dflt kvs : list (jsstr * json)) (st : Storage) : Prop :=
  st !! k = Some (JSON_stringify (JObj kvs)) ∨ (st !! k = None ∧ kvs = dflt).

(** The invariant of the state hook: every entry holds the state, the objects are
    well formed and have all the default properties. *)
Record coherent (s : PlaygroundState) : Prop := {
  co_config : entry_holds CONFIG (config_obj DEFAULT_CONFIG) (ps_config s) (ps_storage s);
  co_enabled : entry_holds PARAMETER_ENABLED (enabled_obj DEFAULT_PARAMETER_ENABLED)
                 (ps_enabled s) (ps_storage s);
  co_messages : (ps_storage s !! MESSAGES = Some (JSON_stringify (JArr (map message_json (ps_messages s)))))
                ∨ (ps_storage s !! MESSAGES = None ∧ ps_messages s = []);
  co_wf_config : wf_fields (ps_config s) = true;
  co_wf_enabled : wf_fields (ps_enabled s) = true;
  co_wf_messages : forallb (λ m, wf_json (message_json m)) (ps_messages s) = true;
  co_def_config : ∀ k, k ∈ map fst (config_obj DEFAULT_CONFIG) → is_Some (obj_get k (ps_config s));
  co_def_enabled : ∀ k, k ∈ map fst (enabled_obj DEFAULT_PARAMETER_ENABLED) →
                        is_Some (obj_get k (ps_enabled s))
}.

Lemma load_entry k dflt kvs st :
  entry_holds k dflt kvs st → wf_fields kvs = true →
  load k st = JObj kvs ∨ (load k st = JObj [] ∧ kvs = dflt).
Proof.
  unfold entry_holds, load. intros [->|[-> ->]] Hw; [left|by right].
  replace (nonempty (JSON_stringify (JObj kvs))) with true by done.
  by rewrite (JSON_parse_stringify (JObj kvs) Hw).
Qed.

Lemma reload_entry k dflt kvs st key :
  entry_holds k dflt kvs st → wf_fields kvs = true →
  (∀ k', k' ∈ map fst dflt → is_Some (obj_get k' kvs)) →
  obj_get key (spread dflt (load k st)) = obj_get key kvs.
Proof.
  intros He Hw Hd. destruct (load_entry _ _ _ _ He Hw) as [->|[-> ->]].
  - rewrite spread_get by (by apply wf_no_index || by apply wf_fields_spec).
    destruct (obj_get key kvs) as [v|] eqn:E; [done|].
    destruct (obj_get key dflt) as [v|] eqn:Ed; [|done]. exfalso.
    assert (Hk : key ∈ map fst dflt) by (apply obj_get_keys; eauto).
    apply Hd in Hk as [? ?]. congruence.
  - rewrite spread_get; [done|done|constructor].
Qed.

Lemma wf_messages_json ms :
  forallb (λ m, wf_json (message_json m)) ms = true → wf_json (JArr (map message_json ms)) = true.
Proof.
  cbn [wf_json]. induction ms as [|m ms IH]; [done|]. cbn [map forallb]. intros ?; bool_prop; auto.
Qed.

Lemma load_saved_messages ms st :
  st !! MESSAGES = Some (JSON_stringify (JArr (map message_json ms))) →
  forallb (λ m, wf_json (message_json m)) ms = true →
  loadMessages fits st
  = (LoadMessages (sanitizeMessagesOnLoad ms),
     match sanitize_last ms with Some ms' => saveMessages fits ms' st | None => st end).
Proof.
  intros Hs Hw. unfold loadMessages. rewrite Hs.
  replace (nonempty (JSON_stringify (JArr (map message_json ms)))) with true by done.
  rewrite JSON_parse_stringify by by apply wf_messages_json.
  rewrite (read_all_map _ _ _ message_roundtrip). unfold sanitizeMessagesOnLoad.
  by destruct (sanitize_last ms).
Qed.

(** A reload shows the same settings and the recovered messages. *)
Lemma reload_coherent s :
  coherent s →
  ∃ s', usePlaygroundState fits (ps_storage s) = Some s'
        ∧ (∀ k, obj_get k (ps_config s') = obj_get k (ps_config s))
        ∧ (∀ k, obj_get k (ps_enabled s') = obj_get k (ps_enabled s))
        ∧ ps_messages s' = sanitizeMessagesOnLoad (ps_messages s).
Proof.
  intros [C E M WC WE WM DC DE]. unfold usePlaygroundState.
  destruct M as [M|[M Em]].
  - rewrite (load_saved_messages _ _ M WM). eexists. split; [done|]. cbn [ps_config ps_enabled ps_messages].
    split_and!; [intros k; by apply reload_entry|intros k; by apply reload_entry|done].
  - unfold loadMessages. rewrite M, Em. eexists. split; [done|]. cbn [ps_config ps_enabled ps_messages].
    split_and!; [intros k; by apply reload_entry|intros k; by apply reload_entry|done].
Qed.

(** ** Operations *)

Inductive op : Type :=
| OpUpdateConfig (k : jsstr) (v : json)
| OpUpdateEnabled (k : jsstr) (v : bool)
| OpUpdateMessages (ms : list Message)
| OpClearMessages
| OpResetConfig.

(** The values that can be stored. *)
Definition storable (o : op) : bool :=
  match o with
  | OpUpdateConfig k v => units_ok k && no_index k && wf_json v
  | OpUpdateEnabled k _ => units_ok k && no_index k
  | OpUpdateMessages ms => forallb (λ m, wf_json (message_json m)) ms
  | OpClearMessages | OpResetConfig => true
  end.

Definition apply_op (s : PlaygroundState) (o : op) : PlaygroundState :=
  match o with
  | OpUpdateConfig k v => updateConfig fits k v s
  | OpUpdateEnabled k v => updateParameterEnabled fits k v s
  | OpUpdateMessages ms => updateMessages fits (λ _, ms) s
  | OpClearMessages => clearMessages fits s
  | OpResetConfig => resetConfig fits s
  end.

Lemma entry_other k k' j dflt kvs st :
  k ≠ k' → entry_holds k dflt kvs st → entry_holds k dflt kvs (<[k' := JSON_stringify j]> st).
Proof. intros Hn. unfold entry_holds. by rewrite lookup_insert_ne by congruence. Qed.

Lemma entry_self k dflt kvs st : entry_holds k dflt kvs (<[k := JSON_stringify (JObj kvs)]> st).
Proof. left. by rewrite lookup_insert_eq. Qed.

Lemma set_keeps_keys (ks : list jsstr) k v kvs :
  (∀ k', k' ∈ ks → is_Some (obj_get k' kvs)) → ∀ k', k' ∈ ks → is_Some (obj_get k' (obj_set k v kvs)).
Proof. intros H k' Hk. rewrite obj_get_set. destruct (str_eqb k' k); eauto. Qed.

Lemma coherent_messages s ms :
  forallb (λ m, wf_json (message_json m)) ms = true → coherent s →
  coherent (updateMessages fits (λ _, ms) s).
Proof.
  intros Hw [C E M WC WE WM DC DE]. unfold updateMessages, saveMessages.
  split; cbn [ps_config ps_enabled ps_messages ps_storage]; try assumption; rewrite save_insert.
  - apply entry_other; [done|assumption].
  - apply entry_other; [done|assumption].
  - left. by rewrite lookup_insert_eq.
Qed.

Lemma default_fields_wf :
  wf_fields (config_obj DEFAULT_CONFIG) = true
  ∧ wf_fields (enabled_obj DEFAULT_PARAMETER_ENABLED) = true.
Proof. split; vm_compute; reflexivity. Qed.

Lemma other_messages (k j : jsstr) (st : Storage) (v : option jsstr) :
  k ≠ MESSAGES → st !! MESSAGES = v → <[k := j]> st !! MESSAGES = v.
Proof. intros Hn <-. by rewrite lookup_insert_ne. Qed.

Lemma apply_coherent s o : storable o = true → coherent s → coherent (apply_op s o).
Proof.
  intros Ho Hs. pose proof Hs as [C E M WC WE WM DC DE]. destruct default_fields_wf as [W1 W2].
  destruct o; cbn [apply_op storable] in *.
  - bool_prop. unfold updateConfig, saveConfig.
    split; cbn [ps_config ps_enabled ps_messages ps_storage]; rewrite ?save_insert; try assumption.
    + apply entry_self.
    + apply entry_other; [done|assumption].
    + destruct M as [M|[M ?]]; [left|right]; [|split; [|done]]; by apply other_messages.
    + by apply wf_fields_set.
    + by apply set_keeps_keys.
  - bool_prop. unfold updateParameterEnabled, saveParameterEnabled.
    split; cbn [ps_config ps_enabled ps_messages ps_storage]; rewrite ?save_insert; try assumption.
    + apply entry_other; [done|assumption].
    + apply entry_self.
    + destruct M as [M|[M ?]]; [left|right]; [|split; [|done]]; by apply other_messages.
    + by apply wf_fields_set.
    + by apply set_keeps_keys.
  - by apply coherent_messages.
  - by apply coherent_messages.
  - unfold resetConfig, saveConfig, saveParameterEnabled.
    split; cbn [ps_config ps_enabled ps_messages ps_storage]; rewrite ?save_insert; try assumption.
    + apply entry_other; [done|]. apply entry_self.
    + apply entry_self.
    + destruct M as [M|[M ?]]; [left|right]; [|split; [|done]]; by repeat apply other_messages.
    + intros k Hk. by apply obj_get_keys.
    + intros k Hk. by apply obj_get_keys.
Qed.

Lemma run_coherent s os :
  forallb storable os = true → coherent s → coherent (fold_left apply_op os s).
Proof.
  revert s; induction os as [|o os IH]; intros s Hos Hs; cbn [fold_left]; [done|].
  cbn [forallb] in Hos. bool_prop. apply IH; [done|]. by apply apply_coherent.
Qed.

(** A fresh storage: the defaults and no messages. *)
Lemma initial_coherent :
  ∃ s, usePlaygroundState fits ∅ = Some s ∧ coherent s.
Proof.
  destruct default_fields_wf as [W1 W2].
  exists {| ps_config := config_obj DEFAULT_CONFIG; ps_enabled := enabled_obj DEFAULT_PARAMETER_ENABLED;
            ps_messages := []; ps_storage := ∅ |}.
  split; [unfold usePlaygroundState, loadMessages, loadConfig, loadParameterEnabled, load;
          rewrite !lookup_empty; reflexivity|].
  split; cbn [ps_config ps_enabled ps_messages ps_storage]; try assumption.
  - right. split; [apply lookup_empty|reflexivity].
  - right. split; [apply lookup_empty|reflexivity].
  - right. split; [apply lookup_empty|reflexivity].
  - intros k Hk. by apply obj_get_keys.
  - intros k Hk. by apply obj_get_keys.
Qed.
End reload.

(** ** The properties *)

(** C30: what is shown survives a reload.  From an empty storage in which every item
    fits, after any sequence of changes to values that can be stored, loading the
    storage gives the same value of every setting and every parameter switch, and the
    messages as they are sanitized on load: with the last interrupted one recovered, and
    the same messages if none is interrupted. *)
Theorem reload_restores fits os s0 :
  (∀ st k v, fits st k v = true) → forallb storable os = true →
  usePlaygroundState fits ∅ = Some s0 →
  let s := fold_left (apply_op fits) os s0 in
  ∃ s', usePlaygroundState fits (ps_storage s) = Some s'
        ∧ (∀ k, obj_get k (ps_config s') = obj_get k (ps_config s))
        ∧ (∀ k, obj_get k (ps_enabled s') = obj_get k (ps_enabled s))
        ∧ ps_messages s' = sanitizeMessagesOnLoad (ps_messages s)
        ∧ (stuck_count (ps_messages s) = 0 → ps_messages s' = ps_messages s).
Proof.
  intros Hf Hos H0. destruct (initial_coherent fits) as (s1 & H1 & Hc).
  assert (s1 = s0) as -> by congruence. cbv zeta.
  destruct (reload_coherent fits (fold_left (apply_op fits) os s0)) as (s' & E & H2 & H3 & H4); [by apply (run_coherent fits Hf)|].
  exists s'. split_and!; try done. intros Hn. rewrite H4. unfold sanitizeMessagesOnLoad. by rewrite (proj2 (sanitize_last_None _) Hn).
Qed.

Definition ex_ops : list op :=
  [OpUpdateConfig "temperature" (JNum (Number_of_string "0.5"));
   OpUpdateMessages [createUserMessage "k" "v" "hello"; createLoadingAssistantMessage "a" "b"];
   OpUpdateEnabled "seed" true].

Lemma reload_restores_witness :
  ∃ s', (∃ s0, usePlaygroundState (λ _ _ _, true) ∅ = Some s0
         ∧ usePlaygroundState (λ _ _ _, true) (ps_storage (fold_left (apply_op (λ _ _ _, true)) ex_ops s0))
           = Some s')
        ∧ obj_get "temperature" (ps_config s') = Some (JNum (Number_of_string "0.5")).
Proof.
  destruct (initial_coherent (λ _ _ _, true)) as (s0 & H0 & _).
  destruct (reload_restores (λ _ _ _, true) ex_ops s0 (λ _ _ _, eq_refl) ltac:(vm_compute; reflexivity) H0)
    as (s' & H1 & H2 & _).
  exists s'. split; [exists s0; split; assumption|]. rewrite H2.
  vm_compute in H0. injection H0 as <-. vm_compute. reflexivity.
Defined.

(** The messages written are the messages read: for any storable messages,
    loading what was saved returns them with the last interrupted one recovered,
    and a second load finds the recovered messages unchanged. *)
Theorem messages_roundtrip fits ms st :
  (∀ st k v, fits st k v = true) →
  forallb (λ m, wf_json (message_json m)) ms = true →
  forallb (λ m, wf_json (message_json m)) (sanitizeMessagesOnLoad ms) = true →
  stuck_count ms ≤ 1 →
  let '(r, st') := loadMessages fits (saveMessages fits ms st) in
  r = LoadMessages (sanitizeMessagesOnLoad ms)
  ∧ loadMessages fits st' = (LoadMessages (sanitizeMessagesOnLoad ms), st').
Proof.
  intros Hf Hw Hw' Hc.
  assert (Hl : ∀ ms st, saveMessages fits ms st !! MESSAGES
                        = Some (JSON_stringify (JArr (map message_json ms)))).
  { intros ms' st'. unfold saveMessages. rewrite (save_insert fits Hf). by rewrite lookup_insert_eq. }
  rewrite (load_saved_messages fits _ _ (Hl ms st) Hw). split; [done|].
  unfold sanitizeMessagesOnLoad in *. destruct (sanitize_last ms) as [ms'|] eqn:E; cbn [from_option id] in *.
  - rewrite (load_saved_messages fits _ _ (Hl ms' _) Hw'). unfold sanitizeMessagesOnLoad.
    assert (E' : sanitize_last ms' = None).
    { apply sanitize_last_None. destruct (sanitize_last_Some _ _ E) as (a & m & b & -> & -> & Hm & Hb).
      rewrite stuck_count_app, stuck_count_cons, sanitize_settles, Hb in *. rewrite Hm in Hc. lia. }
    by rewrite E'.
  - rewrite (load_saved_messages fits _ _ (Hl ms st) Hw). unfold sanitizeMessagesOnLoad. by rewrite E.
Qed.

Lemma messages_roundtrip_witness :
  let ms := [createUserMessage "k" "v" "hello"; createLoadingAssistantMessage "a" "b"] in
  (loadMessages (λ _ _ _, true) (saveMessages (λ _ _ _, true) ms ∅)).1
  = LoadMessages (sanitizeMessagesOnLoad ms).
Proof.
  cbv zeta.
  pose proof (messages_roundtrip (λ _ _ _, true)
    [createUserMessage "k" "v" "hello"; createLoadingAssistantMessage "a" "b"] ∅
    (λ _ _ _, eq_refl) ltac:(vm_compute; reflexivity) ltac:(vm_compute; reflexivity)
    ltac:(apply (bool_decide_unpack _); vm_compute; exact I)) as H.
  destruct (loadMessages _ _) as [r st']. destruct H as [H _]. exact H.
Defined.

(** A full storage loses nothing of the running page: when [setItem] throws,
    every operation still changes the state as it does otherwise, and the storage
    is left as it was. *)
Theorem quota_exceeded s o :
  let full := λ _ _ _, false in
  let s' := apply_op full s o in
  ps_storage s' = ps_storage s
  ∧ (let free := apply_op (λ _ _ _, true) s o in
     ps_config s' = ps_config free ∧ ps_enabled s' = ps_enabled free
     ∧ ps_messages s' = ps_messages free).
Proof. by destruct o. Qed.
