(* ===== verification/Channels.v ===== *)
(** * Channels

    [features/channels/types.ts], [constants.ts] and the helpers of
    [features/channels/lib]: [channel-utils.ts], [multi-key-utils.ts],
    [ollama-utils.ts] and [upstream-update-utils.ts].  The helpers that only
    format with the currency, date and translation libraries are left out. *)
From Stdlib Require Import NArith ZArith.
From stdpp Require Import list numbers.
From S2P Require Import Prelude JsString JsNumber Json JsArray ModelMapping.

(** ** Types *)

(** A value, [null] or [undefined], where the code tells the last two apart. *)
Inductive nullish (A : Type) : Type :=
| NUndef
| NNull
| NVal (a : A).
Arguments NUndef {A}.
Arguments NNull {A}.
Arguments NVal {A} _.

Record ChannelInfo : Type := {
  is_multi_key : bool;
  multi_key_size : number;
  multi_key_status_list : option (list (jsstr * number));
  multi_key_disabled_reason : option (list (jsstr * jsstr));
  multi_key_disabled_time : option (list (jsstr * number));
  multi_key_polling_index : number;
  multi_key_mode : jsstr
}.

(** Optional strings are [None] when they are [null] or [undefined]. *)
Record Channel : Type := {
  ch_id : json;
  ch_type : Z;
  ch_key : jsstr;
  ch_openai_organization : option jsstr;
  ch_test_model : option jsstr;
  ch_status : Z;
  ch_name : jsstr;
  ch_weight : nullish number;
  ch_created_time : number;
  ch_test_time : number;
  ch_response_time : number;
  ch_base_url : option jsstr;
  ch_other : jsstr;
  ch_balance : number;
  ch_balance_updated_time : number;
  ch_models : jsstr;
  ch_group : jsstr;
  ch_used_quota : number;
  ch_model_mapping : option jsstr;
  ch_status_code_mapping : option jsstr;
  ch_priority : nullish number;
  ch_auto_ban : nullish number;
  ch_other_info : jsstr;
  ch_tag : option jsstr;
  ch_setting : option jsstr;
  ch_param_override : option jsstr;
  ch_header_override : option jsstr;
  ch_remark : jsstr;
  ch_max_input_tokens : number;
  ch_channel_info : ChannelInfo;
  ch_settings : jsstr
}.

(** ** Type and status tables *)

Fixpoint table_get {A} (k : Z) (t : list (Z * A)) : option A :=
  match t with
  | [] => None
  | (k', v) :: r => if (k =? k')%Z then Some v else table_get k r
  end.

Definition CHANNEL_TYPES : list (Z * jsstr) :=
  [(0, "Unknown"); (1, "OpenAI"); (2, "Midjourney"); (3, "Azure"); (4, "Ollama");
   (5, "MidjourneyPlus"); (6, "OpenAIMax"); (7, "OhMyGPT"); (8, "Custom"); (9, "AILS");
   (10, "AI Proxy"); (11, "PaLM"); (12, "API2GPT"); (13, "AIGC2D"); (14, "Anthropic");
   (15, "Baidu"); (16, "Zhipu"); (17, "Ali"); (18, "Xunfei"); (19, "360"); (20, "OpenRouter");
   (21, "AI Proxy Library"); (22, "FastGPT"); (23, "Tencent"); (24, "Gemini"); (25, "Moonshot");
   (26, "Zhipu V4"); (27, "Perplexity"); (31, "LingYiWanWu"); (33, "AWS"); (34, "Cohere");
   (35, "MiniMax"); (36, "SunoAPI"); (37, "Dify"); (38, "Jina"); (39, "Cloudflare");
   (40, "SiliconFlow"); (41, "Vertex AI"); (42, "Mistral"); (43, "DeepSeek"); (44, "MokaAI");
   (45, "VolcEngine"); (46, "Baidu V2"); (47, "Xinference"); (48, "xAI"); (49, "Coze");
   (50, "Kling"); (51, "Jimeng"); (52, "Vidu"); (53, "Submodel"); (54, "DoubaoVideo");
   (55, "Sora"); (56, "Replicate"); (57, "Codex")]%Z.

Definition CHANNEL_TYPE_DISPLAY_ORDER : list Z :=
  [1; 14; 33; 24; 43; 3; 41; 48; 42; 34; 20; 4; 40; 27; 25; 17; 26; 15; 46; 23; 18; 45; 31; 35; 49;
   19; 47; 37; 38; 39; 11; 8; 57; 22; 21; 44; 2; 5; 36; 50; 51; 52; 53; 54; 55; 56]%Z.

(** The first loop: the displayed types that have a label. *)
Definition ordered_options : list (Z * jsstr) :=
  omap (λ id, (λ label, (id, label)) <$> table_get id CHANNEL_TYPES) CHANNEL_TYPE_DISPLAY_ORDER.

(** The second loop adds the types that were not seen; the keys of the table are
    array indices and come in ascending order. *)
Definition CHANNEL_TYPE_OPTIONS : list (Z * jsstr) :=
  ordered_options
  ++ List.filter
       (λ '(id, _), negb (id =? 0)%Z && negb (existsb (Z.eqb id) (map fst ordered_options)))
       CHANNEL_TYPES.

Definition getChannelTypeLabel (type : Z) : jsstr :=
  default "Unknown" (table_get type CHANNEL_TYPES).

Definition TYPE_TO_ICON : list (Z * jsstr) :=
  [(1, "OpenAI"); (6, "OpenAI"); (7, "OpenAI"); (8, "OpenAI"); (3, "Azure"); (14, "Claude");
   (24, "Gemini"); (11, "Google"); (41, "Gemini"); (33, "Aws"); (39, "Cloudflare");
   (15, "Baidu"); (46, "Baidu"); (16, "Zhipu"); (26, "Zhipu"); (17, "Qwen"); (18, "Spark");
   (23, "Hunyuan"); (19, "Ai360"); (25, "Moonshot"); (31, "Yi"); (35, "Minimax");
   (45, "Volcengine"); (4, "Ollama"); (27, "Perplexity"); (34, "Cohere"); (42, "Mistral");
   (43, "DeepSeek"); (48, "XAI"); (49, "Coze"); (40, "SiliconCloud"); (44, "OpenAI");
   (20, "OpenRouter"); (2, "Midjourney"); (5, "Midjourney"); (50, "Kling"); (51, "Jimeng");
   (52, "Vidu"); (36, "Suno"); (55, "OpenAI"); (54, "Doubao"); (56, "Replicate"); (37, "Dify");
   (38, "Jina"); (22, "FastGPT"); (47, "Xinference"); (53, "OpenAI"); (10, "OpenAI");
   (21, "OpenAI"); (12, "OpenAI"); (13, "OpenAI"); (9, "OpenAI")]%Z.

Definition getChannelTypeIcon (type : Z) : jsstr := default "OpenAI" (table_get type TYPE_TO_ICON).

Record Badge : Type := { variant : jsstr; label : jsstr }.

Definition CHANNEL_STATUS_CONFIG : list (Z * Badge) :=
  [(0, {| variant := "neutral"; label := "Unknown" |});
   (1, {| variant := "success"; label := "Enabled" |});
   (2, {| variant := "danger"; label := "Disabled" |});
   (3, {| variant := "warning"; label := "Auto Disabled" |})]%Z.

Definition MULTI_KEY_STATUS_CONFIG : list (Z * Badge) :=
  [(1, {| variant := "success"; label := "Enabled" |});
   (2, {| variant := "neutral"; label := "Manual Disabled" |});
   (3, {| variant := "danger"; label := "Auto Disabled" |})]%Z.

Definition getChannelStatusBadge (status : Z) : Badge :=
  default {| variant := "neutral"; label := "Unknown" |} (table_get status CHANNEL_STATUS_CONFIG).

Definition getMultiKeyStatusBadge (status : Z) : Badge :=
  default {| variant := "success"; label := "Enabled" |} (table_get status MULTI_KEY_STATUS_CONFIG).

Definition getMultiKeyStatusConfig (status : Z) : Badge :=
  default {| variant := "neutral"; label := "Unknown" |} (table_get status MULTI_KEY_STATUS_CONFIG).

Definition isChannelEnabled (channel : Channel) : bool := (ch_status channel =? 1)%Z.

Definition isMultiKeyChannel (channel : Channel) : bool := is_multi_key (ch_channel_info channel).

(** ** Multi-key confirmations *)

Inductive MultiKeyAction : Type :=
| MKDelete | MKEnable | MKDisable | MKEnableAll | MKDisableAll | MKDeleteDisabled.

Definition getMultiKeyConfirmMessage (action : option MultiKeyAction) : jsstr :=
  match action with
  | None => []
  | Some MKDelete => "Are you sure you want to delete this key? This action cannot be undone."
  | Some MKEnable => "Enable this key?"
  | Some MKDisable => "Disable this key?"
  | Some MKEnableAll => "Are you sure you want to enable all keys?"
  | Some MKDisableAll => "Are you sure you want to disable all enabled keys?"
  | Some MKDeleteDisabled =>
      "Are you sure you want to delete all auto-disabled keys? This action cannot be undone."
  end.

Definition isDestructiveAction (action : option MultiKeyAction) : bool :=
  match action with
  | Some MKDelete | Some MKDeleteDisabled | Some MKDisableAll => true
  | _ => false
  end.

(** ** Keys *)

(** [s.slice(-n)]. *)
Definition slice_last (n : nat) (s : jsstr) : jsstr := drop (length s - n) s.

Definition key_lines (key : jsstr) : list jsstr :=
  List.filter (λ k, nonempty (trim k)) (split_char 10 key).

Definition formatChannelKey (key : jsstr) (isMultiKey : bool) : jsstr :=
  if negb (nonempty key) then []
  else if isMultiKey then to_dec (N.of_nat (length (key_lines key))) ++ " keys"
  else if (length key <=? 16)%nat then take 4 key ++ "..." ++ slice_last 4 key
  else take 8 key ++ "..." ++ slice_last 8 key.

(** The second argument defaults to 10. *)
Definition formatKeyPreview (key : jsstr) (maxLength : nat) : jsstr :=
  if negb (nonempty key) then []
  else if (length key <=? maxLength)%nat then key
  else take maxLength key ++ "...".

Definition countKeys (key : jsstr) : nat :=
  if negb (nonempty key) then 0 else length (key_lines key).

Record DedupResult : Type := {
  deduplicatedText : jsstr;
  beforeCount : Z;
  afterCount : Z;
  removedCount : Z
}.

(** The [forEach] with its [Set] keeps the first of every non-empty trimmed line. *)
Definition deduplicateKeys (keysText : jsstr) : DedupResult :=
  if negb (nonempty (trim keysText)) then
    {| deduplicatedText := []; beforeCount := 0; afterCount := 0; removedCount := 0 |}
  else
    let keyLines := split_char 10 keysText in
    let before := Z.of_nat (length keyLines) in
    let deduplicatedKeys := str_dedup (List.filter nonempty (map trim keyLines)) in
    let after := Z.of_nat (length deduplicatedKeys) in
    {| deduplicatedText := join "\n" deduplicatedKeys; beforeCount := before;
       afterCount := after; removedCount := (before - after)%Z |}.

Definition TYPE_TO_KEY_PROMPT : list (Z * jsstr) :=
  [(15, "Format: APIKey|SecretKey"); (18, "Format: APPID|APISecret|APIKey");
   (22, "Format: APIKey-AppId, e.g., fastgpt-0sp2gtvfdgyi4k30jwlgwf1i-64f335d84283f05518e9e041");
   (23, "Format: AppId|SecretId|SecretKey"); (33, "Format: Ak|Sk|Region");
   (50, "Format: AccessKey|SecretKey (or just ApiKey if upstream is New API)");
   (51, "Format: Access Key ID|Secret Access Key");
   (57, "Paste Codex OAuth JSON credential (access_token / refresh_token / account_id)")]%Z.

Definition getKeyPromptForType (type : Z) : jsstr :=
  default "Enter API key for this channel" (table_get type TYPE_TO_KEY_PROMPT).

(** ** Lists of models and groups *)

Definition parseModelsList (models : jsstr) : list jsstr := parseModelsString models.

(** [localeCompare(a, b) <= 0] is a parameter. *)
Definition group_leb (locale_leb : jsstr → jsstr → bool) (a b : jsstr) : bool :=
  if str_eqb a "default" then true
  else if str_eqb b "default" then false
  else locale_leb a b.

Definition parseGroupsList (locale_leb : jsstr → jsstr → bool) (groups : jsstr) : list jsstr :=
  js_sort (group_leb locale_leb) (parseModelsString groups).

Definition formatModelsString (models : list jsstr) : jsstr := join "," models.
Definition formatGroupsString (groups : list jsstr) : jsstr := join "," groups.

(** ** Settings *)

(** [None] is [null] or [undefined]; the parsed value is cast. *)
Definition parseChannelSettings (settingStr : option jsstr) : json :=
  match settingStr with
  | Some s => if nonempty s then default (JObj []) (JSON_parse s) else JObj []
  | None => JObj []
  end.

Definition parseChannelOtherSettings (settingsStr : option jsstr) : json :=
  match settingsStr with
  | Some s =>
      if nonempty s && negb (str_eqb s "{}") then default (JObj []) (JSON_parse s) else JObj []
  | None => JObj []
  end.

Definition validateChannelSettings (settings : jsstr) : bool :=
  if negb (nonempty (trim settings)) then true
  else match JSON_parse settings with Some _ => true | None => false end.

(** ** Balance and response time *)

Definition getBalanceVariant (balance : number) : jsstr :=
  if num_eqb balance zero then "neutral"
  else if num_ltb balance (num_of_Z 1) then "danger"
  else if num_ltb balance (num_of_Z 10) then "warning"
  else "success".

(** Without a translation function. *)
Definition formatResponseTime (timeMs : number) : jsstr :=
  if num_eqb timeMs zero then "Not tested"
  else if num_ltb timeMs (num_of_Z 1000) then Number_toString timeMs ++ "ms"
  else toFixed (num_div timeMs (num_of_Z 1000)) 2 ++ "s".

Definition RT_EXCELLENT : Badge := {| variant := "success"; label := "Excellent" |}.
Definition RT_GOOD : Badge := {| variant := "info"; label := "Good" |}.
Definition RT_FAIR : Badge := {| variant := "warning"; label := "Fair" |}.
Definition RT_POOR : Badge := {| variant := "danger"; label := "Poor" |}.
Definition RT_UNKNOWN : Badge := {| variant := "neutral"; label := "Not tested" |}.

Definition getResponseTimeConfig (timeMs : number) : Badge :=
  if num_eqb timeMs zero then RT_UNKNOWN
  else if num_leb timeMs (num_of_Z 500) then RT_EXCELLENT
  else if num_leb timeMs (num_of_Z 1000) then RT_GOOD
  else if num_leb timeMs (num_of_Z 2000) then RT_FAIR
  else if num_leb timeMs (num_of_Z 5000) then RT_POOR
  else RT_POOR.

Definition getPriorityDisplay (priority : nullish number) : jsstr :=
  match priority with NVal n => Number_toString n | _ => "0" end.

Definition getWeightDisplay (weight : nullish number) : jsstr :=
  match weight with NVal n => Number_toString n | _ => "0" end.

(** ** Validation *)

Definition validateChannelName (name : jsstr) : bool := nonempty (trim name).
Definition validateApiKey (key : jsstr) : bool := nonempty (trim key).
Definition validateModels (models : jsstr) : bool := nonempty (parseModelsList models).
Definition validateGroups (locale_leb : jsstr → jsstr → bool) (groups : jsstr) : bool :=
  nonempty (parseGroupsList locale_leb groups).

(** ** Attention *)

Definition low_balance (channel : Channel) : bool :=
  num_ltb zero (ch_balance channel) && num_ltb (ch_balance channel) (num_of_Z 1).

Definition all_keys_disabled (channel : Channel) : bool :=
  is_multi_key (ch_channel_info channel)
  && match multi_key_status_list (ch_channel_info channel) with
     | Some l => num_leb (multi_key_size (ch_channel_info channel)) (num_of_Z (Z.of_nat (length l)))
     | None => false
     end.

Definition channelNeedsAttention (channel : Channel) : bool :=
  if (ch_status channel =? 3)%Z then true
  else if low_balance channel then true
  else if all_keys_disabled channel then true
  else false.

Definition getAttentionReason (channel : Channel) : option jsstr :=
  if (ch_status channel =? 3)%Z then Some "Auto-disabled"
  else if low_balance channel then Some "Low balance"
  else if all_keys_disabled channel then Some "All keys disabled"
  else None.

(** ** Tag rows *)

(** A tag row: the first channel of the tag with the fixed fields overridden, the
    aggregated fields, which replace those of [tr_base], and the children.
    [undefined] as a status is [None]. *)
Record TagRow : Type := {
  tr_base : Channel;
  tr_tag : jsstr;
  tr_status : option Z;
  tr_group : jsstr;
  tr_used_quota : number;
  tr_response_time : number;
  tr_priority : nullish number;
  tr_weight : nullish number;
  tr_children : list Channel
}.

Definition minus_one : number := num_of_Z (-1).

(** [{ ...channel, key: tag, id: tag, tag, name: tag, type: 0, ... }]. *)
Definition tag_base (channel : Channel) (tag : jsstr) : Channel :=
  {| ch_id := JStr tag; ch_type := 0; ch_key := tag;
     ch_openai_organization := ch_openai_organization channel;
     ch_test_model := ch_test_model channel; ch_status := ch_status channel; ch_name := tag;
     ch_weight := NVal minus_one; ch_created_time := zero; ch_test_time := zero;
     ch_response_time := zero; ch_base_url := ch_base_url channel; ch_other := ch_other channel;
     ch_balance := zero; ch_balance_updated_time := zero; ch_models := []; ch_group := [];
     ch_used_quota := zero; ch_model_mapping := ch_model_mapping channel;
     ch_status_code_mapping := ch_status_code_mapping channel; ch_priority := NVal minus_one;
     ch_auto_ban := ch_auto_ban channel; ch_other_info := ch_other_info channel; ch_tag := Some tag;
     ch_setting := ch_setting channel; ch_param_override := ch_param_override channel;
     ch_header_override := ch_header_override channel; ch_remark := ch_remark channel;
     ch_max_input_tokens := ch_max_input_tokens channel;
     ch_channel_info := ch_channel_info channel; ch_settings := ch_settings channel |}.

Definition new_row (channel : Channel) (tag : jsstr) : TagRow :=
  {| tr_base := tag_base channel tag; tr_tag := tag; tr_status := None; tr_group := [];
     tr_used_quota := zero; tr_response_time := zero; tr_priority := NVal minus_one;
     tr_weight := NVal minus_one; tr_children := [] |}.

(** [x === y] on numbers, [null] and [undefined]. *)
Definition nullish_eqb (x y : nullish number) : bool :=
  match x, y with
  | NUndef, NUndef | NNull, NNull => true
  | NVal a, NVal b => num_eqb a b
  | _, _ => false
  end.

(** Priority and weight: the first value replaces the marker [-1], a different
    one gives [null]. *)
Definition merge_nullish (row chan : nullish number) : nullish number :=
  if nullish_eqb row (NVal minus_one) then chan
  else if negb (nullish_eqb row chan) then NNull else row.

(** [existingGroups] is read before the loop and not updated by it. *)
Definition merge_group (row chan : jsstr) : jsstr :=
  if negb (nonempty row) then chan
  else
    let existingGroups := List.filter nonempty (split_char 44 row) in
    let newGroups := List.filter nonempty (split_char 44 chan) in
    fold_left (λ acc g, if str_mem g existingGroups then acc else acc ++ "," ++ g) newGroups row.

Definition merge_status (row : option Z) (chan : Z) : option Z :=
  if (chan =? 1)%Z then Some 1%Z
  else match row with None => Some chan | Some _ => row end.

(** The part of the loop body after the row is found. *)
Definition absorb (row : TagRow) (channel : Channel) : TagRow :=
  let children := tr_children row ++ [channel] in
  let childCount := Z.of_nat (length children) in
  {| tr_base := tr_base row; tr_tag := tr_tag row;
     tr_status := merge_status (tr_status row) (ch_status channel);
     tr_group := merge_group (tr_group row) (ch_group channel);
     tr_used_quota := num_add (tr_used_quota row) (ch_used_quota channel);
     tr_response_time :=
       num_div (num_add (num_mul (tr_response_time row) (num_of_Z (childCount - 1)))
                  (ch_response_time channel)) (num_of_Z childCount);
     tr_priority := merge_nullish (tr_priority row) (ch_priority channel);
     tr_weight := merge_nullish (tr_weight row) (ch_weight channel);
     tr_children := children |}.

(** [channel.tag || '']. *)
Definition tag_of (channel : Channel) : jsstr := default [] (ch_tag channel).

Definition has_tag (t : jsstr) (rows : list TagRow) : bool := str_mem t (map tr_tag rows).

(** One turn of the loop.  [tagMap] and [result] hold the same row objects, so the
    map is the search in [result]. *)
Definition aggregate_step (rows : list TagRow) (channel : Channel) : list TagRow :=
  let tag := tag_of channel in
  let rows := if has_tag tag rows then rows else rows ++ [new_row channel tag] in
  map (λ row, if str_eqb (tr_tag row) tag then absorb row channel else row) rows.

Definition aggregateChannelsByTag (channels : list Channel) : list TagRow :=
  fold_left aggregate_step channels [].

(** ** Upstream model updates *)

(** [String(model || '').trim()]. *)
Definition model_text (model : json) : jsstr :=
  trim (if json_truthy model then json_toString model else []).

Definition normalizeModelList (models : list json) : list jsstr :=
  str_dedup (List.filter nonempty (map model_text models)).

Record UpstreamMeta : Type := {
  enabled : bool;
  pendingAddModels : list jsstr;
  pendingRemoveModels : list jsstr
}.

(** The property as an array, [(parsed.k as unknown[]) || []]; a truthy value
    that is not an array has no [map], and the call throws. *)
Definition model_array (k : jsstr) (kvs : list (jsstr * json)) : exn (list json) :=
  match obj_get k kvs with
  | Some (JArr l) => Ok l
  | Some j => if json_truthy j then Throw else Ok []
  | None => Ok []
  end.

Definition meta_of (kvs : list (jsstr * json)) : exn UpstreamMeta :=
  add ← model_array "upstream_model_update_last_detected_models" kvs;
  remove ← model_array "upstream_model_update_last_removed_models" kvs;
  Ok {| enabled := match obj_get "upstream_model_update_check_enabled" kvs with
                   | Some (JBool true) => true
                   | _ => false
                   end;
        pendingAddModels := normalizeModelList add;
        pendingRemoveModels := normalizeModelList remove |}.

Definition no_meta : UpstreamMeta :=
  {| enabled := false; pendingAddModels := []; pendingRemoveModels := [] |}.

(** [settings] is of type [unknown]; [None] is [undefined].  A text may denote an
    array, which has none of the properties. *)
Definition parseUpstreamUpdateMeta (settings : option json) : exn UpstreamMeta :=
  match settings with
  | Some (JObj kvs) => meta_of kvs
  | Some (JStr s) =>
      match JSON_parse s with
      | Some (JObj kvs) => meta_of kvs
      | Some (JArr _) => meta_of []
      | _ => Ok no_meta
      end
  | _ => Ok no_meta
  end.

(** ** Ollama *)

Definition getString (v : option json) : option jsstr :=
  match v with Some (JStr s) => Some s | _ => None end.

Definition getNumber (v : option json) : option number :=
  match v with Some (JNum n) => Some n | _ => None end.

(** The first alternative that is a non-empty string. *)
Fixpoint first_string (vs : list (option jsstr)) : option jsstr :=
  match vs with
  | [] => None
  | Some s :: r => if nonempty s then Some s else first_string r
  | None :: r => first_string r
  end.

(** The properties of a record; an array has none of the names used below. *)
Definition record_props (v : option json) : option (list (jsstr * json)) :=
  match v with Some (JObj kvs) => Some kvs | Some (JArr _) => Some [] | _ => None end.

(** [ollama_base_url] is a field some channels carry beside those of [Channel]. *)
Definition resolveOllamaBaseUrl (channel : option (Channel * option json)) : jsstr :=
  match channel with
  | None => []
  | Some (ch, ollama_base_url) =>
      let parsed :=
        if nonempty (ch_other_info ch) then record_props (JSON_parse (ch_other_info ch)) else None in
      let field k := match parsed with Some kvs => trim <$> getString (obj_get k kvs) | None => None end in
      default [] (first_string
        [trim <$> ch_base_url ch; trim <$> getString ollama_base_url;
         field "base_url"; field "public_url"; field "api_url"])
  end.

(** [!normalized.k]. *)
Definition falsy_prop (k : jsstr) (o : list (jsstr * json)) : bool :=
  match obj_get k o with Some j => negb (json_truthy j) | None => true end.

(** [if (v !== undefined && !normalized.k) normalized.k = v]. *)
Definition fill (k : jsstr) (v : option json) (o : list (jsstr * json)) : list (jsstr * json) :=
  match v with Some j => if falsy_prop k o then obj_set k j o else o | None => o end.

(** The same for a string, which must not be empty. *)
Definition fill_string (k : jsstr) (v : option jsstr) (o : list (jsstr * json))
    : list (jsstr * json) :=
  match v with
  | Some s => if nonempty s then fill k (Some (JStr s)) o else o
  | None => o
  end.

(** [a ?? b]. *)
Definition nullish_or (a b : option json) : option json :=
  match a with None | Some JNull => b | _ => a end.

Definition normalizeOllamaModel (item : json) : option (list (jsstr * json)) :=
  match item with
  | JStr s => if nonempty s then Some [("id", JStr s); ("owned_by", JStr "ollama")] else None
  | _ =>
      item_props ← record_props (Some item);
      let get k := obj_get k item_props in
      candidateId ← first_string [getString (get "id"); getString (get "ID");
                                  getString (get "name"); getString (get "model");
                                  getString (get "Model")];
      let owner := default "ollama" (first_string [getString (get "owned_by");
                                                   getString (get "ownedBy")]) in
      let base := obj_set "owned_by" (JStr owner) (obj_set "id" (JStr candidateId) item_props) in
      let sized := fill "size" (JNum <$> getNumber (get "size")) base in
      match record_props (nullish_or (get "metadata") (get "Metadata")) with
      | Some meta =>
          let o := fill "size" (JNum <$> getNumber (obj_get "size" meta)) sized in
          let o := fill_string "digest" (getString (obj_get "digest" meta)) o in
          let o := fill_string "modified_at" (getString (obj_get "modified_at" meta)) o in
          Some (match obj_get "details" meta with
                | Some d => if json_truthy d then fill "details" (Some d) o else o
                | None => o
                end)
      | None => Some sized
      end
  end.

Definition normalizeOllamaModels (items : option json) : list (list (jsstr * json)) :=
  match items with Some (JArr l) => omap normalizeOllamaModel l | _ => [] end.

(** [None] is any value that is not a number. *)
Definition formatBytes (bytes : option number) : jsstr :=
  match bytes with
  | None => "-"
  | Some b =>
      let k := num_of_Z 1024 in
      if is_nan b then "-"
      else if num_ltb b k then Number_toString b ++ " B"
      else
        let kb := num_div b k in
        if num_ltb kb k then toFixed kb 1 ++ " KB"
        else
          let mb := num_div kb k in
          if num_ltb mb k then toFixed mb 1 ++ " MB"
          else toFixed (num_div mb k) 2 ++ " GB"
  end.

Example ex_bytes :
  map (λ z, formatBytes (Some (num_of_Z z))) [512; 1536; 5242880; 3221225472]%Z
  = ["512 B"; "1.5 KB"; "5.0 MB"; "3.00 GB"].
Proof. vm_compute. reflexivity. Qed.

(** ** Aggregation by tag *)

Definition group_of (t : jsstr) (cs : list Channel) : list Channel :=
  List.filter (λ c, str_eqb (tag_of c) t) cs.

(** The row of a tag: its channels absorbed one after the other. *)
Definition row_of (t : jsstr) (cs : list Channel) : option TagRow :=
  match group_of t cs with
  | [] => None
  | c :: r => Some (fold_left absorb (c :: r) (new_row c t))
  end.

(** The reference: one row per tag, in the order of first appearance. *)
Definition aggregate_spec (cs : list Channel) : list TagRow :=
  omap (λ t, row_of t cs) (str_dedup (map tag_of cs)).

Lemma fold_absorb_tag cs row : tr_tag (fold_left absorb cs row) = tr_tag row.
Proof. revert row; induction cs as [|c cs IH]; intros row; cbn [fold_left]; [done|]. by rewrite IH. Qed.

Lemma row_of_tag t cs row : row_of t cs = Some row → tr_tag row = t.
Proof.
  unfold row_of. destruct (group_of t cs); [done|]. intros [= <-]. by rewrite fold_absorb_tag.
Qed.

Lemma group_of_elem t cs : t ∈ map tag_of cs → group_of t cs ≠ [].
Proof.
  intros (c & -> & Hc)%elem_of_mapb E.
  assert (H : c ∈ group_of (tag_of c) cs) by (apply elem_of_filterb; by rewrite str_eqb_refl).
  rewrite E in H. inversion H.
Qed.

Lemma row_of_some t cs : t ∈ map tag_of cs → ∃ row, row_of t cs = Some row.
Proof. intros H%group_of_elem. unfold row_of. destruct (group_of t cs); eauto. done. Qed.

Lemma group_of_snoc t cs c :
  group_of t (cs ++ [c]) = group_of t cs ++ (if str_eqb (tag_of c) t then [c] else []).
Proof. unfold group_of. rewrite List.filter_app. cbn [List.filter]. by destruct (str_eqb _ t). Qed.

Lemma row_of_snoc_same t cs c row :
  row_of t cs = Some row → tag_of c = t → row_of t (cs ++ [c]) = Some (absorb row c).
Proof.
  intros H <-. unfold row_of in *. rewrite group_of_snoc, str_eqb_refl.
  destruct (group_of (tag_of c) cs) as [|d r]; [done|]. cbn [app].
  injection H as <-. change (d :: r ++ [c]) with ((d :: r) ++ [c]).
  by rewrite fold_left_app.
Qed.

Lemma row_of_snoc_other t cs c : tag_of c ≠ t → row_of t (cs ++ [c]) = row_of t cs.
Proof.
  intros H. unfold row_of. rewrite group_of_snoc, (proj2 (str_eqb_neq _ _) H).
  by rewrite app_nil_r.
Qed.

(** Updating the rows with one more channel of a known tag. *)
Lemma update_rows ts cs c :
  (∀ t, t ∈ ts → t ∈ map tag_of cs) →
  map (λ row, if str_eqb (tr_tag row) (tag_of c) then absorb row c else row)
    (omap (λ t, row_of t cs) ts)
  = omap (λ t, row_of t (cs ++ [c])) ts.
Proof.
  induction ts as [|t ts IH]; intros Hts; [done|].
  destruct (row_of_some t cs) as [row Hr]; [apply Hts; left|].
  cbn [omap list_omap]. rewrite Hr. cbn [map].
  rewrite (row_of_tag _ _ _ Hr). destruct (str_eqb_spec t (tag_of c)) as [E|E].
  - rewrite (row_of_snoc_same t cs c row) by done. f_equal. apply IH. intros; apply Hts. by right.
  - rewrite row_of_snoc_other, Hr by congruence. f_equal. apply IH. intros; apply Hts. by right.
Qed.

Lemma spec_tags ts cs :
  (∀ t, t ∈ ts → t ∈ map tag_of cs) → map tr_tag (omap (λ t, row_of t cs) ts) = ts.
Proof.
  induction ts as [|t ts IH]; intros Hts; [done|].
  destruct (row_of_some t cs) as [row Hr]; [apply Hts; left|].
  cbn [omap list_omap]. rewrite Hr. cbn [map]. rewrite (row_of_tag _ _ _ Hr). f_equal.
  apply IH. intros; apply Hts. by right.
Qed.

Lemma dedup_from_snoc seen l x :
  dedup_from str_eqb seen (l ++ [x])
  = dedup_from str_eqb seen l ++ (if str_mem x (seen ++ l) then [] else [x]).
Proof.
  revert seen; induction l as [|y l IH]; intros seen; cbn [app dedup_from].
  - rewrite app_nil_r. fold (str_mem x seen). by destruct (str_mem x seen).
  - fold (str_mem y seen). destruct (str_mem y seen) eqn:E.
    + apply str_mem_true in E. rewrite IH. f_equal.
      rewrite (str_mem_ext x (seen ++ l) (seen ++ y :: l)); [done|].
      rewrite !elem_of_app, elem_of_cons. intuition (subst; auto).
    + cbn [app]. rewrite IH. f_equal. f_equal.
      rewrite (str_mem_ext x ((y :: seen) ++ l) (seen ++ y :: l)); [done|].
      rewrite !elem_of_app, !elem_of_cons. tauto.
Qed.

Lemma str_dedup_snoc l x :
  str_dedup (l ++ [x]) = str_dedup l ++ (if str_mem x l then [] else [x]).
Proof. apply dedup_from_snoc. Qed.

Lemma has_tag_spec cs t :
  has_tag t (aggregate_spec cs) = str_mem t (map tag_of cs).
Proof.
  unfold has_tag, aggregate_spec. rewrite spec_tags by (intros ?; by rewrite str_dedup_elem).
  destruct (str_mem t (map tag_of cs)) eqn:E.
  - apply str_mem_true, str_dedup_elem. by apply str_mem_true.
  - apply str_mem_false. rewrite str_dedup_elem. by apply str_mem_false.
Qed.

Lemma aggregate_step_spec cs c : aggregate_step (aggregate_spec cs) c = aggregate_spec (cs ++ [c]).
Proof.
  unfold aggregate_step. rewrite has_tag_spec. set (t := tag_of c).
  change (aggregate_spec (cs ++ [c]))
    with (omap (λ t, row_of t (cs ++ [c])) (str_dedup (map tag_of (cs ++ [c])))).
  rewrite map_app. change (map tag_of [c]) with [t]. rewrite str_dedup_snoc.
  destruct (str_mem t (map tag_of cs)) eqn:E.
  - rewrite app_nil_r. apply update_rows. intros ?; by rewrite str_dedup_elem.
  - rewrite map_app, omap_app. f_equal.
    + apply update_rows. intros ?; by rewrite str_dedup_elem.
    + cbn [map omap list_omap new_row tr_tag]. rewrite str_eqb_refl. unfold row_of.
      rewrite group_of_snoc. fold t. rewrite str_eqb_refl.
      assert (Eg : group_of t cs = []).
      { destruct (group_of t cs) as [|d r] eqn:Eg; [done|]. exfalso.
        assert (Hd : d ∈ group_of t cs) by (rewrite Eg; left).
        apply elem_of_filterb in Hd as [Hd Ht%str_eqb_eq]. apply str_mem_false in E. apply E.
        apply elem_of_mapb. exists d. by rewrite Ht. }
      by rewrite Eg.
Qed.

Lemma aggregate_eq cs : aggregateChannelsByTag cs = aggregate_spec cs.
Proof.
  unfold aggregateChannelsByTag. induction cs as [|c cs IH] using rev_ind; [done|].
  rewrite fold_left_app. cbn [fold_left]. by rewrite IH, aggregate_step_spec.
Qed.

(** What absorbing a list of channels does to the fields of a row. *)
Lemma fold_absorb_fields cs row :
  let r := fold_left absorb cs row in
  tr_children r = tr_children row ++ cs
  ∧ tr_used_quota r = fold_left (λ q c, num_add q (ch_used_quota c)) cs (tr_used_quota row)
  ∧ tr_status r = fold_left (λ s c, merge_status s (ch_status c)) cs (tr_status row)
  ∧ tr_priority r = fold_left (λ p c, merge_nullish p (ch_priority c)) cs (tr_priority row).
Proof.
  revert row; induction cs as [|c cs IH]; intros row; cbn [fold_left].
  - by rewrite app_nil_r.
  - destruct (IH (absorb row c)) as (I1 & I2 & I3 & I4). rewrite I1, I2, I3, I4.
    split_and!; try done. cbn [absorb tr_children]. by rewrite <- app_assoc.
Qed.

Lemma merge_status_fold cs s :
  fold_left (λ s c, merge_status s (ch_status c)) cs s
  = if existsb (λ c, (ch_status c =? 1)%Z) cs then Some 1%Z
    else match s with Some _ => s | None => ch_status <$> head cs end.
Proof.
  revert s; induction cs as [|c cs IH]; intros s; cbn [fold_left existsb head]; [by destruct s|].
  rewrite IH. unfold merge_status. destruct (Z.eqb_spec (ch_status c) 1) as [E|E]; cbn [orb].
  - by destruct (existsb _ cs).
  - destruct (existsb _ cs); [done|]. by destruct s.
Qed.

(** ** Keys *)

Lemma key_lines_trim s : length (key_lines s) = length (List.filter nonempty (map trim (split_char 10 s))).
Proof.
  unfold key_lines. induction (split_char 10 s) as [|l ls IH]; [done|].
  cbn [map List.filter]. destruct (nonempty (trim l)); cbn [length]; [by f_equal|done].
Qed.

Definition line_name (m : jsstr) : bool :=
  nonempty m && trimmed m && forallb (λ c, negb (c =? 10)%N) m.

Lemma lines_names s : forallb line_name (List.filter nonempty (map trim (split_char 10 s))) = true.
Proof.
  apply forallb_forall. intros m [Hm Hn]%filter_In. apply in_map_iff in Hm as (w & <- & Hw).
  pose proof (split_char_no_sep 10 s) as Hf. rewrite List.Forall_forall in Hf.
  unfold line_name. rewrite Hn, trimmed_trim. cbn [andb]. by apply trim_forallb, Hf.
Qed.

Lemma map_trim_lines ms : forallb line_name ms = true → map trim ms = ms.
Proof.
  induction ms as [|m ms IH]; [done|]. cbn [forallb map]. unfold line_name at 1.
  intros ?; bool_prop. rewrite IH by done. by rewrite trim_trimmed.
Qed.

(** The lines of joined keys are the keys. *)
Lemma lines_join ms :
  ms ≠ [] → forallb line_name ms = true →
  split_char 10 (join "\n" ms) = ms
  ∧ List.filter nonempty (map trim (split_char 10 (join "\n" ms))) = ms.
Proof.
  intros Hne H.
  assert (E : split_char 10 (join "\n" ms) = ms).
  { apply split_join; [done|]. rewrite List.Forall_forall. rewrite forallb_forall in H.
    intros x Hx. specialize (H x Hx). unfold line_name in H. by bool_prop. }
  rewrite E. split; [done|]. rewrite map_trim_lines by done. apply filterb_all.
  revert H. apply forallb_impl. unfold line_name. intros ? ?. by bool_prop.
Qed.

Lemma spaces_trim u : forallb is_space u = true → trim u = [].
Proof.
  assert (H0 : ∀ u, forallb is_space u = true → trimStart u = []).
  { clear u. intros u. induction u as [|c u IH]; cbn [trimStart forallb]; [done|].
    intros ?; bool_prop. rewrite H. auto. }
  intros Hu. unfold trim, trimEnd. by rewrite (H0 u).
Qed.

Lemma trim_nil_spaces s : trim s = [] → forallb is_space s = true.
Proof.
  intros H. destruct (trim_decompose s) as (a & b & E & Ha & Hb). rewrite H in E. cbn [app] in E.
  rewrite E. by rewrite forallb_app, Ha.
Qed.

(** A text with a visible unit has a visible line. *)
Lemma visible_line s :
  trim s ≠ [] → List.filter nonempty (map trim (split_char 10 s)) ≠ [].
Proof.
  intros Ht E. apply Ht.
  assert (Hs : forallb is_space s = true).
  { rewrite <- (join_split 10 s).
    assert (Hl : ∀ l, In l (split_char 10 s) → forallb is_space l = true).
    { intros l Hl. destruct (trim l) as [|x r] eqn:El.
      - by apply trim_nil_spaces.
      - exfalso. assert (Hi : In (trim l) (List.filter nonempty (map trim (split_char 10 s)))).
        { apply filter_In. split; [by apply in_map|by rewrite El]. }
        by rewrite E in Hi. }
    clear E Ht. induction (split_char 10 s) as [|l ls IH]; [done|].
    destruct ls as [|l' ls]; [cbn [join]; apply Hl; by left|].
    rewrite join_cons by done. rewrite !forallb_app, (Hl l) by by left.
    cbn [forallb andb]. apply IH. intros; apply Hl. by right. }
  by apply spaces_trim.
Qed.

(** The lines of a text are made of its units. *)
Lemma lines_forallb (p : N → bool) s l :
  forallb p s = true → In l (split_char 10 s) → forallb p l = true.
Proof.
  revert l; induction s as [|c s IH]; intros l Hs; cbn [split_char]; [by intros [<-|[]]|].
  cbn [forallb] in Hs. bool_prop. destruct (c =? 10)%N.
  - intros [<-|Hl]; [done|]. by apply IH.
  - pose proof (split_char_ne 10 s). destruct (split_char 10 s) as [|w ws]; [done|].
    intros [<-|Hl]; [|apply IH; [done|by right]]. cbn [forallb]. rewrite H. apply IH; [done|by left].
Qed.

Lemma blank_lines s : trim s = [] → List.filter nonempty (map trim (split_char 10 s)) = [].
Proof.
  intros Hs%trim_nil_spaces.
  assert (Hl : ∀ l, In l (split_char 10 s) → trim l = []).
  { intros l Hin. apply spaces_trim. by apply (lines_forallb _ s). }
  clear -Hl. induction (split_char 10 s) as [|l ls IH]; [done|]. cbn [map List.filter].
  rewrite (Hl l) by by left. apply IH. intros; apply Hl. by right.
Qed.

Lemma filter_length_le {A} (p : A → bool) l : length (List.filter p l) ≤ length l.
Proof. induction l as [|x l IH]; simpl; [lia|]. destruct (p x); simpl; lia. Qed.

Lemma dedup_from_length seen l : length (dedup_from str_eqb seen l) ≤ length l.
Proof.
  revert seen; induction l as [|x l IH]; intros seen; cbn [dedup_from length]; [lia|].
  destruct (mem str_eqb x seen); cbn [length]; [specialize (IH seen)|specialize (IH (x :: seen))]; lia.
Qed.

Lemma dedup_length l : length (str_dedup l) ≤ length l.
Proof. apply dedup_from_length. Qed.

(** De-duplicating distinct keys again. *)
Lemma dedup_again ds :
  ds ≠ [] → forallb line_name ds = true → NoDup ds →
  deduplicatedText (deduplicateKeys (join "\n" ds)) = join "\n" ds
  ∧ removedCount (deduplicateKeys (join "\n" ds)) = 0%Z.
Proof.
  intros Hne Hd Hu. destruct (lines_join ds Hne Hd) as [J1 J2].
  unfold deduplicateKeys. destruct (trim (join "\n" ds)) as [|x r] eqn:Et; cbn [nonempty negb].
  - exfalso. apply blank_lines in Et. rewrite J2 in Et. done.
  - rewrite J2, J1, str_dedup_id by done. cbn [deduplicatedText removedCount]. split; [done|lia].
Qed.

(** ** The properties *)

(** The one-pass aggregation is the grouping it means: the rows are one per
    tag in the order of first appearance; a row's children are exactly the
    channels of its tag in their order, its quota is their sum, and its status is
    enabled when some child is and the first child's otherwise. *)
Theorem aggregate_groups cs :
  let rows := aggregateChannelsByTag cs in
  map tr_tag rows = str_dedup (map tag_of cs)
  ∧ ∀ row, row ∈ rows →
      tr_children row = List.filter (λ c, str_eqb (tag_of c) (tr_tag row)) cs
      ∧ tr_used_quota row
        = fold_left (λ q c, num_add q (ch_used_quota c)) (tr_children row) zero
      ∧ tr_status row
        = if existsb isChannelEnabled (tr_children row) then Some 1%Z
          else ch_status <$> head (tr_children row).
Proof.
  cbv zeta. rewrite aggregate_eq. unfold aggregate_spec. split.
  - apply spec_tags. intros ?; by rewrite str_dedup_elem.
  - intros row (t & _ & Hr)%list_elem_of_omap. pose proof (row_of_tag _ _ _ Hr) as Et.
    unfold row_of in Hr. fold (group_of (tr_tag row) cs). rewrite Et.
    destruct (group_of t cs) as [|c g] eqn:Eg; [done|].
    assert (Hr' : fold_left absorb (c :: g) (new_row c t) = row) by congruence. clear Hr.
    destruct (fold_absorb_fields (c :: g) (new_row c t)) as (F1 & F2 & F3 & _).
    rewrite Hr' in F1, F2, F3. cbn [new_row tr_children app tr_used_quota tr_status] in F1, F2, F3.
    rewrite F1. split_and!; [done|done|]. rewrite F3, merge_status_fold. done.
Qed.

(** De-duplicating keys keeps every distinct non-blank line once, trimmed;
    the counts agree with the text; and a second run removes nothing. *)
Theorem deduplicateKeys_exact text :
  let d := deduplicateKeys text in
  let keys := List.filter nonempty (map trim (split_char 10 (deduplicatedText d))) in
  (∀ k, k ∈ keys ↔ k ≠ [] ∧ ∃ line, line ∈ split_char 10 text ∧ k = trim line)
  ∧ NoDup keys
  ∧ afterCount d = Z.of_nat (length keys)
  ∧ (removedCount d = beforeCount d - afterCount d)%Z ∧ (0 ≤ removedCount d)%Z
  ∧ deduplicatedText (deduplicateKeys (deduplicatedText d)) = deduplicatedText d
  ∧ removedCount (deduplicateKeys (deduplicatedText d)) = 0%Z.
Proof.
  cbv zeta. set (ls := List.filter nonempty (map trim (split_char 10 text))).
  assert (Hls : ∀ k, k ∈ ls ↔ k ≠ [] ∧ ∃ line, line ∈ split_char 10 text ∧ k = trim line).
  { intros k. unfold ls. rewrite elem_of_filterb, elem_of_mapb, nonempty_true. split.
    - intros [(l & -> & Hl) Hn]. eauto.
    - intros [Hn (l & Hl & ->)]. eauto. }
  destruct (trim text) as [|x r] eqn:Et.
  - assert (E : deduplicateKeys text
                = {| deduplicatedText := []; beforeCount := 0; afterCount := 0; removedCount := 0 |})
      by (unfold deduplicateKeys; by rewrite Et).
    rewrite E. cbn. split_and!; try done; [|constructor]. intros k. split; [intros H; inversion H|].
    intros Hk%Hls. exfalso. unfold ls in Hk. rewrite blank_lines in Hk by done. inversion Hk.
  - assert (Hn : nonempty (trim text) = true) by by rewrite Et.
    set (ds := str_dedup ls).
    assert (Hne : ds ≠ []).
    { intros E. destruct ls as [|l ls'] eqn:El.
      - apply (visible_line text); [by rewrite Et|done].
      - assert (Hi : l ∈ ds) by (apply str_dedup_elem; left). rewrite E in Hi. inversion Hi. }
    assert (Hd : forallb line_name ds = true) by apply forallb_dedup, lines_names.
    assert (Hu : NoDup ds) by apply str_dedup_nodup.
    assert (Hds : ∀ k, k ∈ ds ↔ k ∈ ls) by (intros k; apply str_dedup_elem).
    destruct (lines_join ds Hne Hd) as [J1 J2].
    assert (Ed : deduplicateKeys text
                 = {| deduplicatedText := join "\n" ds;
                      beforeCount := Z.of_nat (length (split_char 10 text));
                      afterCount := Z.of_nat (length ds);
                      removedCount := Z.of_nat (length (split_char 10 text)) - Z.of_nat (length ds) |})
      by (unfold deduplicateKeys; by rewrite Hn).
    rewrite !Ed. cbn [deduplicatedText afterCount removedCount beforeCount]. rewrite J2.
    assert (Hl : length ds ≤ length (split_char 10 text)).
    { etransitivity; [apply dedup_length|]. etransitivity; [apply filter_length_le|].
      by rewrite length_map. }
    clearbody ds.
    destruct (dedup_again ds) as [D1 D2]; [done..|].
    split_and!; [by intros k; rewrite Hds|done|done|done|lia|done|done].
Qed.

(** The mask of a short key hides nothing: from four to eight units, the
    masked text shows the first and the last four, which together are the whole
    key. *)
Theorem short_key_revealed key :
  4 ≤ length key → length key ≤ 8 →
  let shown := formatChannelKey key false in
  take 4 shown = take 4 key ∧ drop 7 shown = drop (length key - 4) key
  ∧ key = take 4 shown ++ drop (8 - length key) (drop 7 shown).
Proof.
  intros H4 H8. cbv zeta. unfold formatChannelKey.
  assert (Hn : nonempty key = true) by (destruct key; [simpl in H4; lia|done]).
  rewrite Hn, (proj2 (Nat.leb_le _ _)) by lia. cbn [negb].
  assert (Hl : length (take 4 key) = 4) by (rewrite length_take; lia).
  assert (E1 : take 4 (take 4 key ++ "..." ++ slice_last 4 key) = take 4 key)
    by (rewrite take_app_le by lia; by rewrite take_take).
  assert (E2 : drop 7 (take 4 key ++ "..." ++ slice_last 4 key) = slice_last 4 key).
  { rewrite drop_app_ge by lia. by rewrite Hl. }
  rewrite E1, E2. unfold slice_last. split_and!; [done..|].
  rewrite drop_drop. replace (length key - 4 + (8 - length key)) with 4 by lia.
  by rewrite take_drop.
Qed.

Lemma short_key_revealed_witness :
  drop 7 (formatChannelKey "sk-12345" false) = "2345"
  ∧ take 4 (formatChannelKey "sk-12345" false) = "sk-1".
Proof.
  destruct (short_key_revealed "sk-12345") as (H1 & H2 & _); [simpl; lia|simpl; lia|].
  split; [exact H2|exact H1].
Defined.

(** A channel needs attention exactly when a reason is shown. *)
Theorem attention_has_reason channel :
  channelNeedsAttention channel = true ↔ is_Some (getAttentionReason channel).
Proof.
  unfold channelNeedsAttention, getAttentionReason.
  destruct (ch_status channel =? 3)%Z, (low_balance channel), (all_keys_disabled channel);
    split; try done; eauto; by intros [? ?].
Qed.
