(* ===== verification/ChannelForm.v ===== *)
(** * The channel form: [features/channels/lib/channel-form.ts]

    The validation functions of the form schema, the translation of a channel into
    form values, and the payloads that create and update a channel.  The schema
    library applies the functions field by field; what it does itself (types,
    minimal lengths) is not part of the model. *)
From Stdlib Require Import NArith ZArith.
From stdpp Require Import list numbers.
From S2P Require Import Prelude JsString JsNumber Json JsArray JsonRoundtrip ModelMapping.
From S2P Require Import Channels.

(** ** Validation of single fields *)

(** [undefined] is [None]; a text that is not JSON throws. *)
Definition parseOptionalJson (value : option jsstr) : exn (option json) :=
  match value with
  | None => Ok None
  | Some v =>
      if negb (nonempty (trim v)) then Ok None
      else match JSON_parse v with Some j => Ok (Some j) | None => Throw end
  end.

Definition isJsonObjectValue (v : json) : bool := match v with JObj _ => true | _ => false end.

Definition isOptionalJsonObject (value : option jsstr) : bool :=
  match parseOptionalJson value with
  | Ok None => true
  | Ok (Some parsed) => isJsonObjectValue parsed
  | Throw => false
  end.

Definition isOptionalModelMapping (value : option jsstr) : bool :=
  match parseOptionalJson value with
  | Ok None => true
  | Ok (Some (JObj kvs)) =>
      forallb (λ item, match item with JStr _ => true | _ => false end) (object_values kvs)
  | _ => false
  end.

(** [Number(v)]. *)
Definition json_toNumber (v : json) : number :=
  match v with
  | JNull => zero
  | JBool b => if b then num_of_Z 1 else zero
  | JNum n => n
  | JStr s => Number_of_string s
  | JArr _ => Number_of_string (json_toString v)
  | JObj _ => NaN
  end.

Definition is_http_code (n : number) : bool :=
  isInteger n && num_leb (num_of_Z 100) n && num_leb n (num_of_Z 599).

Definition isOptionalStatusCodeMapping (value : option jsstr) : bool :=
  match parseOptionalJson value with
  | Ok None => true
  | Ok (Some (JObj kvs)) =>
      forallb (λ '(from, to), is_http_code (Number_of_string from) && is_http_code (json_toNumber to))
        (entries kvs)
  | _ => false
  end.

(** A non-blank string property. *)
Definition has_text_prop (k : jsstr) (kvs : list (jsstr * json)) : bool :=
  match obj_get k kvs with Some (JStr s) => nonempty (trim s) | _ => false end.

Definition isCodexCredential (value : option jsstr) : bool :=
  match parseOptionalJson value with
  | Ok None => true
  | Ok (Some (JObj kvs)) => has_text_prop "access_token" kvs && has_text_prop "account_id" kvs
  | _ => false
  end.

Definition isVertexJsonKey (value : option jsstr) : bool :=
  match parseOptionalJson value with
  | Ok None => true
  | Ok (Some (JArr l)) => forallb isJsonObjectValue l
  | Ok (Some parsed) => isJsonObjectValue parsed
  | Throw => false
  end.

(** ** Form values

    An optional field is [None] when it is [undefined].  The fields that are
    filled from parsed JSON without a check hold any value. *)
Record ExtraSettings : Type := {
  force_format : option json;
  thinking_to_content : option json;
  proxy : option json;
  pass_through_body_enabled : option json;
  system_prompt : option json;
  system_prompt_override : option json
}.

Record ChannelFormValues : Type := {
  f_name : jsstr;
  f_type : Z;
  f_base_url : option jsstr;
  f_key : jsstr;
  f_openai_organization : option jsstr;
  f_models : jsstr;
  f_group : list jsstr;
  f_model_mapping : option jsstr;
  f_priority : option number;
  f_weight : option number;
  f_test_model : option jsstr;
  f_auto_ban : option number;
  f_status : Z;
  f_status_code_mapping : option jsstr;
  f_tag : option jsstr;
  f_remark : option jsstr;
  f_setting : option jsstr;
  f_param_override : option jsstr;
  f_header_override : option jsstr;
  f_settings : option jsstr;
  f_other : option jsstr;
  f_multi_key_mode : option jsstr;
  f_multi_key_type : option jsstr;
  f_batch_add_set_key_prefix_2_name : option bool;
  f_key_mode : option jsstr;
  f_extra : ExtraSettings;
  f_is_enterprise_account : option bool;
  f_vertex_key_type : option json;
  f_aws_key_type : option json;
  f_azure_responses_version : option json;
  f_allow_service_tier : option bool;
  f_disable_store : option bool;
  f_allow_safety_identifier : option bool;
  f_allow_include_obfuscation : option bool;
  f_allow_inference_geo : option bool;
  f_allow_speed : option bool;
  f_claude_beta_query : option bool;
  f_upstream_check_enabled : option bool;
  f_upstream_auto_sync_enabled : option bool;
  f_upstream_ignored_models : option jsstr
}.

(** [!v?.trim()]. *)
Definition blank (v : option jsstr) : bool := negb (nonempty (trim (default [] v))).

Definition type_in (t : Z) (l : list Z) : bool := existsb (Z.eqb t) l.

(** [v && v !== 'single']. *)
Definition not_single (mode : option jsstr) : bool :=
  match mode with Some m => nonempty m && negb (str_eqb m "single") | None => false end.

(** [v === s] for a field that may hold any value. *)
Definition json_is (v : option json) (s : jsstr) : bool :=
  match v with Some (JStr t) => str_eqb t s | _ => false end.

(** The issues [superRefine] adds, as pairs of a path and a message. *)
Definition superRefine (data : ChannelFormValues) : list (jsstr * jsstr) :=
  (if type_in (f_type data) [3; 8; 36; 45]%Z && blank (f_base_url data)
   then [("base_url", "Base URL is required for this channel type")] else [])
  ++ (if type_in (f_type data) [3; 18; 21; 39; 41; 49]%Z && blank (f_other data)
      then [("other", "This channel type requires additional configuration")] else [])
  ++ (if (f_type data =? 57)%Z then
        (if not_single (f_multi_key_mode data)
         then [("multi_key_mode", "Codex channels do not support batch creation")] else [])
        ++ (if nonempty (trim (f_key data)) && negb (isCodexCredential (Some (f_key data)))
            then [("key", "Codex credential must be a JSON object with access_token and account_id")]
            else [])
      else [])
  ++ (if (f_type data =? 41)%Z && json_is (f_vertex_key_type data) "json"
         && nonempty (trim (f_key data)) && negb (isVertexJsonKey (Some (f_key data)))
      then [("key", "Vertex AI service account key must be valid JSON")] else [])
  ++ (if (f_type data =? 41)%Z && json_is (f_vertex_key_type data) "api_key"
         && not_single (f_multi_key_mode data)
      then [("multi_key_mode", "Vertex AI API Key mode does not support batch creation")] else []).

(** ** From a channel to the form *)

(** [v || d]. *)
Definition json_or (v : option json) (d : json) : json :=
  match v with Some j => if json_truthy j then j else d | None => d end.

(** [s || d] for an optional string. *)
Definition text_or (v : option jsstr) (d : jsstr) : jsstr :=
  match v with Some s => if nonempty s then s else d | None => d end.

Definition default_extra : ExtraSettings :=
  {| force_format := Some (JBool false); thinking_to_content := Some (JBool false);
     proxy := Some (JStr []); pass_through_body_enabled := Some (JBool false);
     system_prompt := Some (JStr []); system_prompt_override := Some (JBool false) |}.

(** The properties of a parsed value; [null] throws, and the [catch] keeps the
    defaults. *)
Definition parsed_props (text : jsstr) : option (list (jsstr * json)) :=
  match JSON_parse text with
  | None | Some JNull => None
  | Some (JObj kvs) => Some kvs
  | Some _ => Some []
  end.

Definition extra_of (kvs : list (jsstr * json)) : ExtraSettings :=
  {| force_format := Some (json_or (obj_get "force_format" kvs) (JBool false));
     thinking_to_content := Some (json_or (obj_get "thinking_to_content" kvs) (JBool false));
     proxy := Some (json_or (obj_get "proxy" kvs) (JStr []));
     pass_through_body_enabled := Some (json_or (obj_get "pass_through_body_enabled" kvs) (JBool false));
     system_prompt := Some (json_or (obj_get "system_prompt" kvs) (JStr []));
     system_prompt_override := Some (json_or (obj_get "system_prompt_override" kvs) (JBool false)) |}.

Definition extraSettings (setting : option jsstr) : ExtraSettings :=
  match setting with
  | Some s => if nonempty s then from_option extra_of default_extra (parsed_props s) else default_extra
  | None => default_extra
  end.

(** [parsed.k === true]. *)
Definition prop_true (k : jsstr) (kvs : list (jsstr * json)) : bool :=
  match obj_get k kvs with Some (JBool true) => true | _ => false end.

(** [parsed.k.join(',')] of an array. *)
Definition joined_models (kvs : list (jsstr * json)) : jsstr :=
  match obj_get "upstream_model_update_ignored_models" kvs with
  | Some (JArr l) => json_toString (JArr l)
  | _ => []
  end.

(** The properties of [channel.settings]; without any, every value below is its
    default. *)
Definition settings_props (settings : jsstr) : list (jsstr * json) :=
  if nonempty settings then default [] (parsed_props settings) else [].

Definition parseGroups (groups : jsstr) : list jsstr := parseModelsString groups.
Definition parseModels (models : jsstr) : list jsstr := parseModelsString models.
Definition formatGroups (groups : list jsstr) : jsstr := join "," groups.
Definition formatModels (models : list jsstr) : jsstr := join "," models.

Definition nullish_number_or (v : nullish number) (d : number) : number :=
  match v with NVal n => num_or n d | _ => d end.

Definition transformChannelToFormDefaults (channel : Channel) : ChannelFormValues :=
  let parsed := settings_props (ch_settings channel) in
  {| f_name := ch_name channel;
     f_type := ch_type channel;
     f_base_url := Some (default [] (ch_base_url channel));
     f_key := [];
     f_openai_organization := Some (default [] (ch_openai_organization channel));
     f_models := ch_models channel;
     f_group := parseGroups (text_or (Some (ch_group channel)) "default");
     f_model_mapping := Some (default [] (ch_model_mapping channel));
     f_priority := Some (nullish_number_or (ch_priority channel) zero);
     f_weight := Some (nullish_number_or (ch_weight channel) zero);
     f_test_model := Some (default [] (ch_test_model channel));
     f_auto_ban := Some (match ch_auto_ban channel with NVal n => n | _ => num_of_Z 1 end);
     f_status := ch_status channel;
     f_status_code_mapping := Some (default [] (ch_status_code_mapping channel));
     f_tag := Some (default [] (ch_tag channel));
     f_remark := Some (ch_remark channel);
     f_setting := Some (default [] (ch_setting channel));
     f_param_override := Some (default [] (ch_param_override channel));
     f_header_override := Some (default [] (ch_header_override channel));
     f_settings := Some (text_or (Some (ch_settings channel)) "{}");
     f_other := Some (ch_other channel);
     f_multi_key_mode := Some "single";
     f_multi_key_type := Some (text_or (Some (multi_key_mode (ch_channel_info channel))) "random");
     f_batch_add_set_key_prefix_2_name := Some false;
     f_key_mode := Some "append";
     f_extra := extraSettings (ch_setting channel);
     f_is_enterprise_account := Some (prop_true "openrouter_enterprise" parsed);
     f_vertex_key_type := Some (json_or (obj_get "vertex_key_type" parsed) (JStr "json"));
     f_aws_key_type := Some (json_or (obj_get "aws_key_type" parsed) (JStr "ak_sk"));
     f_azure_responses_version := Some (json_or (obj_get "azure_responses_version" parsed) (JStr []));
     f_allow_service_tier := Some (prop_true "allow_service_tier" parsed);
     f_disable_store := Some (prop_true "disable_store" parsed);
     f_allow_safety_identifier := Some (prop_true "allow_safety_identifier" parsed);
     f_allow_include_obfuscation := Some (prop_true "allow_include_obfuscation" parsed);
     f_allow_inference_geo := Some (prop_true "allow_inference_geo" parsed);
     f_allow_speed := Some (prop_true "allow_speed" parsed);
     f_claude_beta_query := Some (prop_true "claude_beta_query" parsed);
     f_upstream_check_enabled := Some (prop_true "upstream_model_update_check_enabled" parsed);
     f_upstream_auto_sync_enabled := Some (prop_true "upstream_model_update_auto_sync_enabled" parsed);
     f_upstream_ignored_models := Some (joined_models parsed) |}.

(** ** From the form to the payloads *)

Definition setting_obj (formData : ChannelFormValues) : list (jsstr * json) :=
  let e := f_extra formData in
  [("force_format", json_or (force_format e) (JBool false));
   ("thinking_to_content", json_or (thinking_to_content e) (JBool false));
   ("proxy", json_or (proxy e) (JStr []));
   ("pass_through_body_enabled", json_or (pass_through_body_enabled e) (JBool false));
   ("system_prompt", json_or (system_prompt e) (JStr []));
   ("system_prompt_override", json_or (system_prompt_override e) (JBool false))].

Definition buildSettingJSON (formData : ChannelFormValues) : jsstr :=
  JSON_stringify (JObj (setting_obj formData)).

Definition MODEL_FETCHABLE_TYPES : list Z :=
  [1; 4; 14; 17; 20; 23; 24; 25; 26; 27; 31; 34; 35; 40; 42; 43; 47; 48]%Z.

(** [flag === true]. *)
Definition is_true (flag : option bool) : bool := match flag with Some true => true | _ => false end.
Definition flag_json (flag : option bool) : json := JBool (is_true flag).

(** [if (cond) o[k] = v; else if (k in o) delete o[k]]. *)
Definition set_or_delete (cond : bool) (k : jsstr) (v : json) (o : list (jsstr * json))
    : list (jsstr * json) :=
  if cond then obj_set k v o else obj_delete k o.

Definition ignored_models (formData : ChannelFormValues) : list jsstr :=
  str_dedup (List.filter nonempty
               (map trim (split_char 44 (default [] (f_upstream_ignored_models formData))))).

(** The last part: the upstream model update settings. *)
Definition upstream_settings (formData : ChannelFormValues) (o : list (jsstr * json))
    : list (jsstr * json) :=
  if type_in (f_type formData) MODEL_FETCHABLE_TYPES then
    let check := is_true (f_upstream_check_enabled formData) in
    let o := obj_set "upstream_model_update_check_enabled" (JBool check) o in
    let o := obj_set "upstream_model_update_auto_sync_enabled"
               (JBool (check && is_true (f_upstream_auto_sync_enabled formData))) o in
    let o := obj_set "upstream_model_update_ignored_models"
               (JArr (map JStr (ignored_models formData))) o in
    let o := match obj_get "upstream_model_update_last_detected_models" o with
             | Some (JArr _) => if check then o
                                else obj_set "upstream_model_update_last_detected_models" (JArr []) o
             | _ => obj_set "upstream_model_update_last_detected_models" (JArr []) o
             end in
    match obj_get "upstream_model_update_last_check_time" o with
    | Some (JNum _) => o
    | _ => obj_set "upstream_model_update_last_check_time" (JNum zero) o
    end
  else o.

(** The first part, on the object of the existing settings: the properties that
    depend on the channel type. *)
Definition type_settings (formData : ChannelFormValues) (o : list (jsstr * json))
    : list (jsstr * json) :=
  let t := f_type formData in
  let o := set_or_delete (t =? 41)%Z "vertex_key_type"
             (json_or (f_vertex_key_type formData) (JStr "json")) o in
  let azure := json_or (f_azure_responses_version formData) (JStr []) in
  let o := set_or_delete ((t =? 3)%Z && json_truthy azure) "azure_responses_version" azure o in
  let o := set_or_delete (t =? 20)%Z "openrouter_enterprise"
             (flag_json (f_is_enterprise_account formData)) o in
  let o := set_or_delete (t =? 33)%Z "aws_key_type"
             (json_or (f_aws_key_type formData) (JStr "ak_sk")) o in
  let o := set_or_delete ((t =? 1)%Z || (t =? 14)%Z) "allow_service_tier"
             (flag_json (f_allow_service_tier formData)) o in
  let o :=
    if (t =? 1)%Z then
      let o := obj_set "disable_store" (flag_json (f_disable_store formData)) o in
      let o := obj_set "allow_safety_identifier" (flag_json (f_allow_safety_identifier formData)) o in
      let o := obj_set "allow_include_obfuscation"
                 (flag_json (f_allow_include_obfuscation formData)) o in
      obj_set "allow_inference_geo" (flag_json (f_allow_inference_geo formData)) o
    else
      let o := obj_delete "disable_store" o in
      let o := obj_delete "allow_safety_identifier" o in
      let o := obj_delete "allow_include_obfuscation" o in
      if negb (t =? 14)%Z then obj_delete "allow_inference_geo" o else o in
  if (t =? 14)%Z then
    let o := obj_set "allow_inference_geo" (flag_json (f_allow_inference_geo formData)) o in
    let o := obj_set "allow_speed" (flag_json (f_allow_speed formData)) o in
    obj_set "claude_beta_query" (flag_json (f_claude_beta_query formData)) o
  else obj_delete "claude_beta_query" (obj_delete "allow_speed" o).

Definition settings_obj (formData : ChannelFormValues) (o : list (jsstr * json))
    : list (jsstr * json) :=
  upstream_settings formData (type_settings formData o).

(** Settings that are an array keep only their elements in the text; any other
    value without properties makes the first assignment or [in] throw. *)
Definition buildSettingsJSON (formData : ChannelFormValues) : exn jsstr :=
  let existing := default [] (f_settings formData) in
  let start := if nonempty existing && negb (str_eqb existing "{}")
               then default (JObj []) (JSON_parse existing) else JObj [] in
  match start with
  | JObj o => Ok (JSON_stringify (JObj (settings_obj formData o)))
  | JArr l => Ok (JSON_stringify (JArr l))
  | _ => Throw
  end.

Fixpoint strip_slashes (s : jsstr) : jsstr :=
  match s with c :: t => if (c =? 47)%N then strip_slashes t else s | [] => [] end.

(** [.trim().replace(/\/+$/, '')]. *)
Definition normalizeBaseUrl (value : option jsstr) : jsstr :=
  rev (strip_slashes (rev (trim (default [] value)))).

(** [s || null]. *)
Definition text_or_null (v : option jsstr) : json :=
  match v with Some s => if nonempty s then JStr s else JNull | None => JNull end.

Definition num_or_null (v : option number) : json :=
  match v with Some n => if num_truthy n then JNum n else JNull | None => JNull end.

(** [n ?? d]. *)
Definition num_default (v : option number) (d : number) : json := JNum (default d v).

(** Empty strings become [null]. *)
Definition empty_to_null (o : list (jsstr * json)) : list (jsstr * json) :=
  map (λ '(k, v), (k, match v with JStr [] => JNull | _ => v end)) o.

(** The fields the two payloads share up to [priority], and from [test_model] on. *)
Definition payload_tail (formData : ChannelFormValues) (settings : jsstr) : list (jsstr * json) :=
  [("test_model", text_or_null (f_test_model formData));
   ("auto_ban", num_default (f_auto_ban formData) (num_of_Z 1));
   ("status", JNum (num_of_Z (f_status formData)));
   ("status_code_mapping", text_or_null (f_status_code_mapping formData));
   ("tag", text_or_null (f_tag formData));
   ("remark", JStr (default [] (f_remark formData)));
   ("setting", JStr (buildSettingJSON formData));
   ("param_override", text_or_null (f_param_override formData));
   ("header_override", text_or_null (f_header_override formData));
   ("settings", JStr settings);
   ("other", JStr (default [] (f_other formData)))].

Definition base_url_json (formData : ChannelFormValues) : json :=
  text_or_null (Some (normalizeBaseUrl (f_base_url formData))).

Record CreatePayload : Type := {
  cp_mode : jsstr;
  cp_multi_key_mode : option jsstr;
  cp_batch_add_set_key_prefix_2_name : option bool;
  cp_channel : list (jsstr * json)
}.

Definition transformFormDataToCreatePayload (formData : ChannelFormValues) : exn CreatePayload :=
  settings ← buildSettingsJSON formData;
  let mode := text_or (f_multi_key_mode formData) "single" in
  let channel :=
    [("name", JStr (f_name formData)); ("type", JNum (num_of_Z (f_type formData)));
     ("base_url", base_url_json formData); ("key", JStr (f_key formData));
     ("openai_organization", text_or_null (f_openai_organization formData));
     ("models", JStr (f_models formData)); ("group", JStr (formatGroups (f_group formData)));
     ("model_mapping", text_or_null (f_model_mapping formData));
     ("priority", num_or_null (f_priority formData)); ("weight", num_or_null (f_weight formData))]
    ++ payload_tail formData settings in
  Ok {| cp_mode := mode;
        cp_multi_key_mode := if str_eqb mode "multi_to_single" then f_multi_key_type formData else None;
        cp_batch_add_set_key_prefix_2_name :=
          if str_eqb mode "batch" then f_batch_add_set_key_prefix_2_name formData else None;
        cp_channel := empty_to_null channel |}.

(** The nullable fields that an update sends as explicit strings. *)
Definition cleared_fields (formData : ChannelFormValues) : list (jsstr * jsstr) :=
  [("base_url", normalizeBaseUrl (f_base_url formData));
   ("openai_organization", default [] (f_openai_organization formData));
   ("test_model", default [] (f_test_model formData));
   ("tag", default [] (f_tag formData));
   ("remark", default [] (f_remark formData));
   ("model_mapping", default [] (f_model_mapping formData));
   ("status_code_mapping", default [] (f_status_code_mapping formData));
   ("param_override", default [] (f_param_override formData));
   ("header_override", default [] (f_header_override formData))].

(** The payload before empty strings become [null]; the key only when it is not
    blank. *)
Definition update_fields (formData : ChannelFormValues) (channelId : Z) (settings : jsstr)
    : list (jsstr * json) :=
  let payload :=
    [("id", JNum (num_of_Z channelId)); ("name", JStr (f_name formData));
     ("type", JNum (num_of_Z (f_type formData))); ("base_url", base_url_json formData);
     ("openai_organization", text_or_null (f_openai_organization formData));
     ("models", JStr (f_models formData)); ("group", JStr (formatGroups (f_group formData)));
     ("model_mapping", text_or_null (f_model_mapping formData));
     ("priority", num_default (f_priority formData) zero);
     ("weight", num_default (f_weight formData) zero)]
    ++ payload_tail formData settings in
  if nonempty (trim (f_key formData))
  then obj_set "key" (JStr (f_key formData)) payload else payload.

Definition transformFormDataToUpdatePayload (formData : ChannelFormValues) (channelId : Z)
    : exn (list (jsstr * json)) :=
  settings ← buildSettingsJSON formData;
  Ok (fold_left (λ o '(k, s), obj_set k (JStr s) o) (cleared_fields formData)
        (empty_to_null (update_fields formData channelId settings))).

(** ** Validation helpers *)

Definition validateJSON (value : jsstr) : bool :=
  if negb (nonempty (trim value)) then true
  else match JSON_parse value with Some _ => true | None => false end.

Definition validateModelMapping (value : jsstr) : bool :=
  if negb (nonempty (trim value)) then true else validateJSON value.

Definition CHANNEL_FORM_DEFAULT_VALUES : ChannelFormValues :=
  {| f_name := []; f_type := 1; f_base_url := Some []; f_key := [];
     f_openai_organization := Some []; f_models := []; f_group := ["default"];
     f_model_mapping := Some []; f_priority := Some zero; f_weight := Some zero;
     f_test_model := Some []; f_auto_ban := Some (num_of_Z 1); f_status := 1;
     f_status_code_mapping := Some []; f_tag := Some []; f_remark := Some [];
     f_setting := Some []; f_param_override := Some []; f_header_override := Some [];
     f_settings := Some "{}"; f_other := Some []; f_multi_key_mode := Some "single";
     f_multi_key_type := Some "random"; f_batch_add_set_key_prefix_2_name := Some false;
     f_key_mode := Some "append"; f_extra := default_extra; f_is_enterprise_account := Some false;
     f_vertex_key_type := Some (JStr "json"); f_aws_key_type := Some (JStr "ak_sk");
     f_azure_responses_version := Some (JStr []); f_allow_service_tier := Some false;
     f_disable_store := Some false; f_allow_safety_identifier := Some false;
     f_allow_include_obfuscation := Some false; f_allow_inference_geo := Some false;
     f_allow_speed := Some false; f_claude_beta_query := Some false;
     f_upstream_check_enabled := Some false; f_upstream_auto_sync_enabled := Some false;
     f_upstream_ignored_models := Some [] |}.
