(* ===== verification/ChannelFormTheorems.v ===== *)
(** * Theorems on the channel form: [features/channels/lib/channel-form.ts]

    What the settings texts of a saved channel hold, that opening the channel again
    restores the form, and what the payloads send. *)
From Stdlib Require Import NArith ZArith.
From stdpp Require Import list numbers.
From S2P Require Import Prelude JsString JsNumber Json JsArray JsonRoundtrip ModelMapping.
From S2P Require Import Channels ChannelForm.

(** ** What the settings object holds *)

(** The properties the form manages, with their value for the form's channel type:
    [None] when the type does not have the property. *)
Definition managed (f : ChannelFormValues) : list (jsstr * option json) :=
  let t := f_type f in
  let on (c : bool) v := if c then Some v else None in
  let azure := json_or (f_azure_responses_version f) (JStr []) in
  [("vertex_key_type", on (t =? 41)%Z (json_or (f_vertex_key_type f) (JStr "json")));
   ("azure_responses_version", on ((t =? 3)%Z && json_truthy azure) azure);
   ("openrouter_enterprise", on (t =? 20)%Z (flag_json (f_is_enterprise_account f)));
   ("aws_key_type", on (t =? 33)%Z (json_or (f_aws_key_type f) (JStr "ak_sk")));
   ("allow_service_tier", on ((t =? 1)%Z || (t =? 14)%Z) (flag_json (f_allow_service_tier f)));
   ("disable_store", on (t =? 1)%Z (flag_json (f_disable_store f)));
   ("allow_safety_identifier", on (t =? 1)%Z (flag_json (f_allow_safety_identifier f)));
   ("allow_include_obfuscation", on (t =? 1)%Z (flag_json (f_allow_include_obfuscation f)));
   ("allow_inference_geo", on ((t =? 1)%Z || (t =? 14)%Z) (flag_json (f_allow_inference_geo f)));
   ("allow_speed", on (t =? 14)%Z (flag_json (f_allow_speed f)));
   ("claude_beta_query", on (t =? 14)%Z (flag_json (f_claude_beta_query f)))].

(** The properties of the upstream model updates, kept by the other types. *)
Definition upstream_managed (f : ChannelFormValues) (o : list (jsstr * json))
    : list (jsstr * option json) :=
  let check := is_true (f_upstream_check_enabled f) in
  [("upstream_model_update_check_enabled", Some (JBool check));
   ("upstream_model_update_auto_sync_enabled",
    Some (JBool (check && is_true (f_upstream_auto_sync_enabled f))));
   ("upstream_model_update_ignored_models", Some (JArr (map JStr (ignored_models f))));
   ("upstream_model_update_last_detected_models",
    Some (match obj_get "upstream_model_update_last_detected_models" o with
          | Some (JArr l) => if check then JArr l else JArr []
          | _ => JArr []
          end));
   ("upstream_model_update_last_check_time",
    Some (match obj_get "upstream_model_update_last_check_time" o with
          | Some (JNum n) => JNum n
          | _ => JNum zero
          end))].

Fixpoint lookup_managed (k : jsstr) (t : list (jsstr * option json)) : option (option json) :=
  match t with
  | [] => None
  | (k', v) :: r => if str_eqb k k' then Some v else lookup_managed k r
  end.

Definition settings_value (f : ChannelFormValues) (o : list (jsstr * json)) (k : jsstr)
    : option json :=
  match lookup_managed k (managed f) with
  | Some v => v
  | None =>
      match (if type_in (f_type f) MODEL_FETCHABLE_TYPES
             then lookup_managed k (upstream_managed f o) else None) with
      | Some v => v
      | None => obj_get k o
      end
  end.

Lemma get_set_or_delete k c k' v o :
  obj_get k (set_or_delete c k' v o)
  = if str_eqb k k' then (if c then Some v else None) else obj_get k o.
Proof. destruct c; cbn [set_or_delete]; [apply obj_get_set|apply obj_get_delete]. Qed.

Create Rewrite HintDb obj_get.
#[local] Hint Rewrite get_set_or_delete obj_get_set obj_get_delete : obj_get.

(** Evaluates the comparisons of two constant keys. *)
Ltac closed_keys :=
  repeat match goal with
  | |- context [str_eqb ?a ?b] =>
      let v := eval vm_compute in (str_eqb a b) in
      lazymatch v with
      | true => change (str_eqb a b) with true
      | false => change (str_eqb a b) with false
      end; cbv iota
  end.

(** Decides the comparisons of a key with the constants of a table. *)
Ltac split_key k :=
  repeat match goal with
  | |- context [str_eqb k ?c] =>
      let E := fresh in
      destruct (str_eqb k c) eqn:E; [apply str_eqb_eq in E; subst k; closed_keys; try reflexivity|]
  end; cbv iota.

Lemma type_settings_get f o k :
  obj_get k (type_settings f o)
  = match lookup_managed k (managed f) with Some v => v | None => obj_get k o end.
Proof.
  unfold type_settings, managed. cbn [lookup_managed].
  generalize (json_or (f_azure_responses_version f) (JStr [])) as azure.
  generalize (f_type f) as t. intros t azure.
  destruct (t =? 1)%Z, (t =? 14)%Z; cbn [negb orb]; autorewrite with obj_get;
    split_key k; reflexivity.
Qed.

(** [if (!isKind(o[k])) o[k] = v], as [upstream_settings] writes it twice. *)
Lemma get_keep k k' (keep : bool) v o :
  obj_get k (if keep then o else obj_set k' v o)
  = if str_eqb k k' then (if keep then obj_get k' o else Some v) else obj_get k o.
Proof.
  destruct keep; [|apply obj_get_set]. by destruct (str_eqb_spec k k') as [->|].
Qed.

Lemma upstream_settings_eq f o :
  upstream_settings f o
  = if type_in (f_type f) MODEL_FETCHABLE_TYPES then
      let check := is_true (f_upstream_check_enabled f) in
      let o := obj_set "upstream_model_update_check_enabled" (JBool check) o in
      let o := obj_set "upstream_model_update_auto_sync_enabled"
                 (JBool (check && is_true (f_upstream_auto_sync_enabled f))) o in
      let o := obj_set "upstream_model_update_ignored_models"
                 (JArr (map JStr (ignored_models f))) o in
      let keep := match obj_get "upstream_model_update_last_detected_models" o with
                  | Some (JArr _) => check | _ => false end in
      let o := if keep then o
               else obj_set "upstream_model_update_last_detected_models" (JArr []) o in
      let keep := match obj_get "upstream_model_update_last_check_time" o with
                  | Some (JNum _) => true | _ => false end in
      if keep then o else obj_set "upstream_model_update_last_check_time" (JNum zero) o
    else o.
Proof.
  unfold upstream_settings. cbv zeta. destruct (type_in _ _); [|reflexivity].
  destruct (obj_get "upstream_model_update_last_detected_models" _) as [[]|]; try reflexivity;
    destruct (obj_get "upstream_model_update_last_check_time" _) as [[]|]; reflexivity.
Qed.

Lemma upstream_settings_get f o k :
  obj_get k (upstream_settings f o)
  = match (if type_in (f_type f) MODEL_FETCHABLE_TYPES
           then lookup_managed k (upstream_managed f o) else None) with
    | Some v => v
    | None => obj_get k o
    end.
Proof.
  rewrite upstream_settings_eq. unfold upstream_managed. cbv zeta.
  destruct (type_in _ _); [|reflexivity].
  rewrite !get_keep, !obj_get_set. closed_keys. cbn [lookup_managed]. split_key k;
    repeat case_match; simplify_eq; reflexivity.
Qed.

(** A property of the form is not one of the upstream updates. *)
Lemma managed_not_upstream f o k v :
  lookup_managed k (managed f) = Some v → lookup_managed k (upstream_managed f o) = None.
Proof. unfold managed. cbn [lookup_managed]. split_key k; try discriminate; reflexivity. Qed.

Lemma upstream_managed_type_settings f o :
  upstream_managed f (type_settings f o) = upstream_managed f o.
Proof. unfold upstream_managed. rewrite !type_settings_get. reflexivity. Qed.

Lemma settings_obj_get f o k :
  obj_get k (settings_obj f o) = settings_value f o k.
Proof.
  unfold settings_obj, settings_value.
  rewrite upstream_settings_get, upstream_managed_type_settings, type_settings_get.
  destruct (lookup_managed k (managed f)) as [v|] eqn:E; [|reflexivity].
  rewrite (managed_not_upstream f o k v E). destruct (type_in _ _); reflexivity.
Qed.

(** ** A saved channel, opened again *)

Lemma wf_set_or_delete c k v o :
  units_ok k = true → no_index k = true → wf_json v = true → wf_fields o = true →
  wf_fields (set_or_delete c k v o) = true.
Proof. destruct c; cbn [set_or_delete]; eauto using wf_fields_set, wf_fields_delete. Qed.

(** The value fields of the form can be written as JSON. *)
Definition form_json_ok (f : ChannelFormValues) : bool :=
  forallb (λ v, from_option wf_json true v)
    [force_format (f_extra f); thinking_to_content (f_extra f); proxy (f_extra f);
     pass_through_body_enabled (f_extra f); system_prompt (f_extra f);
     system_prompt_override (f_extra f); f_vertex_key_type f; f_aws_key_type f;
     f_azure_responses_version f]
  && forallb units_ok (ignored_models f).

Lemma wf_json_or v d : from_option wf_json true v = true → wf_json d = true → wf_json (json_or v d) = true.
Proof. destruct v as [j|]; cbn; [destruct (json_truthy j)|]; done. Qed.

Lemma json_or_idem v d : json_or (Some (json_or v d)) d = json_or v d.
Proof. destruct v as [j|]; cbn [json_or]; [destruct (json_truthy j) eqn:E|]; try rewrite E; try done; by destruct (json_truthy d). Qed.

Lemma json_strings l : wf_json (JArr (map JStr l)) = forallb units_ok l.
Proof. cbn [wf_json]. induction l as [|s l IH]; cbn [map forallb wf_json]; [done|]. by rewrite IH. Qed.

(** One step of a well-formedness proof. *)
Ltac wf_step :=
  lazymatch goal with
  | |- wf_fields (set_or_delete _ _ _ _) = true => apply wf_set_or_delete
  | |- wf_fields (obj_set _ _ _) = true => apply wf_fields_set
  | |- wf_fields (obj_delete _ _) = true => apply wf_fields_delete
  | |- wf_fields _ = true => assumption
  | |- wf_json (json_or _ _) = true => apply wf_json_or
  | |- wf_json (JArr (map JStr _)) = true => rewrite json_strings
  | |- units_ok _ = true => vm_compute; reflexivity
  | |- no_index _ = true => vm_compute; reflexivity
  | |- _ => first [assumption | reflexivity]
  end.

Lemma settings_obj_wf f o :
  form_json_ok f = true → wf_fields o = true → wf_fields (settings_obj f o) = true.
Proof.
  unfold form_json_ok. cbn [forallb]. intros Hf Ho. bool_prop.
  assert (Ht : wf_fields (type_settings f o) = true).
  { unfold type_settings. cbv zeta. destruct (f_type f =? 1)%Z, (f_type f =? 14)%Z;
      cbn [negb orb]; repeat wf_step. }
  unfold settings_obj, upstream_settings. cbv zeta. destruct (type_in _ _); [|done].
  repeat case_match; repeat wf_step.
Qed.

(** The object [buildSettingsJSON] starts from. *)
Definition existing_object (f : ChannelFormValues) : option (list (jsstr * json)) :=
  let existing := default [] (f_settings f) in
  if nonempty existing && negb (str_eqb existing "{}") then parse_object existing else Some [].

Lemma buildSettingsJSON_object f o :
  existing_object f = Some o →
  buildSettingsJSON f = Ok (JSON_stringify (JObj (settings_obj f o))).
Proof.
  unfold existing_object, buildSettingsJSON, parse_object.
  destruct (nonempty _ && _); [|by intros [= <-]].
  destruct (JSON_parse _) as [[]|]; try discriminate. by intros [= <-].
Qed.

Lemma parsed_props_object kvs :
  wf_fields kvs = true → parsed_props (JSON_stringify (JObj kvs)) = Some kvs.
Proof. intros H. unfold parsed_props. by rewrite JSON_parse_stringify. Qed.

Lemma nonempty_object kvs : nonempty (JSON_stringify (JObj kvs)) = true.
Proof. reflexivity. Qed.

Lemma setting_obj_wf f : form_json_ok f = true → wf_fields (setting_obj f) = true.
Proof.
  unfold form_json_ok. cbn [forallb]. intros Hf. bool_prop. apply wf_fields_spec.
  unfold setting_obj. cbn [forallb map fst]. rewrite !wf_json_or by done. split; [reflexivity|].
  apply nodup_keys_spec. reflexivity.
Qed.

Definition normal_extra (e : ExtraSettings) : ExtraSettings :=
  {| force_format := Some (json_or (force_format e) (JBool false));
     thinking_to_content := Some (json_or (thinking_to_content e) (JBool false));
     proxy := Some (json_or (proxy e) (JStr []));
     pass_through_body_enabled := Some (json_or (pass_through_body_enabled e) (JBool false));
     system_prompt := Some (json_or (system_prompt e) (JStr []));
     system_prompt_override := Some (json_or (system_prompt_override e) (JBool false)) |}.

Lemma extraSettings_saved f :
  form_json_ok f = true → extraSettings (Some (buildSettingJSON f)) = normal_extra (f_extra f).
Proof.
  intros Hf. unfold extraSettings, buildSettingJSON.
  rewrite nonempty_object, (parsed_props_object _ (setting_obj_wf f Hf)).
  cbn [from_option]. unfold extra_of, setting_obj, normal_extra. cbn [obj_get]. closed_keys.
  by rewrite !json_or_idem.
Qed.

(** What the settings text of a saved channel holds, property by property:
    the properties of the form's channel type have the values of the form, those of
    the other types are gone, the five upstream update properties are renewed for
    the types that can fetch models, and every other property is kept. *)
Theorem settings_exact f o :
  existing_object f = Some o → wf_fields o = true → form_json_ok f = true →
  ∃ s kvs, buildSettingsJSON f = Ok s ∧ JSON_parse s = Some (JObj kvs)
    ∧ ∀ k, obj_get k kvs = settings_value f o k.
Proof.
  intros Ho Hw Hf. exists (JSON_stringify (JObj (settings_obj f o))), (settings_obj f o).
  split_and!; [by apply buildSettingsJSON_object| |apply settings_obj_get].
  apply JSON_parse_stringify, settings_obj_wf; assumption.
Qed.

(** A form field for a property that only some channel types have. *)
Definition typed_flag (here : bool) (flag : option bool) : option bool := Some (here && is_true flag).
Definition typed_value (here : bool) (v : option json) (d : json) : option json :=
  Some (if here then json_or v d else d).

Lemma prop_true_flag kvs k (here : bool) flag :
  obj_get k kvs = (if here then Some (flag_json flag) else None) →
  prop_true k kvs = here && is_true flag.
Proof. unfold prop_true, flag_json. intros ->. destruct here; [|done]. by destruct (is_true flag). Qed.

Lemma prop_true_bool kvs k b : obj_get k kvs = Some (JBool b) → prop_true k kvs = b.
Proof. unfold prop_true. intros ->. by destruct b. Qed.

Lemma json_or_typed (here : bool) v d :
  json_or (if here then Some (json_or v d) else None) d = if here then json_or v d else d.
Proof. destruct here; [apply json_or_idem|reflexivity]. Qed.

Lemma json_or_typed_text (here : bool) v :
  json_or (if here && json_truthy (json_or v (JStr [])) then Some (json_or v (JStr [])) else None) (JStr [])
  = if here then json_or v (JStr []) else JStr [].
Proof.
  destruct here; [|reflexivity]. cbn [andb]. destruct v as [j|]; [|reflexivity]. cbn [json_or].
  destruct (json_truthy j) eqn:E; cbn [json_truthy nonempty]; [|reflexivity].
  rewrite E. cbn [json_or]. by rewrite E.
Qed.

Lemma toString_strings l : json_toString (JArr (map JStr l)) = join "," l.
Proof. cbn [json_toString]. by rewrite map_map, map_id. Qed.

(** C18: a channel saved from a form with the texts of [buildSettingJSON] and
    [buildSettingsJSON] opens with the form values it was saved with: the extra
    settings and the settings of its own type are read back, the ones of the other
    types have their defaults, and for a type that can fetch models the update
    options are the saved ones, automatic synchronization only together with the
    check. *)
Theorem saved_form_reopens f o :
  existing_object f = Some o → wf_fields o = true → form_json_ok f = true →
  ∃ s, buildSettingsJSON f = Ok s ∧
  ∀ c, ch_settings c = s → ch_setting c = Some (buildSettingJSON f) →
  let g := transformChannelToFormDefaults c in
  let t := f_type f in
  f_extra g = normal_extra (f_extra f)
  ∧ f_is_enterprise_account g = typed_flag (t =? 20)%Z (f_is_enterprise_account f)
  ∧ f_vertex_key_type g = typed_value (t =? 41)%Z (f_vertex_key_type f) (JStr "json")
  ∧ f_aws_key_type g = typed_value (t =? 33)%Z (f_aws_key_type f) (JStr "ak_sk")
  ∧ f_azure_responses_version g = typed_value (t =? 3)%Z (f_azure_responses_version f) (JStr [])
  ∧ f_allow_service_tier g = typed_flag ((t =? 1)%Z || (t =? 14)%Z) (f_allow_service_tier f)
  ∧ f_disable_store g = typed_flag (t =? 1)%Z (f_disable_store f)
  ∧ f_allow_safety_identifier g = typed_flag (t =? 1)%Z (f_allow_safety_identifier f)
  ∧ f_allow_include_obfuscation g = typed_flag (t =? 1)%Z (f_allow_include_obfuscation f)
  ∧ f_allow_inference_geo g = typed_flag ((t =? 1)%Z || (t =? 14)%Z) (f_allow_inference_geo f)
  ∧ f_allow_speed g = typed_flag (t =? 14)%Z (f_allow_speed f)
  ∧ f_claude_beta_query g = typed_flag (t =? 14)%Z (f_claude_beta_query f)
  ∧ (type_in t MODEL_FETCHABLE_TYPES = true →
     f_upstream_check_enabled g = Some (is_true (f_upstream_check_enabled f))
     ∧ f_upstream_auto_sync_enabled g
       = typed_flag (is_true (f_upstream_check_enabled f)) (f_upstream_auto_sync_enabled f)
     ∧ f_upstream_ignored_models g = Some (join "," (ignored_models f))).
Proof.
  intros Ho Hw Hf. exists (JSON_stringify (JObj (settings_obj f o))).
  split; [by apply buildSettingsJSON_object|]. intros c Hs He.
  assert (Hp : settings_props (ch_settings c) = settings_obj f o).
  { unfold settings_props. by rewrite Hs, nonempty_object, parsed_props_object by auto using settings_obj_wf. }
  unfold transformChannelToFormDefaults. rewrite Hp, He, extraSettings_saved by assumption.
  cbn [f_extra f_is_enterprise_account f_vertex_key_type f_aws_key_type f_azure_responses_version
       f_allow_service_tier f_disable_store f_allow_safety_identifier f_allow_include_obfuscation
       f_allow_inference_geo f_allow_speed f_claude_beta_query f_upstream_check_enabled
       f_upstream_auto_sync_enabled f_upstream_ignored_models].
  unfold typed_flag, typed_value, joined_models. rewrite !settings_obj_get.
  split_and!; first
    [ reflexivity
    | f_equal; by apply prop_true_flag, settings_obj_get
    | f_equal; apply json_or_typed
    | f_equal; apply json_or_typed_text
    | idtac ].
  intros Hm. unfold settings_value. rewrite Hm. cbn [managed upstream_managed lookup_managed].
  closed_keys.
  rewrite toString_strings.
  split_and!; [f_equal; apply prop_true_bool..|reflexivity];
   rewrite settings_obj_get; unfold settings_value; rewrite Hm; reflexivity.
Qed.

(** ** The payloads *)

Lemma obj_get_empty_to_null k o :
  obj_get k (empty_to_null o)
  = match obj_get k o with Some (JStr []) => Some JNull | v => v end.
Proof.
  induction o as [|[k' v] o IH]; cbn [empty_to_null map obj_get]; [done|].
  destruct (str_eqb k k'); [by destruct v as [| | |[]| |]|exact IH].
Qed.

Lemma obj_get_fold_texts k (l : list (jsstr * jsstr)) o :
  k ∉ map fst l → obj_get k (fold_left (λ o '(k, s), obj_set k (JStr s) o) l o) = obj_get k o.
Proof.
  revert o; induction l as [|[k' s] l IH]; intros o; cbn [fold_left map fst]; [done|].
  rewrite not_elem_of_cons. intros [Hne Hn]. rewrite IH, obj_get_set by assumption.
  by rewrite (proj2 (str_eqb_neq k k') Hne).
Qed.

Lemma obj_get_fold_text k s (l : list (jsstr * jsstr)) o :
  NoDup (map fst l) → (k, s) ∈ l →
  obj_get k (fold_left (λ o '(k, s), obj_set k (JStr s) o) l o) = Some (JStr s).
Proof.
  revert o; induction l as [|[k' s'] l IH]; intros o; cbn [map fst]; [by intros _ ?%not_elem_of_nil|].
  rewrite list.NoDup_cons, elem_of_cons. intros [Hn Hd] [[= <- <-]|Hin]; cbn [fold_left].
  - rewrite obj_get_fold_texts by assumption. by rewrite obj_get_set, str_eqb_refl.
  - by apply IH.
Qed.

Lemma cleared_keys_nodup f : NoDup (map fst (cleared_fields f)).
Proof. apply nodup_keys_spec. reflexivity. Qed.

(** What an update sends for the fields a user can empty.  Each of the nine
    nullable texts is an explicit string, the empty one when the field was cleared,
    so that the server resets it; a blank key is not sent at all, so that the stored
    key is kept; [priority] and [weight] are numbers even when they are 0.  A
    creation sends no empty string: [null] stands for it. *)
Theorem payload_cleared f channelId p q :
  transformFormDataToUpdatePayload f channelId = Ok p →
  transformFormDataToCreatePayload f = Ok q →
  (∀ k s, (k, s) ∈ cleared_fields f → obj_get k p = Some (JStr s))
  ∧ obj_get "key" p = (if nonempty (trim (f_key f)) then Some (JStr (f_key f)) else None)
  ∧ obj_get "priority" p = Some (JNum (default zero (f_priority f)))
  ∧ obj_get "weight" p = Some (JNum (default zero (f_weight f)))
  ∧ (∀ k, obj_get k (cp_channel q) ≠ Some (JStr [])).
Proof.
  unfold transformFormDataToUpdatePayload, transformFormDataToCreatePayload.
  destruct (buildSettingsJSON f) as [s|]; [|discriminate]. cbn [mbind exn_bind].
  intros <-%Ok_inj <-%Ok_inj. cbn [cp_channel].
  split_and!; [intros k t; apply obj_get_fold_text, cleared_keys_nodup|..];
    try (rewrite obj_get_fold_texts by (apply str_mem_false; reflexivity);
         rewrite obj_get_empty_to_null; unfold update_fields;
         destruct (nonempty (trim (f_key f))) eqn:Ek; [rewrite obj_get_set|]; try reflexivity).
  - rewrite str_eqb_refl. by destruct (f_key f).
  - intros k. rewrite obj_get_empty_to_null. by destruct (obj_get k _) as [[| | |[]| |]|].
Qed.

(** A channel of type 1 with earlier settings, saved without a key. *)
Definition sample_form : ChannelFormValues :=
  let d := CHANNEL_FORM_DEFAULT_VALUES in
  {| f_name := "main"; f_type := 1; f_base_url := Some "https://a.b/ "; f_key := " ";
     f_openai_organization := Some []; f_models := "m1,m2"; f_group := ["default"];
     f_model_mapping := Some []; f_priority := Some zero; f_weight := Some zero;
     f_test_model := Some []; f_auto_ban := Some (num_of_Z 1); f_status := 1;
     f_status_code_mapping := Some []; f_tag := Some []; f_remark := Some [];
     f_setting := Some []; f_param_override := Some []; f_header_override := Some [];
     f_settings := Some "{\qvertex_key_type\q:\qjson\q,\qother\q:[1]}"; f_other := Some [];
     f_multi_key_mode := Some "single"; f_multi_key_type := Some "random";
     f_batch_add_set_key_prefix_2_name := Some false; f_key_mode := Some "append";
     f_extra := f_extra d; f_is_enterprise_account := Some false;
     f_vertex_key_type := Some (JStr "json"); f_aws_key_type := Some (JStr "ak_sk");
     f_azure_responses_version := Some (JStr []); f_allow_service_tier := Some true;
     f_disable_store := Some true; f_allow_safety_identifier := Some false;
     f_allow_include_obfuscation := Some false; f_allow_inference_geo := Some false;
     f_allow_speed := Some true; f_claude_beta_query := Some false;
     f_upstream_check_enabled := Some true; f_upstream_auto_sync_enabled := Some false;
     f_upstream_ignored_models := Some "x, y,x" |}.

Definition sample_existing : list (jsstr * json) :=
  [("vertex_key_type", JStr "json"); ("other", JArr [JNum (num_of_Z 1)])].

Lemma settings_exact_witness :
  ∃ s kvs, buildSettingsJSON sample_form = Ok s ∧ JSON_parse s = Some (JObj kvs)
    ∧ ∀ k, obj_get k kvs = settings_value sample_form sample_existing k.
Proof. apply settings_exact; vm_compute; reflexivity. Defined.

Lemma saved_form_reopens_witness :
  ∃ s, buildSettingsJSON sample_form = Ok s ∧
  ∀ c, ch_settings c = s → ch_setting c = Some (buildSettingJSON sample_form) →
  f_disable_store (transformChannelToFormDefaults c) = Some true
  ∧ f_allow_speed (transformChannelToFormDefaults c) = Some false
  ∧ f_upstream_ignored_models (transformChannelToFormDefaults c) = Some "x,y".
Proof.
  destruct (saved_form_reopens sample_form sample_existing) as (s & E & H);
    [vm_compute; reflexivity..|].
  exists s. split; [exact E|]. intros c Hs He. specialize (H c Hs He).
  destruct H as (_ & _ & _ & _ & _ & _ & H1 & _ & _ & _ & H2 & _ & H3).
  destruct H3 as (_ & _ & H3); [reflexivity|]. auto.
Defined.

Lemma payload_cleared_witness :
  ∃ p q, transformFormDataToUpdatePayload sample_form 7 = Ok p
  ∧ transformFormDataToCreatePayload sample_form = Ok q
  ∧ obj_get "base_url" p = Some (JStr "https://a.b") ∧ obj_get "key" p = None.
Proof.
  do 2 eexists. split; [reflexivity|]. split; [reflexivity|].
  match goal with
  | |- obj_get _ ?p = _ ∧ _ =>
      destruct (payload_cleared sample_form 7 p
                  (match transformFormDataToCreatePayload sample_form with
                   | Ok q => q | Throw => {| cp_mode := []; cp_multi_key_mode := None;
                       cp_batch_add_set_key_prefix_2_name := None; cp_channel := [] |} end)
                  eq_refl eq_refl) as (H1 & H2 & _)
  end.
  split; [|exact H2]. exact (H1 "base_url" "https://a.b" (list_elem_of_here _ _)).
Defined.
