(* ===== verification/ParamOverride.v ===== *)
(** * The editor of parameter overrides

    features/channels/components/dialogs/param-override-editor-dialog.tsx: a channel
    may rewrite the requests it relays.  The rewriting is a JSON text that lists
    operations (or, in the older form, an object of fixed values), and a dialog
    edits it either as a list of rules or as text.  This file holds the operations,
    the drafts for two kinds of their values, validation, and the texts that are
    written and read; the dialog is in [ParamDialog].

    Every operation, condition and pruning rule has an identifier that a counter
    generates.  [gen] is code that draws identifiers and may throw; the time that is
    part of an identifier is a parameter. *)
From Stdlib Require Import NArith ZArith.
From stdpp Require Import list numbers.
From S2P Require Import Prelude JsString JsNumber Json JsArray JsonIndent BillingExpr ChannelForm.

(** ** Data *)

Record ParamOverrideCondition : Type := {
  c_id : jsstr;
  c_path : jsstr;
  c_mode : jsstr;
  c_value_text : jsstr;
  c_invert : bool;
  c_pass_missing_key : bool
}.

Record ParamOverrideOperation : Type := {
  o_id : jsstr;
  o_description : jsstr;
  o_path : jsstr;
  o_mode : jsstr;
  o_from : jsstr;
  o_to : jsstr;
  o_value_text : jsstr;
  o_keep_origin : bool;
  o_logic : jsstr;
  o_conditions : list ParamOverrideCondition
}.

Definition OPERATION_MODE_OPTIONS : list (jsstr * jsstr) := [
  ("Set Field", "set"); ("Delete Field", "delete"); ("Append to End", "append");
  ("Prepend to Start", "prepend"); ("Copy Field", "copy"); ("Move Field", "move");
  ("String Replace", "replace"); ("Regex Replace", "regex_replace");
  ("Trim Prefix", "trim_prefix"); ("Trim Suffix", "trim_suffix");
  ("Ensure Prefix", "ensure_prefix"); ("Ensure Suffix", "ensure_suffix");
  ("Trim Space", "trim_space"); ("To Lowercase", "to_lower"); ("To Uppercase", "to_upper");
  ("Return Custom Error", "return_error"); ("Prune Object Items", "prune_objects");
  ("Pass Through Headers", "pass_headers"); ("Sync Fields", "sync_fields");
  ("Set Request Header", "set_header"); ("Delete Request Header", "delete_header");
  ("Copy Request Header", "copy_header"); ("Move Request Header", "move_header")].

Definition OPERATION_MODE_VALUES : list jsstr := map snd OPERATION_MODE_OPTIONS.

Definition OPERATION_MODE_LABEL_MAP : list (jsstr * jsstr) :=
  map (λ '(label, value), (value, label)) OPERATION_MODE_OPTIONS.

Definition CONDITION_MODE_OPTIONS : list (jsstr * jsstr) := [
  ("Exact Match", "full"); ("Prefix", "prefix"); ("Suffix", "suffix"); ("Contains", "contains");
  ("Greater Than", "gt"); ("Greater Than or Equal", "gte"); ("Less Than", "lt");
  ("Less Than or Equal", "lte")].

Definition CONDITION_MODE_VALUES : list jsstr := map snd CONDITION_MODE_OPTIONS.

(** What a mode has; [m_to] is [None] for a mode without the property, and only
    [Some true] makes the field part of the operation. *)
Record Meta : Type := {
  m_path : bool;
  m_pathOptional : bool;
  m_value : bool;
  m_from : bool;
  m_to : option bool;
  m_keepOrigin : bool;
  m_pathAlias : bool
}.

Definition path_meta : Meta :=
  {| m_path := true; m_pathOptional := false; m_value := false; m_from := false; m_to := None;
     m_keepOrigin := false; m_pathAlias := false |}.
Definition value_meta (keepOrigin : bool) : Meta :=
  {| m_path := true; m_pathOptional := false; m_value := true; m_from := false; m_to := None;
     m_keepOrigin := keepOrigin; m_pathAlias := false |}.
Definition replace_meta : Meta :=
  {| m_path := true; m_pathOptional := false; m_value := false; m_from := true; m_to := Some false;
     m_keepOrigin := false; m_pathAlias := false |}.
Definition from_to_meta (keepOrigin pathAlias : bool) : Meta :=
  {| m_path := false; m_pathOptional := false; m_value := false; m_from := true; m_to := Some true;
     m_keepOrigin := keepOrigin; m_pathAlias := pathAlias |}.
Definition only_value_meta (pathOptional keepOrigin : bool) : Meta :=
  {| m_path := false; m_pathOptional := pathOptional; m_value := true; m_from := false; m_to := None;
     m_keepOrigin := keepOrigin; m_pathAlias := false |}.

Definition MODE_META : list (jsstr * Meta) := [
  ("delete", path_meta);
  ("set", value_meta true);
  ("append", value_meta true);
  ("prepend", value_meta true);
  ("copy", from_to_meta false false);
  ("move", from_to_meta false false);
  ("replace", replace_meta);
  ("regex_replace", replace_meta);
  ("trim_prefix", value_meta false);
  ("trim_suffix", value_meta false);
  ("ensure_prefix", value_meta false);
  ("ensure_suffix", value_meta false);
  ("trim_space", path_meta);
  ("to_lower", path_meta);
  ("to_upper", path_meta);
  ("return_error", only_value_meta false false);
  ("prune_objects", only_value_meta true false);
  ("pass_headers", only_value_meta false true);
  ("sync_fields", from_to_meta false false);
  ("set_header", value_meta true);
  ("delete_header", path_meta);
  ("copy_header", from_to_meta true true);
  ("move_header", from_to_meta true true)].

(** [operation.mode || 'set'] and [MODE_META[mode] || MODE_META.set]. *)
Definition mode_of (op : ParamOverrideOperation) : jsstr :=
  if nonempty (o_mode op) then o_mode op else "set".
Definition meta_of_mode (mode : jsstr) : Meta := default (value_meta true) (assoc_get mode MODE_META).

Definition VALUE_REQUIRED_MODES : list jsstr :=
  ["trim_prefix"; "trim_suffix"; "ensure_prefix"; "ensure_suffix"; "set_header"; "return_error";
   "prune_objects"; "pass_headers"].

Definition FROM_REQUIRED_MODES : list jsstr :=
  ["copy"; "move"; "replace"; "regex_replace"; "copy_header"; "move_header"; "sync_fields"].

Definition TO_REQUIRED_MODES : list jsstr :=
  ["copy"; "move"; "copy_header"; "move_header"; "sync_fields"].

(** ** Identifiers *)

Definition gen (A : Type) : Type := N → exn A * N.

#[export] Instance gen_ret : MRet gen := λ A a n, (Ok a, n).
#[export] Instance gen_bind : MBind gen := λ A B f m n,
  match m n with
  | (Ok a, n') => f a n'
  | (Throw, n') => (Throw, n')
  end.

Definition gen_throw {A} : gen A := λ n, (Throw, n).

(** The properties of a value; reading one of [null] throws.  The other values have
    none of the properties that are read here. *)
Definition props (v : json) : gen (list (jsstr * json)) :=
  match v with
  | JNull => gen_throw
  | JObj kvs => mret kvs
  | _ => mret []
  end.

(** ** Values and their texts *)

(** [typeof v === 'string' ? v : ''] of a property. *)
Definition prop_text (k : jsstr) (kvs : list (jsstr * json)) : jsstr :=
  match obj_get k kvs with Some (JStr s) => s | _ => [] end.

(** [v === true] of a property. *)
Definition prop_is_true (k : jsstr) (kvs : list (jsstr * json)) : bool :=
  match obj_get k kvs with Some (JBool true) => true | _ => false end.

(** [MODES.has(v) ? v : fallback] of a property. *)
Definition prop_mode (modes : list jsstr) (fallback : jsstr) (kvs : list (jsstr * json)) : jsstr :=
  match obj_get "mode" kvs with
  | Some (JStr s) => if str_mem s modes then s else fallback
  | _ => fallback
  end.

Definition toValueText (value : option json) : jsstr :=
  match value with
  | None => []
  | Some (JStr s) => s
  | Some v => JSON_stringify v
  end.

Definition parseLooseValue (valueText : jsstr) : json :=
  let raw := trim valueText in
  if negb (nonempty raw) then JStr []
  else match JSON_parse raw with Some v => v | None => JStr raw end.

Definition verifyJSON (text : jsstr) : bool :=
  match JSON_parse text with Some _ => true | None => false end.

(** [s.toUpperCase() === word] and [s.toLowerCase() === word] for the words AND, OR
    and header: no unit outside ASCII is mapped to one of their letters. *)
Definition ascii_upper (c : N) : N := if ((97 <=? c) && (c <=? 122))%N then (c - 32)%N else c.
Definition ascii_lower (c : N) : N := if ((65 <=? c) && (c <=? 90))%N then (c + 32)%N else c.
Definition upper_is (word s : jsstr) : bool := str_eqb (map ascii_upper s) word.
Definition lower_is (word s : jsstr) : bool := str_eqb (map ascii_lower s) word.

(** [String(v || fallback)] of a property. *)
Definition prop_string_or (k fallback : jsstr) (kvs : list (jsstr * json)) : jsstr :=
  json_toString (json_or (obj_get k kvs) (JStr fallback)).

(** [Date.now()] at the call of [nextLocalId] that draws the given number. *)
Class Clock : Type := now : N → N.

Section overrides.
Context {clock : Clock}.

Definition local_id (n : N) : jsstr := "po_" ++ to_dec (now n) ++ "_" ++ to_dec n.

Definition nextLocalId : gen jsstr := λ n, (Ok (local_id n), (n + 1)%N).

Definition normalizeCondition (condition : json) : gen ParamOverrideCondition :=
  id ← nextLocalId;
  kvs ← props condition;
  mret {| c_id := id;
          c_path := prop_text "path" kvs;
          c_mode := prop_mode CONDITION_MODE_VALUES "full" kvs;
          c_value_text := toValueText (obj_get "value" kvs);
          c_invert := prop_is_true "invert" kvs;
          c_pass_missing_key := prop_is_true "pass_missing_key" kvs |}.

Definition createDefaultCondition : gen ParamOverrideCondition := normalizeCondition (JObj []).

(** [Array.isArray(value) ? value.map(normalizeCondition) : []]. *)
Definition normalize_conditions (value : option json) : gen (list ParamOverrideCondition) :=
  match value with
  | Some (JArr l) => mapM normalizeCondition l
  | _ => mret []
  end.

Definition normalizeOperation (operation : json) : gen ParamOverrideOperation :=
  id ← nextLocalId;
  kvs ← props operation;
  conditions ← normalize_conditions (obj_get "conditions" kvs);
  mret {| o_id := id;
          o_description := prop_text "description" kvs;
          o_path := prop_text "path" kvs;
          o_mode := prop_mode OPERATION_MODE_VALUES "set" kvs;
          o_from := prop_text "from" kvs;
          o_to := prop_text "to" kvs;
          o_value_text := toValueText (obj_get "value" kvs);
          o_keep_origin := prop_is_true "keep_origin" kvs;
          o_logic := if upper_is "AND" (prop_string_or "logic" "OR" kvs) then "AND" else "OR";
          o_conditions := conditions |}.

Definition createDefaultOperation : gen ParamOverrideOperation :=
  normalizeOperation (JObj [("mode", JStr "set")]).

(** ** The list of operations *)

Fixpoint findIndex {A} (p : A → bool) (l : list A) : option nat :=
  match l with
  | [] => None
  | x :: r => if p x then Some 0 else S <$> findIndex p r
  end.

Definition has_id (id : jsstr) (op : ParamOverrideOperation) : bool := str_eqb (o_id op) id.

Inductive DropPosition := Before | After.

(** The element at [srcIdx] is taken out and put back beside the target. *)
Definition reorderOperations (ops : list ParamOverrideOperation) (sourceId targetId : jsstr)
    (position : DropPosition) : list ParamOverrideOperation :=
  if negb (nonempty sourceId) || negb (nonempty targetId) || str_eqb sourceId targetId then ops
  else
    match findIndex (has_id sourceId) ops with
    | None => ops
    | Some srcIdx =>
        match ops !! srcIdx with
        | None => ops
        | Some moved =>
            let next := take srcIdx ops ++ drop (S srcIdx) ops in
            match findIndex (has_id targetId) next with
            | None => ops
            | Some insertIdx =>
                let insertIdx := match position with After => S insertIdx | Before => insertIdx end in
                take insertIdx next ++ moved :: drop insertIdx next
            end
        end
    end.

Definition isOperationBlank (op : ParamOverrideOperation) : bool :=
  let hasCondition :=
    existsb (λ c, nonempty (trim (c_path c)) || nonempty (trim (c_value_text c))
                  || negb (str_eqb (c_mode c) "full") || c_invert c || c_pass_missing_key c)
      (o_conditions op) in
  str_eqb (o_mode op) "set" && negb (nonempty (trim (o_path op))) && negb (nonempty (trim (o_from op)))
  && negb (nonempty (trim (o_to op))) && negb (nonempty (trim (o_value_text op)))
  && negb (o_keep_origin op) && negb hasCondition.

(** [a || b]. *)
Definition text_or (a b : jsstr) : jsstr := if nonempty a then a else b.

Definition getOperationSummary (op : ParamOverrideOperation) (index : nat) : jsstr :=
  let mode := mode_of op in
  let modeLabel := text_or (default [] (assoc_get mode OPERATION_MODE_LABEL_MAP)) mode in
  let path := trim (o_path op) in
  let from := trim (o_from op) in
  let to := trim (o_to op) in
  let subject := if str_eqb mode "sync_fields" then text_or from (text_or to "-")
                 else text_or path (text_or from (text_or to "-")) in
  to_dec (N.of_nat index + 1) ++ ". " ++ modeLabel ++ " · " ++ subject.

(** ** Targets of a synchronization *)

Inductive SyncType := SyncJson | SyncHeader.

Definition parseSyncTargetSpec (spec : jsstr) : SyncType * jsstr :=
  let raw := trim spec in
  if negb (nonempty raw) then (SyncJson, [])
  else
    match indexOf ":" raw with
    | None => (SyncJson, raw)
    | Some idx =>
        let prefix := trim (take idx raw) in
        let key := trim (drop (S idx) raw) in
        if lower_is "header" prefix then (SyncHeader, key) else (SyncJson, key)
    end.

Definition buildSyncTargetSpec (type : SyncType) (key : jsstr) : jsstr :=
  let normalizedType := match type with SyncHeader => "header" | SyncJson => "json" end in
  let normalizedKey := trim key in
  if negb (nonempty normalizedKey) then [] else normalizedType ++ ":" ++ normalizedKey.

(** ** Drafts of custom errors *)

Record ReturnErrorDraft : Type := {
  e_message : jsstr;
  e_statusCode : number;
  e_code : jsstr;
  e_type : jsstr;
  e_skipRetry : bool;
  e_simpleMode : bool
}.

Definition status_or_400 (statusValue : number) : number :=
  if is_http_code statusValue then statusValue else num_of_Z 400.

Definition error_defaults (message : jsstr) : ReturnErrorDraft :=
  {| e_message := message; e_statusCode := num_of_Z 400; e_code := []; e_type := [];
     e_skipRetry := true; e_simpleMode := true |}.

(** [parsed.status_code !== undefined ? parsed.status_code : parsed.status] as a
    number; [Number(undefined)] is not one. *)
Definition status_number (parsed : list (jsstr * json)) : number :=
  match obj_get "status_code" parsed with
  | Some v => json_toNumber v
  | None => match obj_get "status" parsed with Some v => json_toNumber v | None => NaN end
  end.

Definition prop_is_false (k : jsstr) (kvs : list (jsstr * json)) : bool :=
  match obj_get k kvs with Some (JBool false) => true | _ => false end.

Definition parseReturnErrorDraft (valueText : jsstr) : ReturnErrorDraft :=
  let raw := trim valueText in
  if negb (nonempty raw) then error_defaults []
  else
    match parse_object raw with
    | Some parsed =>
        {| e_message :=
             trim (json_toString (json_or (obj_get "message" parsed) (json_or (obj_get "msg" parsed) (JStr []))));
           e_statusCode := status_or_400 (status_number parsed);
           e_code := trim (prop_string_or "code" [] parsed);
           e_type := trim (prop_string_or "type" [] parsed);
           e_skipRetry := negb (prop_is_false "skip_retry" parsed);
           e_simpleMode := false |}
    | None => error_defaults raw
    end.

Definition set_if (c : bool) (k : jsstr) (v : json) (kvs : list (jsstr * json)) : list (jsstr * json) :=
  if c then obj_set k v kvs else kvs.

Definition error_payload (draft : ReturnErrorDraft) : list (jsstr * json) :=
  let payload := [("message", JStr (trim (e_message draft)));
                  ("status_code", JNum (status_or_400 (e_statusCode draft)))] in
  let code := trim (e_code draft) in
  let type := trim (e_type draft) in
  let payload := set_if (nonempty code) "code" (JStr code) payload in
  let payload := set_if (nonempty type) "type" (JStr type) payload in
  set_if (negb (e_skipRetry draft)) "skip_retry" (JBool false) payload.

Definition buildReturnErrorValueText (draft : ReturnErrorDraft) : jsstr :=
  if e_simpleMode draft then trim (e_message draft) else JSON_stringify (JObj (error_payload draft)).

(** ** Drafts of pruning rules *)

Record PruneRule : Type := {
  r_id : jsstr;
  r_path : jsstr;
  r_mode : jsstr;
  r_value_text : jsstr;
  r_invert : bool;
  r_pass_missing_key : bool
}.

Record PruneObjectsDraft : Type := {
  d_simpleMode : bool;
  d_typeText : jsstr;
  d_logic : jsstr;
  d_recursive : bool;
  d_rules : list PruneRule
}.

Definition normalizePruneRule (rule : json) : gen PruneRule :=
  id ← nextLocalId;
  kvs ← props rule;
  mret {| r_id := id;
          r_path := prop_text "path" kvs;
          r_mode := prop_mode CONDITION_MODE_VALUES "full" kvs;
          r_value_text := toValueText (obj_get "value" kvs);
          r_invert := prop_is_true "invert" kvs;
          r_pass_missing_key := prop_is_true "pass_missing_key" kvs |}.

(** A rule for each property of an object. *)
Definition entry_rule (entry : jsstr * json) : gen PruneRule :=
  normalizePruneRule (JObj [("path", JStr entry.1); ("mode", JStr "full"); ("value", entry.2)]).

Definition where_rules (value : option json) : gen (list PruneRule) :=
  match value with
  | Some (JObj kvs) => mapM entry_rule (entries kvs)
  | _ => mret []
  end.

Definition is_object_value (v : json) : bool := match v with JArr _ | JObj _ => true | _ => false end.

(** Rules from an array of objects, or from an object. *)
Definition condition_rules (value : option json) : gen (list PruneRule) :=
  match value with
  | Some (JArr l) => mapM normalizePruneRule (List.filter is_object_value l)
  | _ => where_rules value
  end.

Definition prune_defaults (typeText : jsstr) : PruneObjectsDraft :=
  {| d_simpleMode := true; d_typeText := typeText; d_logic := "AND"; d_recursive := true; d_rules := [] |}.

Definition object_draft (parsed : list (jsstr * json)) : gen PruneObjectsDraft :=
  wheres ← where_rules (obj_get "where" parsed);
  conds ← condition_rules (obj_get "conditions" parsed);
  mret {| d_simpleMode :=
            negb (obj_has "logic" parsed || obj_has "recursive" parsed || obj_has "where" parsed
                  || obj_has "conditions" parsed);
          d_typeText := match obj_get "type" parsed with None => [] | Some v => trim (json_toString v) end;
          d_logic := if upper_is "OR" (prop_string_or "logic" "AND" parsed) then "OR" else "AND";
          d_recursive := negb (prop_is_false "recursive" parsed);
          d_rules := wheres ++ conds |}.

Definition parsePruneObjectsDraft (valueText : jsstr) : gen PruneObjectsDraft :=
  let raw := trim valueText in
  if negb (nonempty raw) then mret (prune_defaults [])
  else
    match JSON_parse raw with
    | None => mret (prune_defaults raw)
    | Some (JStr s) => mret (prune_defaults (trim s))
    | Some (JObj parsed) => object_draft parsed
    | Some JNull => mret (prune_defaults [])
    | Some v => mret (prune_defaults (trim (json_toString v)))
    end.

Definition rule_payload (rule : PruneRule) : json :=
  let payload := [("path", JStr (trim (r_path rule)));
                  ("mode", JStr (if str_mem (r_mode rule) CONDITION_MODE_VALUES then r_mode rule else "full"))] in
  let valueRaw := trim (r_value_text rule) in
  let payload := set_if (nonempty valueRaw) "value" (parseLooseValue valueRaw) payload in
  let payload := set_if (r_invert rule) "invert" (JBool true) payload in
  JObj (set_if (r_pass_missing_key rule) "pass_missing_key" (JBool true) payload).

Definition prune_payload (draft : PruneObjectsDraft) : list (jsstr * json) :=
  let typeText := trim (d_typeText draft) in
  let conditions := map rule_payload (List.filter (λ rule, nonempty (trim (r_path rule))) (d_rules draft)) in
  let payload := set_if (nonempty typeText) "type" (JStr typeText) [] in
  let payload := set_if (upper_is "OR" (text_or (d_logic draft) "AND")) "logic" (JStr "OR") payload in
  let payload := set_if (negb (d_recursive draft)) "recursive" (JBool false) payload in
  set_if (nonempty conditions) "conditions" (JArr conditions) payload.

Definition buildPruneObjectsValueText (draft : PruneObjectsDraft) : jsstr :=
  if d_simpleMode draft then trim (d_typeText draft)
  else
    let payload := prune_payload draft in
    if negb (obj_has "type" payload) && negb (obj_has "conditions" payload)
    then JSON_stringify (JObj [("logic", JStr "AND")])
    else JSON_stringify (JObj payload).

(** ** Header names, conditions and validation *)

(** [String(i ?? '').trim()]. *)
Definition nullish_text (v : json) : jsstr :=
  match v with JNull => [] | _ => trim (json_toString v) end.

Definition parsePassHeaderNames (rawValue : json) : list jsstr :=
  match rawValue with
  | JArr l => List.filter nonempty (map nullish_text l)
  | JObj obj =>
      match obj_get "headers" obj with
      | Some (JArr l) => List.filter nonempty (map nullish_text l)
      | _ =>
          match obj_get "header" obj with
          | Some v => let single := nullish_text v in if nonempty single then [single] else []
          | None => []
          end
      end
  | JStr s => List.filter nonempty (map trim (split_char 44 s))
  | _ => []
  end.

Definition buildConditionPayload (condition : ParamOverrideCondition) : option json :=
  let path := trim (c_path condition) in
  if negb (nonempty path) then None
  else
    let payload := [("path", JStr path); ("mode", JStr (text_or (c_mode condition) "full"));
                    ("value", parseLooseValue (c_value_text condition))] in
    let payload := set_if (c_invert condition) "invert" (JBool true) payload in
    Some (JObj (set_if (c_pass_missing_key condition) "pass_missing_key" (JBool true) payload)).

(** The messages of [validateOperations]; each is shown with the number of the
    rule. *)
Inductive Issue : Type :=
| MissingTargetPath
| MissingSourceField
| MissingTargetField
| MissingValue
| ErrorWithoutMessage
| InvalidHeaders.

Definition validate_operation (op : ParamOverrideOperation) : option Issue :=
  let mode := mode_of op in
  let meta := meta_of_mode mode in
  let pathValue := trim (o_path op) in
  let aliased := m_pathAlias meta && nonempty pathValue in
  let raw := trim (o_value_text op) in
  if m_path meta && negb (nonempty pathValue) then Some MissingTargetPath
  else if str_mem mode FROM_REQUIRED_MODES && negb (nonempty (trim (o_from op))) && negb aliased
  then Some MissingSourceField
  else if str_mem mode TO_REQUIRED_MODES && negb (nonempty (trim (o_to op))) && negb aliased
  then Some MissingTargetField
  else if str_mem mode VALUE_REQUIRED_MODES && negb (nonempty raw) then Some MissingValue
  else if str_eqb mode "return_error" then
    match parse_object raw with
    | Some parsed =>
        if nonempty (trim (prop_string_or "message" [] parsed)) then None else Some ErrorWithoutMessage
    | None => None
    end
  else if str_eqb mode "pass_headers" then
    if nonempty (parsePassHeaderNames (parseLooseValue raw)) then None else Some InvalidHeaders
  else None.

(** The first rule with an issue, counted from 1. *)
Fixpoint validate_from (line : nat) (operations : list ParamOverrideOperation) : option (nat * Issue) :=
  match operations with
  | [] => None
  | op :: rest =>
      match validate_operation op with
      | Some issue => Some (line, issue)
      | None => validate_from (S line) rest
      end
  end.

Definition validateOperations (operations : list ParamOverrideOperation) : option (nat * Issue) :=
  validate_from 1 operations.

(** ** The JSON text of the operations *)

(** What the user is told. *)
Inductive Problem : Type :=
| RuleIssue (line : nat) (issue : Issue)
| NotJson
| NotAnObject
| LegacyNotAnObject.

(** [meta.to] as a condition. *)
Definition has_to (m : Meta) : bool := match m_to m with Some true => true | _ => false end.

Definition operation_fields (op : ParamOverrideOperation) : list (jsstr * json) :=
  let mode := mode_of op in
  let meta := meta_of_mode mode in
  let descriptionValue := trim (o_description op) in
  let pathValue := trim (o_path op) in
  let fromValue := trim (o_from op) in
  let toValue := trim (o_to op) in
  let p := [("mode", JStr mode)] in
  let p := set_if (nonempty descriptionValue) "description" (JStr descriptionValue) p in
  let p := set_if (m_path meta) "path" (JStr pathValue) p in
  let p := set_if (m_pathOptional meta && nonempty pathValue) "path" (JStr pathValue) p in
  let p := set_if (m_value meta) "value" (parseLooseValue (o_value_text op)) p in
  let p := set_if (m_keepOrigin meta && o_keep_origin op) "keep_origin" (JBool true) p in
  let p := set_if (m_from meta) "from" (JStr fromValue) p in
  let p := set_if (negb (has_to meta) && nonempty toValue) "to" (JStr toValue) p in
  let p := set_if (has_to meta) "to" (JStr toValue) p in
  let p := if m_pathAlias meta then
             let p := set_if (negb (nonempty (prop_text "from" p)) && nonempty pathValue) "from" (JStr pathValue) p in
             set_if (negb (nonempty (prop_text "to" p)) && nonempty pathValue) "to" (JStr pathValue) p
           else p in
  let conditions := omap buildConditionPayload (o_conditions op) in
  if nonempty conditions then
    obj_set "logic" (JStr (if str_eqb (o_logic op) "AND" then "AND" else "OR"))
      (obj_set "conditions" (JArr conditions) p)
  else p.

Definition operation_payload (op : ParamOverrideOperation) : json := JObj (operation_fields op).

Definition kept_operations (sourceOperations : list ParamOverrideOperation) : list ParamOverrideOperation :=
  List.filter (λ o, negb (isOperationBlank o)) sourceOperations.

Definition operations_text (ops : list ParamOverrideOperation) : jsstr :=
  JSON_stringify_2 (JObj [("operations", JArr (map operation_payload ops))]).

(** A text, or the message of the exception. *)
Definition buildOperationsJson (sourceOperations : list ParamOverrideOperation) (validate : bool)
    : jsstr + Problem :=
  let filteredOps := kept_operations sourceOperations in
  if negb (nonempty filteredOps) then inl []
  else
    match (if validate then validateOperations filteredOps else None) with
    | Some (line, issue) => inr (RuleIssue line issue)
    | None => inl (operations_text filteredOps)
    end.

(** ** Reading a text *)

Inductive EditMode := EditVisual | EditJson.
Inductive VisualMode := VisualOperations | VisualLegacy.

Record EditorState : Type := {
  es_editMode : EditMode;
  es_visualMode : VisualMode;
  es_legacyValue : jsstr;
  es_operations : list ParamOverrideOperation;
  es_jsonText : jsstr;
  es_jsonError : option Problem
}.

(** [parsed.operations.length > 0 ? parsed.operations.map(normalizeOperation)
    : [createDefaultOperation()]]. *)
Definition read_operations (l : list json) : gen (list ParamOverrideOperation) :=
  match l with
  | [] => op ← createDefaultOperation; mret [op]
  | _ => mapM normalizeOperation l
  end.

Definition parseInitialState (text : jsstr) : gen EditorState :=
  let trimmed := trim text in
  let other editMode visualMode legacyValue jsonText jsonError :=
    fallback ← createDefaultOperation;
    mret {| es_editMode := editMode; es_visualMode := visualMode; es_legacyValue := legacyValue;
            es_operations := [fallback]; es_jsonText := jsonText; es_jsonError := jsonError |} in
  if negb (nonempty trimmed) then other EditVisual VisualOperations [] [] None
  else
    match JSON_parse trimmed with
    | None => other EditJson VisualOperations [] text (Some NotJson)
    | Some parsed =>
        let pretty := JSON_stringify_2 parsed in
        match parsed with
        | JObj kvs =>
            match obj_get "operations" kvs with
            | Some (JArr l) =>
                operations ← read_operations l;
                mret {| es_editMode := EditVisual; es_visualMode := VisualOperations; es_legacyValue := [];
                        es_operations := operations; es_jsonText := pretty; es_jsonError := None |}
            | _ => other EditVisual VisualLegacy pretty pretty None
            end
        | _ => other EditJson VisualOperations [] pretty None
        end
    end.
End overrides.
