(* ===== verification/ParamDialog.v ===== *)
(** * The dialog for parameter overrides

    The component [ParamOverrideEditorDialog] of
    features/channels/components/dialogs/param-override-editor-dialog.tsx, with the
    rule editors it is made of: its state, its handlers, the templates, and one
    function over all events.  Messages to the user are values of [Problem]; toasts
    are not recorded. *)
From Stdlib Require Import NArith ZArith.
From stdpp Require Import list numbers gmap.
From S2P Require Import Prelude JsString JsNumber Json JsArray JsonIndent BillingExpr ChannelForm ParamOverride.

Section dialog.
Context {clock : Clock}.

(** ** State

    The state variables of the component.  The six that hold the overrides are an
    [EditorState]; the others are the selection, the opened conditions, a drag in
    progress and the chosen template. *)
Record Drag : Type := {
  draggedOperationId : jsstr;
  dragOverOperationId : jsstr;
  dragOverPosition : DropPosition
}.

Definition no_drag : Drag :=
  {| draggedOperationId := []; dragOverOperationId := []; dragOverPosition := Before |}.

Record Dialog : Type := {
  dl_state : EditorState;
  dl_operationSearch : jsstr;
  dl_selectedOperationId : jsstr;
  dl_expandedConditions : gmap (list N) bool;
  dl_drag : Drag;
  dl_templatePresetKey : jsstr
}.

Definition dl_operations (d : Dialog) : list ParamOverrideOperation := es_operations (dl_state d).

Definition with_state (s : EditorState) (d : Dialog) : Dialog :=
  {| dl_state := s; dl_operationSearch := dl_operationSearch d;
     dl_selectedOperationId := dl_selectedOperationId d; dl_expandedConditions := dl_expandedConditions d;
     dl_drag := dl_drag d; dl_templatePresetKey := dl_templatePresetKey d |}.

Definition setOperations (ops : list ParamOverrideOperation) (d : Dialog) : Dialog :=
  with_state {| es_editMode := es_editMode (dl_state d); es_visualMode := es_visualMode (dl_state d);
                es_legacyValue := es_legacyValue (dl_state d); es_operations := ops;
                es_jsonText := es_jsonText (dl_state d); es_jsonError := es_jsonError (dl_state d) |} d.

Definition setSelectedOperationId (id : jsstr) (d : Dialog) : Dialog :=
  {| dl_state := dl_state d; dl_operationSearch := dl_operationSearch d; dl_selectedOperationId := id;
     dl_expandedConditions := dl_expandedConditions d; dl_drag := dl_drag d;
     dl_templatePresetKey := dl_templatePresetKey d |}.

Definition setExpandedConditions (m : gmap (list N) bool) (d : Dialog) : Dialog :=
  {| dl_state := dl_state d; dl_operationSearch := dl_operationSearch d;
     dl_selectedOperationId := dl_selectedOperationId d; dl_expandedConditions := m;
     dl_drag := dl_drag d; dl_templatePresetKey := dl_templatePresetKey d |}.

Definition setDrag (g : Drag) (d : Dialog) : Dialog :=
  {| dl_state := dl_state d; dl_operationSearch := dl_operationSearch d;
     dl_selectedOperationId := dl_selectedOperationId d; dl_expandedConditions := dl_expandedConditions d;
     dl_drag := g; dl_templatePresetKey := dl_templatePresetKey d |}.

Definition setTemplatePresetKey (key : jsstr) (d : Dialog) : Dialog :=
  {| dl_state := dl_state d; dl_operationSearch := dl_operationSearch d;
     dl_selectedOperationId := dl_selectedOperationId d; dl_expandedConditions := dl_expandedConditions d;
     dl_drag := dl_drag d; dl_templatePresetKey := key |}.

Definition setOperationSearch (search : jsstr) (d : Dialog) : Dialog :=
  {| dl_state := dl_state d; dl_operationSearch := search;
     dl_selectedOperationId := dl_selectedOperationId d; dl_expandedConditions := dl_expandedConditions d;
     dl_drag := dl_drag d; dl_templatePresetKey := dl_templatePresetKey d |}.

(** [ops[0]?.id || '']. *)
Definition first_id (ops : list ParamOverrideOperation) : jsstr :=
  match ops with op :: _ => o_id op | [] => [] end.

(** The effect that runs when the dialog is opened. *)
Definition open_dialog (value : jsstr) : gen Dialog :=
  state ← parseInitialState value;
  mret {| dl_state := state; dl_operationSearch := []; dl_selectedOperationId := first_id (es_operations state);
          dl_expandedConditions := ∅; dl_drag := no_drag;
          dl_templatePresetKey := match es_visualMode state with
                                  | VisualLegacy => "legacy_default"
                                  | VisualOperations => "operations_default"
                                  end |}.

(** The effect that keeps the selection valid. *)
Definition keep_selection (d : Dialog) : Dialog :=
  match dl_operations d with
  | [] => setSelectedOperationId [] d
  | op :: _ =>
      if existsb (has_id (dl_selectedOperationId d)) (dl_operations d) then d
      else setSelectedOperationId (o_id op) d
  end.

Definition operationCount (d : Dialog) : nat := length (kept_operations (dl_operations d)).

Definition filteredOperations (toLowerCase : jsstr → jsstr) (d : Dialog) : list ParamOverrideOperation :=
  let keyword := toLowerCase (trim (dl_operationSearch d)) in
  if negb (nonempty keyword) then dl_operations d
  else
    List.filter (λ op,
      includes keyword
        (toLowerCase (join " " (List.filter nonempty
           [o_description op; o_mode op; o_path op; o_from op; o_to op; o_value_text op]))))
      (dl_operations d).

Definition selectedOperation (d : Dialog) : option ParamOverrideOperation :=
  List.find (has_id (dl_selectedOperationId d)) (dl_operations d).

Definition returnErrorDraft (d : Dialog) : option ReturnErrorDraft :=
  match selectedOperation d with
  | Some op => if str_eqb (o_mode op) "return_error" then Some (parseReturnErrorDraft (o_value_text op)) else None
  | None => None
  end.

Definition pruneObjectsDraft (d : Dialog) : gen (option PruneObjectsDraft) :=
  match selectedOperation d with
  | Some op =>
      if str_eqb (o_mode op) "prune_objects"
      then draft ← parsePruneObjectsDraft (o_value_text op); mret (Some draft)
      else mret None
  | None => mret None
  end.

(** *** Operations *)

Definition map_operation (operationId : jsstr) (f : ParamOverrideOperation → ParamOverrideOperation)
    (ops : list ParamOverrideOperation) : list ParamOverrideOperation :=
  map (λ o, if has_id operationId o then f o else o) ops.

Definition updateOperation (operationId : jsstr) (patch : ParamOverrideOperation → ParamOverrideOperation)
    (d : Dialog) : Dialog :=
  setOperations (map_operation operationId patch (dl_operations d)) d.

Definition addOperation (d : Dialog) : gen Dialog :=
  created ← createDefaultOperation;
  mret (setSelectedOperationId (o_id created) (setOperations (dl_operations d ++ [created]) d)).

Definition duplicate_value (source : ParamOverrideOperation) : json :=
  JObj [("description", JStr (o_description source)); ("path", JStr (o_path source));
        ("mode", JStr (o_mode source)); ("value", parseLooseValue (o_value_text source));
        ("keep_origin", JBool (o_keep_origin source)); ("from", JStr (o_from source));
        ("to", JStr (o_to source)); ("logic", JStr (o_logic source));
        ("conditions",
          JArr (map (λ c, JObj [("path", JStr (c_path c)); ("mode", JStr (c_mode c));
                                ("value", parseLooseValue (c_value_text c)); ("invert", JBool (c_invert c));
                                ("pass_missing_key", JBool (c_pass_missing_key c))])
                  (o_conditions source)))].

(** The copy is made inside the state update; [eager] says whether that update had
    run when the identifier of the copy was tested, which is up to the library. *)
Definition duplicateOperation (eager : bool) (operationId : jsstr) (d : Dialog) : gen Dialog :=
  match findIndex (has_id operationId) (dl_operations d) with
  | None => mret d
  | Some idx =>
      match dl_operations d !! idx with
      | None => mret d
      | Some source =>
          cloned ← normalizeOperation (duplicate_value source);
          let next := setOperations
            (take (S idx) (dl_operations d) ++ cloned :: drop (S idx) (dl_operations d)) d in
          mret (if eager then setSelectedOperationId (o_id cloned) next else next)
      end
  end.

Definition removeOperation (operationId : jsstr) (d : Dialog) : gen Dialog :=
  if (length (dl_operations d) <=? 1)%nat
  then op ← createDefaultOperation; mret (setOperations [op] d)
  else mret (setOperations (List.filter (λ o, negb (has_id operationId o)) (dl_operations d)) d).

(** *** Conditions *)

Definition set_o_conditions (cs : list ParamOverrideCondition) (op : ParamOverrideOperation)
    : ParamOverrideOperation :=
  {| o_id := o_id op; o_description := o_description op; o_path := o_path op; o_mode := o_mode op;
     o_from := o_from op; o_to := o_to op; o_value_text := o_value_text op;
     o_keep_origin := o_keep_origin op; o_logic := o_logic op; o_conditions := cs |}.

Definition addCondition (operationId : jsstr) (d : Dialog) : gen Dialog :=
  created ← createDefaultCondition;
  let next := updateOperation operationId
                (λ op, set_o_conditions (o_conditions op ++ [created]) op) d in
  mret (setExpandedConditions (<[c_id created := true]> (dl_expandedConditions d)) next).

Definition updateCondition (operationId conditionId : jsstr)
    (patch : ParamOverrideCondition → ParamOverrideCondition) (d : Dialog) : Dialog :=
  updateOperation operationId
    (λ op, set_o_conditions
             (map (λ c, if str_eqb (c_id c) conditionId then patch c else c) (o_conditions op)) op) d.

Definition removeCondition (operationId conditionId : jsstr) (d : Dialog) : Dialog :=
  updateOperation operationId
    (λ op, set_o_conditions
             (List.filter (λ c, negb (str_eqb (c_id c) conditionId)) (o_conditions op)) op) d.

(** *** Drafts *)

Definition set_o_value_text (s : jsstr) (op : ParamOverrideOperation) : ParamOverrideOperation :=
  {| o_id := o_id op; o_description := o_description op; o_path := o_path op; o_mode := o_mode op;
     o_from := o_from op; o_to := o_to op; o_value_text := s;
     o_keep_origin := o_keep_origin op; o_logic := o_logic op; o_conditions := o_conditions op |}.

Definition updateReturnErrorDraft (operationId : jsstr) (patch : ReturnErrorDraft → ReturnErrorDraft)
    (d : Dialog) : Dialog :=
  updateOperation operationId
    (λ op, set_o_value_text (buildReturnErrorValueText (patch (parseReturnErrorDraft (o_value_text op)))) op) d.

Definition update_prune (operationId : jsstr) (updater : PruneObjectsDraft → gen PruneObjectsDraft)
    (op : ParamOverrideOperation) : gen ParamOverrideOperation :=
  if negb (has_id operationId op) then mret op
  else
    draft ← parsePruneObjectsDraft (o_value_text op);
    nextDraft ← updater draft;
    mret (set_o_value_text (buildPruneObjectsValueText nextDraft) op).

Definition updatePruneObjectsDraft (operationId : jsstr) (updater : PruneObjectsDraft → gen PruneObjectsDraft)
    (d : Dialog) : gen Dialog :=
  ops ← mapM (update_prune operationId updater) (dl_operations d);
  mret (setOperations ops d).

Definition set_rules (rules : list PruneRule) (draft : PruneObjectsDraft) : PruneObjectsDraft :=
  {| d_simpleMode := d_simpleMode draft; d_typeText := d_typeText draft; d_logic := d_logic draft;
     d_recursive := d_recursive draft; d_rules := rules |}.

Definition add_rule (draft : PruneObjectsDraft) : gen PruneObjectsDraft :=
  rule ← normalizePruneRule (JObj []);
  mret {| d_simpleMode := false; d_typeText := d_typeText draft; d_logic := d_logic draft;
          d_recursive := d_recursive draft; d_rules := d_rules draft ++ [rule] |}.

Definition update_rule (ruleId : jsstr) (patch : PruneRule → PruneRule) (draft : PruneObjectsDraft)
    : PruneObjectsDraft :=
  set_rules (map (λ r, if str_eqb (r_id r) ruleId then patch r else r) (d_rules draft)) draft.

Definition remove_rule (ruleId : jsstr) (draft : PruneObjectsDraft) : PruneObjectsDraft :=
  set_rules (List.filter (λ r, negb (str_eqb (r_id r) ruleId)) (d_rules draft)) draft.

Definition addPruneRule (operationId : jsstr) : Dialog → gen Dialog :=
  updatePruneObjectsDraft operationId add_rule.

Definition updatePruneRule (operationId ruleId : jsstr) (patch : PruneRule → PruneRule) : Dialog → gen Dialog :=
  updatePruneObjectsDraft operationId (λ draft, mret (update_rule ruleId patch draft)).

Definition removePruneRule (operationId ruleId : jsstr) : Dialog → gen Dialog :=
  updatePruneObjectsDraft operationId (λ draft, mret (remove_rule ruleId draft)).

(** *** Drag and drop *)

Definition resetDragState (d : Dialog) : Dialog := setDrag no_drag d.

Definition handleDragStart (operationId : jsstr) (d : Dialog) : Dialog :=
  setSelectedOperationId operationId
    (setDrag {| draggedOperationId := operationId; dragOverOperationId := dragOverOperationId (dl_drag d);
                dragOverPosition := dragOverPosition (dl_drag d) |} d).

(** [position] is computed from the place of the pointer. *)
Definition handleDragOver (operationId : jsstr) (position : DropPosition) (d : Dialog) : Dialog :=
  let dragged := draggedOperationId (dl_drag d) in
  if negb (nonempty dragged) || str_eqb dragged operationId then d
  else setDrag {| draggedOperationId := dragged; dragOverOperationId := operationId;
                  dragOverPosition := position |} d.

(** [data] is what the event carries. *)
Definition handleDrop (data operationId : jsstr) (d : Dialog) : Dialog :=
  let sourceId := text_or (draggedOperationId (dl_drag d)) data in
  let position := if str_eqb (dragOverOperationId (dl_drag d)) operationId
                  then dragOverPosition (dl_drag d) else Before in
  resetDragState
    (if nonempty sourceId && nonempty operationId && negb (str_eqb sourceId operationId)
     then setSelectedOperationId sourceId
            (setOperations (reorderOperations (dl_operations d) sourceId operationId position) d)
     else d).

(** *** Modes, templates and saving *)

Definition buildVisualJson (s : EditorState) : jsstr + Problem :=
  match es_visualMode s with
  | VisualLegacy =>
      let trimmed := trim (es_legacyValue s) in
      if negb (nonempty trimmed) then inl []
      else
        match JSON_parse trimmed with
        | None => inr NotJson
        | Some (JObj kvs) => inl (JSON_stringify_2 (JObj kvs))
        | Some _ => inr LegacyNotAnObject
        end
  | VisualOperations => buildOperationsJson (es_operations s) true
  end.

Definition json_state (text : jsstr) (error : option Problem) (s : EditorState) : EditorState :=
  {| es_editMode := EditJson; es_visualMode := es_visualMode s; es_legacyValue := es_legacyValue s;
     es_operations := es_operations s; es_jsonText := text; es_jsonError := error |}.

Definition switchToJsonMode (d : Dialog) : Dialog :=
  let s := dl_state d in
  match es_editMode s with
  | EditJson => d
  | EditVisual =>
      match buildVisualJson s with
      | inl text => with_state (json_state text None s) d
      | inr problem =>
          let text := match es_visualMode s with
                      | VisualLegacy => es_legacyValue s
                      | VisualOperations =>
                          match buildOperationsJson (es_operations s) false with inl t => t | inr _ => [] end
                      end in
          with_state (json_state text (Some problem) s) d
      end
  end.

Definition visual_state (visualMode : VisualMode) (legacyValue : jsstr)
    (operations : list ParamOverrideOperation) (jsonText : jsstr) : EditorState :=
  {| es_editMode := EditVisual; es_visualMode := visualMode; es_legacyValue := legacyValue;
     es_operations := operations; es_jsonText := jsonText; es_jsonError := None |}.

Definition switchToVisualMode (d : Dialog) : gen Dialog :=
  let s := dl_state d in
  match es_editMode s with
  | EditVisual => mret d
  | EditJson =>
      let trimmed := trim (es_jsonText s) in
      if negb (nonempty trimmed) then
        fallback ← createDefaultOperation;
        mret (setSelectedOperationId (o_id fallback)
                (with_state (visual_state VisualOperations [] [fallback] (es_jsonText s)) d))
      else
        match JSON_parse trimmed with
        | Some (JObj kvs) =>
            match obj_get "operations" kvs with
            | Some (JArr l) =>
                nextOps ← read_operations l;
                mret (setTemplatePresetKey "operations_default"
                        (setSelectedOperationId (first_id nextOps)
                           (with_state (visual_state VisualOperations [] nextOps (es_jsonText s)) d)))
            | _ =>
                fallback ← createDefaultOperation;
                mret (setTemplatePresetKey "legacy_default"
                        (setSelectedOperationId (o_id fallback)
                           (with_state (visual_state VisualLegacy (JSON_stringify_2 (JObj kvs)) [fallback]
                                          (es_jsonText s)) d)))
            end
        | _ => mret d
        end
  end.

Definition resetEditorState (d : Dialog) : gen Dialog :=
  fallback ← createDefaultOperation;
  mret (setTemplatePresetKey "operations_default"
          (setSelectedOperationId (o_id fallback)
             (with_state (visual_state VisualOperations [] [fallback] []) d))).

Definition set_json_text (text : jsstr) (error : option Problem) (d : Dialog) : Dialog :=
  let s := dl_state d in
  with_state {| es_editMode := es_editMode s; es_visualMode := es_visualMode s;
                es_legacyValue := es_legacyValue s; es_operations := es_operations s;
                es_jsonText := text; es_jsonError := error |} d.

Definition handleJsonChange (nextValue : jsstr) (d : Dialog) : Dialog :=
  let trimmed := trim nextValue in
  set_json_text nextValue (if negb (nonempty trimmed) || verifyJSON trimmed then None else Some NotJson) d.

Definition formatJson (d : Dialog) : Dialog :=
  let trimmed := trim (es_jsonText (dl_state d)) in
  if negb (nonempty trimmed) then d
  else match JSON_parse trimmed with
       | None => d
       | Some v => set_json_text (JSON_stringify_2 v) None d
       end.

Definition visualValidationError (d : Dialog) : option Problem :=
  match es_editMode (dl_state d) with
  | EditJson => None
  | EditVisual => match buildVisualJson (dl_state d) with inl _ => None | inr p => Some p end
  end.

Definition setLegacyValue (text : jsstr) (d : Dialog) : Dialog :=
  let s := dl_state d in
  with_state {| es_editMode := es_editMode s; es_visualMode := es_visualMode s; es_legacyValue := text;
                es_operations := es_operations s; es_jsonText := es_jsonText s;
                es_jsonError := es_jsonError s |} d.

(** The text given to [onSave], or the message shown instead. *)
Definition handleSave (s : EditorState) : jsstr + Problem :=
  match es_editMode s with
  | EditJson =>
      let trimmed := trim (es_jsonText s) in
      if negb (nonempty trimmed) then inl []
      else match JSON_parse trimmed with
           | None => inr NotJson
           | Some v => inl (JSON_stringify_2 v)
           end
  | EditVisual => buildVisualJson s
  end.

Definition set_expanded (open : bool) (d : Dialog) : Dialog :=
  match selectedOperation d with
  | None => d
  | Some op =>
      setExpandedConditions
        (fold_left (λ m c, <[c_id c := open]> m) (o_conditions op) (dl_expandedConditions d)) d
  end.
Definition expandAllConditions : Dialog → Dialog := set_expanded true.
Definition collapseAllConditions : Dialog → Dialog := set_expanded false.

(** *** Templates *)

Inductive TemplateKind := KindOperations | KindLegacy.

Record TemplatePresetConfig : Type := {
  tp_label : jsstr;
  tp_kind : TemplateKind;
  tp_payload : list (jsstr * json)
}.

Definition LEGACY_TEMPLATE : list (jsstr * json) :=
  [("temperature", JNum zero); ("max_tokens", JNum (num_of_Z 1000))].

Definition condition_value (path mode value : jsstr) : json :=
  JObj [("path", JStr path); ("mode", JStr mode); ("value", JStr value)].

Definition OPERATION_TEMPLATE : list (jsstr * json) :=
  [("operations", JArr [JObj [
     ("description", JStr "Set default temperature for openai/* models.");
     ("path", JStr "temperature"); ("mode", JStr "set"); ("value", JNum (num_of_decimal false 7 (-1)));
     ("conditions", JArr [condition_value "model" "prefix" "openai/"]);
     ("logic", JStr "AND")]])].

Definition HEADER_PASSTHROUGH_TEMPLATE : list (jsstr * json) :=
  [("operations", JArr [JObj [
     ("description", JStr "Pass through X-Request-Id header to upstream.");
     ("mode", JStr "pass_headers"); ("value", JArr [JStr "X-Request-Id"]); ("keep_origin", JBool true)]])].

Definition GEMINI_IMAGE_4K_TEMPLATE : list (jsstr * json) :=
  [("operations", JArr [JObj [
     ("description", JStr "Set imageSize to 4K when model contains gemini/image and ends with 4k.");
     ("mode", JStr "set"); ("path", JStr "generationConfig.imageConfig.imageSize"); ("value", JStr "4K");
     ("conditions", JArr [condition_value "original_model" "contains" "gemini";
                          condition_value "original_model" "contains" "image";
                          condition_value "original_model" "suffix" "4k"]);
     ("logic", JStr "AND")]])].

Definition CODEX_CLI_HEADER_PASSTHROUGH_HEADERS : list jsstr :=
  ["Originator"; "Session_id"; "User-Agent"; "X-Codex-Beta-Features"; "X-Codex-Turn-Metadata"].

Definition CLAUDE_CLI_HEADER_PASSTHROUGH_HEADERS : list jsstr :=
  ["X-Stainless-Arch"; "X-Stainless-Lang"; "X-Stainless-Os"; "X-Stainless-Package-Version";
   "X-Stainless-Retry-Count"; "X-Stainless-Runtime"; "X-Stainless-Runtime-Version"; "X-Stainless-Timeout";
   "User-Agent"; "X-App"; "Anthropic-Beta"; "Anthropic-Dangerous-Direct-Browser-Access";
   "Anthropic-Version"].

Definition buildPassHeadersTemplate (headers : list jsstr) : list (jsstr * json) :=
  [("operations", JArr [JObj [("mode", JStr "pass_headers"); ("value", JArr (map JStr headers));
                              ("keep_origin", JBool true)]])].

Definition AWS_BEDROCK_ANTHROPIC_COMPAT_TEMPLATE : list (jsstr * json) :=
  [("operations", JArr [
     JObj [("description", JStr "Normalize anthropic-beta header tokens for Bedrock compatibility.");
           ("mode", JStr "set_header"); ("path", JStr "anthropic-beta");
           ("value", JObj [
              ("advanced-tool-use-2025-11-20", JStr "tool-search-tool-2025-10-19");
              ("bash_20241022", JNull); ("bash_20250124", JNull); ("code-execution-2025-08-25", JNull);
              ("compact-2026-01-12", JStr "compact-2026-01-12");
              ("computer-use-2025-01-24", JStr "computer-use-2025-01-24");
              ("computer-use-2025-11-24", JStr "computer-use-2025-11-24");
              ("context-1m-2025-08-07", JStr "context-1m-2025-08-07");
              ("context-management-2025-06-27", JStr "context-management-2025-06-27");
              ("effort-2025-11-24", JNull); ("fast-mode-2026-02-01", JNull); ("files-api-2025-04-14", JNull);
              ("fine-grained-tool-streaming-2025-05-14", JNull);
              ("interleaved-thinking-2025-05-14", JStr "interleaved-thinking-2025-05-14");
              ("mcp-client-2025-11-20", JNull); ("mcp-client-2025-04-04", JNull);
              ("mcp-servers-2025-12-04", JNull); ("output-128k-2025-02-19", JNull);
              ("structured-output-2024-03-01", JNull); ("prompt-caching-scope-2026-01-05", JNull);
              ("skills-2025-10-02", JNull); ("structured-outputs-2025-11-13", JNull);
              ("text_editor_20241022", JNull); ("text_editor_20250124", JNull);
              ("token-efficient-tools-2025-02-19", JNull);
              ("tool-search-tool-2025-10-19", JStr "tool-search-tool-2025-10-19");
              ("web-fetch-2025-09-10", JNull); ("web-search-2025-03-05", JNull); ("oauth-2025-04-20", JNull)])];
     JObj [("description", JStr "Remove all tools[*].custom.input_examples before upstream relay.");
           ("mode", JStr "delete"); ("path", JStr "tools.*.custom.input_examples")]])].

Definition default_template : TemplatePresetConfig :=
  {| tp_label := "New Format Template"; tp_kind := KindOperations; tp_payload := OPERATION_TEMPLATE |}.

Definition TEMPLATE_PRESET_CONFIG : list (jsstr * TemplatePresetConfig) := [
  ("operations_default", default_template);
  ("legacy_default",
    {| tp_label := "Legacy Format Template"; tp_kind := KindLegacy; tp_payload := LEGACY_TEMPLATE |});
  ("pass_headers_auth",
    {| tp_label := "Header Passthrough (X-Request-Id)"; tp_kind := KindOperations;
       tp_payload := HEADER_PASSTHROUGH_TEMPLATE |});
  ("gemini_image_4k",
    {| tp_label := "Gemini Image 4K"; tp_kind := KindOperations; tp_payload := GEMINI_IMAGE_4K_TEMPLATE |});
  ("claude_cli_headers_passthrough",
    {| tp_label := "Claude CLI Header Passthrough"; tp_kind := KindOperations;
       tp_payload := buildPassHeadersTemplate CLAUDE_CLI_HEADER_PASSTHROUGH_HEADERS |});
  ("codex_cli_headers_passthrough",
    {| tp_label := "Codex CLI Header Passthrough"; tp_kind := KindOperations;
       tp_payload := buildPassHeadersTemplate CODEX_CLI_HEADER_PASSTHROUGH_HEADERS |});
  ("aws_bedrock_anthropic_beta_override",
    {| tp_label := "AWS Bedrock Claude Compat"; tp_kind := KindOperations;
       tp_payload := AWS_BEDROCK_ANTHROPIC_COMPAT_TEMPLATE |})].

(** The own properties of [...value], in the order they are enumerated. *)
Definition spread_props (v : json) : list (jsstr * json) :=
  let indexed l := imap (λ i x, (to_dec (N.of_nat i), x)) l in
  match v with
  | JObj kvs => entries kvs
  | JArr l => indexed l
  | JStr s => indexed (map (λ c, JStr [c]) s)
  | _ => []
  end.

Inductive FillMode := Fill | Append.

(** The JSON value of a text that may be blank; [None] for a text that is not JSON. *)
Definition legacy_current (legacyValue : jsstr) : option json :=
  let trimmed := trim legacyValue in
  if negb (nonempty trimmed) then Some (JObj []) else JSON_parse trimmed.

Definition legacy_filled (payload : list (jsstr * json)) (d : Dialog) : gen Dialog :=
  let text := JSON_stringify_2 (JObj payload) in
  op ← createDefaultOperation;
  mret (with_state (visual_state VisualLegacy text [op] text) d).

Definition fillTemplate (mode : FillMode) (d : Dialog) : gen Dialog :=
  let s := dl_state d in
  let preset := default default_template (assoc_get (dl_templatePresetKey d) TEMPLATE_PRESET_CONFIG) in
  let payload := tp_payload preset in
  match tp_kind preset with
  | KindLegacy =>
      match mode, es_visualMode s with
      | Append, VisualLegacy =>
          match legacy_current (es_legacyValue s) with
          | None => mret d
          | Some parsedCurrent =>
              legacy_filled
                (fold_left (λ o '(k, v), obj_set k v o) (spread_props parsedCurrent)
                   (fold_left (λ o '(k, v), obj_set k v o) (spread_props (JObj payload)) [])) d
          end
      | _, _ => legacy_filled payload d
      end
  | KindOperations =>
      let operationsPayload := match obj_get "operations" payload with Some (JArr l) => l | _ => [] end in
      match mode with
      | Append =>
          appended ← mapM normalizeOperation operationsPayload;
          let existing := match es_visualMode s with
                          | VisualOperations => kept_operations (es_operations s)
                          | VisualLegacy => []
                          end in
          let nextOps := existing ++ appended in
          mret (setSelectedOperationId (first_id nextOps)
                  (with_state (visual_state VisualOperations [] nextOps []) d))
      | Fill =>
          finalOps ← read_operations operationsPayload;
          mret (setSelectedOperationId (first_id finalOps)
                  (with_state (visual_state VisualOperations (es_legacyValue s) finalOps
                     (JSON_stringify_2 (JObj [("operations", JArr operationsPayload)]))) d))
      end
  end.

(** ** The inputs of the rule editors *)

(** [parseInt(text, 10)]. *)
Definition parseInt_10 (text : jsstr) : number :=
  let s := trimStart text in
  let '(neg, digits) := match s with
                        | c :: t => if (c =? 45)%N then (true, t) else if (c =? 43)%N then (false, t) else (false, s)
                        | [] => (false, [])
                        end in
  match span_digits digits with
  | ([], _) => NaN
  | (ds, _) => num_of_decimal neg (dec_value ds) 0
  end.

(** The changes [RuleEditor] and [SyncFieldsEditor] make to an operation. *)
Inductive OperationEdit : Type :=
| SetMode (mode : jsstr)
| SetPath (s : jsstr)
| SetDescription (s : jsstr)
| SetValueText (s : jsstr)
| FormatValue
| SetKeepOrigin (checked : bool)
| SetFrom (s : jsstr)
| SetTo (s : jsstr)
| SetLogic (logic : jsstr)
| SyncFromType (type : SyncType)
| SyncFromKey (key : jsstr)
| SyncToType (type : SyncType)
| SyncToKey (key : jsstr)
| SyncPreset (from to : jsstr).

Definition set_texts (description path mode from to : jsstr) (op : ParamOverrideOperation)
    : ParamOverrideOperation :=
  {| o_id := o_id op; o_description := description; o_path := path; o_mode := mode; o_from := from;
     o_to := to; o_value_text := o_value_text op; o_keep_origin := o_keep_origin op;
     o_logic := o_logic op; o_conditions := o_conditions op |}.

Definition set_flags (keep_origin : bool) (logic : jsstr) (op : ParamOverrideOperation)
    : ParamOverrideOperation :=
  {| o_id := o_id op; o_description := o_description op; o_path := o_path op; o_mode := o_mode op;
     o_from := o_from op; o_to := o_to op; o_value_text := o_value_text op; o_keep_origin := keep_origin;
     o_logic := logic; o_conditions := o_conditions op |}.

Definition set_o_from (s : jsstr) (op : ParamOverrideOperation) : ParamOverrideOperation :=
  set_texts (o_description op) (o_path op) (o_mode op) s (o_to op) op.
Definition set_o_to (s : jsstr) (op : ParamOverrideOperation) : ParamOverrideOperation :=
  set_texts (o_description op) (o_path op) (o_mode op) (o_from op) s op.

Definition operation_edit (e : OperationEdit) (op : ParamOverrideOperation) : ParamOverrideOperation :=
  match e with
  | SetMode s => set_texts (o_description op) (o_path op) s (o_from op) (o_to op) op
  | SetPath s => set_texts (o_description op) s (o_mode op) (o_from op) (o_to op) op
  | SetDescription s => set_texts s (o_path op) (o_mode op) (o_from op) (o_to op) op
  | SetValueText s => set_o_value_text s op
  | FormatValue =>
      match JSON_parse (o_value_text op) with
      | Some v => set_o_value_text (JSON_stringify_2 v) op
      | None => op
      end
  | SetKeepOrigin b => set_flags b (o_logic op) op
  | SetFrom s => set_o_from s op
  | SetTo s => set_o_to s op
  | SetLogic s => set_flags (o_keep_origin op) s op
  | SyncFromType t => set_o_from (buildSyncTargetSpec t (parseSyncTargetSpec (o_from op)).2) op
  | SyncFromKey k => set_o_from (buildSyncTargetSpec (parseSyncTargetSpec (o_from op)).1 k) op
  | SyncToType t => set_o_to (buildSyncTargetSpec t (parseSyncTargetSpec (o_to op)).2) op
  | SyncToKey k => set_o_to (buildSyncTargetSpec (parseSyncTargetSpec (o_to op)).1 k) op
  | SyncPreset f t => set_o_to t (set_o_from f op)
  end.

Inductive ConditionEdit : Type :=
| CondPath (s : jsstr)
| CondMode (s : jsstr)
| CondText (s : jsstr)
| CondInvert (b : bool)
| CondPassMissing (b : bool).

Definition condition_edit (e : ConditionEdit) (c : ParamOverrideCondition) : ParamOverrideCondition :=
  let set path mode value invert pass :=
    {| c_id := c_id c; c_path := path; c_mode := mode; c_value_text := value; c_invert := invert;
       c_pass_missing_key := pass |} in
  match e with
  | CondPath s => set s (c_mode c) (c_value_text c) (c_invert c) (c_pass_missing_key c)
  | CondMode s => set (c_path c) s (c_value_text c) (c_invert c) (c_pass_missing_key c)
  | CondText s => set (c_path c) (c_mode c) s (c_invert c) (c_pass_missing_key c)
  | CondInvert b => set (c_path c) (c_mode c) (c_value_text c) b (c_pass_missing_key c)
  | CondPassMissing b => set (c_path c) (c_mode c) (c_value_text c) (c_invert c) b
  end.

(** The same five inputs of a pruning rule. *)
Definition rule_edit (e : ConditionEdit) (r : PruneRule) : PruneRule :=
  let set path mode value invert pass :=
    {| r_id := r_id r; r_path := path; r_mode := mode; r_value_text := value; r_invert := invert;
       r_pass_missing_key := pass |} in
  match e with
  | CondPath s => set s (r_mode r) (r_value_text r) (r_invert r) (r_pass_missing_key r)
  | CondMode s => set (r_path r) s (r_value_text r) (r_invert r) (r_pass_missing_key r)
  | CondText s => set (r_path r) (r_mode r) s (r_invert r) (r_pass_missing_key r)
  | CondInvert b => set (r_path r) (r_mode r) (r_value_text r) b (r_pass_missing_key r)
  | CondPassMissing b => set (r_path r) (r_mode r) (r_value_text r) (r_invert r) b
  end.

(** The changes [ReturnErrorEditor] makes to a draft. *)
Inductive ErrorEdit : Type :=
| ErrSimple (b : bool)
| ErrMessage (s : jsstr)
| ErrStatus (text : jsstr)
| ErrCode (s : jsstr)
| ErrType (s : jsstr)
| ErrSkipRetry (b : bool)
| ErrPreset (status : Z) (code type : jsstr).

Definition error_edit (e : ErrorEdit) (d : ReturnErrorDraft) : ReturnErrorDraft :=
  let set message status code type skip simple :=
    {| e_message := message; e_statusCode := status; e_code := code; e_type := type;
       e_skipRetry := skip; e_simpleMode := simple |} in
  match e with
  | ErrSimple b => set (e_message d) (e_statusCode d) (e_code d) (e_type d) (e_skipRetry d) b
  | ErrMessage s => set s (e_statusCode d) (e_code d) (e_type d) (e_skipRetry d) (e_simpleMode d)
  | ErrStatus t => set (e_message d) (num_or (parseInt_10 t) (num_of_Z 400)) (e_code d) (e_type d)
                     (e_skipRetry d) (e_simpleMode d)
  | ErrCode s => set (e_message d) (e_statusCode d) s (e_type d) (e_skipRetry d) (e_simpleMode d)
  | ErrType s => set (e_message d) (e_statusCode d) (e_code d) s (e_skipRetry d) (e_simpleMode d)
  | ErrSkipRetry b => set (e_message d) (e_statusCode d) (e_code d) (e_type d) b (e_simpleMode d)
  | ErrPreset n c t => set (e_message d) (num_of_Z n) c t (e_skipRetry d) (e_simpleMode d)
  end.

(** The changes [PruneObjectsEditor] makes to a draft, beside its rules. *)
Inductive PruneEdit : Type :=
| PruneSimple (b : bool)
| PruneType (s : jsstr)
| PruneLogic (s : jsstr)
| PruneRecursive (b : bool).

Definition prune_edit (e : PruneEdit) (d : PruneObjectsDraft) : PruneObjectsDraft :=
  let set simple type logic rec :=
    {| d_simpleMode := simple; d_typeText := type; d_logic := logic; d_recursive := rec;
       d_rules := d_rules d |} in
  match e with
  | PruneSimple b => set b (d_typeText d) (d_logic d) (d_recursive d)
  | PruneType s => set (d_simpleMode d) s (d_logic d) (d_recursive d)
  | PruneLogic s => set (d_simpleMode d) (d_typeText d) (text_or s "AND") (d_recursive d)
  | PruneRecursive b => set (d_simpleMode d) (d_typeText d) (d_logic d) b
  end.

(** ** Events *)

Inductive DialogEvent : Type :=
| EvOpen (value : jsstr)
| EvRender
| EvSearch (s : jsstr)
| EvSelect (id : jsstr)
| EvUpdate (id : jsstr) (e : OperationEdit)
| EvAdd
| EvDuplicate (eager : bool) (id : jsstr)
| EvRemove (id : jsstr)
| EvAddCondition (id : jsstr)
| EvUpdateCondition (id cid : jsstr) (e : ConditionEdit)
| EvRemoveCondition (id cid : jsstr)
| EvExpandAll (open : bool)
| EvError (id : jsstr) (e : ErrorEdit)
| EvPrune (id : jsstr) (e : PruneEdit)
| EvAddRule (id : jsstr)
| EvUpdateRule (id rid : jsstr) (e : ConditionEdit)
| EvRemoveRule (id rid : jsstr)
| EvDragStart (id : jsstr)
| EvDragOver (id : jsstr) (position : DropPosition)
| EvDrop (data id : jsstr)
| EvDragEnd
| EvToJson
| EvToVisual
| EvTemplate (key : jsstr)
| EvFill (mode : FillMode)
| EvReset
| EvLegacy (text : jsstr)
| EvJson (text : jsstr)
| EvFormat.

Definition dialog_event (e : DialogEvent) (d : Dialog) : gen Dialog :=
  match e with
  | EvOpen value => open_dialog value
  | EvRender => _ ← pruneObjectsDraft d; mret d
  | EvSearch s => mret (setOperationSearch s d)
  | EvSelect id => mret (setSelectedOperationId id d)
  | EvUpdate id e => mret (updateOperation id (operation_edit e) d)
  | EvAdd => addOperation d
  | EvDuplicate eager id => duplicateOperation eager id d
  | EvRemove id => removeOperation id d
  | EvAddCondition id => addCondition id d
  | EvUpdateCondition id cid e => mret (updateCondition id cid (condition_edit e) d)
  | EvRemoveCondition id cid => mret (removeCondition id cid d)
  | EvExpandAll open => mret (if open then expandAllConditions d else collapseAllConditions d)
  | EvError id e => mret (updateReturnErrorDraft id (error_edit e) d)
  | EvPrune id e => updatePruneObjectsDraft id (λ draft, mret (prune_edit e draft)) d
  | EvAddRule id => addPruneRule id d
  | EvUpdateRule id rid e => updatePruneRule id rid (rule_edit e) d
  | EvRemoveRule id rid => removePruneRule id rid d
  | EvDragStart id => mret (handleDragStart id d)
  | EvDragOver id position => mret (handleDragOver id position d)
  | EvDrop data id => mret (handleDrop data id d)
  | EvDragEnd => mret (resetDragState d)
  | EvToJson => mret (switchToJsonMode d)
  | EvToVisual => switchToVisualMode d
  | EvTemplate key => mret (setTemplatePresetKey (text_or key "operations_default") d)
  | EvFill mode => fillTemplate mode d
  | EvReset => resetEditorState d
  | EvLegacy text => mret (setLegacyValue text d)
  | EvJson text => mret (handleJsonChange text d)
  | EvFormat => mret (formatJson d)
  end.

(** One event and the effect after it; an event whose handler throws leaves the
    state as it was. *)
Definition dialog_step (e : DialogEvent) (dn : Dialog * N) : Dialog * N :=
  match dialog_event e dn.1 dn.2 with
  | (Ok d', n') => (keep_selection d', n')
  | (Throw, n') => (dn.1, n')
  end.

Definition dialog_run (es : list DialogEvent) (dn : Dialog * N) : Dialog * N :=
  fold_left (λ dn e, dialog_step e dn) es dn.
End dialog.
