(* ===== verification/ParamRoundtrip.v ===== *)
(** * Reading back parameter overrides

    A saved list of operations opens as the same operations, up to identifiers,
    surrounding white space and fields their modes do not use, and is saved as the
    same text again; where values change their type instead; and the drafts of the
    values of two modes. *)
From Stdlib Require Import NArith ZArith.
From stdpp Require Import list numbers.
From S2P Require Import Prelude JsString JsNumber Json JsArray JsonRoundtrip JsonIndent BillingExpr ChannelForm ParamOverride ParamDialog.

(** ** Values and their texts *)

(** A text that is not a quoted string, and whose value a JSON text gives back. *)
Definition value_ok (text : jsstr) : bool :=
  match JSON_parse (trim text) with
  | Some (JStr _) => false
  | Some v => wf_json v
  | None => units_ok (trim text)
  end.

(** The text the value is shown with after it was saved. *)
Definition value_again (text : jsstr) : jsstr := toValueText (Some (parseLooseValue text)).

Lemma parse_blank text : trim text = [] → parseLooseValue text = JStr [].
Proof. unfold parseLooseValue. by intros ->. Qed.

Lemma JSON_parse_nil : JSON_parse [] = None.
Proof. reflexivity. Qed.

Lemma loose_cases text :
  value_ok text = true →
  (JSON_parse (trim text) = None ∧ parseLooseValue text = JStr (trim text) ∧ value_again text = trim text
   ∧ units_ok (trim text) = true)
  ∨ (∃ v, JSON_parse (trim text) = Some v ∧ parseLooseValue text = v ∧ value_again text = JSON_stringify v
     ∧ wf_json v = true ∧ nonempty (trim text) = true).
Proof.
  unfold value_ok, value_again, parseLooseValue. destruct (trim text) as [|c s] eqn:E.
  - rewrite JSON_parse_nil. left. by split_and!.
  - cbn [nonempty negb]. destruct (JSON_parse (c :: s)) as [v|] eqn:Ep; [|left; by split_and!].
    intros H. right. exists v. destruct v; split_and!; done.
Qed.

(** Reading the text again gives the same value. *)
Lemma value_again_spec text :
  value_ok text = true →
  trim (value_again text) = value_again text
  ∧ parseLooseValue (value_again text) = parseLooseValue text
  ∧ JSON_parse (value_again text) = JSON_parse (trim text)
  ∧ nonempty (value_again text) = nonempty (trim text)
  ∧ wf_json (parseLooseValue text) = true.
Proof.
  intros [(E & -> & -> & Hu)|(v & E & -> & -> & Hw & Hn)]%loose_cases.
  - rewrite trim_idem. split_and!; try done. unfold parseLooseValue. rewrite trim_idem, E.
    by destruct (trim text).
  - rewrite (trim_trimmed _ (json_text_trimmed v Hw)).
    assert (Hs : nonempty (JSON_stringify v) = true).
    { pose proof (stringify_length v Hw). destruct (JSON_stringify v); [cbn in *; lia|done]. }
    split_and!; try done.
    + unfold parseLooseValue. by rewrite (trim_trimmed _ (json_text_trimmed v Hw)), Hs, JSON_parse_stringify.
    + by rewrite JSON_parse_stringify, E.
    + congruence.
Qed.

(** ** Fields *)

Lemma get_set_if k c k' v kvs :
  obj_get k (set_if c k' v kvs) = if c && str_eqb k k' then Some v else obj_get k kvs.
Proof. destruct c; cbn [set_if andb]; [apply obj_get_set|done]. Qed.

Lemma wf_set_if c k v kvs :
  units_ok k = true → no_index k = true → (c = true → wf_json v = true) → wf_fields kvs = true →
  wf_fields (set_if c k v kvs) = true.
Proof. intros. destruct c; [apply wf_fields_set; auto|done]. Qed.

Lemma units_trim s : units_ok s = true → units_ok (trim s) = true.
Proof.
  intros H. destruct (trim_decompose s) as (a & b & E & _). rewrite E in H.
  unfold units_ok in *. rewrite !forallb_app in H. by bool_prop.
Qed.

(** The texts of the constants used as keys. *)
Ltac key := vm_compute; reflexivity.

(** ** Conditions *)

Definition erase_condition (c : ParamOverrideCondition) : ParamOverrideCondition :=
  {| c_id := []; c_path := c_path c; c_mode := c_mode c; c_value_text := c_value_text c;
     c_invert := c_invert c; c_pass_missing_key := c_pass_missing_key c |}.

(** The condition a saved condition opens as, without its identifier. *)
Definition condition_again (c : ParamOverrideCondition) : ParamOverrideCondition :=
  {| c_id := []; c_path := trim (c_path c); c_mode := text_or (c_mode c) "full";
     c_value_text := value_again (c_value_text c); c_invert := c_invert c;
     c_pass_missing_key := c_pass_missing_key c |}.

Definition has_path (c : ParamOverrideCondition) : bool := nonempty (trim (c_path c)).

Definition condition_ok (c : ParamOverrideCondition) : bool :=
  units_ok (c_path c) && str_mem (text_or (c_mode c) "full") CONDITION_MODE_VALUES
  && value_ok (c_value_text c).

Lemma build_condition c : buildConditionPayload c = buildConditionPayload (erase_condition c).
Proof. done. Qed.

Lemma build_condition_none c : has_path c = false → buildConditionPayload c = None.
Proof. unfold has_path, buildConditionPayload. by intros ->. Qed.

Lemma mode_units s modes : str_mem s modes = true → forallb units_ok modes = true → units_ok s = true.
Proof. intros Hs%str_mem_true H. rewrite forallb_forall in H. by apply H, list_elem_of_In. Qed.

Lemma text_or_again a b : text_or (text_or a b) b = text_or a b.
Proof. destruct a; [by destruct b|done]. Qed.

Lemma build_condition_again c :
  condition_ok c = true → buildConditionPayload (condition_again c) = buildConditionPayload c.
Proof.
  intros Hc. apply andb_prop in Hc as [_ Hv]. unfold buildConditionPayload.
  cbn [condition_again c_path c_mode c_value_text c_invert c_pass_missing_key].
  by rewrite trim_idem, text_or_again, (proj1 (proj2 (value_again_spec _ Hv))).
Qed.

(** ** Operations *)

Definition erase_operation (op : ParamOverrideOperation) : ParamOverrideOperation :=
  {| o_id := []; o_description := o_description op; o_path := o_path op; o_mode := o_mode op;
     o_from := o_from op; o_to := o_to op; o_value_text := o_value_text op;
     o_keep_origin := o_keep_origin op; o_logic := o_logic op;
     o_conditions := map erase_condition (o_conditions op) |}.

Definition op_meta (op : ParamOverrideOperation) : Meta := meta_of_mode (mode_of op).

Definition alias_or (op : ParamOverrideOperation) (s : jsstr) : jsstr :=
  if m_pathAlias (op_meta op) then text_or (trim s) (trim (o_path op)) else trim s.

Definition path_conditions (op : ParamOverrideOperation) : list ParamOverrideCondition :=
  List.filter has_path (o_conditions op).

(** The operation a saved operation opens as, without identifiers. *)
Definition operation_again (op : ParamOverrideOperation) : ParamOverrideOperation :=
  let m := op_meta op in
  {| o_id := []; o_description := trim (o_description op);
     o_path := if m_path m || m_pathOptional m then trim (o_path op) else [];
     o_mode := mode_of op;
     o_from := if m_from m then alias_or op (o_from op) else [];
     o_to := alias_or op (o_to op);
     o_value_text := if m_value m then value_again (o_value_text op) else [];
     o_keep_origin := m_keepOrigin m && o_keep_origin op;
     o_logic := if nonempty (path_conditions op) && str_eqb (o_logic op) "AND" then "AND" else "OR";
     o_conditions := map condition_again (path_conditions op) |}.

Definition operation_ok (op : ParamOverrideOperation) : bool :=
  str_mem (mode_of op) OPERATION_MODE_VALUES
  && forallb units_ok [o_description op; o_path op; o_from op; o_to op]
  && (negb (m_value (op_meta op)) || value_ok (o_value_text op))
  && forallb condition_ok (path_conditions op).

(** How the table of modes and the sets of required fields fit together. *)
Definition meta_ok (mode : jsstr) : bool :=
  let m := meta_of_mode mode in
  units_ok mode && nonempty mode
  && (negb (m_pathAlias m) || negb (m_path m) && negb (m_pathOptional m) && m_from m && has_to m)
  && (negb (m_path m) || negb (m_pathOptional m))
  && (negb (str_mem mode FROM_REQUIRED_MODES) || m_from m)
  && (negb (str_mem mode VALUE_REQUIRED_MODES) || m_value m)
  && (negb (str_eqb mode "set") || m_path m).

Lemma modes_ok : forallb meta_ok OPERATION_MODE_VALUES = true.
Proof. vm_compute. reflexivity. Qed.

Lemma mode_meta_ok mode : str_mem mode OPERATION_MODE_VALUES = true → meta_ok mode = true.
Proof. intros Hm%str_mem_true. pose proof modes_ok as H. rewrite forallb_forall in H. by apply H, list_elem_of_In. Qed.

(** *** The fields of a payload *)

Lemma omap_path op :
  nonempty (omap buildConditionPayload (o_conditions op)) = nonempty (path_conditions op).
Proof.
  unfold path_conditions. induction (o_conditions op) as [|c cs IH]; [done|]. cbn [omap list_omap List.filter].
  unfold buildConditionPayload at 1, has_path at 1. by destruct (nonempty (trim (c_path c))).
Qed.

(** Look a constant key up in the fields. *)
Ltac look :=
  rewrite ?obj_get_set, ?get_set_if;
  cbn -[trim nonempty parseLooseValue mode_of meta_of_mode text_or m_path m_pathOptional m_value m_from m_to
        m_keepOrigin m_pathAlias path_conditions omap list_omap negb andb];
  rewrite ?andb_false_r, ?andb_true_r.

Ltac fields op :=
  unfold operation_fields; change (meta_of_mode (mode_of op)) with (op_meta op);
  rewrite omap_path; destruct (nonempty (path_conditions op)); destruct (m_pathAlias (op_meta op)); look.

Lemma get_mode op : obj_get "mode" (operation_fields op) = Some (JStr (mode_of op)).
Proof. fields op; reflexivity. Qed.

Lemma get_description op : prop_text "description" (operation_fields op) = trim (o_description op).
Proof.
  unfold prop_text. fields op; destruct (trim (o_description op)); reflexivity.
Qed.
Lemma get_path op :
  prop_text "path" (operation_fields op)
  = if m_path (op_meta op) || m_pathOptional (op_meta op) then trim (o_path op) else [].
Proof.
  unfold prop_text. fields op; destruct (m_path _), (m_pathOptional _), (trim (o_path op)); reflexivity.
Qed.

Lemma get_value op :
  obj_get "value" (operation_fields op)
  = if m_value (op_meta op) then Some (parseLooseValue (o_value_text op)) else None.
Proof. fields op; reflexivity. Qed.

Lemma get_keep_origin op :
  prop_is_true "keep_origin" (operation_fields op) = m_keepOrigin (op_meta op) && o_keep_origin op.
Proof. unfold prop_is_true. fields op; by destruct (_ && _). Qed.

Lemma get_conditions op :
  obj_get "conditions" (operation_fields op)
  = if nonempty (path_conditions op) then Some (JArr (omap buildConditionPayload (o_conditions op))) else None.
Proof. fields op; reflexivity. Qed.

Lemma get_logic op :
  prop_string_or "logic" "OR" (operation_fields op)
  = if nonempty (path_conditions op) && str_eqb (o_logic op) "AND" then "AND" else "OR".
Proof.
  unfold prop_string_or. fields op; destruct (str_eqb (o_logic op) "AND"); reflexivity.
Qed.

Lemma alias_meta op :
  meta_ok (mode_of op) = true → m_pathAlias (op_meta op) = true →
  m_path (op_meta op) = false ∧ m_pathOptional (op_meta op) = false ∧ m_from (op_meta op) = true
  ∧ has_to (op_meta op) = true.
Proof.
  unfold meta_ok. fold (op_meta op). intros H Ha. rewrite Ha in H. cbn [negb orb] in H.
  repeat match goal with H : _ && _ = true |- _ => apply andb_prop in H as [? ?] end.
  repeat match goal with H : negb _ = true |- _ => apply negb_true_iff in H end. done.
Qed.

Lemma get_from op :
  meta_ok (mode_of op) = true →
  prop_text "from" (operation_fields op) = if m_from (op_meta op) then alias_or op (o_from op) else [].
Proof.
  intros Hm. unfold prop_text, alias_or. destruct (m_pathAlias (op_meta op)) eqn:Ha.
  - destruct (alias_meta op Hm Ha) as (H1 & H2 & H3 & H4). unfold operation_fields.
    change (meta_of_mode (mode_of op)) with (op_meta op). rewrite Ha, omap_path. unfold prop_text.
    destruct (nonempty (path_conditions op)); look; rewrite H3;
      destruct (trim (o_from op)), (trim (o_path op)); reflexivity.
  - unfold operation_fields. change (meta_of_mode (mode_of op)) with (op_meta op). rewrite Ha, omap_path.
    destruct (nonempty (path_conditions op)); look; by destruct (m_from _).
Qed.

Lemma get_to op :
  meta_ok (mode_of op) = true → prop_text "to" (operation_fields op) = alias_or op (o_to op).
Proof.
  intros Hm. unfold prop_text, alias_or. destruct (m_pathAlias (op_meta op)) eqn:Ha.
  - destruct (alias_meta op Hm Ha) as (H1 & H2 & H3 & H4). unfold operation_fields.
    change (meta_of_mode (mode_of op)) with (op_meta op). rewrite Ha, omap_path. unfold prop_text.
    destruct (nonempty (path_conditions op)); look; rewrite H4;
      destruct (trim (o_to op)), (trim (o_path op)), (trim (o_from op)); reflexivity.
  - unfold operation_fields. change (meta_of_mode (mode_of op)) with (op_meta op). rewrite Ha, omap_path.
    destruct (nonempty (path_conditions op)); look; destruct (has_to _), (trim (o_to op)); reflexivity.
Qed.

Lemma operation_ok_spec op :
  operation_ok op = true →
  meta_ok (mode_of op) = true ∧ str_mem (mode_of op) OPERATION_MODE_VALUES = true
  ∧ units_ok (o_description op) = true ∧ units_ok (o_path op) = true
  ∧ units_ok (o_from op) = true ∧ units_ok (o_to op) = true
  ∧ (m_value (op_meta op) = true → value_ok (o_value_text op) = true)
  ∧ forallb condition_ok (path_conditions op) = true.
Proof.
  unfold operation_ok. cbn [forallb]. intros H.
  repeat match goal with H : _ && _ = true |- _ => apply andb_prop in H as [? ?] end.
  split_and!; try done; [by apply mode_meta_ok|]. intros Hv. rewrite Hv in *. done.
Qed.

Lemma mode_units_ok op : meta_ok (mode_of op) = true → units_ok (mode_of op) = true ∧ nonempty (mode_of op) = true.
Proof.
  unfold meta_ok. intros H. repeat match goal with H : _ && _ = true |- _ => apply andb_prop in H as [? ?] end. done.
Qed.

Lemma wf_operation op :
  operation_ok op = true → forallb wf_json (omap buildConditionPayload (o_conditions op)) = true →
  wf_json (operation_payload op) = true.
Proof.
  intros (Hm & _ & Hd & Hp & Hf & Ht & Hv & _)%operation_ok_spec Hc. destruct (mode_units_ok op Hm) as [Hu _].
  change (wf_fields (operation_fields op) = true). unfold operation_fields.
  change (meta_of_mode (mode_of op)) with (op_meta op).
  assert (Hval : m_value (op_meta op) = true → wf_json (parseLooseValue (o_value_text op)) = true)
    by (intros H; apply (value_again_spec _ (Hv H))).
  match goal with |- wf_fields (if _ then obj_set _ _ (obj_set _ _ ?p) else ?p) = true =>
    assert (H : wf_fields p = true) end.
  { assert (H0 : wf_fields [("mode", JStr (mode_of op))] = true).
    { unfold wf_fields. cbn [wf_json forallb map fst nodup_keys]. rewrite Hu. key. }
    destruct (m_pathAlias _);
      repeat (apply wf_set_if; [key|key|first [exact Hval|intros _; by apply units_trim|done]|]); exact H0. }
  destruct (nonempty (omap buildConditionPayload (o_conditions op))); [|exact H].
  apply wf_fields_set; [key|key|by destruct (str_eqb _ _)|].
  by apply wf_fields_set; [key|key| |].
Qed.

(** *** The same payload again *)

Lemma conditions_again cs :
  forallb condition_ok (List.filter has_path cs) = true →
  omap buildConditionPayload (map condition_again (List.filter has_path cs)) = omap buildConditionPayload cs.
Proof.
  induction cs as [|c cs IH]; [done|]. cbn [List.filter]. destruct (has_path c) eqn:Ep.
  - cbn [forallb map omap list_omap]. intros [Hc H]%andb_prop. rewrite build_condition_again by done.
    destruct (buildConditionPayload c); [f_equal|]; by apply IH.
  - cbn [omap list_omap]. rewrite (build_condition_none c Ep). apply IH.
Qed.

Lemma mode_again op : meta_ok (mode_of op) = true → mode_of (operation_again op) = mode_of op.
Proof. intros [_ Hn]%mode_units_ok. unfold mode_of at 1. cbn [operation_again o_mode]. by rewrite Hn. Qed.

Lemma trim_text_or a b : trim (text_or (trim a) (trim b)) = text_or (trim a) (trim b).
Proof. unfold text_or. destruct (nonempty (trim a)); apply trim_idem. Qed.

Lemma logic_again (b : bool) :
  (if str_eqb (if b then "AND" else "OR") "AND" then "AND" else "OR" : jsstr) = if b then "AND" else "OR".
Proof. by destruct b. Qed.

Lemma fields_again op :
  operation_ok op = true → operation_fields (operation_again op) = operation_fields op.
Proof.
  intros (Hm & _ & _ & _ & _ & _ & Hv & Hc)%operation_ok_spec.
  assert (Hval : m_value (op_meta op) = true →
    parseLooseValue (value_again (o_value_text op)) = parseLooseValue (o_value_text op))
    by (intros H; apply (value_again_spec _ (Hv H))).
  unfold operation_fields. rewrite mode_again by done. change (meta_of_mode (mode_of op)) with (op_meta op).
  cbn [operation_again o_description o_path o_from o_to o_value_text o_keep_origin o_logic o_conditions].
  unfold path_conditions. rewrite conditions_again by done. fold (path_conditions op). rewrite omap_path.
  rewrite trim_idem. unfold alias_or. destruct (nonempty (path_conditions op)) eqn:En; cbn [andb].
  all: rewrite ?logic_again; destruct (m_pathAlias (op_meta op)) eqn:Ha.
  1, 3: destruct (alias_meta op Hm Ha) as (-> & -> & -> & ->); rewrite !trim_text_or; cbn [orb trim];
    destruct (nonempty (trim (o_description op))), (m_value (op_meta op)),
      (m_keepOrigin (op_meta op)), (o_keep_origin op); rewrite ?Hval by done;
    destruct (trim (o_from op)), (trim (o_to op)), (trim (o_path op)); reflexivity.
  all: rewrite !trim_idem; destruct (m_path (op_meta op)), (m_pathOptional (op_meta op)), (m_value (op_meta op)),
         (m_from (op_meta op)), (m_keepOrigin (op_meta op)); cbn [orb andb]; rewrite ?trim_idem, ?Hval by done;
       reflexivity.
Qed.

(** *** Validation *)

Definition aliased (op : ParamOverrideOperation) : bool :=
  m_pathAlias (op_meta op) && nonempty (trim (o_path op)).

(** What an operation needs to be saved. *)
Definition complete (op : ParamOverrideOperation) : Prop :=
  let mode := mode_of op in
  let raw := trim (o_value_text op) in
  (m_path (op_meta op) = true → nonempty (trim (o_path op)) = true)
  ∧ (str_mem mode FROM_REQUIRED_MODES = true → nonempty (trim (o_from op)) = true ∨ aliased op = true)
  ∧ (str_mem mode TO_REQUIRED_MODES = true → nonempty (trim (o_to op)) = true ∨ aliased op = true)
  ∧ (str_mem mode VALUE_REQUIRED_MODES = true → nonempty raw = true)
  ∧ (mode = "return_error" → ∀ parsed, parse_object raw = Some parsed →
     nonempty (trim (prop_string_or "message" [] parsed)) = true)
  ∧ (mode = "pass_headers" → nonempty (parsePassHeaderNames (parseLooseValue raw)) = true).

Lemma if_none {A} (c : bool) (x : A) (y : option A) :
  (if c then Some x else y) = None ↔ c = false ∧ y = None.
Proof. destruct c; intuition congruence. Qed.

Lemma guard_false (a b : bool) : a && negb b = false ↔ (a = true → b = true).
Proof. destruct a, b; cbn; intuition congruence. Qed.

Lemma guard_false2 (a b c : bool) : a && negb b && negb c = false ↔ (a = true → b = true ∨ c = true).
Proof. destruct a, b, c; cbn; intuition congruence. Qed.

Lemma value_checks mode raw :
  (if str_eqb mode "return_error" then
     match parse_object raw with
     | Some parsed =>
         if nonempty (trim (prop_string_or "message" [] parsed)) then None else Some ErrorWithoutMessage
     | None => None
     end
   else if str_eqb mode "pass_headers" then
     if nonempty (parsePassHeaderNames (parseLooseValue raw)) then None else Some InvalidHeaders
   else None) = None
  ↔ (mode = "return_error" → ∀ parsed, parse_object raw = Some parsed →
     nonempty (trim (prop_string_or "message" [] parsed)) = true)
    ∧ (mode = "pass_headers" → nonempty (parsePassHeaderNames (parseLooseValue raw)) = true).
Proof.
  destruct (str_eqb_spec mode "return_error") as [->|E].
  - destruct (parse_object raw) as [parsed|]; [|by split; [split|]].
    destruct (nonempty (trim _)) eqn:En; split; try done.
    + intros _. split; [|done]. by intros _ ? [= <-].
    + intros [H _]. by rewrite (H eq_refl parsed eq_refl) in En.
  - destruct (str_eqb_spec mode "pass_headers") as [->|E'];
      [destruct (nonempty (parsePassHeaderNames _))|]; split; try done.
    intros [_ H]. by specialize (H eq_refl).
Qed.

Lemma validate_complete op : validate_operation op = None ↔ complete op.
Proof.
  unfold validate_operation, complete. fold (op_meta op) (aliased op).
  by rewrite !if_none, guard_false, !guard_false2, guard_false, value_checks.
Qed.

(** *** The operation that is read is complete again *)

Lemma required_fields op :
  meta_ok (mode_of op) = true →
  (str_mem (mode_of op) FROM_REQUIRED_MODES = true → m_from (op_meta op) = true)
  ∧ (str_mem (mode_of op) VALUE_REQUIRED_MODES = true → m_value (op_meta op) = true)
  ∧ (mode_of op = "set" → m_path (op_meta op) = true).
Proof.
  unfold meta_ok. fold (op_meta op). intros H.
  repeat match goal with H : _ && _ = true |- _ => apply andb_prop in H as [? ?] end.
  split_and!; [by intros E; rewrite E in *..|]. intros E. rewrite E in *. done.
Qed.

Lemma alias_or_nonempty op s :
  nonempty (trim s) = true ∨ aliased op = true → nonempty (trim (alias_or op s)) = true.
Proof.
  unfold alias_or, aliased. destruct (m_pathAlias _); rewrite ?trim_text_or, ?trim_idem; cbn [andb].
  - unfold text_or. destruct (nonempty (trim s)) eqn:E; [done|]. intros [?|?]; done.
  - intros [?|?]; done.
Qed.

Lemma parse_again text : value_ok text = true → parse_object (trim (value_again text)) = parse_object (trim text).
Proof. intros (-> & _ & E & _)%value_again_spec. unfold parse_object. by rewrite E. Qed.

Lemma loose_trim text : parseLooseValue (trim text) = parseLooseValue text.
Proof. unfold parseLooseValue. by rewrite trim_idem. Qed.

Lemma complete_again op : operation_ok op = true → complete op → complete (operation_again op).
Proof.
  intros (Hm & _ & _ & _ & _ & _ & Hv & _)%operation_ok_spec (H1 & H2 & H3 & H4 & H5 & H6).
  destruct (required_fields op Hm) as (Hf & Hval & _). unfold complete.
  assert (E : op_meta (operation_again op) = op_meta op) by (unfold op_meta; by rewrite mode_again).
  rewrite mode_again, E by done. cbn [operation_again o_path o_from o_to o_value_text].
  split_and!.
  - intros Hp. rewrite Hp. cbn [orb]. rewrite trim_idem. by apply H1.
  - intros H. left. rewrite (Hf H). apply alias_or_nonempty. by apply H2.
  - intros H. left. apply alias_or_nonempty. by apply H3.
  - intros H. rewrite (Hval H). destruct (value_again_spec _ (Hv (Hval H))) as (-> & _ & _ & -> & _). by apply H4.
  - intros Hr. assert (V : m_value (op_meta op) = true) by (apply Hval; by rewrite Hr).
    rewrite V, parse_again by auto. by apply H5.
  - intros Hr. assert (V : m_value (op_meta op) = true) by (apply Hval; by rewrite Hr).
    rewrite V, loose_trim. rewrite (proj1 (proj2 (value_again_spec _ (Hv V)))), <- loose_trim. by apply H6.
Qed.

(** An operation that can be saved is not blank after it was read. *)
Lemma not_blank_again op :
  operation_ok op = true → complete op → isOperationBlank (operation_again op) = false.
Proof.
  intros (Hm & _)%operation_ok_spec (H1 & _). destruct (required_fields op Hm) as (_ & _ & Hp).
  unfold isOperationBlank. cbn [operation_again o_mode o_path].
  destruct (str_eqb_spec (mode_of op) "set") as [E|]; [|done]. rewrite (Hp E). cbn [orb]. rewrite trim_idem.
  by rewrite (H1 (Hp E)).
Qed.

(** *** Identifiers do not matter for the text *)

Lemma conditions_erase cs : omap buildConditionPayload (map erase_condition cs) = omap buildConditionPayload cs.
Proof.
  induction cs as [|c cs IH]; [done|]. cbn [map omap list_omap]. rewrite <- build_condition.
  destruct (buildConditionPayload c); by rewrite IH.
Qed.

Lemma fields_erase op : operation_fields (erase_operation op) = operation_fields op.
Proof. unfold operation_fields at 1. cbn [erase_operation o_conditions]. by rewrite conditions_erase. Qed.

Lemma blank_erase op : isOperationBlank (erase_operation op) = isOperationBlank op.
Proof.
  unfold isOperationBlank. cbn [erase_operation o_mode o_path o_from o_to o_value_text o_keep_origin o_conditions].
  do 2 f_equal. induction (o_conditions op) as [|c cs IH]; [done|]. cbn [map existsb]. by rewrite IH.
Qed.

Lemma complete_erase op : complete (erase_operation op) ↔ complete op.
Proof. done. Qed.

Lemma again_text op op' :
  erase_operation op' = operation_again op → operation_ok op = true → complete op →
  operation_payload op' = operation_payload op ∧ isOperationBlank op' = false ∧ validate_operation op' = None.
Proof.
  intros E Hok Hc. split_and!.
  - unfold operation_payload. f_equal. by rewrite <- fields_erase, E, fields_again.
  - rewrite <- blank_erase, E. by apply not_blank_again.
  - apply validate_complete, (proj1 (complete_erase op')). rewrite E. by apply complete_again.
Qed.

Section reading.
Context {clock : Clock}.

(** A payload is read as the condition it was made of. *)
Lemma read_condition_payload c n :
  has_path c = true → condition_ok c = true →
  ∃ v c', buildConditionPayload c = Some v ∧ wf_json v = true
  ∧ normalizeCondition v n = (Ok c', (n + 1)%N) ∧ erase_condition c' = condition_again c.
Proof.
  unfold has_path, condition_ok. intros Hp Hc. apply andb_prop in Hc as [Hc Hv].
  apply andb_prop in Hc as [Hu Hm]. destruct (value_again_spec _ Hv) as (_ & Hl & _ & _ & Hw).
  unfold buildConditionPayload. rewrite Hp. cbn [negb].
  eexists _, _. split; [reflexivity|]. split_and!.
  - apply wf_set_if; [key|key|done|]. apply wf_set_if; [key|key|done|].
    unfold wf_fields. cbn [wf_json forallb map fst nodup_keys]. rewrite Hw.
    rewrite (mode_units _ _ Hm) by key. rewrite units_trim by done. key.
  - reflexivity.
  - unfold erase_condition, condition_again, prop_text, prop_mode, prop_is_true.
    cbn [c_path c_mode c_value_text c_invert c_pass_missing_key]. rewrite !get_set_if.
    destruct (c_invert c), (c_pass_missing_key c);
      cbn -[text_or CONDITION_MODE_VALUES str_mem trim parseLooseValue toValueText]; by rewrite Hm.
Qed.

(** All conditions with a path. *)
Lemma read_conditions cs n :
  forallb condition_ok (List.filter has_path cs) = true →
  ∃ cs', mapM normalizeCondition (omap buildConditionPayload cs) n
         = (Ok cs', (n + N.of_nat (length (List.filter has_path cs)))%N)
  ∧ map erase_condition cs' = map condition_again (List.filter has_path cs)
  ∧ forallb wf_json (omap buildConditionPayload cs) = true.
Proof.
  revert n. induction cs as [|c cs IH]; intros n; cbn [List.filter].
  { intros _. exists []. split_and!; [|done|done]. cbn. by rewrite N.add_0_r. }
  destruct (has_path c) eqn:Ep; cbn [omap list_omap forallb].
  - intros H. apply andb_prop in H as [Hc H]. destruct (read_condition_payload c n Ep Hc) as (v & c' & -> & Hw & En & Ee).
    destruct (IH (n + 1)%N H) as (cs' & Em & Es & Hws). exists (c' :: cs'). split_and!.
    + cbn [mapM]. unfold mbind at 1, gen_bind at 1. rewrite En. unfold mbind at 1, gen_bind at 1. rewrite Em.
      unfold mret, gen_ret. f_equal. cbn [length]. lia.
    + cbn [map]. by rewrite Ee, Es.
    + cbn [forallb]. by rewrite Hw.
  - intros H. rewrite (build_condition_none c Ep). by apply IH.
Qed.

(** The conditions found in a payload. *)
Lemma read_conditions_field op n :
  forallb condition_ok (path_conditions op) = true →
  ∃ cs n', normalize_conditions (obj_get "conditions" (operation_fields op)) n = (Ok cs, n')
  ∧ map erase_condition cs = map condition_again (path_conditions op).
Proof.
  intros Hc. rewrite get_conditions. destruct (nonempty (path_conditions op)) eqn:En.
  - destruct (read_conditions (o_conditions op) n Hc) as (cs & Er & Ee & _). by eexists _, _.
  - destruct (path_conditions op); [|done]. by exists [], n.
Qed.

Lemma read_operation_payload op n :
  operation_ok op = true →
  ∃ op' n', normalizeOperation (operation_payload op) n = (Ok op', n')
  ∧ erase_operation op' = operation_again op ∧ wf_json (operation_payload op) = true.
Proof.
  intros Hok. pose proof Hok as (Hm & Hmem & _ & _ & _ & _ & _ & Hc)%operation_ok_spec.
  destruct (read_conditions (o_conditions op) n Hc) as (_ & _ & _ & Hw).
  destruct (read_conditions_field op (n + 1) Hc) as (cs & n' & Em & Es).
  eexists _, n'. split; [|split; [|by apply wf_operation]].
  { unfold normalizeOperation, operation_payload, mbind, gen_bind. cbn [nextLocalId props mret gen_ret].
    rewrite Em. reflexivity. }
  unfold erase_operation, operation_again, prop_mode.
  cbn [o_description o_path o_mode o_from o_to o_value_text o_keep_origin o_logic o_conditions].
  rewrite get_mode, get_description, get_path, get_value, get_keep_origin, get_logic, get_from, get_to, Hmem, Es by done.
  destruct (m_value (op_meta op)), (nonempty (path_conditions op) && str_eqb (o_logic op) "AND"); reflexivity.
Qed.

Lemma read_payloads ops n :
  forallb operation_ok ops = true →
  ∃ ops' n', mapM normalizeOperation (map operation_payload ops) n = (Ok ops', n')
  ∧ map erase_operation ops' = map operation_again ops
  ∧ forallb wf_json (map operation_payload ops) = true.
Proof.
  revert n. induction ops as [|op ops IH]; intros n; cbn [forallb map].
  { intros _. by exists [], n. }
  intros [Hok H]%andb_prop. destruct (read_operation_payload op n Hok) as (op' & n1 & E1 & Ee & Hw).
  destruct (IH n1 H) as (ops' & n2 & E2 & Es & Hws). exists (op' :: ops'), n2. split_and!.
  - cbn [mapM]. unfold mbind at 1, gen_bind at 1. rewrite E1. unfold mbind at 1, gen_bind at 1. by rewrite E2.
  - cbn [map]. by rewrite Ee, Es.
  - by rewrite Hw.
Qed.
Lemma validate_none line ops :
  validate_from line ops = None ↔ Forall (λ op, validate_operation op = None) ops.
Proof.
  revert line. induction ops as [|op ops IH]; intros line; cbn [validate_from]; [by split; [constructor|]|].
  rewrite list.Forall_cons, <- (IH (S line)). destruct (validate_operation op); [|by split; [|intros [_ ?]]].
  split; [done|by intros [? _]].
Qed.

Lemma cons_inj {A} (x y : A) l k : x :: l = y :: k → x = y ∧ l = k.
Proof. by intros [= -> ->]. Qed.

(** The operations that were read give the same text. *)
Lemma again_texts ops ops' :
  map erase_operation ops' = map operation_again ops → forallb operation_ok ops = true →
  Forall (λ op, validate_operation op = None) ops →
  kept_operations ops' = ops' ∧ map operation_payload ops' = map operation_payload ops
  ∧ Forall (λ op, validate_operation op = None) ops'.
Proof.
  revert ops'. induction ops as [|op ops IH]; intros [|op' ops'] E; try done; cbn [map forallb] in *.
  apply cons_inj in E as [E1 E2]. intros [Hok Hoks]%andb_prop [Hv Hvs]%list.Forall_cons.
  destruct (again_text op op' E1 Hok (proj1 (validate_complete op) Hv)) as (Hp & Hb & Hv').
  destruct (IH ops' E2 Hoks Hvs) as (Hk & Hps & Hvs'). split_and!.
  - unfold kept_operations in *. cbn [List.filter]. by rewrite Hb, Hk.
  - by rewrite Hp, Hps.
  - by constructor.
Qed.

Lemma build_valid ops :
  nonempty (kept_operations ops) = true → Forall (λ op, validate_operation op = None) (kept_operations ops) →
  buildOperationsJson ops true = inl (operations_text (kept_operations ops)).
Proof.
  intros Hn Hv. unfold buildOperationsJson. rewrite Hn. cbn [negb]. unfold validateOperations.
  by rewrite (proj2 (validate_none 1 _) Hv).
Qed.

Lemma build_inl ops text :
  buildOperationsJson ops true = inl text → text ≠ [] →
  nonempty (kept_operations ops) = true ∧ Forall (λ op, validate_operation op = None) (kept_operations ops)
  ∧ text = operations_text (kept_operations ops).
Proof.
  unfold buildOperationsJson. destruct (nonempty (kept_operations ops)) eqn:En; cbn [negb]; [|by intros [= <-]].
  destruct (validateOperations _) as [[l i]|] eqn:Ev; [done|]. intros [= <-] _.
  split_and!; [done| |done]. by apply (validate_none 1).
Qed.

(** An object text with operations opens in the list of rules. *)
Lemma open_operations kvs l text n ops n' :
  trim text = text → JSON_parse text = Some (JObj kvs) → obj_get "operations" kvs = Some (JArr l) →
  nonempty l = true → mapM normalizeOperation l n = (Ok ops, n') →
  parseInitialState text n
  = (Ok {| es_editMode := EditVisual; es_visualMode := VisualOperations; es_legacyValue := [];
           es_operations := ops; es_jsonText := JSON_stringify_2 (JObj kvs); es_jsonError := None |}, n').
Proof.
  intros Ht Hp Ho Hl Hm. unfold parseInitialState. rewrite Ht.
  assert (Hn : nonempty text = true) by (by destruct text).
  rewrite Hn, Hp, Ho. cbn [negb]. unfold mbind, gen_bind at 1. destruct l as [|v l]; [done|].
  unfold read_operations. by rewrite Hm.
Qed.

Lemma save_operations ops legacy text :
  nonempty (kept_operations ops) = true → Forall (λ op, validate_operation op = None) (kept_operations ops) →
  handleSave {| es_editMode := EditVisual; es_visualMode := VisualOperations; es_legacyValue := legacy;
                es_operations := ops; es_jsonText := text; es_jsonError := None |}
  = inl (operations_text (kept_operations ops)).
Proof. intros. unfold handleSave, buildVisualJson. cbn. by apply build_valid. Qed.
End reading.
