(* ===== verification/ParamTheorems.v ===== *)
(** * Properties of the parameter override dialog

    Identifiers are never shared, whatever the user does, and there is always a
    selected operation; moving an operation keeps all others in order; what is saved
    opens again; and the edits that get lost. *)
From Stdlib Require Import NArith ZArith.
From stdpp Require Import list numbers gmap.
From S2P Require Import Prelude JsString JsNumber Json JsArray JsonRoundtrip JsonIndent BillingExpr ChannelForm ParamOverride ParamDialog ParamRoundtrip.

(** ** Fresh identifiers *)

Section ids.
Context {clock : Clock}.

(** The number at the end of an identifier makes it unique, whatever the clock. *)
Lemma split_last (x : N) a b c d :
  x ∉ b → x ∉ d → a ++ x :: b = c ++ x :: d → b = d.
Proof.
  revert c. induction a as [|y a IH]; intros [|z c] Hb Hd E; cbn [app] in E.
  - by injection E.
  - injection E as -> ->. exfalso. apply Hb. apply elem_of_app. right. by left.
  - injection E as -> <-. exfalso. apply Hd. apply elem_of_app. right. by left.
  - injection E as -> E. by eapply IH.
Qed.

Lemma to_dec_no_underscore n : 95%N ∉ to_dec n.
Proof.
  intros H. destruct (to_dec_spec n) as (_ & Hd & _). rewrite forallb_forall in Hd.
  apply list_elem_of_In in H. apply Hd in H. done.
Qed.

Lemma local_id_inj m n : local_id m = local_id n → m = n.
Proof.
  unfold local_id. intros E.
  assert (H : to_dec m = to_dec n).
  { apply (split_last 95%N ("po_" ++ to_dec (now m)) (to_dec m) ("po_" ++ to_dec (now n)) (to_dec n));
      [apply to_dec_no_underscore..|]. by rewrite <- !app_assoc. }
  by apply to_dec_inj.
Qed.

(** Different identifiers, drawn while the counter went from [n] to [m]. *)
Definition drawn (n m : N) (ids : list jsstr) : Prop :=
  (n ≤ m)%N ∧ NoDup ids ∧ Forall (λ id, ∃ k, id = local_id k ∧ (n ≤ k < m)%N) ids.

Lemma drawn_nil n m : (n ≤ m)%N → drawn n m [].
Proof. intros. split_and!; [done|constructor|constructor]. Qed.

Lemma drawn_one n : drawn n (n + 1) [local_id n].
Proof.
  split_and!; [lia|repeat constructor; inversion 1|]. constructor; [|constructor]. exists n. split; [done|lia].
Qed.

Lemma drawn_app n m p a b : drawn n m a → drawn m p b → drawn n p (a ++ b).
Proof.
  intros (H1 & Na & Fa) (H2 & Nb & Fb). split_and!; [lia| |].
  - apply list.NoDup_app. split_and!; [done| |done]. intros x Ha Hb.
    rewrite list.Forall_forall in Fa, Fb. destruct (Fa x Ha) as (k & Ek & Hk), (Fb x Hb) as (k' & Ek' & Hk').
    assert (k = k') by (apply local_id_inj; congruence). lia.
  - apply Forall_app. split; [|eapply list.Forall_impl; [exact Fb|]; intros x (k & ? & ?); exists k; split; [done|lia]].
    eapply list.Forall_impl; [exact Fa|]. intros x (k & ? & ?). exists k. split; [done|lia].
Qed.

Lemma drawn_sub n m m' a b : drawn n m b → (m ≤ m')%N → a ⊆+ b → drawn n m' a.
Proof.
  intros (H1 & Hn & Hf) Hm Hs. split_and!; [lia| |].
  - apply submseteq_Permutation in Hs as [k Hk]. rewrite Hk in Hn. by apply list.NoDup_app in Hn as [? _].
  - rewrite list.Forall_forall in *. intros x Hx. destruct (Hf x) as (k & ? & ?); [|exists k; split; [done|lia]].
    eapply elem_of_submseteq; [exact Hx|exact Hs].
Qed.

Lemma drawn_low n m ids : drawn n m ids → drawn 0 m ids.
Proof. intros H. apply (drawn_app 0 n m []); [apply drawn_nil; lia|done]. Qed.

(** What a computation draws; one that throws only moves the counter. *)
Definition draws {A} (m : gen A) (ids : A → list jsstr) : Prop :=
  ∀ n, match m n with
       | (Ok a, n') => drawn n n' (ids a)
       | (Throw, n') => (n ≤ n')%N
       end.

Lemma draws_ret {A} (a : A) ids : ids a = [] → draws (mret a) ids.
Proof. intros E n. cbn. rewrite E. by apply drawn_nil. Qed.

Lemma draws_mapM {A B} (f : A → gen B) g l :
  (∀ x, draws (f x) g) → draws (mapM f l) (flat_map g).
Proof.
  intros Hf. induction l as [|x l IH]; [by apply draws_ret|]. intros n. cbn [mapM].
  unfold mbind, gen_bind. specialize (Hf x n). destruct (f x n) as [[b|] n1]; [|done].
  specialize (IH n1).
  destruct (mapM f l n1) as [[bs|] n2]; [|destruct Hf as [? _]; lia].
  cbn. by eapply drawn_app.
Qed.

(** ** Conditions, operations and rules *)

Definition ids_of_op (op : ParamOverrideOperation) : list jsstr := o_id op :: map c_id (o_conditions op).
Definition ids_of (ops : list ParamOverrideOperation) : list jsstr := flat_map ids_of_op ops.

Lemma props_cases v : (props v = gen_throw) ∨ ∃ kvs, props v = mret kvs.
Proof. destruct v; eauto. Qed.

Lemma draws_condition v : draws (normalizeCondition v) (λ c, [c_id c]).
Proof.
  intros n. unfold normalizeCondition, mbind, gen_bind. cbn [nextLocalId].
  destruct (props_cases v) as [->|[kvs ->]]; cbn; [lia|apply drawn_one].
Qed.

Lemma draws_rule v : draws (normalizePruneRule v) (λ r, [r_id r]).
Proof.
  intros n. unfold normalizePruneRule, mbind, gen_bind. cbn [nextLocalId].
  destruct (props_cases v) as [->|[kvs ->]]; cbn; [lia|apply drawn_one].
Qed.

Lemma flat_map_one {A B} (f : A → B) l : flat_map (λ x, [f x]) l = map f l.
Proof. induction l as [|x l IH]; [done|]. cbn. by rewrite IH. Qed.

Lemma draws_conditions v : draws (normalize_conditions v) (map c_id).
Proof.
  destruct v as [[]|]; try by apply draws_ret. intros n.
  pose proof (draws_mapM normalizeCondition _ l draws_condition n) as H. unfold normalize_conditions.
  destruct (mapM normalizeCondition l n) as [[cs|] n']; [|done]. by rewrite <- flat_map_one.
Qed.

Lemma draws_operation v : draws (normalizeOperation v) ids_of_op.
Proof.
  intros n. unfold normalizeOperation, mbind, gen_bind. cbn [nextLocalId].
  destruct (props_cases v) as [->|[kvs ->]]; [cbn; lia|]. cbn [mret gen_ret].
  pose proof (draws_conditions (obj_get "conditions" kvs) (n + 1)%N) as H. unfold mret, gen_ret.
  destruct (normalize_conditions _ (n + 1)%N) as [[cs|] n']; [|lia].
  apply (drawn_app n (n + 1)%N n' [local_id n]); [apply drawn_one|exact H].
Qed.

Lemma draws_default : draws createDefaultOperation ids_of_op.
Proof. apply draws_operation. Qed.

Lemma draws_operations l : draws (mapM normalizeOperation l) ids_of.
Proof. apply draws_mapM, draws_operation. Qed.

Lemma draws_read l : draws (read_operations l) ids_of.
Proof.
  destruct l as [|v l]; [|apply draws_operations]. intros n. unfold read_operations, mbind, gen_bind.
  pose proof (draws_default n) as H. destruct (createDefaultOperation n) as [[op|] n']; [|done].
  cbn. by rewrite app_nil_r.
Qed.

Lemma ids_of_app a b : ids_of (a ++ b) = ids_of a ++ ids_of b.
Proof. apply flat_map_app. Qed.

(** ** Changes of the list *)

Lemma ids_sub a b : a ⊆+ b → ids_of a ⊆+ ids_of b.
Proof.
  intros [k Hk]%submseteq_Permutation. unfold ids_of. rewrite Hk, flat_map_app. by apply submseteq_inserts_r.
Qed.

Lemma ids_map_operation id f ops :
  (∀ op, ids_of_op (f op) ⊆+ ids_of_op op) → ids_of (map_operation id f ops) ⊆+ ids_of ops.
Proof.
  intros Hf. unfold ids_of, map_operation. induction ops as [|op ops IH]; [done|]. cbn [map flat_map].
  apply submseteq_app; [|done]. by destruct (has_id id op).
Qed.

Lemma map_operation_ne id f ops : ops ≠ [] → map_operation id f ops ≠ [].
Proof. by destruct ops. Qed.

Lemma in_ids op ops : op ∈ ops → o_id op ∈ ids_of ops.
Proof.
  intros H. unfold ids_of. apply list_elem_of_In, in_flat_map. exists op. split; [by apply list_elem_of_In|by left].
Qed.

Lemma has_id_spec id op : has_id id op = true ↔ o_id op = id.
Proof. apply str_eqb_eq. Qed.

(** With different identifiers at most one operation is meant. *)
Lemma other_operations id ops f :
  id ∉ map o_id ops → map_operation id f ops = ops.
Proof.
  unfold map_operation. induction ops as [|op ops IH]; [done|]. cbn [map]. rewrite elem_of_cons. intros H.
  rewrite IH by tauto. destruct (has_id id op) eqn:E; [|done]. apply has_id_spec in E. naive_solver.
Qed.

Lemma op_ids_nodup ops : NoDup (ids_of ops) → NoDup (map o_id ops).
Proof.
  unfold ids_of. induction ops as [|op ops IH]; [constructor|]. cbn [flat_map map]. intros H.
  apply list.NoDup_app in H as (H1 & H2 & H3). constructor; [|by apply IH].
  intros Hin. apply list_elem_of_In, in_map_iff in Hin as (op' & E & Hin). apply (H2 (o_id op)); [by left|].
  rewrite <- E. by apply in_ids, list_elem_of_In.
Qed.

Lemma ids_add_condition id c ops :
  NoDup (ids_of ops) →
  ids_of (map_operation id (λ op, set_o_conditions (o_conditions op ++ [c]) op) ops) ⊆+ ids_of ops ++ [c_id c].
Proof.
  intros H%op_ids_nodup. unfold ids_of. induction ops as [|op ops IH]; [by apply submseteq_nil_l|].
  cbn [map] in H. apply list.NoDup_cons in H as [Hn H]. cbn [map_operation map flat_map].
  destruct (has_id id op) eqn:E.
  - apply has_id_spec in E as <-. fold (map_operation (o_id op) (λ op, set_o_conditions (o_conditions op ++ [c]) op) ops).
    rewrite other_operations by done. unfold ids_of_op at 1 3. cbn [set_o_conditions o_id o_conditions].
    rewrite map_app. cbn [map]. apply Permutation_submseteq. rewrite <- !app_assoc. cbn [app].
    constructor. rewrite <- app_assoc. apply Permutation_app_head. by rewrite Permutation_app_comm.
  - rewrite <- app_assoc. apply submseteq_app; [done|by apply IH].
Qed.

(** ** Positions *)

Lemma findIndex_Some {A} (p : A → bool) l i :
  findIndex p l = Some i →
  ∃ a x b, l = a ++ x :: b ∧ length a = i ∧ p x = true ∧ forallb (λ y, negb (p y)) a = true.
Proof.
  revert i. induction l as [|y l IH]; intros i; cbn [findIndex]; [done|].
  destruct (p y) eqn:Ey; [intros [= <-]; by exists [], y, l|].
  destruct (findIndex p l) as [j|]; [|done]. intros [= <-].
  destruct (IH j eq_refl) as (a & x & b & -> & <- & Hx & Ha). exists (y :: a), x, b.
  split_and!; try done. cbn [forallb]. by rewrite Ey, Ha.
Qed.

Lemma findIndex_None {A} (p : A → bool) l : findIndex p l = None → forallb (λ y, negb (p y)) l = true.
Proof.
  induction l as [|y l IH]; cbn [findIndex]; [done|]. destruct (p y) eqn:Ey; [done|].
  destruct (findIndex p l); [done|]. intros _. cbn [forallb]. by rewrite Ey, IH.
Qed.

(** The operations but one, and where the moved one goes. *)
Definition others (id : jsstr) (ops : list ParamOverrideOperation) : list ParamOverrideOperation :=
  List.filter (λ o, negb (has_id id o)) ops.

Definition beside (position : DropPosition) (s t : ParamOverrideOperation) : list ParamOverrideOperation :=
  match position with Before => [s; t] | After => [t; s] end.

Lemma not_in_has_id id ops : id ∉ map o_id ops → forallb (λ o, negb (has_id id o)) ops = true.
Proof.
  induction ops as [|op ops IH]; [done|]. cbn [map forallb]. rewrite elem_of_cons. intros H.
  rewrite IH by tauto. destruct (has_id id op) eqn:E; [|done]. apply has_id_spec in E. naive_solver.
Qed.

Lemma has_id_not_in id ops : forallb (λ o, negb (has_id id o)) ops = true → id ∉ map o_id ops.
Proof.
  induction ops as [|op ops IH]; cbn [map forallb]; [by intros _ ?%not_elem_of_nil|].
  intros [H1 H2]%andb_prop [->|H]%elem_of_cons; [|by apply IH].
  unfold has_id in H1. by rewrite str_eqb_refl in H1.
Qed.

Lemma take_drop_middle {A} (a : list A) x b :
  take (length a) (a ++ x :: b) = a ∧ drop (S (length a)) (a ++ x :: b) = b ∧ (a ++ x :: b) !! length a = Some x.
Proof.
  split_and!; [apply take_app_length| |apply list_lookup_middle; done].
  rewrite (cons_middle x a b), app_assoc. replace (S (length a)) with (length (a ++ [x])) by (rewrite length_app; cbn; lia).
  apply drop_app_length.
Qed.

Lemma others_app id a x b :
  o_id x = id → forallb (λ o, negb (has_id id o)) (a ++ b) = true → others id (a ++ x :: b) = a ++ b.
Proof.
  intros Hx H. rewrite forallb_app in H. apply andb_prop in H as [Ha Hb].
  unfold others. rewrite List.filter_app. cbn [List.filter]. rewrite (proj2 (has_id_spec id x) Hx).
  cbn [negb]. by rewrite !filterb_all.
Qed.

Lemma nodup_middle (a b : list ParamOverrideOperation) x :
  NoDup (map o_id (a ++ x :: b)) → forallb (λ o, negb (has_id (o_id x) o)) (a ++ b) = true.
Proof.
  intros H. apply not_in_has_id. rewrite map_app in H. cbn [map] in H. rewrite map_app.
  rewrite <- Permutation_middle in H. by apply list.NoDup_cons in H as [? _].
Qed.

Lemma findIndex_first a x b :
  forallb (λ o, negb (has_id (o_id x) o)) a = true →
  findIndex (has_id (o_id x)) (a ++ x :: b) = Some (length a).
Proof.
  induction a as [|y a IH]; cbn [app findIndex length forallb].
  - by rewrite (proj2 (has_id_spec _ x) eq_refl).
  - intros [Hy%negb_true_iff Ha]%andb_prop. by rewrite Hy, IH.
Qed.

(** The moved operation ends up beside the target; the others stay in order. *)
Lemma reorder_spec ops s t position :
  NoDup (map o_id ops) → s ∈ ops → t ∈ ops → o_id s ≠ o_id t → o_id s ≠ [] → o_id t ≠ [] →
  ∃ c d, others (o_id s) ops = c ++ t :: d
  ∧ reorderOperations ops (o_id s) (o_id t) position = c ++ beside position s t ++ d.
Proof.
  intros Hn Hs Ht Hne Hs0 Ht0. apply list_elem_of_split in Hs as (a & b & ->).
  pose proof (nodup_middle a b s Hn) as Hab. rewrite others_app by done.
  assert (Ht' : t ∈ a ++ b).
  { rewrite elem_of_app in *. rewrite elem_of_cons in Ht. destruct Ht as [|[->|]]; [by left|done|by right]. }
  assert (Hn' : NoDup (map o_id (a ++ b))).
  { rewrite map_app in *. cbn [map] in Hn. rewrite <- Permutation_middle in Hn. by apply list.NoDup_cons in Hn as [_ ?]. }
  apply list_elem_of_split in Ht' as (c & d & Ecd). exists c, d. split; [done|].
  unfold reorderOperations. rewrite (proj2 (str_eqb_neq _ _) Hne).
  rewrite (proj2 (nonempty_true _) Hs0), (proj2 (nonempty_true _) Ht0). cbn [negb orb].
  rewrite forallb_app in Hab. apply andb_prop in Hab as [Ha _].
  destruct (take_drop_middle a s b) as (Et & Ed & El). rewrite (findIndex_first a), El, Et, Ed, Ecd by done.
  rewrite Ecd in Hn'. pose proof (nodup_middle c d t Hn') as Hc. rewrite forallb_app in Hc.
  apply andb_prop in Hc as [Hc _]. destruct (take_drop_middle c t d) as (Et2 & Ed2 & _).
  rewrite (findIndex_first c) by done. destruct position; cbn [beside app].
  - by rewrite Et2, drop_app_length.
  - rewrite Ed2. replace (take (S (length c)) (c ++ t :: d)) with (c ++ [t]); [by rewrite <- app_assoc|].
    rewrite (cons_middle t c d), app_assoc. replace (S (length c)) with (length (c ++ [t])) by (rewrite length_app; cbn; lia).
    by rewrite take_app_length.
Qed.

Lemma reorder_perm ops src tgt position : Permutation (reorderOperations ops src tgt position) ops.
Proof.
  unfold reorderOperations. destruct (_ || _ || _); [done|].
  destruct (findIndex _ ops) as [i|] eqn:E; [|done]. apply findIndex_Some in E as (a & x & b & -> & <- & _ & _).
  destruct (take_drop_middle a x b) as (-> & -> & ->).
  destruct (findIndex _ (a ++ b)) as [j|]; [|done].
  set (k := match position with Before => j | After => S j end).
  rewrite <- Permutation_middle, take_drop. by rewrite Permutation_middle.
Qed.

(** ** Pruning rules *)

Lemma draws_rules {A} (f : A → gen PruneRule) l :
  (∀ x, draws (f x) (λ r, [r_id r])) → draws (mapM f l) (map r_id).
Proof.
  intros Hf n. pose proof (draws_mapM f _ l Hf n) as H.
  destruct (mapM f l n) as [[rs|] n']; [by rewrite <- flat_map_one|done].
Qed.

Lemma draws_where v : draws (where_rules v) (map r_id).
Proof. destruct v as [[]|]; try by apply draws_ret. apply draws_rules. intros x. apply draws_rule. Qed.

Lemma draws_condition_rules v : draws (condition_rules v) (map r_id).
Proof. destruct v as [[]|]; try apply draws_where. apply draws_rules, draws_rule. Qed.

Lemma draws_draft text : draws (parsePruneObjectsDraft text) (λ draft, map r_id (d_rules draft)).
Proof.
  unfold parsePruneObjectsDraft. destruct (negb _); [by apply draws_ret|].
  destruct (JSON_parse _) as [[]|]; try by apply draws_ret. intros n. unfold object_draft, mbind, gen_bind.
  pose proof (draws_where (obj_get "where" kvs) n) as Hw. destruct (where_rules _ n) as [[ws|] n1]; [|done].
  pose proof (draws_condition_rules (obj_get "conditions" kvs) n1) as Hc.
  destruct (condition_rules _ n1) as [[cs|] n2]; [|destruct Hw as [? _]; lia].
  cbn. rewrite map_app. by eapply drawn_app.
Qed.

(** ** Every event keeps the identifiers apart *)

Definition mono {A} (m : gen A) : Prop := ∀ n, (n ≤ (m n).2)%N.

Lemma draws_mono {A} (m : gen A) ids : draws m ids → mono m.
Proof. intros H n. specialize (H n). destruct (m n) as [[a|] n']; [apply H|done]. Qed.

Lemma mono_ret {A} (a : A) : mono (mret a).
Proof. intros n. cbn. lia. Qed.

Lemma mono_bind {A B} (m : gen A) (k : A → gen B) : mono m → (∀ a, mono (k a)) → mono (m ≫= k).
Proof.
  intros Hm Hk n. unfold mbind, gen_bind. specialize (Hm n). destruct (m n) as [[a|] n1]; [|done].
  specialize (Hk a n1). cbn in Hm. lia.
Qed.

Lemma mono_rule v : mono (normalizePruneRule v).
Proof. eapply draws_mono, draws_rule. Qed.


(** The state of the dialog: identifiers drawn so far, and some operation. *)
Definition dialog_ok (d : Dialog) (n : N) : Prop :=
  drawn 0 n (ids_of (dl_operations d)) ∧ dl_operations d ≠ [].

(** The event leaves the dialog in such a state, or throws. *)
Definition keeps (m : gen Dialog) (n : N) : Prop :=
  match m n with
  | (Ok d', n') => dialog_ok d' n'
  | (Throw, n') => (n ≤ n')%N
  end.

Lemma keeps_ret d n : dialog_ok d n → keeps (mret d) n.
Proof. done. Qed.

Lemma ok_sub d d' n n' :
  dialog_ok d n → (n ≤ n')%N → ids_of (dl_operations d') ⊆+ ids_of (dl_operations d) →
  dl_operations d' ≠ [] → dialog_ok d' n'.
Proof. intros [H _] Hn Hs Hne. split; [by eapply drawn_sub|done]. Qed.

Lemma ok_same d d' n : dl_operations d' = dl_operations d → dialog_ok d n → dialog_ok d' n.
Proof. unfold dialog_ok. by intros ->. Qed.

Lemma ok_update id f d n :
  (∀ op, ids_of_op (f op) ⊆+ ids_of_op op) → dialog_ok d n → dialog_ok (updateOperation id f d) n.
Proof.
  intros Hf H. eapply ok_sub; [exact H|done|by apply ids_map_operation|].
  apply (map_operation_ne id f), H.
Qed.

(** New operations in place of the old ones. *)
Lemma keeps_fresh (m : gen (list ParamOverrideOperation)) (k : list ParamOverrideOperation → Dialog) n :
  draws m ids_of → (∀ ops, dl_operations (k ops) = ops) → (∀ n' ops, m n = (Ok ops, n') → ops ≠ []) →
  keeps (ops ← m; mret (k ops)) n.
Proof.
  intros Hm Hk Hne. unfold keeps, mbind, gen_bind. specialize (Hm n).
  destruct (m n) as [[ops|] n'] eqn:E; [|done]. cbn. split.
  - rewrite Hk. by eapply drawn_low.
  - rewrite Hk. by eapply Hne.
Qed.

Lemma keeps_default (k : ParamOverrideOperation → Dialog) n :
  (∀ op, dl_operations (k op) = [op]) → keeps (op ← createDefaultOperation; mret (k op)) n.
Proof.
  intros Hk. unfold keeps, mbind, gen_bind. pose proof (draws_default n) as H.
  destruct (createDefaultOperation n) as [[op|] n']; [|done]. cbn. split; [|by rewrite Hk].
  rewrite Hk. cbn. rewrite app_nil_r. by eapply drawn_low.
Qed.

Lemma mapM_length {A B} (f : A → gen B) l n k n' : mapM f l n = (Ok k, n') → length k = length l.
Proof.
  revert n k n'. induction l as [|x l IH]; intros n k n'; [by intros [= <- _]|]. cbn [mapM].
  unfold mbind, gen_bind. destruct (f x n) as [[b|] n1]; [|done].
  destruct (mapM f l n1) as [[bs|] n2] eqn:E; [|done]. intros [= <- _]. cbn [length]. f_equal. by eapply IH.
Qed.

Lemma read_nonempty l n ops n' : read_operations l n = (Ok ops, n') → ops ≠ [].
Proof.
  destruct l as [|v l]; unfold read_operations.
  - unfold mbind, gen_bind. destruct (createDefaultOperation n) as [[op|] n1]; [|done]. by intros [= <- _].
  - intros E%mapM_length -> . done.
Qed.

Lemma keeps_open value n : keeps (open_dialog value) n.
Proof.
  unfold open_dialog, parseInitialState.
  assert (H : ∀ em vm lv jt je k,
    (∀ st, es_operations (dl_state (k st)) = es_operations st) →
    keeps (st ← (fallback ← createDefaultOperation;
       mret {| es_editMode := em; es_visualMode := vm; es_legacyValue := lv; es_operations := [fallback];
               es_jsonText := jt; es_jsonError := je |}); mret (k st)) n).
  { intros em vm lv jt je k Hk. pose proof (keeps_default (λ op, k {| es_editMode := em; es_visualMode := vm;
      es_legacyValue := lv; es_operations := [op]; es_jsonText := jt; es_jsonError := je |}) n) as H.
    unfold keeps, mbind, gen_bind in *. destruct (createDefaultOperation n) as [[op|] n'].
    - apply H. intros op0. unfold dl_operations. by rewrite Hk.
    - apply H. intros op0. unfold dl_operations. by rewrite Hk. }
  destruct (negb _); [by apply H|]. destruct (JSON_parse _) as [[]|]; try by apply H.
  destruct (obj_get "operations" kvs) as [[]|]; try by apply H.
  pose proof (draws_read l n) as Hd. unfold keeps, mbind, gen_bind.
  destruct (read_operations l n) as [[ops|] n'] eqn:E; [|done]. split; [by eapply drawn_low|].
  by eapply read_nonempty.
Qed.

Lemma keeps_prune id updater d n :
  (∀ draft, mono (updater draft)) → dialog_ok d n → keeps (updatePruneObjectsDraft id updater d) n.
Proof.
  intros Hu Hd. unfold keeps, updatePruneObjectsDraft.
  assert (H : ∀ ops n, match mapM (update_prune id updater) ops n with
                       | (Ok ops', n') => (n ≤ n')%N ∧ map ids_of_op ops' = map ids_of_op ops
                       | (Throw, n') => (n ≤ n')%N
                       end).
  { clear n d Hd. induction ops as [|op ops IH]; intros n; [by split; [reflexivity|]|]. cbn [mapM].
    unfold mbind, gen_bind at 1.
    assert (Ho : match update_prune id updater op n with
                 | (Ok op', n') => (n ≤ n')%N ∧ ids_of_op op' = ids_of_op op
                 | (Throw, n') => (n ≤ n')%N
                 end).
    { unfold update_prune. destruct (negb _); [by split; [reflexivity|]|]. unfold mbind, gen_bind.
      pose proof (draws_mono _ _ (draws_draft (o_value_text op)) n) as H1. destruct (parsePruneObjectsDraft _ n) as [[draft|] n1]; [|done].
      pose proof (Hu draft n1) as H2. destruct (updater draft n1) as [[draft'|] n2]; cbn in *; [|lia].
      split; [lia|done]. }
    destruct (update_prune id updater op n) as [[op'|] n1]; [|done]. destruct Ho as [H1 H2]. specialize (IH n1).
    unfold gen_bind. destruct (mapM (update_prune id updater) ops n1) as [[ops'|] n2]; [|lia]. destruct IH as [H3 H4]. split; [lia|]. cbn [map]. by rewrite H2, H4. }
  specialize (H (dl_operations d) n). unfold mbind, gen_bind.
  destruct (mapM (update_prune id updater) (dl_operations d) n) as [[ops'|] n'] eqn:E; [|done]. destruct H as [H1 H2].
  apply mapM_length in E. eapply ok_sub; [exact Hd|done| |].
  - unfold dl_operations at 1. cbn. unfold ids_of. rewrite !flat_map_concat_map, H2. done.
  - destruct Hd as [_ Hne]. unfold dl_operations at 1. cbn. intros ->. by destruct (dl_operations d).
Qed.

Lemma keeps_add d n : dialog_ok d n → keeps (addOperation d) n.
Proof.
  intros [Hd Hne]. unfold keeps, addOperation, mbind, gen_bind. pose proof (draws_default n) as H.
  destruct (createDefaultOperation n) as [[op|] n']; [|done]. split.
  - unfold dl_operations at 1. cbn. fold (dl_operations d). rewrite ids_of_app. cbn. rewrite app_nil_r.
    by eapply drawn_app.
  - unfold dl_operations at 1. cbn. fold (dl_operations d). by destruct (dl_operations d).
Qed.

Lemma keeps_duplicate eager id d n : dialog_ok d n → keeps (duplicateOperation eager id d) n.
Proof.
  intros [Hd Hne]. unfold duplicateOperation. destruct (findIndex _ _) as [i|]; [|done].
  destruct (dl_operations d !! i) as [source|]; [|done]. unfold keeps, mbind, gen_bind.
  pose proof (draws_operation (duplicate_value source) n) as H.
  destruct (normalizeOperation _ n) as [[op|] n']; [|done].
  set (ops := take (S i) (dl_operations d) ++ op :: drop (S i) (dl_operations d)).
  assert (E : ∀ b, dl_operations (if b : bool then setSelectedOperationId (o_id op) (setOperations ops d) else setOperations ops d) = ops)
    by (by intros []).
  split; rewrite E; [|unfold ops; by destruct (take _ _)].
  eapply drawn_sub; [eapply drawn_app; [exact Hd|exact H]|done|]. apply Permutation_submseteq. unfold ops, ids_of.
  rewrite <- Permutation_middle, take_drop. cbn [flat_map]. apply Permutation_app_comm.
Qed.

Lemma others_nonempty id ops :
  NoDup (map o_id ops) → (1 < length ops)%nat → others id ops ≠ [].
Proof.
  destruct ops as [|a [|b ops]]; cbn [length]; try lia. cbn [map]. intros [Ha _]%list.NoDup_cons _.
  unfold others. cbn [List.filter]. destruct (has_id id a) eqn:Ea; [|done]. destruct (has_id id b) eqn:Eb; [|done].
  apply has_id_spec in Ea, Eb. exfalso. apply Ha. rewrite Ea, <- Eb. by left.
Qed.

Lemma keeps_remove id d n : dialog_ok d n → keeps (removeOperation id d) n.
Proof.
  intros Hd. unfold removeOperation. destruct (length (dl_operations d) <=? 1)%nat eqn:El.
  { by apply (keeps_default (λ op, setOperations [op] d)). }
  apply Nat.leb_gt in El. apply keeps_ret. eapply ok_sub; [exact Hd|done| |].
  - apply ids_sub, sublist_submseteq, filterb_sublist.
  - apply (others_nonempty id (dl_operations d)); [|lia]. apply op_ids_nodup, Hd.
Qed.

Lemma keeps_add_condition id d n : dialog_ok d n → keeps (addCondition id d) n.
Proof.
  intros [Hd Hne]. unfold keeps, addCondition, mbind, gen_bind, createDefaultCondition.
  pose proof (draws_condition (JObj []) n) as H. destruct (normalizeCondition (JObj []) n) as [[c|] n']; [|done].
  split.
  - eapply drawn_sub; [eapply drawn_app; [exact Hd|exact H]|done|]. apply ids_add_condition. apply Hd.
  - by apply (map_operation_ne id (λ op, set_o_conditions (o_conditions op ++ [c]) op)).
Qed.

Lemma ok_drop data id d n : dialog_ok d n → dialog_ok (handleDrop data id d) n.
Proof.
  intros Hd. unfold handleDrop. destruct (_ && _); [|exact Hd]. eapply ok_sub; [exact Hd|done| |].
  - apply ids_sub, Permutation_submseteq. apply reorder_perm.
  - destruct Hd as [_ Hne]. unfold dl_operations at 1. cbn. intros E. apply Hne.
    apply Permutation_nil_r. rewrite <- E. symmetry. apply reorder_perm.
Qed.

Lemma keeps_to_visual d n : dialog_ok d n → keeps (switchToVisualMode d) n.
Proof.
  intros Hd. unfold switchToVisualMode. destruct (es_editMode _); [done|].
  destruct (negb _).
  { by apply (keeps_default (λ op, setSelectedOperationId (o_id op)
      (with_state (visual_state VisualOperations [] [op] (es_jsonText (dl_state d))) d))). }
  destruct (JSON_parse _) as [[]|]; try done.
  assert (Hl : keeps (fallback ← createDefaultOperation;
    mret (setTemplatePresetKey "legacy_default" (setSelectedOperationId (o_id fallback)
      (with_state (visual_state VisualLegacy (JSON_stringify_2 (JObj kvs)) [fallback] (es_jsonText (dl_state d))) d)))) n)
    by (by apply (keeps_default (λ op, setTemplatePresetKey "legacy_default" (setSelectedOperationId (o_id op)
      (with_state (visual_state VisualLegacy (JSON_stringify_2 (JObj kvs)) [op] (es_jsonText (dl_state d))) d))))).
  destruct (obj_get "operations" kvs) as [[]|]; try exact Hl.
  apply (keeps_fresh (read_operations l) (λ ops, setTemplatePresetKey "operations_default"
    (setSelectedOperationId (first_id ops) (with_state (visual_state VisualOperations [] ops (es_jsonText (dl_state d))) d))));
    [apply draws_read|done|]. intros n' ops. apply read_nonempty.
Qed.

(** Every template of operations has some. *)
Definition payload_operations (preset : TemplatePresetConfig) : list json :=
  match obj_get "operations" (tp_payload preset) with Some (JArr l) => l | _ => [] end.

Definition template_ok (preset : TemplatePresetConfig) : bool :=
  match tp_kind preset with KindLegacy => true | KindOperations => nonempty (payload_operations preset) end.

Lemma assoc_get_all {A} (p : A → bool) k l (x : A) :
  forallb (λ '(_, y), p y) l = true → p x = true → p (default x (assoc_get k l)) = true.
Proof.
  intros H Hx. induction l as [|[k' y] l IH]; [done|]. cbn [forallb assoc_get] in *. apply andb_prop in H as [Hy H].
  destruct (str_eqb k k'); [done|by apply IH].
Qed.

Lemma templates_ok key : template_ok (default default_template (assoc_get key TEMPLATE_PRESET_CONFIG)) = true.
Proof. by apply assoc_get_all. Qed.

Lemma keeps_fill mode d n : dialog_ok d n → keeps (fillTemplate mode d) n.
Proof.
  intros Hd. unfold fillTemplate. pose proof (templates_ok (dl_templatePresetKey d)) as Ht.
  destruct (default _ _) as [label kind payload]. unfold template_ok, payload_operations in Ht.
  cbn [tp_kind tp_payload] in *.
  assert (Hl : ∀ p, keeps (legacy_filled p d) n).
  { intros p. by apply (keeps_default (λ op, with_state
      (visual_state VisualLegacy (JSON_stringify_2 (JObj p)) [op] (JSON_stringify_2 (JObj p))) d)). }
  destruct kind.
  - set (l := match obj_get "operations" payload with Some (JArr l) => l | _ => [] end) in *. destruct mode.
    + apply (keeps_fresh (read_operations l) (λ ops, setSelectedOperationId (first_id ops)
        (with_state (visual_state VisualOperations (es_legacyValue (dl_state d)) ops
           (JSON_stringify_2 (JObj [("operations", JArr l)]))) d))); [apply draws_read|done|].
      intros n' ops. apply read_nonempty.
    + unfold keeps, mbind, gen_bind. pose proof (draws_operations l n) as H.
      destruct (mapM normalizeOperation l n) as [[ops|] n'] eqn:E; [|done]. apply mapM_length in E.
      set (existing := match es_visualMode _ with VisualOperations => _ | VisualLegacy => _ end).
      assert (Hs : existing ⊆+ dl_operations d).
      { unfold existing. destruct (es_visualMode _); [|apply submseteq_nil_l].
        apply sublist_submseteq, filterb_sublist. }
      split; [|destruct ops; [by destruct l|]; change (existing ++ p :: ops ≠ []); by destruct existing].
      change (drawn 0 n' (ids_of (existing ++ ops))). rewrite ids_of_app.
      eapply drawn_app; [|exact H]. eapply drawn_sub; [apply Hd|done|by apply ids_sub].
  - destruct mode; [apply Hl|]. destruct (es_visualMode _); [apply Hl|].
    destruct (legacy_current _); [apply Hl|done].
Qed.

Lemma edit_ids e op : ids_of_op (operation_edit e op) = ids_of_op op.
Proof. by destruct e; cbn; repeat case_match. Qed.

Lemma condition_ids cid e cs :
  map c_id (map (λ c, if str_eqb (c_id c) cid then condition_edit e c else c) cs) = map c_id cs.
Proof.
  induction cs as [|c cs IH]; [done|]. cbn [map]. rewrite IH. f_equal. destruct (str_eqb _ _); [|done]. by destruct e.
Qed.

Lemma keeps_event e d n : dialog_ok d n → keeps (dialog_event e d) n.
Proof.
  intros Hd. destruct e; cbn [dialog_event]; try exact Hd.
  - apply keeps_open.
  - unfold keeps, mbind, gen_bind.
    assert (Hm : mono (pruneObjectsDraft d)).
    { unfold pruneObjectsDraft. destruct (selectedOperation d); [|apply mono_ret].
      destruct (str_eqb _ _); [|apply mono_ret]. apply mono_bind; [eapply draws_mono, draws_draft|intros; apply mono_ret]. }
    specialize (Hm n). destruct (pruneObjectsDraft d n) as [[x|] n']; [|exact Hm].
    eapply ok_sub; [exact Hd|exact Hm|done|apply Hd].
  - apply ok_update; [|done]. intros op. by rewrite edit_ids.
  - by apply keeps_add.
  - by apply keeps_duplicate.
  - by apply keeps_remove.
  - by apply keeps_add_condition.
  - apply ok_update; [|done]. intros op. unfold ids_of_op. cbn [set_o_conditions o_id o_conditions].
    by rewrite condition_ids.
  - apply ok_update; [|done]. intros op. unfold ids_of_op. cbn [set_o_conditions o_id o_conditions].
    apply submseteq_skip, sublist_submseteq, map_sublist, filterb_sublist.
  - apply (ok_same d); [|done]. unfold expandAllConditions, collapseAllConditions, set_expanded.
    destruct open; by destruct (selectedOperation d).
  - by apply ok_update.
  - apply keeps_prune; [intros; apply mono_ret|done].
  - apply keeps_prune; [|done]. intros draft. apply mono_bind; [apply mono_rule|intros; apply mono_ret].
  - apply keeps_prune; [intros; apply mono_ret|done].
  - apply keeps_prune; [intros; apply mono_ret|done].
  - apply (ok_same d); [|done]. unfold handleDragOver. by destruct (_ || _).
  - by apply ok_drop.
  - apply (ok_same d); [|done]. unfold switchToJsonMode. destruct (es_editMode _); [|done].
    by destruct (buildVisualJson _).
  - by apply keeps_to_visual.
  - by apply keeps_fill.
  - by apply (keeps_default (λ op, setTemplatePresetKey "operations_default"
      (setSelectedOperationId (o_id op) (with_state (visual_state VisualOperations [] [op] []) d)))).
  - apply (ok_same d); [|done]. unfold formatJson. destruct (negb _); [done|]. by destruct (JSON_parse _).
Qed.

Lemma keep_ok d n : dialog_ok d n → dialog_ok (keep_selection d) n.
Proof.
  apply ok_same. unfold keep_selection. destruct (dl_operations d) eqn:E; [exact E|].
  destruct (existsb _ _); exact E.
Qed.

Lemma find_selected id ops : existsb (has_id id) ops = true → ∃ op, List.find (has_id id) ops = Some op.
Proof.
  induction ops as [|op ops IH]; [done|]. cbn [existsb List.find]. destruct (has_id id op); [by exists op|exact IH].
Qed.

Lemma keep_selected d : dl_operations d ≠ [] → ∃ op, selectedOperation (keep_selection d) = Some op.
Proof.
  intros Hne. unfold keep_selection. destruct (dl_operations d) as [|op ops] eqn:E; [done|].
  destruct (existsb _ _) eqn:Ex.
  - unfold selectedOperation. rewrite E. by apply find_selected.
  - exists op. unfold selectedOperation. change (dl_operations (setSelectedOperationId (o_id op) d)) with (dl_operations d).
    rewrite E. cbn [List.find]. change (dl_selectedOperationId (setSelectedOperationId (o_id op) d)) with (o_id op).
    by rewrite (proj2 (has_id_spec (o_id op) op) eq_refl).
Qed.

Definition good (dn : Dialog * N) : Prop := dialog_ok dn.1 dn.2 ∧ ∃ op, selectedOperation dn.1 = Some op.

Lemma step_good e dn : good dn → good (dialog_step e dn).
Proof.
  destruct dn as [d n]. intros [Hd Hs]. unfold dialog_step. cbn [fst snd] in *.
  pose proof (keeps_event e d n Hd) as H. unfold keeps in H. destruct (dialog_event e d n) as [[d'|] n'].
  - split; cbn [fst snd]; [by apply keep_ok|apply keep_selected, H].
  - split; cbn [fst snd]; [|done]. eapply ok_sub; [exact Hd|done|done|apply Hd].
Qed.

Lemma run_good es dn : good dn → good (dialog_run es dn).
Proof. revert dn. induction es as [|e es IH]; intros dn H; [done|]. by apply IH, step_good. Qed.

Lemma open_good value n d m : open_dialog value n = (Ok d, m) → good (d, m).
Proof.
  intros E. pose proof (keeps_open value n) as H. unfold keeps in H. rewrite E in H. split; [done|].
  cbn [fst]. assert (Hs : dl_selectedOperationId d = first_id (dl_operations d)).
  { unfold open_dialog, mbind, gen_bind in E. destruct (parseInitialState value n) as [[st|] n']; [|done].
    by injection E as <- _. }
  destruct H as [_ H]. unfold selectedOperation. rewrite Hs. destruct (dl_operations d) as [|op ops]; [done|].
  exists op. cbn [first_id List.find]. by rewrite (proj2 (has_id_spec (o_id op) op) eq_refl).
Qed.

(** ** Edits of pruning rules *)

(** With different identifiers one operation is changed. *)
Lemma update_prune_other id u ops n :
  id ∉ map o_id ops → mapM (update_prune id u) ops n = (Ok ops, n).
Proof.
  intros H%not_in_has_id. revert n. induction ops as [|op ops IH]; intros n; [done|]. cbn [forallb mapM] in *.
  apply andb_prop in H as [Ho H]. unfold mbind, gen_bind, update_prune at 1. rewrite Ho. cbn [mret gen_ret].
  by rewrite IH.
Qed.

Lemma update_prune_one id u ops n :
  NoDup (map o_id ops) →
  mapM (update_prune id u) ops n
  = match List.find (has_id id) ops with
    | None => (Ok ops, n)
    | Some op =>
        match update_prune id u op n with
        | (Ok op', n') => (Ok (map_operation id (λ _, op') ops), n')
        | (Throw, n') => (Throw, n')
        end
    end.
Proof.
  revert n. induction ops as [|op ops IH]; intros n; [done|]. cbn [map List.find mapM].
  intros [Hn Hd]%list.NoDup_cons. unfold mbind, gen_bind. destruct (has_id id op) eqn:Eo.
  - pose proof Eo as <-%has_id_spec. destruct (update_prune (o_id op) u op n) as [[op'|] n']; [|done].
    rewrite update_prune_other by done. cbn [mret gen_ret]. unfold map_operation. cbn [map]. rewrite Eo.
    pose proof (other_operations (o_id op) ops (λ _, op') Hn) as E. unfold map_operation in E. by rewrite E.
  - unfold update_prune at 1. rewrite Eo. cbn [negb mret gen_ret]. rewrite IH by done.
    destruct (List.find (has_id id) ops); [|done]. destruct (update_prune id u p n) as [[op'|] n']; [|done].
    cbn. by rewrite Eo.
Qed.

(** The rules shown have other identifiers than those an edit works on. *)
Lemma rule_not_found text n draft n1 m draft' m1 r :
  parsePruneObjectsDraft text n = (Ok draft, n1) → (n1 ≤ m)%N →
  parsePruneObjectsDraft text m = (Ok draft', m1) → r ∈ d_rules draft →
  forallb (λ r', negb (str_eqb (r_id r') (r_id r))) (d_rules draft') = true.
Proof.
  intros E1 Hm E2 Hr. pose proof (draws_draft text n) as H1. rewrite E1 in H1.
  pose proof (draws_draft text m) as H2. rewrite E2 in H2. destruct H1 as (_ & _ & H1), H2 as (_ & _ & H2).
  apply forallb_forall. intros r' Hr'. apply negb_true_iff, str_eqb_neq. intros E.
  rewrite list.Forall_forall in H1, H2.
  destruct (H1 (r_id r)) as (k & Ek & Hk); [by apply elem_of_mapb; exists r|].
  destruct (H2 (r_id r')) as (k' & Ek' & Hk'); [apply elem_of_mapb; exists r'; by rewrite list_elem_of_In|].
  assert (k = k') by (apply local_id_inj; congruence). lia.
Qed.

Lemma update_rule_none rid patch draft :
  forallb (λ r, negb (str_eqb (r_id r) rid)) (d_rules draft) = true → update_rule rid patch draft = draft.
Proof.
  intros H. unfold update_rule, set_rules. destruct draft as [? ? ? ? rules]. cbn in *. f_equal.
  induction rules as [|r rules IH]; [done|]. cbn [forallb map] in *. apply andb_prop in H as [Hr%negb_true_iff H].
  by rewrite Hr, IH.
Qed.

Lemma remove_rule_none rid draft :
  forallb (λ r, negb (str_eqb (r_id r) rid)) (d_rules draft) = true → remove_rule rid draft = draft.
Proof. intros H. unfold remove_rule, set_rules. rewrite filterb_all by done. by destruct draft. Qed.

(** A rule without a path is not written. *)
Lemma added_rule_not_written draft n :
  ∃ draft', add_rule draft n = (Ok draft', (n + 1)%N)
  ∧ buildPruneObjectsValueText draft' = buildPruneObjectsValueText (prune_edit (PruneSimple false) draft).
Proof.
  eexists. split; [reflexivity|]. unfold buildPruneObjectsValueText. cbn [d_simpleMode prune_edit].
  assert (E : prune_payload {| d_simpleMode := false; d_typeText := d_typeText draft; d_logic := d_logic draft;
      d_recursive := d_recursive draft;
      d_rules := d_rules draft ++ [{| r_id := local_id n; r_path := prop_text "path" [];
        r_mode := prop_mode CONDITION_MODE_VALUES "full" []; r_value_text := toValueText (obj_get "value" []);
        r_invert := prop_is_true "invert" []; r_pass_missing_key := prop_is_true "pass_missing_key" [] |}] |}
    = prune_payload (prune_edit (PruneSimple false) draft)).
  { unfold prune_payload. cbn [d_typeText d_logic d_recursive d_rules prune_edit].
    by rewrite List.filter_app, app_nil_r. }
  by rewrite E.
Qed.

Lemma selected_in d op : selectedOperation d = Some op → op ∈ dl_operations d ∧ o_id op = dl_selectedOperationId d.
Proof. unfold selectedOperation. intros [H1 H2]%find_some. split; [by apply list_elem_of_In|by apply has_id_spec]. Qed.

Lemma prune_result id u d n op :
  dialog_ok d n → List.find (has_id id) (dl_operations d) = Some op →
  ∀ m, updatePruneObjectsDraft id u d m
  = match update_prune id u op m with
    | (Ok op', m') => (Ok (setOperations (map_operation id (λ _, op') (dl_operations d)) d), m')
    | (Throw, m') => (Throw, m')
    end.
Proof.
  intros [Hd _] Hf m. unfold updatePruneObjectsDraft, mbind, gen_bind.
  rewrite update_prune_one by apply op_ids_nodup, Hd. rewrite Hf.
  by destruct (update_prune id u op m) as [[op'|] m'].
Qed.
End ids.

(** ** The properties *)

Section properties.
Context {clock : Clock}.

(** C28: what is saved opens again.  When a list of operations is saved, the text
    opens in the list of rules, as the operations that were not blank with their
    texts trimmed, without the fields their modes do not use, and saving it at once
    gives the same text.  This holds of operations of the known modes whose values are
    JSON values or plain texts other than strings in quotes ([operation_ok]): a string
    in quotes that reads as another JSON value is retyped ([string_value_retyped]). *)
Theorem saved_overrides_reopen ops text n :
  forallb operation_ok (kept_operations ops) = true → buildOperationsJson ops true = inl text → text ≠ [] →
  ∃ st n', parseInitialState text n = (Ok st, n')
  ∧ es_editMode st = EditVisual ∧ es_visualMode st = VisualOperations ∧ es_jsonText st = text
  ∧ map erase_operation (es_operations st) = map operation_again (kept_operations ops)
  ∧ handleSave st = inl text.
Proof.
  intros Hok Hb Hne. destruct (build_inl ops text Hb Hne) as (Hn & Hv & ->).
  destruct (read_payloads (kept_operations ops) n Hok) as (ops' & n' & Em & Ee & Hw).
  destruct (again_texts _ _ Ee Hok Hv) as (Hk & Hp & Hv').
  assert (Hwf : wf_json (JObj [("operations", JArr (map operation_payload (kept_operations ops)))]) = true).
  { cbn [wf_json forallb map fst nodup_keys]. rewrite Hw. key. }
  eexists _, n'. split.
  { eapply open_operations; [apply indented_trimmed|by apply JSON_parse_stringify_2|reflexivity| |exact Em].
    by destruct (kept_operations ops). }
  cbn [es_editMode es_visualMode es_jsonText es_operations]. split_and!; try done.
  rewrite save_operations; [by rewrite Hk; unfold operations_text; rewrite Hp| |by rewrite Hk].
  rewrite Hk. destruct ops', (kept_operations ops); done.
Qed.

(** Identifiers are never shared.  Whatever the user does after opening the
    dialog, all operations and conditions have different identifiers, so that an
    edit changes the one it is meant for; and one operation is always selected. *)
Theorem dialog_ids_apart value n d m es :
  open_dialog value n = (Ok d, m) →
  NoDup (ids_of (dl_operations (dialog_run es (d, m)).1))
  ∧ ∃ op, selectedOperation (dialog_run es (d, m)).1 = Some op.
Proof.
  intros H%open_good%(run_good es). destruct H as [[(_ & Hn & _) _] Hs]. by split.
Qed.

(** Pruning rules cannot be edited.  In any state of the dialog, changing or
    deleting a rule that is shown leaves all rules as they are, because the rules
    are read again, with new identifiers, before the edit; and adding a rule does
    nothing but leave the simple mode, because a rule without a path is not
    written. *)
Theorem prune_rule_edits_lost d n op draft n1 m r patch :
  dialog_ok d n → selectedOperation d = Some op → pruneObjectsDraft d n = (Ok (Some draft), n1) →
  r ∈ d_rules draft → (n1 ≤ m)%N →
  updatePruneRule (o_id op) (r_id r) patch d m = updatePruneObjectsDraft (o_id op) mret d m
  ∧ removePruneRule (o_id op) (r_id r) d m = updatePruneObjectsDraft (o_id op) mret d m
  ∧ (addPruneRule (o_id op) d m).1
    = (updatePruneObjectsDraft (o_id op) (λ draft, mret (prune_edit (PruneSimple false) draft)) d m).1.
Proof.
  intros Hd Hs Hp Hr Hm. destruct (selected_in d op Hs) as [Hin Hid].
  assert (Hf : List.find (has_id (o_id op)) (dl_operations d) = Some op) by (rewrite Hid; exact Hs).
  unfold pruneObjectsDraft in Hp. rewrite Hs in Hp. destruct (str_eqb _ _); [|done].
  unfold mbind, gen_bind in Hp. destruct (parsePruneObjectsDraft (o_value_text op) n) as [[dr|] k] eqn:E1; [|done].
  injection Hp as -> ->. unfold updatePruneRule, removePruneRule, addPruneRule.
  rewrite !(prune_result (o_id op) _ d n op Hd Hf). unfold update_prune, mbind, gen_bind.
  rewrite (proj2 (has_id_spec (o_id op) op) eq_refl). cbn [negb].
  destruct (parsePruneObjectsDraft (o_value_text op) m) as [[draft'|] m1] eqn:E2; [|done].
  pose proof (rule_not_found _ _ _ _ _ _ _ r E1 Hm E2 Hr) as Hnf.
  rewrite update_rule_none, remove_rule_none by done. split_and!; [done|done|].
  destruct (added_rule_not_written draft' m1) as (draft2 & -> & Et). cbn [mret gen_ret]. by rewrite Et.
Qed.
(** Dragging an operation onto another moves it to that side of it.  All other
    operations keep their order, the moved one is selected, and the drag is over. *)
Theorem drag_moves d n s t position data :
  dialog_ok d n → s ∈ dl_operations d → t ∈ dl_operations d → o_id s ≠ o_id t →
  let d' := handleDrop data (o_id t) (handleDragOver (o_id t) position (handleDragStart (o_id s) d)) in
  dl_selectedOperationId d' = o_id s ∧ dl_drag d' = no_drag
  ∧ ∃ a b, others (o_id s) (dl_operations d) = a ++ t :: b
         ∧ dl_operations d' = a ++ beside position s t ++ b.
Proof.
  intros [(_ & Hn & Hf) _] Hs Ht Hne. cbv zeta.
  assert (Hid : ∀ op, op ∈ dl_operations d → o_id op ≠ []).
  { intros op Hop. rewrite list.Forall_forall in Hf. destruct (Hf (o_id op)) as (k & -> & _); [by apply in_ids|discriminate]. }
  destruct (reorder_spec (dl_operations d) s t position) as (a & b & E1 & E2); auto using op_ids_nodup.
  pose proof (proj2 (str_eqb_neq _ _) Hne) as Hst.
  pose proof (proj2 (nonempty_true _) (Hid s Hs)) as Hs0. pose proof (proj2 (nonempty_true _) (Hid t Ht)) as Ht0.
  unfold handleDragOver, handleDragStart.
  cbn [dl_drag setSelectedOperationId setDrag draggedOperationId dragOverOperationId dragOverPosition].
  rewrite Hs0, Hst. cbn [negb orb]. unfold handleDrop.
  cbn [dl_drag setSelectedOperationId setDrag draggedOperationId dragOverOperationId dragOverPosition].
  assert (Et : text_or (o_id s) data = o_id s) by (unfold text_or; by rewrite Hs0).
  rewrite Et, str_eqb_refl, Hs0, Ht0, Hst. cbn [negb andb]. split_and!; [done|done|].
  exists a, b. split; [done|]. exact E2.
Qed.

(** A string that looks like JSON changes its type.  An operation that sets a
    field to a string whose text is a JSON value, such as [5] or [true], is saved
    with that value instead of the string by opening and saving the dialog. *)
Theorem string_value_retyped p s v n :
  units_ok p = true → trim p = p → nonempty p = true → units_ok s = true → JSON_parse (trim s) = Some v →
  let text value := JSON_stringify_2
    (JObj [("operations", JArr [JObj [("mode", JStr "set"); ("path", JStr p); ("value", value)]])]) in
  ∃ st n', parseInitialState (text (JStr s)) n = (Ok st, n') ∧ handleSave st = inl (text v).
Proof.
  intros Hp Ht Hn Hs Hv. cbv zeta.
  assert (Hl : parseLooseValue s = v).
  { unfold parseLooseValue. rewrite Hv. destruct (trim s); [by rewrite JSON_parse_nil in Hv|done]. }
  set (op := {| o_id := local_id n; o_description := []; o_path := p; o_mode := "set"; o_from := []; o_to := [];
                o_value_text := s; o_keep_origin := false; o_logic := "OR"; o_conditions := [] |}).
  assert (Hb : isOperationBlank op = false).
  { unfold isOperationBlank. cbn [o_mode o_path op]. rewrite Ht, Hn. reflexivity. }
  assert (Hc : validate_operation op = None).
  { apply validate_complete. unfold complete. cbn [o_path o_from o_to o_value_text op].
    split_and!; try (intros H; vm_compute in H; discriminate). intros _. by rewrite Ht. }
  assert (Hf : operation_payload op = JObj [("mode", JStr "set"); ("path", JStr p); ("value", v)]).
  { unfold operation_payload, operation_fields. cbn [o_path o_from o_to o_value_text o_description o_conditions op].
    by rewrite Ht, Hl. }
  eexists _, (n + 1)%N. split.
  - eapply (open_operations [("operations", JArr [JObj [("mode", JStr "set"); ("path", JStr p); ("value", JStr s)]])]
      [JObj [("mode", JStr "set"); ("path", JStr p); ("value", JStr s)]]);
      [apply indented_trimmed| |reflexivity|reflexivity|].
    + apply JSON_parse_stringify_2. cbn [wf_json forallb map fst nodup_keys]. rewrite Hp, Hs. key.
    + cbn [mapM]. unfold mbind, gen_bind, normalizeOperation, mbind, gen_bind. reflexivity.
  - change (handleSave {| es_editMode := EditVisual; es_visualMode := VisualOperations; es_legacyValue := [];
      es_operations := [op]; es_jsonText := JSON_stringify_2 (JObj [("operations",
        JArr [JObj [("mode", JStr "set"); ("path", JStr p); ("value", JStr s)]])]); es_jsonError := None |}
      = inl (JSON_stringify_2 (JObj [("operations",
        JArr [JObj [("mode", JStr "set"); ("path", JStr p); ("value", v)]])]))).
    assert (Hk : kept_operations [op] = [op]) by (unfold kept_operations; cbn [List.filter]; by rewrite Hb).
    rewrite save_operations; rewrite ?Hk; [|done|by constructor]. unfold operations_text. cbn [map]. by rewrite Hf.
Qed.

(** A text with an operation that is [null] cannot be opened: reading it throws. *)
Theorem null_operation_throws text kvs l n :
  JSON_parse (trim text) = Some (JObj kvs) → obj_get "operations" kvs = Some (JArr l) → JNull ∈ l →
  (parseInitialState text n).1 = Throw.
Proof.
  intros Hp Ho Hl. unfold parseInitialState.
  destruct (trim text) as [|c t] eqn:E; [by rewrite JSON_parse_nil in Hp|]. cbn [nonempty negb].
  rewrite Hp, Ho. destruct l as [|x l]; [by apply not_elem_of_nil in Hl|].
  assert (H : ∀ l n, JNull ∈ l → (mapM normalizeOperation l n).1 = Throw).
  { clear. induction l as [|x l IH]; intros n Hl; [by apply not_elem_of_nil in Hl|]. cbn [mapM].
    unfold mbind, gen_bind. destruct (normalizeOperation x n) as [[op|] n1] eqn:Ex; [|done].
    apply elem_of_cons in Hl as [<-|Hl]; [done|]. specialize (IH n1 Hl).
    destruct (mapM normalizeOperation l n1) as [[ops|] n2]; [done|done]. }
  specialize (H (x :: l) n Hl). unfold mbind, gen_bind, read_operations.
  destruct (mapM normalizeOperation (x :: l) n) as [[ops|] n1]; done.
Qed.

(** A draft for pruning with a type and nothing else is shown in the simple mode
    again, whatever mode was chosen. *)
Theorem advanced_mode_left draft n :
  nonempty (trim (d_typeText draft)) = true → units_ok (d_typeText draft) = true → d_logic draft = "AND" →
  d_recursive draft = true → d_rules draft = [] →
  ∃ draft' n', parsePruneObjectsDraft (buildPruneObjectsValueText (prune_edit (PruneSimple false) draft)) n
               = (Ok draft', n') ∧ d_simpleMode draft' = true.
Proof.
  intros Ht Hu Hl Hr Hrules. unfold buildPruneObjectsValueText, prune_payload.
  cbn [d_simpleMode d_typeText d_logic d_recursive d_rules prune_edit]. rewrite Ht, Hl, Hr, Hrules.
  cbn -[trim JSON_stringify parsePruneObjectsDraft].
  assert (Hw : wf_json (JObj [("type", JStr (trim (d_typeText draft)))]) = true).
  { cbn [wf_json forallb map fst nodup_keys]. rewrite units_trim by done. key. }
  unfold parsePruneObjectsDraft. rewrite (trim_trimmed _ (json_text_trimmed _ Hw)), (JSON_parse_stringify _ Hw).
  eexists _, _. split; [reflexivity|]. reflexivity.
Qed.
(** The draft of a custom error with all its fields survives its text; texts are
    trimmed and a status outside 100 to 599 becomes 400. *)
Theorem error_draft_reads draft :
  e_simpleMode draft = false → forallb units_ok [e_message draft; e_code draft; e_type draft] = true →
  num_ok (status_or_400 (e_statusCode draft)) = true →
  parseReturnErrorDraft (buildReturnErrorValueText draft)
  = {| e_message := trim (e_message draft); e_statusCode := status_or_400 (e_statusCode draft);
       e_code := trim (e_code draft); e_type := trim (e_type draft); e_skipRetry := e_skipRetry draft;
       e_simpleMode := false |}.
Proof.
  intros Hs Hu Hn. cbn [forallb] in Hu.
  repeat match goal with H : _ && _ = true |- _ => apply andb_prop in H as [? ?] end.
  assert (Hw : wf_json (JObj (error_payload draft)) = true).
  { change (wf_fields (error_payload draft) = true). unfold error_payload.
    repeat (apply wf_set_if; [key|key|first [done|intros _; by apply units_trim]|]).
    unfold wf_fields. cbn [wf_json forallb map fst nodup_keys]. rewrite Hn, units_trim by done. key. }
  assert (H400 : ∀ x, status_or_400 (status_or_400 x) = status_or_400 x).
  { intros x. unfold status_or_400. destruct (is_http_code x) eqn:E; [by rewrite E|reflexivity]. }
  unfold buildReturnErrorValueText, parseReturnErrorDraft. rewrite Hs, (trim_trimmed _ (json_text_trimmed _ Hw)).
  pose proof (stringify_length _ Hw) as Hl. destruct (nonempty (JSON_stringify _)) eqn:En;
    [|destruct (JSON_stringify (JObj (error_payload draft))); cbn in *; [lia|done]].
  unfold parse_object. rewrite (JSON_parse_stringify _ Hw). cbn [negb].
  unfold error_payload, prop_string_or, prop_is_false, status_number. rewrite !get_set_if.
  cbn -[trim nonempty status_or_400 is_http_code json_or]. rewrite ?andb_false_r, ?andb_true_r.
  cbn -[trim nonempty status_or_400 is_http_code json_or]. rewrite H400.
  destruct (trim (e_message draft)) eqn:Em, (trim (e_code draft)) eqn:Ec, (trim (e_type draft)) eqn:Et,
    (e_skipRetry draft); cbn -[trim status_or_400 is_http_code]; by rewrite <- ?Em, <- ?Ec, <- ?Et, ?trim_idem.
Qed.
End properties.

(** ** Witnesses *)

#[local] Instance sample_clock : Clock := λ n, (1700000000000 + n)%N.

Definition sample_operation : ParamOverrideOperation :=
  {| o_id := local_id 0; o_description := " default "; o_path := "temperature "; o_mode := "set"; o_from := "x";
     o_to := []; o_value_text := " 0.70"; o_keep_origin := true; o_logic := "AND";
     o_conditions := [{| c_id := local_id 1; c_path := "model"; c_mode := "prefix"; c_value_text := "openai/";
                         c_invert := true; c_pass_missing_key := false |};
                      {| c_id := local_id 2; c_path := " "; c_mode := "full"; c_value_text := [];
                         c_invert := false; c_pass_missing_key := false |}] |}.

Definition prune_text : jsstr :=
  "{\qtype\q:\qx\q,\qlogic\q:\qOR\q,\qconditions\q:[{\qpath\q:\qa\q,\qmode\q:\qfull\q}]}".

Definition prune_operation : ParamOverrideOperation :=
  {| o_id := local_id 3; o_description := []; o_path := []; o_mode := "prune_objects"; o_from := []; o_to := [];
     o_value_text := prune_text; o_keep_origin := false; o_logic := "OR"; o_conditions := [] |}.

Definition sample_dialog : Dialog :=
  {| dl_state := visual_state VisualOperations [] [sample_operation; prune_operation] [];
     dl_operationSearch := []; dl_selectedOperationId := local_id 3; dl_expandedConditions := ∅;
     dl_drag := no_drag; dl_templatePresetKey := "operations_default" |}.

Lemma sample_dialog_ok : dialog_ok sample_dialog 4.
Proof.
  split; [|done]. apply (drawn_app 0 1 4 [local_id 0]); [apply (drawn_one 0)|].
  apply (drawn_app 1 2 4 [local_id 1]); [apply (drawn_one 1)|].
  apply (drawn_app 2 3 4 [local_id 2]); [apply (drawn_one 2)|]. apply (drawn_one 3).
Qed.

Lemma saved_overrides_reopen_witness :
  ∃ text st n', buildOperationsJson [sample_operation] true = inl text
  ∧ parseInitialState text 7%N = (Ok st, n') ∧ handleSave st = inl text.
Proof.
  destruct (buildOperationsJson [sample_operation] true) as [text|] eqn:E; [|vm_compute in E; discriminate].
  destruct (saved_overrides_reopen [sample_operation] text 7%N) as (st & n' & H1 & _ & _ & _ & _ & H2).
  - vm_compute. reflexivity.
  - exact E.
  - intros ->. vm_compute in E. discriminate.
  - exists text, st, n'. exact (conj eq_refl (conj H1 H2)).
Defined.

Definition sample_events : list DialogEvent :=
  [EvAdd; EvDuplicate true (local_id 0); EvAddCondition (local_id 1); EvDrop (local_id 2) (local_id 0);
   EvRemove (local_id 1); EvFill Append; EvToJson; EvToVisual].

Lemma dialog_ids_apart_witness :
  ∃ d m, open_dialog [] 0%N = (Ok d, m)
  ∧ NoDup (ids_of (dl_operations (dialog_run sample_events (d, m)).1)).
Proof.
  destruct (open_dialog [] 0%N) as [[d|] m] eqn:E; [|vm_compute in E; discriminate].
  exists d, m. exact (conj eq_refl (proj1 (dialog_ids_apart [] 0%N d m sample_events E))).
Defined.

Lemma prune_rule_edits_lost_witness :
  ∃ draft r n1, pruneObjectsDraft sample_dialog 4%N = (Ok (Some draft), n1) ∧ r ∈ d_rules draft
  ∧ removePruneRule (local_id 3) (r_id r) sample_dialog n1 = updatePruneObjectsDraft (local_id 3) mret sample_dialog n1.
Proof.
  destruct (pruneObjectsDraft sample_dialog 4%N) as [[[draft|]|] n1] eqn:E; try (vm_compute in E; discriminate).
  destruct (d_rules draft) as [|r rules] eqn:Er; [vm_compute in E; injection E as <- _; discriminate|].
  assert (Hr : r ∈ d_rules draft) by (rewrite Er; left).
  exists draft, r, n1. split; [reflexivity|]. split; [rewrite Er; left|].
  exact (proj1 (proj2 (prune_rule_edits_lost sample_dialog 4%N prune_operation draft n1 n1 r (λ r, r)
    sample_dialog_ok eq_refl E Hr (N.le_refl n1)))).
Defined.

Lemma drag_moves_witness :
  dl_operations (handleDrop [] (local_id 0) (handleDragOver (local_id 0) Before (handleDragStart (local_id 3) sample_dialog)))
  = [prune_operation; sample_operation]
  ∧ dl_drag (handleDrop [] (local_id 0) (handleDragOver (local_id 0) Before
      (handleDragStart (local_id 3) sample_dialog))) = no_drag.
Proof.
  split; [vm_compute; reflexivity|].
  destruct (drag_moves sample_dialog 4%N prune_operation sample_operation Before []) as (_ & H & _).
  - exact sample_dialog_ok.
  - right. left.
  - left.
  - intros H. vm_compute in H. discriminate.
  - exact H.
Defined.

Lemma string_value_retyped_witness :
  ∃ st n', parseInitialState (JSON_stringify_2 (JObj [("operations",
      JArr [JObj [("mode", JStr "set"); ("path", JStr "stop"); ("value", JStr "5")]])])) 0%N = (Ok st, n')
  ∧ handleSave st = inl (JSON_stringify_2 (JObj [("operations",
      JArr [JObj [("mode", JStr "set"); ("path", JStr "stop"); ("value", JNum (num_of_Z 5))]])])).
Proof. apply (string_value_retyped "stop" "5" (JNum (num_of_Z 5)) 0%N); vm_compute; reflexivity. Defined.
