(* ===== verification/RatioSync.v ===== *)
(** * Prices synchronised from upstream channels

    [features/system-settings/models]: the fields of a difference
    ([upstream-ratio-sync-helpers.ts]), the choice of channels
    ([channel-selector-dialog.tsx]), the table of differences
    ([upstream-ratio-sync-table.tsx], [upstream-ratio-sync-columns.tsx]) and the page
    that keeps the chosen values and writes them into the ten options
    ([upstream-ratio-sync.tsx]).  The options and their maps are those of
    [PricingSettings]. *)
From Stdlib Require Import NArith ZArith.
From stdpp Require Import list gmap.
From S2P Require Import Prelude JsString JsNumber Json JsArray JsonRoundtrip JsonIndent JsRecord PricingSettings ChannelForm.

(** ** The fields of a difference

    A field is named by its text, as in the code: the answer of the server may name
    others than the ten below. *)

Definition RATIO_SYNC_FIELDS : list jsstr :=
  ["model_ratio"; "completion_ratio"; "cache_ratio"; "create_cache_ratio"; "image_ratio"; "audio_ratio";
   "audio_completion_ratio"].

Definition SYNC_FIELD_ORDER : list jsstr :=
  RATIO_SYNC_FIELDS ++ ["model_price"; "billing_mode"; "billing_expr"].

Definition NUMERIC_SYNC_FIELDS : list jsstr := RATIO_SYNC_FIELDS ++ ["model_price"].

(** Values of the server: a number, a text, or [JNull]; the text [SAME] marks a value
    equal to the local one. *)
Definition SAME : jsstr := "same".

Record RatioDifference : Type := {
  rd_current : json;
  rd_upstreams : record json;
  rd_confidence : record bool
}.

Abbreviation RatioTypes := (record RatioDifference).
Abbreviation DifferencesMap := (record (record RatioDifference)).
Abbreviation ResolutionsMap := (record (record json)).

Definition RATIO_TYPE_OPTIONS : list (jsstr * jsstr) :=
  [("Model ratio", "model_ratio"); ("Completion ratio", "completion_ratio"); ("Cache ratio", "cache_ratio");
   ("Create cache ratio", "create_cache_ratio"); ("Image ratio", "image_ratio"); ("Audio ratio", "audio_ratio");
   ("Audio completion ratio", "audio_completion_ratio"); ("Fixed price", "model_price");
   ("Expression billing", "billing_expr")].

(** [t] translates a text. *)
Definition getSyncFieldLabel (t : jsstr → jsstr) (ratioType : jsstr) : jsstr :=
  match List.find (λ o, str_eqb o.2 ratioType) RATIO_TYPE_OPTIONS with
  | Some o => t o.1
  | None => ratioType
  end.

Definition ALL_TYPES : jsstr := "__all__".

Definition getOrderedRatioTypes (ratioTypes : RatioTypes) (filter : jsstr) : list jsstr :=
  let keys := rec_keys ratioTypes in
  let ordered := List.filter (λ f, str_mem f keys) SYNC_FIELD_ORDER
                 ++ List.filter (λ f, negb (str_mem f SYNC_FIELD_ORDER)) keys in
  if negb (nonempty filter) || str_eqb filter ALL_TYPES then ordered
  else List.filter (λ f, str_eqb f filter) ordered.

Definition isSelectableUpstreamValue (value : option json) : bool :=
  match value with
  | None | Some JNull => false
  | Some (JStr s) => negb (str_eqb s SAME)
  | Some _ => true
  end.

(** [ratioTypes[field]?.upstreams?.[sourceName]]. *)
Definition upstream_value (ratioTypes : RatioTypes) (field sourceName : jsstr) : option json :=
  match rec_get field ratioTypes with
  | Some diff => rec_get sourceName (rd_upstreams diff)
  | None => None
  end.

Definition getPreferredSyncField (ratioTypes : RatioTypes) (ratioType sourceName : jsstr) : jsstr :=
  if negb (str_eqb ratioType "billing_expr")
     && isSelectableUpstreamValue (upstream_value ratioTypes "billing_expr" sourceName)
  then "billing_expr" else ratioType.

(** ** The options a field is written to *)

Inductive BillingCategory : Type := CatPrice | CatRatio | CatTiered.

#[export] Instance BillingCategory_eq : EqDecision BillingCategory.
Proof. solve_decision. Defined.

Definition getBillingCategory (ratioType : jsstr) : BillingCategory :=
  if str_eqb ratioType "model_price" then CatPrice
  else if str_eqb ratioType "billing_mode" || str_eqb ratioType "billing_expr" then CatTiered
  else CatRatio.

(** [word.charAt(0).toUpperCase() + word.slice(1)]; [toUpperCase] is the Unicode case
    mapping, a parameter. *)
Definition capitalise (toUpperCase : jsstr → jsstr) (word : jsstr) : jsstr :=
  toUpperCase (take 1 word) ++ drop 1 word.

Definition optionKeyBySyncField (toUpperCase : jsstr → jsstr) (ratioType : jsstr) : jsstr :=
  if str_eqb ratioType "billing_mode" then "billing_setting.billing_mode"
  else if str_eqb ratioType "billing_expr" then "billing_setting.billing_expr"
  else join [] (map (capitalise toUpperCase) (split_char 95%N ratioType)).

(** The properties of [finalRatios], in order. *)
Definition option_name (k : OptionKey) : jsstr :=
  match k with
  | OptNum FRatio => "ModelRatio"
  | OptNum FCompletion => "CompletionRatio"
  | OptNum FCache => "CacheRatio"
  | OptNum FCreateCache => "CreateCacheRatio"
  | OptNum FImage => "ImageRatio"
  | OptNum FAudio => "AudioRatio"
  | OptNum FAudioCompletion => "AudioCompletionRatio"
  | OptNum FPrice => "ModelPrice"
  | OptMode => "billing_setting.billing_mode"
  | OptExpr => "billing_setting.billing_expr"
  end.

Definition RATIO_OPTIONS : list OptionKey :=
  map OptNum [FRatio; FCompletion; FCache; FCreateCache; FImage; FAudio; FAudioCompletion].
Definition SYNC_OPTIONS : list OptionKey := RATIO_OPTIONS ++ [OptNum FPrice; OptMode; OptExpr].

(** [finalRatios[name]]: [None] is [undefined]. *)
Definition option_of_name (name : jsstr) : option OptionKey :=
  List.find (λ k, str_eqb (option_name k) name) SYNC_OPTIONS.

Definition parseJsonRecord (raw : jsstr) : json :=
  match JSON_parse (if nonempty raw then raw else "{}") with Some j => j | None => JObj [] end.

(** [parsedRatios]; an option that is no object is not covered. *)
Definition parsedRatios (modelRatios : Texts) : option Maps :=
  let parsed := λ k, parseJsonRecord (modelRatios k) in
  if forallb (λ k, match parsed k with JObj _ => true | _ => false end) SYNC_OPTIONS
  then Some (λ k, match parsed k with JObj kvs => kvs | _ => [] end)
  else None.

(** ** The chosen values *)

Definition deleteResolutionField (res : ResolutionsMap) (model ratioType : jsstr) : ResolutionsMap :=
  match rec_get model res with
  | None => res
  | Some modelRes =>
      let newModelRes := rec_delete ratioType modelRes in
      let newModelRes :=
        if str_eqb ratioType "billing_expr" then rec_delete "billing_mode" newModelRes else newModelRes in
      let newModelRes :=
        if str_eqb ratioType "billing_mode" then rec_delete "billing_expr" newModelRes else newModelRes in
      if nonempty newModelRes then rec_set model newModelRes res else rec_delete model res
  end.

(** The value chosen: the expression of the source when it has one. *)
Definition preferred_choice (differences : DifferencesMap) (model ratioType : jsstr) (value : json)
    (sourceName : jsstr) : jsstr * json :=
  let modelDiffs := rec_get model differences in
  let preferredType :=
    if nonempty sourceName then getPreferredSyncField (default [] modelDiffs) ratioType sourceName
    else ratioType in
  (preferredType,
   if str_eqb preferredType ratioType then value
   else match upstream_value (default [] modelDiffs) preferredType sourceName with
        | None | Some JNull => value
        | Some v => v
        end).

Definition is_tiered_category (c : BillingCategory) : bool := bool_decide (c = CatTiered).

(** The loop that clears conflicting categories. *)
Definition clear_conflicting (category : BillingCategory) (modelRes : record json) : record json :=
  List.filter
    (λ '(rt, _), negb (negb (is_tiered_category category)
                       && negb (is_tiered_category (getBillingCategory rt))
                       && negb (bool_decide (getBillingCategory rt = category))))
    modelRes.

(** The paired fields of a tiered choice, from the same source. *)
Definition pair_tiered (modelDiffs : RatioTypes) (finalType sourceName : jsstr) (modelRes : record json)
    : record json :=
  let modeVal := upstream_value modelDiffs "billing_mode" sourceName in
  let exprVal := upstream_value modelDiffs "billing_expr" sourceName in
  let modelRes :=
    if isSelectableUpstreamValue modeVal
    then rec_set "billing_mode" (default JNull modeVal) modelRes
    else if str_eqb finalType "billing_expr" then rec_set "billing_mode" (JStr TIERED) modelRes
    else modelRes in
  if isSelectableUpstreamValue exprVal
  then rec_set "billing_expr" (default JNull exprVal) modelRes else modelRes.

Definition handleSelectValue (differences : DifferencesMap) (model ratioType : jsstr) (value : json)
    (sourceName : jsstr) (prev : ResolutionsMap) : ResolutionsMap :=
  let '(finalType, finalValue) := preferred_choice differences model ratioType value sourceName in
  let category := getBillingCategory finalType in
  let newModelRes := clear_conflicting category (default [] (rec_get model prev)) in
  let newModelRes := rec_set finalType finalValue newModelRes in
  let newModelRes :=
    match rec_get model differences with
    | Some modelDiffs =>
        if is_tiered_category category && nonempty sourceName
        then pair_tiered modelDiffs finalType sourceName newModelRes else newModelRes
    | None => newModelRes
    end in
  rec_set model newModelRes prev.

Definition handleUnselectValue (model ratioType : jsstr) (prev : ResolutionsMap) : ResolutionsMap :=
  deleteResolutionField prev model ratioType.

(** ** The table of differences *)

Record SyncRow : Type := {
  sr_model : jsstr;
  sr_ratioTypes : RatioTypes;
  sr_billingConflict : bool
}.

Definition dataSource (differences : DifferencesMap) : list SyncRow :=
  map (λ '(model, ratioTypes),
         {| sr_model := model; sr_ratioTypes := ratioTypes;
            sr_billingConflict := rec_has "model_price" ratioTypes
                                  && existsb (λ rt, rec_has rt ratioTypes) RATIO_SYNC_FIELDS |})
    (entries differences).

(** [toLowerCase] is the Unicode case mapping, a parameter. *)
Definition filteredData (toLowerCase : jsstr → jsstr) (search ratioTypeFilter : jsstr) (data : list SyncRow)
    : list SyncRow :=
  let data := if nonempty (trim search)
              then List.filter (λ row, includes (toLowerCase search) (toLowerCase (sr_model row))) data
              else data in
  if nonempty ratioTypeFilter && negb (str_eqb ratioTypeFilter ALL_TYPES)
  then List.filter (λ row, rec_has ratioTypeFilter (sr_ratioTypes row)) data
  else data.

Definition upstreamNames (ratioTypeFilter : jsstr) (rows : list SyncRow) : list jsstr :=
  str_dedup
    (flat_map (λ row, flat_map (λ ratioType,
       match rec_get ratioType (sr_ratioTypes row) with
       | Some diff => rec_keys (rd_upstreams diff)
       | None => []
       end) (getOrderedRatioTypes (sr_ratioTypes row) ratioTypeFilter)) rows).

(** The fields of a row whose value of [upstream] can be chosen on their own. *)
Definition selectable_field (ratioTypes : RatioTypes) (upstream ratioType : jsstr) : bool :=
  str_eqb (getPreferredSyncField ratioTypes ratioType upstream) ratioType
  && isSelectableUpstreamValue (upstream_value ratioTypes ratioType upstream).

(** The calls of [onSelectValue] and [onUnselectValue], in order: the model, the
    field and, to select, the value. *)
Definition bulk_select_calls (upstream ratioTypeFilter : jsstr) (rows : list SyncRow)
    : list (jsstr * jsstr * json) :=
  flat_map (λ row,
    map (λ rt, (sr_model row, rt, default JNull (upstream_value (sr_ratioTypes row) rt upstream)))
      (List.filter (selectable_field (sr_ratioTypes row) upstream)
         (getOrderedRatioTypes (sr_ratioTypes row) ratioTypeFilter))) rows.

Definition handleBulkSelect (differences : DifferencesMap) (upstream ratioTypeFilter : jsstr)
    (rows : list SyncRow) (prev : ResolutionsMap) : ResolutionsMap :=
  fold_left (λ res '(model, rt, v), handleSelectValue differences model rt v upstream res)
    (bulk_select_calls upstream ratioTypeFilter rows) prev.

Definition bulk_unselect_calls (upstream ratioTypeFilter : jsstr) (rows : list SyncRow)
    : list (jsstr * jsstr) :=
  flat_map (λ row,
    map (λ rt, (sr_model row, rt))
      (List.filter (λ rt, match upstream_value (sr_ratioTypes row) rt upstream with
                          | Some _ => true
                          | None => false
                          end)
         (getOrderedRatioTypes (sr_ratioTypes row) ratioTypeFilter))) rows.

Definition handleBulkUnselect (upstream ratioTypeFilter : jsstr) (rows : list SyncRow)
    (prev : ResolutionsMap) : ResolutionsMap :=
  fold_left (λ res '(model, rt), handleUnselectValue model rt res)
    (bulk_unselect_calls upstream ratioTypeFilter rows) prev.

(** [a === b] on the values of the server; objects are never equal. *)
Definition strict_eq (a b : json) : bool :=
  match a, b with
  | JNull, JNull => true
  | JBool x, JBool y => Bool.eqb x y
  | JNum x, JNum y => num_eqb x y
  | JStr x, JStr y => str_eqb x y
  | _, _ => false
  end.

(** [resolutions[model]?.[ratioType] === upstreamVal]. *)
Definition isSelected (resolutions : ResolutionsMap) (model ratioType : jsstr) (upstreamVal : option json)
    : bool :=
  match (match rec_get model resolutions with Some m => rec_get ratioType m | None => None end), upstreamVal with
  | None, None => true
  | Some a, Some b => strict_eq a b
  | _, _ => false
  end.

(** The counts of a column's header: fields that can be chosen, and chosen ones. *)
Definition header_counts (resolutions : ResolutionsMap) (upstream ratioTypeFilter : jsstr)
    (rows : list SyncRow) : nat * nat :=
  fold_left
    (λ acc row, fold_left
       (λ '(selectableCount, selectedCount) ratioType,
          if selectable_field (sr_ratioTypes row) upstream ratioType then
            (S selectableCount,
             if isSelected resolutions (sr_model row) ratioType
                  (upstream_value (sr_ratioTypes row) ratioType upstream)
             then S selectedCount else selectedCount)
          else (selectableCount, selectedCount))
       (getOrderedRatioTypes (sr_ratioTypes row) ratioTypeFilter) acc)
    rows (0, 0).

Definition allSelected (counts : nat * nat) : bool := (0 <? counts.1) && (counts.2 =? counts.1).
Definition someSelected (counts : nat * nat) : bool := (0 <? counts.2) && (counts.2 <? counts.1).

(** The fields shown in a column of a row. *)
Definition cell_fields (ratioTypes : RatioTypes) (upstream ratioTypeFilter : jsstr) : list jsstr :=
  List.filter (λ rt, str_eqb (getPreferredSyncField ratioTypes rt upstream) rt)
    (getOrderedRatioTypes ratioTypes ratioTypeFilter).

(** ** Writing the options *)

Definition delete_in (k : OptionKey) (name : jsstr) (maps : Maps) : Maps :=
  set_key k (obj_delete name (maps k)) maps.

Definition delete_in_all (ks : list OptionKey) (name : jsstr) (maps : Maps) : Maps :=
  fold_left (λ maps k, delete_in k name maps) ks maps.

Section sync.
Context (toUpperCase : jsstr → jsstr).

(** One property of [finalRatios]; a name that is none of them throws. *)
Definition sync_field (model : jsstr) (maps : Maps) (field : jsstr * json) : exn Maps :=
  let '(ratioType, value) := field in
  match option_of_name (optionKeyBySyncField toUpperCase ratioType) with
  | Some k =>
      Ok (set_in k model
            (if str_mem ratioType NUMERIC_SYNC_FIELDS then JNum (json_toNumber value) else value) maps)
  | None => Throw
  end.

Fixpoint sync_fields (model : jsstr) (fields : list (jsstr * json)) (maps : Maps) : exn Maps :=
  match fields with
  | [] => Ok maps
  | f :: rest => maps' ← sync_field model maps f; sync_fields model rest maps'
  end.

Definition sync_model (model : jsstr) (ratios : record json) (maps : Maps) : exn Maps :=
  let selectedTypes := rec_keys ratios in
  let hasPrice := str_mem "model_price" selectedTypes in
  let hasRatio := existsb (λ rt, str_mem rt RATIO_SYNC_FIELDS) selectedTypes in
  let maps := if hasPrice then delete_in_all RATIO_OPTIONS model maps else maps in
  let maps := if hasRatio then delete_in (OptNum FPrice) model maps else maps in
  sync_fields model (entries ratios) maps.

Fixpoint sync_models (res : list (jsstr * record json)) (maps : Maps) : exn Maps :=
  match res with
  | [] => Ok maps
  | (model, ratios) :: rest => maps' ← sync_model model ratios maps; sync_models rest maps'
  end.

(** [performSync]: the updates it sends, in order. *)
Definition performSync (resolutions : ResolutionsMap) (currentRatios : Maps)
    : exn (list (OptionKey * jsstr)) :=
  finalRatios ← sync_models (entries resolutions) currentRatios;
  Ok (map (λ k, (k, JSON_stringify_2 (JObj (finalRatios k)))) SYNC_OPTIONS).
End sync.

(** ** Conflicts with the local settings *)

Definition getLocalBillingCategory (model : jsstr) (currentRatios : Maps) : option BillingCategory :=
  if obj_has model (currentRatios (OptNum FPrice)) then Some CatPrice
  else if existsb (λ k, obj_has model (currentRatios k)) RATIO_OPTIONS then Some CatRatio
  else None.

Definition newCat (ratios : record json) : BillingCategory :=
  if rec_has "model_price" ratios then CatPrice
  else if existsb (λ rt, str_mem rt (rec_keys ratios)) RATIO_SYNC_FIELDS then CatRatio
  else CatTiered.

Definition findSourceChannel (differences : DifferencesMap) (model ratioType : jsstr) (value : json) : jsstr :=
  match rec_get model differences ≫= rec_get ratioType with
  | None => "Unknown"
  | Some diff =>
      match List.find (λ '(_, v), strict_eq v value) (entries (rd_upstreams diff)) with
      | Some (name, _) => name
      | None => "Unknown"
      end
  end.

Record ConflictItem : Type := {
  ci_channel : jsstr;
  ci_model : jsstr;
  ci_current : jsstr;
  ci_newVal : jsstr
}.

(** [v ?? '-'] in a template. *)
Definition or_dash (v : option json) : jsstr :=
  match v with None | Some JNull => "-" | Some j => json_toString j end.

(** [v] in a template. *)
Definition in_template (v : option json) : jsstr :=
  match v with None => "undefined" | Some j => json_toString j end.

Definition describe_price (t : jsstr → jsstr) (v : option json) : jsstr :=
  t "Fixed price" ++ ": " ++ in_template v.

Definition describe_ratio (t : jsstr → jsstr) (modelRatio completionRatio : option json) : jsstr :=
  t "Model ratio" ++ ": " ++ or_dash modelRatio ++ [10%N] ++ t "Completion ratio" ++ ": "
  ++ or_dash completionRatio.

Definition conflict_of (t : jsstr → jsstr) (differences : DifferencesMap) (currentRatios : Maps)
    (entry : jsstr * record json) : list ConflictItem :=
  let '(model, ratios) := entry in
  let cat := newCat ratios in
  match getLocalBillingCategory model currentRatios with
  | None => []
  | Some localCat =>
      if negb (is_tiered_category cat) && negb (bool_decide (localCat = cat)) then
        [{| ci_channel :=
              join ", " (str_dedup (map (λ '(rt, v), findSourceChannel differences model rt v) (entries ratios)));
            ci_model := model;
            ci_current :=
              if bool_decide (localCat = CatPrice)
              then describe_price t (obj_get model (currentRatios (OptNum FPrice)))
              else describe_ratio t (obj_get model (currentRatios (OptNum FRatio)))
                     (obj_get model (currentRatios (OptNum FCompletion)));
            ci_newVal :=
              if bool_decide (cat = CatPrice) then describe_price t (rec_get "model_price" ratios)
              else describe_ratio t (rec_get "model_ratio" ratios) (rec_get "completion_ratio" ratios) |}]
      else []
  end.

(** The loop of [handleApplySync]. *)
Definition sync_conflicts (t : jsstr → jsstr) (differences : DifferencesMap) (resolutions : ResolutionsMap)
    (currentRatios : Maps) : list ConflictItem :=
  flat_map (conflict_of t differences currentRatios) (entries resolutions).

(** ** The choice of channels *)

Record UpstreamChannel : Type := {
  uc_id : Z;
  uc_name : jsstr;
  uc_base_url : jsstr;
  uc_status : Z;
  uc_type : option Z
}.

Record UpstreamConfig : Type := {
  up_id : Z;
  up_name : jsstr;
  up_base_url : jsstr;
  up_endpoint : jsstr
}.

Definition DEFAULT_ENDPOINT : jsstr := "/api/pricing".
Definition OFFICIAL_CHANNEL_ID : Z := -100.
Definition OFFICIAL_CHANNEL_ENDPOINT : jsstr := "/llm-metadata/api/newapi/ratio_config-v1-base.json".
Definition MODELS_DEV_PRESET_ID : Z := -101.
Definition MODELS_DEV_PRESET_ENDPOINT : jsstr := "https://models.dev/api.json".
Definition OPENROUTER_ENDPOINT : jsstr := "openrouter".
Definition OPENROUTER_CHANNEL_TYPE : Z := 20.
Definition CUSTOM_ENDPOINT : jsstr := "custom".

(** The values of [ENDPOINT_OPTIONS]. *)
Definition ENDPOINT_OPTIONS : list jsstr :=
  [DEFAULT_ENDPOINT; "/api/ratio_config"; OPENROUTER_ENDPOINT; CUSTOM_ENDPOINT].

Definition getDefaultEndpointForChannel (channel : UpstreamChannel) : jsstr :=
  if (uc_id channel =? MODELS_DEV_PRESET_ID)%Z then MODELS_DEV_PRESET_ENDPOINT
  else if (uc_id channel =? OFFICIAL_CHANNEL_ID)%Z then OFFICIAL_CHANNEL_ENDPOINT
  else match uc_type channel with
       | Some ty => if (ty =? OPENROUTER_CHANNEL_TYPE)%Z then OPENROUTER_ENDPOINT else DEFAULT_ENDPOINT
       | None => DEFAULT_ENDPOINT
       end.

Abbreviation Endpoints := (gmap Z jsstr).

(** [channelEndpoints[id]], where a missing property and the empty text are alike. *)
Definition endpoint_of (endpoints : Endpoints) (id : Z) : jsstr := default [] (endpoints !! id).

(** The effect on [channels]: endpoints that are missing or empty get the default. *)
Definition fill_endpoints (channels : list UpstreamChannel) (prev : Endpoints) : Endpoints :=
  fold_left
    (λ next channel, if nonempty (endpoint_of next (uc_id channel)) then next
                     else <[uc_id channel := getDefaultEndpointForChannel channel]> next)
    channels prev.

Definition currentEndpoint (endpoints : Endpoints) (id : Z) : jsstr :=
  let e := endpoint_of endpoints id in if nonempty e then e else DEFAULT_ENDPOINT.

Definition getEndpointType (endpoint : jsstr) : jsstr :=
  if str_mem endpoint ENDPOINT_OPTIONS then endpoint else CUSTOM_ENDPOINT.

Definition updateEndpoint (id : Z) (endpoint : jsstr) (endpoints : Endpoints) : Endpoints :=
  <[id := endpoint]> endpoints.

Definition handleTypeChange (id : Z) (value : jsstr) (endpoints : Endpoints) : Endpoints :=
  if str_eqb value CUSTOM_ENDPOINT then updateEndpoint id [] endpoints else updateEndpoint id value endpoints.

(** The text input is rendered for the type [custom] only. *)
Definition handleEndpointInput (id : Z) (text : jsstr) (endpoints : Endpoints) : Endpoints :=
  if str_eqb (getEndpointType (currentEndpoint endpoints id)) CUSTOM_ENDPOINT
  then updateEndpoint id text endpoints else endpoints.

Definition isOfficialChannel (channel : UpstreamChannel) : bool :=
  ((uc_id channel =? OFFICIAL_CHANNEL_ID) || (uc_id channel =? MODELS_DEV_PRESET_ID))%Z.

(** The effect on [selectedChannelIds] and [channels]; [rowSelection] is the set of
    the ids mapped to [true]. *)
Definition open_selection (selectedChannelIds : list Z) (channels : list UpstreamChannel) : gset Z :=
  list_to_set (List.filter (λ id, existsb (λ ch, (uc_id ch =? id)%Z) channels) selectedChannelIds).

Definition filteredChannels (toLowerCase : jsstr → jsstr) (search : jsstr) (channels : list UpstreamChannel)
    : list UpstreamChannel :=
  if nonempty (trim search) then
    List.filter (λ ch, includes (toLowerCase search) (toLowerCase (uc_name ch))
                       || includes (toLowerCase search) (toLowerCase (uc_base_url ch))) channels
  else channels.

Definition sortedChannels (channels : list UpstreamChannel) : list UpstreamChannel :=
  js_sort (λ a b, isOfficialChannel a || negb (isOfficialChannel b)) channels.

(** [handleConfirm]: the rows of the table, which holds the channels found by the
    search, that are selected. *)
Definition selected_ids (toLowerCase : jsstr → jsstr) (search : jsstr) (channels : list UpstreamChannel)
    (rowSelection : gset Z) : list Z :=
  List.filter (λ id, bool_decide (id ∈ rowSelection))
    (map uc_id (sortedChannels (filteredChannels toLowerCase search channels))).

Definition selected_upstreams (endpoints : Endpoints) (channels : list UpstreamChannel) (selectedIds : list Z)
    : list UpstreamConfig :=
  map (λ ch, {| up_id := uc_id ch; up_name := uc_name ch; up_base_url := uc_base_url ch;
                up_endpoint := currentEndpoint endpoints (uc_id ch) |})
    (List.filter (λ ch, existsb (Z.eqb (uc_id ch)) selectedIds) channels).

(** ** The page and its requests *)

(** The answer to one option's update: stored; refused with [success: false], which
    the client does not look at; or rejected, the option stored or not. *)
Inductive Answer : Type := Accepted | Refused | Failed (stored : bool).

(** The updates are sent one after the other until one is rejected; the result says
    whether all were answered. *)
Fixpoint send_updates (answer : OptionKey → Answer) (updates : list (OptionKey * jsstr)) (server : Texts)
    : Texts * bool :=
  match updates with
  | [] => (server, true)
  | (k, value) :: rest =>
      match answer k with
      | Accepted => send_updates answer rest (set_key k value server)
      | Refused => send_updates answer rest server
      | Failed stored => (if stored then set_key k value server else server, false)
      end
  end.

(** The updater of [differences] after the sync.  The record of a model is one object
    that the previous and the new map share, so that a deletion shows in both: the
    result is the previous map as the updater leaves it, and the new one. *)
Definition drop_field (model : jsstr) (diffs : DifferencesMap * DifferencesMap) (ratioType : jsstr)
    : DifferencesMap * DifferencesMap :=
  let '(prev, new) := diffs in
  match rec_get model new with
  | Some types =>
      if rec_has ratioType types then
        let types' := rec_delete ratioType types in
        (rec_set model types' prev,
         if nonempty types' then rec_set model types' new else rec_delete model new)
      else diffs
  | None => diffs
  end.

Definition drop_resolved (resolutions : ResolutionsMap) (prevDiffs : DifferencesMap)
    : DifferencesMap * DifferencesMap :=
  fold_left (λ diffs '(model, ratios), fold_left (drop_field model) (rec_keys ratios) diffs)
    (entries resolutions) (prevDiffs, prevDiffs).

Inductive Toast : Type :=
| ToastSuccess (text : jsstr)
| ToastInfo (text : jsstr)
| ToastWarning (text arg : jsstr)
| ToastError (text : jsstr).

Record Choice : Type := {
  ch_differences : DifferencesMap;
  ch_resolutions : ResolutionsMap
}.

Record SyncPage : Type := {
  pg_channels : list UpstreamChannel;
  pg_channelDialogOpen : bool;
  pg_channelEndpoints : Endpoints;
  pg_selectedChannelIds : list Z;
  pg_choice : Choice;
  pg_conflictItems : list ConflictItem;
  pg_conflictDialogOpen : bool;
  pg_confirmLoading : bool;
  pg_fetching : option (list UpstreamConfig);
  pg_syncing : option (list (OptionKey * jsstr))
}.

Definition initial_page : SyncPage :=
  {| pg_channels := []; pg_channelDialogOpen := false; pg_channelEndpoints := ∅;
     pg_selectedChannelIds := []; pg_choice := {| ch_differences := []; ch_resolutions := [] |};
     pg_conflictItems := []; pg_conflictDialogOpen := false; pg_confirmLoading := false;
     pg_fetching := None; pg_syncing := None |}.

Definition set_channels (channels : list UpstreamChannel) (isOpen : bool) (endpoints : Endpoints)
    (ids : list Z) (pg : SyncPage) : SyncPage :=
  {| pg_channels := channels; pg_channelDialogOpen := isOpen; pg_channelEndpoints := endpoints;
     pg_selectedChannelIds := ids; pg_choice := pg_choice pg; pg_conflictItems := pg_conflictItems pg;
     pg_conflictDialogOpen := pg_conflictDialogOpen pg; pg_confirmLoading := pg_confirmLoading pg;
     pg_fetching := pg_fetching pg; pg_syncing := pg_syncing pg |}.

Definition set_choice (c : Choice) (pg : SyncPage) : SyncPage :=
  {| pg_channels := pg_channels pg; pg_channelDialogOpen := pg_channelDialogOpen pg;
     pg_channelEndpoints := pg_channelEndpoints pg; pg_selectedChannelIds := pg_selectedChannelIds pg;
     pg_choice := c; pg_conflictItems := pg_conflictItems pg;
     pg_conflictDialogOpen := pg_conflictDialogOpen pg; pg_confirmLoading := pg_confirmLoading pg;
     pg_fetching := pg_fetching pg; pg_syncing := pg_syncing pg |}.

Definition set_conflict (items : list ConflictItem) (isOpen loading : bool) (pg : SyncPage) : SyncPage :=
  {| pg_channels := pg_channels pg; pg_channelDialogOpen := pg_channelDialogOpen pg;
     pg_channelEndpoints := pg_channelEndpoints pg; pg_selectedChannelIds := pg_selectedChannelIds pg;
     pg_choice := pg_choice pg; pg_conflictItems := items; pg_conflictDialogOpen := isOpen;
     pg_confirmLoading := loading; pg_fetching := pg_fetching pg; pg_syncing := pg_syncing pg |}.

Definition set_requests (fetching : option (list UpstreamConfig)) (syncing : option (list (OptionKey * jsstr)))
    (pg : SyncPage) : SyncPage :=
  {| pg_channels := pg_channels pg; pg_channelDialogOpen := pg_channelDialogOpen pg;
     pg_channelEndpoints := pg_channelEndpoints pg; pg_selectedChannelIds := pg_selectedChannelIds pg;
     pg_choice := pg_choice pg; pg_conflictItems := pg_conflictItems pg;
     pg_conflictDialogOpen := pg_conflictDialogOpen pg; pg_confirmLoading := pg_confirmLoading pg;
     pg_fetching := fetching; pg_syncing := syncing |}.

Definition handleOpenChannelDialog (pg : SyncPage) : SyncPage :=
  set_channels (pg_channels pg) true (pg_channelEndpoints pg) (pg_selectedChannelIds pg) pg.

(** The channels of the query arrive. *)
Definition channels_loaded (channels : list UpstreamChannel) (pg : SyncPage) : SyncPage :=
  set_channels channels (pg_channelDialogOpen pg) (fill_endpoints channels (pg_channelEndpoints pg))
    (pg_selectedChannelIds pg) pg.

Definition set_endpoints (endpoints : Endpoints) (pg : SyncPage) : SyncPage :=
  set_channels (pg_channels pg) (pg_channelDialogOpen pg) endpoints (pg_selectedChannelIds pg) pg.

Definition handleConfirmChannelSelection (selectedIds : list Z) (pg : SyncPage) : SyncPage * list Toast :=
  let upstreams := selected_upstreams (pg_channelEndpoints pg) (pg_channels pg) selectedIds in
  if nonempty upstreams then (set_requests (Some upstreams) (pg_syncing pg) pg, [])
  else (pg, [ToastWarning "Please select at least one channel" []]).

(** [handleConfirm] of the dialog. *)
Definition handleConfirm (selectedIds : list Z) (pg : SyncPage) : SyncPage * list Toast :=
  handleConfirmChannelSelection selectedIds
    (set_channels (pg_channels pg) false (pg_channelEndpoints pg) selectedIds pg).

Record TestResult : Type := { tr_name : jsstr; tr_error : option jsstr }.

(** [tr_error] is [Some] for the status [error]. *)
Inductive FetchAnswer : Type :=
| FetchData (diffs : DifferencesMap) (test_results : list TestResult)
| FetchRefused (message : jsstr)
| FetchFailed (message : jsstr).

Definition message_or (message text : jsstr) : jsstr := if nonempty message then message else text.

Definition fetched (answer : FetchAnswer) (pg : SyncPage) : SyncPage * list Toast :=
  let pg := set_requests None (pg_syncing pg) pg in
  match answer with
  | FetchRefused message | FetchFailed message =>
      (pg, [ToastError (message_or message "Failed to fetch upstream prices")])
  | FetchData diffs test_results =>
      let errors := flat_map (λ r, match tr_error r with
                                   | Some e => [tr_name r ++ ": " ++ e]
                                   | None => []
                                   end) test_results in
      (set_choice {| ch_differences := diffs; ch_resolutions := [] |} pg,
       (if nonempty errors then [ToastWarning "Some channels failed: {{errorMsg}}" (join ", " errors)] else [])
       ++ [ToastSuccess (if nonempty (rec_keys diffs) then "Upstream prices fetched successfully"
                         else "No price differences found")])
  end.

(** [setResolutions]. *)
Definition update_resolutions (f : ResolutionsMap → ResolutionsMap) (pg : SyncPage) : SyncPage :=
  set_choice {| ch_differences := ch_differences (pg_choice pg);
                ch_resolutions := f (ch_resolutions (pg_choice pg)) |} pg.

Definition isLoading (pg : SyncPage) : bool :=
  match pg_fetching pg, pg_syncing pg with None, None => pg_confirmLoading pg | _, _ => true end.

Definition hasSelections (pg : SyncPage) : bool := nonempty (rec_keys (ch_resolutions (pg_choice pg))).

(** [performSync] of the page: the request starts, or the promise is rejected before
    anything is sent. *)
Definition start_sync (toUpperCase : jsstr → jsstr) (currentRatios : Maps) (pg : SyncPage) : SyncPage :=
  match performSync toUpperCase (ch_resolutions (pg_choice pg)) currentRatios with
  | Ok updates => set_requests (pg_fetching pg) (Some updates) pg
  | Throw => set_conflict (pg_conflictItems pg) (pg_conflictDialogOpen pg) false pg
  end.

Definition handleApplySync (toUpperCase t : jsstr → jsstr) (currentRatios : Maps) (pg : SyncPage)
    : SyncPage * list Toast :=
  let conflicts := sync_conflicts t (ch_differences (pg_choice pg)) (ch_resolutions (pg_choice pg)) currentRatios in
  if nonempty conflicts then (set_conflict conflicts true (pg_confirmLoading pg) pg, [])
  else (start_sync toUpperCase currentRatios pg, [ToastInfo "Syncing prices, please wait..."]).

Definition handleConfirmConflict (toUpperCase : jsstr → jsstr) (currentRatios : Maps) (pg : SyncPage)
    : SyncPage :=
  start_sync toUpperCase currentRatios
    (set_conflict (pg_conflictItems pg) (pg_conflictDialogOpen pg) true pg).

(** The mutation settles; a sync that [handleConfirmConflict] started closes the
    dialog when it succeeds. *)
Definition settled (success : bool) (pg : SyncPage) : SyncPage * list Toast :=
  let pg' := set_requests (pg_fetching pg) None
               (set_conflict (pg_conflictItems pg)
                  (if success && pg_confirmLoading pg then false else pg_conflictDialogOpen pg) false pg) in
  if success then
    (set_choice {| ch_differences := (drop_resolved (ch_resolutions (pg_choice pg))
                                        (ch_differences (pg_choice pg))).2;
                   ch_resolutions := [] |} pg',
     [ToastSuccess "Prices synced successfully"])
  else (pg', [ToastError "Failed to sync prices"]).

(** ** The page with the options of the server *)

Record World : Type := {
  w_page : SyncPage;
  w_modelRatios : Texts;
  w_server : Texts
}.

Inductive SyncEvent : Type :=
| EOpenDialog
| EChannels (channels : list UpstreamChannel)
| ETypeChange (id : Z) (value : jsstr)
| EEndpointInput (id : Z) (text : jsstr)
| EConfirm (selectedIds : list Z)
| ECloseDialog
| EFetched (answer : FetchAnswer)
| ESelect (row : SyncRow) (ratioType upstream : jsstr)
| EUnselect (row : SyncRow) (ratioType : jsstr)
| EBulkSelect (upstream filter : jsstr) (rows : list SyncRow)
| EBulkUnselect (upstream filter : jsstr) (rows : list SyncRow)
| EApply
| EConfirmConflict
| ECloseConflict
| ESettled (answer : OptionKey → Answer)
| ERefreshed.

(** Objects read from JSON have distinct keys, a field is one of the ten, and the
    server names an upstream by its name and number, so that no name is empty. *)
Definition wf_types (types : RatioTypes) : Prop :=
  distinct types
  ∧ ∀ rt diff, rec_get rt types = Some diff →
      rt ∈ SYNC_FIELD_ORDER ∧ ∀ name, is_Some (rec_get name (rd_upstreams diff)) → name ≠ [].

Definition wf_diffs (diffs : DifferencesMap) : Prop :=
  distinct diffs ∧ ∀ model types, rec_get model diffs = Some types → wf_types types.

Definition fetch_ok (answer : FetchAnswer) : Prop :=
  match answer with FetchData diffs _ => wf_diffs diffs | _ => True end.

(** A row of the table is one of the data source. *)
Definition row_shown (pg : SyncPage) (row : SyncRow) : Prop :=
  row ∈ dataSource (ch_differences (pg_choice pg)).

Definition set_page (pg : SyncPage) (w : World) : World :=
  {| w_page := pg; w_modelRatios := w_modelRatios w; w_server := w_server w |}.

Section events.
Context (toUpperCase t : jsstr → jsstr).

(** What an event does.  Controls that are disabled while a request runs are guarded;
    the endpoint's type is one of the options of its menu. *)
Inductive sync_step (w : World) : SyncEvent → World → Prop :=
| step_open : isLoading (w_page w) = false →
    sync_step w EOpenDialog (set_page (handleOpenChannelDialog (w_page w)) w)
| step_channels channels :
    sync_step w (EChannels channels) (set_page (channels_loaded channels (w_page w)) w)
| step_type id value :
    value ∈ ENDPOINT_OPTIONS →
    sync_step w (ETypeChange id value)
      (set_page (set_endpoints (handleTypeChange id value (pg_channelEndpoints (w_page w))) (w_page w)) w)
| step_input id text :
    sync_step w (EEndpointInput id text)
      (set_page (set_endpoints (handleEndpointInput id text (pg_channelEndpoints (w_page w))) (w_page w)) w)
| step_confirm ids :
    sync_step w (EConfirm ids) (set_page (handleConfirm ids (w_page w)).1 w)
| step_close_dialog :
    sync_step w ECloseDialog
      (set_page (set_channels (pg_channels (w_page w)) false (pg_channelEndpoints (w_page w))
                   (pg_selectedChannelIds (w_page w)) (w_page w)) w)
| step_fetched answer :
    is_Some (pg_fetching (w_page w)) → fetch_ok answer →
    sync_step w (EFetched answer) (set_page (fetched answer (w_page w)).1 w)
| step_select row rt upstream filter v :
    isLoading (w_page w) = false → row_shown (w_page w) row →
    rt ∈ cell_fields (sr_ratioTypes row) upstream filter →
    upstream_value (sr_ratioTypes row) rt upstream = Some v → isSelectableUpstreamValue (Some v) = true →
    sync_step w (ESelect row rt upstream)
      (set_page (update_resolutions
         (handleSelectValue (ch_differences (pg_choice (w_page w))) (sr_model row) rt v upstream) (w_page w)) w)
| step_unselect row rt :
    isLoading (w_page w) = false → row_shown (w_page w) row →
    sync_step w (EUnselect row rt)
      (set_page (update_resolutions (handleUnselectValue (sr_model row) rt) (w_page w)) w)
| step_bulk_select upstream filter rows :
    isLoading (w_page w) = false → Forall (row_shown (w_page w)) rows →
    sync_step w (EBulkSelect upstream filter rows)
      (set_page (update_resolutions
         (handleBulkSelect (ch_differences (pg_choice (w_page w))) upstream filter rows) (w_page w)) w)
| step_bulk_unselect upstream filter rows :
    isLoading (w_page w) = false → Forall (row_shown (w_page w)) rows →
    sync_step w (EBulkUnselect upstream filter rows)
      (set_page (update_resolutions (handleBulkUnselect upstream filter rows) (w_page w)) w)
| step_apply maps :
    isLoading (w_page w) = false → hasSelections (w_page w) = true →
    parsedRatios (w_modelRatios w) = Some maps →
    sync_step w EApply (set_page (handleApplySync toUpperCase t maps (w_page w)).1 w)
| step_confirm_conflict maps :
    pg_conflictDialogOpen (w_page w) = true → pg_confirmLoading (w_page w) = false →
    parsedRatios (w_modelRatios w) = Some maps →
    sync_step w EConfirmConflict (set_page (handleConfirmConflict toUpperCase maps (w_page w)) w)
| step_close_conflict :
    sync_step w ECloseConflict
      (set_page (set_conflict (pg_conflictItems (w_page w)) false (pg_confirmLoading (w_page w)) (w_page w)) w)
| step_settled updates answer :
    pg_syncing (w_page w) = Some updates →
    sync_step w (ESettled answer)
      {| w_page := (settled (send_updates answer updates (w_server w)).2 (w_page w)).1;
         w_modelRatios := w_modelRatios w;
         w_server := (send_updates answer updates (w_server w)).1 |}
| step_refreshed :
    sync_step w ERefreshed
      {| w_page := w_page w; w_modelRatios := w_server w; w_server := w_server w |}.

Inductive sync_run : World → World → Prop :=
| run_refl w : sync_run w w
| run_step w w' w'' e : sync_run w w' → sync_step w' e w'' → sync_run w w''.

(** The page opens with the texts of the server. *)
Definition opened (server : Texts) : World :=
  {| w_page := initial_page; w_modelRatios := server; w_server := server |}.
End events.
