(* ===== verification/RatioSyncTheorems.v ===== *)
(** * Properties of the price synchronisation

    The chosen values (an invariant of every run of the page), the maps a sync writes
    and reads back, the rows the price table then shows, the differences that remain,
    and the columns' bulk choices. *)
From Stdlib Require Import NArith ZArith.
From stdpp Require Import list gmap.
From S2P Require Import Prelude JsString JsNumber Json JsArray JsonRoundtrip JsonIndent JsRecord PricingSettings PricingSettingsTheorems BillingExpr ChannelForm ParamOverride RatioSync.

(** ** The chosen values *)

(** [v] is a value some upstream offers for the field, or the mode that goes with an
    expression. *)
Definition offered (types : RatioTypes) (rt : jsstr) (v : json) : Prop :=
  (∃ upstream, upstream_value types rt upstream = Some v ∧ isSelectableUpstreamValue (Some v) = true)
  ∨ (rt = "billing_mode" ∧ v = JStr TIERED).

(** A fixed price excludes every ratio. *)
Definition unmixed (fields : record json) : Prop :=
  ∀ rt, rec_has "model_price" fields = true → rec_has rt fields = true → getBillingCategory rt ≠ CatRatio.

Definition paired (fields : record json) : Prop :=
  rec_has "billing_expr" fields = true → rec_has "billing_mode" fields = true.

Record fields_core (types : RatioTypes) (fields : record json) : Prop := {
  fo_distinct : distinct fields;
  fo_unmixed : unmixed fields;
  fo_offered rt v : rec_get rt fields = Some v → offered types rt v
}.

Definition fields_ok (types : RatioTypes) (fields : record json) : Prop :=
  fields_core types fields ∧ paired fields.

Record choice_ok (c : Choice) : Prop := {
  co_diffs : wf_diffs (ch_differences c);
  co_distinct : distinct (ch_resolutions c);
  co_fields model fields :
    rec_get model (ch_resolutions c) = Some fields →
    nonempty fields = true
    ∧ ∃ types, rec_get model (ch_differences c) = Some types ∧ fields_ok types fields
}.

Lemma rec_has_set {A} k k' (v : A) r : rec_has k (rec_set k' v r) = str_eqb k k' || rec_has k r.
Proof. unfold rec_has. rewrite rec_get_set. by destruct (str_eqb k k'). Qed.

Lemma rec_has_delete {A} k k' (r : record A) : rec_has k (rec_delete k' r) = negb (str_eqb k k') && rec_has k r.
Proof. unfold rec_has. rewrite rec_get_delete. by destruct (str_eqb k k'). Qed.

Lemma rec_set_nonempty {A} k (v : A) r : nonempty (rec_set k v r) = true.
Proof. destruct r as [|[k0 v0] r]; cbn; [done|]. by destruct (str_eqb k k0). Qed.

Lemma fields_ok_nil types : fields_ok types [].
Proof. split; [split; [constructor|by intros ? ?|done]|by intros ?]. Qed.

(** A tiered field may be set at any time. *)
Lemma core_tiered types fields rt v :
  getBillingCategory rt = CatTiered → offered types rt v → fields_core types fields →
  fields_core types (rec_set rt v fields).
Proof.
  intros Hc Hv [Hd Hu Ho]. split; [by apply distinct_set| |].
  - intros rt'. rewrite !rec_has_set. destruct (str_eqb_spec "model_price" rt) as [<-|?]; [done|].
    cbn [orb]. intros Hm. destruct (str_eqb_spec rt' rt) as [->|?]; [by rewrite Hc|]. by apply Hu.
  - intros rt' w. rewrite rec_get_set. destruct (str_eqb_spec rt' rt) as [->|?]; [by intros [= <-]|].
    apply Ho.
Qed.

Definition kept_category (category : BillingCategory) (rt : jsstr) : bool :=
  negb (negb (is_tiered_category category) && negb (is_tiered_category (getBillingCategory rt))
        && negb (bool_decide (getBillingCategory rt = category))).

Lemma clear_get category rt fields :
  rec_get rt (clear_conflicting category fields)
  = if kept_category category rt then rec_get rt fields else None.
Proof. apply rec_get_filter. Qed.

Lemma fields_ok_filter types fields category :
  fields_ok types fields → fields_ok types (clear_conflicting category fields).
Proof.
  intros [[Hd Hu Ho] Hp].
  assert (Hs : ∀ rt, rec_has rt (clear_conflicting category fields) = true → rec_has rt fields = true).
  { intros rt. unfold rec_has. rewrite clear_get. by destruct (kept_category category rt). }
  split; [split; [by apply distinct_filter| |]|].
  - intros rt Hm Hrt. apply Hu; by apply Hs.
  - intros rt v. rewrite clear_get. destruct (kept_category category rt); [apply Ho|done].
  - intros He. specialize (Hp (Hs _ He)). unfold rec_has in *. rewrite clear_get.
    by destruct category.
Qed.

(** A price or a ratio may be set when the other category is gone. *)
Lemma fields_ok_plain types fields rt v :
  getBillingCategory rt ≠ CatTiered → offered types rt v → fields_ok types fields →
  fields_ok types (rec_set rt v (clear_conflicting (getBillingCategory rt) fields)).
Proof.
  intros Hc Hv Hok. destruct (fields_ok_filter _ _ (getBillingCategory rt) Hok) as [[Hd Hu Ho] Hp].
  split; [split; [by apply distinct_set| |]|].
  - intros rt'. unfold rec_has. rewrite !rec_get_set, !clear_get.
    destruct (str_eqb_spec "model_price" rt) as [<-|Hn].
    + intros _. destruct (str_eqb_spec rt' "model_price") as [->|?]; [done|].
      unfold kept_category. cbn [getBillingCategory str_eqb]. by destruct (getBillingCategory rt') eqn:E.
    + unfold kept_category. change (getBillingCategory "model_price") with CatPrice.
      destruct (getBillingCategory rt) eqn:E; cbn; [|done|done].
      unfold getBillingCategory in E. destruct (str_eqb_spec rt "model_price"); [congruence|].
      by destruct (_ || _).
  - intros rt' w. rewrite rec_get_set. destruct (str_eqb_spec rt' rt) as [->|?]; [by intros [= <-]|]. apply Ho.
  - intros He. rewrite rec_has_set in He |- *. destruct (str_eqb_spec "billing_expr" rt) as [<-|?]; [done|].
    cbn [orb] in He. rewrite (Hp He). by rewrite orb_true_r.
Qed.

Lemma selectable_some v : isSelectableUpstreamValue v = true → ∃ w, v = Some w.
Proof. destruct v as [w|]; [by exists w|done]. Qed.

(** The pair of a tiered choice: the mode is set with an expression. *)
Lemma pair_tiered_ok types finalType upstream fields :
  fields_core types fields → rec_has finalType fields = true →
  (finalType = "billing_expr" ∨ finalType = "billing_mode") →
  (finalType = "billing_mode" → isSelectableUpstreamValue (upstream_value types "billing_mode" upstream) = true) →
  fields_ok types (pair_tiered types finalType upstream fields).
Proof.
  intros Hf Hh Ht Hm. unfold pair_tiered.
  set (modeVal := upstream_value types "billing_mode" upstream) in *.
  set (exprVal := upstream_value types "billing_expr" upstream) in *.
  assert (H : ∃ w, offered types "billing_mode" w ∧
    (if isSelectableUpstreamValue modeVal then rec_set "billing_mode" (default JNull modeVal) fields
     else if str_eqb finalType "billing_expr" then rec_set "billing_mode" (JStr TIERED) fields else fields)
    = rec_set "billing_mode" w fields).
  { destruct (isSelectableUpstreamValue modeVal) eqn:E.
    - destruct (selectable_some _ E) as [w Ew]. exists w. rewrite Ew in E. split; [left; by exists upstream|].
      by rewrite Ew.
    - destruct Ht as [->|Hf']; [|specialize (Hm Hf'); congruence]. exists (JStr TIERED). split; [by right|done]. }
  destruct H as (w & Hw & ->).
  assert (Hc : fields_core types (rec_set "billing_mode" w fields)) by (by apply core_tiered).
  assert (Hb : ∀ v, paired (rec_set "billing_expr" v (rec_set "billing_mode" w fields)))
    by (intros v _; by rewrite !rec_has_set).
  destruct (isSelectableUpstreamValue exprVal) eqn:E.
  - destruct (selectable_some _ E) as [v Ev]. rewrite Ev in *. split; [|apply Hb].
    apply core_tiered; [done|left; by exists upstream|done].
  - split; [done|]. intros _. by rewrite rec_has_set.
Qed.

(** The type a choice ends with, and its value. *)
Lemma preferred_spec diffs types model rt v upstream :
  rec_get model diffs = Some types → upstream ≠ [] →
  upstream_value types rt upstream = Some v → isSelectableUpstreamValue (Some v) = true →
  ∃ ft w, preferred_choice diffs model rt v upstream = (ft, w)
    ∧ upstream_value types ft upstream = Some w ∧ isSelectableUpstreamValue (Some w) = true.
Proof.
  intros Hd Hu Hv Hs. unfold preferred_choice. rewrite Hd. cbn [default].
  rewrite (proj2 (nonempty_true upstream) Hu). unfold getPreferredSyncField.
  destruct (negb _ && _) eqn:E.
  - apply andb_prop in E as [E1 E2]. apply negb_true_iff in E1.
    destruct (selectable_some _ E2) as [w Ew]. exists "billing_expr", w. rewrite Ew in *.
    split_and!; [|done|done]. f_equal.
    destruct (str_eqb_spec "billing_expr" rt) as [<-|?]; [by rewrite str_eqb_refl in E1|]. by destruct w.
  - exists rt, v. rewrite str_eqb_refl. done.
Qed.

Lemma clear_tiered fields : clear_conflicting CatTiered fields = fields.
Proof. apply filterb_all, forallb_forall. by intros [rt v] _. Qed.

Lemma category_tiered rt :
  getBillingCategory rt = CatTiered → rt = "billing_expr" ∨ rt = "billing_mode".
Proof.
  unfold getBillingCategory. destruct (str_eqb_spec rt "model_price"); [done|].
  destruct (str_eqb_spec rt "billing_mode") as [->|?]; [by right|].
  destruct (str_eqb_spec rt "billing_expr") as [->|?]; [by left|done].
Qed.

Lemma select_fields_ok diffs types model rt v upstream prev fields :
  rec_get model diffs = Some types → upstream ≠ [] →
  upstream_value types rt upstream = Some v → isSelectableUpstreamValue (Some v) = true →
  default [] (rec_get model prev) = fields → fields_ok types fields →
  ∃ fields', handleSelectValue diffs model rt v upstream prev = rec_set model fields' prev
    ∧ nonempty fields' = true ∧ fields_ok types fields'.
Proof.
  intros Hd Hu Hv Hs Hf Hok.
  destruct (preferred_spec _ _ _ _ _ _ Hd Hu Hv Hs) as (ft & w & Hp & Hw & Hsw).
  unfold handleSelectValue. rewrite Hp, Hd, Hf. eexists. split; [reflexivity|].
  assert (Ho : offered types ft w) by (left; by exists upstream).
  rewrite (proj2 (nonempty_true upstream) Hu), andb_true_r.
  destruct (decide (getBillingCategory ft = CatTiered)) as [Hc|Hc].
  - rewrite Hc, clear_tiered. cbn [is_tiered_category].
    replace (is_tiered_category CatTiered) with true by done.
    assert (Hok' : fields_ok types (pair_tiered types ft upstream (rec_set ft w fields))).
    { apply pair_tiered_ok; [apply core_tiered; [done|done|apply Hok]| | |].
      - by rewrite rec_has_set, str_eqb_refl.
      - by apply category_tiered.
      - intros ->. by rewrite Hw. }
    split; [|done]. unfold pair_tiered.
    by repeat (destruct (isSelectableUpstreamValue _) || destruct (str_eqb ft _)); rewrite ?rec_set_nonempty.
  - replace (is_tiered_category (getBillingCategory ft)) with false
      by (symmetry; by apply bool_decide_eq_false).
    split; [|by apply fields_ok_plain].
    apply rec_set_nonempty.
Qed.

Lemma choice_select c types model rt v upstream :
  choice_ok c → rec_get model (ch_differences c) = Some types →
  upstream_value types rt upstream = Some v → isSelectableUpstreamValue (Some v) = true →
  choice_ok {| ch_differences := ch_differences c;
               ch_resolutions := handleSelectValue (ch_differences c) model rt v upstream (ch_resolutions c) |}.
Proof.
  intros [Hw Hd Hf] Hm Hv Hs.
  assert (Hu : upstream ≠ []).
  { destruct Hw as [_ Hw]. destruct (Hw _ _ Hm) as [_ Ht]. unfold upstream_value in Hv.
    destruct (rec_get rt types) as [diff|] eqn:E; [|done]. apply (proj2 (Ht _ _ E)). by rewrite Hv. }
  assert (Hold : fields_ok types (default [] (rec_get model (ch_resolutions c)))).
  { destruct (rec_get model (ch_resolutions c)) as [fields|] eqn:E; [|apply fields_ok_nil].
    destruct (Hf _ _ E) as (_ & types' & Hm' & Hok). rewrite Hm in Hm'. injection Hm' as ->. done. }
  destruct (select_fields_ok _ _ _ _ _ _ _ _ Hm Hu Hv Hs eq_refl Hold) as (fields' & -> & Hn & Hok).
  split; cbn [ch_differences ch_resolutions]; [done|by apply distinct_set|].
  intros m fields. rewrite rec_get_set. destruct (str_eqb_spec m model) as [->|?]; [|apply Hf].
  intros [= <-]. split; [done|]. by exists types.
Qed.

(** Unselecting a tiered field removes both of them. *)
Lemma fields_ok_delete types fields rt :
  fields_ok types fields → rt ≠ "billing_mode" → fields_ok types (rec_delete rt fields).
Proof.
  intros [[Hd Hu Ho] Hp] Hn. split; [split; [by apply distinct_delete| |]|].
  - intros rt'. rewrite !rec_has_delete. intros [_ Hm]%andb_prop [_ Hr]%andb_prop. by apply Hu.
  - intros rt' v. rewrite rec_get_delete. destruct (str_eqb rt' rt); [done|]. apply Ho.
  - unfold paired. rewrite !rec_has_delete. intros [_ He]%andb_prop.
    rewrite (Hp He), andb_true_r. apply negb_true_iff, str_eqb_neq. congruence.
Qed.

Lemma fields_ok_delete_mode types fields :
  fields_ok types fields → rec_has "billing_expr" fields = false →
  fields_ok types (rec_delete "billing_mode" fields).
Proof.
  intros [[Hd Hu Ho] Hp] Hn. split; [split; [by apply distinct_delete| |]|].
  - intros rt'. rewrite !rec_has_delete. intros [_ Hm]%andb_prop [_ Hr]%andb_prop. by apply Hu.
  - intros rt' v. rewrite rec_get_delete. destruct (str_eqb rt' _); [done|]. apply Ho.
  - unfold paired. rewrite !rec_has_delete. intros [_ He]%andb_prop. congruence.
Qed.

Lemma rec_delete_comm {A} k k' (r : record A) : rec_delete k (rec_delete k' r) = rec_delete k' (rec_delete k r).
Proof.
  induction r as [|[k0 v0] r IH]; cbn [rec_delete]; [done|].
  destruct (str_eqb k k0) eqn:E, (str_eqb k' k0) eqn:E'; cbn [rec_delete]; rewrite ?E, ?E'; congruence.
Qed.

(** The fields that remain after a field is unselected. *)
Definition unselected (rt : jsstr) (fields : record json) : record json :=
  let fields := rec_delete rt fields in
  let fields := if str_eqb rt "billing_expr" then rec_delete "billing_mode" fields else fields in
  if str_eqb rt "billing_mode" then rec_delete "billing_expr" fields else fields.

Lemma unselect_unfold model rt prev :
  handleUnselectValue model rt prev
  = match rec_get model prev with
    | None => prev
    | Some fields => if nonempty (unselected rt fields) then rec_set model (unselected rt fields) prev
                     else rec_delete model prev
    end.
Proof. done. Qed.

Lemma fields_ok_unselected types fields rt : fields_ok types fields → fields_ok types (unselected rt fields).
Proof.
  intros Hok. unfold unselected.
  destruct (str_eqb_spec rt "billing_expr") as [->|?]; cbn [str_eqb].
  - apply fields_ok_delete_mode; [by apply fields_ok_delete|]. by rewrite rec_has_delete, str_eqb_refl.
  - destruct (str_eqb_spec rt "billing_mode") as [->|?]; [|by apply fields_ok_delete].
    rewrite rec_delete_comm. apply fields_ok_delete_mode; [by apply fields_ok_delete|].
    by rewrite rec_has_delete, str_eqb_refl.
Qed.

Lemma choice_unselect c model rt :
  choice_ok c →
  choice_ok {| ch_differences := ch_differences c;
               ch_resolutions := handleUnselectValue model rt (ch_resolutions c) |}.
Proof.
  intros [Hw Hd Hf]. rewrite unselect_unfold.
  destruct (rec_get model (ch_resolutions c)) as [fields|] eqn:E; [|by split].
  destruct (Hf _ _ E) as (_ & types & Ht & Hok).
  destruct (nonempty (unselected rt fields)) eqn:En; split; cbn [ch_differences ch_resolutions];
    try done; [by apply distinct_set| |by apply distinct_delete|].
  - intros m fs. rewrite rec_get_set. destruct (str_eqb_spec m model) as [->|?]; [|apply Hf].
    intros [= <-]. split; [done|]. exists types. split; [done|]. by apply fields_ok_unselected.
  - intros m fs. rewrite rec_get_delete. destruct (str_eqb m model); [done|apply Hf].
Qed.

(** ** The differences that remain *)

(** The difference of one field of one model. *)
Definition field_at (diffs : DifferencesMap) (model rt : jsstr) : option RatioDifference :=
  rec_get model diffs ≫= rec_get rt.

(** No model is listed without a field. *)
Definition no_empty (diffs : DifferencesMap) : Prop :=
  ∀ model types, rec_get model diffs = Some types → nonempty types = true.

Lemma drop_field_get model diffs rt m :
  rec_get m (drop_field model diffs rt).2
  = if str_eqb m model then
      match rec_get model diffs.2 with
      | Some types =>
          if rec_has rt types
          then if nonempty (rec_delete rt types) then Some (rec_delete rt types) else None
          else Some types
      | None => None
      end
    else rec_get m diffs.2.
Proof.
  destruct diffs as [prev new]. unfold drop_field. cbn [snd].
  destruct (str_eqb_spec m model) as [->|Hm]; destruct (rec_get model new) as [types|] eqn:E; cbn [snd]; try done;
    destruct (rec_has rt types); cbn [snd]; try done; destruct (nonempty (rec_delete rt types));
    rewrite ?rec_get_set, ?rec_get_delete, ?str_eqb_refl, ?(proj2 (str_eqb_neq m model) Hm); done.
Qed.

Lemma empty_get {A} (r : record A) k : nonempty r = false → rec_get k r = None.
Proof. by destruct r. Qed.

Lemma drop_field_at model diffs rt m r :
  field_at (drop_field model diffs rt).2 m r
  = if str_eqb m model && str_eqb r rt then None else field_at diffs.2 m r.
Proof.
  unfold field_at. rewrite drop_field_get.
  destruct (str_eqb_spec m model) as [->|?]; cbn [andb]; [|done].
  destruct (rec_get model diffs.2) as [types|]; cbn; [|by destruct (str_eqb r rt)].
  pose proof (rec_get_delete r rt types) as Hd. unfold rec_has.
  destruct (rec_get rt types) eqn:E.
  - destruct (nonempty (rec_delete rt types)) eqn:En; cbn; [done|]. by rewrite (empty_get _ _ En) in Hd.
  - destruct (str_eqb_spec r rt) as [->|?]; done.
Qed.

Lemma drop_fields_at model rts diffs m r :
  field_at (fold_left (drop_field model) rts diffs).2 m r
  = if str_eqb m model && str_mem r rts then None else field_at diffs.2 m r.
Proof.
  revert diffs. induction rts as [|rt rts IH]; intros diffs; cbn [fold_left].
  - by rewrite andb_false_r.
  - rewrite IH, drop_field_at. unfold str_mem, mem. cbn [existsb].
    by destruct (str_eqb m model), (str_eqb r rt), (existsb (str_eqb r) rts).
Qed.

Definition resolved (resolutions : ResolutionsMap) (model rt : jsstr) : bool :=
  match rec_get model resolutions with Some fields => rec_has rt fields | None => false end.

Lemma mem_keys {A} k (r : record A) : str_mem k (rec_keys r) = rec_has k r.
Proof. apply eq_true_iff_eq. by rewrite str_mem_true, rec_has_true, rec_keys_elem. Qed.

Lemma drop_all_at resolutions diffs m r :
  distinct resolutions →
  field_at (fold_left (λ diffs '(model, ratios), fold_left (drop_field model) (rec_keys ratios) diffs)
              resolutions diffs).2 m r
  = if resolved resolutions m r then None else field_at diffs.2 m r.
Proof.
  unfold resolved, distinct. revert diffs.
  induction resolutions as [|[model fields] res IH]; intros diffs; cbn [fold_left rec_get map fst]; [done|].
  intros [Hn Hd]%list.NoDup_cons. rewrite IH, drop_fields_at, mem_keys by done.
  destruct (str_eqb_spec m model) as [->|?]; cbn [andb]; [|done].
  destruct (rec_get model res) as [fs|] eqn:E; [|by destruct (rec_has r fields)].
  destruct Hn. apply rec_get_keys. by rewrite E.
Qed.

Lemma resolved_entries res m r : distinct res → resolved (entries res) m r = resolved res m r.
Proof. intros Hd. unfold resolved. by rewrite rec_get_entries. Qed.

Lemma drop_resolved_at resolutions diffs m r :
  distinct resolutions →
  field_at (drop_resolved resolutions diffs).2 m r
  = if resolved resolutions m r then None else field_at diffs m r.
Proof.
  intros Hd. unfold drop_resolved. rewrite drop_all_at by auto with js. by rewrite resolved_entries.
Qed.

(** What a fold over the dropped fields keeps. *)
Lemma drop_resolved_inv (P : DifferencesMap → Prop) resolutions diffs :
  (∀ model rt d, P d.2 → P (drop_field model d rt).2) → P diffs → P (drop_resolved resolutions diffs).2.
Proof.
  intros Hs Hp. unfold drop_resolved.
  assert (H : ∀ (l : ResolutionsMap) (d : DifferencesMap * DifferencesMap), P d.2 →
    P (fold_left (λ diffs '(model, ratios), fold_left (drop_field model) (rec_keys ratios) diffs) l d).2).
  { induction l as [|[model fields] l IH]; intros d Hd; cbn [fold_left]; [done|]. apply IH. clear IH.
    revert d Hd. induction (rec_keys fields) as [|rt rts IH]; intros d Hd; cbn [fold_left]; auto. }
  by apply H.
Qed.

Lemma drop_field_shrinks model rt d m types :
  rec_get m (drop_field model d rt).2 = Some types →
  rec_get m d.2 = Some types
  ∨ (nonempty types = true ∧ ∃ types', rec_get m d.2 = Some types' ∧ types = rec_delete rt types').
Proof.
  rewrite drop_field_get. destruct (str_eqb_spec m model) as [->|?]; [|by left].
  destruct (rec_get model d.2) as [ts|]; [|done]. destruct (rec_has rt ts); [|by left].
  destruct (nonempty (rec_delete rt ts)) eqn:E; [|done]. intros [= <-]. right. eauto.
Qed.

Lemma drop_wf resolutions diffs : wf_diffs diffs → wf_diffs (drop_resolved resolutions diffs).2.
Proof.
  apply drop_resolved_inv. intros model rt [prev new] [Hd Hw]. cbn [snd] in *. split.
  - unfold drop_field. destruct (rec_get model new) as [types|]; [|done].
    destruct (rec_has rt types); [|done]. cbn [snd]. destruct (nonempty _); auto with js.
  - intros m types [H|(_ & types' & H & ->)]%drop_field_shrinks; [by apply (Hw m)|].
    destruct (Hw _ _ H) as [Hdt Ht]. split; [auto with js|].
    intros rt' diff. rewrite rec_get_delete. destruct (str_eqb rt' rt); [done|]. apply Ht.
Qed.

Lemma drop_no_empty resolutions diffs : no_empty diffs → no_empty (drop_resolved resolutions diffs).2.
Proof.
  apply drop_resolved_inv. intros model rt d Hn m types [H|[H _]]%drop_field_shrinks; [by apply (Hn m)|done].
Qed.

(** ** Every run of the page *)

Lemma row_types pg row :
  wf_diffs (ch_differences (pg_choice pg)) → row_shown pg row →
  rec_get (sr_model row) (ch_differences (pg_choice pg)) = Some (sr_ratioTypes row).
Proof.
  intros [Hd _] Hr. unfold row_shown, dataSource in Hr.
  apply elem_of_mapb in Hr as ([model types] & -> & He). cbn [sr_model sr_ratioTypes].
  apply rec_elem_get; [done|]. by apply (proj1 (entries_elem _ _)).
Qed.

Lemma bulk_select_ok pg upstream filter rows :
  choice_ok (pg_choice pg) → Forall (row_shown pg) rows →
  choice_ok {| ch_differences := ch_differences (pg_choice pg);
               ch_resolutions := handleBulkSelect (ch_differences (pg_choice pg)) upstream filter rows
                                   (ch_resolutions (pg_choice pg)) |}.
Proof.
  intros Hc Hr. unfold handleBulkSelect.
  assert (Hcalls : Forall (λ '(model, rt, v), ∃ types,
    rec_get model (ch_differences (pg_choice pg)) = Some types
    ∧ upstream_value types rt upstream = Some v ∧ isSelectableUpstreamValue (Some v) = true)
    (bulk_select_calls upstream filter rows)).
  { apply List.Forall_forall. intros [[model rt] v] [row [Hin Hm]]%in_flat_map.
    apply in_map_iff in Hm as (rt' & [= <- -> <-] & [_ Hs]%filter_In).
    apply andb_prop in Hs as [_ Hs]. destruct (selectable_some _ Hs) as [w Ew].
    exists (sr_ratioTypes row). rewrite Ew in *. split_and!; [|done|done]. apply row_types; [apply Hc|].
    by apply (proj1 (List.Forall_forall _ _) Hr). }
  assert (Hg : ∀ c, choice_ok c → ch_differences c = ch_differences (pg_choice pg) →
    choice_ok {| ch_differences := ch_differences (pg_choice pg);
      ch_resolutions := fold_left (λ res '(model, rt, v),
        handleSelectValue (ch_differences (pg_choice pg)) model rt v upstream res)
        (bulk_select_calls upstream filter rows) (ch_resolutions c) |}).
  { clear Hc Hr. induction Hcalls as [|[[model rt] v] calls (types & Hm & Hv & Hs) _ IH]; intros c Hc Hd.
    - cbn [fold_left]. rewrite <- Hd. by destruct c.
    - cbn [fold_left]. rewrite <- Hd in Hm. pose proof (choice_select _ _ _ _ _ _ Hc Hm Hv Hs) as H.
      rewrite Hd in H. by apply (IH _ H). }
  by apply Hg.
Qed.

Lemma bulk_unselect_ok c upstream filter rows :
  choice_ok c →
  choice_ok {| ch_differences := ch_differences c;
               ch_resolutions := handleBulkUnselect upstream filter rows (ch_resolutions c) |}.
Proof.
  unfold handleBulkUnselect. destruct c as [diffs res]. cbn [ch_differences ch_resolutions]. revert res.
  induction (bulk_unselect_calls upstream filter rows) as [|[model rt] calls IH]; intros res Hc; [done|].
  cbn [fold_left]. apply IH. by apply (choice_unselect _ model rt Hc).
Qed.

Lemma initial_choice_ok : choice_ok (pg_choice initial_page).
Proof. split; [split|constructor|]; [constructor|done|done]. Qed.

Lemma start_sync_choice up maps pg : pg_choice (start_sync up maps pg) = pg_choice pg.
Proof. unfold start_sync. by destruct (performSync _ _ _). Qed.

Lemma step_choice_ok up t w e w' :
  sync_step up t w e w' → choice_ok (pg_choice (w_page w)) → choice_ok (pg_choice (w_page w')).
Proof.
  intros Hstep Hc. inversion Hstep; subst; clear Hstep; try exact Hc; cbn [w_page set_page].
  - unfold handleConfirm, handleConfirmChannelSelection. by destruct (nonempty _).
  - destruct answer as [diffs results|m|m]; [|exact Hc..].
    split; cbn; [done|constructor|done].
  - match goal with H : row_shown _ _ |- _ => apply row_types in H; [|apply Hc] end.
    by eapply choice_select.
  - by apply choice_unselect.
  - by apply bulk_select_ok.
  - by apply bulk_unselect_ok.
  - unfold handleApplySync. destruct (nonempty _); [exact Hc|]. cbn [fst]. by rewrite start_sync_choice.
  - unfold handleConfirmConflict. by rewrite start_sync_choice.
  - unfold settled. destruct (send_updates _ _ _) as [server ok]. cbn [fst snd]. destruct ok; cbn [fst].
    + split; cbn; [apply drop_wf, Hc|constructor|done].
    + exact Hc.
Qed.

Lemma run_choice_ok up t server w : sync_run up t (opened server) w → choice_ok (pg_choice (w_page w)).
Proof.
  intros Hr. remember (opened server) as w0 eqn:E.
  induction Hr as [w0|w0 w1 w2 e _ IH Hs]; [subst; apply initial_choice_ok|].
  eapply step_choice_ok; [exact Hs|by apply IH].
Qed.

(** ** The maps a sync writes *)

(** The field an option is synchronised from. *)
Definition field_of (k : OptionKey) : jsstr :=
  match k with
  | OptNum FRatio => "model_ratio"
  | OptNum FCompletion => "completion_ratio"
  | OptNum FCache => "cache_ratio"
  | OptNum FCreateCache => "create_cache_ratio"
  | OptNum FImage => "image_ratio"
  | OptNum FAudio => "audio_ratio"
  | OptNum FAudioCompletion => "audio_completion_ratio"
  | OptNum FPrice => "model_price"
  | OptMode => "billing_mode"
  | OptExpr => "billing_expr"
  end.

Lemma field_of_known rt : rt ∈ SYNC_FIELD_ORDER ↔ ∃ k, rt = field_of k.
Proof.
  split.
  - intros H. repeat (apply elem_of_cons in H as [->|H]); [..|by inversion H];
      [by exists (OptNum FRatio)|by exists (OptNum FCompletion)|by exists (OptNum FCache)
      |by exists (OptNum FCreateCache)|by exists (OptNum FImage)|by exists (OptNum FAudio)
      |by exists (OptNum FAudioCompletion)|by exists (OptNum FPrice)|by exists OptMode|by exists OptExpr].
  - intros [[[]| |] ->]; apply str_mem_true; vm_compute; reflexivity.
Qed.

Lemma field_of_inj k k' : field_of k = field_of k' → k = k'.
Proof. by destruct k as [[]| |], k' as [[]| |]. Qed.

Lemma option_of_option_name k : option_of_name (option_name k) = Some k.
Proof. by destruct k as [[]| |]. Qed.

(** The value stored for a chosen one. *)
Definition written (rt : jsstr) (v : json) : json :=
  if str_mem rt NUMERIC_SYNC_FIELDS then JNum (json_toNumber v) else v.

Definition is_ratio_option (k : OptionKey) : bool :=
  match k with OptNum FPrice => false | OptNum _ => true | _ => false end.

(** What a sync with the chosen [fields] of a model makes of its entry in an option. *)
Definition synced_value (fields : record json) (k : OptionKey) (old : option json) : option json :=
  match rec_get (field_of k) fields with
  | Some v => Some (written (field_of k) v)
  | None =>
      if rec_has "model_price" fields && is_ratio_option k then None
      else if existsb (λ rt, rec_has rt fields) RATIO_SYNC_FIELDS && bool_decide (k = OptNum FPrice) then None
      else old
  end.

Definition known_fields (fields : record json) : Prop :=
  distinct fields ∧ ∀ rt, rec_has rt fields = true → rt ∈ SYNC_FIELD_ORDER.

Lemma get_delete_in k k' n name maps :
  obj_get n (delete_in k name maps k')
  = if decide (k' = k) then (if str_eqb n name then None else obj_get n (maps k)) else obj_get n (maps k').
Proof. unfold delete_in, set_key. destruct (decide (k' = k)); [apply obj_get_delete|done]. Qed.

Lemma get_delete_all ks k n name maps :
  obj_get n (delete_in_all ks name maps k)
  = if bool_decide (k ∈ ks) && str_eqb n name then None else obj_get n (maps k).
Proof.
  unfold delete_in_all. revert maps. induction ks as [|k0 ks IH]; intros maps; cbn [fold_left].
  - by rewrite bool_decide_false by (by intros ?%not_elem_of_nil).
  - rewrite IH, get_delete_in. destruct (decide (k = k0)) as [->|Hn].
    + rewrite (bool_decide_true (k0 ∈ k0 :: ks)) by left. by destruct (bool_decide _), (str_eqb n name).
    + rewrite (bool_decide_ext (k ∈ k0 :: ks) (k ∈ ks)); [done|]. rewrite elem_of_cons. tauto.
Qed.

Lemma ratio_options_spec k : bool_decide (k ∈ RATIO_OPTIONS) = is_ratio_option k.
Proof. by destruct k as [[]| |]. Qed.

Section written.
Context (toUpperCase : jsstr → jsstr).

(** The case mapping of the English letters. *)
Hypothesis upper_ascii : ∀ c, (97 ≤ c)%N → (c ≤ 122)%N → toUpperCase [c] = [(c - 32)%N].

Lemma option_key_field k : optionKeyBySyncField toUpperCase (field_of k) = option_name k.
Proof.
  destruct k as [[]| |]; try done; unfold optionKeyBySyncField; cbn [field_of str_eqb];
    cbv; rewrite !upper_ascii by done; reflexivity.
Qed.

Lemma sync_fields_get model fields maps :
  known_fields fields →
  ∃ maps', sync_fields toUpperCase model fields maps = Ok maps'
  ∧ ∀ n k, obj_get n (maps' k)
      = if str_eqb n model
        then match rec_get (field_of k) fields with Some v => Some (written (field_of k) v) | None => obj_get n (maps k) end
        else obj_get n (maps k).
Proof.
  intros [Hd Hk]. revert maps. unfold distinct in Hd.
  induction fields as [|[rt v] fields IH]; intros maps; cbn [sync_fields].
  { exists maps. split; [done|]. intros n k. by destruct (str_eqb n model). }
  cbn [map fst] in Hd. apply list.NoDup_cons in Hd as [Hn Hd].
  destruct (proj1 (field_of_known rt)) as [k0 ->]; [apply Hk; unfold rec_has; cbn [rec_get]; by rewrite str_eqb_refl|].
  unfold sync_field. rewrite option_key_field, option_of_option_name. cbn [mbind exn_bind].
  destruct (IH Hd) with (maps := set_in k0 model (written (field_of k0) v) maps) as (maps' & Hs & Hg).
  { intros rt Hrt. apply Hk. unfold rec_has in *. cbn [rec_get]. by destruct (str_eqb rt _). }
  exists maps'. split; [exact Hs|]. intros n k. rewrite Hg, get_set_in. cbn [rec_get].
  destruct (str_eqb_spec n model) as [->|?]; [|by destruct (decide (k = k0)) as [->|?]].
  destruct (decide (k = k0)) as [->|Hne].
  - rewrite str_eqb_refl. destruct (rec_get (field_of k0) fields) as [w|] eqn:E; [|done].
    destruct Hn. apply rec_get_keys. by rewrite E.
  - rewrite (proj2 (str_eqb_neq _ _)) by (intros ?%field_of_inj; done). done.
Qed.

Lemma has_ratio_keys (fields : record json) :
  existsb (λ rt, str_mem rt RATIO_SYNC_FIELDS) (rec_keys fields)
  = existsb (λ rt, rec_has rt fields) RATIO_SYNC_FIELDS.
Proof.
  apply eq_true_iff_eq. rewrite !existsb_exists. split; intros (rt & H1 & H2); exists rt.
  - apply list_elem_of_In, rec_keys_elem, rec_has_true in H1.
    apply str_mem_true, list_elem_of_In in H2. done.
  - apply rec_has_true, rec_keys_elem in H2. split; [by apply list_elem_of_In|].
    by apply str_mem_true, list_elem_of_In.
Qed.

Lemma existsb_keys (fields : record json) :
  existsb (λ rt, str_mem rt (rec_keys fields)) RATIO_SYNC_FIELDS
  = existsb (λ rt, rec_has rt fields) RATIO_SYNC_FIELDS.
Proof. cbn [RATIO_SYNC_FIELDS existsb]. by rewrite !mem_keys. Qed.

Lemma known_entries fields : known_fields fields → known_fields (entries fields).
Proof.
  intros [Hd Hk]. split; [auto with js|]. intros rt. unfold rec_has. rewrite rec_get_entries by done. apply Hk.
Qed.

Lemma sync_model_get model fields maps :
  known_fields fields →
  ∃ maps', sync_model toUpperCase model fields maps = Ok maps'
  ∧ ∀ n k, obj_get n (maps' k)
      = if str_eqb n model then synced_value fields k (obj_get n (maps k)) else obj_get n (maps k).
Proof.
  intros Hf. unfold sync_model. rewrite has_ratio_keys, mem_keys.
  set (hasPrice := rec_has "model_price" fields). set (hasRatio := existsb _ RATIO_SYNC_FIELDS).
  set (maps1 := if hasPrice then _ else _).
  set (maps2 := if hasRatio then _ else _).
  destruct (sync_fields_get model (entries fields) maps2) as (maps' & Hs & Hg); [by apply known_entries|].
  exists maps'. split; [done|]. intros n k. rewrite Hg, rec_get_entries by apply Hf.
  unfold synced_value. fold hasPrice hasRatio.
  destruct (str_eqb n model) eqn:En.
  - destruct (rec_get (field_of k) fields) as [v|]; [done|].
    unfold maps2, maps1. destruct hasRatio, hasPrice; cbn [andb]; rewrite ?get_delete_in, ?get_delete_all, ?En, ?andb_true_r, ?ratio_options_spec;
      destruct k as [[]| |]; cbn; rewrite ?En; done.
  - unfold maps2, maps1. destruct hasRatio, hasPrice; rewrite ?get_delete_in, ?get_delete_all, ?En, ?andb_false_r;
      try done; destruct (decide (k = OptNum FPrice)) as [->|?]; done.
Qed.
(** A resolutions map whose fields are all known. *)
Definition known_resolutions (res : ResolutionsMap) : Prop :=
  distinct res ∧ ∀ model fields, rec_get model res = Some fields → known_fields fields.

Definition synced_entry (res : ResolutionsMap) (n : jsstr) (k : OptionKey) (old : option json) : option json :=
  match rec_get n res with Some fields => synced_value fields k old | None => old end.

Lemma sync_models_get res maps :
  known_resolutions res →
  ∃ maps', sync_models toUpperCase res maps = Ok maps'
  ∧ ∀ n k, obj_get n (maps' k) = synced_entry res n k (obj_get n (maps k)).
Proof.
  intros [Hd Hk]. unfold distinct, synced_entry in *. revert maps.
  induction res as [|[model fields] res IH]; intros maps; cbn [sync_models]; [by exists maps|].
  cbn [map fst] in Hd. apply list.NoDup_cons in Hd as [Hn Hd].
  destruct (sync_model_get model fields maps) as (maps1 & H1 & Hg1).
  { apply (Hk model). cbn [rec_get]. by rewrite str_eqb_refl. }
  destruct (IH Hd) with (maps := maps1) as (maps' & H2 & Hg2).
  { intros m fs Hm. apply (Hk m). cbn [rec_get]. destruct (str_eqb_spec m model) as [->|?]; [|done].
    destruct Hn. apply rec_get_keys. by rewrite Hm. }
  exists maps'. rewrite H1. cbn [mbind exn_bind]. split; [done|]. intros n k.
  rewrite Hg2, Hg1. cbn [rec_get]. destruct (str_eqb_spec n model) as [->|?]; [|done].
  destruct (rec_get model res) as [fs|] eqn:E; [|done]. destruct Hn. apply rec_get_keys. by rewrite E.
Qed.

(** Names and values that a JSON text gives back. *)
Definition storable (res : ResolutionsMap) : bool :=
  forallb (λ '(model, fields), name_ok model && forallb (λ '(rt, v), wf_json (written rt v)) fields) res.

Lemma wf_delete_in k name maps : wf_maps maps → wf_maps (delete_in k name maps).
Proof.
  intros Hm k'. unfold delete_in, set_key. destruct (decide (k' = k)); [by apply wf_fields_delete|apply Hm].
Qed.

Lemma wf_delete_all ks name maps : wf_maps maps → wf_maps (delete_in_all ks name maps).
Proof.
  unfold delete_in_all. revert maps. induction ks as [|k ks IH]; intros maps Hm; [done|].
  cbn [fold_left]. by apply IH, wf_delete_in.
Qed.

Lemma wf_sync_fields model fields maps maps' :
  name_ok model = true → Forall (λ '(rt, v), wf_json (written rt v) = true) fields → wf_maps maps →
  sync_fields toUpperCase model fields maps = Ok maps' → wf_maps maps'.
Proof.
  intros Hn Hf. revert maps. induction Hf as [|[rt v] fields Hv _ IH]; intros maps Hm; cbn [sync_fields].
  - by intros [= <-].
  - unfold sync_field. destruct (option_of_name _) as [k|]; [|done]. cbn [mbind exn_bind].
    apply IH. by apply wf_set_in.
Qed.

Lemma wf_sync_models res maps maps' :
  storable res = true → wf_maps maps → sync_models toUpperCase res maps = Ok maps' → wf_maps maps'.
Proof.
  revert maps. induction res as [|[model fields] res IH]; intros maps; cbn [sync_models storable forallb].
  - by intros _ ? [= <-].
  - intros [[Hn Hv]%andb_prop Hs]%andb_prop Hm. destruct (sync_model _ _ _ _) as [maps1|] eqn:E; [|done].
    cbn [mbind exn_bind]. apply IH; [done|]. unfold sync_model in E.
    eapply wf_sync_fields; [exact Hn| | |exact E].
    + apply List.Forall_forall. intros [rt v] Hin. rewrite forallb_forall in Hv.
      apply (Hv (rt, v)). by apply list_elem_of_In, (proj1 (entries_elem _ _)), list_elem_of_In.
    + destruct (existsb _ _), (str_mem _ _); auto using wf_delete_in, wf_delete_all.
Qed.

Lemma known_res_entries res : known_resolutions res → known_resolutions (entries res).
Proof.
  intros [Hd Hk]. split; [auto with js|]. intros m fs. rewrite rec_get_entries by done. apply Hk.
Qed.

Lemma storable_entries res : storable res = true → storable (entries res) = true.
Proof.
  unfold storable. rewrite !forallb_forall. intros H x Hx. apply H.
  by apply list_elem_of_In, (proj1 (entries_elem _ _)), list_elem_of_In.
Qed.

Lemma parse_record_text kvs : wf_fields kvs = true → parseJsonRecord (JSON_stringify_2 (JObj kvs)) = JObj kvs.
Proof.
  intros Hw. unfold parseJsonRecord.
  assert (E : nonempty (JSON_stringify_2 (JObj kvs)) = true) by (by destruct kvs).
  by rewrite E, JSON_parse_stringify_2.
Qed.

Lemma parsed_texts texts maps :
  wf_maps maps → (∀ k, texts k = JSON_stringify_2 (JObj (maps k))) →
  (∃ maps', parsedRatios texts = Some maps' ∧ ∀ k, maps' k = maps k)
  ∧ (∃ maps', parse_maps texts = Some maps' ∧ ∀ k, maps' k = maps k).
Proof.
  intros Hw Ht. split.
  - unfold parsedRatios. rewrite (proj2 (forallb_forall _ _)).
    + eexists. split; [reflexivity|]. intros k. cbv beta. by rewrite Ht, parse_record_text.
    + intros k _. by rewrite Ht, parse_record_text.
  - unfold parse_maps. rewrite (proj2 (forallb_forall _ _)).
    + eexists. split; [reflexivity|]. intros k. cbv beta. by rewrite Ht, safe_parse_indented.
    + intros k _. by rewrite Ht, safe_parse_indented.
Qed.

(** The updates, and the maps they carry. *)
Lemma performSync_updates res maps :
  known_resolutions res → storable res = true → wf_maps maps →
  ∃ maps', performSync toUpperCase res maps
             = Ok (map (λ k, (k, JSON_stringify_2 (JObj (maps' k)))) SYNC_OPTIONS)
  ∧ wf_maps maps' ∧ ∀ n k, obj_get n (maps' k) = synced_entry res n k (obj_get n (maps k)).
Proof.
  intros Hk Hs Hm. destruct (sync_models_get (entries res) maps) as (maps' & H1 & Hg);
    [by apply known_res_entries|].
  exists maps'. unfold performSync. rewrite H1. cbn [mbind exn_bind]. split_and!; [done| |].
  - eapply wf_sync_models; [by apply storable_entries|exact Hm|exact H1].
  - intros n k. rewrite Hg. unfold synced_entry. by rewrite rec_get_entries by apply Hk.
Qed.
End written.

(** ** The requests *)

Lemma send_all_accepted updates server :
  NoDup (map fst updates) →
  ∃ server', send_updates (λ _, Accepted) updates server = (server', true)
  ∧ ∀ k, server' k = match List.find (λ u, bool_decide (u.1 = k)) updates with
                     | Some u => u.2
                     | None => server k
                     end.
Proof.
  revert server. induction updates as [|[k0 v] updates IH]; intros server Hd; cbn [send_updates].
  - by exists server.
  - cbn [map fst] in Hd. apply list.NoDup_cons in Hd as [Hn Hd].
    destruct (IH (set_key k0 v server) Hd) as (server' & -> & Hg). exists server'. split; [done|].
    intros k. rewrite Hg. cbn [List.find fst snd]. destruct (decide (k0 = k)) as [->|?].
    + rewrite bool_decide_true by done.
      destruct (List.find _ updates) as [u|] eqn:E; [|by rewrite set_key_eq].
      apply List.find_some in E as [Hin Hu%bool_decide_eq_true]. destruct Hn.
      apply list_elem_of_In, in_map_iff. by exists u.
    + rewrite bool_decide_false by done. destruct (List.find _ updates); [done|]. by rewrite set_key_ne.
Qed.

Lemma sync_options_nodup : NoDup SYNC_OPTIONS.
Proof. apply (bool_decide_unpack _). reflexivity. Qed.

Lemma find_update (f : OptionKey → jsstr) k :
  List.find (λ u, bool_decide (u.1 = k)) (map (λ k, (k, f k)) SYNC_OPTIONS) = Some (k, f k).
Proof. by destruct k as [[]| |]. Qed.

(** When every update is stored, the server holds all the texts. *)
Lemma send_sync (f : OptionKey → jsstr) server :
  ∃ server', send_updates (λ _, Accepted) (map (λ k, (k, f k)) SYNC_OPTIONS) server = (server', true)
  ∧ ∀ k, server' k = f k.
Proof.
  destruct (send_all_accepted (map (λ k, (k, f k)) SYNC_OPTIONS) server) as (server' & H & Hg).
  - rewrite map_map. cbn [fst]. rewrite map_id. apply sync_options_nodup.
  - exists server'. split; [done|]. intros k. by rewrite Hg, find_update.
Qed.

(** ** What the price table shows after a sync *)

Lemma run_known up t server w :
  sync_run up t (opened server) w → known_resolutions (ch_resolutions (pg_choice (w_page w))).
Proof.
  intros [[_ Hw] Hd Hf]%run_choice_ok. split; [done|]. intros model fields Hm.
  destruct (Hf _ _ Hm) as (_ & types & Ht & [Hdf _ Ho] & _). split; [done|].
  intros rt [v Hv]%rec_has_true. destruct (Ho _ _ Hv) as [(up' & Hu & _)|[-> _]].
  - unfold upstream_value in Hu. destruct (rec_get rt types) as [diff|] eqn:E; [|done].
    by apply (Hw _ _ Ht) in E as [? _].
  - apply str_mem_true. vm_compute. reflexivity.
Qed.

(** The step of [EApply] that sends the updates. *)
Lemma apply_sends up t w w1 maps updates :
  parsedRatios (w_modelRatios w) = Some maps →
  sync_step up t w EApply w1 → pg_syncing (w_page w1) = Some updates →
  performSync up (ch_resolutions (pg_choice (w_page w))) maps = Ok updates
  ∧ sync_conflicts t (ch_differences (pg_choice (w_page w))) (ch_resolutions (pg_choice (w_page w))) maps = []
  ∧ pg_choice (w_page w1) = pg_choice (w_page w) ∧ w_server w1 = w_server w
  ∧ w_modelRatios w1 = w_modelRatios w.
Proof.
  intros Hp Hs Hu. inversion Hs as [| | | | | | | | | | |maps' Hl Hh Hp'| | | |]; subst.
  rewrite Hp in Hp'. injection Hp' as <-. cbn [w_page set_page w_server w_modelRatios] in *.
  assert (Hnone : pg_syncing (w_page w) = None).
  { unfold isLoading in Hl. by destruct (pg_fetching (w_page w)), (pg_syncing (w_page w)). }
  unfold handleApplySync in *. destruct (sync_conflicts _ _ _ _); cbn [nonempty fst] in *; [|cbn in Hu; congruence].
  rewrite start_sync_choice. unfold start_sync in Hu. destruct (performSync _ _ _) as [us|].
  - cbn in Hu. injection Hu as ->. done.
  - cbn in Hu. congruence.
Qed.

(** The confirmation of the dialog of conflicts sends what [performSync] gives. *)
Lemma confirm_sends up t w w1 maps updates us :
  parsedRatios (w_modelRatios w) = Some maps →
  performSync up (ch_resolutions (pg_choice (w_page w))) maps = Ok us →
  sync_step up t w EConfirmConflict w1 → pg_syncing (w_page w1) = Some updates →
  us = updates ∧ pg_choice (w_page w1) = pg_choice (w_page w).
Proof.
  intros Hp Hperf Hs Hu. inversion Hs as [| | | | | | | | | | | |maps' Ho Hl Hp'| | |]; subst.
  rewrite Hp in Hp'. injection Hp' as <-. cbn [w_page set_page] in *.
  unfold handleConfirmConflict in *. rewrite start_sync_choice. unfold start_sync in Hu.
  cbn [pg_choice set_conflict] in Hu. rewrite Hperf in Hu. cbn in Hu. by injection Hu as ->.
Qed.

(** What may happen on the page while the updates are under way: the lists of channels
    arrive, endpoints are edited, dialogs are closed and the options are read again. *)
Definition idle (e : SyncEvent) : bool :=
  match e with
  | EChannels _ | ETypeChange _ _ | EEndpointInput _ _ | ECloseDialog | ECloseConflict | ERefreshed => true
  | _ => false
  end.

Inductive waits (up t : jsstr → jsstr) (w : World) : World → Prop :=
| waits_none : waits up t w w
| waits_idle w' e w'' : waits up t w w' → idle e = true → sync_step up t w' e w'' → waits up t w w''.

Lemma waits_kept up t w w' :
  waits up t w w' →
  pg_syncing (w_page w') = pg_syncing (w_page w) ∧ pg_choice (w_page w') = pg_choice (w_page w).
Proof.
  induction 1 as [|w' e w'' _ [IH1 IH2] He Hs]; [done|].
  rewrite <- IH1, <- IH2. by destruct Hs.
Qed.

Lemma settle_accepted up t w w' updates server :
  pg_syncing (w_page w) = Some updates → sync_step up t w (ESettled (λ _, Accepted)) w' →
  send_updates (λ _, Accepted) updates (w_server w) = (server, true) →
  w_server w' = server ∧ ch_resolutions (pg_choice (w_page w')) = []
  ∧ ch_differences (pg_choice (w_page w'))
    = (drop_resolved (ch_resolutions (pg_choice (w_page w))) (ch_differences (pg_choice (w_page w)))).2.
Proof.
  intros Hu Hs Hsend. inversion Hs as [| | | | | | | | | | | | | |us ans Hu'|]; subst.
  rewrite Hu in Hu'. injection Hu' as <-. rewrite Hsend. done.
Qed.

(** ** The properties *)

(** C4: the values chosen are always ones that can be applied together.  However the
    administrator selects and unselects values, one by one or by column, and whatever
    is fetched and synchronised in between: every model listed has a value, each value
    is one an upstream offers (or the mode that goes with an expression), a fixed price
    is never chosen beside a ratio, and an expression never without its mode. *)
Theorem choices_consistent up t server w model fields :
  sync_run up t (opened server) w → rec_get model (ch_resolutions (pg_choice (w_page w))) = Some fields →
  nonempty fields = true ∧ unmixed fields ∧ paired fields
  ∧ ∃ types, rec_get model (ch_differences (pg_choice (w_page w))) = Some types
    ∧ ∀ rt v, rec_get rt fields = Some v → offered types rt v.
Proof.
  intros Hr Hm. destruct (co_fields _ (run_choice_ok _ _ _ _ Hr) _ _ Hm) as (Hn & types & Ht & [_ Hu Ho] & Hp).
  eauto 10.
Qed.

(** *** A sync whose updates are all stored *)

Section applied.
Context (up t : jsstr → jsstr) (server : Texts) (w w1 w1' w2 : World) (maps : Maps)
  (updates : list (OptionKey * jsstr)) (e : SyncEvent).
Hypothesis upper_ascii : ∀ c, (97 ≤ c)%N → (c ≤ 122)%N → up [c] = [(c - 32)%N].
Hypothesis reached : sync_run up t (opened server) w.
Hypothesis local : parsedRatios (w_modelRatios w) = Some maps.
Hypothesis local_wf : wf_maps maps.
Hypothesis chosen_storable : storable (ch_resolutions (pg_choice (w_page w))) = true.
Hypothesis button : e = EApply ∨ e = EConfirmConflict.
Hypothesis applied : sync_step up t w e w1.
Hypothesis sent : pg_syncing (w_page w1) = Some updates.
Hypothesis waited : waits up t w1 w1'.
Hypothesis stored : sync_step up t w1' (ESettled (λ _, Accepted)) w2.

Let res : ResolutionsMap := ch_resolutions (pg_choice (w_page w)).

Lemma sync_stored :
  ∃ maps', wf_maps maps' ∧ (∀ k, w_server w2 k = JSON_stringify_2 (JObj (maps' k)))
  ∧ (∀ n k, obj_get n (maps' k) = synced_entry res n k (obj_get n (maps k)))
  ∧ ch_resolutions (pg_choice (w_page w2)) = []
  ∧ ch_differences (pg_choice (w_page w2)) = (drop_resolved res (ch_differences (pg_choice (w_page w)))).2.
Proof.
  destruct (performSync_updates up upper_ascii res maps (run_known _ _ _ _ reached) chosen_storable local_wf)
    as (maps' & Hperf & Hw & Hg).
  assert (H : map (λ k, (k, JSON_stringify_2 (JObj (maps' k)))) SYNC_OPTIONS = updates
              ∧ pg_choice (w_page w1) = pg_choice (w_page w)).
  { destruct button as [Hb|Hb]; rewrite Hb in applied.
    - destruct (apply_sends _ _ _ _ _ _ local applied sent) as (Hperf' & _ & Hc & _).
      fold res in Hperf'. rewrite Hperf in Hperf'. by apply Ok_inj in Hperf'.
    - by apply (confirm_sends _ _ _ _ _ _ _ local Hperf applied). }
  destruct H as [Hups Hc]. destruct (waits_kept _ _ _ _ waited) as [Hsy Hc']. rewrite sent in Hsy.
  destruct (send_sync (λ k, JSON_stringify_2 (JObj (maps' k))) (w_server w1')) as (srv & Hsend & Htexts).
  rewrite Hups in Hsend.
  destruct (settle_accepted _ _ _ _ _ _ Hsy stored Hsend) as (-> & -> & ->). rewrite Hc', Hc.
  exists maps'. by split_and!.
Qed.

(** C3: a sync does exactly what was chosen, sent at once by the button or after the
    confirmation in the dialog of conflicts.  When the updates are sent, nothing is
    chosen or fetched until the server has accepted all of them, and the chosen values
    are ones a JSON text holds, then the options of the server read back so that each
    chosen field of each model holds the chosen value, the ratios of a model with a
    chosen price and the price of a model with a chosen ratio are gone, and every other
    entry is what it was in the options the page shows; the differences that remain are
    the ones not chosen, and nothing is chosen any more. *)
Theorem sync_exact :
  (∃ maps', parsedRatios (w_server w2) = Some maps'
    ∧ ∀ n k, obj_get n (maps' k) = synced_entry res n k (obj_get n (maps k)))
  ∧ (∀ m r, field_at (ch_differences (pg_choice (w_page w2))) m r
       = if resolved res m r then None else field_at (ch_differences (pg_choice (w_page w))) m r)
  ∧ ch_resolutions (pg_choice (w_page w2)) = [].
Proof.
  destruct sync_stored as (maps' & Hw & Ht & Hg & Hr & ->). split_and!; [|intros m r|done].
  - destruct (parsed_texts _ maps' Hw Ht) as [(maps'' & H1 & H2) _].
    exists maps''. split; [done|]. intros n k. by rewrite H2.
  - apply drop_resolved_at, (run_known _ _ _ _ reached).
Qed.

Lemma chosen_ratio_category rt : rt ∈ RATIO_SYNC_FIELDS → getBillingCategory rt = CatRatio.
Proof. intros H. repeat (apply elem_of_cons in H as [->|H]; [done|]). inversion H. Qed.

(** The entries of a model after a plain choice. *)
Lemma plain_entries n fields maps' :
  rec_get n res = Some fields → (∀ n k, obj_get n (maps' k) = synced_entry res n k (obj_get n (maps k))) →
  match newCat fields with
  | CatPrice => ∀ k, is_ratio_option k = true → obj_get n (maps' k) = None
  | CatRatio => obj_get n (maps' (OptNum FPrice)) = None
  | CatTiered => True
  end.
Proof.
  intros Hn Hg.
  destruct (co_fields _ (run_choice_ok _ _ _ _ reached) _ _ Hn) as (_ & types & _ & [_ Hu _] & _).
  unfold newCat. rewrite existsb_keys. destruct (rec_has "model_price" fields) eqn:Ep.
  - intros k Hk. rewrite Hg. unfold synced_entry. rewrite Hn. unfold synced_value. rewrite Ep, Hk. cbn [andb].
    destruct (rec_get (field_of k) fields) eqn:E; [|done].
    assert (Hh : rec_has (field_of k) fields = true) by (unfold rec_has; by rewrite E).
    destruct (Hu (field_of k) Ep Hh). by destruct k as [[]| |].
  - destruct (existsb _ RATIO_SYNC_FIELDS) eqn:Er; [|done]. rewrite Hg. unfold synced_entry. rewrite Hn.
    unfold synced_value. rewrite Er. cbn [field_of is_ratio_option]. rewrite Ep. unfold rec_has in Ep.
    destruct (rec_get "model_price" fields); done.
Qed.

(** The price table shows what was synchronised.  After the sync, the row of a
    model for which a price or a ratio was chosen, and which is not billed by an
    expression, is billed per request or per token as chosen, and has no conflict. *)
Theorem synced_rows n fields :
  rec_get n res = Some fields → newCat fields ≠ CatTiered →
  ∃ maps', parse_maps (w_server w2) = Some maps'
  ∧ (is_tiered (obj_get n (maps' OptMode)) = false →
     ∃ row, model_row maps' n = Ok row ∧ mr_hasConflict row = false
     ∧ (newCat fields = CatRatio → mr_billingMode row = PerToken)
     ∧ (newCat fields = CatPrice → ∃ v, rec_get "model_price" fields = Some v
        ∧ mr_value row FPrice = Number_toString (json_toNumber v)
        ∧ (nonempty (Number_toString (json_toNumber v)) = true → mr_billingMode row = PerRequest))).
Proof.
  intros Hn Hc. destruct sync_stored as (maps0 & Hw & Ht & Hg & _).
  destruct (parsed_texts _ maps0 Hw Ht) as [_ (maps' & Hp & He)]. exists maps'. split; [done|].
  assert (Hg' : ∀ n k, obj_get n (maps' k) = synced_entry res n k (obj_get n (maps k)))
    by (intros; by rewrite He).
  intros Hm. unfold model_row. rewrite Hm. eexists. split; [reflexivity|]. cbn [mr_hasConflict mr_billingMode mr_value].
  pose proof (plain_entries n fields maps' Hn Hg') as Hpl. unfold newCat in *.
  destruct (rec_has "model_price" fields) eqn:Ep.
  - split_and!; [|done|].
    + apply andb_false_intro2. cbn [existsb]. unfold value_text. by rewrite !Hpl.
    + intros _. apply rec_has_true in Ep as [v Ev]. exists v. split; [done|].
      assert (Hv : value_text n (maps' (OptNum FPrice)) = Number_toString (json_toNumber v)).
      { unfold value_text. rewrite Hg'. unfold synced_entry. rewrite Hn. unfold synced_value.
        cbn [field_of]. by rewrite Ev. }
      rewrite Hv. split; [done|]. by intros ->.
  - destruct (existsb _ _) eqn:Er; [|done].
    assert (Hv : value_text n (maps' (OptNum FPrice)) = []) by (unfold value_text; by rewrite Hpl).
    rewrite Hv. cbn [nonempty andb]. done.
Qed.

(** A model billed by an expression stays so.  Choosing an upstream's price or
    ratio for it stores the value, but its mode and its expression are kept, so that
    the price table goes on showing the expression. *)
Theorem tiered_stays_tiered n fields r :
  rec_get n res = Some fields → newCat fields ≠ CatTiered → rec_has "billing_mode" fields = false →
  is_tiered (obj_get n (maps OptMode)) = true →
  splitBillingExprAndRequestRules (expr_text (obj_get n (maps OptExpr))) = Ok r →
  ∃ maps' row, parse_maps (w_server w2) = Some maps' ∧ model_row maps' n = Ok row
  ∧ mr_billingMode row = TieredExpr ∧ mr_billingExpr row = billingExpr r.
Proof.
  intros Hn Hc Hm Ht Hs. destruct sync_stored as (maps0 & Hw & Htx & Hg & _).
  destruct (parsed_texts _ maps0 Hw Htx) as [_ (maps' & Hp & He)]. exists maps'.
  destruct (co_fields _ (run_choice_ok _ _ _ _ reached) _ _ Hn) as (_ & types & _ & _ & Hpair).
  assert (He' : rec_has "billing_expr" fields = false)
    by (destruct (rec_has "billing_expr" fields) eqn:E; [specialize (Hpair E); congruence|done]).
  assert (Hg' : ∀ k, k = OptMode ∨ k = OptExpr → obj_get n (maps' k) = obj_get n (maps k)).
  { intros k Hk. rewrite He, Hg. unfold synced_entry. rewrite Hn. unfold synced_value, rec_has in *.
    destruct Hk as [->| ->]; cbn [field_of is_ratio_option]; rewrite !andb_false_r.
    - by destruct (rec_get "billing_mode" fields).
    - by destruct (rec_get "billing_expr" fields). }
  unfold model_row. rewrite !Hg' by tauto. rewrite Ht, Hs. cbn [mbind exn_bind].
  eexists. split_and!; [done|reflexivity|done|done].
Qed.
End applied.

(** *** A run *)

Definition upper : jsstr → jsstr := map ascii_upper.

Lemma upper_letters c : (97 ≤ c)%N → (c ≤ 122)%N → upper [c] = [(c - 32)%N].
Proof. intros H1 H2. unfold upper, ascii_upper. cbn [map]. by rewrite (proj2 (N.leb_le _ _) H1), (proj2 (N.leb_le _ _) H2). Qed.

(** Two models with local ratios, one of them billed by an expression; for both the
    upstream offers another ratio and has the same completion ratio. *)
Definition local_texts : Texts :=
  λ k, match k with
       | OptNum FRatio => "{\qgpt\q: 1.5, \qclaude\q: 3}"
       | OptNum FCompletion => "{\qgpt\q: 4}"
       | OptMode => "{\qclaude\q: \qtiered_expr\q}"
       | OptExpr => "{\qclaude\q: \qp * 3\q}"
       | _ => "{}"
       end.

Definition offer (v : json) : RatioDifference :=
  {| rd_current := JNull; rd_upstreams := [("north(7)", v)]; rd_confidence := [] |}.

Definition sample_types : RatioTypes :=
  [("model_ratio", offer (JNum (num_of_Z 2))); ("completion_ratio", offer (JStr SAME))].
Definition sample_diffs : DifferencesMap := [("gpt", sample_types); ("claude", sample_types)].
Definition sample_row (model : jsstr) : SyncRow :=
  {| sr_model := model; sr_ratioTypes := sample_types; sr_billingConflict := false |}.

Definition north : UpstreamChannel :=
  {| uc_id := 7; uc_name := "north"; uc_base_url := "https://north"; uc_status := 1; uc_type := None |}.

Definition fetched_page : SyncPage :=
  (fetched (FetchData sample_diffs [])
     (handleConfirm [7%Z] (channels_loaded [north] (handleOpenChannelDialog initial_page))).1).1.

Definition choose (model : jsstr) : SyncPage → SyncPage :=
  update_resolutions (handleSelectValue sample_diffs model "model_ratio" (JNum (num_of_Z 2)) "north(7)").

Definition chosen_page : SyncPage := choose "claude" (choose "gpt" fetched_page).

Definition chosen_world : World := set_page chosen_page (opened local_texts).

Lemma sample_wf_diffs : wf_diffs sample_diffs.
Proof.
  split; [apply (bool_decide_unpack _); reflexivity|]. intros model types. unfold sample_diffs. cbn [rec_get].
  intros H. assert (types = sample_types) as -> by (destruct (str_eqb model "gpt"), (str_eqb model "claude"); congruence).
  clear H. split.
  { apply (bool_decide_unpack _). reflexivity. }
  intros rt diff H. assert (Hd : diff = offer (JNum (num_of_Z 2)) ∨ diff = offer (JStr SAME)).
  { apply rec_get_elem in H. repeat (apply elem_of_cons in H as [[= _ ->]|H]; [tauto|]). inversion H. }
  split.
  - apply str_mem_true. apply rec_get_elem in H.
    repeat (apply elem_of_cons in H as [[= -> _]|H]; [reflexivity|]). inversion H.
  - intros name. destruct Hd as [->| ->]; cbn [offer rd_upstreams rec_get]; destruct name; try done; by intros [? ?].
Qed.

Lemma fetched_run : sync_run upper id (opened local_texts) (set_page fetched_page (opened local_texts)).
Proof.
  eapply run_step; [|eapply (step_fetched upper id
    (set_page (handleConfirm [7%Z] (channels_loaded [north] (handleOpenChannelDialog initial_page))).1
       (opened local_texts)) (FetchData sample_diffs [])); [by eexists|apply sample_wf_diffs]].
  eapply run_step; [|exact (step_confirm upper id
    (set_page (channels_loaded [north] (handleOpenChannelDialog initial_page)) (opened local_texts)) [7%Z])].
  eapply run_step; [|exact (step_channels upper id
    (set_page (handleOpenChannelDialog initial_page) (opened local_texts)) [north])].
  eapply run_step; [apply run_refl|exact (step_open upper id (opened local_texts) eq_refl)].
Qed.

Lemma choose_step model pg :
  isLoading pg = false → ch_differences (pg_choice pg) = sample_diffs → row_shown pg (sample_row model) →
  sync_step upper id (set_page pg (opened local_texts)) (ESelect (sample_row model) "model_ratio" "north(7)")
    (set_page (choose model pg) (opened local_texts)).
Proof.
  intros Hl Hd Hr. unfold choose. rewrite <- Hd.
  apply (step_select upper id (set_page pg (opened local_texts)) (sample_row model) "model_ratio" "north(7)" []).
  - exact Hl.
  - exact Hr.
  - apply str_mem_true. vm_compute. reflexivity.
  - reflexivity.
  - reflexivity.
Qed.

Lemma chosen_run : sync_run upper id (opened local_texts) chosen_world.
Proof.
  eapply run_step; [eapply run_step; [apply fetched_run|]|].
  - apply (choose_step "gpt"); [done|done|left].
  - apply (choose_step "claude"); [done|done|right; left].
Qed.

Lemma choices_consistent_witness :
  unmixed [("model_ratio", JNum (num_of_Z 2))] ∧ offered sample_types "model_ratio" (JNum (num_of_Z 2)).
Proof.
  destruct (choices_consistent upper id local_texts chosen_world "gpt" [("model_ratio", JNum (num_of_Z 2))])
    as (_ & Hu & _ & types & Ht & Ho).
  - apply chosen_run.
  - reflexivity.
  - split; [exact Hu|]. change (Some sample_types = Some types) in Ht.
    apply Some_inj in Ht. rewrite Ht. apply Ho. reflexivity.
Defined.

Lemma local_parsed :
  ∃ maps, parsedRatios local_texts = Some maps ∧ wf_maps maps
  ∧ obj_get "gpt" (maps (OptNum FCompletion)) = Some (JNum (num_of_Z 4))
  ∧ obj_get "claude" (maps (OptNum FRatio)) = Some (JNum (num_of_Z 3))
  ∧ maps (OptNum FPrice) = []
  ∧ maps OptMode = [("claude", JStr TIERED)] ∧ maps OptExpr = [("claude", JStr "p * 3")].
Proof.
  unfold parsedRatios. rewrite (proj2 (forallb_forall _ _)) by (intros [[]| |] _; vm_compute; reflexivity).
  eexists. split_and!; [reflexivity|by intros [[]| |]; vm_compute|by vm_compute..].
Qed.

Lemma local_ratio n maps v k :
  maps (OptNum FPrice) = [] → k ∈ RATIO_OPTIONS → obj_get n (maps k) = Some v →
  getLocalBillingCategory n maps = Some CatRatio.
Proof.
  intros Hp Hk Hv. unfold getLocalBillingCategory. rewrite Hp. cbn [obj_has obj_get].
  rewrite (proj2 (existsb_exists _ _)); [done|]. exists k. split; [by apply list_elem_of_In|].
  unfold obj_has. by rewrite Hv.
Qed.

(** The apply step of the sample run. *)
Lemma sample_apply :
  ∃ maps w1 updates, parsedRatios local_texts = Some maps ∧ wf_maps maps
  ∧ obj_get "gpt" (maps (OptNum FCompletion)) = Some (JNum (num_of_Z 4))
  ∧ maps (OptNum FPrice) = []
  ∧ maps OptMode = [("claude", JStr TIERED)] ∧ maps OptExpr = [("claude", JStr "p * 3")]
  ∧ sync_step upper id chosen_world EApply w1 ∧ pg_syncing (w_page w1) = Some updates.
Proof.
  destruct local_parsed as (maps & Hp & Hw & Hc & Hr & Hprice & Hm & He).
  pose proof (step_apply upper id chosen_world maps eq_refl eq_refl Hp) as Hs.
  assert (Hn : sync_conflicts id (ch_differences (pg_choice chosen_page)) (ch_resolutions (pg_choice chosen_page)) maps = []).
  { unfold sync_conflicts. change (entries (ch_resolutions (pg_choice chosen_page)))
      with [("gpt" : jsstr, [("model_ratio" : jsstr, JNum (num_of_Z 2))]);
            ("claude" : jsstr, [("model_ratio" : jsstr, JNum (num_of_Z 2))])].
    cbn [flat_map]. unfold conflict_of.
    assert (Ho : ∀ k, is_ratio_option k = true → k ∈ RATIO_OPTIONS).
    { intros k Hk. rewrite <- ratio_options_spec in Hk. by apply bool_decide_eq_true in Hk. }
    by rewrite (local_ratio _ _ _ _ Hprice (Ho (OptNum FCompletion) eq_refl) Hc),
      (local_ratio _ _ _ _ Hprice (Ho (OptNum FRatio) eq_refl) Hr). }
  destruct (performSync_updates upper upper_letters (ch_resolutions (pg_choice chosen_page)) maps)
    as (maps' & Hperf & _); [by apply (run_known _ _ _ _ chosen_run)|reflexivity|done|].
  eexists maps, _, _. do 6 (split; [done|]). split; [exact Hs|].
  cbn [w_page set_page chosen_world]. unfold handleApplySync. rewrite Hn. cbn [nonempty fst].
  unfold start_sync. rewrite Hperf. reflexivity.
Qed.

Lemma sync_exact_witness :
  ∃ w2 maps', parsedRatios (w_server w2) = Some maps'
  ∧ obj_get "gpt" (maps' (OptNum FRatio)) = Some (JNum (num_of_Z 2))
  ∧ obj_get "gpt" (maps' (OptNum FCompletion)) = Some (JNum (num_of_Z 4))
  ∧ field_at (ch_differences (pg_choice (w_page w2))) "gpt" "model_ratio" = None.
Proof.
  destruct sample_apply as (maps & w1 & updates & Hp & Hw & Hc & _ & _ & _ & Hs & Hu).
  destruct (sync_exact upper id local_texts chosen_world w1 w1 _ maps updates EApply upper_letters chosen_run Hp Hw eq_refl
    (or_introl eq_refl) Hs Hu (waits_none _ _ _) (step_settled upper id w1 updates (λ _, Accepted) Hu)) as ((maps' & Hm & Hg) & Hf & _).
  eexists _, maps'. split; [exact Hm|]. split; [exact (Hg "gpt" (OptNum FRatio))|]. split.
  - rewrite (Hg "gpt" (OptNum FCompletion)), Hc. reflexivity.
  - exact (Hf "gpt" "model_ratio").
Defined.

Lemma synced_rows_witness :
  ∃ w2 maps' row, parse_maps (w_server w2) = Some maps' ∧ model_row maps' "gpt" = Ok row
  ∧ mr_hasConflict row = false ∧ mr_billingMode row = PerToken.
Proof.
  destruct sample_apply as (maps & w1 & updates & Hp & Hw & _ & _ & Hm & _ & Hs & Hu).
  pose proof (step_settled upper id w1 updates (λ _, Accepted) Hu) as Hset.
  destruct (synced_rows upper id local_texts chosen_world w1 w1 _ maps updates EApply upper_letters chosen_run Hp Hw eq_refl
    (or_introl eq_refl) Hs Hu (waits_none _ _ _) Hset "gpt" [("model_ratio" : jsstr, JNum (num_of_Z 2))]) as (maps' & Hp' & Hrow); [reflexivity|discriminate|].
  destruct (sync_stored upper id local_texts chosen_world w1 w1 _ maps updates EApply upper_letters chosen_run Hp Hw eq_refl
    (or_introl eq_refl) Hs Hu (waits_none _ _ _) Hset)
    as (maps0 & Hw0 & Ht0 & Hg & _).
  destruct (parsed_texts _ maps0 Hw0 Ht0) as [_ (maps'' & Hp'' & He)].
  rewrite Hp' in Hp''. apply Some_inj in Hp''. subst maps''.
  destruct Hrow as (row & H1 & H2 & H3 & _).
  { rewrite He, Hg. unfold synced_entry. rewrite Hm. reflexivity. }
  eexists _, maps', row. exact (conj Hp' (conj H1 (conj H2 (H3 eq_refl)))).
Defined.

Lemma tiered_stays_tiered_witness :
  ∃ w2 maps' row, parse_maps (w_server w2) = Some maps' ∧ model_row maps' "claude" = Ok row
  ∧ mr_billingMode row = TieredExpr ∧ mr_billingExpr row = "p * 3".
Proof.
  destruct sample_apply as (maps & w1 & updates & Hp & Hw & _ & _ & Hm & He & Hs & Hu).
  destruct (tiered_stays_tiered upper id local_texts chosen_world w1 w1 _ maps updates EApply upper_letters chosen_run Hp Hw
    eq_refl (or_introl eq_refl) Hs Hu (waits_none _ _ _) (step_settled upper id w1 updates (λ _, Accepted) Hu) "claude"
    [("model_ratio" : jsstr, JNum (num_of_Z 2))] {| billingExpr := "p * 3"; requestRuleExpr := [] |})
    as (maps' & row & H1 & H2 & H3 & H4).
  - reflexivity.
  - discriminate.
  - reflexivity.
  - rewrite Hm. reflexivity.
  - rewrite He. vm_compute. reflexivity.
  - eexists _, maps', row. exact (conj H1 (conj H2 (conj H3 H4))).
Defined.

(** *** Nothing is deleted unasked *)

Lemma conflict_none t diffs maps res n fields cat :
  distinct res → sync_conflicts t diffs res maps = [] → rec_get n res = Some fields →
  getLocalBillingCategory n maps = Some cat → newCat fields = CatTiered ∨ newCat fields = cat.
Proof.
  intros Hd Hs Hn Hl. unfold sync_conflicts in Hs.
  assert (Hin : In (n, fields) (entries res)).
  { apply list_elem_of_In, entries_elem. by apply rec_get_elem. }
  assert (Hc : conflict_of t diffs maps (n, fields) = []).
  { apply in_split in Hin as (l1 & l2 & E). rewrite E, flat_map_app in Hs. cbn [flat_map] in Hs.
    by apply app_eq_nil in Hs as [_ [? _]%app_eq_nil]. }
  unfold conflict_of in Hc. rewrite Hl in Hc.
  destruct (decide (newCat fields = CatTiered)) as [?|H1]; [by left|].
  destruct (decide (cat = newCat fields)) as [?|H2]; [by right|].
  unfold is_tiered_category in Hc. by rewrite !bool_decide_false in Hc.
Qed.

(** The local settings of a model have a price or ratios, not both. *)
Definition local_unmixed (n : jsstr) (maps : Maps) : Prop :=
  obj_has n (maps (OptNum FPrice)) = true → ∀ k, k ∈ RATIO_OPTIONS → obj_has n (maps k) = false.

(** The entry of a model is kept by a choice without a conflict. *)
Lemma unasked_entry up t server w maps n k old fields :
  sync_run up t (opened server) w →
  sync_conflicts t (ch_differences (pg_choice (w_page w))) (ch_resolutions (pg_choice (w_page w))) maps = [] →
  local_unmixed n maps → obj_get n (maps k) = Some old →
  rec_get n (ch_resolutions (pg_choice (w_page w))) = Some fields → rec_get (field_of k) fields = None →
  synced_value fields k (Some old) = Some old.
Proof.
  intros Hr Hc Hl Ho Hn Hf. pose proof (run_choice_ok _ _ _ _ Hr) as [_ Hd _].
  unfold synced_value. rewrite Hf.
  assert (Hcat : ∀ cat, getLocalBillingCategory n maps = Some cat → newCat fields = CatTiered ∨ newCat fields = cat)
    by (intros cat; by eapply conflict_none).
  assert (Hhas : obj_has n (maps k) = true) by (unfold obj_has; by rewrite Ho).
  unfold newCat in Hcat. destruct (rec_has "model_price" fields) eqn:Ep; cbn [andb].
  - destruct (is_ratio_option k) eqn:Ek.
    + rewrite <- ratio_options_spec in Ek. apply bool_decide_eq_true in Ek.
      assert (Hpr : obj_has n (maps (OptNum FPrice)) = false).
      { destruct (obj_has n (maps (OptNum FPrice))) eqn:E; [|done]. specialize (Hl E k Ek). congruence. }
      unfold getLocalBillingCategory in Hcat. rewrite Hpr in Hcat.
      rewrite (proj2 (existsb_exists _ _)) in Hcat by (exists k; by rewrite <- list_elem_of_In).
      by destruct (Hcat _ eq_refl).
    + destruct (existsb _ RATIO_SYNC_FIELDS) eqn:Er; cbn [andb]; [|done].
      case_bool_decide as Ek'; [|done]. exfalso.
      pose proof (co_fields _ (run_choice_ok _ _ _ _ Hr) _ _ Hn) as (_ & types & _ & [_ Hmix _] & _).
      apply existsb_exists in Er as (rt & Hin & Hrt). apply (Hmix rt Ep Hrt).
      repeat (destruct Hin as [<-|Hin]; [reflexivity|]). destruct Hin.
  - rewrite (existsb_keys fields) in Hcat.
    destruct (existsb (λ rt, rec_has rt fields) RATIO_SYNC_FIELDS) eqn:Er; cbn [andb]; [|done].
    case_bool_decide as Ek'; [|done]. subst k.
    unfold getLocalBillingCategory in Hcat. rewrite Hhas in Hcat. by destruct (Hcat _ eq_refl).
Qed.

(** C26: nothing is deleted without a question.  When applying sends the updates at
    once, without the dialog of conflicts, and the server accepts all of them, the
    options of the server read back with every local entry of a model whose settings
    were not already mixed (a fixed price beside ratios): the entry is what it was,
    unless a value was chosen for that very field, and then it is that value. *)
Theorem unasked_sync_deletes_nothing up t server w w1 w1' w2 maps updates n k old :
  (∀ c, (97 ≤ c)%N → (c ≤ 122)%N → up [c] = [(c - 32)%N]) →
  sync_run up t (opened server) w → parsedRatios (w_modelRatios w) = Some maps → wf_maps maps →
  storable (ch_resolutions (pg_choice (w_page w))) = true →
  sync_step up t w EApply w1 → pg_syncing (w_page w1) = Some updates →
  waits up t w1 w1' → sync_step up t w1' (ESettled (λ _, Accepted)) w2 →
  local_unmixed n maps → obj_get n (maps k) = Some old →
  ∃ maps', parsedRatios (w_server w2) = Some maps'
  ∧ obj_get n (maps' k)
    = match rec_get n (ch_resolutions (pg_choice (w_page w))) ≫= rec_get (field_of k) with
      | Some v => Some (written (field_of k) v)
      | None => Some old
      end.
Proof.
  intros Hup Hr Hp Hw Hst Ha Hu Hwt Hs Hl Ho.
  destruct (apply_sends _ _ _ _ _ _ Hp Ha Hu) as (_ & Hc & _).
  destruct (sync_stored up t server w w1 w1' w2 maps updates EApply Hup Hr Hp Hw Hst (or_introl eq_refl) Ha Hu Hwt Hs)
    as (maps0 & Hw0 & Ht & Hg & _).
  destruct (parsed_texts _ maps0 Hw0 Ht) as [(maps' & H1 & H2) _].
  exists maps'. split; [done|]. rewrite H2, Hg, Ho. unfold synced_entry.
  destruct (rec_get n _) as [fields|] eqn:Hn; [|done]. cbn [mbind option_bind].
  destruct (rec_get (field_of k) fields) as [v|] eqn:Hf.
  - unfold synced_value. by rewrite Hf.
  - by eapply unasked_entry.
Qed.

Lemma unasked_sync_deletes_nothing_witness :
  ∃ w2 maps', parsedRatios (w_server w2) = Some maps'
  ∧ obj_get "gpt" (maps' (OptNum FCompletion)) = Some (JNum (num_of_Z 4)).
Proof.
  destruct sample_apply as (maps & w1 & updates & Hp & Hw & Hc & He & _ & _ & Hs & Hu).
  destruct (unasked_sync_deletes_nothing upper id local_texts chosen_world w1 w1 _ maps updates "gpt"
    (OptNum FCompletion) (JNum (num_of_Z 4)) upper_letters chosen_run Hp Hw eq_refl Hs Hu (waits_none _ _ _)
    (step_settled upper id w1 updates (λ _, Accepted) Hu)) as (maps' & H1 & H2).
  - intros H. rewrite He in H. discriminate H.
  - exact Hc.
  - eexists _, maps'. split; [exact H1|exact H2].
Defined.
