(* ===== verification/RatioSyncPage.v ===== *)
(** * More properties of the price synchronisation

    The endpoints of the channels, updates that the server refuses or that fail, and
    the check boxes of the columns. *)
From Stdlib Require Import NArith ZArith.
From stdpp Require Import list gmap.
From S2P Require Import Prelude JsString JsNumber Json JsArray JsonRoundtrip JsRecord PricingSettings PricingSettingsTheorems RatioSync RatioSyncTheorems.

(** ** Endpoints *)

(** The endpoints a menu can set. *)
Definition MENU_ENDPOINTS : list jsstr := [DEFAULT_ENDPOINT; "/api/ratio_config"; OPENROUTER_ENDPOINT].

(** The endpoint of a channel that is not one of the two presets. *)
Definition menu_endpoint (endpoints : Endpoints) (id : Z) : Prop :=
  endpoint_of endpoints id = [] ∨ endpoint_of endpoints id ∈ MENU_ENDPOINTS.

Lemma menu_current endpoints id : menu_endpoint endpoints id → currentEndpoint endpoints id ∈ MENU_ENDPOINTS.
Proof.
  unfold menu_endpoint, currentEndpoint. intros [->|H]; [left|].
  destruct (nonempty _) eqn:E; [done|left].
Qed.

Lemma menu_not_custom e : e ∈ MENU_ENDPOINTS → str_eqb (getEndpointType e) CUSTOM_ENDPOINT = false.
Proof. intros H. repeat (apply elem_of_cons in H as [->|H]; [done|]). inversion H. Qed.

Lemma endpoint_insert endpoints id id' e :
  endpoint_of (<[id' := e]> endpoints) id = if decide (id = id') then e else endpoint_of endpoints id.
Proof.
  unfold endpoint_of. destruct (decide (id = id')) as [->|?].
  - by rewrite lookup_insert_eq.
  - by rewrite lookup_insert_ne.
Qed.

Lemma default_menu ch :
  uc_id ch ≠ OFFICIAL_CHANNEL_ID → uc_id ch ≠ MODELS_DEV_PRESET_ID →
  getDefaultEndpointForChannel ch ∈ MENU_ENDPOINTS.
Proof.
  intros H1 H2. unfold getDefaultEndpointForChannel.
  rewrite (proj2 (Z.eqb_neq _ _) H2), (proj2 (Z.eqb_neq _ _) H1).
  destruct (uc_type ch) as [ty|]; [|left]. destruct (_ =? _)%Z; [right; right; left|left].
Qed.

Lemma fill_menu channels endpoints id :
  id ≠ OFFICIAL_CHANNEL_ID → id ≠ MODELS_DEV_PRESET_ID →
  menu_endpoint endpoints id → menu_endpoint (fill_endpoints channels endpoints) id.
Proof.
  intros H1 H2. unfold fill_endpoints. revert endpoints.
  induction channels as [|ch channels IH]; intros endpoints Hm; cbn [fold_left]; [done|]. apply IH.
  destruct (nonempty _); [done|]. unfold menu_endpoint. rewrite endpoint_insert.
  destruct (decide (id = uc_id ch)) as [->|?]; [|done]. right. by apply default_menu.
Qed.

Lemma type_menu endpoints id id' value :
  value ∈ ENDPOINT_OPTIONS → menu_endpoint endpoints id → menu_endpoint (handleTypeChange id' value endpoints) id.
Proof.
  intros Hv Hm. unfold handleTypeChange, updateEndpoint.
  destruct (str_eqb_spec value CUSTOM_ENDPOINT) as [->|Hn]; unfold menu_endpoint; rewrite endpoint_insert;
    destruct (decide (id = id')); try done; [by left|]. right.
  do 3 (apply elem_of_cons in Hv as [->|Hv]; [unfold MENU_ENDPOINTS; set_solver|]).
  by apply list_elem_of_singleton in Hv.
Qed.

Lemma step_menu up t w e w' id :
  id ≠ OFFICIAL_CHANNEL_ID → id ≠ MODELS_DEV_PRESET_ID → sync_step up t w e w' →
  menu_endpoint (pg_channelEndpoints (w_page w)) id → menu_endpoint (pg_channelEndpoints (w_page w')) id.
Proof.
  intros H1 H2 Hs Hm. inversion Hs; subst; clear Hs; try exact Hm; cbn [w_page set_page].
  - by apply fill_menu.
  - by apply type_menu.
  - unfold set_endpoints. cbn. unfold handleEndpointInput.
    destruct (decide (id0 = id)) as [->|?].
    + rewrite menu_not_custom by (by apply menu_current). done.
    + destruct (str_eqb _ _); [|done]. unfold menu_endpoint, updateEndpoint. by rewrite endpoint_insert, decide_False.
  - unfold handleConfirm, handleConfirmChannelSelection. by destruct (nonempty _).
  - destruct answer; exact Hm.
  - unfold handleApplySync. destruct (nonempty _); [exact Hm|]. cbn [fst].
    unfold start_sync. by destruct (performSync _ _ _).
  - unfold handleConfirmConflict, start_sync. by destruct (performSync _ _ _).
  - unfold settled. by destruct (send_updates _ _ _) as [? []].
Qed.

(** An endpoint of one's own cannot be entered.  Whatever the administrator does
    with the menu and the input of a channel that is not a preset, its endpoint is one
    of the three of the menu: choosing [custom] stores the empty text, which is shown
    as the default endpoint, so that the input never appears. *)
Theorem custom_endpoint_unreachable up t server w id :
  sync_run up t (opened server) w → id ≠ OFFICIAL_CHANNEL_ID → id ≠ MODELS_DEV_PRESET_ID →
  currentEndpoint (pg_channelEndpoints (w_page w)) id ∈ MENU_ENDPOINTS
  ∧ getEndpointType (currentEndpoint (pg_channelEndpoints (w_page w)) id) ≠ CUSTOM_ENDPOINT.
Proof.
  intros Hr H1 H2.
  assert (Hm : menu_endpoint (pg_channelEndpoints (w_page w)) id).
  { remember (opened server) as w0 eqn:E. induction Hr as [w0|w0 w1 w2 e _ IH Hs]; [subst; by left|].
    eapply step_menu; [exact H1|exact H2|exact Hs|by apply IH]. }
  apply menu_current in Hm. split; [done|]. by apply str_eqb_neq, menu_not_custom.
Qed.

Lemma custom_endpoint_unreachable_witness :
  currentEndpoint (handleEndpointInput 7 "/mine" (handleTypeChange 7 CUSTOM_ENDPOINT (fill_endpoints [north] ∅))) 7
  ∈ MENU_ENDPOINTS.
Proof.
  pose (w0 := opened local_texts). pose (w1 := set_page (channels_loaded [north] initial_page) w0).
  pose (w2 := set_page (set_endpoints (handleTypeChange 7 CUSTOM_ENDPOINT (pg_channelEndpoints (w_page w1))) (w_page w1)) w1).
  apply (custom_endpoint_unreachable upper id local_texts
    (set_page (set_endpoints (handleEndpointInput 7 "/mine" (pg_channelEndpoints (w_page w2))) (w_page w2)) w2) 7).
  - eapply run_step; [|exact (step_input upper id w2 7 "/mine")].
    eapply run_step; [|apply (step_type upper id w1 7 CUSTOM_ENDPOINT); right; right; right; left].
    eapply run_step; [apply run_refl|exact (step_channels upper id w0 [north])].
  - discriminate.
  - discriminate.
Defined.

(** ** Updates that are not stored *)

Lemma send_refused updates server : send_updates (λ _, Refused) updates server = (server, true).
Proof. by induction updates as [|[k v] updates IH]. Qed.

(** Refused updates are reported as stored.  When the server refuses every update,
    its options are unchanged, and yet the page reports success, forgets what was
    chosen and drops the differences. *)
Theorem refused_sync_dropped up t server w updates :
  sync_run up t (opened server) w → pg_syncing (w_page w) = Some updates →
  ∃ w', sync_step up t w (ESettled (λ _, Refused)) w' ∧ w_server w' = w_server w
  ∧ (settled (send_updates (λ _, Refused) updates (w_server w)).2 (w_page w)).2
    = [ToastSuccess "Prices synced successfully"]
  ∧ ch_resolutions (pg_choice (w_page w')) = []
  ∧ ∀ m r, resolved (ch_resolutions (pg_choice (w_page w))) m r = true →
      field_at (ch_differences (pg_choice (w_page w'))) m r = None.
Proof.
  intros Hr Hu. eexists. split; [by apply (step_settled up t w updates)|].
  rewrite send_refused. cbn [fst snd w_server w_page]. split_and!; [done|done|done|].
  intros m r Hres. unfold settled. cbn [fst set_choice pg_choice ch_differences].
  by rewrite drop_resolved_at, Hres by apply (run_choice_ok _ _ _ _ Hr).
Qed.

Lemma refused_sync_dropped_witness :
  ∃ w w', sync_step upper id w (ESettled (λ _, Refused)) w' ∧ w_server w' = w_server w
  ∧ ch_resolutions (pg_choice (w_page w')) = [].
Proof.
  destruct sample_apply as (maps & w1 & updates & _ & _ & _ & _ & _ & _ & Hs & Hu).
  destruct (refused_sync_dropped upper id local_texts w1 updates) as (w' & H1 & H2 & _ & H3 & _).
  - eapply run_step; [exact chosen_run|exact Hs].
  - exact Hu.
  - exact (ex_intro _ w1 (ex_intro _ w' (conj H1 (conj H2 H3)))).
Defined.

(** An update that is rejected stops the others: each option has its old or its new
    text. *)
Lemma send_partial answer updates server server' ok :
  send_updates answer updates server = (server', ok) →
  ∀ k, server' k = server k ∨ ∃ v, (k, v) ∈ updates ∧ server' k = v.
Proof.
  revert server. induction updates as [|[k0 v0] updates IH]; intros server; cbn [send_updates].
  { intros [= <- _] k. by left. }
  assert (Hset : ∀ k, set_key k0 v0 server k = server k
    ∨ ∃ v, (k, v) ∈ (k0, v0) :: updates ∧ set_key k0 v0 server k = v).
  { intros k. destruct (decide (k = k0)) as [->|?]; [right; exists v0; split; [left|apply set_key_eq]|].
    left. by apply set_key_ne. }
  destruct (answer k0) as [| |stored].
  - intros H k. destruct (IH _ H k) as [->|(v & Hin & ->)]; [apply Hset|]. right. exists v. by split; [right|].
  - intros H k. destruct (IH _ H k) as [->|(v & Hin & ->)]; [by left|]. right. exists v. by split; [right|].
  - intros [= <- _] k. destruct stored; [apply Hset|by left].
Qed.

(** A sync that fails can be repeated.  It leaves every option with its old text
    or the one that was sent, and the choice and the differences are kept, so that
    applying again sends the same updates. *)
Theorem failed_sync_kept up t w w' updates answer server :
  pg_syncing (w_page w) = Some updates → send_updates answer updates (w_server w) = (server, false) →
  sync_step up t w (ESettled answer) w' →
  pg_choice (w_page w') = pg_choice (w_page w) ∧ w_modelRatios w' = w_modelRatios w
  ∧ pg_syncing (w_page w') = None ∧ pg_confirmLoading (w_page w') = false
  ∧ ∀ k, w_server w' k = w_server w k ∨ (k, w_server w' k) ∈ updates.
Proof.
  intros Hu Hsend Hs. inversion Hs as [| | | | | | | | | | | | | |us ans Hu'|]; subst.
  rewrite Hu in Hu'. injection Hu' as <-. rewrite Hsend. cbn. split_and!; [done..|].
  intros k. destruct (send_partial _ _ _ _ _ Hsend k) as [?|(v & Hin & ->)]; [by left|by right].
Qed.

Lemma failed_sync_kept_witness :
  ∃ w w' updates, pg_syncing (w_page w) = Some updates ∧ pg_choice (w_page w') = pg_choice (w_page w)
  ∧ w_server w' = w_server w.
Proof.
  destruct sample_apply as (maps & w1 & updates & Hp & _ & _ & _ & _ & _ & Hs & Hu).
  destruct (apply_sends upper id chosen_world _ _ _ Hp Hs Hu) as (Hperf & _).
  destruct updates as [|[k v] updates].
  { unfold performSync in Hperf. destruct (sync_models _ _ _); discriminate Hperf. }
  pose proof (step_settled upper id w1 _ (λ _, Failed false) Hu) as Hset.
  destruct (failed_sync_kept upper id w1 _ ((k, v) :: updates) (λ _, Failed false) (w_server w1) Hu eq_refl Hset)
    as (H1 & _).
  eexists w1, _, _. split; [exact Hu|]. split; [exact H1|reflexivity].
Defined.

(** ** The check boxes of the columns *)

Lemma unselected_has rt fields r : rec_has r (unselected rt fields) = true → rec_has r fields = true ∧ r ≠ rt.
Proof.
  unfold unselected.
  destruct (str_eqb rt "billing_expr"), (str_eqb rt "billing_mode"); rewrite ?rec_has_delete;
    rewrite ?andb_true_iff, ?negb_true_iff, ?str_eqb_neq; tauto.
Qed.

Lemma unselect_resolved model rt res m r :
  resolved (handleUnselectValue model rt res) m r = true →
  resolved res m r = true ∧ ¬ (m = model ∧ r = rt).
Proof.
  rewrite unselect_unfold. unfold resolved. destruct (rec_get model res) as [fields|] eqn:E.
  - destruct (nonempty _); rewrite ?rec_get_set, ?rec_get_delete;
      destruct (str_eqb_spec m model) as [->|?]; try done; try tauto.
    intros [? ?]%unselected_has. rewrite E. tauto.
  - intros H. split; [done|]. intros [-> _]. by rewrite E in H.
Qed.

Lemma unselect_calls_resolved calls res m r :
  resolved (fold_left (λ res '(model, rt), handleUnselectValue model rt res) calls res) m r = true →
  resolved res m r = true ∧ (m, r) ∉ calls.
Proof.
  revert res. induction calls as [|[model rt] calls IH]; intros res; cbn [fold_left].
  - intros H. split; [done|]. by intros ?%not_elem_of_nil.
  - intros [[H Hn]%unselect_resolved Hc]%IH. split; [done|].
    intros [[= -> ->]|Hin]%elem_of_cons; [by apply Hn|done].
Qed.

(** Unchecking a column drops the values of other columns.  Afterwards no field is
    chosen for which the upstream has any value, even one that is the same as the local
    one and could not be chosen, and whichever upstream's value had been chosen. *)
Theorem uncheck_column_drops upstream filter rows res row rt v :
  row ∈ rows → rt ∈ getOrderedRatioTypes (sr_ratioTypes row) filter →
  upstream_value (sr_ratioTypes row) rt upstream = Some v →
  resolved (handleBulkUnselect upstream filter rows res) (sr_model row) rt = false.
Proof.
  intros Hrow Hrt Hv. destruct (resolved _ _ _) eqn:E; [|done].
  apply unselect_calls_resolved in E as [_ []]. unfold bulk_unselect_calls.
  apply list_elem_of_In, in_flat_map. exists row. split; [by apply list_elem_of_In|].
  apply in_map_iff. exists rt. split; [done|]. apply filter_In. split; [by apply list_elem_of_In|].
  by rewrite Hv.
Qed.

(** Two upstreams; one has the local ratio, and the other's was chosen. *)
Definition two_types : RatioTypes :=
  [("model_ratio", {| rd_current := JNull; rd_confidence := [];
                      rd_upstreams := [("north(7)", JStr SAME); ("south(8)", JNum (num_of_Z 3))] |})].

Lemma uncheck_column_drops_witness :
  let res := handleSelectValue [("gpt", two_types)] "gpt" "model_ratio" (JNum (num_of_Z 3)) "south(8)" [] in
  resolved res "gpt" "model_ratio" = true
  ∧ resolved (handleBulkUnselect "north(7)" [] (dataSource [("gpt", two_types)]) res) "gpt" "model_ratio" = false.
Proof.
  intros res. split; [reflexivity|].
  apply (uncheck_column_drops "north(7)" [] (dataSource [("gpt", two_types)]) res
    {| sr_model := "gpt"; sr_ratioTypes := two_types; sr_billingConflict := false |} "model_ratio" (JStr SAME)).
  - left.
  - left.
  - reflexivity.
Defined.

Section column.
Context (diffs : DifferencesMap) (upstream filter : jsstr).
Hypothesis named : upstream ≠ [].

(** The fields of a row that checking the column chooses. *)
Definition column_fields (types : RatioTypes) : list jsstr :=
  List.filter (selectable_field types upstream) (getOrderedRatioTypes types filter).

(** No two of them exclude each other. *)
Definition compatible (types : RatioTypes) : Prop :=
  ∀ rt rt', rt ∈ column_fields types → rt' ∈ column_fields types →
    getBillingCategory rt = CatPrice → getBillingCategory rt' ≠ CatRatio.

Lemma column_field types rt :
  rt ∈ column_fields types →
  selectable_field types upstream rt = true ∧ ∃ v, upstream_value types rt upstream = Some v
  ∧ isSelectableUpstreamValue (Some v) = true.
Proof.
  intros [_ Hs]%elem_of_filterb. split; [done|]. apply andb_prop in Hs as [_ Hs].
  destruct (selectable_some _ Hs) as [v Ev]. exists v. rewrite Ev in Hs. done.
Qed.

Lemma column_choice types model rt v :
  rec_get model diffs = Some types → selectable_field types upstream rt = true →
  preferred_choice diffs model rt v upstream = (rt, v).
Proof.
  intros Hd [Hp _]%andb_prop. apply str_eqb_eq in Hp. unfold preferred_choice. rewrite Hd.
  change (default [] (Some types)) with types.
  rewrite (proj2 (nonempty_true _) named), Hp, str_eqb_refl. done.
Qed.

Definition chosen_value (res : ResolutionsMap) (model rt : jsstr) : option json :=
  rec_get model res ≫= rec_get rt.

(** The record that choosing a field of the column gives the model. *)
Definition chosen_record (types : RatioTypes) (rt : jsstr) (v : json) (fields : record json) : record json :=
  let category := getBillingCategory rt in
  let fields := rec_set rt v (clear_conflicting category fields) in
  if is_tiered_category category then pair_tiered types rt upstream fields else fields.

Lemma column_select types model rt v res :
  rec_get model diffs = Some types → selectable_field types upstream rt = true →
  handleSelectValue diffs model rt v upstream res
  = rec_set model (chosen_record types rt v (default [] (rec_get model res))) res.
Proof.
  intros Hd Hs. unfold handleSelectValue. rewrite (column_choice types) by done. rewrite Hd.
  rewrite (proj2 (nonempty_true _) named), andb_true_r. done.
Qed.

(** Setting the pair keeps what the upstream offers. *)
Lemma pair_keeps types rt r v fields :
  upstream_value types r upstream = Some v → isSelectableUpstreamValue (Some v) = true →
  rec_get r fields = Some v → rec_get r (pair_tiered types rt upstream fields) = Some v.
Proof.
  intros Hv Hs Hg. unfold pair_tiered.
  assert (Hset : ∀ x fs, rec_get r fs = Some v →
    rec_get r (if isSelectableUpstreamValue (upstream_value types x upstream)
               then rec_set x (default JNull (upstream_value types x upstream)) fs else fs) = Some v).
  { intros x fs Hfs. destruct (isSelectableUpstreamValue (upstream_value types x upstream)); [|done]. rewrite rec_get_set.
    destruct (str_eqb_spec r x) as [->|?]; [by rewrite Hv|done]. }
  apply Hset. specialize (Hset "billing_mode" fields Hg). revert Hset.
  destruct (isSelectableUpstreamValue (upstream_value types "billing_mode" upstream)) eqn:Em; [done|].
  intros _. destruct (str_eqb rt "billing_expr"); [|done]. rewrite rec_get_set.
  destruct (str_eqb_spec r "billing_mode") as [->|?]; [by rewrite Hv, Hs in Em|done].
Qed.

Lemma chosen_keeps types rt v r w fields :
  compatible types → rt ∈ column_fields types → r ∈ column_fields types →
  upstream_value types rt upstream = Some v → upstream_value types r upstream = Some w →
  r = rt ∨ rec_get r fields = Some w → rec_get r (chosen_record types rt v fields) = Some w.
Proof.
  intros Hc Hrt Hr Hv Hw Hg. destruct (column_field _ _ Hr) as (_ & w' & Hw' & Hsel).
  rewrite Hw in Hw'. injection Hw' as <-.
  assert (Hset : rec_get r (rec_set rt v (clear_conflicting (getBillingCategory rt) fields)) = Some w).
  { rewrite rec_get_set. destruct (str_eqb_spec r rt) as [->|Hn]; [congruence|].
    destruct Hg as [?|Hg]; [done|]. rewrite clear_get, Hg. unfold kept_category.
    pose proof (Hc _ _ Hrt Hr). pose proof (Hc _ _ Hr Hrt).
    by destruct (getBillingCategory rt), (getBillingCategory r); cbn; try tauto; exfalso; auto. }
  unfold chosen_record. destruct (is_tiered_category _); [|done]. by apply pair_keeps.
Qed.

Definition row_calls (row : SyncRow) (rts : list jsstr) : list (jsstr * jsstr * json) :=
  map (λ rt, (sr_model row, rt, default JNull (upstream_value (sr_ratioTypes row) rt upstream))) rts.

Definition run_calls (calls : list (jsstr * jsstr * json)) (res : ResolutionsMap) : ResolutionsMap :=
  fold_left (λ res '(model, rt, v), handleSelectValue diffs model rt v upstream res) calls res.

Lemma run_calls_other calls res m :
  (∀ c, c ∈ calls → c.1.1 ≠ m) → rec_get m (run_calls calls res) = rec_get m res.
Proof.
  unfold run_calls. revert res. induction calls as [|[[model rt] v] calls IH]; intros res Hm; [done|].
  cbn [fold_left]. rewrite IH by (intros c Hc; apply Hm; by right).
  assert (Hne : m ≠ model) by (specialize (Hm (model, rt, v) ltac:(left)); cbn in Hm; congruence).
  unfold handleSelectValue. destruct (preferred_choice _ _ _ _ _). by rewrite rec_get_set, (proj2 (str_eqb_neq _ _) Hne).
Qed.

Lemma run_row row rts res r w :
  rec_get (sr_model row) diffs = Some (sr_ratioTypes row) → compatible (sr_ratioTypes row) →
  (∀ rt, rt ∈ rts → rt ∈ column_fields (sr_ratioTypes row)) → r ∈ column_fields (sr_ratioTypes row) →
  upstream_value (sr_ratioTypes row) r upstream = Some w →
  r ∈ rts ∨ chosen_value res (sr_model row) r = Some w →
  chosen_value (run_calls (row_calls row rts) res) (sr_model row) r = Some w.
Proof.
  intros Hd Hc Hin Hr Hw. revert res. induction rts as [|rt rts IH]; intros res Hg; cbn [row_calls map].
  { destruct Hg as [?%not_elem_of_nil|?]; done. }
  unfold run_calls. cbn [fold_left]. apply IH; [by intros rt' ?; apply Hin; right|].
  destruct (decide (r ∈ rts)) as [?|Hn]; [by left|]. right.
  assert (Hrt : rt ∈ column_fields (sr_ratioTypes row)) by (apply Hin; left).
  destruct (column_field _ _ Hrt) as (Hs & v & Hv & _). rewrite Hv. change (default JNull (Some v)) with v.
  rewrite (column_select (sr_ratioTypes row)) by done. unfold chosen_value.
  rewrite rec_get_set, str_eqb_refl. cbn [mbind option_bind]. apply chosen_keeps; try done.
  destruct Hg as [[->|?]%elem_of_cons|Hg]; [by left|done|]. right. unfold chosen_value in Hg.
  by destruct (rec_get (sr_model row) res).
Qed.

Lemma bulk_row rows res row r w :
  NoDup (map sr_model rows) →
  (∀ row, row ∈ rows → rec_get (sr_model row) diffs = Some (sr_ratioTypes row) ∧ compatible (sr_ratioTypes row)) →
  row ∈ rows → r ∈ column_fields (sr_ratioTypes row) →
  upstream_value (sr_ratioTypes row) r upstream = Some w →
  chosen_value (handleBulkSelect diffs upstream filter rows res) (sr_model row) r = Some w.
Proof.
  unfold handleBulkSelect. fold (run_calls (bulk_select_calls upstream filter rows) res).
  intros Hd Hrows Hrow Hr Hw. revert res. induction rows as [|row0 rows IH]; intros res; [by apply not_elem_of_nil in Hrow|].
  cbn [bulk_select_calls flat_map]. fold (column_fields (sr_ratioTypes row0)) (bulk_select_calls upstream filter rows).
  fold (row_calls row0 (column_fields (sr_ratioTypes row0))). unfold run_calls. rewrite fold_left_app.
  cbn [map] in Hd. apply list.NoDup_cons in Hd as [Hn Hd].
  apply elem_of_cons in Hrow as [->|Hrow]; [|by apply IH; [done|by intros ? ?; apply Hrows; right|]].
  fold (run_calls (row_calls row0 (column_fields (sr_ratioTypes row0))) res).
  match goal with |- chosen_value (fold_left _ _ ?r0) _ _ = _ =>
    fold (run_calls (bulk_select_calls upstream filter rows) r0) end.
  unfold chosen_value. rewrite run_calls_other.
  - apply (run_row row0); [apply Hrows; left|apply Hrows; left|done|done|done|by left].
  - intros c [row' [Hin Hc]]%list_elem_of_In%in_flat_map Heq. apply Hn.
    apply in_map_iff in Hc as (rt & <- & _). cbn in Heq. rewrite <- Heq.
    apply list_elem_of_In. by apply in_map.
Qed.

(** The count of the fields that can be chosen. *)
Lemma header_all res rows :
  (∀ row r, row ∈ rows → r ∈ column_fields (sr_ratioTypes row) →
     isSelected res (sr_model row) r (upstream_value (sr_ratioTypes row) r upstream) = true) →
  (header_counts res upstream filter rows).2 = (header_counts res upstream filter rows).1.
Proof.
  intros Hall. unfold header_counts.
  assert (Hacc : ∀ acc : nat * nat, acc.2 = acc.1 → ∀ row, row ∈ rows → ∀ rts,
    (∀ r, r ∈ rts → r ∈ getOrderedRatioTypes (sr_ratioTypes row) filter) →
    (λ p : nat * nat, p.2 = p.1) (fold_left (λ '(selectableCount, selectedCount) ratioType,
      if selectable_field (sr_ratioTypes row) upstream ratioType then
        (S selectableCount,
         if isSelected res (sr_model row) ratioType (upstream_value (sr_ratioTypes row) ratioType upstream)
         then S selectedCount else selectedCount)
      else (selectableCount, selectedCount)) rts acc)).
  { intros acc Hacc row Hrow rts. revert acc Hacc. induction rts as [|r rts IH]; intros [a b] Hacc Hin; [done|].
    cbn [fold_left]. apply IH; [|by intros; apply Hin; right].
    destruct (selectable_field _ _ r) eqn:E; [|done]. rewrite (Hall row r); [cbn in *; congruence|done|].
    apply elem_of_filterb. split; [apply Hin; left|done]. }
  assert (Hrows : ∀ l (acc : nat * nat), (∀ row, row ∈ l → row ∈ rows) → acc.2 = acc.1 →
    (λ p : nat * nat, p.2 = p.1) (fold_left (λ acc row, fold_left
      (λ '(selectableCount, selectedCount) ratioType,
         if selectable_field (sr_ratioTypes row) upstream ratioType then
           (S selectableCount,
            if isSelected res (sr_model row) ratioType (upstream_value (sr_ratioTypes row) ratioType upstream)
            then S selectedCount else selectedCount)
         else (selectableCount, selectedCount))
      (getOrderedRatioTypes (sr_ratioTypes row) filter) acc) l acc)).
  { induction l as [|row l IH]; intros acc Hin Hacc'; [done|]. cbn [fold_left].
    apply IH; [by intros; apply Hin; right|]. apply Hacc; [done|apply Hin; left|done]. }
  by apply (Hrows rows (0, 0)).
Qed.
End column.

(** Checking a column chooses every value of it.  If no row of the table offers
    both a price and a ratio, all values of the upstream that can be chosen in the rows
    shown are chosen afterwards, whatever was chosen before, and the box is checked. *)
Theorem check_column_selects_all diffs upstream filter rows res :
  upstream ≠ [] → NoDup (map sr_model rows) →
  (∀ row, row ∈ rows → rec_get (sr_model row) diffs = Some (sr_ratioTypes row)
     ∧ compatible upstream filter (sr_ratioTypes row)) →
  (∀ row rt v, row ∈ rows → upstream_value (sr_ratioTypes row) rt upstream = Some v → strict_eq v v = true) →
  let counts := header_counts (handleBulkSelect diffs upstream filter rows res) upstream filter rows in
  allSelected counts = (0 <? counts.1) ∧ someSelected counts = false.
Proof.
  intros Hu Hd Hrows Hv counts.
  assert (Hc : counts.2 = counts.1).
  { apply header_all. intros row r Hrow Hr.
    destruct (column_field _ _ _ _ Hr) as (_ & w & Hw & _).
    pose proof (bulk_row diffs upstream filter Hu rows res row r w Hd Hrows Hrow Hr Hw) as Hg.
    unfold isSelected. fold (chosen_value (handleBulkSelect diffs upstream filter rows res) (sr_model row) r).
    unfold chosen_value in Hg. destruct (rec_get (sr_model row) _) as [fields|]; [|done]. cbn in Hg.
    rewrite Hg, Hw. by apply (Hv row r). }
  unfold allSelected, someSelected. rewrite Hc, Nat.eqb_refl, andb_true_r, Nat.ltb_irrefl, andb_false_r. done.
Qed.

Lemma check_column_selects_all_witness :
  let rows := dataSource sample_diffs in
  allSelected (header_counts (handleBulkSelect sample_diffs "north(7)" [] rows []) "north(7)" [] rows) = true.
Proof.
  intros rows. destruct (check_column_selects_all sample_diffs "north(7)" [] rows []) as [-> _].
  - discriminate.
  - apply (bool_decide_unpack _). reflexivity.
  - intros row H. repeat (apply elem_of_cons in H as [->|H]; [|]); [..|by apply not_elem_of_nil in H];
      (split; [reflexivity|]; intros rt rt' H1 _ Hc; apply list_elem_of_singleton in H1; subst rt; discriminate Hc).
  - intros row rt v H. repeat (apply elem_of_cons in H as [->|H]; [|]); [..|by apply not_elem_of_nil in H];
      unfold upstream_value; cbn [sr_ratioTypes sample_types rec_get];
      (destruct (str_eqb rt "model_ratio"); [intros [= <-]; reflexivity|]);
      (destruct (str_eqb rt "completion_ratio"); [intros [= <-]; reflexivity|discriminate]).
  - reflexivity.
Defined.
