(* ===== verification/GroupRatios.v ===== *)
(** * Groups and their ratios

    [features/system-settings/models/group-ratio-visual-editor.tsx]: the table of
    pricing groups, kept in two options, the top-up ratios, the ratios of a user group
    for the groups of tokens, and the list of groups of the automatic assignment.  Each
    option is a JSON text of the form; a text that is no object, or for the list no
    array of texts, is outside the model. *)
From Stdlib Require Import NArith ZArith.
From stdpp Require Import list.
From S2P Require Import Prelude JsString JsNumber Json JsArray JsonRoundtrip JsonIndent JsRecord Pricing PricingSettings ChannelForm.

Abbreviation fields := (list (jsstr * json)).

(** An option read as an object. *)
Definition read_map (text : jsstr) : option fields :=
  match safeJsonParse text (JObj []) with JObj kvs => Some kvs | _ => None end.

Definition write_map (kvs : fields) : jsstr := JSON_stringify_2 (JObj kvs).

(** ** The table of pricing groups *)

Record GroupPricingRow : Type := {
  gp_id : jsstr;
  gp_name : jsstr;
  gp_ratio : number;
  gp_selectable : bool;
  gp_description : jsstr
}.

(** [groupPricingIdCounter] is [n] before the call. *)
Definition createGroupPricingId (n : N) : jsstr * N := ("gpr_" ++ to_dec (n + 1), (n + 1)%N).

(** [Number(undefined)] is [NaN]. *)
Definition normalizeRatio (value : option json) : number :=
  let parsed := match value with Some v => json_toNumber v | None => NaN end in
  if isFinite parsed then parsed else num_of_Z 1.

(** [String(v ?? '')]. *)
Definition text_of (v : option json) : jsstr :=
  match v with None | Some JNull => [] | Some j => json_toString j end.

Definition pricing_row (ratioMap usableMap : fields) (id name : jsstr) : GroupPricingRow :=
  {| gp_id := id; gp_name := name; gp_ratio := normalizeRatio (obj_get name ratioMap);
     gp_selectable := obj_has name usableMap; gp_description := text_of (obj_get name usableMap) |}.

Fixpoint pricing_rows (ratioMap usableMap : fields) (names : list jsstr) (n : N)
    : list GroupPricingRow * N :=
  match names with
  | [] => ([], n)
  | name :: rest =>
      let '(id, n) := createGroupPricingId n in
      let '(rows, n') := pricing_rows ratioMap usableMap rest n in
      (pricing_row ratioMap usableMap id name :: rows, n')
  end.

Definition buildGroupPricingRows (groupRatio userUsableGroups : jsstr) (n : N)
    : option (list GroupPricingRow * N) :=
  ratioMap ← read_map groupRatio;
  usableMap ← read_map userUsableGroups;
  Some (pricing_rows ratioMap usableMap (str_dedup (object_keys ratioMap ++ object_keys usableMap)) n).

(** One row of the loop of [serializeGroupPricingRows]. *)
Definition serialize_row (maps : fields * fields) (row : GroupPricingRow) : fields * fields :=
  let '(groupRatio, userUsableGroups) := maps in
  let name := trim (gp_name row) in
  if nonempty name then
    (obj_set name (JNum (normalizeRatio (Some (JNum (gp_ratio row))))) groupRatio,
     if gp_selectable row then obj_set name (JStr (gp_description row)) userUsableGroups else userUsableGroups)
  else maps.

Definition serialize_maps (rows : list GroupPricingRow) : fields * fields := fold_left serialize_row rows ([], []).

(** The texts of [GroupRatio] and [UserUsableGroups]. *)
Definition serializeGroupPricingRows (rows : list GroupPricingRow) : jsstr * jsstr :=
  let '(groupRatio, userUsableGroups) := serialize_maps rows in
  (write_map groupRatio, write_map userUsableGroups).

Definition sourceGroupPricingSignature (groupRatio userUsableGroups : jsstr) : jsstr :=
  JSON_stringify (JObj [("groupRatio", safeJsonParse groupRatio (JObj []));
                        ("userUsableGroups", safeJsonParse userUsableGroups (JObj []))]).

Definition groupPricingSignature (rows : list GroupPricingRow) : jsstr :=
  let '(groupRatio, userUsableGroups) := serializeGroupPricingRows rows in
  sourceGroupPricingSignature groupRatio userUsableGroups.

(** The table with the two texts of the form, and the counter of the module. *)
Record PricingTable : Type := {
  pt_rows : list GroupPricingRow;
  pt_groupRatio : jsstr;
  pt_userUsableGroups : jsstr;
  pt_counter : N
}.

(** The effect on the two texts. *)
Definition table_effect (tb : PricingTable) : option PricingTable :=
  if str_eqb (groupPricingSignature (pt_rows tb))
       (sourceGroupPricingSignature (pt_groupRatio tb) (pt_userUsableGroups tb))
  then Some tb
  else
    '(rows, n) ← buildGroupPricingRows (pt_groupRatio tb) (pt_userUsableGroups tb) (pt_counter tb);
    Some {| pt_rows := rows; pt_groupRatio := pt_groupRatio tb;
            pt_userUsableGroups := pt_userUsableGroups tb; pt_counter := n |}.

(** Mounting, with the effect that follows. *)
Definition open_table (groupRatio userUsableGroups : jsstr) (n : N) : option PricingTable :=
  '(rows, n) ← buildGroupPricingRows groupRatio userUsableGroups n;
  table_effect {| pt_rows := rows; pt_groupRatio := groupRatio; pt_userUsableGroups := userUsableGroups;
                  pt_counter := n |}.

(** [emitRows], with the render and the effect that follow. *)
Definition emitRows (nextRows : list GroupPricingRow) (n : N) : option PricingTable :=
  let '(groupRatio, userUsableGroups) := serializeGroupPricingRows nextRows in
  table_effect {| pt_rows := nextRows; pt_groupRatio := groupRatio; pt_userUsableGroups := userUsableGroups;
                  pt_counter := n |}.

(** The form is given other texts. *)
Definition texts_changed (groupRatio userUsableGroups : jsstr) (tb : PricingTable) : option PricingTable :=
  table_effect {| pt_rows := pt_rows tb; pt_groupRatio := groupRatio; pt_userUsableGroups := userUsableGroups;
                  pt_counter := pt_counter tb |}.

Inductive RowEdit : Type :=
| SetName (name : jsstr)
| SetRatio (text : jsstr)
| SetSelectable (checked : bool)
| SetDescription (text : jsstr).

(** [{ ...row, [field]: value }] for the inputs of a row. *)
Definition row_edit (e : RowEdit) (row : GroupPricingRow) : GroupPricingRow :=
  {| gp_id := gp_id row;
     gp_name := match e with SetName name => name | _ => gp_name row end;
     gp_ratio := match e with SetRatio text => normalizeRatio (Some (JStr text)) | _ => gp_ratio row end;
     gp_selectable := match e with SetSelectable checked => checked | _ => gp_selectable row end;
     gp_description := match e with SetDescription text => text | _ => gp_description row end |}.

Definition updateRow (id : jsstr) (e : RowEdit) (tb : PricingTable) : option PricingTable :=
  emitRows (map (λ row, if str_eqb (gp_id row) id then row_edit e row else row) (pt_rows tb)) (pt_counter tb).

Definition group_name (index : nat) : jsstr := "group_" ++ to_dec (N.of_nat index).

(** The loop of [addRow]: the first index from [index] on whose name is not taken.
    [None] is running out of fuel. *)
Fixpoint free_index (fuel : nat) (existingNames : list jsstr) (index : nat) : option nat :=
  match fuel with
  | 0 => None
  | S fuel =>
      if str_mem (group_name index) existingNames then free_index fuel existingNames (S index) else Some index
  end.

(** One more step than there are names. *)
Definition add_fuel (rows : list GroupPricingRow) : nat := S (length rows).

Definition new_row (id name : jsstr) : GroupPricingRow :=
  {| gp_id := id; gp_name := name; gp_ratio := num_of_Z 1; gp_selectable := true; gp_description := [] |}.

Definition addRow (tb : PricingTable) : option PricingTable :=
  index ← free_index (add_fuel (pt_rows tb)) (map gp_name (pt_rows tb)) 1;
  let '(id, n) := createGroupPricingId (pt_counter tb) in
  emitRows (pt_rows tb ++ [new_row id (group_name index)]) n.

Definition removeRow (id : jsstr) (tb : PricingTable) : option PricingTable :=
  emitRows (List.filter (λ row, negb (str_eqb (gp_id row) id)) (pt_rows tb)) (pt_counter tb).

(** The names, trimmed, of the rows that have one, each once, that occur twice. *)
Definition row_names (rows : list GroupPricingRow) : list jsstr :=
  List.filter nonempty (map (λ row, trim (gp_name row)) rows).

Definition count (name : jsstr) (names : list jsstr) : nat := length (List.filter (str_eqb name) names).

Definition duplicateNames (rows : list GroupPricingRow) : list jsstr :=
  List.filter (λ name, 1 <? count name (row_names rows)) (str_dedup (row_names rows)).

Inductive TableEvent : Type :=
| TUpdate (id : jsstr) (e : RowEdit)
| TAdd
| TRemove (id : jsstr).

Definition table_event (tb : PricingTable) (ev : TableEvent) : option PricingTable :=
  match ev with
  | TUpdate id e => updateRow id e tb
  | TAdd => addRow tb
  | TRemove id => removeRow id tb
  end.

Fixpoint table_events (tb : PricingTable) (evs : list TableEvent) : option PricingTable :=
  match evs with
  | [] => Some tb
  | ev :: rest => tb' ← table_event tb ev; table_events tb' rest
  end.

(** ** The other options *)

Record GroupForm : Type := {
  gf_groupRatio : jsstr;
  gf_topupGroupRatio : jsstr;
  gf_groupGroupRatio : jsstr;
  gf_autoGroups : jsstr
}.

Inductive SimpleType : Type := SGroupRatio | STopupGroupRatio.

Definition simple_text (ty : SimpleType) (form : GroupForm) : jsstr :=
  match ty with SGroupRatio => gf_groupRatio form | STopupGroupRatio => gf_topupGroupRatio form end.

(** [onChange] of the field. *)
Definition set_simple (ty : SimpleType) (text : jsstr) (form : GroupForm) : GroupForm :=
  {| gf_groupRatio := match ty with SGroupRatio => text | _ => gf_groupRatio form end;
     gf_topupGroupRatio := match ty with STopupGroupRatio => text | _ => gf_topupGroupRatio form end;
     gf_groupGroupRatio := gf_groupGroupRatio form; gf_autoGroups := gf_autoGroups form |}.

Definition set_groupGroup (text : jsstr) (form : GroupForm) : GroupForm :=
  {| gf_groupRatio := gf_groupRatio form; gf_topupGroupRatio := gf_topupGroupRatio form;
     gf_groupGroupRatio := text; gf_autoGroups := gf_autoGroups form |}.

Definition set_auto (text : jsstr) (form : GroupForm) : GroupForm :=
  {| gf_groupRatio := gf_groupRatio form; gf_topupGroupRatio := gf_topupGroupRatio form;
     gf_groupGroupRatio := gf_groupGroupRatio form; gf_autoGroups := text |}.

(** *** Top-up ratios *)

Definition topupRatioList (form : GroupForm) : option (list (jsstr * jsstr)) :=
  kvs ← read_map (gf_topupGroupRatio form);
  Some (map (λ '(name, value), (name, json_toString value)) (entries kvs)).

Definition simple_saved (edited : option jsstr) (name value : jsstr) (kvs : fields) : fields :=
  let kvs := match edited with
             | Some old => if str_eqb old name then kvs else obj_delete old kvs
             | None => kvs
             end in
  obj_set name (JNum (parseFloat value)) kvs.

(** [edited] is the name in [simpleEditData]. *)
Definition handleSimpleSave (ty : SimpleType) (edited : option jsstr) (name value : jsstr) (form : GroupForm)
    : option GroupForm :=
  kvs ← read_map (simple_text ty form);
  Some (set_simple ty (write_map (simple_saved edited name value kvs)) form).

Definition handleSimpleDelete (ty : SimpleType) (name : jsstr) (form : GroupForm) : option GroupForm :=
  kvs ← read_map (simple_text ty form);
  Some (set_simple ty (write_map (obj_delete name kvs)) form).

(** The dialog: its inputs, what the ratio input accepts, and the texts it saves. *)
Definition ratio_input (val value : jsstr) : jsstr :=
  if negb (nonempty val) || negb (is_nan (parseFloat val)) then val else value.

Definition simple_handleSave (name value : jsstr) : option (jsstr * jsstr) :=
  if nonempty (trim name) && nonempty (trim value) then Some (trim name, trim value) else None.

(** *** The list of the automatic assignment *)

Fixpoint texts_of (l : list json) : option (list jsstr) :=
  match l with
  | [] => Some []
  | JStr s :: r => rest ← texts_of r; Some (s :: rest)
  | _ => None
  end.

Definition autoGroupsList (form : GroupForm) : option (list jsstr) :=
  match safeJsonParse (gf_autoGroups form) (JArr []) with JArr l => texts_of l | _ => None end.

Definition write_list (l : list jsstr) : jsstr := JSON_stringify_2 (JArr (map JStr l)).

Definition handleAutoGroupSave (autoGroupInput : jsstr) (form : GroupForm) : option GroupForm :=
  if nonempty (trim autoGroupInput) then
    l ← autoGroupsList form;
    Some (set_auto (write_list (l ++ [trim autoGroupInput])) form)
  else Some form.

(** [list.filter((_, i) => i !== index)]. *)
Fixpoint remove_index {A} (index : nat) (l : list A) : list A :=
  match l, index with
  | [], _ => []
  | _ :: r, 0 => r
  | x :: r, S i => x :: remove_index i r
  end.

Definition handleAutoGroupDelete (index : nat) (form : GroupForm) : option GroupForm :=
  l ← autoGroupsList form;
  Some (set_auto (write_list (remove_index index l)) form).

Inductive Direction : Type := Up | Down.

(** The neighbour of an index; [None] is below 0. *)
Definition neighbour (index : nat) (direction : Direction) : option nat :=
  match direction, index with
  | Up, 0 => None
  | Up, S i => Some i
  | Down, _ => Some (S index)
  end.

Definition moved (index : nat) (direction : Direction) (l : list jsstr) : option (list jsstr) :=
  newIndex ← neighbour index direction;
  a ← l !! index;
  b ← l !! newIndex;
  Some (<[newIndex := a]> (<[index := b]> l)).

(** The buttons give an index of the list. *)
Definition handleAutoGroupMove (index : nat) (direction : Direction) (form : GroupForm) : option GroupForm :=
  l ← autoGroupsList form;
  match moved index direction l with
  | Some l' => Some (set_auto (write_list l') form)
  | None => Some form
  end.

(** *** Ratios between groups *)

(** [map[userGroup]], an object, or [{}] when it is falsy. *)
Definition overrides_of (userGroup : jsstr) (kvs : fields) : option fields :=
  match obj_get userGroup kvs with
  | None => Some []
  | Some (JObj inner) => Some inner
  | Some j => if json_truthy j then None else Some []
  end.

Definition groupGroupRatioList (form : GroupForm) : option (list (jsstr * list (jsstr * json))) :=
  kvs ← read_map (gf_groupGroupRatio form);
  if forallb (λ '(_, v), match v with JObj _ => true | _ => false end) kvs
  then Some (map (λ '(userGroup, v), (userGroup, match v with JObj inner => entries inner | _ => [] end))
               (entries kvs))
  else None.

Definition handleUserGroupSave (userGroupInput : jsstr) (form : GroupForm) : option GroupForm :=
  let g := trim userGroupInput in
  if nonempty g then
    kvs ← read_map (gf_groupGroupRatio form);
    let kvs := match obj_get g kvs with
               | Some j => if json_truthy j then kvs else obj_set g (JObj []) kvs
               | None => obj_set g (JObj []) kvs
               end in
    Some (set_groupGroup (write_map kvs) form)
  else Some form.

Definition handleUserGroupDelete (userGroup : jsstr) (form : GroupForm) : option GroupForm :=
  kvs ← read_map (gf_groupGroupRatio form);
  Some (set_groupGroup (write_map (obj_delete userGroup kvs)) form).

Definition override_saved (userGroup targetGroup : jsstr) (ratio : number) (oldTargetGroup : option jsstr)
    (kvs : fields) : option fields :=
  inner ← overrides_of userGroup kvs;
  let inner := match oldTargetGroup with
               | Some old => if nonempty old && negb (str_eqb old targetGroup) then obj_delete old inner else inner
               | None => inner
               end in
  Some (obj_set userGroup (JObj (obj_set targetGroup (JNum ratio) inner)) kvs).

(** [userGroup] is [groupOverrideUserGroup]; [null] and the empty text return early. *)
Definition handleOverrideSave (userGroup : option jsstr) (targetGroup : jsstr) (ratio : number)
    (oldTargetGroup : option jsstr) (form : GroupForm) : option GroupForm :=
  match userGroup with
  | Some g =>
      if nonempty g then
        kvs ← read_map (gf_groupGroupRatio form);
        kvs' ← override_saved g targetGroup ratio oldTargetGroup kvs;
        Some (set_groupGroup (write_map kvs') form)
      else Some form
  | None => Some form
  end.

(** The dialog of one override: [None] when nothing is saved. *)
Definition override_handleSave (targetGroup ratio : jsstr) : option (jsstr * number) :=
  if nonempty (trim targetGroup) && nonempty (trim ratio) then
    if is_nan (parseFloat ratio) then None else Some (trim targetGroup, parseFloat ratio)
  else None.

Definition override_deleted (userGroup targetGroup : jsstr) (kvs : fields) : option fields :=
  match obj_get userGroup kvs with
  | None => Some kvs
  | Some (JObj inner) =>
      let inner' := obj_delete targetGroup inner in
      Some (if nonempty inner' then obj_set userGroup (JObj inner') kvs else obj_delete userGroup kvs)
  | Some j => if json_truthy j then None else Some kvs
  end.

Definition handleOverrideDelete (userGroup targetGroup : jsstr) (form : GroupForm) : option GroupForm :=
  kvs ← read_map (gf_groupGroupRatio form);
  kvs' ← override_deleted userGroup targetGroup kvs;
  Some (set_groupGroup (write_map kvs') form).
