(* ===== verification/GroupRatioTheorems.v ===== *)
(** * Properties of the groups and their ratios

    The table of pricing groups keeps the rows that are edited and reopens them, a new
    row gets a free name, and the other options hold what their dialogs save. *)
From Stdlib Require Import NArith ZArith.
From stdpp Require Import list.
From S2P Require Import Prelude JsString JsNumber Json JsArray JsonRoundtrip JsonIndent JsRecord Pricing PricingSettings PricingSettingsTheorems ChannelForm GroupRatios.

(** ** The rows that are edited *)

(** A row that is written is not read again: its signature is that of the texts. *)
Lemma emit_keeps rows n :
  emitRows rows n
  = Some {| pt_rows := rows; pt_groupRatio := (serializeGroupPricingRows rows).1;
            pt_userUsableGroups := (serializeGroupPricingRows rows).2; pt_counter := n |}.
Proof.
  unfold emitRows, table_effect, groupPricingSignature. destruct (serializeGroupPricingRows rows) as [g u] eqn:E.
  cbn [pt_rows pt_groupRatio pt_userUsableGroups fst snd]. by rewrite E, str_eqb_refl.
Qed.

(** *** The name of a new row *)

Lemma group_name_inj i j : group_name i = group_name j → i = j.
Proof. unfold group_name. intros H%app_inv_head%to_dec_inj. lia. Qed.

(** The names from [index] on that the loop has found taken are names of the list, and
    distinct. *)
Lemma free_index_spec fuel names index i :
  free_index fuel names index = Some i →
  index ≤ i ∧ (group_name i ∉ names) ∧ ∀ j, index ≤ j → j < i → group_name j ∈ names.
Proof.
  revert index. induction fuel as [|fuel IH]; intros index; cbn [free_index]; [done|].
  destruct (str_mem (group_name index) names) eqn:E.
  - intros (H1 & H2 & H3)%IH. split_and!; [lia|done|]. intros j Hj1 Hj2.
    destruct (decide (j = index)) as [->|?]; [by apply str_mem_true|]. apply H3; lia.
  - intros [= <-]. split_and!; [lia|by apply str_mem_false|]. intros; lia.
Qed.

Lemma free_index_none fuel names index :
  free_index fuel names index = None → ∀ j, index ≤ j → j < index + fuel → group_name j ∈ names.
Proof.
  revert index. induction fuel as [|fuel IH]; intros index; cbn [free_index]; [intros; lia|].
  destruct (str_mem (group_name index) names) eqn:E; [|done]. intros H j H1 H2.
  destruct (decide (j = index)) as [->|?]; [by apply str_mem_true|]. apply (IH (S index)); [done|lia|lia].
Qed.

(** More names than the list holds cannot all be taken. *)
Lemma free_index_total names index : ∃ i, free_index (S (length names)) names index = Some i.
Proof.
  destruct (free_index _ names index) as [i|] eqn:E; [by exists i|]. exfalso.
  pose proof (free_index_none _ _ _ E) as H.
  assert (Hd : NoDup (map group_name (seq index (S (length names))))).
  { apply NoDup_fmap_2; [intros i j; apply group_name_inj|]. apply NoDup_seq. }
  assert (Hs : map group_name (seq index (S (length names))) ⊆+ names).
  { apply NoDup_submseteq; [done|]. intros x (j & -> & Hj)%elem_of_mapb.
    apply elem_of_seq in Hj. apply H; lia. }
  apply submseteq_length in Hs. rewrite length_map, length_seq in Hs. lia.
Qed.

(** *** Events *)

(** The identifiers are the ones given out so far. *)
Definition ids_below (n : N) (rows : list GroupPricingRow) : Prop :=
  ∀ row, row ∈ rows → ∃ i, (1 ≤ i)%N ∧ (i ≤ n)%N ∧ gp_id row = "gpr_" ++ to_dec i.

Definition table_ok (tb : PricingTable) : Prop :=
  NoDup (map gp_id (pt_rows tb)) ∧ ids_below (pt_counter tb) (pt_rows tb).

Lemma pricing_rows_ok r u names n :
  NoDup (map gp_id (pricing_rows r u names n).1)
  ∧ (n ≤ (pricing_rows r u names n).2)%N
  ∧ ∀ row, row ∈ (pricing_rows r u names n).1 →
      ∃ i, (n < i)%N ∧ (i ≤ (pricing_rows r u names n).2)%N ∧ gp_id row = "gpr_" ++ to_dec i.
Proof.
  revert n. induction names as [|name names IH]; intros n; cbn [pricing_rows].
  - split_and!; [constructor|cbn; lia|]. by intros row ?%not_elem_of_nil.
  - cbn [createGroupPricingId]. specialize (IH (n + 1)%N).
    destruct (pricing_rows r u names (n + 1)) as [rows n']. cbn [fst snd] in *. destruct IH as (Hd & Hle & Hi).
    split_and!; [|lia|].
    + cbn [map pricing_row gp_id]. apply list.NoDup_cons. split; [|done].
      intros (row & E & Hrow)%elem_of_mapb. destruct (Hi _ Hrow) as (i & H1 & _ & H2).
      rewrite H2 in E. apply app_inv_head, to_dec_inj in E. lia.
    + intros row [->|Hrow]%elem_of_cons; [exists (n + 1)%N; cbn; split_and!; [lia|lia|done]|].
      destruct (Hi _ Hrow) as (i & H1 & H2 & H3). exists i. split_and!; [lia|lia|done].
Qed.

Lemma built_ok g u n rows n' :
  buildGroupPricingRows g u n = Some (rows, n') → NoDup (map gp_id rows) ∧ ids_below n' rows.
Proof.
  unfold buildGroupPricingRows. destruct (read_map g) as [r|]; [|done]. cbn [mbind option_bind].
  destruct (read_map u) as [us|]; [|done]. cbn [mbind option_bind]. intros [= E].
  destruct (pricing_rows_ok r us (str_dedup (object_keys r ++ object_keys us)) n) as (Hd & Hle & Hi).
  rewrite E in *. cbn [fst snd] in *. split; [done|]. intros row Hrow.
  destruct (Hi _ Hrow) as (i & H1 & H2 & H3). exists i. split_and!; [lia|done|done].
Qed.

Lemma effect_ok tb tb' : table_effect tb = Some tb' → table_ok tb → table_ok tb'.
Proof.
  unfold table_effect. destruct (str_eqb _ _); [by intros [= <-]|].
  destruct (buildGroupPricingRows _ _ _) as [[rows n]|] eqn:E; [|done]. cbn. intros [= <-] _.
  exact (built_ok _ _ _ _ _ E).
Qed.

Lemma open_ok g u n tb : open_table g u n = Some tb → table_ok tb.
Proof.
  unfold open_table. destruct (buildGroupPricingRows g u n) as [[rows n']|] eqn:E; [|done]. cbn [mbind option_bind].
  intros H. eapply effect_ok; [exact H|]. exact (built_ok _ _ _ _ _ E).
Qed.

Definition edited (id : jsstr) (e : RowEdit) (rows : list GroupPricingRow) : list GroupPricingRow :=
  map (λ row, if str_eqb (gp_id row) id then row_edit e row else row) rows.

(** The rows an event is to give. *)
Definition rows_after (tb : PricingTable) (ev : TableEvent) (rows : list GroupPricingRow) : Prop :=
  match ev with
  | TUpdate id e => rows = edited id e (pt_rows tb)
  | TRemove id => rows = List.filter (λ row, negb (str_eqb (gp_id row) id)) (pt_rows tb)
  | TAdd => ∃ i, rows = pt_rows tb ++ [new_row ("gpr_" ++ to_dec (pt_counter tb + 1)) (group_name i)]
      ∧ 1 ≤ i ∧ (group_name i ∉ map gp_name (pt_rows tb))
      ∧ ∀ j, 1 ≤ j → j < i → group_name j ∈ map gp_name (pt_rows tb)
  end.

Lemma edited_ids id e rows : map gp_id (edited id e rows) = map gp_id rows.
Proof.
  unfold edited. rewrite map_map. apply map_ext. intros row. by destruct (str_eqb (gp_id row) id).
Qed.

Lemma ids_elem n rows : ids_below n rows ↔ ∀ x, x ∈ map gp_id rows → ∃ i, (1 ≤ i)%N ∧ (i ≤ n)%N ∧ x = "gpr_" ++ to_dec i.
Proof.
  unfold ids_below. split.
  - intros H x (row & -> & Hr)%elem_of_mapb. by apply H.
  - intros H row Hr. apply H. apply elem_of_mapb. by exists row.
Qed.

Lemma event_ok tb ev :
  table_ok tb →
  ∃ tb', table_event tb ev = Some tb' ∧ rows_after tb ev (pt_rows tb')
  ∧ serializeGroupPricingRows (pt_rows tb') = (pt_groupRatio tb', pt_userUsableGroups tb') ∧ table_ok tb'.
Proof.
  intros [Hd Hi].
  assert (Hemit : ∀ rows n, NoDup (map gp_id rows) → ids_below n rows →
    ∃ tb', emitRows rows n = Some tb' ∧ pt_rows tb' = rows
    ∧ serializeGroupPricingRows (pt_rows tb') = (pt_groupRatio tb', pt_userUsableGroups tb') ∧ table_ok tb').
  { intros rows n H1 H2. eexists. split; [apply emit_keeps|]. cbn [pt_rows pt_groupRatio pt_userUsableGroups].
    split_and!; [done|by destruct (serializeGroupPricingRows rows)|by split]. }
  destruct ev as [id e| |id]; cbn [table_event rows_after].
  - destruct (Hemit (edited id e (pt_rows tb)) (pt_counter tb)) as (tb' & H1 & H2 & H3 & H4).
    + by rewrite edited_ids.
    + apply ids_elem. rewrite edited_ids. by apply ids_elem.
    + exists tb'. by rewrite H2 in *.
  - unfold addRow, add_fuel. rewrite <- (length_map gp_name).
    destruct (free_index_total (map gp_name (pt_rows tb)) 1) as [i Ei]. rewrite Ei.
    cbn [mbind option_bind createGroupPricingId].
    set (id := "gpr_" ++ to_dec (pt_counter tb + 1)).
    destruct (Hemit (pt_rows tb ++ [new_row id (group_name i)]) (pt_counter tb + 1)%N) as (tb' & H1 & H2 & H3 & H4).
    + rewrite map_app. apply list.NoDup_app. split_and!; [done| |by repeat constructor; inversion 1].
      intros x Hx Hx'. apply list_elem_of_singleton in Hx'. subst x. cbn [new_row gp_id] in Hx.
      destruct (proj1 (ids_elem _ _) Hi _ Hx) as (j & _ & Hj & E). apply app_inv_head, to_dec_inj in E. lia.
    + intros row [Hr|Hr]%elem_of_app.
      * destruct (Hi _ Hr) as (j & ? & ? & ?). exists j. split_and!; [done|lia|done].
      * apply list_elem_of_singleton in Hr as ->. exists (pt_counter tb + 1)%N. split_and!; [lia|lia|done].
    + exists tb'. split; [done|]. split; [|by split]. exists i. rewrite H2. split; [done|].
      by apply free_index_spec in Ei.
  - destruct (Hemit (List.filter (λ row, negb (str_eqb (gp_id row) id)) (pt_rows tb)) (pt_counter tb))
      as (tb' & H1 & H2 & H3 & H4).
    + eapply sublist_NoDup; [exact Hd|]. apply map_sublist, filterb_sublist.
    + intros row [Hr _]%elem_of_filterb. by apply Hi.
    + exists tb'. by rewrite H2 in *.
Qed.

(** ** Rows that are read back *)

Lemma read_write kvs : wf_fields kvs = true → read_map (write_map kvs) = Some kvs.
Proof. intros Hw. unfold read_map, write_map. by rewrite safe_parse_indented. Qed.

Lemma wf_keys kvs : wf_fields kvs = true → object_keys kvs = map fst kvs.
Proof. intros Hw. unfold object_keys. by rewrite entries_id by (by apply wf_no_index). Qed.

(** A row that the two options can hold. *)
Definition row_ok (row : GroupPricingRow) : bool :=
  nonempty (gp_name row) && trimmed (gp_name row) && name_ok (gp_name row) && num_ok (gp_ratio row)
  && units_ok (gp_description row) && (gp_selectable row || negb (nonempty (gp_description row))).

Definition rows_ok (rows : list GroupPricingRow) : Prop :=
  forallb row_ok rows = true ∧ NoDup (map gp_name rows).

Definition ratio_field (row : GroupPricingRow) : jsstr * json := (gp_name row, JNum (gp_ratio row)).
Definition usable_field (row : GroupPricingRow) : jsstr * json := (gp_name row, JStr (gp_description row)).

Lemma row_ok_spec row :
  row_ok row = true →
  trim (gp_name row) = gp_name row ∧ nonempty (gp_name row) = true ∧ name_ok (gp_name row) = true
  ∧ num_ok (gp_ratio row) = true ∧ units_ok (gp_description row) = true
  ∧ (gp_selectable row = false → gp_description row = []) ∧ isFinite (gp_ratio row) = true.
Proof.
  unfold row_ok. rewrite !andb_true_iff. intros [[[[[H1 H2] H3] H4] H5] H6].
  split_and!; try done.
  - by apply trim_trimmed.
  - intros Hs. rewrite Hs in H6. by destruct (gp_description row).
  - by apply num_ok_spec in H4 as [? _].
Qed.

Lemma serialize_rows_from rows g u :
  forallb row_ok rows = true → NoDup (map fst g ++ map gp_name rows) → (∀ x, x ∈ map fst u → x ∈ map fst g) →
  fold_left serialize_row rows (g, u)
  = (g ++ map ratio_field rows, u ++ map usable_field (List.filter gp_selectable rows)).
Proof.
  revert g u. induction rows as [|row rows IH]; intros g u Hok Hd Hu; cbn [fold_left map List.filter forallb].
  { by rewrite !app_nil_r. }
  cbn [forallb] in Hok. apply andb_prop in Hok as [Hr Hok].
  destruct (row_ok_spec _ Hr) as (Ht & Hn & _ & _ & _ & _ & Hf).
  apply list.NoDup_app in Hd as (Hg & Hdis & Hn').
  assert (Hg0 : gp_name row ∉ map fst g) by (intros Hin; apply (Hdis _ Hin); left).
  cbn [serialize_row]. rewrite Ht, Hn. unfold normalizeRatio. cbn [json_toNumber]. rewrite Hf.
  rewrite obj_set_new by done.
  rewrite IH; [| done | |].
  - rewrite <- !app_assoc. cbn [app]. f_equal.
    destruct (gp_selectable row); [|done]. cbn [map].
    rewrite obj_set_new by (intros Hin; by apply Hg0, Hu). by rewrite <- app_assoc.
  - rewrite map_app, <- app_assoc. cbn [map fst app]. apply list.NoDup_app. split_and!; [done|exact Hdis|done].
  - intros x. rewrite map_app, elem_of_app. destruct (gp_selectable row); [|by left; apply Hu].
    rewrite obj_set_new by (intros Hin; by apply Hg0, Hu). rewrite map_app, elem_of_app.
    intros [?|?]; [left; by apply Hu|by right].
Qed.

Lemma serialize_maps_ok rows :
  rows_ok rows →
  serialize_maps rows = (map ratio_field rows, map usable_field (List.filter gp_selectable rows)).
Proof.
  intros [Hok Hd]. unfold serialize_maps. rewrite serialize_rows_from; [done|done|done|].
  by intros x ?%not_elem_of_nil.
Qed.

Lemma wf_ratio_fields rows : rows_ok rows → wf_fields (map ratio_field rows) = true.
Proof.
  intros [Hok Hd]. apply wf_fields_spec. rewrite map_map. split; [|done]. clear Hd.
  induction rows as [|row rows IH]; [done|]. cbn [map forallb] in *. apply andb_prop in Hok as [Hr Hok].
  destruct (row_ok_spec _ Hr) as (_ & _ & Hn & Hx & _). unfold name_ok in Hn. apply andb_prop in Hn as [Hu Hi].
  unfold ratio_field at 1. cbn [wf_json]. rewrite Hu, Hi, Hx. by apply IH.
Qed.

Lemma wf_usable_fields rows : rows_ok rows → wf_fields (map usable_field (List.filter gp_selectable rows)) = true.
Proof.
  intros [Hok Hd]. apply wf_fields_spec. rewrite map_map. split.
  - clear Hd. induction rows as [|row rows IH]; [done|]. cbn [List.filter forallb] in *.
    apply andb_prop in Hok as [Hr Hok]. destruct (row_ok_spec _ Hr) as (_ & _ & Hn & _ & Hx & _).
    unfold name_ok in Hn. apply andb_prop in Hn as [Hu Hi].
    destruct (gp_selectable row); [|by apply IH]. cbn [map forallb]. unfold usable_field at 1. cbn [wf_json].
    rewrite Hu, Hi, Hx. by apply IH.
  - eapply sublist_NoDup; [exact Hd|]. apply (map_sublist gp_name), filterb_sublist.
Qed.

(** Two lists of rows that differ in the identifiers only. *)
Definition same_row (a b : GroupPricingRow) : Prop :=
  gp_name a = gp_name b ∧ gp_ratio a = gp_ratio b ∧ gp_selectable a = gp_selectable b
  ∧ gp_description a = gp_description b.

Lemma obj_get_field (f : GroupPricingRow → json) rows row :
  NoDup (map gp_name rows) → row ∈ rows →
  obj_get (gp_name row) (map (λ r, (gp_name r, f r)) rows) = Some (f row).
Proof.
  induction rows as [|r rows IH]; [intros _ H; inversion H|]. cbn [map obj_get].
  intros [Hn Hd]%list.NoDup_cons [->|Hr]%elem_of_cons; [by rewrite str_eqb_refl|].
  destruct (str_eqb_spec (gp_name row) (gp_name r)) as [E|?]; [|by apply IH].
  destruct Hn. rewrite <- E. apply elem_of_mapb. by exists row.
Qed.

Lemma obj_get_absent (f : GroupPricingRow → json) rows name :
  name ∉ map gp_name rows → obj_get name (map (λ r, (gp_name r, f r)) rows) = None.
Proof.
  intros Hn. destruct (obj_get name _) eqn:E; [|done]. destruct Hn.
  assert (H : is_Some (obj_get name (map (λ r, (gp_name r, f r)) rows))) by (by rewrite E).
  apply obj_get_keys in H. by rewrite map_map in H.
Qed.

Lemma built_row rows id row :
  rows_ok rows → row ∈ rows →
  same_row (pricing_row (map ratio_field rows) (map usable_field (List.filter gp_selectable rows)) id (gp_name row)) row.
Proof.
  intros [Hok Hd] Hr. rewrite forallb_forall in Hok. pose proof (Hok row (proj1 (list_elem_of_In _ _) Hr)) as Hrow.
  destruct (row_ok_spec _ Hrow) as (_ & _ & _ & _ & _ & Hu & Hf).
  unfold same_row, pricing_row, obj_has. cbn [gp_name gp_ratio gp_selectable gp_description].
  unfold ratio_field, usable_field. rewrite (obj_get_field (λ r, JNum (gp_ratio r))) by done.
  unfold normalizeRatio. cbn [json_toNumber]. rewrite Hf.
  assert (Hd' : NoDup (map gp_name (List.filter gp_selectable rows)))
    by (eapply sublist_NoDup; [exact Hd|]; apply map_sublist, filterb_sublist).
  destruct (gp_selectable row) eqn:Es.
  - rewrite (obj_get_field (λ r, JStr (gp_description r))); [done|done|]. apply elem_of_filterb. done.
  - rewrite (obj_get_absent (λ r, JStr (gp_description r))); [by rewrite Hu|].
    intros (r & E & [Hr' Hs]%elem_of_filterb)%elem_of_mapb.
    assert (r = row); [|congruence].
    apply list_elem_of_lookup in Hr as [i Hi]. apply list_elem_of_lookup in Hr' as [j Hj].
    assert (i = j) as ->; [|congruence].
    eapply (NoDup_lookup (map gp_name rows)); [done|..]; rewrite list_lookup_fmap;
      [rewrite Hi; reflexivity|rewrite Hj; cbn; congruence].
Qed.

Lemma built_rows rows sub n :
  rows_ok rows → (∀ r, r ∈ sub → r ∈ rows) →
  Forall2 same_row
    (pricing_rows (map ratio_field rows) (map usable_field (List.filter gp_selectable rows)) (map gp_name sub) n).1 sub.
Proof.
  intros Hok. revert n. induction sub as [|row sub IH]; intros n Hs; cbn [map pricing_rows]; [constructor|].
  cbn [createGroupPricingId]. specialize (IH (n + 1)%N (λ r H, Hs r (list_elem_of_further _ _ _ H))).
  destruct (pricing_rows _ _ _ (n + 1)%N) as [rs n']. cbn [fst] in *. constructor; [|done].
  apply built_row; [done|]. apply Hs. left.
Qed.

Lemma same_serialize rows rows' m :
  Forall2 same_row rows rows' → fold_left serialize_row rows m = fold_left serialize_row rows' m.
Proof.
  intros H. revert m. induction H as [|a b rows rows' (H1 & H2 & H3 & H4) _ IH]; intros m; [done|].
  cbn [fold_left]. rewrite IH. f_equal. unfold serialize_row. by rewrite H1, H2, H3, H4.
Qed.

Lemma str_dedup_covered a b : NoDup a → (∀ x, x ∈ b → x ∈ a) → str_dedup (a ++ b) = a.
Proof.
  intros Hd Hb. unfold str_dedup, dedup.
  assert (H : ∀ seen, NoDup a → (∀ x, x ∈ b → x ∈ seen ∨ x ∈ a) → (∀ x, x ∈ a → x ∉ seen) →
    dedup_from str_eqb seen (a ++ b) = a).
  { clear Hd Hb. induction a as [|y a IH]; intros seen Hd Hb Hs; cbn [app dedup_from].
    - induction b as [|z b IHb]; cbn [dedup_from]; [done|].
      assert (Hz : z ∈ seen) by (destruct (Hb z) as [?|?%not_elem_of_nil]; [left|done|done]).
      change (mem str_eqb z seen) with (str_mem z seen). rewrite (proj2 (str_mem_true _ _) Hz).
      apply IHb. intros x Hx. apply Hb. by right.
    - apply list.NoDup_cons in Hd as [Hy Hd]. change (mem str_eqb y seen) with (str_mem y seen).
      rewrite (proj2 (str_mem_false y seen)) by (apply Hs; left). f_equal. apply IH; [done| |].
      + intros x Hx. destruct (Hb _ Hx) as [?|[->|?]%elem_of_cons]; [left; by right|left; left|by right].
      + intros x Hx. rewrite not_elem_of_cons. split; [by intros ->|]. apply Hs. by right. }
  apply H; [done|auto|]. intros x _ ?%not_elem_of_nil. done.
Qed.

(** ** The properties *)

(** C25: the table shows what is edited.  From any options the table can read, after
    any edits, the next edit of a row, removal or new row is always carried out and
    changes exactly that row: the rows shown are the ones edited, even with blank or
    repeated names, the identifiers of the rows stay distinct, and the two options hold
    what the rows say.  The name given to a new row is the first [group_<n>] that no
    row has. *)
Theorem edits_shown g u n tb0 evs tb ev :
  open_table g u n = Some tb0 → table_events tb0 evs = Some tb →
  ∃ tb', table_event tb ev = Some tb' ∧ rows_after tb ev (pt_rows tb')
  ∧ serializeGroupPricingRows (pt_rows tb') = (pt_groupRatio tb', pt_userUsableGroups tb')
  ∧ NoDup (map gp_id (pt_rows tb')).
Proof.
  intros Ho He.
  assert (Hok : table_ok tb).
  { apply open_ok in Ho. revert tb0 Ho He. induction evs as [|e evs IH]; intros tb0 Ho; cbn [table_events].
    - by intros [= <-].
    - destruct (event_ok tb0 e Ho) as (tb1 & -> & _ & _ & H1). cbn [mbind option_bind]. by apply IH. }
  destruct (event_ok tb ev Hok) as (tb' & H1 & H2 & H3 & [H4 _]). by exists tb'.
Qed.

(** Saved groups reopen.  Rows with distinct names that are trimmed and not
    blank, finite ratios, and no description that is not shown, are read back from the
    two options as the same rows in the same order. *)
Theorem saved_groups_reopen rows n :
  rows_ok rows →
  ∃ tb, open_table (serializeGroupPricingRows rows).1 (serializeGroupPricingRows rows).2 n = Some tb
  ∧ Forall2 same_row (pt_rows tb) rows
  ∧ serializeGroupPricingRows (pt_rows tb) = serializeGroupPricingRows rows.
Proof.
  intros Hok. unfold serializeGroupPricingRows at 1 2. rewrite serialize_maps_ok by done. cbn [fst snd].
  set (g := map ratio_field rows). set (us := map usable_field (List.filter gp_selectable rows)).
  assert (Hb : buildGroupPricingRows (write_map g) (write_map us) n = Some (pricing_rows g us (map gp_name rows) n)).
  { unfold buildGroupPricingRows. rewrite !read_write by (apply wf_ratio_fields, Hok || apply wf_usable_fields, Hok).
    cbn [mbind option_bind]. rewrite !wf_keys by (apply wf_ratio_fields, Hok || apply wf_usable_fields, Hok).
    rewrite str_dedup_covered; unfold g, us; rewrite !map_map; [done|apply Hok|].
    intros x (r & -> & [Hr _]%elem_of_filterb)%elem_of_mapb. apply elem_of_mapb. by exists r. }
  unfold open_table. rewrite Hb. cbn [mbind option_bind].
  pose proof (built_rows rows rows n Hok ltac:(done)) as Hsame. fold g us in Hsame.
  destruct (pricing_rows g us (map gp_name rows) n) as [rows' n']. cbn [fst] in Hsame.
  assert (Hser : serializeGroupPricingRows rows' = serializeGroupPricingRows rows)
    by (unfold serializeGroupPricingRows, serialize_maps; by rewrite (same_serialize _ _ _ Hsame)).
  unfold table_effect. cbn [pt_rows pt_groupRatio pt_userUsableGroups].
  assert (Hsig : groupPricingSignature rows' = sourceGroupPricingSignature (write_map g) (write_map us)).
  { unfold groupPricingSignature. rewrite Hser. unfold serializeGroupPricingRows.
    rewrite serialize_maps_ok by done. done. }
  rewrite Hsig, str_eqb_refl. eexists. split; [reflexivity|]. by split.
Qed.

Definition sample_rows : list GroupPricingRow :=
  [{| gp_id := "gpr_9"; gp_name := "default"; gp_ratio := num_of_Z 1; gp_selectable := true;
      gp_description := "All users" |};
   {| gp_id := "gpr_10"; gp_name := "vip"; gp_ratio := num_of_decimal false 5 (-1); gp_selectable := false;
      gp_description := [] |}].

Lemma sample_rows_ok : rows_ok sample_rows.
Proof. split; [vm_compute; reflexivity|apply (bool_decide_unpack _); reflexivity]. Qed.

Lemma saved_groups_reopen_witness :
  ∃ tb, open_table (serializeGroupPricingRows sample_rows).1 (serializeGroupPricingRows sample_rows).2 0 = Some tb
  ∧ Forall2 same_row (pt_rows tb) sample_rows.
Proof.
  destruct (saved_groups_reopen sample_rows 0 sample_rows_ok) as (tb & H1 & H2 & _).
  exact (ex_intro _ tb (conj H1 H2)).
Defined.

Lemma edits_shown_witness :
  ∃ tb0 tb', open_table "{\qvip\q: 2}" [] 0 = Some tb0 ∧ table_event tb0 TAdd = Some tb'
  ∧ serializeGroupPricingRows (pt_rows tb') = (pt_groupRatio tb', pt_userUsableGroups tb').
Proof.
  assert (H : ∃ tb0, open_table "{\qvip\q: 2}" [] 0 = Some tb0) by (eexists; vm_compute; reflexivity).
  destruct H as [tb0 H].
  destruct (edits_shown "{\qvip\q: 2}" [] 0 tb0 [] tb0 TAdd H eq_refl) as (tb' & H1 & _ & H2 & _).
  exact (ex_intro _ tb0 (ex_intro _ tb' (conj H (conj H1 H2)))).
Defined.

(** The search for a name ends.  However many names are tried beyond one more than
    there are rows, the loop finds the same one: the first [group_<n>] that no row
    has, and [n] is at most one more than the number of rows. *)
Theorem new_name_found rows fuel :
  add_fuel rows ≤ fuel →
  ∃ i, free_index fuel (map gp_name rows) 1 = Some i ∧ (group_name i ∉ map gp_name rows)
  ∧ (∀ j, 1 ≤ j → j < i → group_name j ∈ map gp_name rows) ∧ i ≤ S (length rows).
Proof.
  intros Hf. destruct (free_index_total (map gp_name rows) 1) as [i Ei].
  assert (Hmono : ∀ f f' names k, f ≤ f' → ∀ r, free_index f names k = Some r → free_index f' names k = Some r).
  { induction f as [|f IH]; intros [|f'] names k Hle r; cbn [free_index]; try done; [lia|].
    destruct (str_mem _ _); [apply IH; lia|done]. }
  rewrite length_map in Ei. exists i. split; [by apply (Hmono (S (length rows)))|].
  assert (Hlt : ∀ f names k r, free_index f names k = Some r → r < k + f).
  { induction f as [|f IH]; intros names k r; cbn [free_index]; [done|].
    destruct (str_mem _ _); [intros ?%IH; lia|intros [= <-]; lia]. }
  pose proof (Hlt _ _ _ _ Ei). apply free_index_spec in Ei as (_ & H1 & H2). split_and!; [done|done|lia].
Qed.

Lemma new_name_found_witness :
  ∃ i, free_index 9 (map gp_name sample_rows) 1 = Some i ∧ i ≤ 3.
Proof.
  destruct (new_name_found sample_rows 9) as (i & H1 & _ & _ & H2).
  - unfold add_fuel, sample_rows. cbn [length]. lia.
  - exists i. split; [exact H1|exact H2].
Defined.

(** ** The list of the automatic assignment *)

Lemma array_trimmed l : trim (JSON_stringify_2 (JArr l)) = JSON_stringify_2 (JArr l).
Proof.
  apply trim_trimmed. destruct l as [|j l]; [reflexivity|]. unfold JSON_stringify_2. cbn [stringify_indent].
  match goal with |- trimmed ("[" ++ ?a ++ ?b ++ ?c ++ "]") = true =>
    change ("[" ++ a ++ b ++ c ++ "]") with (91%N :: (a ++ b ++ c ++ [93%N])) end.
  rewrite !app_assoc. by apply (trimmed_ends 91%N _ 93%N).
Qed.

Lemma texts_of_map l : texts_of (map JStr l) = Some l.
Proof. induction l as [|s l IH]; cbn [map texts_of]; [done|]. by rewrite IH. Qed.

Lemma read_list_back l form :
  forallb units_ok l = true → autoGroupsList (set_auto (write_list l) form) = Some l.
Proof.
  intros Hu. unfold autoGroupsList, safeJsonParse. cbn [gf_autoGroups set_auto]. unfold write_list.
  rewrite array_trimmed, JSON_parse_stringify_2.
  - assert (E : nonempty (JSON_stringify_2 (JArr (map JStr l))) = true) by (by destruct l). rewrite E.
    apply texts_of_map.
  - cbn [wf_json]. rewrite forallb_forall in Hu |- *. intros j (s & <- & Hs)%in_map_iff. cbn. by apply Hu.
Qed.

Lemma moved_spec index d l l' :
  moved index d l = Some l' → Permutation l' l ∧ ∃ i, neighbour index d = Some i
  ∧ l' !! index = l !! i ∧ l' !! i = l !! index ∧ ∀ j, j ≠ index → j ≠ i → l' !! j = l !! j.
Proof.
  unfold moved. destruct (neighbour index d) as [i|] eqn:En; [|done]. cbn [mbind option_bind].
  destruct (l !! index) as [a|] eqn:Ea; [|done]. cbn [mbind option_bind].
  destruct (l !! i) as [b|] eqn:Eb; [|done]. cbn [mbind option_bind]. intros [= <-].
  assert (Hne : index ≠ i) by (destruct d, index; cbn in En; congruence || (injection En as <-; lia)).
  pose proof (lookup_lt_Some _ _ _ Ea). pose proof (lookup_lt_Some _ _ _ Eb). split.
  - by apply Permutation_insert_swap.
  - exists i. split; [done|]. split_and!.
    + rewrite list_lookup_insert_ne by done. by rewrite list_lookup_insert_eq.
    + by rewrite list_lookup_insert_eq by (by rewrite length_insert).
    + intros j H1 H2. by rewrite !list_lookup_insert_ne by done.
Qed.

Lemma units_permutation l l' : Permutation l' l → forallb units_ok l = true → forallb units_ok l' = true.
Proof.
  rewrite !forallb_forall. intros Hp H s Hs. apply H. by apply (Permutation_in _ Hp).
Qed.

(** Moving a group changes places with its neighbour.  The list read back after a
    move has the two groups swapped and every other at its place, the buttons at the
    ends change nothing, and moving back restores the list. *)
Theorem auto_group_moves form l index d :
  autoGroupsList form = Some l → forallb units_ok l = true →
  ∃ form', handleAutoGroupMove index d form = Some form'
  ∧ (moved index d l = None → form' = form)
  ∧ (∀ l', moved index d l = Some l' →
       autoGroupsList form' = Some l' ∧ Permutation l' l
       ∧ ∃ i, neighbour index d = Some i ∧ l' !! index = l !! i ∧ l' !! i = l !! index
         ∧ (∀ j, j ≠ index → j ≠ i → l' !! j = l !! j)
         ∧ moved i (match d with Up => Down | Down => Up end) l' = Some l).
Proof.
  intros Hl Hu. unfold handleAutoGroupMove. rewrite Hl. cbn [mbind option_bind].
  destruct (moved index d l) as [l1|] eqn:Em; (eexists; split; [reflexivity|]; split; [done|]); [|done].
  intros l' [= <-]. destruct (moved_spec _ _ _ _ Em) as (Hp & i & Hn & H1 & H2 & H3).
  split; [by apply read_list_back, (units_permutation l)|]. split; [done|]. exists i. split_and!; try done.
  unfold moved in *. rewrite Hn in Em. cbn [mbind option_bind] in Em.
  destruct (l !! index) as [a|] eqn:Ea; [|done]. destruct (l !! i) as [b|] eqn:Eb; [|done].
  assert (Hback : neighbour i (match d with Up => Down | Down => Up end) = Some index)
    by (destruct d, index as [|index]; cbn in Hn |- *; try done; injection Hn as <-; done).
  rewrite Hback. cbn [mbind option_bind]. rewrite H2. cbn [mbind option_bind]. rewrite H1.
  cbn [mbind option_bind]. f_equal. apply list_eq. intros j.
  assert (Hlen : length l1 = length l) by (by rewrite Hp).
  pose proof (lookup_lt_Some _ _ _ Ea). pose proof (lookup_lt_Some _ _ _ Eb).
  destruct (decide (j = index)) as [->|Hj].
  - rewrite list_lookup_insert_eq by (rewrite length_insert; lia). done.
  - rewrite list_lookup_insert_ne by done. destruct (decide (j = i)) as [->|Hj'].
    + rewrite list_lookup_insert_eq by lia. done.
    + rewrite list_lookup_insert_ne by done. by apply H3.
Qed.

Definition sample_form : GroupForm :=
  {| gf_groupRatio := "{}"; gf_topupGroupRatio := "{\qvip\q: 1.2}";
     gf_groupGroupRatio := "{\qvip\q: {\qdefault\q: 0.9}}"; gf_autoGroups := "[\qdefault\q, \qvip\q]" |}.

Lemma auto_group_moves_witness :
  ∃ form', handleAutoGroupMove 1 Up sample_form = Some form' ∧ autoGroupsList form' = Some ["vip"; "default"].
Proof.
  destruct (auto_group_moves sample_form ["default"; "vip"] 1 Up) as (form' & H1 & _ & H2).
  - vm_compute. reflexivity.
  - reflexivity.
  - exists form'. split; [exact H1|]. exact (proj1 (H2 ["vip"; "default"] eq_refl)).
Defined.

(** ** Ratios between groups *)

(** The ratio of a user group for a group of tokens. *)
Definition override_at (kvs : fields) (userGroup targetGroup : jsstr) : option json :=
  match obj_get userGroup kvs with Some (JObj inner) => obj_get targetGroup inner | _ => None end.

Lemma overrides_at g kvs inner t : overrides_of g kvs = Some inner → override_at kvs g t = obj_get t inner.
Proof.
  unfold overrides_of, override_at. destruct (obj_get g kvs) as [[]|]; try destruct (json_truthy _); try done;
    by intros [= <-].
Qed.

Lemma wf_get k v kvs : wf_fields kvs = true → obj_get k kvs = Some v → wf_json v = true.
Proof.
  intros [H _]%wf_fields_spec Hg. rewrite obj_get_rec in Hg. apply rec_get_elem, list_elem_of_In in Hg.
  rewrite forallb_forall in H. specialize (H _ Hg). cbn in H. by apply andb_prop in H as [_ H].
Qed.

Lemma wf_overrides g kvs inner : wf_fields kvs = true → overrides_of g kvs = Some inner → wf_fields inner = true.
Proof.
  intros Hw. unfold overrides_of. destruct (obj_get g kvs) as [j|] eqn:E; [|by intros [= <-]].
  apply wf_get in E; [|done]. destruct j; try destruct (json_truthy _); try done; by intros [= <-].
Qed.

(** The option after an override was saved or deleted. *)
Lemma stored_map kvs form :
  wf_fields kvs = true → read_map (gf_groupGroupRatio (set_groupGroup (write_map kvs) form)) = Some kvs.
Proof. intros Hw. cbn. by apply read_write. Qed.

Definition other_options_kept (form form' : GroupForm) : Prop :=
  gf_groupRatio form' = gf_groupRatio form ∧ gf_topupGroupRatio form' = gf_topupGroupRatio form
  ∧ gf_autoGroups form' = gf_autoGroups form.

(** An override that is saved is stored as such.  The option read back has the
    given ratio for the two groups, lacks the group the override had before if it was
    renamed, and is otherwise unchanged, as are the other options. *)
Theorem override_save_exact form kvs inner g target ratio old :
  read_map (gf_groupGroupRatio form) = Some kvs → wf_fields kvs = true → overrides_of g kvs = Some inner →
  nonempty g = true → name_ok g = true → name_ok target = true → num_ok ratio = true →
  ∃ form' kvs', handleOverrideSave (Some g) target ratio old form = Some form'
  ∧ read_map (gf_groupGroupRatio form') = Some kvs' ∧ other_options_kept form form'
  ∧ ∀ g' t, override_at kvs' g' t
      = if str_eqb g' g then
          if str_eqb t target then Some (JNum ratio)
          else match old with
               | Some o => if nonempty o && str_eqb t o then None else override_at kvs g' t
               | None => override_at kvs g' t
               end
        else override_at kvs g' t.
Proof.
  intros Hr Hw Ho Hg Hng Hnt Hx. unfold handleOverrideSave. rewrite Hg, Hr. cbn [mbind option_bind].
  unfold override_saved. rewrite Ho. cbn [mbind option_bind].
  set (inner1 := match old with Some o => _ | None => inner end).
  assert (Hw1 : wf_fields inner1 = true).
  { pose proof (wf_overrides _ _ _ Hw Ho) as Hi. unfold inner1. destruct old as [o|]; [|done].
    destruct (_ && _); [by apply wf_fields_delete|done]. }
  unfold name_ok in *. apply andb_prop in Hng as [Hg1 Hg2], Hnt as [Ht1 Ht2].
  eexists _, _. split; [reflexivity|]. split.
  { apply stored_map. apply wf_fields_set; [done|done| |done]. by apply wf_fields_set. }
  split; [done|]. intros g' t. unfold override_at at 1. rewrite obj_get_set.
  destruct (str_eqb_spec g' g) as [->|?]; [|done]. rewrite obj_get_set.
  destruct (str_eqb_spec t target) as [->|Hnt]; [done|]. rewrite (overrides_at g kvs inner) by done.
  unfold inner1. destruct old as [o|]; [|done]. destruct (nonempty o); cbn [andb]; [|done].
  destruct (str_eqb_spec o target) as [->|?]; cbn [negb].
  - by rewrite (proj2 (str_eqb_neq _ _) Hnt).
  - by rewrite obj_get_delete.
Qed.

Lemma override_save_exact_witness :
  ∃ form' kvs', handleOverrideSave (Some ("vip" : jsstr)) "pro" (num_of_Z 2) None sample_form = Some form'
  ∧ read_map (gf_groupGroupRatio form') = Some kvs'
  ∧ override_at kvs' "vip" "pro" = Some (JNum (num_of_Z 2))
  ∧ override_at kvs' "vip" "default" = Some (JNum (num_of_decimal false 9 (-1))).
Proof.
  destruct (override_save_exact sample_form [("vip", JObj [("default", JNum (num_of_decimal false 9 (-1)))])]
    [("default", JNum (num_of_decimal false 9 (-1)))] "vip" "pro" (num_of_Z 2) None)
    as (form' & kvs' & H1 & H2 & _ & H3).
  1, 2: vm_compute; reflexivity.
  1, 2, 3, 4: reflexivity.
  - vm_compute. reflexivity.
  - exists form', kvs'. split; [exact H1|]. split; [exact H2|]. split; [exact (H3 _ _)|exact (H3 "vip" "default")].
Defined.

(** Deleting an override removes it and nothing else.  A user group without
    overrides is removed with its last one, and every other group stays listed. *)
Theorem override_delete_exact form kvs inner g target :
  read_map (gf_groupGroupRatio form) = Some kvs → wf_fields kvs = true → obj_get g kvs = Some (JObj inner) →
  name_ok g = true →
  ∃ form' kvs', handleOverrideDelete g target form = Some form'
  ∧ read_map (gf_groupGroupRatio form') = Some kvs' ∧ other_options_kept form form'
  ∧ (∀ g' t, override_at kvs' g' t = if str_eqb g' g && str_eqb t target then None else override_at kvs g' t)
  ∧ (∀ g', obj_has g' kvs' = if str_eqb g' g then nonempty (obj_delete target inner) else obj_has g' kvs).
Proof.
  intros Hr Hw Hg Hn. unfold handleOverrideDelete. rewrite Hr. cbn [mbind option_bind].
  unfold override_deleted. rewrite Hg. cbn [mbind option_bind].
  unfold name_ok in Hn. apply andb_prop in Hn as [Hu Hi].
  pose proof (wf_get _ _ _ Hw Hg) as Hwi. fold (wf_fields inner) in Hwi.
  eexists _, _. split; [reflexivity|]. split.
  { apply stored_map. destruct (nonempty _); [|by apply wf_fields_delete].
    apply wf_fields_set; [done|done| |done]. by apply wf_fields_delete. }
  split; [done|]. pose proof (obj_get_delete) as Hdel. split.
  - intros g' t. unfold override_at.
    destruct (nonempty (obj_delete target inner)) eqn:E; rewrite ?obj_get_set, ?obj_get_delete;
      destruct (str_eqb_spec g' g) as [->|?]; cbn [andb]; try done; rewrite Hg.
    + by rewrite obj_get_delete.
    + specialize (Hdel t target inner). destruct (obj_delete target inner); [|done]. cbn in Hdel.
      by destruct (str_eqb t target).
  - intros g'. unfold obj_has.
    destruct (nonempty (obj_delete target inner)); rewrite ?obj_get_set, ?obj_get_delete;
      by destruct (str_eqb g' g).
Qed.

Lemma override_delete_exact_witness :
  ∃ form' kvs', handleOverrideDelete "vip" "default" sample_form = Some form'
  ∧ read_map (gf_groupGroupRatio form') = Some kvs' ∧ obj_has "vip" kvs' = false.
Proof.
  destruct (override_delete_exact sample_form [("vip", JObj [("default", JNum (num_of_decimal false 9 (-1)))])]
    [("default", JNum (num_of_decimal false 9 (-1)))] "vip" "default") as (form' & kvs' & H1 & H2 & _ & _ & H3).
  1, 2: vm_compute; reflexivity.
  1, 2: reflexivity.
  exists form', kvs'. split; [exact H1|]. split; [exact H2|exact (H3 "vip")].
Defined.

(** ** What the two options hold *)

Definition rows_named (name : jsstr) (rows : list GroupPricingRow) : list GroupPricingRow :=
  List.filter (λ row, str_eqb (trim (gp_name row)) name) rows.

Lemma serialize_from name rows g u :
  nonempty name = true →
  obj_get name (fold_left serialize_row rows (g, u)).1
  = match list.last (rows_named name rows) with
    | Some row => Some (JNum (normalizeRatio (Some (JNum (gp_ratio row)))))
    | None => obj_get name g
    end
  ∧ obj_get name (fold_left serialize_row rows (g, u)).2
  = match list.last (List.filter gp_selectable (rows_named name rows)) with
    | Some row => Some (JStr (gp_description row))
    | None => obj_get name u
    end.
Proof.
  intros Hn. revert g u. induction rows as [|row rows IH] using rev_ind; intros g u; [done|].
  rewrite fold_left_app. cbn [fold_left].
  destruct (fold_left serialize_row rows (g, u)) as [g1 u1] eqn:E.
  specialize (IH g u). rewrite E in IH. cbn [fst snd] in IH. destruct IH as [IH1 IH2].
  unfold rows_named in *. rewrite !filter_app. cbn [List.filter serialize_row].
  destruct (str_eqb_spec (trim (gp_name row)) name) as [->|Hne].
  - rewrite Hn. cbn [fst snd]. rewrite last_snoc, obj_get_set, str_eqb_refl. split; [done|].
    cbn [List.filter]. destruct (gp_selectable row).
    + by rewrite last_snoc, obj_get_set, str_eqb_refl.
    + by rewrite app_nil_r.
  - rewrite !app_nil_r. destruct (nonempty (trim (gp_name row))); [|done]. cbn [fst snd].
    rewrite obj_get_set, (proj2 (str_eqb_neq name _)) by congruence. split; [done|].
    destruct (gp_selectable row); [|done]. by rewrite obj_get_set, (proj2 (str_eqb_neq name _)) by congruence.
Qed.

(** Of rows with the same name the last one counts.  For every name that is not
    blank, the ratio stored is that of the last row with this name, the group is
    usable if any of them is selectable, and it has the description of the last such
    row. *)
Theorem last_row_counts name rows :
  nonempty name = true →
  obj_get name (serialize_maps rows).1
    = (λ row, JNum (normalizeRatio (Some (JNum (gp_ratio row))))) <$> list.last (rows_named name rows)
  ∧ obj_get name (serialize_maps rows).2
    = (λ row, JStr (gp_description row)) <$> list.last (List.filter gp_selectable (rows_named name rows)).
Proof.
  intros Hn. destruct (serialize_from name rows [] [] Hn) as [H1 H2]. unfold serialize_maps. rewrite H1, H2.
  split; by destruct (list.last _).
Qed.

Lemma last_row_counts_witness :
  obj_get "vip" (serialize_maps (sample_rows ++ [new_row "gpr_11" " vip "])).1 = Some (JNum (num_of_Z 1)).
Proof.
  destruct (last_row_counts "vip" (sample_rows ++ [new_row "gpr_11" " vip "]) eq_refl) as [H _].
  rewrite H. reflexivity.
Defined.

(** A ratio field that is emptied, or holds no number, makes the group free: the input
    then gives the empty text, whose number is 0. *)
Lemma cleared_ratio_free row : gp_ratio (row_edit (SetRatio []) row) = zero.
Proof. reflexivity. Qed.

(** A ratio too large for a number is lost.  The dialog accepts a text whose
    number is infinite; it is stored as [null], and shown as such. *)
Theorem infinite_ratio_lost form kvs name value :
  read_map (gf_topupGroupRatio form) = Some kvs → wf_fields kvs = true → name_ok name = true →
  isFinite (parseFloat value) = false →
  ∃ form' kvs', handleSimpleSave STopupGroupRatio None name value form = Some form'
  ∧ read_map (gf_topupGroupRatio form') = Some kvs' ∧ obj_get name kvs' = Some JNull.
Proof.
  intros Hr Hw Hn Hf. unfold handleSimpleSave. cbn [simple_text]. rewrite Hr. cbn [mbind option_bind].
  unfold simple_saved. exists (set_simple STopupGroupRatio (write_map (obj_set name JNull kvs)) form), (obj_set name JNull kvs).
  split; [|split].
  - assert (Ht : write_map (obj_set name (JNum (parseFloat value)) kvs) = write_map (obj_set name JNull kvs)); [|by rewrite Ht].
    unfold write_map, JSON_stringify_2.
    assert (E : ∀ ind, stringify_indent ind (JNum (parseFloat value)) = stringify_indent ind JNull)
      by (intros; cbn [stringify_indent JSON_stringify]; by rewrite Hf).
    assert (Hm : ∀ ind, map (λ '(k, v), (k, stringify_indent ind v)) (obj_set name (JNum (parseFloat value)) kvs)
      = map (λ '(k, v), (k, stringify_indent ind v)) (obj_set name JNull kvs)).
    { intros ind. clear -E. induction kvs as [|[k v] kvs IH]; cbn [obj_set map]; [by rewrite E|].
      destruct (str_eqb name k); cbn [map]; [by rewrite E|]. by rewrite IH. }
    assert (Hne : ∀ j, ∃ kv r, obj_set name j kvs = kv :: r).
    { intros j. destruct kvs as [|[k v] r]; cbn [obj_set]; [by eexists _, _|]. destruct (str_eqb name k); by eexists _, _. }
    specialize (Hm ([] ++ "  ")). destruct (Hne (JNum (parseFloat value))) as (kv1 & r1 & E1), (Hne JNull) as (kv2 & r2 & E2).
    rewrite E1, E2 in *. cbn [stringify_indent]. by rewrite Hm.
  - cbn. apply read_write. unfold name_ok in Hn. apply andb_prop in Hn as [Hu Hi]. by apply wf_fields_set.
  - by rewrite obj_get_set, str_eqb_refl.
Qed.

Lemma infinite_ratio_lost_witness :
  ∃ form' kvs', handleSimpleSave STopupGroupRatio None "vip" "1e999" sample_form = Some form'
  ∧ read_map (gf_topupGroupRatio form') = Some kvs' ∧ obj_get "vip" kvs' = Some JNull.
Proof.
  apply (infinite_ratio_lost sample_form [("vip", JNum (num_of_decimal false 12 (-1)))]).
  - vm_compute. reflexivity.
  - vm_compute. reflexivity.
  - reflexivity.
  - vm_compute. reflexivity.
Defined.
