(* ===== verification/GroupDialogs.v ===== *)
(** * The dialogs of the group editor

    The state of [GroupRatioVisualEditor] in
    [features/system-settings/models/group-ratio-visual-editor.tsx]: its dialogs, which
    are modal, so that at most one is open, and all its handlers, over the options of
    [GroupRatios]; with the proof that no operation is stuck. *)
From Stdlib Require Import NArith ZArith.
From stdpp Require Import list.
From S2P Require Import Prelude JsString JsNumber Json JsArray JsonRoundtrip JsonIndent JsRecord Pricing PricingSettings PricingSettingsTheorems ChannelForm GroupRatios GroupRatioTheorems.

(** The dialog that is open, with what it edits and its inputs. *)
Inductive GroupDialog : Type :=
| NoDialog
| SimpleGroupDialog (type : SimpleType) (editData : option jsstr) (name value : jsstr)
| AutoGroupDialog (autoGroupInput : jsstr)
| UserGroupDialog (userGroupInput : jsstr)
| GroupOverrideDialog (userGroup : jsstr) (editData : option jsstr) (targetGroup ratio : jsstr).

Record GroupEditor : Type := { ge_form : GroupForm; ge_dialog : GroupDialog }.

Inductive EditorEvent : Type :=
| ESimpleAdd
| ESimpleEdit (name value : jsstr)
| ESimpleDelete (name : jsstr)
| EAutoGroupAdd
| EAutoGroupDelete (index : nat)
| EAutoGroupMove (index : nat) (direction : Direction)
| EUserGroupAdd
| EUserGroupDelete (userGroup : jsstr)
| EOverrideAdd (userGroup : jsstr)
| EOverrideEdit (userGroup targetGroup : jsstr) (ratio : json)
| EOverrideDelete (userGroup targetGroup : jsstr)
| EName (text : jsstr)
| ERatio (text : jsstr)
| ESave
| ECancel.

(** The first input of a dialog, which is disabled while an entry is edited. *)
Definition name_typed (text : jsstr) (d : GroupDialog) : GroupDialog :=
  match d with
  | NoDialog => NoDialog
  | SimpleGroupDialog ty None _ value => SimpleGroupDialog ty None text value
  | SimpleGroupDialog ty (Some old) name value => SimpleGroupDialog ty (Some old) name value
  | AutoGroupDialog _ => AutoGroupDialog text
  | UserGroupDialog _ => UserGroupDialog text
  | GroupOverrideDialog g None _ ratio => GroupOverrideDialog g None text ratio
  | GroupOverrideDialog g (Some old) target ratio => GroupOverrideDialog g (Some old) target ratio
  end.

Definition ratio_typed (text : jsstr) (d : GroupDialog) : GroupDialog :=
  match d with
  | SimpleGroupDialog ty edited name value => SimpleGroupDialog ty edited name (ratio_input text value)
  | GroupOverrideDialog g edited target ratio => GroupOverrideDialog g edited target (ratio_input text ratio)
  | _ => d
  end.

(** The button of a dialog: the form that is saved, [None] when the dialog stays open. *)
Definition dialog_save (d : GroupDialog) (form : GroupForm) : option (option GroupForm) :=
  match d with
  | NoDialog => Some None
  | SimpleGroupDialog ty edited name value =>
      match simple_handleSave name value with
      | Some (name, value) => form' ← handleSimpleSave ty edited name value form; Some (Some form')
      | None => Some None
      end
  | AutoGroupDialog input =>
      if nonempty (trim input) then form' ← handleAutoGroupSave input form; Some (Some form') else Some None
  | UserGroupDialog input =>
      if nonempty (trim input) then form' ← handleUserGroupSave input form; Some (Some form') else Some None
  | GroupOverrideDialog g edited target ratio =>
      match override_handleSave target ratio with
      | Some (target, ratio) => form' ← handleOverrideSave (Some g) target ratio edited form; Some (Some form')
      | None => Some None
      end
  end.

Definition open_dialog (d : GroupDialog) (ed : GroupEditor) : GroupEditor := {| ge_form := ge_form ed; ge_dialog := d |}.

Definition with_form (ed : GroupEditor) (form : option GroupForm) : option GroupEditor :=
  form' ← form; Some {| ge_form := form'; ge_dialog := ge_dialog ed |}.

(** The table of top-up ratios is the only caller of the simple handlers. *)
Definition editor_event (ed : GroupEditor) (ev : EditorEvent) : option GroupEditor :=
  match ev with
  | ESimpleAdd => Some (open_dialog (SimpleGroupDialog STopupGroupRatio None [] []) ed)
  | ESimpleEdit name value => Some (open_dialog (SimpleGroupDialog STopupGroupRatio (Some name) name value) ed)
  | ESimpleDelete name => with_form ed (handleSimpleDelete STopupGroupRatio name (ge_form ed))
  | EAutoGroupAdd => Some (open_dialog (AutoGroupDialog []) ed)
  | EAutoGroupDelete index => with_form ed (handleAutoGroupDelete index (ge_form ed))
  | EAutoGroupMove index d => with_form ed (handleAutoGroupMove index d (ge_form ed))
  | EUserGroupAdd => Some (open_dialog (UserGroupDialog []) ed)
  | EUserGroupDelete g => with_form ed (handleUserGroupDelete g (ge_form ed))
  | EOverrideAdd g => Some (open_dialog (GroupOverrideDialog g None [] []) ed)
  | EOverrideEdit g target ratio =>
      Some (open_dialog (GroupOverrideDialog g (Some target) target (json_toString ratio)) ed)
  | EOverrideDelete g target => with_form ed (handleOverrideDelete g target (ge_form ed))
  | EName text => Some (open_dialog (name_typed text (ge_dialog ed)) ed)
  | ERatio text => Some (open_dialog (ratio_typed text (ge_dialog ed)) ed)
  | ESave =>
      saved ← dialog_save (ge_dialog ed) (ge_form ed);
      match saved with
      | Some form' => Some {| ge_form := form'; ge_dialog := NoDialog |}
      | None => Some ed
      end
  | ECancel => Some (open_dialog NoDialog ed)
  end.

Fixpoint editor_events (ed : GroupEditor) (evs : list EditorEvent) : option GroupEditor :=
  match evs with
  | [] => Some ed
  | ev :: rest => ed' ← editor_event ed ev; editor_events ed' rest
  end.

(** ** The options stay readable *)

Definition is_object (j : json) : bool := match j with JObj _ => true | _ => false end.

(** Options as the server holds them: objects of numbers, of objects, and a list of
    texts. *)
Definition nested_ok (kvs : fields) : Prop := wf_fields kvs = true ∧ ∀ k v, obj_get k kvs = Some v → is_object v = true.

Record options_ok (form : GroupForm) : Prop := {
  topup_ok : ∃ kvs, read_map (gf_topupGroupRatio form) = Some kvs ∧ wf_fields kvs = true;
  groups_ok : ∃ kvs, read_map (gf_groupGroupRatio form) = Some kvs ∧ nested_ok kvs;
  auto_ok : ∃ l, autoGroupsList form = Some l ∧ forallb units_ok l = true
}.

(** What is typed: names that are well-formed texts and no array indices, and ratios in
    the range of the numbers. *)
Definition dialog_ok (d : GroupDialog) : bool :=
  match d with
  | NoDialog => true
  | SimpleGroupDialog ty _ name value =>
      match ty with STopupGroupRatio => true | SGroupRatio => false end
      && name_ok (trim name) && num_ok (parseFloat (trim value))
  | AutoGroupDialog input => units_ok (trim input)
  | UserGroupDialog input => name_ok (trim input)
  | GroupOverrideDialog g _ target ratio => name_ok g && name_ok (trim target) && num_ok (parseFloat ratio)
  end.

Definition input_ok (ed : GroupEditor) (ev : EditorEvent) : bool :=
  match ev with ESave => dialog_ok (ge_dialog ed) | _ => true end.

Fixpoint inputs_ok (ed : GroupEditor) (evs : list EditorEvent) : bool :=
  match evs with
  | [] => true
  | ev :: rest => input_ok ed ev && match editor_event ed ev with Some ed' => inputs_ok ed' rest | None => true end
  end.

Lemma wf_name k v kvs : wf_fields kvs = true → obj_get k kvs = Some v → units_ok k = true ∧ no_index k = true.
Proof.
  intros [H _]%wf_fields_spec Hg. rewrite obj_get_rec in Hg. apply rec_get_elem, list_elem_of_In in Hg.
  rewrite forallb_forall in H. specialize (H _ Hg). cbn in H. apply andb_prop in H as [H _]. by apply andb_prop in H.
Qed.

Lemma nested_set k inner kvs :
  name_ok k = true → wf_fields inner = true → nested_ok kvs → nested_ok (obj_set k (JObj inner) kvs).
Proof.
  intros [Hu Hi]%andb_prop Hw [Hk Ho]. split; [by apply wf_fields_set|].
  intros k' v. rewrite obj_get_set. destruct (str_eqb k' k); [by intros [= <-]|apply Ho].
Qed.

Lemma nested_delete k kvs : nested_ok kvs → nested_ok (obj_delete k kvs).
Proof.
  intros [Hk Ho]. split; [by apply wf_fields_delete|].
  intros k' v. rewrite obj_get_delete. destruct (str_eqb k' k); [done|apply Ho].
Qed.

Lemma nested_overrides g kvs :
  nested_ok kvs → ∃ inner, overrides_of g kvs = Some inner ∧ wf_fields inner = true.
Proof.
  intros [Hk Ho]. unfold overrides_of. destruct (obj_get g kvs) as [v|] eqn:E; [|by exists []].
  pose proof (Ho _ _ E) as Hv. pose proof (wf_get _ _ _ Hk E) as Hw. destruct v as [| | | | |inner]; try done.
  by exists inner.
Qed.

(** A change of one option keeps the others. *)
Lemma topup_changed form kvs :
  options_ok form → wf_fields kvs = true → options_ok (set_simple STopupGroupRatio (write_map kvs) form).
Proof.
  intros [H1 H2 H3] Hw. split; [|exact H2|exact H3].
  exists kvs. split; [by apply read_write|done].
Qed.

Lemma groups_changed form kvs :
  options_ok form → nested_ok kvs → options_ok (set_groupGroup (write_map kvs) form).
Proof.
  intros [H1 H2 H3] Hw. split; [exact H1| |exact H3].
  exists kvs. split; [by apply read_write, Hw|done].
Qed.

Lemma auto_changed form l :
  options_ok form → forallb units_ok l = true → options_ok (set_auto (write_list l) form).
Proof.
  intros [H1 H2 H3] Hw. split; [exact H1|exact H2|].
  exists l. split; [by apply read_list_back|done].
Qed.

(** The effect of an operation on the form: it succeeds and keeps what is shown. *)
Definition kept (form : GroupForm) (result : option GroupForm) : Prop :=
  ∃ form', result = Some form' ∧ options_ok form' ∧ gf_groupRatio form' = gf_groupRatio form.

Lemma kept_same form : options_ok form → kept form (Some form).
Proof. intros H. by exists form. Qed.

Lemma simple_delete_kept name form : options_ok form → kept form (handleSimpleDelete STopupGroupRatio name form).
Proof.
  intros Hok. destruct (topup_ok _ Hok) as (kvs & Hr & Hw). unfold handleSimpleDelete. cbn [simple_text]. rewrite Hr.
  eexists. split; [reflexivity|]. split; [|done]. by apply topup_changed, wf_fields_delete.
Qed.

Lemma simple_save_kept edited name value form :
  options_ok form → name_ok name = true → num_ok (parseFloat value) = true →
  kept form (handleSimpleSave STopupGroupRatio edited name value form).
Proof.
  intros Hok [Hu Hi]%andb_prop Hn. destruct (topup_ok _ Hok) as (kvs & Hr & Hw).
  unfold handleSimpleSave. cbn [simple_text]. rewrite Hr. eexists. split; [reflexivity|]. split; [|done].
  apply topup_changed; [done|]. apply wf_fields_set; [done|done|done|].
  destruct edited as [old|]; [|done]. destruct (str_eqb old name); [done|by apply wf_fields_delete].
Qed.

Lemma auto_save_kept input form :
  options_ok form → units_ok (trim input) = true → kept form (handleAutoGroupSave input form).
Proof.
  intros Hok Hu. destruct (auto_ok _ Hok) as (l & Hl & Hw). unfold handleAutoGroupSave.
  destruct (nonempty (trim input)); [|by apply kept_same]. rewrite Hl. eexists. split; [reflexivity|]. split; [|done].
  apply auto_changed; [done|]. rewrite forallb_app, Hw. cbn. by rewrite Hu.
Qed.

Lemma remove_index_sublist {A} i (l : list A) : sublist (remove_index i l) l.
Proof. revert i. induction l as [|x l IH]; intros [|i]; cbn [remove_index]; try done; by constructor. Qed.

Lemma auto_delete_kept index form : options_ok form → kept form (handleAutoGroupDelete index form).
Proof.
  intros Hok. destruct (auto_ok _ Hok) as (l & Hl & Hw). unfold handleAutoGroupDelete. rewrite Hl.
  eexists. split; [reflexivity|]. split; [|done]. apply auto_changed; [done|].
  rewrite forallb_forall in Hw |- *. intros s Hs. apply Hw, list_elem_of_In.
  apply list_elem_of_In in Hs. by apply (elem_of_submseteq (remove_index index l)), sublist_submseteq, remove_index_sublist.
Qed.

Lemma auto_move_kept index d form : options_ok form → kept form (handleAutoGroupMove index d form).
Proof.
  intros Hok. destruct (auto_ok _ Hok) as (l & Hl & Hw). unfold handleAutoGroupMove. rewrite Hl. cbn [mbind option_bind].
  destruct (moved index d l) as [l'|] eqn:Em; [|by apply kept_same]. destruct (moved_spec _ _ _ _ Em) as [Hp _].
  eexists. split; [reflexivity|]. split; [|done]. by apply auto_changed, (units_permutation l).
Qed.

Lemma user_group_save_kept input form :
  options_ok form → name_ok (trim input) = true → kept form (handleUserGroupSave input form).
Proof.
  intros Hok Hn. destruct (groups_ok _ Hok) as (kvs & Hr & Hw). unfold handleUserGroupSave.
  destruct (nonempty (trim input)); [|by apply kept_same]. rewrite Hr. eexists. split; [reflexivity|]. split; [|done].
  apply groups_changed; [done|]. destruct (obj_get _ kvs) as [j|]; [destruct (json_truthy j)|];
    [done|by apply nested_set..].
Qed.

Lemma user_group_delete_kept g form : options_ok form → kept form (handleUserGroupDelete g form).
Proof.
  intros Hok. destruct (groups_ok _ Hok) as (kvs & Hr & Hw). unfold handleUserGroupDelete. rewrite Hr.
  eexists. split; [reflexivity|]. split; [|done]. by apply groups_changed, nested_delete.
Qed.

Lemma override_save_kept g target ratio edited form :
  options_ok form → name_ok g = true → name_ok target = true → num_ok ratio = true →
  kept form (handleOverrideSave (Some g) target ratio edited form).
Proof.
  intros Hok Hg [Hu Hi]%andb_prop Hn. unfold handleOverrideSave. destruct (nonempty g); [|by apply kept_same].
  destruct (groups_ok _ Hok) as (kvs & Hr & Hw). rewrite Hr. cbn [mbind option_bind]. unfold override_saved.
  destruct (nested_overrides g kvs Hw) as (inner & Ho & Hwi). rewrite Ho. cbn [mbind option_bind].
  eexists. split; [reflexivity|]. split; [|done]. apply groups_changed; [done|]. apply nested_set; [done| |done].
  apply wf_fields_set; [done|done|done|]. destruct edited as [old|]; [|done].
  destruct (_ && _); [by apply wf_fields_delete|done].
Qed.

Lemma override_delete_kept g target form : options_ok form → kept form (handleOverrideDelete g target form).
Proof.
  intros Hok. destruct (groups_ok _ Hok) as (kvs & Hr & Hw). unfold handleOverrideDelete. rewrite Hr. cbn [mbind option_bind].
  unfold override_deleted. destruct (obj_get g kvs) as [v|] eqn:E; cbn [mbind option_bind].
  - pose proof (proj2 Hw _ _ E) as Hv. destruct v as [| | | | |inner]; try done. cbn [mbind option_bind].
    pose proof (wf_get _ _ _ (proj1 Hw) E : wf_fields inner = true) as Hwi.
    destruct (wf_name _ _ _ (proj1 Hw) E) as [Hu Hi].
    eexists. split; [reflexivity|]. split; [|done]. apply groups_changed; [done|].
    destruct (nonempty _); [|by apply nested_delete]. apply nested_set; [|by apply wf_fields_delete|done].
    unfold name_ok. by rewrite Hu, Hi.
  - eexists. split; [reflexivity|]. split; [|done]. by apply groups_changed.
Qed.

Lemma with_form_kept ed result :
  kept (ge_form ed) result →
  ∃ ed', with_form ed result = Some ed' ∧ options_ok (ge_form ed') ∧ gf_groupRatio (ge_form ed') = gf_groupRatio (ge_form ed).
Proof. intros (form' & -> & Hok & Hg). eexists. split; [reflexivity|]. done. Qed.

Lemma dialog_save_kept d form :
  options_ok form → dialog_ok d = true →
  ∃ saved, dialog_save d form = Some saved
  ∧ match saved with
    | Some form' => options_ok form' ∧ gf_groupRatio form' = gf_groupRatio form
    | None => True
    end.
Proof.
  assert (Hk : ∀ r, kept form r → ∃ saved, (form' ← r; Some (Some form')) = Some saved
    ∧ match saved with Some form' => options_ok form' ∧ gf_groupRatio form' = gf_groupRatio form | None => True end).
  { intros r (form' & -> & H1 & H2). exists (Some form'). done. }
  assert (Hn : ∃ saved, Some (@None GroupForm) = Some saved
    ∧ match saved with Some form' => options_ok form' ∧ gf_groupRatio form' = gf_groupRatio form | None => True end)
    by (by exists None).
  intros Hok Hd. destruct d as [|ty edited name value|input|input|g edited target ratio]; cbn [dialog_save dialog_ok] in *.
  - done.
  - apply andb_prop in Hd as [[Hty Hnm]%andb_prop Hx]. destruct ty; [done|].
    unfold simple_handleSave. destruct (_ && _); [|done]. by apply Hk, simple_save_kept.
  - destruct (nonempty (trim input)); [|done]. by apply Hk, auto_save_kept.
  - destruct (nonempty (trim input)); [|done]. by apply Hk, user_group_save_kept.
  - apply andb_prop in Hd as [[Hg Ht]%andb_prop Hx]. unfold override_handleSave.
    destruct (_ && _); [|done]. destruct (is_nan (parseFloat ratio)); [done|]. by apply Hk, override_save_kept.
Qed.

Lemma editor_event_kept ed ev :
  options_ok (ge_form ed) → input_ok ed ev = true →
  ∃ ed', editor_event ed ev = Some ed' ∧ options_ok (ge_form ed') ∧ gf_groupRatio (ge_form ed') = gf_groupRatio (ge_form ed).
Proof.
  intros Hok Hi. destruct ev; cbn [editor_event input_ok] in *; try (eexists; split; [reflexivity|]; done).
  - by apply with_form_kept, simple_delete_kept.
  - by apply with_form_kept, auto_delete_kept.
  - by apply with_form_kept, auto_move_kept.
  - by apply with_form_kept, user_group_delete_kept.
  - by apply with_form_kept, override_delete_kept.
  - destruct (dialog_save_kept (ge_dialog ed) (ge_form ed) Hok Hi) as ([form'|] & -> & H); cbn [mbind option_bind];
      (eexists; split; [reflexivity|]; done).
Qed.

(** No operation of the group editor is stuck.  From options that can be read,
    every sequence of dialogs opened, filled in with well-formed names and ratios in
    range, saved or cancelled, of deletions and of moves can be carried out, leaves
    every option readable with the shape the editor needs, and never touches the ratios
    of the pricing groups. *)
Theorem editor_never_stuck form evs :
  options_ok form → inputs_ok {| ge_form := form; ge_dialog := NoDialog |} evs = true →
  ∃ ed, editor_events {| ge_form := form; ge_dialog := NoDialog |} evs = Some ed
  ∧ options_ok (ge_form ed) ∧ gf_groupRatio (ge_form ed) = gf_groupRatio form.
Proof.
  intros Hok. assert (H : options_ok (ge_form {| ge_form := form; ge_dialog := NoDialog |})) by done.
  revert H. change (gf_groupRatio form) with (gf_groupRatio (ge_form {| ge_form := form; ge_dialog := NoDialog |})).
  generalize {| ge_form := form; ge_dialog := NoDialog |}. clear form Hok.
  induction evs as [|ev evs IH]; intros ed Hok; cbn [editor_events inputs_ok]; [by exists ed|].
  intros [Hi Hs]%andb_prop. destruct (editor_event_kept ed ev Hok Hi) as (ed1 & E & H1 & H2). rewrite E in *.
  cbn [mbind option_bind]. destruct (IH ed1 H1 Hs) as (ed' & H3 & H4 & H5). exists ed'. by rewrite H5.
Qed.

Lemma sample_form_ok : options_ok sample_form.
Proof.
  split.
  - exists [("vip", JNum (num_of_decimal false 12 (-1)))]. split; vm_compute; reflexivity.
  - exists [("vip", JObj [("default", JNum (num_of_decimal false 9 (-1)))])]. split; [vm_compute; reflexivity|].
    split; [vm_compute; reflexivity|]. intros k v. cbn [obj_get]. destruct (str_eqb k _); [by intros [= <-]|done].
  - exists ["default"; "vip"]. split; vm_compute; reflexivity.
Qed.

Lemma editor_never_stuck_witness :
  ∃ ed, editor_events {| ge_form := sample_form; ge_dialog := NoDialog |}
          [EOverrideAdd "vip"; EName " pro "; ERatio "1.5"; ESave; EAutoGroupMove 1 Up; EUserGroupAdd; ESave; EName "svip"; ESave;
           ESimpleEdit "vip" "1.2"; ERatio "x"; ERatio "2"; ESave; EOverrideDelete "vip" "default"] = Some ed
  ∧ gf_groupRatio (ge_form ed) = "{}".
Proof.
  destruct (editor_never_stuck sample_form
    [EOverrideAdd "vip"; EName " pro "; ERatio "1.5"; ESave; EAutoGroupMove 1 Up; EUserGroupAdd; ESave; EName "svip"; ESave;
     ESimpleEdit "vip" "1.2"; ERatio "x"; ERatio "2"; ESave; EOverrideDelete "vip" "default"] sample_form_ok
    ltac:(vm_compute; reflexivity)) as (ed & H1 & _ & H2).
  exact (ex_intro _ ed (conj H1 H2)).
Defined.
