(* ===== verification/GroupRules.v ===== *)
(** * Special usable groups

    [features/system-settings/models/group-special-usable-editor.tsx]: for a user group,
    the groups that are added to, removed from or appended to those its users can
    choose.  The option maps user groups to objects whose keys carry the operation as a
    prefix; the editor keeps a flat list of rules. *)
From Stdlib Require Import NArith ZArith.
From stdpp Require Import list.
From S2P Require Import Prelude JsString JsNumber Json JsArray JsonRoundtrip JsonIndent JsRecord.

Inductive OpType : Type := OP_ADD | OP_REMOVE | OP_APPEND.

#[export] Instance OpType_eq : EqDecision OpType.
Proof. solve_decision. Defined.

Record Rule : Type := {
  ru_id : jsstr;
  ru_userGroup : jsstr;
  ru_op : OpType;
  ru_targetGroup : jsstr;
  ru_description : jsstr
}.

(** [_idCounter] is [n] before the call. *)
Definition uid (n : N) : jsstr * N := ("gsu_" ++ to_dec (n + 1), (n + 1)%N).

Definition parsePrefix (rawKey : jsstr) : OpType * jsstr :=
  if startsWith "+:" rawKey then (OP_ADD, drop 2 rawKey)
  else if startsWith "-:" rawKey then (OP_REMOVE, drop 2 rawKey)
  else (OP_APPEND, rawKey).

Definition toRawKey (op : OpType) (groupName : jsstr) : jsstr :=
  match op with OP_ADD => "+:" ++ groupName | OP_REMOVE => "-:" ++ groupName | OP_APPEND => groupName end.

(** The result is [JSON.parse]'s, or [{}]. *)
Definition safeParseJson (str : jsstr) : json :=
  if nonempty (trim str) then match JSON_parse str with Some j => j | None => JObj [] end else JObj [].

Definition REMOVE_DESCRIPTION : jsstr := "remove".

Definition flatten_entry (userGroup : jsstr) (entry : jsstr * json) (id : jsstr) : Rule :=
  let '(op, groupName) := parsePrefix entry.1 in
  {| ru_id := id; ru_userGroup := userGroup; ru_op := op; ru_targetGroup := groupName;
     ru_description := match op, entry.2 with
                       | OP_REMOVE, _ => REMOVE_DESCRIPTION
                       | _, JStr desc => desc
                       | _, _ => []
                       end |}.

(** [Object.entries(inner)] of an object or an array; other values are skipped. *)
Definition inner_entries (inner : json) : list (jsstr * json) :=
  match inner with
  | JObj kvs => entries kvs
  | JArr l => map (λ '(i, v), (to_dec (N.of_nat i), v)) (combine (seq 0 (length l)) l)
  | _ => []
  end.

(** The pairs of a user group and an entry, in order. *)
Definition nested_entries (nested : list (jsstr * json)) : list (jsstr * (jsstr * json)) :=
  flat_map (λ '(userGroup, inner), map (pair userGroup) (inner_entries inner)) (entries nested).

Fixpoint flatten_entries (l : list (jsstr * (jsstr * json))) (n : N) : list Rule * N :=
  match l with
  | [] => ([], n)
  | (userGroup, entry) :: rest =>
      let '(id, n) := uid n in
      let '(rules, n') := flatten_entries rest n in
      (flatten_entry userGroup entry id :: rules, n')
  end.

(** [flattenRules]; a text that is no object is not covered. *)
Definition flattenRules (nested : list (jsstr * json)) (n : N) : list Rule * N :=
  flatten_entries (nested_entries nested) n.

(** One rule of the loop of [nestRules]; the inner objects hold texts. *)
Definition nest_rule (result : record (record jsstr)) (r : Rule) : record (record jsstr) :=
  if nonempty (ru_userGroup r) && nonempty (ru_targetGroup r) then
    let inner := default [] (rec_get (ru_userGroup r) result) in
    rec_set (ru_userGroup r) (rec_set (toRawKey (ru_op r) (ru_targetGroup r)) (ru_description r) inner) result
  else result.

Definition nestRules (rules : list Rule) : record (record jsstr) := fold_left nest_rule rules [].

Definition nested_json (nested : record (record jsstr)) : json :=
  JObj (map (λ '(g, inner), (g, JObj (map (λ '(k, d), (k, JStr d)) inner))) nested).

Definition serializeRules (rules : list Rule) : jsstr :=
  let nested := nestRules rules in
  if nonempty nested then JSON_stringify_2 (nested_json nested) else "{}".

(** ** The editor *)

Record RulesEditor : Type := {
  re_rules : list Rule;
  re_newGroupName : jsstr;
  re_value : jsstr;
  re_counter : N
}.

(** The state when the editor is mounted. *)
Definition open_rules (value : jsstr) (n : N) : option RulesEditor :=
  match safeParseJson value with
  | JObj nested =>
      let '(rules, n') := flattenRules nested n in
      Some {| re_rules := rules; re_newGroupName := []; re_value := value; re_counter := n' |}
  | _ => None
  end.

(** [emitChange] gives the form the new text. *)
Definition emitChange (newRules : list Rule) (n : N) (ed : RulesEditor) : RulesEditor :=
  {| re_rules := newRules; re_newGroupName := re_newGroupName ed; re_value := serializeRules newRules;
     re_counter := n |}.

(** The inputs of a rule. *)
Inductive RuleChange : Type :=
| ChangeOp (op : OpType)
| ChangeTarget (text : jsstr)
| ChangeDescription (text : jsstr).

Definition set_rule (op : OpType) (target description : jsstr) (r : Rule) : Rule :=
  {| ru_id := ru_id r; ru_userGroup := ru_userGroup r; ru_op := op; ru_targetGroup := target;
     ru_description := description |}.

Definition rule_change (c : RuleChange) (r : Rule) : Rule :=
  match c with
  | ChangeOp op =>
      set_rule op (ru_targetGroup r)
        (match op with
         | OP_REMOVE => REMOVE_DESCRIPTION
         | _ => match ru_op r with
                | OP_REMOVE => if str_eqb (ru_description r) REMOVE_DESCRIPTION then [] else ru_description r
                | _ => ru_description r
                end
         end) r
  | ChangeTarget text => set_rule (ru_op r) text (ru_description r) r
  | ChangeDescription text => set_rule (ru_op r) (ru_targetGroup r) text r
  end.

Definition updateRule (id : jsstr) (c : RuleChange) (ed : RulesEditor) : RulesEditor :=
  emitChange (map (λ r, if str_eqb (ru_id r) id then rule_change c r else r) (re_rules ed)) (re_counter ed) ed.

Definition removeRule (id : jsstr) (ed : RulesEditor) : RulesEditor :=
  emitChange (List.filter (λ r, negb (str_eqb (ru_id r) id)) (re_rules ed)) (re_counter ed) ed.

Definition removeGroup (groupName : jsstr) (ed : RulesEditor) : RulesEditor :=
  emitChange (List.filter (λ r, negb (str_eqb (ru_userGroup r) groupName)) (re_rules ed)) (re_counter ed) ed.

Definition blank_rule (id userGroup : jsstr) : Rule :=
  {| ru_id := id; ru_userGroup := userGroup; ru_op := OP_APPEND; ru_targetGroup := []; ru_description := [] |}.

Definition addRuleToGroup (groupName : jsstr) (ed : RulesEditor) : RulesEditor :=
  let '(id, n) := uid (re_counter ed) in
  emitChange (re_rules ed ++ [blank_rule id groupName]) n ed.

Definition setNewGroupName (text : jsstr) (ed : RulesEditor) : RulesEditor :=
  {| re_rules := re_rules ed; re_newGroupName := text; re_value := re_value ed; re_counter := re_counter ed |}.

Definition addNewGroup (ed : RulesEditor) : RulesEditor :=
  let name := trim (re_newGroupName ed) in
  if nonempty name then setNewGroupName [] (addRuleToGroup name ed) else ed.

(** The loop of [grouped]: [map] with its keys in the order [order]. *)
Definition group_step (map : record (list Rule)) (r : Rule) : record (list Rule) :=
  if nonempty (ru_userGroup r)
  then rec_set (ru_userGroup r) (default [] (rec_get (ru_userGroup r) map) ++ [r]) map
  else map.

Definition grouped (rules : list Rule) : list (jsstr * list Rule) := fold_left group_step rules [].

Inductive RulesEvent : Type :=
| RUpdate (id : jsstr) (c : RuleChange)
| RRemove (id : jsstr)
| RRemoveGroup (groupName : jsstr)
| RAdd (groupName : jsstr)
| RNewGroupName (text : jsstr)
| RAddGroup.

(** The description of a removal has no input. *)
Definition event_enabled (ed : RulesEditor) (ev : RulesEvent) : Prop :=
  match ev with
  | RUpdate id (ChangeDescription _) => ∀ r, r ∈ re_rules ed → ru_id r = id → ru_op r ≠ OP_REMOVE
  | RAdd groupName => groupName ∈ map fst (grouped (re_rules ed))
  | _ => True
  end.

Definition rules_event (ed : RulesEditor) (ev : RulesEvent) : RulesEditor :=
  match ev with
  | RUpdate id c => updateRule id c ed
  | RRemove id => removeRule id ed
  | RRemoveGroup groupName => removeGroup groupName ed
  | RAdd groupName => addRuleToGroup groupName ed
  | RNewGroupName text => setNewGroupName text ed
  | RAddGroup => addNewGroup ed
  end.

Inductive rules_run : RulesEditor → RulesEditor → Prop :=
| rules_done ed : rules_run ed ed
| rules_next ed ed' ev : rules_run ed ed' → event_enabled ed' ev → rules_run ed (rules_event ed' ev).
