(* ===== verification/GroupRuleTheorems.v ===== *)
(** * Properties of the special usable groups

    Rules that are written and reopened, the rules the editor can reach, and what the
    option holds of rules that repeat or lack a group. *)
From Stdlib Require Import NArith ZArith.
From stdpp Require Import list.
From S2P Require Import Prelude JsString JsNumber Json JsArray JsonRoundtrip JsonIndent JsRecord PricingSettingsTheorems GroupRules.

(** ** Keys *)

Definition prefixed (s : jsstr) : bool := startsWith "+:" s || startsWith "-:" s.

Lemma parse_raw_key op g :
  (op = OP_APPEND → prefixed g = false) → parsePrefix (toRawKey op g) = (op, g).
Proof.
  destruct op; [done|done|]. cbn [toRawKey]. intros H. specialize (H eq_refl).
  unfold prefixed in H. apply orb_false_elim in H as [H1 H2]. unfold parsePrefix. by rewrite H1, H2.
Qed.

(** An appended group whose name has a prefix is read back as another rule. *)
Lemma prefixed_append_misread g : parsePrefix (toRawKey OP_APPEND ("-:" ++ g)) = (OP_REMOVE, g).
Proof. done. Qed.

(** ** Rules that are read back *)

Definition raw_key (r : Rule) : jsstr := toRawKey (ru_op r) (ru_targetGroup r).

Definition rule_ok (r : Rule) : bool :=
  nonempty (ru_userGroup r) && nonempty (ru_targetGroup r) && name_ok (ru_userGroup r) && name_ok (raw_key r)
  && units_ok (ru_description r)
  && match ru_op r with
     | OP_REMOVE => str_eqb (ru_description r) REMOVE_DESCRIPTION
     | OP_APPEND => negb (prefixed (ru_targetGroup r))
     | OP_ADD => true
     end.

Definition rules_ok (rules : list Rule) : Prop :=
  forallb rule_ok rules = true ∧ NoDup (map (λ r, (ru_userGroup r, raw_key r)) rules).

Lemma rule_ok_spec r :
  rule_ok r = true →
  nonempty (ru_userGroup r) = true ∧ nonempty (ru_targetGroup r) = true ∧ name_ok (ru_userGroup r) = true
  ∧ name_ok (raw_key r) = true ∧ units_ok (ru_description r) = true
  ∧ (ru_op r = OP_REMOVE → ru_description r = REMOVE_DESCRIPTION)
  ∧ parsePrefix (raw_key r) = (ru_op r, ru_targetGroup r).
Proof.
  unfold rule_ok. rewrite !andb_true_iff. intros [[[[[H1 H2] H3] H4] H5] H6]. split_and!; try done.
  - intros E. rewrite E in H6. by apply str_eqb_eq.
  - apply parse_raw_key. intros E. rewrite E in H6. by apply negb_true_iff.
Qed.

Lemma rec_map_get {A B} (f : A → B) k (r : record A) :
  rec_get k (map (λ '(k, v), (k, f v)) r) = f <$> rec_get k r.
Proof. induction r as [|[k0 v0] r IH]; cbn; [done|]. by destruct (str_eqb k k0). Qed.

Lemma rec_map_set {A B} (f : A → B) k v (r : record A) :
  rec_set k (f v) (map (λ '(k, v), (k, f v)) r) = map (λ '(k, v), (k, f v)) (rec_set k v r).
Proof. induction r as [|[k0 v0] r IH]; cbn; [done|]. destruct (str_eqb k k0); cbn; [done|]. by rewrite IH. Qed.

Lemma rec_set_new {A} k (v : A) r : k ∉ map fst r → rec_set k v r = r ++ [(k, v)].
Proof.
  induction r as [|[k0 v0] r IH]; cbn [map fst rec_set]; [done|]. rewrite not_elem_of_cons. intros [H1 H2].
  rewrite (proj2 (str_eqb_neq _ _) H1), IH by done. done.
Qed.

(** The object of the rules of one group. *)
Definition inner_of (items : list Rule) : record jsstr := map (λ r, (raw_key r, ru_description r)) items.

Definition nested_of (groups : record (list Rule)) : record (record jsstr) :=
  map (λ '(g, items), (g, inner_of items)) groups.

(** The groups hold the rules so far, each in its own. *)
Definition groups_of (groups : record (list Rule)) (rules : list Rule) : Prop :=
  distinct groups ∧ ∀ g items, rec_get g groups = Some items → nonempty items = true
    ∧ NoDup (map raw_key items) ∧ ∀ r, r ∈ items → ru_userGroup r = g ∧ r ∈ rules.

Lemma nest_grouped_from rules groups before :
  forallb rule_ok rules = true → NoDup (map (λ r, (ru_userGroup r, raw_key r)) (before ++ rules)) →
  groups_of groups before →
  fold_left nest_rule rules (nested_of groups) = nested_of (fold_left group_step rules groups)
  ∧ groups_of (fold_left group_step rules groups) (before ++ rules).
Proof.
  revert groups before. induction rules as [|r rules IH]; intros groups before Hok Hd Hg; cbn [fold_left].
  { by rewrite app_nil_r. }
  cbn [forallb] in Hok. apply andb_prop in Hok as [Hr Hok].
  destruct (rule_ok_spec _ Hr) as (H1 & H2 & _). destruct Hg as [Hgd Hg].
  set (items := default [] (rec_get (ru_userGroup r) groups)).
  assert (Hitems : ∀ r', r' ∈ items → ru_userGroup r' = ru_userGroup r ∧ r' ∈ before).
  { intros r' Hr'. unfold items in Hr'. destruct (rec_get (ru_userGroup r) groups) as [its|] eqn:E.
    - by apply (Hg _ _ E).
    - by apply not_elem_of_nil in Hr'. }
  assert (Hnew : raw_key r ∉ map fst (inner_of items)).
  { unfold inner_of. rewrite map_map. cbn [fst]. intros (r' & E & Hr')%elem_of_mapb.
    destruct (Hitems _ Hr') as [E' Hb]. rewrite map_app in Hd. apply list.NoDup_app in Hd as (_ & Hdis & _).
    apply (Hdis (ru_userGroup r, raw_key r)); [|left]. apply elem_of_mapb. exists r'. by rewrite E, E'. }
  assert (Hnest : nest_rule (nested_of groups) r = nested_of (group_step groups r)).
  { unfold nest_rule, group_step. rewrite H1, H2. cbn [andb]. fold items. unfold nested_of.
    rewrite rec_map_get. rewrite <- (rec_map_set inner_of). f_equal. fold (raw_key r).
    assert (E : default [] (inner_of <$> rec_get (ru_userGroup r) groups) = inner_of items)
      by (unfold items; by destruct (rec_get (ru_userGroup r) groups)).
    rewrite E, rec_set_new by done. unfold inner_of. by rewrite map_app. }
  rewrite Hnest.
  assert (Hg' : groups_of (group_step groups r) (before ++ [r])).
  { unfold group_step. rewrite H1. fold items. split; [by apply distinct_set|]. intros g its. rewrite rec_get_set.
    destruct (str_eqb_spec g (ru_userGroup r)) as [->|?].
    - intros [= <-]. split; [by destruct items|]. split.
      { rewrite map_app. apply list.NoDup_app. split_and!; [|intros x Hx Hx'|by repeat constructor; inversion 1].
        - unfold items. destruct (rec_get (ru_userGroup r) groups) eqn:E; [by apply (Hg _ _ E)|constructor].
        - apply list_elem_of_singleton in Hx'. subst x. apply Hnew. unfold inner_of. by rewrite map_map. }
      intros r' [Hr'|Hr']%elem_of_app.
      + destruct (Hitems _ Hr') as [? ?]. split; [done|]. apply elem_of_app. by left.
      + apply list_elem_of_singleton in Hr' as ->. split; [done|]. apply elem_of_app. right. left.
    - intros Hgi. destruct (Hg _ _ Hgi) as (? & ? & Hin). split_and!; [done|done|]. intros r' Hr'.
      destruct (Hin _ Hr'). split; [done|]. apply elem_of_app. by left. }
  replace (before ++ r :: rules) with ((before ++ [r]) ++ rules) in * by (by rewrite <- app_assoc).
  by apply IH.
Qed.

Lemma nest_grouped rules :
  rules_ok rules → nestRules rules = nested_of (grouped rules) ∧ groups_of (grouped rules) rules.
Proof.
  intros [Hok Hd]. apply (nest_grouped_from rules [] []); [done|done|].
  split; [constructor|done].
Qed.

Lemma grouped_item rules g items :
  rules_ok rules → (g, items) ∈ grouped rules →
  nonempty items = true ∧ NoDup (map raw_key items) ∧ ∀ r, r ∈ items → ru_userGroup r = g ∧ rule_ok r = true.
Proof.
  intros Hok Hin. destruct (nest_grouped rules Hok) as [_ [Hd Hg]].
  destruct (Hg g items) as (H1 & H2 & H3); [by apply rec_elem_get|]. split_and!; [done|done|].
  intros r [? Hr]%H3. split; [done|]. destruct Hok as [Hok _]. rewrite forallb_forall in Hok.
  by apply Hok, list_elem_of_In.
Qed.

Definition inner_json (items : list Rule) : list (jsstr * json) := map (λ r, (raw_key r, JStr (ru_description r))) items.

Lemma nested_json_grouped groups :
  nested_json (nested_of groups) = JObj (map (λ '(g, items), (g, JObj (inner_json items))) groups).
Proof.
  unfold nested_json, nested_of. rewrite map_map. f_equal. apply map_ext. intros [g items].
  unfold inner_of, inner_json. by rewrite map_map.
Qed.

Lemma wf_inner items :
  NoDup (map raw_key items) → (∀ r, r ∈ items → rule_ok r = true) → wf_fields (inner_json items) = true.
Proof.
  intros Hd Hok. apply wf_fields_spec. unfold inner_json. rewrite map_map. split; [|done].
  apply forallb_forall. intros kv (r & <- & Hr)%in_map_iff.
  destruct (rule_ok_spec r) as (_ & _ & _ & Hn & Hu & _); [by apply Hok, list_elem_of_In|].
  unfold name_ok in Hn. cbn [wf_json]. by rewrite Hn, Hu.
Qed.

Lemma wf_nested rules :
  rules_ok rules → wf_fields (map (λ '(g, items), (g, JObj (inner_json items))) (grouped rules)) = true.
Proof.
  intros Hok. apply wf_fields_spec. split.
  - apply forallb_forall. intros kv ([g items] & <- & Hin)%in_map_iff. apply list_elem_of_In in Hin.
    destruct (grouped_item _ _ _ Hok Hin) as (Hn & Hd & Hi).
    fold (wf_fields (inner_json items)). rewrite wf_inner by (done || (intros r Hr; by apply Hi)).
    destruct items as [|r items]; [done|]. destruct (Hi r ltac:(left)) as [<- Hr].
    destruct (rule_ok_spec r Hr) as (_ & _ & Hng & _). unfold name_ok in Hng. by rewrite Hng.
  - rewrite map_map. rewrite (map_ext _ fst) by (by intros []). by destruct (nest_grouped rules Hok) as [_ [? _]].
Qed.

(** Rules that differ in the identifiers only. *)
Definition same_rule (a b : Rule) : Prop :=
  ru_userGroup a = ru_userGroup b ∧ ru_op a = ru_op b ∧ ru_targetGroup a = ru_targetGroup b
  ∧ ru_description a = ru_description b.

Lemma flatten_rule r id :
  rule_ok r = true → same_rule (flatten_entry (ru_userGroup r) (raw_key r, JStr (ru_description r)) id) r.
Proof.
  intros (_ & _ & _ & _ & _ & Hd & Hp)%rule_ok_spec. unfold flatten_entry. cbn [fst snd]. rewrite Hp.
  unfold same_rule. cbn. split_and!; [done|done|done|]. by destruct (ru_op r); [|rewrite Hd|].
Qed.

Lemma flatten_rules rules n :
  (∀ r, r ∈ rules → rule_ok r = true) →
  Forall2 same_rule
    (flatten_entries (map (λ r, (ru_userGroup r, (raw_key r, JStr (ru_description r)))) rules) n).1 rules.
Proof.
  revert n. induction rules as [|r rules IH]; intros n Hok; cbn [map flatten_entries]; [constructor|].
  cbn [uid]. specialize (IH (n + 1)%N (λ r H, Hok r (list_elem_of_further _ _ _ H))).
  destruct (flatten_entries _ (n + 1)%N) as [rs n']. cbn [fst] in *. constructor; [|done].
  apply flatten_rule, Hok. left.
Qed.

(** The rules as the editor lists them. *)
Definition listed (rules : list Rule) : list Rule := flat_map snd (grouped rules).

Lemma nested_entries_grouped rules :
  rules_ok rules →
  nested_entries (map (λ '(g, items), (g, JObj (inner_json items))) (grouped rules))
  = map (λ r, (ru_userGroup r, (raw_key r, JStr (ru_description r)))) (listed rules).
Proof.
  intros Hok. unfold nested_entries, listed. rewrite entries_id by (by apply wf_no_index, wf_nested).
  pose proof (λ g items, grouped_item rules g items Hok) as Hg. clear Hok.
  induction (grouped rules) as [|[g items] groups IH]; cbn [map flat_map snd]; [done|].
  rewrite map_app, IH by (intros; apply Hg; by right). f_equal.
  destruct (Hg g items ltac:(left)) as (_ & Hd & Hi). cbn [inner_entries].
  rewrite entries_id.
  - unfold inner_json. rewrite map_map. apply map_ext_in. intros r Hr%list_elem_of_In. by rewrite (proj1 (Hi r Hr)).
  - apply wf_no_index, wf_inner; [done|]. intros r Hr. by apply Hi.
Qed.

(** ** The properties *)

(** Saved rules reopen as they are listed.  Rules that are complete, with names
    that are no prefixed keys, and of which no two set the same key, are read back
    from the option as the same rules in the order the editor shows them, group by
    group. *)
Theorem saved_rules_reopen rules n :
  rules_ok rules →
  ∃ ed, open_rules (serializeRules rules) n = Some ed ∧ Forall2 same_rule (re_rules ed) (listed rules).
Proof.
  intros Hok. destruct (nest_grouped rules Hok) as [Hn _]. unfold serializeRules. rewrite Hn.
  assert (Hparse : ∀ text, text = (if nonempty (nested_of (grouped rules))
      then JSON_stringify_2 (nested_json (nested_of (grouped rules))) else "{}") →
    safeParseJson text = JObj (map (λ '(g, items), (g, JObj (inner_json items))) (grouped rules))).
  { intros text ->. rewrite nested_json_grouped. pose proof (wf_nested rules Hok) as Hw.
    destruct (grouped rules) as [|[g items] groups]; [reflexivity|]. cbn [nonempty nested_of map] in *.
    unfold safeParseJson. rewrite indented_trimmed, JSON_parse_stringify_2 by exact Hw. reflexivity. }
  unfold open_rules. rewrite (Hparse _ eq_refl). unfold flattenRules. rewrite nested_entries_grouped by done.
  pose proof (flatten_rules (listed rules) n) as Hf.
  destruct (flatten_entries _ n) as [rules' n']. eexists. split; [reflexivity|]. apply Hf.
  intros r Hr0. apply list_elem_of_In, in_flat_map in Hr0 as ([g items] & Hin & Hr). cbn in Hr.
  apply list_elem_of_In in Hin, Hr. by apply (grouped_item rules g items Hok Hin).
Qed.

Definition sample_rules : list Rule :=
  [{| ru_id := "gsu_1"; ru_userGroup := "vip"; ru_op := OP_ADD; ru_targetGroup := "pro"; ru_description := "Pro" |};
   {| ru_id := "gsu_2"; ru_userGroup := "svip"; ru_op := OP_APPEND; ru_targetGroup := "pro"; ru_description := [] |};
   {| ru_id := "gsu_3"; ru_userGroup := "vip"; ru_op := OP_REMOVE; ru_targetGroup := "default";
      ru_description := "remove" |}].

Lemma saved_rules_reopen_witness :
  ∃ ed, open_rules (serializeRules sample_rules) 7 = Some ed
  ∧ Forall2 same_rule (re_rules ed) (listed sample_rules).
Proof.
  apply (saved_rules_reopen sample_rules 7). split.
  - vm_compute. reflexivity.
  - apply (bool_decide_unpack _). reflexivity.
Defined.

(** ** What the editor can reach *)

(** Identifiers given out so far, all distinct, and the description of a removal. *)
Definition editor_ok (ed : RulesEditor) : Prop :=
  NoDup (map ru_id (re_rules ed))
  ∧ (∀ x, x ∈ map ru_id (re_rules ed) → ∃ i, (i ≤ re_counter ed)%N ∧ x = "gsu_" ++ to_dec i)
  ∧ ∀ r, r ∈ re_rules ed → ru_op r = OP_REMOVE → ru_description r = REMOVE_DESCRIPTION.

Lemma flatten_ok l n :
  NoDup (map ru_id (flatten_entries l n).1) ∧ (n ≤ (flatten_entries l n).2)%N
  ∧ (∀ x, x ∈ map ru_id (flatten_entries l n).1 → ∃ i, (n < i)%N ∧ (i ≤ (flatten_entries l n).2)%N ∧ x = "gsu_" ++ to_dec i)
  ∧ ∀ r, r ∈ (flatten_entries l n).1 → ru_op r = OP_REMOVE → ru_description r = REMOVE_DESCRIPTION.
Proof.
  revert n. induction l as [|[g e] l IH]; intros n; cbn [flatten_entries].
  - cbn. split_and!; [constructor|lia|by intros x ?%not_elem_of_nil|by intros x ?%not_elem_of_nil].
  - cbn [uid]. specialize (IH (n + 1)%N). destruct (flatten_entries l (n + 1)) as [rules n']. cbn [fst snd] in *.
    destruct IH as (Hd & Hle & Hi & Hr).
    assert (Hid : ru_id (flatten_entry g e ("gsu_" ++ to_dec (n + 1))) = "gsu_" ++ to_dec (n + 1))
      by (unfold flatten_entry; by destruct (parsePrefix e.1)).
    cbn [map]. rewrite Hid. split_and!; [|lia| |].
    + apply list.NoDup_cons. split; [|done]. intros (i & H1 & _ & E)%Hi. apply app_inv_head, to_dec_inj in E. lia.
    + intros x [->|Hx]%elem_of_cons; [exists (n + 1)%N; split_and!; [lia|lia|done]|].
      destruct (Hi _ Hx) as (i & H1 & H2 & H3). exists i. split_and!; [lia|done|done].
    + intros r [->|Hin]%elem_of_cons; [|by apply Hr]. unfold flatten_entry.
      destruct (parsePrefix e.1) as [[] ?]; cbn; [done|done|done].
Qed.

Lemma open_editor_ok value n ed : open_rules value n = Some ed → editor_ok ed.
Proof.
  unfold open_rules. destruct (safeParseJson value) as [| | | | |nested]; try done. unfold flattenRules.
  destruct (flatten_ok (nested_entries nested) n) as (Hd & Hle & Hi & Hr).
  destruct (flatten_entries _ n) as [rules n']. cbn [fst snd] in *. intros [= <-]. split_and!; cbn; [done| |done].
  intros x Hx. destruct (Hi _ Hx) as (i & _ & H2 & H3). by exists i.
Qed.

Lemma sub_ok ed p :
  editor_ok ed → editor_ok (emitChange (List.filter p (re_rules ed)) (re_counter ed) ed).
Proof.
  intros (Hd & Hi & Hr). split_and!; cbn.
  - eapply sublist_NoDup; [exact Hd|]. apply map_sublist, filterb_sublist.
  - intros x (r & -> & [Hin _]%elem_of_filterb)%elem_of_mapb. apply Hi, elem_of_mapb. by exists r.
  - intros r [Hin _]%elem_of_filterb. by apply Hr.
Qed.

Lemma add_ok ed g : editor_ok ed → editor_ok (addRuleToGroup g ed).
Proof.
  intros (Hd & Hi & Hr). unfold addRuleToGroup. cbn [uid]. split_and!; cbn.
  - rewrite map_app. apply list.NoDup_app. split_and!; [done| |by repeat constructor; inversion 1].
    intros x (i & H1 & ->)%Hi Hx. apply list_elem_of_singleton in Hx. cbn in Hx.
    apply (app_inv_head "gsu_"), to_dec_inj in Hx. lia.
  - intros x. rewrite map_app. intros [(i & H1 & ->)%Hi|Hx]%elem_of_app; [exists i; split; [lia|done]|].
    apply list_elem_of_singleton in Hx as ->. exists (re_counter ed + 1)%N. split; [lia|done].
  - intros r [Hin|Hin]%elem_of_app; [by apply Hr|]. by apply list_elem_of_singleton in Hin as ->.
Qed.

Lemma update_ids id c rules :
  map ru_id (map (λ r, if str_eqb (ru_id r) id then rule_change c r else r) rules) = map ru_id rules.
Proof. rewrite map_map. apply map_ext. intros r. destruct (str_eqb (ru_id r) id); [by destruct c|done]. Qed.

Lemma event_editor_ok ed ev : editor_ok ed → event_enabled ed ev → editor_ok (rules_event ed ev).
Proof.
  intros Hok He. destruct ev as [id c|id|g|g|text|]; cbn [rules_event]; try by apply sub_ok.
  - destruct Hok as (Hd & Hi & Hr). unfold updateRule. split_and!; cbn.
    + by rewrite update_ids.
    + rewrite update_ids. done.
    + intros r (r0 & -> & Hin)%elem_of_mapb. destruct (str_eqb_spec (ru_id r0) id) as [E|?]; [|by apply Hr].
      destruct c as [op|text|text]; cbn.
      * by intros ->.
      * by apply Hr.
      * intros H. by destruct (He r0 Hin E).
  - by apply add_ok.
  - exact Hok.
  - unfold addNewGroup. destruct (nonempty _); [|done]. apply (add_ok _ (trim (re_newGroupName ed)) Hok).
Qed.

(** The rules edited stay consistent.  However rules and groups are added, changed
    and removed, their identifiers stay distinct, so that a change reaches one rule,
    and every removal carries the description [remove]. *)
Theorem rules_stay_consistent value n ed ed' :
  open_rules value n = Some ed → rules_run ed ed' →
  NoDup (map ru_id (re_rules ed'))
  ∧ ∀ r, r ∈ re_rules ed' → ru_op r = OP_REMOVE → ru_description r = REMOVE_DESCRIPTION.
Proof.
  intros Ho Hr. apply open_editor_ok in Ho.
  assert (Hok : editor_ok ed') by (induction Hr; [done|by apply event_editor_ok; [apply IHHr|]]).
  destruct Hok as (H1 & _ & H2). done.
Qed.

Lemma rules_stay_consistent_witness :
  ∃ ed, open_rules "{\qvip\q: {\q-:default\q: \qx\q}}" 0 = Some ed
  ∧ ∀ r, r ∈ re_rules (rules_event ed (RRemove "gsu_4")) → ru_op r = OP_REMOVE → ru_description r = REMOVE_DESCRIPTION.
Proof.
  assert (H : ∃ ed, open_rules "{\qvip\q: {\q-:default\q: \qx\q}}" 0 = Some ed) by (eexists; vm_compute; reflexivity).
  destruct H as [ed H]. exists ed. split; [exact H|].
  apply (rules_stay_consistent "{\qvip\q: {\q-:default\q: \qx\q}}" 0 ed). 
  - exact H.
  - apply rules_next; [apply rules_done|exact I].
Defined.

(** ** What the option holds *)

Definition complete (r : Rule) : bool := nonempty (ru_userGroup r) && nonempty (ru_targetGroup r).

Definition rules_for (g k : jsstr) (rules : list Rule) : list Rule :=
  List.filter (λ r, complete r && str_eqb (ru_userGroup r) g && str_eqb (raw_key r) k) rules.

(** The option holds the last rule of each key.  For a user group and a key, the
    text stored is the description of the last complete rule for them; a rule that
    lacks its group, as a new one does, is not stored. *)
Theorem last_rule_counts rules g k :
  rec_get g (nestRules rules) ≫= rec_get k = ru_description <$> list.last (rules_for g k rules).
Proof.
  unfold nestRules. induction rules as [|r rules IH] using rev_ind; [done|].
  rewrite fold_left_app. cbn [fold_left]. unfold rules_for in *. rewrite filter_app. cbn [List.filter].
  unfold nest_rule. fold (complete r). destruct (complete r); cbn [andb]; [|by rewrite app_nil_r].
  rewrite rec_get_set. fold (raw_key r).
  destruct (str_eqb_spec (ru_userGroup r) g) as [->|Hne]; cbn [andb].
  - rewrite str_eqb_refl. cbn [mbind option_bind]. rewrite rec_get_set.
    destruct (str_eqb_spec (raw_key r) k) as [->|Hk].
    + by rewrite str_eqb_refl, last_snoc.
    + rewrite (proj2 (str_eqb_neq k (raw_key r))) by congruence. rewrite app_nil_r, <- IH.
      by destruct (rec_get g _).
  - rewrite (proj2 (str_eqb_neq g (ru_userGroup r))) by congruence. by rewrite app_nil_r.
Qed.
