(* ===== verification/RatioSettings.v ===== *)
(** * Saving the ratios

    [features/system-settings/models/ratio-settings-card.tsx] with
    [hooks/use-update-option.ts] and the validation of [models/utils.ts]: two forms over
    options of the server, each of which writes the options that were changed, one
    after the other, and is filled again whenever the options are fetched. *)
From Stdlib Require Import NArith ZArith.
From stdpp Require Import list.
From S2P Require Import Prelude JsString JsNumber Json JsArray JsonRoundtrip JsonIndent JsRecord PricingSettings GroupRatios RatioSync.

(** [validateJsonString] with the predicate of the field. *)
Definition validateJsonString (predicate : json → bool) (value : jsstr) : bool :=
  let trimmed := trim value in
  if nonempty trimmed then match JSON_parse trimmed with Some parsed => predicate parsed | None => false end
  else true.

(** The value of a field: a JSON text or a switch. *)
Inductive setting : Type := SText (s : jsstr) | SBool (b : bool).

#[export] Instance setting_eq : EqDecision setting.
Proof. solve_decision. Defined.

Definition normalize_setting (v : setting) : setting :=
  match v with SText s => SText (normalizeJsonString s) | SBool b => SBool b end.

Definition format_setting (v : setting) : setting :=
  match v with SText s => SText (formatJsonForTextarea s) | SBool b => SBool b end.

(** The fields of a form, in the order in which they are saved, the name of the option
    each is stored in, and what its texts must be. *)
Class FormFields (K : Type) : Type := {
  field_eq :: EqDecision K;
  form_keys : list K;
  api_key : K → jsstr;
  field_predicate : K → json → bool;
  form_keys_nodup : NoDup form_keys;
  form_keys_all k : k ∈ form_keys;
  api_key_inj k k' : api_key k = api_key k' → k = k'
}.

(** ** The two forms *)

Inductive ModelKey : Type := MOption (k : OptionKey) | MExposeRatioEnabled.

#[export] Instance ModelKey_eq : EqDecision ModelKey.
Proof. solve_decision. Defined.

Definition model_keys : list ModelKey :=
  map (λ k, MOption (OptNum k)) [FPrice; FRatio; FCache; FCreateCache; FCompletion; FImage; FAudio; FAudioCompletion]
  ++ [MExposeRatioEnabled; MOption OptMode; MOption OptExpr].

(** [apiKeyMap] of [saveModelRatios]; the fields [BillingMode] and [BillingExpr] have
    options of other names. *)
Definition model_api_key (k : ModelKey) : jsstr :=
  match k with MOption k => option_name k | MExposeRatioEnabled => "ExposeRatioEnabled" end.

#[export] Instance model_fields : FormFields ModelKey.
Proof.
  refine {| form_keys := model_keys; api_key := model_api_key; field_predicate := λ _ _, true |}.
  - apply (bool_decide_unpack _). reflexivity.
  - intros [[[]| |]|]; apply (bool_decide_unpack _); reflexivity.
  - intros [[[]| |]|] [[[]| |]|]; done.
Defined.

Inductive GroupKey : Type :=
| GGroupRatio | GTopupGroupRatio | GUserUsableGroups | GGroupGroupRatio | GAutoGroups | GDefaultUseAutoGroup
| GGroupSpecialUsableGroup.

#[export] Instance GroupKey_eq : EqDecision GroupKey.
Proof. solve_decision. Defined.

Definition group_keys : list GroupKey :=
  [GGroupRatio; GTopupGroupRatio; GUserUsableGroups; GGroupGroupRatio; GAutoGroups; GDefaultUseAutoGroup;
   GGroupSpecialUsableGroup].

Definition group_api_key (k : GroupKey) : jsstr :=
  match k with
  | GGroupRatio => "GroupRatio"
  | GTopupGroupRatio => "TopupGroupRatio"
  | GUserUsableGroups => "UserUsableGroups"
  | GGroupGroupRatio => "GroupGroupRatio"
  | GAutoGroups => "AutoGroups"
  | GDefaultUseAutoGroup => "DefaultUseAutoGroup"
  | GGroupSpecialUsableGroup => "group_ratio_setting.group_special_usable_group"
  end.

(** The list of groups is an array of texts. *)
Definition group_predicate (k : GroupKey) (parsed : json) : bool :=
  match k with
  | GAutoGroups => match parsed with
                   | JArr l => forallb (λ j, match j with JStr _ => true | _ => false end) l
                   | _ => false
                   end
  | _ => true
  end.

#[export] Instance group_fields : FormFields GroupKey.
Proof.
  refine {| form_keys := group_keys; api_key := group_api_key; field_predicate := group_predicate |}.
  - apply (bool_decide_unpack _). reflexivity.
  - intros []; apply (bool_decide_unpack _); reflexivity.
  - intros [] []; done.
Defined.

(** ** A form and the server *)

Section form.
Context {K : Type} `{FormFields K}.

(** The options of the server by name. *)
Abbreviation Options := (jsstr → setting).

Record SettingsForm : Type := {
  sf_defaults : K → setting;
  sf_values : K → setting;
  sf_saving : list (K * setting)
}.

(** The effect on the defaults: the reference for changes, and the values shown. *)
Definition reset_form (server : Options) (saving : list (K * setting)) : SettingsForm :=
  {| sf_defaults := λ k, normalize_setting (server (api_key k));
     sf_values := λ k, format_setting (server (api_key k)); sf_saving := saving |}.

Definition edit_field (k : K) (v : setting) (form : SettingsForm) : SettingsForm :=
  {| sf_defaults := sf_defaults form; sf_values := set_key k v (sf_values form); sf_saving := sf_saving form |}.

Definition field_valid (k : K) (v : setting) : bool :=
  match v with SText s => validateJsonString (field_predicate k) s | SBool _ => true end.

Definition form_valid (form : SettingsForm) : bool := forallb (λ k, field_valid k (sf_values form k)) form_keys.

(** The updates of [saveModelRatios] and [saveGroupRatios]. *)
Definition save_updates (form : SettingsForm) : list (K * setting) :=
  map (λ k, (k, normalize_setting (sf_values form k)))
    (List.filter (λ k, negb (bool_decide (normalize_setting (sf_values form k) = sf_defaults form k))) form_keys).

(** The submitted form; with errors, nothing is saved. *)
Definition save_form (form : SettingsForm) : SettingsForm :=
  if form_valid form
  then {| sf_defaults := sf_defaults form; sf_values := sf_values form; sf_saving := save_updates form |}
  else form.

Record Settings : Type := { st_form : SettingsForm; st_server : Options }.

Definition store (k : K) (v : setting) (server : Options) : Options := set_key (api_key k) v server.

(** The answer to the update that is under way.  A refusal is only reported, and the
    loop goes on; a rejection ends it. *)
Definition answered (a : Answer) (st : Settings) : Settings :=
  match sf_saving (st_form st) with
  | [] => st
  | (k, v) :: rest =>
      let form := λ rest, {| sf_defaults := sf_defaults (st_form st); sf_values := sf_values (st_form st);
                             sf_saving := rest |} in
      match a with
      | Accepted => {| st_form := form rest; st_server := store k v (st_server st) |}
      | Refused => {| st_form := form rest; st_server := st_server st |}
      | Failed stored =>
          {| st_form := form []; st_server := if stored then store k v (st_server st) else st_server st |}
      end
  end.

(** The options are fetched again, as after every update that is stored. *)
Definition refetched (st : Settings) : Settings :=
  {| st_form := reset_form (st_server st) (sf_saving (st_form st)); st_server := st_server st |}.

Inductive SettingsEvent : Type :=
| FEdit (k : K) (v : setting)
| FSave
| FAnswered (a : Answer)
| FRefetched.

Definition settings_event (st : Settings) (e : SettingsEvent) : Settings :=
  match e with
  | FEdit k v => {| st_form := edit_field k v (st_form st); st_server := st_server st |}
  | FSave => match sf_saving (st_form st) with
             | [] => {| st_form := save_form (st_form st); st_server := st_server st |}
             | _ => st
             end
  | FAnswered a => answered a st
  | FRefetched => refetched st
  end.

Definition settings_events (st : Settings) (es : list SettingsEvent) : Settings := fold_left settings_event es st.

Definition open_settings (server : Options) : Settings :=
  {| st_form := reset_form server []; st_server := server |}.
End form.
Arguments SettingsForm : clear implicits.
Arguments Settings : clear implicits.
Arguments SettingsEvent : clear implicits.
