(* ===== verification/RatioSettingsTheorems.v ===== *)
(** * Properties of saving the ratios

    What a save writes, that it is shown and not written again, what a rejected update
    costs, and that the table of groups keeps its rows through a save. *)
From Stdlib Require Import NArith ZArith.
From stdpp Require Import list.
From S2P Require Import Prelude JsString JsNumber Json JsArray JsonRoundtrip JsonIndent JsRecord PricingSettings PricingSettingsTheorems ChannelForm GroupRatios GroupRatioTheorems RatioSync RatioSettings.

(** ** Texts *)

(** A text whose value is written and read back as such. *)
Definition text_ok (s : jsstr) : Prop := ∀ j, JSON_parse (trim s) = Some j → wf_json j = true.

(** A text as the server stores it. *)
Definition stored_ok (s : jsstr) : Prop := trim s = s ∧ text_ok s.

Lemma stringify_nonempty j : wf_json j = true → nonempty (JSON_stringify j) = true.
Proof. intros Hw%stringify_length. destruct (JSON_stringify j); [cbn in Hw; lia|done]. Qed.

Lemma indent_nonempty j : wf_json j = true → nonempty (JSON_stringify_2 j) = true.
Proof. intros Hw%(indent_length []). unfold JSON_stringify_2. destruct (stringify_indent [] j); [cbn in Hw; lia|done]. Qed.

(** An indented text is trimmed. *)
Lemma indent_text_trimmed j : wf_json j = true → trim (JSON_stringify_2 j) = JSON_stringify_2 j.
Proof.
  intros Hw. destruct j; try (by apply trim_trimmed, (json_text_trimmed _ Hw)).
  - apply array_trimmed.
  - apply indented_trimmed.
Qed.

Lemma normalize_parsed s j : JSON_parse (trim s) = Some j → nonempty (trim s) = true → normalizeJsonString s = JSON_stringify j.
Proof. intros Hp Hn. unfold normalizeJsonString. by rewrite Hn, Hp. Qed.

Lemma normalize_stored s : text_ok s → stored_ok (normalizeJsonString s).
Proof.
  intros Hok. unfold normalizeJsonString. destruct (nonempty (trim s)) eqn:En.
  - destruct (JSON_parse (trim s)) as [j|] eqn:Ep.
    + pose proof (Hok _ Ep) as Hw. pose proof (trim_trimmed _ (json_text_trimmed j Hw)) as Ht.
      split; [done|]. intros j'. rewrite Ht, JSON_parse_stringify by done. by intros [= <-].
    + split; [apply trim_idem|]. intros j. rewrite trim_idem, Ep. done.
  - split; [done|]. by intros j.
Qed.

Lemma normalized_again s : text_ok s → normalizeJsonString (normalizeJsonString s) = normalizeJsonString s.
Proof.
  intros Hok. unfold normalizeJsonString at 2 3. destruct (nonempty (trim s)) eqn:En; [|done].
  destruct (JSON_parse (trim s)) as [j|] eqn:Ep.
  - pose proof (Hok _ Ep) as Hw. pose proof (trim_trimmed _ (json_text_trimmed j Hw)) as Ht.
    apply normalize_parsed; rewrite Ht; [by apply JSON_parse_stringify|by apply stringify_nonempty].
  - unfold normalizeJsonString. by rewrite trim_idem, En, Ep.
Qed.

Lemma normalize_format s : stored_ok s → normalizeJsonString (formatJsonForTextarea s) = normalizeJsonString s.
Proof.
  intros [Ht Hok]. unfold text_ok in Hok. rewrite Ht in Hok. unfold formatJsonForTextarea. rewrite Ht.
  destruct (nonempty s) eqn:En; [|by destruct s]. destruct (JSON_parse s) as [j|] eqn:Ep; [|done].
  pose proof (Hok _ eq_refl) as Hw. pose proof (indent_text_trimmed j Hw) as Ht2.
  rewrite (normalize_parsed (JSON_stringify_2 j) j), (normalize_parsed s j); rewrite ?Ht, ?Ht2; try done.
  - by apply JSON_parse_stringify_2.
  - by apply indent_nonempty.
Qed.

Definition setting_ok (v : setting) : Prop := match v with SText s => text_ok s | SBool _ => True end.
Definition setting_stored (v : setting) : Prop := match v with SText s => stored_ok s | SBool _ => True end.

Lemma norm_stored v : setting_ok v → setting_stored (normalize_setting v).
Proof. destruct v; [apply normalize_stored|done]. Qed.

Lemma norm_idem v : setting_ok v → normalize_setting (normalize_setting v) = normalize_setting v.
Proof. destruct v; [|done]. intros H. cbn. by rewrite normalized_again. Qed.

Lemma norm_format v : setting_stored v → normalize_setting (format_setting v) = normalize_setting v.
Proof. destruct v; [|done]. intros H. cbn. by rewrite normalize_format. Qed.

(** ** A save that is stored *)

Lemma filterb_nil {A} (f : A → bool) (l : list A) : (∀ x, x ∈ l → f x = false) → List.filter f l = [].
Proof.
  induction l as [|x l IH]; intros Hf; [done|]. cbn [List.filter].
  rewrite Hf by left. apply IH. intros y Hy. apply Hf. by right.
Qed.

Section save.
Context {K : Type} `{FormFields K}.
Implicit Types (server : jsstr → setting) (st : Settings K).

(** The server after all updates of a list. *)
Definition drain (updates : list (K * setting)) server : jsstr → setting :=
  fold_left (λ server '(k, v), store k v server) updates server.

Definition settling (e : SettingsEvent K) : bool :=
  match e with FAnswered Accepted | FRefetched => true | _ => false end.

Lemma drain_constant es st name :
  forallb settling es = true →
  drain (sf_saving (st_form (settings_events st es))) (st_server (settings_events st es)) name
  = drain (sf_saving (st_form st)) (st_server st) name.
Proof.
  revert st. induction es as [|e es IH]; intros st; cbn [settings_events fold_left forallb]; [done|].
  intros [He Hes]%andb_prop. unfold settings_events in IH. rewrite IH by done.
  destruct e as [| |[]|]; try done; cbn [settings_event]; unfold answered.
  destruct (sf_saving (st_form st)) as [|[k v] rest] eqn:Es; [by rewrite Es|done].
Qed.

Lemma drain_other updates server name :
  (∀ k, k ∈ map fst updates → api_key k ≠ name) → drain updates server name = server name.
Proof.
  unfold drain. revert server. induction updates as [|[k v] updates IH]; intros server Hn; [done|].
  cbn [fold_left]. rewrite IH by (intros k' Hk'; apply Hn; by right). unfold store.
  apply set_key_ne. intros E. apply (Hn k); [left|done].
Qed.

Lemma drain_key updates server k v :
  NoDup (map fst updates) → (k, v) ∈ updates → drain updates server (api_key k) = v.
Proof.
  unfold drain. revert server. induction updates as [|[k0 v0] updates IH]; intros server Hd Hin; [inversion Hin|].
  cbn [map fst] in Hd. apply list.NoDup_cons in Hd as [Hn Hd]. cbn [fold_left].
  apply elem_of_cons in Hin as [[= -> ->]|Hin]; [|by apply IH].
  fold (drain updates (store k0 v0 server)). rewrite drain_other.
  - unfold store. apply set_key_eq.
  - intros k' Hk' E. apply api_key_inj in E. by subst.
Qed.

Lemma save_updates_keys form : NoDup (map fst (save_updates form)).
Proof.
  unfold save_updates. rewrite map_map, map_id. apply NoDup_filterb, form_keys_nodup.
Qed.

(** C20: a save that the server accepts writes what was changed.  Of a form that was filled
    from the server, whose texts are valid and hold JSON values that their texts give
    back, and of which every update is accepted ([settling]; the form may be filled again
    in between), every option whose JSON value the administrator changed is stored in
    compact form, and no other option is touched.  Once the options are fetched the form
    shows what is stored, and saving again writes nothing.  An update that fails is not
    covered: it may cost the changes after it ([failed_save_loses_edits]). *)
Theorem save_stores_changes st es :
  sf_saving (st_form st) = [] → form_valid (st_form st) = true →
  (∀ k, sf_defaults (st_form st) k = normalize_setting (st_server st (api_key k))) →
  (∀ k, setting_ok (sf_values (st_form st) k) ∧ setting_stored (st_server st (api_key k))) →
  forallb settling es = true →
  let st' := settings_events (settings_event st FSave) es in
  sf_saving (st_form st') = [] →
  (∀ k, st_server st' (api_key k)
     = if decide (normalize_setting (sf_values (st_form st) k) = normalize_setting (st_server st (api_key k)))
       then st_server st (api_key k) else normalize_setting (sf_values (st_form st) k))
  ∧ (∀ name, (∀ k, api_key k ≠ name) → st_server st' name = st_server st name)
  ∧ (∀ k, sf_values (st_form (refetched st')) k = format_setting (st_server st' (api_key k)))
  ∧ save_updates (st_form (refetched st')) = [].
Proof.
  intros Hs Hv Hdef Hok Hes st' Hdone.
  assert (Hsrv : ∀ name, st_server st' name = drain (save_updates (st_form st)) (st_server st) name).
  { intros name. pose proof (drain_constant es (settings_event st FSave) name Hes) as Hd. fold st' in Hd.
    rewrite Hdone in Hd. cbn [drain fold_left] in Hd. rewrite Hd.
    cbn [settings_event]. rewrite Hs. unfold save_form. rewrite Hv. done. }
  assert (Hkey : ∀ k, st_server st' (api_key k)
     = if decide (normalize_setting (sf_values (st_form st) k) = normalize_setting (st_server st (api_key k)))
       then st_server st (api_key k) else normalize_setting (sf_values (st_form st) k)).
  { intros k. rewrite Hsrv. destruct (decide _) as [E|E].
    - apply drain_other. intros k' Hk' Ek%api_key_inj. subst k'. unfold save_updates in Hk'.
      rewrite map_map, map_id in Hk'. apply elem_of_filterb in Hk' as [_ Hk'].
      rewrite Hdef, bool_decide_true in Hk' by done. done.
    - apply drain_key; [apply save_updates_keys|]. unfold save_updates. apply elem_of_mapb. exists k.
      split; [done|]. apply elem_of_filterb. split; [apply form_keys_all|]. by rewrite Hdef, bool_decide_false. }
  split_and!; [done| |done|].
  - intros name Hn. rewrite Hsrv. apply drain_other. intros k _. apply Hn.
  - unfold save_updates. replace (List.filter _ form_keys) with (@nil K); [done|]. symmetry.
    apply filterb_nil. intros k _. cbn [refetched st_form reset_form sf_values sf_defaults].
    rewrite bool_decide_true; [done|]. apply norm_format. rewrite Hkey.
    destruct (decide _); [apply Hok|]. by apply norm_stored, Hok.
Qed.
End save.

(** The administrator turns the group ratios into [{vip: 2}] and turns the switch on. *)
Definition sample_server (name : jsstr) : setting :=
  if str_eqb name "DefaultUseAutoGroup" then SBool false else SText "{}".

Definition sample_edited : Settings GroupKey :=
  settings_events (open_settings sample_server)
    [FEdit GGroupRatio (SText "{ \qvip\q: 2 }"); FEdit GAutoGroups (SText []); FEdit GDefaultUseAutoGroup (SBool true)].

Lemma sample_edited_ok (k : GroupKey) :
  setting_ok (sf_values (st_form sample_edited) k) ∧ setting_stored (st_server sample_edited (api_key k)).
Proof.
  assert (H : ∀ s : jsstr, match JSON_parse (trim s) with Some j => wf_json j | None => true end = true → text_ok s).
  { intros s Hs j Hj. by rewrite Hj in Hs. }
  destruct k; split; try exact I; try (split; [reflexivity|]); apply H; reflexivity.
Qed.

Lemma save_stores_changes_witness :
  let st' := settings_events (settings_event sample_edited FSave)
               [FAnswered Accepted; FRefetched; FAnswered Accepted; FAnswered Accepted] in
  st_server st' "GroupRatio" = SText "{\qvip\q:2}" ∧ st_server st' "ModelPrice" = SText "{}"
  ∧ save_updates (st_form (refetched st')) = [].
Proof.
  destruct (save_stores_changes sample_edited [FAnswered Accepted; FRefetched; FAnswered Accepted; FAnswered Accepted]
    ltac:(reflexivity) ltac:(reflexivity) ltac:(intros []; reflexivity) sample_edited_ok ltac:(reflexivity)
    ltac:(reflexivity)) as (H1 & H2 & _ & H4).
  split; [exact (H1 GGroupRatio)|]. split; [|exact H4].
  rewrite (H2 "ModelPrice" ltac:(intros []; done)). reflexivity.
Defined.

(** An update that fails costs the changes after it.  When the first of the
    changed options is stored and the options are fetched before the next update is
    rejected, the save ends, the changes that were not written are no longer in the
    form, which shows the old values, and saving again writes nothing. *)
Theorem failed_save_loses_edits {K} `{FormFields K} (st : Settings K) k v k2 v2 rest :
  sf_saving (st_form st) = (k, v) :: (k2, v2) :: rest → NoDup (map fst ((k, v) :: (k2, v2) :: rest)) →
  setting_stored v → (∀ k', setting_stored (st_server st (api_key k'))) →
  let st' := settings_events st [FAnswered Accepted; FRefetched; FAnswered (Failed false)] in
  sf_saving (st_form st') = [] ∧ save_updates (st_form st') = []
  ∧ (∀ k' v', (k', v') ∈ (k2, v2) :: rest →
       st_server st' (api_key k') = st_server st (api_key k')
       ∧ sf_values (st_form st') k' = format_setting (st_server st (api_key k'))).
Proof.
  intros Hs Hd Hv Hst. cbn [settings_events fold_left settings_event].
  assert (Ha : answered Accepted st
    = {| st_form := {| sf_defaults := sf_defaults (st_form st); sf_values := sf_values (st_form st);
                       sf_saving := (k2, v2) :: rest |}; st_server := store k v (st_server st) |})
    by (unfold answered; by rewrite Hs).
  rewrite Ha. unfold answered.
  cbn [refetched st_form reset_form sf_saving sf_defaults sf_values st_server].
  assert (Hstored : ∀ k', setting_stored (store k v (st_server st) (api_key k'))).
  { intros k'. unfold store. destruct (decide (api_key k' = api_key k)) as [->|Hne].
    - by rewrite set_key_eq.
    - by rewrite set_key_ne. }
  split_and!; [done| |].
  - unfold save_updates. cbn [sf_values sf_defaults]. rewrite filterb_nil; [done|]. intros k' _.
    by rewrite bool_decide_true by apply norm_format, Hstored.
  - intros k' v' Hin. cbn [map fst] in Hd. apply list.NoDup_cons in Hd as [Hn _].
    unfold store. rewrite set_key_ne; [done|]. intros ->%api_key_inj. apply Hn.
    change (k ∈ map fst ((k2, v2) :: rest)). apply elem_of_mapb. by exists (k, v').
Qed.

Lemma failed_save_loses_edits_witness :
  let st' := settings_events (settings_event sample_edited FSave)
               [FAnswered Accepted; FRefetched; FAnswered (Failed false)] in
  sf_values (st_form sample_edited) GDefaultUseAutoGroup = SBool true
  ∧ sf_values (st_form st') GDefaultUseAutoGroup = SBool false ∧ save_updates (st_form st') = [].
Proof.
  assert (Hs : sf_saving (st_form (settings_event sample_edited FSave))
    = [(GGroupRatio, SText "{\qvip\q:2}"); (GAutoGroups, SText []); (GDefaultUseAutoGroup, SBool true)])
    by (vm_compute; reflexivity).
  destruct (failed_save_loses_edits (settings_event sample_edited FSave) GGroupRatio (SText "{\qvip\q:2}")
    GAutoGroups (SText []) [(GDefaultUseAutoGroup, SBool true)] Hs
    ltac:(apply (bool_decide_unpack _); reflexivity)
    (norm_stored _ (proj1 (sample_edited_ok GGroupRatio))) (λ k, proj2 (sample_edited_ok k))) as (_ & H2 & H3).
  split; [reflexivity|]. split; [|exact H2].
  destruct (H3 GDefaultUseAutoGroup (SBool true) ltac:(apply (bool_decide_unpack _); reflexivity)) as [_ ->].
  reflexivity.
Defined.

(** ** The table of groups through a save *)

(** The text the table writes is the one the form shows once it is stored. *)
Lemma written_text_kept kvs :
  wf_fields kvs = true → formatJsonForTextarea (normalizeJsonString (write_map kvs)) = write_map kvs.
Proof.
  intros Hw. assert (Hj : wf_json (JObj kvs) = true) by done. unfold write_map.
  pose proof (indent_text_trimmed _ Hj) as Ht. pose proof (trim_trimmed _ (json_text_trimmed _ Hj)) as Hc.
  rewrite (normalize_parsed _ (JObj kvs)) by (rewrite Ht; by apply JSON_parse_stringify_2 || by apply indent_nonempty).
  unfold formatJsonForTextarea. by rewrite Hc, stringify_nonempty, JSON_parse_stringify.
Qed.

(** The rows survive a save.  Whatever rows the table of groups holds, blank and
    repeated names included, once its two options are stored and fetched the form shows
    the texts the table wrote, and the table keeps its rows. *)
Theorem save_keeps_table (tb : PricingTable) (st : Settings GroupKey) :
  serializeGroupPricingRows (pt_rows tb) = (pt_groupRatio tb, pt_userUsableGroups tb) →
  wf_fields (serialize_maps (pt_rows tb)).1 = true → wf_fields (serialize_maps (pt_rows tb)).2 = true →
  st_server st "GroupRatio" = normalize_setting (SText (pt_groupRatio tb)) →
  st_server st "UserUsableGroups" = normalize_setting (SText (pt_userUsableGroups tb)) →
  ∃ g u, sf_values (st_form (refetched st)) GGroupRatio = SText g
  ∧ sf_values (st_form (refetched st)) GUserUsableGroups = SText u ∧ texts_changed g u tb = Some tb.
Proof.
  intros Hser Hg Hu Eg Eu. exists (pt_groupRatio tb), (pt_userUsableGroups tb).
  cbn [refetched st_form reset_form sf_values api_key group_fields group_api_key]. rewrite Eg, Eu.
  cbn [normalize_setting format_setting]. destruct tb as [rows g u n]. cbn [pt_rows pt_groupRatio pt_userUsableGroups] in *.
  unfold texts_changed, table_effect, groupPricingSignature. cbn [pt_rows pt_groupRatio pt_userUsableGroups].
  rewrite Hser, str_eqb_refl. unfold serializeGroupPricingRows in Hser.
  destruct (serialize_maps rows) as [gm um]. cbn [fst snd] in *. injection Hser as <- <-.
  by rewrite !written_text_kept.
Qed.

(** A table with a row that has no name yet. *)
Definition sample_table : PricingTable :=
  let rows := sample_rows ++ [new_row "gpr_11" []] in
  {| pt_rows := rows; pt_groupRatio := (serializeGroupPricingRows rows).1;
     pt_userUsableGroups := (serializeGroupPricingRows rows).2; pt_counter := 11 |}.

Lemma save_keeps_table_witness :
  ∃ g u, texts_changed g u sample_table = Some sample_table ∧ length (pt_rows sample_table) = 3.
Proof.
  destruct (save_keeps_table sample_table
    (open_settings (λ name, normalize_setting (SText (if str_eqb name "GroupRatio" then pt_groupRatio sample_table
                                                      else pt_userUsableGroups sample_table))))
    ltac:(vm_compute; reflexivity) ltac:(vm_compute; reflexivity) ltac:(vm_compute; reflexivity)
    ltac:(reflexivity) ltac:(reflexivity)) as (g & u & _ & _ & Ht).
  exact (ex_intro _ g (ex_intro _ u (conj Ht eq_refl))).
Defined.
