(* ===== verification/ToolPrices.v ===== *)
(** * Prices of tools

    [features/system-settings/models/tool-price-settings.tsx]: the table of prices per
    tool and its JSON text, kept in step, and what a save stores.  Opening the
    component and a new stored value both run the effect on [defaultValue]. *)
From Stdlib Require Import NArith ZArith.
From stdpp Require Import list.
From S2P Require Import Prelude JsString JsNumber Json JsArray JsonRoundtrip JsonIndent JsRecord PricingSettings PricingSettingsTheorems ChannelForm GroupRatios GroupRatioTheorems.

Definition DEFAULT_PRICES : fields :=
  [("web_search", JNum (num_of_Z 10)); ("web_search_preview", JNum (num_of_Z 10));
   ("web_search_preview:gpt-4o*", JNum (num_of_Z 25)); ("web_search_preview:gpt-4.1*", JNum (num_of_Z 25));
   ("web_search_preview:gpt-4o-mini*", JNum (num_of_Z 25)); ("web_search_preview:gpt-4.1-mini*", JNum (num_of_Z 25));
   ("file_search", JNum (num_of_decimal false 25 (-1))); ("google_search", JNum (num_of_Z 14))].

Record ToolPriceRow : Type := { tp_id : nat; tp_key : jsstr; tp_price : number }.

Definition price_row (prices : fields) (row : ToolPriceRow) : fields :=
  let k := trim (tp_key row) in
  if nonempty k then obj_set k (JNum (num_or (tp_price row) zero)) prices else prices.

Definition rowsToObject (rows : list ToolPriceRow) : fields := fold_left price_row rows [].

(** [Object.entries(prices).map] with the index from [i] on. *)
Fixpoint number_rows (i : nat) (kvs : fields) : list ToolPriceRow :=
  match kvs with
  | [] => []
  | (key, price) :: rest =>
      {| tp_id := i + 1; tp_key := key; tp_price := num_or (json_toNumber price) zero |} :: number_rows (S i) rest
  end.

Definition objectToRows (prices : fields) : list ToolPriceRow := number_rows 0 (entries prices).

Definition parseInitialPrices (rawValue : jsstr) : fields :=
  if nonempty rawValue then
    match JSON_parse rawValue with
    | Some (JObj kvs) => if nonempty (object_keys kvs) then kvs else DEFAULT_PRICES
    | _ => DEFAULT_PRICES
    end
  else DEFAULT_PRICES.

Record ToolPriceState : Type := {
  ts_jsonMode : bool;
  ts_rows : list ToolPriceRow;
  ts_jsonText : jsstr;
  ts_jsonError : bool;
  ts_nextRowId : nat
}.

(** The rows and the text of [prices], as in the effect and in [resetToDefault]. *)
Definition show_prices (prices : fields) (mode : bool) : ToolPriceState :=
  let initialRows := objectToRows prices in
  {| ts_jsonMode := mode; ts_rows := initialRows; ts_jsonText := JSON_stringify_2 (JObj prices);
     ts_jsonError := false; ts_nextRowId := length initialRows + 1 |}.

(** The first render with the effect that follows. *)
Definition open_prices (defaultValue : jsstr) : ToolPriceState := show_prices (parseInitialPrices defaultValue) false.

Definition default_changed (defaultValue : jsstr) (st : ToolPriceState) : ToolPriceState :=
  show_prices (parseInitialPrices defaultValue) (ts_jsonMode st).

Definition syncFromRows (nextRows : list ToolPriceRow) (nextRowId : nat) (st : ToolPriceState) : ToolPriceState :=
  {| ts_jsonMode := ts_jsonMode st; ts_rows := nextRows; ts_jsonText := JSON_stringify_2 (JObj (rowsToObject nextRows));
     ts_jsonError := false; ts_nextRowId := nextRowId |}.

Definition handleJsonChange (text : jsstr) (st : ToolPriceState) : ToolPriceState :=
  match JSON_parse text with
  | Some (JObj kvs) =>
      let nextRows := objectToRows kvs in
      {| ts_jsonMode := ts_jsonMode st; ts_rows := nextRows; ts_jsonText := text; ts_jsonError := false;
         ts_nextRowId := length nextRows + 1 |}
  | _ => {| ts_jsonMode := ts_jsonMode st; ts_rows := ts_rows st; ts_jsonText := text; ts_jsonError := true;
            ts_nextRowId := ts_nextRowId st |}
  end.

(** The inputs of a row; the price is [Number(e.target.value) || 0]. *)
Inductive PriceEdit : Type := EKey (text : jsstr) | EPrice (text : jsstr).

Definition edit_price_row (e : PriceEdit) (r : ToolPriceRow) : ToolPriceRow :=
  match e with
  | EKey text => {| tp_id := tp_id r; tp_key := text; tp_price := tp_price r |}
  | EPrice text => {| tp_id := tp_id r; tp_key := tp_key r; tp_price := num_or (Number_of_string text) zero |}
  end.

Definition update_price (id : nat) (e : PriceEdit) (st : ToolPriceState) : ToolPriceState :=
  syncFromRows (map (λ r, if tp_id r =? id then edit_price_row e r else r) (ts_rows st)) (ts_nextRowId st) st.

Definition add_price (st : ToolPriceState) : ToolPriceState :=
  let newRow := {| tp_id := ts_nextRowId st; tp_key := []; tp_price := zero |} in
  syncFromRows (ts_rows st ++ [newRow]) (ts_nextRowId st + 1) st.

Definition remove_price (id : nat) (st : ToolPriceState) : ToolPriceState :=
  syncFromRows (List.filter (λ r, negb (tp_id r =? id)) (ts_rows st)) (ts_nextRowId st) st.

Definition resetToDefault (st : ToolPriceState) : ToolPriceState := show_prices DEFAULT_PRICES (ts_jsonMode st).

Definition toggleEditMode (st : ToolPriceState) : ToolPriceState :=
  {| ts_jsonMode := negb (ts_jsonMode st); ts_rows := ts_rows st; ts_jsonText := ts_jsonText st;
     ts_jsonError := ts_jsonError st; ts_nextRowId := ts_nextRowId st |}.

(** The text a save stores, none while the JSON shown has an error. *)
Definition save_prices (st : ToolPriceState) : option jsstr :=
  if ts_jsonMode st && ts_jsonError st then None else Some (JSON_stringify (JObj (rowsToObject (ts_rows st)))).

Inductive PriceEvent : Type :=
| PDefault (defaultValue : jsstr)
| PUpdate (id : nat) (e : PriceEdit)
| PAdd
| PRemove (id : nat)
| PJson (text : jsstr)
| PReset
| PToggle.

Definition price_event (st : ToolPriceState) (e : PriceEvent) : ToolPriceState :=
  match e with
  | PDefault value => default_changed value st
  | PUpdate id e => update_price id e st
  | PAdd => add_price st
  | PRemove id => remove_price id st
  | PJson text => handleJsonChange text st
  | PReset => resetToDefault st
  | PToggle => toggleEditMode st
  end.

Definition price_events (st : ToolPriceState) (es : list PriceEvent) : ToolPriceState := fold_left price_event es st.

(** ** The rows *)

Lemma number_rows_ids i kvs : map tp_id (number_rows i kvs) = seq (S i) (length kvs).
Proof.
  revert i. induction kvs as [|[k v] kvs IH]; intros i; [done|].
  cbn [number_rows map tp_id length seq]. rewrite IH. f_equal. lia.
Qed.

(** No two rows have the same identifier, and the next one is not in use. *)
Definition ids_ok (st : ToolPriceState) : Prop :=
  NoDup (map tp_id (ts_rows st)) ∧ (∀ r, r ∈ ts_rows st → tp_id r < ts_nextRowId st).

Lemma numbered_ok mode text kvs error :
  ids_ok {| ts_jsonMode := mode; ts_rows := objectToRows kvs; ts_jsonText := text; ts_jsonError := error;
            ts_nextRowId := length (objectToRows kvs) + 1 |}.
Proof.
  unfold ids_ok. cbn [ts_rows ts_nextRowId]. unfold objectToRows. rewrite number_rows_ids.
  split; [apply NoDup_ListNoDup, seq_NoDup|]. intros r Hr.
  assert (H : tp_id r ∈ map tp_id (number_rows 0 (entries kvs))) by (apply elem_of_mapb; by exists r).
  rewrite number_rows_ids in H. apply elem_of_seq in H.
  rewrite <- (length_map tp_id), number_rows_ids, length_seq. lia.
Qed.

Lemma price_update_ids id e rows : map tp_id (map (λ r, if tp_id r =? id then edit_price_row e r else r) rows) = map tp_id rows.
Proof. rewrite map_map. apply map_ext. intros r. destruct (tp_id r =? id), e; done. Qed.

Lemma price_event_ids st e : ids_ok st → ids_ok (price_event st e).
Proof.
  intros [Hd Hn]. destruct e as [value|id e| |id|text| |]; cbn [price_event]; try apply numbered_ok.
  - split; unfold update_price; cbn [syncFromRows ts_rows ts_nextRowId]; [by rewrite price_update_ids|].
    intros r (r0 & -> & Hr)%elem_of_mapb. specialize (Hn _ Hr). by destruct (tp_id r0 =? id), e.
  - split; unfold add_price; cbn [syncFromRows ts_rows ts_nextRowId].
    + rewrite map_app. apply list.NoDup_app. split_and!; [done| |by repeat constructor; inversion 1].
      intros x (r & -> & Hr)%elem_of_mapb E%list_elem_of_singleton. cbn in E. specialize (Hn _ Hr). lia.
    + intros r [Hr|Hr]%elem_of_app; [specialize (Hn _ Hr); lia|].
      apply list_elem_of_singleton in Hr as ->. cbn. lia.
  - split; unfold remove_price; cbn [syncFromRows ts_rows ts_nextRowId].
    + eapply sublist_NoDup; [exact Hd|]. apply map_sublist, filterb_sublist.
    + intros r [Hr _]%elem_of_filterb. by apply Hn.
  - unfold handleJsonChange. destruct (JSON_parse text) as [[]|]; try done. apply numbered_ok.
  - done.
Qed.

(** ** The prices the rows say *)

Definition price_field (kv : jsstr * json) : Prop :=
  trim kv.1 = kv.1 ∧ nonempty kv.1 = true ∧ ∃ x, kv.2 = JNum (num_or x zero).

Definition price_fields (kvs : fields) : Prop := NoDup (map fst kvs) ∧ (∀ kv, kv ∈ kvs → price_field kv).

Lemma obj_set_elem kv k v kvs : kv ∈ obj_set k v kvs → kv = (k, v) ∨ kv ∈ kvs.
Proof.
  induction kvs as [|[k0 v0] kvs IH]; cbn [obj_set].
  - intros ->%list_elem_of_singleton. by left.
  - destruct (str_eqb_spec k k0) as [->|?]; intros [->|H]%elem_of_cons; [by left|right; by right|right; left|].
    destruct (IH H) as [?|?]; [by left|right; by right].
Qed.

Lemma price_row_fields kvs r : price_fields kvs → price_fields (price_row kvs r).
Proof.
  intros [Hd Hf]. unfold price_row. destruct (nonempty (trim (tp_key r))) eqn:En; [|done]. split.
  - rewrite obj_set_rec. by apply distinct_set.
  - intros kv [->|Hkv]%obj_set_elem; [|by apply Hf]. split; [apply trim_idem|]. split; [done|]. by eexists.
Qed.

Lemma rowsToObject_fields rows : price_fields (rowsToObject rows).
Proof.
  unfold rowsToObject. assert (H : price_fields []) by (split; [constructor|]; intros kv Hkv; inversion Hkv).
  revert H. generalize (@nil (jsstr * json)). induction rows as [|r rows IH]; intros kvs H; [done|].
  cbn [fold_left]. by apply IH, price_row_fields.
Qed.

Lemma number_rows_object i pre kvs :
  NoDup (map fst (pre ++ kvs)) → (∀ kv, kv ∈ kvs → price_field kv) →
  fold_left price_row (number_rows i kvs) pre = pre ++ kvs.
Proof.
  revert i pre. induction kvs as [|[k v] kvs IH]; intros i pre Hd Hf; cbn [number_rows fold_left].
  { by rewrite app_nil_r. }
  destruct (Hf (k, v) ltac:(left)) as (Ht & Hn & x & Ev). cbn [fst snd] in *. subst v.
  unfold price_row at 2. cbn [tp_key tp_price json_toNumber]. rewrite Ht, Hn, !num_or_idem.
  assert (Hk : k ∉ map fst pre).
  { rewrite map_app in Hd. apply list.NoDup_app in Hd as (_ & Hdis & _). intros Hin. apply (Hdis _ Hin). left. }
  rewrite obj_set_new by done. rewrite IH.
  - by rewrite <- app_assoc.
  - by rewrite <- app_assoc.
  - intros kv Hkv. apply Hf. by right.
Qed.

(** Prices that are saved are read as they are. *)
Lemma prices_reread kvs :
  price_fields kvs → wf_fields kvs = true → rowsToObject (objectToRows kvs) = kvs.
Proof.
  intros [Hd Hf] Hw. unfold objectToRows. rewrite entries_id by (by apply wf_no_index).
  by apply (number_rows_object 0 []).
Qed.

Lemma prices_indent_parse kvs : wf_fields kvs = true → JSON_parse (JSON_stringify_2 (JObj kvs)) = Some (JObj kvs).
Proof. intros Hw. by apply JSON_parse_stringify_2. Qed.

Lemma default_prices_wf : wf_fields DEFAULT_PRICES = true.
Proof. vm_compute. reflexivity. Qed.

(** A text whose value is written and read back as such. *)
Definition readable (s : jsstr) : Prop := ∀ j, JSON_parse s = Some j → wf_json j = true.

Lemma initial_prices_wf s : readable s → wf_fields (parseInitialPrices s) = true.
Proof.
  intros Hr. unfold parseInitialPrices. destruct (nonempty s); [|exact default_prices_wf].
  destruct (JSON_parse s) as [[]|] eqn:E; try exact default_prices_wf.
  destruct (nonempty (object_keys _)); [by apply Hr|exact default_prices_wf].
Qed.

(** The text, when it has no error, and the rows say the same prices. *)
Definition in_step (st : ToolPriceState) : Prop :=
  ts_jsonError st = true
  ∨ ∃ kvs, JSON_parse (ts_jsonText st) = Some (JObj kvs) ∧ rowsToObject (objectToRows kvs) = rowsToObject (ts_rows st).

Lemma show_in_step kvs mode : wf_fields kvs = true → in_step (show_prices kvs mode).
Proof. intros Hw. right. exists kvs. split; [by apply prices_indent_parse|done]. Qed.

Lemma sync_in_step rows n st : wf_fields (rowsToObject rows) = true → in_step (syncFromRows rows n st).
Proof.
  intros Hw. right. exists (rowsToObject rows). split; [by apply prices_indent_parse|].
  cbn [syncFromRows ts_rows]. apply prices_reread; [apply rowsToObject_fields|done].
Qed.

(** What each event must be given: a stored text that can be read and written, and
    rows whose prices are finite and whose keys are no array indices. *)
Definition event_readable (st : ToolPriceState) (e : PriceEvent) : Prop :=
  match e with
  | PDefault value => readable value
  | PUpdate _ _ | PAdd | PRemove _ => wf_fields (rowsToObject (ts_rows (price_event st e))) = true
  | _ => True
  end.

Lemma price_event_in_step st e : event_readable st e → in_step st → in_step (price_event st e).
Proof.
  intros He Hs. destruct e as [value|id e| |id|text| |]; cbn [price_event event_readable] in *.
  - by apply show_in_step, initial_prices_wf.
  - by apply sync_in_step.
  - by apply sync_in_step.
  - by apply sync_in_step.
  - unfold handleJsonChange. destruct (JSON_parse text) as [[| | | | |kvs]|] eqn:E; try by left.
    right. by exists kvs.
  - apply show_in_step, default_prices_wf.
  - done.
Qed.

Fixpoint events_readable (st : ToolPriceState) (es : list PriceEvent) : Prop :=
  match es with
  | [] => True
  | e :: es => event_readable st e ∧ events_readable (price_event st e) es
  end.

(** The table and the text stay in step.  From a stored text on, through any
    edits of rows, of the text, resets, changes of mode and new stored texts, the rows
    have distinct identifiers, and a text without an error says the prices of the rows.
    So a save is refused only while the text shown has an error, and else it stores the
    prices that the text shown says. *)
Theorem prices_in_step value es :
  readable value → events_readable (open_prices value) es →
  let st := price_events (open_prices value) es in
  NoDup (map tp_id (ts_rows st))
  ∧ match save_prices st with
    | None => ts_jsonMode st = true ∧ ts_jsonError st = true
    | Some text =>
        text = JSON_stringify (JObj (rowsToObject (ts_rows st)))
        ∧ (ts_jsonError st = false → ∃ kvs, JSON_parse (ts_jsonText st) = Some (JObj kvs)
           ∧ text = JSON_stringify (JObj (rowsToObject (objectToRows kvs))))
    end.
Proof.
  intros Hr He st.
  assert (H : ids_ok st ∧ in_step st).
  { assert (H0 : ids_ok (open_prices value) ∧ in_step (open_prices value))
      by (split; [apply numbered_ok|by apply show_in_step, initial_prices_wf]).
    unfold st. clear st. revert H0 He. generalize (open_prices value). induction es as [|e es IH]; intros st H0; [done|].
    cbn [events_readable price_events fold_left]. intros [He Hes]. apply IH; [|done].
    destruct H0 as [Hi Hs]. split; [by apply price_event_ids|by apply price_event_in_step]. }
  destruct H as [[Hd _] Hs]. split; [done|]. unfold save_prices.
  destruct (ts_jsonMode st && ts_jsonError st) eqn:E; [by apply andb_prop in E|].
  split; [done|]. intros Herr. destruct Hs as [Hs|(kvs & Hp & Ek)]; [congruence|].
  exists kvs. by rewrite Ek.
Qed.

Lemma prices_in_step_witness :
  let st := price_events (open_prices []) [PRemove 3; PAdd; PUpdate 9 (EKey " code "); PUpdate 9 (EPrice "0.5"); PToggle;
                                         PJson "{\qcode\q: \q0.5\q}"] in
  save_prices st = Some "{\qcode\q:0.5}" ∧ NoDup (map tp_id (ts_rows st)).
Proof.
  destruct (prices_in_step [] [PRemove 3; PAdd; PUpdate 9 (EKey " code "); PUpdate 9 (EPrice "0.5"); PToggle;
                               PJson "{\qcode\q: \q0.5\q}"]) as [H1 _].
  - intros j H. vm_compute in H. discriminate H.
  - vm_compute. repeat split.
  - split; [vm_compute; reflexivity|exact H1].
Defined.

(** Saved prices reopen.  Finite prices of at least one tool that are saved are
    shown again when the component is opened on the stored text, one row per tool in
    the order of the rows, and saving them again stores the same text. *)
Theorem saved_prices_reopen st text :
  save_prices st = Some text →
  wf_fields (rowsToObject (ts_rows st)) = true → nonempty (rowsToObject (ts_rows st)) = true →
  let st' := open_prices text in
  map (λ r, (tp_key r, JNum (tp_price r))) (ts_rows st') = rowsToObject (ts_rows st)
  ∧ save_prices st' = Some text.
Proof.
  unfold save_prices. destruct (ts_jsonMode st && ts_jsonError st); [done|]. intros <-%Some_inj Hw Hn.
  set (o := rowsToObject (ts_rows st)) in *. pose proof (rowsToObject_fields (ts_rows st) : price_fields o) as [Hd Hf].
  assert (Hp : parseInitialPrices (JSON_stringify (JObj o)) = o).
  { unfold parseInitialPrices. rewrite JSON_parse_stringify by exact Hw.
    assert (Hk : nonempty (object_keys o) = true) by (rewrite wf_keys by done; by destruct o).
    rewrite Hk. by destruct (nonempty _) eqn:E; [|pose proof (stringify_length (JObj o) Hw); destruct (JSON_stringify (JObj o)); cbn in *; [lia|]]. }
  unfold open_prices. rewrite Hp. cbn [show_prices ts_rows ts_jsonMode ts_jsonError andb]. split.
  - unfold objectToRows. rewrite entries_id by (by apply wf_no_index). generalize 0. clear Hp Hw Hn Hd.
    clearbody o. induction o as [|[k v] o IH]; intros i; [done|]. cbn [number_rows map tp_key tp_price].
    destruct (Hf (k, v) ltac:(left)) as (_ & _ & x & Ev). cbn [snd] in Ev. subst v. cbn [json_toNumber].
    rewrite num_or_idem, IH; [done|]. intros kv Hkv. apply Hf. by right.
  - by rewrite prices_reread.
Qed.

Lemma saved_prices_reopen_witness :
  let st := price_events (open_prices "{\qcode\q: 1}") [PAdd; PUpdate 2 (EKey "image "); PUpdate 2 (EPrice "40")] in
  save_prices (open_prices "{\qcode\q:1,\qimage\q:40}") = save_prices st.
Proof.
  destruct (saved_prices_reopen
    (price_events (open_prices "{\qcode\q: 1}") [PAdd; PUpdate 2 (EKey "image "); PUpdate 2 (EPrice "40")])
    "{\qcode\q:1,\qimage\q:40}") as [_ H]; [vm_compute; reflexivity..|].
  rewrite H. vm_compute. reflexivity.
Defined.

(** Prices that are emptied come back.  A save without any tool stores [{}], and
    opening the component on it shows the default prices, which the next save stores. *)
Theorem emptied_prices_restored st text :
  save_prices st = Some text → forallb (λ r, negb (nonempty (trim (tp_key r)))) (ts_rows st) = true →
  text = "{}" ∧ ts_rows (open_prices text) = objectToRows DEFAULT_PRICES
  ∧ save_prices (open_prices text) = Some (JSON_stringify (JObj DEFAULT_PRICES)).
Proof.
  unfold save_prices at 1. destruct (ts_jsonMode st && ts_jsonError st); [done|]. intros <-%Some_inj Hb.
  assert (Ho : rowsToObject (ts_rows st) = []).
  { unfold rowsToObject. induction (ts_rows st) as [|r rows IH]; [done|]. cbn [forallb] in Hb.
    apply andb_prop in Hb as [Hr Hb]. cbn [fold_left]. unfold price_row at 2.
    destruct (nonempty (trim (tp_key r))); [done|]. by apply IH. }
  rewrite Ho. split_and!; vm_compute; reflexivity.
Qed.

Lemma emptied_prices_restored_witness :
  let st := price_events (open_prices "{\qcode\q: 1}") [PRemove 1] in
  ts_rows st = [] ∧ length (ts_rows (open_prices "{}")) = 8.
Proof.
  destruct (emptied_prices_restored (price_events (open_prices "{\qcode\q: 1}") [PRemove 1]) "{}") as (_ & H & _);
    [vm_compute; reflexivity..|].
  split; [vm_compute; reflexivity|]. rewrite H. vm_compute. reflexivity.
Defined.
