(* ===== verification/NavConfig.v ===== *)
(** * Settings of the navigation

    [features/system-settings/maintenance/config.ts] with the two forms over it,
    [header-navigation-section.tsx] and [sidebar-modules-section.tsx]: the options
    [HeaderNavModules] and [SidebarModulesAdmin] as the administrator edits them.  The
    names of [Object.prototype] are outside the model, and so are the paths of
    [react-hook-form] for names with a dot. *)
From Stdlib Require Import NArith ZArith.
From stdpp Require Import list.
From S2P Require Import Prelude JsString JsNumber Json JsArray JsonRoundtrip JsRecord.

(** ** Values of any shape *)

Definition indexed (l : list json) : list (jsstr * json) :=
  map (λ '(i, v), (to_dec (N.of_nat i), v)) (combine (seq 0 (length l)) l).

(** The own properties of a value, as in a spread. *)
Definition own_fields (v : option json) : list (jsstr * json) :=
  match v with
  | Some (JObj kvs) => entries kvs
  | Some (JArr l) => indexed l
  | Some (JStr s) => indexed (map (λ c, JStr [c]) s)
  | _ => []
  end.

(** [Object.entries(v)]; [None] is the exception for [null]. *)
Definition json_entries (v : json) : option (list (jsstr * json)) :=
  match v with JNull => None | _ => Some (own_fields (Some v)) end.

(** [v.k] for a name that no array or text has. *)
Definition json_prop (k : jsstr) (v : json) : option json :=
  match v with JObj kvs => obj_get k kvs | _ => None end.

(** [s.trim().toLowerCase()], as far as the texts it is compared with tell: no other
    characters than the letters of ASCII become one of theirs. *)
Definition flag_text (s : jsstr) : jsstr :=
  map (λ c, if (65 <=? c)%N && (c <=? 90)%N then (c + 32)%N else c) (trim s).

Definition flag_of_text (s : jsstr) : option bool :=
  let normalized := flag_text s in
  if str_eqb normalized "true" || str_eqb normalized "1" then Some true
  else if str_eqb normalized "false" || str_eqb normalized "0" then Some false
  else None.

Definition num_is (z : Z) (n : number) : bool :=
  match num_to_Z n with Some i => (i =? z)%Z | None => false end.

(** ** [config.ts] *)

Record HeaderNavAccessConfig : Type := { na_enabled : bool; na_requireAuth : bool }.

#[export] Instance access_eq : EqDecision HeaderNavAccessConfig.
Proof. solve_decision. Defined.

Inductive NavValue : Type := NavFlag (b : bool) | NavAccess (a : HeaderNavAccessConfig).

Abbreviation HeaderNavModulesConfig := (record NavValue).
Abbreviation SidebarSectionConfig := (record bool).
Abbreviation SidebarModulesAdminConfig := (record SidebarSectionConfig).

Definition access_default : HeaderNavAccessConfig := {| na_enabled := true; na_requireAuth := false |}.

Definition HEADER_NAV_DEFAULT : HeaderNavModulesConfig :=
  [("home", NavFlag true); ("console", NavFlag true); ("pricing", NavAccess access_default);
   ("rankings", NavAccess access_default); ("docs", NavFlag true); ("about", NavFlag true)].

Definition SIDEBAR_MODULES_DEFAULT : SidebarModulesAdminConfig :=
  [("chat", [("enabled", true); ("playground", true); ("chat", true)]);
   ("console", [("enabled", true); ("detail", true); ("token", true); ("log", true); ("midjourney", true); ("task", true)]);
   ("personal", [("enabled", true); ("topup", true); ("personal", true)]);
   ("admin", [("enabled", true); ("channel", true); ("models", true); ("redemption", true); ("user", true);
              ("setting", true); ("subscription", true)])].

Definition toBoolean (value : option json) (fallback : bool) : bool :=
  match value with
  | Some (JBool b) => b
  | Some (JNum n) => num_is 1 n
  | Some (JStr s) => default fallback (flag_of_text s)
  | _ => fallback
  end.

Definition parseAccessModule (raw : json) (fallback : HeaderNavAccessConfig) : HeaderNavAccessConfig :=
  match raw with
  | JBool _ | JStr _ | JNum _ =>
      {| na_enabled := toBoolean (Some raw) (na_enabled fallback); na_requireAuth := na_requireAuth fallback |}
  | JObj _ | JArr _ =>
      {| na_enabled := toBoolean (json_prop "enabled" raw) (na_enabled fallback);
         na_requireAuth := toBoolean (json_prop "requireAuth" raw) (na_requireAuth fallback) |}
  | JNull => fallback
  end.

(** [Boolean(base[key])]. *)
Definition base_truthy (key : jsstr) : bool :=
  match rec_get key HEADER_NAV_DEFAULT with Some (NavFlag b) => b | Some (NavAccess _) => true | None => false end.

(** One entry of the loop of [parseHeaderNavModules]. *)
Definition header_entry (result : HeaderNavModulesConfig) (entry : jsstr * json) : HeaderNavModulesConfig :=
  let '(key, raw) := entry in
  if str_eqb key "pricing" then rec_set "pricing" (NavAccess (parseAccessModule raw access_default)) result
  else if str_eqb key "rankings" then rec_set "rankings" (NavAccess (parseAccessModule raw access_default)) result
  else match raw with
       | JBool b => rec_set key (NavFlag b) result
       | JStr _ | JNum _ => rec_set key (NavFlag (toBoolean (Some raw) (base_truthy key))) result
       | _ => result
       end.

Definition parseHeaderNavModules (value : option jsstr) : HeaderNavModulesConfig :=
  match value with
  | Some s =>
      if nonempty s then
        match JSON_parse s with
        | Some parsed =>
            match json_entries parsed with
            | Some kvs => fold_left header_entry kvs HEADER_NAV_DEFAULT
            | None => HEADER_NAV_DEFAULT
            end
        | None => HEADER_NAV_DEFAULT
        end
      else HEADER_NAV_DEFAULT
  | None => HEADER_NAV_DEFAULT
  end.

Definition nav_json (v : NavValue) : json :=
  match v with
  | NavFlag b => JBool b
  | NavAccess a => JObj [("enabled", JBool (na_enabled a)); ("requireAuth", JBool (na_requireAuth a))]
  end.

Definition header_json (config : HeaderNavModulesConfig) : list (jsstr * json) :=
  map (λ '(k, v), (k, nav_json v)) config.

Definition serializeHeaderNavModules (config : HeaderNavModulesConfig) : jsstr := JSON_stringify (JObj (header_json config)).

(** *** The sidebar *)

Definition section_json (section : SidebarSectionConfig) : json := JObj (map (λ '(k, b), (k, JBool b)) section).

Definition sidebar_json (config : SidebarModulesAdminConfig) : list (jsstr * json) :=
  map (λ '(k, section), (k, section_json section)) config.

Definition serializeSidebarModulesAdmin (config : SidebarModulesAdminConfig) : jsstr :=
  JSON_stringify (JObj (sidebar_json config)).

Definition default_section (sectionKey : jsstr) : SidebarSectionConfig :=
  default [("enabled", true)] (rec_get sectionKey SIDEBAR_MODULES_DEFAULT).

Definition module_entry (defaultSection sectionConfig : SidebarSectionConfig) (entry : jsstr * json) : SidebarSectionConfig :=
  let '(moduleKey, moduleValue) := entry in
  if str_eqb moduleKey "enabled" then sectionConfig
  else rec_set moduleKey (toBoolean (Some moduleValue) (default true (rec_get moduleKey defaultSection))) sectionConfig.

(** One section of the first loop of [parseSidebarModulesAdmin]. *)
Definition section_entry (result : SidebarModulesAdminConfig) (entry : jsstr * json) : SidebarModulesAdminConfig :=
  let '(sectionKey, raw) := entry in
  match raw with
  | JObj _ | JArr _ =>
      let defaultSection := default_section sectionKey in
      let sectionConfig :=
        [("enabled", toBoolean (json_prop "enabled" raw) (default true (rec_get "enabled" defaultSection)))] in
      rec_set sectionKey (fold_left (module_entry defaultSection) (own_fields (Some raw)) sectionConfig) result
  | _ => result
  end.

Definition merge_module (section : SidebarSectionConfig) (entry : jsstr * bool) : SidebarSectionConfig :=
  if rec_has entry.1 section then section else rec_set entry.1 entry.2 section.

(** One section of the loop that adds the defaults. *)
Definition merge_section (result : SidebarModulesAdminConfig) (entry : jsstr * SidebarSectionConfig)
    : SidebarModulesAdminConfig :=
  let '(sectionKey, config) := entry in
  match rec_get sectionKey result with
  | None => rec_set sectionKey config result
  | Some section => rec_set sectionKey (fold_left merge_module config section) result
  end.

Definition parseSidebarModulesAdmin (value : option jsstr) : SidebarModulesAdminConfig :=
  match value with
  | Some s =>
      if nonempty (trim s) then
        match JSON_parse s with
        | Some parsed =>
            match json_entries parsed with
            | Some kvs => fold_left merge_section SIDEBAR_MODULES_DEFAULT (fold_left section_entry kvs [])
            | None => SIDEBAR_MODULES_DEFAULT
            end
        | None => SIDEBAR_MODULES_DEFAULT
        end
      else SIDEBAR_MODULES_DEFAULT
  | None => SIDEBAR_MODULES_DEFAULT
  end.

(** ** [header-navigation-section.tsx] *)

Record HeaderNavFormValues : Type := {
  hf_home : bool;
  hf_console : bool;
  hf_pricing : HeaderNavAccessConfig;
  hf_rankings : HeaderNavAccessConfig;
  hf_docs : bool;
  hf_about : bool
}.

(** [config.k === undefined ? default : Boolean(config.k)]. *)
Definition form_flag (key : jsstr) (config : HeaderNavModulesConfig) : bool :=
  match rec_get key config with Some (NavFlag b) => b | Some (NavAccess _) => true | None => base_truthy key end.

(** [config.k?.enabled] and [config.k?.requireAuth]; a flag has neither. *)
Definition form_access (key : jsstr) (config : HeaderNavModulesConfig) : HeaderNavAccessConfig :=
  match rec_get key config with Some (NavAccess a) => a | _ => access_default end.

Definition toFormValues (config : HeaderNavModulesConfig) : HeaderNavFormValues :=
  {| hf_home := form_flag "home" config; hf_console := form_flag "console" config;
     hf_pricing := form_access "pricing" config; hf_rankings := form_access "rankings" config;
     hf_docs := form_flag "docs" config; hf_about := form_flag "about" config |}.

(** The payload of [onSubmit]: the configuration with the values of the form. *)
Definition header_payload (config : HeaderNavModulesConfig) (values : HeaderNavFormValues) : HeaderNavModulesConfig :=
  let config := rec_set "home" (NavFlag (hf_home values)) config in
  let config := rec_set "console" (NavFlag (hf_console values)) config in
  let config := rec_set "docs" (NavFlag (hf_docs values)) config in
  let config := rec_set "about" (NavFlag (hf_about values)) config in
  let config := rec_set "pricing" (NavAccess (hf_pricing values)) config in
  rec_set "rankings" (NavAccess (hf_rankings values)) config.

(** The text that is stored, none when it is the one the form was opened with. *)
Definition header_submit (stored : option jsstr) (values : HeaderNavFormValues) : option jsstr :=
  let config := parseHeaderNavModules stored in
  let serialized := serializeHeaderNavModules (header_payload config values) in
  if str_eqb serialized (serializeHeaderNavModules config) then None else Some serialized.

(** ** [sidebar-modules-section.tsx] *)

Definition set_module (sectionKey moduleKey : jsstr) (b : bool) (values : SidebarModulesAdminConfig)
    : SidebarModulesAdminConfig :=
  rec_set sectionKey (rec_set moduleKey b (default [] (rec_get sectionKey values))) values.

(** The switches that are shown are those of the configuration; the switch of a module
    is disabled while its section is off. *)
Definition toggle_enabled (config : SidebarModulesAdminConfig) (sectionKey moduleKey : jsstr)
    (values : SidebarModulesAdminConfig) : bool :=
  match rec_get sectionKey config with
  | Some section =>
      str_eqb moduleKey "enabled"
      || rec_has moduleKey section && default false (section ← rec_get sectionKey values; rec_get "enabled" section)
  | None => false
  end.

Inductive SidebarEvent : Type :=
| SToggle (sectionKey moduleKey : jsstr) (b : bool)
| SReset.

Definition sidebar_event (config values : SidebarModulesAdminConfig) (ev : SidebarEvent) : SidebarModulesAdminConfig :=
  match ev with
  | SToggle sectionKey moduleKey b =>
      if toggle_enabled config sectionKey moduleKey values then set_module sectionKey moduleKey b values else values
  | SReset => SIDEBAR_MODULES_DEFAULT
  end.

Definition sidebar_values (stored : option jsstr) (evs : list SidebarEvent) : SidebarModulesAdminConfig :=
  let config := parseSidebarModulesAdmin stored in fold_left (sidebar_event config) evs config.

Definition sidebar_submit (stored : option jsstr) (evs : list SidebarEvent) : option jsstr :=
  let serialized := serializeSidebarModulesAdmin (sidebar_values stored evs) in
  if str_eqb serialized (serializeSidebarModulesAdmin (parseSidebarModulesAdmin stored)) then None else Some serialized.

Example header_ex :
  serializeHeaderNavModules (parseHeaderNavModules (Some "{\qdocs\q: \q FALSE\q, \qpricing\q: 0, \qblog\q: true, \qhome\q: null}"))
  = "{\qhome\q:true,\qconsole\q:true,\qpricing\q:{\qenabled\q:false,\qrequireAuth\q:false},\qrankings\q:{\qenabled\q:true,\qrequireAuth\q:false},\qdocs\q:false,\qabout\q:true,\qblog\q:true}".
Proof. vm_compute. reflexivity. Qed.
