(* ===== verification/NavModules.v ===== *)
(** * The navigation that is shown

    [lib/nav-modules.ts], [hooks/use-top-nav-links.ts], [hooks/use-sidebar-config.ts]
    and [hooks/use-sidebar-view.ts] with the entries of [hooks/use-sidebar-data.ts],
    and the user's own switches of [features/profile/components/sidebar-modules-card.tsx]:
    which links, pages and entries a visitor gets.  The answer of the status request,
    and the answers of the user requests, are arguments.  The names of
    [Object.prototype] are outside the model. *)
From Stdlib Require Import NArith ZArith.
From stdpp Require Import list.
From S2P Require Import Prelude JsString JsNumber Json JsArray JsonRoundtrip JsRecord NavConfig.

(** ** [lib/nav-modules.ts] *)

Abbreviation ModuleAccess := HeaderNavAccessConfig.
Abbreviation HeaderNavModules := (record NavValue).

Definition DEFAULT_HEADER_NAV_MODULES : HeaderNavModules :=
  [("home", NavFlag true); ("console", NavFlag true);
   ("pricing", NavAccess {| na_enabled := true; na_requireAuth := false |});
   ("rankings", NavAccess {| na_enabled := true; na_requireAuth := false |});
   ("docs", NavFlag true); ("about", NavFlag true)].

Inductive HeaderNavModule : Type := MRankings | MPricing.

Definition module_name (m : HeaderNavModule) : jsstr := match m with MRankings => "rankings" | MPricing => "pricing" end.

Definition parseHeaderNavBoolean (raw : option json) (fallback : bool) : bool :=
  match raw with
  | Some (JBool b) => b
  | Some (JNum n) => if num_is 1 n then true else if num_is 0 n then false else fallback
  | Some (JStr s) => default fallback (flag_of_text s)
  | _ => fallback
  end.

Definition parseAccess (raw : json) (fallback : ModuleAccess) : ModuleAccess :=
  match raw with
  | JBool _ | JStr _ | JNum _ =>
      {| na_enabled := parseHeaderNavBoolean (Some raw) (na_enabled fallback); na_requireAuth := na_requireAuth fallback |}
  | JObj _ | JArr _ =>
      {| na_enabled := parseHeaderNavBoolean (json_prop "enabled" raw) (na_enabled fallback);
         na_requireAuth := parseHeaderNavBoolean (json_prop "requireAuth" raw) (na_requireAuth fallback) |}
  | JNull => fallback
  end.

(** [!raw || String(raw).trim() === '']. *)
Definition no_text (raw : option json) : bool :=
  match raw with Some j => negb (json_truthy j) || negb (nonempty (trim (json_toString j))) | None => true end.

Definition parseHeaderNavRecord (raw : option json) : option json :=
  if no_text raw then None
  else match raw with
       | Some (JObj kvs) => Some (JObj kvs)
       | Some (JArr l) => Some (JArr l)
       | Some j => JSON_parse (json_toString j)
       | None => None
       end.

(** [result.pricing] and [result.rankings], which are always set. *)
Definition access_of (key : jsstr) (modules : HeaderNavModules) : ModuleAccess :=
  match rec_get key modules with Some (NavAccess a) => a | _ => {| na_enabled := true; na_requireAuth := false |} end.

(** One entry of the loop of [parseHeaderNavModules]. *)
Definition nav_entry (result : HeaderNavModules) (entry : jsstr * json) : HeaderNavModules :=
  let '(key, value) := entry in
  if str_eqb key "pricing" then rec_set "pricing" (NavAccess (parseAccess value (access_of "pricing" result))) result
  else if str_eqb key "rankings"
  then rec_set "rankings" (NavAccess (parseAccess value (access_of "rankings" result))) result
  else match rec_get key result, value with
       | Some (NavFlag fallback), _ => rec_set key (NavFlag (parseHeaderNavBoolean (Some value) fallback)) result
       | _, (JBool _ | JNum _ | JStr _) => rec_set key (NavFlag (parseHeaderNavBoolean (Some value) true)) result
       | _, _ => result
       end.

Definition parseHeaderNavModules (raw : option json) : HeaderNavModules :=
  match parseHeaderNavRecord raw with
  | Some parsed =>
      if json_truthy parsed then fold_left nav_entry (own_fields (Some parsed)) DEFAULT_HEADER_NAV_MODULES
      else DEFAULT_HEADER_NAV_MODULES
  | None => DEFAULT_HEADER_NAV_MODULES
  end.

Definition parseHeaderNavModulesFromStatus (status : option json) : HeaderNavModules :=
  parseHeaderNavModules (status ← status; json_prop "HeaderNavModules" status).

(** The text under [status] in the local storage. *)
Definition getCachedStatus (raw : option jsstr) : option json :=
  match raw with
  | Some s => if nonempty s then
                match JSON_parse s with Some JNull => None | r => r end
              else None
  | None => None
  end.

(** The storage after [cacheStatus]; a write that fails leaves it. *)
Definition cacheStatus (status : option json) (writable : bool) (raw : option jsstr) : option jsstr :=
  match status with
  | Some j => if json_truthy j && writable then Some (JSON_stringify j) else raw
  | None => raw
  end.

Definition getModuleAccessFromStatus (status : option json) (module : HeaderNavModule) : ModuleAccess :=
  access_of (module_name module) (parseHeaderNavModulesFromStatus status).

Definition getModuleAccess (raw : option jsstr) (module : HeaderNavModule) : ModuleAccess :=
  getModuleAccessFromStatus (getCachedStatus raw) module.

(** [answer] is the status, or [None] when the request is rejected. *)
Definition getFreshModuleAccess (answer : option (option json)) (writable : bool) (raw : option jsstr)
    (module : HeaderNavModule) : ModuleAccess * option jsstr :=
  match answer with
  | Some status => (getModuleAccessFromStatus status module, cacheStatus status writable raw)
  | None => ({| na_enabled := false; na_requireAuth := true |}, raw)
  end.

(** Where the guards of the pages [/pricing] and [/rankings] lead. *)
Inductive Guard : Type := Enter | RedirectHome | RedirectSignIn.

Definition page_guard (access : ModuleAccess) (signedIn : bool) : Guard :=
  if negb (na_enabled access) then RedirectHome
  else if na_requireAuth access && negb signedIn then RedirectSignIn
  else Enter.

Definition flag_false (v : option json) : bool := match v with Some (JBool false) => true | _ => false end.
Definition flag_true (v : option json) : bool := match v with Some (JBool true) => true | _ => false end.
Definition truthy_prop (v : option json) : bool := match v with Some j => json_truthy j | None => false end.

Definition isSidebarModuleEnabled (raw : option jsstr) (section module : jsstr) : bool :=
  match getCachedStatus raw with
  | None => true
  | Some status =>
      if json_truthy status then
        let raw := json_prop "SidebarModulesAdmin" status in
        if no_text raw then true
        else match JSON_parse (json_toString (default JNull raw)) with
             | Some parsed =>
                 match json_prop section parsed with
                 | Some sectionConfig =>
                     if json_truthy sectionConfig then
                       if flag_false (json_prop "enabled" sectionConfig) then false
                       else negb (flag_false (json_prop module sectionConfig))
                     else true
                 | None => true
                 end
             | None => true
             end
      else true
  end.

(** ** [use-top-nav-links.ts] *)

Record TopNavLink : Type := { tl_title : jsstr; tl_href : jsstr; tl_requiresAuth : bool; tl_external : bool }.

Definition plain_link (title href : jsstr) : TopNavLink :=
  {| tl_title := title; tl_href := href; tl_requiresAuth := false; tl_external := false |}.

(** [modules.k !== false]. *)
Definition not_off (key : jsstr) (modules : HeaderNavModules) : bool :=
  match rec_get key modules with Some (NavFlag false) => false | _ => true end.

Definition access_link (t : jsstr → jsstr) (key title href : jsstr) (isAuthed : bool) (modules : HeaderNavModules)
    : list TopNavLink :=
  match rec_get key modules with
  | Some (NavAccess a) =>
      if na_enabled a
      then [{| tl_title := t title; tl_href := href; tl_requiresAuth := na_requireAuth a && negb isAuthed; tl_external := false |}]
      else []
  | _ => []
  end.

(** [docsLink] is [status.docs_link]. *)
Definition useTopNavLinks (t : jsstr → jsstr) (status : option json) (isAuthed : bool) : list TopNavLink :=
  let modules := parseHeaderNavModulesFromStatus status in
  let docsLink := status ← status; json_prop "docs_link" status in
  (if not_off "home" modules then [plain_link (t "Home") "/"] else [])
  ++ (if not_off "console" modules then [plain_link (t "Console") "/dashboard"] else [])
  ++ access_link t "pricing" "Model Square" "/pricing" isAuthed modules
  ++ access_link t "rankings" "Rankings" "/rankings" isAuthed modules
  ++ (if not_off "docs" modules then
        [if truthy_prop docsLink
         then {| tl_title := t "Docs"; tl_href := json_toString (default JNull docsLink); tl_requiresAuth := false; tl_external := true |}
         else plain_link (t "Docs") "/docs"]
      else [])
  ++ (if not_off "about" modules then [plain_link (t "About") "/about"] else []).

(** ** [use-sidebar-config.ts] *)

Definition flags (l : list (jsstr * bool)) : json := JObj (map (λ '(k, b), (k, JBool b)) l).

Definition DEFAULT_SIDEBAR_MODULES : list (jsstr * json) :=
  [("chat", flags [("enabled", true); ("playground", true); ("chat", true)]);
   ("console", flags [("enabled", true); ("detail", true); ("token", true); ("log", true); ("midjourney", true); ("task", true)]);
   ("personal", flags [("enabled", true); ("topup", true); ("personal", true)]);
   ("admin", flags [("enabled", true); ("channel", true); ("models", true); ("redemption", true); ("user", true);
                    ("setting", true); ("subscription", true)])].

Definition set_entry (o : list (jsstr * json)) (entry : jsstr * json) : list (jsstr * json) := obj_set entry.1 entry.2 o.

(** [{ ...a, ...b }]. *)
Definition spread_json (a b : list (jsstr * json)) : list (jsstr * json) := fold_left set_entry b (fold_left set_entry a []).

Definition fill_module (section : list (jsstr * json)) (entry : jsstr * json) : list (jsstr * json) :=
  match obj_get entry.1 section with Some _ => section | None => obj_set entry.1 entry.2 section end.

Definition merge_default (merged : list (jsstr * json)) (entry : jsstr * json) : list (jsstr * json) :=
  let '(sectionKey, defaultSection) := entry in
  match obj_get sectionKey merged with
  | Some existingSection =>
      if json_truthy existingSection
      then obj_set sectionKey
             (JObj (fold_left fill_module (own_fields (Some defaultSection))
                      (spread_json (own_fields (Some defaultSection)) (own_fields (Some existingSection))))) merged
      else obj_set sectionKey defaultSection merged
  | None => obj_set sectionKey defaultSection merged
  end.

Definition mergeWithDefaultSidebarModules (config : json) : list (jsstr * json) :=
  fold_left merge_default DEFAULT_SIDEBAR_MODULES (spread_json (own_fields (Some config)) []).

Definition URL_TO_CONFIG_MAP : list (jsstr * (jsstr * jsstr)) :=
  [("/playground", ("chat", "playground")); ("/dashboard", ("console", "detail"));
   ("/dashboard/overview", ("console", "detail")); ("/dashboard/models", ("console", "detail"));
   ("/dashboard/users", ("console", "detail")); ("/keys", ("console", "token")); ("/usage-logs", ("console", "log"));
   ("/usage-logs/common", ("console", "log")); ("/usage-logs/drawing", ("console", "midjourney"));
   ("/usage-logs/task", ("console", "task")); ("/wallet", ("personal", "topup")); ("/profile", ("personal", "personal"));
   ("/channels", ("admin", "channel")); ("/models", ("admin", "models")); ("/models/metadata", ("admin", "models"));
   ("/models/deployments", ("admin", "models")); ("/users", ("admin", "user"));
   ("/redemption-codes", ("admin", "redemption")); ("/subscriptions", ("admin", "subscription"));
   ("/system-settings", ("admin", "setting")); ("/system-settings/site", ("admin", "setting"))].

Definition parseSidebarConfig (value : option jsstr) : list (jsstr * json) :=
  match value with
  | Some s =>
      if nonempty (trim s) then
        match JSON_parse s with Some parsed => mergeWithDefaultSidebarModules parsed | None => DEFAULT_SIDEBAR_MODULES end
      else DEFAULT_SIDEBAR_MODULES
  | None => DEFAULT_SIDEBAR_MODULES
  end.

(** [null] means that nothing is narrowed. *)
Definition parseUserSidebarConfig (value : option jsstr) : option json :=
  match value with
  | Some s =>
      if nonempty (trim s) then
        match JSON_parse s with Some (JObj kvs) => Some (JObj kvs) | Some (JArr l) => Some (JArr l) | _ => None end
      else None
  | None => None
  end.

Definition admin_allows (section module : jsstr) (adminConfig : list (jsstr * json)) : bool :=
  match obj_get section adminConfig with
  | Some adminSection =>
      json_truthy adminSection && truthy_prop (json_prop "enabled" adminSection) && flag_true (json_prop module adminSection)
  | None => false
  end.

Definition user_allows (section module : jsstr) (userConfig : option json) : bool :=
  match userConfig with
  | None => true
  | Some config =>
      match json_prop section config with
      | Some userSection =>
          if json_truthy userSection then
            if flag_false (json_prop "enabled" userSection) then false else negb (flag_false (json_prop module userSection))
          else true
      | None => true
      end
  end.

Definition isModuleEnabled (url : jsstr) (adminConfig : list (jsstr * json)) (userConfig : option json) : bool :=
  match rec_get url URL_TO_CONFIG_MAP with
  | None => true
  | Some (section, module) =>
      if admin_allows section module adminConfig then user_allows section module userConfig else false
  end.

(** An entry of the sidebar; the texts and icons do not matter here. *)
Inductive NavItem : Type :=
| NavLink (title url : jsstr) (configUrls : option (list jsstr))
| NavCollapsible (title : jsstr) (items : list (jsstr * jsstr))
| NavChatPresets (title : jsstr).

Record NavGroup : Type := { ng_id : jsstr; ng_title : jsstr; ng_items : list NavItem }.

Definition isNavItemVisible (item : NavItem) (adminConfig : list (jsstr * json)) (userConfig : option json) : bool :=
  match item with
  | NavChatPresets _ =>
      if admin_allows "chat" "chat" adminConfig then user_allows "chat" "chat" userConfig else false
  | NavLink _ url configUrls =>
      if nonempty url
      then existsb (λ url, isModuleEnabled url adminConfig userConfig) (default [url] configUrls)
      else true
  | NavCollapsible _ items => existsb (λ '(_, url), isModuleEnabled url adminConfig userConfig) items
  end.

Definition filter_sub_items (adminConfig : list (jsstr * json)) (userConfig : option json) (item : NavItem) : NavItem :=
  match item with
  | NavCollapsible title items =>
      NavCollapsible title (List.filter (λ '(_, url), isModuleEnabled url adminConfig userConfig) items)
  | _ => item
  end.

Definition filterNavItems (items : list NavItem) (adminConfig : list (jsstr * json)) (userConfig : option json)
    : list NavItem :=
  List.filter (λ item, isNavItemVisible item adminConfig userConfig)
    (map (filter_sub_items adminConfig userConfig) items).

(** The user as far as the sidebar needs it; the permission is [None] when it is not
    given. *)
Record SidebarUser : Type := {
  su_role : Z;
  su_sidebar_settings : option bool;
  su_sidebar_modules : option jsstr
}.

Definition user_config (user : option SidebarUser) : option json :=
  match user with
  | Some u => if bool_decide (su_sidebar_settings u = Some false) then None else parseUserSidebarConfig (su_sidebar_modules u)
  | None => parseUserSidebarConfig None
  end.

Definition useSidebarConfig (modules : option jsstr) (user : option SidebarUser) (navGroups : list NavGroup)
    : list NavGroup :=
  let adminConfig := parseSidebarConfig modules in
  let userConfig := user_config user in
  List.filter (λ group, nonempty (ng_items group))
    (map (λ group, {| ng_id := ng_id group; ng_title := ng_title group;
                      ng_items := filterNavItems (ng_items group) adminConfig userConfig |}) navGroups).

(** [ROLE.ADMIN]. *)
Definition ROLE_ADMIN : Z := 10.

(** [rootNavGroups] of [useSidebarView]. *)
Definition rootNavGroups (modules : option jsstr) (user : option SidebarUser) (navGroups : list NavGroup)
    : list NavGroup :=
  let isAdmin := match user with Some u => (ROLE_ADMIN <=? su_role u)%Z | None => false end in
  List.filter (λ group, if str_eqb (ng_id group) "admin" then isAdmin else true)
    (useSidebarConfig modules user navGroups).

(** The entries of [useSidebarData]. *)
Definition navGroups (t : jsstr → jsstr) : list NavGroup :=
  [{| ng_id := "chat"; ng_title := t "Chat";
      ng_items := [NavLink (t "Playground") "/playground" None; NavChatPresets (t "Chat")] |};
   {| ng_id := "general"; ng_title := t "General";
      ng_items := [NavLink (t "Overview") "/dashboard/overview" None; NavLink (t "Dashboard") "/dashboard/models" None;
                   NavLink (t "API Keys") "/keys" None; NavLink (t "Usage Logs") "/usage-logs/common" None;
                   NavLink (t "Task Logs") "/usage-logs/task" (Some ["/usage-logs/drawing"; "/usage-logs/task"])] |};
   {| ng_id := "personal"; ng_title := t "Personal";
      ng_items := [NavLink (t "Wallet") "/wallet" None; NavLink (t "Profile") "/profile" None] |};
   {| ng_id := "admin"; ng_title := t "Admin";
      ng_items := [NavLink (t "Channels") "/channels" None; NavLink (t "Models") "/models/metadata" None;
                   NavLink (t "Users") "/users" None; NavLink (t "Redemption Codes") "/redemption-codes" None;
                   NavLink (t "Subscription Management") "/subscriptions" None;
                   NavLink (t "System Settings") "/system-settings/site" None] |}].

(** ** [sidebar-modules-card.tsx] *)

Definition sectionDefs : list (jsstr * list jsstr) :=
  [("chat", ["playground"; "chat"]); ("console", ["detail"; "token"; "log"; "midjourney"; "task"]);
   ("personal", ["topup"; "personal"])].

Definition card_defaults : list (jsstr * json) :=
  map (λ '(key, modules), (key, flags (("enabled", true) :: map (λ m, (m, true)) modules))) sectionDefs.

(** The configuration after [loadConfig]: [data] is the user's [sidebar_modules], or
    [None] when the request failed; a value that is no object is outside the model. *)
Definition card_load (data : option (option jsstr)) : option (list (jsstr * json)) :=
  match data with
  | None => Some []
  | Some (Some s) =>
      if nonempty s then
        match JSON_parse s with Some (JObj kvs) => Some kvs | Some _ => None | None => Some [] end
      else Some card_defaults
  | Some None => Some card_defaults
  end.

(** [{ ...prev, [sectionKey]: { ...prev[sectionKey], [key]: val } }] of both toggles. *)
Definition card_toggle (sectionKey key : jsstr) (val : bool) (config : list (jsstr * json)) : list (jsstr * json) :=
  obj_set sectionKey (JObj (obj_set key (JBool val) (spread_json (own_fields (obj_get sectionKey config)) []))) config.

Definition section_switch (config : list (jsstr * json)) (sectionKey : jsstr) : bool :=
  negb (flag_false (section ← obj_get sectionKey config; json_prop "enabled" section)).

Definition module_switch (config : list (jsstr * json)) (sectionKey moduleKey : jsstr) : bool :=
  negb (flag_false (section ← obj_get sectionKey config; json_prop moduleKey section)).

Inductive CardEvent : Type :=
| CSection (sectionKey : jsstr) (val : bool)
| CModule (sectionKey moduleKey : jsstr) (val : bool)
| CReset.

(** The switch of a module is disabled while its section is off. *)
Definition card_event (config : list (jsstr * json)) (ev : CardEvent) : list (jsstr * json) :=
  match ev with
  | CSection sectionKey val => card_toggle sectionKey "enabled" val config
  | CModule sectionKey moduleKey val =>
      if section_switch config sectionKey then card_toggle sectionKey moduleKey val config else config
  | CReset => card_defaults
  end.

Definition card_events (config : list (jsstr * json)) (evs : list CardEvent) : list (jsstr * json) :=
  fold_left card_event evs config.

(** [handleSave]: the user in the store after the answer of the server. *)
Definition card_save (config : list (jsstr * json)) (accepted : bool) (user : SidebarUser) : SidebarUser :=
  if accepted
  then {| su_role := su_role user; su_sidebar_settings := su_sidebar_settings user;
          su_sidebar_modules := Some (JSON_stringify (JObj config)) |}
  else user.
