(* ===== verification/NavTheorems.v ===== *)
(** * Properties of the navigation

    What the administrator saves for the header is what every reader of the option
    sees: the form when it is opened again, the links and the guards of the pages; and
    where the two readers of the option agree. *)
From Stdlib Require Import NArith ZArith.
From stdpp Require Import list.
From S2P Require Import Prelude JsString JsNumber Json JsArray JsonRoundtrip JsRecord PricingSettingsTheorems GroupRuleTheorems NavConfig NavModules.

(** ** Objects *)

Lemma rec_set_app_l {A} k (v : A) a b : k ∈ map fst a → rec_set k v (a ++ b) = rec_set k v a ++ b.
Proof.
  induction a as [|[k0 v0] a IH]; cbn [map fst rec_set app]; [intros H; inversion H|].
  destruct (str_eqb_spec k k0) as [->|Hne]; [done|]. intros [?|Hk]%elem_of_cons; [done|]. by rewrite IH.
Qed.

Lemma rec_set_app_r {A} k (v : A) a b : (k ∉ map fst a) → rec_set k v (a ++ b) = a ++ rec_set k v b.
Proof.
  induction a as [|[k0 v0] a IH]; cbn [map fst rec_set app]; [done|].
  intros [Hne Hk]%not_elem_of_cons. apply str_eqb_neq in Hne. rewrite Hne. by rewrite IH.
Qed.

Lemma rec_set_same {A} k (v : A) r : rec_get k r = Some v → rec_set k v r = r.
Proof.
  induction r as [|[k0 v0] r IH]; cbn [rec_get rec_set]; [done|].
  destruct (str_eqb_spec k k0) as [->|?]; [by intros [= ->]|]. intros H. by rewrite IH.
Qed.

(** The properties of an object that was written. *)
Lemma own_object kvs : wf_fields kvs = true → own_fields (Some (JObj kvs)) = kvs.
Proof. intros Hw. cbn [own_fields]. by rewrite entries_id by (by apply wf_no_index). Qed.

Lemma stringify_text j : wf_json j = true → nonempty (trim (JSON_stringify j)) = true.
Proof.
  intros Hw. rewrite (trim_trimmed _ (json_text_trimmed j Hw)). apply stringify_length in Hw.
  destruct (JSON_stringify j); [cbn in Hw; lia|done].
Qed.

Lemma trim_nonempty s : nonempty (trim s) = true → nonempty s = true.
Proof. by destruct s. Qed.

(** ** The header *)

Definition header_six (h c : bool) (p r : HeaderNavAccessConfig) (d a : bool) : HeaderNavModulesConfig :=
  [("home", NavFlag h); ("console", NavFlag c); ("pricing", NavAccess p); ("rankings", NavAccess r);
   ("docs", NavFlag d); ("about", NavFlag a)].

Definition six_keys : list jsstr := ["home"; "console"; "pricing"; "rankings"; "docs"; "about"].

Definition extra_flags (ex : list (jsstr * bool)) : HeaderNavModulesConfig := map (λ '(k, b), (k, NavFlag b)) ex.

(** The six entries in their order, and flags of other names. *)
Definition header_shape (config : HeaderNavModulesConfig) : Prop :=
  ∃ h c p r d a ex, config = header_six h c p r d a ++ extra_flags ex
  ∧ NoDup (map fst ex) ∧ ∀ k, k ∈ map fst ex → k ∉ six_keys.

Lemma extra_keys ex : map fst (extra_flags ex) = map fst ex.
Proof. unfold extra_flags. rewrite map_map. apply map_ext. by intros [k b]. Qed.

Lemma extra_set k b ex : rec_set k (NavFlag b) (extra_flags ex) = extra_flags (rec_set k b ex).
Proof.
  induction ex as [|[k0 b0] ex IH]; [done|]. cbn [extra_flags map rec_set] in *. destruct (str_eqb k k0); [done|].
  cbn [map]. f_equal. exact IH.
Qed.

Lemma shape_default : header_shape HEADER_NAV_DEFAULT.
Proof.
  exists true, true, access_default, access_default, true, true, []. split; [reflexivity|].
  split; [constructor|]. intros k H. inversion H.
Qed.

Lemma shape_flag k b config :
  header_shape config → str_eqb k "pricing" = false → str_eqb k "rankings" = false →
  header_shape (rec_set k (NavFlag b) config).
Proof.
  intros (h & c & p & r & d & a & ex & -> & Hd & Hex) Hp Hr.
  destruct (decide (k ∈ six_keys)) as [Hk|Hk].
  - rewrite rec_set_app_l by exact Hk. unfold six_keys in Hk.
    repeat (apply elem_of_cons in Hk as [->|Hk]; [try discriminate|]); [..|inversion Hk].
    + by exists b, c, p, r, d, a, ex.
    + by exists h, b, p, r, d, a, ex.
    + by exists h, c, p, r, b, a, ex.
    + by exists h, c, p, r, d, b, ex.
  - rewrite rec_set_app_r by exact Hk. rewrite extra_set. exists h, c, p, r, d, a, (rec_set k b ex).
    split; [done|]. split; [by apply distinct_set|].
    intros k'. rewrite rec_set_keys, elem_of_app. intros [H|H]; [by apply Hex|].
    destruct (str_mem k _); [inversion H|]. by apply list_elem_of_singleton in H as ->.
Qed.

Lemma shape_pricing x config : header_shape config → header_shape (rec_set "pricing" (NavAccess x) config).
Proof. intros (h & c & p & r & d & a & ex & -> & Hd & Hex). by exists h, c, x, r, d, a, ex. Qed.

Lemma shape_rankings x config : header_shape config → header_shape (rec_set "rankings" (NavAccess x) config).
Proof. intros (h & c & p & r & d & a & ex & -> & Hd & Hex). by exists h, c, p, x, d, a, ex. Qed.

Lemma shape_entry config kv : header_shape config → header_shape (header_entry config kv).
Proof.
  intros Hs. destruct kv as [k raw]. cbn [header_entry]. destruct (str_eqb k "pricing") eqn:Ep; [by apply shape_pricing|].
  destruct (str_eqb k "rankings") eqn:Er; [by apply shape_rankings|]. destruct raw; try done; by apply shape_flag.
Qed.

Lemma shape_parse stored : header_shape (NavConfig.parseHeaderNavModules stored).
Proof.
  unfold NavConfig.parseHeaderNavModules. destruct stored as [s|]; [|apply shape_default].
  destruct (nonempty s); [|apply shape_default]. destruct (JSON_parse s) as [j|]; [|apply shape_default].
  destruct (json_entries j) as [kvs|]; [|apply shape_default].
  generalize shape_default. generalize HEADER_NAV_DEFAULT. induction kvs as [|kv kvs IH]; intros config H; [done|].
  by apply IH, shape_entry.
Qed.

Lemma shape_payload config v : header_shape config → header_shape (header_payload config v) ∧ toFormValues (header_payload config v) = v.
Proof.
  intros (h & c & p & r & d & a & ex & -> & Hd & Hex). split; [|by destruct v].
  by exists (hf_home v), (hf_console v), (hf_pricing v), (hf_rankings v), (hf_docs v), (hf_about v), ex.
Qed.

(** Both parsers read what was written: they go through the entries alike. *)
Lemma fold_extra step pre ex :
  (∀ r k b, (k ∉ six_keys) → (k ∉ map fst r) → step r (k, JBool b) = rec_set k (NavFlag b) r) →
  NoDup (map fst ex) → (∀ k, k ∈ map fst ex → (k ∉ six_keys) ∧ (k ∉ map fst pre)) →
  fold_left step (header_json (extra_flags ex)) pre = pre ++ extra_flags ex.
Proof.
  intros Hstep. revert pre. induction ex as [|[k b] ex IH]; intros pre Hd Hk; cbn [header_json extra_flags map fold_left].
  { by rewrite app_nil_r. }
  cbn [map fst] in Hd. apply list.NoDup_cons in Hd as [Hn Hd].
  destruct (Hk k ltac:(left)) as [Hk1 Hk2]. cbn [nav_json]. rewrite Hstep, rec_set_new by done.
  fold (extra_flags ex). fold (header_json (extra_flags ex)). rewrite IH.
  - by rewrite <- app_assoc.
  - done.
  - intros k' Hk'. destruct (Hk k' ltac:(by right)) as [H1 H2]. split; [done|].
    rewrite map_app, not_elem_of_app. split; [done|]. cbn [map fst]. rewrite list_elem_of_singleton. by intros ->.
Qed.

Lemma fold_header step config :
  (∀ r k b, (k ∉ six_keys) → (k ∉ map fst r) → step r (k, JBool b) = rec_set k (NavFlag b) r) →
  (∀ h c p r d a, fold_left step (header_json (header_six h c p r d a)) HEADER_NAV_DEFAULT = header_six h c p r d a) →
  header_shape config → fold_left step (header_json config) HEADER_NAV_DEFAULT = config.
Proof.
  intros Hstep Hsix (h & c & p & r & d & a & ex & -> & Hd & Hex). unfold header_json. rewrite map_app, fold_left_app.
  fold (header_json (header_six h c p r d a)). rewrite Hsix. apply fold_extra; [done|done|].
  intros k Hk. split; by apply Hex.
Qed.

Lemma config_step r k b : (k ∉ six_keys) → (k ∉ map fst r) → header_entry r (k, JBool b) = rec_set k (NavFlag b) r.
Proof.
  intros Hs _. cbn [header_entry]. unfold six_keys in Hs. rewrite !not_elem_of_cons in Hs.
  destruct Hs as (_ & _ & Hp & Hr & _). apply str_eqb_neq in Hp, Hr. by rewrite Hp, Hr.
Qed.

Lemma nav_step r k b : (k ∉ six_keys) → (k ∉ map fst r) → nav_entry r (k, JBool b) = rec_set k (NavFlag b) r.
Proof.
  intros Hs Hk. cbn [nav_entry]. unfold six_keys in Hs. rewrite !not_elem_of_cons in Hs.
  destruct Hs as (_ & _ & Hp & Hr & _). apply str_eqb_neq in Hp, Hr. rewrite Hp, Hr.
  destruct (rec_get k r) as [v|] eqn:E; [|done]. destruct Hk. apply rec_get_keys. by rewrite E.
Qed.

Lemma config_reread config :
  header_shape config → wf_fields (header_json config) = true →
  NavConfig.parseHeaderNavModules (Some (serializeHeaderNavModules config)) = config.
Proof.
  intros Hs Hw. assert (Hj : wf_json (JObj (header_json config)) = true) by done.
  unfold NavConfig.parseHeaderNavModules, serializeHeaderNavModules.
  rewrite (trim_nonempty _ (stringify_text _ Hj)), JSON_parse_stringify by done. cbn [json_entries].
  rewrite own_object by done. apply fold_header; [apply config_step| |done].
  intros h c [pe pr] [re rr] d a. destruct h, c, pe, pr, re, rr, d, a; reflexivity.
Qed.

Lemma nav_reread config :
  header_shape config → wf_fields (header_json config) = true →
  NavModules.parseHeaderNavModules (Some (JStr (serializeHeaderNavModules config))) = config.
Proof.
  intros Hs Hw. assert (Hj : wf_json (JObj (header_json config)) = true) by done.
  unfold NavModules.parseHeaderNavModules, parseHeaderNavRecord, no_text, serializeHeaderNavModules.
  cbn [json_truthy json_toString]. rewrite (trim_nonempty _ (stringify_text _ Hj)), (stringify_text _ Hj).
  cbn [negb orb]. rewrite JSON_parse_stringify by done. cbn [json_truthy]. rewrite own_object by done.
  apply (fold_header nav_entry); [apply nav_step| |done].
  intros h c [pe pr] [re rr] d a. destruct h, c, pe, pr, re, rr, d, a; reflexivity.
Qed.

(** The addresses in the header for the switches of the form. *)
Definition shown_hrefs (v : HeaderNavFormValues) : list jsstr :=
  (if hf_home v then ["/"] else []) ++ (if hf_console v then ["/dashboard"] else [])
  ++ (if na_enabled (hf_pricing v) then ["/pricing"] else []) ++ (if na_enabled (hf_rankings v) then ["/rankings"] else [])
  ++ (if hf_docs v then ["/docs"] else []) ++ (if hf_about v then ["/about"] else []).

(** The switches of the header take effect.  Whatever was stored before, what the
    administrator saves is what everyone sees: the form opens with the same switches
    and has nothing to save, the header has exactly the links that are on, and the
    pages with their own guard are open, closed or behind the sign-in as set. *)
Theorem saved_header_seen t stored v s status signedIn :
  header_submit stored v = Some s →
  wf_fields (header_json (header_payload (NavConfig.parseHeaderNavModules stored) v)) = true →
  json_prop "HeaderNavModules" status = Some (JStr s) → json_prop "docs_link" status = None →
  toFormValues (NavConfig.parseHeaderNavModules (Some s)) = v ∧ header_submit (Some s) v = None
  ∧ map tl_href (useTopNavLinks t (Some status) signedIn) = shown_hrefs v
  ∧ page_guard (getModuleAccessFromStatus (Some status) MPricing) signedIn = page_guard (hf_pricing v) signedIn
  ∧ page_guard (getModuleAccessFromStatus (Some status) MRankings) signedIn = page_guard (hf_rankings v) signedIn.
Proof.
  unfold header_submit. set (c := header_payload (NavConfig.parseHeaderNavModules stored) v).
  destruct (shape_payload _ v (shape_parse stored)) as [Hshape Hform]. fold c in Hshape, Hform.
  destruct (str_eqb _ _); [done|]. intros <-%Some_inj Hw Hst Hdocs.
  pose proof (config_reread c Hshape Hw) as Hc. rewrite Hc.
  assert (Hn : parseHeaderNavModulesFromStatus (Some status) = c)
    by (unfold parseHeaderNavModulesFromStatus; cbn [mbind option_bind]; rewrite Hst; by apply nav_reread).
  destruct Hshape as (h & co & p & r & d & a & ex & Ec & _). rewrite Ec in *.
  unfold useTopNavLinks, getModuleAccessFromStatus, access_link. rewrite Hn. cbn [mbind option_bind]. rewrite Hdocs.
  rewrite <- Hform. split_and!; try done.
  - unfold header_payload, toFormValues. cbn. by rewrite str_eqb_refl.
  - by destruct h, co, p as [[] ?], r as [[] ?], d, a.
Qed.

Lemma saved_header_seen_witness :
  let v := {| hf_home := false; hf_console := true; hf_pricing := {| na_enabled := true; na_requireAuth := true |};
              hf_rankings := {| na_enabled := false; na_requireAuth := false |}; hf_docs := true; hf_about := true |} in
  ∃ s, header_submit (Some "{\qblog\q: 1}") v = Some s
  ∧ map tl_href (useTopNavLinks (λ x, x) (Some (JObj [("HeaderNavModules", JStr s)])) false)
    = ["/dashboard"; "/pricing"; "/docs"; "/about"].
Proof.
  intros v. assert (H : ∃ s, header_submit (Some "{\qblog\q: 1}") v = Some s) by (eexists; vm_compute; reflexivity).
  destruct H as [s H]. exists s. split; [exact H|].
  destruct (saved_header_seen (λ x, x) (Some ("{\qblog\q: 1}" : jsstr)) v s (JObj [("HeaderNavModules", JStr s)]) false H
    ltac:(vm_compute; reflexivity) eq_refl eq_refl) as (_ & _ & -> & _).
  reflexivity.
Defined.

(** ** The two readers of the header *)

(** A text of white space is no JSON. *)
Lemma blank_not_json s : trim s = [] → JSON_parse s = None.
Proof.
  intros Ht. destruct (trim_decompose s) as (a & b & Es & Ha & Hb). rewrite Ht in Es. cbn [app] in Es.
  assert (Hs : forallb is_space s = true) by (rewrite Es, forallb_app, Ha, Hb; done). clear a b Ht Es Ha Hb.
  unfold JSON_parse. destruct (json_fuel s) as [|fuel]; [done|]. cbn [parse_value].
  assert (Hskip : forallb is_space (skip_ws s) = true).
  { clear fuel. induction s as [|c s IH]; [done|]. cbn [skip_ws]. destruct (json_ws c); [|done].
    cbn [forallb] in Hs. apply andb_prop in Hs as [_ Hs]. by apply IH. }
  destruct (skip_ws s) as [|c t]; [done|]. cbn [forallb] in Hskip. apply andb_prop in Hskip as [Hc _].
  assert (Hv : ∀ d, (33 ≤ d ≤ 159)%N → (c =? d)%N = false).
  { intros d Hd. apply N.eqb_neq. intros ->. by rewrite is_space_visible in Hc. }
  rewrite !Hv by lia.
  assert (Hl : ∀ w d, (33 ≤ d ≤ 159)%N → startsWith (d :: w) (c :: t) = false).
  { intros w d Hd. cbn [startsWith]. by rewrite N.eqb_sym, Hv. }
  change lit_true with (116%N :: [114%N; 117%N; 101%N]). change lit_false with (102%N :: [97%N; 108%N; 115%N; 101%N]).
  change lit_null with (110%N :: [117%N; 108%N; 108%N]). rewrite !Hl by lia.
  destruct (parse_json_number (c :: t)) as [[n r]|] eqn:En; [|done].
  apply json_number_head in En as (c' & u & [= <- _] & [->|Hd%is_digit_range]).
  - by specialize (Hv 45%N ltac:(lia)).
  - specialize (Hv c ltac:(lia)). by rewrite N.eqb_refl in Hv.
Qed.

(** A flag of which both readers make the same: of the numbers 0 and 1, of the texts
    those that say a truth value. *)
Definition plain_flag (v : option json) : bool :=
  match v with
  | Some (JNum n) => num_is 0 n || num_is 1 n
  | Some (JStr s) => match flag_of_text s with Some _ => true | None => false end
  | _ => true
  end.

Definition plain_entry (entry : jsstr * json) : bool :=
  let '(k, v) := entry in
  plain_flag (Some v)
  && (if str_eqb k "pricing" || str_eqb k "rankings"
      then plain_flag (json_prop "enabled" v) && plain_flag (json_prop "requireAuth" v) else true).

Lemma plain_boolean v b : plain_flag v = true → parseHeaderNavBoolean v b = toBoolean v b.
Proof.
  destruct v as [[| |n|s| |]|]; try done; cbn [plain_flag parseHeaderNavBoolean toBoolean].
  unfold num_is. destruct (num_to_Z n) as [i|]; [|done]. destruct (Z.eqb_spec i 1) as [->|?]; [done|].
  by destruct (Z.eqb_spec i 0).
Qed.

Lemma plain_fallback v b b' : plain_flag (Some v) = true →
  match v with JBool _ | JNum _ | JStr _ => parseHeaderNavBoolean (Some v) b = toBoolean (Some v) b' | _ => True end.
Proof.
  intros Hp. rewrite (plain_boolean _ b) by done. destruct v as [| | |s| |]; try done.
  cbn [plain_flag toBoolean] in *. by destruct (flag_of_text s).
Qed.

Lemma plain_access v a :
  plain_flag (Some v) = true → plain_flag (json_prop "enabled" v) = true → plain_flag (json_prop "requireAuth" v) = true →
  parseAccess v a = parseAccessModule v a.
Proof.
  intros H1 H2 H3. destruct v; cbn [parseAccess parseAccessModule]; try done; by rewrite !plain_boolean.
Qed.

(** The access of a name that was not read yet. *)
Definition unread (key : jsstr) (keys : list jsstr) (result : HeaderNavModules) : Prop :=
  key ∈ keys → access_of key result = access_default.

Lemma access_set k k' v r : k ≠ k' → access_of k (rec_set k' v r) = access_of k r.
Proof. intros Hne. unfold access_of. rewrite rec_get_set. by apply str_eqb_neq in Hne as ->. Qed.

Lemma nav_entry_agree result k v :
  plain_entry (k, v) = true → unread "pricing" [k] result → unread "rankings" [k] result →
  nav_entry result (k, v) = header_entry result (k, v).
Proof.
  unfold plain_entry, unread. intros [Hf Ha]%andb_prop Hp Hr. cbn [nav_entry header_entry].
  destruct (str_eqb_spec k "pricing") as [->|Hkp].
  { cbn [orb str_eqb] in Ha. apply andb_prop in Ha as [H1 H2]. rewrite (Hp ltac:(left)). by rewrite plain_access. }
  destruct (str_eqb_spec k "rankings") as [->|Hkr].
  { cbn [orb str_eqb] in Ha. apply andb_prop in Ha as [H1 H2]. rewrite (Hr ltac:(left)). by rewrite plain_access. }
  pose proof (plain_fallback v) as Hv.
  destruct (rec_get k result) as [[b|a]|] eqn:E, v as [| | |s| |]; try done;
    try (rewrite (Hv _ (base_truthy k)) by done; done); by apply rec_set_same.
Qed.

(** The two readers of the header agree.  On every text whose flags are truth
    values, the numbers 0 and 1, or texts that say one, the form of the administrator
    and the visitors' pages read the same configuration; also when the text is not
    valid, or is no object. *)
Theorem header_readers_agree s :
  (∀ j, JSON_parse s = Some j → NoDup (map fst (own_fields (Some j))) ∧ forallb plain_entry (own_fields (Some j)) = true) →
  NavModules.parseHeaderNavModules (Some (JStr s)) = NavConfig.parseHeaderNavModules (Some s).
Proof.
  intros Hj. unfold NavModules.parseHeaderNavModules, parseHeaderNavRecord, no_text, NavConfig.parseHeaderNavModules.
  cbn [json_truthy json_toString]. destruct (nonempty s) eqn:En; cbn [negb orb]; [|done].
  destruct (nonempty (trim s)) eqn:Et; cbn [negb].
  - destruct (JSON_parse s) as [j|]; [|done]. destruct (Hj _ eq_refl) as [Hd Hp].
    assert (Hfold : fold_left nav_entry (own_fields (Some j)) DEFAULT_HEADER_NAV_MODULES
      = fold_left header_entry (own_fields (Some j)) HEADER_NAV_DEFAULT).
    { change DEFAULT_HEADER_NAV_MODULES with HEADER_NAV_DEFAULT. revert Hd Hp. generalize (own_fields (Some j)).
      assert (H1 : ∀ keys, unread "pricing" keys HEADER_NAV_DEFAULT) by (by intros keys ?).
      assert (H2 : ∀ keys, unread "rankings" keys HEADER_NAV_DEFAULT) by (by intros keys ?).
      intros kvs. specialize (H1 (map fst kvs)). specialize (H2 (map fst kvs)). revert H1 H2. generalize HEADER_NAV_DEFAULT.
      induction kvs as [|[k v] kvs IH]; intros r H1 H2 Hd Hp; [done|]. cbn [fold_left forallb map fst] in *.
      apply andb_prop in Hp as [Hp1 Hp2]. apply list.NoDup_cons in Hd as [Hn Hd].
      rewrite nav_entry_agree; [|done|..].
      2: { intros E%list_elem_of_singleton. apply H1. rewrite E. left. }
      2: { intros E%list_elem_of_singleton. apply H2. rewrite E. left. }
      assert (Hrest : ∀ key, (key = "pricing" ∨ key = "rankings") → unread key (k :: map fst kvs) r →
        unread key (map fst kvs) (header_entry r (k, v))).
      { intros key Hkey Hu Hin. assert (Hne : key ≠ k) by (by intros ->). specialize (Hu ltac:(by right)).
        cbn [header_entry]. destruct (str_eqb_spec k "pricing") as [->|?]; [by rewrite access_set|].
        destruct (str_eqb_spec k "rankings") as [->|?]; [by rewrite access_set|].
        destruct v; try done; by rewrite access_set. }
      apply IH; auto. }
    unfold json_entries. destruct (json_truthy j) eqn:Ej.
    + rewrite Hfold. by destruct j.
    + destruct j as [|b|n|u| |]; try done. by destruct u.
  - rewrite blank_not_json; [done|]. by destruct (trim s).
Qed.

Lemma header_readers_agree_witness :
  NavModules.parseHeaderNavModules (Some (JStr "{\qpricing\q: {\qrequireAuth\q: \qTrue \q}, \qdocs\q: 0, \qblog\q: \q1\q}"))
  = NavConfig.parseHeaderNavModules (Some ("{\qpricing\q: {\qrequireAuth\q: \qTrue \q}, \qdocs\q: 0, \qblog\q: \q1\q}" : jsstr)).
Proof.
  apply header_readers_agree. intros j Hj. vm_compute in Hj. injection Hj as <-.
  split; [apply (bool_decide_unpack _); vm_compute; reflexivity|vm_compute; reflexivity].
Defined.
