(* ===== verification/SidebarTheorems.v ===== *)
(** * Properties of the sidebar

    The switches of the administrator are seen alike by the form, the sidebar and the
    guards of the pages; a user's own switches have the effect they show and only hide
    entries. *)
From Stdlib Require Import NArith ZArith.
From stdpp Require Import list.
From S2P Require Import Prelude JsString JsNumber Json JsArray JsonRoundtrip JsRecord GroupRuleTheorems NavConfig NavModules NavTheorems.

(** ** The sidebar *)

(** A section whose switch comes first, each module once. *)
Definition section_shape (section : SidebarSectionConfig) : Prop :=
  NoDup (map fst section) ∧ ∃ b rest, section = ("enabled", b) :: rest.

(** At least the sections and modules of the defaults. *)
Definition covers (config : SidebarModulesAdminConfig) : Prop :=
  ∀ sectionKey modules, (sectionKey, modules) ∈ SIDEBAR_MODULES_DEFAULT →
  ∃ section, rec_get sectionKey config = Some section ∧ ∀ m, m ∈ map fst modules → m ∈ map fst section.

Record sidebar_shape (config : SidebarModulesAdminConfig) : Prop := {
  sidebar_nodup : NoDup (map fst config);
  sidebar_sections : ∀ k section, rec_get k config = Some section → section_shape section;
  sidebar_covers : covers config
}.

Lemma section_set m b section : section_shape section → section_shape (rec_set m b section).
Proof.
  intros [Hd (b0 & rest & ->)]. split; [by apply distinct_set|]. cbn [rec_set].
  destruct (str_eqb m "enabled"); by eexists _, _.
Qed.

Lemma set_keeps {A} m m' (b : A) r : m ∈ map fst r → m ∈ map fst (rec_set m' b r).
Proof. rewrite rec_set_keys, elem_of_app. by left. Qed.

Lemma module_fold_shape d kvs section : section_shape section → section_shape (fold_left (module_entry d) kvs section).
Proof.
  revert section. induction kvs as [|[m v] kvs IH]; intros section Hs; [done|]. cbn [fold_left]. apply IH.
  cbn [module_entry]. destruct (str_eqb m "enabled"); [done|by apply section_set].
Qed.

Lemma merge_fold_shape modules section :
  section_shape section →
  section_shape (fold_left merge_module modules section)
  ∧ (∀ m, m ∈ map fst section → m ∈ map fst (fold_left merge_module modules section))
  ∧ (∀ m, m ∈ map fst modules → m ∈ map fst (fold_left merge_module modules section)).
Proof.
  revert section. induction modules as [|[m b] modules IH]; intros section Hs; cbn [fold_left].
  { split_and!; [done|done|]. intros m Hm. inversion Hm. }
  assert (Hs' : section_shape (merge_module section (m, b)))
    by (unfold merge_module; destruct (rec_has _ _); [done|by apply section_set]).
  destruct (IH _ Hs') as (H1 & H2 & H3). unfold merge_module in H2 at 1. cbn [fst snd] in H2.
  split_and!; [done|..].
  - intros m' Hm'. apply H2. destruct (rec_has m section); [done|by apply set_keeps].
  - intros m' Hm'. cbn [map fst] in Hm'. apply elem_of_cons in Hm' as [->|Hm']; [|by apply H3].
    apply H2. destruct (rec_has m section) eqn:E.
    + by apply rec_has_true, rec_get_keys in E.
    + rewrite <- rec_get_keys, rec_get_set, str_eqb_refl. done.
Qed.

(** The configuration without the demand for the defaults. *)
Definition sections_shape (config : SidebarModulesAdminConfig) : Prop :=
  NoDup (map fst config) ∧ ∀ k section, rec_get k config = Some section → section_shape section.

Lemma sections_set k section config :
  sections_shape config → section_shape section → sections_shape (rec_set k section config).
Proof.
  intros [Hd Hs] Hn. split; [by apply distinct_set|]. intros k' section'. rewrite rec_get_set.
  destruct (str_eqb k' k); [by intros [= <-]|apply Hs].
Qed.

Lemma section_entry_shape config kv : sections_shape config → sections_shape (section_entry config kv).
Proof.
  intros Hs. destruct kv as [k raw]. cbn [section_entry].
  assert (H1 : ∀ b, section_shape [("enabled", b)])
    by (intros b; split; [by repeat constructor; inversion 1|by eexists _, _]).
  destruct raw; try done; apply sections_set; try done; by apply module_fold_shape.
Qed.

Lemma default_modules sectionKey modules : (sectionKey, modules) ∈ SIDEBAR_MODULES_DEFAULT → section_shape modules.
Proof.
  unfold SIDEBAR_MODULES_DEFAULT. intros H.
  repeat (apply elem_of_cons in H as [[= -> ->]|H];
    [split; [apply (bool_decide_unpack _); vm_compute; reflexivity|by eexists _, _]|]).
  inversion H.
Qed.

Lemma merge_section_shape config k modules :
  sections_shape config → section_shape modules →
  sections_shape (merge_section config (k, modules))
  ∧ (∃ section, rec_get k (merge_section config (k, modules)) = Some section ∧ ∀ m, m ∈ map fst modules → m ∈ map fst section)
  ∧ (∀ k', k' ≠ k → rec_get k' (merge_section config (k, modules)) = rec_get k' config).
Proof.
  intros Hs Hm. cbn [merge_section]. destruct (rec_get k config) as [section|] eqn:E.
  - destruct (merge_fold_shape modules section (proj2 Hs _ _ E)) as (H1 & _ & H3).
    split; [by apply sections_set|]. split.
    + eexists. rewrite rec_get_set, str_eqb_refl. done.
    + intros k' Hne. rewrite rec_get_set. by apply str_eqb_neq in Hne as ->.
  - split; [by apply sections_set|]. split.
    + eexists. rewrite rec_get_set, str_eqb_refl. done.
    + intros k' Hne. rewrite rec_get_set. by apply str_eqb_neq in Hne as ->.
Qed.

Lemma merge_defaults_shape defaults config :
  NoDup (map fst defaults) → (∀ k modules, (k, modules) ∈ defaults → section_shape modules) → sections_shape config →
  sections_shape (fold_left merge_section defaults config)
  ∧ (∀ k modules, (k, modules) ∈ defaults →
       ∃ section, rec_get k (fold_left merge_section defaults config) = Some section ∧ ∀ m, m ∈ map fst modules → m ∈ map fst section)
  ∧ (∀ k, (k ∉ map fst defaults) → rec_get k (fold_left merge_section defaults config) = rec_get k config).
Proof.
  revert config. induction defaults as [|[k modules] defaults IH]; intros config Hd Hok Hs; cbn [fold_left].
  { split_and!; [done|intros k modules H; inversion H|done]. }
  cbn [map fst] in Hd. apply list.NoDup_cons in Hd as [Hn Hd].
  destruct (merge_section_shape config k modules Hs (Hok _ _ ltac:(left))) as (H1 & (section & H2 & H2') & H3).
  destruct (IH _ Hd (λ k m H, Hok k m (list_elem_of_further _ _ _ H)) H1) as (I1 & I2 & I3).
  split_and!; [done|..].
  - intros k' modules' [[= -> ->]|Hin]%elem_of_cons; [|by apply I2]. exists section. by rewrite I3.
  - intros k' [Hne Hk]%not_elem_of_cons. rewrite I3 by done. by apply H3.
Qed.

Lemma default_sections_nodup : NoDup (map fst SIDEBAR_MODULES_DEFAULT).
Proof. apply (bool_decide_unpack _). vm_compute. reflexivity. Qed.

Lemma shape_merged config : sections_shape config → sidebar_shape (fold_left merge_section SIDEBAR_MODULES_DEFAULT config).
Proof.
  intros Hs. destruct (merge_defaults_shape _ config default_sections_nodup default_modules Hs) as ([H1 H2] & H3 & _).
  by split.
Qed.

Lemma sections_nil : sections_shape [].
Proof. split; [constructor|done]. Qed.

Lemma shape_sidebar_default : sidebar_shape SIDEBAR_MODULES_DEFAULT.
Proof. apply (shape_merged [] sections_nil). Qed.

Lemma shape_sidebar_parse stored : sidebar_shape (parseSidebarModulesAdmin stored).
Proof.
  unfold parseSidebarModulesAdmin. destruct stored as [s|]; [|apply shape_sidebar_default].
  destruct (nonempty (trim s)); [|apply shape_sidebar_default].
  destruct (JSON_parse s) as [j|]; [|apply shape_sidebar_default].
  destruct (json_entries j) as [kvs|]; [|apply shape_sidebar_default]. apply shape_merged.
  generalize sections_nil. generalize (@nil (jsstr * SidebarSectionConfig)).
  induction kvs as [|kv kvs IH]; intros config H; [done|]. by apply IH, section_entry_shape.
Qed.

Lemma shape_toggle sectionKey moduleKey b values :
  sidebar_shape values → (rec_has sectionKey values = false → moduleKey = "enabled") →
  sidebar_shape (set_module sectionKey moduleKey b values).
Proof.
  intros [Hd Hs Hc] Hm. unfold set_module.
  assert (Hnew : section_shape (rec_set moduleKey b (default [] (rec_get sectionKey values)))).
  { unfold rec_has in Hm. destruct (rec_get sectionKey values) as [section|] eqn:E; cbn [default from_option].
    - apply section_set, (Hs _ _ E).
    - rewrite Hm by done. split; [by repeat constructor; inversion 1|by eexists _, _]. }
  destruct (sections_set sectionKey _ values (conj Hd Hs) Hnew) as [H1 H2]. split; [done|done|].
  intros k modules Hin. destruct (Hc k modules Hin) as (section & E & Hmods). rewrite rec_get_set.
  destruct (str_eqb_spec k sectionKey) as [->|?]; [|by exists section]. rewrite E. cbn [default from_option].
  eexists. split; [reflexivity|]. intros m Hm'. by apply set_keeps, Hmods.
Qed.

Lemma shape_values stored evs : sidebar_shape (sidebar_values stored evs).
Proof.
  unfold sidebar_values. generalize (parseSidebarModulesAdmin stored) at 1. intros config.
  generalize (shape_sidebar_parse stored). generalize (parseSidebarModulesAdmin stored).
  induction evs as [|ev evs IH]; intros values Hs; [done|]. cbn [fold_left]. apply IH.
  destruct ev as [sectionKey moduleKey b|]; cbn [sidebar_event]; [|apply shape_sidebar_default].
  destruct (toggle_enabled config sectionKey moduleKey values) eqn:Et; [|done]. apply shape_toggle; [done|].
  unfold toggle_enabled in Et. unfold rec_has at 1. intros Hn.
  destruct (rec_get sectionKey values); [done|]. destruct (rec_get sectionKey config); [|done].
  cbn [mbind option_bind default from_option] in Et. rewrite andb_false_r, orb_false_r in Et. by apply str_eqb_eq in Et.
Qed.

Definition flag_fields (section : SidebarSectionConfig) : list (jsstr * json) := map (λ '(k, b), (k, JBool b)) section.

Lemma modules_reread d pre rest :
  NoDup (map fst (pre ++ rest)) → ("enabled" ∈ map fst pre) →
  fold_left (module_entry d) (flag_fields rest) pre = pre ++ rest.
Proof.
  revert pre. induction rest as [|[m b] rest IH]; intros pre Hd He; cbn [flag_fields map fold_left].
  { by rewrite app_nil_r. }
  assert (Hm : m ∉ map fst pre).
  { rewrite map_app in Hd. apply list.NoDup_app in Hd as (_ & Hdis & _). intros Hin. apply (Hdis _ Hin). left. }
  cbn [module_entry]. destruct (str_eqb_spec m "enabled") as [->|_]; [done|]. cbn [toBoolean].
  rewrite rec_set_new by done. fold (flag_fields rest). rewrite IH.
  - by rewrite <- app_assoc.
  - by rewrite <- app_assoc.
  - rewrite map_app, elem_of_app. by left.
Qed.

Lemma section_reread k section config :
  section_shape section → wf_fields (flag_fields section) = true →
  section_entry config (k, section_json section) = rec_set k section config.
Proof.
  intros [Hd (b & rest & ->)] Hw. unfold section_json. cbn [section_entry]. fold (flag_fields (("enabled", b) :: rest)).
  rewrite own_object by done. f_equal. cbn [json_prop flag_fields map obj_get]. rewrite str_eqb_refl. cbn [toBoolean fold_left].
  cbn [module_entry]. rewrite str_eqb_refl. fold (flag_fields rest).
  apply (modules_reread _ [("enabled", b)] rest); [done|]. left.
Qed.

Lemma sections_reread pre config :
  NoDup (map fst (pre ++ config)) →
  (∀ k section, (k, section) ∈ config → section_shape section ∧ wf_fields (flag_fields section) = true) →
  fold_left section_entry (sidebar_json config) pre = pre ++ config.
Proof.
  revert pre. induction config as [|[k section] config IH]; intros pre Hd Hok; cbn [sidebar_json map fold_left].
  { by rewrite app_nil_r. }
  assert (Hk : k ∉ map fst pre).
  { rewrite map_app in Hd. apply list.NoDup_app in Hd as (_ & Hdis & _). intros Hin. apply (Hdis _ Hin). left. }
  destruct (Hok k section ltac:(left)) as [H1 H2]. rewrite section_reread, rec_set_new by done.
  fold (sidebar_json config). rewrite IH.
  - by rewrite <- app_assoc.
  - by rewrite <- app_assoc.
  - intros k' s' Hin. apply (Hok k'). by right.
Qed.

Lemma merge_module_same modules section :
  (∀ m, m ∈ map fst modules → m ∈ map fst section) → fold_left merge_module modules section = section.
Proof.
  induction modules as [|[m b] modules IH]; intros Hm; [done|]. cbn [fold_left]. unfold merge_module at 2. cbn [fst].
  assert (E : rec_has m section = true) by (apply rec_has_true, rec_get_keys, Hm; left). rewrite E.
  apply IH. intros m' Hm'. apply Hm. by right.
Qed.

Lemma merge_covered config : covers config → fold_left merge_section SIDEBAR_MODULES_DEFAULT config = config.
Proof.
  unfold covers. generalize SIDEBAR_MODULES_DEFAULT. intros defaults.
  induction defaults as [|[k modules] defaults IH]; intros Hc; [done|]. cbn [fold_left].
  destruct (Hc k modules ltac:(left)) as (section & E & Hm). cbn [merge_section]. rewrite E.
  rewrite merge_module_same by done. rewrite rec_set_same by done. apply IH.
  intros k' m' Hin. apply Hc. by right.
Qed.

Lemma sidebar_get k config :
  obj_get k (sidebar_json config) = (section ← rec_get k config; Some (section_json section)).
Proof.
  induction config as [|[k0 s0] config IH]; [done|]. cbn [sidebar_json map obj_get rec_get].
  destruct (str_eqb k k0); [done|exact IH].
Qed.

Lemma flag_get m section : obj_get m (flag_fields section) = (b ← rec_get m section; Some (JBool b)).
Proof.
  induction section as [|[k0 s0] section IH]; [done|]. cbn [flag_fields map obj_get rec_get].
  destruct (str_eqb m k0); [done|exact IH].
Qed.

Lemma wf_section k section config :
  wf_fields (sidebar_json config) = true → rec_get k config = Some section → wf_fields (flag_fields section) = true.
Proof.
  intros Hw E. assert (H : obj_get k (sidebar_json config) = Some (section_json section)) by (by rewrite sidebar_get, E).
  rewrite obj_get_rec in H. apply rec_get_elem, list_elem_of_In in H.
  apply wf_fields_spec in Hw as [Hw _]. rewrite forallb_forall in Hw. specialize (Hw _ H). cbn beta iota in Hw.
  by apply andb_prop in Hw as [_ Hw].
Qed.

Lemma sidebar_reread config :
  sidebar_shape config → wf_fields (sidebar_json config) = true →
  parseSidebarModulesAdmin (Some (serializeSidebarModulesAdmin config)) = config.
Proof.
  intros [Hd Hs Hc] Hw. assert (Hj : wf_json (JObj (sidebar_json config)) = true) by done.
  unfold parseSidebarModulesAdmin, serializeSidebarModulesAdmin.
  rewrite (stringify_text _ Hj), JSON_parse_stringify by done. cbn [json_entries].
  rewrite own_object by done. rewrite (sections_reread [] config).
  - by apply merge_covered.
  - done.
  - intros k section Hin. apply rec_elem_get in Hin; [|done]. split; [by apply (Hs k)|by apply (wf_section k section config)].
Qed.

(** ** The sidebar as it is shown *)

Lemma set_fold_get k l o :
  NoDup (map fst l) →
  obj_get k (fold_left set_entry l o) = match obj_get k l with Some v => Some v | None => obj_get k o end.
Proof.
  revert o. induction l as [|[k0 v0] l IH]; intros o Hd; cbn [fold_left map fst obj_get]; [done|].
  cbn [map fst] in Hd. apply list.NoDup_cons in Hd as [Hn Hd]. rewrite IH by done.
  unfold set_entry. cbn [fst snd]. rewrite obj_get_set.
  destruct (str_eqb_spec k k0) as [->|?]; [|done].
  destruct (obj_get k0 l) eqn:E; [|done]. destruct Hn.
  assert (is_Some (obj_get k0 l)) as H by (by rewrite E). by apply obj_get_keys in H.
Qed.

Lemma fill_get k l o v : obj_get k o = Some v → obj_get k (fold_left fill_module l o) = Some v.
Proof.
  revert o. induction l as [|[k0 v0] l IH]; intros o Hk; [done|]. cbn [fold_left]. apply IH.
  unfold fill_module. cbn [fst snd]. destruct (obj_get k0 o) eqn:E; [done|]. rewrite obj_get_set.
  destruct (str_eqb_spec k k0) as [->|?]; congruence.
Qed.

Lemma merge_default_other k merged k0 d : k ≠ k0 → obj_get k (merge_default merged (k0, d)) = obj_get k merged.
Proof.
  intros Hne%str_eqb_neq. cbn [merge_default].
  destruct (obj_get k0 merged) as [v|]; [destruct (json_truthy v)|]; by rewrite obj_get_set, Hne.
Qed.

Lemma merge_defaults_other k l merged : (k ∉ map fst l) → obj_get k (fold_left merge_default l merged) = obj_get k merged.
Proof.
  revert merged. induction l as [|[k0 d] l IH]; intros merged; [done|]. cbn [fold_left map fst].
  intros [Hne Hk]%not_elem_of_cons. rewrite IH by done. by apply merge_default_other.
Qed.

(** A property that is given in a section is not replaced by the defaults. *)
Lemma merged_section kvs k sec m v :
  wf_fields kvs = true → obj_get k kvs = Some (JObj sec) → obj_get m sec = Some v →
  ∃ section, obj_get k (mergeWithDefaultSidebarModules (JObj kvs)) = Some (JObj section) ∧ obj_get m section = Some v.
Proof.
  intros Hw Hk Hm. unfold mergeWithDefaultSidebarModules. rewrite own_object by done.
  pose proof (proj2 (proj1 (wf_fields_spec _) Hw)) as Hd.
  assert (Hwsec : wf_fields sec = true).
  { rewrite obj_get_rec in Hk. apply rec_get_elem, list_elem_of_In in Hk. apply wf_fields_spec in Hw as [Hw _].
    rewrite forallb_forall in Hw. specialize (Hw _ Hk). by apply andb_prop in Hw as [_ Hw]. }
  assert (H0 : obj_get k (spread_json kvs []) = Some (JObj sec)) by (unfold spread_json; cbn [fold_left]; by rewrite set_fold_get, Hk).
  assert (Hmerge : ∀ d o, obj_get k o = Some (JObj sec) →
    ∃ section, obj_get k (merge_default o (k, d)) = Some (JObj section) ∧ obj_get m section = Some v).
  { intros d o Ho. cbn [merge_default]. rewrite Ho. cbn [json_truthy]. eexists. rewrite obj_get_set, str_eqb_refl.
    split; [reflexivity|]. apply fill_get. unfold spread_json. rewrite own_object by done.
    rewrite set_fold_get by (apply wf_fields_spec in Hwsec; apply Hwsec). by rewrite Hm. }
  assert (Hnd : NoDup (map fst DEFAULT_SIDEBAR_MODULES)) by (apply (bool_decide_unpack _); vm_compute; reflexivity).
  revert H0 Hnd. generalize (spread_json kvs []). generalize DEFAULT_SIDEBAR_MODULES.
  intros l. induction l as [|[k0 d] l IH]; intros o H0 Hnd; cbn [fold_left]; [by exists sec|].
  cbn [map fst] in Hnd. apply list.NoDup_cons in Hnd as [Hn Hnd].
  destruct (decide (k = k0)) as [->|Hne]; [|apply IH; [by rewrite merge_default_other|done]].
  rewrite merge_defaults_other by done. by apply Hmerge.
Qed.

(** Is a module on, with its section? *)
Definition module_on (config : SidebarModulesAdminConfig) (section module : jsstr) : bool :=
  match rec_get section config with
  | Some s => default false (rec_get "enabled" s) && default false (rec_get module s)
  | None => false
  end.

Lemma covered_url url section module config :
  covers config → rec_get url URL_TO_CONFIG_MAP = Some (section, module) →
  ∃ s b m, rec_get section config = Some s ∧ rec_get "enabled" s = Some b ∧ rec_get module s = Some m.
Proof.
  intros Hc Hu. apply rec_get_elem in Hu.
  assert (Hdef : ∃ modules, (section, modules) ∈ SIDEBAR_MODULES_DEFAULT ∧ ("enabled" ∈ map fst modules) ∧ (module ∈ map fst modules)).
  { unfold URL_TO_CONFIG_MAP in Hu.
    repeat (apply elem_of_cons in Hu as [[= -> -> ->]|Hu];
      [match goal with |- context [(?k, _) ∈ _] =>
         exists (default [] (rec_get k SIDEBAR_MODULES_DEFAULT)); split_and!; apply (bool_decide_unpack _); vm_compute; reflexivity end|]).
    inversion Hu. }
  destruct Hdef as (modules & Hin & He & Hm). destruct (Hc _ _ Hin) as (s & Es & Hs).
  apply Hs, rec_get_keys in He as [b Eb]. apply Hs, rec_get_keys in Hm as [m Em]. by exists s, b, m.
Qed.

(** What the two readers of the option make of a section and a module. *)
Lemma admin_reads section module config s b m :
  wf_fields (sidebar_json config) = true →
  rec_get section config = Some s → rec_get "enabled" s = Some b → rec_get module s = Some m →
  admin_allows section module (mergeWithDefaultSidebarModules (JObj (sidebar_json config))) = b && m.
Proof.
  intros Hw Es Eb Em.
  assert (Hk : obj_get section (sidebar_json config) = Some (JObj (flag_fields s))) by (by rewrite sidebar_get, Es).
  destruct (merged_section _ _ _ "enabled" (JBool b) Hw Hk) as (sec1 & H1 & H2); [by rewrite flag_get, Eb|].
  destruct (merged_section _ _ _ module (JBool m) Hw Hk) as (sec2 & H3 & H4); [by rewrite flag_get, Em|].
  rewrite H1 in H3. injection H3 as <-. unfold admin_allows. rewrite H1. cbn [json_truthy json_prop].
  rewrite H2, H4. by destruct b, m.
Qed.

Lemma guard_reads raw status s parsed section module :
  getCachedStatus raw = Some status → json_prop "SidebarModulesAdmin" status = Some (JStr s) →
  nonempty (trim s) = true → JSON_parse s = Some parsed →
  isSidebarModuleEnabled raw section module
  = match json_prop section parsed with
    | Some sec => if json_truthy sec then negb (flag_false (json_prop "enabled" sec)) && negb (flag_false (json_prop module sec)) else true
    | None => true
    end.
Proof.
  intros Hc Hp Ht Hj. unfold isSidebarModuleEnabled. rewrite Hc.
  assert (Hs : json_truthy status = true) by (by destruct status). rewrite Hs, Hp. unfold no_text.
  cbn [json_truthy json_toString default from_option id]. rewrite (trim_nonempty _ Ht), Ht. cbn [negb orb]. rewrite Hj.
  destruct (json_prop section parsed) as [sec|]; [|done]. destruct (json_truthy sec); [|done].
  by destruct (flag_false (json_prop "enabled" sec)).
Qed.

(** C7: the switches of the sidebar take effect.  Whatever was stored and however the
    switches were set since, what is saved is what everyone sees: for every page that
    has a switch, the sidebar has its entry, and the guard of the page lets visitors
    in, exactly if its module and its section are on; and the form opens with the same
    switches. *)
Theorem saved_sidebar_seen stored evs s raw status url section module :
  sidebar_submit stored evs = Some s → wf_fields (sidebar_json (sidebar_values stored evs)) = true →
  getCachedStatus raw = Some status → json_prop "SidebarModulesAdmin" status = Some (JStr s) →
  rec_get url URL_TO_CONFIG_MAP = Some (section, module) →
  isModuleEnabled url (parseSidebarConfig (Some s)) None = module_on (sidebar_values stored evs) section module
  ∧ isSidebarModuleEnabled raw section module = module_on (sidebar_values stored evs) section module
  ∧ parseSidebarModulesAdmin (Some s) = sidebar_values stored evs.
Proof.
  unfold sidebar_submit. pose proof (shape_values stored evs) as Hshape. set (c := sidebar_values stored evs) in *.
  destruct (str_eqb _ _); [done|]. intros <-%Some_inj Hw Hc Hp Hu.
  destruct (covered_url _ _ _ c (sidebar_covers _ Hshape) Hu) as (sec & b & m & Es & Eb & Em).
  assert (Hon : module_on c section module = b && m) by (unfold module_on; by rewrite Es, Eb, Em).
  assert (Hj : wf_json (JObj (sidebar_json c)) = true) by done.
  assert (Hparse : JSON_parse (serializeSidebarModulesAdmin c) = Some (JObj (sidebar_json c))) by (by apply JSON_parse_stringify).
  assert (Htext : nonempty (trim (serializeSidebarModulesAdmin c)) = true) by (by apply stringify_text).
  rewrite Hon. split_and!.
  - unfold isModuleEnabled, parseSidebarConfig. rewrite Hu, Htext, Hparse, (admin_reads _ _ _ sec b m) by done.
    cbn [user_allows]. by destruct (b && m).
  - rewrite (guard_reads _ _ _ _ _ _ Hc Hp Htext Hparse). cbn [json_prop]. rewrite sidebar_get, Es.
    cbn [mbind option_bind section_json json_truthy json_prop]. fold (flag_fields sec). rewrite !flag_get, Eb, Em.
    by destruct b, m.
  - by apply sidebar_reread.
Qed.

(** Drawing logs are switched off, and the chat area with them. *)
Definition sample_toggles : list SidebarEvent := [SToggle "console" "midjourney" false; SToggle "chat" "enabled" false].

Definition sample_sidebar : jsstr := default [] (sidebar_submit None sample_toggles).
Definition sample_sidebar_status : json := JObj [("SidebarModulesAdmin", JStr sample_sidebar)].

Lemma saved_sidebar_seen_witness :
  isModuleEnabled "/playground" (parseSidebarConfig (Some sample_sidebar)) None = false
  ∧ isSidebarModuleEnabled (Some (JSON_stringify sample_sidebar_status)) "chat" "playground" = false.
Proof.
  destruct (saved_sidebar_seen None sample_toggles sample_sidebar (Some (JSON_stringify sample_sidebar_status)) sample_sidebar_status
    "/playground" "chat" "playground" ltac:(vm_compute; reflexivity) ltac:(vm_compute; reflexivity)
    ltac:(vm_compute; reflexivity) eq_refl eq_refl) as (-> & -> & _).
  vm_compute. split; reflexivity.
Defined.

(** ** The user's switches *)

(** The user's own switches do what they show.  Once the card is saved, an entry
    with a switch is in the sidebar exactly if the administrator allows it and the
    switches of its section and of its module are on, whatever object was loaded and
    however the switches were set; an account that may not configure its sidebar sees
    what the administrator allows. *)
Theorem user_switches_rule config0 evs user admin url section module :
  wf_fields (card_events config0 evs) = true →
  rec_get url URL_TO_CONFIG_MAP = Some (section, module) →
  let config := card_events config0 evs in
  isModuleEnabled url admin (user_config (Some (card_save config true user)))
  = admin_allows section module admin
    && (bool_decide (su_sidebar_settings user = Some false)
        || section_switch config section && module_switch config section module).
Proof.
  intros Hw Hu config. unfold isModuleEnabled. rewrite Hu. unfold user_config. cbn [card_save su_sidebar_settings su_sidebar_modules].
  destruct (admin_allows section module admin); [|done]. cbn [andb].
  destruct (bool_decide _); [done|]. cbn [orb]. fold config in Hw. clearbody config.
  assert (Hj : wf_json (JObj config) = true) by done.
  unfold parseUserSidebarConfig. rewrite (stringify_text _ Hj), JSON_parse_stringify by done.
  unfold user_allows, section_switch, module_switch. cbn [json_prop].
  destruct (obj_get section config) as [v|]; [|done]. cbn [mbind option_bind].
  destruct (json_truthy v) eqn:Ev; [by destruct (flag_false (json_prop "enabled" v))|]. by destruct v.
Qed.

Lemma user_switches_rule_witness :
  isModuleEnabled "/keys" DEFAULT_SIDEBAR_MODULES
    (user_config (Some (card_save (card_events card_defaults [CModule "console" "token" false]) true
       {| su_role := 1; su_sidebar_settings := None; su_sidebar_modules := None |}))) = false.
Proof.
  rewrite (user_switches_rule card_defaults [CModule "console" "token" false]
    {| su_role := 1; su_sidebar_settings := None; su_sidebar_modules := None |} DEFAULT_SIDEBAR_MODULES "/keys" "console" "token"
    ltac:(vm_compute; reflexivity) eq_refl).
  vm_compute. reflexivity.
Defined.

(** What an item puts into the sidebar: the pages it leads to, those of a collapsible
    item each, or the list of the chats. *)
Inductive SidebarEntry : Type :=
| EntryPage (url : jsstr)
| EntryChats (title : jsstr).

Definition item_entries (item : NavItem) : list SidebarEntry :=
  match item with
  | NavLink _ url _ => [EntryPage url]
  | NavCollapsible _ items => map (λ '(_, url), EntryPage url) items
  | NavChatPresets title => [EntryChats title]
  end.

Definition shown_entries (groups : list NavGroup) : list SidebarEntry :=
  flat_map (λ g, flat_map item_entries (ng_items g)) groups.

Lemma enabled_without url admin user : isModuleEnabled url admin user = true → isModuleEnabled url admin None = true.
Proof.
  unfold isModuleEnabled. destruct (rec_get url URL_TO_CONFIG_MAP) as [[section module]|]; [|done].
  by destruct (admin_allows section module admin).
Qed.

Lemma filtered_entry entry items admin user :
  entry ∈ flat_map item_entries (filterNavItems items admin user) ↔
  ∃ item, item ∈ items
  ∧ match item with
    | NavLink _ u configUrls =>
        entry = EntryPage u ∧ (u = [] ∨ ∃ c, c ∈ default [u] configUrls ∧ isModuleEnabled c admin user = true)
    | NavCollapsible _ subs => ∃ t u, entry = EntryPage u ∧ (t, u) ∈ subs ∧ isModuleEnabled u admin user = true
    | NavChatPresets title =>
        entry = EntryChats title ∧ admin_allows "chat" "chat" admin = true ∧ user_allows "chat" "chat" user = true
    end.
Proof.
  rewrite list_elem_of_In, in_flat_map. split.
  - intros (item & Hin & Hu%list_elem_of_In). apply list_elem_of_In in Hin. unfold filterNavItems in Hin.
    apply elem_of_filterb in Hin as [(item0 & -> & H0)%elem_of_mapb Hv]. exists item0. split; [done|].
    destruct item0 as [title u configUrls|title subs|title]; cbn [filter_sub_items item_entries isNavItemVisible] in *.
    + apply list_elem_of_singleton in Hu as ->. split; [done|]. destruct (nonempty u) eqn:En; [|left; by destruct u].
      right. apply existsb_exists in Hv as (c & Hc%list_elem_of_In & Hc'). by exists c.
    + apply elem_of_mapb in Hu as ([t u] & -> & [Hs He]%elem_of_filterb). by exists t, u.
    + apply list_elem_of_singleton in Hu as ->. by destruct (admin_allows _ _ _).
  - intros (item & Hin & H). exists (filter_sub_items admin user item). rewrite <- !list_elem_of_In.
    unfold filterNavItems. rewrite elem_of_filterb, elem_of_mapb.
    destruct item as [title u configUrls|title subs|title]; cbn [filter_sub_items item_entries isNavItemVisible].
    + destruct H as [-> Hc]. split; [|left]. split; [by exists (NavLink title u configUrls)|].
      destruct (nonempty u) eqn:En; [|done]. destruct Hc as [->|(c & Hc & Hc')]; [done|].
      apply existsb_exists. exists c. by rewrite <- list_elem_of_In.
    + destruct H as (t & u & -> & Hs & He).
      assert (Hf : (t, u) ∈ List.filter (λ '(_, url), isModuleEnabled url admin user) subs) by (by apply elem_of_filterb).
      split; [|apply elem_of_mapb; by exists (t, u)]. split; [by exists (NavCollapsible title subs)|].
      apply existsb_exists. exists (t, u). by rewrite <- list_elem_of_In.
    + destruct H as (-> & -> & ->). split; [|left]. split; [by exists (NavChatPresets title)|done].
Qed.

Lemma shown_entry entry modules user groups :
  entry ∈ shown_entries (useSidebarConfig modules user groups) ↔
  ∃ g, g ∈ groups ∧ entry ∈ flat_map item_entries (filterNavItems (ng_items g) (parseSidebarConfig modules) (user_config user)).
Proof.
  unfold shown_entries, useSidebarConfig. rewrite list_elem_of_In, in_flat_map. split.
  - intros (g & Hg%list_elem_of_In & Hu%list_elem_of_In). apply elem_of_filterb in Hg as [(g0 & -> & H0)%elem_of_mapb _].
    by exists g0.
  - intros (g & Hg & Hu).
    exists {| ng_id := ng_id g; ng_title := ng_title g;
              ng_items := filterNavItems (ng_items g) (parseSidebarConfig modules) (user_config user) |}.
    rewrite <- !list_elem_of_In. split; [|exact Hu].
    apply elem_of_filterb. split; [apply elem_of_mapb; by exists g|]. cbn [ng_items].
    by destruct (filterNavItems _ _ _); [inversion Hu|].
Qed.

(** What the administrator's configuration and the switches of the user say of an entry:
    a page needs its module, the list of the chats the module of the chats. *)
Definition entry_allowed (entry : SidebarEntry) (admin : list (jsstr * json)) (user : option json) : bool :=
  match entry with
  | EntryPage url =>
      match rec_get url URL_TO_CONFIG_MAP with
      | Some (section, module) => admin_allows section module admin && user_allows section module user
      | None => true
      end
  | EntryChats _ => admin_allows "chat" "chat" admin && user_allows "chat" "chat" user
  end.

Lemma enabled_allowed url admin user : isModuleEnabled url admin user = true → entry_allowed (EntryPage url) admin user = true.
Proof.
  unfold isModuleEnabled. cbn [entry_allowed]. destruct (rec_get url URL_TO_CONFIG_MAP) as [[section module]|]; [|done].
  by destruct (admin_allows section module admin).
Qed.



(** ** A flag that is a number *)

(** A module switched off by a number is only hidden.  Where the stored text has 0
    for a module, which the form of the administrator shows as off, the sidebar hides
    the entry, but the guard of the page lets everyone in. *)
Theorem zero_flag_guard_open raw status s kvs section sec module n url :
  getCachedStatus raw = Some status → json_prop "SidebarModulesAdmin" status = Some (JStr s) →
  nonempty (trim s) = true → JSON_parse s = Some (JObj kvs) → wf_fields kvs = true →
  rec_get url URL_TO_CONFIG_MAP = Some (section, module) →
  obj_get section kvs = Some (JObj sec) → obj_get module sec = Some (JNum n) → num_is 0 n = true →
  flag_false (obj_get "enabled" sec) = false →
  toBoolean (obj_get module sec) true = false
  ∧ isModuleEnabled url (parseSidebarConfig (Some s)) None = false ∧ isSidebarModuleEnabled raw section module = true.
Proof.
  intros Hc Hp Ht Hj Hw Hu Hs Hm Hn He. split_and!.
  - rewrite Hm. cbn [toBoolean]. unfold num_is in *. destruct (num_to_Z n); [|done]. by apply Z.eqb_eq in Hn as ->.
  - unfold isModuleEnabled, parseSidebarConfig. rewrite Hu, Ht, Hj. unfold admin_allows.
    destruct (merged_section kvs section sec module (JNum n) Hw Hs Hm) as (sec' & E1 & E2). rewrite E1.
    cbn [json_prop]. rewrite E2. cbn [flag_true]. by rewrite andb_false_r.
  - rewrite (guard_reads _ _ _ _ _ _ Hc Hp Ht Hj). cbn [json_prop]. rewrite Hs. cbn [json_truthy json_prop].
    by rewrite He, Hm.
Qed.

Definition zero_sidebar : jsstr := "{\qchat\q: {\qenabled\q: true, \qplayground\q: 0}}".

Lemma zero_flag_guard_open_witness :
  let raw := Some (JSON_stringify (JObj [("SidebarModulesAdmin", JStr zero_sidebar)])) in
  isModuleEnabled "/playground" (parseSidebarConfig (Some zero_sidebar)) None = false
  ∧ isSidebarModuleEnabled raw "chat" "playground" = true.
Proof.
  exact (proj2 (zero_flag_guard_open (Some (JSON_stringify (JObj [("SidebarModulesAdmin", JStr zero_sidebar)])))
    (JObj [("SidebarModulesAdmin", JStr zero_sidebar)]) zero_sidebar
    [("chat", JObj [("enabled", JBool true); ("playground", JNum zero)])] "chat"
    [("enabled", JBool true); ("playground", JNum zero)] "playground" zero "/playground"
    ltac:(vm_compute; reflexivity) eq_refl ltac:(vm_compute; reflexivity) ltac:(vm_compute; reflexivity)
    ltac:(vm_compute; reflexivity) eq_refl eq_refl eq_refl eq_refl eq_refl)).
Defined.
