(* ===== verification/SettingsHook.v ===== *)
(** * Forms of settings

    [features/system-settings/hooks/use-settings-form.ts]: the hook behind the settings
    forms.  It nests the options of the server, whose names have dots, shows them in a
    form, and sends the ones that were changed.  The form library is not part of the
    repository: the fields it marks as changed are an argument.  Paths in which an
    object would be put below a value given with a dotted name are outside the model,
    since the hook would change the given value in place. *)
From Stdlib Require Import NArith ZArith.
From stdpp Require Import list.
From S2P Require Import Prelude JsString JsNumber Json JsArray JsonRoundtrip JsRecord NavModules RatioSync.

Definition isPlainObject (v : json) : bool := match v with JObj _ => true | _ => false end.

(** [parentKey ? `${parentKey}.${key}` : key]; no parent is the empty text. *)
Definition nextKey (parentKey key : jsstr) : jsstr := if nonempty parentKey then parentKey ++ "." ++ key else key.

(** The assignments of [flattenValues] in order. *)
Fixpoint flat_paths (v : json) (key : jsstr) : list (jsstr * json) :=
  match v with
  | JObj kvs => flat_map (λ '(k, f), f (nextKey key k)) (entries (map (λ '(k, w), (k, flat_paths w)) kvs))
  | _ => [(key, v)]
  end.

Definition flattenValues (values : json) : list (jsstr * json) :=
  if isPlainObject values then fold_left set_entry (flat_paths values []) [] else [].

(** [dirtyFields] of the form. *)
Inductive Dirty : Type :=
| DirtyYes
| DirtyObject (kvs : list (jsstr * Dirty))
| DirtyNo.

(** [values[key]] of an object or an array; an index beyond the array gives nothing. *)
Definition value_at (key : jsstr) (values : option json) : option json :=
  match values with
  | Some (JObj kvs) => obj_get key kvs
  | Some (JArr l) => n ← array_index key; l !! (N.to_nat n)
  | _ => None
  end.

(** The assignments of [collectDirtyValues] in order. *)
Fixpoint dirty_paths (d : Dirty) (values : option json) (key : jsstr) : list (jsstr * option json) :=
  match d with
  | DirtyYes => [(key, values)]
  | DirtyNo => []
  | DirtyObject kvs =>
      flat_map (λ '(k, f), f (value_at k values) (nextKey key k)) (entries (map (λ '(k, d), (k, dirty_paths d)) kvs))
  end.

Definition collectDirtyValues (d : Dirty) (values : json) : list (jsstr * option json) :=
  match d with
  | DirtyObject _ => fold_left (λ r '(k, v), rec_set k v r) (dirty_paths d (Some values) []) []
  | _ => []
  end.

(** [setDeepValue] over the segments of the path. *)
Fixpoint set_deep (segments : list jsstr) (value : json) (target : list (jsstr * json)) : list (jsstr * json) :=
  match segments with
  | [] => target
  | [segment] => obj_set segment value target
  | segment :: rest =>
      let current := match obj_get segment target with Some (JObj kvs) => kvs | _ => [] end in
      obj_set segment (JObj (set_deep rest value current)) target
  end.

Definition DOT : N := 46.

Definition setDeepValue (target : list (jsstr * json)) (path : jsstr) (value : json) : list (jsstr * json) :=
  set_deep (split_char DOT path) value target.

(** One entry of [expandDotPaths]: the value and its expansion. *)
Definition expand_entry (result : list (jsstr * json)) (entry : jsstr * (json * json)) : list (jsstr * json) :=
  let '(key, (value, expanded)) := entry in
  if includes "." key then setDeepValue result key value else obj_set key expanded result.

Fixpoint expandDotPaths (values : json) : json :=
  match values with
  | JObj kvs => JObj (fold_left expand_entry (entries (map (λ '(k, v), (k, (v, expandDotPaths v))) kvs)) [])
  | _ => values
  end.

(** [defaultCompare]. *)
Definition is_composite (v : json) : bool := match v with JArr _ | JObj _ => true | _ => false end.

Definition defaultCompare (a b : option json) : bool :=
  match a, b with
  | None, None => true
  | Some a, Some b =>
      if is_composite a && is_composite b then str_eqb (JSON_stringify a) (JSON_stringify b) else strict_eq a b
  | _, _ => false
  end.

(** [data] while [onSubmit] is under way. *)
Record SettingsHook : Type := {
  sh_values : json;
  sh_defaults : json;
  sh_baseline : list (jsstr * json);
  sh_serialized : jsstr;
  sh_saving : option json
}.

Definition hook_shown (values : json) (saving : option json) : SettingsHook :=
  let flattened := flattenValues values in
  {| sh_values := values; sh_defaults := values; sh_baseline := flattened;
     sh_serialized := JSON_stringify (JObj flattened); sh_saving := saving |}.

Definition hook_mount (defaultValues : json) : SettingsHook := hook_shown (expandDotPaths defaultValues) None.

(** The effect on other default values. *)
Definition defaults_given (defaultValues : json) (h : SettingsHook) : SettingsHook :=
  let expandedDefaults := expandDotPaths defaultValues in
  if str_eqb (JSON_stringify (JObj (flattenValues expandedDefaults))) (sh_serialized h) then h
  else hook_shown expandedDefaults (sh_saving h).

Definition hook_edit (values : json) (h : SettingsHook) : SettingsHook :=
  {| sh_values := values; sh_defaults := sh_defaults h; sh_baseline := sh_baseline h;
     sh_serialized := sh_serialized h; sh_saving := sh_saving h |}.

(** The changed fields of a submission; none is the message that there are no changes. *)
Definition changedEntries (d : Dirty) (h : SettingsHook) : list (jsstr * option json) :=
  List.filter (λ '(key, value), negb (defaultCompare value (obj_get key (sh_baseline h))))
    (entries (collectDirtyValues d (sh_values h))).

Definition hook_submit (d : Dirty) (h : SettingsHook) : SettingsHook :=
  match changedEntries d h with
  | [] => h
  | _ => {| sh_values := sh_values h; sh_defaults := sh_defaults h; sh_baseline := sh_baseline h;
            sh_serialized := sh_serialized h; sh_saving := Some (sh_values h) |}
  end.

(** [onSubmit] returns, or throws. *)
Definition hook_settled (ok : bool) (h : SettingsHook) : SettingsHook :=
  match sh_saving h with
  | Some data => if ok then hook_shown data None
                 else {| sh_values := sh_values h; sh_defaults := sh_defaults h; sh_baseline := sh_baseline h;
                         sh_serialized := sh_serialized h; sh_saving := None |}
  | None => h
  end.

Definition handleReset (h : SettingsHook) : SettingsHook := hook_edit (sh_defaults h) h.

Example expand_ex :
  expandDotPaths (JObj [("SystemName", JStr "x"); ("theme.frontend", JStr "default"); ("legal.a", JNull); ("theme.dark", JBool true)])
  = JObj [("SystemName", JStr "x"); ("theme", JObj [("frontend", JStr "default"); ("dark", JBool true)]); ("legal", JObj [("a", JNull)])].
Proof. vm_compute. reflexivity. Qed.
