(* ===== verification/SettingsHookTheorems.v ===== *)
(** * Properties of the settings forms

    Of a form filled with the nested settings the pages give it, a submission sends
    exactly the settings that differ from the server's, under their dotted names;
    settings given under dotted names are nested and flattened back; and what
    overwrites the input of the administrator. *)
From Stdlib Require Import NArith ZArith.
From stdpp Require Import list.
From S2P Require Import Prelude JsString JsNumber Json JsArray JsonRoundtrip JsRecord NavModules RatioSync SettingsHook.

(** ** Paths *)

(** The value at a path; the empty path is the value itself. *)
Fixpoint get_in (segs : list jsstr) (v : json) : option json :=
  match segs with
  | [] => Some v
  | s :: rest => match v with JObj kvs => w ← obj_get s kvs; get_in rest w | _ => None end
  end.

Definition seg_ok (s : jsstr) : bool := nonempty s && forallb (λ x, negb (N.eqb x DOT)) s.

(** Objects whose names are segments of paths, each once. *)
Fixpoint tree_ok (v : json) : bool :=
  match v with
  | JObj kvs => forallb (λ '(k, w), seg_ok k && tree_ok w) kvs && nodup_keys (map fst kvs)
  | _ => true
  end.

Lemma tree_fields kvs :
  tree_ok (JObj kvs) = true ↔ (∀ k w, (k, w) ∈ kvs → seg_ok k = true ∧ tree_ok w = true) ∧ NoDup (map fst kvs).
Proof.
  cbn [tree_ok]. rewrite andb_true_iff, nodup_keys_spec, forallb_forall. split; intros [H1 H2]; (split; [|done]).
  - intros k w Hin%list_elem_of_In. specialize (H1 _ Hin). cbn in H1. by apply andb_prop in H1.
  - intros [k w] Hin%list_elem_of_In. destruct (H1 _ _ Hin) as [-> ->]. done.
Qed.

Lemma get_elem k v kvs : obj_get k kvs = Some v → (k, v) ∈ kvs.
Proof. rewrite obj_get_rec. apply rec_get_elem. Qed.

Lemma elem_get k v kvs : NoDup (map fst kvs) → (k, v) ∈ kvs → obj_get k kvs = Some v.
Proof. rewrite obj_get_rec. intros Hd. by apply rec_elem_get. Qed.

Lemma join_segs_ne segs : segs ≠ [] → forallb seg_ok segs = true → nonempty (join "." segs) = true.
Proof.
  destruct segs as [|s segs]; [done|]. cbn [forallb]. intros _ [[Hs _]%andb_prop _]%andb_prop.
  destruct s; [done|]. by destruct segs.
Qed.

Lemma join_app a b : a ≠ [] → b ≠ [] → join "." (a ++ b) = join "." a ++ "." ++ join "." b.
Proof.
  intros Ha Hb. induction a as [|x a IH]; [done|]. destruct a as [|y a].
  - destruct b as [|z b]; [done|]. cbn [app]. by rewrite join_cons.
  - change ((x :: y :: a) ++ b) with (x :: ((y :: a) ++ b)). rewrite (join_cons _ x (y :: a)), (join_cons _ x) by done.
    rewrite IH by done. by rewrite !app_assoc.
Qed.

Lemma nextKey_join pre k : forallb seg_ok pre = true → nextKey (join "." pre) k = join "." (pre ++ [k]).
Proof.
  intros Hp. unfold nextKey. destruct pre as [|s pre]; [done|]. rewrite join_segs_ne by done. by rewrite join_app.
Qed.

Lemma flat_object kvs key p w :
  (p, w) ∈ flat_paths (JObj kvs) key ↔ ∃ k v, (k, v) ∈ kvs ∧ (p, w) ∈ flat_paths v (nextKey key k).
Proof.
  cbn [flat_paths]. rewrite list_elem_of_In, in_flat_map. split.
  - intros ([k f] & Hin%list_elem_of_In & Hf%list_elem_of_In). rewrite entries_elem in Hin.
    apply elem_of_mapb in Hin as ([k' v] & [= -> ->] & Hv). by exists k', v.
  - intros (k & v & Hin & Hp). exists (k, flat_paths v). split; [|by apply list_elem_of_In].
    apply list_elem_of_In. rewrite entries_elem. apply elem_of_mapb. by exists (k, v).
Qed.

(** What [flattenValues] assigns are the leaves, under their joined paths. *)
Lemma flat_spec v pre p w :
  tree_ok v = true → forallb seg_ok pre = true →
  (p, w) ∈ flat_paths v (join "." pre) ↔
  ∃ segs, forallb seg_ok segs = true ∧ p = join "." (pre ++ segs) ∧ get_in segs v = Some w ∧ isPlainObject w = false.
Proof.
  revert pre. induction v as [|b|n|s|l IH|kvs IH] using json_nested_ind; intros pre Ht Hp;
    try (cbn [flat_paths]; split;
      [intros [= -> ->]%list_elem_of_singleton; exists []; by rewrite app_nil_r
      |intros (segs & _ & -> & Hg & _); destruct segs; [|done]; injection Hg as <-; rewrite app_nil_r; left]).
  rewrite flat_object. apply tree_fields in Ht as [Ht Hd]. split.
  - intros (k & v & Hin & Hf). destruct (Ht _ _ Hin) as [Hk Hv]. rewrite nextKey_join in Hf by done.
    apply (IH k v) in Hf as (segs & Hs & -> & Hg & Hw);
      [|by apply list_elem_of_In|done|by rewrite forallb_app, Hp; cbn; rewrite Hk].
    exists (k :: segs). split_and!; [cbn; by rewrite Hk|by rewrite <- app_assoc| |done].
    cbn [get_in]. rewrite (elem_get k v) by done. done.
  - intros (segs & Hs & -> & Hg & Hw). destruct segs as [|k segs].
    { cbn in Hg. injection Hg as <-. done. }
    cbn [get_in] in Hg. destruct (obj_get k kvs) as [v|] eqn:E; [|done]. cbn [mbind option_bind] in Hg.
    apply get_elem in E. exists k, v. split; [done|]. destruct (Ht _ _ E) as [Hk Hv]. rewrite nextKey_join by done.
    apply (IH k v); [by apply list_elem_of_In|done|by rewrite forallb_app, Hp; cbn; rewrite Hk|].
    cbn [forallb] in Hs. apply andb_prop in Hs as [_ Hs]. exists segs. split_and!; try done. by rewrite <- app_assoc.
Qed.

Lemma segs_split segs : segs ≠ [] → forallb seg_ok segs = true → split_char DOT (join "." segs) = segs.
Proof.
  intros Hne Hs. apply (split_join DOT); [done|]. rewrite Forall_forall. intros s Hin.
  rewrite forallb_forall in Hs. by apply Hs, andb_prop in Hin as [_ Hin].
Qed.

Lemma fold_rec_elem {A} p (w : A) l o :
  rec_get p (fold_left (λ r '(k, v), rec_set k v r) l o) = Some w → (p, w) ∈ l ∨ rec_get p o = Some w.
Proof.
  revert o. induction l as [|[k v] l IH]; intros o; cbn [fold_left]; [by right|].
  intros [Hin|Ho]%IH; [left; by right|]. rewrite rec_get_set in Ho.
  destruct (str_eqb_spec p k) as [->|?]; [injection Ho as <-; left; left|by right].
Qed.

Lemma fold_rec_get {A} p (w : A) l o :
  (∀ w', (p, w') ∈ l → w' = w) → ((p, w) ∈ l ∨ rec_get p o = Some w) →
  rec_get p (fold_left (λ r '(k, v), rec_set k v r) l o) = Some w.
Proof.
  revert o. induction l as [|[k v] l IH]; intros o Hf Hin; cbn [fold_left].
  { destruct Hin as [Hin|?]; [inversion Hin|done]. }
  apply IH; [intros w' Hw'; apply Hf; by right|]. rewrite rec_get_set.
  destruct (str_eqb_spec p k) as [->|Hne].
  - right. f_equal. apply Hf. left.
  - destruct Hin as [[[= -> ->]|Hin]%elem_of_cons|Ho]; [done|by left|by right].
Qed.

Lemma fold_rec_distinct {A} (l o : record A) : distinct o → distinct (fold_left (λ r '(k, v), rec_set k v r) l o).
Proof. revert o. induction l as [|[k v] l IH]; intros o Ho; [done|]. cbn [fold_left]. by apply IH, distinct_set. Qed.

Lemma fold_set_rec l o : fold_left set_entry l o = fold_left (λ r '(k, v), rec_set k v r) l o.
Proof.
  revert o. induction l as [|[k v] l IH]; intros o; [done|]. cbn [fold_left]. unfold set_entry at 2. cbn [fst snd].
  by rewrite obj_set_rec, IH.
Qed.

(** The flattened values: the leaves by their paths. *)
Lemma flatten_get v p w :
  tree_ok v = true → isPlainObject v = true →
  obj_get p (flattenValues v) = Some w ↔
  ∃ segs, segs ≠ [] ∧ forallb seg_ok segs = true ∧ p = join "." segs ∧ get_in segs v = Some w ∧ isPlainObject w = false.
Proof.
  intros Ht Ho. unfold flattenValues. rewrite Ho, fold_set_rec, obj_get_rec.
  assert (Hspec : ∀ w, (p, w) ∈ flat_paths v [] ↔ ∃ segs, segs ≠ [] ∧ forallb seg_ok segs = true ∧ p = join "." segs
    ∧ get_in segs v = Some w ∧ isPlainObject w = false).
  { intros w'. rewrite (flat_spec v [] p w' Ht eq_refl). split.
    - intros (segs & Hs & -> & Hg & Hw). exists segs. split_and!; try done. intros ->. cbn in Hg. congruence.
    - intros (segs & _ & Hs & -> & Hg & Hw). by exists segs. }
  split.
  - intros [Hin|?]%fold_rec_elem; [by apply Hspec|done].
  - intros H. apply fold_rec_get; [|left; by apply Hspec]. intros w' Hw'%Hspec.
    destruct H as (segs & Hne & Hs & -> & Hg & _), Hw' as (segs' & Hne' & Hs' & E & Hg' & _).
    assert (segs = segs') as <-; [|congruence]. rewrite <- (segs_split segs), <- (segs_split segs') by done. by f_equal.
Qed.

(** ** Setting a value at a path *)

Definition below (v : option json) : list (jsstr * json) := match v with Some (JObj kvs) => kvs | _ => [] end.

Lemma set_deep_cons s rest v o :
  rest ≠ [] → set_deep (s :: rest) v o = obj_set s (JObj (set_deep rest v (below (obj_get s o)))) o.
Proof. by destruct rest. Qed.

Lemma get_set_deep segs v o : segs ≠ [] → get_in segs (JObj (set_deep segs v o)) = Some v.
Proof.
  revert o. induction segs as [|s segs IH]; intros o Hne; [done|]. destruct (decide (segs = [])) as [->|Hs].
  - cbn [set_deep get_in]. by rewrite obj_get_set, str_eqb_refl.
  - rewrite set_deep_cons by done. cbn [get_in]. rewrite obj_get_set, str_eqb_refl. cbn [mbind option_bind]. by apply IH.
Qed.

Lemma get_in_nil segs : segs ≠ [] → get_in segs (JObj []) = None.
Proof. by destruct segs. Qed.

(** Only the path itself, what is above and what is below it change. *)
Lemma get_set_other segs segs' v o :
  segs ≠ [] → ¬ segs `prefix_of` segs' → ¬ segs' `prefix_of` segs →
  get_in segs' (JObj (set_deep segs v o)) = get_in segs' (JObj o).
Proof.
  revert segs' o. induction segs as [|s segs IH]; intros segs' o Hne H1 H2; [done|].
  destruct segs' as [|s' segs']; [destruct H2; apply prefix_nil|]. cbn [get_in].
  destruct (decide (segs = [])) as [->|Hs].
  - cbn [set_deep]. rewrite obj_get_set. destruct (str_eqb_spec s' s) as [->|?]; [|done].
    destruct H1. apply prefix_cons, prefix_nil.
  - rewrite set_deep_cons, obj_get_set by done. destruct (str_eqb_spec s' s) as [->|?]; [|done].
    cbn [mbind option_bind]. rewrite IH; [|done|contradict H1; by apply prefix_cons|contradict H2; by apply prefix_cons].
    assert (Hne' : segs' ≠ []) by (intros ->; destruct H2; apply prefix_cons, prefix_nil).
    destruct (obj_get s o) as [[]|]; cbn [below]; try (rewrite get_in_nil by done); try done; by destruct segs'.
Qed.

(** A leaf afterwards is the new value or one that was there. *)
Lemma leaf_set_deep segs segs' v o w :
  segs ≠ [] → isPlainObject v = false → isPlainObject w = false →
  get_in segs' (JObj (set_deep segs v o)) = Some w → (segs' = segs ∧ w = v) ∨ get_in segs' (JObj o) = Some w.
Proof.
  intros Hne Hv Hw Hg. destruct (decide (segs `prefix_of` segs')) as [[ext ->]|H1].
  - left. destruct ext as [|e ext].
    + rewrite app_nil_r in *. rewrite get_set_deep in Hg by done. by injection Hg as <-.
    + exfalso. assert (Happ : ∀ a b u, get_in (a ++ b) u = (x ← get_in a u; get_in b x)).
      { induction a as [|x a IH]; intros b u; [done|]. cbn [app get_in]. destruct u; try done.
        destruct (obj_get x kvs); [|done]. cbn [mbind option_bind]. apply IH. }
      rewrite Happ, get_set_deep in Hg by done. cbn [mbind option_bind get_in] in Hg. by destruct v.
  - destruct (decide (segs' `prefix_of` segs)) as [[ext ->]|H2]; [|right; by rewrite get_set_other in Hg].
    exfalso. destruct ext as [|e ext]; [destruct H1; by rewrite app_nil_r|]. clear H1 Hne.
    revert o Hg. induction segs' as [|s segs' IH]; intros o Hg.
    { cbn in Hg. by injection Hg as <-. }
    cbn [app] in Hg. rewrite set_deep_cons in Hg by (by destruct segs'). cbn [get_in] in Hg.
    rewrite obj_get_set, str_eqb_refl in Hg. by apply IH in Hg.
Qed.

Lemma tree_set k v o : seg_ok k = true → tree_ok v = true → tree_ok (JObj o) = true → tree_ok (JObj (obj_set k v o)) = true.
Proof.
  intros Hk Hv [Ht Hd]%tree_fields. apply tree_fields. split.
  - intros k' w Hin. apply elem_get in Hin; [|rewrite obj_set_rec; by apply distinct_set].
    rewrite obj_get_set in Hin. destruct (str_eqb_spec k' k) as [->|?]; [by injection Hin as <-|].
    by apply Ht, get_elem.
  - rewrite obj_set_rec. by apply distinct_set.
Qed.

Lemma tree_set_deep segs v o :
  forallb seg_ok segs = true → tree_ok v = true → tree_ok (JObj o) = true → tree_ok (JObj (set_deep segs v o)) = true.
Proof.
  revert o. induction segs as [|s segs IH]; intros o Hs Hv Ho; [done|]. cbn [forallb] in Hs. apply andb_prop in Hs as [Hs Hss].
  destruct (decide (segs = [])) as [->|Hne]; [by apply tree_set|]. rewrite set_deep_cons by done.
  apply tree_set; [done| |done]. apply IH; [done|done|].
  destruct (obj_get s o) as [w|] eqn:E; [|done]. apply get_elem in E. apply tree_fields in Ho as [Ho _].
  destruct (Ho _ _ E) as [_ Hw]. by destruct w.
Qed.

(** ** Nesting the options *)

(** Options under dotted names, the other form in which the hook takes its defaults
    (the pages of the program give nested objects, see [expand_nested]): values that are
    no objects, under names whose parts are not empty and of which none is the beginning
    of another. *)
Record dotted_options (opts : list (jsstr * json)) : Prop := {
  of_nodup : NoDup (map fst opts);
  of_leaf : ∀ k v, (k, v) ∈ opts → isPlainObject v = false;
  of_segs : ∀ k v, (k, v) ∈ opts → forallb seg_ok (split_char DOT k) = true;
  of_free : ∀ k k', k ∈ map fst opts → k' ∈ map fst opts → k ≠ k' → ¬ split_char DOT k `prefix_of` split_char DOT k'
}.

Lemma split_back k : join "." (split_char DOT k) = k.
Proof. apply (join_split DOT). Qed.

Lemma split_inj k k' : split_char DOT k = split_char DOT k' → k = k'.
Proof. intros E. by rewrite <- (split_back k), <- (split_back k'), E. Qed.

Lemma expand_flat_entry result k v : isPlainObject v = false →
  expand_entry result (k, (v, expandDotPaths v)) = set_deep (split_char DOT k) v result.
Proof.
  intros Hv. assert (He : expandDotPaths v = v) by (by destruct v). rewrite He. cbn [expand_entry].
  destruct (includes "." k) eqn:Ei; [done|].
  assert (Hk : forallb (λ x, negb (N.eqb x DOT)) k = true).
  { apply forallb_forall. intros x Hx. destruct (N.eqb_spec x DOT) as [->|?]; [|done].
    apply in_split in Hx as (a & b & ->). enough (includes "." (a ++ DOT :: b) = true) by congruence.
    apply includes_true. by exists a, b. }
  by rewrite split_char_none by done.
Qed.

Definition deep_entry (result : list (jsstr * json)) (entry : jsstr * json) : list (jsstr * json) :=
  set_deep (split_char DOT entry.1) entry.2 result.

Lemma expand_flat opts :
  dotted_options opts → ∃ l, Permutation l opts ∧ expandDotPaths (JObj opts) = JObj (fold_left deep_entry l []).
Proof.
  intros Hok. cbn [expandDotPaths]. exists (map (λ '(k, (v, _)), (k, v)) (entries (map (λ '(k, v), (k, (v, expandDotPaths v))) opts))).
  split.
  - rewrite entries_perm, map_map. rewrite (map_ext _ (λ x, x)) by (by intros [k v]). by rewrite map_id.
  - assert (Hin : ∀ k v e, (k, (v, e)) ∈ entries (map (λ '(k, v), (k, (v, expandDotPaths v))) opts) →
      isPlainObject v = false ∧ e = expandDotPaths v).
    { intros k v e Hin. rewrite entries_elem in Hin. apply elem_of_mapb in Hin as ([k' v'] & [= -> -> ->] & Hin).
      split; [|done]. by apply (of_leaf _ Hok k'). }
    f_equal. revert Hin. generalize (entries (map (λ '(k, v), (k, (v, expandDotPaths v))) opts)).
    generalize (@nil (jsstr * json)). intros r l. revert r. induction l as [|[k [v e]] l IH]; intros r Hin; [done|].
    cbn [fold_left map]. destruct (Hin k v e ltac:(left)) as [Hv ->]. rewrite expand_flat_entry by done.
    apply IH. intros k' v' e' H'. apply (Hin k' v' e'). by right.
Qed.

Lemma deep_fold l o :
  NoDup (map fst l) → (∀ k v, (k, v) ∈ l → isPlainObject v = false ∧ forallb seg_ok (split_char DOT k) = true) →
  (∀ k k', k ∈ map fst l → k' ∈ map fst l → k ≠ k' → ¬ split_char DOT k `prefix_of` split_char DOT k') →
  tree_ok (JObj o) = true →
  tree_ok (JObj (fold_left deep_entry l o)) = true
  ∧ (∀ k v, (k, v) ∈ l → get_in (split_char DOT k) (JObj (fold_left deep_entry l o)) = Some v)
  ∧ (∀ segs w, isPlainObject w = false → get_in segs (JObj (fold_left deep_entry l o)) = Some w →
       (∃ k, (k, w) ∈ l ∧ segs = split_char DOT k) ∨ get_in segs (JObj o) = Some w)
  ∧ (∀ segs, (∀ k, k ∈ map fst l → ¬ split_char DOT k `prefix_of` segs ∧ ¬ segs `prefix_of` split_char DOT k) →
       get_in segs (JObj (fold_left deep_entry l o)) = get_in segs (JObj o)).
Proof.
  revert o. induction l as [|[k v] l IH]; intros o Hd Hok Hfree Ho; cbn [fold_left].
  { split_and!; [done|intros k v H; inversion H|by right|done]. }
  cbn [map fst] in Hd. apply list.NoDup_cons in Hd as [Hn Hd]. destruct (Hok k v ltac:(left)) as [Hv Hs].
  pose proof (split_char_ne DOT k) as Hne. unfold deep_entry at 2 4 6 8. cbn [fst snd].
  destruct (IH (set_deep (split_char DOT k) v o)) as (I1 & I2 & I3 & I4).
  - done.
  - intros k' v' H. apply Hok. by right.
  - intros k1 k2 H1 H2. apply Hfree; by right.
  - apply tree_set_deep; [done|by destruct v|done].
  - split_and!; [done|..].
    + intros k' v' [[= -> ->]|Hin]%elem_of_cons; [|by apply I2]. rewrite I4; [by apply get_set_deep|].
      intros k'' Hk''. assert (Hkk : k ≠ k'') by (by intros ->). split; apply Hfree; cbn [map fst]; try done; [by right|left|left|by right].
    + intros segs w Hw Hg. destruct (I3 segs w Hw Hg) as [(k' & Hk' & ->)|Hg'].
      * left. exists k'. split; [by right|done].
      * apply leaf_set_deep in Hg' as [[-> ->]|?]; [|by right|done..]. left. exists k. split; [left|done].
    + intros segs Hsegs. rewrite I4 by (intros k' Hk'; apply Hsegs; by right).
      destruct (Hsegs k ltac:(left)) as [H1 H2]. by apply get_set_other.
Qed.

Lemma expanded_facts opts :
  dotted_options opts →
  tree_ok (expandDotPaths (JObj opts)) = true ∧ isPlainObject (expandDotPaths (JObj opts)) = true
  ∧ ∀ p, obj_get p (flattenValues (expandDotPaths (JObj opts))) = obj_get p opts.
Proof.
  intros Hok. destruct (expand_flat opts Hok) as (l & Hp & ->).
  destruct (deep_fold l []) as (H1 & H2 & H3 & _).
  - rewrite Hp. apply Hok.
  - intros k v Hin. rewrite Hp in Hin. split; [by apply (of_leaf _ Hok k)|by apply (of_segs _ Hok k v)].
  - intros k k' Hk Hk'. rewrite Hp in Hk, Hk'. by apply (of_free _ Hok).
  - done.
  - split_and!; [done|done|]. intros p. apply option_eq. intros w. rewrite flatten_get by done. split.
    + intros (segs & Hne & Hs & -> & Hg & Hw). destruct (H3 segs w Hw Hg) as [(k & Hk & ->)|Hg']; [|by rewrite get_in_nil in Hg'].
      rewrite split_back. apply elem_get; [apply Hok|]. by rewrite <- Hp.
    + intros Hin%get_elem. exists (split_char DOT p). split_and!.
      * apply split_char_ne.
      * by apply (of_segs _ Hok p w).
      * by rewrite split_back.
      * apply H2. by rewrite Hp.
      * by apply (of_leaf _ Hok p).
Qed.

(** Nested options come back flat.  Options whose dotted names do not begin one
    another, nested for the form and flattened again, are the options with the names
    they had. *)
Theorem expand_flatten opts p :
  dotted_options opts → obj_get p (flattenValues (expandDotPaths (JObj opts))) = obj_get p opts.
Proof. intros Hok. by apply expanded_facts. Qed.

Definition sample_options : list (jsstr * json) :=
  [("SystemName", JStr "x"); ("theme.frontend", JStr "default"); ("legal.user_agreement", JStr []); ("legal.privacy_policy", JStr [])].

(** A check that options are of this form. *)
Definition flat_check (opts : list (jsstr * json)) : bool :=
  nodup_keys (map fst opts)
  && forallb (λ '(k, v), negb (isPlainObject v) && forallb seg_ok (split_char DOT k)) opts
  && bool_decide (Forall (λ k, Forall (λ k', k ≠ k' → ¬ split_char DOT k `prefix_of` split_char DOT k') (map fst opts)) (map fst opts)).

Lemma flat_checked opts : flat_check opts = true → dotted_options opts.
Proof.
  unfold flat_check. intros [[Hd%nodup_keys_spec Hall]%andb_prop Hf%bool_decide_eq_true]%andb_prop.
  rewrite forallb_forall in Hall.
  assert (Hk : ∀ k v, (k, v) ∈ opts → isPlainObject v = false ∧ forallb seg_ok (split_char DOT k) = true).
  { intros k v Hin%list_elem_of_In%Hall. apply andb_prop in Hin as [H1 H2]. by apply negb_true_iff in H1. }
  split; [done|intros k v H; apply (Hk k v H)..|].
  rewrite list.Forall_forall in Hf. intros k k' H1 H2. specialize (Hf k H1). rewrite list.Forall_forall in Hf. by apply Hf.
Qed.

Lemma sample_options_dotted : dotted_options sample_options.
Proof. apply flat_checked. vm_compute. reflexivity. Qed.

Lemma expand_flatten_witness :
  obj_get "theme.frontend" (flattenValues (expandDotPaths (JObj sample_options))) = Some (JStr "default").
Proof. rewrite (expand_flatten sample_options "theme.frontend" sample_options_dotted). reflexivity. Defined.

(** ** Nested defaults *)

(** Names without a dot are set as they are. *)
Lemma expand_plain_entry result k v e : seg_ok k = true → expand_entry result (k, (v, e)) = rec_set k e result.
Proof.
  intros [_ Hk]%andb_prop. cbn [expand_entry]. destruct (includes "." k) eqn:Ei; [|by rewrite obj_set_rec].
  apply includes_true in Ei as (a & b & ->). rewrite !forallb_app in Hk. cbn in Hk.
  by rewrite andb_false_r in Hk.
Qed.

Definition expanded_fields (kvs : list (jsstr * json)) : list (jsstr * json) :=
  map (λ '(k, (_, e)), (k, e)) (entries (map (λ '(k, v), (k, (v, expandDotPaths v))) kvs)).

Lemma expanded_fields_elem kvs k e : (k, e) ∈ expanded_fields kvs ↔ ∃ v, (k, v) ∈ kvs ∧ e = expandDotPaths v.
Proof.
  unfold expanded_fields. rewrite elem_of_mapb. split.
  - intros ([k' [v e']] & [= -> ->] & Hin). rewrite entries_elem in Hin.
    apply elem_of_mapb in Hin as ([k2 v2] & [= -> -> ->] & Hin). by exists v2.
  - intros (v & Hin & ->). exists (k, (v, expandDotPaths v)). split; [done|]. rewrite entries_elem.
    apply elem_of_mapb. by exists (k, v).
Qed.

Lemma expand_nested_fold kvs :
  tree_ok (JObj kvs) = true →
  expandDotPaths (JObj kvs) = JObj (fold_left (λ r '(k, e), rec_set k e r) (expanded_fields kvs) []).
Proof.
  intros [Ht _]%tree_fields. cbn [expandDotPaths]. f_equal. unfold expanded_fields.
  assert (Hk : ∀ k x, (k, x) ∈ entries (map (λ '(k, v), (k, (v, expandDotPaths v))) kvs) → seg_ok k = true).
  { intros k x Hin. rewrite entries_elem in Hin. apply elem_of_mapb in Hin as ([k' v] & [= -> ->] & Hin). by apply (Ht k' v). }
  revert Hk. generalize (entries (map (λ '(k, v), (k, (v, expandDotPaths v))) kvs)), (@nil (jsstr * json)).
  intros l. induction l as [|[k [v e]] l IH]; intros r Hk; [done|]. cbn [fold_left map].
  rewrite expand_plain_entry by (apply (Hk k (v, e)); left). apply IH. intros k' x Hin. apply (Hk k' x). by right.
Qed.

Lemma expand_nested_get kvs k :
  tree_ok (JObj kvs) = true →
  obj_get k (fold_left (λ r '(k, e), rec_set k e r) (expanded_fields kvs) []) = expandDotPaths <$> obj_get k kvs.
Proof.
  intros [_ Hd]%tree_fields. apply option_eq. intros e. rewrite fmap_Some, obj_get_rec.
  assert (Hel : (k, e) ∈ expanded_fields kvs ↔ ∃ v, obj_get k kvs = Some v ∧ e = expandDotPaths v).
  { rewrite expanded_fields_elem. split; intros (v & Hv & ->); exists v; (split; [|done]); [by apply elem_get|by apply get_elem]. }
  rewrite <- Hel. split; [by intros [?|?]%fold_rec_elem|]. intros Hin. apply fold_rec_get; [|by left].
  intros e' He'%expanded_fields_elem. apply expanded_fields_elem in Hin. destruct He' as (v' & Hv' & ->), Hin as (v & Hv & ->).
  apply (elem_get k) in Hv, Hv'; [|done..]. congruence.
Qed.

(** Nested settings whose names have no dots are shown with the structure they have:
    every path leads to what it led to, and the leaves are the same. *)
Lemma expand_nested v :
  tree_ok v = true →
  tree_ok (expandDotPaths v) = true ∧ isPlainObject (expandDotPaths v) = isPlainObject v
  ∧ ∀ segs, get_in segs (expandDotPaths v) = expandDotPaths <$> get_in segs v.
Proof.
  induction v as [|b|n|s|l IH|kvs IH] using json_nested_ind; intros Ht;
    try (split_and!; [done|done|]; intros segs; by destruct segs).
  rewrite (expand_nested_fold kvs Ht). pose proof (λ k, expand_nested_get kvs k Ht) as Hg.
  pose proof (proj1 (tree_fields kvs) Ht) as [Hf Hd].
  set (o := fold_left _ _ _) in *. assert (Ho : NoDup (map fst o)) by (apply fold_rec_distinct, distinct_nil).
  split_and!; [|done|].
  - apply tree_fields. split; [|done]. intros k e Hin%elem_get; [|done]. rewrite Hg in Hin.
    apply fmap_Some in Hin as (v & Hv%get_elem & ->). destruct (Hf k v Hv) as [Hk Hv'].
    split; [done|]. apply (IH k v); [by apply list_elem_of_In|done].
  - intros [|s segs]; [cbn [get_in]; cbn [fmap option_fmap option_map]; by rewrite (expand_nested_fold kvs Ht)|].
    cbn [get_in]. rewrite Hg. destruct (obj_get s kvs) as [v|] eqn:E; [|done]. cbn [fmap option_fmap option_map mbind option_bind].
    apply get_elem in E. apply (IH s v); [by apply list_elem_of_In|by apply (Hf s v)].
Qed.

Lemma expand_leaf v : isPlainObject v = false → expandDotPaths v = v.
Proof. by destruct v. Qed.

Lemma expand_leaf_get segs v w :
  tree_ok v = true → isPlainObject w = false → get_in segs (expandDotPaths v) = Some w ↔ get_in segs v = Some w.
Proof.
  intros Ht Hw. destruct (expand_nested v Ht) as (_ & _ & ->). rewrite fmap_Some. split.
  - intros (u & Hu & ->). assert (isPlainObject u = false) by (destruct u; done). by rewrite expand_leaf.
  - intros Hg. exists w. by rewrite expand_leaf.
Qed.

(** ** The fields the form marks *)

Section dirty_induction.
Context (P : Dirty → Prop) (Hyes : P DirtyYes) (Hno : P DirtyNo)
  (Hobj : ∀ kvs, (∀ k d, In (k, d) kvs → P d) → P (DirtyObject kvs)).

Fixpoint dirty_nested_ind (d : Dirty) : P d.
Proof.
  destruct d as [|kvs|]; [exact Hyes| |exact Hno]. apply Hobj. induction kvs as [|[k d] kvs IH]; [intros ? ? []|].
  intros k' d' [E|Hd]; [injection E as _ <-; apply dirty_nested_ind|by apply (IH k')].
Defined.
End dirty_induction.

(** A path that is marked. *)
Fixpoint marked (segs : list jsstr) (d : Dirty) : bool :=
  match segs, d with
  | [], DirtyYes => true
  | s :: rest, DirtyObject kvs => match rec_get s kvs with Some d' => marked rest d' | None => false end
  | _, _ => false
  end.

Fixpoint dirty_ok (d : Dirty) : bool :=
  match d with
  | DirtyObject kvs => forallb (λ '(k, d), seg_ok k && dirty_ok d) kvs && nodup_keys (map fst kvs)
  | _ => true
  end.

Fixpoint value_in (segs : list jsstr) (x : option json) : option json :=
  match segs with [] => x | s :: rest => value_in rest (value_at s x) end.

Lemma value_in_get segs v w : get_in segs v = Some w → value_in segs (Some v) = Some w.
Proof.
  revert v. induction segs as [|s segs IH]; intros v; cbn [get_in value_in]; [done|]. destruct v; try done.
  cbn [value_at]. destruct (obj_get s kvs); [|done]. cbn [mbind option_bind]. apply IH.
Qed.

Lemma dirty_spec d pre x p y :
  dirty_ok d = true → forallb seg_ok pre = true →
  (p, y) ∈ dirty_paths d x (join "." pre) ↔
  ∃ segs, forallb seg_ok segs = true ∧ marked segs d = true ∧ p = join "." (pre ++ segs) ∧ y = value_in segs x.
Proof.
  revert pre x. induction d as [| |kvs IH] using dirty_nested_ind; intros pre x Hd Hp; cbn [dirty_paths].
  - split.
    + intros [= -> ->]%list_elem_of_singleton. exists []. by rewrite app_nil_r.
    + intros (segs & _ & Hm & -> & ->). destruct segs; [|done]. rewrite app_nil_r. left.
  - split; [intros H; inversion H|]. intros (segs & _ & Hm & _). by destruct segs.
  - cbn [dirty_ok] in Hd. apply andb_prop in Hd as [Hk Hn%nodup_keys_spec]. rewrite forallb_forall in Hk.
    rewrite list_elem_of_In, in_flat_map. split.
    + intros ([k f] & Hin%list_elem_of_In & Hf%list_elem_of_In). rewrite entries_elem in Hin.
      apply elem_of_mapb in Hin as ([k' d] & [= -> ->] & Hin). pose proof (proj1 (list_elem_of_In _ _) Hin) as HIn.
      specialize (Hk _ HIn). cbn in Hk. apply andb_prop in Hk as [Hk Hd]. rewrite nextKey_join in Hf by done.
      apply (IH k' d HIn) in Hf as (segs & Hs & Hm & -> & ->); [|done|by rewrite forallb_app, Hp; cbn; rewrite Hk].
      exists (k' :: segs). split_and!; [cbn; by rewrite Hk| |by rewrite <- app_assoc|done].
      cbn [marked]. by rewrite (rec_elem_get k' d).
    + intros (segs & Hs & Hm & -> & ->). destruct segs as [|k segs]; [done|]. cbn [marked] in Hm.
      destruct (rec_get k kvs) as [d|] eqn:E; [|done]. apply rec_get_elem in E. pose proof (proj1 (list_elem_of_In _ _) E) as HIn.
      exists (k, dirty_paths d). split.
      * apply list_elem_of_In. rewrite entries_elem. apply elem_of_mapb. by exists (k, d).
      * apply list_elem_of_In. specialize (Hk _ HIn). cbn in Hk. apply andb_prop in Hk as [Hk Hd]. rewrite nextKey_join by done.
        cbn [forallb] in Hs. apply andb_prop in Hs as [_ Hs].
        apply (IH k d HIn); [done|by rewrite forallb_app, Hp; cbn; rewrite Hk|].
        exists segs. split_and!; try done. by rewrite <- app_assoc.
Qed.

(** The same setting: the same constant, text or truth value, equal numbers, or arrays
    with the same JSON text. *)
Definition same_leaf (a : json) (b : option json) : Prop :=
  match a, b with
  | JNull, Some JNull => True
  | JBool x, Some (JBool y) => x = y
  | JNum x, Some (JNum y) => num_eqb x y = true
  | JStr x, Some (JStr y) => x = y
  | JArr x, Some (JArr y) => JSON_stringify (JArr x) = JSON_stringify (JArr y)
  | _, _ => False
  end.

(** What the form library documents of the fields it marks: they are fields, and every
    field whose value is not the default one is among them. *)
Record marks (defaults values : json) (d : Dirty) : Prop := {
  marks_ok : dirty_ok d = true;
  marks_field : ∀ segs, marked segs d = true → ∃ w, get_in segs values = Some w ∧ isPlainObject w = false;
  marks_changed : ∀ segs w, get_in segs values = Some w → isPlainObject w = false →
    ¬ same_leaf w (get_in segs defaults) → marked segs d = true
}.

Lemma collected_elem d values p x :
  tree_ok values = true → isPlainObject values = true → dirty_ok d = true →
  (∀ segs, marked segs d = true → ∃ w, get_in segs values = Some w ∧ isPlainObject w = false) →
  (p, x) ∈ collectDirtyValues d values ↔
  ∃ segs w, segs ≠ [] ∧ forallb seg_ok segs = true ∧ p = join "." segs ∧ marked segs d = true
  ∧ get_in segs values = Some w ∧ x = Some w.
Proof.
  intros Ht Ho Hd Hf. unfold collectDirtyValues. destruct d as [|kvs|].
  - destruct (Hf [] eq_refl) as (w & [= <-] & Hw). by destruct values.
  - set (l := dirty_paths (DirtyObject kvs) (Some values) []).
    assert (Hspec : ∀ x, (p, x) ∈ l ↔ ∃ segs w, segs ≠ [] ∧ forallb seg_ok segs = true ∧ p = join "." segs
      ∧ marked segs (DirtyObject kvs) = true ∧ get_in segs values = Some w ∧ x = Some w).
    { intros x'. unfold l. change (@nil N) with (join "." []). rewrite (dirty_spec _ [] (Some values)) by done. split.
      - intros (segs & Hs & Hm & -> & ->). destruct (Hf segs Hm) as (w & Hg & _). exists segs, w.
        split_and!; try done; [by intros ->|by apply value_in_get].
      - intros (segs & w & _ & Hs & -> & Hm & Hg & ->). exists segs. split_and!; try done. symmetry. by apply value_in_get. }
    assert (Hfun : ∀ x x', (p, x) ∈ l → (p, x') ∈ l → x' = x).
    { intros x1 x2 H1%Hspec H2%Hspec. destruct H1 as (s1 & w1 & N1 & S1 & -> & _ & G1 & ->), H2 as (s2 & w2 & N2 & S2 & E & _ & G2 & ->).
      assert (s1 = s2) as <-; [|congruence]. rewrite <- (segs_split s1), <- (segs_split s2) by done. by f_equal. }
    rewrite <- Hspec. split.
    + intros Hin. apply rec_elem_get, fold_rec_elem in Hin as [?|?]; [done|done|apply fold_rec_distinct, distinct_nil].
    + intros Hin. apply rec_get_elem, fold_rec_get; [|by left]. intros x' Hx'. by apply (Hfun x).
  - split; [intros H; inversion H|]. intros (segs & w & _ & _ & _ & Hm & _). by destruct segs.
Qed.

Lemma same_leaf_compare w u :
  isPlainObject w = false → isPlainObject u = false → defaultCompare (Some w) (Some u) = true ↔ same_leaf w (Some u).
Proof.
  intros Hw Hu. destruct w, u; try done; cbn [same_leaf defaultCompare is_composite andb strict_eq].
  - apply Bool.eqb_true_iff.
  - destruct (str_eqb_spec s s0); split; done.
  - destruct (str_eqb_spec (JSON_stringify (JArr l)) (JSON_stringify (JArr l0))); split; done.
Qed.

(** Nesting does not change whether a setting is the same. *)
Lemma same_expanded w o : same_leaf w (expandDotPaths <$> o) ↔ same_leaf w o.
Proof. destruct w, o as [[]|]; done. Qed.

Lemma get_segs segs v w : tree_ok v = true → get_in segs v = Some w → forallb seg_ok segs = true.
Proof.
  revert v. induction segs as [|s segs IH]; intros v Ht; [done|]. cbn [get_in forallb]. destruct v; try done.
  destruct (obj_get s kvs) as [u|] eqn:E; [|done]. cbn [mbind option_bind]. intros Hg. apply get_elem in E.
  apply tree_fields in Ht as [Ht _]. destruct (Ht s u E) as [-> Hu]. by apply (IH u).
Qed.

(** The hook takes a leaf for changed exactly when it is not the one of the baseline. *)
Lemma compare_leaf w segs base :
  tree_ok base = true → isPlainObject base = true → isPlainObject w = false → segs ≠ [] → forallb seg_ok segs = true →
  defaultCompare (Some w) (obj_get (join "." segs) (flattenValues base)) = false ↔ ¬ same_leaf w (get_in segs base).
Proof.
  intros Ht Ho Hw Hne Hs.
  assert (Hbase : ∀ u, obj_get (join "." segs) (flattenValues base) = Some u ↔ get_in segs base = Some u ∧ isPlainObject u = false).
  { intros u. rewrite flatten_get by done. split.
    - intros (segs' & Hne' & Hs' & E & Hg & Hu). rewrite <- (segs_split segs), E, segs_split by done. done.
    - intros [Hg Hu]. by exists segs. }
  destruct (obj_get _ _) as [u|].
  - destruct (proj1 (Hbase u) eq_refl) as [-> Hu]. by rewrite <- not_true_iff_false, same_leaf_compare.
  - split; [|done]. intros _ Hsame. destruct (get_in segs base) as [u|]; [|by destruct w].
    assert (Hu : isPlainObject u = false) by (by destruct w, u). discriminate (proj2 (Hbase u) (conj eq_refl Hu)).
Qed.

(** C23: a submission sends exactly the changed settings.  Of a form filled with the
    nested settings of the server, what is sent are the settings whose value in the form
    is not the server's, each under the dotted name of its path with the value of the
    form. *)
Theorem submit_sends_changes defaults values d p x :
  tree_ok defaults = true → isPlainObject defaults = true →
  tree_ok values = true → isPlainObject values = true →
  marks defaults values d →
  (p, x) ∈ changedEntries d (hook_edit values (hook_mount defaults)) ↔
  ∃ segs w, p = join "." segs ∧ x = Some w ∧ get_in segs values = Some w ∧ isPlainObject w = false
    ∧ ¬ same_leaf w (get_in segs defaults).
Proof.
  intros Hdt Hdo Ht Ho [Hd Hf Hc]. destruct (expand_nested defaults Hdt) as (He & Heo & Hget). rewrite Hdo in Heo.
  unfold changedEntries, hook_edit, hook_mount, hook_shown. cbn [sh_values sh_baseline].
  rewrite elem_of_filterb, entries_elem, collected_elem by done. split.
  - intros [(segs & w & Hne & Hs & -> & Hm & Hg & ->) Hcmp%negb_true_iff]. exists segs, w.
    destruct (Hf segs Hm) as (w' & Hg' & Hw'). rewrite Hg in Hg'. injection Hg' as <-. split_and!; try done.
    rewrite compare_leaf, Hget, same_expanded in Hcmp by done. done.
  - intros (segs & w & -> & -> & Hg & Hw & Hn). pose proof (get_segs segs values w Ht Hg) as Hs.
    assert (Hne : segs ≠ []) by (intros ->; injection Hg as ->; congruence).
    split; [exists segs, w; split_and!; try done; by apply (Hc segs w)|].
    by rewrite negb_true_iff, compare_leaf, Hget, same_expanded.
Qed.

(** The settings the page of the site gives its form, and the form in which the
    administrator chooses the other frontend. *)
Definition site_settings (frontend name : jsstr) : json :=
  JObj [("theme", JObj [("frontend", JStr frontend)]); ("SystemName", JStr name); ("Logo", JStr []); ("Footer", JStr []);
        ("About", JStr []); ("HomePageContent", JStr []); ("ServerAddress", JStr "https://x");
        ("legal", JObj [("user_agreement", JStr []); ("privacy_policy", JStr [])])].

Definition sample_dirty : Dirty := DirtyObject [("theme", DirtyObject [("frontend", DirtyYes)])].

Lemma sample_marks : marks (site_settings "default" "x") (site_settings "classic" "x") sample_dirty.
Proof.
  split; [vm_compute; reflexivity|..].
  - intros [|s [|s' [|s'' r]]]; cbn [marked sample_dirty rec_get]; try done;
      destruct (str_eqb_spec s "theme") as [->|?]; try done; cbn [marked rec_get]; destruct (str_eqb_spec s' "frontend") as [->|?]; try done.
    exists (JStr "classic"). done.
  - intros [|s r] w; cbn [get_in site_settings obj_get]; [by intros [= <-]|].
    destruct (str_eqb_spec s "theme") as [->|?]; cbn [mbind option_bind].
    { destruct r as [|s' r]; cbn [get_in obj_get]; [by intros [= <-]|]. destruct (str_eqb_spec s' "frontend") as [->|?]; [|done].
      cbn [mbind option_bind]. by destruct r. }
    repeat (match goal with |- context [str_eqb s ?k] => lazymatch k with _ => destruct (str_eqb_spec s k) as [->|?] end end;
      cbn [mbind option_bind];
      [destruct r as [|s' r]; cbn [get_in]; [by intros [= <-] ? []|try done]|]); [|done].
    cbn [obj_get]. repeat (match goal with |- context [str_eqb s' ?k] => destruct (str_eqb_spec s' k) as [->|?] end;
      cbn [mbind option_bind]; [destruct r; cbn [get_in]; [by intros [= <-] ? []|done]|]). done.
Qed.

Lemma submit_sends_changes_witness :
  changedEntries sample_dirty (hook_edit (site_settings "classic" "x") (hook_mount (site_settings "default" "x")))
    = [("theme.frontend", Some (JStr "classic"))]
  ∧ ∃ segs, join "." segs = "theme.frontend" ∧ get_in segs (site_settings "classic" "x") = Some (JStr "classic").
Proof.
  split; [vm_compute; reflexivity|].
  destruct (proj1 (submit_sends_changes (site_settings "default" "x") (site_settings "classic" "x") sample_dirty
    "theme.frontend" (Some (JStr "classic")) ltac:(vm_compute; reflexivity) eq_refl ltac:(vm_compute; reflexivity) eq_refl
    sample_marks)) as (segs & w & E & Ew & H & _).
  - apply list_elem_of_In. vm_compute. left. reflexivity.
  - exists segs. split; [symmetry; exact E|]. rewrite H. symmetry. exact Ew.
Defined.

(** After the submission, nothing is left to send: whichever fields are marked. *)
Lemma saved_settings_quiet h data d :
  sh_saving h = Some data → tree_ok data = true → isPlainObject data = true → marks data data d →
  (∀ p w, obj_get p (flattenValues data) = Some w → defaultCompare (Some w) (Some w) = true) →
  sh_values (hook_settled true h) = data ∧ changedEntries d (hook_settled true h) = [].
Proof.
  intros Hs Ht Ho [Hd Hf _] Hr. unfold hook_settled. rewrite Hs. split; [done|].
  destruct (changedEntries d (hook_shown data None)) as [|[p x] l] eqn:E; [done|]. exfalso.
  assert (Hin : (p, x) ∈ changedEntries d (hook_shown data None)) by (rewrite E; left).
  unfold changedEntries, hook_shown in Hin. cbn [sh_values sh_baseline] in Hin.
  rewrite elem_of_filterb, entries_elem, collected_elem in Hin by done.
  destruct Hin as [(segs & w & Hne & Hseg & -> & Hm & Hg & ->) Hcmp]. destruct (Hf segs Hm) as (w' & Hg' & Hw').
  rewrite Hg in Hg'. injection Hg' as <-.
  assert (Hflat : obj_get (join "." segs) (flattenValues data) = Some w) by (apply flatten_get; [done|done|by exists segs]).
  rewrite Hflat, (Hr _ _ Hflat) in Hcmp. done.
Qed.

(** Fetched options replace what is typed.  The form of settings of the server holds
    any unsaved input; when the settings are given again and one of them has another
    value, the whole form is filled with them, and the input is gone. *)
Theorem fetched_options_replace_input defaults defaults' values segs w :
  tree_ok defaults = true → isPlainObject defaults = true → tree_ok defaults' = true → isPlainObject defaults' = true →
  wf_fields (flattenValues (expandDotPaths defaults)) = true →
  wf_fields (flattenValues (expandDotPaths defaults')) = true →
  get_in segs defaults' = Some w → isPlainObject w = false → get_in segs defaults ≠ Some w →
  sh_values (defaults_given defaults' (hook_edit values (hook_mount defaults))) = expandDotPaths defaults'.
Proof.
  intros Ht Ho Ht' Ho' Hw Hw' Hg Hl Hne. unfold defaults_given, hook_edit, hook_mount, hook_shown. cbn [sh_serialized].
  destruct (str_eqb_spec (JSON_stringify (JObj (flattenValues (expandDotPaths defaults'))))
    (JSON_stringify (JObj (flattenValues (expandDotPaths defaults))))) as [E|_]; [|done].
  exfalso. apply (f_equal JSON_parse) in E. rewrite !JSON_parse_stringify in E by done.
  assert (E' : flattenValues (expandDotPaths defaults') = flattenValues (expandDotPaths defaults)) by congruence.
  destruct (expand_nested defaults Ht) as (He & Heo & _), (expand_nested defaults' Ht') as (He' & Heo' & _).
  rewrite Ho in Heo. rewrite Ho' in Heo'.
  assert (Hf : obj_get (join "." segs) (flattenValues (expandDotPaths defaults')) = Some w).
  { apply flatten_get; [done|done|]. exists segs. split_and!; [intros ->; injection Hg as <-; congruence| |done| |done].
    - by apply (get_segs segs defaults' w).
    - by apply expand_leaf_get. }
  rewrite E' in Hf. apply flatten_get in Hf as (segs2 & Hn2 & Hs2 & Ej & Hg2 & _); [|done|done].
  apply Hne, expand_leaf_get; [done|done|]. rewrite <- (segs_split segs), Ej, segs_split; [done|done|done|intros ->; injection Hg as <-; congruence|].
  by apply (get_segs segs defaults' w).
Qed.

Lemma fetched_options_replace_input_witness :
  sh_values (defaults_given (site_settings "default" "y")
    (hook_edit (site_settings "classic" "x") (hook_mount (site_settings "default" "x"))))
  = expandDotPaths (site_settings "default" "y").
Proof.
  apply (fetched_options_replace_input _ _ _ ["SystemName" : jsstr] (JStr "y")); try (vm_compute; reflexivity).
  vm_compute. discriminate.
Defined.
