(* ===== verification/UpstreamUpdates.v ===== *)
(** * Upstream model updates

    [features/channels/hooks/use-channel-upstream-updates.ts], the dialog
    [components/dialogs/upstream-update-dialog.tsx] and the places that call the hook
    ([channels-columns.tsx], [data-table-row-actions.tsx], [channels-primary-buttons.tsx],
    [channels-dialogs.tsx]).  The hook runs four asynchronous operations, each behind a
    flag; a call that waits for the server, or for the channels to be fetched again, is
    an element of [pg_calls].  The page keeps the dialog mounted, so that its state
    lives as long as the page.  The user interface is modal: the table is not usable
    while the dialog is shown. *)
From Stdlib Require Import NArith ZArith.
From stdpp Require Import list numbers.
From S2P Require Import Prelude JsString JsNumber Json JsArray Channels ChannelForm.

(** ** State of the hook *)

Inductive Tab : Type := TabAdd | TabRemove.

Record Hook : Type := {
  hk_showModal : bool;
  hk_channel : option Channel;
  hk_addModels : list jsstr;
  hk_removeModels : list jsstr;
  hk_preferredTab : Tab;
  hk_applyLoading : bool;
  hk_detectAllLoading : bool;
  hk_applyAllLoading : bool;
  hk_applyRef : bool;
  hk_detectRef : bool;
  hk_detectAllRef : bool;
  hk_applyAllRef : bool
}.

Definition init_hook : Hook :=
  {| hk_showModal := false; hk_channel := None; hk_addModels := []; hk_removeModels := [];
     hk_preferredTab := TabAdd; hk_applyLoading := false; hk_detectAllLoading := false;
     hk_applyAllLoading := false; hk_applyRef := false; hk_detectRef := false;
     hk_detectAllRef := false; hk_applyAllRef := false |}.

(** The five setters of the dialog's properties, applied together. *)
Definition set_modal (show : bool) (channel : option Channel) (add remove : list jsstr)
    (tab : Tab) (h : Hook) : Hook :=
  {| hk_showModal := show; hk_channel := channel; hk_addModels := add;
     hk_removeModels := remove; hk_preferredTab := tab;
     hk_applyLoading := hk_applyLoading h; hk_detectAllLoading := hk_detectAllLoading h;
     hk_applyAllLoading := hk_applyAllLoading h; hk_applyRef := hk_applyRef h;
     hk_detectRef := hk_detectRef h; hk_detectAllRef := hk_detectAllRef h;
     hk_applyAllRef := hk_applyAllRef h |}.

Inductive Op : Type := OpApply | OpApplyAll | OpDetect | OpDetectAll.

Definition op_eqb (o o' : Op) : bool :=
  match o, o' with
  | OpApply, OpApply | OpApplyAll, OpApplyAll | OpDetect, OpDetect | OpDetectAll, OpDetectAll => true
  | _, _ => false
  end.

(** The flag of an operation, and the state its buttons are disabled by; detecting one
    channel has none. *)
Definition get_ref (o : Op) (h : Hook) : bool :=
  match o with
  | OpApply => hk_applyRef h
  | OpApplyAll => hk_applyAllRef h
  | OpDetect => hk_detectRef h
  | OpDetectAll => hk_detectAllRef h
  end.

Definition get_loading (o : Op) (h : Hook) : option bool :=
  match o with
  | OpApply => Some (hk_applyLoading h)
  | OpApplyAll => Some (hk_applyAllLoading h)
  | OpDetect => None
  | OpDetectAll => Some (hk_detectAllLoading h)
  end.

(** [ref.current = b] and [setLoading(b)], at the start and in the [finally] of an
    operation. *)
Definition set_busy (o : Op) (b : bool) (h : Hook) : Hook :=
  {| hk_showModal := hk_showModal h; hk_channel := hk_channel h;
     hk_addModels := hk_addModels h; hk_removeModels := hk_removeModels h;
     hk_preferredTab := hk_preferredTab h;
     hk_applyLoading := if op_eqb o OpApply then b else hk_applyLoading h;
     hk_detectAllLoading := if op_eqb o OpDetectAll then b else hk_detectAllLoading h;
     hk_applyAllLoading := if op_eqb o OpApplyAll then b else hk_applyAllLoading h;
     hk_applyRef := if op_eqb o OpApply then b else hk_applyRef h;
     hk_detectRef := if op_eqb o OpDetect then b else hk_detectRef h;
     hk_detectAllRef := if op_eqb o OpDetectAll then b else hk_detectAllRef h;
     hk_applyAllRef := if op_eqb o OpApplyAll then b else hk_applyAllRef h |}.

(** ** Requests, answers and messages *)

Inductive Request : Type :=
| ApplyReq (id : json) (add_models ignore_models remove_models : list jsstr)
| ApplyAllReq
| DetectReq (id : json)
| DetectAllReq.

(** What is caught: the message of the response and the message of the error. *)
Record Failure : Type := { response_message : option json; error_message : option json }.

(** [res.data], where [None] is [undefined], or a rejected request. *)
Inductive Reply : Type :=
| Replied (data : option json)
| Rejected (e : Failure).

(** A text of the server, a label of the page, or the text of an exception of the
    engine. *)
Inductive ErrorText : Type := Said (message : json) | Label (text : jsstr) | Thrown.

Inductive Notice : Type :=
| NothingToProcess
| AppliedNotice (added removed : json) (ignored totalIgnored : nat)
| AppliedAllNotice (channels added removed : json) (fails : option json)
| DetectedNotice (add remove : json)
| DetectedAllNotice (channels add remove : json) (fails : option json)
| ErrorNotice (text : ErrorText).

(** [o?.k] on a value that may be [undefined]. *)
Definition opt_prop (k : jsstr) (v : option json) : option json :=
  match v with Some (JObj kvs) => obj_get k kvs | _ => None end.

(** [v?.length]. *)
Definition opt_length (v : option json) : option json :=
  match v with
  | Some (JArr l) => Some (JNum (num_of_Z (Z.of_nat (length l))))
  | Some (JStr s) => Some (JNum (num_of_Z (Z.of_nat (length s))))
  | Some (JObj kvs) => obj_get "length" kvs
  | _ => None
  end.

Definition opt_truthy (v : option json) : bool :=
  match v with Some j => json_truthy j | None => false end.

(** [v || 0] and [v || []]. *)
Definition or_zero (v : option json) : json :=
  match v with Some j => if json_truthy j then j else JNum zero | None => JNum zero end.
Definition or_empty (v : option json) : option json :=
  if opt_truthy v then v else Some (JArr []).

Definition ignored_count (kvs : list (jsstr * json)) : exn nat :=
  models ← model_array "upstream_model_update_ignored_models" kvs;
  Ok (length (normalizeModelList models)).

(** A value without properties, an array or a text that is no JSON counts nothing. *)
Definition getManualIgnoredModelCount (settings : option json) : exn nat :=
  match settings with
  | Some (JObj kvs) => ignored_count kvs
  | Some (JStr s) =>
      match JSON_parse s with
      | Some (JObj kvs) => ignored_count kvs
      | _ => Ok 0
      end
  | _ => Ok 0
  end.

(** The label of a failed operation. *)
Definition failed_label (o : Op) : jsstr :=
  match o with
  | OpApply => "Operation failed"
  | OpApplyAll => "Batch processing failed"
  | OpDetect => "Detection failed"
  | OpDetectAll => "Batch detection failed"
  end.

Definition said_or (message : option json) (other : ErrorText) : ErrorText :=
  match message with
  | Some j => if json_truthy j then Said j else other
  | None => other
  end.

(** [err?.response?.data?.message || err?.message || label]. *)
Definition failure_text (o : Op) (e : Failure) : ErrorText :=
  said_or (response_message e) (said_or (error_message e) (Label (failed_label o))).

(** The messages of success; [ignored] are the models an application ignores. *)
Definition apply_notice (ignored : list jsstr) (data : option json) : exn Notice :=
  total ← getManualIgnoredModelCount (opt_prop "settings" data);
  Ok (AppliedNotice (or_zero (opt_length (opt_prop "added_models" data)))
        (or_zero (opt_length (opt_prop "removed_models" data)))
        (length (normalizeModelList (map JStr ignored))) total).

Definition apply_all_notice (data : option json) : Notice :=
  AppliedAllNotice (or_zero (opt_prop "processed_channels" data))
    (or_zero (opt_prop "added_models" data)) (or_zero (opt_prop "removed_models" data))
    (opt_length (or_empty (opt_prop "failed_channel_ids" data))).

Definition detect_notice (data : option json) : Notice :=
  DetectedNotice (or_zero (opt_length (opt_prop "add_models" data)))
    (or_zero (opt_length (opt_prop "remove_models" data))).

Definition detect_all_notice (data : option json) : Notice :=
  DetectedAllNotice (or_zero (opt_prop "processed_channels" data))
    (or_zero (opt_prop "detected_add_models" data))
    (or_zero (opt_prop "detected_remove_models" data))
    (opt_length (or_empty (opt_prop "failed_channel_ids" data))).

Definition success_notice (o : Op) (ignored : list jsstr) (data : option json) : exn Notice :=
  match o with
  | OpApply => apply_notice ignored data
  | OpApplyAll => Ok (apply_all_notice data)
  | OpDetect => Ok (detect_notice data)
  | OpDetectAll => Ok (detect_all_notice data)
  end.

(** ** State of the page *)

(** The state of [UpstreamUpdateDialog]. *)
Record Selection : Type := {
  sl_activeTab : Tab;
  sl_searchAdd : jsstr;
  sl_searchRemove : jsstr;
  sl_selectedAdd : list jsstr;
  sl_selectedRemove : list jsstr;
  sl_partialConfirmOpen : bool
}.

(** The initial values are computed once, from the properties of the first render. *)
Definition init_selection (h : Hook) : Selection :=
  {| sl_activeTab := hk_preferredTab h; sl_searchAdd := []; sl_searchRemove := [];
     sl_selectedAdd := str_dedup (hk_addModels h);
     sl_selectedRemove := str_dedup (hk_removeModels h); sl_partialConfirmOpen := false |}.

Definition setActiveTab (tab : Tab) (s : Selection) : Selection :=
  {| sl_activeTab := tab; sl_searchAdd := sl_searchAdd s; sl_searchRemove := sl_searchRemove s;
     sl_selectedAdd := sl_selectedAdd s; sl_selectedRemove := sl_selectedRemove s;
     sl_partialConfirmOpen := sl_partialConfirmOpen s |}.

(** [setSearchAdd] and [setSearchRemove]. *)
Definition setSearch (tab : Tab) (text : jsstr) (s : Selection) : Selection :=
  {| sl_activeTab := sl_activeTab s;
     sl_searchAdd := match tab with TabAdd => text | TabRemove => sl_searchAdd s end;
     sl_searchRemove := match tab with TabAdd => sl_searchRemove s | TabRemove => text end;
     sl_selectedAdd := sl_selectedAdd s; sl_selectedRemove := sl_selectedRemove s;
     sl_partialConfirmOpen := sl_partialConfirmOpen s |}.

Definition selected (tab : Tab) (s : Selection) : list jsstr :=
  match tab with TabAdd => sl_selectedAdd s | TabRemove => sl_selectedRemove s end.

(** [setSelectedAdd] and [setSelectedRemove]. *)
Definition setSelected (tab : Tab) (models : list jsstr) (s : Selection) : Selection :=
  {| sl_activeTab := sl_activeTab s; sl_searchAdd := sl_searchAdd s;
     sl_searchRemove := sl_searchRemove s;
     sl_selectedAdd := match tab with TabAdd => models | TabRemove => sl_selectedAdd s end;
     sl_selectedRemove := match tab with TabAdd => sl_selectedRemove s | TabRemove => models end;
     sl_partialConfirmOpen := sl_partialConfirmOpen s |}.

Definition setPartialConfirmOpen (open : bool) (s : Selection) : Selection :=
  {| sl_activeTab := sl_activeTab s; sl_searchAdd := sl_searchAdd s;
     sl_searchRemove := sl_searchRemove s; sl_selectedAdd := sl_selectedAdd s;
     sl_selectedRemove := sl_selectedRemove s; sl_partialConfirmOpen := open |}.

(** A call that waits for the answer of the server or for [refresh]. *)
Inductive Phase : Type := Posting | Refreshing.
Record Call : Type := { cl_op : Op; cl_ignored : list jsstr; cl_phase : Phase }.

(** The requests that were sent and the messages that were shown are kept in order. *)
Record Page : Type := {
  pg_hook : Hook;
  pg_selection : Selection;
  pg_calls : list Call;
  pg_requests : list Request;
  pg_notices : list Notice
}.

Definition init_page : Page :=
  {| pg_hook := init_hook; pg_selection := init_selection init_hook; pg_calls := [];
     pg_requests := []; pg_notices := [] |}.

Definition with_hook (h : Hook) (p : Page) : Page :=
  {| pg_hook := h; pg_selection := pg_selection p; pg_calls := pg_calls p;
     pg_requests := pg_requests p; pg_notices := pg_notices p |}.

Definition with_selection (s : Selection) (p : Page) : Page :=
  {| pg_hook := pg_hook p; pg_selection := s; pg_calls := pg_calls p;
     pg_requests := pg_requests p; pg_notices := pg_notices p |}.

Definition with_calls (calls : list Call) (p : Page) : Page :=
  {| pg_hook := pg_hook p; pg_selection := pg_selection p; pg_calls := calls;
     pg_requests := pg_requests p; pg_notices := pg_notices p |}.

Definition notify (n : Notice) (p : Page) : Page :=
  {| pg_hook := pg_hook p; pg_selection := pg_selection p; pg_calls := pg_calls p;
     pg_requests := pg_requests p; pg_notices := pg_notices p ++ [n] |}.

(** ** Operations of the hook *)

(** [!record?.id]. *)
Definition has_id (record : option Channel) : bool :=
  match record with Some ch => json_truthy (ch_id ch) | None => false end.

Definition openModal (record : option Channel) (pendingAdd pendingRemove : list jsstr) (tab : Tab)
    (p : Page) : Page :=
  let normAdd := normalizeModelList (map JStr pendingAdd) in
  let normRemove := normalizeModelList (map JStr pendingRemove) in
  if negb (has_id record)
     || (length normAdd =? 0)%nat && (length normRemove =? 0)%nat
  then notify NothingToProcess p
  else with_hook (set_modal true record normAdd normRemove tab (pg_hook p)) p.

Definition closeModal (p : Page) : Page :=
  with_hook (set_modal false None [] [] TabAdd (pg_hook p)) p.

(** The part of an operation up to its [await]: the flags are set and the request is
    sent. *)
Definition start_call (o : Op) (ignored : list jsstr) (r : Request) (p : Page) : Page :=
  {| pg_hook := set_busy o true (pg_hook p); pg_selection := pg_selection p;
     pg_calls := pg_calls p ++ [{| cl_op := o; cl_ignored := ignored; cl_phase := Posting |}];
     pg_requests := pg_requests p ++ [r]; pg_notices := pg_notices p |}.

Definition applyUpdates (selectedAdd selectedRemove : list jsstr) (p : Page) : Page :=
  let h := pg_hook p in
  if hk_applyRef h then p
  else match hk_channel h with
       | Some ch =>
           if json_truthy (ch_id ch) then
             let normSelectedAdd := normalizeModelList (map JStr selectedAdd) in
             let ignoreModels :=
               List.filter (λ m, negb (str_mem m normSelectedAdd)) (hk_addModels h) in
             start_call OpApply ignoreModels
               (ApplyReq (ch_id ch) normSelectedAdd ignoreModels
                  (normalizeModelList (map JStr selectedRemove))) p
           else closeModal p
       | None => closeModal p
       end.

Definition applyAllUpdates (p : Page) : Page :=
  if hk_applyAllRef (pg_hook p) then p else start_call OpApplyAll [] ApplyAllReq p.

Definition detectChannelUpdates (ch : option Channel) (p : Page) : Page :=
  if hk_detectRef (pg_hook p) then p
  else match ch with
       | Some c => if json_truthy (ch_id c) then start_call OpDetect [] (DetectReq (ch_id c)) p else p
       | None => p
       end.

Definition detectAllUpdates (p : Page) : Page :=
  if hk_detectAllRef (pg_hook p) then p else start_call OpDetectAll [] DetectAllReq p.

(** The [finally] of a call: it ends, and its flags are reset. *)
Definition finish_call (i : nat) (o : Op) (p : Page) : Page :=
  with_calls (list_delete i (pg_calls p)) (with_hook (set_busy o false (pg_hook p)) p).

(** The continuation of a call after its request.  An exception while the message of
    success is computed is caught like a rejected request. *)
Definition reply (i : nat) (c : Call) (r : Reply) (p : Page) : Page :=
  let o := cl_op c in
  match r with
  | Rejected e => finish_call i o (notify (ErrorNotice (failure_text o e)) p)
  | Replied body =>
      if opt_truthy (opt_prop "success" body) then
        match success_notice o (cl_ignored c) (opt_prop "data" body) with
        | Ok n =>
            let p := notify n p in
            let p := match o with OpApply => closeModal p | _ => p end in
            with_calls (<[i := {| cl_op := o; cl_ignored := cl_ignored c;
                                  cl_phase := Refreshing |}]> (pg_calls p)) p
        | Throw => finish_call i o (notify (ErrorNotice Thrown) p)
        end
      else finish_call i o
             (notify (ErrorNotice (said_or (opt_prop "message" body) (Label (failed_label o)))) p)
  end.

(** The continuation of a call after [refresh]; [Some e] when it is rejected. *)
Definition refreshed (i : nat) (c : Call) (r : option Failure) (p : Page) : Page :=
  let o := cl_op c in
  match r with
  | Some e => finish_call i o (notify (ErrorNotice (failure_text o e)) p)
  | None => finish_call i o p
  end.

(** ** Operations of the dialog *)

Section dialog.
(** [s.toLowerCase()]. *)
Context (toLowerCase : jsstr → jsstr).

Definition filtered_models (models : list jsstr) (search : jsstr) : list jsstr :=
  List.filter (λ m, includes (toLowerCase search) (toLowerCase m)) models.

(** [filteredAdd] and [filteredRemove]. *)
Definition filtered (tab : Tab) (p : Page) : list jsstr :=
  match tab with
  | TabAdd => filtered_models (hk_addModels (pg_hook p)) (sl_searchAdd (pg_selection p))
  | TabRemove => filtered_models (hk_removeModels (pg_hook p)) (sl_searchRemove (pg_selection p))
  end.

(** [set.add(m)] and [set.delete(m)] on the elements in insertion order. *)
Definition set_add (set : list jsstr) (m : jsstr) : list jsstr :=
  if str_mem m set then set else set ++ [m].
Definition set_delete (set : list jsstr) (m : jsstr) : list jsstr :=
  List.filter (λ x, negb (str_eqb x m)) set.

Definition toggleModel (model : jsstr) (set : list jsstr) : list jsstr :=
  if str_mem model set then set_delete set model else set_add set model.

Definition toggleAllVisible (models set : list jsstr) : list jsstr :=
  if forallb (λ m, str_mem m set) models then fold_left set_delete models set
  else fold_left set_add models set.

(** Both kinds of models are pending and exactly one kind is selected. *)
Definition partial_choice (p : Page) : bool :=
  let h := pg_hook p in
  let s := pg_selection p in
  let hasAdd := (0 <? length (hk_addModels h))%nat in
  let hasRemove := (0 <? length (hk_removeModels h))%nat in
  let anyAdd := (0 <? length (sl_selectedAdd s))%nat in
  let anyRemove := (0 <? length (sl_selectedRemove s))%nat in
  hasAdd && hasRemove && negb (Bool.eqb anyAdd anyRemove).

(** [props.onConfirm] is [applyUpdates]. *)
Definition onConfirm (p : Page) : Page :=
  applyUpdates (sl_selectedAdd (pg_selection p)) (sl_selectedRemove (pg_selection p)) p.

Definition handleConfirm (p : Page) : Page :=
  if partial_choice p then with_selection (setPartialConfirmOpen true (pg_selection p)) p
  else onConfirm p.

Definition confirm_partial (p : Page) : Page :=
  onConfirm (with_selection (setPartialConfirmOpen false (pg_selection p)) p).

Definition confirm_disabled (p : Page) : bool :=
  let h := pg_hook p in
  hk_applyLoading h
  || (length (hk_addModels h) =? 0)%nat && (length (hk_removeModels h) =? 0)%nat.

(** ** The user interface *)

(** The settings of a channel, as they are read for the tags and for the menu. *)
Definition channel_meta (ch : Channel) : exn UpstreamMeta :=
  parseUpstreamUpdateMeta (Some (JStr (ch_settings ch))).

Definition pending_models (tab : Tab) (meta : UpstreamMeta) : list jsstr :=
  match tab with TabAdd => pendingAddModels meta | TabRemove => pendingRemoveModels meta end.

(** A click on the tag [+n] or [-n] of a channel; [None] when the tag is not shown. *)
Definition click_tag (ch : Channel) (tab : Tab) (p : Page) : option Page :=
  if type_in (ch_type ch) MODEL_FETCHABLE_TYPES then
    match channel_meta ch with
    | Ok meta =>
        if enabled meta && (0 <? length (pending_models tab meta))%nat
        then Some (openModal (Some ch) (pendingAddModels meta) (pendingRemoveModels meta) tab p)
        else None
    | Throw => None
    end
  else None.

(** The entry of the row's menu.  An exception ends the handler. *)
Definition click_menu (ch : Channel) (p : Page) : option Page :=
  if type_in (ch_type ch) MODEL_FETCHABLE_TYPES then
    match channel_meta ch with
    | Ok meta =>
        let hasAdd := (0 <? length (pendingAddModels meta))%nat in
        let hasRemove := (0 <? length (pendingRemoveModels meta))%nat in
        Some (if hasAdd || hasRemove
              then openModal (Some ch) (pendingAddModels meta) (pendingRemoveModels meta)
                     (if hasAdd then TabAdd else TabRemove) p
              else detectChannelUpdates (Some ch) p)
    | Throw => Some p
    end
  else None.

Inductive PageEvent : Type :=
| ClickTag (ch : Channel) (tab : Tab)
| ClickMenu (ch : Channel)
| ClickApplyAll
| ClickDetectAll
| Cancel
| ChangeTab (tab : Tab)
| TypeSearch (text : jsstr)
| Toggle (model : jsstr)
| ToggleVisible
| Confirm
| ConfirmPartial
| CancelPartial
| ServerReplies (i : nat) (r : Reply)
| RefreshEnds (i : nat) (r : option Failure).

(** The table and its buttons, the dialog, or the question about a partial choice. *)
Inductive Focus : Type := OnTable | OnDialog | OnQuestion.

Definition focus (p : Page) : Focus :=
  if sl_partialConfirmOpen (pg_selection p) then OnQuestion
  else if hk_showModal (pg_hook p) then OnDialog else OnTable.

Definition table_step (e : PageEvent) (p : Page) : option Page :=
  match e with
  | ClickTag ch tab => click_tag ch tab p
  | ClickMenu ch => click_menu ch p
  | ClickApplyAll => if hk_applyAllLoading (pg_hook p) then None else Some (applyAllUpdates p)
  | ClickDetectAll => if hk_detectAllLoading (pg_hook p) then None else Some (detectAllUpdates p)
  | _ => None
  end.

(** The search field and the boxes are those of the tab that is shown; a model has a
    box when it passes the search, and the box for all is there when one does. *)
Definition modal_step (e : PageEvent) (p : Page) : option Page :=
  let s := pg_selection p in
  let tab := sl_activeTab s in
  match e with
  | Cancel => Some (closeModal p)
  | ChangeTab tab => Some (with_selection (setActiveTab tab s) p)
  | TypeSearch text => Some (with_selection (setSearch tab text s) p)
  | Toggle model =>
      if str_mem model (filtered tab p)
      then Some (with_selection (setSelected tab (toggleModel model (selected tab s)) s) p)
      else None
  | ToggleVisible =>
      if (0 <? length (filtered tab p))%nat
      then Some (with_selection
                   (setSelected tab (toggleAllVisible (filtered tab p) (selected tab s)) s) p)
      else None
  | Confirm => if confirm_disabled p then None else Some (handleConfirm p)
  | _ => None
  end.

Definition question_step (e : PageEvent) (p : Page) : option Page :=
  match e with
  | ConfirmPartial => Some (confirm_partial p)
  | CancelPartial => Some (with_selection (setPartialConfirmOpen false (pg_selection p)) p)
  | _ => None
  end.

(** One event; [None] when it cannot happen. *)
Definition page_step (e : PageEvent) (p : Page) : option Page :=
  match e with
  | ServerReplies i r =>
      match pg_calls p !! i with
      | Some c => match cl_phase c with Posting => Some (reply i c r p) | Refreshing => None end
      | None => None
      end
  | RefreshEnds i r =>
      match pg_calls p !! i with
      | Some c => match cl_phase c with Posting => None | Refreshing => Some (refreshed i c r p) end
      | None => None
      end
  | _ =>
      match focus p with
      | OnTable => table_step e p
      | OnDialog => modal_step e p
      | OnQuestion => question_step e p
      end
  end.

Fixpoint page_run (es : list PageEvent) (p : Page) : option Page :=
  match es with
  | [] => Some p
  | e :: es => match page_step e p with Some p => page_run es p | None => None end
  end.
End dialog.
