(* ===== verification/UpstreamUpdateTheorems.v ===== *)
(** * Properties of the upstream model updates

    The flags and the dialog (an invariant of every run of the page), what a
    confirmation sends, that every call ends, and what a dialog that stays mounted keeps
    from one channel to the next. *)
From Stdlib Require Import NArith ZArith.
From stdpp Require Import list numbers.
From S2P Require Import Prelude JsString JsNumber Json JsArray Channels ChannelForm UpstreamUpdates.

(** ** Lists of models *)

(** Texts that are trimmed, not empty and all different. *)
Definition normal_list (l : list jsstr) : Prop :=
  NoDup l ∧ ∀ m, m ∈ l → trim m = m ∧ nonempty m = true.

Lemma normalize_normal l : normal_list (normalizeModelList l).
Proof.
  split; [apply str_dedup_nodup|]. intros m. unfold normalizeModelList.
  rewrite str_dedup_elem, elem_of_filterb, elem_of_mapb. intros [(j & -> & _) Hn].
  split; [apply trim_idem|done].
Qed.

Lemma model_text_str m : trim m = m → model_text (JStr m) = m.
Proof. intros H. unfold model_text. cbn. by destruct m. Qed.

Lemma normalize_id l : normal_list l → normalizeModelList (map JStr l) = l.
Proof.
  intros [Hd Hl]. unfold normalizeModelList.
  assert (List.filter nonempty (map model_text (map JStr l)) = l) as ->; [|by apply str_dedup_id].
  clear Hd. induction l as [|m l IH]; [done|]. cbn [map List.filter].
  destruct (Hl m) as [Ht Hn]; [left|]. rewrite model_text_str, Hn by done. f_equal.
  apply IH. intros x Hx. apply Hl. by right.
Qed.

Lemma normal_nil : normal_list [].
Proof. split; [constructor|]. by intros m ?%elem_of_nil. Qed.

Lemma normal_sub l k : NoDup l → (∀ m, m ∈ l → m ∈ k) → normal_list k → normal_list l.
Proof. intros Hd Hs [_ Hk]. split; [done|]. eauto. Qed.

#[local] Hint Resolve normalize_normal normal_nil : core.

(** ** Sets in insertion order *)

Lemma set_add_elem s m x : x ∈ set_add s m ↔ x ∈ s ∨ x = m.
Proof.
  unfold set_add. destruct (str_mem m s) eqn:E.
  - apply str_mem_true in E. split; [auto|]. by intros [?| ->].
  - by rewrite elem_of_app, list_elem_of_singleton.
Qed.

Lemma set_add_nodup s m : NoDup s → NoDup (set_add s m).
Proof.
  unfold set_add. destruct (str_mem m s) eqn:E; [done|]. apply str_mem_false in E.
  intros H. apply list.NoDup_app. split_and!; [done| |apply list.NoDup_singleton].
  intros x Hx ->%list_elem_of_singleton. done.
Qed.

Lemma set_delete_elem s m x : x ∈ set_delete s m ↔ x ∈ s ∧ x ≠ m.
Proof.
  unfold set_delete. rewrite elem_of_filterb. split; intros [H H1]; split; try done.
  - intros ->. by rewrite (proj2 (str_eqb_eq m m)) in H1.
  - destruct (str_eqb x m) eqn:E; [|done]. by apply str_eqb_eq in E.
Qed.

Lemma fold_add_elem ms s x : x ∈ fold_left set_add ms s ↔ x ∈ s ∨ x ∈ ms.
Proof.
  revert s; induction ms as [|m ms IH]; intros s; cbn [fold_left].
  - rewrite elem_of_nil. tauto.
  - rewrite IH, set_add_elem, elem_of_cons. tauto.
Qed.

Lemma fold_delete_elem ms s x : x ∈ fold_left set_delete ms s ↔ x ∈ s ∧ x ∉ ms.
Proof.
  revert s; induction ms as [|m ms IH]; intros s; cbn [fold_left].
  - rewrite elem_of_nil. tauto.
  - rewrite IH, set_delete_elem, not_elem_of_cons. tauto.
Qed.

Lemma fold_add_nodup ms s : NoDup s → NoDup (fold_left set_add ms s).
Proof. revert s; induction ms as [|m ms IH]; intros s H; [done|]. by apply IH, set_add_nodup. Qed.

Lemma fold_delete_nodup ms s : NoDup s → NoDup (fold_left set_delete ms s).
Proof.
  revert s; induction ms as [|m ms IH]; intros s H; [done|]. by apply IH, NoDup_filterb.
Qed.

(** The box for all visible models selects them all, or none when all were selected,
    and leaves the models that are not visible. *)
Theorem toggleAllVisible_exact models set :
  NoDup set →
  NoDup (toggleAllVisible models set)
  ∧ ((∀ m, m ∈ models → m ∈ set) → ∀ m, m ∈ models → m ∉ toggleAllVisible models set)
  ∧ (¬ (∀ m, m ∈ models → m ∈ set) → ∀ m, m ∈ models → m ∈ toggleAllVisible models set)
  ∧ ∀ m, m ∉ models → (m ∈ toggleAllVisible models set ↔ m ∈ set).
Proof.
  intros Hd. unfold toggleAllVisible.
  assert (forallb (λ m, str_mem m set) models = true ↔ ∀ m, m ∈ models → m ∈ set) as Hall.
  { rewrite forallb_forall. setoid_rewrite <- list_elem_of_In. by setoid_rewrite str_mem_true. }
  destruct (forallb _ models) eqn:E.
  - split_and!; [by apply fold_delete_nodup| | |]; intros; rewrite ?fold_delete_elem; [tauto| |tauto].
    destruct H. by apply Hall.
  - split_and!; [by apply fold_add_nodup| | |]; intros; rewrite ?fold_add_elem; [|tauto|tauto].
    apply Hall in H. done.
Qed.

Lemma toggle_sub m s x : x ∈ toggleModel m s → x ∈ s ∨ x = m.
Proof.
  unfold toggleModel. destruct (str_mem m s); [rewrite set_delete_elem|rewrite set_add_elem]; tauto.
Qed.

Lemma toggle_nodup m s : NoDup s → NoDup (toggleModel m s).
Proof.
  unfold toggleModel. destruct (str_mem m s); [apply NoDup_filterb|apply set_add_nodup].
Qed.

Lemma toggle_all_sub ms s x : x ∈ toggleAllVisible ms s → x ∈ s ∨ x ∈ ms.
Proof.
  unfold toggleAllVisible. destruct (forallb _ ms); rewrite ?fold_delete_elem, ?fold_add_elem; tauto.
Qed.

Lemma toggle_all_nodup ms s : NoDup s → NoDup (toggleAllVisible ms s).
Proof.
  unfold toggleAllVisible. destruct (forallb _ ms); [apply fold_delete_nodup|apply fold_add_nodup].
Qed.

(** ** The flags *)

Lemma op_eqb_eq o o' : op_eqb o o' = true ↔ o = o'.
Proof. by destruct o, o'. Qed.

#[export] Instance op_eq_dec : EqDecision Op.
Proof. solve_decision. Defined.

Lemma get_ref_busy o o' b h :
  get_ref o (set_busy o' b h) = if op_eqb o' o then b else get_ref o h.
Proof. by destruct o, o'. Qed.

Lemma get_loading_busy o o' b h :
  get_loading o (set_busy o' b h)
  = if op_eqb o' o then (if op_eqb o OpDetect then None else Some b) else get_loading o h.
Proof. by destruct o, o'. Qed.

(** A flag is set exactly while a call of its operation waits, a call of every operation
    waits at most once, and the buttons follow the flags. *)
Record flags_ok (h : Hook) (calls : list Call) : Prop := {
  fl_ref : ∀ o, get_ref o h = true ↔ o ∈ map cl_op calls;
  fl_once : NoDup (map cl_op calls);
  fl_loading : ∀ o b, get_loading o h = Some b → b = get_ref o h
}.

Lemma flags_modal show ch add remove tab h calls :
  flags_ok h calls → flags_ok (set_modal show ch add remove tab h) calls.
Proof.
  intros [Hr Hn Hl]. split; [intros o|done|intros o b].
  - rewrite <- (Hr o). by destruct o.
  - specialize (Hl o b). by destruct o.
Qed.

Lemma flags_start o ign ph h calls :
  flags_ok h calls → get_ref o h = false →
  flags_ok (set_busy o true h) (calls ++ [{| cl_op := o; cl_ignored := ign; cl_phase := ph |}]).
Proof.
  intros [Hr Hn Hl] Ho. split.
  - intros o'. rewrite get_ref_busy, map_app, elem_of_app, <- Hr. cbn. rewrite list_elem_of_singleton.
    destruct (op_eqb o o') eqn:E.
    + apply op_eqb_eq in E as ->. tauto.
    + split; [auto|]. intros [?| ->]; [done|]. by destruct o.
  - rewrite map_app. apply list.NoDup_app. split_and!; [done| |apply list.NoDup_singleton].
    intros x Hx. cbn. intros ->%list_elem_of_singleton. apply Hr in Hx. congruence.
  - intros o' b. rewrite get_loading_busy, get_ref_busy.
    destruct (op_eqb o o'); [|apply Hl]. by destruct (op_eqb o' OpDetect); intros [= <-].
Qed.

Lemma flags_finish i c h calls :
  flags_ok h calls → calls !! i = Some c → flags_ok (set_busy (cl_op c) false h) (list_delete i calls).
Proof.
  intros [Hr Hn Hl] Hi.
  assert (∃ a b, calls = a ++ c :: b ∧ list_delete i calls = a ++ b) as (a & b & -> & ->).
  { exists (take i calls), (drop (S i) calls). split; [symmetry; by apply take_drop_middle|].
    apply delete_take_drop. }
  revert Hn Hr. rewrite !map_app. cbn [map]. intros Hn Hr.
  apply list.NoDup_app in Hn as (Ha & Hab & [Hb Hn]%list.NoDup_cons).
  split.
  - intros o. rewrite get_ref_busy. specialize (Hr o).
    rewrite elem_of_app, elem_of_cons in Hr. rewrite map_app, elem_of_app.
    destruct (op_eqb (cl_op c) o) eqn:E.
    + apply op_eqb_eq in E as <-. split; [done|]. intros [H|H]; [|done].
      destruct (Hab _ H). left.
    + rewrite Hr. split; [|tauto]. intros [?|[->|?]]; auto. by destruct (cl_op c).
  - rewrite map_app. apply list.NoDup_app. split_and!; [done| |done].
    intros x Hx H. apply (Hab x Hx). by right.
  - intros o x. rewrite get_loading_busy, get_ref_busy.
    destruct (op_eqb (cl_op c) o); [|apply Hl]. by destruct (op_eqb o OpDetect); intros [= <-].
Qed.

Lemma flags_phase i c ign ph h calls :
  flags_ok h calls → calls !! i = Some c →
  flags_ok h (<[i := {| cl_op := cl_op c; cl_ignored := ign; cl_phase := ph |}]> calls).
Proof.
  intros [Hr Hn Hl] Hi.
  assert (map cl_op (<[i := {| cl_op := cl_op c; cl_ignored := ign; cl_phase := ph |}]> calls)
          = map cl_op calls) as E.
  { change (map cl_op) with (fmap (M := list) cl_op).
    rewrite list_fmap_insert. apply list_insert_id. by rewrite list_lookup_fmap, Hi. }
  split; [|by rewrite E|done]. intros o. by rewrite E.
Qed.

(** ** The invariant *)

Definition hook_models (tab : Tab) (h : Hook) : list jsstr :=
  match tab with TabAdd => hk_addModels h | TabRemove => hk_removeModels h end.

(** [off tab] are the models that were offered in [tab] so far. *)
Definition from_offered (off l : list jsstr) : Prop := normal_list l ∧ ∀ m, m ∈ l → m ∈ off.

(** An application names a channel, and models that were offered; it does not both add
    and ignore a model. *)
Definition request_ok (off : Tab → list jsstr) (r : Request) : Prop :=
  match r with
  | ApplyReq id add ignore remove =>
      json_truthy id = true ∧ from_offered (off TabAdd) add ∧ from_offered (off TabAdd) ignore
      ∧ from_offered (off TabRemove) remove ∧ ∀ m, m ∈ add → m ∉ ignore
  | _ => True
  end.

Record page_ok (off : Tab → list jsstr) (p : Page) : Prop := {
  pk_flags : flags_ok (pg_hook p) (pg_calls p);
  pk_shown : hk_showModal (pg_hook p) = true →
    has_id (hk_channel (pg_hook p)) = true ∧ ∃ tab, hook_models tab (pg_hook p) ≠ [];
  pk_hidden : hk_showModal (pg_hook p) = false →
    hk_channel (pg_hook p) = None ∧ ∀ tab, hook_models tab (pg_hook p) = [];
  pk_models : ∀ tab, from_offered (off tab) (hook_models tab (pg_hook p));
  pk_selected : ∀ tab, from_offered (off tab) (selected tab (pg_selection p));
  pk_question : sl_partialConfirmOpen (pg_selection p) = true →
    hk_showModal (pg_hook p) = true ∧ hk_applyRef (pg_hook p) = false;
  pk_requests : ∀ r, r ∈ pg_requests p → request_ok off r
}.

Lemma from_offered_mono off off' l :
  (∀ m, m ∈ off → m ∈ off') → from_offered off l → from_offered off' l.
Proof. intros Ho [Hn Hl]. split; auto. Qed.

Lemma from_offered_nil off : from_offered off [].
Proof. split; [done|]. by intros m ?%elem_of_nil. Qed.

Lemma page_ok_mono off off' p :
  (∀ tab m, m ∈ off tab → m ∈ off' tab) → page_ok off p → page_ok off' p.
Proof.
  intros Ho []. split; [done|done|done| | |done|].
  1-2: intros tab; eapply from_offered_mono; [apply Ho|done].
  intros r Hr. specialize (pk_requests0 r Hr). destruct r; [|done..]. cbn in *.
  destruct pk_requests0 as (? & ? & ? & ? & ?). split_and!; eauto using from_offered_mono.
Qed.

Lemma init_page_ok : page_ok (λ _, []) init_page.
Proof.
  split.
  - split; [|constructor|by intros [] b [= <-]]. intros o. by destruct o; rewrite elem_of_nil.
  - done.
  - intros _. split; [done|by intros []].
  - intros []; apply from_offered_nil.
  - intros []; apply from_offered_nil.
  - done.
  - by intros r ?%elem_of_nil.
Qed.

Lemma notify_ok off n p : page_ok off p → page_ok off (notify n p).
Proof. by intros []. Qed.

Lemma openModal_ok off ch add remove tab p :
  page_ok off p → sl_partialConfirmOpen (pg_selection p) = false →
  page_ok (λ t, off t ++ normalizeModelList (map JStr (match t with TabAdd => add | TabRemove => remove end)))
    (openModal ch add remove tab p).
Proof.
  intros Hp Hq. unfold openModal. destruct (_ || _) eqn:E.
  { apply notify_ok. eapply page_ok_mono, Hp. intros t m ?. apply elem_of_app. by left. }
  apply orb_false_iff in E as [Hid He]. apply negb_false_iff in Hid.
  apply (page_ok_mono _ (λ t, off t ++ normalizeModelList (map JStr
    (match t with TabAdd => add | TabRemove => remove end)))) in Hp;
    [|intros t m ?; apply elem_of_app; by left].
  destruct Hp. split; cbn; try done.
  - by apply flags_modal.
  - intros _. split; [done|]. apply andb_false_iff in He as [He|He]; [exists TabAdd|exists TabRemove];
      cbn; intros H; by rewrite H in He.
  - intros t. split; [destruct t; apply normalize_normal|]. intros m Hm. apply elem_of_app. right. by destruct t.
  - rewrite Hq. done.
Qed.

Lemma closeModal_ok off p :
  page_ok off p → sl_partialConfirmOpen (pg_selection p) = false → page_ok off (closeModal p).
Proof.
  intros [] Hq. split; cbn; try done.
  - by apply flags_modal.
  - split; [done|by intros []].
  - by intros []; apply from_offered_nil.
  - by rewrite Hq.
Qed.

Lemma models_busy o b tab h : hook_models tab (set_busy o b h) = hook_models tab h.
Proof. by destruct tab. Qed.

Lemma start_call_ok off o ign r p :
  page_ok off p → get_ref o (pg_hook p) = false → request_ok off r →
  sl_partialConfirmOpen (pg_selection p) = false → page_ok off (start_call o ign r p).
Proof.
  intros [] Ho Hr Hq. split; cbn; try done.
  - by apply flags_start.
  - by rewrite Hq.
  - intros x [?| ->%list_elem_of_singleton]%elem_of_app; auto.
Qed.

Lemma finish_call_ok off i c p :
  page_ok off p → pg_calls p !! i = Some c → page_ok off (finish_call i (cl_op c) p).
Proof.
  intros [] Hi. split; cbn; try done.
  - by apply flags_finish.
  - intros Hq. destruct (pk_question0 Hq) as [? Ha]. split; [done|]. rewrite Ha. by destruct (op_eqb _ _).
Qed.

Lemma waiting_ref off i c p :
  page_ok off p → pg_calls p !! i = Some c → get_ref (cl_op c) (pg_hook p) = true.
Proof.
  intros [Hf _ _ _ _ _ _] Hi. apply (fl_ref _ _ Hf), elem_of_mapb. exists c. split; [done|].
  by eapply list_elem_of_lookup_2.
Qed.

Lemma not_applying off p :
  page_ok off p → hk_applyLoading (pg_hook p) = false → hk_applyRef (pg_hook p) = false.
Proof. intros Hp <-. symmetry. by apply (fl_loading _ _ (pk_flags _ _ Hp) OpApply). Qed.

Lemma reply_ok off i c r p :
  page_ok off p → pg_calls p !! i = Some c → page_ok off (reply i c r p).
Proof.
  intros Hp Hi. pose proof (waiting_ref _ _ _ _ Hp Hi) as Hw. unfold reply.
  destruct r as [body|e]; [|apply finish_call_ok; [by apply notify_ok|done]].
  destruct (opt_truthy _); [|apply finish_call_ok; [by apply notify_ok|done]].
  destruct (success_notice _ _ _) as [n|]; [|apply finish_call_ok; [by apply notify_ok|done]].
  assert (∀ q, page_ok off q → pg_calls q = pg_calls p →
    page_ok off (with_calls (<[i := {| cl_op := cl_op c; cl_ignored := cl_ignored c;
      cl_phase := Refreshing |}]> (pg_calls q)) q)) as Hc.
  { intros q [] Eq. split; cbn; try done. rewrite Eq in *. by apply flags_phase. }
  apply (notify_ok _ n) in Hp. destruct (cl_op c); apply Hc; try done.
  apply closeModal_ok; [done|]. destruct (sl_partialConfirmOpen _) eqn:Eq; [|done].
  apply (pk_question _ _ Hp) in Eq as [_ Eq]. cbn in Eq, Hw. congruence.
Qed.

Lemma refreshed_ok off i c r p :
  page_ok off p → pg_calls p !! i = Some c → page_ok off (refreshed i c r p).
Proof.
  intros Hp Hi. unfold refreshed. destruct r; apply finish_call_ok; try done. by apply notify_ok.
Qed.

(** A change of the selection among the models that are shown. *)
Lemma select_ok off s p :
  page_ok off p → sl_partialConfirmOpen s = false →
  (∀ tab, NoDup (selected tab s)) →
  (∀ tab m, m ∈ selected tab s → m ∈ selected tab (pg_selection p) ∨ m ∈ hook_models tab (pg_hook p)) →
  page_ok off (with_selection s p).
Proof.
  intros [] Hq Hd Hs. split; cbn; try done; [|by rewrite Hq].
  intros tab. specialize (pk_models0 tab) as [[_ Hm] Hmo].
  specialize (pk_selected0 tab) as [[_ Hl] Hlo].
  split; [split; [done|]|]; intros m [?|?]%Hs; auto.
Qed.

Lemma channel_meta_normal ch meta tab :
  channel_meta ch = Ok meta → normal_list (pending_models tab meta).
Proof.
  assert (∀ kvs, meta_of kvs = Ok meta → normal_list (pending_models tab meta)) as Hm.
  { intros kvs. unfold meta_of, mbind, exn_bind.
    destruct (model_array "upstream_model_update_last_detected_models" kvs) as [a|]; [|done].
    destruct (model_array "upstream_model_update_last_removed_models" kvs) as [b|]; [|done].
    intros [= <-]. destruct tab; apply normalize_normal. }
  unfold channel_meta, parseUpstreamUpdateMeta.
  destruct (JSON_parse _) as [[]|];
    first [apply Hm|intros [= <-]; destruct tab; apply normal_nil].
Qed.

(** The models an event offers in a tab. *)
Definition offered_by (tab : Tab) (e : PageEvent) : list jsstr :=
  match e with
  | ClickTag ch _ | ClickMenu ch =>
      match channel_meta ch with Ok meta => pending_models tab meta | Throw => [] end
  | _ => []
  end.

Definition offered (es : list PageEvent) (tab : Tab) : list jsstr := concat (map (offered_by tab) es).

(** What a confirmation sends: the selected models are added and removed, the offered
    models that were not selected are ignored. *)
Definition choice_request (ch : Channel) (s : Selection) (add : list jsstr) : Request :=
  ApplyReq (ch_id ch) (sl_selectedAdd s)
    (List.filter (λ m, negb (str_mem m (sl_selectedAdd s))) add) (sl_selectedRemove s).

Lemma onConfirm_sends off p :
  page_ok off p → hk_applyRef (pg_hook p) = false → hk_showModal (pg_hook p) = true →
  ∃ ch ign, hk_channel (pg_hook p) = Some ch
    ∧ request_ok off (choice_request ch (pg_selection p) (hk_addModels (pg_hook p)))
    ∧ onConfirm p
      = start_call OpApply ign (choice_request ch (pg_selection p) (hk_addModels (pg_hook p))) p.
Proof.
  intros [Hf Hs _ Hm Hl _ _] Ha Hsh. destruct (Hs Hsh) as [Hid _]. unfold onConfirm, applyUpdates.
  rewrite Ha. destruct (hk_channel (pg_hook p)) as [ch|]; [|done]. cbn in Hid. rewrite Hid.
  pose proof (Hl TabAdd) as Ht. pose proof (Hl TabRemove) as Hr. cbn in Ht, Hr.
  rewrite !normalize_id by (apply Ht || apply Hr). eexists ch, _. split_and!; [done| |done].
  destruct (Hm TabAdd) as [[Hd Hn] Ho]. cbn in *. split_and!; try done.
  - split; [split; [by apply NoDup_filterb|]|]; intros m [? _]%elem_of_filterb; auto.
  - intros m Hi [_ H]%elem_of_filterb. apply str_mem_true in Hi. by rewrite Hi in H.
Qed.

Lemma onConfirm_ok off p :
  page_ok off p → hk_applyRef (pg_hook p) = false → hk_showModal (pg_hook p) = true →
  sl_partialConfirmOpen (pg_selection p) = false → page_ok off (onConfirm p).
Proof.
  intros Hp Ha Hs Hq. destruct (onConfirm_sends _ _ Hp Ha Hs) as (ch & ign & _ & Hr & ->).
  by apply start_call_ok.
Qed.

Section runs.
Context (toLowerCase : jsstr → jsstr).

Lemma filtered_sub tab p m : m ∈ filtered toLowerCase tab p → m ∈ hook_models tab (pg_hook p).
Proof. destruct tab; cbn; unfold filtered_models; rewrite elem_of_filterb; tauto. Qed.

Lemma selected_set tab tab' l s :
  selected tab (setSelected tab' l s)
  = match tab, tab' with TabAdd, TabAdd | TabRemove, TabRemove => l | _, _ => selected tab s end.
Proof. by destruct tab, tab'. Qed.

(** Replacing the selection of one tab. *)
Lemma set_selected_ok off tab l p :
  page_ok off p → sl_partialConfirmOpen (pg_selection p) = false → NoDup l →
  (∀ m, m ∈ l → m ∈ selected tab (pg_selection p) ∨ m ∈ hook_models tab (pg_hook p)) →
  page_ok off (with_selection (setSelected tab l (pg_selection p)) p).
Proof.
  intros Hp Hq Hd Hl. apply select_ok; [done|done| |].
  - intros t. rewrite selected_set. destruct (pk_selected _ _ Hp t) as [[? _] _]. by destruct t, tab.
  - intros t m. rewrite selected_set. destruct t, tab; auto.
Qed.

Lemma modal_step_ok off e p p' :
  page_ok off p → focus p = OnDialog → modal_step toLowerCase e p = Some p' → page_ok off p'.
Proof.
  intros Hp Hf. unfold focus in Hf.
  destruct (sl_partialConfirmOpen (pg_selection p)) eqn:Hq; [done|].
  destruct (hk_showModal (pg_hook p)) eqn:Hs; [|done].
  assert (∀ t, NoDup (selected t (pg_selection p))) as Hd by (intros t; apply (pk_selected _ _ Hp t)).
  destruct e; cbn [modal_step]; try done.
  - intros [= <-]. by apply closeModal_ok.
  - intros [= <-]. by apply select_ok; auto; intros [] m; cbn; auto.
  - intros [= <-]. by apply select_ok; auto; intros [] m; cbn; auto.
  - destruct (str_mem _ _) eqn:Em; [|done]. intros [= <-]. apply set_selected_ok; auto using toggle_nodup.
    intros m [?| ->]%toggle_sub; [auto|]. right. apply str_mem_true in Em. by eapply filtered_sub.
  - destruct (0 <? _)%nat; [|done]. intros [= <-]. apply set_selected_ok; auto using toggle_all_nodup.
    intros m [?|?]%toggle_all_sub; [auto|]. right. by eapply filtered_sub.
  - destruct (confirm_disabled p) eqn:Ec; [done|]. intros [= <-].
    unfold confirm_disabled in Ec. apply orb_false_iff in Ec as [Hl _].
    pose proof (not_applying _ _ Hp Hl) as Ha.
    unfold handleConfirm. destruct (partial_choice p); [|by apply onConfirm_ok].
    destruct Hp. by split.
Qed.

Lemma question_step_ok off e p p' :
  page_ok off p → focus p = OnQuestion → question_step e p = Some p' → page_ok off p'.
Proof.
  intros Hp Hf. unfold focus in Hf.
  destruct (sl_partialConfirmOpen (pg_selection p)) eqn:Hq; [|by destruct (hk_showModal _)].
  destruct (pk_question _ _ Hp Hq) as [Hs Ha].
  assert (page_ok off (with_selection (setPartialConfirmOpen false (pg_selection p)) p)) as Hp'.
  { destruct Hp. by split. }
  destruct e; cbn; try done; intros [= <-]; [|done]. by apply onConfirm_ok.
Qed.

Lemma open_channel_ok off ch meta tab p :
  page_ok off p → focus p = OnTable → channel_meta ch = Ok meta →
  page_ok (λ t, off t ++ pending_models t meta)
    (openModal (Some ch) (pendingAddModels meta) (pendingRemoveModels meta) tab p).
Proof.
  intros Hp Hf Hm. eapply page_ok_mono; [|apply openModal_ok; [exact Hp|]].
  - intros t m. cbn beta.
    assert (match t with TabAdd => pendingAddModels meta | TabRemove => pendingRemoveModels meta end
            = pending_models t meta) as -> by by destruct t.
    by rewrite normalize_id by by eapply channel_meta_normal.
  - unfold focus in Hf. by destruct (sl_partialConfirmOpen _).
Qed.

Lemma page_ok_more off f p : page_ok off p → page_ok (λ t, off t ++ f t) p.
Proof. apply page_ok_mono. intros. apply elem_of_app. by left. Qed.

Lemma not_asked p : focus p = OnTable → sl_partialConfirmOpen (pg_selection p) = false.
Proof. unfold focus. by destruct (sl_partialConfirmOpen _). Qed.

Lemma table_step_ok off e p p' :
  page_ok off p → focus p = OnTable → table_step e p = Some p' →
  page_ok (λ t, off t ++ offered_by t e) p'.
Proof.
  intros Hp Hf. pose proof (not_asked _ Hf) as Hq. destruct e; cbn [table_step offered_by]; try done.
  - unfold click_tag. destruct (type_in _ _); [|done].
    destruct (channel_meta ch) as [meta|] eqn:Em; [|done]. destruct (_ && _); [|done].
    intros [= <-]. by apply open_channel_ok.
  - unfold click_menu. destruct (type_in _ _); [|done].
    destruct (channel_meta ch) as [meta|] eqn:Em; intros [= <-]; [|by apply page_ok_more].
    destruct (_ || _); [by apply open_channel_ok|]. apply page_ok_more.
    unfold detectChannelUpdates. destruct (hk_detectRef _) eqn:Er; [done|].
    destruct (json_truthy _); [|done]. by apply start_call_ok.
  - destruct (hk_applyAllLoading _); [done|]. intros [= <-]. apply page_ok_more.
    unfold applyAllUpdates. destruct (hk_applyAllRef _) eqn:Er; [done|]. by apply start_call_ok.
  - destruct (hk_detectAllLoading _); [done|]. intros [= <-]. apply page_ok_more.
    unfold detectAllUpdates. destruct (hk_detectAllRef _) eqn:Er; [done|]. by apply start_call_ok.
Qed.

Lemma page_step_ok off e p p' :
  page_ok off p → page_step toLowerCase e p = Some p' → page_ok (λ t, off t ++ offered_by t e) p'.
Proof.
  intros Hp. destruct e; cbn [page_step].
  13: { destruct (_ !! i) as [c|] eqn:Ei; [|done]. destruct (cl_phase c); [|done].
        intros [= <-]. by apply page_ok_more, reply_ok. }
  13: { destruct (_ !! i) as [c|] eqn:Ei; [|done]. destruct (cl_phase c); [done|].
        intros [= <-]. by apply page_ok_more, refreshed_ok. }
  all: destruct (focus p) eqn:Ef; intros Hst;
    [by eapply table_step_ok
    |apply page_ok_more; by eapply modal_step_ok
    |apply page_ok_more; by eapply question_step_ok].
Qed.

Lemma page_run_ok off es p p' :
  page_ok off p → page_run toLowerCase es p = Some p' →
  page_ok (λ t, off t ++ concat (map (offered_by t) es)) p'.
Proof.
  revert off p. induction es as [|e es IH]; intros off p Hp; cbn.
  - intros [= <-]. eapply page_ok_mono, Hp. intros t m. by rewrite app_nil_r.
  - destruct (page_step _ e p) as [q|] eqn:E; [|done]. intros Hr.
    apply (IH _ _ (page_step_ok _ _ _ _ Hp E)) in Hr. eapply page_ok_mono, Hr.
    intros t m. cbn beta. by rewrite <- (List.app_assoc (off t)).
Qed.

Lemma reached_ok es p : page_run toLowerCase es init_page = Some p → page_ok (offered es) p.
Proof. intros Hr. exact (page_run_ok (λ _, []) es init_page p init_page_ok Hr). Qed.
End runs.

(** ** Theorems *)

(** C8: in every state the page can reach, an operation of the hook is flagged exactly while
    one call of it waits, never two, and its button is disabled exactly then; the dialog
    is shown exactly with a channel and with models to process; the question about a
    partial choice is only asked over the dialog and while nothing is being applied. *)
Theorem updates_consistent toLowerCase es p :
  page_run toLowerCase es init_page = Some p →
  let h := pg_hook p in
  (∀ o, get_ref o h = true ↔ ∃ c, c ∈ pg_calls p ∧ cl_op c = o)
  ∧ (∀ i j c c', pg_calls p !! i = Some c → pg_calls p !! j = Some c' → cl_op c = cl_op c' → i = j)
  ∧ (∀ o b, get_loading o h = Some b → b = get_ref o h)
  ∧ (hk_showModal h = true ↔
     has_id (hk_channel h) = true ∧ (hk_addModels h ≠ [] ∨ hk_removeModels h ≠ []))
  ∧ (sl_partialConfirmOpen (pg_selection p) = true → hk_showModal h = true ∧ hk_applyRef h = false).
Proof.
  intros Hr h. destruct (reached_ok _ _ _ Hr) as [[Href Hn Hl] Hs Hh _ _ Hq _]. fold h in Href, Hl, Hs, Hh, Hq.
  split_and!; [| |done| |done].
  - intros o. rewrite Href, elem_of_mapb. by split; intros (c & ? & ?); exists c.
  - intros i j c c' Hi Hj E. apply (NoDup_lookup (map cl_op (pg_calls p)) i j (cl_op c) Hn);
      change (map cl_op) with (fmap (M := list) cl_op); rewrite list_lookup_fmap; [by rewrite Hi|].
    by rewrite Hj, E.
  - split.
    + intros [Hi [[] Hm]]%Hs; auto.
    + intros [Hi Hm]. destruct (hk_showModal h) eqn:E; [done|]. destruct (Hh eq_refl) as [Hc Hz].
      destruct Hm as [Hm|Hm]; [by destruct Hm; apply (Hz TabAdd)|by destruct Hm; apply (Hz TabRemove)].
Qed.

(** C9: the button of the dialog, when it is enabled, and the answer yes to the question
    about a partial choice send one application, for the channel that is shown.  It adds
    the models selected for adding, ignores exactly the other models on offer, and
    removes the models selected for removal.  The button asks first exactly when models
    of both kinds are on offer and models of one kind only are selected. *)
Theorem confirm_sends_choice toLowerCase es p e p' :
  page_run toLowerCase es init_page = Some p →
  e = Confirm ∨ e = ConfirmPartial →
  page_step toLowerCase e p = Some p' →
  if match e with Confirm => partial_choice p | _ => false end then
    pg_requests p' = pg_requests p ∧ focus p' = OnQuestion
  else ∃ ch ignore,
    hk_channel (pg_hook p) = Some ch
    ∧ pg_requests p' = pg_requests p
        ++ [ApplyReq (ch_id ch) (sl_selectedAdd (pg_selection p)) ignore (sl_selectedRemove (pg_selection p))]
    ∧ (∀ m, m ∈ ignore ↔ m ∈ hk_addModels (pg_hook p) ∧ m ∉ sl_selectedAdd (pg_selection p))
    ∧ pg_selection p' = setPartialConfirmOpen false (pg_selection p)
    ∧ hk_applyLoading (pg_hook p') = true.
Proof.
  intros Hr%reached_ok He Hst.
  assert (∀ q, page_ok (offered es) q → pg_hook q = pg_hook p → pg_requests q = pg_requests p →
    pg_selection q = setPartialConfirmOpen false (pg_selection p) →
    hk_applyRef (pg_hook p) = false → hk_showModal (pg_hook p) = true →
    ∃ ch ignore, hk_channel (pg_hook p) = Some ch
    ∧ pg_requests (onConfirm q) = pg_requests p
        ++ [ApplyReq (ch_id ch) (sl_selectedAdd (pg_selection p)) ignore (sl_selectedRemove (pg_selection p))]
    ∧ (∀ m, m ∈ ignore ↔ m ∈ hk_addModels (pg_hook p) ∧ m ∉ sl_selectedAdd (pg_selection p))
    ∧ pg_selection (onConfirm q) = setPartialConfirmOpen false (pg_selection p)
    ∧ hk_applyLoading (pg_hook (onConfirm q)) = true) as Hmain.
  { intros q Hq Eh Er Es Ha Hs. rewrite <- Eh in Ha, Hs.
    destruct (onConfirm_sends _ _ Hq Ha Hs) as (ch & ign & Hc & _ & ->).
    rewrite Eh, Es in *. eexists ch, _. cbn. rewrite Er, Es. split_and!; try done.
    intros m. rewrite elem_of_filterb, negb_true_iff. by rewrite str_mem_false. }
  destruct He as [-> | ->]; cbn [page_step] in Hst; destruct (focus p) eqn:Ef; try done; cbn in Hst.
  - unfold focus in Ef. destruct (sl_partialConfirmOpen (pg_selection p)) eqn:Eq; [done|].
    destruct (hk_showModal (pg_hook p)) eqn:Hs; [|done].
    destruct (confirm_disabled p) eqn:Ec; [done|]. injection Hst as <-.
    unfold confirm_disabled in Ec. apply orb_false_iff in Ec as [Hl _].
    unfold handleConfirm. destruct (partial_choice p); [done|].
    apply Hmain; try done.
    + destruct (pg_selection p). cbn in Eq. by subst.
    + by eapply not_applying.
  - injection Hst as <-. unfold focus in Ef.
    destruct (sl_partialConfirmOpen (pg_selection p)) eqn:Eq; [|by destruct (hk_showModal _)].
    destruct (pk_question _ _ Hr Eq). apply Hmain; try done. destruct Hr. by split.
Qed.

(** Every application that was sent names a channel, adds and ignores only models that a
    channel opened before offered to add, removes only models that one offered to
    remove, and does not both add and ignore a model. *)
Theorem requests_name_offered toLowerCase es p id add ignore remove :
  page_run toLowerCase es init_page = Some p →
  ApplyReq id add ignore remove ∈ pg_requests p →
  json_truthy id = true
  ∧ (∀ m, m ∈ add ∨ m ∈ ignore → m ∈ offered es TabAdd)
  ∧ (∀ m, m ∈ remove → m ∈ offered es TabRemove)
  ∧ (∀ m, m ∈ add → m ∉ ignore).
Proof.
  intros Hr%reached_ok Hin%(pk_requests _ _ Hr). destruct Hin as (? & [_ Ha] & [_ Hi] & [_ Hrm] & Hd).
  split_and!; try done. intros m [?|?]; auto.
Qed.

Lemma delete_insert_same {A} i (x : A) l : list_delete i (<[i := x]> l) = list_delete i l.
Proof. revert i; induction l as [|y l IH]; intros [|i]; cbn; [done..|]. f_equal. apply IH. Qed.

(** A call that waits is ended by whatever the server answers, together with the end of
    the refresh that follows a success; then its flag is reset, its button is enabled
    and only this call is gone. *)
Theorem calls_end toLowerCase p i c r f :
  pg_calls p !! i = Some c →
  ∃ ends p',
    ends ∈ [[ServerReplies i r]; [ServerReplies i r; RefreshEnds i f]; [RefreshEnds i f]]
    ∧ page_run toLowerCase ends p = Some p'
    ∧ pg_calls p' = list_delete i (pg_calls p)
    ∧ get_ref (cl_op c) (pg_hook p') = false
    ∧ get_loading (cl_op c) (pg_hook p') ≠ Some true.
Proof.
  intros Hi.
  assert (∀ o h, get_ref o (set_busy o false h) = false ∧ get_loading o (set_busy o false h) ≠ Some true)
    as Hbusy by by intros [].
  assert (∀ q, pg_calls q !! i = Some {| cl_op := cl_op c; cl_ignored := cl_ignored c; cl_phase := Refreshing |} →
    list_delete i (pg_calls q) = list_delete i (pg_calls p) →
    ∃ p', page_run toLowerCase [RefreshEnds i f] q = Some p'
    ∧ pg_calls p' = list_delete i (pg_calls p)
    ∧ get_ref (cl_op c) (pg_hook p') = false
    ∧ get_loading (cl_op c) (pg_hook p') ≠ Some true) as Hrefresh.
  { intros q Hq Ed. cbn [page_run page_step]. rewrite Hq. cbn. eexists. split; [done|].
    unfold refreshed. destruct f; cbn; split; try done; apply Hbusy. }
  destruct (cl_phase c) eqn:Ep.
  - assert (page_run toLowerCase [ServerReplies i r] p = Some (reply i c r p)) as Hone.
    { cbn. by rewrite Hi, Ep. }
    assert (pg_calls (reply i c r p) = list_delete i (pg_calls p)
            ∧ get_ref (cl_op c) (pg_hook (reply i c r p)) = false
            ∧ get_loading (cl_op c) (pg_hook (reply i c r p)) ≠ Some true
          ∨ pg_calls (reply i c r p)
            = <[i := {| cl_op := cl_op c; cl_ignored := cl_ignored c; cl_phase := Refreshing |}]>
                (pg_calls p)) as [Hend|Hmid].
    { unfold reply. destruct r as [body|e]; [|left; by split; [|apply Hbusy]].
      destruct (opt_truthy _); [|left; by split; [|apply Hbusy]].
      destruct (success_notice _ _ _); [|left; by split; [|apply Hbusy]].
      right. by destruct (cl_op c). }
    + exists [ServerReplies i r], (reply i c r p). split; [left|]. by split.
    + destruct (Hrefresh (reply i c r p)) as (p' & Hp' & ?).
      { rewrite Hmid. apply list_lookup_insert_eq. by eapply lookup_lt_Some. }
      { rewrite Hmid. apply delete_insert_same. }
      exists [ServerReplies i r; RefreshEnds i f], p'. split; [right; left|]. split; [|done].
      revert Hone Hp'. cbn [page_run]. by destruct (page_step _ (ServerReplies i r) p) as [?|]; intros [= ->].
  - destruct (Hrefresh p) as (p' & ?); [|done|].
    { destruct c as [o ig ph]. cbn in *. by subst. }
    exists [RefreshEnds i f], p'. split; [right; right; left|done].
Qed.

(** A click on a shown tag opens the dialog for the channel and leaves its selection. *)
Lemma tag_opens toLowerCase p ch tab meta :
  focus p = OnTable → json_truthy (ch_id ch) = true →
  type_in (ch_type ch) MODEL_FETCHABLE_TYPES = true →
  channel_meta ch = Ok meta → enabled meta = true → pending_models tab meta ≠ [] →
  page_step toLowerCase (ClickTag ch tab) p
  = Some (with_hook (set_modal true (Some ch) (pendingAddModels meta) (pendingRemoveModels meta) tab
                       (pg_hook p)) p).
Proof.
  intros Hf Hid Ht Hm He Hp. cbn [page_step]. rewrite Hf. cbn [table_step]. unfold click_tag.
  rewrite Ht, Hm, He. cbn [andb]. destruct (0 <? _)%nat eqn:E.
  2: { destruct (pending_models tab meta); [done|]. by apply Nat.ltb_ge in E; cbn in E; lia. }
  unfold openModal. cbn [has_id]. rewrite Hid.
  rewrite !normalize_id
    by (apply (channel_meta_normal ch meta TabAdd) || apply (channel_meta_normal ch meta TabRemove); done).
  destruct (negb true || _) eqn:Eo; [|done]. cbn in Eo. apply andb_true_iff in Eo as [H1 H2].
  apply Nat.eqb_eq, length_zero_iff_nil in H1, H2. by destruct tab.
Qed.

(** The selection of the dialog is never reset.  From the table, opening a channel and
    confirming, with the answer yes if the question is asked, sends what was selected
    before, for whatever channels, to the channel now opened; models on offer that are
    not in the old selection are ignored. *)
Theorem stale_selection_sent toLowerCase es p ch tab meta :
  page_run toLowerCase es init_page = Some p →
  focus p = OnTable → hk_applyRef (pg_hook p) = false →
  json_truthy (ch_id ch) = true → type_in (ch_type ch) MODEL_FETCHABLE_TYPES = true →
  channel_meta ch = Ok meta → enabled meta = true → pending_models tab meta ≠ [] →
  ∃ question p',
    (question = [] ∨ question = [ConfirmPartial])
    ∧ page_run toLowerCase (ClickTag ch tab :: Confirm :: question) p = Some p'
    ∧ pg_requests p'
      = pg_requests p ++ [choice_request ch (pg_selection p) (pendingAddModels meta)].
Proof.
  intros Hr Hf Ha Hid Ht Hm He Hne.
  pose proof (tag_opens toLowerCase p ch tab meta Hf Hid Ht Hm He Hne) as Hopen.
  pose proof (page_step_ok toLowerCase _ _ _ _ (reached_ok _ _ _ Hr) Hopen) as Hok.
  set (p1 := with_hook _ p) in *. cbn [page_run]. rewrite Hopen.
  assert (focus p1 = OnDialog) as Hf1 by by unfold focus; cbn; rewrite not_asked.
  assert (∀ off q, page_ok off q → pg_hook q = pg_hook p1 → pg_requests q = pg_requests p →
    sl_selectedAdd (pg_selection q) = sl_selectedAdd (pg_selection p) →
    sl_selectedRemove (pg_selection q) = sl_selectedRemove (pg_selection p) →
    pg_requests (onConfirm q)
    = pg_requests p ++ [choice_request ch (pg_selection p) (pendingAddModels meta)]) as Hsend.
  { intros off q Hq Eh Er E1 E2. destruct (onConfirm_sends _ q Hq) as (ch' & ign & Hc & _ & ->); [by rewrite Eh..|].
    rewrite Eh in *. injection Hc as <-. cbn. rewrite Er. unfold choice_request. by rewrite E1, E2. }
  assert (page_step toLowerCase Confirm p1 = Some (handleConfirm p1)) as Hst.
  { cbn [page_step]. rewrite Hf1. cbn [modal_step]. replace (confirm_disabled p1) with false; [done|].
    symmetry. unfold confirm_disabled. cbn.
    assert (hk_applyLoading (pg_hook p) = false) as ->.
    { rewrite <- Ha. by apply (fl_loading _ _ (pk_flags _ _ (reached_ok _ _ _ Hr)) OpApply). }
    revert Hne. destruct tab; cbn; by destruct (pendingAddModels meta), (pendingRemoveModels meta). }
  rewrite Hst. unfold handleConfirm. destruct (partial_choice p1).
  - exists [ConfirmPartial]. eexists. split; [by right|]. split; [done|].
    apply (Hsend (λ t, offered es t ++ offered_by t (ClickTag ch tab))); try done. destruct Hok. by split.
  - exists []. eexists. split; [by left|]. split; [done|]. by eapply Hsend.
Qed.

(** A dialog that is cancelled while its application waits can be opened for another
    channel; the answer to the first application closes it, and nothing is sent. *)
Theorem late_answer_closes_dialog toLowerCase p ch tab meta i c body n :
  focus p = OnTable → json_truthy (ch_id ch) = true →
  type_in (ch_type ch) MODEL_FETCHABLE_TYPES = true →
  channel_meta ch = Ok meta → enabled meta = true → pending_models tab meta ≠ [] →
  pg_calls p !! i = Some c → cl_op c = OpApply → cl_phase c = Posting →
  opt_truthy (opt_prop "success" body) = true →
  success_notice OpApply (cl_ignored c) (opt_prop "data" body) = Ok n →
  ∃ p1 p2,
    page_step toLowerCase (ClickTag ch tab) p = Some p1
    ∧ hk_channel (pg_hook p1) = Some ch ∧ focus p1 = OnDialog
    ∧ page_step toLowerCase (ServerReplies i (Replied body)) p1 = Some p2
    ∧ focus p2 = OnTable ∧ hk_channel (pg_hook p2) = None
    ∧ pg_requests p2 = pg_requests p.
Proof.
  intros Hf Hid Ht Hm He Hne Hi Ho Hp Hs Hn. eexists _, _.
  split; [by apply tag_opens|]. split; [done|].
  split; [by unfold focus; cbn; rewrite not_asked|].
  cbn [page_step pg_calls with_hook]. rewrite Hi, Hp. split; [done|]. unfold reply.
  rewrite Hs, Ho, Hn. cbn. split_and!; try done. unfold focus. cbn. by rewrite not_asked.
Qed.

(** The first dialog of the page opens with nothing selected: confirming it ignores
    every model on offer. *)
Theorem first_confirm_ignores_all toLowerCase ch meta :
  json_truthy (ch_id ch) = true → type_in (ch_type ch) MODEL_FETCHABLE_TYPES = true →
  channel_meta ch = Ok meta → enabled meta = true → pendingAddModels meta ≠ [] →
  ∃ p', page_run toLowerCase [ClickTag ch TabAdd; Confirm] init_page = Some p'
    ∧ pg_requests p' = [ApplyReq (ch_id ch) [] (pendingAddModels meta) []].
Proof.
  intros Hid Ht Hm He Hne. cbn [page_run].
  rewrite (tag_opens toLowerCase init_page ch TabAdd meta) by done.
  cbn [page_step]. unfold focus. cbn -[handleConfirm].
  destruct (pendingAddModels meta) as [|x l] eqn:Ea; [done|]. cbn -[handleConfirm].
  eexists. split; [done|]. unfold handleConfirm, partial_choice. cbn.
  rewrite andb_false_r. unfold onConfirm, applyUpdates. cbn. rewrite Hid. cbn. do 3 f_equal.
  clear. induction l as [|y l IH]; cbn; congruence.
Qed.

(** ** Examples *)

Definition sample_channel (id : Z) (settings : jsstr) : Channel :=
  {| ch_id := JNum (num_of_Z id); ch_type := 1; ch_key := "k"; ch_openai_organization := None;
     ch_test_model := None; ch_status := 1; ch_name := "c"; ch_weight := NVal zero;
     ch_created_time := zero; ch_test_time := zero; ch_response_time := zero;
     ch_base_url := None; ch_other := []; ch_balance := zero; ch_balance_updated_time := zero;
     ch_models := []; ch_group := "default"; ch_used_quota := zero; ch_model_mapping := None;
     ch_status_code_mapping := None; ch_priority := NVal zero; ch_auto_ban := NVal zero;
     ch_other_info := []; ch_tag := None; ch_setting := None; ch_param_override := None;
     ch_header_override := None; ch_remark := []; ch_max_input_tokens := zero;
     ch_channel_info := {| is_multi_key := false; multi_key_size := zero;
       multi_key_status_list := None; multi_key_disabled_reason := None;
       multi_key_disabled_time := None; multi_key_polling_index := zero; multi_key_mode := [] |};
     ch_settings := settings |}.

Definition sample_a : Channel :=
  sample_channel 1 "{\qupstream_model_update_check_enabled\q:true,\qupstream_model_update_last_detected_models\q:[\qgpt-a\q,\qgpt-b\q],\qupstream_model_update_last_removed_models\q:[\qold\q]}".
Definition sample_b : Channel :=
  sample_channel 2 "{\qupstream_model_update_check_enabled\q:true,\qupstream_model_update_last_detected_models\q:[\qgpt-c\q]}".

Definition sample_ok : Reply := Replied (Some (JObj [("success", JBool true)])).

(** One model is selected for the first channel, and the partial choice is confirmed. *)
Definition sample_apply : list PageEvent :=
  [ClickTag sample_a TabAdd; Toggle "gpt-a"; Confirm; ConfirmPartial].

Definition reach (es : list PageEvent) : Page :=
  match page_run (λ s, s) es init_page with Some p => p | None => init_page end.

Lemma updates_consistent_witness :
  get_ref OpApply (pg_hook (reach sample_apply)) = true
  ∧ ∃ c, c ∈ pg_calls (reach sample_apply) ∧ cl_op c = OpApply.
Proof.
  assert (page_run (λ s, s) sample_apply init_page = Some (reach sample_apply)) as Hr
    by (vm_compute; reflexivity).
  assert (get_ref OpApply (pg_hook (reach sample_apply)) = true) as Hb by (vm_compute; reflexivity).
  split; [exact Hb|]. apply (proj1 (updates_consistent _ _ _ Hr) OpApply). exact Hb.
Defined.

Lemma confirm_sends_choice_witness :
  ∃ ch ignore,
    hk_channel (pg_hook (reach (take 3 sample_apply))) = Some ch
    ∧ pg_requests (reach sample_apply) = [ApplyReq (ch_id ch) ["gpt-a"] ignore []]
    ∧ ∀ m, m ∈ ignore ↔ m ∈ hk_addModels (pg_hook (reach (take 3 sample_apply))) ∧ m ∉ ["gpt-a"].
Proof.
  assert (page_run (λ s, s) (take 3 sample_apply) init_page = Some (reach (take 3 sample_apply))) as Hr
    by (vm_compute; reflexivity).
  assert (page_step (λ s, s) ConfirmPartial (reach (take 3 sample_apply)) = Some (reach sample_apply)) as Hs
    by (vm_compute; reflexivity).
  destruct (confirm_sends_choice _ _ _ _ _ Hr (or_intror eq_refl) Hs) as (ch & ign & Hc & Hq & Hi & _).
  exists ch, ign. exact (conj Hc (conj Hq Hi)).
Defined.

Lemma requests_name_offered_witness :
  ∀ m, m ∈ ["gpt-a"] ∨ m ∈ ["gpt-b"] → m ∈ offered sample_apply TabAdd.
Proof.
  assert (page_run (λ s, s) sample_apply init_page = Some (reach sample_apply)) as Hr
    by (vm_compute; reflexivity).
  apply (requests_name_offered _ _ _ (JNum (num_of_Z 1)) ["gpt-a"] ["gpt-b"] [] Hr).
  assert (pg_requests (reach sample_apply) = [ApplyReq (JNum (num_of_Z 1)) ["gpt-a"] ["gpt-b"] []]) as ->
    by (vm_compute; reflexivity).
  left.
Defined.

(** The call of [sample_apply] is ended by a rejected request. *)
Lemma calls_end_witness :
  ∃ p', pg_calls p' = [] ∧ get_ref OpApply (pg_hook p') = false.
Proof.
  assert (pg_calls (reach sample_apply) !! 0
          = Some {| cl_op := OpApply; cl_ignored := ["gpt-b"]; cl_phase := Posting |}) as Hc
    by (vm_compute; reflexivity).
  destruct (calls_end (λ s, s) _ _ _
    (Rejected {| response_message := None; error_message := None |}) None Hc) as (es & p' & _ & _ & Hd & Hb & _).
  exists p'. split; [|exact Hb]. rewrite Hd. vm_compute. reflexivity.
Defined.

(** The model selected for the first channel is added to the second one, which does not
    offer it. *)
Lemma stale_selection_sent_witness :
  ∃ p', pg_requests p' = pg_requests (reach sample_apply)
          ++ [ApplyReq (JNum (num_of_Z 2)) ["gpt-a"] ["gpt-c"] []].
Proof.
  pose (es := sample_apply ++ [ServerReplies 0 sample_ok; RefreshEnds 0 None]).
  assert (page_run (λ s, s) es init_page = Some (reach es)) as Hr by (vm_compute; reflexivity).
  assert (channel_meta sample_b = Ok {| enabled := true; pendingAddModels := ["gpt-c"];
    pendingRemoveModels := [] |}) as Hm by (vm_compute; reflexivity).
  destruct (stale_selection_sent (λ s, s) es (reach es) sample_b TabAdd _ Hr
    ltac:(vm_compute; reflexivity) ltac:(vm_compute; reflexivity) ltac:(vm_compute; reflexivity)
    ltac:(vm_compute; reflexivity) Hm eq_refl ltac:(discriminate)) as (q & p' & _ & _ & Hq).
  exists p'. rewrite Hq. vm_compute. reflexivity.
Defined.

Lemma late_answer_closes_dialog_witness :
  ∃ p1 p2,
    page_step (λ s, s) (ClickTag sample_b TabAdd) (reach (sample_apply ++ [Cancel])) = Some p1
    ∧ page_step (λ s, s) (ServerReplies 0 sample_ok) p1 = Some p2
    ∧ focus p1 = OnDialog ∧ focus p2 = OnTable.
Proof.
  assert (channel_meta sample_b = Ok {| enabled := true; pendingAddModels := ["gpt-c"];
    pendingRemoveModels := [] |}) as Hm by (vm_compute; reflexivity).
  assert (pg_calls (reach (sample_apply ++ [Cancel])) !! 0
          = Some {| cl_op := OpApply; cl_ignored := ["gpt-b"]; cl_phase := Posting |}) as Hc
    by (vm_compute; reflexivity).
  assert (success_notice OpApply ["gpt-b"] (opt_prop "data" (Some (JObj [("success", JBool true)])))
          = Ok (AppliedNotice (JNum zero) (JNum zero) 1 0)) as Hn by (vm_compute; reflexivity).
  destruct (late_answer_closes_dialog (λ s, s) (reach (sample_apply ++ [Cancel])) sample_b TabAdd _ 0 _
    (Some (JObj [("success", JBool true)])) _ ltac:(vm_compute; reflexivity)
    ltac:(vm_compute; reflexivity) ltac:(vm_compute; reflexivity) Hm eq_refl ltac:(discriminate) Hc
    eq_refl eq_refl eq_refl Hn) as (p1 & p2 & H1 & _ & H2 & H3 & H4 & _).
  exists p1, p2. exact (conj H1 (conj H3 (conj H2 H4))).
Defined.
