(* ===== verification/ChannelDrawer.v ===== *)
(** * The channel drawer

    [features/channels/components/drawers/channel-mutate-drawer.tsx] with
    [features/channels/hooks/use-channel-mutate-form.ts], the checks of
    [channelFormSchema] in [lib/channel-form.ts], [lib/channel-form-errors.ts] and the two
    questions [dialogs/missing-models-confirmation-dialog.tsx] and
    [dialogs/status-code-risk-dialog.tsx].  The page keeps the drawer mounted: its form
    lives as long as the page.  A submission that waits for an answer of the user is kept
    in the reference that resolves it; a request that was sent is answered by an event.
    [commit] runs the effects after a render. *)
From Stdlib Require Import NArith ZArith.
From stdpp Require Import list numbers.
From S2P Require Import Prelude JsString JsNumber Json JsArray ModelMapping StatusCodes Channels ChannelForm.

(** ** The schema of the form *)

Definition opt_json_is (p : json → bool) (v : option json) : bool :=
  match v with Some j => p j | None => true end.
Definition is_json_bool (j : json) : bool := match j with JBool _ => true | _ => false end.
Definition is_json_string (j : json) : bool := match j with JStr _ => true | _ => false end.
Definition is_json_enum (values : list jsstr) (j : json) : bool :=
  match j with JStr s => str_mem s values | _ => false end.

(** [z.number().optional()], which accepts finite numbers. *)
Definition opt_finite (v : option number) : bool := from_option isFinite true v.

(** [z.enum(values).optional()]. *)
Definition opt_enum (values : list jsstr) (v : option jsstr) : bool :=
  match v with Some s => str_mem s values | None => true end.

(** The fields of the object schema and whether their value passes; a field whose type
    admits no other value is left out. *)
Definition schema_checks (data : ChannelFormValues) : list (jsstr * bool) :=
  let e := f_extra data in
  [("name", nonempty (f_name data)); ("type", (0 <=? f_type data)%Z);
   ("models", nonempty (f_models data)); ("group", (0 <? length (f_group data))%nat);
   ("model_mapping", isOptionalModelMapping (f_model_mapping data));
   ("priority", opt_finite (f_priority data)); ("weight", opt_finite (f_weight data));
   ("auto_ban", opt_finite (f_auto_ban data));
   ("status_code_mapping", isOptionalStatusCodeMapping (f_status_code_mapping data));
   ("remark", (length (default [] (f_remark data)) <=? 255)%nat);
   ("setting", isOptionalJsonObject (f_setting data));
   ("param_override", isOptionalJsonObject (f_param_override data));
   ("header_override", isOptionalJsonObject (f_header_override data));
   ("settings", isOptionalJsonObject (f_settings data));
   ("multi_key_mode", opt_enum ["single"; "batch"; "multi_to_single"] (f_multi_key_mode data));
   ("multi_key_type", opt_enum ["random"; "polling"] (f_multi_key_type data));
   ("key_mode", opt_enum ["append"; "replace"] (f_key_mode data));
   ("force_format", opt_json_is is_json_bool (force_format e));
   ("thinking_to_content", opt_json_is is_json_bool (thinking_to_content e));
   ("proxy", opt_json_is is_json_string (proxy e));
   ("pass_through_body_enabled", opt_json_is is_json_bool (pass_through_body_enabled e));
   ("system_prompt", opt_json_is is_json_string (system_prompt e));
   ("system_prompt_override", opt_json_is is_json_bool (system_prompt_override e));
   ("vertex_key_type", opt_json_is (is_json_enum ["json"; "api_key"]) (f_vertex_key_type data));
   ("aws_key_type", opt_json_is (is_json_enum ["ak_sk"; "api_key"]) (f_aws_key_type data));
   ("azure_responses_version", opt_json_is is_json_string (f_azure_responses_version data))].

(** The fields with an issue: those of the object, and those [superRefine] names.  The
    schema library leaves the latter out when a field has a value of a wrong type; they are
    no advanced settings, so this makes no difference below. *)
Definition schema_errors (data : ChannelFormValues) : list jsstr :=
  map fst (List.filter (λ c, negb c.2) (schema_checks data)) ++ map fst (superRefine data).

Definition ADVANCED_SETTINGS_FIELDS : list jsstr :=
  ["priority"; "weight"; "test_model"; "auto_ban"; "tag"; "remark"; "param_override";
   "header_override"; "status_code_mapping"; "force_format"; "thinking_to_content";
   "pass_through_body_enabled"; "proxy"; "system_prompt"; "system_prompt_override";
   "allow_service_tier"; "disable_store"; "allow_safety_identifier";
   "allow_include_obfuscation"; "allow_inference_geo"; "allow_speed"; "claude_beta_query";
   "upstream_model_update_check_enabled"; "upstream_model_update_auto_sync_enabled";
   "upstream_model_update_ignored_models"].

Definition isAdvancedSettingsField (fieldName : jsstr) : bool :=
  str_mem fieldName ADVANCED_SETTINGS_FIELDS.

Definition hasAdvancedSettingsErrors (errors : list jsstr) : bool :=
  existsb isAdvancedSettingsField errors.

(** ** Derived values *)

Definition opt_num_truthy (v : option number) : bool := from_option num_truthy false v.
Definition opt_json_truthy (v : option json) : bool := from_option json_truthy false v.

(** [proxy] and [system_prompt] may hold a value that is no text when they come from
    parsed settings; [trim] then throws. *)
Definition trim_truthy (v : option json) : exn bool :=
  match v with
  | None => Ok false
  | Some (JStr s) => Ok (nonempty (trim s))
  | Some JNull => Ok false
  | Some _ => Throw
  end.

Definition hasAdvancedSettingsValues (values : ChannelFormValues) : exn bool :=
  let e := f_extra values in
  if negb (blank (f_param_override values)) || negb (blank (f_header_override values))
     || negb (blank (f_status_code_mapping values)) || negb (blank (f_tag values))
     || negb (blank (f_remark values)) || opt_num_truthy (f_priority values)
     || opt_num_truthy (f_weight values)
  then Ok true
  else
    p ← trim_truthy (proxy e);
    if (p : bool) then Ok true else
    s ← trim_truthy (system_prompt e);
    if (s : bool) then Ok true else
    Ok (opt_json_truthy (force_format e) || opt_json_truthy (thinking_to_content e)
        || opt_json_truthy (pass_through_body_enabled e)
        || opt_json_truthy (system_prompt_override e) || is_true (f_claude_beta_query values)
        || is_true (f_upstream_check_enabled values)
        || is_true (f_upstream_auto_sync_enabled values)
        || negb (blank (f_upstream_ignored_models values))).

(** The models of the server, without empty names. *)
Definition allModelsList (data : option (list jsstr)) : list jsstr :=
  match data with Some ids => List.filter nonempty ids | None => [] end.

Definition basicModels (all : list jsstr) (currentType : Z) : list jsstr :=
  if (currentType =? 1)%Z
  then List.filter (λ model, startsWith "gpt-" model || startsWith "text-" model) all
  else all.

Record ModelMappingGuardrail : Type := {
  mg_invalidJson : bool;
  mg_entries : list (jsstr * jsstr);
  mg_missingSourceModels : list jsstr;
  mg_exposedTargetModels : list jsstr
}.

Definition createEmptyModelMappingGuardrail (invalid : bool) : ModelMappingGuardrail :=
  {| mg_invalidJson := invalid; mg_entries := []; mg_missingSourceModels := [];
     mg_exposedTargetModels := [] |}.

(** [String(rawTarget ?? '')]. *)
Definition target_text (v : json) : jsstr := match v with JNull => [] | _ => json_toString v end.

Definition guardrail_entries (parsed : list (jsstr * json)) : list (jsstr * jsstr) :=
  List.filter (λ '(source, target), nonempty source && nonempty target)
    (map (λ '(rawSource, rawTarget), (trim rawSource, trim (target_text rawTarget)))
       (entries parsed)).

Definition modelMappingGuardrail (currentModelMapping : jsstr) (currentModelsArray : list jsstr)
    : ModelMappingGuardrail :=
  if negb (nonempty (trim currentModelMapping)) then createEmptyModelMappingGuardrail false
  else
    match JSON_parse currentModelMapping with
    | Some (JObj parsed) =>
        let es := guardrail_entries parsed in
        {| mg_invalidJson := false; mg_entries := es;
           mg_missingSourceModels :=
             str_dedup (map fst (List.filter
               (λ '(source, _), nonempty source && negb (str_mem source currentModelsArray)) es));
           mg_exposedTargetModels :=
             str_dedup (map snd (List.filter
               (λ '(_, target), nonempty target && str_mem target currentModelsArray) es)) |}
    | _ => createEmptyModelMappingGuardrail true
    end.

(** ** State of the drawer *)

(** What the submission compares with. *)
Record Initial : Type := {
  in_models : list jsstr;
  in_modelMapping : jsstr;
  in_statusCodeMapping : jsstr
}.

Definition no_initial : Initial :=
  {| in_models := []; in_modelMapping := []; in_statusCodeMapping := [] |}.

Inductive MissingModelsAction : Type := ActCancel | ActSubmit | ActAdd.

(** The two questions: what is shown, and the submission that waits for the answer.  The
    state of the risk dialog itself is [qs_checked] and [qs_confirmText]. *)
Record Questions : Type := {
  qs_riskOpen : bool;
  qs_riskItems : list jsstr;
  qs_riskRef : option ChannelFormValues;
  qs_checked : list nat;
  qs_confirmText : jsstr;
  qs_missingOpen : bool;
  qs_missingList : list jsstr;
  qs_missingRef : option (ChannelFormValues * list jsstr * list jsstr)
}.

Definition no_questions : Questions :=
  {| qs_riskOpen := false; qs_riskItems := []; qs_riskRef := None; qs_checked := [];
     qs_confirmText := []; qs_missingOpen := false; qs_missingList := []; qs_missingRef := None |}.

Inductive SaveRequest : Type :=
| CreateReq (payload : CreatePayload)
| UpdateReq (id : Z) (payload : list (jsstr * json)).

Inductive DrawerNotice : Type :=
| NoteFixFields
| NoteInvalidEntries (entries : list jsstr)
| NoteInvalidMapping (message : jsstr)
| NoteEnterKeys
| NoteNoDuplicates
| NoteRemoved (removed before after : Z)
| NoteNoModels
| NoteFilled (count : nat)
| NoteCleared
| NoteAdded (count : nat) (name : jsstr)
| NoteBadGroup
| NoteNotFetchable
| NoteNoApiKey
| NoteSaved (message : jsstr)
| NoteFailed (message : jsstr)
| NoteThrown.

(** [dw_row] is the id of the row that is edited; [dw_detail] the channel fetched for it,
    [dw_version] counts the objects the query has delivered. *)
Record Drawer : Type := {
  dw_open : bool;
  dw_row : option Z;
  dw_detail : option Channel;
  dw_version : nat;
  dw_form : ChannelFormValues;
  dw_keyError : bool;
  dw_initial : Initial;
  dw_questions : Questions;
  dw_advancedOpen : bool;
  dw_preference : option jsstr;
  dw_fetchOpen : bool;
  dw_pending : bool;
  dw_requests : list SaveRequest;
  dw_notices : list DrawerNotice
}.

Definition init_drawer (preference : option jsstr) : Drawer :=
  {| dw_open := false; dw_row := None; dw_detail := None; dw_version := 0;
     dw_form := CHANNEL_FORM_DEFAULT_VALUES; dw_keyError := false; dw_initial := no_initial;
     dw_questions := no_questions; dw_advancedOpen := false; dw_preference := preference;
     dw_fetchOpen := false; dw_pending := false; dw_requests := []; dw_notices := [] |}.

Definition with_form (f : ChannelFormValues) (d : Drawer) : Drawer :=
  {| dw_open := dw_open d; dw_row := dw_row d; dw_detail := dw_detail d;
     dw_version := dw_version d; dw_form := f; dw_keyError := dw_keyError d;
     dw_initial := dw_initial d; dw_questions := dw_questions d;
     dw_advancedOpen := dw_advancedOpen d; dw_preference := dw_preference d;
     dw_fetchOpen := dw_fetchOpen d; dw_pending := dw_pending d; dw_requests := dw_requests d;
     dw_notices := dw_notices d |}.

Definition with_key_error (b : bool) (d : Drawer) : Drawer :=
  {| dw_open := dw_open d; dw_row := dw_row d; dw_detail := dw_detail d;
     dw_version := dw_version d; dw_form := dw_form d; dw_keyError := b;
     dw_initial := dw_initial d; dw_questions := dw_questions d;
     dw_advancedOpen := dw_advancedOpen d; dw_preference := dw_preference d;
     dw_fetchOpen := dw_fetchOpen d; dw_pending := dw_pending d; dw_requests := dw_requests d;
     dw_notices := dw_notices d |}.

Definition with_initial (i : Initial) (d : Drawer) : Drawer :=
  {| dw_open := dw_open d; dw_row := dw_row d; dw_detail := dw_detail d;
     dw_version := dw_version d; dw_form := dw_form d; dw_keyError := dw_keyError d;
     dw_initial := i; dw_questions := dw_questions d; dw_advancedOpen := dw_advancedOpen d;
     dw_preference := dw_preference d; dw_fetchOpen := dw_fetchOpen d;
     dw_pending := dw_pending d; dw_requests := dw_requests d; dw_notices := dw_notices d |}.

Definition with_questions (q : Questions) (d : Drawer) : Drawer :=
  {| dw_open := dw_open d; dw_row := dw_row d; dw_detail := dw_detail d;
     dw_version := dw_version d; dw_form := dw_form d; dw_keyError := dw_keyError d;
     dw_initial := dw_initial d; dw_questions := q; dw_advancedOpen := dw_advancedOpen d;
     dw_preference := dw_preference d; dw_fetchOpen := dw_fetchOpen d;
     dw_pending := dw_pending d; dw_requests := dw_requests d; dw_notices := dw_notices d |}.

Definition with_advanced (b : bool) (d : Drawer) : Drawer :=
  {| dw_open := dw_open d; dw_row := dw_row d; dw_detail := dw_detail d;
     dw_version := dw_version d; dw_form := dw_form d; dw_keyError := dw_keyError d;
     dw_initial := dw_initial d; dw_questions := dw_questions d; dw_advancedOpen := b;
     dw_preference := dw_preference d; dw_fetchOpen := dw_fetchOpen d;
     dw_pending := dw_pending d; dw_requests := dw_requests d; dw_notices := dw_notices d |}.

Definition with_fetch (b : bool) (d : Drawer) : Drawer :=
  {| dw_open := dw_open d; dw_row := dw_row d; dw_detail := dw_detail d;
     dw_version := dw_version d; dw_form := dw_form d; dw_keyError := dw_keyError d;
     dw_initial := dw_initial d; dw_questions := dw_questions d;
     dw_advancedOpen := dw_advancedOpen d; dw_preference := dw_preference d; dw_fetchOpen := b;
     dw_pending := dw_pending d; dw_requests := dw_requests d; dw_notices := dw_notices d |}.

Definition with_pending (b : bool) (d : Drawer) : Drawer :=
  {| dw_open := dw_open d; dw_row := dw_row d; dw_detail := dw_detail d;
     dw_version := dw_version d; dw_form := dw_form d; dw_keyError := dw_keyError d;
     dw_initial := dw_initial d; dw_questions := dw_questions d;
     dw_advancedOpen := dw_advancedOpen d; dw_preference := dw_preference d;
     dw_fetchOpen := dw_fetchOpen d; dw_pending := b; dw_requests := dw_requests d;
     dw_notices := dw_notices d |}.

Definition note (n : DrawerNotice) (d : Drawer) : Drawer :=
  {| dw_open := dw_open d; dw_row := dw_row d; dw_detail := dw_detail d;
     dw_version := dw_version d; dw_form := dw_form d; dw_keyError := dw_keyError d;
     dw_initial := dw_initial d; dw_questions := dw_questions d;
     dw_advancedOpen := dw_advancedOpen d; dw_preference := dw_preference d;
     dw_fetchOpen := dw_fetchOpen d; dw_pending := dw_pending d; dw_requests := dw_requests d;
     dw_notices := dw_notices d ++ [n] |}.

Definition send (r : SaveRequest) (d : Drawer) : Drawer :=
  {| dw_open := dw_open d; dw_row := dw_row d; dw_detail := dw_detail d;
     dw_version := dw_version d; dw_form := dw_form d; dw_keyError := dw_keyError d;
     dw_initial := dw_initial d; dw_questions := dw_questions d;
     dw_advancedOpen := dw_advancedOpen d; dw_preference := dw_preference d;
     dw_fetchOpen := dw_fetchOpen d; dw_pending := true; dw_requests := dw_requests d ++ [r];
     dw_notices := dw_notices d |}.

Definition with_row (open : bool) (row : option Z) (detail : option Channel) (d : Drawer) : Drawer :=
  {| dw_open := open; dw_row := row; dw_detail := detail; dw_version := S (dw_version d);
     dw_form := dw_form d; dw_keyError := dw_keyError d; dw_initial := dw_initial d;
     dw_questions := dw_questions d; dw_advancedOpen := dw_advancedOpen d;
     dw_preference := dw_preference d; dw_fetchOpen := dw_fetchOpen d;
     dw_pending := dw_pending d; dw_requests := dw_requests d; dw_notices := dw_notices d |}.

(** The setters of single fields, [form.setValue]. *)
Definition set_f_models (models : jsstr) (f : ChannelFormValues) : ChannelFormValues :=
  {| f_name := f_name f; f_type := f_type f; f_base_url := f_base_url f; f_key := f_key f;
     f_openai_organization := f_openai_organization f; f_models := models; f_group := f_group f;
     f_model_mapping := f_model_mapping f; f_priority := f_priority f; f_weight := f_weight f;
     f_test_model := f_test_model f; f_auto_ban := f_auto_ban f; f_status := f_status f;
     f_status_code_mapping := f_status_code_mapping f; f_tag := f_tag f; f_remark := f_remark f;
     f_setting := f_setting f; f_param_override := f_param_override f;
     f_header_override := f_header_override f; f_settings := f_settings f; f_other := f_other f;
     f_multi_key_mode := f_multi_key_mode f; f_multi_key_type := f_multi_key_type f;
     f_batch_add_set_key_prefix_2_name := f_batch_add_set_key_prefix_2_name f;
     f_key_mode := f_key_mode f; f_extra := f_extra f;
     f_is_enterprise_account := f_is_enterprise_account f;
     f_vertex_key_type := f_vertex_key_type f; f_aws_key_type := f_aws_key_type f;
     f_azure_responses_version := f_azure_responses_version f;
     f_allow_service_tier := f_allow_service_tier f; f_disable_store := f_disable_store f;
     f_allow_safety_identifier := f_allow_safety_identifier f;
     f_allow_include_obfuscation := f_allow_include_obfuscation f;
     f_allow_inference_geo := f_allow_inference_geo f; f_allow_speed := f_allow_speed f;
     f_claude_beta_query := f_claude_beta_query f;
     f_upstream_check_enabled := f_upstream_check_enabled f;
     f_upstream_auto_sync_enabled := f_upstream_auto_sync_enabled f;
     f_upstream_ignored_models := f_upstream_ignored_models f |}.

Definition set_f_key (key : jsstr) (f : ChannelFormValues) : ChannelFormValues :=
  {| f_name := f_name f; f_type := f_type f; f_base_url := f_base_url f; f_key := key;
     f_openai_organization := f_openai_organization f; f_models := f_models f;
     f_group := f_group f; f_model_mapping := f_model_mapping f; f_priority := f_priority f;
     f_weight := f_weight f; f_test_model := f_test_model f; f_auto_ban := f_auto_ban f;
     f_status := f_status f; f_status_code_mapping := f_status_code_mapping f; f_tag := f_tag f;
     f_remark := f_remark f; f_setting := f_setting f; f_param_override := f_param_override f;
     f_header_override := f_header_override f; f_settings := f_settings f; f_other := f_other f;
     f_multi_key_mode := f_multi_key_mode f; f_multi_key_type := f_multi_key_type f;
     f_batch_add_set_key_prefix_2_name := f_batch_add_set_key_prefix_2_name f;
     f_key_mode := f_key_mode f; f_extra := f_extra f;
     f_is_enterprise_account := f_is_enterprise_account f;
     f_vertex_key_type := f_vertex_key_type f; f_aws_key_type := f_aws_key_type f;
     f_azure_responses_version := f_azure_responses_version f;
     f_allow_service_tier := f_allow_service_tier f; f_disable_store := f_disable_store f;
     f_allow_safety_identifier := f_allow_safety_identifier f;
     f_allow_include_obfuscation := f_allow_include_obfuscation f;
     f_allow_inference_geo := f_allow_inference_geo f; f_allow_speed := f_allow_speed f;
     f_claude_beta_query := f_claude_beta_query f;
     f_upstream_check_enabled := f_upstream_check_enabled f;
     f_upstream_auto_sync_enabled := f_upstream_auto_sync_enabled f;
     f_upstream_ignored_models := f_upstream_ignored_models f |}.

Definition set_f_base_url (url : jsstr) (f : ChannelFormValues) : ChannelFormValues :=
  {| f_name := f_name f; f_type := f_type f; f_base_url := Some url; f_key := f_key f;
     f_openai_organization := f_openai_organization f; f_models := f_models f;
     f_group := f_group f; f_model_mapping := f_model_mapping f; f_priority := f_priority f;
     f_weight := f_weight f; f_test_model := f_test_model f; f_auto_ban := f_auto_ban f;
     f_status := f_status f; f_status_code_mapping := f_status_code_mapping f; f_tag := f_tag f;
     f_remark := f_remark f; f_setting := f_setting f; f_param_override := f_param_override f;
     f_header_override := f_header_override f; f_settings := f_settings f; f_other := f_other f;
     f_multi_key_mode := f_multi_key_mode f; f_multi_key_type := f_multi_key_type f;
     f_batch_add_set_key_prefix_2_name := f_batch_add_set_key_prefix_2_name f;
     f_key_mode := f_key_mode f; f_extra := f_extra f;
     f_is_enterprise_account := f_is_enterprise_account f;
     f_vertex_key_type := f_vertex_key_type f; f_aws_key_type := f_aws_key_type f;
     f_azure_responses_version := f_azure_responses_version f;
     f_allow_service_tier := f_allow_service_tier f; f_disable_store := f_disable_store f;
     f_allow_safety_identifier := f_allow_safety_identifier f;
     f_allow_include_obfuscation := f_allow_include_obfuscation f;
     f_allow_inference_geo := f_allow_inference_geo f; f_allow_speed := f_allow_speed f;
     f_claude_beta_query := f_claude_beta_query f;
     f_upstream_check_enabled := f_upstream_check_enabled f;
     f_upstream_auto_sync_enabled := f_upstream_auto_sync_enabled f;
     f_upstream_ignored_models := f_upstream_ignored_models f |}.

Definition set_f_other (other : jsstr) (f : ChannelFormValues) : ChannelFormValues :=
  {| f_name := f_name f; f_type := f_type f; f_base_url := f_base_url f; f_key := f_key f;
     f_openai_organization := f_openai_organization f; f_models := f_models f;
     f_group := f_group f; f_model_mapping := f_model_mapping f; f_priority := f_priority f;
     f_weight := f_weight f; f_test_model := f_test_model f; f_auto_ban := f_auto_ban f;
     f_status := f_status f; f_status_code_mapping := f_status_code_mapping f; f_tag := f_tag f;
     f_remark := f_remark f; f_setting := f_setting f; f_param_override := f_param_override f;
     f_header_override := f_header_override f; f_settings := f_settings f; f_other := Some other;
     f_multi_key_mode := f_multi_key_mode f; f_multi_key_type := f_multi_key_type f;
     f_batch_add_set_key_prefix_2_name := f_batch_add_set_key_prefix_2_name f;
     f_key_mode := f_key_mode f; f_extra := f_extra f;
     f_is_enterprise_account := f_is_enterprise_account f;
     f_vertex_key_type := f_vertex_key_type f; f_aws_key_type := f_aws_key_type f;
     f_azure_responses_version := f_azure_responses_version f;
     f_allow_service_tier := f_allow_service_tier f; f_disable_store := f_disable_store f;
     f_allow_safety_identifier := f_allow_safety_identifier f;
     f_allow_include_obfuscation := f_allow_include_obfuscation f;
     f_allow_inference_geo := f_allow_inference_geo f; f_allow_speed := f_allow_speed f;
     f_claude_beta_query := f_claude_beta_query f;
     f_upstream_check_enabled := f_upstream_check_enabled f;
     f_upstream_auto_sync_enabled := f_upstream_auto_sync_enabled f;
     f_upstream_ignored_models := f_upstream_ignored_models f |}.

Definition set_f_param_override (text : jsstr) (f : ChannelFormValues) : ChannelFormValues :=
  {| f_name := f_name f; f_type := f_type f; f_base_url := f_base_url f; f_key := f_key f;
     f_openai_organization := f_openai_organization f; f_models := f_models f;
     f_group := f_group f; f_model_mapping := f_model_mapping f; f_priority := f_priority f;
     f_weight := f_weight f; f_test_model := f_test_model f; f_auto_ban := f_auto_ban f;
     f_status := f_status f; f_status_code_mapping := f_status_code_mapping f; f_tag := f_tag f;
     f_remark := f_remark f; f_setting := f_setting f; f_param_override := Some text;
     f_header_override := f_header_override f; f_settings := f_settings f; f_other := f_other f;
     f_multi_key_mode := f_multi_key_mode f; f_multi_key_type := f_multi_key_type f;
     f_batch_add_set_key_prefix_2_name := f_batch_add_set_key_prefix_2_name f;
     f_key_mode := f_key_mode f; f_extra := f_extra f;
     f_is_enterprise_account := f_is_enterprise_account f;
     f_vertex_key_type := f_vertex_key_type f; f_aws_key_type := f_aws_key_type f;
     f_azure_responses_version := f_azure_responses_version f;
     f_allow_service_tier := f_allow_service_tier f; f_disable_store := f_disable_store f;
     f_allow_safety_identifier := f_allow_safety_identifier f;
     f_allow_include_obfuscation := f_allow_include_obfuscation f;
     f_allow_inference_geo := f_allow_inference_geo f; f_allow_speed := f_allow_speed f;
     f_claude_beta_query := f_claude_beta_query f;
     f_upstream_check_enabled := f_upstream_check_enabled f;
     f_upstream_auto_sync_enabled := f_upstream_auto_sync_enabled f;
     f_upstream_ignored_models := f_upstream_ignored_models f |}.

(** ** Effects *)

Definition isEditing (d : Drawer) : bool := match dw_row d with Some _ => true | None => false end.

Definition isMultiKeyChannel (d : Drawer) : bool :=
  isEditing d && from_option (λ ch, is_multi_key (ch_channel_info ch)) false (dw_detail d).

Definition currentModelsArray (d : Drawer) : list jsstr := parseModelsString (f_models (dw_form d)).

Definition readAdvancedSettingsPreference (preference : option jsstr) : bool :=
  match preference with Some s => str_eqb s "true" | None => false end.

(** The effect that fills the form, [form.reset] included; it clears the errors. *)
Definition load_effect (d : Drawer) : exn Drawer :=
  match dw_row d, dw_detail d with
  | Some _, Some channel =>
      let defaults := transformChannelToFormDefaults channel in
      advanced ← (if readAdvancedSettingsPreference (dw_preference d) then Ok true
                  else hasAdvancedSettingsValues defaults);
      Ok (with_initial
            {| in_models := parseModelsString (ch_models channel);
               in_modelMapping := default [] (ch_model_mapping channel);
               in_statusCodeMapping := default [] (ch_status_code_mapping channel) |}
            (with_advanced advanced (with_key_error false (with_form defaults d))))
  | Some _, None => Ok d
  | None, _ =>
      Ok (with_initial no_initial
            (with_advanced false (with_key_error false (with_form CHANNEL_FORM_DEFAULT_VALUES d))))
  end.

(** The effect on the type, with the type of the render it belongs to. *)
Definition type_effect (currentType : Z) (d : Drawer) : Drawer :=
  if isEditing d then d
  else
    let d :=
      if (currentType =? 45)%Z && negb (nonempty (default [] (f_base_url (dw_form d))))
      then with_form (set_f_base_url "https://ark.cn-beijing.volces.com" (dw_form d)) d else d in
    if (currentType =? 18)%Z && negb (nonempty (default [] (f_other (dw_form d))))
    then with_form (set_f_other "v2.1" (dw_form d)) d else d.

(** A render of [d] after one of [prev]: the effects whose dependencies changed, in the
    order of the source, and the render that a reset of the form causes. *)
Definition commit (prev d : Drawer) : exn Drawer :=
  let editing_changed := negb (Bool.eqb (isEditing prev) (isEditing d)) in
  let data_changed := negb (dw_version prev =? dw_version d)%nat
                      && (match dw_detail prev, dw_detail d with None, None => false | _, _ => true end) in
  let rendered := f_type (dw_form d) in
  d1 ← (if editing_changed || data_changed then load_effect d else Ok d);
  let d2 := if editing_changed || negb (rendered =? f_type (dw_form prev))%Z
            then type_effect rendered d1 else d1 in
  let again := f_type (dw_form d2) in
  Ok (if negb (again =? rendered)%Z then type_effect again d2 else d2).

(** ** Handlers *)

Definition handleDeduplicateKeys (d : Drawer) : Drawer :=
  let currentKey := f_key (dw_form d) in
  if negb (nonempty (trim currentKey)) then note NoteEnterKeys d
  else
    let result := deduplicateKeys currentKey in
    if (removedCount result =? 0)%Z then note NoteNoDuplicates d
    else note (NoteRemoved (removedCount result) (beforeCount result) (afterCount result))
           (with_form (set_f_key (deduplicatedText result) (dw_form d)) d).

Definition updateModels (newModels : list jsstr) (merge : bool) (d : Drawer) : Drawer :=
  let finalModels :=
    if merge then formatModelsArray (currentModelsArray d ++ newModels)
    else formatModelsArray newModels in
  with_form (set_f_models finalModels (dw_form d)) d.

Definition handleFetchModels (d : Drawer) : Drawer :=
  if negb (type_in (f_type (dw_form d)) MODEL_FETCHABLE_TYPES) then note NoteNotFetchable d
  else if negb (isEditing d) && negb (nonempty (trim (f_key (dw_form d)))) then note NoteNoApiKey d
  else with_fetch true d.

Definition handleFillRelatedModels (all : list jsstr) (d : Drawer) : Drawer :=
  let basic := basicModels all (f_type (dw_form d)) in
  if (length basic =? 0)%nat then note NoteNoModels d
  else note (NoteFilled (length basic)) (updateModels basic false d).

Definition handleFillAllModels (all : list jsstr) (d : Drawer) : Drawer :=
  if (length all =? 0)%nat then note NoteNoModels d
  else note (NoteFilled (length all)) (updateModels all false d).

Definition handleClearModels (d : Drawer) : Drawer :=
  note NoteCleared (with_form (set_f_models [] (dw_form d)) d).

(** The items of a group, an array or a JSON text.  Items that are no texts are outside
    the model. *)
Inductive PrefillItems : Type := ItemList (items : list jsstr) | ItemText (text : jsstr).

Definition json_texts (l : list json) : option (list jsstr) :=
  mapM (λ j, match j with JStr s => Some s | _ => None end) l.

Definition prefill_items (items : PrefillItems) : option (list jsstr) :=
  match items with
  | ItemList l => Some l
  | ItemText text =>
      match JSON_parse text with Some (JArr l) => json_texts l | _ => None end
  end.

Definition handleAddPrefillGroup (name : jsstr) (items : PrefillItems) (d : Drawer) : Drawer :=
  match prefill_items items with
  | Some l => note (NoteAdded (length l) name) (updateModels l true d)
  | None => note NoteBadGroup d
  end.

Definition handleModelsChange (sel : list jsstr) (d : Drawer) : Drawer :=
  with_form (set_f_models (join "," sel) (dw_form d)) d.

Definition drawer_guardrail (d : Drawer) : ModelMappingGuardrail :=
  modelMappingGuardrail (default [] (f_model_mapping (dw_form d))) (currentModelsArray d).

(** The buttons of the two warnings about the mapping. *)
Definition hide_exposed_targets (d : Drawer) : Drawer :=
  let hiddenTargets := mg_exposedTargetModels (drawer_guardrail d) in
  updateModels (List.filter (λ model, negb (str_mem model hiddenTargets)) (currentModelsArray d))
    false d.

Definition add_missing_models (d : Drawer) : Drawer :=
  updateModels (currentModelsArray d ++ mg_missingSourceModels (drawer_guardrail d)) false d.

(** [onModelsSelected] of the dialog that fetches models. *)
Definition models_selected (models : list jsstr) (d : Drawer) : Drawer :=
  with_form (set_f_models (formatModelsArray models) (dw_form d)) d.

(** [onSave] of the editor of parameter overrides. *)
Definition param_override_saved (text : jsstr) (d : Drawer) : Drawer :=
  with_form (set_f_param_override text (dw_form d)) d.

Definition handleAdvancedSettingsOpenChange (nextOpen : bool) (d : Drawer) : Drawer :=
  {| dw_open := dw_open d; dw_row := dw_row d; dw_detail := dw_detail d;
     dw_version := dw_version d; dw_form := dw_form d; dw_keyError := dw_keyError d;
     dw_initial := dw_initial d; dw_questions := dw_questions d; dw_advancedOpen := nextOpen;
     dw_preference := Some (if nextOpen then "true" else "false"); dw_fetchOpen := dw_fetchOpen d;
     dw_pending := dw_pending d; dw_requests := dw_requests d; dw_notices := dw_notices d |}.

Definition onInvalid (errors : list jsstr) (d : Drawer) : Drawer :=
  note NoteFixFields
    (if hasAdvancedSettingsErrors errors then handleAdvancedSettingsOpenChange true d else d).

(** ** Submission *)

(** [data.key_mode] is set in the payload for a channel with several keys. *)
Definition with_key_mode (d : Drawer) (data : ChannelFormValues) (payload : list (jsstr * json))
    : list (jsstr * json) :=
  match f_key_mode data with
  | Some mode => if isMultiKeyChannel d && nonempty mode then obj_set "key_mode" (JStr mode) payload
                 else payload
  | None => payload
  end.

(** The start of the mutation: the payload, or the exception of building it, which is
    reported. *)
Definition mutate (data : ChannelFormValues) (d : Drawer) : Drawer :=
  match dw_row d with
  | Some id =>
      match transformFormDataToUpdatePayload data id with
      | Ok payload => send (UpdateReq id (with_key_mode d data payload)) d
      | Throw => note NoteThrown d
      end
  | None =>
      match transformFormDataToCreatePayload data with
      | Ok payload => send (CreateReq payload) d
      | Throw => note NoteThrown d
      end
  end.

Definition confirmMissingModelMappings (data : ChannelFormValues)
    (normalizedModels missingModels : list jsstr) (d : Drawer) : Drawer :=
  let q := dw_questions d in
  with_questions
    {| qs_riskOpen := qs_riskOpen q; qs_riskItems := qs_riskItems q; qs_riskRef := qs_riskRef q;
       qs_checked := qs_checked q; qs_confirmText := qs_confirmText q; qs_missingOpen := true;
       qs_missingList := missingModels;
       qs_missingRef := Some (data, normalizedModels, missingModels) |} d.

Definition confirmStatusCodeRisk (data : ChannelFormValues) (detailItems : list jsstr)
    (d : Drawer) : Drawer :=
  let q := dw_questions d in
  with_questions
    {| qs_riskOpen := true; qs_riskItems := detailItems; qs_riskRef := Some data;
       qs_checked := qs_checked q; qs_confirmText := qs_confirmText q;
       qs_missingOpen := qs_missingOpen q; qs_missingList := qs_missingList q;
       qs_missingRef := qs_missingRef q |} d.

(** The models of the mapping that are missing, when they are asked about. *)
Definition missing_to_ask (data : ChannelFormValues) (i : Initial) : list jsstr :=
  let mapping := default [] (f_model_mapping data) in
  let normalizedModels := parseModelsString (f_models data) in
  let missingModels := findMissingModelsInMapping mapping normalizedModels in
  if (0 <? length missingModels)%nat
     && hasModelConfigChanged normalizedModels mapping (in_models i) (in_modelMapping i)
  then missingModels else [].

(** The part of [onSubmit] after the status codes. *)
Definition submit_models (data : ChannelFormValues) (d : Drawer) : Drawer :=
  let mapping := default [] (f_model_mapping data) in
  if nonempty (trim mapping) then
    match validateModelMappingJson mapping with
    | (false, error) =>
        note (NoteInvalidMapping (match error with
                                  | Some m => if nonempty m then m else "Invalid model mapping"
                                  | None => "Invalid model mapping"
                                  end)) d
    | (true, _) =>
        match missing_to_ask data (dw_initial d) with
        | [] => mutate data d
        | missing => confirmMissingModelMappings data (parseModelsString (f_models data)) missing d
        end
    end
  else mutate data d.

Definition onSubmit (data : ChannelFormValues) (d : Drawer) : Drawer :=
  if negb (isEditing d) && negb (nonempty (trim (f_key data))) then with_key_error true d
  else
    let mapping := default [] (f_status_code_mapping data) in
    if nonempty (trim mapping) then
      match RiskGuard.collectInvalidStatusCodeEntries mapping with
      | (_ :: _) as invalidEntries => note (NoteInvalidEntries invalidEntries) d
      | [] =>
          match RiskGuard.collectNewDisallowedStatusCodeRedirects (in_statusCodeMapping (dw_initial d)) mapping with
          | (_ :: _) as riskyRedirects => confirmStatusCodeRisk data riskyRedirects d
          | [] => submit_models data d
          end
      end
    else submit_models data d.

(** [form.handleSubmit(onSubmit, onInvalid)]. *)
Definition handleSubmit (d : Drawer) : Drawer :=
  let d := with_key_error false d in
  match schema_errors (dw_form d) with
  | [] => onSubmit (dw_form d) d
  | errors => onInvalid errors d
  end.

(** What follows the answers of the user. *)
Definition resume_missing (action : MissingModelsAction) (data : ChannelFormValues)
    (normalizedModels missingModels : list jsstr) (d : Drawer) : Drawer :=
  match action with
  | ActCancel => d
  | ActSubmit => mutate data d
  | ActAdd =>
      let models := formatModelsArray (str_dedup (normalizedModels ++ missingModels)) in
      mutate (set_f_models models data) (with_form (set_f_models models (dw_form d)) d)
  end.

Definition handleMissingModelsAction (action : MissingModelsAction) (d : Drawer) : Drawer :=
  let q := dw_questions d in
  let d' := with_questions
    {| qs_riskOpen := qs_riskOpen q; qs_riskItems := qs_riskItems q; qs_riskRef := qs_riskRef q;
       qs_checked := qs_checked q; qs_confirmText := qs_confirmText q; qs_missingOpen := false;
       qs_missingList := qs_missingList q; qs_missingRef := None |} d in
  match qs_missingRef q with
  | Some (data, normalizedModels, missingModels) =>
      resume_missing action data normalizedModels missingModels d'
  | None => d'
  end.

Definition handleStatusCodeRiskAction (confirmed : bool) (d : Drawer) : Drawer :=
  let q := dw_questions d in
  let d' := with_questions
    {| qs_riskOpen := false; qs_riskItems := []; qs_riskRef := None; qs_checked := qs_checked q;
       qs_confirmText := qs_confirmText q; qs_missingOpen := qs_missingOpen q;
       qs_missingList := qs_missingList q; qs_missingRef := qs_missingRef q |} d in
  match qs_riskRef q with
  | Some data => if confirmed then submit_models data d' else d'
  | None => d'
  end.

(** ** The risk dialog *)

Definition CHECKLIST_KEYS : list jsstr :=
  ["High-risk status code retry risk check 1"; "High-risk status code retry risk check 2";
   "High-risk status code retry risk check 3"; "High-risk status code retry risk check 4"].

Definition set_risk_input (checked : list nat) (text : jsstr) (d : Drawer) : Drawer :=
  let q := dw_questions d in
  with_questions
    {| qs_riskOpen := qs_riskOpen q; qs_riskItems := qs_riskItems q; qs_riskRef := qs_riskRef q;
       qs_checked := checked; qs_confirmText := text; qs_missingOpen := qs_missingOpen q;
       qs_missingList := qs_missingList q; qs_missingRef := qs_missingRef q |} d.

Definition toggleCheck (idx : nat) (d : Drawer) : Drawer :=
  let q := dw_questions d in
  let next := if existsb (Nat.eqb idx) (qs_checked q)
              then List.filter (λ i, negb (Nat.eqb i idx)) (qs_checked q)
              else qs_checked q ++ [idx] in
  set_risk_input next (qs_confirmText q) d.

(** [requiredText] is the translated text that has to be typed. *)
Definition canConfirm (requiredText : jsstr) (q : Questions) : bool :=
  (length (qs_checked q) =? length CHECKLIST_KEYS)%nat
  && str_eqb (trim (qs_confirmText q)) (trim requiredText).

Definition risk_handleConfirm (requiredText : jsstr) (d : Drawer) : Drawer :=
  if canConfirm requiredText (dw_questions d)
  then handleStatusCodeRiskAction true (set_risk_input [] [] d) else d.

Definition risk_handleCancel (d : Drawer) : Drawer :=
  handleStatusCodeRiskAction false (set_risk_input [] [] d).

(** ** Opening, closing and answers *)

Definition close_drawer (d : Drawer) : Drawer := with_row false None None d.

Definition handleOpenChange_false (d : Drawer) : Drawer :=
  with_advanced false (with_key_error false (with_form CHANNEL_FORM_DEFAULT_VALUES (close_drawer d))).

(** The server stores, refuses, or the request fails; [None] is no message. *)
Inductive SaveReply : Type :=
| SaveStored
| SaveRefused (message : option jsstr)
| SaveLost (message : option jsstr).

(** The labels are those of the request that is answered, the last one sent. *)
Definition updating (d : Drawer) : bool :=
  match list.last (dw_requests d) with Some (UpdateReq _ _) => true | _ => false end.

Definition saved_label (d : Drawer) : jsstr :=
  if updating d then "Channel updated successfully" else "Channel created successfully".
Definition save_failed_label (d : Drawer) : jsstr :=
  if updating d then "Failed to update channel" else "Failed to create channel".

(** [onError] shows the message of the error, or the label of a failed creation. *)
Definition save_reply (r : SaveReply) (d : Drawer) : Drawer :=
  let d := with_pending false d in
  match r with
  | SaveStored => close_drawer (note (NoteSaved (saved_label d)) d)
  | SaveRefused message => note (NoteFailed (text_or message (save_failed_label d))) d
  | SaveLost message => note (NoteFailed (text_or message "Failed to create channel")) d
  end.

(** ** Events *)

Inductive DrawerEvent : Type :=
| OpenCreate
| OpenEdit (id : Z) (cached : option Channel)
| DetailLoaded (channel : Channel)
| EditForm (values : ChannelFormValues)
| ClickDeduplicate
| ClickFetch
| ClickFillRelated (all : list jsstr)
| ClickFillAll (all : list jsstr)
| ClickClear
| ClickPrefill (name : jsstr) (items : PrefillItems)
| ChangeModels (sel : list jsstr)
| ClickHideExposed
| ClickAddMissing
| SelectModels (models : list jsstr)
| SaveOverride (text : jsstr)
| ToggleAdvanced (open : bool)
| ClickSubmit
| CheckRisk (idx : nat)
| TypeRisk (text : jsstr)
| ConfirmRisk
| CancelRisk
| EscapeRisk
| AnswerMissing (action : MissingModelsAction)
| CloseDrawer
| SaveAnswered (r : SaveReply).

Section events.
Context (requiredText : jsstr).

Definition asking (d : Drawer) : bool :=
  qs_riskOpen (dw_questions d) || qs_missingOpen (dw_questions d).

(** The fields are shown once the channel is there. *)
Definition fields_shown (d : Drawer) : bool :=
  dw_open d && negb (asking d)
  && negb (isEditing d && match dw_detail d with Some _ => false | None => true end).

(** The handler of an event, [None] when the event cannot happen.  Questions are modal;
    the button that submits is disabled while a request is pending, and it is there
    before the channel is. *)
Definition handler (e : DrawerEvent) (d : Drawer) : option Drawer :=
  match e with
  | OpenCreate => if dw_open d then None else Some (with_row true None None d)
  | OpenEdit id cached => if dw_open d then None else Some (with_row true (Some id) cached d)
  | DetailLoaded channel =>
      if isEditing d then Some (with_row (dw_open d) (dw_row d) (Some channel) d) else None
  | ClickSubmit =>
      if dw_open d && negb (asking d) && negb (dw_pending d) then Some (handleSubmit d) else None
  | CloseDrawer => if dw_open d && negb (asking d) then Some (handleOpenChange_false d) else None
  | SaveAnswered r => if dw_pending d then Some (save_reply r d) else None
  | CheckRisk idx =>
      if qs_riskOpen (dw_questions d) && (idx <? length CHECKLIST_KEYS)%nat
      then Some (toggleCheck idx d) else None
  | TypeRisk text =>
      if qs_riskOpen (dw_questions d)
      then Some (set_risk_input (qs_checked (dw_questions d)) text d) else None
  | ConfirmRisk =>
      if qs_riskOpen (dw_questions d) && canConfirm requiredText (dw_questions d)
      then Some (risk_handleConfirm requiredText d) else None
  | CancelRisk => if qs_riskOpen (dw_questions d) then Some (risk_handleCancel d) else None
  | EscapeRisk =>
      if qs_riskOpen (dw_questions d) then Some (handleStatusCodeRiskAction false d) else None
  | AnswerMissing action =>
      if qs_missingOpen (dw_questions d) then Some (handleMissingModelsAction action d) else None
  | EditForm values => if fields_shown d then Some (with_form values d) else None
  | ClickDeduplicate => if fields_shown d then Some (handleDeduplicateKeys d) else None
  | ClickFetch => if fields_shown d then Some (handleFetchModels d) else None
  | ClickFillRelated all => if fields_shown d then Some (handleFillRelatedModels all d) else None
  | ClickFillAll all => if fields_shown d then Some (handleFillAllModels all d) else None
  | ClickClear => if fields_shown d then Some (handleClearModels d) else None
  | ClickPrefill name items => if fields_shown d then Some (handleAddPrefillGroup name items d) else None
  | ChangeModels sel => if fields_shown d then Some (handleModelsChange sel d) else None
  | ClickHideExposed => if fields_shown d then Some (hide_exposed_targets d) else None
  | ClickAddMissing => if fields_shown d then Some (add_missing_models d) else None
  | SelectModels models => if fields_shown d then Some (models_selected models d) else None
  | SaveOverride text => if fields_shown d then Some (param_override_saved text d) else None
  | ToggleAdvanced open =>
      if fields_shown d then Some (handleAdvancedSettingsOpenChange open d) else None
  end.

(** An event and the render after it; [None] also when an effect throws, which replaces
    the page. *)
Definition drawer_step (e : DrawerEvent) (d : Drawer) : option Drawer :=
  match handler e d with
  | Some d' => match commit d d' with Ok d'' => Some d'' | Throw => None end
  | None => None
  end.

Fixpoint drawer_run (es : list DrawerEvent) (d : Drawer) : option Drawer :=
  match es with
  | [] => Some d
  | e :: es => match drawer_step e d with Some d => drawer_run es d | None => None end
  end.
End events.
