(* ===== verification/ChannelDrawerTheorems.v ===== *)
(** * Properties of the channel drawer

    What has to hold before a channel is sent, and what an unchanged channel asks; the
    warnings about a mapping against the checks of the submission; and what the mounted
    drawer keeps from one channel to the next. *)
From Stdlib Require Import NArith ZArith.
From stdpp Require Import list numbers.
From S2P Require Import Prelude JsString JsNumber Json JsArray ModelMapping StatusCodes Channels ChannelForm ChannelDrawer.

(** ** Frames *)

(** The parts of the drawer that the effects leave alone. *)
Record same_frame (d d' : Drawer) : Prop := {
  sf_open : dw_open d' = dw_open d;
  sf_row : dw_row d' = dw_row d;
  sf_detail : dw_detail d' = dw_detail d;
  sf_questions : dw_questions d' = dw_questions d;
  sf_pending : dw_pending d' = dw_pending d;
  sf_requests : dw_requests d' = dw_requests d;
  sf_notices : dw_notices d' = dw_notices d
}.

#[export] Instance same_frame_refl : Reflexive same_frame.
Proof. by intros d. Qed.

#[export] Instance same_frame_trans : Transitive same_frame.
Proof. intros a b c [] []. split; congruence. Qed.

Lemma type_effect_frame t d : same_frame d (type_effect t d).
Proof.
  unfold type_effect. destruct (isEditing d); [done|]. destruct (_ && _); [|by destruct (_ && _)].
  cbn zeta. destruct (_ && _); done.
Qed.

Lemma type_effect_initial t d : dw_initial (type_effect t d) = dw_initial d.
Proof.
  unfold type_effect. destruct (isEditing d); [done|]. destruct (_ && _); [|by destruct (_ && _)].
  cbn zeta. destruct (_ && _); done.
Qed.

Lemma type_effect_editing t d : isEditing d = true → type_effect t d = d.
Proof. unfold type_effect. by intros ->. Qed.

(** The initial values that belong to a channel. *)
Definition initial_of (ch : Channel) : Initial :=
  {| in_models := parseModelsString (ch_models ch);
     in_modelMapping := default [] (ch_model_mapping ch);
     in_statusCodeMapping := default [] (ch_status_code_mapping ch) |}.

Lemma load_effect_spec d d' :
  load_effect d = Ok d' →
  same_frame d d'
  ∧ match dw_row d, dw_detail d with
    | Some _, Some ch => dw_form d' = transformChannelToFormDefaults ch ∧ dw_initial d' = initial_of ch
    | Some _, None => d' = d
    | None, _ => dw_form d' = CHANNEL_FORM_DEFAULT_VALUES ∧ dw_initial d' = no_initial
    end.
Proof.
  unfold load_effect. destruct (dw_row d) as [id|] eqn:Er; [destruct (dw_detail d) as [ch|] eqn:Ed|].
  - destruct (if readAdvancedSettingsPreference _ then _ else _) as [b|]; cbn; [|done].
    intros [= <-]. by split.
  - by intros [= <-].
  - by intros [= <-].
Qed.

Lemma commit_frame prev d d' : commit prev d = Ok d' → same_frame d d'.
Proof.
  unfold commit. cbv zeta. intros H.
  destruct (if _ || _ then load_effect d else Ok d) as [d1|] eqn:E; cbn in H; [|done].
  assert (same_frame d d1) as H1.
  { destruct (_ || _); [by apply load_effect_spec in E as [? _]|by injection E as <-]. }
  injection H as <-. etransitivity; [exact H1|].
  assert (∀ (b : bool) t x, same_frame x (if b then type_effect t x else x)) as Ht
    by (intros [] t x; [apply type_effect_frame|done]).
  etransitivity; apply Ht.
Qed.

(** A render after which no effect runs. *)
Lemma commit_nothing prev d :
  isEditing d = isEditing prev →
  dw_version d = dw_version prev ∨ dw_detail d = None ∧ dw_detail prev = None →
  f_type (dw_form d) = f_type (dw_form prev) → commit prev d = Ok d.
Proof.
  intros He Hd Ht. unfold commit. rewrite He, Bool.eqb_reflx, Ht, Z.eqb_refl. cbv zeta.
  replace (negb _ && _) with false.
  - cbn. by rewrite Ht, Z.eqb_refl.
  - destruct Hd as [->|[-> ->]]; [by rewrite Nat.eqb_refl|by rewrite andb_false_r].
Qed.

(** Without a row nothing is read from a channel, and no effect throws. *)
Lemma commit_closed prev d :
  dw_row d = None → ∃ d', commit prev d = Ok d' ∧ same_frame d d'.
Proof.
  intros Hr. destruct (commit prev d) as [d'|] eqn:E; [eauto using commit_frame|].
  revert E. unfold commit, load_effect. rewrite Hr. unfold mbind, exn_bind.
  destruct (negb _ || _); discriminate.
Qed.

(** Once a channel is loaded, its initial values and the detail stay together. *)
Definition initial_ok (d : Drawer) : Prop :=
  match dw_row d, dw_detail d with
  | Some _, Some ch => dw_initial d = initial_of ch
  | _, _ => True
  end.

(** A handler that leaves row, detail and version leaves the initial values. *)
Lemma commit_initial prev d d' :
  commit prev d = Ok d' →
  dw_version prev ≠ dw_version d
  ∨ dw_row prev = dw_row d ∧ dw_detail prev = dw_detail d ∧ dw_initial prev = dw_initial d
    ∧ initial_ok prev →
  initial_ok d'.
Proof.
  intros Hc Hor. pose proof (commit_frame _ _ _ Hc) as Hf. revert Hc. unfold commit. cbv zeta. intros H.
  unfold initial_ok. rewrite (sf_row _ _ Hf), (sf_detail _ _ Hf).
  destruct (dw_row d) as [id|] eqn:Er; [|done]. destruct (dw_detail d) as [ch|] eqn:Ed; [|done].
  destruct (if _ || _ then load_effect d else Ok d) as [d1|] eqn:E; cbn in H; [|done].
  assert (isEditing d = true) as He by by unfold isEditing; rewrite Er.
  assert (isEditing d1 = true ∧ dw_initial d1 = initial_of ch) as [He1 Hi1].
  { destruct (_ || _) eqn:Eb.
    - apply load_effect_spec in E as [Hf1 E]. rewrite Er, Ed in E. destruct E as [_ E].
      unfold isEditing. by rewrite (sf_row _ _ Hf1), Er.
    - injection E as <-. split; [done|]. apply orb_false_iff in Eb as [_ Eb].
      destruct Hor as [Hv|(Hr & Hd & Hi & Hp)].
      + apply Nat.eqb_neq in Hv. rewrite Hv in Eb. cbn in Eb. by destruct (dw_detail prev).
      + unfold initial_ok in Hp. rewrite Hr, Hd in Hp. by rewrite <- Hi. }
  injection H as <-.
  assert (∀ (b : bool) t, (if b then type_effect t d1 else d1) = d1) as Hid.
  { intros [] t; [by apply type_effect_editing|done]. }
  by rewrite !Hid.
Qed.

(** ** What is checked before a channel is sent *)

(** The checks of the form, the key of a new channel and the entries of the status code
    mapping. *)
Definition checked (row : option Z) (data : ChannelFormValues) : Prop :=
  schema_errors data = []
  ∧ (row = None → nonempty (trim (f_key data)) = true)
  ∧ RiskGuard.collectInvalidStatusCodeEntries (default [] (f_status_code_mapping data)) = [].

Definition mapping_of (data : ChannelFormValues) : jsstr := default [] (f_model_mapping data).

Definition mapping_valid (data : ChannelFormValues) : Prop :=
  (validateModelMappingJson (mapping_of data)).1 = true.

(** The models of the mapping that are not in the list of models. *)
Definition missing_of (data : ChannelFormValues) : list jsstr :=
  findMissingModelsInMapping (mapping_of data) (parseModelsString (f_models data)).

Record core_ok (d : Drawer) : Prop := {
  co_risk : qs_riskOpen (dw_questions d) = true → is_Some (qs_riskRef (dw_questions d));
  co_risk_ref : ∀ data, qs_riskRef (dw_questions d) = Some data →
    qs_riskOpen (dw_questions d) = true ∧ qs_missingRef (dw_questions d) = None
    ∧ checked (dw_row d) data
    ∧ (∀ s, s ∈ qs_riskItems (dw_questions d) →
         s ∈ RiskGuard.collectDisallowedStatusCodeRedirects (default [] (f_status_code_mapping data)));
  co_missing : qs_missingOpen (dw_questions d) = true → is_Some (qs_missingRef (dw_questions d));
  co_missing_ref : ∀ data models missing,
    qs_missingRef (dw_questions d) = Some (data, models, missing) →
    qs_missingOpen (dw_questions d) = true ∧ qs_missingList (dw_questions d) = missing
    ∧ checked (dw_row d) data ∧ mapping_valid data
    ∧ models = parseModelsString (f_models data) ∧ missing = missing_of data ∧ missing ≠ [];
  co_asking : asking d = true → dw_open d = true ∧ dw_pending d = false
}.

(** The request of a submission. *)
Definition request_for (d : Drawer) (data : ChannelFormValues) : exn SaveRequest :=
  match dw_row d with
  | Some id =>
      payload ← transformFormDataToUpdatePayload data id;
      Ok (UpdateReq id (with_key_mode d data payload))
  | None => payload ← transformFormDataToCreatePayload data; Ok (CreateReq payload)
  end.

Lemma mutate_request data d :
  mutate data d = match request_for d data with Ok r => send r d | Throw => note NoteThrown d end.
Proof.
  unfold mutate, request_for. destruct (dw_row d).
  - by destruct (transformFormDataToUpdatePayload data z).
  - by destruct (transformFormDataToCreatePayload data).
Qed.

(** What [submit_models] does once the status codes are settled. *)
Lemma submit_models_spec data d :
  (∃ m, submit_models data d = note (NoteInvalidMapping m) d)
  ∨ mapping_valid data
    ∧ (missing_to_ask data (dw_initial d) = [] ∧ submit_models data d = mutate data d
       ∨ missing_of data ≠ []
         ∧ submit_models data d
           = confirmMissingModelMappings data (parseModelsString (f_models data)) (missing_of data) d).
Proof.
  unfold submit_models, mapping_valid, mapping_of. destruct (nonempty _) eqn:En.
  2: { right. unfold validateModelMappingJson. rewrite En. split; [done|]. left.
       split; [|done]. unfold missing_to_ask, findMissingModelsInMapping. by rewrite En. }
  destruct (validateModelMappingJson _) as [[] err]; [|by left; eexists].
  right. split; [done|]. destruct (missing_to_ask data (dw_initial d)) as [|x l] eqn:Em; [by left|].
  right. unfold missing_to_ask in Em. unfold missing_of, mapping_of.
  destruct (_ && _) eqn:Eb; [|done]. rewrite <- Em. split; [|done]. by rewrite Em.
Qed.

Lemma asking_questions d d' : dw_questions d' = dw_questions d → asking d' = asking d.
Proof. unfold asking. by intros ->. Qed.

(** The parts that the invariant speaks about. *)
Lemma core_ok_frame d d' :
  core_ok d → dw_questions d' = dw_questions d → dw_row d' = dw_row d →
  dw_open d' = dw_open d → dw_pending d' = dw_pending d → core_ok d'.
Proof.
  intros [] Hq Hr Ho Hp. pose proof (asking_questions _ _ Hq) as Ha.
  split; rewrite ?Hq, ?Hr, ?Ho, ?Hp, ?Ha; auto.
Qed.

(** No question waits. *)
Definition quiet (d : Drawer) : Prop :=
  qs_riskOpen (dw_questions d) = false ∧ qs_riskRef (dw_questions d) = None
  ∧ qs_missingOpen (dw_questions d) = false ∧ qs_missingRef (dw_questions d) = None.

Lemma quiet_core d : quiet d → core_ok d.
Proof.
  intros (H1 & H2 & H3 & H4). split; rewrite ?H1, ?H2, ?H3, ?H4; try done.
  unfold asking. by rewrite H1, H3.
Qed.

Lemma not_asking_quiet d : core_ok d → asking d = false → quiet d.
Proof.
  intros [Hr Hrr Hm Hmr _] [Ha Hb]%orb_false_iff. unfold quiet. rewrite Ha, Hb. split_and!; try done.
  - destruct (qs_riskRef _) as [data|]; [|done]. destruct (Hrr _ eq_refl). congruence.
  - destruct (qs_missingRef _) as [[[data n] m]|]; [|done]. destruct (Hmr _ _ _ eq_refl). congruence.
Qed.

Lemma mutate_quiet data d : quiet d → quiet (mutate data d).
Proof. rewrite mutate_request. by destruct (request_for d data). Qed.

Lemma mutate_frame data d :
  dw_row (mutate data d) = dw_row d ∧ dw_detail (mutate data d) = dw_detail d
  ∧ dw_version (mutate data d) = dw_version d ∧ dw_initial (mutate data d) = dw_initial d.
Proof. rewrite mutate_request. by destruct (request_for d data). Qed.

Lemma submit_models_core data d :
  quiet d → checked (dw_row d) data → dw_open d = true → dw_pending d = false →
  core_ok (submit_models data d).
Proof.
  intros Hq Hc Ho Hp. destruct (submit_models_spec data d) as [[m ->]|[Hv [[_ ->]|[Hm ->]]]].
  - by apply quiet_core.
  - by apply quiet_core, mutate_quiet.
  - destruct Hq as (Q1 & Q2 & Q3 & Q4). split; cbn; rewrite ?Q1, ?Q2; try done.
    intros ? ? ? [= <- <- <-]. by split_and!.
Qed.

Lemma blank_no_invalid s :
  nonempty (trim s) = false → RiskGuard.collectInvalidStatusCodeEntries s = [].
Proof. unfold RiskGuard.collectInvalidStatusCodeEntries. by intros ->. Qed.

(** The ways a submission goes. *)
Lemma onSubmit_spec data d :
  schema_errors data = [] →
  onSubmit data d = with_key_error true d
  ∨ (∃ l, onSubmit data d = note (NoteInvalidEntries l) d)
  ∨ checked (dw_row d) data
    ∧ let risky := RiskGuard.collectNewDisallowedStatusCodeRedirects
                     (in_statusCodeMapping (dw_initial d)) (default [] (f_status_code_mapping data)) in
      (risky ≠ [] ∧ onSubmit data d = confirmStatusCodeRisk data risky d
       ∨ risky = [] ∧ onSubmit data d = submit_models data d).
Proof.
  intros Hs. unfold onSubmit, checked, isEditing.
  destruct (negb match dw_row d with Some _ => true | None => false end && _) eqn:Ek; [by left|]. right.
  assert (dw_row d = None → nonempty (trim (f_key data)) = true) as Hk.
  { intros E. rewrite E in Ek. cbn in Ek. by apply negb_false_iff in Ek. }
  destruct (nonempty (trim (default [] (f_status_code_mapping data)))) eqn:En.
  - destruct (RiskGuard.collectInvalidStatusCodeEntries _) as [|x l] eqn:Ei; [|left; by eexists].
    right. split; [done|]. cbn zeta.
    destruct (RiskGuard.collectNewDisallowedStatusCodeRedirects _ _) as [|y k]; [by right|by left].
  - right. rewrite (blank_no_invalid _ En). split; [done|]. right. split; [|done].
    unfold RiskGuard.collectNewDisallowedStatusCodeRedirects,
      RiskGuard.collectDisallowedStatusCodeRedirects. by rewrite En.
Qed.

Lemma set_risk_input_core l t d : core_ok d → core_ok (set_risk_input l t d).
Proof. by intros []. Qed.

(** An answered question leaves no question behind. *)
Definition risk_closed (d : Drawer) : Drawer :=
  let q := dw_questions d in
  with_questions
    {| qs_riskOpen := false; qs_riskItems := []; qs_riskRef := None; qs_checked := qs_checked q;
       qs_confirmText := qs_confirmText q; qs_missingOpen := qs_missingOpen q;
       qs_missingList := qs_missingList q; qs_missingRef := qs_missingRef q |} d.

Definition missing_closed (d : Drawer) : Drawer :=
  let q := dw_questions d in
  with_questions
    {| qs_riskOpen := qs_riskOpen q; qs_riskItems := qs_riskItems q; qs_riskRef := qs_riskRef q;
       qs_checked := qs_checked q; qs_confirmText := qs_confirmText q; qs_missingOpen := false;
       qs_missingList := qs_missingList q; qs_missingRef := None |} d.

Lemma risk_waits d :
  core_ok d → qs_riskOpen (dw_questions d) = true →
  ∃ data, qs_riskRef (dw_questions d) = Some data ∧ checked (dw_row d) data
    ∧ quiet (risk_closed d) ∧ dw_open d = true ∧ dw_pending d = false.
Proof.
  intros [Hr Hrr Hm _ Ha] Ho. destruct (Hr Ho) as [data E]. exists data.
  destruct (Hrr _ E) as (_ & Hn & Hc & _). split_and!; try done.
  - unfold quiet. cbn. split_and!; try done. destruct (qs_missingOpen _) eqn:Em; [|done].
    destruct (Hm eq_refl) as [? Em']. congruence.
  - apply Ha. unfold asking. by rewrite Ho.
  - apply Ha. unfold asking. by rewrite Ho.
Qed.

Lemma missing_waits d :
  core_ok d → qs_missingOpen (dw_questions d) = true →
  ∃ data, qs_missingRef (dw_questions d) = Some (data, parseModelsString (f_models data), missing_of data)
    ∧ checked (dw_row d) data ∧ mapping_valid data ∧ missing_of data ≠ []
    ∧ quiet (missing_closed d) ∧ dw_open d = true ∧ dw_pending d = false.
Proof.
  intros [Hr Hrr Hm Hmr Ha] Ho. destruct (Hm Ho) as [[[data n] m] E].
  destruct (Hmr _ _ _ E) as (_ & _ & Hc & Hv & -> & -> & Hne). exists data. split_and!; try done.
  - assert (qs_riskRef (dw_questions d) = None) as Hn.
    { destruct (qs_riskRef _) as [x|]; [|done]. destruct (Hrr _ eq_refl) as (_ & E' & _). congruence. }
    unfold quiet. cbn. split_and!; try done. destruct (qs_riskOpen _) eqn:Er; [|done].
    destruct (Hr eq_refl) as [? Er']. congruence.
  - apply Ha. unfold asking. by rewrite Ho, orb_true_r.
  - apply Ha. unfold asking. by rewrite Ho, orb_true_r.
Qed.

Lemma risk_action_core b d :
  core_ok d → qs_riskOpen (dw_questions d) = true → core_ok (handleStatusCodeRiskAction b d).
Proof.
  intros Hc Ho. destruct (risk_waits d Hc Ho) as (data & E & Hch & Hq & Hop & Hp).
  unfold handleStatusCodeRiskAction. rewrite E. fold (risk_closed d).
  destruct b; [by apply submit_models_core|by apply quiet_core].
Qed.

Lemma resume_missing_quiet a data n m d : quiet d → quiet (resume_missing a data n m d).
Proof. intros Hq. destruct a; [done|by apply mutate_quiet|by apply mutate_quiet]. Qed.

Lemma missing_action_core a d :
  core_ok d → qs_missingOpen (dw_questions d) = true → core_ok (handleMissingModelsAction a d).
Proof.
  intros Hc Ho. destruct (missing_waits d Hc Ho) as (data & E & _ & _ & _ & Hq & _).
  unfold handleMissingModelsAction. rewrite E. fold (missing_closed d).
  by apply quiet_core, resume_missing_quiet.
Qed.

Lemma handleSubmit_core d :
  quiet d → dw_open d = true → dw_pending d = false → core_ok (handleSubmit d).
Proof.
  intros Hq Ho Hp. unfold handleSubmit. cbn [dw_form with_key_error].
  destruct (schema_errors (dw_form d)) as [|x l] eqn:Es.
  2: { apply quiet_core. unfold onInvalid. by destruct (hasAdvancedSettingsErrors _). }
  destruct (onSubmit_spec (dw_form d) (with_key_error false d) Es)
    as [->|[[k ->]|[Hc [[_ ->]|[_ ->]]]]]; [by apply quiet_core..| |].
  - destruct Hq as (Q1 & Q2 & Q3 & Q4). split; cbn; rewrite ?Q3, ?Q4; try done.
    intros data [= <-]. split_and!; try done. intros s Hs.
    by apply (proj1 (RiskGuard.new_redirects_exact _ _)) in Hs as [? _].
  - by apply submit_models_core.
Qed.

(** The handlers of the fields leave everything but the form and the messages. *)
Record edit_frame (d d' : Drawer) : Prop := {
  ef_frame : dw_questions d' = dw_questions d ∧ dw_row d' = dw_row d ∧ dw_open d' = dw_open d
             ∧ dw_pending d' = dw_pending d ∧ dw_requests d' = dw_requests d;
  ef_initial : dw_version d' = dw_version d ∧ dw_detail d' = dw_detail d
               ∧ dw_initial d' = dw_initial d
}.

(** The events that need the fields to be shown. *)
Definition field_event (e : DrawerEvent) : bool :=
  match e with
  | EditForm _ | ClickDeduplicate | ClickFetch | ClickFillRelated _ | ClickFillAll _ | ClickClear
  | ClickPrefill _ _ | ChangeModels _ | ClickHideExposed | ClickAddMissing | SelectModels _
  | SaveOverride _ | ToggleAdvanced _ => true
  | _ => false
  end.

Lemma field_event_frame req e d d' :
  field_event e = true → handler req e d = Some d' → edit_frame d d'.
Proof.
  intros He. destruct e; try done; cbn [handler]; (destruct (fields_shown d); [|done]);
    intros [= <-]; try done.
  - unfold handleDeduplicateKeys. destruct (negb _); [done|]. by destruct (_ =? _)%Z.
  - unfold handleFetchModels. destruct (negb _); [done|]. by destruct (_ && _).
  - unfold handleFillRelatedModels. by destruct (_ =? _)%nat.
  - unfold handleFillAllModels. by destruct (_ =? _)%nat.
  - unfold handleAddPrefillGroup. by destruct (prefill_items items).
Qed.

Lemma handler_core req e d d' : core_ok d → handler req e d = Some d' → core_ok d'.
Proof.
  intros Hc He. destruct (field_event e) eqn:Ef.
  { destruct (field_event_frame _ _ _ _ Ef He) as [(? & ? & ? & ? & _) _]. by eapply core_ok_frame. }
  destruct e; try done; cbn [handler] in He.
  - destruct (dw_open d) eqn:Eo; [done|]. apply (inj Some) in He as <-. apply quiet_core, (not_asking_quiet _ Hc).
    destruct (asking d) eqn:Ea; [|done]. apply (co_asking _ Hc) in Ea as [? _]. congruence.
  - destruct (dw_open d) eqn:Eo; [done|]. apply (inj Some) in He as <-. apply quiet_core, (not_asking_quiet _ Hc).
    destruct (asking d) eqn:Ea; [|done]. apply (co_asking _ Hc) in Ea as [? _]. congruence.
  - destruct (isEditing d); [|done]. apply (inj Some) in He as <-. by eapply core_ok_frame.
  - destruct (dw_open d) eqn:Eo; [|done]. destruct (asking d) eqn:Ea; [done|].
    destruct (dw_pending d) eqn:Ep; [done|]. apply (inj Some) in He as <-.
    apply handleSubmit_core; [|done..]. by apply not_asking_quiet.
  - destruct (qs_riskOpen _); [|done]. destruct (_ <? _)%nat; [|done]. apply (inj Some) in He as <-.
    by apply set_risk_input_core.
  - destruct (qs_riskOpen _); [|done]. apply (inj Some) in He as <-. by apply set_risk_input_core.
  - destruct (qs_riskOpen _) eqn:Er; [|done]. cbn in He. destruct (canConfirm _ _) eqn:Ec; [|done].
    apply (inj Some) in He as <-. unfold risk_handleConfirm. rewrite Ec.
    apply risk_action_core; [by apply set_risk_input_core|done].
  - destruct (qs_riskOpen _) eqn:Er; [|done]. apply (inj Some) in He as <-.
    apply risk_action_core; [by apply set_risk_input_core|done].
  - destruct (qs_riskOpen _) eqn:Er; [|done]. apply (inj Some) in He as <-. by apply risk_action_core.
  - destruct (qs_missingOpen _) eqn:Em; [|done]. apply (inj Some) in He as <-. by apply missing_action_core.
  - destruct (dw_open d); [|done]. destruct (asking d) eqn:Ea; [done|]. apply (inj Some) in He as <-.
    by apply quiet_core, (not_asking_quiet _ Hc).
  - destruct (dw_pending d) eqn:Ep; [|done]. apply (inj Some) in He as <-.
    assert (quiet d) as Hq.
    { apply (not_asking_quiet _ Hc). destruct (asking d) eqn:Ea; [|done].
      apply (co_asking _ Hc) in Ea as [_ ?]. congruence. }
    apply quiet_core. by destruct r.
Qed.

Definition kept (d d' : Drawer) : Prop :=
  dw_row d' = dw_row d ∧ dw_detail d' = dw_detail d ∧ dw_initial d' = dw_initial d.

Lemma mutate_kept data d : kept d (mutate data d).
Proof. destruct (mutate_frame data d) as (? & ? & _ & ?). done. Qed.

Lemma submit_models_kept data d : kept d (submit_models data d).
Proof.
  destruct (submit_models_spec data d) as [[m ->]|[_ [[_ ->]|[_ ->]]]]; [done|apply mutate_kept|done].
Qed.

Lemma risk_action_kept b d : kept d (handleStatusCodeRiskAction b d).
Proof.
  unfold handleStatusCodeRiskAction. destruct (qs_riskRef _); [|done]. destruct b; [|done].
  apply (submit_models_kept _ (risk_closed d)).
Qed.

Lemma handleSubmit_kept d : kept d (handleSubmit d).
Proof.
  unfold handleSubmit. cbn [dw_form with_key_error].
  destruct (schema_errors (dw_form d)) as [|x l] eqn:Es.
  - destruct (onSubmit_spec (dw_form d) (with_key_error false d) Es)
      as [->|[[k ->]|[_ [[_ ->]|[_ ->]]]]]; [done..|]. apply (submit_models_kept _ (with_key_error false d)).
  - unfold onInvalid. by destruct (hasAdvancedSettingsErrors _).
Qed.

Lemma handler_kept req e d d' :
  handler req e d = Some d' →
  dw_version d ≠ dw_version d' ∧ (dw_row d' = None → dw_detail d' = None) ∨ kept d d'.
Proof.
  intros He. destruct (field_event e) eqn:Ef.
  { destruct (field_event_frame _ _ _ _ Ef He) as [(_ & ? & _) (_ & ? & ?)]. by right. }
  destruct e; try done; cbn [handler] in He;
    (match type of He with context [if ?b then _ else _] =>
       (destruct b eqn:Eb; [|done]) || (destruct b eqn:Eb; [done|]) end);
    apply (inj Some) in He as <-;
    try (left; split; [cbn; lia|done]).
  - left. split; [cbn; lia|]. cbn. intros Hn. unfold isEditing in Eb. by rewrite Hn in Eb.
  - right. apply handleSubmit_kept.
  - by right.
  - by right.
  - right. unfold risk_handleConfirm. destruct (canConfirm _ _); [|done].
    apply (risk_action_kept true (set_risk_input [] [] d)).
  - right. apply (risk_action_kept false (set_risk_input [] [] d)).
  - right. apply risk_action_kept.
  - right. unfold handleMissingModelsAction. destruct (qs_missingRef _) as [[[data n] m]|]; [|done].
    destruct action; [done|apply (mutate_kept data (missing_closed d))|].
    unfold resume_missing. cbv zeta. eapply (mutate_kept _ (with_form _ (missing_closed d))).
  - destruct r; [left; split; [cbn; lia|done]|by right..].
Qed.

(** Every state the drawer can reach. *)
Record drawer_ok (d : Drawer) : Prop := {
  ok_core : core_ok d;
  ok_initial : initial_ok d;
  ok_detail : dw_row d = None → dw_detail d = None
}.

Lemma init_drawer_ok pref : drawer_ok (init_drawer pref).
Proof. split; [by apply quiet_core|done|done]. Qed.

Lemma drawer_step_ok req e d d' : drawer_ok d → drawer_step req e d = Some d' → drawer_ok d'.
Proof.
  intros [Hc Hi Hd]. unfold drawer_step. destruct (handler req e d) as [d1|] eqn:Eh; [|done].
  destruct (commit d d1) as [d2|] eqn:Ec; [|done]. intros [= <-]. split.
  - pose proof (commit_frame _ _ _ Ec) as []. by eapply core_ok_frame; [eapply handler_core|..].
  - eapply commit_initial; [done|]. destruct (handler_kept _ _ _ _ Eh) as [[? _]|(? & ? & ?)]; [by left|].
    right. by split_and!.
  - pose proof (commit_frame _ _ _ Ec) as []. rewrite sf_row0, sf_detail0.
    destruct (handler_kept _ _ _ _ Eh) as [[_ ?]|(-> & -> & _)]; done.
Qed.

Lemma drawer_run_ok req es d d' : drawer_ok d → drawer_run req es d = Some d' → drawer_ok d'.
Proof.
  revert d. induction es as [|e es IH]; intros d Hd; cbn; [by intros [= <-]|].
  destruct (drawer_step req e d) as [q|] eqn:E; [|done]. apply IH. by eapply drawer_step_ok.
Qed.

Lemma drawer_reached req pref es d : drawer_run req es (init_drawer pref) = Some d → drawer_ok d.
Proof. apply drawer_run_ok, init_drawer_ok. Qed.

(** ** Sending *)

(** The data after the missing models were added. *)
Definition with_missing (data : ChannelFormValues) : ChannelFormValues :=
  set_f_models (formatModelsArray
    (str_dedup (parseModelsString (f_models data) ++ missing_of data))) data.

Lemma schema_pass data c : schema_errors data = [] → c ∈ schema_checks data → c.2 = true.
Proof.
  unfold schema_errors. generalize (schema_checks data) (superRefine data). intros l k.
  intros [H _]%app_eq_nil Hc. destruct c.2 eqn:E; [done|].
  apply map_eq_nil in H. assert (c ∈ List.filter (λ c, negb c.2) l) as Hf
    by (apply elem_of_filterb; by rewrite E).
  rewrite H in Hf. by apply elem_of_nil in Hf.
Qed.

Lemma schema_errors_models m data :
  nonempty m = true → schema_errors data = [] → schema_errors (set_f_models m data) = [].
Proof.
  intros Hm Hs.
  assert (nonempty (f_models data) = true) as Hn.
  { apply (schema_pass data ("models", nonempty (f_models data)) Hs). unfold schema_checks.
    do 2 right. left. }
  assert (schema_checks (set_f_models m data) = schema_checks data) as E.
  { unfold schema_checks. cbv zeta. do 2 f_equal. f_equal.
    change (f_models (set_f_models m data)) with m. by rewrite Hm, Hn. }
  rewrite <- Hs. unfold schema_errors. by rewrite E.
Qed.

Lemma missing_names data m : m ∈ missing_of data → nonempty m = true.
Proof.
  unfold missing_of, findMissingModelsInMapping. destruct (negb _); [by intros ?%elem_of_nil|].
  destruct (parse_object _); [|by intros ?%elem_of_nil].
  rewrite str_dedup_elem, elem_of_filterb, andb_true_iff. tauto.
Qed.

Lemma join_mem_nonempty l m : m ∈ l → nonempty m = true → nonempty (join "," l) = true.
Proof.
  induction l as [|x l IH]; [by intros ?%elem_of_nil|]. intros [->|Hm]%elem_of_cons Hn.
  - destruct x; [done|]. by destruct l.
  - destruct l as [|y l]; [by apply elem_of_nil in Hm|]. by destruct x.
Qed.

Lemma with_missing_checked row data :
  checked row data → missing_of data ≠ [] → checked row (with_missing data).
Proof.
  intros (Hs & Hk & Hi) Hm. split; [|done]. apply schema_errors_models; [|done].
  destruct (missing_of data) as [|x l] eqn:E; [done|]. apply (join_mem_nonempty _ x).
  - rewrite !str_dedup_elem, elem_of_app. right. left.
  - apply (missing_names data). rewrite E. left.
Qed.

(** Why a submission may be sent: nothing had to be asked, the risks were confirmed, or
    the question about missing models was answered. *)
Inductive released (req : jsstr) (d : Drawer) : DrawerEvent → ChannelFormValues → Prop :=
| released_unasked :
    RiskGuard.collectNewDisallowedStatusCodeRedirects (in_statusCodeMapping (dw_initial d))
      (default [] (f_status_code_mapping (dw_form d))) = [] →
    missing_to_ask (dw_form d) (dw_initial d) = [] → released req d ClickSubmit (dw_form d)
| released_risk data :
    qs_riskRef (dw_questions d) = Some data → canConfirm req (dw_questions d) = true →
    missing_to_ask data (dw_initial d) = [] → released req d ConfirmRisk data
| released_missing data n m :
    qs_missingRef (dw_questions d) = Some (data, n, m) →
    released req d (AnswerMissing ActSubmit) data
| released_added data n m :
    qs_missingRef (dw_questions d) = Some (data, n, m) →
    released req d (AnswerMissing ActAdd) (with_missing data).

Definition sends (req : jsstr) (d : Drawer) (e : DrawerEvent) (d' : Drawer) : Prop :=
  dw_requests d' = dw_requests d
  ∨ ∃ data r, request_for d data = Ok r ∧ dw_requests d' = dw_requests d ++ [r]
      ∧ dw_pending d' = true ∧ checked (dw_row d) data ∧ mapping_valid data ∧ released req d e data.

Lemma mutate_sends req d0 d e data :
  dw_requests d = dw_requests d0 → dw_row d = dw_row d0 → dw_detail d = dw_detail d0 →
  checked (dw_row d0) data → mapping_valid data → released req d0 e data →
  sends req d0 e (mutate data d).
Proof.
  intros Hq Hr Hd Hc Hv Hl. rewrite mutate_request.
  assert (request_for d data = request_for d0 data) as ->.
  { unfold request_for, with_key_mode, isMultiKeyChannel, isEditing. by rewrite Hr, Hd. }
  destruct (request_for d0 data) as [r|] eqn:E; [|by left].
  right. exists data, r. cbn. rewrite Hq. by split_and!.
Qed.

Lemma submit_models_sends req d0 d e data :
  dw_requests d = dw_requests d0 → dw_row d = dw_row d0 → dw_detail d = dw_detail d0 →
  dw_initial d = dw_initial d0 → checked (dw_row d0) data →
  (missing_to_ask data (dw_initial d0) = [] → released req d0 e data) →
  sends req d0 e (submit_models data d).
Proof.
  intros Hq Hr Hd Hi Hc Hl.
  destruct (submit_models_spec data d) as [[m ->]|[Hv [[Hm ->]|[_ ->]]]]; [by left| |by left].
  rewrite Hi in Hm. apply mutate_sends; auto.
Qed.

Lemma validate_models m data : mapping_valid data → mapping_valid (set_f_models m data).
Proof. done. Qed.

Lemma handler_sends req e d d' : core_ok d → handler req e d = Some d' → sends req d e d'.
Proof.
  intros Hc He. destruct (field_event e) eqn:Ef.
  { destruct (field_event_frame _ _ _ _ Ef He) as [(_ & _ & _ & _ & ?) _]. by left. }
  destruct e; try done; cbn [handler] in He;
    try (match type of He with (if ?b then _ else _) = _ =>
           (destruct b eqn:Eb; [|done]) || (destruct b eqn:Eb; [done|]) end);
    apply (inj Some) in He as <-; try by left.
  - unfold handleSubmit. cbn [dw_form with_key_error].
    destruct (schema_errors (dw_form d)) as [|x l] eqn:Es.
    2: { left. unfold onInvalid. by destruct (hasAdvancedSettingsErrors _). }
    destruct (onSubmit_spec (dw_form d) (with_key_error false d) Es)
      as [->|[[k ->]|[Hch [[_ ->]|[Hr ->]]]]]; [by left..|].
    apply submit_models_sends; try done. intros. by constructor.
  - apply andb_true_iff in Eb as [Er Ec].
    destruct (risk_waits d Hc Er) as (data & E & Hch & _).
    unfold risk_handleConfirm, handleStatusCodeRiskAction. rewrite Ec. cbn. rewrite E.
    apply submit_models_sends; try done. intros. by constructor.
  - destruct (risk_waits d Hc Eb) as (data & E & _). left.
    unfold risk_handleCancel, handleStatusCodeRiskAction. cbn. by rewrite E.
  - destruct (risk_waits d Hc Eb) as (data & E & _). left.
    unfold handleStatusCodeRiskAction. by rewrite E.
  - destruct (missing_waits d Hc Eb) as (data & E & Hch & Hv & Hne & _).
    unfold handleMissingModelsAction. rewrite E. destruct action; cbn [resume_missing]; [by left| |].
    + apply mutate_sends; [done..|exact Hch|exact Hv|]. by eapply released_missing.
    + cbv zeta. fold (with_missing data).
      apply mutate_sends; [done..|by apply with_missing_checked|exact Hv|]. by eapply released_added.
  - left. by destruct r.
Qed.

(** *** The question about redirects *)

(** The new redirects of protected codes in a submission. *)
Definition new_redirects (i : Initial) (data : ChannelFormValues) : list jsstr :=
  RiskGuard.collectNewDisallowedStatusCodeRedirects (in_statusCodeMapping i)
    (default [] (f_status_code_mapping data)).

(** In the run [es] the form was submitted with [data], whose new redirects of protected
    codes were [risky]. *)
Definition submitted (req : jsstr) (pref : option jsstr) (es : list DrawerEvent)
    (data : ChannelFormValues) (risky : list jsstr) : Prop :=
  ∃ es1 es2 d, es = es1 ++ ClickSubmit :: es2 ∧ drawer_run req es1 (init_drawer pref) = Some d
    ∧ dw_form d = data ∧ new_redirects (dw_initial d) data = risky.

(** In the run [es] the redirects of [data] were settled: it was submitted without new
    redirects of protected codes, or the dialog that waits for it and lists exactly the
    new ones was confirmed with all boxes and the text. *)
Definition risks_settled (req : jsstr) (pref : option jsstr) (es : list DrawerEvent)
    (data : ChannelFormValues) : Prop :=
  submitted req pref es data []
  ∨ ∃ es1 es2 d, es = es1 ++ ConfirmRisk :: es2 ∧ drawer_run req es1 (init_drawer pref) = Some d
      ∧ qs_riskRef (dw_questions d) = Some data ∧ canConfirm req (dw_questions d) = true
      ∧ submitted req pref es1 data (qs_riskItems (dw_questions d)).

Lemma submitted_later req pref es es' data risky :
  submitted req pref es data risky → submitted req pref (es ++ es') data risky.
Proof.
  intros (es1 & es2 & d & -> & H). exists es1, (es2 ++ es'), d. by rewrite <- app_assoc.
Qed.

Lemma risks_settled_later req pref es es' data :
  risks_settled req pref es data → risks_settled req pref (es ++ es') data.
Proof.
  intros [H|(es1 & es2 & d & -> & H)]; [left; by apply submitted_later|].
  right. exists es1, (es2 ++ es'), d. by rewrite <- app_assoc.
Qed.

(** Where the submission that a question waits for comes from. *)
Record asked (req : jsstr) (e : DrawerEvent) (d d' : Drawer) : Prop := {
  ak_risk data : qs_riskRef (dw_questions d') = Some data →
    qs_riskRef (dw_questions d) = Some data
      ∧ qs_riskItems (dw_questions d') = qs_riskItems (dw_questions d)
    ∨ e = ClickSubmit ∧ dw_form d = data
      ∧ new_redirects (dw_initial d) data = qs_riskItems (dw_questions d');
  ak_missing data n m : qs_missingRef (dw_questions d') = Some (data, n, m) →
    qs_missingRef (dw_questions d) = Some (data, n, m)
    ∨ e = ClickSubmit ∧ dw_form d = data ∧ new_redirects (dw_initial d) data = []
    ∨ e = ConfirmRisk ∧ qs_riskRef (dw_questions d) = Some data ∧ canConfirm req (dw_questions d) = true
}.

Lemma asked_same req e d d' : dw_questions d' = dw_questions d → asked req e d d'.
Proof. intros E. split; rewrite E; auto. Qed.

Lemma asked_none req e d d' :
  qs_riskRef (dw_questions d') = None → qs_missingRef (dw_questions d') = None → asked req e d d'.
Proof. intros E1 E2. split; rewrite ?E1, ?E2; done. Qed.

(** The models part of a submission asks nothing, or about the models of that submission. *)
Lemma submit_models_questions data d :
  dw_questions (submit_models data d) = dw_questions d
  ∨ qs_riskRef (dw_questions (submit_models data d)) = qs_riskRef (dw_questions d)
    ∧ ∃ n m, qs_missingRef (dw_questions (submit_models data d)) = Some (data, n, m).
Proof.
  destruct (submit_models_spec data d) as [[m ->]|[_ [[_ ->]|[_ ->]]]]; [by left| |].
  - left. rewrite mutate_request. by destruct (request_for d data).
  - right. split; [done|]. by eexists _, _.
Qed.

Lemma handleSubmit_asked req d : quiet d → asked req ClickSubmit d (handleSubmit d).
Proof.
  intros (Q1 & Q2 & Q3 & Q4). unfold handleSubmit. cbn [dw_form with_key_error].
  destruct (schema_errors (dw_form d)) as [|x l] eqn:Es.
  2: { apply asked_same. unfold onInvalid. by destruct (hasAdvancedSettingsErrors _). }
  destruct (onSubmit_spec (dw_form d) (with_key_error false d) Es)
    as [->|[[k ->]|[_ [[_ ->]|[Hr ->]]]]]; [by apply asked_same..| |].
  - split; cbn; [intros data [= <-]; by right|]. rewrite Q4. done.
  - destruct (submit_models_questions (dw_form d) (with_key_error false d)) as [E|(E1 & n & m & E2)];
      [by apply asked_same|]. split; [rewrite E1; cbn; by rewrite Q2|]. rewrite E2.
    intros data n' m' [= <- _ _]. right. left. done.
Qed.

Lemma risk_asked req b e d :
  core_ok d → qs_riskOpen (dw_questions d) = true →
  (b = true → e = ConfirmRisk ∧ canConfirm req (dw_questions d) = true) →
  asked req e d (handleStatusCodeRiskAction b (set_risk_input [] [] d)).
Proof.
  intros Hc Ho Hb. destruct (risk_waits d Hc Ho) as (data & E & _ & (_ & _ & _ & Hn) & _). cbn in Hn.
  unfold handleStatusCodeRiskAction. cbn [qs_riskRef dw_questions set_risk_input with_questions].
  rewrite E. destruct b; [|by apply asked_none].
  destruct (Hb eq_refl) as [-> Hcan].
  match goal with |- asked _ _ _ (submit_models _ ?x) =>
    destruct (submit_models_questions data x) as [Eq|(E1 & n & m & E2)] end.
  - apply asked_none; by rewrite Eq.
  - split; [rewrite E1; done|]. rewrite E2. intros ? ? ? [= <- _ _]. right. right. done.
Qed.

Lemma handler_asked req e d d' : core_ok d → handler req e d = Some d' → asked req e d d'.
Proof.
  intros Hc He. destruct (field_event e) eqn:Ef.
  { destruct (field_event_frame _ _ _ _ Ef He) as [(? & _) _]. by apply asked_same. }
  destruct e; try done; cbn [handler] in He;
    try (match type of He with (if ?b then _ else _) = _ =>
           (destruct b eqn:Eb; [|done]) || (destruct b eqn:Eb; [done|]) end);
    apply (inj Some) in He as <-; try by apply asked_same.
  - apply handleSubmit_asked, not_asking_quiet; [done|].
    apply andb_prop in Eb as [[_ Ha]%andb_prop _]. by apply negb_true_iff in Ha.
  - split; cbn; auto.
  - split; cbn; auto.
  - apply andb_prop in Eb as [Er Ecan]. unfold risk_handleConfirm. rewrite Ecan. by apply risk_asked.
  - unfold risk_handleCancel. by apply risk_asked.
  - destruct (risk_waits d Hc Eb) as (data & E & _ & (_ & _ & _ & Hn) & _). cbn in Hn.
    unfold handleStatusCodeRiskAction. rewrite E. by apply asked_none.
  - destruct (missing_waits d Hc Eb) as (data & E & _ & _ & _ & Hq & _).
    unfold handleMissingModelsAction. rewrite E. fold (missing_closed d).
    destruct (resume_missing_quiet action data (parseModelsString (f_models data)) (missing_of data) _ Hq)
      as (_ & H1 & _ & H2). by apply asked_none.
  - apply asked_same. by destruct r.
Qed.

(** The submissions the questions wait for were submitted, and the question about models
    comes after the one about redirects. *)
Definition questions_traced (req : jsstr) (pref : option jsstr) (es : list DrawerEvent) (d : Drawer) : Prop :=
  (∀ data, qs_riskRef (dw_questions d) = Some data →
     submitted req pref es data (qs_riskItems (dw_questions d)))
  ∧ ∀ data n m, qs_missingRef (dw_questions d) = Some (data, n, m) → risks_settled req pref es data.

Lemma drawer_run_snoc req es e d0 d' :
  drawer_run req (es ++ [e]) d0 = Some d' →
  ∃ d, drawer_run req es d0 = Some d ∧ drawer_step req e d = Some d'.
Proof.
  revert d0. induction es as [|x es IH]; intros d0; cbn [app drawer_run].
  - destruct (drawer_step req e d0) as [q|] eqn:E; [|done]. intros [= <-]. by exists d0.
  - destruct (drawer_step req x d0) as [q|]; [|done]. apply IH.
Qed.

Lemma questions_reached req pref es d :
  drawer_run req es (init_drawer pref) = Some d → questions_traced req pref es d.
Proof.
  revert d. induction es as [|e es IH] using rev_ind; intros d.
  { intros [= <-]. by split. }
  intros (q & Hq & Hs)%drawer_run_snoc. pose proof (drawer_reached _ _ _ _ Hq) as [Hc _ _].
  destruct (IH _ Hq) as [IH1 IH2]. unfold drawer_step in Hs.
  destruct (handler req e q) as [d1|] eqn:Eh; [|done]. destruct (commit q d1) as [d2|] eqn:Ec; [|done].
  injection Hs as ->. pose proof (sf_questions _ _ (commit_frame _ _ _ Ec)) as Eq.
  destruct (handler_asked _ _ _ _ Hc Eh) as [A1 A2]. unfold questions_traced. rewrite Eq. split.
  - intros data H. destruct (A1 _ H) as [[H1 ->]|(-> & H1 & H2)].
    + by apply submitted_later, IH1.
    + by exists es, [], q.
  - intros data n m H. destruct (A2 _ _ _ H) as [H1|[(-> & H1 & H2)|(-> & H1 & H2)]].
    + eapply risks_settled_later, IH2, H1.
    + left. by exists es, [], q.
    + right. exists es, [], q. split_and!; try done. by apply IH1.
Qed.

(** The submission that an event sends, and its data after missing models were added. *)
Lemma released_settled req pref es d e data :
  drawer_run req es (init_drawer pref) = Some d → released req d e data →
  ∃ sub, risks_settled req pref (es ++ [e]) sub
    ∧ (data = sub ∨ e = AnswerMissing ActAdd ∧ data = with_missing sub).
Proof.
  intros Hr Hl. destruct (questions_reached _ _ _ _ Hr) as [H1 H2].
  destruct Hl as [Hn _|data Hd Hcan _|data n m Hd|data n m Hd]; [exists (dw_form d)|exists data..].
  - split; [|by left]. left. by exists es, [], d.
  - split; [|by left]. right. exists es, [], d. split_and!; try done. by apply H1.
  - split; [|by left]. eapply risks_settled_later, H2, Hd.
  - split; [|by right]. eapply risks_settled_later, H2, Hd.
Qed.

(** C5: Every channel that is sent passed the form's checks, has a key when it is new, only
    valid status codes and a valid mapping.  It is what was submitted ([released]): the form
    itself, when neither question had to be asked, or the submission the answered question
    waits for, with the missing models added when that was the answer.  On every way,
    also through the question about missing models, the redirects of that submission were
    settled ([risks_settled]): it had no new redirect of a protected code, or the dialog
    that lists exactly the new ones was confirmed with all boxes and the text. *)
Theorem sent_channel_checked req pref es d e d' r :
  drawer_run req es (init_drawer pref) = Some d →
  drawer_step req e d = Some d' →
  dw_requests d' = dw_requests d ++ [r] →
  ∃ data sub, request_for d data = Ok r ∧ checked (dw_row d) data ∧ mapping_valid data
    ∧ released req d e data ∧ risks_settled req pref (es ++ [e]) sub
    ∧ (data = sub ∨ e = AnswerMissing ActAdd ∧ data = with_missing sub).
Proof.
  intros Hrun Hs Hq. pose proof Hrun as [Hc _ _]%drawer_reached. unfold drawer_step in Hs.
  destruct (handler req e d) as [d1|] eqn:Eh; [|done].
  destruct (commit d d1) as [d2|] eqn:Ec; [|done]. injection Hs as ->.
  rewrite (sf_requests _ _ (commit_frame _ _ _ Ec)) in Hq.
  destruct (handler_sends _ _ _ _ Hc Eh) as [H|(data & r' & Hf & H & _ & Hch & Hv & Hl)].
  - rewrite H in Hq. apply (f_equal length) in Hq. rewrite length_app in Hq. cbn in Hq. lia.
  - rewrite H in Hq. apply app_inv_head in Hq. injection Hq as ->.
    destruct (released_settled _ _ _ _ _ _ Hrun Hl) as (sub & H1 & H2). by exists data, sub.
Qed.

(** The check of the form on a mapping and the one of the submission are the same. *)
Theorem mapping_checks_agree s :
  isOptionalModelMapping (Some s) = (validateModelMappingJson s).1.
Proof.
  unfold isOptionalModelMapping, validateModelMappingJson, parseOptionalJson.
  destruct (negb _); [done|]. destruct (JSON_parse s) as [[]|]; try done.
  generalize (object_values kvs). intros l. induction l as [|v l IH]; [done|]. cbn.
  by destruct v.
Qed.

Lemma schema_mapping data : schema_errors data = [] → mapping_valid data.
Proof.
  intros Hs. unfold mapping_valid, mapping_of. rewrite <- mapping_checks_agree.
  assert (isOptionalModelMapping (f_model_mapping data) = true) as Hm.
  { apply (schema_pass data ("model_mapping", isOptionalModelMapping (f_model_mapping data)) Hs).
    unfold schema_checks. do 4 right. left. }
  by destruct (f_model_mapping data).
Qed.

Lemma unchanged_missing data i :
  in_models i = parseModelsString (f_models data) → in_modelMapping i = mapping_of data →
  missing_to_ask data i = [].
Proof.
  intros Hm Hp. unfold missing_to_ask. fold (mapping_of data). rewrite Hm, Hp.
  destruct (findMissingModelsInMapping _ _) as [|x l] eqn:E; [done|]. cbn [length].
  replace (hasModelConfigChanged _ _ _ _) with false; [done|]. symmetry.
  apply config_unchanged_exact; [|done]. apply orb_true_iff. right.
  destruct (mapping_of data); [|done]. unfold findMissingModelsInMapping in E. done.
Qed.

(** C21: An existing channel that is opened and saved without a change is sent at once, as the
    update of that channel: neither question is asked. *)
Theorem unchanged_channel_saved req pref es d id ch r :
  drawer_run req es (init_drawer pref) = Some d →
  dw_open d = true → asking d = false → dw_pending d = false →
  dw_row d = Some id → dw_detail d = Some ch → dw_form d = transformChannelToFormDefaults ch →
  schema_errors (dw_form d) = [] →
  RiskGuard.collectInvalidStatusCodeEntries (default [] (ch_status_code_mapping ch)) = [] →
  request_for d (dw_form d) = Ok r →
  ∃ d', drawer_step req ClickSubmit d = Some d'
    ∧ dw_requests d' = dw_requests d ++ [r] ∧ dw_pending d' = true ∧ asking d' = false.
Proof.
  intros Hr Ho Ha Hp Hrow Hdet Hform Hs Hi Hreq. apply drawer_reached in Hr as [Hc Hin _].
  unfold initial_ok in Hin. rewrite Hrow, Hdet in Hin.
  assert (handleSubmit d = send r (with_key_error false d)) as Hsub.
  { unfold handleSubmit. cbn [dw_form with_key_error]. rewrite Hs.
    assert (f_status_code_mapping (dw_form d) = Some (default [] (ch_status_code_mapping ch))) as Hsc
      by by rewrite Hform.
    assert (submit_models (dw_form d) (with_key_error false d) = send r (with_key_error false d)) as Hm.
    { unfold submit_models.
      assert (missing_to_ask (dw_form d) (dw_initial (with_key_error false d)) = []) as ->.
      { apply unchanged_missing; cbn; rewrite Hin, Hform; done. }
      assert (mutate (dw_form d) (with_key_error false d) = send r (with_key_error false d)) as ->.
      { rewrite mutate_request. unfold request_for in *. cbn [dw_row with_key_error] in *.
        unfold with_key_mode, isMultiKeyChannel, isEditing in *. cbn [dw_row dw_detail with_key_error].
        by rewrite Hreq. }
      destruct (nonempty _); [|done]. pose proof (schema_mapping _ Hs) as Hv.
      unfold mapping_valid, mapping_of in Hv. by destruct (validateModelMappingJson _) as [[] ?]. }
    unfold onSubmit, isEditing. cbn [dw_row with_key_error dw_initial]. rewrite Hrow, Hsc, Hin. cbn [negb andb].
    cbn [in_statusCodeMapping initial_of].
    change (default [] (Some (default [] (ch_status_code_mapping ch))))
      with (default [] (ch_status_code_mapping ch)).
    rewrite Hi.
    rewrite (proj2 (RiskGuard.new_redirects_exact _ (default [] (ch_status_code_mapping ch)))).
    by destruct (nonempty _). }
  unfold drawer_step. cbn [handler]. rewrite Ho, Ha, Hp. cbn [negb andb]. rewrite Hsub.
  rewrite commit_nothing by (auto; done). eexists. split; [done|]. by split_and!.
Qed.

(** ** The mounted drawer *)

(** After a new channel is stored, the next new channel starts with its values, the key
    included. *)
Theorem created_values_kept req pref es d :
  drawer_run req es (init_drawer pref) = Some d →
  dw_row d = None → dw_pending d = true →
  ∃ d', drawer_run req [SaveAnswered SaveStored; OpenCreate] d = Some d'
    ∧ dw_open d' = true ∧ dw_form d' = dw_form d.
Proof.
  intros Hr Hrow Hp. apply drawer_reached in Hr as [_ _ Hd]. specialize (Hd Hrow).
  cbn [drawer_run]. unfold drawer_step at 1. cbn [handler]. rewrite Hp.
  rewrite commit_nothing; [|by unfold isEditing; cbn; rewrite Hrow|by right|done].
  unfold drawer_step. cbn [handler dw_open save_reply close_drawer with_row].
  rewrite commit_nothing; [|done|by right|done]. by eexists.
Qed.

(** C40: The button that updates is there before the channel is: the values left in the form,
    which belong to another channel, are then sent for the channel that was opened. *)
Theorem update_before_load req pref es d id r :
  drawer_run req es (init_drawer pref) = Some d →
  dw_open d = false → dw_row d = None → dw_pending d = false →
  schema_errors (dw_form d) = [] →
  blank (f_status_code_mapping (dw_form d)) = true → blank (f_model_mapping (dw_form d)) = true →
  request_for (with_row true (Some id) None d) (dw_form d) = Ok r →
  ∃ d', drawer_run req [OpenEdit id None; ClickSubmit] d = Some d'
    ∧ dw_requests d' = dw_requests d ++ [r].
Proof.
  intros Hr Ho Hrow Hp Hs Hb1 Hb2 Hq. apply drawer_reached in Hr as [Hc _ Hd]. specialize (Hd Hrow).
  assert (asking d = false) as Ha.
  { destruct (asking d) eqn:E; [|done]. apply (co_asking _ Hc) in E as [? _]. congruence. }
  assert (drawer_step req (OpenEdit id None) d = Some (with_row true (Some id) None d)) as Hopen.
  { unfold drawer_step. cbn [handler]. rewrite Ho. unfold commit, isEditing.
    cbn [dw_row with_row]. rewrite Hrow. cbn. by rewrite Z.eqb_refl. }
  cbn [drawer_run]. rewrite Hopen. unfold drawer_step. cbn [handler dw_open with_row].
  rewrite (asking_questions d (with_row true (Some id) None d) eq_refl), Ha. cbn [dw_pending with_row].
  rewrite Hp. cbn [negb andb].
  assert (handleSubmit (with_row true (Some id) None d)
          = send r (with_key_error false (with_row true (Some id) None d))) as ->.
  { unfold handleSubmit. cbn [dw_form with_key_error with_row]. rewrite Hs.
    unfold blank in Hb1, Hb2. apply negb_true_iff in Hb1, Hb2.
    unfold onSubmit, isEditing. cbn [dw_row with_key_error with_row negb andb]. rewrite Hb1.
    unfold submit_models. rewrite Hb2, mutate_request.
    assert (∀ b x y, request_for (with_key_error b x) y = request_for x y) as -> by done.
    by rewrite Hq. }
  rewrite commit_nothing by (try done; by left). by eexists.
Qed.

(** After an edited channel of the type VolcEngine is stored, the form for a new channel
    has the default type but the address of VolcEngine: the effect on the type still has
    the type of the stored channel when the form has been reset. *)
Theorem stale_type_address req d id :
  dw_row d = Some id → dw_pending d = true → f_type (dw_form d) = 45%Z →
  ∃ d', drawer_run req [SaveAnswered SaveStored; OpenCreate] d = Some d'
    ∧ dw_form d' = set_f_base_url "https://ark.cn-beijing.volces.com" CHANNEL_FORM_DEFAULT_VALUES.
Proof.
  intros Hrow Hp Ht.
  assert (∃ d1, drawer_step req (SaveAnswered SaveStored) d = Some d1 ∧ dw_open d1 = false
    ∧ dw_row d1 = None ∧ dw_detail d1 = None
    ∧ dw_form d1 = set_f_base_url "https://ark.cn-beijing.volces.com" CHANNEL_FORM_DEFAULT_VALUES)
    as (d1 & E1 & Ho & Hr1 & Hd1 & Hf).
  { unfold drawer_step. cbn [handler]. rewrite Hp. unfold commit, isEditing.
    cbn [dw_row save_reply close_drawer with_row dw_form note with_pending].
    rewrite Hrow, Ht. cbn. eexists. by split_and!. }
  cbn [drawer_run]. rewrite E1. unfold drawer_step. cbn [handler]. rewrite Ho.
  rewrite commit_nothing; [by eexists|by unfold isEditing; cbn; rewrite Hr1|by right|done].
Qed.

(** A risk question that is dismissed with the escape key keeps the boxes and the text:
    the next risk question can be confirmed at once. *)
Theorem dismissed_confirmation_kept req pref es d d' :
  drawer_run req es (init_drawer pref) = Some d → qs_riskOpen (dw_questions d) = true → canConfirm req (dw_questions d) = true →
  drawer_run req [EscapeRisk; ClickSubmit] d = Some d' →
  canConfirm req (dw_questions d') = true.
Proof.
  intros [Hc _ _]%drawer_reached Hr Hcan Hrun. destruct (risk_waits d Hc Hr) as (data & E & _).
  revert Hrun. cbn [drawer_run]. unfold drawer_step at 1. cbn [handler]. rewrite Hr.
  destruct (commit d _) as [d1|] eqn:E1; [|done]. apply commit_frame in E1.
  assert (canConfirm req (dw_questions d1) = true) as H1.
  { rewrite (sf_questions _ _ E1). unfold handleStatusCodeRiskAction. rewrite E. exact Hcan. }
  unfold drawer_step. cbn [handler]. destruct (_ && negb _); [|done].
  destruct (commit d1 _) as [d2|] eqn:E2; [|done]. intros [= <-].
  apply commit_frame in E2. rewrite (sf_questions _ _ E2).
  unfold handleSubmit. cbn [dw_form with_key_error].
  destruct (schema_errors (dw_form d1)) as [|x l] eqn:Es.
  2: { unfold onInvalid. by destruct (hasAdvancedSettingsErrors _). }
  destruct (onSubmit_spec (dw_form d1) (with_key_error false d1) Es)
    as [->|[[k ->]|[_ [[_ ->]|[_ ->]]]]]; [done..|].
  destruct (submit_models_spec (dw_form d1) (with_key_error false d1)) as [[m ->]|[_ [[_ ->]|[_ ->]]]];
    [done| |done].
  rewrite mutate_request. by destruct (request_for _ _).
Qed.

(** An answer that comes after the drawer was closed and opened again closes it. *)
Theorem late_save_closes_drawer req d id :
  dw_open d = true → asking d = false → dw_pending d = true →
  ∃ d1 d2, drawer_run req [CloseDrawer; OpenEdit id None] d = Some d1
    ∧ dw_open d1 = true ∧ dw_row d1 = Some id
    ∧ drawer_step req (SaveAnswered SaveStored) d1 = Some d2 ∧ dw_open d2 = false.
Proof.
  intros Ho Ha Hp.
  destruct (commit_closed d (handleOpenChange_false d) eq_refl) as (q & E & [Hqo Hqr _ _ Hqp _ _]).
  cbn in Hqo, Hqr, Hqp. rewrite Hp in Hqp.
  destruct (commit_closed (with_row true (Some id) None q)
    (save_reply SaveStored (with_row true (Some id) None q)) eq_refl) as (d2 & E2 & [Ho2 _ _ _ _ _ _]).
  exists (with_row true (Some id) None q), d2. cbn [drawer_run].
  assert (drawer_step req CloseDrawer d = Some q) as ->.
  { unfold drawer_step. cbn [handler]. rewrite Ho, Ha. cbn [negb andb]. by rewrite E. }
  assert (drawer_step req (OpenEdit id None) q = Some (with_row true (Some id) None q)) as ->.
  { unfold drawer_step. cbn [handler]. rewrite Hqo. unfold commit, isEditing.
    cbn [dw_row with_row]. rewrite Hqr. cbn. by rewrite Z.eqb_refl. }
  split_and!; [done..| |done]. unfold drawer_step. cbn [handler dw_pending with_row]. by rewrite Hqp, E2.
Qed.

(** A channel that is fetched again while it is edited replaces the whole input. *)
Theorem fetched_channel_replaces_input req d d' ch :
  isEditing d = true → drawer_step req (DetailLoaded ch) d = Some d' →
  dw_form d' = transformChannelToFormDefaults ch.
Proof.
  intros He. unfold drawer_step. cbn [handler]. rewrite He.
  destruct (commit d _) as [q|] eqn:E; [|done]. intros [= <-]. revert E. unfold commit.
  assert (isEditing (with_row (dw_open d) (dw_row d) (Some ch) d) = true) as He' by exact He.
  rewrite He, He'. cbn [Bool.eqb negb orb dw_version dw_detail with_row].
  replace (dw_version d =? S (dw_version d))%nat with false by (symmetry; apply Nat.eqb_neq; lia).
  destruct (load_effect _) as [d1|] eqn:El.
  2: { by destruct (dw_detail d). }
  apply load_effect_spec in El as [Hf El]. cbn [dw_row dw_detail with_row] in El.
  unfold isEditing in He. destruct (dw_row d) as [id|] eqn:Er; [|done]. destruct El as [El _].
  assert (isEditing d1 = true) as He1 by (unfold isEditing; by rewrite (sf_row _ _ Hf)).
  assert (∀ (b : bool) t, (if b then type_effect t d1 else d1) = d1) as Hid.
  { intros [] t; [by apply type_effect_editing|done]. }
  destruct (dw_detail d); cbn; rewrite Hid; [|rewrite Hid]; intros [= <-]; try rewrite Hid; done.
Qed.

(** ** Examples *)

(** A new channel with a name, a key and one model. *)
Definition sample_form : ChannelFormValues :=
  set_f_models "gpt-4" (set_f_key "sk-a"
    {| f_name := "a"; f_type := 1; f_base_url := Some []; f_key := [];
       f_openai_organization := Some []; f_models := []; f_group := ["default"];
       f_model_mapping := Some []; f_priority := Some zero; f_weight := Some zero;
       f_test_model := Some []; f_auto_ban := Some (num_of_Z 1); f_status := 1;
       f_status_code_mapping := Some []; f_tag := Some []; f_remark := Some [];
       f_setting := Some []; f_param_override := Some []; f_header_override := Some [];
       f_settings := Some "{}"; f_other := Some []; f_multi_key_mode := Some "single";
       f_multi_key_type := Some "random"; f_batch_add_set_key_prefix_2_name := Some false;
       f_key_mode := Some "append"; f_extra := default_extra; f_is_enterprise_account := Some false;
       f_vertex_key_type := Some (JStr "json"); f_aws_key_type := Some (JStr "ak_sk");
       f_azure_responses_version := Some (JStr []); f_allow_service_tier := Some false;
       f_disable_store := Some false; f_allow_safety_identifier := Some false;
       f_allow_include_obfuscation := Some false; f_allow_inference_geo := Some false;
       f_allow_speed := Some false; f_claude_beta_query := Some false;
       f_upstream_check_enabled := Some false; f_upstream_auto_sync_enabled := Some false;
       f_upstream_ignored_models := Some [] |}).

Definition drawer_at (es : list DrawerEvent) : Drawer :=
  match drawer_run "yes" es (init_drawer None) with Some d => d | None => init_drawer None end.

Definition sample_create : list DrawerEvent := [OpenCreate; EditForm sample_form; ClickSubmit].

(** The request of the new channel. *)
Definition sample_request : SaveRequest :=
  match transformFormDataToCreatePayload sample_form with
  | Ok p => CreateReq p
  | Throw => UpdateReq 0 []
  end.

Lemma sent_channel_checked_witness :
  ∃ data, request_for (drawer_at (take 2 sample_create)) data = Ok sample_request
    ∧ checked None data ∧ mapping_valid data.
Proof.
  assert (drawer_run "yes" (take 2 sample_create) (init_drawer None)
          = Some (drawer_at (take 2 sample_create))) as Hr by (vm_compute; reflexivity).
  assert (drawer_step "yes" ClickSubmit (drawer_at (take 2 sample_create))
          = Some (drawer_at sample_create)) as Hs by (vm_compute; reflexivity).
  assert (dw_requests (drawer_at sample_create)
          = dw_requests (drawer_at (take 2 sample_create)) ++ [sample_request]) as Hq
    by (vm_compute; reflexivity).
  destruct (sent_channel_checked _ _ _ _ _ _ _ Hr Hs Hq) as (data & sub & H1 & H2 & H3 & _).
  exists data. exact (conj H1 (conj H2 H3)).
Defined.

Lemma created_values_kept_witness :
  ∃ d', drawer_run "yes" [SaveAnswered SaveStored; OpenCreate] (drawer_at sample_create) = Some d'
    ∧ f_key (dw_form d') = "sk-a".
Proof.
  assert (drawer_run "yes" sample_create (init_drawer None) = Some (drawer_at sample_create)) as Hr
    by (vm_compute; reflexivity).
  destruct (created_values_kept _ _ _ _ Hr ltac:(vm_compute; reflexivity) ltac:(vm_compute; reflexivity))
    as (d' & H1 & _ & H2).
  exists d'. split; [exact H1|]. rewrite H2. vm_compute. reflexivity.
Defined.

(** The values of the new channel are sent for the channel 7. *)
Lemma update_before_load_witness :
  ∃ d' payload,
    drawer_run "yes" [OpenEdit 7 None; ClickSubmit]
      (drawer_at (sample_create ++ [SaveAnswered SaveStored])) = Some d'
    ∧ list.last (dw_requests d') = Some (UpdateReq 7 payload)
    ∧ obj_get "key" payload = Some (JStr "sk-a").
Proof.
  pose (es := sample_create ++ [SaveAnswered SaveStored]).
  assert (drawer_run "yes" es (init_drawer None) = Some (drawer_at es)) as Hr
    by (vm_compute; reflexivity).
  pose (payload := match transformFormDataToUpdatePayload sample_form 7 with Ok p => p | Throw => [] end).
  assert (request_for (with_row true (Some 7%Z) None (drawer_at es)) (dw_form (drawer_at es))
          = Ok (UpdateReq 7 payload)) as Hq by (vm_compute; reflexivity).
  destruct (update_before_load _ _ _ _ 7 _ Hr ltac:(vm_compute; reflexivity)
    ltac:(vm_compute; reflexivity) ltac:(vm_compute; reflexivity) ltac:(vm_compute; reflexivity)
    ltac:(vm_compute; reflexivity) ltac:(vm_compute; reflexivity) Hq) as (d' & H1 & H2).
  exists d', payload. split; [exact H1|]. split; [rewrite H2; apply last_snoc|].
  vm_compute. reflexivity.
Defined.

(** The channel that was created, as the server delivers it. *)
Definition sample_stored : Channel :=
  {| ch_id := JNum (num_of_Z 7); ch_type := 45; ch_key := []; ch_openai_organization := None;
     ch_test_model := None; ch_status := 1; ch_name := "a"; ch_weight := NVal zero;
     ch_created_time := zero; ch_test_time := zero; ch_response_time := zero;
     ch_base_url := Some "https://x"; ch_other := []; ch_balance := zero;
     ch_balance_updated_time := zero; ch_models := "gpt-4"; ch_group := "default";
     ch_used_quota := zero; ch_model_mapping := Some "{\qgpt-5\q: \qgpt-4\q}";
     ch_status_code_mapping := Some "{\q504\q: 500}"; ch_priority := NVal zero;
     ch_auto_ban := NVal zero; ch_other_info := []; ch_tag := None; ch_setting := None;
     ch_param_override := None; ch_header_override := None; ch_remark := [];
     ch_max_input_tokens := zero;
     ch_channel_info := {| is_multi_key := false; multi_key_size := zero;
       multi_key_status_list := None; multi_key_disabled_reason := None;
       multi_key_disabled_time := None; multi_key_polling_index := zero; multi_key_mode := [] |};
     ch_settings := [] |}.

Definition sample_edit : list DrawerEvent := [OpenEdit 7 (Some sample_stored)].

(** The channel redirects 504 and maps a model that is not in its list; unchanged, it is
    saved without a question. *)
Lemma unchanged_channel_saved_witness :
  ∃ d', drawer_step "yes" ClickSubmit (drawer_at sample_edit) = Some d' ∧ asking d' = false.
Proof.
  assert (drawer_run "yes" sample_edit (init_drawer None) = Some (drawer_at sample_edit)) as Hr
    by (vm_compute; reflexivity).
  pose (payload := match transformFormDataToUpdatePayload
    (transformChannelToFormDefaults sample_stored) 7 with Ok p => p | Throw => [] end).
  assert (request_for (drawer_at sample_edit) (dw_form (drawer_at sample_edit))
          = Ok (UpdateReq 7 payload)) as Hq by (vm_compute; reflexivity).
  destruct (unchanged_channel_saved _ _ _ _ 7 sample_stored _ Hr ltac:(vm_compute; reflexivity)
    ltac:(vm_compute; reflexivity) ltac:(vm_compute; reflexivity) ltac:(vm_compute; reflexivity)
    ltac:(vm_compute; reflexivity) ltac:(vm_compute; reflexivity) ltac:(vm_compute; reflexivity)
    ltac:(vm_compute; reflexivity) Hq) as (d' & H1 & _ & _ & H2).
  exists d'. exact (conj H1 H2).
Defined.

Lemma stale_type_address_witness :
  ∃ d', drawer_run "yes" [SaveAnswered SaveStored; OpenCreate]
          (drawer_at (sample_edit ++ [ClickSubmit])) = Some d'
    ∧ f_type (dw_form d') = 1%Z ∧ f_base_url (dw_form d') = Some "https://ark.cn-beijing.volces.com".
Proof.
  destruct (stale_type_address "yes" (drawer_at (sample_edit ++ [ClickSubmit])) 7
    ltac:(vm_compute; reflexivity) ltac:(vm_compute; reflexivity) ltac:(vm_compute; reflexivity))
    as (d' & H1 & H2).
  exists d'. split; [exact H1|]. rewrite H2. split; reflexivity.
Defined.

(** A new redirect of 524 is asked about; all boxes are checked and the text is typed,
    and the question is dismissed. *)
Definition sample_risky : list DrawerEvent :=
  [OpenCreate;
   EditForm (match dw_form (drawer_at sample_edit) with f => set_f_key "k" f end); ClickSubmit;
   CheckRisk 0; CheckRisk 1; CheckRisk 2; CheckRisk 3; TypeRisk "yes"].

Lemma dismissed_confirmation_kept_witness :
  canConfirm "yes" (dw_questions (drawer_at (sample_risky ++ [EscapeRisk; ClickSubmit]))) = true
  ∧ qs_riskOpen (dw_questions (drawer_at (sample_risky ++ [EscapeRisk; ClickSubmit]))) = true.
Proof.
  assert (drawer_run "yes" sample_risky (init_drawer None) = Some (drawer_at sample_risky)) as Hr
    by (vm_compute; reflexivity).
  split; [|vm_compute; reflexivity].
  apply (dismissed_confirmation_kept _ _ _ _ _ Hr); vm_compute; reflexivity.
Defined.
