(* ===== verification/ChannelDrawerModels.v ===== *)
(** * The models of the channel drawer

    The warnings about a mapping against the checks of the submission, and what the
    buttons that repair the list of models leave behind. *)
From Stdlib Require Import NArith ZArith.
From stdpp Require Import list numbers.
From S2P Require Import Prelude JsString JsNumber Json JsArray ModelMapping StatusCodes Channels ChannelForm ChannelDrawer ChannelDrawerTheorems.

(** ** Lists *)

Lemma map_filter {A B} (f : A → B) (p : B → bool) l :
  map f (List.filter (λ x, p (f x)) l) = List.filter p (map f l).
Proof. induction l as [|x l IH]; cbn; [done|]. destruct (p (f x)); cbn; by rewrite IH. Qed.

Lemma filter_all {A} (p : A → bool) l : (∀ x, x ∈ l → p x = true) → List.filter p l = l.
Proof.
  induction l as [|x l IH]; cbn; intros H; [done|]. rewrite (H x) by left. f_equal. apply IH.
  intros y Hy. apply H. by right.
Qed.

Lemma filter_same {A} (p q : A → bool) l :
  (∀ x, x ∈ l → p x = q x) → List.filter p l = List.filter q l.
Proof.
  induction l as [|x l IH]; cbn; intros H; [done|]. rewrite (H x) by left.
  rewrite IH; [done|]. intros y Hy. apply H. by right.
Qed.

Lemma dedup_filter p seen l :
  dedup_from str_eqb (List.filter p seen) (List.filter p l) = List.filter p (dedup_from str_eqb seen l).
Proof.
  revert seen; induction l as [|x l IH]; intros seen; cbn; [done|].
  destruct (p x) eqn:Ep.
  - cbn. assert (mem str_eqb x (List.filter p seen) = mem str_eqb x seen) as ->.
    { apply eq_true_iff_eq. rewrite !(mem_true _ str_eqb_eq), elem_of_filterb. tauto. }
    destruct (mem str_eqb x seen); [apply IH|]. cbn. rewrite Ep. f_equal. rewrite <- IH. cbn. by rewrite Ep.
  - destruct (mem str_eqb x seen); [apply IH|]. cbn. rewrite Ep, <- IH. cbn. by rewrite Ep.
Qed.

Lemma str_dedup_filter p l : str_dedup (List.filter p l) = List.filter p (str_dedup l).
Proof. apply (dedup_filter p []). Qed.

Lemma dedup_prefix seen a b :
  ∃ rest, dedup_from str_eqb seen (a ++ b) = dedup_from str_eqb seen a ++ rest.
Proof.
  revert seen; induction a as [|x a IH]; intros seen; cbn; [by eexists|].
  destruct (mem str_eqb x seen); [apply IH|]. destruct (IH (x :: seen)) as [rest ->]. by exists rest.
Qed.

(** ** The warnings *)

(** A mapping whose keys and targets are texts that are not blank. *)
Definition plain_mapping (kvs : list (jsstr * json)) : Prop :=
  ∀ k v, (k, v) ∈ kvs → nonempty (trim k) = true ∧ ∃ t, v = JStr t ∧ nonempty (trim t) = true.

Lemma guardrail_entries_plain kvs :
  plain_mapping kvs →
  guardrail_entries kvs = map (λ '(k, v), (trim k, trim (target_text v))) (entries kvs).
Proof.
  intros Hp. apply filter_all. intros [a b]. rewrite elem_of_mapb.
  intros ([k v] & [= -> ->] & Hkv). rewrite entries_elem in Hkv.
  destruct (Hp _ _ Hkv) as [Hk (t & -> & Ht)].
  change (nonempty (trim k) && nonempty (trim t) = true). by rewrite Hk, Ht.
Qed.

Lemma trimmed_mem m ms : map trim ms = ms → str_mem m (str_dedup (map normalizeModelName ms)) = str_mem m ms.
Proof.
  intros H. apply str_mem_ext. rewrite str_dedup_elem.
  change (map normalizeModelName ms) with (map trim ms). by rewrite H.
Qed.

Lemma targets_plain kvs :
  plain_mapping kvs →
  omap trimmed_string (object_values kvs) = map (λ kv, trim (target_text kv.2)) (entries kvs).
Proof.
  intros Hp. unfold object_values.
  assert (∀ kv, kv ∈ entries kvs → ∃ t, kv.2 = JStr t) as Ht.
  { intros [k v] Hkv. rewrite entries_elem in Hkv. destruct (Hp _ _ Hkv) as [_ (t & -> & _)]. by exists t. }
  revert Ht. generalize (entries kvs). intros l Ht. induction l as [|[k v] l IH]; [done|].
  destruct (Ht (k, v)) as [t E]; [left|]. cbn in E. subst v. cbn. f_equal. apply IH.
  intros kv Hkv. apply Ht. by right.
Qed.

Lemma guardrail_plain s kvs ms :
  trim s = s → JSON_parse s = Some (JObj kvs) → plain_mapping kvs → map trim ms = ms →
  let g := modelMappingGuardrail s ms in
  mg_missingSourceModels g = findMissingModelsInMapping s ms
  ∧ mg_exposedTargetModels g = findExposedTargetModels s ms.
Proof.
  intros Ht Hj Hp Hm. cbv zeta.
  assert (nonempty s = true) as Hn by by destruct s.
  unfold modelMappingGuardrail. rewrite Ht, Hn, Hj. cbn [negb]. cbn [mg_invalidJson
    mg_missingSourceModels mg_exposedTargetModels].
  rewrite guardrail_entries_plain by done.
  unfold findMissingModelsInMapping, findExposedTargetModels, extractRedirectModels, parse_object.
  rewrite Ht, Hn, Hj. cbn [negb]. split.
  - f_equal. rewrite (filter_same _ (λ kv, nonempty kv.1 && negb (str_mem kv.1 ms))) by by intros [].
    rewrite (map_filter fst (λ k, nonempty k && negb (str_mem k ms))).
    unfold object_keys. rewrite !map_map.
    rewrite (map_ext _ (λ kv, normalizeModelName kv.1)) by by intros [].
    apply filter_same. intros k _. by rewrite trimmed_mem.
  - rewrite (filter_same _ (λ kv, nonempty kv.2 && str_mem kv.2 ms)) by by intros [].
    rewrite (map_filter snd (λ t, nonempty t && str_mem t ms)), map_map.
    rewrite (map_ext _ (λ kv, trim (target_text kv.2))) by by intros [].
    rewrite targets_plain by done. rewrite !str_dedup_filter.
    set (ts := str_dedup _).
    assert (∀ t, t ∈ ts → nonempty t = true ∧ trim t = t) as Hts.
    { intros t. unfold ts. rewrite str_dedup_elem, elem_of_mapb. intros ([k v] & -> & Hkv).
      rewrite entries_elem in Hkv. destruct (Hp _ _ Hkv) as [_ (x & -> & Hx)]. split; [done|apply trim_idem]. }
    rewrite (filter_all nonempty ts) by (intros t H; by apply Hts in H as [? _]).
    assert (List.filter (λ t, nonempty t && str_mem t ms) ts
            = List.filter (λ m, str_mem (normalizeModelName m) (str_dedup (map normalizeModelName ms))) ts) as ->.
    { apply filter_same. intros t [Hne Htr]%Hts. unfold normalizeModelName at 1. by rewrite Hne, Htr, trimmed_mem. }
    by destruct ts.
Qed.

Lemma guardrail_entry kvs k t :
  (k, t) ∈ guardrail_entries kvs ↔
  k ≠ [] ∧ t ≠ [] ∧ ∃ k0 v, (k0, v) ∈ kvs ∧ trim k0 = k ∧ trim (target_text v) = t.
Proof.
  unfold guardrail_entries. rewrite elem_of_filterb, elem_of_mapb. split.
  - intros [([k0 v] & [= -> ->] & Hin) [Hk Ht]%andb_prop]. rewrite entries_elem in Hin.
    split_and!; [by destruct (trim k0)|by destruct (trim (target_text v))|]. by exists k0, v.
  - intros (Hk & Ht & k0 & v & Hin & <- & <-). split.
    + exists (k0, v). split; [done|]. by rewrite entries_elem.
    + apply andb_true_intro. split; [by destruct (trim k0)|by destruct (trim (target_text v))].
Qed.

Lemma missing_elem s kvs ms k :
  trim s = s → JSON_parse s = Some (JObj kvs) → map trim ms = ms →
  k ∈ findMissingModelsInMapping s ms ↔ k ≠ [] ∧ (k ∉ ms) ∧ ∃ k0 v, (k0, v) ∈ kvs ∧ trim k0 = k.
Proof.
  intros Ht Hj Hm. assert (nonempty s = true) as Hn by by destruct s.
  unfold findMissingModelsInMapping, parse_object. rewrite Ht, Hn, Hj. cbn [negb].
  rewrite str_dedup_elem, elem_of_filterb, elem_of_mapb, andb_true_iff, negb_true_iff, trimmed_mem by done.
  unfold object_keys. setoid_rewrite elem_of_mapb. split.
  - intros [(k0 & -> & [k1 v] & -> & Hin) [Hne Hno]]. rewrite entries_elem in Hin.
    split_and!; [by destruct (normalizeModelName _)|by rewrite <- str_mem_true, Hno|]. by exists k1, v.
  - intros (Hne & Hno & k0 & v & Hin & <-). split.
    + exists k0. split; [done|]. exists (k0, v). split; [done|]. by rewrite entries_elem.
    + split; [by destruct (trim k0)|]. by rewrite <- not_true_iff_false, str_mem_true.
Qed.

(** C33: the warnings of the drawer about a mapping, against the checks of the submission.
    For a trimmed text of a JSON object and trimmed names of models, the drawer warns of
    a missing model exactly if the submission asks about it and the mapping gives it a
    target that is not blank; and it warns of an exposed target exactly if a source that
    is not blank has it, and it is in the list.  Where no source and no target is blank and
    all targets are texts, both lists are the ones of the library. *)
Theorem guardrail_agrees s kvs ms :
  trim s = s → JSON_parse s = Some (JObj kvs) → map trim ms = ms →
  let g := modelMappingGuardrail s ms in
  mg_invalidJson g = false
  ∧ (∀ k, k ∈ mg_missingSourceModels g ↔
       k ∈ findMissingModelsInMapping s ms ∧ ∃ k0 v, (k0, v) ∈ kvs ∧ trim k0 = k ∧ trim (target_text v) ≠ [])
  ∧ (∀ t, t ∈ mg_exposedTargetModels g ↔
       t ∈ ms ∧ t ≠ [] ∧ ∃ k0 v, (k0, v) ∈ kvs ∧ trim k0 ≠ [] ∧ trim (target_text v) = t)
  ∧ (plain_mapping kvs →
       mg_missingSourceModels g = findMissingModelsInMapping s ms
       ∧ mg_exposedTargetModels g = findExposedTargetModels s ms).
Proof.
  intros Ht Hj Hm. cbv zeta. split_and!; [..|intros Hp; by apply (guardrail_plain s kvs ms)];
    assert (nonempty s = true) as Hn by (by destruct s);
    unfold modelMappingGuardrail; rewrite Ht, Hn, Hj; cbn [negb mg_invalidJson mg_missingSourceModels mg_exposedTargetModels];
    [done|..].
  - intros k. rewrite (missing_elem s kvs ms k) by done.
    rewrite str_dedup_elem, elem_of_mapb. setoid_rewrite elem_of_filterb. split.
    + intros ([k1 t] & -> & He & [Hk Hno]%andb_prop). apply guardrail_entry in He as (H1 & H2 & k0 & v & Hin & <- & <-).
      cbn [fst]. split; [split_and!; [done| |by exists k0, v]|by exists k0, v].
      rewrite negb_true_iff in Hno. by rewrite <- str_mem_true, Hno.
    + intros [(Hne & Hno & _) (k0 & v & Hin & <- & Hv)]. exists (trim k0, trim (target_text v)).
      split_and!; [done|apply guardrail_entry; split_and!; [done|done|by exists k0, v]|].
      apply andb_true_intro. split; [by destruct (trim k0)|]. by rewrite negb_true_iff, <- not_true_iff_false, str_mem_true.
  - intros t. rewrite str_dedup_elem, elem_of_mapb. setoid_rewrite elem_of_filterb. split.
    + intros ([k1 t1] & -> & He & [_ Hin']%andb_prop). apply guardrail_entry in He as (H1 & H2 & k0 & v & Hin & <- & <-).
      cbn [snd]. split_and!; [by apply str_mem_true|done|by exists k0, v].
    + intros (Hin' & Hne & k0 & v & Hin & Hk & <-). exists (trim k0, trim (target_text v)).
      split_and!; [done|apply guardrail_entry; split_and!; [done|done|by exists k0, v]|].
      apply andb_true_intro. split; [by destruct (trim (target_text v))|by apply str_mem_true].
Qed.

Lemma guardrail_agrees_witness :
  mg_missingSourceModels (modelMappingGuardrail "{\qa\q: \qb\q}" ["b"])
  = findMissingModelsInMapping "{\qa\q: \qb\q}" ["b"].
Proof.
  assert (JSON_parse "{\qa\q: \qb\q}" = Some (JObj [("a", JStr "b")])) as Hj by (vm_compute; reflexivity).
  assert (plain_mapping [("a", JStr "b")]) as Hp.
  { intros k v [= -> ->]%list_elem_of_singleton. split; [reflexivity|]. exists "b". split; reflexivity. }
  destruct (guardrail_agrees "{\qa\q: \qb\q}" _ ["b"] eq_refl Hj eq_refl) as (_ & _ & _ & H).
  exact (proj1 (H Hp)).
Defined.

(** ** Repairs *)

Lemma with_missing_models data :
  forallb list_name (missing_of data) = true →
  parseModelsString (f_models (with_missing data))
  = str_dedup (parseModelsString (f_models data) ++ missing_of data).
Proof.
  intros Hm. cbn [f_models with_missing set_f_models]. unfold formatModelsArray.
  rewrite parse_join.
  - apply str_dedup_id, str_dedup_nodup.
  - apply forallb_dedup, forallb_dedup. rewrite forallb_app, Hm. by rewrite parse_names.
Qed.

(** When the missing models are names the list can hold, adding them leaves none missing
    and keeps the models in their order; a name with a comma stays missing. *)
Theorem added_models_complete data :
  forallb list_name (missing_of data) = true →
  missing_of (with_missing data) = []
  ∧ ∃ rest, parseModelsString (f_models (with_missing data))
            = str_dedup (parseModelsString (f_models data)) ++ rest.
Proof.
  intros Hm. pose proof (with_missing_models data Hm) as Hw. split.
  - destruct (missing_of (with_missing data)) as [|k l] eqn:E; [done|]. exfalso.
    assert (k ∈ missing_of (with_missing data)) as Hk by (rewrite E; left).
    unfold missing_of in Hk. apply (proj1 (missing_models_exact _ _)) in Hk as [Hkey Hno].
    rewrite Hw in Hno. apply Hno.
    assert (map normalizeModelName (str_dedup (parseModelsString (f_models data) ++ missing_of data))
            = str_dedup (parseModelsString (f_models data) ++ missing_of data)) as ->.
    { apply map_trim_id, forallb_dedup. rewrite forallb_app, Hm. by rewrite parse_names. }
    rewrite str_dedup_elem, elem_of_app.
    destruct (str_mem k (parseModelsString (f_models data))) eqn:Ek; [left; by apply str_mem_true|].
    right. apply str_mem_false in Ek. apply missing_models_exact. split; [exact Hkey|].
    unfold normalizeModelName. rewrite map_trim_id; [done|apply parse_names].
  - rewrite Hw. unfold str_dedup, dedup. apply dedup_prefix.
Qed.

Lemma added_models_complete_witness :
  missing_of (with_missing (transformChannelToFormDefaults sample_stored)) = []
  ∧ missing_of (transformChannelToFormDefaults sample_stored) = ["gpt-5"].
Proof.
  split; [|vm_compute; reflexivity].
  apply (added_models_complete (transformChannelToFormDefaults sample_stored)). vm_compute. reflexivity.
Defined.
