(* ===== verification/SecureVerification.v ===== *)
(** * Secure verification

    [features/auth/secure-verification]: the hook [hooks/use-secure-verification.ts], the
    verification of [api.ts] and the dialog [components/secure-verification-dialog.tsx],
    with [lib/secure-verification.ts].  The hook protects operations it knows nothing
    about; the class [Protected] states what it uses of them.  The answers of the server
    and of the browser's credentials are events; a call that waits for one is an element
    of [vf_calls].  The options of the hook are their defaults. *)
From Stdlib Require Import NArith ZArith.
From stdpp Require Import list numbers.
From S2P Require Import Prelude JsString JsNumber Json.

(** ** Errors *)

(** A value that was thrown: whether it is an [Error], its message, and the status and
    the data of the response it carries. *)
Record Thrown : Type := {
  th_isError : bool;
  th_message : jsstr;
  th_response : option (json * option json)
}.

(** [new Error(message)]. *)
Definition js_error (message : jsstr) : Thrown :=
  {| th_isError := true; th_message := message; th_response := None |}.

(** [error.response?.data?.k]. *)
Definition response_prop (k : jsstr) (e : Thrown) : option json :=
  match th_response e with Some (_, Some (JObj kvs)) => obj_get k kvs | _ => None end.

Definition verification_codes : list jsstr :=
  ["VERIFICATION_REQUIRED"; "VERIFICATION_EXPIRED"; "VERIFICATION_INVALID"].

(** A thrown value that is no object carries no response. *)
Definition isVerificationRequiredError (e : Thrown) : bool :=
  match th_response e with
  | Some (JNum status, _) =>
      num_eqb status (num_of_Z 403)
      && match response_prop "code" e with
         | Some (JStr code) => nonempty code && existsb (str_eqb code) verification_codes
         | _ => false
         end
  | _ => false
  end.

(** The message of [extractVerificationInfo]; [null] and [undefined] take the default. *)
Definition extractVerificationInfo (e : Thrown) : json :=
  match response_prop "message" e with
  | None | Some JNull => JStr "Secure verification is required"
  | Some message => message
  end.

(** ** Methods *)

Inductive VerificationMethod : Type := TwoFA | Passkey.

Definition method_eqb (m m' : VerificationMethod) : bool :=
  match m, m' with TwoFA, TwoFA | Passkey, Passkey => true | _, _ => false end.

Record VerificationMethods : Type := {
  has2FA : bool;
  hasPasskey : bool;
  passkeySupported : bool
}.

Definition defaultMethods : VerificationMethods :=
  {| has2FA := false; hasPasskey := false; passkeySupported := false |}.

(** The answers to [checkVerificationMethods]: whether the two status requests succeeded
    with an enabled method, and the support of the browser; [None] when one failed. *)
Definition checkVerificationMethods (answers : option (bool * bool * (bool * bool) * bool))
    : VerificationMethods :=
  match answers with
  | Some (success2FA, enabled2FA, (successPasskey, enabledPasskey), supported) =>
      {| has2FA := success2FA && enabled2FA; hasPasskey := successPasskey && enabledPasskey;
         passkeySupported := supported |}
  | None => defaultMethods
  end.

Definition availableTabs (methods : VerificationMethods) : list VerificationMethod :=
  (if has2FA methods then [TwoFA] else [])
  ++ (if hasPasskey methods && passkeySupported methods then [Passkey] else []).

Definition canUseMethod (m : VerificationMethod) (methods : VerificationMethods) : bool :=
  match m with
  | TwoFA => has2FA methods
  | Passkey => hasPasskey methods && passkeySupported methods
  end.

Definition recommendedMethod (methods : VerificationMethods) : option VerificationMethod :=
  if hasPasskey methods && passkeySupported methods then Some Passkey
  else if has2FA methods then Some TwoFA else None.

(** ** The steps of a verification *)

(** [verifyTwoFA] posts the code; [verifyPasskey] begins, asks the browser for a
    credential, finishes and completes. *)
Inductive VerifyStep : Type := Post2FA (code : jsstr) | PkBegin | PkCredential | PkFinish | PkComplete.

(** How the request or the prompt of a step settles: with success, refused with a message,
    or by throwing.  [DomError] is a [DOMException] with its name. *)
Inductive StepOutcome : Type :=
| StepOk
| StepRefused (message : option jsstr)
| StepThrows (e : Thrown)
| DomError (name : jsstr) (e : Thrown)
| NoCredential
| NoAssertion.

Definition message_or (message : option jsstr) (d : jsstr) : jsstr :=
  match message with Some m => if nonempty m then m else d | None => d end.

(** The start of [verify]: the first step, or the error that is thrown at once.
    [credentials] is whether the browser has [navigator.credentials]. *)
Definition verify_start (credentials : bool) (m : VerificationMethod) (code : jsstr)
    : VerifyStep + Thrown :=
  match m with
  | TwoFA =>
      if nonempty (trim code) then inl (Post2FA (trim code))
      else inr (js_error "Please enter the verification code or backup code")
  | Passkey =>
      if credentials then inl PkBegin
      else inr (js_error "Passkey verification is not supported in this environment")
  end.

(** The [catch] of [verifyPasskey]. *)
Definition passkey_catch (name : jsstr) (e : Thrown) : Thrown :=
  if str_eqb name "NotAllowedError" then js_error "Passkey verification was cancelled or timed out"
  else if str_eqb name "InvalidStateError"
  then js_error "Passkey verification is not available in the current state"
  else e.

Definition refused_label (s : VerifyStep) : jsstr :=
  match s with
  | Post2FA _ => "Verification failed"
  | PkBegin => "Failed to start verification"
  | PkCredential => "Passkey verification was cancelled"
  | PkFinish => "Passkey verification failed"
  | PkComplete => "Failed to complete verification"
  end.

Definition next_step (s : VerifyStep) : option VerifyStep :=
  match s with
  | Post2FA _ | PkComplete => None
  | PkBegin => Some PkCredential
  | PkCredential => Some PkFinish
  | PkFinish => Some PkComplete
  end.

(** After a step: the next one, the end of the verification, or an error. *)
Inductive StepResult : Type := StepNext (s : VerifyStep) | StepDone | StepError (e : Thrown).

Definition step_result (s : VerifyStep) (o : StepOutcome) : StepResult :=
  match o with
  | StepOk => match next_step s with Some s' => StepNext s' | None => StepDone end
  | StepRefused message => StepError (js_error (message_or message (refused_label s)))
  | StepThrows e => StepError e
  | DomError name e =>
      StepError (match s with Post2FA _ => e | _ => passkey_catch name e end)
  | NoCredential => StepError (js_error "Passkey verification was cancelled")
  | NoAssertion => StepError (js_error "Unable to build Passkey assertion")
  end.

(** ** The hook *)

(** What the hook uses of the operations [A] it protects: starting one changes the
    client's state [C]; its answer [R], or the error of its request, changes it again, and
    the call resolves, or throws an error. *)
Class Protected (A R C : Type) := {
  start_op : A → C → C;
  settle_op : A → R + Thrown → C → C * option Thrown
}.

Record StartVerificationOptions : Type := {
  vo_preferredMethod : option VerificationMethod;
  vo_title : option jsstr;
  vo_description : option jsstr
}.

Inductive VNotice : Type :=
| VEnableMethod
| VNotConfigured
| VSelectMethod
| VInfo (message : json)
| VError (message : jsstr)
| VRethrown (e : Thrown).

Section hook.
Context {A R C : Type} `{Protected A R C}.

Record InternalState : Type := {
  vs_method : option VerificationMethod;
  vs_loading : bool;
  vs_code : jsstr;
  vs_title : option jsstr;
  vs_description : option jsstr;
  vs_apiCall : option A
}.

Definition initialState : InternalState :=
  {| vs_method := None; vs_loading := false; vs_code := []; vs_title := None;
     vs_description := None; vs_apiCall := None |}.

(** The calls that wait: [withVerification] for its operation, [startVerification] and
    the effect of the mount for the methods, [executeVerification] for a step of the
    verification and then for the operation. *)
Inductive VCall : Type :=
| Direct (op : A) (cfg : StartVerificationOptions)
| Checking (op : A) (cfg : StartVerificationOptions)
| Fetching
| Verifying (op : A) (m : VerificationMethod) (s : VerifyStep)
| Running (op : A) (m : VerificationMethod).

Record Verifier : Type := {
  vf_methods : VerificationMethods;
  vf_state : InternalState;
  vf_open : bool;
  vf_calls : list VCall;
  vf_notices : list VNotice;
  vf_client : C
}.

Definition with_vstate (st : InternalState) (v : Verifier) : Verifier :=
  {| vf_methods := vf_methods v; vf_state := st; vf_open := vf_open v; vf_calls := vf_calls v;
     vf_notices := vf_notices v; vf_client := vf_client v |}.
Definition with_vopen (b : bool) (v : Verifier) : Verifier :=
  {| vf_methods := vf_methods v; vf_state := vf_state v; vf_open := b; vf_calls := vf_calls v;
     vf_notices := vf_notices v; vf_client := vf_client v |}.
Definition with_vcalls (calls : list VCall) (v : Verifier) : Verifier :=
  {| vf_methods := vf_methods v; vf_state := vf_state v; vf_open := vf_open v; vf_calls := calls;
     vf_notices := vf_notices v; vf_client := vf_client v |}.
Definition with_client (c : C) (v : Verifier) : Verifier :=
  {| vf_methods := vf_methods v; vf_state := vf_state v; vf_open := vf_open v;
     vf_calls := vf_calls v; vf_notices := vf_notices v; vf_client := c |}.
Definition vnotify (n : VNotice) (v : Verifier) : Verifier :=
  {| vf_methods := vf_methods v; vf_state := vf_state v; vf_open := vf_open v;
     vf_calls := vf_calls v; vf_notices := vf_notices v ++ [n]; vf_client := vf_client v |}.
Definition setMethods (methods : VerificationMethods) (v : Verifier) : Verifier :=
  {| vf_methods := methods; vf_state := vf_state v; vf_open := vf_open v; vf_calls := vf_calls v;
     vf_notices := vf_notices v; vf_client := vf_client v |}.

(** The hook after its mount, which fetches the methods. *)
Definition init_verifier (c : C) : Verifier :=
  {| vf_methods := defaultMethods; vf_state := initialState; vf_open := false;
     vf_calls := [Fetching]; vf_notices := []; vf_client := c |}.

Definition setLoading (b : bool) (v : Verifier) : Verifier :=
  let st := vf_state v in
  with_vstate {| vs_method := vs_method st; vs_loading := b; vs_code := vs_code st;
                 vs_title := vs_title st; vs_description := vs_description st;
                 vs_apiCall := vs_apiCall st |} v.

Definition setCode (code : jsstr) (v : Verifier) : Verifier :=
  let st := vf_state v in
  with_vstate {| vs_method := vs_method st; vs_loading := vs_loading st; vs_code := code;
                 vs_title := vs_title st; vs_description := vs_description st;
                 vs_apiCall := vs_apiCall st |} v.

Definition switchMethod (m : VerificationMethod) (v : Verifier) : Verifier :=
  let st := vf_state v in
  with_vstate {| vs_method := Some m; vs_loading := vs_loading st; vs_code := [];
                 vs_title := vs_title st; vs_description := vs_description st;
                 vs_apiCall := vs_apiCall st |} v.

Definition reset (v : Verifier) : Verifier := with_vopen false (with_vstate initialState v).

Definition add_call (c : VCall) (v : Verifier) : Verifier := with_vcalls (vf_calls v ++ [c]) v.
Definition end_call (i : nat) (v : Verifier) : Verifier := with_vcalls (list_delete i (vf_calls v)) v.
Definition set_call (i : nat) (c : VCall) (v : Verifier) : Verifier :=
  with_vcalls (<[i := c]> (vf_calls v)) v.

(** [withVerification] starts the operation. *)
Definition withVerification (op : A) (cfg : StartVerificationOptions) (v : Verifier) : Verifier :=
  add_call (Direct op cfg) (with_client (start_op op (vf_client v)) v).

(** The method [startVerification] sets. *)
Definition default_method (cfg : StartVerificationOptions) (methods : VerificationMethods)
    : option VerificationMethod :=
  match vo_preferredMethod cfg with
  | Some m => Some m
  | None => recommendedMethod methods
  end.

(** [startVerification] after the methods were fetched. *)
Definition methods_checked (op : A) (cfg : StartVerificationOptions) (methods : VerificationMethods)
    (v : Verifier) : Verifier :=
  if negb (has2FA methods) && negb (hasPasskey methods) then vnotify VEnableMethod v
  else
    let st := vf_state v in
    with_vopen true (with_vstate
      {| vs_method := default_method cfg methods; vs_loading := vs_loading st;
         vs_code := vs_code st; vs_title := vo_title cfg; vs_description := vo_description cfg;
         vs_apiCall := Some op |} v).

(** The [catch] and the [finally] of [executeVerification]. *)
Definition verification_failed (e : Thrown) (v : Verifier) : Verifier :=
  setLoading false
    (vnotify (VError (if th_isError e then th_message e else "Verification failed")) v).

(** [executeVerification] up to its first request. *)
Definition executeVerification (credentials : bool) (method : option VerificationMethod)
    (code : option jsstr) (v : Verifier) : Verifier :=
  let st := vf_state v in
  match vs_apiCall st with
  | None => vnotify VNotConfigured v
  | Some op =>
      match (match method with Some m => Some m | None => vs_method st end) with
      | None => vnotify VSelectMethod v
      | Some m =>
          let v := setLoading true v in
          match verify_start credentials m (default (vs_code st) code) with
          | inl s => add_call (Verifying op m s) v
          | inr e => verification_failed e v
          end
      end
  end.

(** ** The dialog *)

Definition activeMethod (v : Verifier) : option VerificationMethod :=
  match vs_method (vf_state v) with
  | Some m => Some m
  | None => head (availableTabs (vf_methods v))
  end.

Definition handleVerify (credentials : bool) (v : Verifier) : Verifier :=
  match activeMethod v with
  | None => v
  | Some m =>
      executeVerification credentials (Some m)
        (match m with TwoFA => Some (vs_code (vf_state v)) | Passkey => None end) v
  end.

Definition verifyDisabled (v : Verifier) : bool :=
  let st := vf_state v in
  vs_loading st
  || match activeMethod v with
     | Some TwoFA => negb (nonempty (trim (vs_code st))) || (length (vs_code st) <? 6)%nat
     | _ => false
     end.

(** ** Events *)

(** [Invoke] is a use of [withVerification] by the client. *)
Inductive VEvent : Type :=
| Invoke (op : A) (cfg : StartVerificationOptions)
| TypeCode (code : jsstr)
| PickMethod (m : VerificationMethod)
| ClickVerify (credentials : bool)
| CloseDialog
| MethodsArrive (i : nat) (methods : VerificationMethods)
| OpSettles (i : nat) (r : R + Thrown)
| StepSettles (i : nat) (o : StepOutcome).

(** [withVerification] after its operation; another error is thrown to the client. *)
Definition direct_settled (i : nat) (op : A) (cfg : StartVerificationOptions)
    (res : option Thrown) (v : Verifier) : Verifier :=
  match res with
  | Some e =>
      if isVerificationRequiredError e
      then set_call i (Checking op cfg) (vnotify (VInfo (extractVerificationInfo e)) v)
      else end_call i (vnotify (VRethrown e) v)
  | None => end_call i v
  end.

(** [executeVerification] after its operation. *)
Definition run_settled (i : nat) (res : option Thrown) (v : Verifier) : Verifier :=
  match res with
  | Some e => end_call i (verification_failed e v)
  | None => end_call i (setLoading false (reset v))
  end.

(** [executeVerification] after a step of the verification. *)
Definition step_settled (i : nat) (op : A) (m : VerificationMethod) (s : VerifyStep)
    (o : StepOutcome) (v : Verifier) : Verifier :=
  match step_result s o with
  | StepNext s' => set_call i (Verifying op m s') v
  | StepDone => set_call i (Running op m) (with_client (start_op op (vf_client v)) v)
  | StepError e => end_call i (verification_failed e v)
  end.

(** One event, [None] when it cannot happen.  The dialog is modal; the field for the code
    and the button are disabled while the verification runs, but the escape key closes
    the dialog at any time. *)
Definition vstep (e : VEvent) (v : Verifier) : option Verifier :=
  match e with
  | Invoke op cfg => if vf_open v then None else Some (withVerification op cfg v)
  | TypeCode code =>
      if vf_open v && negb (vs_loading (vf_state v)) && (length code <=? 8)%nat
      then Some (setCode code v) else None
  | PickMethod m =>
      if vf_open v && existsb (method_eqb m) (availableTabs (vf_methods v))
      then Some (switchMethod m v) else None
  | ClickVerify credentials =>
      if vf_open v && (0 <? length (availableTabs (vf_methods v)))%nat && negb (verifyDisabled v)
      then Some (handleVerify credentials v) else None
  | CloseDialog => if vf_open v then Some (reset v) else None
  | MethodsArrive i methods =>
      match vf_calls v !! i with
      | Some Fetching => Some (end_call i (setMethods methods v))
      | Some (Checking op cfg) =>
          Some (end_call i (methods_checked op cfg methods (setMethods methods v)))
      | _ => None
      end
  | OpSettles i r =>
      match vf_calls v !! i with
      | Some (Direct op cfg) =>
          let '(c, res) := settle_op op r (vf_client v) in
          Some (direct_settled i op cfg res (with_client c v))
      | Some (Running op m) =>
          let '(c, res) := settle_op op r (vf_client v) in
          Some (run_settled i res (with_client c v))
      | _ => None
      end
  | StepSettles i o =>
      match vf_calls v !! i with
      | Some (Verifying op m s) => Some (step_settled i op m s o v)
      | _ => None
      end
  end.
End hook.

Arguments InternalState : clear implicits.
Arguments VCall : clear implicits.
Arguments Verifier : clear implicits.
Arguments VEvent : clear implicits.
