(* ===== verification/ChannelKey.v ===== *)
(** * The key of a channel

    The part of [features/channels/components/drawers/channel-mutate-drawer.tsx] that
    shows the key of the edited channel: [fetchChannelKey] as an operation protected by
    the hook of [SecureVerification], [handleRevealKey], and the effect that forgets the
    key. *)
From Stdlib Require Import NArith ZArith.
From stdpp Require Import list numbers.
From S2P Require Import Prelude JsString JsNumber Json SecureVerification.

(** The drawer is open for [kp_channelId]; a new channel has none. *)
Record KeyPanel : Type := {
  kp_open : bool;
  kp_channelId : option Z;
  kp_key : option jsstr;
  kp_loading : bool;
  kp_toasts : list jsstr
}.

Definition init_panel : KeyPanel :=
  {| kp_open := false; kp_channelId := None; kp_key := None; kp_loading := false; kp_toasts := [] |}.

Definition with_key (key : option jsstr) (p : KeyPanel) : KeyPanel :=
  {| kp_open := kp_open p; kp_channelId := kp_channelId p; kp_key := key;
     kp_loading := kp_loading p; kp_toasts := kp_toasts p |}.
Definition with_loading (b : bool) (p : KeyPanel) : KeyPanel :=
  {| kp_open := kp_open p; kp_channelId := kp_channelId p; kp_key := kp_key p;
     kp_loading := b; kp_toasts := kp_toasts p |}.
Definition with_toast (t : jsstr) (p : KeyPanel) : KeyPanel :=
  {| kp_open := kp_open p; kp_channelId := kp_channelId p; kp_key := kp_key p;
     kp_loading := kp_loading p; kp_toasts := kp_toasts p ++ [t] |}.

(** The answer of [getChannelKey]: success with a key, or a refusal. *)
Inductive KeyReply : Type := KeyData (key : option jsstr) | KeyRefused (message : option jsstr).

(** [fetchChannelKey] of a channel.  A channel id of 0 is not selected. *)
Definition fetchChannelKey_start (id : Z) (p : KeyPanel) : KeyPanel :=
  if (id =? 0)%Z then p else with_loading true p.

Definition fetchChannelKey_settle (id : Z) (r : KeyReply + Thrown) (p : KeyPanel)
    : KeyPanel * option Thrown :=
  if (id =? 0)%Z then (p, Some (js_error "Channel is not selected"))
  else
    match r with
    | inl (KeyData key) =>
        (with_loading false (with_toast "Channel key unlocked" (with_key (Some (default [] key)) p)), None)
    | inl (KeyRefused message) =>
        (with_loading false p, Some (js_error (message_or message "Failed to fetch channel key")))
    | inr e => (with_loading false p, Some e)
    end.

#[export] Instance channel_key_op : Protected Z KeyReply KeyPanel := {
  start_op := fetchChannelKey_start;
  settle_op := fetchChannelKey_settle
}.

Abbreviation KeyVerifier := (Verifier Z KeyPanel).

Definition reveal_options : StartVerificationOptions :=
  {| vo_preferredMethod := Some Passkey;
     vo_title := Some "Verify to view channel key";
     vo_description := Some
       "Use Passkey or 2FA to confirm your identity before revealing this channel key." |}.

(** [handleRevealKey]; an error other than a request for verification is shown. *)
Definition handleRevealKey (v : KeyVerifier) : KeyVerifier :=
  match kp_channelId (vf_client v) with
  | Some id => if (id =? 0)%Z then v else withVerification id reveal_options v
  | None => v
  end.

(** The effect on [open] and [channelId]. *)
Definition key_effect (p : KeyPanel) : KeyPanel :=
  if negb (kp_open p) then with_loading false (with_key None p)
  else match kp_channelId p with
       | Some id => if (id =? 0)%Z then p else with_key None p
       | None => p
       end.

(** The drawer is opened for a channel, or closed: the effect runs when one of its
    dependencies changed. *)
Definition set_drawer (open : bool) (id : option Z) (p : KeyPanel) : KeyPanel :=
  let p' := {| kp_open := open; kp_channelId := id; kp_key := kp_key p;
               kp_loading := kp_loading p; kp_toasts := kp_toasts p |} in
  if Bool.eqb open (kp_open p)
     && match id, kp_channelId p with
        | Some a, Some b => (a =? b)%Z
        | None, None => true
        | _, _ => false
        end
  then p' else key_effect p'.

(** The button is disabled while a key is fetched or verified. *)
Definition reveal_enabled (v : KeyVerifier) : bool :=
  kp_open (vf_client v) && negb (kp_loading (vf_client v)) && negb (vs_loading (vf_state v))
  && negb (vf_open v).

Inductive KeyEvent : Type :=
| DrawerOpens (id : option Z)
| DrawerCloses
| ClickReveal
| Hook (e : VEvent Z KeyReply).

(** One event; the verification dialog lies over the drawer, and the operation is only
    invoked by the button. *)
Definition key_step (e : KeyEvent) (v : KeyVerifier) : option KeyVerifier :=
  match e with
  | DrawerOpens id =>
      if kp_open (vf_client v) || vf_open v then None
      else Some (with_client (set_drawer true id (vf_client v)) v)
  | DrawerCloses =>
      if kp_open (vf_client v) && negb (vf_open v)
      then Some (with_client (set_drawer false None (vf_client v)) v) else None
  | ClickReveal => if reveal_enabled v then Some (handleRevealKey v) else None
  | Hook (Invoke _ _) => None
  | Hook e => vstep e v
  end.

Fixpoint key_run (es : list KeyEvent) (v : KeyVerifier) : option KeyVerifier :=
  match es with
  | [] => Some v
  | e :: es => match key_step e v with Some v => key_run es v | None => None end
  end.
