(* ===== verification/ChannelKeyTheorems.v ===== *)
(** * Properties of the key of a channel

    When a key appears, that no button stays disabled, and what happens to keys that
    arrive late. *)
From Stdlib Require Import NArith ZArith.
From stdpp Require Import list numbers.
From S2P Require Import Prelude JsString JsNumber Json SecureVerification ChannelKey.

(** ** Calls that hold a button *)

(** A call of [executeVerification], and a call in which the operation runs. *)
Definition executes (c : VCall Z) : bool :=
  match c with Verifying _ _ _ | Running _ _ => true | _ => false end.
Definition fetches (c : VCall Z) : bool :=
  match c with Direct _ _ | Running _ _ => true | _ => false end.

Definition held (v : KeyVerifier) : Prop :=
  (vs_loading (vf_state v) = true → ∃ c, c ∈ vf_calls v ∧ executes c = true)
  ∧ (kp_loading (vf_client v) = true → ∃ c, c ∈ vf_calls v ∧ fetches c = true).

Lemma settle_not_loading id r p : id ≠ 0%Z → kp_loading (fetchChannelKey_settle id r p).1 = false.
Proof.
  intros H. unfold fetchChannelKey_settle. apply Z.eqb_neq in H. rewrite H.
  by destruct r as [[]|].
Qed.

(** The operations of all calls, and the one the dialog is open for, name a channel. *)
Definition call_op (c : VCall Z) : option Z :=
  match c with
  | Direct op _ | Checking op _ | Verifying op _ _ | Running op _ => Some op
  | Fetching => None
  end.

Definition named (v : KeyVerifier) : Prop :=
  vs_apiCall (vf_state v) ≠ Some 0%Z ∧ ∀ c, c ∈ vf_calls v → call_op c ≠ Some 0%Z.

Lemma call_named v i c : named v → vf_calls v !! i = Some c → call_op c ≠ Some 0%Z.
Proof. intros [_ H] Hi. apply H. by eapply list_elem_of_lookup_2. Qed.

Lemma named_calls v v' :
  named v → vs_apiCall (vf_state v') ≠ Some 0%Z →
  (∀ c, c ∈ vf_calls v' → c ∈ vf_calls v ∨ call_op c ≠ Some 0%Z) → named v'.
Proof. intros [Ha Hc] Ha' H. split; [done|]. intros c [?|?]%H; auto. Qed.

Lemma vstep_named e v v' :
  match e with Invoke op _ => op ≠ 0%Z | _ => True end →
  named v → vstep e v = Some v' → named v'.
Proof.
  intros He Hn. pose proof Hn as [Ha Hc]. destruct e as [op cfg|code|m|cr| |i ms|i r|i o]; cbn [vstep].
  - destruct (vf_open v); [done|]. intros [= <-]. eapply named_calls; [exact Hn|exact Ha|]. cbn.
    intros c [?| ->%list_elem_of_singleton]%elem_of_app; [auto|]. right. cbn. congruence.
  - destruct (_ && _); [|done]. by intros [= <-].
  - destruct (_ && _); [|done]. by intros [= <-].
  - destruct (_ && _); [|done]. intros [= <-]. unfold handleVerify, executeVerification.
    destruct (activeMethod v) as [m|]; [|done].
    destruct (vs_apiCall (vf_state v)) as [op|] eqn:Eo; [|by split; cbn; rewrite ?Eo].
    destruct (verify_start _ _ _); (eapply named_calls; [exact Hn|by cbn; rewrite Eo|]); cbn; [|auto].
    intros c [?| ->%list_elem_of_singleton]%elem_of_app; auto.
  - destruct (vf_open v); [|done]. by intros [= <-].
  - destruct (vf_calls v !! i) as [[]|] eqn:Ei; try done; intros [= <-].
    + pose proof (call_named _ _ _ Hn Ei) as Hop. unfold methods_checked.
      destruct (_ && _); (eapply named_calls; [exact Hn|done|]);
        cbn; intros c ?%in_delete; auto.
    + eapply named_calls; [exact Hn|done|]. cbn. intros c ?%in_delete; auto.
  - destruct (vf_calls v !! i) as [[]|] eqn:Ei; try done; pose proof (call_named _ _ _ Hn Ei) as Hop;
      destruct (settle_op _ _ _) as [c' res]; intros [= <-].
    + unfold direct_settled. destruct res as [e|].
      2: { eapply named_calls; [exact Hn|done|]. cbn. intros c ?%in_delete; auto. }
      destruct (isVerificationRequiredError e); (eapply named_calls; [exact Hn|done|]); cbn.
      * intros c [->|?]%in_insert; auto.
      * intros c ?%in_delete; auto.
    + unfold run_settled. destruct res as [e|]; (eapply named_calls; [exact Hn|done|]); cbn;
        intros c ?%in_delete; auto.
  - destruct (vf_calls v !! i) as [[]|] eqn:Ei; try done. pose proof (call_named _ _ _ Hn Ei) as Hop.
    intros [= <-]. unfold step_settled.
    destruct (step_result s o); (eapply named_calls; [exact Hn|done|]); cbn.
    + intros c [->|?]%in_insert; auto.
    + intros c [->|?]%in_insert; auto.
    + intros c ?%in_delete; auto.
Qed.

(** ** No button stays disabled *)

Lemma vstep_held e v v' :
  match e with Invoke op _ => op ≠ 0%Z | _ => True end →
  named v → held v → vstep e v = Some v' → held v'.
Proof.
  intros He Hn [Hx Hf]. destruct e as [op cfg|code|m|cr| |i ms|i r|i o]; cbn [vstep].
  - destruct (vf_open v); [done|]. intros [= <-]. split; cbn; [intros ?; by apply has_app, Hx|].
    intros _. exists (Direct op cfg). rewrite elem_of_app. by split; [right; left|].
  - destruct (_ && _); [|done]. intros [= <-]. by split.
  - destruct (_ && _); [|done]. intros [= <-]. by split.
  - destruct (_ && _); [|done]. intros [= <-]. unfold handleVerify, executeVerification.
    destruct (activeMethod v) as [m|]; [|by split].
    destruct (vs_apiCall (vf_state v)) as [op|]; [|by split].
    destruct (verify_start _ _ _) as [s|e]; [|by split].
    split; cbn; [|intros ?; by apply has_app, Hf]. intros _. exists (Verifying op m s).
    rewrite elem_of_app. by split; [right; left|].
  - destruct (vf_open v); [|done]. intros [= <-]. by split.
  - destruct (vf_calls v !! i) as [[]|] eqn:Ei; try done; intros [= <-]; unfold methods_checked;
      [destruct (_ && _)|]; split; cbn; intros Hl;
      (eapply has_delete; [exact Ei|done|]); auto.
  - destruct (vf_calls v !! i) as [[op cfg|op cfg| |op m s|op m]|] eqn:Ei; try done.
    all: pose proof (call_named _ _ _ Hn Ei) as Hop; cbn in Hop;
      pose proof (settle_not_loading op r (vf_client v) ltac:(congruence)) as Hs;
      cbn [settle_op channel_key_op]; destruct (fetchChannelKey_settle op r (vf_client v)) as [c' res];
      cbn in Hs; intros [= <-].
    + unfold direct_settled. destruct res as [e|]; [destruct (isVerificationRequiredError e)|];
        (split; cbn; intros Hl; [|congruence]).
      * eapply has_replace; [exact Ei|by left|auto].
      * eapply has_delete; [exact Ei|done|auto].
      * eapply has_delete; [exact Ei|done|auto].
    + unfold run_settled. destruct res as [e|]; (split; cbn; intros Hl; congruence).
  - destruct (vf_calls v !! i) as [[]|] eqn:Ei; try done. intros [= <-]. unfold step_settled.
    destruct (step_result s o); split; cbn; intros Hl; try done.
    + by eapply has_insert.
    + eapply has_replace; [exact Ei|by left|auto].
    + by eapply has_insert.
    + by eapply has_insert.
    + eapply has_delete; [exact Ei|done|auto].
Qed.

Lemma key_step_ok e v v' : named v ∧ held v → key_step e v = Some v' → named v' ∧ held v'.
Proof.
  intros [Hn Hh]. destruct e as [id| | |e]; cbn [key_step].
  - destruct (_ || _); [done|]. intros [= <-]. split; [done|]. destruct Hh as [Hx Hf]. split; [done|].
    cbn. unfold set_drawer. destruct (_ && _); cbn; [done|]. unfold key_effect. cbn.
    destruct id as [z|]; [|done]. by destruct (z =? 0)%Z.
  - destruct (_ && _); [|done]. intros [= <-]. split; [done|]. destruct Hh as [Hx Hf]. split; [done|].
    cbn. unfold set_drawer. by destruct (_ && _).
  - unfold reveal_enabled. destruct (vf_open v) eqn:Eo; [by rewrite !andb_false_r|].
    destruct (_ && _); [|done]. intros [= <-]. unfold handleRevealKey.
    destruct (kp_channelId (vf_client v)) as [id|]; [|done]. destruct (Z.eqb_spec id 0) as [|Hz]; [done|].
    assert (vstep (Invoke id reveal_options) v = Some (withVerification id reveal_options v)) as E
      by by cbn; rewrite Eo.
    split; [exact (vstep_named (Invoke id reveal_options) _ _ Hz Hn E)
           |exact (vstep_held (Invoke id reveal_options) _ _ Hz Hn Hh E)].
  - intros E. assert (match e with Invoke op _ => op ≠ 0%Z | _ => True end) as He by by destruct e.
    assert (vstep e v = Some v') as E' by by destruct e.
    exact (conj (vstep_named _ _ _ He Hn E') (vstep_held _ _ _ He Hn Hh E')).
Qed.

Lemma key_reached es v : key_run es (init_verifier init_panel) = Some v → named v ∧ held v.
Proof.
  assert (∀ u, named u ∧ held u → key_run es u = Some v → named v ∧ held v) as H.
  { induction es as [|e es IH]; intros u Hu; cbn; [by intros [= <-]|].
    destruct (key_step e u) eqn:E; [|done]. apply IH. by eapply key_step_ok. }
  apply H. split; [|by split]. split; [done|]. by intros c ->%list_elem_of_singleton.
Qed.

(** In every state the drawer can reach, a button that is disabled because a key is being
    fetched or verified is disabled by a call that still waits, and every waiting call
    fetches the key of a channel. *)
Theorem buttons_held_by_calls es v :
  key_run es (init_verifier init_panel) = Some v →
  (vs_loading (vf_state v) = true → ∃ c, c ∈ vf_calls v ∧ executes c = true)
  ∧ (kp_loading (vf_client v) = true → ∃ c, c ∈ vf_calls v ∧ fetches c = true)
  ∧ ∀ c, c ∈ vf_calls v → call_op c ≠ Some 0%Z.
Proof. intros [[_ Hn] [Hx Hf]]%key_reached. done. Qed.

(** ** When a key appears *)

Lemma set_drawer_key open id p : kp_key (set_drawer open id p) = None ∨ kp_key (set_drawer open id p) = kp_key p.
Proof.
  unfold set_drawer. destruct (_ && _); [by right|]. unfold key_effect. cbn.
  destruct open; [|by left]. destruct id as [z|]; [|by right]. cbn. destruct (z =? 0)%Z; [by right|by left].
Qed.

Lemma settle_key id r p k :
  kp_key (fetchChannelKey_settle id r p).1 = Some k →
  kp_key p = Some k ∨ ∃ key, r = inl (KeyData key) ∧ k = default [] key.
Proof.
  unfold fetchChannelKey_settle. destruct (id =? 0)%Z; [by left|].
  destruct r as [[key|m]|e]; [|by left..]. cbn. intros [= <-]. right. by exists key.
Qed.

Lemma start_key id p : kp_key (fetchChannelKey_start id p) = kp_key p.
Proof. unfold fetchChannelKey_start. by destruct (id =? 0)%Z. Qed.

(** The steps a verification takes, in order. *)
Definition steps_of (m : VerificationMethod) (code : jsstr) : list VerifyStep :=
  match m with
  | TwoFA => [Post2FA code]
  | Passkey => [PkBegin; PkCredential; PkFinish; PkComplete]
  end.

(** [steps_done op m es ss]: in the run [es] the steps [ss] of a verification with the
    method [m] for the operation [op] succeeded one after the other. *)
Inductive steps_done (op : Z) (m : VerificationMethod) : list KeyEvent → list VerifyStep → Prop :=
| done_none es : steps_done op m es []
| done_step es1 es2 w j s ss :
    steps_done op m es1 ss → key_run es1 (init_verifier init_panel) = Some w →
    vf_calls w !! j = Some (Verifying op m s) →
    steps_done op m (es1 ++ Hook (StepSettles j StepOk) :: es2) (ss ++ [s]).

Lemma steps_done_later op m es es' ss : steps_done op m es ss → steps_done op m (es ++ es') ss.
Proof.
  intros [|es1 es2 w j s ss0 H Hw Hj]; [constructor|]. rewrite <- app_assoc. cbn [app].
  by econstructor.
Qed.

(** What the run has done for a call. *)
Definition call_traced (es : list KeyEvent) (c : VCall Z) : Prop :=
  match c with
  | Verifying op m s =>
      ∃ code ss rest, steps_of m code = ss ++ s :: rest ∧ steps_done op m es ss
  | Running op m => ∃ code, steps_done op m es (steps_of m code)
  | Direct _ _ | Checking _ _ | Fetching => True
  end.

Lemma call_traced_later es es' c : call_traced es c → call_traced (es ++ es') c.
Proof.
  destruct c; cbn; try done.
  - intros (code & ss & rest & H & Hd). exists code, ss, rest. by split; [|apply steps_done_later].
  - intros (code & Hd). exists code. by apply steps_done_later.
Qed.

(** The steps follow each other as the code takes them. *)
Lemma steps_next m code ss s rest :
  steps_of m code = ss ++ s :: rest → next_step s = head rest.
Proof.
  destruct m; cbn [steps_of].
  - destruct ss as [|? [|]]; cbn; intros [= <-]; by subst.
  - destruct ss as [|? [|? [|? [|? [|]]]]]; cbn; intros H; by injection H as ?; subst.
Qed.

Lemma start_first credentials m code s :
  verify_start credentials m code = inl s → ∃ code' rest, steps_of m code' = s :: rest.
Proof.
  destruct m; cbn.
  - destruct (nonempty _); [|done]. intros [= <-]. by exists (trim code), [].
  - destruct credentials; [|done]. intros [= <-]. by exists [], [PkCredential; PkFinish; PkComplete].
Qed.

(** How the calls change. *)
Lemma vstep_traced es e v v' :
  key_run es (init_verifier init_panel) = Some v → (∀ c, c ∈ vf_calls v → call_traced es c) →
  vstep e v = Some v' → ∀ c, c ∈ vf_calls v' → call_traced (es ++ [Hook e]) c.
Proof.
  intros Hr Hall Hs c.
  assert (Hold : c ∈ vf_calls v → call_traced (es ++ [Hook e]) c)
    by (intros ?; by apply call_traced_later, Hall).
  revert Hs. destruct e as [op' cfg|code|m'|cr| |i ms|i r|i o]; cbn [vstep].
  - destruct (vf_open v); [done|]. intros [= <-]. cbn.
    intros [?| ->%list_elem_of_singleton]%elem_of_app; [auto|done].
  - destruct (_ && _); [|done]. intros [= <-]. auto.
  - destruct (_ && _); [|done]. intros [= <-]. auto.
  - destruct (_ && _); [|done]. intros [= <-]. unfold handleVerify, executeVerification.
    destruct (activeMethod v) as [m|]; [|auto]. destruct (vs_apiCall (vf_state v)) as [op|]; [|auto].
    destruct (verify_start _ _ _) as [s0|] eqn:Ev; [|auto]. cbn.
    intros [?| ->%list_elem_of_singleton]%elem_of_app; [auto|].
    destruct (start_first _ _ _ _ Ev) as (code & rest & E). exists code, [], rest.
    split; [done|constructor].
  - destruct (vf_open v); [|done]. intros [= <-]. auto.
  - destruct (vf_calls v !! i) as [[]|] eqn:Ei; try done; intros [= <-]; unfold methods_checked;
      [destruct (_ && _)|]; cbn; intros ?%in_delete; auto.
  - destruct (vf_calls v !! i) as [[]|] eqn:Ei; try done;
      destruct (settle_op _ _ _) as [c' res]; intros [= <-];
      unfold direct_settled, run_settled; destruct res as [e|]; try (cbn; intros ?%in_delete; by auto).
    destruct (isVerificationRequiredError e); cbn; [|intros ?%in_delete; by auto].
    intros [->|?]%in_insert; [done|auto].
  - destruct (vf_calls v !! i) as [[| | |op m s|]|] eqn:Ei; try done. intros [= <-]. unfold step_settled.
    assert (Hc : call_traced es (Verifying op m s)) by (apply Hall; by eapply list_elem_of_lookup_2).
    destruct Hc as (code & ss & rest & Hst & Hd). pose proof (steps_next _ _ _ _ _ Hst) as Hn.
    assert (Hd' : o = StepOk → steps_done op m (es ++ [Hook (StepSettles i o)]) (ss ++ [s]))
      by (intros ->; by econstructor).
    destruct (step_result s o) as [s'| |e] eqn:Es; cbn; [| |intros ?%in_delete; by auto];
      (intros [->|?]%in_insert; [|by auto]); unfold step_result in Es; destruct o; try done;
      rewrite Hn in Es; destruct rest as [|s1 rest]; try done.
    + injection Es as <-. exists code, (ss ++ [s]), rest. rewrite <- app_assoc. split; [done|by apply Hd'].
    + exists code. rewrite Hst. by apply Hd'.
Qed.

Lemma vstep_key e v v' k :
  vstep e v = Some v' → kp_key (vf_client v') = Some k →
  kp_key (vf_client v) = Some k
  ∨ ∃ i c key, e = OpSettles i (inl (KeyData key)) ∧ k = default [] key
      ∧ vf_calls v !! i = Some c ∧ fetches c = true.
Proof.
  destruct e as [op' cfg|code|m'|cr| |i ms|i r|i o]; cbn [vstep].
  - destruct (vf_open v); [done|]. intros [= <-]. cbn. rewrite start_key. by left.
  - destruct (_ && _); [|done]. intros [= <-]. by left.
  - destruct (_ && _); [|done]. intros [= <-]. by left.
  - destruct (_ && _); [|done]. intros [= <-]. unfold handleVerify, executeVerification.
    destruct (activeMethod v); [|by left]. destruct (vs_apiCall (vf_state v)); [|by left].
    destruct (verify_start _ _ _); by left.
  - destruct (vf_open v); [|done]. intros [= <-]. by left.
  - destruct (vf_calls v !! i) as [[]|] eqn:Ei; try done; intros [= <-]; unfold methods_checked;
      [destruct (_ && _)|]; by left.
  - destruct (vf_calls v !! i) as [c|] eqn:Ei; [|done]. destruct c as [op cfg| | | |op m]; try done.
    all: cbn [settle_op channel_key_op]; pose proof (settle_key op r (vf_client v) k) as Hk;
      destruct (fetchChannelKey_settle op r (vf_client v)) as [c' res]; cbn in Hk; intros [= <-];
      unfold direct_settled, run_settled; intros Hq;
      assert (kp_key c' = Some k) as Hc
        by (destruct res as [e|]; [try destruct (isVerificationRequiredError e)|]; exact Hq);
      destruct (Hk Hc) as [?|(key & -> & ->)]; [by left|right; eexists i, _, key; by split_and!].
  - destruct (vf_calls v !! i) as [[]|] eqn:Ei; try done. intros [= <-]. unfold step_settled.
    destruct (step_result s o); cbn; rewrite ?start_key; by left.
Qed.

Lemma key_step_traced es e v v' :
  key_run es (init_verifier init_panel) = Some v → (∀ c, c ∈ vf_calls v → call_traced es c) →
  key_step e v = Some v' → ∀ c, c ∈ vf_calls v' → call_traced (es ++ [e]) c.
Proof.
  intros Hr Hall Hs. destruct e as [id| | |e]; cbn [key_step] in Hs.
  - destruct (_ || _); [done|]. injection Hs as <-. intros c Hc. by apply call_traced_later, Hall.
  - destruct (_ && _); [|done]. injection Hs as <-. intros c Hc. by apply call_traced_later, Hall.
  - destruct (reveal_enabled v); [|done]. injection Hs as <-. intros c. unfold handleRevealKey.
    destruct (kp_channelId _); [|intros Hc; by apply call_traced_later, Hall].
    destruct (_ =? 0)%Z; [intros Hc; by apply call_traced_later, Hall|]. cbn.
    intros [Hc| ->%list_elem_of_singleton]%elem_of_app; [by apply call_traced_later, Hall|done].
  - assert (vstep e v = Some v') as E by by destruct e. by eapply vstep_traced.
Qed.

Lemma key_run_snoc es e u v' :
  key_run (es ++ [e]) u = Some v' → ∃ v, key_run es u = Some v ∧ key_step e v = Some v'.
Proof.
  revert u. induction es as [|x es IH]; intros u; cbn [app key_run].
  - destruct (key_step e u) as [w|] eqn:E; [|done]. intros [= <-]. by exists u.
  - destruct (key_step x u); [|done]. apply IH.
Qed.

Lemma calls_traced es v :
  key_run es (init_verifier init_panel) = Some v → ∀ c, c ∈ vf_calls v → call_traced es c.
Proof.
  revert v. induction es as [|e es IH] using rev_ind; intros v.
  - intros [= <-] c. by intros ->%list_elem_of_singleton.
  - intros (u & Hu & Hs)%key_run_snoc. by eapply key_step_traced; [exact Hu|apply IH|exact Hs].
Qed.

(** C10: In every run of the drawer a key appears only as an answer of the server to a fetch
    of the key of one channel.  That fetch was either made without a verification, and the
    server allowed it, or it was made after a verification for this channel all of
    whose steps succeeded in the run, one after the other ([steps_of]): the post of the
    code, or the begin, the credential, the finish and the completion of a passkey. *)
Theorem key_needs_answer es v e v' k :
  key_run es (init_verifier init_panel) = Some v →
  key_step e v = Some v' → kp_key (vf_client v') = Some k → kp_key (vf_client v) ≠ Some k →
  ∃ i key op, e = Hook (OpSettles i (inl (KeyData key))) ∧ k = default [] key
    ∧ ((∃ cfg, vf_calls v !! i = Some (Direct op cfg))
       ∨ ∃ m code, vf_calls v !! i = Some (Running op m) ∧ steps_done op m es (steps_of m code)).
Proof.
  intros Hr Hs Hk Hno. destruct e as [id| | |e]; cbn [key_step] in Hs.
  - destruct (_ || _); [done|]. injection Hs as <-. cbn in Hk.
    destruct (set_drawer_key true id (vf_client v)); congruence.
  - destruct (_ && _); [|done]. injection Hs as <-. cbn in Hk.
    destruct (set_drawer_key false None (vf_client v)); congruence.
  - destruct (reveal_enabled v); [|done]. injection Hs as <-. revert Hk. unfold handleRevealKey.
    destruct (kp_channelId _); [|done]. destruct (_ =? 0)%Z; [done|]. cbn. by rewrite start_key.
  - assert (vstep e v = Some v') as E by by destruct e.
    destruct (vstep_key _ _ _ _ E Hk) as [?|(i & c & key & -> & -> & Hi & Hf)]; [done|].
    destruct c as [op cfg| | | |op m]; try done; exists i, key, op; split_and!; try done; rewrite Hi.
    + left. by exists cfg.
    + right. exists m. destruct (calls_traced _ _ Hr (Running op m)) as [code Hd];
        [by eapply list_elem_of_lookup_2|]. by exists code.
Qed.

(** ** Late answers *)

(** A fetch that settles after the drawer was closed and opened for another channel shows
    its key there. *)
Theorem foreign_key_shown v i a b cfg key :
  kp_open (vf_client v) = true → vf_open v = false →
  vf_calls v !! i = Some (Direct a cfg) → a ≠ 0%Z → b ≠ 0%Z →
  ∃ v', key_run [DrawerCloses; DrawerOpens (Some b); Hook (OpSettles i (inl (KeyData (Some key))))] v = Some v'
    ∧ kp_channelId (vf_client v') = Some b ∧ kp_key (vf_client v') = Some key.
Proof.
  intros Ho Hv Hi Ha Hb. apply Z.eqb_neq in Ha, Hb. cbn [key_run key_step]. rewrite Ho, Hv. cbn [andb negb].
  cbn [vf_client with_client vf_open]. unfold set_drawer at 1 3. rewrite Ho. cbn [Bool.eqb andb].
  unfold key_effect at 1. cbn. rewrite Hv. cbn. rewrite Hi. unfold fetchChannelKey_settle. rewrite Ha.
  eexists. split; [done|]. by rewrite Hb.
Qed.

(** A verification that is cancelled while its last step runs goes on: the key is shown. *)
Theorem cancelled_verification_reveals v i op m s key :
  vf_open v = true → vf_calls v !! i = Some (Verifying op m s) → next_step s = None → op ≠ 0%Z →
  ∃ v', key_run [Hook CloseDialog; Hook (StepSettles i StepOk);
                 Hook (OpSettles i (inl (KeyData (Some key))))] v = Some v'
    ∧ kp_key (vf_client v') = Some key.
Proof.
  intros Ho Hi Hs Hop. apply Z.eqb_neq in Hop. cbn [key_run key_step vstep]. rewrite Ho.
  cbn [reset with_vopen with_vstate vf_calls]. rewrite Hi. unfold step_settled, step_result. rewrite Hs.
  cbn [set_call with_vcalls with_client vf_calls vf_client].
  rewrite list_lookup_insert_eq by by eapply lookup_lt_Some.
  cbn [settle_op channel_key_op]. unfold fetchChannelKey_settle. rewrite Hop. by eexists.
Qed.

(** A user with two-factor codes but no passkey is offered the codes only, and still the
    dialog starts with the passkey, which its button then uses. *)
Theorem reveal_prefers_missing_passkey v i op methods :
  vf_calls v !! i = Some (Checking op reveal_options) → has2FA methods = true →
  hasPasskey methods = false → vs_loading (vf_state v) = false →
  ∃ v', vstep (MethodsArrive i methods) v = Some v'
    ∧ availableTabs (vf_methods v') = [TwoFA] ∧ activeMethod v' = Some Passkey
    ∧ verifyDisabled v' = false.
Proof.
  intros Hi H2 Hp Hl. cbn [vstep]. rewrite Hi. unfold methods_checked. rewrite H2, Hp.
  eexists. split; [done|]. unfold availableTabs, verifyDisabled. cbn. by rewrite H2, Hp, Hl.
Qed.

(** ** Examples *)

Definition key_at (es : list KeyEvent) : KeyVerifier :=
  match key_run es (init_verifier init_panel) with Some v => v | None => init_verifier init_panel end.

Definition needs_verification : Thrown :=
  {| th_isError := true; th_message := "403";
     th_response := Some (JNum (num_of_Z 403), Some (JObj [("code", JStr "VERIFICATION_REQUIRED")])) |}.

(** The key of channel 7 is asked for, the server wants a verification, and a code is
    accepted. *)
Definition sample_reveal : list KeyEvent :=
  [DrawerOpens (Some 7%Z); ClickReveal; Hook (OpSettles 1 (inr needs_verification));
   Hook (MethodsArrive 1 {| has2FA := true; hasPasskey := false; passkeySupported := false |});
   Hook (PickMethod TwoFA); Hook (TypeCode "123456"); Hook (ClickVerify true);
   Hook (StepSettles 1 StepOk)].

Lemma buttons_held_by_calls_witness :
  ∃ c, c ∈ vf_calls (key_at sample_reveal) ∧ executes c = true.
Proof.
  assert (key_run sample_reveal (init_verifier init_panel) = Some (key_at sample_reveal)) as Hr
    by (vm_compute; reflexivity).
  apply (proj1 (buttons_held_by_calls _ _ Hr)). vm_compute. reflexivity.
Defined.

Lemma key_needs_answer_witness :
  ∃ op m code, steps_done op m sample_reveal (steps_of m code).
Proof.
  assert (key_run sample_reveal (init_verifier init_panel) = Some (key_at sample_reveal)) as Hr
    by (vm_compute; reflexivity).
  pose (e := Hook (OpSettles 1 (inl (KeyData (Some "sk"))))).
  assert (key_step e (key_at sample_reveal) = Some (key_at (sample_reveal ++ [e]))) as Hs
    by (vm_compute; reflexivity).
  destruct (key_needs_answer _ _ _ _ "sk" Hr Hs ltac:(vm_compute; reflexivity) ltac:(vm_compute; discriminate))
    as (i & key & op & [= <- _] & _ & [[cfg H]|(m & code & _ & H)]); [|exists op, m, code; exact H].
  exfalso. revert H. vm_compute. discriminate.
Defined.

Lemma foreign_key_shown_witness :
  ∃ v', key_run [DrawerCloses; DrawerOpens (Some 8%Z);
                 Hook (OpSettles 1 (inl (KeyData (Some "sk"))))] (key_at (take 2 sample_reveal)) = Some v'
    ∧ kp_channelId (vf_client v') = Some 8%Z ∧ kp_key (vf_client v') = Some "sk".
Proof.
  apply (foreign_key_shown (key_at (take 2 sample_reveal)) 1 7 8 reveal_options "sk");
    [vm_compute; reflexivity..|discriminate|discriminate].
Defined.
