(* ===== verification/Currency.v ===== *)
(** * Currencies and quotas

    [lib/currency.ts], the quota and number functions of [lib/format.ts], and the part of
    [stores/system-config-store.ts] and [hooks/use-system-config.ts] that keeps the
    currency of the server.  Amounts are binary64 numbers.  [Intl.NumberFormat] belongs to
    the browser and its locale: it is a parameter of the functions that show an amount. *)
From Stdlib Require Import NArith ZArith.
From stdpp Require Import list numbers.
From S2P Require Import Prelude JsString JsNumber JsFloat Json JsArray.

(** ** Configuration *)

(** [quotaDisplayType] is a text the server sends; it is not checked. *)
Record CurrencyConfig : Type := {
  displayInCurrency : bool;
  quotaDisplayType : jsstr;
  quotaPerUnit : number;
  usdExchangeRate : number;
  customCurrencySymbol : jsstr;
  customCurrencyExchangeRate : number
}.

Definition DEFAULT_CURRENCY_CONFIG : CurrencyConfig :=
  {| displayInCurrency := true; quotaDisplayType := "USD"; quotaPerUnit := num_of_Z 500000;
     usdExchangeRate := num_of_Z 1; customCurrencySymbol := [164%N];
     customCurrencyExchangeRate := num_of_Z 1 |}.

Record SystemConfig : Type := {
  systemName : jsstr;
  logo : jsstr;
  footerHtml : option jsstr;
  demoSiteEnabled : option bool;
  displayTokenStatEnabled : option bool;
  sc_currency : CurrencyConfig
}.

Definition DEFAULT_SYSTEM_NAME : jsstr := "ChinAI API".
Definition DEFAULT_LOGO : jsstr := "/logo.png".

Definition initial_config : SystemConfig :=
  {| systemName := DEFAULT_SYSTEM_NAME; logo := DEFAULT_LOGO; footerHtml := None;
     demoSiteEnabled := None; displayTokenStatEnabled := None;
     sc_currency := DEFAULT_CURRENCY_CONFIG |}.

(** The data of [/api/status]; the three numbers may be of any type. *)
Record StatusData : Type := {
  st_system_name : option jsstr;
  st_logo : option jsstr;
  st_footer_html : option jsstr;
  st_demo_site_enabled : option bool;
  st_display_token_stat_enabled : option bool;
  st_display_in_currency : option bool;
  st_quota_display_type : option jsstr;
  st_quota_per_unit : option json;
  st_usd_exchange_rate : option json;
  st_custom_currency_symbol : option jsstr;
  st_custom_currency_exchange_rate : option json
}.

Definition toNumber (value : option json) (fallback : number) : number :=
  match value with
  | Some (JNum x) => if is_nan x then fallback else x
  | Some (JStr s) => let parsed := Number_of_string s in if is_nan parsed then fallback else parsed
  | _ => fallback
  end.

(** [s || d] on a text that may be missing. *)
Definition str_or (s : option jsstr) (d : jsstr) : jsstr :=
  match s with Some s => if nonempty s then s else d | None => d end.

(** [{}] is [None]: nothing is changed. *)
Definition mapStatusDataToConfig (data : option StatusData) : option SystemConfig :=
  match data with
  | None => None
  | Some d =>
      let dflt := DEFAULT_CURRENCY_CONFIG in
      Some {| systemName := str_or (st_system_name d) DEFAULT_SYSTEM_NAME;
              logo := str_or (st_logo d) DEFAULT_LOGO;
              footerHtml := st_footer_html d;
              demoSiteEnabled := st_demo_site_enabled d;
              displayTokenStatEnabled := st_display_token_stat_enabled d;
              sc_currency :=
                {| displayInCurrency := default (displayInCurrency dflt) (st_display_in_currency d);
                   quotaDisplayType := default (quotaDisplayType dflt) (st_quota_display_type d);
                   quotaPerUnit := toNumber (st_quota_per_unit d) (quotaPerUnit dflt);
                   usdExchangeRate := toNumber (st_usd_exchange_rate d) (usdExchangeRate dflt);
                   customCurrencySymbol :=
                     str_or (trim <$> st_custom_currency_symbol d) (customCurrencySymbol dflt);
                   customCurrencyExchangeRate :=
                     toNumber (st_custom_currency_exchange_rate d) (customCurrencyExchangeRate dflt) |} |}
  end.

Definition setConfig (newConfig : option SystemConfig) (config : SystemConfig) : SystemConfig :=
  match newConfig with Some c => c | None => config end.

(** ** What is shown *)

Definition DISPLAY_TYPE_VALUES : list jsstr := ["USD"; "CNY"; "TOKENS"; "CUSTOM"].

Definition isCurrencyDisplayType (value : json) : bool :=
  match value with JStr s => str_mem s DISPLAY_TYPE_VALUES | _ => false end.

Definition parseCurrencyDisplayType (value : json) (fallback : jsstr) : jsstr :=
  match value with JStr s => if str_mem s DISPLAY_TYPE_VALUES then s else fallback | _ => fallback end.

(** [x && x > 0 ? x : d]. *)
Definition positive_or (x d : number) : number :=
  if num_truthy x && num_ltb zero x then x else d.

Definition getConfig (currency : CurrencyConfig) : CurrencyConfig :=
  let dflt := DEFAULT_CURRENCY_CONFIG in
  {| displayInCurrency := displayInCurrency currency;
     quotaDisplayType := quotaDisplayType currency;
     quotaPerUnit := positive_or (quotaPerUnit currency) (quotaPerUnit dflt);
     usdExchangeRate := positive_or (usdExchangeRate currency) (usdExchangeRate dflt);
     customCurrencySymbol :=
       str_or (Some (trim (customCurrencySymbol currency))) (customCurrencySymbol dflt);
     customCurrencyExchangeRate :=
       positive_or (customCurrencyExchangeRate currency) (customCurrencyExchangeRate dflt) |}.

Inductive DisplayMeta : Type :=
| MetaCurrency (symbol currencyCode : jsstr) (exchangeRate : number)
| MetaCustom (symbol : jsstr) (exchangeRate : number)
| MetaTokens (quotaPerUnit : number).

Definition USD_meta : DisplayMeta := MetaCurrency "$" "USD" (num_of_Z 1).

Definition getDisplayMeta (config : CurrencyConfig) : DisplayMeta :=
  let t := quotaDisplayType config in
  if str_eqb t "CNY" then MetaCurrency [165%N] "CNY" (usdExchangeRate config)
  else if str_eqb t "CUSTOM"
  then MetaCustom (customCurrencySymbol config) (customCurrencyExchangeRate config)
  else if str_eqb t "TOKENS" then MetaTokens (quotaPerUnit config)
  else USD_meta.

Definition getBillingDisplayMeta (config : CurrencyConfig) : DisplayMeta :=
  match getDisplayMeta config with MetaTokens _ => USD_meta | meta => meta end.

Definition getCurrencyDisplay (currency : CurrencyConfig) : CurrencyConfig * DisplayMeta :=
  let config := getConfig currency in (config, getDisplayMeta config).

Definition getCurrencyLabel (currency : CurrencyConfig) : jsstr :=
  let '(config, meta) := getCurrencyDisplay currency in
  match meta with
  | MetaTokens _ => "Tokens"
  | _ =>
      if str_eqb (quotaDisplayType config) "CNY" then "CNY"
      else if str_eqb (quotaDisplayType config) "CUSTOM"
      then match meta with MetaCustom symbol _ => symbol | _ => "Custom" end
      else "USD"
  end.

Definition isCurrencyDisplayEnabled (currency : CurrencyConfig) : bool :=
  match (getCurrencyDisplay currency).2 with MetaTokens _ => false | _ => true end.

(** ** Texts of amounts *)

Record CurrencyFormatOptions : Type := {
  digitsLarge : option nat;
  digitsSmall : option nat;
  abbreviate : option bool;
  minimumNonZero : option number
}.

Record MergedOptions : Type := {
  mo_digitsLarge : nat;
  mo_digitsSmall : nat;
  mo_abbreviate : bool;
  mo_minimumNonZero : number
}.

Definition DEFAULT_FORMAT_OPTIONS : MergedOptions :=
  {| mo_digitsLarge := 2; mo_digitsSmall := 4; mo_abbreviate := true; mo_minimumNonZero := zero |}.

Definition mergeOptions (options : option CurrencyFormatOptions) : MergedOptions :=
  match options with
  | None => DEFAULT_FORMAT_OPTIONS
  | Some o =>
      {| mo_digitsLarge := default (mo_digitsLarge DEFAULT_FORMAT_OPTIONS) (digitsLarge o);
         mo_digitsSmall := default (mo_digitsSmall DEFAULT_FORMAT_OPTIONS) (digitsSmall o);
         mo_abbreviate := default (mo_abbreviate DEFAULT_FORMAT_OPTIONS) (abbreviate o);
         mo_minimumNonZero := default (mo_minimumNonZero DEFAULT_FORMAT_OPTIONS) (minimumNonZero o) |}
  end.

Definition is_zero_digit (c : N) : bool := (c =? 48)%N.

(** The text without the zeros at its end. *)
Definition drop_zeros (s : jsstr) : jsstr :=
  rev ((fix go (s : jsstr) := match s with
                              | c :: r => if is_zero_digit c then go r else s
                              | [] => []
                              end) (rev s)).

(** [s.replace(/(\.[0-9]*?)0+$/, '$1')]: the zeros at the end of the digits after a point;
    only the last point is followed by digits up to the end. *)
Fixpoint cut_fraction (s : jsstr) : jsstr :=
  match s with
  | [] => []
  | c :: r => if (c =? 46)%N && forallb is_digit r then c :: drop_zeros r else c :: cut_fraction r
  end.

(** [s.replace(/\.$/, '')]. *)
Definition cut_point (s : jsstr) : jsstr :=
  match rev s with c :: r => if (c =? 46)%N then rev r else s | [] => s end.

Definition removeTrailingZeros (str : jsstr) : jsstr :=
  if includes "." str then cut_point (cut_fraction str) else str.

Definition formatNumberWithSuffix (value : number) (large small : nat) (abbr : bool) : jsstr :=
  let abs := num_abs value in
  if abbr && num_leb (num_of_Z 1000) abs
  then removeTrailingZeros (toFixed (num_div value (num_of_Z 1000)) 1) ++ "k"
  else removeTrailingZeros (toFixed value (if num_leb (num_of_Z 1) abs then large else small)).

(** [Math.pow(10, -digits)], correctly rounded. *)
Definition pow10_neg (digits : nat) : number := num_of_decimal false 1 (- Z.of_nat digits).

Definition num_opp (x : number) : number := SpecFloat.SFopp x.

Definition adjustForMinimum (value : number) (digits : nat) (minimum : number) : number :=
  if num_eqb value zero then value
  else
    let threshold := if num_ltb zero minimum then minimum else pow10_neg digits in
    let abs := num_abs value in
    if num_ltb zero abs && num_ltb abs threshold
    then if num_ltb zero value then threshold else num_opp threshold
    else value.

Section amounts.
(** [Intl.NumberFormat] for a currency code and for a plain number, with the largest count
    of digits after the point. *)
Context (currency_text : jsstr → nat → number → jsstr) (decimal_text : nat → number → jsstr).
Context (currency : CurrencyConfig).

Definition formatCurrencyValue (value : number) (options : MergedOptions) (meta : DisplayMeta) : jsstr :=
  match meta with
  | MetaTokens _ =>
      formatNumberWithSuffix value (mo_digitsLarge options) (mo_digitsSmall options)
        (mo_abbreviate options)
  | _ =>
      let digits := if num_leb (num_of_Z 1) (num_abs value) then mo_digitsLarge options
                    else mo_digitsSmall options in
      let adjustedValue := adjustForMinimum value digits (mo_minimumNonZero options) in
      match meta with
      | MetaCurrency _ code _ => currency_text code digits adjustedValue
      | MetaCustom symbol _ => symbol ++ " " ++ decimal_text digits adjustedValue
      | MetaTokens _ => []
      end
  end.

Definition formatCurrencyFromUSD (amountUSD : option number) (options : option CurrencyFormatOptions)
    : jsstr :=
  match amountUSD with
  | Some amount =>
      if is_nan amount then "-"
      else
        let '(config, meta) := getCurrencyDisplay currency in
        let merged := mergeOptions options in
        match meta with
        | MetaTokens _ =>
            formatNumberWithSuffix (num_mul amount (quotaPerUnit config)) 0 (mo_digitsSmall merged)
              (mo_abbreviate merged)
        | MetaCurrency _ _ rate | MetaCustom _ rate =>
            formatCurrencyValue (num_mul amount rate) merged meta
        end
  | None => "-"
  end.

Definition formatBillingCurrencyFromUSD (amountUSD : option number)
    (options : option CurrencyFormatOptions) : jsstr :=
  match amountUSD with
  | Some amount =>
      if is_nan amount then "-"
      else
        let meta := getBillingDisplayMeta (getCurrencyDisplay currency).1 in
        let value := match meta with
                     | MetaCurrency _ _ rate | MetaCustom _ rate => num_mul amount rate
                     | MetaTokens _ => amount
                     end in
        formatCurrencyValue value (mergeOptions options) meta
  | None => "-"
  end.

Definition formatQuotaWithCurrency (quota : option number) (options : option CurrencyFormatOptions)
    : jsstr :=
  match quota with
  | Some q =>
      if is_nan q then "-"
      else formatCurrencyFromUSD
             (Some (num_div q (quotaPerUnit (getCurrencyDisplay currency).1))) options
  | None => "-"
  end.

Definition formatLocalCurrencyAmount (amount : option number) (options : option CurrencyFormatOptions)
    : jsstr :=
  match amount with
  | Some a =>
      if is_nan a then "-"
      else formatCurrencyValue a (mergeOptions options)
             (getBillingDisplayMeta (getCurrencyDisplay currency).1)
  | None => "-"
  end.

Definition formatQuota (quota : number) : jsstr :=
  formatQuotaWithCurrency (Some quota)
    (Some {| digitsLarge := Some 2; digitsSmall := Some 4; abbreviate := Some true;
             minimumNonZero := None |}).

Definition formatLogQuota (quota : number) : jsstr :=
  formatQuotaWithCurrency (Some quota)
    (Some {| digitsLarge := Some 4; digitsSmall := Some 6; abbreviate := Some false;
             minimumNonZero := None |}).

(** ** Quotas and displayed amounts *)

Definition display_rate (meta : DisplayMeta) : number :=
  match meta with
  | MetaCurrency _ _ rate | MetaCustom _ rate => rate
  | MetaTokens _ => num_of_Z 1
  end.

Definition parseQuotaFromDollars (amount : number) : number :=
  if negb (isFinite amount) then zero
  else
    let '(config, meta) := getCurrencyDisplay currency in
    match meta with
    | MetaTokens _ => Math_round amount
    | _ =>
        let exchangeRate := display_rate meta in
        let usdAmount := if num_ltb zero exchangeRate then num_div amount exchangeRate else amount in
        Math_round (num_mul usdAmount (quotaPerUnit config))
    end.

Definition quotaUnitsToDollars (units : number) : number :=
  let '(config, meta) := getCurrencyDisplay currency in
  match meta with
  | MetaTokens _ => units
  | _ => num_mul (num_div units (quotaPerUnit config)) (display_rate meta)
  end.
End amounts.

(** ** Other numbers *)

Definition formatTokens (tokens : number) : jsstr :=
  if num_eqb tokens zero then "-"
  else if num_ltb tokens (num_of_Z 1000) then Number_toString tokens
  else if num_ltb tokens (num_of_Z 1000000) then toFixed (num_div tokens (num_of_Z 1000)) 1 ++ "K"
  else toFixed (num_div tokens (num_of_Z 1000000)) 2 ++ "M".

(** The documented examples of [formatCurrencyFromUSD] for tokens and for a custom
    currency: the code abbreviates thousands, and writes a space after the symbol. *)
Example documented_examples :
  let tokens := {| displayInCurrency := true; quotaDisplayType := "TOKENS";
    quotaPerUnit := num_of_Z 500000; usdExchangeRate := num_of_Z 1;
    customCurrencySymbol := "E"; customCurrencyExchangeRate := num_of_decimal false 9 (-1) |} in
  let custom := {| displayInCurrency := true; quotaDisplayType := "CUSTOM";
    quotaPerUnit := num_of_Z 500000; usdExchangeRate := num_of_Z 1;
    customCurrencySymbol := "E"; customCurrencyExchangeRate := num_of_decimal false 9 (-1) |} in
  let text := λ d x, removeTrailingZeros (toFixed x d) in
  formatCurrencyFromUSD (λ _, text) text tokens (Some (num_of_Z 10)) None = "5000k"
  ∧ formatCurrencyFromUSD (λ _, text) text custom (Some (num_of_Z 10)) None = "E 9".
Proof. split; vm_compute; reflexivity. Qed.
