(* ===== verification/ApiKeyForm.v ===== *)
(** * API keys

    [features/keys/lib/api-key-form.ts]: the form of an API key, its checks, the payload
    it is saved as, and the values an existing key opens with.  A date is its time in
    milliseconds. *)
From Stdlib Require Import NArith ZArith.
From stdpp Require Import list numbers.
From S2P Require Import Prelude JsString JsNumber JsFloat Json JsArray Currency.

Record ApiKey : Type := {
  ak_id : number;
  ak_name : jsstr;
  ak_key : jsstr;
  ak_status : number;
  ak_remain_quota : number;
  ak_used_quota : number;
  ak_unlimited_quota : bool;
  ak_expired_time : number;
  ak_created_time : number;
  ak_accessed_time : number;
  ak_group : option jsstr;
  ak_cross_group_retry : bool;
  ak_model_limits_enabled : bool;
  ak_model_limits : option jsstr;
  ak_allow_ips : option jsstr
}.

Record ApiKeyFormValues : Type := {
  kf_name : jsstr;
  kf_remain_quota_dollars : option number;
  kf_expired_time : option number;
  kf_unlimited_quota : bool;
  kf_model_limits : list jsstr;
  kf_allow_ips : option jsstr;
  kf_group : option jsstr;
  kf_cross_group_retry : option bool;
  kf_tokenCount : option number
}.

Definition DEFAULT_GROUP : jsstr := [].

(** The fields [getApiKeyFormSchema] reports; dates and numbers have to be valid. *)
Definition key_form_errors (data : ApiKeyFormValues) : list jsstr :=
  (if nonempty (kf_name data) then [] else ["name"])
  ++ (if from_option isFinite true (kf_remain_quota_dollars data) then [] else ["remain_quota_dollars"])
  ++ (if from_option is_nan false (kf_expired_time data) then ["expired_time"] else [])
  ++ (if from_option (λ n, isFinite n && num_leb (num_of_Z 1) n) true (kf_tokenCount data)
      then [] else ["tokenCount"])
  ++ (if kf_unlimited_quota data then []
      else match kf_remain_quota_dollars data with
           | Some q => if num_ltb q zero then ["remain_quota_dollars"] else []
           | None => ["remain_quota_dollars"]
           end).

Definition API_KEY_FORM_DEFAULT_VALUES : ApiKeyFormValues :=
  {| kf_name := []; kf_remain_quota_dollars := Some (num_of_Z 10); kf_expired_time := None;
     kf_unlimited_quota := true; kf_model_limits := []; kf_allow_ips := Some [];
     kf_group := Some DEFAULT_GROUP; kf_cross_group_retry := Some true;
     kf_tokenCount := Some (num_of_Z 1) |}.

Definition getApiKeyFormDefaultValues (defaultUseAutoGroup : bool) : ApiKeyFormValues :=
  let d := API_KEY_FORM_DEFAULT_VALUES in
  {| kf_name := kf_name d; kf_remain_quota_dollars := kf_remain_quota_dollars d;
     kf_expired_time := kf_expired_time d; kf_unlimited_quota := kf_unlimited_quota d;
     kf_model_limits := kf_model_limits d; kf_allow_ips := kf_allow_ips d;
     kf_group := Some (if defaultUseAutoGroup then "auto" else DEFAULT_GROUP);
     kf_cross_group_retry := Some defaultUseAutoGroup; kf_tokenCount := kf_tokenCount d |}.

Record ApiKeyFormData : Type := {
  kp_name : jsstr;
  kp_remain_quota : number;
  kp_expired_time : number;
  kp_unlimited_quota : bool;
  kp_model_limits_enabled : bool;
  kp_model_limits : jsstr;
  kp_allow_ips : jsstr;
  kp_group : jsstr;
  kp_cross_group_retry : bool
}.

(** [Math.floor(date.getTime() / 1000)]. *)
Definition unix_seconds (date : number) : number := Math_floor (num_div date (num_of_Z 1000)).

(** [new Date(seconds * 1000)]. *)
Definition date_of_seconds (seconds : number) : number := js_date (num_mul seconds (num_of_Z 1000)).

Definition transformFormDataToPayload (currency : CurrencyConfig) (data : ApiKeyFormValues)
    : ApiKeyFormData :=
  {| kp_name := kf_name data;
     kp_remain_quota :=
       if kf_unlimited_quota data then zero
       else parseQuotaFromDollars currency (num_or (default zero (kf_remain_quota_dollars data)) zero);
     kp_expired_time :=
       match kf_expired_time data with Some date => unix_seconds date | None => num_of_Z (-1) end;
     kp_unlimited_quota := kf_unlimited_quota data;
     kp_model_limits_enabled := (0 <? length (kf_model_limits data))%nat;
     kp_model_limits := join "," (kf_model_limits data);
     kp_allow_ips := default [] (kf_allow_ips data);
     kp_group := default [] (kf_group data);
     kp_cross_group_retry :=
       match kf_group data with
       | Some g => if str_eqb g "auto" then default false (kf_cross_group_retry data) else false
       | None => false
       end |}.

Definition transformApiKeyToFormDefaults (currency : CurrencyConfig) (apiKey : ApiKey)
    : ApiKeyFormValues :=
  {| kf_name := ak_name apiKey;
     kf_remain_quota_dollars :=
       Some (if ak_unlimited_quota apiKey then zero
             else quotaUnitsToDollars currency (ak_remain_quota apiKey));
     kf_expired_time :=
       if num_ltb zero (ak_expired_time apiKey) then Some (date_of_seconds (ak_expired_time apiKey))
       else None;
     kf_unlimited_quota := ak_unlimited_quota apiKey;
     kf_model_limits :=
       match ak_model_limits apiKey with
       | Some s => if nonempty s then List.filter nonempty (split_char 44 s) else []
       | None => []
       end;
     kf_allow_ips := Some (str_or (ak_allow_ips apiKey) []);
     kf_group := Some (str_or (ak_group apiKey) DEFAULT_GROUP);
     kf_cross_group_retry := Some (ak_cross_group_retry apiKey);
     kf_tokenCount := Some (num_of_Z 1) |}.
