(* ===== verification/RedemptionForm.v ===== *)
(** * Redemption codes

    [features/redemption-codes/lib/redemption-form.ts]: the form of a redemption code, its
    checks, the payload and the values an existing code opens with. *)
From Stdlib Require Import NArith ZArith.
From stdpp Require Import list numbers.
From S2P Require Import Prelude JsString JsNumber JsFloat Json Currency ApiKeyForm.

Record Redemption : Type := {
  rd_id : number;
  rd_user_id : number;
  rd_name : jsstr;
  rd_key : jsstr;
  rd_status : number;
  rd_quota : number;
  rd_created_time : number;
  rd_redeemed_time : number;
  rd_expired_time : number;
  rd_used_user_id : number
}.

Record RedemptionFormValues : Type := {
  rf_name : jsstr;
  rf_quota_dollars : number;
  rf_expired_time : option number;
  rf_count : option number
}.

Definition NAME_MIN_LENGTH : nat := 1.
Definition NAME_MAX_LENGTH : nat := 20.
Definition COUNT_MIN : number := num_of_Z 1.
Definition COUNT_MAX : number := num_of_Z 100.

(** The fields [getRedemptionFormSchema] reports. *)
Definition redemption_form_errors (data : RedemptionFormValues) : list jsstr :=
  (if (NAME_MIN_LENGTH <=? length (rf_name data))%nat && (length (rf_name data) <=? NAME_MAX_LENGTH)%nat
   then [] else ["name"])
  ++ (if isFinite (rf_quota_dollars data) && num_leb zero (rf_quota_dollars data) then [] else ["quota_dollars"])
  ++ (if from_option is_nan false (rf_expired_time data) then ["expired_time"] else [])
  ++ (if from_option (λ n, isFinite n && num_leb COUNT_MIN n && num_leb n COUNT_MAX) true (rf_count data)
      then [] else ["count"]).

Definition REDEMPTION_FORM_DEFAULT_VALUES : RedemptionFormValues :=
  {| rf_name := []; rf_quota_dollars := num_of_Z 10; rf_expired_time := None;
     rf_count := Some (num_of_Z 1) |}.

Record RedemptionFormData : Type := {
  rp_name : jsstr;
  rp_quota : number;
  rp_expired_time : number;
  rp_count : number
}.

Definition transformFormDataToPayload (currency : CurrencyConfig) (data : RedemptionFormValues)
    : RedemptionFormData :=
  {| rp_name := rf_name data;
     rp_quota := parseQuotaFromDollars currency (rf_quota_dollars data);
     rp_expired_time :=
       match rf_expired_time data with Some date => unix_seconds date | None => zero end;
     rp_count := num_or (default zero (rf_count data)) (num_of_Z 1) |}.

Definition transformRedemptionToFormDefaults (currency : CurrencyConfig) (redemption : Redemption)
    : RedemptionFormValues :=
  {| rf_name := rd_name redemption;
     rf_quota_dollars := quotaUnitsToDollars currency (rd_quota redemption);
     rf_expired_time :=
       if num_ltb zero (rd_expired_time redemption)
       then Some (date_of_seconds (rd_expired_time redemption)) else None;
     rf_count := Some (num_of_Z 1) |}.
