(* ===== verification/PlanForm.v ===== *)
(** * Subscription plans

    [features/subscriptions/lib/plan-form.ts]: the form of a plan and its payload.  The
    schema converts the inputs of numbers; the values here are the converted ones. *)
From Stdlib Require Import NArith ZArith.
From stdpp Require Import list numbers.
From S2P Require Import Prelude JsString JsNumber JsFloat Json JsArray Currency.

(** The fields of a plan that the form has; the texts that may be missing are options. *)
Record SubscriptionPlan : Type := {
  sp_title : jsstr;
  sp_subtitle : option jsstr;
  sp_price_amount : number;
  sp_currency : jsstr;
  sp_duration_unit : jsstr;
  sp_duration_value : number;
  sp_custom_seconds : option number;
  sp_quota_reset_period : jsstr;
  sp_quota_reset_custom_seconds : option number;
  sp_enabled : bool;
  sp_sort_order : number;
  sp_allow_balance_pay : option bool;
  sp_max_purchase_per_user : number;
  sp_total_amount : number;
  sp_upgrade_group : option jsstr;
  sp_stripe_price_id : option jsstr;
  sp_creem_product_id : option jsstr;
  sp_waffo_pancake_product_id : option jsstr
}.

Record PlanFormValues : Type := {
  pf_title : jsstr;
  pf_subtitle : option jsstr;
  pf_price_amount : number;
  pf_duration_unit : jsstr;
  pf_duration_value : number;
  pf_custom_seconds : option number;
  pf_quota_reset_period : jsstr;
  pf_quota_reset_custom_seconds : option number;
  pf_enabled : bool;
  pf_sort_order : number;
  pf_allow_balance_pay : bool;
  pf_max_purchase_per_user : number;
  pf_total_amount : number;
  pf_upgrade_group : option jsstr;
  pf_stripe_price_id : option jsstr;
  pf_creem_product_id : option jsstr;
  pf_waffo_pancake_product_id : option jsstr
}.

(** [z.coerce.number().min(least)] after the conversion. *)
Definition number_from (least x : number) : bool := isFinite x && num_leb least x.
Definition opt_number_from (least : number) (x : option number) : bool :=
  from_option (number_from least) true x.

(** The fields [getPlanFormSchema] reports. *)
Definition plan_form_errors (v : PlanFormValues) : list jsstr :=
  let check := λ (name : jsstr) (ok : bool), if ok then [] else [name] in
  check "title" (nonempty (pf_title v))
  ++ check "price_amount" (number_from zero (pf_price_amount v))
  ++ check "duration_unit" (str_mem (pf_duration_unit v) ["year"; "month"; "day"; "hour"; "custom"])
  ++ check "duration_value" (number_from (num_of_Z 1) (pf_duration_value v))
  ++ check "custom_seconds" (opt_number_from zero (pf_custom_seconds v))
  ++ check "quota_reset_period"
       (str_mem (pf_quota_reset_period v) ["never"; "daily"; "weekly"; "monthly"; "custom"])
  ++ check "quota_reset_custom_seconds" (opt_number_from zero (pf_quota_reset_custom_seconds v))
  ++ check "sort_order" (isFinite (pf_sort_order v))
  ++ check "max_purchase_per_user" (number_from zero (pf_max_purchase_per_user v))
  ++ check "total_amount" (number_from zero (pf_total_amount v)).

Definition PLAN_FORM_DEFAULTS : PlanFormValues :=
  {| pf_title := []; pf_subtitle := Some []; pf_price_amount := zero; pf_duration_unit := "month";
     pf_duration_value := num_of_Z 1; pf_custom_seconds := Some zero;
     pf_quota_reset_period := "never"; pf_quota_reset_custom_seconds := Some zero;
     pf_enabled := true; pf_sort_order := zero; pf_allow_balance_pay := true;
     pf_max_purchase_per_user := zero; pf_total_amount := zero; pf_upgrade_group := Some [];
     pf_stripe_price_id := Some []; pf_creem_product_id := Some [];
     pf_waffo_pancake_product_id := Some [] |}.

Definition opt_or_zero (x : option number) : number := num_or (default zero x) zero.
Definition opt_text (s : option jsstr) : option jsstr := Some (str_or s []).

Definition planToFormValues (currency : CurrencyConfig) (plan : SubscriptionPlan) : PlanFormValues :=
  {| pf_title := sp_title plan; pf_subtitle := opt_text (sp_subtitle plan);
     pf_price_amount := num_or (sp_price_amount plan) zero;
     pf_duration_unit := str_or (Some (sp_duration_unit plan)) "month";
     pf_duration_value := num_or (sp_duration_value plan) (num_of_Z 1);
     pf_custom_seconds := Some (opt_or_zero (sp_custom_seconds plan));
     pf_quota_reset_period := str_or (Some (sp_quota_reset_period plan)) "never";
     pf_quota_reset_custom_seconds := Some (opt_or_zero (sp_quota_reset_custom_seconds plan));
     pf_enabled := sp_enabled plan;
     pf_sort_order := num_or (sp_sort_order plan) zero;
     pf_allow_balance_pay := default true (sp_allow_balance_pay plan);
     pf_max_purchase_per_user := num_or (sp_max_purchase_per_user plan) zero;
     pf_total_amount := quotaUnitsToDollars currency (num_or (sp_total_amount plan) zero);
     pf_upgrade_group := opt_text (sp_upgrade_group plan);
     pf_stripe_price_id := opt_text (sp_stripe_price_id plan);
     pf_creem_product_id := opt_text (sp_creem_product_id plan);
     pf_waffo_pancake_product_id := opt_text (sp_waffo_pancake_product_id plan) |}.

Definition formValuesToPlanPayload (currency : CurrencyConfig) (values : PlanFormValues)
    : SubscriptionPlan :=
  {| sp_title := pf_title values; sp_subtitle := pf_subtitle values;
     sp_price_amount := num_or (pf_price_amount values) zero; sp_currency := "USD";
     sp_duration_unit := pf_duration_unit values;
     sp_duration_value := num_or (pf_duration_value values) zero;
     sp_custom_seconds := Some (opt_or_zero (pf_custom_seconds values));
     sp_quota_reset_period := str_or (Some (pf_quota_reset_period values)) "never";
     sp_quota_reset_custom_seconds :=
       Some (if str_eqb (pf_quota_reset_period values) "custom"
             then opt_or_zero (pf_quota_reset_custom_seconds values) else zero);
     sp_enabled := pf_enabled values;
     sp_sort_order := num_or (pf_sort_order values) zero;
     sp_allow_balance_pay := Some (pf_allow_balance_pay values);
     sp_max_purchase_per_user := num_or (pf_max_purchase_per_user values) zero;
     sp_total_amount := parseQuotaFromDollars currency (num_or (pf_total_amount values) zero);
     sp_upgrade_group := opt_text (pf_upgrade_group values);
     sp_stripe_price_id := pf_stripe_price_id values;
     sp_creem_product_id := pf_creem_product_id values;
     sp_waffo_pancake_product_id := pf_waffo_pancake_product_id values |}.
