(* ===== verification/UserQuota.v ===== *)
(** * Users

    [features/users/lib/user-form.ts], the form of a user, and
    [features/users/components/user-quota-dialog.tsx], the dialog that adds to, subtracts
    from or replaces the quota of a user.  The answers of the server are events. *)
From Stdlib Require Import NArith ZArith.
From stdpp Require Import list numbers.
From S2P Require Import Prelude JsString Regex JsNumber JsFloat Json JsArray BillingExpr Pricing Currency.

(** ** The form *)

Record User : Type := {
  us_id : number;
  us_username : jsstr;
  us_display_name : jsstr;
  us_quota : number;
  us_group : jsstr;
  us_role : number;
  us_remark : option jsstr
}.

Record UserFormValues : Type := {
  uf_username : jsstr;
  uf_display_name : option jsstr;
  uf_password : option jsstr;
  uf_role : option number;
  uf_quota_dollars : option number;
  uf_group : option jsstr;
  uf_remark : option jsstr
}.

Definition DEFAULT_GROUP : jsstr := "default".

(** The fields [userFormSchema] reports. *)
Definition user_form_errors (v : UserFormValues) : list jsstr :=
  (if nonempty (uf_username v) then [] else ["username"])
  ++ (if from_option isFinite true (uf_role v) then [] else ["role"])
  ++ (if from_option (λ q, isFinite q && num_leb zero q) true (uf_quota_dollars v) then [] else ["quota_dollars"]).

Definition USER_FORM_DEFAULT_VALUES : UserFormValues :=
  {| uf_username := []; uf_display_name := Some []; uf_password := Some [];
     uf_role := Some (num_of_Z 1); uf_quota_dollars := Some zero; uf_group := Some DEFAULT_GROUP;
     uf_remark := Some [] |}.

(** The payload: [up_group] and [up_remark] are sent for an update only, [up_role] for a
    new user only; the quota is not part of it. *)
Record UserFormData : Type := {
  up_id : option number;
  up_username : jsstr;
  up_display_name : jsstr;
  up_password : option jsstr;
  up_role : option number;
  up_group : option jsstr;
  up_remark : option jsstr
}.

(** [s || undefined]. *)
Definition opt_nonempty (s : option jsstr) : option jsstr :=
  match s with Some s => if nonempty s then Some s else None | None => None end.

Definition transformFormDataToPayload (data : UserFormValues) (userId : option number) : UserFormData :=
  {| up_id := userId; up_username := uf_username data;
     up_display_name := str_or (uf_display_name data) (uf_username data);
     up_password := opt_nonempty (uf_password data);
     up_role := match userId with
                | None => Some (num_or (default zero (uf_role data)) (num_of_Z 1))
                | Some _ => None
                end;
     up_group := match userId with None => None | Some _ => uf_group data end;
     up_remark := match userId with None => None | Some _ => opt_nonempty (uf_remark data) end |}.

Definition transformUserToFormDefaults (currency : CurrencyConfig) (user : User) : UserFormValues :=
  {| uf_username := us_username user; uf_display_name := Some (us_display_name user);
     uf_password := Some []; uf_role := Some (us_role user);
     uf_quota_dollars := Some (quotaUnitsToDollars currency (us_quota user));
     uf_group := Some (str_or (Some (us_group user)) DEFAULT_GROUP);
     uf_remark := Some (str_or (us_remark user) []) |}.

(** ** The dialog of the quota *)

Inductive QuotaAdjustMode : Type := ModeAdd | ModeSubtract | ModeOverride.

Definition is_override (m : QuotaAdjustMode) : bool :=
  match m with ModeOverride => true | _ => false end.

Inductive AdjustNotice : Type := AdjustDone | AdjustFailed (message : jsstr).

(** [qd_pending] are the requests that wait for their answer, [qd_sent] all that were sent. *)
Record QuotaDialog : Type := {
  qd_open : bool;
  qd_mode : QuotaAdjustMode;
  qd_amount : jsstr;
  qd_loading : bool;
  qd_pending : nat;
  qd_sent : list (QuotaAdjustMode * number);
  qd_notices : list AdjustNotice
}.

Definition init_quota_dialog : QuotaDialog :=
  {| qd_open := false; qd_mode := ModeAdd; qd_amount := []; qd_loading := false; qd_pending := 0;
     qd_sent := []; qd_notices := [] |}.

Section dialog.
Context (currency : CurrencyConfig).

Definition amountValue (d : QuotaDialog) : number := num_or (parseFloat (qd_amount d)) zero.

Definition quotaValue (d : QuotaDialog) : number :=
  parseQuotaFromDollars currency (num_abs (amountValue d)).

(** [handleConfirm] up to its request. *)
Definition handleConfirm (d : QuotaDialog) : QuotaDialog :=
  if negb (nonempty (qd_amount d)) && negb (is_override (qd_mode d)) then d
  else if num_leb (quotaValue d) zero && negb (is_override (qd_mode d)) then d
  else
    let value := if is_override (qd_mode d) then parseQuotaFromDollars currency (amountValue d)
                 else quotaValue d in
    {| qd_open := qd_open d; qd_mode := qd_mode d; qd_amount := qd_amount d; qd_loading := true;
       qd_pending := S (qd_pending d);
       qd_sent := qd_sent d ++ [(qd_mode d, if is_override (qd_mode d) then value else num_abs value)];
       qd_notices := qd_notices d |}.

(** The answer: stored, refused, or failed with an error that has a message or none. *)
Inductive AdjustReply : Type :=
| AdjustStored
| AdjustRefused (message : option jsstr)
| AdjustThrown (message : option jsstr).

Definition adjust_settled (r : AdjustReply) (d : QuotaDialog) : QuotaDialog :=
  match r with
  | AdjustStored =>
      {| qd_open := false; qd_mode := ModeAdd; qd_amount := []; qd_loading := false;
         qd_pending := pred (qd_pending d); qd_sent := qd_sent d;
         qd_notices := qd_notices d ++ [AdjustDone] |}
  | AdjustRefused message =>
      {| qd_open := qd_open d; qd_mode := qd_mode d; qd_amount := qd_amount d; qd_loading := false;
         qd_pending := pred (qd_pending d); qd_sent := qd_sent d;
         qd_notices := qd_notices d ++ [AdjustFailed (str_or message "Failed to adjust quota")] |}
  | AdjustThrown message =>
      {| qd_open := qd_open d; qd_mode := qd_mode d; qd_amount := qd_amount d; qd_loading := false;
         qd_pending := pred (qd_pending d); qd_sent := qd_sent d;
         qd_notices := qd_notices d ++ [AdjustFailed (default "Failed to adjust quota" message)] |}
  end.

Definition set_open (b : bool) (d : QuotaDialog) : QuotaDialog :=
  {| qd_open := b; qd_mode := qd_mode d; qd_amount := qd_amount d; qd_loading := qd_loading d;
     qd_pending := qd_pending d; qd_sent := qd_sent d; qd_notices := qd_notices d |}.

Definition set_input (m : QuotaAdjustMode) (amount : jsstr) (d : QuotaDialog) : QuotaDialog :=
  {| qd_open := qd_open d; qd_mode := m; qd_amount := amount; qd_loading := qd_loading d;
     qd_pending := qd_pending d; qd_sent := qd_sent d; qd_notices := qd_notices d |}.

Definition handleCancel (d : QuotaDialog) : QuotaDialog := set_open false (set_input ModeAdd [] d).

(** [PressEnter] is the enter key in the input, [DismissDialog] the escape key. *)
Inductive AdjustEvent : Type :=
| OpenDialog
| PickMode (m : QuotaAdjustMode)
| TypeAmount (amount : jsstr)
| PressEnter
| ClickConfirm
| ClickCancel
| DismissDialog
| Answered (r : AdjustReply).

(** One event, [None] when it cannot happen: the button is disabled while a request runs,
    the input is not. *)
Definition adjust_step (e : AdjustEvent) (d : QuotaDialog) : option QuotaDialog :=
  match e with
  | OpenDialog => if qd_open d then None else Some (set_open true d)
  | PickMode m => if qd_open d then Some (set_input m [] d) else None
  | TypeAmount amount => if qd_open d then Some (set_input (qd_mode d) amount d) else None
  | PressEnter => if qd_open d then Some (handleConfirm d) else None
  | ClickConfirm => if qd_open d && negb (qd_loading d) then Some (handleConfirm d) else None
  | ClickCancel => if qd_open d then Some (handleCancel d) else None
  | DismissDialog => if qd_open d then Some (set_open false d) else None
  | Answered r => if (0 <? qd_pending d)%nat then Some (adjust_settled r d) else None
  end.

Fixpoint adjust_run (es : list AdjustEvent) (d : QuotaDialog) : option QuotaDialog :=
  match es with
  | [] => Some d
  | e :: es => match adjust_step e d with Some d => adjust_run es d | None => None end
  end.
End dialog.
