(* ===== verification/QuotaTheorems.v ===== *)
(** * Theorems on quotas

    A quota shown in the configured currency and read back is the same quota, although
    both directions round; the forms of [ApiKeyForm], [RedemptionForm] and [PlanForm]
    therefore keep the quotas nobody edits, and [UserQuota] sends what was entered. *)
From Stdlib Require Import NArith ZArith Reals Lra Lia SpecFloat.
From stdpp Require Import list numbers.
From S2P Require Import Prelude JsString JsNumber JsFloat Json JsArray Pricing Currency ApiKeyForm RedemptionForm PlanForm UserQuota.

(** ** Several roundings *)

Definition within (k : nat) (x v : R) : Prop := (v * (1 - eps) ^ k <= x <= v * (1 + eps) ^ k)%R.

Lemma eps_small : (0 < eps < / 1000)%R.
Proof.
  unfold eps, bpow. split; [apply powerRZ_lt; lra|]. simpl. lra.
Qed.

Lemma within_step k x v y : (0 < v)%R → within k x v → close y x → within (S k) (num_value y) v.
Proof.
  intros Hv [H1 H2] [H3 H4]. pose proof eps_small as He. split; simpl.
  - apply (Rle_trans _ (x * (1 - eps))); [|done].
    replace (v * ((1 - eps) * (1 - eps) ^ k))%R with (v * (1 - eps) ^ k * (1 - eps))%R by ring.
    apply Rmult_le_compat_r; lra.
  - apply (Rle_trans _ (x * (1 + eps))); [done|].
    replace (v * ((1 + eps) * (1 + eps) ^ k))%R with (v * (1 + eps) ^ k * (1 + eps))%R by ring.
    apply Rmult_le_compat_r; lra.
Qed.

Lemma within_scale k x v c : (0 < c)%R → within k x v → within k (x * c) (v * c).
Proof.
  intros Hc [H1 H2]. split.
  - replace (v * c * (1 - eps) ^ k)%R with (v * (1 - eps) ^ k * c)%R by ring.
    apply Rmult_le_compat_r; lra.
  - replace (v * c * (1 + eps) ^ k)%R with (v * (1 + eps) ^ k * c)%R by ring.
    apply Rmult_le_compat_r; lra.
Qed.

Lemma within_div k x v c : (0 < c)%R → within k x v → within k (x / c) (v / c).
Proof. intros Hc H. apply within_scale; [by apply Rinv_0_lt_compat|done]. Qed.

Lemma within_exact v : within 0 v v.
Proof. split; simpl; lra. Qed.

(** Four roundings stay within one half of an integer below [2^48]. *)
Lemma four_roundings z x :
  (0 < z < 2 ^ 48)%Z → within 4 x (IZR z) → (IZR z - / 2 < x < IZR z + / 2)%R.
Proof.
  intros Hz [H1 H2]. pose proof eps_small as He.
  assert (Hs : (IZR z * eps < / 16)%R).
  { assert (Hlt : (IZR z < bpow 48)%R) by (rewrite bpow_Z by lia; apply IZR_lt; lia).
    assert (E : (bpow 48 * eps = / 16)%R).
    { unfold eps. rewrite <- bpow_add. simpl. lra. }
    rewrite <- E. apply Rmult_lt_compat_r; lra. }
  assert (Hz0 : (0 < IZR z)%R) by (apply IZR_lt; lia).
  assert (L : (1 - 4 * eps <= (1 - eps) ^ 4)%R) by (simpl; nra).
  assert (U : ((1 + eps) ^ 4 <= 1 + 5 * eps)%R) by (simpl; nra).
  split.
  - apply (Rlt_le_trans _ (IZR z * (1 - 4 * eps))); [lra|]. apply (Rle_trans _ (IZR z * (1 - eps) ^ 4)); [|done].
    apply Rmult_le_compat_l; lra.
  - apply (Rle_lt_trans _ (IZR z * (1 + eps) ^ 4)); [done|].
    apply (Rle_lt_trans _ (IZR z * (1 + 5 * eps))); [apply Rmult_le_compat_l; lra|lra].
Qed.

(** ** Rates *)

(** A positive rate in a wide range around 1, from [2^-148] to [2^253]. *)
Definition rate_ok (x : number) : bool :=
  match x with
  | S754_finite false m e => SpecFloat.bounded prec emax m e && (-200 <=? e)%Z && (e <=? 200)%Z
  | _ => false
  end.

Lemma rate_normal x : rate_ok x = true → normal (-200) 200 x.
Proof.
  destruct x as [| | |[] m e]; try done. cbn [rate_ok]. intros H.
  apply andb_prop in H as [H H3]. apply andb_prop in H as [H H2].
  apply Z.leb_le in H2, H3. unfold SpecFloat.bounded, SpecFloat.canonical_mantissa in H.
  apply andb_prop in H as [H _]. apply Z.eqb_eq in H.
  unfold SpecFloat.fexp, SpecFloat.emin, prec, emax in H.
  assert (Hd : SpecFloat.Zdigits2 (Zpos m) = 53%Z) by (simpl; lia).
  destruct (digits2_bounds (Zpos m)) as (_ & Hb); [lia|]. rewrite Hd in Hb.
  exists m, e. split; [done|]. split; [exact Hb|lia].
Qed.

Lemma normal_finite lo hi x : normal lo hi x → isFinite x = true ∧ num_ltb zero x = true.
Proof. by intros (m & e & -> & _). Qed.

(** The two directions for one rate. *)
Lemma rate_roundtrip q r u :
  rate_ok q = true → rate_ok r = true → (0 ≤ u < 2 ^ 48)%Z →
  let shown := num_mul (num_div (num_of_Z u) q) r in
  isFinite shown = true ∧ num_or shown zero = shown
  ∧ Math_round (num_mul (num_div shown r) q) = num_of_Z u.
Proof.
  intros Hq%rate_normal Hr%rate_normal Hu. cbv zeta.
  pose proof (normal_value _ _ _ Hq) as Vq. pose proof (normal_value _ _ _ Hr) as Vr.
  destruct (decide (u = 0%Z)) as [->|Hne].
  { destruct Hq as (mq & eq & -> & _), Hr as (mr & er & -> & _). done. }
  assert (Hn : normal (-52) 0 (num_of_Z u)) by (apply num_of_Z_normal; lia).
  assert (Vu : num_value (num_of_Z u) = IZR u) by (apply num_of_Z_value; lia).
  assert (Pu : (0 < IZR u)%R) by (apply IZR_lt; lia).
  destruct (num_div_near _ _ _ _ _ _ Hn Hq) as [N1 C1]; [lia..|].
  destruct (num_mul_near _ _ _ _ _ _ N1 Hr) as [N2 C2]; [lia..|].
  destruct (num_div_near _ _ _ _ _ _ N2 Hr) as [N3 C3]; [lia..|].
  destruct (num_mul_near _ _ _ _ _ _ N3 Hq) as [N4 C4]; [lia..|].
  split; [by apply normal_finite in N2 as [? _]|].
  split; [by destruct N2 as (? & ? & -> & _)|].
  rewrite Vu in C1. set (v := (IZR u / num_value q)%R) in *.
  assert (Pv : (0 < v)%R) by (by apply Rdiv_lt_0_compat).
  pose proof (within_step 0 v v _ Pv (within_exact v) C1) as W1.
  pose proof (within_step 1 _ _ _ (Rmult_lt_0_compat _ _ Pv Vr) (within_scale 1 _ _ _ Vr W1) C2) as W2.
  apply (within_div 2 _ _ _ Vr) in W2. replace (v * num_value r / num_value r)%R with v in W2 by (field; lra).
  pose proof (within_step 2 _ _ _ Pv W2 C3) as W3. apply (within_scale 3 _ _ _ Vq) in W3.
  replace (v * num_value q)%R with (IZR u) in W3 by (unfold v; field; lra).
  pose proof (within_step 3 _ _ _ Pu W3 C4) as W4.
  eapply Math_round_near; [exact N4|lia|]. apply four_roundings; [lia|done].
Qed.

(** The rates the display uses: those of the configuration, or the defaults where they are
    not positive. *)
Definition rates_ok (currency : CurrencyConfig) : bool :=
  let c := getConfig currency in
  rate_ok (quotaPerUnit c) && rate_ok (usdExchangeRate c) && rate_ok (customCurrencyExchangeRate c).

Lemma rate_one : rate_ok (num_of_Z 1) = true.
Proof. by vm_compute. Qed.

Lemma display_rate_ok currency :
  rates_ok currency = true →
  rate_ok (quotaPerUnit (getConfig currency)) = true
  ∧ rate_ok (display_rate (getDisplayMeta (getConfig currency))) = true.
Proof.
  unfold rates_ok. intros H. apply andb_prop in H as [H H3]. apply andb_prop in H as [H1 H2].
  split; [done|]. unfold getDisplayMeta.
  destruct (str_eqb _ "CNY"); [done|]. destruct (str_eqb _ "CUSTOM"); [done|].
  by destruct (str_eqb _ "TOKENS").
Qed.

Lemma shown_quota currency u :
  rates_ok currency = true → (0 ≤ u < 2 ^ 48)%Z →
  let shown := quotaUnitsToDollars currency (num_of_Z u) in
  num_or shown zero = shown ∧ parseQuotaFromDollars currency shown = num_of_Z u.
Proof.
  intros Hc Hu. apply display_rate_ok in Hc as [Hq Hr].
  unfold quotaUnitsToDollars, parseQuotaFromDollars, getCurrencyDisplay.
  destruct (rate_roundtrip _ _ u Hq Hr Hu) as (Hf & Ho & Hx). cbv zeta in *.
  destruct (normal_finite _ _ _ (rate_normal _ Hr)) as [_ Hp].
  destruct (getDisplayMeta (getConfig currency)) as [s code rate|s rate|per] eqn:E;
    cbn [display_rate] in *.
  1,2: by rewrite Hf, Hp; cbn [negb].
  assert (isFinite (num_of_Z u) = true) as ->
    by (destruct (decide (u = 0%Z)) as [->|]; [done|]; rewrite num_of_Z_int by lia; done).
  split; [|apply Math_round_int; lia].
  destruct (decide (u = 0%Z)) as [->|]; [done|]. by rewrite num_of_Z_int by lia.
Qed.

(** C11: A quota that is shown in the configured currency and read back is the same quota.
    Four roundings of binary64 numbers lie between; the quota is a whole number below
    [2^48], and the rates may be anything from [2^-148] to [2^253]. *)
Theorem quota_roundtrip currency u :
  rates_ok currency = true → (0 ≤ u < 2 ^ 48)%Z →
  parseQuotaFromDollars currency (quotaUnitsToDollars currency (num_of_Z u)) = num_of_Z u.
Proof. intros Hc Hu. by destruct (shown_quota currency u Hc Hu). Qed.

(** Seven yuan for a dollar. *)
Definition yuan : CurrencyConfig :=
  {| displayInCurrency := true; quotaDisplayType := "CNY"; quotaPerUnit := num_of_Z 500000;
     usdExchangeRate := num_of_decimal false 73 (-1); customCurrencySymbol := [];
     customCurrencyExchangeRate := zero |}.

Lemma quota_roundtrip_witness :
  Number_toString (quotaUnitsToDollars yuan (num_of_Z 1234567)) = "18.0246782"
  ∧ parseQuotaFromDollars yuan (quotaUnitsToDollars yuan (num_of_Z 1234567)) = num_of_Z 1234567.
Proof. split; [vm_compute; reflexivity|]. apply (quota_roundtrip yuan 1234567); [vm_compute; reflexivity|lia]. Defined.

(** Zero in place of a missing or zero amount changes nothing. *)
Lemma shown_or_zero currency u :
  rates_ok currency = true → (0 ≤ u < 2 ^ 48)%Z →
  parseQuotaFromDollars currency (num_or (quotaUnitsToDollars currency (num_of_Z u)) zero) = num_of_Z u.
Proof. intros Hc Hu. by destruct (shown_quota currency u Hc Hu) as [-> ->]. Qed.

(** ** Forms *)

Lemma seconds_kept t :
  (0 < t <= 8640000000000)%Z →
  num_ltb zero (num_of_Z t) = true ∧ unix_seconds (date_of_seconds (num_of_Z t)) = num_of_Z t.
Proof. intros Ht. split; [apply num_ltb_zero_int; lia|by apply date_seconds]. Qed.

(** A time of the server: none, or seconds a date can hold. *)
Definition time_ok (none : Z) (x : number) : Prop :=
  x = num_of_Z none ∨ ∃ t, (0 < t <= 8640000000000)%Z ∧ x = num_of_Z t.

Definition quota_ok (x : number) : Prop := ∃ u, (0 ≤ u < 2 ^ 48)%Z ∧ x = num_of_Z u.

(** A list of names without empty ones. *)
Definition names_ok (s : jsstr) : Prop := s = [] ∨ forallb nonempty (split_char 44 s) = true.

Lemma names_kept s :
  names_ok s →
  let names := if nonempty s then List.filter nonempty (split_char 44 s) else [] in
  join "," names = s ∧ (0 <? length names)%nat = nonempty s.
Proof.
  intros [->|H]; [done|]. destruct (nonempty s) eqn:E; cbv zeta.
  - rewrite filterb_all by done. split; [apply join_split|].
    pose proof (split_char_ne 44 s). by destruct (split_char 44 s).
  - by destruct s.
Qed.

(** The payload that leaves a key as it is. *)
Definition kept_payload (k : ApiKey) : ApiKeyFormData :=
  {| kp_name := ak_name k;
     kp_remain_quota := if ak_unlimited_quota k then zero else ak_remain_quota k;
     kp_expired_time := ak_expired_time k;
     kp_unlimited_quota := ak_unlimited_quota k;
     kp_model_limits_enabled := nonempty (default [] (ak_model_limits k));
     kp_model_limits := default [] (ak_model_limits k);
     kp_allow_ips := default [] (ak_allow_ips k);
     kp_group := default [] (ak_group k);
     kp_cross_group_retry := str_eqb (default [] (ak_group k)) "auto" && ak_cross_group_retry k |}.

Lemma str_or_empty s : str_or s [] = default [] s.
Proof. destruct s as [[]|]; done. Qed.


Definition sample_key : ApiKey :=
  {| ak_id := num_of_Z 3; ak_name := "k"; ak_key := "sk"; ak_status := num_of_Z 1;
     ak_remain_quota := num_of_Z 1234567; ak_used_quota := zero; ak_unlimited_quota := false;
     ak_expired_time := num_of_Z 1767225600; ak_created_time := zero; ak_accessed_time := zero;
     ak_group := Some "vip"; ak_cross_group_retry := true; ak_model_limits_enabled := true;
     ak_model_limits := Some "gpt-4,gpt-5"; ak_allow_ips := None |}.


(** Limits that are stored but not enabled are enabled by saving the key. *)
Theorem disabled_limits_enabled currency k s :
  ak_model_limits_enabled k = false → ak_model_limits k = Some s → nonempty s = true → names_ok s →
  kp_model_limits_enabled
    (ApiKeyForm.transformFormDataToPayload currency (transformApiKeyToFormDefaults currency k)) = true.
Proof.
  intros _ Hs Hne Hn. destruct (names_kept s Hn) as [_ E]. cbv zeta in E.
  unfold ApiKeyForm.transformFormDataToPayload, transformApiKeyToFormDefaults.
  cbn [kp_model_limits_enabled kf_model_limits]. by rewrite Hs, E.
Qed.

(** A redemption code that is opened and saved keeps its quota and its time. *)
Theorem edited_redemption_kept currency r :
  rates_ok currency = true → quota_ok (rd_quota r) → time_ok 0 (rd_expired_time r) →
  RedemptionForm.transformFormDataToPayload currency (transformRedemptionToFormDefaults currency r)
  = {| rp_name := rd_name r; rp_quota := rd_quota r; rp_expired_time := rd_expired_time r;
       rp_count := num_of_Z 1 |}.
Proof.
  intros Hc (u & Hu & Eu) Ht. unfold RedemptionForm.transformFormDataToPayload, transformRedemptionToFormDefaults.
  cbn [rf_name rf_quota_dollars rf_expired_time rf_count]. rewrite Eu. f_equal.
  - by destruct (shown_quota currency u Hc Hu).
  - destruct Ht as [->|(t & Ht & ->)]; [done|]. by destruct (seconds_kept t Ht) as [-> ->].
Qed.

(** A plan that is opened and saved keeps its quota; the seconds of a custom reset are
    dropped when the reset is not custom. *)
Theorem edited_plan_kept currency p :
  rates_ok currency = true → quota_ok (sp_total_amount p) →
  let p' := formValuesToPlanPayload currency (planToFormValues currency p) in
  sp_total_amount p' = sp_total_amount p
  ∧ sp_title p' = sp_title p ∧ sp_price_amount p' = num_or (sp_price_amount p) zero
  ∧ (str_eqb (sp_quota_reset_period p) "custom" = false →
     sp_quota_reset_custom_seconds p' = Some zero).
Proof.
  intros Hc (u & Hu & Eu). cbv zeta. unfold formValuesToPlanPayload, planToFormValues.
  cbn [pf_total_amount pf_title pf_price_amount pf_quota_reset_period pf_quota_reset_custom_seconds
       sp_total_amount sp_title sp_price_amount sp_quota_reset_custom_seconds].
  rewrite Eu, num_or_idem. split_and!; [|done|done|].
  - assert (num_or (num_of_Z u) zero = num_of_Z u) as ->
      by (destruct (decide (u = 0%Z)) as [->|]; [done|]; by rewrite num_of_Z_int by lia).
    by apply shown_or_zero.
  - unfold str_or. destruct (sp_quota_reset_period p) as [|c l]; [done|]. cbn [nonempty]. by intros ->.
Qed.

(** ** The dialog of the quota *)

(** The value a text asks for. *)
Definition entered (currency : CurrencyConfig) (m : QuotaAdjustMode) (text : jsstr) : number :=
  let x := num_or (parseFloat text) zero in
  if is_override m then parseQuotaFromDollars currency x
  else num_abs (parseQuotaFromDollars currency (num_abs x)).

Definition sent_ok (currency : CurrencyConfig) (req : QuotaAdjustMode * number) : Prop :=
  (∃ text, req.2 = entered currency req.1 text) ∧ (is_override req.1 = false → num_leb req.2 zero = false).

Lemma abs_not_below x : num_leb x zero = false → num_leb (num_abs x) zero = false.
Proof. by destruct x as [[]|[]| |[] m e]. Qed.

Lemma handleConfirm_sent currency d :
  Forall (sent_ok currency) (qd_sent d) → Forall (sent_ok currency) (qd_sent (handleConfirm currency d)).
Proof.
  intros H. unfold handleConfirm. destruct (negb _ && negb _); [done|].
  destruct (num_leb (quotaValue currency d) zero && negb (is_override (qd_mode d))) eqn:E; [done|].
  apply Forall_app_2; [done|]. apply Forall_singleton. split; cbn [fst snd].
  - exists (qd_amount d). unfold entered, quotaValue, amountValue. by destruct (is_override (qd_mode d)).
  - intros Ho. rewrite Ho in *. rewrite andb_true_r in E. by apply abs_not_below.
Qed.

(** Every adjustment that is sent has the value of a text that was entered; what is added
    or subtracted is never zero or less. *)
Theorem adjustments_entered currency es d :
  adjust_run currency es init_quota_dialog = Some d → Forall (sent_ok currency) (qd_sent d).
Proof.
  assert (G : ∀ es d0, Forall (sent_ok currency) (qd_sent d0) →
              adjust_run currency es d0 = Some d → Forall (sent_ok currency) (qd_sent d)).
  { clear es. intros es. induction es as [|e es IH]; intros d0 H0 Hr; [by injection Hr as <-|].
    cbn [adjust_run] in Hr. destruct (adjust_step currency e d0) as [d1|] eqn:E; [|done].
    apply (IH d1); [|done]. clear IH Hr.
    destruct e; cbn [adjust_step] in E; repeat case_match; simplify_eq; try done;
      try (by apply handleConfirm_sent). by destruct r. }
  apply G. constructor.
Qed.

(** The enter key is not disabled while a request runs: pressed twice, it adds twice. *)
Theorem enter_sends_twice currency d :
  qd_open d = true → nonempty (qd_amount d) = true → num_leb (quotaValue currency d) zero = false →
  ∃ d', adjust_run currency [PressEnter; PressEnter] d = Some d'
    ∧ qd_sent d' = qd_sent d ++ [(qd_mode d, entered currency (qd_mode d) (qd_amount d));
                                (qd_mode d, entered currency (qd_mode d) (qd_amount d))].
Proof.
  intros Ho Hn Hq. eexists. cbn [adjust_run adjust_step].
  assert (E : ∀ d0, qd_amount d0 = qd_amount d → handleConfirm currency d0
    = {| qd_open := qd_open d0; qd_mode := qd_mode d0; qd_amount := qd_amount d0; qd_loading := true;
         qd_pending := S (qd_pending d0);
         qd_sent := qd_sent d0 ++ [(qd_mode d0, entered currency (qd_mode d0) (qd_amount d0))];
         qd_notices := qd_notices d0 |}).
  { intros d0 E. unfold handleConfirm. rewrite E, Hn. cbn [negb andb].
    unfold quotaValue, amountValue in *. rewrite E, Hq. cbn [andb]. unfold entered.
    by destruct (is_override (qd_mode d0)). }
  rewrite Ho, !E by done. cbn [qd_open]. rewrite Ho. split; [reflexivity|]. cbn [qd_sent qd_mode qd_amount].
  by rewrite <- app_assoc.
Qed.

(** Confirming a replacement with nothing entered sets the quota to 0. *)
Theorem empty_override_clears currency d :
  qd_open d = true → rates_ok currency = true →
  ∃ d', adjust_run currency [PickMode ModeOverride; PressEnter] d = Some d'
    ∧ qd_sent d' = qd_sent d ++ [(ModeOverride, zero)].
Proof.
  intros Ho Hc. eexists. cbn [adjust_run adjust_step]. rewrite Ho. cbn [set_input qd_open]. rewrite Ho.
  split; [reflexivity|].
  assert (E : handleConfirm currency (set_input ModeOverride [] d)
    = {| qd_open := qd_open d; qd_mode := ModeOverride; qd_amount := []; qd_loading := true;
         qd_pending := S (qd_pending d);
         qd_sent := qd_sent d ++ [(ModeOverride, parseQuotaFromDollars currency zero)];
         qd_notices := qd_notices d |}).
  { unfold handleConfirm, set_input. cbn [qd_amount qd_mode is_override negb]. rewrite !andb_false_r. done. }
  rewrite E. cbn [qd_sent]. do 3 f_equal.
  pose proof (shown_or_zero currency 0 Hc) as H. change (num_of_Z 0) with zero in H. rewrite <- H at 2 by lia.
  f_equal. unfold quotaUnitsToDollars, getCurrencyDisplay. apply display_rate_ok in Hc as [Hq Hr].
  apply rate_normal in Hq as (mq & eq & -> & _), Hr as (mr & er & Er & _).
  by destruct (getDisplayMeta (getConfig currency)); cbn [display_rate] in *; [rewrite Er|rewrite Er|].
Qed.
