(* ===== verification/Topup.v ===== *)
(** * Top-up configuration

    [features/wallet/lib/payment.ts], [features/wallet/lib/format.ts], the tables of
    [features/wallet/constants.ts] and the parsers of
    [features/wallet/hooks/use-topup-info.ts]: what the server offers for adding funds,
    read from values of any type, with the preset amounts and their discounts. *)
From Stdlib Require Import NArith ZArith.
From stdpp Require Import list numbers.
From S2P Require Import Prelude JsString JsNumber JsFloat Json JsArray JsRecord ChannelForm.

(** ** Data *)

Record PaymentMethod : Type := {
  pm_name : jsstr;
  pm_type : jsstr;
  pm_color : option jsstr;
  pm_min_topup : option number;
  pm_icon : option jsstr
}.

Record WaffoPayMethod : Type := {
  wm_name : jsstr;
  wm_icon : option jsstr;
  wm_payMethodType : option jsstr;
  wm_payMethodName : option jsstr
}.

Inductive CreemCurrency : Type := USD | EUR.

Record CreemProduct : Type := {
  cp_name : jsstr;
  cp_productId : jsstr;
  cp_price : number;
  cp_quota : number;
  cp_currency : CreemCurrency
}.

Record TopupInfo : Type := {
  enable_online_topup : bool;
  enable_stripe_topup : bool;
  pay_methods : list PaymentMethod;
  min_topup : number;
  stripe_min_topup : number;
  amount_options : list number;
  discount : record number;
  enable_creem_topup : option bool;
  creem_products : list CreemProduct;
  enable_waffo_topup : option bool;
  waffo_pay_methods : list WaffoPayMethod;
  waffo_min_topup : option number;
  enable_waffo_pancake_topup : option bool;
  waffo_pancake_min_topup : option number;
  enable_redemption : option bool
}.

Record PresetAmount : Type := { pa_value : number; pa_discount : option number }.

(** ** Constants *)

Definition DEFAULT_PRESET_MULTIPLIERS : list Z := [1; 5; 10; 30; 50; 100; 300; 500]%Z.

Definition ALIPAY : jsstr := "alipay".
Definition STRIPE : jsstr := "stripe".
Definition WAFFO : jsstr := "waffo".
Definition WAFFO_PANCAKE : jsstr := "waffo_pancake".
Definition DEFAULT_PAYMENT_TYPE : jsstr := ALIPAY.
Definition DEFAULT_DISCOUNT_RATE : number := num_of_Z 1.
Definition DEFAULT_MIN_TOPUP : number := num_of_Z 1.

(** ** Payment types *)

Definition isStripePayment (paymentType : jsstr) : bool := str_eqb paymentType STRIPE.
Definition isWaffoPancakePayment (paymentType : jsstr) : bool := str_eqb paymentType WAFFO_PANCAKE.

Definition flag (b : option bool) : bool := default false b.

Definition getDefaultPaymentType (topupInfo : option TopupInfo) : jsstr :=
  match topupInfo with
  | None => DEFAULT_PAYMENT_TYPE
  | Some i =>
      match pay_methods i with
      | m :: _ => pm_type m
      | [] =>
          if enable_stripe_topup i then STRIPE
          else if flag (enable_waffo_topup i) then WAFFO
          else if flag (enable_waffo_pancake_topup i) then WAFFO_PANCAKE
          else DEFAULT_PAYMENT_TYPE
      end
  end.

Definition getMinTopupAmount (topupInfo : option TopupInfo) : number :=
  match topupInfo with
  | None => DEFAULT_MIN_TOPUP
  | Some i =>
      if enable_online_topup i then min_topup i
      else if enable_stripe_topup i then stripe_min_topup i
      else if flag (enable_waffo_topup i) then num_or (default NaN (waffo_min_topup i)) DEFAULT_MIN_TOPUP
      else if flag (enable_waffo_pancake_topup i)
      then num_or (default NaN (waffo_pancake_min_topup i)) DEFAULT_MIN_TOPUP
      else DEFAULT_MIN_TOPUP
  end.

(** ** Presets and discounts *)

Definition generatePresetAmounts (minAmount : number) : list PresetAmount :=
  map (λ multiplier, {| pa_value := num_mul minAmount (num_of_Z multiplier); pa_discount := None |})
    DEFAULT_PRESET_MULTIPLIERS.

(** [discounts[amount]]: the property named by the text of the number. *)
Definition discount_at (amount : number) (discounts : record number) : option number :=
  rec_get (Number_toString amount) discounts.

Definition mergePresetAmounts (amountOptions : list number) (discounts : record number)
    : list PresetAmount :=
  map (λ amount, {| pa_value := amount;
                    pa_discount := Some (num_or (default NaN (discount_at amount discounts)) (num_of_Z 1)) |})
    amountOptions.

(** The discount of a preset in the recharge form. *)
Definition preset_discount (preset : PresetAmount) (topupInfo : option TopupInfo) : number :=
  num_or (default NaN (pa_discount preset))
    (num_or (default NaN (i ← topupInfo; discount_at (pa_value preset) (discount i))) (num_of_Z 1)).

Definition getDiscountLabel (rate : number) : jsstr :=
  if num_leb DEFAULT_DISCOUNT_RATE rate then []
  else Number_toString (Math_round (num_mul (num_sub (num_of_Z 1) rate) (num_of_Z 100))) ++ "% OFF".

Record PresetPricing : Type := {
  displayValue : number;
  originalPrice : number;
  actualPrice : number;
  savedAmount : number;
  hasDiscount : bool
}.

Definition calculatePresetPricing (presetValue priceRatio rate usdRate : number) : PresetPricing :=
  let original := num_mul presetValue priceRatio in
  let actual := num_mul original rate in
  {| displayValue := num_mul presetValue usdRate; originalPrice := original; actualPrice := actual;
     savedAmount := num_sub original actual; hasDiscount := num_ltb rate (num_of_Z 1) |}.

Definition formatCreemPrice (price : number) (currency : CreemCurrency) : jsstr :=
  (match currency with EUR => [8364%N] | USD => "$" end) ++ toFixed price 2.

Definition formatQuotaShort (quota : number) : jsstr :=
  if num_leb (num_of_Z 1000000) quota then toFixed (num_div quota (num_of_Z 1000000)) 1 ++ "M"
  else if num_leb (num_of_Z 1000) quota then toFixed (num_div quota (num_of_Z 1000)) 1 ++ "K"
  else Number_toString quota.

(** ** Parsers *)

Definition parseJsonArray (data : option json) : list json :=
  match data with
  | Some (JArr l) => l
  | Some (JStr s) => match JSON_parse s with Some (JArr l) => l | _ => [] end
  | _ => []
  end.

(** The properties of an item that is an object; an array has none of those that are read. *)
Definition object_items (l : list json) : list (list (jsstr * json)) :=
  omap (λ item, match item with JObj kvs => Some kvs | JArr _ => Some [] | _ => None end) l.

Definition text_prop (k : jsstr) (item : list (jsstr * json)) : option jsstr :=
  match obj_get k item with Some (JStr s) => Some s | _ => None end.

(** [Number(item.k)]. *)
Definition number_prop (k : jsstr) (item : list (jsstr * json)) : number :=
  match obj_get k item with Some v => json_toNumber v | None => NaN end.

Definition payment_method (stripeMinTopup : number) (item : list (jsstr * json)) : PaymentMethod :=
  let rawMinTopup := number_prop "min_topup" item in
  let normalizedMinTopup := if isFinite rawMinTopup then rawMinTopup else zero in
  let type := default [] (text_prop "type" item) in
  {| pm_name := default [] (text_prop "name" item); pm_type := type;
     pm_color := text_prop "color" item;
     pm_min_topup := Some (if str_eqb type "stripe" && num_leb normalizedMinTopup zero
                           then stripeMinTopup else normalizedMinTopup);
     pm_icon := None |}.

Definition parsePaymentMethods (data : option json) (stripeMinTopup : number) : list PaymentMethod :=
  List.filter (λ item, nonempty (pm_name item) && nonempty (pm_type item)
                       && negb (str_eqb (pm_type item) "waffo"))
    (map (payment_method stripeMinTopup) (object_items (parseJsonArray data))).

Definition parseWaffoPayMethods (data : option json) : list WaffoPayMethod :=
  List.filter (λ item, nonempty (wm_name item))
    (map (λ item, {| wm_name := default [] (text_prop "name" item); wm_icon := text_prop "icon" item;
                     wm_payMethodType := text_prop "payMethodType" item;
                     wm_payMethodName := text_prop "payMethodName" item |})
       (object_items (parseJsonArray data))).

Definition parseCreemProducts (data : option json) : list CreemProduct :=
  List.filter (λ item, nonempty (cp_name item) && nonempty (cp_productId item))
    (map (λ item, {| cp_name := default [] (text_prop "name" item);
                     cp_productId := default [] (text_prop "productId" item);
                     cp_price := num_or (number_prop "price" item) zero;
                     cp_quota := num_or (number_prop "quota" item) zero;
                     cp_currency := match text_prop "currency" item with
                                    | Some s => if str_eqb s "EUR" then EUR else USD
                                    | None => USD
                                    end |})
       (object_items (parseJsonArray data))).

Definition parseAmountOptions (data : option json) : list number :=
  List.filter (λ item, isFinite item && num_ltb zero item) (map json_toNumber (parseJsonArray data)).

Definition discount_step (result : record number) (entry : jsstr * json) : record number :=
  let numericKey := Number_of_string entry.1 in
  let numericValue := json_toNumber entry.2 in
  if isFinite numericKey && isFinite numericValue
  then rec_set (Number_toString numericKey) numericValue result else result.

Definition parseDiscountMap (data : option json) : record number :=
  let parsedData := match data with Some (JStr s) => JSON_parse s | _ => data end in
  match parsedData with
  | Some (JObj kvs) => fold_left discount_step (entries kvs) []
  | _ => []
  end.

(** The answer of the server; the five lists may be of any type. *)
Record TopupData : Type := {
  td_enable_online_topup : bool;
  td_enable_stripe_topup : bool;
  td_pay_methods : option json;
  td_min_topup : number;
  td_stripe_min_topup : number;
  td_amount_options : option json;
  td_discount : option json;
  td_enable_creem_topup : option bool;
  td_creem_products : option json;
  td_enable_waffo_topup : option bool;
  td_waffo_pay_methods : option json;
  td_waffo_min_topup : option number;
  td_enable_waffo_pancake_topup : option bool;
  td_waffo_pancake_min_topup : option number;
  td_enable_redemption : option bool
}.

Definition processedData (d : TopupData) : TopupInfo :=
  {| enable_online_topup := td_enable_online_topup d;
     enable_stripe_topup := td_enable_stripe_topup d;
     pay_methods := parsePaymentMethods (td_pay_methods d) (td_stripe_min_topup d);
     min_topup := td_min_topup d; stripe_min_topup := td_stripe_min_topup d;
     amount_options := parseAmountOptions (td_amount_options d);
     discount := parseDiscountMap (td_discount d);
     enable_creem_topup := td_enable_creem_topup d;
     creem_products := parseCreemProducts (td_creem_products d);
     enable_waffo_topup := td_enable_waffo_topup d;
     waffo_pay_methods := parseWaffoPayMethods (td_waffo_pay_methods d);
     waffo_min_topup := td_waffo_min_topup d;
     enable_waffo_pancake_topup := td_enable_waffo_pancake_topup d;
     waffo_pancake_min_topup := td_waffo_pancake_min_topup d;
     enable_redemption := td_enable_redemption d |}.

(** The presets that are shown. *)
Definition presets_of (info : TopupInfo) : list PresetAmount :=
  match amount_options info with
  | (_ :: _) as options => mergePresetAmounts options (discount info)
  | [] => generatePresetAmounts (getMinTopupAmount (Some info))
  end.
