(* ===== verification/Wallet.v ===== *)
(** * The wallet

    [features/wallet/index.tsx] with its hooks [use-topup-info], [use-payment],
    [use-waffo-payment], [use-waffo-pancake-payment], [use-creem-payment], [use-redemption]
    and the transfer of [use-affiliate], the inputs and buttons of
    [components/recharge-form-card.tsx] and the dialogs [payment-confirm-dialog.tsx],
    [creem-confirm-dialog.tsx] and [transfer-dialog.tsx].  A request that waits for its
    answer is an element of [wl_calls]; the answers are events.  The browser's URL parser
    is a parameter.  The data of the user, which a payment refreshes, and the text that is
    typed as the amount are not part of the state. *)
From Stdlib Require Import NArith ZArith.
From stdpp Require Import list numbers.
From S2P Require Import Prelude JsString Regex JsNumber JsFloat Json JsArray JsRecord BillingExpr Pricing Currency ChannelForm Topup.

(** ** Requests and answers *)

Inductive WalletRequest : Type :=
| AmountReq (amount : number)
| StripeAmountReq (amount : number)
| PancakeAmountReq (amount : number)
| PayReq (amount : number) (payment_method : jsstr)
| StripePayReq (amount : number)
| PancakePayReq (amount : number)
| WaffoPayReq (amount : number) (pay_method_index : nat)
| CreemPayReq (product_id : jsstr)
| RedeemReq (key : jsstr)
| TransferReq (quota : number).

(** An answer of the server; [None] stands for a request that failed. *)
Record ApiResponse : Type := {
  rs_success : option bool;
  rs_message : option jsstr;
  rs_data : option json;
  rs_url : option jsstr
}.

Definition isApiSuccess (response : ApiResponse) : bool :=
  match rs_success response with Some true => true | _ => false end
  || match rs_message response with Some m => str_eqb m "success" | None => false end.

Definition data_truthy (response : ApiResponse) : bool :=
  match rs_data response with Some v => json_truthy v | None => false end.

(** [data?.k] when it is a text. *)
Definition data_text (k : jsstr) (response : ApiResponse) : option jsstr :=
  match rs_data response with Some (JObj kvs) => text_prop k kvs | _ => None end.

Inductive WalletNotice : Type :=
| NoteError (message : jsstr)
| NoteRedirecting
| NoteOpened (url : jsstr)
| NoteForm (url : jsstr)
| NoteLocation (url : jsstr)
| NoteRedeemed
| NoteTransferred (message : jsstr).

(** ** State *)

(** The calls that wait.  [Calculating] says whether its answer opens the confirmation; the
    two kinds of [Refreshing] are the calls of [getSelf] that [redeemCode] and
    [transferQuota] wait for after a success. *)
Inductive WalletCall : Type :=
| FetchingInfo
| Calculating (amount : number) (type : jsstr) (opens : bool)
| Paying (type : jsstr)
| PayingPancake
| PayingWaffo
| PayingCreem
| Redeeming
| RefreshingRedeemed
| Transferring
| RefreshingTransferred.

Record Wallet : Type := {
  wl_info : option TopupInfo;
  wl_presets : list PresetAmount;
  wl_loading : bool;
  wl_amount : number;
  wl_preset : option number;
  wl_method : option PaymentMethod;
  wl_paymentLoading : option jsstr;
  wl_confirmOpen : bool;
  wl_price : number;
  wl_calculating : bool;
  wl_processing : bool;
  wl_pancakeProcessing : bool;
  wl_creem : option CreemProduct;
  wl_creemOpen : bool;
  wl_creemProcessing : bool;
  wl_code : jsstr;
  wl_redeeming : bool;
  wl_transferOpen : bool;
  wl_transferAmount : number;
  wl_transferring : bool;
  wl_calls : list WalletCall;
  wl_requests : list WalletRequest;
  wl_notices : list WalletNotice
}.

Definition QUOTA_PER_DOLLAR : number := num_of_Z 500000.

Definition init_wallet : Wallet :=
  {| wl_info := None; wl_presets := []; wl_loading := true; wl_amount := zero; wl_preset := None;
     wl_method := None; wl_paymentLoading := None; wl_confirmOpen := false; wl_price := zero;
     wl_calculating := false; wl_processing := false; wl_pancakeProcessing := false;
     wl_creem := None; wl_creemOpen := false; wl_creemProcessing := false; wl_code := [];
     wl_redeeming := false; wl_transferOpen := false; wl_transferAmount := QUOTA_PER_DOLLAR;
     wl_transferring := false; wl_calls := [FetchingInfo]; wl_requests := []; wl_notices := [] |}.

(** The setters of the state. *)
Definition set_info (info : TopupInfo) (w : Wallet) : Wallet :=
  {| wl_info := Some info; wl_presets := presets_of info; wl_loading := wl_loading w; wl_amount
     := wl_amount w; wl_preset := wl_preset w; wl_method := wl_method w; wl_paymentLoading :=
     wl_paymentLoading w; wl_confirmOpen := wl_confirmOpen w; wl_price := wl_price w;
     wl_calculating := wl_calculating w; wl_processing := wl_processing w; wl_pancakeProcessing :=
     wl_pancakeProcessing w; wl_creem := wl_creem w; wl_creemOpen := wl_creemOpen w;
     wl_creemProcessing := wl_creemProcessing w; wl_code := wl_code w; wl_redeeming := wl_redeeming
     w; wl_transferOpen := wl_transferOpen w; wl_transferAmount := wl_transferAmount w;
     wl_transferring := wl_transferring w; wl_calls := wl_calls w; wl_requests := wl_requests w;
     wl_notices := wl_notices w |}.

Definition set_loading (b : bool) (w : Wallet) : Wallet :=
  {| wl_info := wl_info w; wl_presets := wl_presets w; wl_loading := b; wl_amount := wl_amount
     w; wl_preset := wl_preset w; wl_method := wl_method w; wl_paymentLoading := wl_paymentLoading
     w; wl_confirmOpen := wl_confirmOpen w; wl_price := wl_price w; wl_calculating :=
     wl_calculating w; wl_processing := wl_processing w; wl_pancakeProcessing :=
     wl_pancakeProcessing w; wl_creem := wl_creem w; wl_creemOpen := wl_creemOpen w;
     wl_creemProcessing := wl_creemProcessing w; wl_code := wl_code w; wl_redeeming := wl_redeeming
     w; wl_transferOpen := wl_transferOpen w; wl_transferAmount := wl_transferAmount w;
     wl_transferring := wl_transferring w; wl_calls := wl_calls w; wl_requests := wl_requests w;
     wl_notices := wl_notices w |}.

Definition set_amount (amount : number) (preset : option number) (w : Wallet) : Wallet :=
  {| wl_info := wl_info w; wl_presets := wl_presets w; wl_loading := wl_loading w; wl_amount :=
     amount; wl_preset := preset; wl_method := wl_method w; wl_paymentLoading := wl_paymentLoading
     w; wl_confirmOpen := wl_confirmOpen w; wl_price := wl_price w; wl_calculating :=
     wl_calculating w; wl_processing := wl_processing w; wl_pancakeProcessing :=
     wl_pancakeProcessing w; wl_creem := wl_creem w; wl_creemOpen := wl_creemOpen w;
     wl_creemProcessing := wl_creemProcessing w; wl_code := wl_code w; wl_redeeming := wl_redeeming
     w; wl_transferOpen := wl_transferOpen w; wl_transferAmount := wl_transferAmount w;
     wl_transferring := wl_transferring w; wl_calls := wl_calls w; wl_requests := wl_requests w;
     wl_notices := wl_notices w |}.

Definition set_method (method : PaymentMethod) (w : Wallet) : Wallet :=
  {| wl_info := wl_info w; wl_presets := wl_presets w; wl_loading := wl_loading w; wl_amount :=
     wl_amount w; wl_preset := wl_preset w; wl_method := Some method; wl_paymentLoading :=
     wl_paymentLoading w; wl_confirmOpen := wl_confirmOpen w; wl_price := wl_price w;
     wl_calculating := wl_calculating w; wl_processing := wl_processing w; wl_pancakeProcessing :=
     wl_pancakeProcessing w; wl_creem := wl_creem w; wl_creemOpen := wl_creemOpen w;
     wl_creemProcessing := wl_creemProcessing w; wl_code := wl_code w; wl_redeeming := wl_redeeming
     w; wl_transferOpen := wl_transferOpen w; wl_transferAmount := wl_transferAmount w;
     wl_transferring := wl_transferring w; wl_calls := wl_calls w; wl_requests := wl_requests w;
     wl_notices := wl_notices w |}.

Definition set_payment_loading (key : option jsstr) (w : Wallet) : Wallet :=
  {| wl_info := wl_info w; wl_presets := wl_presets w; wl_loading := wl_loading w; wl_amount :=
     wl_amount w; wl_preset := wl_preset w; wl_method := wl_method w; wl_paymentLoading := key;
     wl_confirmOpen := wl_confirmOpen w; wl_price := wl_price w; wl_calculating := wl_calculating
     w; wl_processing := wl_processing w; wl_pancakeProcessing := wl_pancakeProcessing w; wl_creem
     := wl_creem w; wl_creemOpen := wl_creemOpen w; wl_creemProcessing := wl_creemProcessing w;
     wl_code := wl_code w; wl_redeeming := wl_redeeming w; wl_transferOpen := wl_transferOpen w;
     wl_transferAmount := wl_transferAmount w; wl_transferring := wl_transferring w; wl_calls :=
     wl_calls w; wl_requests := wl_requests w; wl_notices := wl_notices w |}.

Definition set_confirm (b : bool) (w : Wallet) : Wallet :=
  {| wl_info := wl_info w; wl_presets := wl_presets w; wl_loading := wl_loading w; wl_amount :=
     wl_amount w; wl_preset := wl_preset w; wl_method := wl_method w; wl_paymentLoading :=
     wl_paymentLoading w; wl_confirmOpen := b; wl_price := wl_price w; wl_calculating :=
     wl_calculating w; wl_processing := wl_processing w; wl_pancakeProcessing :=
     wl_pancakeProcessing w; wl_creem := wl_creem w; wl_creemOpen := wl_creemOpen w;
     wl_creemProcessing := wl_creemProcessing w; wl_code := wl_code w; wl_redeeming := wl_redeeming
     w; wl_transferOpen := wl_transferOpen w; wl_transferAmount := wl_transferAmount w;
     wl_transferring := wl_transferring w; wl_calls := wl_calls w; wl_requests := wl_requests w;
     wl_notices := wl_notices w |}.

Definition set_price (price : number) (w : Wallet) : Wallet :=
  {| wl_info := wl_info w; wl_presets := wl_presets w; wl_loading := wl_loading w; wl_amount :=
     wl_amount w; wl_preset := wl_preset w; wl_method := wl_method w; wl_paymentLoading :=
     wl_paymentLoading w; wl_confirmOpen := wl_confirmOpen w; wl_price := price; wl_calculating :=
     wl_calculating w; wl_processing := wl_processing w; wl_pancakeProcessing :=
     wl_pancakeProcessing w; wl_creem := wl_creem w; wl_creemOpen := wl_creemOpen w;
     wl_creemProcessing := wl_creemProcessing w; wl_code := wl_code w; wl_redeeming := wl_redeeming
     w; wl_transferOpen := wl_transferOpen w; wl_transferAmount := wl_transferAmount w;
     wl_transferring := wl_transferring w; wl_calls := wl_calls w; wl_requests := wl_requests w;
     wl_notices := wl_notices w |}.

Definition set_calculating (b : bool) (w : Wallet) : Wallet :=
  {| wl_info := wl_info w; wl_presets := wl_presets w; wl_loading := wl_loading w; wl_amount :=
     wl_amount w; wl_preset := wl_preset w; wl_method := wl_method w; wl_paymentLoading :=
     wl_paymentLoading w; wl_confirmOpen := wl_confirmOpen w; wl_price := wl_price w;
     wl_calculating := b; wl_processing := wl_processing w; wl_pancakeProcessing :=
     wl_pancakeProcessing w; wl_creem := wl_creem w; wl_creemOpen := wl_creemOpen w;
     wl_creemProcessing := wl_creemProcessing w; wl_code := wl_code w; wl_redeeming := wl_redeeming
     w; wl_transferOpen := wl_transferOpen w; wl_transferAmount := wl_transferAmount w;
     wl_transferring := wl_transferring w; wl_calls := wl_calls w; wl_requests := wl_requests w;
     wl_notices := wl_notices w |}.

Definition set_processing (b : bool) (w : Wallet) : Wallet :=
  {| wl_info := wl_info w; wl_presets := wl_presets w; wl_loading := wl_loading w; wl_amount :=
     wl_amount w; wl_preset := wl_preset w; wl_method := wl_method w; wl_paymentLoading :=
     wl_paymentLoading w; wl_confirmOpen := wl_confirmOpen w; wl_price := wl_price w;
     wl_calculating := wl_calculating w; wl_processing := b; wl_pancakeProcessing :=
     wl_pancakeProcessing w; wl_creem := wl_creem w; wl_creemOpen := wl_creemOpen w;
     wl_creemProcessing := wl_creemProcessing w; wl_code := wl_code w; wl_redeeming := wl_redeeming
     w; wl_transferOpen := wl_transferOpen w; wl_transferAmount := wl_transferAmount w;
     wl_transferring := wl_transferring w; wl_calls := wl_calls w; wl_requests := wl_requests w;
     wl_notices := wl_notices w |}.

Definition set_pancake (b : bool) (w : Wallet) : Wallet :=
  {| wl_info := wl_info w; wl_presets := wl_presets w; wl_loading := wl_loading w; wl_amount :=
     wl_amount w; wl_preset := wl_preset w; wl_method := wl_method w; wl_paymentLoading :=
     wl_paymentLoading w; wl_confirmOpen := wl_confirmOpen w; wl_price := wl_price w;
     wl_calculating := wl_calculating w; wl_processing := wl_processing w; wl_pancakeProcessing :=
     b; wl_creem := wl_creem w; wl_creemOpen := wl_creemOpen w; wl_creemProcessing :=
     wl_creemProcessing w; wl_code := wl_code w; wl_redeeming := wl_redeeming w; wl_transferOpen :=
     wl_transferOpen w; wl_transferAmount := wl_transferAmount w; wl_transferring :=
     wl_transferring w; wl_calls := wl_calls w; wl_requests := wl_requests w; wl_notices :=
     wl_notices w |}.

Definition set_creem (product : option CreemProduct) (open : bool) (w : Wallet) : Wallet :=
  {| wl_info := wl_info w; wl_presets := wl_presets w; wl_loading := wl_loading w; wl_amount :=
     wl_amount w; wl_preset := wl_preset w; wl_method := wl_method w; wl_paymentLoading :=
     wl_paymentLoading w; wl_confirmOpen := wl_confirmOpen w; wl_price := wl_price w;
     wl_calculating := wl_calculating w; wl_processing := wl_processing w; wl_pancakeProcessing :=
     wl_pancakeProcessing w; wl_creem := product; wl_creemOpen := open; wl_creemProcessing :=
     wl_creemProcessing w; wl_code := wl_code w; wl_redeeming := wl_redeeming w; wl_transferOpen :=
     wl_transferOpen w; wl_transferAmount := wl_transferAmount w; wl_transferring :=
     wl_transferring w; wl_calls := wl_calls w; wl_requests := wl_requests w; wl_notices :=
     wl_notices w |}.

Definition set_creem_processing (b : bool) (w : Wallet) : Wallet :=
  {| wl_info := wl_info w; wl_presets := wl_presets w; wl_loading := wl_loading w; wl_amount :=
     wl_amount w; wl_preset := wl_preset w; wl_method := wl_method w; wl_paymentLoading :=
     wl_paymentLoading w; wl_confirmOpen := wl_confirmOpen w; wl_price := wl_price w;
     wl_calculating := wl_calculating w; wl_processing := wl_processing w; wl_pancakeProcessing :=
     wl_pancakeProcessing w; wl_creem := wl_creem w; wl_creemOpen := wl_creemOpen w;
     wl_creemProcessing := b; wl_code := wl_code w; wl_redeeming := wl_redeeming w; wl_transferOpen
     := wl_transferOpen w; wl_transferAmount := wl_transferAmount w; wl_transferring :=
     wl_transferring w; wl_calls := wl_calls w; wl_requests := wl_requests w; wl_notices :=
     wl_notices w |}.

Definition set_code (code : jsstr) (w : Wallet) : Wallet :=
  {| wl_info := wl_info w; wl_presets := wl_presets w; wl_loading := wl_loading w; wl_amount :=
     wl_amount w; wl_preset := wl_preset w; wl_method := wl_method w; wl_paymentLoading :=
     wl_paymentLoading w; wl_confirmOpen := wl_confirmOpen w; wl_price := wl_price w;
     wl_calculating := wl_calculating w; wl_processing := wl_processing w; wl_pancakeProcessing :=
     wl_pancakeProcessing w; wl_creem := wl_creem w; wl_creemOpen := wl_creemOpen w;
     wl_creemProcessing := wl_creemProcessing w; wl_code := code; wl_redeeming := wl_redeeming w;
     wl_transferOpen := wl_transferOpen w; wl_transferAmount := wl_transferAmount w;
     wl_transferring := wl_transferring w; wl_calls := wl_calls w; wl_requests := wl_requests w;
     wl_notices := wl_notices w |}.

Definition set_redeeming (b : bool) (w : Wallet) : Wallet :=
  {| wl_info := wl_info w; wl_presets := wl_presets w; wl_loading := wl_loading w; wl_amount :=
     wl_amount w; wl_preset := wl_preset w; wl_method := wl_method w; wl_paymentLoading :=
     wl_paymentLoading w; wl_confirmOpen := wl_confirmOpen w; wl_price := wl_price w;
     wl_calculating := wl_calculating w; wl_processing := wl_processing w; wl_pancakeProcessing :=
     wl_pancakeProcessing w; wl_creem := wl_creem w; wl_creemOpen := wl_creemOpen w;
     wl_creemProcessing := wl_creemProcessing w; wl_code := wl_code w; wl_redeeming := b;
     wl_transferOpen := wl_transferOpen w; wl_transferAmount := wl_transferAmount w;
     wl_transferring := wl_transferring w; wl_calls := wl_calls w; wl_requests := wl_requests w;
     wl_notices := wl_notices w |}.

Definition set_transfer (open : bool) (amount : number) (w : Wallet) : Wallet :=
  {| wl_info := wl_info w; wl_presets := wl_presets w; wl_loading := wl_loading w; wl_amount :=
     wl_amount w; wl_preset := wl_preset w; wl_method := wl_method w; wl_paymentLoading :=
     wl_paymentLoading w; wl_confirmOpen := wl_confirmOpen w; wl_price := wl_price w;
     wl_calculating := wl_calculating w; wl_processing := wl_processing w; wl_pancakeProcessing :=
     wl_pancakeProcessing w; wl_creem := wl_creem w; wl_creemOpen := wl_creemOpen w;
     wl_creemProcessing := wl_creemProcessing w; wl_code := wl_code w; wl_redeeming := wl_redeeming
     w; wl_transferOpen := open; wl_transferAmount := amount; wl_transferring := wl_transferring w;
     wl_calls := wl_calls w; wl_requests := wl_requests w; wl_notices := wl_notices w |}.

Definition set_transferring (b : bool) (w : Wallet) : Wallet :=
  {| wl_info := wl_info w; wl_presets := wl_presets w; wl_loading := wl_loading w; wl_amount :=
     wl_amount w; wl_preset := wl_preset w; wl_method := wl_method w; wl_paymentLoading :=
     wl_paymentLoading w; wl_confirmOpen := wl_confirmOpen w; wl_price := wl_price w;
     wl_calculating := wl_calculating w; wl_processing := wl_processing w; wl_pancakeProcessing :=
     wl_pancakeProcessing w; wl_creem := wl_creem w; wl_creemOpen := wl_creemOpen w;
     wl_creemProcessing := wl_creemProcessing w; wl_code := wl_code w; wl_redeeming := wl_redeeming
     w; wl_transferOpen := wl_transferOpen w; wl_transferAmount := wl_transferAmount w;
     wl_transferring := b; wl_calls := wl_calls w; wl_requests := wl_requests w; wl_notices :=
     wl_notices w |}.

Definition set_calls (calls : list WalletCall) (w : Wallet) : Wallet :=
  {| wl_info := wl_info w; wl_presets := wl_presets w; wl_loading := wl_loading w; wl_amount :=
     wl_amount w; wl_preset := wl_preset w; wl_method := wl_method w; wl_paymentLoading :=
     wl_paymentLoading w; wl_confirmOpen := wl_confirmOpen w; wl_price := wl_price w;
     wl_calculating := wl_calculating w; wl_processing := wl_processing w; wl_pancakeProcessing :=
     wl_pancakeProcessing w; wl_creem := wl_creem w; wl_creemOpen := wl_creemOpen w;
     wl_creemProcessing := wl_creemProcessing w; wl_code := wl_code w; wl_redeeming := wl_redeeming
     w; wl_transferOpen := wl_transferOpen w; wl_transferAmount := wl_transferAmount w;
     wl_transferring := wl_transferring w; wl_calls := calls; wl_requests := wl_requests w;
     wl_notices := wl_notices w |}.

Definition wnotes (ns : list WalletNotice) (w : Wallet) : Wallet :=
  {| wl_info := wl_info w; wl_presets := wl_presets w; wl_loading := wl_loading w; wl_amount :=
     wl_amount w; wl_preset := wl_preset w; wl_method := wl_method w; wl_paymentLoading :=
     wl_paymentLoading w; wl_confirmOpen := wl_confirmOpen w; wl_price := wl_price w;
     wl_calculating := wl_calculating w; wl_processing := wl_processing w; wl_pancakeProcessing :=
     wl_pancakeProcessing w; wl_creem := wl_creem w; wl_creemOpen := wl_creemOpen w;
     wl_creemProcessing := wl_creemProcessing w; wl_code := wl_code w; wl_redeeming := wl_redeeming
     w; wl_transferOpen := wl_transferOpen w; wl_transferAmount := wl_transferAmount w;
     wl_transferring := wl_transferring w; wl_calls := wl_calls w; wl_requests := wl_requests w;
     wl_notices := wl_notices w ++ ns |}.

Definition wnote (n : WalletNotice) : Wallet → Wallet := wnotes [n].

(** A request is sent and its call waits. *)
Definition request (r : WalletRequest) (c : WalletCall) (w : Wallet) : Wallet :=
  {| wl_info := wl_info w; wl_presets := wl_presets w; wl_loading := wl_loading w; wl_amount :=
     wl_amount w; wl_preset := wl_preset w; wl_method := wl_method w; wl_paymentLoading :=
     wl_paymentLoading w; wl_confirmOpen := wl_confirmOpen w; wl_price := wl_price w;
     wl_calculating := wl_calculating w; wl_processing := wl_processing w; wl_pancakeProcessing :=
     wl_pancakeProcessing w; wl_creem := wl_creem w; wl_creemOpen := wl_creemOpen w;
     wl_creemProcessing := wl_creemProcessing w; wl_code := wl_code w; wl_redeeming := wl_redeeming
     w; wl_transferOpen := wl_transferOpen w; wl_transferAmount := wl_transferAmount w;
     wl_transferring := wl_transferring w; wl_calls := wl_calls w ++ [c]; wl_requests :=
     wl_requests w ++ [r]; wl_notices := wl_notices w |}.

(** A call without a request of the list. *)
Definition wait (c : WalletCall) (w : Wallet) : Wallet := set_calls (wl_calls w ++ [c]) w.

Definition end_wallet_call (i : nat) (w : Wallet) : Wallet := set_calls (list_delete i (wl_calls w)) w.

(** ** Calculation of the price *)

(** [calculatePaymentAmount] up to its request. *)
Definition calculatePaymentAmount (topupAmount : number) (paymentType : jsstr) (opens : bool)
    (w : Wallet) : Wallet :=
  let req := if isStripePayment paymentType then StripeAmountReq topupAmount
             else if isWaffoPancakePayment paymentType then PancakeAmountReq topupAmount
             else AmountReq topupAmount in
  request req (Calculating topupAmount paymentType opens) (set_calculating true w).

(** The price in an answer. *)
Definition price_in (reply : option ApiResponse) : number :=
  match reply with
  | Some response =>
      match rs_data response with
      | Some data => if isApiSuccess response && json_truthy data then parseFloat (json_toString data) else zero
      | None => zero
      end
  | None => zero
  end.

(** Its settlement, and that of [handlePaymentMethodSelect] when it waits for it. *)
Definition calculated (reply : option ApiResponse) (opens : bool) (w : Wallet) : Wallet :=
  let w := set_calculating false (set_price (price_in reply) w) in
  if opens then set_payment_loading None (set_confirm true w) else w.

(** ** The page *)

Definition getCurrentPaymentType (w : Wallet) : jsstr :=
  match wl_method w with
  | Some m => if nonempty (pm_type m) then pm_type m else getDefaultPaymentType (wl_info w)
  | None => getDefaultPaymentType (wl_info w)
  end.

Definition handleSelectPreset (preset : PresetAmount) (w : Wallet) : Wallet :=
  calculatePaymentAmount (pa_value preset) (getCurrentPaymentType w) false
    (set_amount (pa_value preset) (Some (pa_value preset)) w).

Definition handleTopupAmountChange (amount : number) (w : Wallet) : Wallet :=
  calculatePaymentAmount amount (getCurrentPaymentType w) false (set_amount amount None w).

(** [parseInt(value)]. *)
Definition parseInt (value : jsstr) : number :=
  let t := trimStart value in
  let '(neg, u) := match t with
                   | c :: r => if (c =? 45)%N then (true, r)
                               else if (c =? 43)%N then (false, r) else (false, t)
                   | [] => (false, [])
                   end in
  let sign := λ z : Z, if (neg : bool) then (- z)%Z else z in
  if startsWith "0x" u || startsWith "0X" u then
    let fix hex (s : jsstr) (acc : option N) :=
      match s with
      | c :: r => match digit_in_base 16 c with
                  | Some d => hex r (Some (16 * default 0%N acc + d)%N)
                  | None => acc
                  end
      | [] => acc
      end in
    match hex (drop 2 u) None with Some n => num_of_Z (sign (Z.of_N n)) | None => NaN end
  else
    let '(ds, _) := span_digits u in
    if nonempty ds then num_of_Z (sign (Z.of_N (dec_value ds))) else NaN.

(** [handleAmountChange] of the recharge form. *)
Definition handleAmountChange (value : jsstr) (w : Wallet) : Wallet :=
  let numValue := num_or (parseInt value) zero in
  if num_leb zero numValue then handleTopupAmountChange numValue w else w.

Definition handlePaymentMethodSelect (method : PaymentMethod) (w : Wallet) : Wallet :=
  let w := set_method method w in
  if num_ltb (wl_amount w) (getMinTopupAmount (wl_info w)) then set_payment_loading None w
  else calculatePaymentAmount (wl_amount w) (pm_type method) true
         (set_payment_loading (Some (pm_type method)) w).

(** The button of a method. *)
Definition method_disabled (method : PaymentMethod) (w : Wallet) : bool :=
  num_ltb (wl_amount w) (num_or (default NaN (pm_min_topup method)) zero)
  || match wl_paymentLoading w with Some key => nonempty key | None => false end.

(** The effect that sets the first amount, after a render in which the configuration or
    the amount is new. *)
Definition init_amount_effect (w : Wallet) : Wallet :=
  match wl_info w with
  | Some info =>
      if num_eqb (wl_amount w) zero then
        let minTopup := getMinTopupAmount (Some info) in
        calculatePaymentAmount minTopup (getDefaultPaymentType (Some info)) false
          (set_amount minTopup (wl_preset w) w)
      else w
  | None => w
  end.

(** ** Payments *)

(** [processPayment] up to its request. *)
Definition processPayment (topupAmount : number) (paymentType : jsstr) (w : Wallet) : Wallet :=
  let amount := Math_floor topupAmount in
  request (if isStripePayment paymentType then StripePayReq amount else PayReq amount paymentType)
    (Paying paymentType) (set_processing true w).

Definition processWaffoPancakePayment (topupAmount : number) (w : Wallet) : Wallet :=
  request (PancakePayReq (Math_floor topupAmount)) PayingPancake (set_pancake true w).

Definition handlePaymentConfirm (w : Wallet) : Wallet :=
  match wl_method w with
  | None => w
  | Some m =>
      if isWaffoPancakePayment (pm_type m) then processWaffoPancakePayment (wl_amount w) w
      else processPayment (wl_amount w) (pm_type m) w
  end.

Definition failed_label : jsstr := "Payment request failed".

(** What follows [processPayment]: the notices, and whether it succeeded. *)
Definition payment_result (paymentType : jsstr) (reply : option ApiResponse)
    : list WalletNotice * bool :=
  match reply with
  | None => ([NoteError failed_label], false)
  | Some response =>
      if negb (isApiSuccess response)
      then ([NoteError (str_or (rs_message response) failed_label)], false)
      else if isStripePayment paymentType then
        match data_text "pay_link" response with
        | Some link => if nonempty link then ([NoteOpened link; NoteRedirecting], true) else ([], false)
        | None => ([], false)
        end
      else if data_truthy response then
        match rs_url response with
        | Some url => if nonempty url then ([NoteForm url; NoteRedirecting], true) else ([], false)
        | None => ([], false)
        end
      else ([], false)
  end.

(** [getErrorMessage] of the Waffo hooks. *)
Definition getErrorMessage (response : ApiResponse) : jsstr :=
  match rs_data response with
  | Some (JStr s) => if nonempty (trim s) then s else str_or (rs_message response) failed_label
  | _ => str_or (rs_message response) failed_label
  end.

Section urls.
(** [new URL(text).protocol], [None] when the text is no URL. *)
Context (url_protocol : jsstr → option jsstr).

Definition isSafeHttpCheckoutUrl (value : jsstr) : bool :=
  let trimmed := trim value in
  nonempty trimmed
  && match url_protocol trimmed with
     | Some p => str_eqb p "http:" || str_eqb p "https:"
     | None => false
     end.

Definition pancake_result (reply : option ApiResponse) : list WalletNotice * bool :=
  match reply with
  | None => ([NoteError failed_label], false)
  | Some response =>
      match (if isApiSuccess response then data_text "checkout_url" response else None) with
      | Some url =>
          if negb (nonempty url) then ([NoteError (getErrorMessage response)], false)
          else if isSafeHttpCheckoutUrl url then ([NoteRedirecting; NoteLocation url], true)
          else ([NoteError "Invalid payment redirect URL"], false)
      | None => ([NoteError (getErrorMessage response)], false)
      end
  end.

Definition waffo_result (reply : option ApiResponse) : list WalletNotice :=
  match reply with
  | None => [NoteError failed_label]
  | Some response =>
      match (if isApiSuccess response then data_text "payment_url" response else None) with
      | Some url => if nonempty url then [NoteOpened url; NoteRedirecting]
                    else [NoteError (getErrorMessage response)]
      | None => [NoteError (getErrorMessage response)]
      end
  end.

Definition creem_result (reply : option ApiResponse) : list WalletNotice * bool :=
  match reply with
  | None => ([NoteError failed_label], false)
  | Some response =>
      match (if isApiSuccess response then data_text "checkout_url" response else None) with
      | Some url => if nonempty url then ([NoteOpened url; NoteRedirecting], true)
                    else ([NoteError (str_or (rs_message response) failed_label)], false)
      | None => ([NoteError (str_or (rs_message response) failed_label)], false)
      end
  end.

(** [response.success && response.data] of the redemption. *)
Definition redeem_result (reply : option ApiResponse) : list WalletNotice * bool :=
  match reply with
  | None => ([NoteError "Redemption failed"], false)
  | Some response =>
      if default false (rs_success response) && data_truthy response then ([NoteRedeemed], true)
      else ([NoteError (str_or (rs_message response) "Redemption failed")], false)
  end.

Definition transfer_result (reply : option ApiResponse) : list WalletNotice * bool :=
  match reply with
  | None => ([NoteError "Transfer failed"], false)
  | Some response =>
      if default false (rs_success response) then ([NoteTransferred (str_or (rs_message response) "Transfer successful")], true)
      else ([NoteError (str_or (rs_message response) "Transfer failed")], false)
  end.

(** The confirmation closes after a payment that was started. *)
Definition paid (result : list WalletNotice * bool) (w : Wallet) : Wallet :=
  let w := wnotes result.1 w in if result.2 then set_confirm false w else w.

Definition handleWaffoMethodSelect (index : nat) (w : Wallet) : Wallet :=
  request (WaffoPayReq (Math_floor (wl_amount w)) index) PayingWaffo
    (set_payment_loading (Some ("waffo-" ++ to_dec (N.of_nat index))) w).

Definition handleCreemProductSelect (product : CreemProduct) (w : Wallet) : Wallet :=
  set_creem (Some product) true w.

Definition handleCreemConfirm (w : Wallet) : Wallet :=
  match wl_creem w with
  | Some product => request (CreemPayReq (cp_productId product)) PayingCreem (set_creem_processing true w)
  | None => w
  end.

Definition handleRedeem (w : Wallet) : Wallet :=
  if negb (nonempty (wl_code w)) then w
  else if negb (nonempty (trim (wl_code w))) then wnote (NoteError "Please enter a redemption code") w
  else request (RedeemReq (wl_code w)) Redeeming (set_redeeming true w).

(** [handleConfirm] of the transfer dialog. *)
Definition confirm_transfer (w : Wallet) : Wallet :=
  request (TransferReq (wl_transferAmount w)) Transferring (set_transferring true w).

(** ** Events *)

Inductive WalletEvent : Type :=
| SelectPreset (index : nat)
| TypeTopup (text : jsstr)
| ClickMethod (index : nat)
| ClickWaffo (index : nat)
| ClickPay
| DismissConfirm
| PickProduct (index : nat)
| ClickBuy
| DismissCreem
| TypeCode (code : jsstr)
| ClickRedeem
| OpenTransfer
| TypeTransfer (text : jsstr)
| ClickTransfer
| DismissTransfer
| InfoArrives (i : nat) (data : option TopupData)
| Settles (i : nat) (reply : option ApiResponse).

(** A dialog is in front of the page. *)
Definition modal (w : Wallet) : bool := wl_confirmOpen w || wl_creemOpen w || wl_transferOpen w.

Definition hasConfigurableTopup (w : Wallet) : bool :=
  match wl_info w with
  | Some info =>
      enable_online_topup info || enable_stripe_topup info || flag (enable_waffo_topup info)
      || flag (enable_waffo_pancake_topup info)
  | None => false
  end.

(** The recharge form is shown, and its parts for codes, amounts and methods. *)
Definition form_shown (w : Wallet) : bool := negb (wl_loading w) && negb (modal w).
Definition redemption_shown (w : Wallet) : bool :=
  form_shown w && match wl_info w ≫= enable_redemption with Some false => false | _ => true end.
Definition topup_shown (w : Wallet) : bool := form_shown w && hasConfigurableTopup w.

(** The settlement of a waiting call. *)
Definition settle (c : WalletCall) (reply : option ApiResponse) (w : Wallet) : option Wallet :=
  match c with
  | FetchingInfo => None
  | Calculating _ _ opens => Some (calculated reply opens w)
  | Paying type => Some (paid (payment_result type reply) (set_processing false w))
  | PayingPancake => Some (paid (pancake_result reply) (set_pancake false w))
  | PayingWaffo => Some (set_payment_loading None (wnotes (waffo_result reply) w))
  | PayingCreem =>
      let '(ns, success) := creem_result reply in
      let w := set_creem_processing false (wnotes ns w) in
      Some (if success then set_creem None false w else w)
  | Redeeming =>
      let '(ns, success) := redeem_result reply in
      let w := wnotes ns w in
      Some (if success then wait RefreshingRedeemed w else set_redeeming false w)
  | RefreshingRedeemed =>
      Some (match reply with
            | Some _ => set_code [] (set_redeeming false w)
            | None => set_redeeming false (wnote (NoteError "Redemption failed") w)
            end)
  | Transferring =>
      let '(ns, success) := transfer_result reply in
      let w := wnotes ns w in
      Some (if success then wait RefreshingTransferred w else set_transferring false w)
  | RefreshingTransferred =>
      Some (match reply with
            | Some _ => set_transfer false (wl_transferAmount w) (set_transferring false w)
            | None => set_transferring false (wnote (NoteError "Transfer failed") w)
            end)
  end.

(** The handler of an event, [None] when it cannot happen. *)
Definition wallet_handler (e : WalletEvent) (w : Wallet) : option Wallet :=
  match e with
  | SelectPreset index =>
      preset ← wl_presets w !! index;
      if topup_shown w then Some (handleSelectPreset preset w) else None
  | TypeTopup text => if topup_shown w then Some (handleAmountChange text w) else None
  | ClickMethod index =>
      method ← from_option pay_methods [] (wl_info w) !! index;
      if topup_shown w && negb (method_disabled method w)
      then Some (handlePaymentMethodSelect method w) else None
  | ClickWaffo index =>
      if topup_shown w && flag (wl_info w ≫= enable_waffo_topup)
         && (index <? length (from_option waffo_pay_methods [] (wl_info w)))%nat
         && negb (num_ltb (wl_amount w) (num_or (default NaN (wl_info w ≫= waffo_min_topup)) zero))
         && match wl_paymentLoading w with Some key => negb (nonempty key) | None => true end
      then Some (handleWaffoMethodSelect index w) else None
  | ClickPay =>
      if wl_confirmOpen w && negb (wl_processing w || wl_pancakeProcessing w)
      then Some (handlePaymentConfirm w) else None
  | DismissConfirm => if wl_confirmOpen w then Some (set_confirm false w) else None
  | PickProduct index =>
      product ← from_option creem_products [] (wl_info w) !! index;
      if form_shown w && flag (wl_info w ≫= enable_creem_topup)
      then Some (handleCreemProductSelect product w) else None
  | ClickBuy =>
      if wl_creemOpen w && negb (wl_creemProcessing w) then Some (handleCreemConfirm w) else None
  | DismissCreem => if wl_creemOpen w then Some (set_creem (wl_creem w) false w) else None
  | TypeCode code => if redemption_shown w then Some (set_code code w) else None
  | ClickRedeem => if redemption_shown w && negb (wl_redeeming w) then Some (handleRedeem w) else None
  | OpenTransfer => if modal w then None else Some (set_transfer true QUOTA_PER_DOLLAR w)
  | TypeTransfer text =>
      if wl_transferOpen w then Some (set_transfer true (Number_of_string text) w) else None
  | ClickTransfer =>
      if wl_transferOpen w && negb (wl_transferring w) then Some (confirm_transfer w) else None
  | DismissTransfer =>
      if wl_transferOpen w then Some (set_transfer false (wl_transferAmount w) w) else None
  | InfoArrives i data =>
      match wl_calls w !! i with
      | Some FetchingInfo =>
          let w := set_loading false (end_wallet_call i w) in
          Some (match data with Some d => set_info (processedData d) w | None => w end)
      | _ => None
      end
  | Settles i reply =>
      match wl_calls w !! i with
      | Some c => settle c reply (end_wallet_call i w)
      | None => None
      end
  end.

(** An event, and the effect after the render when the configuration or the amount
    changed. *)
Definition wallet_step (e : WalletEvent) (w : Wallet) : option Wallet :=
  match wallet_handler e w with
  | Some w' =>
      let info_changed := match wl_info w, wl_info w' with
                          | None, Some _ => true
                          | _, _ => false
                          end in
      Some (if info_changed || negb (num_eqb (wl_amount w) (wl_amount w'))
            then init_amount_effect w' else w')
  | None => None
  end.

Fixpoint wallet_run (es : list WalletEvent) (w : Wallet) : option Wallet :=
  match es with
  | [] => Some w
  | e :: es => match wallet_step e w with Some w => wallet_run es w | None => None end
  end.
End urls.

(** ** The confirmation *)

(** [getDiscountRate] of the page, and what the dialog shows beside the price. *)
Definition getDiscountRate (w : Wallet) : number :=
  num_or (default NaN (info ← wl_info w; discount_at (wl_amount w) (discount info))) DEFAULT_DISCOUNT_RATE.

Definition confirm_has_discount (rate price : number) : bool :=
  num_ltb zero rate && num_ltb rate (num_of_Z 1) && num_ltb zero price.

Definition confirm_original (rate price : number) : number :=
  if confirm_has_discount rate price then num_div price rate else zero.

Definition confirm_saved (rate price : number) : number :=
  if confirm_has_discount rate price then num_sub (num_div price rate) price else zero.
