(* ===== verification/WalletTheorems.v ===== *)
(** * Theorems on the wallet

    What the parsers of the configuration guarantee, which payments are sent, when the
    price that is shown belongs to the amount that is shown, and that no button stays
    disabled. *)
From Stdlib Require Import NArith ZArith.
From stdpp Require Import list numbers.
From S2P Require Import Prelude JsString JsNumber JsFloat Json JsArray JsRecord Pricing Currency Topup Wallet.

(** ** The configuration *)

Definition method_ok (m : PaymentMethod) : Prop :=
  nonempty (pm_name m) = true ∧ nonempty (pm_type m) = true ∧ str_eqb (pm_type m) "waffo" = false.

Lemma parsed_methods_ok data stripe m : m ∈ parsePaymentMethods data stripe → method_ok m.
Proof.
  unfold parsePaymentMethods. rewrite list_elem_of_In, filter_In. intros [_ H].
  apply andb_prop in H as [H H3]. apply andb_prop in H as [H1 H2]. split_and!; [done|done|].
  by apply negb_true_iff.
Qed.

(** A positive finite amount. *)
Definition positive_amount (x : number) : Prop := isFinite x = true ∧ num_ltb zero x = true.

(** What is read from any answer of the server: methods with a name and a type, none of
    them of the separate Waffo flow, and preset amounts that are positive and finite. *)
Theorem parsed_info_ok d :
  (∀ m, m ∈ pay_methods (processedData d) → method_ok m)
  ∧ (∀ x, x ∈ amount_options (processedData d) → positive_amount x)
  ∧ (∀ p, p ∈ creem_products (processedData d) → nonempty (cp_name p) = true ∧ nonempty (cp_productId p) = true).
Proof.
  split_and!.
  - intros m. apply parsed_methods_ok.
  - intros x. cbn [amount_options processedData]. unfold parseAmountOptions.
    rewrite list_elem_of_In, filter_In. intros [_ H]. by apply andb_prop in H.
  - intros p. cbn [creem_products processedData]. unfold parseCreemProducts.
    rewrite list_elem_of_In, filter_In. intros [_ H]. by apply andb_prop in H.
Qed.

(** A stored discount of 0 is shown as no discount. *)
Theorem zero_discount_full_price x ds info :
  discount_at x ds = Some zero → pa_discount <$> head (mergePresetAmounts [x] ds) = Some (Some (num_of_Z 1))
  ∧ (discount info = ds → preset_discount {| pa_value := x; pa_discount := None |} (Some info) = num_of_Z 1).
Proof.
  intros H. unfold mergePresetAmounts, preset_discount. cbn. rewrite H. split; [done|]. intros ->.
  cbn. by rewrite H.
Qed.

(** ** Which payments are sent *)

(** The requests that start a payment, of all five kinds. *)
Definition is_payment (r : WalletRequest) : bool :=
  match r with
  | PayReq _ _ | StripePayReq _ | PancakePayReq _ | WaffoPayReq _ _ | CreemPayReq _ => true
  | AmountReq _ | StripeAmountReq _ | PancakeAmountReq _ | RedeemReq _ | TransferReq _ => false
  end.

(** The request for a method and an amount. *)
Definition payment_request (m : PaymentMethod) (amount : number) : WalletRequest :=
  let a := Math_floor amount in
  if isWaffoPancakePayment (pm_type m) then PancakePayReq a
  else if isStripePayment (pm_type m) then StripePayReq a else PayReq a (pm_type m).

(** The method that is selected is one of those offered. *)
Definition method_offered (w : Wallet) : Prop :=
  ∀ m, wl_method w = Some m → method_ok m ∧ ∃ info, wl_info w = Some info ∧ m ∈ pay_methods info.

Definition offers_ok (w : Wallet) : Prop := ∀ info m, wl_info w = Some info → m ∈ pay_methods info → method_ok m.

(** The configuration is fetched once. *)
Definition is_fetching (c : WalletCall) : bool := match c with FetchingInfo => true | _ => false end.

Definition fetch_once (w : Wallet) : Prop :=
  length (List.filter is_fetching (wl_calls w)) ≤ match wl_info w with Some _ => 0 | None => 1 end
  ∧ (wl_info w = None → wl_method w = None).

Definition wallet_ok (w : Wallet) : Prop := method_offered w ∧ offers_ok w ∧ fetch_once w.

Lemma fetching_delete i c calls :
  calls !! i = Some c →
  length (List.filter is_fetching calls)
  = (if is_fetching c then 1 else 0) + length (List.filter is_fetching (list_delete i calls)).
Proof.
  intros (a & b & -> & -> & _)%split_call. rewrite !List.filter_app, !length_app. simpl.
  destruct (is_fetching c); simpl; lia.
Qed.

Lemma fetching_app calls c :
  is_fetching c = false →
  length (List.filter is_fetching (calls ++ [c])) = length (List.filter is_fetching calls).
Proof. intros Hc. rewrite List.filter_app, length_app. simpl. rewrite Hc. simpl. lia. Qed.

Lemma wallet_ok_frame w w' :
  wl_method w' = wl_method w → wl_info w' = wl_info w →
  length (List.filter is_fetching (wl_calls w')) ≤ length (List.filter is_fetching (wl_calls w)) →
  wallet_ok w → wallet_ok w'.
Proof.
  intros Em Ei Ec (H1 & H2 & H3 & H4). unfold wallet_ok, method_offered, offers_ok, fetch_once.
  rewrite Em, Ei. split_and!; auto. lia.
Qed.

Lemma amount_effect_ok w : wallet_ok w → wallet_ok (init_amount_effect w).
Proof.
  intros H. unfold init_amount_effect. destruct (wl_info w) eqn:E; [|done]. destruct (num_eqb _ _); [|done].
  revert H. apply wallet_ok_frame; [done|by rewrite <- E|]. cbn. by rewrite fetching_app.
Qed.

Section steps.
Context (url_protocol : jsstr → option jsstr).

(** The settlement of a call keeps configuration and method; at most the user is asked
    for again. *)
Definition is_refreshing (c : WalletCall) : bool :=
  match c with RefreshingRedeemed | RefreshingTransferred => true | _ => false end.

Lemma settle_frame c reply w w' :
  settle url_protocol c reply w = Some w' →
  wl_info w' = wl_info w ∧ wl_method w' = wl_method w
  ∧ (wl_calls w' = wl_calls w ∨ ∃ r, is_refreshing r = true ∧ wl_calls w' = wl_calls w ++ [r])
  ∧ wl_requests w' = wl_requests w ∧ wl_amount w' = wl_amount w.
Proof.
  unfold settle, calculated, paid.
  destruct c; repeat case_match; intros; simplify_eq; try done;
    repeat (case_match || simplify_eq); split_and!; try done;
    first [by left | right; eexists; split; [|reflexivity]; done].
Qed.

Lemma handler_ok e w w' :
  wallet_handler url_protocol e w = Some w' → wallet_ok w → wallet_ok w'.
Proof.
  intros Hs H. destruct e; cbn [wallet_handler] in Hs;
    try (unfold handleSelectPreset, handleAmountChange, handleTopupAmountChange, handleWaffoMethodSelect,
           handlePaymentConfirm, handleCreemProductSelect, handleCreemConfirm, handleRedeem in Hs;
         repeat (case_match || simplify_option_eq); revert H; apply wallet_ok_frame; try done;
         cbn; by rewrite ?fetching_app).
  - apply bind_Some in Hs as (m & Hm & Hs). destruct (_ && _); [|done]. simplify_eq.
    destruct H as (H1 & H2 & H3 & H4). destruct (wl_info w) as [info|] eqn:Ei; [|done].
    assert (Hin : m ∈ pay_methods info) by (by eapply list_elem_of_lookup_2).
    assert (Hok : method_ok m) by (by apply (H2 info)).
    unfold handlePaymentMethodSelect. destruct (num_ltb _ _); split_and!;
      unfold method_offered, offers_ok, fetch_once; cbn; rewrite ?fetching_app, ?Ei by done; try done;
      try (by intros ? [= <-]; eauto); intros ? ? [= <-] ?; by apply (H2 info).
  - destruct (wl_calls w !! i) as [[]|] eqn:Ec; try done. simplify_eq.
    destruct H as (H1 & H2 & H3 & H4). apply fetching_delete in Ec. simpl in Ec.
    destruct (wl_info w) as [info|] eqn:Ei; [lia|]. specialize (H4 eq_refl).
    destruct data as [d|]; split_and!; unfold method_offered, offers_ok, fetch_once; cbn; rewrite ?H4, ?Ei;
      try done; try (split; [lia|done]).
    intros info m [= <-]. apply parsed_info_ok.
  - destruct (wl_calls w !! i) as [c|] eqn:Ec; [|done]. apply settle_frame in Hs as (Ei & Em & El & _).
    revert H. apply wallet_ok_frame; [by rewrite Em|by rewrite Ei|]. rewrite (fetching_delete i c (wl_calls w) Ec).
    destruct El as [->|(r & Hr & ->)]; [cbn; lia|]. rewrite fetching_app by (by destruct r). cbn. lia.
Qed.

Lemma step_ok e w w' : wallet_step url_protocol e w = Some w' → wallet_ok w → wallet_ok w'.
Proof.
  unfold wallet_step. destruct (wallet_handler url_protocol e w) as [w1|] eqn:E; [|done].
  intros Hs H. pose proof (handler_ok _ _ _ E H). destruct (_ || _); simplify_eq; [by apply amount_effect_ok|done].
Qed.

(** What holds at the start and after every step holds in every run. *)
Lemma wallet_invariant (P : Wallet → Prop) es w w' :
  P w → (∀ e w w', wallet_step url_protocol e w = Some w' → P w → P w') →
  wallet_run url_protocol es w = Some w' → P w'.
Proof.
  intros H0 Hs. revert w H0. induction es as [|e es IH]; intros w H0 Hr; [by injection Hr as <-|].
  cbn [wallet_run] in Hr. destruct (wallet_step url_protocol e w) as [w1|] eqn:E; [|done]. eauto.
Qed.

Lemma init_ok : wallet_ok init_wallet.
Proof. by split_and!. Qed.

(** The product of the confirmation of Creem is one of those offered. *)
Definition creem_offered (w : Wallet) : Prop :=
  ∀ p, wl_creem w = Some p → ∃ info, wl_info w = Some info ∧ p ∈ creem_products info.

Lemma creem_frame w w' :
  wl_info w' = wl_info w → wl_creem w' = wl_creem w ∨ wl_creem w' = None →
  creem_offered w → creem_offered w'.
Proof. intros Ei Ec H p. rewrite Ei. destruct Ec as [->| ->]; [apply H|done]. Qed.

Lemma settle_creem c reply w w' :
  settle url_protocol c reply w = Some w' → wl_creem w' = wl_creem w ∨ wl_creem w' = None.
Proof.
  unfold settle, calculated, paid.
  destruct c; repeat case_match; intros; simplify_eq; auto; repeat (case_match || simplify_eq); auto.
Qed.

Lemma handler_creem e w w' :
  wallet_handler url_protocol e w = Some w' → wallet_ok w → creem_offered w → creem_offered w'.
Proof.
  intros Hs Hok H. destruct e; cbn [wallet_handler] in Hs;
    try (unfold handleSelectPreset, handleAmountChange, handleTopupAmountChange, handlePaymentMethodSelect,
           handleWaffoMethodSelect, handlePaymentConfirm, handleCreemConfirm, handleRedeem in Hs;
         repeat (case_match || simplify_option_eq); revert H; apply creem_frame; by auto).
  - apply bind_Some in Hs as (p & Hp & Hs). destruct (_ && _); [|done]. simplify_eq.
    destruct (wl_info w) as [info|] eqn:Ei; [|done]. intros q [= <-]. exists info.
    split; [exact Ei|]. by eapply list_elem_of_lookup_2.
  - destruct (wl_calls w !! i) as [[]|] eqn:Ec; try done. simplify_eq.
    destruct Hok as (_ & _ & H3 & _). apply fetching_delete in Ec. simpl in Ec.
    destruct (wl_info w) as [info|] eqn:Ei; [lia|]. intros p Hp.
    destruct (H p) as (info & Hi & _); [|congruence]. by destruct data.
  - destruct (wl_calls w !! i) as [c|]; [|done]. pose proof (settle_creem _ _ _ _ Hs) as Hc.
    apply settle_frame in Hs as (Ei & _). revert H. by apply creem_frame.
Qed.

Lemma reached_wallet es w :
  wallet_run url_protocol es init_wallet = Some w → wallet_ok w ∧ creem_offered w.
Proof.
  intros Hr. eapply (wallet_invariant (λ w, wallet_ok w ∧ creem_offered w)); [| |exact Hr].
  - split; [exact init_ok|done].
  - intros e v v' Hs [H1 H2]. split; [by eapply step_ok|]. unfold wallet_step in Hs.
    destruct (wallet_handler url_protocol e v) as [v1|] eqn:E; [|done].
    pose proof (handler_creem _ _ _ E H1 H2) as H. destruct (_ || _); simplify_eq; [|done].
    unfold init_amount_effect. destruct (wl_info v1) eqn:Ei; [|done]. destruct (num_eqb _ _); [|done].
    revert H. apply creem_frame; [done|by left].
Qed.

(** How a payment leaves.  [leaves_confirmed]: by the button of the open confirmation
    while no payment of it runs, for the selected method, which the server offered, and
    the whole part of the amount.  [leaves_waffo]: by the button of an offered Waffo
    method in the form, without a confirmation, for the whole part of the amount, which
    is not below the minimum of Waffo, while no method is loading.  [leaves_creem]: by
    the button of the open confirmation of Creem while none of its payments runs, for
    the product it shows, which the server offered. *)
Inductive payment_leaves (w : Wallet) : WalletEvent → WalletRequest → Prop :=
| leaves_confirmed m info :
    wl_confirmOpen w = true → wl_processing w || wl_pancakeProcessing w = false →
    wl_method w = Some m → wl_info w = Some info → m ∈ pay_methods info → method_ok m →
    payment_leaves w ClickPay (payment_request m (wl_amount w))
| leaves_waffo index info :
    modal w = false → wl_info w = Some info → flag (enable_waffo_topup info) = true →
    index < length (waffo_pay_methods info) →
    num_ltb (wl_amount w) (num_or (default NaN (waffo_min_topup info)) zero) = false →
    wl_paymentLoading w = None ∨ wl_paymentLoading w = Some [] →
    payment_leaves w (ClickWaffo index) (WaffoPayReq (Math_floor (wl_amount w)) index)
| leaves_creem product info :
    wl_creemOpen w = true → wl_creemProcessing w = false →
    wl_creem w = Some product → wl_info w = Some info → product ∈ creem_products info →
    payment_leaves w ClickBuy (CreemPayReq (cp_productId product)).

Lemma pay_leaves w w' :
  wallet_ok w → wallet_handler url_protocol ClickPay w = Some w' →
  ∃ rs, wl_requests w' = wl_requests w ++ rs ∧ ∀ r, r ∈ rs → payment_leaves w ClickPay r.
Proof.
  intros Hok Hs. cbn [wallet_handler] in Hs. destruct (wl_confirmOpen w && _) eqn:E; [|done].
  apply andb_prop in E as [Eo E%negb_true_iff]. unfold handlePaymentConfirm in Hs.
  destruct (wl_method w) as [m|] eqn:Em; simplify_eq.
  - exists [payment_request m (wl_amount w)]. split.
    + unfold payment_request. destruct (isWaffoPancakePayment (pm_type m)); [done|]. by cbn; case_match.
    + intros r ->%list_elem_of_singleton. destruct (proj1 Hok m Em) as (Hmok & info & Hi & Hin).
      by eapply leaves_confirmed.
  - exists []. rewrite app_nil_r. split; [done|]. by intros r ?%not_elem_of_nil.
Qed.

Lemma waffo_leaves w w' index :
  wallet_handler url_protocol (ClickWaffo index) w = Some w' →
  ∃ r, wl_requests w' = wl_requests w ++ [r] ∧ payment_leaves w (ClickWaffo index) r.
Proof.
  intros Hs. cbn [wallet_handler] in Hs. destruct (topup_shown w && _ && _ && _ && _) eqn:E; [|done].
  apply andb_prop in E as [E El]. apply andb_prop in E as [E Em]. apply andb_prop in E as [E Ei].
  apply andb_prop in E as [Es Ef]. simplify_eq. eexists. split; [reflexivity|].
  destruct (wl_info w) as [info|] eqn:Einf; [|done]. cbn [from_option mbind option_bind] in *.
  apply leaves_waffo with (info := info); [|done|done| | |].
  - unfold topup_shown, form_shown in Es. apply andb_prop in Es as [[_ H]%andb_prop _].
    by apply negb_true_iff in H.
  - by apply Nat.ltb_lt.
  - by apply negb_true_iff in Em.
  - destruct (wl_paymentLoading w) as [[|]|]; auto. done.
Qed.

Lemma creem_leaves w w' :
  creem_offered w → wallet_handler url_protocol ClickBuy w = Some w' →
  ∃ rs, wl_requests w' = wl_requests w ++ rs ∧ ∀ r, r ∈ rs → payment_leaves w ClickBuy r.
Proof.
  intros Hc Hs. cbn [wallet_handler] in Hs. destruct (wl_creemOpen w && _) eqn:E; [|done].
  apply andb_prop in E as [Eo E%negb_true_iff]. unfold handleCreemConfirm in Hs.
  destruct (wl_creem w) as [p|] eqn:Ep; simplify_eq.
  - eexists [_]. split; [reflexivity|]. intros r ->%list_elem_of_singleton.
    destruct (Hc p Ep) as (info & Hi & Hin). by eapply leaves_creem.
  - exists []. rewrite app_nil_r. split; [done|]. by intros r ?%not_elem_of_nil.
Qed.

Lemma handler_requests e w w' :
  wallet_ok w → creem_offered w → wallet_handler url_protocol e w = Some w' →
  ∃ rs, wl_requests w' = wl_requests w ++ rs ∧ ∀ r, r ∈ rs → is_payment r = true → payment_leaves w e r.
Proof.
  intros Hok Hc Hs.
  assert (H0 : ∀ l, l = wl_requests w →
    ∃ rs, l = wl_requests w ++ rs ∧ ∀ r, r ∈ rs → is_payment r = true → payment_leaves w e r).
  { intros v Hv. exists []. rewrite app_nil_r. split; [done|]. by intros r ?%not_elem_of_nil. }
  assert (H1 : ∀ l r, l = wl_requests w ++ [r] → is_payment r = false →
    ∃ rs, l = wl_requests w ++ rs ∧ ∀ r, r ∈ rs → is_payment r = true → payment_leaves w e r).
  { intros v r Hv Hr. exists [r]. split; [done|]. intros r' ->%list_elem_of_singleton. congruence. }
  destruct e;
    try (cbn [wallet_handler] in Hs;
         unfold handleSelectPreset, handleAmountChange, handleTopupAmountChange, handlePaymentMethodSelect,
           handleCreemProductSelect, handleRedeem in Hs;
         repeat (case_match || simplify_option_eq);
         (by apply H0) || (eapply H1; [reflexivity|repeat case_match; done])).
  - destruct (waffo_leaves _ _ _ Hs) as (r & -> & Hr). exists [r]. split; [done|].
    by intros r' ->%list_elem_of_singleton.
  - destruct (pay_leaves _ _ Hok Hs) as (rs & H & Hr). exists rs. auto.
  - destruct (creem_leaves _ _ Hc Hs) as (rs & H & Hr). exists rs. auto.
  - cbn [wallet_handler] in Hs. destruct (wl_calls w !! i) as [c|] eqn:Ec; [|done].
    apply settle_frame in Hs as (_ & _ & _ & Er & _). by apply H0.
Qed.

(** C6: Every request that starts a payment, whichever of the five kinds it is, leaves in
    one of the three ways of [payment_leaves]: from the open confirmation for the
    selected method and the whole part of the amount; from the button of a Waffo method
    for the whole part of the amount; or from the open confirmation of Creem for its
    product.  Method, Waffo method and product are ones the server offered, and neither
    dialog sends while a payment of it runs. *)
Theorem payment_sent_exact es w e w' :
  wallet_run url_protocol es init_wallet = Some w → wallet_step url_protocol e w = Some w' →
  ∃ rs, wl_requests w' = wl_requests w ++ rs
    ∧ ∀ r, r ∈ rs → is_payment r = true → payment_leaves w e r.
Proof.
  intros Hr Hs. apply reached_wallet in Hr as [Hok Hc].
  unfold wallet_step in Hs. destruct (wallet_handler url_protocol e w) as [w1|] eqn:E; [|done].
  destruct (handler_requests _ _ _ Hok Hc E) as (rs & E1 & Hp).
  assert (Hw : w' = w1 ∨ w' = init_amount_effect w1) by (destruct (_ || _); simplify_eq; auto).
  clear Hs. destruct Hw as [->| ->]; [by exists rs|].
  unfold init_amount_effect. destruct (wl_info w1); [|by exists rs].
  destruct (num_eqb (wl_amount w1) zero); [|by exists rs].
  eexists (rs ++ [_]). cbn. rewrite E1, <- app_assoc. split; [reflexivity|].
  intros r [H|H]%elem_of_app Hpay; [by apply Hp|]. apply list_elem_of_singleton in H as ->.
  by repeat case_match.
Qed.

(** ** No button stays disabled *)

Definition is_calculating (c : WalletCall) : bool := match c with Calculating _ _ _ => true | _ => false end.
Definition is_paying (c : WalletCall) : bool := match c with Paying _ => true | _ => false end.
Definition is_pancake (c : WalletCall) : bool := match c with PayingPancake => true | _ => false end.
Definition is_creem (c : WalletCall) : bool := match c with PayingCreem => true | _ => false end.
Definition is_redeeming (c : WalletCall) : bool := match c with Redeeming | RefreshingRedeemed => true | _ => false end.
Definition is_transferring (c : WalletCall) : bool := match c with Transferring | RefreshingTransferred => true | _ => false end.

(** The calls that disable the payment methods. *)
Definition holds_methods (c : WalletCall) : bool :=
  match c with Calculating _ _ true | PayingWaffo => true | _ => false end.

Definition waits (p : WalletCall → bool) (w : Wallet) : Prop := ∃ c, c ∈ wl_calls w ∧ p c = true.

Definition flags_held (w : Wallet) : Prop :=
  (wl_loading w = true → waits is_fetching w) ∧ (wl_calculating w = true → waits is_calculating w)
  ∧ (wl_processing w = true → waits is_paying w) ∧ (wl_pancakeProcessing w = true → waits is_pancake w)
  ∧ (wl_creemProcessing w = true → waits is_creem w) ∧ (wl_redeeming w = true → waits is_redeeming w)
  ∧ (wl_transferring w = true → waits is_transferring w)
  ∧ (∀ k, wl_paymentLoading w = Some k → waits holds_methods w).

Lemma waits_last (p : WalletCall → bool) (calls : list WalletCall) c : p c = true → ∃ x, x ∈ calls ++ [c] ∧ p x = true.
Proof. intros H. exists c. by rewrite elem_of_app, list_elem_of_singleton; auto. Qed.

Ltac held_one :=
  intros;
  first [done | by eauto | by apply waits_last | by apply has_app; eauto
        | by eapply has_delete; [eassumption|reflexivity|eauto]
        | by apply has_app; eapply has_delete; [eassumption|reflexivity|eauto]].

Ltac held_all := unfold flags_held, waits in *; cbn in *; destruct_and?; split_and!; held_one.

Lemma handler_held e w w' :
  wallet_handler url_protocol e w = Some w' → flags_held w → flags_held w'.
Proof.
  intros Hs H. destruct e; cbn [wallet_handler] in Hs;
    try (unfold handleSelectPreset, handleAmountChange, handleTopupAmountChange, handlePaymentMethodSelect,
           handlePaymentConfirm, handleWaffoMethodSelect, handleCreemProductSelect, handleCreemConfirm,
           handleRedeem, confirm_transfer in Hs;
         repeat (case_match || simplify_option_eq); held_all).
  destruct (wl_calls w !! i) as [c|] eqn:Ec; [|done]. unfold settle, calculated, paid in Hs.
  destruct c; repeat (case_match || simplify_eq); held_all.
Qed.

Lemma step_held e w w' : wallet_step url_protocol e w = Some w' → flags_held w → flags_held w'.
Proof.
  unfold wallet_step. destruct (wallet_handler url_protocol e w) as [w1|] eqn:E; [|done].
  intros Hs H. pose proof (handler_held _ _ _ E H) as H1. clear H E.
  destruct (_ || _); simplify_eq; [|done]. unfold init_amount_effect. repeat case_match; held_all.
Qed.

(** In every state the wallet can reach, each flag that disables a button or hides a
    price belongs to a call that still waits: no button stays disabled. *)
Theorem wallet_buttons_held es w :
  wallet_run url_protocol es init_wallet = Some w → flags_held w.
Proof.
  intros Hr. eapply wallet_invariant; [|exact step_held|exact Hr].
  unfold flags_held, waits. cbn. split_and!; try done. intros _. exists FetchingInfo.
  by rewrite list_elem_of_singleton.
Qed.

(** ** The price that is shown *)

(** The methods are disabled by exactly one call. *)
Definition loading_exact (w : Wallet) : Prop :=
  match wl_paymentLoading w with
  | Some k => nonempty k = true ∧ length (List.filter holds_methods (wl_calls w)) = 1
  | None => length (List.filter holds_methods (wl_calls w)) = 0
  end.

Lemma holds_app c calls :
  length (List.filter holds_methods (calls ++ [c]))
  = length (List.filter holds_methods calls) + if holds_methods c then 1 else 0.
Proof. rewrite List.filter_app, length_app. simpl. by destruct (holds_methods c). Qed.

Lemma holds_delete i c calls :
  calls !! i = Some c →
  length (List.filter holds_methods calls)
  = length (List.filter holds_methods (list_delete i calls)) + if holds_methods c then 1 else 0.
Proof.
  intros (a & b & -> & -> & _)%split_call. rewrite !List.filter_app, !length_app. simpl.
  destruct (holds_methods c); simpl; lia.
Qed.

Lemma handler_loading e w w' :
  wallet_handler url_protocol e w = Some w' → wallet_ok w → loading_exact w → loading_exact w'.
Proof.
  intros Hs Hok H. unfold loading_exact in *. destruct e; cbn [wallet_handler] in Hs;
    try (unfold handleSelectPreset, handleAmountChange, handleTopupAmountChange, handlePaymentConfirm,
           handleCreemProductSelect, handleCreemConfirm, handleRedeem, confirm_transfer in Hs;
         repeat (case_match || simplify_option_eq); cbn; rewrite ?holds_app; cbn;
         repeat (case_match || simplify_eq); rewrite ?Nat.add_0_r; done).
  - apply bind_Some in Hs as (m & Hm & Hs). destruct (topup_shown w && _) eqn:E; [|done]. simplify_eq.
    apply andb_prop in E as [_ E]. apply negb_true_iff in E. unfold method_disabled in E.
    apply orb_false_iff in E as [_ E]. destruct (wl_info w) as [info|] eqn:Ei; [|done].
    destruct (proj1 (proj2 Hok) info m Ei) as (_ & Ht & _); [by eapply list_elem_of_lookup_2|].
    assert (H0 : wl_paymentLoading w = None) by (destruct (wl_paymentLoading w); [destruct H; congruence|done]).
    rewrite H0 in H. unfold handlePaymentMethodSelect. destruct (num_ltb _ _); cbn; [done|].
    rewrite holds_app, H. done.
  - destruct (_ && _) eqn:E; [|done]. simplify_eq. apply andb_prop in E as [_ E].
    assert (H0 : wl_paymentLoading w = None)
      by (destruct (wl_paymentLoading w); [destruct H as [H1 _]; rewrite H1 in E; done|done]).
    rewrite H0 in H. cbn. rewrite holds_app, H. done.
  - destruct (wl_calls w !! i) as [[]|] eqn:Ec; try done. simplify_eq. apply holds_delete in Ec. cbn in Ec.
    rewrite Nat.add_0_r in Ec. rewrite Ec in H. by destruct data.
  - destruct (wl_calls w !! i) as [c|] eqn:Ec; [|done]. apply holds_delete in Ec. rewrite Ec in H.
    unfold settle, calculated, paid in Hs.
    destruct c; repeat (case_match || simplify_eq); cbn in *; rewrite ?holds_app, ?Nat.add_0_r in *; try done;
      repeat (case_match || simplify_eq); try done; try lia.
Qed.

Lemma step_loading e w w' :
  wallet_step url_protocol e w = Some w' → wallet_ok w → loading_exact w → loading_exact w'.
Proof.
  unfold wallet_step. destruct (wallet_handler url_protocol e w) as [w1|] eqn:E; [|done].
  intros Hs Hok H. pose proof (handler_loading _ _ _ E Hok H) as H1. clear H E.
  destruct (_ || _); simplify_eq; [|done]. unfold init_amount_effect.
  destruct (wl_info w1); [|done]. destruct (num_eqb _ _); [|done].
  unfold loading_exact in *. cbn. rewrite holds_app. cbn. by rewrite Nat.add_0_r.
Qed.

(** The prices of the server, and runs in which it answers the calculations in the order
    in which they were asked. *)
Context (srv : jsstr → number → option ApiResponse).

Definition in_order (e : WalletEvent) (w : Wallet) : Prop :=
  match e with
  | Settles i reply =>
      match wl_calls w !! i with
      | Some (Calculating amount type _) =>
          reply = srv type amount ∧ List.filter is_calculating (take i (wl_calls w)) = []
      | _ => True
      end
  | _ => True
  end.

Inductive orderly : Wallet → Prop :=
| orderly_init : orderly init_wallet
| orderly_step e w w' :
    orderly w → in_order e w → wallet_step url_protocol e w = Some w' → orderly w'.

Definition calcs (w : Wallet) : list WalletCall := List.filter is_calculating (wl_calls w).

(** The last calculation, or the price when none waits, is for the amount and the type. *)
Definition priced_for (t : jsstr) (w : Wallet) : Prop :=
  match list.last (calcs w) with
  | Some (Calculating a t' _) => a = wl_amount w ∧ t' = t
  | Some _ => False
  | None => wl_price w = price_in (srv t (wl_amount w))
  end.

(** The confirmation is open, or will be. *)
Definition opens_confirm (c : WalletCall) : bool :=
  match c with Calculating _ _ opens => opens | _ => false end.

Definition confirming (w : Wallet) : Prop := wl_confirmOpen w = true ∨ waits opens_confirm w.

Definition type_ok (t : jsstr) (w : Wallet) : Prop :=
  t = getCurrentPaymentType w ∨ t = getDefaultPaymentType (wl_info w).

Definition priced (w : Wallet) : Prop :=
  match wl_info w with
  | None => wl_amount w = zero
  | Some _ => ∃ t, priced_for t w ∧ (confirming w → type_ok t w)
  end.

Lemma last_calc calls c :
  is_calculating c = true → list.last (List.filter is_calculating (calls ++ [c])) = Some c.
Proof. intros H. rewrite List.filter_app. simpl. rewrite H. apply last_snoc. Qed.

Lemma calcs_app calls c :
  is_calculating c = false → List.filter is_calculating (calls ++ [c]) = List.filter is_calculating calls.
Proof. intros H. rewrite List.filter_app. simpl. by rewrite H, app_nil_r. Qed.

Lemma calcs_delete i c calls :
  calls !! i = Some c → is_calculating c = false →
  List.filter is_calculating (list_delete i calls) = List.filter is_calculating calls.
Proof.
  intros (a & b & -> & -> & _)%split_call Hc. rewrite !List.filter_app. simpl. by rewrite Hc.
Qed.

Lemma calcs_first i c calls :
  calls !! i = Some c → is_calculating c = true → List.filter is_calculating (take i calls) = [] →
  List.filter is_calculating calls = c :: List.filter is_calculating (list_delete i calls).
Proof.
  intros Hi Hc Ht. transitivity (List.filter is_calculating (take i calls ++ c :: drop (S i) calls)).
  { by rewrite take_drop_middle. }
  transitivity (c :: List.filter is_calculating (take i calls ++ drop (S i) calls)).
  - rewrite !List.filter_app, Ht. simpl. by rewrite Hc.
  - do 2 f_equal. symmetry. apply delete_take_drop.
Qed.

(** A new calculation for the amount that is set. *)
Lemma priced_new info t opens v :
  wl_info v = Some info → type_ok t v → priced (calculatePaymentAmount (wl_amount v) t opens v).
Proof.
  intros Hi Ht. unfold priced. cbn. rewrite Hi. exists t. split; [|done].
  unfold priced_for, calcs. cbn. by rewrite last_calc.
Qed.

Lemma priced_frame w w' :
  wl_info w' = wl_info w → wl_amount w' = wl_amount w → wl_price w' = wl_price w → calcs w' = calcs w →
  wl_method w' = wl_method w → (confirming w' → confirming w) → priced w → priced w'.
Proof.
  intros Ei Ea Ep Ec Em Hc. unfold priced, priced_for, type_ok, getCurrentPaymentType.
  rewrite Ei, Ea, Ep, Ec, Em. destruct (wl_info w); [|done]. intros (t0 & H1 & H2). eauto.
Qed.

Lemma effect_priced w : priced w → priced (init_amount_effect w).
Proof.
  intros H. unfold init_amount_effect. destruct (wl_info w) as [info|] eqn:E; [|done].
  destruct (num_eqb _ _); [|done]. eapply (priced_new info _ _ (set_amount _ _ w)); [done|].
  right. cbn. by rewrite E.
Qed.

Lemma effect_first w info : wl_info w = Some info → wl_amount w = zero → priced (init_amount_effect w).
Proof.
  intros E H. unfold init_amount_effect. rewrite E, H.
  apply (priced_new info _ false (set_amount (getMinTopupAmount (Some info)) (wl_preset w) w)); [done|].
  right. cbn. by rewrite E.
Qed.

Lemma topup_shown_info w : topup_shown w = true → wl_confirmOpen w = false ∧ is_Some (wl_info w).
Proof.
  unfold topup_shown, form_shown, modal, hasConfigurableTopup. destruct (wl_info w); [|by rewrite andb_false_r].
  destruct (wl_confirmOpen w); [by rewrite andb_false_r|]. eauto.
Qed.

(** While no call disables the methods, none will open the confirmation. *)
Lemma no_opener w :
  loading_exact w → wl_paymentLoading w = None → wl_confirmOpen w = false → ¬ confirming w.
Proof.
  unfold loading_exact. intros H E Hc [?|(c & Hin & Hp)]; [congruence|]. rewrite E in H.
  apply length_zero_iff_nil in H. assert (In c (List.filter holds_methods (wl_calls w))) as Hf.
  { apply filter_In. split; [by apply list_elem_of_In|]. by destruct c as [|? ? []| | | | | | | |]. }
  by rewrite H in Hf.
Qed.

Lemma in_confirming w c : c ∈ wl_calls w → opens_confirm c = true → confirming w.
Proof. right. by exists c. Qed.

(** The answer of a calculation that is the first that waits. *)
Lemma calculated_priced i a t opens w :
  wl_calls w !! i = Some (Calculating a t opens) →
  List.filter is_calculating (take i (wl_calls w)) = [] → priced w →
  priced (calculated (srv t a) opens (end_wallet_call i w)).
Proof.
  intros Hi Ht. pose proof (calcs_first _ _ _ Hi eq_refl Ht) as Hf. unfold priced.
  assert (Hc : confirming (calculated (srv t a) opens (end_wallet_call i w)) → confirming w).
  { unfold confirming, waits. destruct opens; cbn; [intros _; apply (in_confirming w (Calculating a t true)); [by eapply list_elem_of_lookup_2|done]|].
    intros [?|(c & Hin & ?)]; [by left|]. right. exists c. split; [|done]. by eapply in_delete. }
  replace (wl_info (calculated (srv t a) opens (end_wallet_call i w))) with (wl_info w) by (by destruct opens).
  destruct (wl_info w) eqn:Ei; [|by destruct opens]. intros (t' & H1 & H2). exists t'. split.
  - unfold priced_for, calcs in *. rewrite Hf in H1.
    replace (wl_calls (calculated (srv t a) opens (end_wallet_call i w)))
      with (list_delete i (wl_calls w)) by (by destruct opens).
    destruct (List.filter is_calculating (list_delete i (wl_calls w))) as [|c cs] eqn:E.
    + cbn in *. destruct H1 as [-> ->]. by destruct opens.
    + rewrite last_cons_cons in H1. destruct (list.last (c :: cs)) eqn:El; [|by apply last_None in El].
      by destruct opens.
  - intros H. apply Hc, H2 in H. unfold type_ok, getCurrentPaymentType in *. by destruct opens; cbn; rewrite Ei in *.
Qed.

Lemma settle_priced i c reply w w' :
  wl_calls w !! i = Some c → is_calculating c = false →
  settle url_protocol c reply (end_wallet_call i w) = Some w' → priced w → priced w'.
Proof.
  intros Hi Hc Hs. apply priced_frame.
  - apply settle_frame in Hs as (? & _). done.
  - apply settle_frame in Hs as (_ & _ & _ & _ & ?). done.
  - unfold settle, paid in Hs. destruct c; repeat (case_match || simplify_eq); done.
  - unfold calcs. apply settle_frame in Hs as (_ & _ & [->|(r & Hr & ->)] & _);
      rewrite ?calcs_app by (by destruct r); by apply (calcs_delete i c).
  - apply settle_frame in Hs as (_ & ? & _). done.
  - unfold confirming, waits. intros [Ho|(x & Hx & ?)].
    + left. unfold settle, paid in Hs. destruct c; repeat (case_match || simplify_eq); done.
    + right. exists x. split; [|done]. apply settle_frame in Hs as (_ & _ & [E|(r & Hr & E)] & _);
        rewrite E in Hx; cbn in Hx; [by eapply in_delete|].
      apply elem_of_app in Hx as [Hx|Hx]; [by eapply in_delete|]. apply list_elem_of_singleton in Hx as ->.
      by destruct r.
Qed.

(** Every handler but that of the configuration, and the answers in order. *)
Lemma handler_priced e w w' :
  wallet_handler url_protocol e w = Some w' → in_order e w → wallet_ok w → loading_exact w →
  (∀ i data, e ≠ InfoArrives i data) → priced w → priced w'.
Proof.
  intros Hs Ho Hok Hl Hn H. destruct e; cbn [wallet_handler] in Hs;
    try (unfold handleWaffoMethodSelect, handlePaymentConfirm, handleCreemProductSelect, handleCreemConfirm,
           handleRedeem, confirm_transfer in Hs;
         repeat (case_match || simplify_option_eq); revert H; apply priced_frame; try done;
         unfold calcs, confirming, waits; cbn; rewrite ?calcs_app by done; try done;
         (by intros [?|(x & [Hx|Hx]%elem_of_app & ?)]; [auto|eauto|]; apply list_elem_of_singleton in Hx as ->)
         || (by intros [?|?]; auto)).
  - apply bind_Some in Hs as (p & Hp & Hs). destruct (topup_shown w) eqn:E; [|done]. simplify_eq.
    apply topup_shown_info in E as [_ [info Ei]].
    apply (priced_new info _ false (set_amount _ _ w)); [done|by left].
  - destruct (topup_shown w) eqn:E; [|done]. simplify_eq. unfold handleAmountChange.
    apply topup_shown_info in E as [_ [info Ei]]. destruct (num_leb _ _); [|done].
    apply (priced_new info _ false (set_amount _ _ w)); [done|by left].
  - apply bind_Some in Hs as (m & Hm & Hs). destruct (topup_shown w && _) eqn:E; [|done]. simplify_eq.
    apply andb_prop in E as [E E2]. apply topup_shown_info in E as [Ec [info Ei]]. rewrite Ei in Hm.
    destruct (proj1 (proj2 Hok) info m Ei) as (_ & Ht & _); [by eapply list_elem_of_lookup_2|].
    unfold handlePaymentMethodSelect. destruct (num_ltb _ _).
    + assert (Hp : wl_paymentLoading w = None).
      { apply negb_true_iff, orb_false_iff in E2 as [_ E2]. unfold loading_exact in Hl.
        destruct (wl_paymentLoading w); [destruct Hl; congruence|done]. }
      unfold priced in *. cbn. rewrite Ei in *. destruct H as (t & H1 & _). exists t. split; [exact H1|].
      intros Hc. exfalso. exact (no_opener w Hl Hp Ec Hc).
    + apply (priced_new info _ true (set_payment_loading (Some (pm_type m)) (set_method m w))); [done|].
      left. unfold getCurrentPaymentType. cbn. by rewrite Ht.
  - by destruct (Hn i data).
  - destruct (wl_calls w !! i) as [c|] eqn:Ec; [|done]. destruct (is_calculating c) eqn:Eq.
    + destruct c; try done. cbn in Ho, Hs. rewrite Ec in Ho. destruct Ho as [-> Ho]. simplify_eq.
      by apply calculated_priced.
    + by eapply settle_priced.
Qed.

Lemma step_priced e w w' :
  wallet_step url_protocol e w = Some w' → in_order e w → wallet_ok w → loading_exact w →
  priced w → priced w'.
Proof.
  intros Hs Ho Hok Hl H. unfold wallet_step in Hs.
  destruct (wallet_handler url_protocol e w) as [w1|] eqn:E; [|done].
  assert (Hi : (∃ i data, e = InfoArrives i data) ∨ ∀ i data, e ≠ InfoArrives i data)
    by (destruct e; eauto; by right).
  destruct Hi as [(i & data & ->)|Hn].
  - cbn [wallet_handler] in E. destruct (wl_calls w !! i) as [[]|] eqn:Ec; try done. simplify_eq.
    destruct Hok as (_ & _ & H3 & _). apply fetching_delete in Ec. simpl in Ec.
    unfold priced in H. destruct (wl_info w) as [info|] eqn:Ei; [lia|]. destruct data as [d|].
    + match goal with |- priced (if ?b then _ else _) => replace b with true by done end.
      by apply (effect_first _ (processedData d)).
    + cbn. rewrite Ei, H. unfold priced. cbn. by rewrite Ei.
  - pose proof (handler_priced _ _ _ E Ho Hok Hl Hn H). destruct (_ || _); simplify_eq; [|done].
    by apply effect_priced.
Qed.

Lemma orderly_priced w : orderly w → wallet_ok w ∧ loading_exact w ∧ priced w.
Proof.
  induction 1 as [|e w w' _ (H1 & H2 & H3) Ho Hs]; [by split_and!|].
  split_and!; [by eapply step_ok|by eapply step_loading|by eapply step_priced].
Qed.

(** C12: When the server answers the price calculations in the order in which they were
    asked, then whenever none waits the price that is shown is the server's for the amount
    that is shown; while the confirmation is open it is for the selected method or for the
    default one. *)
Theorem price_for_amount w info :
  orderly w → wl_info w = Some info → (∀ c, c ∈ wl_calls w → is_calculating c = false) →
  ∃ t, wl_price w = price_in (srv t (wl_amount w))
    ∧ (wl_confirmOpen w = true → t = getCurrentPaymentType w ∨ t = getDefaultPaymentType (Some info)).
Proof.
  intros (_ & _ & H)%orderly_priced Hi Hc. unfold priced in H. rewrite Hi in H.
  destruct H as (t & H1 & H2). exists t. split.
  - unfold priced_for in H1. replace (calcs w) with (@nil WalletCall) in H1; [done|].
    symmetry. unfold calcs. destruct (List.filter is_calculating (wl_calls w)) as [|c cs] eqn:E; [done|].
    assert (In c (List.filter is_calculating (wl_calls w))) as [Hin Hq]%filter_In by (rewrite E; by left).
    apply list_elem_of_In, Hc in Hin. congruence.
  - intros Ho. rewrite <- Hi. apply H2. by left.
Qed.

(** ** Where the page sends the user *)

Definition locations_safe (ns : list WalletNotice) : Prop :=
  ∀ url, NoteLocation url ∈ ns → isSafeHttpCheckoutUrl url_protocol url = true.

Lemma safe_app ns ns' : locations_safe ns → locations_safe ns' → locations_safe (ns ++ ns').
Proof. intros H H' url [?|?]%elem_of_app; auto. Qed.

Lemma safe_list ns : Forall (λ n, match n with NoteLocation u => isSafeHttpCheckoutUrl url_protocol u = true | _ => True end) ns →
  locations_safe ns.
Proof. intros H url Hin. rewrite Forall_forall in H. by apply list_elem_of_In, H in Hin. Qed.

Lemma handler_safe e w w' :
  wallet_handler url_protocol e w = Some w' → locations_safe (wl_notices w) → locations_safe (wl_notices w').
Proof.
  intros Hs H. destruct e; cbn [wallet_handler] in Hs;
    try (unfold handleSelectPreset, handleAmountChange, handleTopupAmountChange, handlePaymentMethodSelect,
           handlePaymentConfirm, handleWaffoMethodSelect, handleCreemProductSelect, handleCreemConfirm,
           handleRedeem, confirm_transfer in Hs;
         repeat (case_match || simplify_option_eq); cbn; try done;
         (apply safe_app; [done|apply safe_list; by repeat constructor])).
  destruct (wl_calls w !! i) as [c|]; [|done].
  unfold settle, calculated, paid, payment_result, pancake_result, waffo_result, creem_result, redeem_result,
    transfer_result in Hs.
  destruct c; repeat (case_match || simplify_eq); cbn in *; simplify_eq; cbn; rewrite ?app_nil_r; try done;
    apply safe_app; try done; apply safe_list; by repeat constructor.
Qed.

(** The page leaves for a checkout only by an address of the web. *)
Theorem redirect_safe es w :
  wallet_run url_protocol es init_wallet = Some w → locations_safe (wl_notices w).
Proof.
  intros Hr. eapply (wallet_invariant (λ w, locations_safe (wl_notices w))); [| |exact Hr].
  - intros url Hin. by apply not_elem_of_nil in Hin.
  - intros e v v' Hs H. unfold wallet_step in Hs.
    destruct (wallet_handler url_protocol e v) as [w1|] eqn:E; [|done].
    pose proof (handler_safe _ _ _ E H). destruct (_ || _); simplify_eq; [|done].
    unfold init_amount_effect. by repeat case_match.
Qed.
End steps.

(** ** Sample runs *)

Definition sample_method (type : jsstr) : json := JObj [("name", JStr type); ("type", JStr type)].

(** Two methods, a minimum of 10 and the presets that are given. *)
Definition sample_data (options : list json) : TopupData :=
  {| td_enable_online_topup := true; td_enable_stripe_topup := true;
     td_pay_methods := Some (JArr [sample_method ALIPAY; sample_method STRIPE]);
     td_min_topup := num_of_Z 10; td_stripe_min_topup := num_of_Z 10;
     td_amount_options := Some (JArr options); td_discount := None; td_enable_creem_topup := None;
     td_creem_products := None; td_enable_waffo_topup := None; td_waffo_pay_methods := None;
     td_waffo_min_topup := None; td_enable_waffo_pancake_topup := None;
     td_waffo_pancake_min_topup := None; td_enable_redemption := None |}.

(** A server whose Stripe prices are twice the amount. *)
Definition sample_srv (type : jsstr) (amount : number) : option ApiResponse :=
  let price := if isStripePayment type then num_mul (num_of_Z 2) amount else amount in
  Some {| rs_success := Some true; rs_message := None; rs_data := Some (JStr (Number_toString price));
          rs_url := None |}.

Definition sample_run (options : list json) (es : list WalletEvent) : option Wallet :=
  wallet_run (λ _, None) (InfoArrives 0 (Some (sample_data options)) :: es) init_wallet.

(** Alipay is clicked, and its price arrives. *)
Definition alipay_events : list WalletEvent :=
  [Settles 0 (sample_srv ALIPAY (num_of_Z 10)); ClickMethod 0; Settles 0 (sample_srv ALIPAY (num_of_Z 10))].

Definition sample_wallet : Wallet := default init_wallet (sample_run [] alipay_events).

Lemma payment_sent_exact_witness :
  ∃ w', wallet_step (λ _, None) ClickPay sample_wallet = Some w'
    ∧ wl_requests w' = wl_requests sample_wallet ++ [PayReq (num_of_Z 10) ALIPAY]
    ∧ ∃ rs, wl_requests w' = wl_requests sample_wallet ++ rs
        ∧ ∀ r, r ∈ rs → is_payment r = true → payment_leaves sample_wallet ClickPay r.
Proof.
  eexists. split; [vm_compute; reflexivity|]. split; [vm_compute; reflexivity|].
  apply (payment_sent_exact (λ _, None) (InfoArrives 0 (Some (sample_data [])) :: alipay_events) sample_wallet);
    vm_compute; reflexivity.
Defined.

Lemma wallet_buttons_held_witness :
  wl_calls sample_wallet = [] ∧ flags_held sample_wallet.
Proof.
  split; [vm_compute; reflexivity|].
  apply (wallet_buttons_held (λ _, None) (InfoArrives 0 (Some (sample_data [])) :: alipay_events)).
  vm_compute. reflexivity.
Defined.

(** A run whose calculations are answered in order. *)
Fixpoint ordered (es : list WalletEvent) (w : Wallet) : Prop :=
  match es with
  | [] => True
  | e :: es => in_order sample_srv e w
               ∧ match wallet_step (λ _, None) e w with Some w => ordered es w | None => False end
  end.

Lemma ordered_orderly es w w' :
  orderly (λ _, None) sample_srv w → ordered es w → wallet_run (λ _, None) es w = Some w' →
  orderly (λ _, None) sample_srv w'.
Proof.
  revert w. induction es as [|e es IH]; intros w Hw Ho Hr; [by injection Hr as <-|].
  cbn in Ho, Hr. destruct Ho as [H1 H2]. destruct (wallet_step (λ _, None) e w) eqn:E; [|done].
  eapply IH; [|exact H2|exact Hr]. by eapply orderly_step.
Qed.

Lemma price_for_amount_witness :
  ∃ info t, wl_info sample_wallet = Some info
    ∧ wl_price sample_wallet = price_in (sample_srv t (wl_amount sample_wallet))
    ∧ (wl_confirmOpen sample_wallet = true →
       t = getCurrentPaymentType sample_wallet ∨ t = getDefaultPaymentType (Some info)).
Proof.
  destruct (price_for_amount (λ _, None) sample_srv sample_wallet (processedData (sample_data []))) as (t & H).
  - apply (ordered_orderly (InfoArrives 0 (Some (sample_data [])) :: alipay_events) init_wallet).
    + constructor.
    + vm_compute. repeat split.
    + vm_compute. reflexivity.
  - vm_compute. reflexivity.
  - intros c Hc. replace (wl_calls sample_wallet) with (@nil WalletCall) in Hc by (vm_compute; reflexivity).
    by apply not_elem_of_nil in Hc.
  - exists (processedData (sample_data [])), t. split; [vm_compute; reflexivity|exact H].
Defined.

(** ** What can go wrong *)

(** What the confirmation shows and what its button sends. *)
Definition confirmed (run : option Wallet) : option (number * number * list WalletRequest) :=
  w ← run; w' ← wallet_step (λ _, None) ClickPay w;
  Some (wl_amount w, wl_price w, drop (length (wl_requests w)) (wl_requests w')).

(** Answers that arrive in another order: the confirmation is for 1000 at the price of 10. *)
Example stale_price_confirmed :
  confirmed (sample_run [] [Settles 0 (sample_srv ALIPAY (num_of_Z 10)); ClickMethod 0; TypeTopup "1000";
                            Settles 1 (sample_srv ALIPAY (num_of_Z 1000)); Settles 0 (sample_srv ALIPAY (num_of_Z 10))])
  = Some (num_of_Z 1000, num_of_Z 10, [PayReq (num_of_Z 1000) ALIPAY]).
Proof. vm_compute. reflexivity. Qed.

(** The minimum is checked when the method is clicked, not when the payment is sent. *)
Example below_minimum_sent :
  confirmed (sample_run [] [Settles 0 (sample_srv ALIPAY (num_of_Z 10)); ClickMethod 0; TypeTopup "1";
                            Settles 0 (sample_srv ALIPAY (num_of_Z 10)); Settles 0 (sample_srv ALIPAY (num_of_Z 1))])
  = Some (num_of_Z 1, num_of_Z 1, [PayReq (num_of_Z 1) ALIPAY]).
Proof. vm_compute. reflexivity. Qed.

(** An amount that is emptied while Stripe's price is asked for: the confirmation shows the
    price of the default method, and its button pays by Stripe. *)
Example emptied_default_price :
  confirmed (sample_run [] [Settles 0 (sample_srv ALIPAY (num_of_Z 10)); ClickMethod 1; TypeTopup [];
                            Settles 0 (sample_srv STRIPE (num_of_Z 10)); Settles 0 (sample_srv STRIPE zero);
                            Settles 0 (sample_srv ALIPAY (num_of_Z 10))])
  = Some (num_of_Z 10, num_of_Z 10, [StripePayReq (num_of_Z 10)]).
Proof. vm_compute. reflexivity. Qed.

(** A preset with a fraction is priced as it is shown and paid without the fraction. *)
Example fraction_cut :
  let amount := Number_of_string "10.9" in
  confirmed (sample_run [JNum amount] [SelectPreset 0; Settles 0 (sample_srv ALIPAY (num_of_Z 10));
                                       Settles 0 (sample_srv ALIPAY amount); ClickMethod 0; Settles 0 (sample_srv ALIPAY amount)])
  = Some (amount, amount, [PayReq (num_of_Z 10) ALIPAY]).
Proof. vm_compute. reflexivity. Qed.

(** The dialog for transfers names a minimum and sends less. *)
Example small_transfer_sent :
  wl_requests <$> sample_run [] [OpenTransfer; TypeTransfer "1"; ClickTransfer]
  = Some [AmountReq (num_of_Z 10); TransferReq (num_of_Z 1)].
Proof. vm_compute. reflexivity. Qed.
