(* ===== verification/Dashboard.v ===== *)
(** * The dashboard

    [features/dashboard/lib/charts.ts], [stats.ts] and [filters.ts], with the time ranges
    and the labels of [lib/time.ts]: usage records are added up by time and model and by
    user, and turned into the values of the charts.  A JavaScript [Map] is a record in
    insertion order.  What the code uses of [dayjs], of the time zone and of the number
    format of the browser are parameters. *)
From Stdlib Require Import NArith ZArith.
From stdpp Require Import list numbers gmap.
From S2P Require Import Prelude JsString JsNumber JsFloat Json JsArray JsRecord BillingExpr Pricing Currency Messages Storage.

(** ** Usage records *)

Record QuotaDataItem : Type := {
  qi_username : option jsstr;
  qi_model_name : option jsstr;
  qi_created_at : number;
  qi_token_used : option number;
  qi_count : option number;
  qi_quota : option number
}.

(** [Number(x) || 0]. *)
Definition number_or_zero (x : option number) : number := num_or (default NaN x) zero.

Definition item_model (item : QuotaDataItem) : jsstr := str_or (qi_model_name item) "Unknown".
Definition item_user (item : QuotaDataItem) : jsstr := str_or (qi_username item) "unknown".

(** ** Statistics *)

Record DashboardStats : Type := { totalQuota : number; totalCount : number; totalTokens : number }.

Definition calculateDashboardStats (data : list QuotaDataItem) : DashboardStats :=
  fold_left (λ acc item,
    {| totalQuota := num_add (totalQuota acc) (number_or_zero (qi_quota item));
       totalCount := num_add (totalCount acc) (number_or_zero (qi_count item));
       totalTokens := num_add (totalTokens acc) (number_or_zero (qi_token_used item)) |})
    data {| totalQuota := zero; totalCount := zero; totalTokens := zero |}.

(** With the precision of 3 digits that every call uses. *)
Definition safeDivide (value divisor : number) : number :=
  let result := num_div value divisor in
  if negb (isFinite result) then zero
  else num_div (Math_round (num_mul result (num_of_Z 1000))) (num_of_Z 1000).

(** ** Times *)

Inductive TimeGranularity : Type := Hour | Day | Week.

Section time.
(** [dayjs(ms).format(pattern)], [dayjs(ms).add(n, 'day')] and the start of the day of a
    date, all in milliseconds. *)
Context (dayjs_format : number → jsstr → jsstr) (dayjs_add_days : number → Z → number)
        (start_of_day : number → number).

Definition formatChartTime (timestamp : number) (granularity : TimeGranularity) : jsstr :=
  let d := num_mul timestamp (num_of_Z 1000) in
  let result := dayjs_format d "MM-DD" in
  match granularity with
  | Hour => result ++ " " ++ dayjs_format d "HH" ++ ":00"
  | Week => result ++ " - " ++ dayjs_format (dayjs_add_days d 6) "MM-DD"
  | Day => result
  end.

Definition dateToUnixTimestamp (date : number) : number := Math_floor (num_div date (num_of_Z 1000)).

Definition toStartOfDay (tsSec : number) : number :=
  Math_floor (num_div (start_of_day (num_mul tsSec (num_of_Z 1000))) (num_of_Z 1000)).

Definition day_seconds : number := num_of_Z (24 * 3600).

(** Dates are given in milliseconds, [now_ms] is [Date.now()]. *)
Definition computeTimeRange (days : number) (startDate endDate : option number) (useStartOfDay : bool)
    (now_ms : number) : number * number :=
  let now := Math_floor (num_div now_ms (num_of_Z 1000)) in
  if useStartOfDay then
    let defaultEnd := toStartOfDay now in
    let end_ := match endDate with Some d => toStartOfDay (dateToUnixTimestamp d) | None => defaultEnd end in
    let start := match startDate with
                 | Some d => toStartOfDay (dateToUnixTimestamp d)
                 | None => num_sub end_ (num_mul (num_mul days (num_of_Z 24)) (num_of_Z 3600))
                 end in
    (start, num_sub (num_add end_ day_seconds) (num_of_Z 1))
  else
    let end_ := match endDate with
                | Some d => dateToUnixTimestamp d
                | None => num_add now (num_of_Z 3600)
                end in
    let start := match startDate with
                 | Some d => dateToUnixTimestamp d
                 | None => num_sub end_ (num_mul (num_mul days (num_of_Z 24)) (num_of_Z 3600))
                 end in
    (start, end_).

(** ** Aggregation *)

Record Metrics : Type := { mt_quota : number; mt_count : number; mt_tokens : number }.

Definition no_metrics : Metrics := {| mt_quota := zero; mt_count := zero; mt_tokens := zero |}.

Definition add_metrics (item : QuotaDataItem) (existing : Metrics) : Metrics :=
  {| mt_quota := num_add (mt_quota existing) (number_or_zero (qi_quota item));
     mt_count := num_add (mt_count existing) (number_or_zero (qi_count item));
     mt_tokens := num_add (mt_tokens existing) (number_or_zero (qi_token_used item)) |}.

(** [map.set(k, f(map.get(k) || d))]. *)
Definition map_upsert {A} (k : jsstr) (d : A) (f : A → A) (m : record A) : record A :=
  rec_set k (f (default d (rec_get k m))) m.

Section charts.
Context (granularity : TimeGranularity) (data : list QuotaDataItem).
Context (t : jsstr → jsstr) (locale_leb : jsstr → jsstr → bool) (quotaPerUnit : number).

Definition item_time (item : QuotaDataItem) : jsstr := formatChartTime (qi_created_at item) granularity.

Definition timeModelMap : record (record Metrics) :=
  fold_left (λ m item, map_upsert (item_time item) []
                         (map_upsert (item_model item) no_metrics (add_metrics item)) m) data [].

Definition modelTotalsMap : record Metrics :=
  fold_left (λ m item, map_upsert (item_model item) no_metrics (add_metrics item) m) data [].

Definition sortedTimes : list jsstr := str_sort (map fst timeModelMap).
Definition sortedModels : list jsstr := str_sort (map fst modelTotalsMap).

Definition MAX_CHART_TREND_POINTS : nat := 7.

Definition intervalSec : Z := match granularity with Week => 604800 | Day => 86400 | Hour => 3600 end.

(** [Math.max(...xs)] on numbers none of which is [NaN]. *)
Definition Math_max_of (xs : list number) : number :=
  fold_left (λ m x, if num_ltb m x then x else m) xs (SpecFloat.S754_infinity true).

Definition fillTimePoints (times : list jsstr) : list jsstr :=
  if (MAX_CHART_TREND_POINTS <=? length times)%nat then times
  else
    let lastTime := Math_max_of (map (λ item, num_or (qi_created_at item) zero) data) in
    map (λ i, formatChartTime
                (num_sub lastTime
                   (num_mul (num_of_Z (Z.of_nat (MAX_CHART_TREND_POINTS - 1 - i))) (num_of_Z intervalSec)))
                granularity)
      (seq 0 MAX_CHART_TREND_POINTS).

Definition chartTimes : list jsstr := fillTimePoints sortedTimes.

(** [xs.reduce((sum, x) => sum + (Number(f(x)) || 0), 0)]. *)
Definition sum_of {A} (f : A → number) (xs : list A) : number :=
  fold_left (λ sum x, num_add sum (num_or (f x) zero)) xs zero.

Definition totalTimes : number := sum_of mt_count (map snd modelTotalsMap).
Definition totalQuotaRaw : number := sum_of mt_quota (map snd modelTotalsMap).

(** The order [(a, b) => b - a] of a descending sort. *)
Definition descending {A} (f : A → number) (a b : A) : bool := negb (num_ltb zero (num_sub (f b) (f a))).

(** ** Charts *)

Definition pieValues : list (jsstr * number) :=
  js_sort (descending snd) (map (λ e, (e.1, num_or (mt_count e.2) zero)) modelTotalsMap).

Record ChartPoint : Type := {
  pt_Time : jsstr; pt_Model : jsstr; pt_rawQuota : number; pt_Usage : number; pt_TimeSum : number
}.

(** The metrics of a model at a time. *)
Definition stats_at (time model : jsstr) : option Metrics := rec_get time timeModelMap ≫= rec_get model.

Definition quota_at (time model : jsstr) : number := num_or (from_option mt_quota NaN (stats_at time model)) zero.
Definition count_at (time model : jsstr) : number := num_or (from_option mt_count NaN (stats_at time model)) zero.

(** [usd ? Number(usd.toFixed(4)) : 0] of a quota. *)
Definition usage_of (rawQuota : number) : number :=
  let usd := if num_truthy rawQuota then num_div rawQuota quotaPerUnit else zero in
  if num_truthy usd then Number_of_string (toFixed usd 4) else zero.

Definition by_time (a b : ChartPoint) : bool := locale_leb (pt_Time a) (pt_Time b).

Definition line_points (time : jsstr) : list ChartPoint :=
  let timeData := map (λ model, {| pt_Time := time; pt_Model := model; pt_rawQuota := quota_at time model;
                                   pt_Usage := usage_of (quota_at time model); pt_TimeSum := zero |}) sortedModels in
  let timeSum := fold_left (λ sum p, num_add sum (pt_rawQuota p)) timeData zero in
  map (λ p, {| pt_Time := pt_Time p; pt_Model := pt_Model p; pt_rawQuota := pt_rawQuota p;
               pt_Usage := pt_Usage p; pt_TimeSum := timeSum |})
    (js_sort (descending pt_rawQuota) timeData).

Definition lineValues : list ChartPoint := js_sort by_time (mjoin (map line_points chartTimes)).

Definition MAX_AREA_MODELS : nat := 15.

Definition otherLabel : jsstr := t "Other".

Definition rankedQuotaModels : list (jsstr * number) :=
  js_sort (descending snd) (map (λ e, (e.1, num_or (mt_quota e.2) zero)) modelTotalsMap).

Definition topAreaModels : list jsstr := map fst (take MAX_AREA_MODELS rankedQuotaModels).

(** A bucket: its quota and its usage. *)
Definition area_step (time : jsstr) (buckets : record (number * number)) (model : jsstr) : record (number * number) :=
  let key := if str_mem model topAreaModels then model else otherLabel in
  map_upsert key (zero, zero)
    (λ prev, (num_add prev.1 (quota_at time model),
              Number_of_string (toFixed (num_add prev.2 (usage_of (quota_at time model))) 4))) buckets.

Definition area_points (time : jsstr) : list ChartPoint :=
  let timeSum := fold_left (λ sum model, num_add sum (quota_at time model)) sortedModels zero in
  map (λ b, {| pt_Time := time; pt_Model := b.1; pt_rawQuota := b.2.1; pt_Usage := b.2.2; pt_TimeSum := timeSum |})
    (fold_left (area_step time) sortedModels []).

Definition areaValues : list ChartPoint := js_sort by_time (mjoin (map area_points chartTimes)).

Definition MAX_TREND_MODELS : nat := 20.

Definition rankedTrendModels : list (jsstr * number) :=
  js_sort (descending snd) (map (λ e, (e.1, num_or (mt_count e.2) zero)) modelTotalsMap).

Definition topTrendModels : list jsstr := map fst (take MAX_TREND_MODELS rankedTrendModels).
Definition otherTrendModels : list jsstr := map fst (drop MAX_TREND_MODELS rankedTrendModels).

Record TrendPoint : Type := { tp_Time : jsstr; tp_Model : jsstr; tp_Count : number }.

Definition trend_points (time : jsstr) : list TrendPoint :=
  map (λ model, {| tp_Time := time; tp_Model := model; tp_Count := count_at time model |}) topTrendModels
  ++ match otherTrendModels with
     | [] => []
     | _ => [{| tp_Time := time; tp_Model := otherLabel;
                tp_Count := fold_left (λ sum model, num_add sum (count_at time model)) otherTrendModels zero |}]
     end.

Definition modelLineValues : list TrendPoint :=
  js_sort (λ a b, locale_leb (tp_Time a) (tp_Time b)) (mjoin (map trend_points chartTimes)).

Definition MAX_RANK_MODELS : nat := 20.

Definition allRankValues : list (jsstr * number) := rankedTrendModels.

Definition rankValues : list (jsstr * number) :=
  if (MAX_RANK_MODELS <? length allRankValues)%nat then
    take MAX_RANK_MODELS allRankValues
    ++ [(otherLabel, fold_left (λ sum item, num_add sum item.2) (drop MAX_RANK_MODELS allRankValues) zero)]
  else allRankValues.
End charts.

(** ** Texts of quotas *)

Section texts.
(** [x.toLocaleString()]. *)
Context (toLocaleString : number → jsstr) (currency : CurrencyConfig).

Definition renderQuotaCompat (rawQuota : number) (digits : nat) : jsstr :=
  let '(config, meta) := getCurrencyDisplay currency in
  match meta with
  | MetaTokens _ => toLocaleString rawQuota
  | MetaCurrency symbol _ rate | MetaCustom symbol rate =>
      let usd := num_div rawQuota (quotaPerUnit config) in
      let value := num_mul usd rate in
      let fixed := toFixed value digits in
      if num_eqb (parseFloat fixed) zero && num_ltb zero rawQuota && num_ltb zero value
      then symbol ++ toFixed (pow10_neg digits) digits
      else symbol ++ fixed
  end.

(** ** Tooltips *)

(** A line of a tooltip before its value becomes a text; [tl_datum] is the point it is
    drawn for, as its quota and the sum of its time. *)
Record TooltipLine : Type := { tl_key : jsstr; tl_value : number; tl_datum : option (number * number) }.

Definition MAX_TOOLTIP_MODELS : nat := 15.

Definition isOtherTooltipKey (t : jsstr → jsstr) (key : jsstr) : bool :=
  str_eqb key "Other" || str_eqb key (t "Other").

(** [makeTooltipDimensionUpdateContent]: the lines with their texts. *)
Definition tooltip_lines (t : jsstr → jsstr) (collapseOverflow : bool) (array : list TooltipLine)
    : list (jsstr * jsstr) :=
  let modelItems := js_sort (descending (λ i, num_or (tl_value i) zero))
                      (List.filter (λ i, negb (isOtherTooltipKey t (tl_key i))) array) in
  let otherItems := List.filter (λ i, isOtherTooltipKey t (tl_key i)) array in
  let array := modelItems ++ otherItems in
  let sum := fold_left (λ sum i, match tl_datum i with
                                 | Some (_, timeSum) => if num_truthy timeSum then num_or timeSum sum else sum
                                 | None => sum
                                 end) array zero in
  let text := λ i, (tl_key i, renderQuotaCompat (num_or (tl_value i) zero) 4) in
  let lines :=
    if collapseOverflow && (MAX_TOOLTIP_MODELS <? length array)%nat then
      let otherSum := fold_left (λ sum i, num_add sum (match tl_datum i with
                                                       | Some (raw, _) => num_or raw zero
                                                       | None => zero
                                                       end))
                        (drop MAX_TOOLTIP_MODELS modelItems ++ otherItems) zero in
      map text (take MAX_TOOLTIP_MODELS modelItems) ++ [(t "Other", renderQuotaCompat otherSum 4)]
    else map text array in
  (t "Total:", renderQuotaCompat sum 4) :: lines.
End texts.

(** ** Users *)

Section users.
Context (granularity : TimeGranularity) (data : list QuotaDataItem) (limit : nat) (quotaPerUnit : number).

Definition userQuotaTotal : record number :=
  fold_left (λ m item,
    rec_set (item_user item)
      (num_add (num_or (default NaN (rec_get (item_user item) m)) zero) (number_or_zero (qi_quota item))) m)
    data [].

Definition sortedUsers : list (jsstr * number) := js_sort (descending snd) userQuotaTotal.
Definition topUsers : list jsstr := map fst (take limit sortedUsers).

(** The sum in the titles. *)
Definition topQuota : number := fold_left (λ s e, num_add s e.2) (take limit sortedUsers) zero.

(** [Number((q / quotaPerUnit).toFixed(4))]. *)
Definition user_usage (q : number) : number := Number_of_string (toFixed (num_div q quotaPerUnit) 4).

Record UserPoint : Type := { up_Time : jsstr; up_User : jsstr; up_rawQuota : number; up_Usage : number }.

Definition userRankValues : list (jsstr * number * number) :=
  map (λ e, (e.1, e.2, user_usage e.2)) (take limit sortedUsers).

Definition timeUserMap : record (record number) :=
  fold_left (λ m item,
    if str_mem (item_user item) topUsers
    then map_upsert (item_time granularity item) []
           (λ users, rec_set (item_user item)
              (num_add (num_or (default NaN (rec_get (item_user item) users)) zero) (number_or_zero (qi_quota item)))
              users) m
    else m) data [].

Definition sortedTimePoints : list jsstr := str_sort (str_dedup (map (item_time granularity) data)).

Definition user_quota_at (time user : jsstr) : number :=
  num_or (default NaN (rec_get time timeUserMap ≫= rec_get user)) zero.

Definition trendValues : list UserPoint :=
  mjoin (map (λ time, map (λ user, {| up_Time := time; up_User := user;
                                      up_rawQuota := user_quota_at time user;
                                      up_Usage := user_usage (user_quota_at time user) |}) topUsers)
           sortedTimePoints).
End users.
End time.

(** ** Preferences *)

Definition TIME_GRANULARITY_STORAGE_KEY : jsstr := "data_export_default_time".
Definition DASHBOARD_CHART_PREFERENCES_STORAGE_KEY : jsstr := "dashboard_models_chart_preferences".

Definition granularity_str (g : TimeGranularity) : jsstr :=
  match g with Hour => "hour" | Day => "day" | Week => "week" end.

Definition isTimeGranularity (value : jsstr) : option TimeGranularity :=
  if str_eqb value "hour" then Some Hour
  else if str_eqb value "day" then Some Day
  else if str_eqb value "week" then Some Week else None.

Inductive ConsumptionDistributionChartType : Type := BarChart | AreaChart.
Inductive ModelAnalyticsChartTab : Type := TrendTab | ProportionTab | TopTab.

Definition chart_str (c : ConsumptionDistributionChartType) : jsstr :=
  match c with BarChart => "bar" | AreaChart => "area" end.
Definition isConsumptionDistributionChartType (value : jsstr) : option ConsumptionDistributionChartType :=
  if str_eqb value "bar" then Some BarChart else if str_eqb value "area" then Some AreaChart else None.

Definition tab_str (c : ModelAnalyticsChartTab) : jsstr :=
  match c with TrendTab => "trend" | ProportionTab => "proportion" | TopTab => "top" end.
Definition isModelAnalyticsChartTab (value : jsstr) : option ModelAnalyticsChartTab :=
  if str_eqb value "trend" then Some TrendTab
  else if str_eqb value "proportion" then Some ProportionTab
  else if str_eqb value "top" then Some TopTab else None.

Record DashboardChartPreferences : Type := {
  consumptionDistributionChart : ConsumptionDistributionChartType;
  modelAnalyticsChart : ModelAnalyticsChartTab;
  defaultTimeRangeDays : number;
  defaultTimeGranularity : TimeGranularity
}.

Definition DEFAULT_TIME_GRANULARITY : TimeGranularity := Hour.

Definition DEFAULT_DASHBOARD_CHART_PREFERENCES : DashboardChartPreferences :=
  {| consumptionDistributionChart := BarChart; modelAnalyticsChart := TrendTab;
     defaultTimeRangeDays := num_of_Z 1; defaultTimeGranularity := DEFAULT_TIME_GRANULARITY |}.

(** The days of [TIME_RANGE_PRESETS]. *)
Definition TIME_RANGE_PRESETS : list number := map num_of_Z [1; 7; 14; 29]%Z.

Definition isTimeRangePresetDays (value : number) : bool := existsb (λ days, num_eqb days value) TIME_RANGE_PRESETS.

Definition TIME_RANGE_BY_GRANULARITY (g : TimeGranularity) : number :=
  match g with Hour => num_of_Z 1 | Day => num_of_Z 7 | Week => num_of_Z 30 end.

Definition preferences_json (p : DashboardChartPreferences) : json :=
  JObj [(("consumptionDistributionChart" : jsstr), JStr (chart_str (consumptionDistributionChart p)));
        (("modelAnalyticsChart" : jsstr), JStr (tab_str (modelAnalyticsChart p)));
        (("defaultTimeRangeDays" : jsstr), JNum (defaultTimeRangeDays p));
        (("defaultTimeGranularity" : jsstr), JStr (granularity_str (defaultTimeGranularity p)))].

Definition getLegacySavedGranularity (st : Storage) : TimeGranularity :=
  match st !! TIME_GRANULARITY_STORAGE_KEY with
  | Some saved => default DEFAULT_TIME_GRANULARITY (isTimeGranularity saved)
  | None => DEFAULT_TIME_GRANULARITY
  end.

(** A property that is a text of one of the kinds. *)
Definition text_choice {A} (kind : jsstr → option A) (k : jsstr) (parsed : list (jsstr * json)) (d : A) : A :=
  match obj_get k parsed with Some (JStr s) => default d (kind s) | _ => d end.

Definition getSavedChartPreferences (st : Storage) : DashboardChartPreferences :=
  let fallback :=
    {| consumptionDistributionChart := consumptionDistributionChart DEFAULT_DASHBOARD_CHART_PREFERENCES;
       modelAnalyticsChart := modelAnalyticsChart DEFAULT_DASHBOARD_CHART_PREFERENCES;
       defaultTimeRangeDays := defaultTimeRangeDays DEFAULT_DASHBOARD_CHART_PREFERENCES;
       defaultTimeGranularity := getLegacySavedGranularity st |} in
  match st !! DASHBOARD_CHART_PREFERENCES_STORAGE_KEY with
  | Some raw =>
      if negb (nonempty raw) then fallback
      else match JSON_parse raw with
           | Some (JObj parsed) =>
               {| consumptionDistributionChart :=
                    text_choice isConsumptionDistributionChartType "consumptionDistributionChart" parsed
                      (consumptionDistributionChart fallback);
                  modelAnalyticsChart :=
                    text_choice isModelAnalyticsChartTab "modelAnalyticsChart" parsed (modelAnalyticsChart fallback);
                  defaultTimeRangeDays :=
                    match obj_get "defaultTimeRangeDays" parsed with
                    | Some (JNum n) => if isTimeRangePresetDays n then n else defaultTimeRangeDays fallback
                    | _ => defaultTimeRangeDays fallback
                    end;
                  defaultTimeGranularity :=
                    text_choice isTimeGranularity "defaultTimeGranularity" parsed (defaultTimeGranularity fallback) |}
           | _ => fallback
           end
  | None => fallback
  end.

Definition getSavedGranularity (override : option TimeGranularity) (st : Storage) : TimeGranularity :=
  match override with Some g => g | None => defaultTimeGranularity (getSavedChartPreferences st) end.

Section saving.
Context (fits : Storage → jsstr → jsstr → bool).

(** [None] when the storage throws. *)
Definition saveChartPreferences (p : DashboardChartPreferences) (st : Storage) : option Storage :=
  setItem fits DASHBOARD_CHART_PREFERENCES_STORAGE_KEY (JSON_stringify (preferences_json p)) st.

Definition saveGranularity (g : TimeGranularity) (st : Storage) : option Storage :=
  let p := getSavedChartPreferences st in
  st' ← saveChartPreferences
    {| consumptionDistributionChart := consumptionDistributionChart p;
       modelAnalyticsChart := modelAnalyticsChart p; defaultTimeRangeDays := defaultTimeRangeDays p;
       defaultTimeGranularity := g |} st;
  setItem fits TIME_GRANULARITY_STORAGE_KEY (granularity_str g) st'.
End saving.

Definition getDefaultDays (granularity : option TimeGranularity) (st : Storage) : number :=
  match granularity with
  | None => defaultTimeRangeDays (getSavedChartPreferences st)
  | Some g => TIME_RANGE_BY_GRANULARITY (getSavedGranularity (Some g) st)
  end.

(** [cleanFilters] on values that are texts, numbers or missing. *)
Inductive FilterValue : Type := FNone | FText (s : jsstr) | FNumber (n : number).

Definition cleanFilters (filters : list (jsstr * FilterValue)) : list (jsstr * FilterValue) :=
  fold_left (λ cleaned e, match e.2 with
                          | FNone => cleaned
                          | FText s => if nonempty (trim s) then rec_set e.1 (FText (trim s)) cleaned else cleaned
                          | FNumber n => rec_set e.1 (FNumber n) cleaned
                          end) (entries filters) [].
