(* ===== verification/DashboardTheorems.v ===== *)
(** * Theorems on the dashboard

    Every chart shows the whole usage: the sums of its values are the totals of the
    records, as long as these are whole numbers below [2^53] and enough times occur.
    The stored preferences are read back. *)
From Stdlib Require Import NArith ZArith.
From stdpp Require Import list numbers gmap.
From S2P Require Import Prelude JsString JsNumber JsFloat Json JsArray JsonRoundtrip JsRecord Currency Messages Storage Dashboard.

(** ** Sums of integers *)

Fixpoint zsum {A} (f : A → Z) (l : list A) : Z :=
  match l with [] => 0 | x :: l => f x + zsum f l end.

Section zsum.
Context {A : Type}.
Implicit Types (f g : A → Z) (l : list A).

Lemma zsum_app f l l' : zsum f (l ++ l') = (zsum f l + zsum f l')%Z.
Proof. induction l; simpl; lia. Qed.

Lemma zsum_perm f l l' : Permutation l l' → zsum f l = zsum f l'.
Proof. induction 1; simpl; lia. Qed.

Lemma zsum_ext f g l : (∀ x, x ∈ l → f x = g x) → zsum f l = zsum g l.
Proof. induction l as [|x l IH]; intros H; simpl; [done|]. rewrite H, IH; [done|..]; set_solver. Qed.

Lemma zsum_map {B} (h : B → A) f (l : list B) : zsum f (map h l) = zsum (λ x, f (h x)) l.
Proof. induction l as [|x l IH]; simpl; [done|]. by rewrite IH. Qed.

Lemma zsum_nonneg f l : (∀ x, x ∈ l → (0 <= f x)%Z) → (0 <= zsum f l)%Z.
Proof.
  induction l as [|x l IH]; intros H; simpl; [done|]. assert (0 <= f x)%Z by (apply H; set_solver).
  assert (0 <= zsum f l)%Z by (apply IH; set_solver). lia.
Qed.

Lemma zsum_filter_le f p l : (∀ x, x ∈ l → (0 <= f x)%Z) → (zsum f (List.filter p l) <= zsum f l)%Z.
Proof.
  induction l as [|x l IH]; intros H; simpl; [done|].
  assert (0 <= f x)%Z by (apply H; set_solver).
  assert (zsum f (List.filter p l) <= zsum f l)%Z by (apply IH; set_solver).
  destruct (p x); simpl; lia.
Qed.

Lemma zsum_plus f g l : zsum (λ x, f x + g x)%Z l = (zsum f l + zsum g l)%Z.
Proof. induction l; simpl; lia. Qed.

End zsum.

(** Splitting by a key. *)
Lemma zsum_pick (ks : list jsstr) k v :
  NoDup ks → k ∈ ks → zsum (λ k', if str_eqb k' k then v else 0%Z) ks = v.
Proof.
  induction ks as [|k0 ks IH]; intros Hn Hk; [by apply not_elem_of_nil in Hk|].
  apply list.NoDup_cons in Hn as [Hn0 Hn]. simpl. destruct (str_eqb_spec k0 k) as [->|Hne].
  - replace (zsum _ ks) with 0%Z; [lia|]. symmetry. clear IH Hk Hn.
    induction ks as [|k1 ks IH]; simpl; [done|]. apply not_elem_of_cons in Hn0 as [H1 H2].
    rewrite (proj2 (str_eqb_neq k1 k)) by congruence. by rewrite IH.
  - apply elem_of_cons in Hk as [?|Hk]; [congruence|]. by rewrite IH.
Qed.

Lemma zsum_split {A} (key : A → jsstr) (f : A → Z) (ks : list jsstr) (l : list A) :
  NoDup ks → (∀ x, x ∈ l → key x ∈ ks) →
  zsum (λ k, zsum f (List.filter (λ x, str_eqb k (key x)) l)) ks = zsum f l.
Proof.
  intros Hn. induction l as [|x l IH]; intros Hk; simpl.
  - clear Hn Hk. induction ks; simpl; lia.
  - rewrite <- IH by set_solver. rewrite <- (zsum_pick ks (key x) (f x)) by (try done; set_solver).
    rewrite <- zsum_plus. apply zsum_ext. intros k _. by destruct (str_eqb k (key x)).
Qed.

Lemma zsum_swap {A B} (f : A → B → Z) (la : list A) (lb : list B) :
  zsum (λ a, zsum (f a) lb) la = zsum (λ b, zsum (λ a, f a b) la) lb.
Proof.
  induction la as [|a la IH]; cbn [zsum].
  - induction lb as [|b lb IHb]; cbn [zsum]; lia.
  - by rewrite IH, <- zsum_plus.
Qed.

Lemma filter_filter {A} (p q : A → bool) (l : list A) :
  List.filter p (List.filter q l) = List.filter (λ x, q x && p x) l.
Proof. induction l as [|x l IH]; simpl; [done|]. destruct (q x); simpl; rewrite ?IH; [by destruct (p x)|done]. Qed.

Lemma filter_true {A} (l : list A) : List.filter (λ _, true) l = l.
Proof. induction l as [|x l IH]; simpl; [done|]. by rewrite IH. Qed.

(** ** Sums of numbers *)

(** The numbers are whole and add up to the total. *)
Definition adds_up (xs : list number) (total : Z) : Prop :=
  ∃ zs, xs = map num_of_Z zs ∧ Forall (λ z, 0 <= z)%Z zs ∧ zsum id zs = total.

Lemma adds_up_map {A} (v : A → number) f (l : list A) :
  (∀ x, x ∈ l → v x = num_of_Z (f x) ∧ (0 <= f x)%Z) → adds_up (map v l) (zsum f l).
Proof.
  intros H. exists (map f l). split_and!.
  - rewrite map_map. apply map_ext_in. intros x Hx%list_elem_of_In. by apply H.
  - apply List.Forall_forall. intros z (x & <- & Hx)%in_map_iff. by apply H, list_elem_of_In.
  - by rewrite zsum_map.
Qed.

Lemma adds_up_perm xs ys total : Permutation xs ys → adds_up ys total → adds_up xs total.
Proof.
  intros Hp (zs & -> & Hz & Hs). apply Permutation_map_inv in Hp as (zs' & -> & Hp).
  exists zs'. split_and!; [done|by eapply Permutation_Forall|]. rewrite <- Hs. symmetry. by apply zsum_perm.
Qed.

Lemma adds_up_app xs ys a b : adds_up xs a → adds_up ys b → adds_up (xs ++ ys) (a + b).
Proof.
  intros (zs & -> & Hz & <-) (zs' & -> & Hz' & <-). exists (zs ++ zs').
  rewrite map_app, zsum_app. split_and!; [done|by apply Forall_app|done].
Qed.

Lemma adds_up_one x z : x = num_of_Z z → (0 <= z)%Z → adds_up [x] z.
Proof. intros -> Hz. exists [z]. split_and!; [done|by constructor|simpl; unfold id; lia]. Qed.

Lemma adds_up_join {A B} (v : B → number) (h : A → list B) f (l : list A) :
  (∀ x, x ∈ l → adds_up (map v (h x)) (f x)) → adds_up (map v (mjoin (map h l))) (zsum f l).
Proof.
  induction l as [|x l IH]; intros H; simpl; [by exists []|]. rewrite map_app.
  apply adds_up_app; [apply H; set_solver|apply IH; set_solver].
Qed.

(** A sum that stays below [2^53] is exact. *)
Lemma fold_add_int {A} (g : A → number) f (l : list A) acc :
  (∀ x, x ∈ l → g x = num_of_Z (f x) ∧ (0 <= f x)%Z) → (0 <= acc)%Z → (acc + zsum f l < 2 ^ 53)%Z →
  fold_left (λ s x, num_add s (g x)) l (num_of_Z acc) = num_of_Z (acc + zsum f l).
Proof.
  revert acc. induction l as [|x l IH]; intros acc H Ha Hb; cbn [fold_left zsum] in *; [by rewrite Z.add_0_r|].
  destruct (H x) as [E Hx]; [set_solver|].
  assert (0 <= zsum f l)%Z by (apply zsum_nonneg; intros; apply H; set_solver).
  rewrite E, num_add_int, IH; [f_equal; lia|set_solver|lia|lia|lia|lia|lia].
Qed.

Lemma num_or_int z : (0 <= z < 2 ^ 53)%Z → num_or (num_of_Z z) zero = num_of_Z z.
Proof. intros Hz. destruct (decide (z = 0%Z)) as [->|]; [done|]. by rewrite num_of_Z_int by lia. Qed.

(** What a map of sums holds after all records were added. *)
Section fold_map.
Context {I M : Type} (upd : M → I → M) (get : M → number) (hit : I → bool) (g : I → number) (f : I → Z).

Lemma fold_map_sum (l : list I) m :
  (∀ m x z, get m = num_of_Z z → (0 <= z)%Z → (z + f x < 2 ^ 53)%Z → g x = num_of_Z (f x) → (0 <= f x)%Z →
     get (upd m x) = if hit x then num_of_Z (z + f x) else num_of_Z z) →
  (∀ x, x ∈ l → g x = num_of_Z (f x) ∧ (0 <= f x)%Z) → get m = zero → (zsum f l < 2 ^ 53)%Z →
  get (fold_left upd l m) = num_of_Z (zsum f (List.filter hit l)).
Proof.
  intros Hs. induction l as [|x l IH] using rev_ind; intros H Hm Hb; [done|].
  rewrite zsum_app in Hb. cbn [zsum] in Hb. destruct (H x) as [E Hx]; [set_solver|].
  assert (Hl : ∀ y, y ∈ l → (0 <= f y)%Z) by (intros; apply H; set_solver).
  pose proof (zsum_nonneg _ _ Hl). pose proof (zsum_filter_le f hit l Hl).
  assert (0 <= zsum f (List.filter hit l))%Z.
  { apply zsum_nonneg. intros y Hy. apply Hl. apply list_elem_of_In. apply list_elem_of_In, filter_In in Hy. tauto. }
  rewrite fold_left_app, List.filter_app, zsum_app. cbn [fold_left List.filter].
  rewrite (Hs _ x (zsum f (List.filter hit l))); [|apply IH; [set_solver|done|lia]|done|lia|done|done].
  destruct (hit x); cbn [zsum]; f_equal; lia.
Qed.
End fold_map.

(** ** Records of whole amounts *)

Definition item_quota (item : QuotaDataItem) : Z := default 0%Z (num_to_Z (number_or_zero (qi_quota item))).
Definition item_count (item : QuotaDataItem) : Z := default 0%Z (num_to_Z (number_or_zero (qi_count item))).

(** Quota and number of calls are whole, or missing. *)
Definition exact_item (item : QuotaDataItem) : Prop :=
  (number_or_zero (qi_quota item) = num_of_Z (item_quota item) ∧ (0 <= item_quota item)%Z)
  ∧ (number_or_zero (qi_count item) = num_of_Z (item_count item) ∧ (0 <= item_count item)%Z).

(** The amounts of one kind are whole and their sum is exact. *)
Definition exact_amounts (amount : QuotaDataItem → option number) (z : QuotaDataItem → Z)
    (data : list QuotaDataItem) : Prop :=
  (∀ item, item ∈ data → number_or_zero (amount item) = num_of_Z (z item) ∧ (0 <= z item)%Z)
  ∧ (zsum z data < 2 ^ 53)%Z.

Lemma upsert_get {A} k k' (d : A) f m :
  rec_get k (map_upsert k' d f m) = if str_eqb k k' then Some (f (default d (rec_get k' m))) else rec_get k m.
Proof. apply rec_get_set. Qed.

Lemma upsert_key {A} k k' (d : A) f m : k ∈ map fst (map_upsert k' d f m) ↔ k = k' ∨ k ∈ map fst m.
Proof.
  rewrite <- !rec_get_keys, upsert_get. destruct (str_eqb_spec k k') as [->|Hn].
  - split; [by left|]. intros _. by eexists.
  - split; [by right|]. intros [?|?]; [done|done].
Qed.

(** The keys of a map of sums are those of the records, each once. *)
Lemma fold_upsert_keys {I A} (key : I → jsstr) (d : A) (f : I → A → A) (l : list I) m :
  distinct m →
  let m' := fold_left (λ m i, map_upsert (key i) d (f i) m) l m in
  distinct m' ∧ ∀ k, k ∈ map fst m' ↔ k ∈ map key l ∨ k ∈ map fst m.
Proof.
  revert m. induction l as [|i l IH]; intros m Hm; cbn [fold_left map].
  - split; [done|]. intros k. split; [by right|]. intros [H|H]; [by apply not_elem_of_nil in H|done].
  - destruct (IH (map_upsert (key i) d (f i) m)) as [H1 H2]; [by apply distinct_set|]. split; [done|].
    intros k. rewrite H2, elem_of_cons, upsert_key. tauto.
Qed.

(** ** One metric *)

Section metric.
Context (dayjs_format : number → jsstr → jsstr) (dayjs_add_days : number → Z → number).
Context (granularity : TimeGranularity) (data : list QuotaDataItem).
Context (metric : Metrics → number) (amount : QuotaDataItem → option number) (z : QuotaDataItem → Z).
Context (Hnone : metric no_metrics = zero).
Context (Hadd : ∀ i mt, metric (add_metrics i mt) = num_add (metric mt) (number_or_zero (amount i))).
Context (Hdata : exact_amounts amount z data).

Definition time_of : QuotaDataItem → jsstr := item_time dayjs_format dayjs_add_days granularity.

Lemma z_filter p : (0 <= zsum z (List.filter p data) < 2 ^ 53)%Z.
Proof.
  destruct Hdata as [H Hb]. pose proof (zsum_filter_le z p data (λ i Hi, proj2 (H i Hi))). split; [|lia].
  apply zsum_nonneg. intros i Hi. apply H, list_elem_of_In. apply list_elem_of_In, filter_In in Hi. tauto.
Qed.

(** What the maps hold. *)
Lemma model_total k :
  metric (default no_metrics (rec_get k (modelTotalsMap data)))
  = num_of_Z (zsum z (List.filter (λ i, str_eqb k (item_model i)) data)).
Proof.
  destruct Hdata as [H Hb].
  apply (fold_map_sum _ (λ m, metric (default no_metrics (rec_get k m))) _ (λ i, number_or_zero (amount i)));
    [|exact H|done|done].
  intros m x y Hm Hy Hxy E Hx. rewrite upsert_get. destruct (str_eqb_spec k (item_model x)) as [->|_]; [|done].
  transitivity (num_add (num_of_Z y) (num_of_Z (z x))); [|by apply num_add_int].
  rewrite <- Hm, <- E. apply Hadd.
Qed.

(** The records of a time and a model. *)
Definition at_cell (time model : jsstr) (i : QuotaDataItem) : bool :=
  str_eqb time (time_of i) && str_eqb model (item_model i).

Lemma cell_get time model m x :
  rec_get time (map_upsert (time_of x) [] (map_upsert (item_model x) no_metrics (add_metrics x)) m) ≫= rec_get model
  = if at_cell time model x
    then Some (add_metrics x (default no_metrics (rec_get time m ≫= rec_get model)))
    else rec_get time m ≫= rec_get model.
Proof.
  unfold at_cell. rewrite upsert_get. destruct (str_eqb_spec time (time_of x)) as [->|_]; [|done].
  cbn [andb]. change (Some ?a ≫= ?f) with (f a). rewrite upsert_get.
  destruct (str_eqb_spec model (item_model x)) as [->|_]; by destruct (rec_get (time_of x) m).
Qed.

Lemma cell_total time model :
  num_or (from_option metric NaN (stats_at dayjs_format dayjs_add_days granularity data time model)) zero
  = num_of_Z (zsum z (List.filter (at_cell time model) data)).
Proof.
  assert (E : metric (default no_metrics (stats_at dayjs_format dayjs_add_days granularity data time model))
              = num_of_Z (zsum z (List.filter (at_cell time model) data))).
  { destruct Hdata as [H Hb]. unfold stats_at.
    apply (fold_map_sum _ (λ m, metric (default no_metrics (rec_get time m ≫= rec_get model)))
      _ (λ i, number_or_zero (amount i))); [|exact H|done|done].
    intros m x y Hm Hy Hxy E Hx. fold (time_of x). rewrite cell_get. destruct (at_cell time model x); [|done].
    transitivity (num_add (num_of_Z y) (num_of_Z (z x))); [|by apply num_add_int].
    rewrite <- Hm, <- E. apply Hadd. }
  destruct (stats_at _ _ _ _ _ _) as [mt|]; cbn in *.
  - rewrite E. apply num_or_int, z_filter.
  - by rewrite <- E, Hnone.
Qed.

(** The models, and the times when they are not padded, divide the records. *)
Lemma over_models (ks : list jsstr) p :
  Permutation ks (map fst (modelTotalsMap data)) →
  zsum (λ k, zsum z (List.filter (λ i, p i && str_eqb k (item_model i)) data)) ks = zsum z (List.filter p data).
Proof.
  intros Hk. destruct (fold_upsert_keys item_model no_metrics add_metrics data []) as [Hn He]; [apply distinct_nil|].
  rewrite <- (zsum_split item_model z ks).
  - apply zsum_ext. intros k _. by rewrite filter_filter.
  - rewrite Hk. exact Hn.
  - intros i Hi. rewrite Hk. apply He. left. apply list_elem_of_In, in_map.
    apply list_elem_of_In, filter_In in Hi. tauto.
Qed.

Lemma over_times (ks : list jsstr) :
  Permutation ks (map fst (timeModelMap dayjs_format dayjs_add_days granularity data)) →
  zsum (λ k, zsum z (List.filter (λ i, str_eqb k (time_of i)) data)) ks = zsum z data.
Proof.
  intros Hk. destruct (fold_upsert_keys time_of []
    (λ x, map_upsert (item_model x) no_metrics (add_metrics x)) data []) as [Hn He]; [apply distinct_nil|].
  apply zsum_split.
  - rewrite Hk. exact Hn.
  - intros i Hi. rewrite Hk. apply He. left. by apply list_elem_of_In, in_map, list_elem_of_In.
Qed.

(** The entries of the totals. *)
Definition model_sum (k : jsstr) : Z := zsum z (List.filter (λ i, str_eqb k (item_model i)) data).

Lemma entry_total e :
  e ∈ modelTotalsMap data → num_or (metric e.2) zero = num_of_Z (model_sum e.1) ∧ (0 <= model_sum e.1)%Z.
Proof.
  destruct e as [k mt]. intros He. pose proof (model_total k) as E.
  rewrite (rec_elem_get k mt) in E; [|by apply (fold_upsert_keys item_model no_metrics add_metrics data []), distinct_nil|done].
  cbn in *. rewrite E. split; [apply num_or_int|]; apply z_filter.
Qed.

Lemma sum_over_models (ks : list jsstr) :
  Permutation ks (map fst (modelTotalsMap data)) → zsum model_sum ks = zsum z data.
Proof.
  intros Hk. pose proof (over_models ks (λ _, true) Hk) as H. rewrite filter_true in H. exact H.
Qed.

(** A list of the models with their totals. *)
Definition ranked (l : list (jsstr * number)) : Prop :=
  Permutation (map fst l) (map fst (modelTotalsMap data))
  ∧ ∀ e, e ∈ l → e.2 = num_of_Z (model_sum e.1) ∧ (0 <= model_sum e.1)%Z.

Lemma sorted_ranked le : ranked (js_sort le (map (λ e, (e.1, num_or (metric e.2) zero)) (modelTotalsMap data))).
Proof.
  split.
  - rewrite js_sort_perm, map_map. by rewrite (map_ext _ fst).
  - intros e He. rewrite js_sort_perm in He. apply list_elem_of_In, in_map_iff in He as (e' & <- & He').
    cbn. by apply entry_total, list_elem_of_In.
Qed.

Lemma ranked_sum l : ranked l → zsum (λ e, model_sum e.1) l = zsum z data.
Proof. intros [Hp _]. rewrite <- (sum_over_models _ Hp). by rewrite zsum_map. Qed.

Lemma ranked_adds_up l : ranked l → adds_up (map snd l) (zsum z data).
Proof. intros Hl. rewrite <- (ranked_sum l Hl). apply adds_up_map. apply Hl. Qed.

(** The models beyond the first ones are added up. *)
Lemma ranked_rest n l :
  ranked l → adds_up (map snd (take n l) ++ [fold_left (λ sum e, num_add sum e.2) (drop n l) zero]) (zsum z data).
Proof.
  intros Hl. pose proof (ranked_sum l Hl) as Hs. rewrite <- (take_drop n l), zsum_app in Hs.
  assert (Hd : ∀ e, e ∈ take n l ∨ e ∈ drop n l → e.2 = num_of_Z (model_sum e.1) ∧ (0 <= model_sum e.1)%Z).
  { intros e He. apply Hl. rewrite <- (take_drop n l). by apply elem_of_app. }
  assert (0 <= zsum (λ e, model_sum e.1) (take n l))%Z by (apply zsum_nonneg; intros; by apply Hd; left).
  assert (0 <= zsum (λ e, model_sum e.1) (drop n l))%Z by (apply zsum_nonneg; intros; by apply Hd; right).
  rewrite <- Hs. apply adds_up_app; [apply adds_up_map; auto|]. apply adds_up_one; [|done].
  apply (fold_add_int snd (λ e, model_sum e.1) _ 0); [auto|done|]. destruct Hdata. lia.
Qed.

(** The sum of a time. *)
Definition time_sum (time : jsstr) : Z := zsum z (List.filter (λ i, str_eqb time (time_of i)) data).

Definition cell (time model : jsstr) : number :=
  num_or (from_option metric NaN (stats_at dayjs_format dayjs_add_days granularity data time model)) zero.

Definition cell_sum (time model : jsstr) : Z := zsum z (List.filter (at_cell time model) data).

Lemma cell_int time model : cell time model = num_of_Z (cell_sum time model) ∧ (0 <= cell_sum time model)%Z.
Proof. split; [apply cell_total|apply z_filter]. Qed.

Lemma row_sum time ks :
  Permutation ks (map fst (modelTotalsMap data)) → zsum (cell_sum time) ks = time_sum time.
Proof. intros Hk. exact (over_models ks (λ i, str_eqb time (time_of i)) Hk). Qed.

Lemma row_adds_up time ks :
  Permutation ks (map fst (modelTotalsMap data)) → adds_up (map (cell time) ks) (time_sum time).
Proof. intros Hk. rewrite <- (row_sum time ks Hk). apply adds_up_map. intros k _. apply cell_int. Qed.

Lemma row_fold time ks :
  (zsum (cell_sum time) ks < 2 ^ 53)%Z →
  fold_left (λ sum k, num_add sum (cell time k)) ks zero = num_of_Z (zsum (cell_sum time) ks).
Proof. intros Hb. apply (fold_add_int (cell time) (cell_sum time) ks 0); [intros; apply cell_int|done|done]. Qed.

Lemma time_sum_range time : (0 <= time_sum time < 2 ^ 53)%Z.
Proof. apply z_filter. Qed.
End metric.

(** A bucket of a map takes an amount. *)
Lemma upsert_adds_up {A} (v : A → number) k (d : A) f m total y :
  (∀ a, v (f a) = num_add (v a) (num_of_Z y)) → v d = zero → (0 <= y)%Z → (total + y < 2 ^ 53)%Z →
  adds_up (map (λ e, v e.2) m) total → adds_up (map (λ e, v e.2) (map_upsert k d f m)) (total + y).
Proof.
  intros Hf Hd Hy. unfold map_upsert. revert total.
  induction m as [|[k0 a] m IH]; intros total Ht (zs & E & Hz & Hs); destruct zs as [|z0 zs]; try done; cbn in *.
  - subst total. apply adds_up_one; [|lia]. rewrite Hf, Hd. by rewrite (num_add_int 0) by lia.
  - injection E as E1 E2. subst total. apply list.Forall_cons in Hz as [Hz0 Hz]. change (id z0) with z0 in *.
    assert (0 <= zsum id zs)%Z by (apply zsum_nonneg; intros x Hx; by apply (proj1 (List.Forall_forall _ _) Hz), list_elem_of_In).
    assert (Hm : adds_up (map (λ e, v e.2) m) (zsum id zs)) by (by exists zs).
    destruct (str_eqb k k0); cbn.
    + cbn. rewrite Hf, E1, num_add_int by lia. exists (z0 + y :: zs)%Z. cbn. rewrite E2.
      split_and!; [done|by constructor; [lia|]|change (id (z0 + y)%Z) with (z0 + y)%Z; lia].
    + rewrite E1. replace (z0 + zsum id zs + y)%Z with (z0 + (zsum id zs + y))%Z by lia.
      apply (adds_up_app [num_of_Z z0]); [by apply adds_up_one|]. apply IH; [lia|done].
Qed.

Section charts.
Context (dayjs_format : number → jsstr → jsstr) (dayjs_add_days : number → Z → number).
Context (granularity : TimeGranularity) (data : list QuotaDataItem).
Context (t : jsstr → jsstr) (locale_leb : jsstr → jsstr → bool) (quotaPerUnit : number).
Context (Hquota : exact_amounts qi_quota item_quota data) (Hcount : exact_amounts qi_count item_count data).

Local Abbreviation times := (chartTimes dayjs_format dayjs_add_days granularity data).
Local Abbreviation quota_sum := (time_sum dayjs_format dayjs_add_days granularity data item_quota).
Local Abbreviation count_sum := (time_sum dayjs_format dayjs_add_days granularity data item_count).

Lemma models_perm : Permutation (sortedModels data) (map fst (modelTotalsMap data)).
Proof. apply js_sort_perm. Qed.

(** The rows of the three charts over time. *)
Lemma line_row time :
  adds_up (map pt_rawQuota (line_points dayjs_format dayjs_add_days granularity data quotaPerUnit time)) (quota_sum time).
Proof.
  unfold line_points. rewrite map_map. cbn [pt_rawQuota].
  eapply adds_up_perm; [apply Permutation_map, js_sort_perm|]. rewrite map_map. cbn [pt_rawQuota].
  eapply (row_adds_up _ _ _ _ mt_quota qi_quota); [done|done|exact Hquota|exact models_perm].
Qed.

Lemma area_row time :
  adds_up (map pt_rawQuota (area_points dayjs_format dayjs_add_days granularity data t quotaPerUnit time)) (quota_sum time).
Proof.
  unfold area_points. rewrite map_map. cbn [pt_rawQuota].
  pose proof (row_sum dayjs_format dayjs_add_days granularity data item_quota time _ models_perm) as Hs.
  rewrite <- Hs. pose proof (time_sum_range dayjs_format dayjs_add_days granularity data qi_quota item_quota Hquota time) as Hr.
  rewrite <- Hs in Hr. clear Hs.
  assert (Hc : ∀ k, quota_at dayjs_format dayjs_add_days granularity data time k
    = num_of_Z (cell_sum dayjs_format dayjs_add_days granularity data item_quota time k)
    ∧ (0 <= cell_sum dayjs_format dayjs_add_days granularity data item_quota time k)%Z)
    by (intros k; by apply (cell_int _ _ _ _ mt_quota qi_quota)).
  induction (sortedModels data) as [|k ks IH] using rev_ind; [by exists []|].
  rewrite fold_left_app, zsum_app in *. cbn [fold_left zsum] in *. destruct (Hc k) as [Ek Hk].
  assert (0 <= zsum (cell_sum dayjs_format dayjs_add_days granularity data item_quota time) ks)%Z
    by (apply zsum_nonneg; intros; apply Hc).
  rewrite Z.add_0_r in *. unfold area_step at 1. apply (upsert_adds_up fst); [|done|done|lia|apply IH; lia].
  intros a. cbn. by rewrite Ek.
Qed.

Lemma trend_row time :
  adds_up (map tp_Count (trend_points dayjs_format dayjs_add_days granularity data t time)) (count_sum time).
Proof.
  set (cs := cell_sum dayjs_format dayjs_add_days granularity data item_count time).
  assert (Hc : ∀ k, count_at dayjs_format dayjs_add_days granularity data time k = num_of_Z (cs k) ∧ (0 <= cs k)%Z)
    by (intros k; by apply (cell_int _ _ _ _ mt_count qi_count)).
  assert (Hp : Permutation (topTrendModels data ++ otherTrendModels data) (map fst (modelTotalsMap data))).
  { unfold topTrendModels, otherTrendModels. rewrite <- map_app, take_drop.
    by apply (sorted_ranked data mt_count qi_count item_count). }
  pose proof (row_sum dayjs_format dayjs_add_days granularity data item_count time _ Hp) as Hs.
  pose proof (time_sum_range dayjs_format dayjs_add_days granularity data qi_count item_count Hcount time) as Hr.
  fold cs in Hs. rewrite <- Hs, zsum_app in Hr. rewrite <- Hs, zsum_app. clear Hs Hp.
  unfold trend_points. rewrite map_app, map_map. cbn [tp_Count]. apply adds_up_app.
  { apply adds_up_map. intros k _. apply Hc. }
  assert (0 <= zsum cs (topTrendModels data))%Z by (apply zsum_nonneg; intros; apply Hc).
  assert (Ho : (0 <= zsum cs (otherTrendModels data))%Z) by (apply zsum_nonneg; intros; apply Hc).
  destruct (otherTrendModels data) as [|k ks] eqn:E; [by exists []|]. rewrite <- E in *. cbn [map tp_Count].
  apply adds_up_one; [|done]. apply (fold_add_int _ cs _ 0); [intros; apply Hc|done|lia].
Qed.

(** The times of the charts, unless they are padded. *)
Lemma times_sorted :
  (MAX_CHART_TREND_POINTS <= length (sortedTimes dayjs_format dayjs_add_days granularity data))%nat →
  Permutation times (map fst (timeModelMap dayjs_format dayjs_add_days granularity data)).
Proof.
  intros H. unfold chartTimes, fillTimePoints. rewrite (proj2 (Nat.leb_le _ _) H). apply js_sort_perm.
Qed.

Lemma sum_fold_map {A B} (h : A → B) (f : B → number) (l : list A) :
  sum_of f (map h l) = fold_left (λ s x, num_add s (num_or (f (h x)) zero)) l zero.
Proof. unfold sum_of. generalize zero at 2 4. induction l as [|x l IH]; intros acc; cbn; [done|]. apply IH. Qed.

Lemma total_of (metric : Metrics → number) amount z :
  metric no_metrics = zero →
  (∀ i mt, metric (add_metrics i mt) = num_add (metric mt) (number_or_zero (amount i))) →
  exact_amounts amount z data → sum_of metric (map snd (modelTotalsMap data)) = num_of_Z (zsum z data).
Proof.
  intros H0 Ha He. rewrite sum_fold_map. pose proof (sum_over_models data z _ (Permutation_refl _)) as Hs.
  rewrite zsum_map in Hs. rewrite <- Hs.
  apply (fold_add_int (λ e, num_or (metric e.2) zero) (λ e, model_sum data z e.1) _ 0); [|done|].
  - intros e Hin. by apply (entry_total data metric amount z).
  - rewrite Hs. apply He.
Qed.

(** C14: The totals of the dashboard are the exact sums of the records, the pie and the ranking
    divide the calls completely, and when at least seven times occur the bars, the areas
    and the trend divide the quota and the calls completely. *)
Theorem charts_complete :
  totalQuotaRaw data = num_of_Z (zsum item_quota data)
  ∧ totalTimes data = num_of_Z (zsum item_count data)
  ∧ adds_up (map snd (pieValues data)) (zsum item_count data)
  ∧ adds_up (map snd (rankValues data t)) (zsum item_count data)
  ∧ ((MAX_CHART_TREND_POINTS <= length (sortedTimes dayjs_format dayjs_add_days granularity data))%nat →
     adds_up (map pt_rawQuota (lineValues dayjs_format dayjs_add_days granularity data locale_leb quotaPerUnit))
       (zsum item_quota data)
     ∧ adds_up (map pt_rawQuota (areaValues dayjs_format dayjs_add_days granularity data t locale_leb quotaPerUnit))
         (zsum item_quota data)
     ∧ adds_up (map tp_Count (modelLineValues dayjs_format dayjs_add_days granularity data t locale_leb))
         (zsum item_count data)).
Proof.
  assert (Hr : ranked data item_count (rankedTrendModels data))
    by (by apply (sorted_ranked data mt_count qi_count)).
  split_and!; [by apply (total_of mt_quota qi_quota)|by apply (total_of mt_count qi_count)| | |].
  - by apply (ranked_adds_up data item_count).
  - unfold rankValues, allRankValues. destruct (_ <? _)%nat; [|by apply (ranked_adds_up data item_count)].
    rewrite map_app. by apply (ranked_rest data qi_count).
  - intros Ht. apply times_sorted in Ht.
    rewrite <- (over_times dayjs_format dayjs_add_days granularity data item_quota _ Ht).
    rewrite <- (over_times dayjs_format dayjs_add_days granularity data item_count _ Ht).
    split_and!; (eapply adds_up_perm; [apply Permutation_map, js_sort_perm|]); apply adds_up_join; intros time _;
      [apply line_row|apply area_row|apply trend_row].
Qed.
End charts.

(** The figures above the charts are the same sums. *)
Theorem stats_exact data :
  exact_amounts qi_quota item_quota data → exact_amounts qi_count item_count data →
  totalQuota (calculateDashboardStats data) = totalQuotaRaw data
  ∧ totalCount (calculateDashboardStats data) = totalTimes data.
Proof.
  intros Hq Hc. unfold totalQuotaRaw, totalTimes.
  rewrite (total_of data mt_quota qi_quota item_quota), (total_of data mt_count qi_count item_count) by done.
  rewrite <- (filter_true data) at 2 4. destruct Hq as [Hq1 Hq2], Hc as [Hc1 Hc2]. split.
  - apply (fold_map_sum _ totalQuota (λ _, true) (λ i, number_or_zero (qi_quota i)) item_quota); try done.
    intros m x y Hm Hy Hxy E Hx. cbn. by rewrite Hm, E, num_add_int.
  - apply (fold_map_sum _ totalCount (λ _, true) (λ i, number_or_zero (qi_count i)) item_count); try done.
    intros m x y Hm Hy Hxy E Hx. cbn. by rewrite Hm, E, num_add_int.
Qed.

(** ** Users *)

Section users.
Context (dayjs_format : number → jsstr → jsstr) (dayjs_add_days : number → Z → number).
Context (granularity : TimeGranularity) (data : list QuotaDataItem) (limit : nat) (quotaPerUnit : number).
Context (Hquota : exact_amounts qi_quota item_quota data).

Definition user_sum (u : jsstr) : Z := zsum item_quota (List.filter (λ i, str_eqb u (item_user i)) data).

(** One step of a map of sums. *)
Lemma sum_step (users : record number) u k q y x :
  default zero (rec_get k users) = num_of_Z y → (0 <= y)%Z → (y + x < 2 ^ 53)%Z → q = num_of_Z x → (0 <= x)%Z →
  default zero (rec_get k (rec_set u (num_add (num_or (default NaN (rec_get u users)) zero) q) users))
  = if str_eqb k u then num_of_Z (y + x) else num_of_Z y.
Proof.
  intros E Hy Hxy -> Hx. rewrite rec_get_set. destruct (str_eqb_spec k u) as [->|_]; [|done].
  rewrite <- num_add_int by done. cbn [default from_option]. unfold default in *. cbn. f_equal.
  destruct (rec_get u users); cbn in *; [rewrite E; apply num_or_int; lia|done].
Qed.

Lemma user_total k : default zero (rec_get k (userQuotaTotal data)) = num_of_Z (user_sum k).
Proof.
  destruct Hquota as [H Hb].
  apply (fold_map_sum _ (λ m, default zero (rec_get k m)) _ (λ i, number_or_zero (qi_quota i))); [|exact H|done|done].
  intros m x y Hm Hy Hxy E Hx. by apply sum_step.
Qed.

Lemma users_keys :
  distinct (userQuotaTotal data) ∧ ∀ k, k ∈ map fst (userQuotaTotal data) ↔ k ∈ map item_user data ∨ k ∈ map fst ([] : record number).
Proof.
  apply (fold_upsert_keys item_user NaN (λ i prev, num_add (num_or prev zero) (number_or_zero (qi_quota i))) data []).
  apply distinct_nil.
Qed.

Lemma user_entry e : e ∈ sortedUsers data → e.2 = num_of_Z (user_sum e.1) ∧ (0 <= user_sum e.1)%Z.
Proof.
  destruct e as [k q]. unfold sortedUsers. rewrite js_sort_perm. intros He. pose proof (user_total k) as E.
  rewrite (rec_elem_get k q) in E; [|apply users_keys|done]. split; [done|]. by apply (z_filter data qi_quota).
Qed.

Local Abbreviation top := (topUsers data limit).
Local Abbreviation item_time_of := (item_time dayjs_format dayjs_add_days granularity).

Definition user_cell (time user : jsstr) (i : QuotaDataItem) : bool :=
  str_mem (item_user i) top && str_eqb time (item_time_of i) && str_eqb user (item_user i).

Lemma user_at time user :
  user_quota_at dayjs_format dayjs_add_days granularity data limit time user
  = num_of_Z (zsum item_quota (List.filter (user_cell time user) data)).
Proof.
  assert (E : default zero (rec_get time (timeUserMap dayjs_format dayjs_add_days granularity data limit) ≫= rec_get user)
              = num_of_Z (zsum item_quota (List.filter (user_cell time user) data))).
  { destruct Hquota as [H Hb].
    apply (fold_map_sum _ (λ m, default zero (rec_get time m ≫= rec_get user)) _ (λ i, number_or_zero (qi_quota i)));
      [|exact H|done|done].
    intros m x y Hm Hy Hxy Ex Hx. unfold user_cell. destruct (str_mem (item_user x) top); [|done]. cbn [andb].
    rewrite upsert_get. destruct (str_eqb_spec time (item_time_of x)) as [->|_]; [|done]. cbn [andb].
    change (Some ?a ≫= ?f) with (f a). apply sum_step; try done.
    destruct (rec_get (item_time_of x) m); done. }
  unfold user_quota_at. destruct (rec_get time _ ≫= rec_get user); cbn in *; [|done].
  rewrite E. by apply num_or_int, (z_filter data qi_quota).
Qed.

Lemma user_over_times user :
  user ∈ top →
  zsum (λ time, zsum item_quota (List.filter (user_cell time user) data))
    (sortedTimePoints dayjs_format dayjs_add_days granularity data)
  = user_sum user.
Proof.
  intros Hu. unfold user_sum. rewrite <- (zsum_split item_time_of item_quota (sortedTimePoints dayjs_format dayjs_add_days granularity data)).
  - apply zsum_ext. intros time _. rewrite filter_filter. f_equal. apply filter_ext. intros i. unfold user_cell.
    destruct (str_eqb_spec user (item_user i)) as [<-|_]; [|by rewrite andb_false_r].
    rewrite (proj2 (str_mem_true _ _) Hu). by rewrite andb_true_r.
  - apply str_sort_nodup, str_dedup_nodup.
  - intros i Hi. apply str_sort_elem, str_dedup_elem. apply list_elem_of_In, in_map.
    apply list_elem_of_In, filter_In in Hi. tauto.
Qed.

(** The trend of the users divides the sum in its title completely, and that sum is the
    quota of the users who are shown. *)
Theorem user_trend_complete :
  topQuota data limit = num_of_Z (zsum user_sum top)
  ∧ adds_up (map up_rawQuota (trendValues dayjs_format dayjs_add_days granularity data limit quotaPerUnit))
      (zsum user_sum top).
Proof.
  assert (Hin : ∀ e, e ∈ take limit (sortedUsers data) → e ∈ sortedUsers data).
  { intros e He. rewrite <- (take_drop limit (sortedUsers data)). apply elem_of_app. by left. }
  assert (Hsum : zsum (λ e, user_sum e.1) (sortedUsers data) = zsum item_quota data).
  { rewrite <- zsum_map. rewrite <- (zsum_split item_user item_quota (map fst (sortedUsers data))); [done| |].
    - unfold sortedUsers. rewrite js_sort_perm. apply users_keys.
    - intros i Hi. unfold sortedUsers. rewrite js_sort_perm. apply users_keys. left.
      by apply list_elem_of_In, in_map, list_elem_of_In. }
  split.
  - unfold topQuota, topUsers. rewrite zsum_map.
    apply (fold_add_int snd (λ e, user_sum e.1) _ 0); [intros e He; by apply user_entry, Hin|done|].
    rewrite <- (take_drop limit (sortedUsers data)), zsum_app in Hsum. destruct Hquota as [_ Hb].
    assert (0 <= zsum (λ e, user_sum e.1) (drop limit (sortedUsers data)))%Z; [|lia].
    apply zsum_nonneg. intros e He. apply user_entry. rewrite <- (take_drop limit (sortedUsers data)).
    apply elem_of_app. by right.
  - rewrite <- (zsum_ext _ _ top user_over_times), <- zsum_swap. apply adds_up_join. intros time _.
    rewrite map_map. cbn [up_rawQuota]. apply adds_up_map. intros u _. split; [apply user_at|].
    by apply (z_filter data qi_quota).
Qed.
End users.

(** ** Samples *)

(** A calendar that counts days. *)
Definition sample_format (ms : number) (pattern : jsstr) : jsstr :=
  Number_toString (Math_floor (num_div ms (num_of_Z 86400000))).
Definition sample_add_days (ms : number) (n : Z) : number := num_add ms (num_of_Z (n * 86400000)).

Definition sample_item (day : Z) (model : jsstr) (quota count : Z) : QuotaDataItem :=
  {| qi_username := None; qi_model_name := Some model; qi_created_at := num_of_Z (day * 86400);
     qi_token_used := None; qi_count := Some (num_of_Z count); qi_quota := Some (num_of_Z quota) |}.

Definition sample_usage : list QuotaDataItem :=
  [sample_item 21 "a" 5 1; sample_item 22 "b" 7 2; sample_item 23 "a" 11 1; sample_item 24 "b" 13 4;
   sample_item 25 "a" 17 1; sample_item 26 "a" 19 1; sample_item 27 "b" 23 1; sample_item 27 "a" 29 3].

Lemma sample_exact (l : list QuotaDataItem) amount z :
  Forall (λ i, number_or_zero (amount i) = num_of_Z (z i) ∧ (0 <=? z i)%Z = true) l → (zsum z l <? 2 ^ 53)%Z = true →
  exact_amounts amount z l.
Proof.
  intros H Hb. split; [|by apply Z.ltb_lt]. intros i Hi%list_elem_of_In.
  rewrite List.Forall_forall in H. destruct (H i Hi) as [E Hz]. split; [done|by apply Z.leb_le].
Qed.

Lemma charts_complete_witness :
  let bars := lineValues sample_format sample_add_days Day sample_usage str_leb (num_of_Z 500000) in
  totalQuotaRaw sample_usage = num_of_Z 124 ∧ length bars = 14 ∧ adds_up (map pt_rawQuota bars) 124.
Proof.
  destruct (charts_complete sample_format sample_add_days Day sample_usage id str_leb (num_of_Z 500000))
    as (H1 & _ & _ & _ & H).
  - apply sample_exact; [repeat constructor|reflexivity].
  - apply sample_exact; [repeat constructor|reflexivity].
  - cbv zeta. split; [exact H1|]. split; [vm_compute; reflexivity|]. apply H. vm_compute. lia.
Defined.

(** ** What the charts leave out *)

(** With fewer than seven times the last seven take their place: usage before them is
    counted in the total and shown in no bar. *)
Example sparse_times_dropped :
  let data := [sample_item 1 "a" 5 1; sample_item 20 "a" 7 1] in
  totalQuotaRaw data = num_of_Z 12
  ∧ sum_of pt_rawQuota (lineValues sample_format sample_add_days Day data str_leb (num_of_Z 500000)) = num_of_Z 7.
Proof. vm_compute. split; reflexivity. Qed.

(** The label of a week starts at the day of the record, so the records of one week are
    shown as several weeks. *)
Theorem weeks_by_day dayjs_format dayjs_add_days a b :
  let ms i := num_mul (qi_created_at i) (num_of_Z 1000) in
  length (dayjs_format (ms a) "MM-DD") = length (dayjs_format (ms b) "MM-DD") →
  dayjs_format (ms a) "MM-DD" ≠ dayjs_format (ms b) "MM-DD" →
  item_time dayjs_format dayjs_add_days Week a ≠ item_time dayjs_format dayjs_add_days Week b.
Proof. intros ms Hl Hn E. apply Hn. by apply app_inj_1 in E as [E _]. Qed.

(** ** Preferences *)

Lemma preset_days n :
  isTimeRangePresetDays n = true → n ∈ TIME_RANGE_PRESETS.
Proof.
  intros H. apply existsb_exists in H as (d & Hd & E). apply list_elem_of_In in Hd.
  assert (Hf : Forall (λ d, match d with SpecFloat.S754_finite false _ _ => True | _ => False end) TIME_RANGE_PRESETS)
    by (repeat constructor).
  rewrite List.Forall_forall in Hf. assert (Hdf := Hf d (proj1 (list_elem_of_In _ _) Hd)).
  enough (n = d) as -> by done. destruct d as [| | |[] m e]; try done.
  unfold num_eqb, SpecFloat.SFeqb, SpecFloat.SFcompare in E. destruct n as [[]|[]| |[] m' e']; try done.
  destruct (Z.compare_spec e e') as [->|?|?]; try done. change (Pos.compare_cont Eq m m') with (Pos.compare m m') in E.
  by destruct (Pos.compare_spec m m') as [->|?|?].
Qed.

(** The days that are read are always one of the offered ranges. *)
Lemma saved_days_offered st : isTimeRangePresetDays (defaultTimeRangeDays (getSavedChartPreferences st)) = true.
Proof.
  unfold getSavedChartPreferences. repeat case_match; try done; cbn;
    try (repeat case_match; done).
Qed.

Lemma preferences_read p st :
  isTimeRangePresetDays (defaultTimeRangeDays p) = true →
  st !! DASHBOARD_CHART_PREFERENCES_STORAGE_KEY = Some (JSON_stringify (preferences_json p)) →
  getSavedChartPreferences st = p.
Proof.
  intros Hd%preset_days E. unfold getSavedChartPreferences. rewrite E. destruct p as [c tab days g]. cbn in Hd.
  rewrite !elem_of_cons in Hd. repeat destruct Hd as [->|Hd]; try (by apply not_elem_of_nil in Hd);
    destruct c, tab, g; vm_compute; reflexivity.
Qed.

(** Saved preferences are read back, and a saved granularity changes nothing else. *)
Theorem preferences_saved fits p st st' :
  isTimeRangePresetDays (defaultTimeRangeDays p) = true → saveChartPreferences fits p st = Some st' →
  getSavedChartPreferences st' = p
  ∧ (∀ g st'', saveGranularity fits g st' = Some st'' →
     getSavedChartPreferences st''
     = {| consumptionDistributionChart := consumptionDistributionChart p;
          modelAnalyticsChart := modelAnalyticsChart p; defaultTimeRangeDays := defaultTimeRangeDays p;
          defaultTimeGranularity := g |}).
Proof.
  intros Hd Hs. assert (E : getSavedChartPreferences st' = p).
  { apply preferences_read; [done|]. unfold saveChartPreferences, setItem in Hs.
    destruct (fits _ _ _); simplify_eq. by rewrite lookup_insert_eq. }
  split; [done|]. intros g st'' Hg. unfold saveGranularity in Hg. rewrite E in Hg.
  apply bind_Some in Hg as (s1 & H1 & H2). apply preferences_read; [done|].
  unfold saveChartPreferences, setItem in H1, H2. destruct (fits st' _ _); simplify_eq.
  destruct (fits _ TIME_GRANULARITY_STORAGE_KEY _); simplify_eq.
  rewrite lookup_insert_ne by done. by rewrite lookup_insert_eq.
Qed.
