(* ===== verification/TableUrl.v ===== *)
(** * Tables in the address of a page

    [hooks/use-table-url-state.ts]: page, page size, global filter and column filters of a
    table are kept in the search parameters of the address.  A property that is set to
    [undefined] is read like one that is missing, so it is removed here.  What the router
    delivers after a navigation is the new record, possibly as the same object as before;
    the configurations are those of the tables of the program. *)
From Stdlib Require Import NArith ZArith.
From stdpp Require Import list numbers.
From S2P Require Import Prelude JsString JsNumber JsFloat Json JsArray JsRecord.

(** ** Configuration *)

(** [cc_string] tells whether the type is [string]; any other is an array. *)
Record ColumnConfig : Type := {
  cc_id : jsstr;
  cc_key : jsstr;
  cc_string : bool;
  cc_serialize : json → option json;
  cc_deserialize : option json → option json
}.

(** A column without functions of its own. *)
Definition column (id key : jsstr) (string : bool) : ColumnConfig :=
  {| cc_id := id; cc_key := key; cc_string := string; cc_serialize := Some;
     cc_deserialize := λ raw, raw |}.

Record TableConfig : Type := {
  tc_pageKey : jsstr;
  tc_pageSizeKey : jsstr;
  tc_defaultPage : number;
  tc_defaultPageSize : number;
  tc_filterEnabled : bool;
  tc_filterKey : jsstr;
  tc_trim : bool;
  tc_columns : list ColumnConfig
}.

(** ** State *)

Abbreviation search_params := (list (jsstr * json)).

Record PaginationState : Type := { pageIndex : number; pageSize : number }.

Record TableState : Type := {
  ts_search : search_params;
  ts_columnFilters : list (jsstr * json);
  ts_globalFilter : option jsstr
}.

(** [{ ...prev, [key]: value }]. *)
Definition put (key : jsstr) (value : option json) (prev : search_params) : search_params :=
  match value with Some v => rec_set key v prev | None => rec_delete key prev end.

(** The value is not blank: a text with a character that is no space, or a list with an
    element. *)
Definition proper (c : ColumnConfig) (v : json) : bool :=
  if cc_string c then match v with JStr s => nonempty (trim s) | _ => false end
  else match v with JArr (_ :: _) => true | _ => false end.

Section table.
Context (cfg : TableConfig).

Definition read_column (search : search_params) (c : ColumnConfig) : option (jsstr * json) :=
  match cc_deserialize c (rec_get (cc_key c) search) with
  | Some v => if proper c v then Some (cc_id c, v) else None
  | None => None
  end.

Definition initialColumnFilters (search : search_params) : list (jsstr * json) :=
  omap (read_column search) (tc_columns cfg).

(** [typeof raw === 'number' ? raw : d]. *)
Definition number_param (key : jsstr) (d : number) (search : search_params) : number :=
  match rec_get key search with Some (JNum n) => n | _ => d end.

Definition max_zero (x : number) : number := if is_nan x then NaN else if num_ltb zero x then x else zero.

Definition pagination (search : search_params) : PaginationState :=
  {| pageIndex := max_zero (num_sub (number_param (tc_pageKey cfg) (tc_defaultPage cfg) search) (num_of_Z 1));
     pageSize := number_param (tc_pageSizeKey cfg) (tc_defaultPageSize cfg) search |}.

Definition initialGlobalFilter (search : search_params) : option jsstr :=
  if tc_filterEnabled cfg
  then Some (match rec_get (tc_filterKey cfg) search with Some (JStr s) => s | _ => [] end)
  else None.

Definition init_table (search : search_params) : TableState :=
  {| ts_search := search; ts_columnFilters := initialColumnFilters search;
     ts_globalFilter := initialGlobalFilter search |}.

(** ** Handlers: the new search parameters *)

Definition page_search (next : PaginationState) (prev : search_params) : search_params :=
  let nextPage := num_add (pageIndex next) (num_of_Z 1) in
  put (tc_pageSizeKey cfg) (Some (JNum (pageSize next)))
    (put (tc_pageKey cfg) (if num_leb nextPage (tc_defaultPage cfg) then None else Some (JNum nextPage)) prev).

Definition filter_value (next : jsstr) : jsstr := if tc_trim cfg then trim next else next.

Definition filter_search (value : jsstr) (prev : search_params) : search_params :=
  put (tc_filterKey cfg) (if nonempty value then Some (JStr value) else None) (put (tc_pageKey cfg) None prev).

Definition find_filter (id : jsstr) (next : list (jsstr * json)) : option json :=
  snd <$> List.find (λ f, str_eqb f.1 id) next.

Definition column_patch (next : list (jsstr * json)) (c : ColumnConfig) : option json :=
  match find_filter (cc_id c) next with
  | Some v => if proper c v then cc_serialize c v else None
  | None => None
  end.

Definition columns_search (next : list (jsstr * json)) (prev : search_params) : search_params :=
  fold_left (λ s c, put (cc_key c) (column_patch next c) s) (tc_columns cfg) (put (tc_pageKey cfg) None prev).

(** The test of [ensurePageInRange]. *)
Definition out_of_range (pageCount : number) (search : search_params) : bool :=
  let pageNum := number_param (tc_pageKey cfg) (tc_defaultPage cfg) search in
  num_ltb zero pageCount && num_ltb pageCount pageNum.

(** ** Events *)

(** Whether the router keeps the old object for the new parameters. *)
Context (same : search_params → search_params → bool).

(** A navigation: the effect on [search] resets the column filters. *)
Definition navigate (search : search_params) (st : TableState) : TableState :=
  if same (ts_search st) search then
    {| ts_search := search; ts_columnFilters := ts_columnFilters st; ts_globalFilter := ts_globalFilter st |}
  else
    {| ts_search := search; ts_columnFilters := initialColumnFilters search; ts_globalFilter := ts_globalFilter st |}.

Definition setColumnFilters (next : list (jsstr * json)) (st : TableState) : TableState :=
  {| ts_search := ts_search st; ts_columnFilters := next; ts_globalFilter := ts_globalFilter st |}.

Definition setGlobalFilter (value : jsstr) (st : TableState) : TableState :=
  {| ts_search := ts_search st; ts_columnFilters := ts_columnFilters st; ts_globalFilter := Some value |}.

(** With [resetTo] as in every call. *)
Definition ensurePageInRange (pageCount : number) (st : TableState) : TableState :=
  if out_of_range pageCount (ts_search st) then navigate (put (tc_pageKey cfg) None (ts_search st)) st else st.

(** [GoTo] is a navigation from outside the table, such as the button of the browser. *)
Inductive UrlTableEvent : Type :=
| ChangePage (next : PaginationState)
| ChangeFilter (next : jsstr)
| ChangeColumns (next : list (jsstr * json))
| CheckPage (pageCount : number)
| GoTo (search : search_params).

Definition url_table_step (e : UrlTableEvent) (st : TableState) : TableState :=
  match e with
  | ChangePage next => navigate (page_search next (ts_search st)) st
  | ChangeFilter next =>
      if tc_filterEnabled cfg then
        let value := filter_value next in
        navigate (filter_search value (ts_search st)) (setGlobalFilter value st)
      else st
  | ChangeColumns next => navigate (columns_search next (ts_search st)) (setColumnFilters next st)
  | CheckPage pageCount => ensurePageInRange pageCount st
  | GoTo search => navigate search st
  end.

Definition url_table_run (es : list UrlTableEvent) (st : TableState) : TableState :=
  fold_left (λ st e, url_table_step e st) es st.
End table.

(** ** The tables of the program *)

Definition table (pageSize : Z) (columns : list ColumnConfig) : TableConfig :=
  {| tc_pageKey := "page"; tc_pageSizeKey := "pageSize"; tc_defaultPage := num_of_Z 1;
     tc_defaultPageSize := num_of_Z pageSize; tc_filterEnabled := true; tc_filterKey := "filter";
     tc_trim := true; tc_columns := columns |}.

Section tables.
Context (isMobile isAdmin : bool).

Definition channels_table : TableConfig :=
  table (if isMobile then 10 else 20)
    [column "status" "status" false; column "type" "type" false; column "group" "group" false;
     column "model" "model" true].

Definition api_keys_table : TableConfig :=
  table 20 [column "status" "status" false; column "_tokenSearch" "token" true].

Definition users_table : TableConfig :=
  table (if isMobile then 10 else 20)
    [column "status" "status" false; column "role" "role" false; column "group" "group" true].

Definition redemptions_table : TableConfig :=
  table (if isMobile then 10 else 20) [column "status" "status" false].

Definition models_table : TableConfig :=
  table (if isMobile then 10 else 20)
    [column "status" "status" false; column "vendor_id" "vendor" false; column "sync_official" "sync" false].

Definition deployments_table : TableConfig :=
  {| tc_pageKey := "dPage"; tc_pageSizeKey := "dPageSize"; tc_defaultPage := num_of_Z 1;
     tc_defaultPageSize := num_of_Z (if isMobile then 8 else 10); tc_filterEnabled := true;
     tc_filterKey := "dFilter"; tc_trim := true; tc_columns := [column "status" "dStatus" false] |}.

Definition LOG_TYPE_ALL_VALUE : jsstr := "0".

Definition deserializeLogTypeFilter (value : option json) : option json :=
  let values := match value with
                | Some (JArr l) => l
                | Some v => if json_truthy v then [v] else []
                | None => []
                end in
  Some (JArr (List.filter (λ item, negb (str_eqb (json_toString item) LOG_TYPE_ALL_VALUE)) values)).

Definition usage_logs_table : TableConfig :=
  {| tc_pageKey := "page"; tc_pageSizeKey := "pageSize"; tc_defaultPage := num_of_Z 1;
     tc_defaultPageSize := num_of_Z (if isMobile then 20 else 100); tc_filterEnabled := false;
     tc_filterKey := "filter"; tc_trim := true;
     tc_columns :=
       [{| cc_id := "created_at"; cc_key := "type"; cc_string := false; cc_serialize := Some;
           cc_deserialize := deserializeLogTypeFilter |};
        column "model_name" "model" true; column "token_name" "token" true; column "group" "group" true]
       ++ (if isAdmin then [column "channel" "channel" true; column "username" "username" true] else []) |}.

Definition program_tables : list TableConfig :=
  [channels_table; api_keys_table; users_table; redemptions_table; models_table; deployments_table;
   usage_logs_table].
End tables.
