(* ===== verification/TableUrlTheorems.v ===== *)
(** * Theorems on tables in the address

    The column filters that are shown are always those of the address, every change of a
    filter returns to the first page, and a page that is chosen is the page that is read. *)
From Stdlib Require Import NArith ZArith.
From stdpp Require Import list numbers sets.
From S2P Require Import Prelude JsString JsNumber JsFloat Json JsArray JsRecord TableUrl.

(** ** Reading what is written *)

Lemma put_get k k' v s : rec_get k (put k' v s) = if str_eqb k k' then v else rec_get k s.
Proof. destruct v; cbn; [apply rec_get_set|]. rewrite rec_get_delete. by destruct (str_eqb k k'). Qed.

(** What a column reads from its parameter. *)
Definition read_value (c : ColumnConfig) (raw : option json) : option (jsstr * json) :=
  match cc_deserialize c raw with
  | Some v => if proper c v then Some (cc_id c, v) else None
  | None => None
  end.

(** The columns have names of their own, and the functions of a column agree. *)
Definition column_ok (c : ColumnConfig) : Prop :=
  read_value c None = None
  ∧ ∀ raw v, cc_deserialize c raw = Some v → proper c v = true → cc_deserialize c (cc_serialize c v) = Some v.

Definition config_ok (cfg : TableConfig) : Prop :=
  NoDup (map cc_id (tc_columns cfg)) ∧ NoDup (map cc_key (tc_columns cfg))
  ∧ (∀ c, c ∈ tc_columns cfg → column_ok c)
  ∧ (∀ c, c ∈ tc_columns cfg → cc_key c ≠ tc_pageKey cfg ∧ cc_key c ≠ tc_pageSizeKey cfg ∧ cc_key c ≠ tc_filterKey cfg)
  ∧ tc_pageKey cfg ≠ tc_pageSizeKey cfg ∧ tc_pageKey cfg ≠ tc_filterKey cfg ∧ tc_pageSizeKey cfg ≠ tc_filterKey cfg
  ∧ tc_defaultPage cfg = num_of_Z 1.

(** The filters that a list of filters leaves in the address. *)
Definition written (cfg : TableConfig) (filters : list (jsstr * json)) : list (jsstr * json) :=
  omap (λ c, read_value c (column_patch filters c)) (tc_columns cfg).

(** Positive integers are compared as integers. *)
Lemma num_leb_int a b :
  (0 < a < 2 ^ 53)%Z → (0 < b < 2 ^ 53)%Z → num_leb (num_of_Z a) (num_of_Z b) = (a <=? b)%Z.
Proof.
  intros Ha Hb. rewrite Z.leb_antisym, <- num_ltb_int, !num_of_Z_int by done.
  unfold num_leb, num_ltb, SpecFloat.SFleb, SpecFloat.SFltb, SpecFloat.SFcompare.
  rewrite (Z.compare_antisym (SpecFloat.Zdigits2 a - 53)). destruct (Z.compare _ _); cbn; [|done|done].
  change (Pos.compare_cont Eq ?x ?y) with (Pos.compare x y). rewrite (Pos.compare_antisym (int_mantissa a)).
  by destruct (Pos.compare _ _).
Qed.

Section table.
Context (cfg : TableConfig) (Hcfg : config_ok cfg).

(** The parameters after a change of the column filters. *)
Lemma columns_get next k prev :
  rec_get k (columns_search cfg next prev)
  = match List.find (λ c, str_eqb k (cc_key c)) (tc_columns cfg) with
    | Some c => column_patch next c
    | None => if str_eqb k (tc_pageKey cfg) then None else rec_get k prev
    end.
Proof.
  unfold columns_search. rewrite <- (put_get k (tc_pageKey cfg) None prev).
  generalize (put (tc_pageKey cfg) None prev) as s. destruct Hcfg as (_ & Hn & _). clear Hcfg.
  induction (tc_columns cfg) as [|c cs IH]; intros s; cbn [fold_left List.find map] in *; [done|].
  apply list.NoDup_cons in Hn as [Hc Hn]. rewrite IH, put_get by done.
  destruct (str_eqb_spec k (cc_key c)) as [->|Hne]; [|done].
  destruct (List.find _ cs) as [c'|] eqn:E; [|done]. exfalso. apply find_some in E as [Hin E].
  apply str_eqb_eq in E. apply Hc. rewrite E. by apply list_elem_of_In, in_map.
Qed.

Lemma find_column c :
  c ∈ tc_columns cfg → List.find (λ c', str_eqb (cc_key c) (cc_key c')) (tc_columns cfg) = Some c.
Proof.
  destruct Hcfg as (_ & Hn & _). clear Hcfg. induction (tc_columns cfg) as [|c0 cs IH]; intros Hc; cbn in *.
  - by apply not_elem_of_nil in Hc.
  - apply list.NoDup_cons in Hn as [H0 Hn]. apply elem_of_cons in Hc as [->|Hc]; [by rewrite str_eqb_refl|].
    destruct (str_eqb_spec (cc_key c) (cc_key c0)) as [E|_]; [|by apply IH].
    exfalso. apply H0. rewrite <- E. by apply list_elem_of_In, in_map, list_elem_of_In.
Qed.

(** What the table reads after the change. *)
Lemma columns_written next prev : initialColumnFilters cfg (columns_search cfg next prev) = written cfg next.
Proof.
  unfold initialColumnFilters, written. apply omap_ext_in. intros c Hc. unfold read_column, read_value.
  rewrite columns_get, find_column by done. done.
Qed.

(** Filters that were read are written as they are. *)
Lemma find_read search c :
  c ∈ tc_columns cfg →
  find_filter (cc_id c) (initialColumnFilters cfg search) = snd <$> read_column search c.
Proof.
  destruct Hcfg as (Hn & _). clear Hcfg. unfold initialColumnFilters, find_filter.
  induction (tc_columns cfg) as [|c0 cs IH]; intros Hc; cbn [map omap list_omap] in *; [by apply not_elem_of_nil in Hc|].
  apply list.NoDup_cons in Hn as [H0 Hn].
  assert (Hid : ∀ c1 f, read_column search c1 = Some f → f.1 = cc_id c1).
  { intros c1 f. unfold read_column. repeat case_match; intros; by simplify_eq. }
  apply elem_of_cons in Hc as [->|Hc].
  - destruct (read_column search c0) as [f|] eqn:E; cbn.
    + by rewrite (Hid _ _ E), str_eqb_refl.
    + destruct (List.find _ _) as [f|] eqn:Ef; [|done]. exfalso. apply find_some in Ef as [Hin Ef].
      apply str_eqb_eq in Ef. apply H0. apply list_elem_of_In in Hin. apply list_elem_of_omap in Hin as (c1 & Hc1 & E1).
      rewrite <- Ef, (Hid _ _ E1). by apply list_elem_of_In, in_map, list_elem_of_In.
  - destruct (read_column search c0) as [f|] eqn:E; [|by apply IH]. cbn. rewrite (Hid _ _ E).
    destruct (str_eqb_spec (cc_id c0) (cc_id c)) as [E1|_]; [|by apply IH]. exfalso. apply H0. rewrite E1.
    by apply list_elem_of_In, in_map, list_elem_of_In.
Qed.

Lemma read_written search : written cfg (initialColumnFilters cfg search) = initialColumnFilters cfg search.
Proof.
  unfold written. unfold initialColumnFilters at 2. apply omap_ext_in. intros c Hc. unfold column_patch.
  rewrite find_read by done. destruct Hcfg as (_ & _ & Ho & _). destruct (Ho c Hc) as [H0 Hs].
  destruct (read_column search c) as [[i v]|] eqn:E; cbn; [|done].
  unfold read_column in E. destruct (cc_deserialize c _) as [v'|] eqn:Ed; [|done].
  destruct (proper c v') eqn:Ep; [|done]. simplify_eq. rewrite Ep. unfold read_value.
  by rewrite (Hs _ _ Ed Ep), Ep.
Qed.

(** ** Runs *)

Context (same : search_params → search_params → bool).
Context (Hsame : ∀ s s', same s s' = true → ∀ k, rec_get k s' = rec_get k s).

(** The filters that are shown are those of the address. *)
Definition coherent (st : TableState) : Prop :=
  written cfg (ts_columnFilters st) = initialColumnFilters cfg (ts_search st).

Lemma navigate_coherent search st :
  (same (ts_search st) search = true → written cfg (ts_columnFilters st) = initialColumnFilters cfg search) →
  coherent (navigate cfg same search st).
Proof.
  unfold coherent, navigate. intros H. destruct (same _ _); cbn; [by apply H|apply read_written].
Qed.

Lemma same_initial s s' : same s s' = true → initialColumnFilters cfg s' = initialColumnFilters cfg s.
Proof. intros H. apply omap_ext_in. intros c _. unfold read_column. by rewrite (Hsame _ _ H). Qed.

Lemma url_step_coherent e st : coherent st → coherent (url_table_step cfg same e st).
Proof.
  intros H. assert (Hn : ∀ search st', ts_search st' = ts_search st → ts_columnFilters st' = ts_columnFilters st →
    coherent (navigate cfg same search st')).
  { intros search st' Es Ec. apply navigate_coherent. rewrite Es, Ec. intros Hs. by rewrite (same_initial _ _ Hs). }
  destruct e; cbn [url_table_step].
  - by apply Hn.
  - destruct (tc_filterEnabled cfg); [|done]. by apply Hn.
  - apply navigate_coherent. intros _. cbn. by rewrite columns_written.
  - unfold ensurePageInRange. destruct (out_of_range _ _ _); [by apply Hn|done].
  - by apply Hn.
Qed.

Lemma table_run_coherent es st : coherent st → coherent (url_table_run cfg same es st).
Proof. revert st. induction es as [|e es IH]; intros st H; [done|]. by apply IH, url_step_coherent. Qed.

(** In terms of what is written and read. *)
Lemma table_follows search es next :
  let st := url_table_run cfg same es (init_table cfg search) in
  let st' := url_table_step cfg same (ChangeColumns next) st in
  coherent st
  ∧ initialColumnFilters cfg (ts_search st') = written cfg next
  ∧ pageIndex (pagination cfg (ts_search st')) = zero
  ∧ (∀ k, k ∉ map cc_key (tc_columns cfg) → k ≠ tc_pageKey cfg →
     rec_get k (ts_search st') = rec_get k (ts_search st)).
Proof.
  intros st st'. split_and!.
  - apply table_run_coherent. apply read_written.
  - unfold st'. cbn. unfold navigate. destruct (same _ _); apply columns_written.
  - assert (E : rec_get (tc_pageKey cfg) (ts_search st') = None).
    { unfold st'. cbn. unfold navigate. destruct Hcfg as (_ & _ & _ & Hk & _).
      transitivity (rec_get (tc_pageKey cfg) (columns_search cfg next (ts_search st))); [by destruct (same _ _)|].
      rewrite columns_get, str_eqb_refl. destruct (List.find _ _) as [c|] eqn:E; [|done].
      apply find_some in E as [Hin E]. apply str_eqb_eq in E. apply list_elem_of_In, Hk in Hin as [Hin _]. by destruct Hin. }
    unfold pagination, number_param. cbn [pageIndex]. rewrite E. destruct Hcfg as (_ & _ & _ & _ & _ & _ & _ & ->). done.
  - intros k Hk Hp. unfold st'. cbn. unfold navigate.
    transitivity (rec_get k (columns_search cfg next (ts_search st))); [by destruct (same _ _)|].
    rewrite columns_get, (proj2 (str_eqb_neq k (tc_pageKey cfg))) by done.
    destruct (List.find _ _) as [c|] eqn:E; [|done]. exfalso. apply Hk.
    apply find_some in E as [Hin E]. apply str_eqb_eq in E. rewrite E. by apply list_elem_of_In, in_map.
Qed.

(** A page that is chosen is the page that is read. *)
Theorem page_kept i size search :
  (0 <= i < 2 ^ 53 - 1)%Z →
  pagination cfg (page_search cfg {| pageIndex := num_of_Z i; pageSize := size |} search)
  = {| pageIndex := num_of_Z i; pageSize := size |}.
Proof.
  intros Hi. destruct Hcfg as (_ & _ & _ & _ & Hps & _ & _ & Hd).
  unfold pagination, page_search, number_param. rewrite !put_get, Hd, str_eqb_refl.
  rewrite (proj2 (str_eqb_neq (tc_pageKey cfg) (tc_pageSizeKey cfg))) by done. rewrite str_eqb_refl.
  cbn [pageIndex pageSize]. rewrite num_add_int, num_leb_int by lia. f_equal.
  destruct (Z.leb_spec (i + 1) 1); [by replace i with 0%Z by lia|].
  rewrite num_sub_int, Z.add_simpl_r by lia. unfold max_zero. rewrite num_ltb_zero_int by lia.
  by rewrite num_of_Z_int by lia.
Qed.

(** After the check the page exists. *)
Theorem page_in_range n st :
  (1 <= n < 2 ^ 53)%Z → out_of_range cfg (num_of_Z n) (ts_search (ensurePageInRange cfg same (num_of_Z n) st)) = false.
Proof.
  intros Hn. unfold ensurePageInRange. destruct (out_of_range cfg (num_of_Z n) (ts_search st)) eqn:E; [|done].
  destruct Hcfg as (_ & _ & _ & _ & _ & _ & _ & Hd).
  assert (Er : rec_get (tc_pageKey cfg) (ts_search (navigate cfg same (put (tc_pageKey cfg) None (ts_search st)) st)) = None).
  { transitivity (rec_get (tc_pageKey cfg) (put (tc_pageKey cfg) None (ts_search st))); [|by rewrite put_get, str_eqb_refl].
    unfold navigate. by destruct (same _ _). }
  unfold out_of_range, number_param. rewrite Er, Hd, num_ltb_int by lia.
  rewrite (proj2 (Z.ltb_ge n 1)) by lia. apply andb_false_r.
Qed.
End table.

(** ** The tables of the program *)

Lemma plain_column_ok id key string : column_ok (column id key string).
Proof. split; [by destruct string|]. intros raw v E _. done. Qed.

Lemma filter_idem {A} (p : A → bool) (l : list A) : List.filter p (List.filter p l) = List.filter p l.
Proof. induction l as [|x l IH]; cbn; [done|]. destruct (p x) eqn:E; cbn; [by rewrite E, IH|done]. Qed.

Lemma log_type_ok :
  column_ok {| cc_id := "created_at"; cc_key := "type"; cc_string := false; cc_serialize := Some;
               cc_deserialize := deserializeLogTypeFilter |}.
Proof.
  split; [done|]. intros raw v E _. cbn [cc_deserialize cc_serialize] in *.
  unfold deserializeLogTypeFilter in E |- *. injection E as <-. by rewrite filter_idem.
Qed.

(** Case analysis on an element of a list that is written out. *)
Ltac each H :=
  repeat (apply elem_of_cons in H as [->|H]); [..|by apply not_elem_of_nil in H].

Lemma config_check cfg :
  bool_decide (NoDup (map cc_id (tc_columns cfg))) = true → bool_decide (NoDup (map cc_key (tc_columns cfg))) = true →
  (∀ c, c ∈ tc_columns cfg → column_ok c) →
  forallb (λ c, negb (str_mem (cc_key c) [tc_pageKey cfg; tc_pageSizeKey cfg; tc_filterKey cfg])) (tc_columns cfg) = true →
  bool_decide (NoDup [tc_pageKey cfg; tc_pageSizeKey cfg; tc_filterKey cfg]) = true →
  tc_defaultPage cfg = num_of_Z 1 → config_ok cfg.
Proof.
  intros H1%bool_decide_eq_true H2%bool_decide_eq_true H3 H4 H5%bool_decide_eq_true H6.
  rewrite !list.NoDup_cons, !not_elem_of_cons in H5. unfold config_ok. split_and!; try done; try tauto.
  intros c Hc. rewrite forallb_forall in H4. specialize (H4 c (proj1 (list_elem_of_In _ _) Hc)).
  apply negb_true_iff, str_mem_false in H4. rewrite !not_elem_of_cons in H4. tauto.
Qed.

Lemma tables_ok isMobile isAdmin cfg : cfg ∈ program_tables isMobile isAdmin → config_ok cfg.
Proof.
  intros H. unfold program_tables in H.
  each H; (apply config_check; [destruct isAdmin; vm_compute; reflexivity|destruct isAdmin; vm_compute; reflexivity
    | |destruct isAdmin; vm_compute; reflexivity|vm_compute; reflexivity|reflexivity]); intros c Hc;
    try (cbn in Hc; each Hc; apply plain_column_ok).
  destruct isAdmin; cbn in Hc; each Hc; apply plain_column_ok || apply log_type_ok.
Qed.

(** ** What a filter means *)

(** A text that is not blank. *)
Definition has_text (s : jsstr) : bool := existsb (λ c, negb (is_space c)) s.

(** The filter of the usage logs by their type, whose option for all types is ['0']. *)
Definition log_type_column (c : ColumnConfig) : bool := str_eqb (cc_id c) "created_at".
Definition not_all (v : json) : bool := negb (str_eqb (json_toString v) "0").

(** The value a filter of a column stands for: a text that is not blank or a list that is
    not empty, as it is, the option for all types removed from the types of a log; no other
    value is a filter. *)
Definition filter_meaning (c : ColumnConfig) (v : json) : option json :=
  match v with
  | JStr s => if cc_string c && has_text s then Some (JStr s) else None
  | JArr l =>
      if cc_string c then None
      else match (if log_type_column c then List.filter not_all l else l) with
           | [] => None
           | l' => Some (JArr l')
           end
  | _ => None
  end.

(** The same of a parameter of the address, where a single log type may stand without a
    list. *)
Definition parameter_meaning (c : ColumnConfig) (v : json) : option json :=
  if log_type_column c
  then match v with
       | JArr _ => filter_meaning c v
       | _ => if json_truthy v then filter_meaning c (JArr [v]) else None
       end
  else filter_meaning c v.

(** The filters of the columns of a table in a list of filters, and in an address. *)
Definition filters_meant (cfg : TableConfig) (filters : list (jsstr * json)) : list (jsstr * json) :=
  omap (λ c, pair (cc_id c) <$> (rec_get (cc_id c) filters ≫= filter_meaning c)) (tc_columns cfg).

Definition address_meant (cfg : TableConfig) (search : search_params) : list (jsstr * json) :=
  omap (λ c, pair (cc_id c) <$> (rec_get (cc_key c) search ≫= parameter_meaning c)) (tc_columns cfg).

Lemma find_filter_get id l : find_filter id l = rec_get id l.
Proof.
  unfold find_filter. induction l as [|[k v] l IH]; cbn [List.find rec_get fst]; [done|].
  destruct (str_eqb_spec k id) as [->|Hn]; [by rewrite str_eqb_refl|].
  by rewrite (proj2 (str_eqb_neq id k)) by congruence.
Qed.

Lemma trimStart_text s : nonempty (trimStart s) = has_text s.
Proof. induction s as [|c s IH]; cbn; [done|]. by destruct (is_space c). Qed.

Lemma has_text_app s t : has_text (s ++ t) = has_text s || has_text t.
Proof. apply existsb_app. Qed.

Lemma has_text_rev s : has_text (rev s) = has_text s.
Proof.
  induction s as [|c s IH]; [done|]. cbn [rev]. rewrite has_text_app, IH. cbn. rewrite orb_false_r.
  apply orb_comm.
Qed.

Lemma trim_text s : nonempty (trim s) = has_text s.
Proof.
  unfold trim, trimEnd.
  assert (H : ∀ l : jsstr, nonempty (rev l) = nonempty l).
  { intros [|c l]; [done|]. cbn [rev]. by destruct (rev l). }
  rewrite H, trimStart_text, has_text_rev. clear H. induction s as [|c s IH]; cbn; [done|].
  destruct (is_space c) eqn:E; cbn; [done|]. by rewrite E.
Qed.

Definition log_types : ColumnConfig :=
  {| cc_id := "created_at"; cc_key := "type"; cc_string := false; cc_serialize := Some;
     cc_deserialize := deserializeLogTypeFilter |}.

(** The two kinds of columns of the tables. *)
Definition known_column (c : ColumnConfig) : Prop :=
  (∃ id key string, c = column id key string ∧ str_eqb id "created_at" = false)
  ∨ c = log_types.

Lemma tables_known isMobile isAdmin cfg c :
  cfg ∈ program_tables isMobile isAdmin → c ∈ tc_columns cfg → known_column c.
Proof.
  intros H Hc. unfold program_tables in H.
  each H; try (cbn in Hc; each Hc; left; by eexists _, _, _).
  destruct isAdmin; cbn in Hc; each Hc; (by right) || (left; by eexists _, _, _).
Qed.

Lemma proper_meaning id key string v :
  str_eqb id "created_at" = false →
  filter_meaning (column id key string) v = if proper (column id key string) v then Some v else None.
Proof.
  intros Hid. unfold filter_meaning, proper, log_type_column. cbn [cc_string cc_id column]. rewrite Hid.
  destruct string, v as [|b|n|s|l|kvs]; try done.
  - by rewrite trim_text.
  - by destruct l.
Qed.

Lemma log_types_read v :
  cc_deserialize log_types (Some v)
  = Some (JArr (List.filter not_all
      (match v with JArr l => l | _ => if json_truthy v then [v] else [] end))).
Proof. by destruct v. Qed.

Lemma log_types_proper l : proper log_types (JArr l) = nonempty l.
Proof. by destruct l. Qed.

Lemma log_types_meaning l :
  filter_meaning log_types (JArr l)
  = if nonempty (List.filter not_all l) then Some (JArr (List.filter not_all l)) else None.
Proof. cbn. by destruct (List.filter not_all l). Qed.

Lemma parameter_read c search :
  known_column c →
  read_column search c = pair (cc_id c) <$> (rec_get (cc_key c) search ≫= parameter_meaning c).
Proof.
  unfold read_column, parameter_meaning. intros [(id & key & string & -> & Hid)| ->].
  - unfold log_type_column. cbn [cc_id cc_key column cc_deserialize]. rewrite Hid.
    destruct (rec_get key search) as [v|]; [|done]. cbn [mbind option_bind]. rewrite proper_meaning by done.
    by destruct (proper _ v).
  - change (cc_key log_types) with ("type" : jsstr). change (log_type_column log_types) with true. cbn iota.
    destruct (rec_get "type" search) as [v|]; [|done]. cbn [mbind option_bind].
    rewrite log_types_read, log_types_proper.
    assert (H : ∀ l, (if nonempty (List.filter not_all l)
                      then Some (cc_id log_types, JArr (List.filter not_all l)) else None)
                     = pair (cc_id log_types) <$> filter_meaning log_types (JArr l)).
    { intros l. rewrite log_types_meaning. by destruct (nonempty _). }
    destruct v; try apply H; destruct (json_truthy _); apply H || done.
Qed.

Lemma written_meaning c next :
  known_column c →
  read_value c (column_patch next c) = pair (cc_id c) <$> (rec_get (cc_id c) next ≫= filter_meaning c).
Proof.
  unfold read_value, column_patch. rewrite find_filter_get.
  intros [(id & key & string & -> & Hid)| ->].
  - cbn [cc_id column cc_deserialize cc_serialize]. destruct (rec_get id next) as [v|]; [|done].
    cbn [mbind option_bind]. rewrite proper_meaning by done. destruct (proper _ v) eqn:E; [|done]. by rewrite E.
  - destruct (rec_get (cc_id log_types) next) as [v|]; [|done]. cbn [mbind option_bind].
    destruct v as [|b|n|t|[|x l]|kvs]; try done.
    rewrite log_types_proper, log_types_meaning. cbn [nonempty]. change (cc_serialize log_types) with (@Some json).
    rewrite log_types_read, log_types_proper. by destruct (nonempty _).
Qed.

Section program.
Context (isMobile isAdmin : bool) (cfg : TableConfig) (Hcfg : cfg ∈ program_tables isMobile isAdmin).
Context (same : search_params → search_params → bool).
Context (Hsame : ∀ s s', same s s' = true → ∀ k, rec_get k s' = rec_get k s).

Lemma initial_meant search : initialColumnFilters cfg search = address_meant cfg search.
Proof. apply omap_ext_in. intros c Hc. by apply parameter_read, (tables_known isMobile isAdmin cfg). Qed.

Lemma written_meant filters : written cfg filters = filters_meant cfg filters.
Proof. apply omap_ext_in. intros c Hc. by apply written_meaning, (tables_known isMobile isAdmin cfg). Qed.

End program.

(** ** What the address does not carry *)

(** The text of the global filter is read from the address only when the table is opened:
    going back to another address keeps it. *)
Example global_filter_stale :
  let cfg := users_table false in
  let other := [(("filter" : jsstr), JStr "bob")] in
  let st := url_table_run cfg (λ _ _, false) [ChangeFilter "alice"; GoTo other] (init_table cfg other) in
  ts_globalFilter st = Some ("alice" : jsstr) ∧ initialGlobalFilter cfg (ts_search st) = Some ("bob" : jsstr).
Proof. vm_compute. split; reflexivity. Qed.

(** ** A sample *)

