(* ===== verification/UsageLogs.v ===== *)
(** * Usage logs

    [features/usage-logs/lib/utils.ts], the request for a page of logs, and the part of
    [lib/format.ts] that explains the price of a request from its billing expression.  The
    search parameters and the column filters are those of the table of [TableUrl].  The
    clock, the start of the day and the decoding of Base64 are parameters. *)
From Stdlib Require Import NArith ZArith.
From stdpp Require Import list numbers.
From S2P Require Import Prelude JsString JsNumber JsFloat Json JsArray JsRecord BillingExpr Currency ChannelForm TableUrl.

(** ** Time ranges *)

Section requests.
(** [Date.now()] and the start of its day, in milliseconds. *)
Context (now day_start : number).

Definition getDefaultTimeRange : number * number := (day_start, num_add now (num_of_Z (3600 * 1000))).

Definition timestampToSeconds (ms : number) : number := Math_floor (num_div ms (num_of_Z 1000)).

(** A parameter that holds a time. *)
Definition time_param (k : jsstr) (s : search_params) : option number :=
  match rec_get k s with Some (JNum n) => Some n | _ => None end.

Definition getTimestamp (useMilliseconds : bool) (paramTime defaultTime : option number) : option number :=
  let time := num_or (default NaN paramTime) (default NaN defaultTime) in
  if num_truthy time then Some (if useMilliseconds then time else timestampToSeconds time) else None.

Definition buildTimeRangeParams (s : search_params) (useMilliseconds : bool) : option number * option number :=
  let hasTimeParams := match time_param "startTime" s with
                       | Some n => num_truthy n
                       | None => match time_param "endTime" s with Some n => num_truthy n | None => false end
                       end in
  let range := if hasTimeParams then None else Some getDefaultTimeRange in
  (getTimestamp useMilliseconds (time_param "startTime" s) (fst <$> range),
   getTimestamp useMilliseconds (time_param "endTime" s) (snd <$> range)).

(** ** Parameters of the requests *)

Record GetLogsParams : Type := {
  lp_p : number;
  lp_page_size : number;
  lp_type : option number;
  lp_model_name : option jsstr;
  lp_token_name : option jsstr;
  lp_group : option jsstr;
  lp_channel : option number;
  lp_username : option jsstr;
  lp_request_id : option jsstr;
  lp_upstream_request_id : option jsstr;
  lp_start_timestamp : option number;
  lp_end_timestamp : option number
}.

Definition parseType (raw : json) : option number :=
  let type := json_toNumber raw in if isFinite type then Some type else None.

Definition processType (value : json) : option number :=
  match value with
  | JArr [v] => parseType v
  | JStr s => if nonempty s then parseType (JStr s) else None
  | _ => None
  end.

(** [searchParams.k], when it is truthy. *)
Definition truthy_param (k : jsstr) (s : search_params) : option json :=
  match rec_get k s with Some v => if json_truthy v then Some v else None | None => None end.

Definition text_param (k : jsstr) (s : search_params) : option jsstr := json_toString <$> truthy_param k s.

Definition channel_number (v : json) : number := num_or (json_toNumber v) zero.

Definition set_type (v : option number) (p : GetLogsParams) : GetLogsParams :=
  {| lp_p := lp_p p; lp_page_size := lp_page_size p; lp_type := v; lp_model_name := lp_model_name p;
     lp_token_name := lp_token_name p; lp_group := lp_group p; lp_channel := lp_channel p;
     lp_username := lp_username p; lp_request_id := lp_request_id p;
     lp_upstream_request_id := lp_upstream_request_id p; lp_start_timestamp := lp_start_timestamp p;
     lp_end_timestamp := lp_end_timestamp p |}.

Definition set_log_texts (model token group : option jsstr) (p : GetLogsParams) : GetLogsParams :=
  {| lp_p := lp_p p; lp_page_size := lp_page_size p; lp_type := lp_type p; lp_model_name := model;
     lp_token_name := token; lp_group := group; lp_channel := lp_channel p;
     lp_username := lp_username p; lp_request_id := lp_request_id p;
     lp_upstream_request_id := lp_upstream_request_id p; lp_start_timestamp := lp_start_timestamp p;
     lp_end_timestamp := lp_end_timestamp p |}.

Definition set_admin (channel : option number) (username : option jsstr) (p : GetLogsParams) : GetLogsParams :=
  {| lp_p := lp_p p; lp_page_size := lp_page_size p; lp_type := lp_type p; lp_model_name := lp_model_name p;
     lp_token_name := lp_token_name p; lp_group := lp_group p; lp_channel := channel;
     lp_username := username; lp_request_id := lp_request_id p;
     lp_upstream_request_id := lp_upstream_request_id p; lp_start_timestamp := lp_start_timestamp p;
     lp_end_timestamp := lp_end_timestamp p |}.

(** One column filter over the parameters. *)
Definition apply_filter (isAdmin : bool) (p : GetLogsParams) (f : jsstr * json) : GetLogsParams :=
  let '(id, value) := f in
  if match value with JNull => true | JStr s => negb (nonempty s) | _ => false end then p
  else if str_eqb id "type" then set_type (processType value) p
  else if str_eqb id "model_name" then set_log_texts (Some (json_toString value)) (lp_token_name p) (lp_group p) p
  else if str_eqb id "token_name" then set_log_texts (lp_model_name p) (Some (json_toString value)) (lp_group p) p
  else if str_eqb id "group" then set_log_texts (lp_model_name p) (lp_token_name p) (Some (json_toString value)) p
  else if str_eqb id "channel" then
    if isAdmin then set_admin (Some (channel_number value)) (lp_username p) p else p
  else if str_eqb id "username" then
    if isAdmin then set_admin (lp_channel p) (Some (json_toString value)) p else p
  else p.

Definition buildApiParams (page pageSize : number) (s : search_params) (columnFilters : list (jsstr * json))
    (isAdmin : bool) : GetLogsParams :=
  let range := buildTimeRangeParams s false in
  fold_left (apply_filter isAdmin) columnFilters
    {| lp_p := page; lp_page_size := pageSize; lp_type := truthy_param "type" s ≫= processType;
       lp_model_name := text_param "model" s; lp_token_name := text_param "token" s;
       lp_group := text_param "group" s;
       lp_channel := if isAdmin then channel_number <$> truthy_param "channel" s else None;
       lp_username := if isAdmin then text_param "username" s else None;
       lp_request_id := text_param "requestId" s; lp_upstream_request_id := text_param "upstreamRequestId" s;
       lp_start_timestamp := range.1; lp_end_timestamp := range.2 |}.

Record BaseParams : Type := {
  bp_p : number;
  bp_page_size : number;
  bp_channel_id : option jsstr;
  bp_start_timestamp : option number;
  bp_end_timestamp : option number
}.

Definition buildBaseParams (page pageSize : number) (s : search_params) (useMilliseconds : bool) : BaseParams :=
  let range := buildTimeRangeParams s useMilliseconds in
  {| bp_p := page; bp_page_size := pageSize; bp_channel_id := text_param "channel" s;
     bp_start_timestamp := range.1; bp_end_timestamp := range.2 |}.

Inductive LogCategory : Type := CommonLogs | DrawingLogs | TaskLogs.

(** The requests, each for all users or for the own account. *)
Inductive LogsRequest : Type :=
| GetLogs (all : bool) (params : GetLogsParams)
| GetMidjourneyLogs (all : bool) (params : BaseParams) (mj_id : option json)
| GetTaskLogs (all : bool) (params : BaseParams) (task_id : option json).

Definition fetchLogsByCategory (logCategory : LogCategory) (isAdmin : bool) (page pageSize : number)
    (s : search_params) (columnFilters : list (jsstr * json)) : LogsRequest :=
  match logCategory with
  | CommonLogs => GetLogs isAdmin (buildApiParams page pageSize s columnFilters isAdmin)
  | DrawingLogs => GetMidjourneyLogs isAdmin (buildBaseParams page pageSize s true) (rec_get "filter" s)
  | TaskLogs => GetTaskLogs isAdmin (buildBaseParams page pageSize s false) (rec_get "filter" s)
  end.

(** What the table of logs asks for in a state. *)
Definition logs_query (isMobile isAdmin : bool) (logCategory : LogCategory) (st : TableState) : LogsRequest :=
  let page := pagination (usage_logs_table isMobile isAdmin) (ts_search st) in
  fetchLogsByCategory logCategory isAdmin (num_add (pageIndex page) (num_of_Z 1)) (pageSize page) (ts_search st)
    (ts_columnFilters st).
End requests.

(** ** The price of a request *)

(** The fields of [other] that the summary reads. *)
Record LogOtherData : Type := {
  lo_billing_mode : option jsstr;
  lo_expr_b64 : option jsstr;
  lo_matched_tier : option jsstr;
  lo_cache_tokens : list (option number)
}.

(** The four counts of cache tokens. *)
Definition hasAnyCacheTokens (other : LogOtherData) : bool :=
  existsb (λ n, num_ltb zero (num_or (default NaN n) zero)) (lo_cache_tokens other).

Section summary.
(** The text of Base64 bytes, [None] when they cannot be decoded. *)
Context (decode_b64 : jsstr → option jsstr) (toLowerCase : jsstr → jsstr).

Definition decodeBillingExprB64 (exprB64 : option jsstr) : jsstr :=
  match exprB64 with
  | Some b => if nonempty b then default [] (decode_b64 b) else []
  | None => []
  end.

Definition resolveMatchedTier (tiers : list ParsedTier) (matchedLabel : option jsstr) : option ParsedTier :=
  match tiers, matchedLabel with
  | [], _ | _, None => None
  | _, Some label =>
      if nonempty label then
        List.find (λ tier, let l1 := normalizeTierLabel toLowerCase (Some (pt_label tier)) in
                           let l2 := normalizeTierLabel toLowerCase (Some label) in
                           str_eqb l1 l2 && nonempty l1) tiers
      else None
  end.

Record PriceEntry : Type := { pe_field : jsstr; pe_shortLabel : jsstr; pe_price : number }.

Record TieredBillingSummary : Type := {
  ts_tiers : list ParsedTier;
  ts_tier : ParsedTier;
  ts_priceEntries : list PriceEntry
}.

Definition price_entry (cacheTokensPresent : bool) (tier : ParsedTier) (v : BillingVar) : option PriceEntry :=
  match bv_field v with
  | Some field =>
      if negb (nonempty field) then None
      else if match bv_group v with Some g => str_eqb g "cache" | None => false end && negb cacheTokensPresent
      then None
      else let price := default NaN (assoc_get field (pt_fields tier)) in
           if isFinite price && num_ltb zero price
           then Some {| pe_field := field; pe_shortLabel := bv_shortLabel v; pe_price := price |} else None
  | None => None
  end.

Definition getTieredBillingSummary (other : option LogOtherData) : option TieredBillingSummary :=
  match other with
  | Some o =>
      if match lo_billing_mode o with Some m => str_eqb m "tiered_expr" | None => false end then
        let exprStr := decodeBillingExprB64 (lo_expr_b64 o) in
        if nonempty exprStr then
          let tiers := parseTiersFromExpr exprStr in
          match resolveMatchedTier tiers (lo_matched_tier o) with
          | Some tier =>
              Some {| ts_tiers := tiers; ts_tier := tier;
                      ts_priceEntries := omap (price_entry (hasAnyCacheTokens o) tier) BILLING_PRICING_VARS |}
          | None => None
          end
        else None
      else None
  | None => None
  end.
End summary.
