(* ===== verification/UsageLogTheorems.v ===== *)
(** * Theorems on the usage logs

    Users ask for their own logs only, the address alone decides what the table asks for,
    and a log explains its price by the tier that was matched. *)
From Stdlib Require Import NArith ZArith.
From stdpp Require Import list numbers.
From S2P Require Import Prelude JsString JsNumber JsFloat Json JsArray JsRecord BillingExpr TierExpr TierRoundtrip TierTheorems TierDisplay Currency ChannelForm TableUrl UsageLogs.

(** ** Requests *)

Section requests.
Context (now day_start : number).

Lemma user_filter p f :
  lp_channel p = None ∧ lp_username p = None →
  lp_channel (apply_filter false p f) = None ∧ lp_username (apply_filter false p f) = None.
Proof. destruct f as [id v]. intros H. unfold apply_filter. by repeat case_match. Qed.

(** A user who is no administrator asks for the own logs, and never by channel or user. *)
Theorem own_logs_only isMobile category st :
  match logs_query now day_start isMobile false category st with
  | GetLogs all p => all = false ∧ lp_channel p = None ∧ lp_username p = None
  | GetMidjourneyLogs all _ _ | GetTaskLogs all _ _ => all = false
  end.
Proof.
  destruct category; cbn; [|done|done]. split; [done|]. unfold buildApiParams.
  match goal with |- context [fold_left _ _ ?p0] => assert (H : lp_channel p0 = None ∧ lp_username p0 = None) by done; revert H; generalize p0 end.
  induction (ts_columnFilters st) as [|f fs IH]; intros p H; cbn; [done|]. by apply IH, user_filter.
Qed.

(** A text that is shown as a filter is the parameter of the address. *)
Lemma text_column s id key i v :
  read_column s (column id key true) = Some (i, v) →
  i = id ∧ ∃ t, v = JStr t ∧ nonempty t = true ∧ truthy_param key s = Some (JStr t) ∧ text_param key s = Some t.
Proof.
  unfold read_column, text_param, truthy_param. cbn. intros H. destruct (rec_get key s) as [w|]; [|done].
  destruct w as [| | |t| |]; try done. cbn in H. destruct (nonempty (trim t)) eqn:E; [|done]. simplify_eq. split; [done|].
  exists t. destruct t; [done|]. by cbn.
Qed.

(** The parameters say what the address says. *)
Definition address_params (isAdmin : bool) (s : search_params) (p : GetLogsParams) : Prop :=
  lp_model_name p = text_param "model" s ∧ lp_token_name p = text_param "token" s ∧ lp_group p = text_param "group" s
  ∧ (isAdmin = true → lp_channel p = channel_number <$> truthy_param "channel" s ∧ lp_username p = text_param "username" s).

Lemma filter_redundant isMobile isAdmin c s p :
  c ∈ tc_columns (usage_logs_table isMobile isAdmin) → address_params isAdmin s p →
  from_option (apply_filter isAdmin p) p (read_column s c) = p.
Proof.
  intros Hc H. destruct (read_column s c) as [[i v]|] eqn:E; [|done]. cbn in Hc.
  destruct p as [p1 p2 p3 p4 p5 p6 p7 p8 p9 p10 p11 p12]. unfold address_params in H. cbn in H.
  destruct H as (-> & -> & -> & H).
  apply elem_of_cons in Hc as [->|Hc].
  { unfold read_column in E. cbn in E. destruct (List.filter _ _); simplify_eq. done. }
  repeat (apply elem_of_cons in Hc as [->|Hc];
    [apply text_column in E as (-> & [|x t] & -> & Ht & H1 & H2); [done|]; cbn; unfold apply_filter, set_log_texts; cbn;
     by rewrite <- H2|]).
  destruct isAdmin; [|by apply not_elem_of_nil in Hc]. destruct (H eq_refl) as [-> ->].
  apply elem_of_cons in Hc as [->|Hc];
    [apply text_column in E as (-> & [|x t] & -> & Ht & H1 & H2); [done|]; cbn; unfold apply_filter, set_admin; cbn;
     by rewrite H1|].
  apply elem_of_cons in Hc as [->|Hc]; [|by apply not_elem_of_nil in Hc].
  apply text_column in E as (-> & [|x t] & -> & Ht & H1 & H2); [done|]. cbn. unfold apply_filter, set_admin. cbn.
  by rewrite <- H2.
Qed.

Lemma filters_redundant isMobile isAdmin cs s p :
  (∀ c, c ∈ cs → c ∈ tc_columns (usage_logs_table isMobile isAdmin)) → address_params isAdmin s p →
  fold_left (apply_filter isAdmin) (omap (read_column s) cs) p = p.
Proof.
  intros Hc H. induction cs as [|c cs IH]; cbn [omap list_omap]; [done|].
  assert (Hr := filter_redundant isMobile isAdmin c s p (Hc c (list_elem_of_here _ _)) H).
  destruct (read_column s c) as [f|]; cbn in *; [rewrite Hr|]; apply IH; intros c' Hc'; apply Hc; by apply list_elem_of_further.
Qed.

(** The address alone decides which logs are asked for: the filters that are shown for it
    add nothing and change nothing. *)
Theorem address_decides_query isMobile isAdmin page size s :
  buildApiParams now day_start page size s (initialColumnFilters (usage_logs_table isMobile isAdmin) s) isAdmin
  = buildApiParams now day_start page size s [] isAdmin.
Proof.
  unfold buildApiParams, initialColumnFilters. apply (filters_redundant isMobile); [done|].
  repeat split; by destruct isAdmin.
Qed.
End requests.

(** ** Prices *)

Section summary.
Context (decode_b64 : jsstr → option jsstr) (toLowerCase : jsstr → jsstr).

Definition label_key (tier : VisualTier) : jsstr := normalizeTierLabel toLowerCase (Some (vt_label tier)).

Lemma find_tier (tiers : VisualConfig) tier :
  NoDup (map label_key tiers) → tier ∈ tiers → nonempty (label_key tier) = true →
  List.find (λ t, str_eqb (normalizeTierLabel toLowerCase (Some (pt_label t))) (label_key tier)
                  && nonempty (normalizeTierLabel toLowerCase (Some (pt_label t)))) (shown_tiers tiers)
  = Some (display_tier (given tier) tier).
Proof.
  unfold shown_tiers. induction tiers as [|t0 tiers IH]; intros Hn Hin Hne; [by apply not_elem_of_nil in Hin|].
  cbn [map] in *. apply list.NoDup_cons in Hn as [H0 Hn].
  cbn [List.find display_tier pt_label]. fold (label_key t0). apply elem_of_cons in Hin as [->|Hin].
  - by rewrite str_eqb_refl, Hne.
  - destruct (str_eqb_spec (label_key t0) (label_key tier)) as [E|_]; [|by apply IH].
    exfalso. apply H0. rewrite E. by apply list_elem_of_In, in_map, list_elem_of_In.
Qed.

(** A request that was billed by a tier of a configuration of the editor is explained by
    exactly that tier: its positive prices, those of the cache only when it was used. *)
Theorem log_shows_matched_tier tiers tier o b64 :
  wf_config tiers = true → NoDup (map label_key tiers) → tier ∈ tiers → nonempty (label_key tier) = true →
  lo_billing_mode o = Some "tiered_expr" → lo_expr_b64 o = Some b64 → nonempty b64 = true →
  decode_b64 b64 = Some (generateExprFromVisualConfig (Some tiers)) → lo_matched_tier o = Some (vt_label tier) →
  getTieredBillingSummary decode_b64 toLowerCase (Some o)
  = Some {| ts_tiers := shown_tiers tiers; ts_tier := display_tier (given tier) tier;
            ts_priceEntries := omap (price_entry (hasAnyCacheTokens o) (display_tier (given tier) tier))
                                 BILLING_PRICING_VARS |}.
Proof.
  intros Hw Hn Hin Hne Hm He Hb Hd Ht. unfold getTieredBillingSummary. rewrite Hm, He, str_eqb_refl.
  unfold decodeBillingExprB64. rewrite Hb, Hd. cbn [default from_option id].
  destruct (config_head tiers Hw) as [_ ->]. rewrite parse_config by done.
  unfold resolveMatchedTier. rewrite Ht.
  assert (Hl : nonempty (vt_label tier) = true).
  { unfold label_key, normalizeTierLabel in Hne. cbn in Hne. by destruct (nonempty (vt_label tier)). }
  rewrite Hl. assert (Hs : shown_tiers tiers ≠ []).
  { destruct tiers; [by apply not_elem_of_nil in Hin|done]. }
  pose proof (find_tier tiers tier Hn Hin Hne) as Hf. fold (label_key tier).
  destruct (shown_tiers tiers) as [|x l] eqn:E; [done|]. rewrite <- E in *. by rewrite Hf.
Qed.
End summary.
